(* ===== verification/_CoqProject ===== *)
-Q . S2P
Prelude.v
Kernel.v
Traps.v
Spinlock.v
CString.v
Kalloc.v
Umalloc.v
Vm.v
Block.v
Bio.v
Ide.v
Log.v
Tx.v
Fs.v
Layout.v
Contents.v
Dir.v
Inode.v
Names.v
Mkfs.v
Proc.v
Exec.v
Pipe.v
Grep.v
Console.v
Kbd.v
Sh.v
Shrun.v
Cmds.v
File.v
Syscall.v
Sysfile.v
Sysproc.v
Seg.v
Mp.v
Boot.v
Intr.v
Lapic.v
Minix.v
Alocador.v
Mkern.v
Simulador.v
Threads.v
Startup.v
Filosofos.v
Barbeiro.v
LeitorRedator.v
ProdCons.v
Batalha.v
JogoNaval.v
