(* ===== verification/Prelude.v ===== *)
(** * Verification of the operating-systems course repository

    The repository holds the programs of a course on operating systems: the
    teaching kernel xv6 (src/xv6) with its shell, a few classical programs
    on processes and threads, the memory manager of MINIX, a multitasking
    kernel for DOS and a simulated operating system.  This library models
    them function by function and proves what makes them correct.

    ** How the code is modelled

    Machine integers are [Z] with [u32], [i32], ... written where the code
    wraps (this file).  Kernel code is a state transformer in the monad of
    Kernel.v, which returns, panics, sleeps, spins or runs into undefined
    behaviour; [wp m Q s] says that [m] returns from [s] with [Q], so every
    theorem stated with it includes that the code terminates and does not
    panic; [wpe] allows the panics it names.  A lens (Spinlock.v) gives
    each component the part of the state it works on, so that acquire and
    release are the same functions everywhere.  The threads of the
    exercises are interleaved statement by statement by any schedule
    (Threads.v); CPUs that compete for a lock, crashes of the disk, readers
    and writers of a pipe and tasks of the DOS kernel are step relations or
    runs over arbitrary sequences of events.

    ** The parts of xv6 and how they interact

    - Spinlock.v: spinlock.c, and an interleaving model of several CPUs.
    - CString.v: string.c and the string part of ulib.c over a byte memory.
    - Kalloc.v: kalloc.c; the free list lives in the pages it links.
    - Vm.v: vm.c; page tables are pages of that memory, and are compared
      with the translation the processor makes from them.
    - Bio.v: bio.c on memide.c, with the pointers of the LRU list.  The
      class [BufferCache] is what the cache promises (a block store with
      held and pinned buffers); the instance [bcache_ok] proves the code
      implements it.  Ide.v: ide.c over the class [AtaController] of what
      it relies on of the disk controller.
    - Log.v: log.c over any [BufferCache], with crashes between any two
      disk writes.  Tx.v: the class [TxStore], what a transaction gives to
      fs.c; the instance [log_tx] proves that the log implements it.
    - Block.v: words and bytes in a block.  Fs.v: fs.c over any [TxStore]:
      block allocation, inodes, directories, path names.  Layout.v: the
      bytes of a file as the addresses in its inode name them.  Contents.v:
      bmap, readi and writei against these bytes.  Dir.v: dirlookup and
      dirlink against the map from names to inodes.  Inode.v: ialloc, itrunc
      and iput, the life of an inode and its blocks.  Names.v: namex
      against the tree the directories on the disk form.  Mkfs.v: mkfs.c, the host
      program that makes the first file system, against the same layout.
    - Proc.v: proc.c over the class [ProcEnv] of what it calls elsewhere.
    - Exec.v: exec.c over the class [ExecEnv].
    - Pipe.v: pipe.c.  File.v: file.c and pipealloc over the class
      [InodeLayer] (fs.c, log.c and pipe.c seen as completed calls).
    - Syscall.v, Sysfile.v, Sysproc.v: syscall.c, sysfile.c, sysproc.c and
      trap.c over the process table, the open files and [InodeLayer].
    - Seg.v: the segment descriptors, the task state and the interrupt table
      (mmu.h, seginit and switchuvm of vm.c, tvinit and idtinit of trap.c) as
      the bytes the processor reads, with the processor's part of taking an
      interrupt.  Mp.v: mp.c, the search for the multiprocessor tables.
    - Boot.v: bootmain.c over [AtaController].  Intr.v: picirq.c, ioapic.c,
      timer.c, uart.c and consoleinit, with the devices they program.
      Lapic.v: lapic.c and a clock that goes on while it is read.  Startup.v:
      startothers of main.c, interleaved with the processors it starts.
      Traps.v: the constants of traps.h.
    - Console.v: console.c and the formatting of printf.c.  Kbd.v: kbd.c.
    - User programs: Umalloc.v (umalloc.c), Grep.v (grep.c), Sh.v (the
      parser of sh.c), Shrun.v (its runcmd) and Cmds.v (its main loop, and
      wc.c, cat.c, echo.c, ls.c, rm.c, mkdir.c, ln.c, kill.c, init.c).

    The laws of [ProcEnv], [ExecEnv] and [InodeLayer] are about completed
    calls and are shown consistent by instances ([env0], [view_env],
    [count_layer], [count_env]); they are not yet derived from Fs.v and
    Vm.v.  Each relates the state below to a view of what the caller holds
    (kernel stacks, page directories and processes' resources in [kview];
    inode references, locks, pipe ends and the transaction in [iview] and
    [xview]), has the callee's own checks as premises (freevm is only given
    a page directory that is allocated, iunlock an inode that is locked),
    and allows the panics no caller can rule out: those of fs.c, log.c and
    bio.c on a full table, log or disk or on a disk that is not a file
    system ([low_panic]).  The resources of the processes that are alive are
    exactly those of the view ([res_ok]), so a fork that fails and a wait
    that reaps are shown to give every page back.

    ** The other programs

    - Minix.v: the hole table of Gerência de Memória/minix.c.  Alocador.v:
      meu_alloc.c and memory_management_unity.c of the same directory.
    - Mkern.v: mkern0/mkern0.c.  Simulador.v: simulador_so.c/simulador.c.
    - Filosofos.v, Barbeiro.v, LeitorRedator.v, ProdCons.v: the programs of
      the directories of these names.
    - Batalha.v: the board of Batalha Naval (game.c).  JogoNaval.v: its
      processes, which share a table and two semaphores (main.c, semop.c).

    ** What the theorems show

    - Storage: a crash at any disk write leaves the old or the new file
      system as a whole ([commit_crash_atomic]); the cache refines a block
      store ([bio_refines]); log_write pins and records a block once;
      balloc, iget and iupdate/ilock do what fs.h promises;
      readi returns and writei replaces exactly the bytes of the file, and
      a write touches no block of another file ([writei_spec]); dirlink
      binds one name and dirlookup finds exactly the names bound; namex
      follows a path to the inode the directories give it ([namex_spec]); ialloc
      takes a free inode ([ialloc_spec]) and iput gives back every block of a
      file that has lost its last name and reference ([iput_spec]); the disk
      driver serves its queue in order, and a request it serves does what the
      disk says unless the controller reports an error ([ide_refines]).  mkfs makes
      an image with exactly the files it was given ([mkfs_formats]), on which
      the kernel reads their bytes ([mkfs_readable]).
    - Memory: kalloc never hands out a page twice ([kalloc_exclusive]);
      mappages and setupkvm build exactly the translations asked for;
      malloc/free and alloc_mem/free_mem keep exact account of the free
      memory and merge it; meu_aloca and meu_desaloca are inverse
      ([aloca_desaloca]) and merge joins all neighbouring holes.
    - The processor: after switchuvm any interrupt of a user program enters
      the kernel at its vector and on the process's own kernel stack
      ([trap_entry]); mpinit counts the processors of the machine
      ([mpinit_spec]) and does not return on an entry it does not know.
    - Start and devices: the boot loader puts every segment of the kernel
      file in memory ([bootmain_spec]); the other processors each come up on a
      stack of their own under any interleaving ([startothers_safe]); exactly
      the interrupt lines that main.c asks for are delivered
      ([devices_deliver]); the date read from the clock is one the clock
      showed ([cmostime_spec]).
    - Processes: fork, wait and exit on every branch, fairness of the
      scheduler as it is resumed after each switch ([scheduler_fair]); exec
      leaves everything as it was or installs exactly the
      image of the file; every call of sysfile.c gives back the references,
      locks and transactions it takes ([sysfile_balanced]).
    - Communication: mutual exclusion of the spin lock under every
      interleaving, pipes are FIFO and lose no wakeup, the console
      implements its line discipline.
    - User level: the shell's parser is total and its plumbing connects
      exactly the ends the command describes; grep's matcher decides the
      language of its pattern.
    - Exercises: exclusion, absence of deadlock and order of items for any
      schedule, and the schedules in which the readers and writers block.
      The ships of battleship are placed whole, apart and on the board
      ([genBattle_spec]), the players always see a board of whole ships with
      exactly the bombs thrown on it and one challenger is let in ([jogo_safe]), and the table is always
      given back ([jogo_gives_back]).

    ** Bounds

    Loops that are not structural carry fuel, and the theorems prove that it
    is enough: walks of the buffer list take [bget_fuel] = NBUF + 1 steps;
    the hole lists of minix.c at most NR_HOLES + 1; the address-range loops of
    kalloc.c and vm.c as many as there are pages in the range, plus a
    margin; printint 32 digits; a walk of malloc's list any number greater
    than its length; the parser of the shell four calls per byte of the line (
    [parsecmd_total] shows it never runs out); readi, writei and iappend one
    round per block and three more; mpinit one round per entry of the table;
    the lists of Alocador.v one round per block; readseg one round per
    sector and three more; waits for the disk and the APIC as many polls as
    the device takes; cmostime one round per read until the clock is quiet; genBattle tries until six ships
    are placed, for any fuel ([genBattle_goes_on]: it is never stuck).  Loops that wait for other
    processes are not fuelled: they return [Sleeps], and the caller is
    suspended there.

    ** Not modelled, and why

    Third-party code copied into the repository (the SD library, rs232.c,
    the server of Advanced Linux Programming); the assembly
    files, and of main.c the order in which it calls the components other than
    the devices; the
    C++ variants of the allocators; test programs that only call the modelled
    system calls (usertests.c, forktest.c, stressfs.c, zombie.c); programs
    that only read from and write to a terminal or a device of the host
    (Pipes, Diretórios, Gerenciamento IO, CTRL + C, Exercício médias); the message loop of minix.c and the video routines of mkern0.c.

    ** Order of work

    Done: the above.  Next: [InodeLayer], [ExecEnv] and [ProcEnv] derived from
    Fs.v and Vm.v. *)

From stdpp Require Export base list numbers strings relations.

(** ** Machine integers

    A C [uint] is a [Z] kept in [0 .. 2^32-1]; arithmetic on it is
    arithmetic on [Z] followed by [u32].  A C [int] is a [Z] in
    [-2^31 .. 2^31-1]; [i32] is the two's-complement reading of 32 bits. *)

Declare Scope c_scope.
Delimit Scope c_scope with c.

Definition u8 (x : Z) : Z := (x mod 256)%Z.
Definition u16 (x : Z) : Z := (x mod 65536)%Z.
Definition u32 (x : Z) : Z := (x mod 4294967296)%Z.
Definition i32 (x : Z) : Z :=
  (let y := x mod 4294967296 in if y <? 2147483648 then y else y - 4294967296)%Z.

Notation "a +u b" := (u32 (a + b)) (at level 50, left associativity) : c_scope.
Notation "a -u b" := (u32 (a - b)) (at level 50, left associativity) : c_scope.

Definition is_u32 (x : Z) : Prop := (0 ≤ x < 4294967296)%Z.
Definition is_u8 (x : Z) : Prop := (0 ≤ x < 256)%Z.

(** ** Automation *)

Create HintDb cint.
Create Rewrite HintDb cint.

(** [zdm] reads [/] and [mod] as their defining equations and calls [lia]. *)
Ltac zdm := Z.div_mod_to_equations; lia.

(** [deex] opens the existentials and conjunctions of the hypotheses. *)
Ltac deex :=
  repeat match goal with
         | H : ∃ x, _ |- _ => let x' := fresh x in destruct H as [x' H]
         | H : _ ∧ _ |- _ => destruct H
         end.

(** [case_if] splits on the first boolean test of the goal and keeps its
    outcome as an arithmetic fact when it is a comparison. *)
Ltac bool_facts :=
  repeat match goal with
         | H : (_ && _)%bool = true |- _ => apply andb_prop in H as [? ?]
         | H : (_ || _)%bool = false |- _ => apply orb_false_elim in H as [? ?]
         | H : (_ =? _)%Z = true |- _ => apply Z.eqb_eq in H
         | H : (_ =? _)%Z = false |- _ => apply Z.eqb_neq in H
         | H : (_ <? _)%Z = true |- _ => apply Z.ltb_lt in H
         | H : (_ <? _)%Z = false |- _ => apply Z.ltb_ge in H
         | H : (_ <=? _)%Z = true |- _ => apply Z.leb_le in H
         | H : (_ <=? _)%Z = false |- _ => apply Z.leb_gt in H
         | H : negb _ = true |- _ => apply negb_true_iff in H
         | H : negb _ = false |- _ => apply negb_false_iff in H
         end.

Ltac case_if :=
  match goal with
  | |- context [if ?b then _ else _] =>
      let E := fresh "E" in destruct b eqn:E; bool_facts
  end.

(** [zcmp] splits on every integer comparison of the goal. *)
Ltac zcmp :=
  repeat (match goal with
          | |- context [(?a <=? ?b)%Z] => destruct (Z.leb_spec a b)
          | |- context [(?a <? ?b)%Z] => destruct (Z.ltb_spec a b)
          | |- context [(?a =? ?b)%Z] => destruct (Z.eqb_spec a b)
          end; simpl andb; simpl orb; simpl negb; cbv iota; try lia).

(** ** Lemmas on machine integers *)

Lemma u32_range x : is_u32 (u32 x).
Proof. unfold is_u32, u32. apply Z.mod_pos_bound. lia. Qed.

Lemma u32_small x : is_u32 x → u32 x = x.
Proof. intros. unfold u32. by apply Z.mod_small. Qed.

Lemma u32_u32 x : u32 (u32 x) = u32 x.
Proof. apply u32_small, u32_range. Qed.

Lemma u32_add_l x y : u32 (u32 x + y) = u32 (x + y).
Proof. unfold u32. by rewrite Zplus_mod_idemp_l. Qed.

Lemma u32_add_r x y : u32 (x + u32 y) = u32 (x + y).
Proof. unfold u32. by rewrite Zplus_mod_idemp_r. Qed.

Lemma u32_sub_l x y : u32 (u32 x - y) = u32 (x - y).
Proof. unfold u32. by rewrite Zminus_mod_idemp_l. Qed.

Lemma u32_sub_r x y : u32 (x - u32 y) = u32 (x - y).
Proof. unfold u32. by rewrite Zminus_mod_idemp_r. Qed.

(** The residue modulo a divisor of [2^32] survives the wrap-around. *)
Lemma u32_mod_pow2 x k :
  (0 ≤ k ≤ 32)%Z → (u32 x mod 2 ^ k = x mod 2 ^ k)%Z.
Proof.
  intros Hk. unfold u32. change 4294967296%Z with (2 ^ 32)%Z.
  replace 32%Z with (k + (32 - k))%Z by lia.
  rewrite Z.pow_add_r by lia.
  rewrite Z.rem_mul_r by (try apply Z.pow_nonzero; try apply Z.pow_pos_nonneg; lia).
  rewrite Z.mul_comm, Z.mod_add by (apply Z.pow_nonzero; lia).
  rewrite Z.mod_mod; [done|apply Z.pow_nonzero; lia].
Qed.

Lemma i32_range x : (-2147483648 ≤ i32 x < 2147483648)%Z.
Proof.
  unfold i32. assert (0 ≤ x mod 4294967296 < 4294967296)%Z by (apply Z.mod_pos_bound; lia).
  case_if; lia.
Qed.

Lemma i32_small x : (-2147483648 ≤ x < 2147483648)%Z → i32 x = x.
Proof. intros. unfold i32. case_if; zdm. Qed.

Lemma u32_i32 x : u32 (i32 x) = u32 x.
Proof. unfold u32, i32. case_if; zdm. Qed.

(** A boolean fact about all bytes is checked by running it. *)
Lemma byte_all (P : Z → bool) :
  forallb P (Z.of_nat <$> seq 0 256) = true → ∀ b, is_u8 b → P b = true.
Proof.
  intros H b [H1 H2]. rewrite forallb_forall in H. apply H.
  apply list_elem_of_In, list_elem_of_fmap. exists (Z.to_nat b). split; [lia|].
  apply elem_of_seq. lia.
Qed.

#[export] Hint Resolve u32_range u32_small i32_range : cint.
#[export] Hint Rewrite u32_u32 u32_add_l u32_add_r u32_sub_l u32_sub_r : cint.

(** ** Lemmas on lists *)

Section lists.
Context {A : Type}.
Implicit Types (l k : list A) (x y : A).

Lemma lookup_insert_case l (i j : nat) x :
  (i < length l)%nat →
  <[i:=x]> l !! j = if decide (i = j) then Some x else l !! j.
Proof.
  intros. case_decide; subst;
    [by apply list_lookup_insert_eq | by apply list_lookup_insert_ne].
Qed.

Lemma Forall_insert_same (P : A → Prop) l (i : nat) x :
  Forall P l → P x → Forall P (<[i:=x]> l).
Proof. intros. by apply Forall_insert. Qed.

(** An element moves from one list to the other. *)
Lemma move_perm l k (l' : list A) x : (l ++ x :: k) ++ l' ≡ₚ (l ++ k) ++ x :: l'.
Proof. by rewrite <-!Permutation_middle. Qed.

Lemma lookup_some_lt l (i : nat) x : l !! i = Some x → (i < length l)%nat.
Proof. apply lookup_lt_Some. Qed.
End lists.

#[export] Hint Resolve lookup_some_lt : core.
