(* ===== verification/Kernel.v ===== *)
(** * The kernel monad

    Kernel code is a state transformer that returns, panics, puts the
    running process to sleep, spins on a lock another CPU holds, or runs
    into undefined behaviour (a null or wild pointer, an index outside its
    array, a loop over a structure that is not well formed).

    [Sleeps c s] stands for [sleep(chan, lk)]: the process is parked on the
    channel [c] and [s] is the state it leaves to the others.  In every
    function modelled here the call to [sleep] is the body of a loop that
    tests its condition again, and no local variable is live around it, so
    resuming is calling the function again; where a local variable is live
    (pipewrite, consoleread) the component models the suspended call
    itself.  When a callee sleeps, its caller is suspended with it: a
    [Sleeps] that comes out of a longer function (namex in ilock, say) is
    that function stopped at that call, and a theorem that it returns is
    about the case in which no callee sleeps. *)

From S2P Require Import Prelude.

Inductive outcome (S A : Type) : Type :=
  | Ret (a : A) (s : S)
  | Panic (msg : string)
  | Sleeps (chan : Z) (s : S)
  | Spins
  | Fault.
Arguments Ret {S A} a s.
Arguments Panic {S A} msg.
Arguments Sleeps {S A} chan s.
Arguments Spins {S A}.
Arguments Fault {S A}.

Definition M (S A : Type) : Type := S → outcome S A.

#[export] Instance M_ret {S} : MRet (M S) := λ A a s, Ret a s.
#[export] Instance M_bind {S} : MBind (M S) := λ A B f m s,
  match m s with
  | Ret a s' => f a s'
  | Panic msg => Panic msg
  | Sleeps c s' => Sleeps c s'
  | Spins => Spins
  | Fault => Fault
  end.

Section ops.
Context {S : Type}.

Definition panic {A} (msg : string) : M S A := λ _, Panic msg.
Definition fault {A} : M S A := λ _, Fault.
Definition spins {A} : M S A := λ _, Spins.
Definition sleeps {A} (chan : Z) : M S A := λ s, Sleeps chan s.
Definition gets {A} (f : S → A) : M S A := λ s, Ret (f s) s.
Definition modify (f : S → S) : M S unit := λ s, Ret tt (f s).

(** The value of an option, with undefined behaviour on [None]. *)
Definition deref {A} (o : option A) : M S A :=
  match o with Some a => mret a | None => fault end.

(** [while]-style iteration over a list of indices or elements. *)
Fixpoint forM {A} (l : list A) (f : A → M S unit) : M S unit :=
  match l with
  | [] => mret tt
  | x :: l => f x ;; forM l f
  end.
End ops.

(** ** Total correctness

    [wp m Q s]: running [m] from [s] returns, and the result satisfies [Q]. *)
Definition wp {S A} (m : M S A) (Q : A → S → Prop) (s : S) : Prop :=
  match m s with Ret a s' => Q a s' | _ => False end.

Section wp.
Context {S : Type}.
Implicit Types (s : S).

Lemma wp_ret {A} (a : A) (Q : A → S → Prop) s : Q a s → wp (mret a) Q s.
Proof. done. Qed.

Lemma wp_bind {A B} (m : M S A) (f : A → M S B) (Q : B → S → Prop) s :
  wp m (λ a s', wp (f a) Q s') s → wp (m ≫= f) Q s.
Proof. unfold wp, mbind, M_bind. by destruct (m s). Qed.

Lemma wp_mono {A} (m : M S A) (Q R : A → S → Prop) s :
  wp m Q s → (∀ a s', Q a s' → R a s') → wp m R s.
Proof. unfold wp. destruct (m s); naive_solver. Qed.

Lemma wp_conj {A} (m : M S A) (Q R : A → S → Prop) s : wp m Q s → wp m R s → wp m (λ a s', Q a s' ∧ R a s') s.
Proof. unfold wp. by destruct (m s). Qed.

Lemma wp_gets {A} (f : S → A) (Q : A → S → Prop) s : Q (f s) s → wp (gets f) Q s.
Proof. done. Qed.

Lemma wp_modify (f : S → S) (Q : unit → S → Prop) s : Q tt (f s) → wp (modify f) Q s.
Proof. done. Qed.

Lemma wp_deref {A} (o : option A) a (Q : A → S → Prop) s :
  o = Some a → Q a s → wp (deref o) Q s.
Proof. by intros ->. Qed.

Lemma wp_inv {A} (m : M S A) (Q : A → S → Prop) s :
  wp m Q s → ∃ a s', m s = Ret a s' ∧ Q a s'.
Proof. unfold wp. destruct (m s); naive_solver. Qed.

Lemma wp_run {A} (m : M S A) (Q : A → S → Prop) s a s' :
  m s = Ret a s' → Q a s' → wp m Q s.
Proof. unfold wp. by intros ->. Qed.

(** The state a computation ends in; the start state if it does not return. *)
Definition end_state {A} (m : M S A) (s : S) : S :=
  match m s with Ret _ s' => s' | _ => s end.

Lemma wp_end {A} (m : M S A) (Q : A → S → Prop) s :
  wp m Q s → ∃ a, Q a (end_state m s).
Proof. unfold wp, end_state. destruct (m s) as [a s'| | | |]; [by exists a|done..]. Qed.

(** Loops: an invariant indexed by what is left to iterate over. *)
Lemma wp_forM {A} (I : list A → S → Prop) (f : A → M S unit) l s :
  I l s →
  (∀ x l' s', (∃ pre, l = pre ++ x :: l') → I (x :: l') s' → wp (f x) (λ _, I l') s') →
  wp (forM l f) (λ _, I []) s.
Proof.
  revert s. induction l as [|x l IH]; intros s HI Hf; simpl; [by apply wp_ret|].
  apply wp_bind. eapply wp_mono; [apply Hf; [by exists []|done]|].
  intros a s' HI'. apply IH; [done|]. intros y l' s'' [pre Heq].
  apply Hf. exists (x :: pre). by rewrite Heq.
Qed.
End wp.

(** [wsw m Q s]: running [m] from [s] gives the CPU away in a state that
    satisfies [Q]. *)
Definition wsw {S A} (m : M S A) (Q : S → Prop) (s : S) : Prop :=
  match m s with Sleeps _ s' => Q s' | _ => False end.

Lemma wsw_bind {S A B} (m : M S A) (f : A → M S B) (Q : S → Prop) s :
  wp m (λ a s', wsw (f a) Q s') s → wsw (m ≫= f) Q s.
Proof. unfold wp, wsw, mbind, M_bind. by destruct (m s). Qed.

Lemma wsw_mono {S A} (m : M S A) (Q R : S → Prop) s :
  wsw m Q s → (∀ s', Q s' → R s') → wsw m R s.
Proof. unfold wsw. destruct (m s); naive_solver. Qed.

Lemma wsw_sleeps {S A} c (Q : S → Prop) s : Q s → wsw (A:=A) (sleeps c) Q s.
Proof. done. Qed.

(** [wpe m Q E s]: running [m] from [s] returns with [Q] or panics with [E]. *)
Definition wpe {S A} (m : M S A) (Q : A → S → Prop) (E : string → Prop) (s : S) : Prop :=
  match m s with Ret a s' => Q a s' | Panic msg => E msg | _ => False end.

Lemma wpe_bind {S A B} (m : M S A) (f : A → M S B) (Q : B → S → Prop) E s :
  wp m (λ a s', wpe (f a) Q E s') s → wpe (m ≫= f) Q E s.
Proof. unfold wp, wpe, mbind, M_bind. by destruct (m s). Qed.

Lemma wpe_bind_e {S A B} (m : M S A) (f : A → M S B) (Q : B → S → Prop) E s :
  wpe m (λ a s', wpe (f a) Q E s') E s → wpe (m ≫= f) Q E s.
Proof. unfold wpe, mbind, M_bind. by destruct (m s). Qed.

Lemma wpe_mono {S A} (m : M S A) (Q R : A → S → Prop) (E F : string → Prop) s :
  wpe m Q E s → (∀ a s', Q a s' → R a s') → (∀ msg, E msg → F msg) → wpe m R F s.
Proof. unfold wpe. destruct (m s); naive_solver. Qed.

Lemma wpe_wp {S A} (m : M S A) (Q : A → S → Prop) E s : wp m Q s → wpe m Q E s.
Proof. unfold wp, wpe. by destruct (m s). Qed.

(** ** The panics of the layers below the inodes

    What fs.c, log.c, bio.c and ide.c say when a table, a buffer cache, the
    log or the disk is full, or when the disk does not hold a file system
    that agrees with itself.  Callers above them cannot rule these out by
    calling them properly. *)
Definition low_panics : list string :=
  ["bget: no buffers"; "iget: no inodes"; "ialloc: no inodes"; "balloc: out of blocks";
   "too big a transaction"; "ilock: no type"; "bmap: out of range"; "freeing free block";
   "dirlookup not DIR"; "dirlink read"; "dirlink"; "incorrect blockno"]%string.
Definition low_panic (msg : string) : Prop := msg ∈ low_panics.

Create HintDb wp.
#[export] Hint Resolve wp_ret wp_gets wp_modify : wp.

(** [wstep] moves through the next monadic operation of a [wp] or [wpe] goal. *)
Ltac wstep :=
  lazymatch goal with
  | |- wp (mbind _ _) _ _ => apply wp_bind
  | |- wp (mret _) _ _ => apply wp_ret
  | |- wp (gets _) _ _ => apply wp_gets
  | |- wp (modify _) _ _ => apply wp_modify
  | |- wp (if ?b then _ else _) _ _ =>
      let E := fresh "E" in destruct b eqn:E; bool_facts
  | |- wpe (mbind _ _) _ _ _ => apply wpe_bind_e
  | |- wpe (mret _) _ _ _ => apply wpe_wp, wp_ret
  | |- wpe (gets _) _ _ _ => apply wpe_wp, wp_gets
  | |- wpe (modify _) _ _ _ => apply wpe_wp, wp_modify
  | |- wpe (if ?b then _ else _) _ _ _ =>
      let E := fresh "E" in destruct b eqn:E; bool_facts
  end.
Ltac wsteps := repeat (wstep; simpl).
