(* ===== verification/Traps.v ===== *)
(** * Interrupt vectors and lines (xv6/traps.h) *)

From S2P Require Import Prelude.
Local Open Scope Z_scope.

Definition T_SYSCALL : Z := 64.
Definition T_IRQ0 : Z := 32.
Definition IRQ_TIMER : Z := 0.
Definition IRQ_KBD : Z := 1.
Definition IRQ_COM1 : Z := 4.
Definition IRQ_IDE : Z := 14.
Definition IRQ_ERROR : Z := 19.
Definition IRQ_SPURIOUS : Z := 31.
