(* ===== verification/Spinlock.v ===== *)
(** * Spin locks and interrupt nesting (xv6/spinlock.c)

    The first part models spinlock.c function by function over a state that
    holds the running CPU (seen through a lens) and the lock (seen through
    another lens), so that every component below calls the same [acquire]
    and [release].  The second part interleaves several CPUs that run
    acquire and release on one lock, one memory access at a time, and
    proves mutual exclusion. *)

From S2P Require Import Prelude Kernel.
Local Open Scope Z_scope.

(** ** Lenses: a component of a larger state *)

Record lens (S A : Type) := mkLens { lget : S → A; lput : A → S → S }.
Arguments mkLens {S A}.
Arguments lget {S A}.
Arguments lput {S A}.

Class LensOk {S A} (l : lens S A) : Prop := {
  lget_lput a s : lget l (lput l a s) = a;
  lput_lput a b s : lput l a (lput l b s) = lput l a s;
  lput_lget s : lput l (lget l s) s = s;
}.

Class LensIndep {S A B} (l : lens S A) (k : lens S B) : Prop := {
  lget_lput_l b s : lget l (lput k b s) = lget l s;
  lget_lput_r a s : lget k (lput l a s) = lget k s;
  lput_comm a b s : lput l a (lput k b s) = lput k b (lput l a s);
}.

(** ** Data *)

Definition KERNBASE : Z := 2147483648.  (* 0x80000000 *)
Definition FL_IF : Z := 512.            (* 0x200 *)

(** struct spinlock; [lcpu] is the [cpu] pointer, [None] for 0. *)
Record spinlock := mkLock {
  locked : Z;
  lname : string;
  lcpu : option nat;
  pcs : list Z;
}.

(** The part of struct cpu and of the processor the lock code uses: the
    CPU's identity, the pushcli depth, the saved interrupt flag, EFLAGS,
    the words of the kernel stack and the address of the current call's
    first argument. *)
Record cpu := mkCpu {
  cpu_id : nat;
  ncli : Z;
  intena : Z;
  eflags : Z;
  stackw : Z → Z;
  frame : Z;
}.

Definition set_ncli (n : Z) (c : cpu) : cpu :=
  mkCpu (cpu_id c) n (intena c) (eflags c) (stackw c) (frame c).
Definition set_intena (i : Z) (c : cpu) : cpu :=
  mkCpu (cpu_id c) (ncli c) i (eflags c) (stackw c) (frame c).
Definition set_eflags (e : Z) (c : cpu) : cpu :=
  mkCpu (cpu_id c) (ncli c) (intena c) e (stackw c) (frame c).

(** cli and sti clear and set the interrupt flag. *)
Definition cli (c : cpu) : cpu := set_eflags (Z.ldiff (eflags c) FL_IF) c.
Definition sti (c : cpu) : cpu := set_eflags (Z.lor (eflags c) FL_IF) c.
Definition intr_on (c : cpu) : bool := negb (Z.land (eflags c) FL_IF =? 0).

(** ** spinlock.c *)

Definition initlock (name : string) (l : spinlock) : spinlock :=
  mkLock 0 name None (pcs l).

Fixpoint getcallerpcs_loop (stk : Z → Z) (ebp : Z) (n : nat) : list Z :=
  match n with
  | O => []
  | S n' =>
      if (ebp =? 0) || (ebp <? KERNBASE) || (ebp =? 4294967295)
      then replicate n 0
      else stk (u32 (ebp + 4)) :: getcallerpcs_loop stk (stk ebp) n'
  end.

Definition getcallerpcs (stk : Z → Z) (v : Z) : list Z :=
  getcallerpcs_loop stk (u32 (v - 8)) 10.

Definition holding (c : cpu) (l : spinlock) : bool :=
  negb (locked l =? 0) && bool_decide (lcpu l = Some (cpu_id c)).

Section spinlock.
Context {S : Type} (cpul : lens S cpu).

Definition pushcli : M S unit :=
  ef ← gets (λ s, eflags (lget cpul s));
  modify (λ s, lput cpul (cli (lget cpul s)) s) ;;
  n ← gets (λ s, ncli (lget cpul s));
  modify (λ s, lput cpul (set_ncli (n + 1) (lget cpul s)) s) ;;
  if n =? 0
  then modify (λ s, lput cpul (set_intena (Z.land ef FL_IF) (lget cpul s)) s)
  else mret tt.

Definition popcli : M S unit :=
  on ← gets (λ s, intr_on (lget cpul s));
  if on : bool then panic "popcli - interruptible" else
  modify (λ s, lput cpul (set_ncli (ncli (lget cpul s) - 1) (lget cpul s)) s) ;;
  c ← gets (lget cpul);
  if ncli c <? 0 then panic "popcli" else
  if (ncli c =? 0) && negb (intena c =? 0)
  then modify (λ s, lput cpul (sti (lget cpul s)) s)
  else mret tt.

Definition acquire (lk : lens S spinlock) : M S unit :=
  pushcli ;;
  h ← gets (λ s, holding (lget cpul s) (lget lk s));
  if h : bool then panic "acquire" else
  l ← gets (lget lk);
  (* while(xchg(&lk->locked, 1) != 0) ; *)
  if negb (locked l =? 0) then spins else
  modify (λ s, lput lk (mkLock 1 (lname l) (lcpu l) (pcs l)) s) ;;
  modify (λ s, let c := lget cpul s in
               lput lk (mkLock 1 (lname l) (Some (cpu_id c))
                          (getcallerpcs (stackw c) (frame c))) s).

Definition release (lk : lens S spinlock) : M S unit :=
  h ← gets (λ s, holding (lget cpul s) (lget lk s));
  if negb h then panic "release" else
  l ← gets (lget lk);
  modify (λ s, lput lk (mkLock (locked l) (lname l) None (<[0%nat:=0]> (pcs l))) s) ;;
  l ← gets (lget lk);
  modify (λ s, lput lk (mkLock 0 (lname l) (lcpu l) (pcs l)) s) ;;
  popcli.
End spinlock.

(** ** Several CPUs on one lock

    One step is one access to the shared lock: the test of holding(), one
    round of the xchg loop, the store of [lk->cpu], the clearing of
    [lk->cpu], the final xchg. *)

Inductive lpc := LIdle | LXchg | LSetCpu | LCrit | LXchg0 | LPanic.

#[export] Instance lpc_eq_dec : EqDecision lpc.
Proof. solve_decision. Defined.

Record lsys := mkLsys { slock : spinlock; spc : nat → lpc }.

Definition pc_upd (f : nat → lpc) (c : nat) (p : lpc) : nat → lpc :=
  λ d, if decide (c = d) then p else f d.

Definition holds (c : nat) (l : spinlock) : bool :=
  negb (locked l =? 0) && bool_decide (lcpu l = Some c).

Inductive lstep : lsys → lsys → Prop :=
  | acquire_call c l f : f c = LIdle →
      lstep (mkLsys l f) (mkLsys l (pc_upd f c (if holds c l then LPanic else LXchg)))
  | acquire_xchg c l f : f c = LXchg →
      lstep (mkLsys l f)
        (mkLsys (mkLock 1 (lname l) (lcpu l) (pcs l))
           (pc_upd f c (if locked l =? 0 then LSetCpu else LXchg)))
  | acquire_setcpu c l f trace : f c = LSetCpu →
      lstep (mkLsys l f)
        (mkLsys (mkLock (locked l) (lname l) (Some c) trace) (pc_upd f c LCrit))
  | release_call c l f : f c = LCrit →
      lstep (mkLsys l f)
        (if holds c l
         then mkLsys (mkLock (locked l) (lname l) None (<[0%nat:=0]> (pcs l)))
                (pc_upd f c LXchg0)
         else mkLsys l (pc_upd f c LPanic))
  | release_xchg c l f : f c = LXchg0 →
      lstep (mkLsys l f)
        (mkLsys (mkLock 0 (lname l) (lcpu l) (pcs l)) (pc_upd f c LIdle)).

Definition lsys_init (name : string) (trace : list Z) : lsys :=
  mkLsys (mkLock 0 name None trace) (λ _, LIdle).

(** A CPU owns the lock from the successful xchg to the releasing one. *)
Definition owns (p : lpc) : bool :=
  match p with LSetCpu | LCrit | LXchg0 => true | _ => false end.

(** [o] is the owner: [locked] says whether there is one, [lk->cpu] names it
    while it is in its critical section. *)
Definition lock_inv (o : option nat) (s : lsys) : Prop :=
  (∀ c, spc s c ≠ LPanic) ∧
  (∀ c, owns (spc s c) = bool_decide (o = Some c)) ∧
  locked (slock s) = (if o is Some _ then 1 else 0) ∧
  lcpu (slock s) = (if o is Some c then if decide (spc s c = LCrit) then Some c else None
                    else None).

(** ** Interrupt flag *)

Lemma FL_IF_ldiff e : Z.land (Z.ldiff e FL_IF) FL_IF = 0.
Proof. rewrite Z.ldiff_land, <-Z.land_assoc. by rewrite (Z.land_comm (Z.lnot _)), Z.land_lnot_diag, Z.land_0_r. Qed.

Lemma intr_on_cli c : intr_on (cli c) = false.
Proof. unfold intr_on, cli. simpl. by rewrite FL_IF_ldiff. Qed.

(** Setting a flag that was set before it was cleared gives the flags back. *)
Lemma FL_IF_restore e : Z.land e FL_IF ≠ 0 → Z.lor (Z.ldiff e FL_IF) FL_IF = e.
Proof.
  intros H. apply Z.bits_inj'. intros n Hn.
  rewrite Z.lor_spec, Z.ldiff_spec. change FL_IF with (2 ^ 9).
  destruct (decide (n = 9)) as [->|Hne].
  - rewrite Z.pow2_bits_true by lia. rewrite orb_true_r.
    destruct (Z.testbit e 9) eqn:E; [done|]. destruct H.
    apply Z.bits_inj'. intros m Hm. rewrite Z.land_spec, Z.bits_0.
    change FL_IF with (2 ^ 9). destruct (decide (m = 9)) as [->|].
    + by rewrite E.
    + rewrite Z.pow2_bits_false by lia. by rewrite andb_false_r.
  - rewrite Z.pow2_bits_false by lia. simpl. by rewrite andb_true_r, orb_false_r.
Qed.

Lemma FL_IF_clear e : Z.land e FL_IF = 0 → Z.ldiff e FL_IF = e.
Proof.
  intros H. apply Z.bits_inj'. intros n Hn. rewrite Z.ldiff_spec.
  assert (Hb : Z.testbit (Z.land e FL_IF) n = false) by (rewrite H; apply Z.bits_0).
  rewrite Z.land_spec in Hb. by destruct (Z.testbit e n), (Z.testbit FL_IF n).
Qed.

(** The CPU state between pushcli and the matching popcli. *)
Definition pushed (c : cpu) : cpu :=
  let c1 := set_ncli (ncli c + 1) (cli c) in
  if ncli c =? 0 then set_intena (Z.land (eflags c) FL_IF) c1 else c1.

(** What popcli gives back: everything but [intena], which only means
    something while [ncli > 0]. *)
Definition unpushed (c : cpu) : cpu :=
  if ncli c =? 0 then set_intena (Z.land (eflags c) FL_IF) c else c.

(** The discipline of spinlock.c: interrupts are off while [ncli > 0]. *)
Definition cpu_ok (c : cpu) : Prop :=
  0 ≤ ncli c ∧ (0 < ncli c → intr_on c = false).

Section spinlock_facts.
Context {S : Type} (cpul : lens S cpu) `{!LensOk cpul}.
Context (lk : lens S spinlock) `{!LensOk lk, !LensIndep cpul lk}.

Lemma pushcli_run s :
  pushcli cpul s = Ret tt (lput cpul (pushed (lget cpul s)) s).
Proof using LensOk0.
  unfold pushcli, pushed, mbind, M_bind, gets, modify, mret, M_ret.
  cbv beta iota. rewrite !lget_lput. simpl.
  case_if; by repeat rewrite ?lget_lput, ?lput_lput.
Qed.

Lemma popcli_run s c :
  cpu_ok c →
  popcli cpul (lput cpul (pushed c) s) = Ret tt (lput cpul (unpushed c) s).
Proof using LensOk0.
  intros [Hn Hif].
  unfold popcli, mbind, M_bind, gets, modify, mret, M_ret.
  rewrite !lget_lput.
  assert (intr_on (pushed c) = false) as ->.
  { unfold pushed. destruct (ncli c =? 0); apply (intr_on_cli c). }
  cbv beta iota. rewrite !lput_lput, !lget_lput.
  assert (ncli (set_ncli (ncli (pushed c) - 1) (pushed c)) = ncli c) as ->.
  { unfold pushed. case_if; simpl; lia. }
  replace (ncli c <? 0) with false by (symmetry; by apply Z.ltb_ge).
  unfold pushed, unpushed, intr_on in *. destruct c as [id n i e w f]; simpl in *.
  destruct (n =? 0) eqn:En; bool_facts; simpl.
  - subst. destruct (Z.land e FL_IF =? 0) eqn:Ee; bool_facts; simpl.
    + unfold cli, set_ncli, set_intena, set_eflags; simpl. by rewrite FL_IF_clear.
    + rewrite ?lget_lput, ?lput_lput.
      unfold cli, sti, set_ncli, set_intena, set_eflags; simpl. by rewrite FL_IF_restore.
  - unfold cli, set_ncli, set_intena, set_eflags; simpl.
    assert (Z.land e FL_IF = 0) as He.
    { destruct (Z.eqb_spec (Z.land e FL_IF) 0); [done|]. specialize (Hif ltac:(lia)). done. }
    rewrite FL_IF_clear by done. by replace (n + 1 - 1) with n by lia.
Qed.

(** The state inside the critical section of [lk]. *)
Definition acquired (s : S) : S :=
  let c := pushed (lget cpul s) in
  lput lk (mkLock 1 (lname (lget lk s)) (Some (cpu_id c)) (getcallerpcs (stackw c) (frame c)))
    (lput cpul c s).

Lemma acquire_free s :
  locked (lget lk s) = 0 → acquire cpul lk s = Ret tt (acquired s).
Proof using All.
  intros Hl. unfold acquire.
  unfold mbind, M_bind. rewrite pushcli_run. unfold gets, modify, mret, M_ret.
  assert (Hlk : ∀ c s, lget lk (lput cpul c s) = lget lk s) by apply lget_lput_r.
  assert (Hcpu : ∀ l s, lget cpul (lput lk l s) = lget cpul s) by apply lget_lput_l.
  cbv beta iota. rewrite !Hlk. unfold holding. rewrite Hl. simpl.
  rewrite !Hlk, Hl. simpl. by rewrite Hcpu, lget_lput, lput_lput.
Qed.

(** A second acquire of a lock this CPU holds panics. *)
Lemma acquire_held s :
  holding (lget cpul s) (lget lk s) = true → acquire cpul lk s = Panic "acquire".
Proof using All.
  intros Hh. unfold acquire, mbind, M_bind. rewrite pushcli_run.
  unfold gets, modify. cbv beta iota.
  rewrite lget_lput, (lget_lput_r (l:=cpul) (k:=lk)).
  assert (holding (pushed (lget cpul s)) (lget lk s) = true) as ->; [|done].
  revert Hh. unfold holding, pushed. by case_if.
Qed.

(** A lock another CPU holds is waited for. *)
Lemma acquire_busy s :
  locked (lget lk s) ≠ 0 → lcpu (lget lk s) ≠ Some (cpu_id (lget cpul s)) →
  acquire cpul lk s = Spins.
Proof using All.
  intros Hl Hc. unfold acquire, mbind, M_bind. rewrite pushcli_run.
  unfold gets, modify. cbv beta iota.
  rewrite lget_lput, (lget_lput_r (l:=cpul) (k:=lk)).
  assert (holding (pushed (lget cpul s)) (lget lk s) = false) as ->.
  { unfold holding. apply andb_false_iff. right. apply bool_decide_eq_false.
    unfold pushed. by case_if. }
  apply Z.eqb_neq in Hl. rewrite (lget_lput_r (l:=cpul) (k:=lk)). by rewrite Hl.
Qed.

(** The lock after release: free, its trace cut. *)
Definition released (s : S) : S :=
  lput lk (mkLock 0 (lname (lget lk s)) None (<[0%nat:=0]> (pcs (lget lk s)))) s.

(** [update] stands for the critical section: it may change anything but
    the lock and the CPU. *)
Lemma release_run s t :
  cpu_ok (lget cpul s) →
  lget cpul t = lget cpul (acquired s) → lget lk t = lget lk (acquired s) →
  release cpul lk t =
    Ret tt (lput cpul (unpushed (lget cpul s)) (released t)).
Proof using All.
  intros Hok Hc Hlk0. unfold released.
  assert (Hlk : ∀ c s, lget lk (lput cpul c s) = lget lk s) by apply lget_lput_r.
  assert (Hcpu : ∀ l s, lget cpul (lput lk l s) = lget cpul s) by apply lget_lput_l.
  assert (Hh : holding (lget cpul t) (lget lk t) = true).
  { rewrite Hc, Hlk0. unfold acquired, holding. rewrite Hcpu, !lget_lput. simpl.
    by rewrite bool_decide_eq_true_2. }
  unfold release, mbind, M_bind, gets, modify. cbv beta iota. rewrite Hh. simpl.
  rewrite lget_lput, lput_lput. simpl.
  set (t' := lput lk _ t).
  assert (Ht : t' = lput cpul (pushed (lget cpul s)) t').
  { transitivity (lput cpul (lget cpul t') t'); [symmetry; apply lput_lget|].
    f_equal. unfold t'. rewrite Hcpu, Hc. unfold acquired. by rewrite Hcpu, lget_lput. }
  rewrite <-(popcli_run t' _ Hok). by rewrite <-Ht.
Qed.
End spinlock_facts.

(** The two rules client components use: a critical section is entered on a
    free lock, and left with the lock free and the CPU as it was. *)
Section wp_lock.
Context {S : Type} (cpul : lens S cpu) (lk : lens S spinlock).
Context `{!LensOk cpul, !LensOk lk, !LensIndep cpul lk}.

(** No lock operation under way: the lock is free and the CPU's interrupt
    nesting is consistent. *)
Definition quiet (s : S) : Prop := locked (lget lk s) = 0 ∧ cpu_ok (lget cpul s).

Definition leave (s t : S) : S :=
  lput cpul (unpushed (lget cpul s)) (released lk t).

Lemma wp_acquire (Q : unit → S → Prop) s :
  quiet s → Q tt (acquired cpul lk s) → wp (acquire cpul lk) Q s.
Proof using All. intros [Hl _] HQ. eapply wp_run; [by apply acquire_free|done]. Qed.

Lemma wp_release (Q : unit → S → Prop) s t :
  quiet s → lget cpul t = lget cpul (acquired cpul lk s) →
  lget lk t = lget lk (acquired cpul lk s) →
  Q tt (leave s t) → wp (release cpul lk) Q t.
Proof using All.
  intros [_ Hc] H1 H2 HQ. eapply wp_run; [by eapply release_run|done].
Qed.

Lemma leave_quiet s t : quiet s → quiet (leave s t).
Proof using All.
  intros [_ [Hn Hi]]. unfold leave, quiet.
  rewrite (lget_lput_r (l:=cpul) (k:=lk)), lget_lput. unfold released.
  rewrite lget_lput. split; [done|]. unfold unpushed, cpu_ok. by case_if.
Qed.
End wp_lock.

(** ** Properties *)

(** Repetition of an action. *)
Fixpoint rep {S} (n : nat) (m : M S unit) : M S unit :=
  match n with O => mret tt | Datatypes.S n => m ;; rep n m end.

Lemma rep_snoc {S} n (m : M S unit) s : rep (Datatypes.S n) m s = (rep n m ;; m) s.
Proof.
  revert s. induction n as [|n IH]; intros s; unfold mbind, M_bind in *; simpl in *.
  - unfold mret, M_ret, mbind, M_bind. by destruct (m s) as [[]| | | |].
  - unfold mbind, M_bind in *. destruct (m s) as [[] s1| | | |]; [apply IH|done..].
Qed.

Lemma pushed_ok c : cpu_ok c → cpu_ok (pushed c).
Proof.
  unfold cpu_ok. intros [Hn _].
  split; [unfold pushed; case_if; simpl; lia|]. intros _.
  unfold pushed. case_if; apply (intr_on_cli c).
Qed.

Lemma unpushed_pushed c : cpu_ok c → unpushed (pushed c) = pushed c.
Proof.
  intros [Hn _]. unfold unpushed.
  replace (ncli (pushed c) =? 0) with false; [done|].
  symmetry. apply Z.eqb_neq. unfold pushed. case_if; simpl; lia.
Qed.

Lemma push_pop_run {S} (cpul : lens S cpu) `{!LensOk cpul} n c s :
  cpu_ok c →
  (rep n (pushcli cpul) ;; rep n (popcli cpul)) (lput cpul c s) =
    Ret tt (lput cpul (if decide (n = 0%nat) then c else unpushed c) s).
Proof.
  revert c. induction n as [|n IH]; intros c Hc.
  { done. }
  rewrite decide_False by done. unfold mbind at 1, M_bind at 1.
  change (rep (Datatypes.S n) (pushcli cpul) (lput cpul c s))
    with ((pushcli cpul ;; rep n (pushcli cpul)) (lput cpul c s)).
  unfold mbind at 1, M_bind at 1. rewrite pushcli_run, lget_lput, lput_lput by done.
  specialize (IH (pushed c) (pushed_ok _ Hc)). unfold mbind, M_bind in IH.
  destruct (rep n (pushcli cpul) _) as [[] s1| | | |]; try done.
  rewrite rep_snoc. unfold mbind, M_bind. rewrite IH.
  rewrite unpushed_pushed by done.
  destruct (decide (n = 0%nat)); by apply popcli_run.
Qed.

(** pushcli and popcli nest: [n] popcli undo [n] pushcli, however deep
    the CPU already is, and interrupts are enabled again exactly when they
    were enabled before the outermost pushcli; popcli never panics. *)
Theorem pushcli_popcli_nest {S} (cpul : lens S cpu) `{!LensOk cpul} n s :
  cpu_ok (lget cpul s) →
  wp (rep n (pushcli cpul) ;; rep n (popcli cpul))
    (λ _ s', ncli (lget cpul s') = ncli (lget cpul s) ∧
             eflags (lget cpul s') = eflags (lget cpul s)) s.
Proof.
  intros Hc. eapply wp_run.
  - rewrite <-(lput_lget s) at 1. by apply push_pop_run.
  - rewrite !lget_lput. unfold unpushed. case_decide; [done|]. by case_if.
Qed.

(** A critical section [acquire(lk); body; release(lk)] on a free lock
    runs the body with the lock held, gives the lock back free, and leaves
    the CPU's pushcli depth and interrupt flag as they were, for every body
    that returns and leaves the lock and the CPU alone. *)
Theorem critical_section {S A} (cpul : lens S cpu) (lk : lens S spinlock)
    `{!LensOk cpul, !LensOk lk, !LensIndep cpul lk} (body : M S A) s a t :
  locked (lget lk s) = 0 → cpu_ok (lget cpul s) →
  body (acquired cpul lk s) = Ret a t →
  lget cpul t = lget cpul (acquired cpul lk s) →
  lget lk t = lget lk (acquired cpul lk s) →
  wp (acquire cpul lk ;; r ← body; release cpul lk ;; mret r)
    (λ r s', r = a ∧ locked (lget lk s') = 0 ∧ lcpu (lget lk s') = None ∧
             ncli (lget cpul s') = ncli (lget cpul s) ∧
             eflags (lget cpul s') = eflags (lget cpul s)) s.
Proof.
  intros Hl Hc Hb Hcpu Hlk. apply wp_bind. eapply wp_run; [by apply acquire_free|].
  apply wp_bind. eapply wp_run; [done|].
  apply wp_bind. eapply wp_run; [by eapply release_run|].
  apply wp_ret. rewrite (lget_lput_r (l:=cpul) (k:=lk)), lget_lput. unfold released.
  rewrite lget_lput. simpl. repeat split; unfold unpushed; by case_if.
Qed.

Section mutex_facts.
Implicit Types (f : nat → lpc).

Lemma pc_upd_eq f c p : pc_upd f c p c = p.
Proof. unfold pc_upd. by rewrite decide_True. Qed.

Lemma pc_upd_ne f c p d : c ≠ d → pc_upd f c p d = f d.
Proof. intros. unfold pc_upd. by rewrite decide_False. Qed.

Lemma holds_spec c l : holds c l = true ↔ locked l ≠ 0 ∧ lcpu l = Some c.
Proof.
  unfold holds. rewrite andb_true_iff, bool_decide_eq_true, negb_true_iff, Z.eqb_neq. done.
Qed.
End mutex_facts.

Lemma lock_inv_init name trace : lock_inv None (lsys_init name trace).
Proof. by repeat split. Qed.

(** Moving CPU [c] to a program counter with the same ownership keeps the
    ownership part of the invariant; [o'] is the owner afterwards. *)
Lemma owns_upd (f : nat → lpc) c p o o' :
  (∀ d, owns (f d) = bool_decide (o = Some d)) →
  owns p = bool_decide (o' = Some c) →
  (∀ d, d ≠ c → o' = Some d ↔ o = Some d) →
  ∀ d, owns (pc_upd f c p d) = bool_decide (o' = Some d).
Proof.
  intros Hf Hp Ho d. destruct (decide (c = d)) as [->|Hne].
  - by rewrite pc_upd_eq.
  - rewrite pc_upd_ne, Hf by done. apply bool_decide_ext. symmetry. by apply Ho.
Qed.

Lemma no_panic_upd (f : nat → lpc) c p :
  (∀ d, f d ≠ LPanic) → p ≠ LPanic → ∀ d, pc_upd f c p d ≠ LPanic.
Proof. intros Hf Hp d. unfold pc_upd. by case_decide. Qed.

Lemma owner_of (f : nat → lpc) o c :
  (∀ d, owns (f d) = bool_decide (o = Some d)) → owns (f c) = true → o = Some c.
Proof. intros Hf H. rewrite Hf in H. by apply bool_decide_eq_true in H. Qed.

Lemma not_owner_of (f : nat → lpc) o c :
  (∀ d, owns (f d) = bool_decide (o = Some d)) → owns (f c) = false → o ≠ Some c.
Proof. intros Hf H. rewrite Hf in H. by apply bool_decide_eq_false in H. Qed.

(** The holding() test is true for the owner in its critical section only. *)
Lemma holds_inv o s c :
  lock_inv o s → holds c (slock s) = true ↔ spc s c = LCrit.
Proof.
  intros (_ & Hown & Hl & Hc). rewrite holds_spec, Hl, Hc. split.
  - intros [_ H]. destruct o as [d|]; [|done]. case_decide; congruence.
  - intros H. assert (o = Some c) as -> by (apply (owner_of _ _ _ Hown); by rewrite H).
    by rewrite decide_True.
Qed.

(** A step of a CPU that is not the owner and does not become it. *)
Lemma lock_inv_other o l l' f c p :
  lock_inv o (mkLsys l f) → owns (f c) = false → owns p = false → p ≠ LPanic →
  locked l' = locked l → lcpu l' = lcpu l → lock_inv o (mkLsys l' (pc_upd f c p)).
Proof.
  intros (Hp & Hown & Hl & Hc) Hfc Hpc HpP Hl' Hc'. simpl in *.
  pose proof (not_owner_of _ _ _ Hown Hfc) as Hno. split_and!; simpl.
  - by apply no_panic_upd.
  - apply (owns_upd _ _ _ o); [done| |done]. rewrite Hpc. symmetry. by apply bool_decide_eq_false.
  - by rewrite Hl'.
  - rewrite Hc', Hc. destruct o as [d|]; [|done]. by rewrite pc_upd_ne by congruence.
Qed.

(** A step of the owner that stays the owner. *)
Lemma lock_inv_owner l l' f c p :
  lock_inv (Some c) (mkLsys l f) → owns p = true → locked l' = 1 →
  lcpu l' = (if decide (p = LCrit) then Some c else None) →
  lock_inv (Some c) (mkLsys l' (pc_upd f c p)).
Proof.
  intros (Hp & Hown & Hl & Hc) Hpc Hl' Hc'. simpl in *. split_and!; simpl.
  - apply no_panic_upd; [done|]. by intros ->.
  - apply (owns_upd _ _ _ (Some c)); [done| |done]. rewrite Hpc. by rewrite bool_decide_eq_true_2.
  - done.
  - by rewrite pc_upd_eq.
Qed.

Lemma lock_inv_step o s t : lock_inv o s → lstep s t → ∃ o', lock_inv o' t.
Proof.
  intros Hinv Hstep.
  destruct Hstep as [c l f Hc|c l f Hc|c l f tr Hc|c l f Hc|c l f Hc].
  - (* acquire: the holding() test *)
    exists o. destruct (holds c l) eqn:Hh.
    + apply (holds_inv _ _ _ Hinv) in Hh. simpl in Hh. congruence.
    + eapply lock_inv_other; try done. by rewrite Hc.
  - (* one round of xchg *)
    pose proof Hinv as (Hp & Hown & Hl & Hcpu). simpl in *.
    destruct o as [d|]; rewrite Hl; simpl.
    + exists (Some d). eapply lock_inv_other; try done. by rewrite Hc.
    + exists (Some c). split_and!; simpl.
      * by apply no_panic_upd.
      * apply (owns_upd _ _ _ None); [done|by rewrite bool_decide_eq_true_2|naive_solver].
      * done.
      * by rewrite pc_upd_eq, decide_False.
  - (* lk->cpu = cpu *)
    assert (o = Some c) as -> by (eapply owner_of; [apply Hinv|]; simpl; by rewrite Hc).
    exists (Some c). eapply lock_inv_owner; try done. apply Hinv.
  - (* release: the holding() test and lk->cpu = 0 *)
    assert (o = Some c) as -> by (eapply owner_of; [apply Hinv|]; simpl; by rewrite Hc).
    assert (holds c l = true) as -> by (by apply (holds_inv _ _ _ Hinv)).
    exists (Some c). eapply lock_inv_owner; try done. apply Hinv.
  - (* the releasing xchg *)
    assert (o = Some c) as -> by (eapply owner_of; [apply Hinv|]; simpl; by rewrite Hc).
    destruct Hinv as (Hp & Hown & Hl & Hcpu). simpl in *. exists None. split_and!; simpl.
    + by apply no_panic_upd.
    + apply (owns_upd f c LIdle (Some c) None); [done|done|naive_solver].
    + done.
    + rewrite Hcpu, decide_False by congruence. done.
Qed.

Lemma lock_inv_reachable name trace s :
  rtc lstep (lsys_init name trace) s → ∃ o, lock_inv o s.
Proof.
  intros Hr. remember (lsys_init name trace) as s0 eqn:E.
  assert (H0 : ∃ o, lock_inv o s0) by (exists None; subst; apply lock_inv_init).
  clear E. induction Hr as [|s0 s1 s2 Hs _ IH]; [done|].
  destruct H0 as [o H0]. apply IH. by eapply lock_inv_step.
Qed.

(** [C5] Mutual exclusion: however the CPUs interleave their accesses to
    the lock, at most one is between acquire and release, holding() is true
    for that CPU and no other, neither acquire nor release ever panics, and
    a CPU that waits while nobody owns the lock gets it with its next xchg. *)
Theorem spinlock_mutex name trace s :
  rtc lstep (lsys_init name trace) s →
  (∀ c d, spc s c = LCrit → spc s d = LCrit → c = d) ∧
  (∀ c, spc s c ≠ LPanic) ∧
  (∀ c, holds c (slock s) = true ↔ spc s c = LCrit) ∧
  (∀ c, spc s c = LXchg → (∀ d, owns (spc s d) = false) →
        ∃ t, lstep s t ∧ spc t c = LSetCpu).
Proof.
  intros [o Hinv]%lock_inv_reachable. pose proof Hinv as (Hp & Hown & Hl & Hc).
  split_and!; [|done|by intros; eapply holds_inv|].
  - intros c d H1 H2.
    assert (o = Some c) by (apply (owner_of _ _ _ Hown); by rewrite H1).
    assert (o = Some d) by (apply (owner_of _ _ _ Hown); by rewrite H2). congruence.
  - intros c Hx Hno. destruct s as [l f]. simpl in *. destruct o as [d|].
    { specialize (Hno d). rewrite Hown, bool_decide_eq_true_2 in Hno; done. }
    eexists. split; [by apply acquire_xchg|]. simpl. by rewrite pc_upd_eq, Hl.
Qed.

(** ** Witnesses: a machine with one CPU and one lock *)

Definition cl_cpu : lens (cpu * spinlock) cpu := mkLens fst (λ c s, (c, snd s)).
Definition cl_lock : lens (cpu * spinlock) spinlock := mkLens snd (λ l s, (fst s, l)).

#[export] Instance cl_cpu_ok : LensOk cl_cpu.
Proof. split; by intros; repeat match goal with s : _ * _ |- _ => destruct s end. Qed.
#[export] Instance cl_lock_ok : LensOk cl_lock.
Proof. split; by intros; repeat match goal with s : _ * _ |- _ => destruct s end. Qed.
#[export] Instance cl_indep : LensIndep cl_cpu cl_lock.
Proof. by split. Qed.

Definition cpu0 : cpu := mkCpu 0 0 0 FL_IF (λ _, 0) 0.
Definition lock0 : spinlock := mkLock 0 "lock" None (replicate 10 0).

Lemma cpu0_ok : cpu_ok cpu0.
Proof. split; [done|]. by intros. Qed.

Lemma pushcli_popcli_nest_witness :
  cpu_ok cpu0 ∧
  wp (rep 3 (pushcli cl_cpu) ;; rep 3 (popcli cl_cpu))
    (λ _ s', ncli (lget cl_cpu s') = 0 ∧ eflags (lget cl_cpu s') = FL_IF) (cpu0, lock0).
Proof.
  split; [apply cpu0_ok|].
  exact (pushcli_popcli_nest cl_cpu 3 (cpu0, lock0) cpu0_ok).
Defined.

Lemma critical_section_witness :
  wp (acquire cl_cpu cl_lock ;; r ← mret 7; release cl_cpu cl_lock ;; mret r)
    (λ r s', r = 7 ∧ locked (lget cl_lock s') = 0 ∧ lcpu (lget cl_lock s') = None ∧
             ncli (lget cl_cpu s') = 0 ∧ eflags (lget cl_cpu s') = FL_IF) (cpu0, lock0).
Proof.
  exact (critical_section cl_cpu cl_lock (mret 7) (cpu0, lock0) 7 _
           eq_refl cpu0_ok eq_refl eq_refl eq_refl).
Defined.

Definition lsys_one : lsys :=
  mkLsys (mkLock 1 "l" (Some 1%nat) [])
    (pc_upd (pc_upd (pc_upd (λ _, LIdle) 1 LXchg) 1 LSetCpu) 1 LCrit).

Lemma lsys_one_reachable : rtc lstep (lsys_init "l" []) lsys_one.
Proof.
  eapply rtc_l; [by apply (acquire_call 1%nat)|].
  eapply rtc_l; [by apply (acquire_xchg 1%nat)|].
  eapply rtc_l; [by apply (acquire_setcpu 1%nat _ _ [])|]. apply rtc_refl.
Qed.

Lemma spinlock_mutex_witness :
  spc lsys_one 1%nat = LCrit ∧ (∀ c, spc lsys_one c = LCrit → c = 1%nat).
Proof.
  split; [reflexivity|]. intros c Hc.
  destruct (spinlock_mutex _ _ _ lsys_one_reachable) as [H _]. by apply H.
Defined.
