(* ===== verification/CString.v ===== *)
(** * Byte memory and the string routines (xv6/string.c, xv6/ulib.c)

    Memory is a total function from addresses to bytes.  The routines that
    write are functions from memory to memory; the ones that only read a
    string take it as a stream of bytes [nat → Z], [at m a] being the
    stream that starts at address [a]. *)

From S2P Require Import Prelude.
Local Open Scope Z_scope.

(** ** Memory *)

Definition mem : Type := Z → Z.

Definition mem_ok (m : mem) : Prop := ∀ a, is_u8 (m a).

Definition store8 (m : mem) (a v : Z) : mem := λ x, if x =? a then u8 v else m x.

Definition load32 (m : mem) (a : Z) : Z :=
  m a + 256 * m (a + 1) + 65536 * m (a + 2) + 16777216 * m (a + 3).

Definition store32 (m : mem) (a v : Z) : mem :=
  let m := store8 m a v in
  let m := store8 m (a + 1) (v / 256) in
  let m := store8 m (a + 2) (v / 65536) in
  store8 m (a + 3) (v / 16777216).

Definition stream (m : mem) (a : Z) : nat → Z := λ i, m (a + Z.of_nat i).

(** ** x86.h: rep stosb and rep stosl *)

Fixpoint stosb (m : mem) (addr data : Z) (cnt : nat) : mem :=
  match cnt with
  | O => m
  | S k => stosb (store8 m addr data) (addr + 1) data k
  end.

Fixpoint stosl (m : mem) (addr data : Z) (cnt : nat) : mem :=
  match cnt with
  | O => m
  | S k => stosl (store32 m addr data) (addr + 4) data k
  end.

(** ** string.c *)

Definition memset (m : mem) (dst c n : Z) : mem :=
  if (dst mod 4 =? 0) && (n mod 4 =? 0)
  then let c := Z.land c 255 in
       stosl m dst
         (Z.lor (Z.lor (Z.lor (Z.shiftl c 24) (Z.shiftl c 16)) (Z.shiftl c 8)) c)
         (Z.to_nat (n / 4))
  else stosb m dst c (Z.to_nat n).

Fixpoint memcmp (s1 s2 : nat → Z) (i n : nat) : Z :=
  match n with
  | O => 0
  | S n => if s1 i =? s2 i then memcmp s1 s2 (S i) n else s1 i - s2 i
  end.

(** [while(n-- > 0) *--d = *--s;] *)
Fixpoint copy_down (m : mem) (d s : Z) (n : nat) : mem :=
  match n with
  | O => m
  | S n => copy_down (store8 m (d - 1) (m (s - 1))) (d - 1) (s - 1) n
  end.

(** [while(n-- > 0) *d++ = *s++;] *)
Fixpoint copy_up (m : mem) (d s : Z) (n : nat) : mem :=
  match n with
  | O => m
  | S n => copy_up (store8 m d (m s)) (d + 1) (s + 1) n
  end.

Definition memmove (m : mem) (dst src n : Z) : mem :=
  if (src <? dst) && (dst <? src + n)
  then copy_down m (dst + n) (src + n) (Z.to_nat n)
  else copy_up m dst src (Z.to_nat n).

(** [while(n > 0 && *p && *p == *q) n--, p++, q++;] then the test. *)
Fixpoint strncmp_at (p q : nat → Z) (i n : nat) : Z :=
  match n with
  | O => 0
  | S n' => if negb (p i =? 0) && (p i =? q i) then strncmp_at p q (S i) n'
            else p i - q i
  end.
Definition strncmp (p q : nat → Z) (n : nat) : Z := strncmp_at p q 0 n.

(** The two loops of strncpy; the first one hands over what is left of [n]
    and the address reached. *)
Fixpoint strncpy_copy (m : mem) (s t : Z) (n : nat) : mem * Z * nat :=
  match n with
  | O => (m, s, O)
  | S n => let c := m t in
           let m := store8 m s c in
           if c =? 0 then (m, s + 1, n) else strncpy_copy m (s + 1) (t + 1) n
  end.
Definition strncpy (m : mem) (s t n : Z) : mem :=
  let '(m, s, n) := strncpy_copy m s t (Z.to_nat n) in stosb m s 0 n.

(** safestrcpy: the loop stops one byte early, then [*s = 0]. *)
Fixpoint safestrcpy_copy (m : mem) (s t : Z) (n : nat) : mem * Z :=
  match n with
  | O => (m, s)
  | S n => let c := m t in
           let m := store8 m s c in
           if c =? 0 then (m, s + 1) else safestrcpy_copy m (s + 1) (t + 1) n
  end.
Definition safestrcpy (m : mem) (s t n : Z) : mem :=
  if n <=? 0 then m
  else let '(m, s) := safestrcpy_copy m s t (Z.to_nat (n - 1)) in store8 m s 0.

(** strlen walks until a NUL; [fuel] bounds the walk. *)
Fixpoint strlen_at (s : nat → Z) (i fuel : nat) : option nat :=
  match fuel with
  | O => None
  | S fuel => if s i =? 0 then Some i else strlen_at s (S i) fuel
  end.
Definition strlen (s : nat → Z) (fuel : nat) : option nat := strlen_at s 0 fuel.

(** ** ulib.c *)

Fixpoint strcpy (m : mem) (s t : Z) (fuel : nat) : option mem :=
  match fuel with
  | O => None
  | S fuel => let c := m t in
              let m := store8 m s c in
              if c =? 0 then Some m else strcpy m (s + 1) (t + 1) fuel
  end.

Fixpoint strcmp_at (p q : nat → Z) (i fuel : nat) : option Z :=
  match fuel with
  | O => None
  | S fuel => if negb (p i =? 0) && (p i =? q i) then strcmp_at p q (S i) fuel
              else Some (p i - q i)
  end.

(** The offset of the first [c], [Some None] when the NUL comes first. *)
Fixpoint strchr_at (s : nat → Z) (c : Z) (i fuel : nat) : option (option nat) :=
  match fuel with
  | O => None
  | S fuel => if s i =? 0 then Some None
              else if s i =? c then Some (Some i) else strchr_at s c (S i) fuel
  end.

(** atoi with the 32-bit wrap of [n*10 + *s++ - '0']. *)
Fixpoint atoi_at (s : nat → Z) (i : nat) (n : Z) (fuel : nat) : option Z :=
  match fuel with
  | O => None
  | S fuel => if (48 <=? s i) && (s i <=? 57)
              then atoi_at s (S i) (i32 (n * 10 + s i - 48)) fuel
              else Some n
  end.
Definition atoi (s : nat → Z) (fuel : nat) : option Z := atoi_at s 0 0 fuel.

(** The user-space memmove copies upwards whatever the overlap. *)
Definition ulib_memmove (m : mem) (dst src n : Z) : mem :=
  copy_up m dst src (Z.to_nat n).
Definition ulib_memset (m : mem) (dst c n : Z) : mem := stosb m dst c (Z.to_nat n).

(** ** Lemmas on memory *)

Lemma u8_small x : is_u8 x → u8 x = x.
Proof. intros. unfold u8. by apply Z.mod_small. Qed.

Lemma u8_range x : is_u8 (u8 x).
Proof. unfold is_u8, u8. apply Z.mod_pos_bound. lia. Qed.

Lemma store8_ok m a v : mem_ok m → mem_ok (store8 m a v).
Proof. intros Hm x. unfold store8. case_if; [apply u8_range|apply Hm]. Qed.

Lemma store32_ok m a v : mem_ok m → mem_ok (store32 m a v).
Proof. intros. unfold store32. by repeat apply store8_ok. Qed.

#[export] Hint Resolve store8_ok store32_ok u8_range : cint.

Lemma store8_eq m a v : store8 m a v a = u8 v.
Proof. unfold store8. by rewrite Z.eqb_refl. Qed.

Lemma store8_ne m a v x : x ≠ a → store8 m a v x = m x.
Proof. intros. unfold store8. by rewrite (proj2 (Z.eqb_neq x a)). Qed.

Lemma load32_range m a : mem_ok m → is_u32 (load32 m a).
Proof.
  intros H. unfold load32, is_u32.
  pose proof (H a). pose proof (H (a + 1)). pose proof (H (a + 2)). pose proof (H (a + 3)).
  unfold is_u8 in *. lia.
Qed.

(** A word store, read byte by byte. *)
Lemma store32_byte m a v x :
  store32 m a v x =
    if x =? a then u8 v else if x =? a + 1 then u8 (v / 256)
    else if x =? a + 2 then u8 (v / 65536) else if x =? a + 3 then u8 (v / 16777216)
    else m x.
Proof. unfold store32, store8. repeat case_if; try lia; done. Qed.

Lemma store32_out m a v x : ¬ (a ≤ x < a + 4) → store32 m a v x = m x.
Proof. intros. rewrite store32_byte. repeat case_if; lia. Qed.

Lemma load_store32_eq m a v : is_u32 v → load32 (store32 m a v) a = v.
Proof.
  intros Hv. unfold load32. rewrite !store32_byte.
  repeat case_if; try lia. unfold u8, is_u32 in *. zdm.
Qed.

Lemma load_store32_ne m a b v :
  b + 4 ≤ a ∨ a + 4 ≤ b → load32 (store32 m a v) b = load32 m b.
Proof. intros. unfold load32. by rewrite !store32_out by lia. Qed.

Lemma load32_ext m m' a : (∀ x, a ≤ x < a + 4 → m x = m' x) → load32 m a = load32 m' a.
Proof. intros H. unfold load32. by rewrite !H by lia. Qed.

Lemma stosb_spec m a c n x :
  stosb m a c n x = if (a <=? x) && (x <? a + Z.of_nat n) then u8 c else m x.
Proof.
  revert m a. induction n as [|n IH]; intros m a; simpl stosb.
  - by zcmp.
  - rewrite IH. unfold store8. by zcmp.
Qed.

Lemma stosl_spec m a c w n x :
  is_u8 c → w = c + 256 * c + 65536 * c + 16777216 * c →
  stosl m a w n x = if (a <=? x) && (x <? a + 4 * Z.of_nat n) then c else m x.
Proof.
  intros Hc Hw. revert m a. induction n as [|n IH]; intros m a; simpl stosl.
  - by zcmp.
  - rewrite IH, store32_byte. unfold is_u8 in Hc. subst w.
    zcmp; try done; unfold u8; zdm.
Qed.

(** The word memset stores repeats the byte. *)
Lemma byte_word c :
  Z.lor (Z.lor (Z.lor (Z.shiftl (Z.land c 255) 24) (Z.shiftl (Z.land c 255) 16))
           (Z.shiftl (Z.land c 255) 8)) (Z.land c 255) =
  u8 c + 256 * u8 c + 65536 * u8 c + 16777216 * u8 c.
Proof.
  change 255 with (Z.ones 8). rewrite Z.land_ones by lia. change (c mod 2 ^ 8) with (u8 c).
  apply Z.eqb_eq. revert c. intros c. generalize (u8_range c). generalize (u8 c).
  apply (byte_all (λ b, _)). vm_compute. reflexivity.
Qed.

(** memset fills exactly the range, whichever store instruction it picks. *)
Lemma memset_spec m dst c n x :
  0 ≤ n →
  memset m dst c n x = if (dst <=? x) && (x <? dst + n) then u8 c else m x.
Proof.
  intros Hn. unfold memset. case_if.
  - rewrite (stosl_spec _ _ (u8 c)); [|apply u8_range|apply byte_word].
    assert (4 * Z.of_nat (Z.to_nat (n / 4)) = n) as -> by zdm. done.
  - rewrite stosb_spec. by rewrite Z2Nat.id by done.
Qed.

Lemma memset_ok m dst c n : mem_ok m → 0 ≤ n → mem_ok (memset m dst c n).
Proof. intros Hm Hn x. rewrite memset_spec by done. case_if; [apply u8_range|apply Hm]. Qed.

Lemma copy_up_spec m d s n x :
  mem_ok m → d ≤ s ∨ s + Z.of_nat n ≤ d →
  copy_up m d s n x = if (d <=? x) && (x <? d + Z.of_nat n) then m (s + (x - d)) else m x.
Proof.
  revert m d s. induction n as [|n IH]; intros m d s Hm Hds; simpl copy_up.
  - by zcmp.
  - rewrite IH by (auto with cint; lia).
    destruct (decide (x = d)) as [->|Hne].
    + rewrite store8_eq, u8_small by apply Hm. zcmp. f_equal; lia.
    + zcmp; rewrite store8_ne by lia; f_equal; lia.
Qed.

Lemma copy_down_spec m d s n x :
  mem_ok m → s ≤ d →
  copy_down m d s n x =
    if (d - Z.of_nat n <=? x) && (x <? d) then m (s + (x - d)) else m x.
Proof.
  revert m d s. induction n as [|n IH]; intros m d s Hm Hds; simpl copy_down.
  - by zcmp.
  - rewrite IH by (auto with cint; lia).
    destruct (decide (x = d - 1)) as [->|Hne].
    + rewrite store8_eq, u8_small by apply Hm. zcmp. f_equal; lia.
    + zcmp; rewrite store8_ne by lia; f_equal; lia.
Qed.

Lemma memmove_byte m dst src n x :
  mem_ok m → 0 ≤ n →
  memmove m dst src n x =
    if (dst <=? x) && (x <? dst + n) then m (src + (x - dst)) else m x.
Proof.
  intros Hm Hn. unfold memmove. case_if.
  - rewrite copy_down_spec by (done || lia). rewrite Z2Nat.id by done.
    replace (dst + n - n) with dst by lia. case_if; f_equal; lia.
  - rewrite copy_up_spec; [|done|].
    + by rewrite Z2Nat.id by done.
    + destruct (Z.ltb_spec src dst), (Z.ltb_spec dst (src + n)); simpl in *; (done || lia).
Qed.

Lemma memmove_ok m dst src n : mem_ok m → 0 ≤ n → mem_ok (memmove m dst src n).
Proof. intros Hm Hn x. rewrite memmove_byte by done. case_if; apply Hm. Qed.

#[export] Hint Resolve memset_ok memmove_ok : cint.

Lemma strncmp_at_zero p q i n :
  strncmp_at p q i n = 0 ↔
  ∃ k, (k ≤ n)%nat ∧ (∀ j, (j < k)%nat → p (i + j)%nat = q (i + j)%nat ∧ p (i + j)%nat ≠ 0) ∧
       (k = n ∨ (p (i + k)%nat = 0 ∧ q (i + k)%nat = 0)).
Proof.
  revert i. induction n as [|n IH]; intros i; simpl.
  - split; [|done]. intros _. exists 0%nat. split_and!; [lia|lia|by left].
  - destruct (Z.eqb_spec (p i) 0) as [Hp|Hp]; simpl.
    { split.
      - intros Hq. exists 0%nat. rewrite Nat.add_0_r. split_and!; [lia|lia|right; lia].
      - intros (k & Hk & Hj & Hend). destruct k as [|k].
        + rewrite Nat.add_0_r in Hend. destruct Hend; lia.
        + specialize (Hj 0%nat ltac:(lia)). rewrite Nat.add_0_r in Hj. lia. }
    destruct (Z.eqb_spec (p i) (q i)) as [Hpq|Hpq]; simpl.
    + rewrite IH. split; intros (k & Hk & Hj & Hend).
      * exists (S k). rewrite Nat.add_succ_r.
        split_and!; [lia| |destruct Hend as [->|?]; [by left|by right]].
        intros [|j] Hlt; [by rewrite Nat.add_0_r|]. rewrite Nat.add_succ_r. apply (Hj j). lia.
      * destruct k as [|k]; [rewrite Nat.add_0_r in Hend; destruct Hend; lia|].
        rewrite Nat.add_succ_r in Hend. exists k.
        split_and!; [lia| |destruct Hend; [left; lia|by right]].
        intros j Hlt. specialize (Hj (S j) ltac:(lia)). by rewrite Nat.add_succ_r in Hj.
    + split; [lia|]. intros (k & Hk & Hj & Hend). destruct k as [|k].
      * rewrite Nat.add_0_r in Hend. destruct Hend; lia.
      * specialize (Hj 0%nat ltac:(lia)). rewrite Nat.add_0_r in Hj. lia.
Qed.

Lemma safestrcpy_copy_spec m s t n m' s' :
  mem_ok m → s + Z.of_nat n ≤ t ∨ t + Z.of_nat n ≤ s →
  safestrcpy_copy m s t n = (m', s') →
  ∃ k : nat, (k ≤ n)%nat ∧ s' = s + Z.of_nat k ∧
    (∀ j, 0 ≤ j < Z.of_nat k → m' (s + j) = m (t + j)) ∧
    (∀ j, 0 ≤ j < Z.of_nat k - 1 → m (t + j) ≠ 0) ∧
    ((k = n ∧ ∀ j, 0 ≤ j < Z.of_nat k → m (t + j) ≠ 0) ∨
     ((0 < k)%nat ∧ m (t + Z.of_nat k - 1) = 0)) ∧
    (∀ x, ¬ (s ≤ x < s + Z.of_nat k) → m' x = m x).
Proof.
  revert m s t. induction n as [|n IH]; intros m s t Hm Hdis; simpl; intros Hrun.
  - simplify_eq. exists 0%nat. split_and!; try (done || lia).
    left. split; [done|lia].
  - destruct (Z.eqb_spec (m t) 0) as [Hz|Hz].
    + simplify_eq. exists 1%nat. split_and!; try lia.
      * intros j Hj. assert (j = 0) as -> by lia. rewrite !Z.add_0_r, store8_eq.
        apply u8_small, Hm.
      * right. split; [lia|]. by replace (t + Z.of_nat 1 - 1) with t by lia.
      * intros x Hx. apply store8_ne. lia.
    + apply IH in Hrun as (k & Hk & -> & Hcp & Hnz & Hend & Hout); [|auto with cint|lia].
      exists (S k). split_and!; try lia.
      * intros j Hj. destruct (decide (j = 0)) as [->|].
        { rewrite !Z.add_0_r, Hout by lia. rewrite store8_eq. apply u8_small, Hm. }
        replace (s + j) with (s + 1 + (j - 1)) by lia. rewrite Hcp by lia.
        rewrite store8_ne by lia. f_equal. lia.
      * intros j Hj. destruct (decide (j = 0)) as [->|]; [by rewrite Z.add_0_r|].
        specialize (Hnz (j - 1) ltac:(lia)). rewrite store8_ne in Hnz by lia.
        by replace (t + j) with (t + 1 + (j - 1)) by lia.
      * destruct Hend as [[-> Hall]|[Hk0 Hend]].
        { left. split; [done|]. intros j Hj.
          destruct (decide (j = 0)) as [->|]; [by rewrite Z.add_0_r|].
          specialize (Hall (j - 1) ltac:(lia)). rewrite store8_ne in Hall by lia.
          by replace (t + j) with (t + 1 + (j - 1)) by lia. }
        right. split; [lia|]. rewrite store8_ne in Hend by lia.
        by replace (t + Z.of_nat (S k) - 1) with (t + 1 + Z.of_nat k - 1) by lia.
      * intros x Hx. rewrite Hout by lia. apply store8_ne. lia.
Qed.

(** ** Properties *)

(** The kernel's memmove copies [n] bytes as if through a temporary
    buffer: whatever the overlap of source and destination, byte [i] of the
    destination becomes the old byte [i] of the source and no other byte of
    memory changes. *)
Theorem memmove_spec m dst src n :
  mem_ok m → 0 ≤ n →
  (∀ i, 0 ≤ i < n → memmove m dst src n (dst + i) = m (src + i)) ∧
  (∀ x, x < dst ∨ dst + n ≤ x → memmove m dst src n x = m x).
Proof.
  intros Hm Hn. split; intros.
  - rewrite memmove_byte by done. zcmp. f_equal. lia.
  - rewrite memmove_byte by done. by zcmp.
Qed.

(** safestrcpy always leaves a NUL-terminated string within the [n]
    bytes it is given: the longest prefix of the source that fits, and it
    writes nothing outside those [n] bytes. *)
Theorem safestrcpy_spec m s t n :
  mem_ok m → 0 < n → s + n ≤ t ∨ t + n ≤ s →
  ∃ len, 0 ≤ len < n ∧
    (∀ j, 0 ≤ j < len → safestrcpy m s t n (s + j) = m (t + j) ∧ m (t + j) ≠ 0) ∧
    safestrcpy m s t n (s + len) = 0 ∧
    (len = n - 1 ∨ m (t + len) = 0) ∧
    (∀ x, x < s ∨ s + n ≤ x → safestrcpy m s t n x = m x).
Proof.
  intros Hm Hn Hdis. unfold safestrcpy. destruct (Z.leb_spec n 0); [lia|].
  destruct (safestrcpy_copy m s t (Z.to_nat (n - 1))) as [m' s'] eqn:Hrun.
  apply safestrcpy_copy_spec in Hrun as (k & Hk & -> & Hcp & Hnz & Hend & Hout); [|done|lia].
  destruct Hend as [[-> Hall]|[Hk0 Hend]].
  - exists (n - 1). split_and!; try lia.
    + intros j Hj. rewrite store8_ne, Hcp by lia. split; [done|apply Hall; lia].
    + rewrite Z2Nat.id by lia. apply store8_eq.
    + intros x Hx. rewrite store8_ne by lia. apply Hout. lia.
  - exists (Z.of_nat k - 1). split_and!; try lia.
    + intros j Hj. rewrite store8_ne, Hcp by lia. split; [done|apply Hnz; lia].
    + rewrite store8_ne, Hcp by lia. by replace (t + (Z.of_nat k - 1)) with (t + Z.of_nat k - 1) by lia.
    + right. by replace (t + (Z.of_nat k - 1)) with (t + Z.of_nat k - 1) by lia.
    + intros x Hx. rewrite store8_ne by lia. apply Hout. lia.
Qed.

(** The user library's memmove is the kernel's only for copies that do
    not move upwards onto themselves: it is correct when the destination is
    not inside the source, and there is a copy of three bytes that it gets
    wrong (the kernel's memmove gets it right). *)
Theorem ulib_memmove_overlap :
  (∀ m dst src n x, mem_ok m → 0 ≤ n → dst ≤ src ∨ src + n ≤ dst →
     ulib_memmove m dst src n x = memmove m dst src n x) ∧
  (let m := λ a, if a =? 0 then 97 else if a =? 1 then 98 else if a =? 2 then 99 else 0 in
   ulib_memmove m 1 0 3 2 = 97 ∧ memmove m 1 0 3 2 = 98).
Proof.
  split; [|done]. intros m dst src n x Hm Hn Hd. unfold ulib_memmove.
  rewrite copy_up_spec, memmove_byte by (done || lia). by rewrite Z2Nat.id.
Qed.

(** ** Witnesses *)

(** "ab" at address 100, zeros elsewhere. *)
Definition mem_ab : mem := store8 (store8 (λ _, 0) 100 97) 101 98.

Lemma mem_ab_ok : mem_ok mem_ab.
Proof. unfold mem_ab. repeat apply store8_ok. intros a. unfold is_u8. lia. Qed.

Lemma memmove_spec_witness :
  memmove mem_ab 101 100 2 102 = 98 ∧ memmove mem_ab 101 100 2 101 = 97.
Proof.
  destruct (memmove_spec mem_ab 101 100 2 mem_ab_ok ltac:(lia)) as [H _].
  split; [exact (H 1 ltac:(lia))|exact (H 0 ltac:(lia))].
Defined.

Lemma safestrcpy_spec_witness :
  ∃ len, 0 ≤ len < 2 ∧ safestrcpy mem_ab 200 100 2 (200 + len) = 0.
Proof.
  destruct (safestrcpy_spec mem_ab 200 100 2 mem_ab_ok ltac:(lia) ltac:(lia))
    as (len & Hlen & _ & Hz & _).
  exists len. split; [exact Hlen|exact Hz].
Defined.
