(* ===== verification/Kalloc.v ===== *)
(** * The physical page allocator (xv6/kalloc.c)

    Free pages are linked through their own first word: the free list lives
    in the memory it describes.  [machine] is the part of the kernel state
    kalloc.c and vm.c work on; [kend] is the linker symbol [end]. *)

From S2P Require Import Prelude Kernel Spinlock CString.
Local Open Scope Z_scope.

(** ** Constants (mmu.h, memlayout.h) *)

Definition PGSIZE : Z := 4096.
Definition EXTMEM : Z := 1048576.          (* 0x100000 *)
Definition PHYSTOP : Z := 234881024.       (* 0xE000000 *)
Definition DEVSPACE : Z := 4261412864.     (* 0xFE000000 *)
Definition KERNLINK : Z := KERNBASE + EXTMEM.

Definition PGROUNDUP (sz : Z) : Z := Z.land (u32 (sz + PGSIZE - 1)) (Z.lnot (PGSIZE - 1)).
Definition PGROUNDDOWN (a : Z) : Z := Z.land a (Z.lnot (PGSIZE - 1)).
Definition v2p (a : Z) : Z := u32 (a - KERNBASE).
Definition p2v (a : Z) : Z := u32 (a + KERNBASE).

(** ** State *)

Record machine := mkMachine {
  mc_cpu : cpu;
  mc_mem : mem;
  kmem_lock : spinlock;
  use_lock : Z;
  freelist : Z;
  mc_cr3 : Z;
}.

Definition set_mc_cpu (c : cpu) (s : machine) : machine :=
  mkMachine c (mc_mem s) (kmem_lock s) (use_lock s) (freelist s) (mc_cr3 s).
Definition set_mem (m : mem) (s : machine) : machine :=
  mkMachine (mc_cpu s) m (kmem_lock s) (use_lock s) (freelist s) (mc_cr3 s).
Definition set_kmem_lock (l : spinlock) (s : machine) : machine :=
  mkMachine (mc_cpu s) (mc_mem s) l (use_lock s) (freelist s) (mc_cr3 s).
Definition set_use_lock (u : Z) (s : machine) : machine :=
  mkMachine (mc_cpu s) (mc_mem s) (kmem_lock s) u (freelist s) (mc_cr3 s).
Definition set_freelist (p : Z) (s : machine) : machine :=
  mkMachine (mc_cpu s) (mc_mem s) (kmem_lock s) (use_lock s) p (mc_cr3 s).
Definition set_cr3 (p : Z) (s : machine) : machine :=
  mkMachine (mc_cpu s) (mc_mem s) (kmem_lock s) (use_lock s) (freelist s) p.

Definition mcpu : lens machine cpu := mkLens mc_cpu set_mc_cpu.
Definition kmlock : lens machine spinlock := mkLens kmem_lock set_kmem_lock.

#[export] Instance mcpu_ok : LensOk mcpu.
Proof. split; try done. by intros []. Qed.
#[export] Instance kmlock_ok : LensOk kmlock.
Proof. split; try done. by intros []. Qed.
#[export] Instance mcpu_kmlock : LensIndep mcpu kmlock.
Proof. by split. Qed.

(** ** kalloc.c *)

Section kalloc.
Context (kend : Z).

Definition kfree (v : Z) : M machine unit :=
  if negb (u32 v mod PGSIZE =? 0) || (v <? kend) || (PHYSTOP <=? v2p v)
  then panic "kfree" else
  modify (λ s, set_mem (memset (mc_mem s) v 1 PGSIZE) s) ;;
  ul ← gets use_lock;
  (if negb (ul =? 0) then acquire mcpu kmlock else mret tt) ;;
  fl ← gets freelist;
  modify (λ s, set_mem (store32 (mc_mem s) v fl) s) ;;
  modify (set_freelist v) ;;
  ul ← gets use_lock;
  if negb (ul =? 0) then release mcpu kmlock else mret tt.

Definition kalloc : M machine Z :=
  ul ← gets use_lock;
  (if negb (ul =? 0) then acquire mcpu kmlock else mret tt) ;;
  r ← gets freelist;
  (if negb (r =? 0)
   then modify (λ s, set_freelist (load32 (mc_mem s) r) s) else mret tt) ;;
  ul ← gets use_lock;
  (if negb (ul =? 0) then release mcpu kmlock else mret tt) ;;
  mret r.

(** [for(; p + PGSIZE <= vend; p += PGSIZE) kfree(p);] *)
Fixpoint freerange_loop (fuel : nat) (p vend : Z) : M machine unit :=
  match fuel with
  | O => fault
  | S fuel => if p + PGSIZE <=? vend
              then kfree p ;; freerange_loop fuel (p + PGSIZE) vend
              else mret tt
  end.

(** One round per page of the range and one for the final test. *)
Definition freerange (vstart vend : Z) : M machine unit :=
  let p := PGROUNDUP (u32 vstart) in
  freerange_loop (Z.to_nat ((vend - p) / PGSIZE) + 1) p vend.

Definition kinit1 (vstart vend : Z) : M machine unit :=
  modify (λ s, set_kmem_lock (initlock "kmem" (kmem_lock s)) s) ;;
  modify (set_use_lock 0) ;;
  freerange vstart vend.

Definition kinit2 (vstart vend : Z) : M machine unit :=
  freerange vstart vend ;;
  modify (set_use_lock 1).

(** ** Invariant *)

(** An address kfree accepts. *)
Definition page_ok (v : Z) : Prop :=
  v mod PGSIZE = 0 ∧ kend ≤ v ∧ KERNBASE ≤ v < KERNBASE + PHYSTOP.

(** The chain that starts at [p] visits the pages [l] and ends in NULL. *)
Fixpoint freechain (m : mem) (p : Z) (l : list Z) : Prop :=
  match l with
  | [] => p = 0
  | q :: l => p = q ∧ freechain m (load32 m q) l
  end.

Record kmem_inv (s : machine) (l : list Z) : Prop := {
  ki_chain : freechain (mc_mem s) (freelist s) l;
  ki_nodup : NoDup l;
  ki_pages : Forall page_ok l;
  ki_mem : mem_ok (mc_mem s);
  ki_quiet : quiet mcpu kmlock s;
}.
End kalloc.

(** ** Lemmas *)

Lemma PGROUNDUP_spec sz :
  0 ≤ sz → sz + PGSIZE ≤ 4294967296 →
  PGROUNDUP sz mod PGSIZE = 0 ∧ sz ≤ PGROUNDUP sz < sz + PGSIZE.
Proof.
  unfold PGROUNDUP, PGSIZE. intros H0 H1. rewrite u32_small by (unfold is_u32; lia).
  change (4096 - 1) with (Z.ones 12). rewrite <-Z.ldiff_land, Z.ldiff_ones_r by lia.
  rewrite Z.shiftr_div_pow2, Z.shiftl_mul_pow2 by lia. change (2 ^ 12) with 4096.
  split; [by apply Z.mod_mul|zdm].
Qed.

Lemma PGROUNDDOWN_spec a : PGROUNDDOWN a = a - a mod PGSIZE.
Proof.
  unfold PGROUNDDOWN, PGSIZE. change (4096 - 1) with (Z.ones 12).
  rewrite <-Z.ldiff_land, Z.ldiff_ones_r by lia.
  rewrite Z.shiftr_div_pow2, Z.shiftl_mul_pow2 by lia. change (2 ^ 12) with 4096. zdm.
Qed.

Lemma page_ok_nonzero kend v : page_ok kend v → v ≠ 0.
Proof. unfold page_ok, KERNBASE. lia. Qed.

Lemma page_ok_u32 kend v : page_ok kend v → is_u32 v.
Proof. unfold page_ok, KERNBASE, PHYSTOP, is_u32. lia. Qed.

Lemma page_ok_disjoint kend v w :
  page_ok kend v → page_ok kend w → v ≠ w → v + PGSIZE ≤ w ∨ w + PGSIZE ≤ v.
Proof. unfold page_ok, PGSIZE. intros [? _] [? _] ?. zdm. Qed.

Ltac unfold_kfree := unfold kfree.

Section kalloc_facts.
Context (kend : Z).
Abbreviation page_ok := (page_ok kend).
Abbreviation kfree := (kfree kend).
Abbreviation kmem_inv := (kmem_inv kend).

Lemma kfree_guard v :
  page_ok v →
  negb (u32 v mod PGSIZE =? 0) || (v <? kend) || (PHYSTOP <=? v2p v) = false.
Proof.
  intros Hp. pose proof (page_ok_u32 _ _ Hp). destruct Hp as (Ha & He & Hk & Ht).
  rewrite u32_small by done. unfold v2p.
  rewrite u32_small by (unfold is_u32, KERNBASE, PHYSTOP in *; lia).
  rewrite Ha. simpl. apply orb_false_iff. split; [by apply Z.ltb_ge|].
  apply Z.leb_gt. lia.
Qed.

(** The chain does not depend on memory outside its pages' first words. *)
Lemma freechain_ext m m' p l :
  (∀ q x, q ∈ l → q ≤ x < q + 4 → m' x = m x) →
  freechain m p l → freechain m' p l.
Proof.
  revert p. induction l as [|q l IH]; intros p Hm; simpl; [done|].
  intros [-> Hc]. split; [done|].
  rewrite (load32_ext m' m q); [|intros; apply (Hm q); [set_solver|done]].
  apply IH; [|done]. intros r x Hr. apply Hm. set_solver.
Qed.

Lemma freechain_nonempty m p l :
  Forall page_ok l → freechain m p l → (p = 0 ↔ l = []).
Proof.
  destruct l as [|q l]; simpl; [done|]. intros Hf [-> _].
  apply Forall_cons in Hf as [Hq _]. apply page_ok_nonzero in Hq. done.
Qed.

(** Taking the first page off the list. *)
Lemma kmem_inv_pop s t p l :
  kmem_inv s (p :: l) → mc_mem t = mc_mem s → freelist t = load32 (mc_mem s) p →
  quiet mcpu kmlock t → kmem_inv t l.
Proof.
  intros [[Hfl Hc] Hn Hp Hm Hq] Hmt Hft Hqt.
  apply NoDup_cons in Hn as [_ Hn]. apply Forall_cons in Hp as [_ Hp].
  split; rewrite ?Hmt, ?Hft; done.
Qed.

(** The state between the two tests of [use_lock]. *)
Definition entered (s : machine) : machine :=
  if use_lock s =? 0 then s else acquired mcpu kmlock s.
Definition left_ (s t : machine) : machine :=
  if use_lock s =? 0 then t else leave mcpu kmlock s t.

Lemma wp_enter s (Q : unit → machine → Prop) :
  quiet mcpu kmlock s → Q tt (entered s) →
  wp (if negb (use_lock s =? 0) then acquire mcpu kmlock else mret tt) Q s.
Proof.
  intros Hq HQ. unfold entered in HQ. destruct (use_lock s =? 0); simpl.
  - by apply wp_ret.
  - by apply wp_acquire; [apply _..|done|].
Qed.

Lemma wp_left s t (Q : unit → machine → Prop) :
  quiet mcpu kmlock s → mc_cpu t = mc_cpu (entered s) → kmem_lock t = kmem_lock (entered s) →
  Q tt (left_ s t) →
  wp (if negb (use_lock s =? 0) then release mcpu kmlock else mret tt) Q t.
Proof.
  intros Hq H1 H2 HQ. unfold left_, entered in *. destruct (use_lock s =? 0); simpl.
  - by apply wp_ret.
  - by eapply (wp_release mcpu kmlock _ s).
Qed.

Lemma entered_fields s :
  mc_mem (entered s) = mc_mem s ∧ use_lock (entered s) = use_lock s ∧
  freelist (entered s) = freelist s ∧ mc_cr3 (entered s) = mc_cr3 s.
Proof. unfold entered. by case_if. Qed.

Lemma left_fields s t :
  mc_mem (left_ s t) = mc_mem t ∧ use_lock (left_ s t) = use_lock t ∧
  freelist (left_ s t) = freelist t ∧ mc_cr3 (left_ s t) = mc_cr3 t.
Proof. unfold left_. by case_if. Qed.

Lemma left_quiet s t :
  quiet mcpu kmlock s → mc_cpu t = mc_cpu (entered s) → kmem_lock t = kmem_lock (entered s) →
  quiet mcpu kmlock (left_ s t).
Proof.
  intros Hq H1 H2. unfold left_, entered in *. case_if.
  - unfold quiet in *. simpl in *. by rewrite H1, H2.
  - apply leave_quiet; [apply _..|done].
Qed.

Lemma wp_kalloc s l (Q : Z → machine → Prop) :
  kmem_inv s l →
  (∀ s', mc_mem s' = mc_mem s → use_lock s' = use_lock s → mc_cr3 s' = mc_cr3 s →
     match l with
     | [] => freelist s' = 0 → kmem_inv s' [] → Q 0 s'
     | p :: l' => kmem_inv s' l' → Q p s'
     end) →
  wp kalloc Q s.
Proof.
  intros Hi HQ. pose proof Hi as [Hc Hn Hp Hm Hq].
  destruct (entered_fields s) as (Em & Eu & Ef & E3).
  unfold kalloc. wstep. wstep. wstep. apply wp_enter; [done|].
  wstep. wstep. rewrite Ef. wstep.
  destruct l as [|p l]; simpl in Hc.
  - rewrite Hc. simpl. wstep. wstep. wstep. rewrite Eu. wstep.
    apply (wp_left s); [done..|]. wstep.
    destruct (left_fields s (entered s)) as (Lm & Lu & Lf & L3).
    apply HQ; try congruence.
    split; rewrite ?Lf, ?Lm, ?Ef, ?Em; try done. by apply left_quiet.
  - destruct Hc as [Hf Hc]. pose proof Hp as Hp'. apply Forall_cons in Hp' as [Hp0 _].
    apply page_ok_nonzero, Z.eqb_neq in Hp0. rewrite Hf, Hp0. simpl. wstep. wstep. wstep.
    change (use_lock (set_freelist _ _)) with (use_lock (entered s)). rewrite Eu.
    wstep. apply (wp_left s); [done..|]. wstep.
    destruct (left_fields s (set_freelist (load32 (mc_mem (entered s)) p) (entered s)))
      as (Lm & Lu & Lf & L3). simpl in *.
    apply HQ; try congruence.
    eapply (kmem_inv_pop s); [done|congruence| |by apply left_quiet]. by rewrite Lf, Em.
Qed.

(** The memory kfree leaves: junk bytes and the old head of the list. *)
Definition freed_mem (s : machine) (v : Z) : mem :=
  store32 (memset (mc_mem s) v 1 PGSIZE) v (freelist s).

Lemma freed_mem_frame s v x :
  ¬ (v ≤ x < v + PGSIZE) → freed_mem s v x = mc_mem s x.
Proof.
  unfold freed_mem, PGSIZE. intros Hx. rewrite store32_out by lia.
  rewrite memset_spec by lia. by zcmp.
Qed.

Lemma freed_mem_ok s v : mem_ok (mc_mem s) → mem_ok (freed_mem s v).
Proof. intros. apply store32_ok, memset_ok; done. Qed.

Lemma freed_chain s v l :
  kmem_inv s l → page_ok v → v ∉ l → freechain (freed_mem s v) v (v :: l).
Proof.
  intros [Hc Hn Hp Hm Hq] Hv Hnl. split; [done|].
  assert (is_u32 (freelist s)).
  { destruct l as [|q l]; simpl in Hc; [by rewrite Hc|]. destruct Hc as [-> _].
    apply Forall_cons in Hp as [Hp _]. by eapply page_ok_u32. }
  assert (load32 (freed_mem s v) v = freelist s) as -> by (by apply load_store32_eq).
  eapply freechain_ext; [|done]. intros q x Hq' Hx. apply freed_mem_frame.
  assert (Hqo : page_ok q) by (eapply Forall_forall; [exact Hp|done]).
  destruct (page_ok_disjoint kend v q) as [?|?]; try done; [set_solver|..];
    unfold PGSIZE in *; lia.
Qed.

(** kfree of a page that is not free puts it first. *)
Lemma wp_kfree s l v (Q : unit → machine → Prop) :
  kmem_inv s l → page_ok v → v ∉ l →
  (∀ s', mc_mem s' = freed_mem s v → use_lock s' = use_lock s → mc_cr3 s' = mc_cr3 s →
         kmem_inv s' (v :: l) → Q tt s') →
  wp (kfree v) Q s.
Proof.
  intros Hi Hv Hnl HQ. pose proof Hi as [Hc Hn Hp Hm Hq].
  pose proof (freed_chain _ _ _ Hi Hv Hnl) as Hch.
  pose proof (freed_mem_ok _ v Hm) as Hfm.
  unfold_kfree. rewrite kfree_guard by done. wstep. wstep. wstep. wstep.
  set (s1 := set_mem _ s). wstep.
  apply (wp_enter s1); [done|]. destruct (entered_fields s1) as (Em & Eu & Ef & E3).
  wstep. wstep. wstep. wstep. wstep. wstep. wstep. wstep. simpl use_lock. rewrite Eu.
  change (use_lock s1) with (use_lock s). apply (wp_left s1); [done..|].
  rewrite Ef, Em. change (freelist s1) with (freelist s).
  change (store32 (mc_mem s1) v (freelist s)) with (freed_mem s v).
  set (t := set_freelist v _). destruct (left_fields s1 t) as (Lm & Lu & Lf & L3).
  apply HQ; [done|by rewrite Lu; simpl; rewrite Eu|by rewrite L3; simpl; rewrite E3|].
  split; rewrite ?Lm, ?Lf; simpl; try done.
  - by apply NoDup_cons.
  - by apply Forall_cons.
  - by apply left_quiet.
Qed.

(** The pages of a range, the last one first: the list freerange builds. *)
Fixpoint pages_rev (n : nat) (p : Z) (acc : list Z) : list Z :=
  match n with O => acc | S n => pages_rev n (p + PGSIZE) (p :: acc) end.

Lemma elem_of_pages_rev n p acc q :
  q ∈ pages_rev n p acc ↔ q ∈ acc ∨ ∃ k : nat, (k < n)%nat ∧ q = p + PGSIZE * Z.of_nat k.
Proof.
  revert p acc. induction n as [|n IH]; intros p acc; simpl.
  - split; [by left|]. intros [?|(k & ? & _)]; [done|lia].
  - rewrite IH, elem_of_cons. split.
    + intros [[->|?]|(k & ? & ->)]; [right; exists 0%nat; lia|by left|].
      right. exists (S k). unfold PGSIZE. lia.
    + intros [?|([|k] & ? & ->)]; [by left; right|left; left; lia|].
      right. exists k. unfold PGSIZE. lia.
Qed.

Lemma freerange_loop_ok n fuel p vend s l :
  (n < fuel)%nat → p mod PGSIZE = 0 → kend ≤ p → KERNBASE ≤ p →
  p + PGSIZE * Z.of_nat n ≤ vend < p + PGSIZE * Z.of_nat n + PGSIZE →
  vend ≤ KERNBASE + PHYSTOP →
  kmem_inv s l → Forall (λ q, q < p) l →
  wp (freerange_loop kend fuel p vend)
    (λ _ s', kmem_inv s' (pages_rev n p l) ∧ use_lock s' = use_lock s) s.
Proof.
  revert fuel p s l. induction n as [|n IH]; intros [|fuel] p s l Hf Ha He Hk Hv Ht Hi Hl;
    try lia; simpl freerange_loop.
  - replace (p + PGSIZE <=? vend) with false by (symmetry; apply Z.leb_gt; lia).
    by apply wp_ret.
  - unfold PGSIZE in *.
    replace (p + 4096 <=? vend) with true by (symmetry; apply Z.leb_le; lia).
    apply wp_bind. apply (wp_kfree s l); [done| | |].
    { split_and!; try done. unfold PGSIZE. lia. }
    { intros Hin. eapply Forall_forall in Hl; [|exact Hin]. simpl in Hl. lia. }
    intros s' _ Hu _ Hi'. eapply wp_mono;
      [apply (IH fuel (p + 4096) s' (p :: l)); try done; try lia; [zdm|]|].
    { apply Forall_cons. split; [lia|]. eapply Forall_impl; [exact Hl|]. simpl. lia. }
    intros _ s'' [H1 H2]. split; [done|congruence].
Qed.
End kalloc_facts.

(** ** Clients of the allocator

    [own] lists the pages clients hold.  They allocate, write anywhere in
    the pages they hold, and free them, in any order. *)
Inductive kstep (kend : Z) : machine * list Z → machine * list Z → Prop :=
  | k_alloc s own p s' :
      kalloc s = Ret p s' →
      kstep kend (s, own) (s', if p =? 0 then own else p :: own)
  | k_free s own1 own2 p s' :
      kfree kend p s = Ret tt s' → kstep kend (s, own1 ++ p :: own2) (s', own1 ++ own2)
  | k_write s own p a v :
      p ∈ own → p ≤ a < p + PGSIZE →
      kstep kend (s, own) (set_mem (store8 (mc_mem s) a v) s, own).

Section kalloc_clients.
Context (kend : Z).

(** Every page is held by exactly one client or free, exactly once. *)
Definition kpart (pages : list Z) (c : machine * list Z) : Prop :=
  ∃ l, kmem_inv kend c.1 l ∧ c.2 ++ l ≡ₚ pages.

Lemma kpart_write pages s own p a v :
  NoDup pages → Forall (page_ok kend) pages → kpart pages (s, own) →
  p ∈ own → p ≤ a < p + PGSIZE → kpart pages (set_mem (store8 (mc_mem s) a v) s, own).
Proof.
  intros Hn Hf (l & [Hc Hnd Hp Hm Hq] & Hperm) Hpo Ha. exists l. split; [|done].
  simpl in *. split; simpl; try done; [|by apply store8_ok].
  eapply freechain_ext; [|exact Hc]. intros q x Hql Hx. apply store8_ne.
  assert (Hpq : p ≠ q).
  { rewrite <-Hperm in Hn. apply NoDup_app in Hn as (_ & Hd & _). intros ->. by eapply Hd. }
  assert (page_ok kend p ∧ page_ok kend q) as [Hp1 Hp2].
  { rewrite <-Hperm, Forall_app in Hf. destruct Hf as [Hf1 Hf2].
    rewrite Forall_forall in Hf1, Hf2. auto. }
  destruct (page_ok_disjoint kend p q Hp1 Hp2 Hpq); unfold PGSIZE in *; lia.
Qed.

Lemma kpart_step pages c c' :
  NoDup pages → Forall (page_ok kend) pages → kpart pages c → kstep kend c c' → kpart pages c'.
Proof.
  intros Hn Hf Hk Hs. destruct Hs as [s own p s' Hr|s own1 own2 p s' Hr|s own p a v Hp Ha].
  - destruct Hk as (l & Hi & Hperm). simpl in *.
    assert (H : wp kalloc (λ p' s'', ∃ l', kmem_inv kend s'' l' ∧
               (if p' =? 0 then own else p' :: own) ++ l' ≡ₚ pages) s).
    { eapply wp_kalloc; [exact Hi|]. intros t _ _ _. destruct l as [|q l].
      - intros _ Hi'. exists []. simpl. done.
      - intros Hi'. exists l. split; [done|]. destruct Hi as [_ _ Hp _ _].
        apply Forall_cons in Hp as [Hp _]. apply page_ok_nonzero, Z.eqb_neq in Hp.
        rewrite Hp. rewrite <-Hperm. simpl. by rewrite Permutation_middle. }
    unfold wp in H. by rewrite Hr in H.
  - destruct Hk as (l & Hi & Hperm). simpl in *.
    rewrite <-Hperm in Hn, Hf. rewrite <-!app_assoc in *. simpl in *.
    assert (Hpk : page_ok kend p).
    { rewrite !Forall_app, Forall_cons in Hf. tauto. }
    assert (Hpl : p ∉ l).
    { apply NoDup_app in Hn as (_ & _ & Hn). apply NoDup_cons in Hn as [Hn _]. set_solver. }
    assert (H : wp (kfree kend p) (λ _ t, kmem_inv kend t (p :: l)) s).
    { eapply wp_kfree; done. }
    unfold wp in H. rewrite Hr in H. exists (p :: l). split; [done|]. simpl.
    rewrite <-Hperm, <-app_assoc. by rewrite (Permutation_middle own2 l p).
  - by eapply kpart_write.
Qed.

Lemma kpart_reach pages c c' :
  NoDup pages → Forall (page_ok kend) pages → kpart pages c →
  rtc (kstep kend) c c' → kpart pages c'.
Proof. intros Hn Hf Hk Hr. induction Hr; eauto using kpart_step. Qed.
End kalloc_clients.

(** ** Properties *)

(** freerange terminates without panicking on any range of physical
    memory above the kernel, and afterwards exactly the whole pages inside
    the range have been added to the free list, each once. *)
Theorem freerange_spec kend vstart vend s :
  let p := PGROUNDUP vstart in
  0 ≤ vstart → vstart + PGSIZE ≤ 4294967296 → kend ≤ p → KERNBASE ≤ p →
  p ≤ vend ≤ KERNBASE + PHYSTOP → kmem_inv kend s [] →
  wp (freerange kend vstart vend)
    (λ _ s', ∃ l, kmem_inv kend s' l ∧
       ∀ q, q ∈ l ↔ q mod PGSIZE = 0 ∧ vstart ≤ q ∧ q + PGSIZE ≤ vend) s.
Proof.
  intros p H0 H1 He Hk Hv Hi. destruct (PGROUNDUP_spec vstart H0 H1) as [Ha Hr].
  fold p in Ha, Hr. unfold freerange. rewrite u32_small by (unfold is_u32, PGSIZE in *; lia).
  fold p. assert (Hn : vend - p = PGSIZE * ((vend - p) / PGSIZE) + (vend - p) mod PGSIZE ∧
                   0 ≤ (vend - p) / PGSIZE ∧ 0 ≤ (vend - p) mod PGSIZE < PGSIZE).
  { unfold PGSIZE. zdm. }
  set (n := (vend - p) / PGSIZE) in *. destruct Hn as (Hn & Hn0 & Hn1).
  eapply wp_mono; [apply (freerange_loop_ok kend (Z.to_nat n)); try done; try lia;
    rewrite ?Z2Nat.id by done; try lia; by apply Forall_nil|].
  intros _ s' [Hi' _]. eexists. split; [exact Hi'|]. intros q. rewrite elem_of_pages_rev.
  unfold PGSIZE in *. split.
  - intros [Hin|(k & Hk' & ->)]; [by apply not_elem_of_nil in Hin|]. split_and!; [zdm|lia|lia].
  - intros (Hq & Hq1 & Hq2). right. exists (Z.to_nat ((q - p) / 4096)). zdm.
Qed.

(** [C4] The allocator never hands out a page twice and never loses one:
    whatever clients allocate, write into their pages and free, every page
    stays either held once or free once, and kalloc returns a whole page
    that no client holds, or 0, and 0 only when every page is held. *)
Theorem kalloc_exclusive kend pages c c' :
  NoDup pages → Forall (page_ok kend) pages → kpart kend pages c →
  rtc (kstep kend) c c' →
  NoDup c'.2 ∧
  wp kalloc (λ p _, if p =? 0 then c'.2 ≡ₚ pages
                    else page_ok kend p ∧ p ∈ pages ∧ p ∉ c'.2) c'.1.
Proof.
  intros Hn Hf Hk Hr. destruct (kpart_reach _ _ _ _ Hn Hf Hk Hr) as (l & Hi & Hperm).
  assert (Hnd := Hn). rewrite <-Hperm in Hnd. apply NoDup_app in Hnd as (Hnd & Hd & _).
  split; [done|]. eapply wp_kalloc; [exact Hi|]. intros t _ _ _. destruct l as [|q l].
  - intros _ _. simpl. by rewrite app_nil_r in Hperm.
  - intros _. destruct Hi as [_ _ Hp _ _]. apply Forall_cons in Hp as [Hp _].
    pose proof (page_ok_nonzero _ _ Hp) as Hz%Z.eqb_neq. rewrite Hz.
    split_and!; [done|rewrite <-Hperm; set_solver|]. intros Hin. eapply Hd; [exact Hin|set_solver].
Qed.

(** kfree refuses every address that is not a page of physical memory
    above the kernel: it panics and changes nothing. *)
Theorem kfree_panics kend v s :
  is_u32 v → KERNBASE ≤ kend → ¬ page_ok kend v → kfree kend v s = Panic "kfree".
Proof.
  intros Hu Hk Hp. unfold kfree. rewrite u32_small by done.
  case_if; [done|]. exfalso. apply Hp. unfold v2p in *.
  rewrite u32_small in * by (unfold is_u32, KERNBASE in *; lia).
  unfold page_ok. repeat split; try done; lia.
Qed.

(** ** Witnesses *)

(** Two pages of memory, at KERNBASE + 4 MB, all of it free. *)
Definition km_page : Z := KERNBASE + 4194304.
Definition km0 : machine := mkMachine cpu0 (λ _, 0) lock0 1 0 0.

Lemma km0_inv : kmem_inv (km_page - 10) km0 [].
Proof. split; try done; constructor. Qed.

Lemma freerange_spec_witness :
  wp (freerange (km_page - 10) (km_page - 5) (km_page + 8192))
    (λ _ s', ∃ l, kmem_inv (km_page - 10) s' l ∧
       ∀ q, q ∈ l ↔ q mod PGSIZE = 0 ∧ km_page - 5 ≤ q ∧ q + PGSIZE ≤ km_page + 8192) km0.
Proof.
  apply (freerange_spec (km_page - 10) (km_page - 5) (km_page + 8192) km0);
    [done|done|done|done|split; done|apply km0_inv].
Defined.

Lemma kalloc_exclusive_witness :
  wp kalloc (λ p _, if p =? 0 then [km_page] ≡ₚ [km_page]
                    else page_ok km_page p ∧ p ∈ [km_page] ∧ p ∉ [km_page]) km0.
Proof.
  apply (kalloc_exclusive km_page [km_page] (km0, [km_page]) (km0, [km_page]));
    [apply NoDup_singleton|apply Forall_singleton; split_and!; done| |apply rtc_refl].
  exists []. split; [by split; try done; constructor|done].
Defined.

Lemma kfree_panics_witness : kfree km_page (km_page + 1) km0 = Panic "kfree".
Proof.
  apply (kfree_panics km_page (km_page + 1) km0); [split; done|done|].
  intros [H _]. vm_compute in H. discriminate H.
Defined.
