(* ===== verification/Umalloc.v ===== *)
(** * The user-level allocator (umalloc.c)

    Kernighan and Ritchie's malloc: a circular list of free blocks in
    ascending order of address, entered at [freep], with the static header
    [base] in it.  A Header is 8 bytes; a block of [n] units starts with its
    header.  Memory is a function from addresses to headers: the words a
    client writes into its own blocks may change it anywhere else.

    sbrk is the system call (sys_sbrk, growproc): here it is an argument,
    with the number of bytes and the highest address handed out so far; it
    returns the start of the new memory, or nothing.  [fuel] bounds the
    walks around the list; a list of fewer blocks never exhausts it. *)

From S2P Require Import Prelude Kernel.
Local Open Scope Z_scope.

Record header := mkHdr { s_ptr : Z; s_size : Z }.

Record um := mkUm { um_mem : Z → header; freep : Z; um_top : Z }.

Definition zupd (m : Z → header) (a : Z) (h : header) : Z → header :=
  λ x, if x =? a then h else m x.

Definition set_mem (m : Z → header) (s : um) : um := mkUm m (freep s) (um_top s).
Definition set_freep (p : Z) (s : um) : um := mkUm (um_mem s) p (um_top s).
Definition set_top (t : Z) (s : um) : um := mkUm (um_mem s) (freep s) t.

Definition rd (p : Z) : M um header := gets (λ s, um_mem s p).
Definition wr_ptr (p x : Z) : M um unit :=
  modify (λ s, set_mem (zupd (um_mem s) p (mkHdr x (s_size (um_mem s p)))) s).
Definition wr_size (p x : Z) : M um unit :=
  modify (λ s, set_mem (zupd (um_mem s) p (mkHdr (s_ptr (um_mem s p)) x)) s).

(** p + n for a Header pointer. *)
Definition hadd (p n : Z) : Z := u32 (p + 8 * n).

Section umalloc.
Context (base : Z) (sbrk : Z → Z → option Z) (fuel : nat).

(** The for loop of free. *)
Fixpoint find_place (fuel : nat) (bp p : Z) : M um Z :=
  match fuel with
  | O => fault
  | S fuel =>
      h ← rd p;
      let next := s_ptr h in
      if (p <? bp) && (bp <? next) then mret p else
      if (next <=? p) && ((p <? bp) || (bp <? next)) then mret p else
      find_place fuel bp next
  end.

Definition free (ap : Z) : M um unit :=
  let bp := hadd ap (-1) in
  p ← gets freep;
  p ← find_place fuel bp p;
  hb ← rd bp;
  hp ← rd p;
  (if hadd bp (s_size hb) =? s_ptr hp then
     hn ← rd (s_ptr hp);
     wr_size bp (u32 (s_size hb + s_size hn)) ;;
     wr_ptr bp (s_ptr hn)
   else wr_ptr bp (s_ptr hp)) ;;
  hb ← rd bp;
  hp ← rd p;
  (if hadd p (s_size hp) =? bp then
     wr_size p (u32 (s_size hp + s_size hb)) ;;
     wr_ptr p (s_ptr hb)
   else wr_ptr p bp) ;;
  modify (set_freep p).

Definition morecore (nu : Z) : M um Z :=
  let nu := if nu <? 4096 then 4096 else nu in
  let bytes := i32 (nu * 8) in
  t ← gets um_top;
  match sbrk bytes t with
  | None => mret 0
  | Some p =>
      modify (set_top (p + bytes)) ;;
      wr_size p nu ;;
      free (hadd p 1) ;;
      gets freep
  end.

(** The for loop of malloc. *)
Fixpoint find_fit (fuel : nat) (nunits prevp p : Z) : M um Z :=
  match fuel with
  | O => fault
  | S fuel =>
      h ← rd p;
      if nunits <=? s_size h then
        q ← (if s_size h =? nunits then wr_ptr prevp (s_ptr h) ;; mret p
             else
               wr_size p (u32 (s_size h - nunits)) ;;
               let q := hadd p (u32 (s_size h - nunits)) in
               wr_size q nunits ;;
               mret q);
        modify (set_freep prevp) ;;
        mret (hadd q 1)
      else
        f ← gets freep;
        if p =? f then
          p ← morecore nunits;
          if p =? 0 then mret 0 else
          h ← rd p;
          find_fit fuel nunits p (s_ptr h)
        else find_fit fuel nunits p (s_ptr h)
  end.

Definition malloc (nbytes : Z) : M um Z :=
  let nunits := u32 (u32 (nbytes + 8 - 1) / 8 + 1) in
  prevp ← gets freep;
  prevp ← (if prevp =? 0 then
             wr_ptr base base ;; modify (set_freep base) ;; wr_size base 0 ;; mret base
           else mret prevp);
  h ← rd prevp;
  find_fit (2 * fuel) nunits prevp (s_ptr h).
End umalloc.

(** ** The ring *)

(** A block is its address and its size in units. *)
Abbreviation block := (Z * Z)%type.

(** The headers from [q] up to [r] are those of [l]. *)
Fixpoint seg (m : Z → header) (q : Z) (l : list block) (r : Z) : Prop :=
  match l with
  | [] => q = r
  | (b, n) :: l => q = b ∧ ∃ nx, m b = mkHdr nx n ∧ seg m nx l r
  end.

Lemma useg_app m l1 l2 : ∀ q r, seg m q (l1 ++ l2) r ↔ ∃ x, seg m q l1 x ∧ seg m x l2 r.
Proof.
  induction l1 as [|[b n] l1 IH]; intros q r; simpl; [naive_solver|]. setoid_rewrite IH. naive_solver.
Qed.

Lemma zupd_eq m a h : zupd m a h a = h.
Proof. unfold zupd. by rewrite Z.eqb_refl. Qed.
Lemma zupd_ne m a h x : x ≠ a → zupd m a h x = m x.
Proof. intros. unfold zupd. by rewrite (proj2 (Z.eqb_neq x a)). Qed.

Lemma seg_same m m' l : (∀ x, x ∈ l.*1 → m' x = m x) → ∀ q r, seg m q l r → seg m' q l r.
Proof.
  induction l as [|[b n] l IH]; intros Hm q r; simpl; [done|].
  intros (-> & nx & Hb & Hl). split; [done|]. exists nx. rewrite Hm by (simpl; set_solver).
  split; [done|]. apply IH; [|done]. intros x Hx. apply Hm. simpl. set_solver.
Qed.

(** The address of the [i]-th block, counted around the ring. *)
Definition addr (l : list block) (i : nat) : Z := (default (0, 0) (l !! i)).1.
Definition next_ix (l : list block) (i : nat) : nat := if (S i =? length l)%nat then 0%nat else S i.

Lemma seg_ix m q l r i b n : seg m q l r → l !! i = Some (b, n) →
  ∃ nx, m b = mkHdr nx n ∧ nx = default r (fst <$> l !! S i).
Proof.
  revert q i. induction l as [|[b0 n0] l IH]; intros q i; [done|]. simpl.
  intros (-> & nx & Hb & Hl) Hi. destruct i as [|i]; simpl in Hi.
  - simplify_eq. exists nx. split; [done|]. destruct l as [|[b1 n1] l]; simpl in *; [done|]. by destruct Hl.
  - by eapply IH.
Qed.

(** In a ring the header after the last block is the first. *)
Lemma ring_ix m a l i b n : seg m a l a → addr l 0 = a → l !! i = Some (b, n) →
  m b = mkHdr (addr l (next_ix l i)) n.
Proof.
  intros Hs Ha Hi. destruct (seg_ix _ _ _ _ _ _ _ Hs Hi) as (nx & -> & ->). f_equal.
  pose proof (lookup_lt_Some _ _ _ Hi). unfold next_ix. destruct (Nat.eqb_spec (S i) (length l)) as [E|E].
  - by rewrite (lookup_ge_None_2 l (S i)) by lia.
  - unfold addr. destruct (lookup_lt_is_Some_2 l (S i)) as [x ->]; [lia|done].
Qed.

(** ** Blocks *)

Definition bend (x : block) : Z := x.1 + 8 * x.2.
Definition disj (x y : block) : Prop := bend x ≤ y.1 ∨ bend y ≤ x.1.

(** Ascending, non-empty, and no two adjacent. *)
Fixpoint asc (lo : Z) (l : list block) : Prop :=
  match l with
  | [] => True
  | x :: l => lo ≤ x.1 ∧ 0 < x.2 ∧ asc (bend x + 1) l
  end.

Fixpoint pw (l : list block) : Prop :=
  match l with
  | [] => True
  | x :: l => Forall (disj x) l ∧ pw l
  end.

#[export] Instance pw_perm : Proper (Permutation ==> iff) pw.
Proof.
  assert (∀ l l', l ≡ₚ l' → pw l → pw l') as H.
  { induction 1 as [|x l l' Hp IH|x y l|l l' l'' _ IH1 _ IH2]; simpl; try tauto.
    - intros [HF Hpw]. split; [by rewrite <-Hp|by apply IH].
    - rewrite !Forall_cons. unfold disj. tauto. }
  intros l l' Hp. split; [by apply H|by apply H].
Qed.

Lemma pw_app l k : pw (l ++ k) ↔ pw l ∧ pw k ∧ ∀ x y, x ∈ l → y ∈ k → disj x y.
Proof.
  induction l as [|z l IH]; simpl.
  - split; [|tauto]. intros H. split_and!; [done..|]. intros x y Hx. by apply not_elem_of_nil in Hx.
  - rewrite IH, Forall_app, !Forall_forall. set_solver.
Qed.

Lemma asc_mono lo lo' l : lo' ≤ lo → asc lo l → asc lo' l.
Proof. destruct l as [|x l]; simpl; [done|]. intros ? (? & ? & ?). split_and!; [lia|done..]. Qed.

Lemma asc_low lo l : asc lo l → Forall (λ x, lo ≤ x.1 ∧ 0 < x.2) l.
Proof.
  revert lo. induction l as [|x l IH]; intros lo; simpl; [done|]. intros (H1 & H2 & H3).
  apply Forall_cons. split; [done|]. eapply Forall_impl; [by apply IH|]. unfold bend. simpl. intros y. lia.
Qed.

Lemma asc_app lo l k :
  asc lo (l ++ k) ↔ asc lo l ∧ asc (match last l with Some x => bend x + 1 | None => lo end) k.
Proof.
  revert lo. induction l as [|x l IH]; intros lo; simpl; [tauto|].
  rewrite IH, last_cons. destruct (last l); tauto.
Qed.

Lemma asc_lookup lo l (i j : nat) x y : asc lo l → (i < j)%nat → l !! i = Some x → l !! j = Some y → bend x < y.1.
Proof.
  revert lo i j. induction l as [|z l IH]; intros lo i j; simpl; [done|]. intros (H1 & H2 & H3) Hij Hi Hj.
  destruct i as [|i], j as [|j]; simpl in *; try lia.
  - simplify_eq. pose proof (proj1 (Forall_lookup _ _) (asc_low _ _ H3) j y Hj) as [? _]. lia.
  - apply (IH _ i j H3); [lia|done|done].
Qed.

Lemma asc_nodup base l : asc (base + 8) l → NoDup (((base, 0) :: l).*1).
Proof.
  intros H. simpl. apply NoDup_cons. split.
  - intros ([b n] & -> & Hx)%list_elem_of_fmap. simpl in *.
    pose proof (proj1 (Forall_forall _ _) (asc_low _ _ H) _ Hx) as [? _]. simpl in *. lia.
  - revert H. generalize (base + 8). induction l as [|x l IH]; intros lo; simpl; [intros; by apply NoDup_nil|].
    intros (H1 & H2 & H3). apply NoDup_cons. split; [|by eapply IH].
    intros (y & Ey & Hy)%list_elem_of_fmap. pose proof (proj1 (Forall_forall _ _) (asc_low _ _ H3) _ Hy) as [? _].
    unfold bend in *. lia.
Qed.

(** A block apart from all of an ascending list has its place in it. *)
Lemma place_split lo l z : asc lo l → 0 < z.2 → (∀ x, x ∈ l → disj x z) →
  ∃ l1 l2, l = l1 ++ l2 ∧ Forall (λ x, bend x ≤ z.1) l1 ∧ Forall (λ x, bend z ≤ x.1) l2.
Proof.
  revert lo. induction l as [|x l IH]; intros lo; [by exists [], []|]. simpl. intros (H1 & H2 & H3) Hz Hd.
  destruct (Hd x) as [Hx|Hx]; [set_solver| |].
  - destruct (IH _ H3 Hz) as (l1 & l2 & -> & F1 & F2); [set_solver|]. exists (x :: l1), l2.
    split_and!; [done|by apply Forall_cons|done].
  - exists [], (x :: l). split_and!; [done|by apply Forall_nil|]. apply Forall_cons. split; [done|].
    eapply Forall_impl; [by apply (asc_low _ _ H3)|]. unfold bend in *. simpl. intros y. lia.
Qed.

(** ** Changes of the ring *)

Lemma useg_middle m q l1 b n l2 r :
  seg m q (l1 ++ (b, n) :: l2) r ↔ seg m q l1 b ∧ ∃ nx, m b = mkHdr nx n ∧ seg m nx l2 r.
Proof. rewrite useg_app. simpl. naive_solver. Qed.

Lemma seg_upd m l a h q r : a ∉ l.*1 → seg m q l r → seg (zupd m a h) q l r.
Proof. intros Ha. apply seg_same. intros x Hx. apply zupd_ne. by intros ->. Qed.

(** The header of a block in the list gets a new link and size, and a list
    from the new link on replaces the old rest. *)
Lemma useg_relink m q l1 b n l2 r nx' n' l2' :
  seg m q (l1 ++ (b, n) :: l2) r → b ∉ l1.*1 → b ∉ l2'.*1 → seg m nx' l2' r →
  seg (zupd m b (mkHdr nx' n')) q (l1 ++ (b, n') :: l2') r.
Proof.
  rewrite !useg_middle. intros [H1 _] Hn1 Hn2 H2. split; [by apply seg_upd|].
  exists nx'. rewrite zupd_eq. split; [done|]. by apply seg_upd.
Qed.

(** ** Walking around the ring *)

Section walk.
Context (l : list block).
Abbreviation len := (length l).

Lemma next_ix_mod i : (i < len)%nat → next_ix l i = ((i + 1) mod len)%nat.
Proof.
  intros Hi. unfold next_ix. destruct (Nat.eqb_spec (S i) len) as [E|E].
  - replace (i + 1)%nat with len by lia. by rewrite Nat.Div0.mod_same.
  - rewrite Nat.mod_small; lia.
Qed.

Lemma next_ix_lt i : (i < len)%nat → (next_ix l i < len)%nat.
Proof. unfold next_ix. intros. case_match; bool_facts; [lia|]. apply Nat.eqb_neq in H0. lia. Qed.

(** One step nearer. *)
Lemma next_ix_dist i d : (i < len)%nat → ((next_ix l i + d) mod len = (i + S d) mod len)%nat.
Proof.
  intros Hi. rewrite next_ix_mod by done. rewrite Nat.Div0.add_mod_idemp_l. f_equal. lia.
Qed.

(** The distance from [i] to [k]. *)
Lemma dist_ex i k : (i < len)%nat → (k < len)%nat → ∃ d, (d < len)%nat ∧ ((i + d) mod len = k)%nat.
Proof.
  intros Hi Hk. exists ((k + (len - i)) mod len)%nat. split; [apply Nat.mod_upper_bound; lia|].
  rewrite Nat.Div0.add_mod_idemp_r. replace (i + (k + (len - i)))%nat with (k + 1 * len)%nat by lia.
  rewrite Nat.Div0.mod_add. by apply Nat.mod_small.
Qed.

Lemma dist_ne i e n : (0 < e < n)%nat → ((i + e) mod n ≠ i)%nat.
Proof.
  intros He E. pose proof (Nat.div_mod_eq (i + e) n) as H. rewrite E in H. destruct ((i + e) / n)%nat; nia.
Qed.
End walk.

(** ** Joining a block with its successor *)

Definition join (x : block) (l : list block) : list block :=
  match l with
  | y :: l' => if bend x =? y.1 then (x.1, x.2 + y.2) :: l' else x :: l
  | [] => [x]
  end.

(** [x] is an address inside a block of [l]. *)
Definition free_at (l : list block) (x : Z) : Prop := ∃ y, y ∈ l ∧ y.1 ≤ x < bend y.

Lemma ufree_at_cons y l x : free_at (y :: l) x ↔ y.1 ≤ x < bend y ∨ free_at l x.
Proof. unfold free_at. set_solver. Qed.
Lemma ufree_at_app l k x : free_at (l ++ k) x ↔ free_at l x ∨ free_at k x.
Proof. unfold free_at. set_solver. Qed.

Lemma join_free x l z : 0 < x.2 → Forall (λ y, 0 < y.2) l → free_at (join x l) z ↔ free_at (x :: l) z.
Proof.
  intros Hx Hl. destruct l as [|y l]; [done|]. simpl. destruct (Z.eqb_spec (bend x) y.1) as [E|]; [|done].
  apply Forall_cons in Hl as [Hy _]. rewrite !ufree_at_cons. unfold bend in *. simpl in *. split; [|intuition lia].
  intros [?|?]; [|tauto]. destruct (decide (z < y.1)); [left; lia|right; left; lia].
Qed.

Lemma join_asc lo x l : lo ≤ x.1 → 0 < x.2 → asc (bend x) l → asc lo (join x l).
Proof.
  intros Hlo Hx. destruct l as [|y l]; simpl; [done|]. intros (H1 & H2 & H3).
  destruct (Z.eqb_spec (bend x) y.1) as [E|E]; simpl.
  - split_and!; [done|lia|]. eapply asc_mono; [|exact H3]. unfold bend in *. simpl. lia.
  - split_and!; [done|done|lia|done|done].
Qed.

Lemma join_pw x l k : 0 < x.2 → Forall (λ y, 0 < y.2) (l ++ k) → pw ((x :: l) ++ k) → pw (join x l ++ k).
Proof.
  intros Hx Hl. destruct l as [|y l]; [done|]. simpl. destruct (Z.eqb_spec (bend x) y.1) as [E|]; [|done].
  simpl in Hl. apply Forall_cons in Hl as [Hy Hl]. rewrite Forall_cons. intros ((_ & H1) & H2 & H3).
  split; [|done]. rewrite Forall_forall in *. intros w Hw. specialize (H1 w Hw). specialize (H2 w Hw).
  specialize (Hl w Hw).
  unfold disj, bend in *. simpl in *. lia.
Qed.

Lemma join_Forall lo hi x l : Forall (λ x, lo ≤ x.1 ∧ 0 < x.2 ∧ bend x ≤ hi) (x :: l) →
  Forall (λ x, lo ≤ x.1 ∧ 0 < x.2 ∧ bend x ≤ hi) (join x l).
Proof.
  destruct l as [|y l]; [done|]. simpl. destruct (Z.eqb_spec (bend x) y.1) as [E|]; [|done].
  rewrite !Forall_cons. intros (H1 & H2 & H3). split; [|done]. unfold bend in *. simpl in *. lia.
Qed.

Lemma join_addrs x l a : a ∈ (join x l).*1 → a ∈ (x :: l).*1.
Proof.
  destruct l as [|y l]; [done|]. simpl. destruct (bend x =? y.1); simpl; set_solver.
Qed.

Lemma join_length x l : (length (join x l) ≤ S (length l))%nat.
Proof. destruct l as [|y l]; simpl; [lia|]. case_match; simpl; lia. Qed.

(** ** The invariant *)

(** User memory ends below KERNBASE. *)
Definition LIM : Z := 2147483648.

Section spec.
Context (base : Z) (fuel : nat).
Hypothesis base_pos : 0 < base.

(** The ring is [L] after [base], and the blocks [A] are allocated. *)
Record um_ok (s : um) (L A : list block) : Prop := {
  uo_ring : seg (um_mem s) base ((base, 0) :: L) base;
  uo_freep : freep s ∈ ((base, 0) :: L).*1;
  uo_asc : asc (base + 8) L;
  uo_in : Forall (λ x, base + 8 ≤ x.1 ∧ 0 < x.2 ∧ bend x ≤ um_top s) (L ++ A);
  uo_size : Forall (λ x, s_size (um_mem s x.1) = x.2) A;
  uo_pw : pw (L ++ A);
  uo_top : base + 8 ≤ um_top s ≤ LIM;
}.

Lemma hadd_small p n : 0 ≤ p + 8 * n < 4294967296 → hadd p n = p + 8 * n.
Proof. intros. unfold hadd. by apply u32_small. Qed.

Lemma um_bounds s L A x : um_ok s L A → x ∈ L ++ A → base + 8 ≤ x.1 ∧ 0 < x.2 ∧ bend x ≤ LIM.
Proof.
  intros H Hx. pose proof (proj1 (Forall_forall _ _) (uo_in _ _ _ H) x Hx) as (? & ? & ?).
  pose proof (uo_top _ _ _ H). simpl in *. lia.
Qed.

(** *** The two halves of free *)

(** bp gets its link, and takes in the block behind it if they touch. *)
Lemma wp_free_next m b n p np L2 r (s : um) (Q : unit → um → Prop) :
  um_mem s = m → s_size (m b) = n → (∃ nx, m p = mkHdr nx np ∧ seg m nx L2 r) → b ∉ L2.*1 →
  0 ≤ b → 0 ≤ n → b + 8 * n < 4294967296 → Forall (λ y, 0 < y.2 ∧ bend y < 4294967296) L2 →
  (L2 = [] → b + 8 * n ≠ r) →
  (∀ m', (∀ x, x ≠ b → m' x = m x) → seg m' b (join (b, n) L2) r → Q tt (set_mem m' s)) →
  wp (hb ← rd b; hp ← rd p;
      if hadd b (s_size hb) =? s_ptr hp then
        hn ← rd (s_ptr hp); wr_size b (u32 (s_size hb + s_size hn)) ;; wr_ptr b (s_ptr hn)
      else wr_ptr b (s_ptr hp)) Q s.
Proof.
  intros Em Hb (nx & Hp & Hseg) Hn Hb0 Hn0 Hlt HF Hr HQ. unfold rd, wr_size, wr_ptr.
  wstep. wstep. wstep. wstep. rewrite Em, Hp, Hb. simpl. rewrite hadd_small by lia.
  destruct L2 as [|[b2 n2] L2]; simpl in Hseg.
  - subst nx. rewrite (proj2 (Z.eqb_neq _ _) (Hr eq_refl)). wstep. rewrite Em, Hb.
    apply HQ; [intros; by apply zupd_ne|]. simpl. split; [done|]. exists r. by rewrite zupd_eq.
  - destruct Hseg as (-> & nx2 & H2 & Hseg). simpl in HQ. unfold bend in HQ. simpl in HQ, Hn.
    assert (b ≠ b2 ∧ b ∉ L2.*1) as [Hne Hn'] by set_solver.
    apply Forall_cons in HF as [[Hn2 Hb2] _]. unfold bend in Hb2. simpl in *.
    destruct (Z.eqb_spec (b + 8 * n) b2) as [E|E].
    + wstep. wstep. rewrite Em, H2. simpl. wstep. wstep. wstep. simpl. rewrite Em, zupd_eq. simpl.
      change (set_mem ?x (set_mem ?y s)) with (set_mem x s).
      rewrite u32_small by (unfold is_u32; lia). apply HQ.
      * intros x Hx. by rewrite !zupd_ne.
      * simpl. split; [done|]. exists nx2. rewrite zupd_eq. split; [done|]. apply seg_upd; [done|]; by apply seg_upd.
    + wstep. rewrite Em, Hb. apply HQ; [intros; by apply zupd_ne|]. simpl.
      split; [done|]. exists b2. rewrite zupd_eq. split; [done|]. split; [done|]. exists nx2.
      rewrite zupd_ne by done. split; [done|]. by apply seg_upd.
Qed.

(** The block before bp gets bp as its successor, and takes it in if they
    touch. *)
Lemma wp_free_prev m q K p np b R r (s : um) (Q : unit → um → Prop) :
  um_mem s = m → seg m q K p → (∃ nx, m p = mkHdr nx np) → seg m b R r →
  (∃ n l, R = (b, n) :: l) → NoDup (K.*1 ++ p :: R.*1) →
  0 ≤ p → 0 ≤ np → p + 8 * np < 4294967296 → Forall (λ y, 0 < y.2 ∧ bend y < 4294967296) R → 0 ≤ b →
  (∀ m', (∀ x, x ≠ p → m' x = m x) → seg m' q (K ++ join (p, np) R) r → Q tt (set_mem m' s)) →
  wp (hb ← rd b; hp ← rd p;
      if hadd p (s_size hp) =? b then
        wr_size p (u32 (s_size hp + s_size hb)) ;; wr_ptr p (s_ptr hb)
      else wr_ptr p b) Q s.
Proof.
  intros Em HK [nx Hp] HR (n & l & ->) Hnd Hp0 Hnp Hlt HF Hb0 HQ. unfold rd, wr_size, wr_ptr.
  apply NoDup_app in Hnd as (_ & HKd & Hnd). apply NoDup_cons in Hnd as [HpR _].
  assert (p ∉ K.*1) as HpK by set_solver. simpl in HR, HpR, HQ. unfold bend in HQ. simpl in HQ.
  assert (p ≠ b ∧ p ∉ l.*1) as [Hpb Hpl] by set_solver.
  destruct HR as (_ & nxb & Hb & HR). apply Forall_cons in HF as [[Hn Hbl] _]. unfold bend in Hbl. simpl in *.
  wstep. wstep. wstep. wstep. rewrite Em, Hp, Hb. simpl. rewrite hadd_small by lia.
  destruct (Z.eqb_spec (p + 8 * np) b) as [E|E].
  - wstep. wstep. wstep. simpl. rewrite Em, Hp, zupd_eq. simpl.
    change (set_mem ?x (set_mem ?y s)) with (set_mem x s).
    rewrite u32_small by (unfold is_u32; lia). apply HQ.
    + intros x Hx. by rewrite !zupd_ne.
    + apply useg_middle. split; [apply seg_upd; [done|]; by apply seg_upd|]. exists nxb. rewrite zupd_eq.
      split; [done|]. apply seg_upd; [done|]; by apply seg_upd.
  - wstep. rewrite Em, Hp. simpl. apply HQ; [intros; by apply zupd_ne|].
    apply useg_middle. split; [by apply seg_upd|]. exists b. rewrite zupd_eq. split; [done|].
    simpl. split; [done|]. exists nxb. rewrite zupd_ne by done. split; [done|]. by apply seg_upd.
Qed.

Lemma addr_app_l (l k : list block) i : (i < length l)%nat → addr (l ++ k) i = addr l i.
Proof. intros. unfold addr. by rewrite lookup_app_l. Qed.

(** The links of the ring, by position. *)
Lemma um_link s L A i : um_ok s L A → (i < S (length L))%nat →
  s_ptr (um_mem s (addr ((base, 0) :: L) i)) = addr ((base, 0) :: L) (next_ix ((base, 0) :: L) i).
Proof.
  intros Hs Hi. destruct (lookup_lt_is_Some_2 ((base, 0) :: L) i) as [[b n] Hx]; [done|].
  unfold addr at 1. rewrite Hx. change (default (0, 0) (Some (b, n))).1 with b.
  by rewrite (ring_ix _ _ _ _ _ _ (uo_ring _ _ _ Hs) eq_refl Hx).
Qed.

(** free walks to the last block below [z]: position [k] of a ring [l]. *)
Lemma wp_walk_place (l : list block) (k : nat) z s (Q : Z → um → Prop) :
  (∀ i, (i < length l)%nat → s_ptr (um_mem s (addr l i)) = addr l (next_ix l i)) →
  (∀ i j, (i < j < length l)%nat → addr l i < addr l j) →
  (k < length l)%nat → (∀ i, (i ≤ k)%nat → addr l i < z) → (∀ i, (k < i < length l)%nat → z < addr l i) →
  Q (addr l k) s →
  ∀ d i f, ((i + d) mod length l = k)%nat → (i < length l)%nat → (d < f)%nat →
  wp (find_place f z (addr l i)) Q s.
Proof.
  intros Hlink Hasc Hk Hbelow Habove HQ.
  assert (H0 : ∀ i, (i < length l)%nat → addr l 0 ≤ addr l i).
  { intros [|i] Hi; [lia|]. apply Z.lt_le_incl, Hasc. lia. }
  induction d as [|d IH]; intros i f Hd Hi Hf; (destruct f as [|f]; [lia|]); cbn [find_place];
    unfold rd; wstep; wstep; simpl; rewrite Hlink by done; unfold next_ix.
  - rewrite Nat.add_0_r, Nat.mod_small in Hd by done. subst i. pose proof (Hbelow k ltac:(lia)).
    pose proof (Hbelow 0%nat ltac:(lia)). pose proof (H0 k Hi).
    destruct (Nat.eqb_spec (S k) (length l)); [|pose proof (Habove (S k) ltac:(lia))]; zcmp; by wstep.
  - destruct (decide (i = k)) as [->|Hik].
    { pose proof (Hbelow k ltac:(lia)). pose proof (Hbelow 0%nat ltac:(lia)). pose proof (H0 k Hi).
      destruct (Nat.eqb_spec (S k) (length l)); [|pose proof (Habove (S k) ltac:(lia))]; zcmp; by wstep. }
    assert (wp (find_place f z (addr l (next_ix l i))) Q s) as Hnext.
    { apply IH; [by rewrite next_ix_dist|by apply next_ix_lt|lia]. }
    unfold next_ix in Hnext. pose proof (Hbelow 0%nat ltac:(lia)).
    destruct (decide (i < k)%nat) as [Hlt|Hge].
    + pose proof (Hbelow (S i) ltac:(lia)). pose proof (Hasc i (S i) ltac:(lia)).
      destruct (Nat.eqb_spec (S i) (length l)); [lia|]. zcmp; done.
    + pose proof (Habove i ltac:(lia)). destruct (Nat.eqb_spec (S i) (length l)) as [|Hne].
      * zcmp; done.
      * pose proof (Hasc i (S i) ltac:(lia)). zcmp; done.
Qed.

(** The addresses of the ring ascend. *)
Lemma ring_asc L i j : asc (base + 8) L → (i < j < S (length L))%nat →
  addr ((base, 0) :: L) i < addr ((base, 0) :: L) j.
Proof.
  intros Ha Hij. destruct j as [|j]; [lia|]. unfold addr. simpl.
  destruct (lookup_lt_is_Some_2 L j) as [y Hy]; [lia|]. rewrite Hy. simpl.
  destruct i as [|i]; simpl.
  - pose proof (proj1 (Forall_lookup _ _) (asc_low _ _ Ha) _ _ Hy) as [? _]. simpl in *. lia.
  - destruct (lookup_lt_is_Some_2 L i) as [x Hx]; [lia|]. rewrite Hx. simpl.
    pose proof (asc_lookup _ _ i j x y Ha ltac:(lia) Hx Hy).
    pose proof (proj1 (Forall_lookup _ _) (asc_low _ _ Ha) _ _ Hx) as [_ ?]. unfold bend in *. simpl in *. lia.
Qed.

(** The last block of a list that starts with [base]. *)
Definition last_addr (L : list block) : Z := addr ((base, 0) :: L) (length L).

Lemma wp_find_place s L1 L2 A z (Q : Z → um → Prop) :
  um_ok s (L1 ++ L2) A → base < z.1 → 0 < z.2 → (length (L1 ++ L2) < fuel)%nat →
  Forall (λ x, bend x ≤ z.1) L1 → Forall (λ x, bend z ≤ x.1) L2 →
  Q (last_addr L1) s → wp (find_place fuel z.1 (freep s)) Q s.
Proof.
  intros Hs Hbz Hz Hfuel F1 F2 HQ. set (k := length L1). set (FL := (base, 0) :: L1 ++ L2).
  assert (length FL = S (k + length L2)) as Elen by (unfold FL, k; simpl; by rewrite length_app).
  assert (∃ i, (i < length FL)%nat ∧ freep s = addr FL i) as (i & Hi & ->).
  { pose proof (uo_freep _ _ _ Hs) as Hf. apply list_elem_of_lookup in Hf as [i Hf].
    rewrite list_lookup_fmap in Hf. apply fmap_Some in Hf as (x & Hx & ->). exists i.
    split; [by eapply lookup_lt_Some|]. unfold addr. fold FL in Hx. by rewrite Hx. }
  destruct (dist_ex FL i k Hi) as (d & Hd & Hdk); [lia|].
  apply (wp_walk_place FL k) with (d := d); try done.
  - intros j Hj. apply (um_link _ _ _ _ Hs). unfold FL in Hj. done.
  - intros a b Hab. by apply (ring_asc (L1 ++ L2)); [apply (uo_asc _ _ _ Hs)|].
  - lia.
  - intros [|j] Hj; [done|]. unfold addr, FL. simpl. rewrite lookup_app_l by (fold k; lia).
    destruct (lookup_lt_is_Some_2 L1 j) as [x Hx]; [fold k; lia|]. rewrite Hx. simpl.
    pose proof (proj1 (Forall_lookup _ _) F1 _ _ Hx) as ?.
    pose proof (um_bounds _ _ _ x Hs) as (_ & ? & _); [|unfold bend in *; simpl in *; lia].
    rewrite !elem_of_app. left. left. by eapply list_elem_of_lookup_2.
  - intros [|j] [Hj1 Hj2]; [lia|]. unfold addr, FL. simpl. rewrite lookup_app_r by (fold k; lia).
    fold k. destruct (lookup_lt_is_Some_2 L2 (j - k)) as [x Hx]; [lia|]. rewrite Hx. simpl.
    pose proof (proj1 (Forall_lookup _ _) F2 _ _ Hx) as ?. unfold bend in *. simpl in *. lia.
  - unfold last_addr in HQ. fold k in HQ. replace (addr FL k) with (addr ((base, 0) :: L1) k); [done|].
    symmetry. apply (addr_app_l ((base, 0) :: L1) L2). simpl. unfold k. lia.
  - unfold FL in Hd. simpl in Hd. lia.
Qed.

Lemma wp_then2 {A B C D} (a : M um A) (b : M um B) (c : A → B → M um C) (k : M um D) Q s :
  wp (x ← a; y ← b; c x y) (λ _, wp k Q) s → wp (x ← a; y ← b; c x y ;; k) Q s.
Proof.
  unfold wp, mbind, M_bind. destruct (a s) as [x s1| | | |]; [|done..].
  destruct (b s1) as [y s2| | | |]; [|done..]. by destruct (c x y s2).
Qed.

(** The ring up to and including the block before bp. *)
Lemma ring_split m L1 L2 : seg m base ((base, 0) :: L1 ++ L2) base →
  ∃ K p np, (base, 0) :: L1 = K ++ [(p, np)] ∧ p = last_addr L1 ∧
    seg m base K p ∧ ∃ nx, m p = mkHdr nx np ∧ seg m nx L2 base.
Proof.
  intros H. destruct (exists_last (l := (base, 0) :: L1)) as (K & [p np] & E); [done|].
  exists K, p, np. split; [done|]. split.
  - unfold last_addr, addr. rewrite E.
    assert (length L1 = length K) as -> by (apply (f_equal length) in E; rewrite length_app in E; simpl in E; lia).
    by rewrite lookup_app_r, Nat.sub_diag by done.
  - change ((base, 0) :: L1 ++ L2) with (((base, 0) :: L1) ++ L2) in H. rewrite E, <-app_assoc in H.
    by apply useg_middle in H.
Qed.

(** The list of free blocks after [z] has been put between [L1] and [L2]. *)
Definition insert_block (L1 : list block) (z : block) (L2 : list block) : list block :=
  match rev L1 with
  | [] => join z L2
  | x :: r => rev r ++ join x (join z L2)
  end.

Lemma insert_snoc L0 x z L2 : insert_block (L0 ++ [x]) z L2 = L0 ++ join x (join z L2).
Proof. unfold insert_block. by rewrite rev_app_distr; simpl; rewrite rev_involutive. Qed.

(** What inserting keeps. *)
Lemma insert_ok hi L1 z L2 A : asc (base + 8) (L1 ++ L2) → 0 < z.2 → base + 8 ≤ z.1 →
  Forall (λ x, bend x ≤ z.1) L1 → Forall (λ x, bend z ≤ x.1) L2 →
  Forall (λ x, base + 8 ≤ x.1 ∧ 0 < x.2 ∧ bend x ≤ hi) ((L1 ++ L2) ++ z :: A) →
  pw ((L1 ++ L2) ++ z :: A) →
  asc (base + 8) (insert_block L1 z L2) ∧
  Forall (λ x, base + 8 ≤ x.1 ∧ 0 < x.2 ∧ bend x ≤ hi) (insert_block L1 z L2 ++ A) ∧
  pw (insert_block L1 z L2 ++ A) ∧
  (∀ x, free_at (insert_block L1 z L2) x ↔ free_at (L1 ++ L2) x ∨ z.1 ≤ x < bend z).
Proof.
  intros Hasc Hz Hlo F1 F2 Hin Hpw.
  assert (asc (bend z) L2) as Ha2.
  { apply asc_app in Hasc as [_ H2]. destruct L2 as [|y L2]; [done|]. simpl in *.
    apply Forall_cons in F2 as [? _]. destruct H2 as (_ & ? & ?). done. }
  assert (Forall (λ y : block, 0 < y.2) (L1 ++ L2)) as Hpos.
  { eapply Forall_impl; [by apply (asc_low _ _ Hasc)|]. simpl. tauto. }
  pose proof (proj1 (Forall_app _ _ _) Hpos) as [Hpos1 Hpos2].
  assert (asc (bend z) L2 → asc (z.1) (join z L2)) as Hj by (intros; by apply join_asc).
  assert (Forall (λ y : block, 0 < y.2) (join z L2)) as Hposj.
  { eapply Forall_impl; [by apply (asc_low _ _ (Hj Ha2))|]. simpl. tauto. }
  destruct L1 as [|x L0 _] using rev_ind.
  - unfold insert_block. simpl in *. split_and!.
    + by apply join_asc.
    + apply Forall_app in Hin as [Hin2 Hin]. apply Forall_cons in Hin as [Hinz HinA].
      apply Forall_app. split; [|done]. apply join_Forall. by apply Forall_cons.
    + apply join_pw; [done| |].
      * apply Forall_app. split; [done|]. apply Forall_app in Hin as [_ Hin]. apply Forall_cons in Hin as [_ Hin].
        eapply Forall_impl; [exact Hin|]. simpl. tauto.
      * simpl. rewrite <-Permutation_middle in Hpw. exact Hpw.
    + intros y. rewrite join_free, ufree_at_cons by done. tauto.
  - rewrite insert_snoc. apply Forall_app in F1 as [F1 Fx]. rewrite Forall_singleton in Fx.
    apply Forall_app in Hpos1 as [Hpos1 Hx]. rewrite Forall_singleton in Hx.
    rewrite <-!app_assoc in *. simpl in *.
    split_and!.
    + apply asc_app. apply asc_app in Hasc as [H0 H1]. split; [done|]. simpl in H1. destruct H1 as (? & ? & ?).
      apply join_asc; [done|done|]. by apply join_asc.
    + rewrite Forall_app in Hin |- *. destruct Hin as [Hi0 Hin]. split; [done|].
      apply Forall_cons in Hin as [Hix Hin]. apply Forall_app in Hin as [Hi2 Hin].
      apply Forall_cons in Hin as [Hiz HiA]. apply Forall_app. split; [|done].
      apply join_Forall. apply Forall_cons. split; [done|]. apply join_Forall. by apply Forall_cons.
    + assert (Forall (λ y : block, 0 < y.2) (A ++ L0)) as HposA.
      { apply Forall_app. split; [|done]. apply (Forall_impl (λ x, base + 8 ≤ x.1 ∧ 0 < x.2 ∧ bend x ≤ hi)); [|simpl; tauto].
        apply Forall_app in Hin as [_ Hin]. apply Forall_cons in Hin as [_ Hin].
        apply Forall_app in Hin as [_ Hin]. by apply Forall_cons in Hin as [_ Hin]. }
      rewrite (Permutation_app_comm L0), <-app_assoc. apply join_pw; [done|by apply Forall_app|].
      change ((x :: join z L2) ++ A ++ L0) with (x :: join z L2 ++ (A ++ L0)).
      rewrite (Permutation_middle (join z L2)). apply join_pw; [done| |].
      { apply Forall_app. split; [done|]. by apply Forall_cons. }
      eapply pw_perm; [|exact Hpw]. simpl.
      rewrite (Permutation_app_comm L0). simpl. rewrite <-app_assoc. simpl.
      by rewrite <-!Permutation_middle, Permutation_swap.
    + intros y. rewrite !ufree_at_app, join_free, ufree_at_cons, join_free, ufree_at_cons by done.
      rewrite ufree_at_cons. tauto.
Qed.

Lemma join_sublist x l : (join x l).*1 `sublist_of` (x :: l).*1.
Proof.
  destruct l as [|y l]; [done|]. simpl. destruct (bend x =? y.1); simpl; [|done].
  by apply sublist_skip, sublist_cons.
Qed.

(** No header of an allocated block is one of the ring. *)
Lemma alloc_not_ring s L A x : um_ok s L A → x ∈ A → x.1 ∉ ((base, 0) :: L).*1.
Proof.
  intros Hs Hx. pose proof (um_bounds _ _ _ x Hs) as Hb. simpl. rewrite not_elem_of_cons. split.
  - intros E. destruct Hb as [Hb _]; [set_solver|lia].
  - intros (y & Ey & Hy)%list_elem_of_fmap. pose proof (uo_pw _ _ _ Hs) as Hpw.
    apply pw_app in Hpw as (_ & _ & Hd). specialize (Hd y x Hy Hx).
    pose proof (um_bounds _ _ _ y Hs). destruct Hb as (? & ? & _); [set_solver|].
    destruct H as (_ & ? & _); [set_solver|]. unfold disj, bend in Hd. lia.
Qed.

(** The place of an allocated block among the free ones. *)
Lemma alloc_place s L A z : um_ok s L (z :: A) →
  ∃ L1 L2, L = L1 ++ L2 ∧ Forall (λ x, bend x ≤ z.1) L1 ∧ Forall (λ x, bend z ≤ x.1) L2.
Proof.
  intros Hs. pose proof (um_bounds _ _ _ z Hs) as (_ & ? & _); [set_solver|].
  apply (place_split (base + 8)); [apply (uo_asc _ _ _ Hs)|done|]. intros x Hx.
  pose proof (uo_pw _ _ _ Hs) as Hpw. apply pw_app in Hpw as (_ & _ & Hd). apply Hd; [done|set_solver].
Qed.

(** The ring after bp has been inserted. *)
Lemma insert_ring L1 L2 K p np b n :
  (base, 0) :: L1 = K ++ [(p, np)] → base < b →
  K ++ join (p, np) (join (b, n) L2) = (base, 0) :: insert_block L1 (b, n) L2.
Proof.
  intros E Hb. destruct L1 as [|x L0 _] using rev_ind.
  - destruct K as [|k K]; [|by destruct K]. simplify_eq/=. unfold insert_block. simpl.
    assert (∃ n' l, join (b, n) L2 = (b, n') :: l) as (n' & l & ->).
    { destruct L2 as [|y L2]; simpl; [eauto|]. case_match; eauto. }
    simpl. unfold bend. simpl. by rewrite (proj2 (Z.eqb_neq _ _)) by lia.
  - change ((base, 0) :: L0 ++ [x]) with (((base, 0) :: L0) ++ [x]) in E.
    apply app_inj_tail in E as [<- ->]. by rewrite insert_snoc.
Qed.

(** Where the headers of the ring lie. *)
Lemma ring_addr_bounds s L A p np : um_ok s L A → (p, np) ∈ (base, 0) :: L → 0 ≤ p ∧ 0 ≤ np ∧ p + 8 * np ≤ LIM.
Proof.
  intros Hs [[= -> ->]|Hin]%elem_of_cons.
  - pose proof (uo_top _ _ _ Hs). lia.
  - destruct (um_bounds _ _ _ (p, np) Hs) as (? & ? & ?); [set_solver|]. unfold bend in *. simpl in *. lia.
Qed.

Lemma insert_length L1 z L2 : (length (insert_block L1 z L2) ≤ S (length (L1 ++ L2)))%nat.
Proof.
  pose proof (join_length z L2). unfold insert_block. destruct (rev L1) as [|x r] eqn:Er.
  - rewrite length_app. lia.
  - apply (f_equal length) in Er. rewrite length_rev in Er. simpl in Er.
    pose proof (join_length x (join z L2)). rewrite !length_app, length_rev. lia.
Qed.

(** The addresses stay distinct when [z] goes between. *)
Lemma nodup_join (P : list Z) p z L2 : NoDup (P ++ p :: L2.*1) → z.1 ∉ P ++ p :: L2.*1 →
  NoDup (P ++ p :: (join z L2).*1).
Proof.
  intros Hnd Hz. apply (sublist_NoDup _ (P ++ p :: (z.1 :: L2.*1))).
  - apply NoDup_app in Hnd as (N1 & N2 & N3). apply NoDup_cons in N3 as [N3 N4].
    apply NoDup_app. split; [done|]. split; [set_solver|]. apply NoDup_cons. split; [set_solver|].
    apply NoDup_cons. split; [set_solver|done].
  - apply sublist_app; [done|]. apply sublist_skip, (join_sublist z).
Qed.

(** The sizes of the other allocated blocks survive. *)
Lemma alloc_kept s L A b n m p : um_ok s L ((b, n) :: A) → p ∈ ((base, 0) :: L).*1 →
  (∀ x, x ≠ p → x ≠ b → m x = um_mem s x) → Forall (λ x, s_size (m x.1) = x.2) A.
Proof.
  intros Hs Hp Hm. apply Forall_forall. intros x Hx.
  pose proof (alloc_not_ring _ _ _ x Hs ltac:(set_solver)) as Hxr. rewrite Hm.
  - apply (proj1 (Forall_forall _ _) (uo_size _ _ _ Hs)). set_solver.
  - intros E. apply Hxr. by rewrite E.
  - intros E. pose proof (uo_pw _ _ _ Hs) as Hpw. apply pw_app in Hpw as (_ & [Hpw _] & _).
    pose proof (proj1 (Forall_forall _ _) Hpw x Hx) as Hd.
    destruct (um_bounds _ _ _ (b, n) Hs) as (_ & Hn & _); [set_solver|]. simpl in Hn.
    destruct (um_bounds _ _ _ x Hs) as (_ & ? & _); [set_solver|]. unfold disj, bend in Hd. simpl in Hd. lia.
Qed.

Lemma wp_free s L A b n (Q : unit → um → Prop) :
  um_ok s L ((b, n) :: A) → (length L < fuel)%nat →
  (∀ s' L', um_ok s' L' A → um_top s' = um_top s → (length L' ≤ S (length L))%nat →
     (∀ x, free_at L' x ↔ free_at L x ∨ b ≤ x < b + 8 * n) → Q tt s') →
  wp (free fuel (b + 8)) Q s.
Proof.
  intros Hs Hfuel HQ. destruct (alloc_place _ _ _ _ Hs) as (L1 & L2 & -> & F1 & F2). simpl in F1.
  pose proof (um_bounds _ _ _ (b, n) Hs) as (Hlo & Hn & Hhi); [set_solver|]. unfold bend, LIM in Hhi. simpl in *.
  pose proof (alloc_not_ring _ _ _ (b, n) Hs ltac:(set_solver)) as Hbr.
  pose proof (asc_nodup _ _ (uo_asc _ _ _ Hs)) as Hnd.
  unfold free. replace (hadd (b + 8) (-1)) with b by (rewrite hadd_small; lia).
  wstep. wstep. wstep. apply (wp_find_place _ _ _ _ (b, n) _ Hs); simpl; [lia|done|done|done|done|].
  destruct (ring_split _ _ _ (uo_ring _ _ _ Hs)) as (K & p & np & EK & Ep & HK & nx & Hp & Hseg).
  rewrite <-Ep. assert (Ering : ((base, 0) :: L1 ++ L2).*1 = K.*1 ++ p :: L2.*1).
  { change ((base, 0) :: L1 ++ L2) with (((base, 0) :: L1) ++ L2). by rewrite EK, <-app_assoc, fmap_app. }
  assert (Hpr : p ∈ ((base, 0) :: L1 ++ L2).*1) by (rewrite Ering; set_solver).
  rewrite Ering in Hnd, Hbr. pose proof (nodup_join _ _ (b, n) _ Hnd Hbr) as Hnd1.
  simpl in Hbr. apply not_elem_of_app in Hbr as [HbK Hbr]. apply not_elem_of_cons in Hbr as [Hbp HbL2].
  assert (Hpos : Forall (λ y, base + 8 ≤ y.1 ∧ 0 < y.2 ∧ bend y ≤ LIM) ((b, n) :: L2)).
  { apply Forall_forall. intros y Hy. apply (um_bounds _ _ _ y Hs). set_solver. }
  assert (Himp : ∀ y : block, base + 8 ≤ y.1 ∧ 0 < y.2 ∧ bend y ≤ LIM → 0 < y.2 ∧ bend y < 4294967296).
  { unfold LIM. intros. lia. }
  destruct (ring_addr_bounds _ _ _ p np Hs) as (Hp0 & Hnp & Hpl).
  { change ((p, np) ∈ ((base, 0) :: L1) ++ L2). rewrite EK. set_solver. }
  unfold LIM in Hpl. apply wp_then2. apply (wp_free_next (um_mem s) b n p np L2 base); try done; try lia.
  { by pose proof (proj1 (Forall_cons _ _ _) (uo_size _ _ _ Hs)) as [? _]. }
  { by exists nx. }
  { apply (Forall_impl _ _ _ (proj2 (proj1 (Forall_cons _ _ _) Hpos)) Himp). }
  intros m1 Hm1 Hseg1. apply wp_then2.
  apply (wp_free_prev m1 base K p np b (join (b, n) L2) base); try done; try lia.
  { apply (seg_same (um_mem s)); [|done]. intros x Hx. apply Hm1. by intros ->. }
  { exists nx. rewrite Hm1 by done. done. }
  { destruct L2 as [|y L2]; simpl; [eauto|]. case_match; eauto. }
  { apply (Forall_impl _ _ _ (join_Forall _ _ _ _ Hpos) Himp). }
  intros m2 Hm2 Hseg2. wstep.
  assert (p ∈ ((base, 0) :: insert_block L1 (b, n) L2).*1) as Hfp.
  { rewrite <-(insert_ring L1 L2 K p np b n EK) by lia. rewrite fmap_app. apply elem_of_app. right.
    destruct (join (b, n) L2); simpl; [set_solver|]. case_match; simpl; set_solver. }
  rewrite (insert_ring L1 L2 K p np b n EK) in Hseg2 by lia.
  destruct (insert_ok (um_top s) L1 (b, n) L2 A) as (I1 & I2 & I3 & I4); try done; try lia; try apply Hs.
  apply (HQ _ (insert_block L1 (b, n) L2)); try done; [|apply insert_length].
  split; try done; [|apply Hs]. apply (alloc_kept s (L1 ++ L2) A b n m2 p Hs Hpr).
  intros x H1 H2. by rewrite Hm2, Hm1.
Qed.

(** *** malloc *)

(** What the caller of malloc gets: [q] is the header of a new block of [n]
    units, and nothing else is lost. *)
Definition gives (L A : list block) (n q : Z) (s' : um) : Prop :=
  ∃ L', um_ok s' L' ((q, n) :: A) ∧ ∀ x, free_at L x → free_at L' x ∨ q ≤ x < q + 8 * n.

(** The block fits exactly: it leaves the ring. *)
Lemma take_exact s L1 b n L2 A : um_ok s (L1 ++ (b, n) :: L2) A →
  um_ok (set_freep (last_addr L1) (set_mem (zupd (um_mem s) (last_addr L1)
     (mkHdr (s_ptr (um_mem s b)) (s_size (um_mem s (last_addr L1))))) s)) (L1 ++ L2) ((b, n) :: A).
Proof.
  intros Hs. destruct (ring_split _ _ _ (uo_ring _ _ _ Hs)) as (K & p & np & EK & Ep & HK & nx & Hp & Hseg).
  rewrite <-Ep, Hp. simpl in Hseg |- *. destruct Hseg as (-> & nxb & Hb & Hseg). rewrite Hb. simpl.
  pose proof (asc_nodup _ _ (uo_asc _ _ _ Hs)) as Hnd.
  change ((base, 0) :: L1 ++ (b, n) :: L2) with (((base, 0) :: L1) ++ (b, n) :: L2) in Hnd.
  rewrite EK, <-app_assoc, fmap_app in Hnd. simpl in Hnd. apply NoDup_app in Hnd as (_ & N1 & N2).
  apply NoDup_cons in N2 as [N2 N3]. apply not_elem_of_cons in N2 as [Hpb HpL2].
  assert (HpK : p ∉ K.*1) by set_solver.
  assert (Hasc : asc (base + 8) (L1 ++ L2)).
  { pose proof (uo_asc _ _ _ Hs) as Ha. apply asc_app in Ha as [Ha1 Ha2]. apply asc_app. split; [done|].
    simpl in Ha2. destruct Ha2 as (H1 & H2 & H3). apply (asc_mono (bend (b, n) + 1)); [|exact H3]. unfold bend in *. simpl in *. lia. }
  assert (Hring : seg (zupd (um_mem s) p (mkHdr nxb np)) base (((base, 0) :: L1) ++ L2) base).
  { rewrite EK, <-app_assoc. apply useg_middle. split; [by apply seg_upd|]. exists nxb. rewrite zupd_eq.
    split; [done|]. by apply seg_upd. }
  assert (Hfp : p ∈ (((base, 0) :: L1) ++ L2).*1) by (rewrite EK, !fmap_app; set_solver).
  split; [exact Hring|exact Hfp|exact Hasc|simpl..].
  - rewrite <-move_perm. apply Hs.
  - apply Forall_cons. simpl. split; [by rewrite zupd_ne, Hb|]. apply Forall_forall. intros x Hx.
    rewrite zupd_ne; [by apply (proj1 (Forall_forall _ _) (uo_size _ _ _ Hs))|].
    intros E. apply (alloc_not_ring _ _ _ x Hs Hx). rewrite E.
    change ((base, 0) :: L1 ++ (b, n) :: L2) with (((base, 0) :: L1) ++ (b, n) :: L2).
    rewrite EK, !fmap_app. set_solver.
  - rewrite <-move_perm. apply Hs.
  - apply Hs.
Qed.

Lemma pw_cut b n k R : 0 < k < n → pw ((b, n) :: R) → pw ((b, n - k) :: (b + 8 * (n - k), k) :: R).
Proof.
  intros Hk. simpl. intros [HF Hpw]. rewrite Forall_forall in HF. split; [|split; [|done]].
  - apply Forall_cons. split; [unfold disj, bend; simpl; lia|]. apply Forall_forall. intros y Hy.
    specialize (HF y Hy). unfold disj, bend in *. simpl in *. lia.
  - apply Forall_forall. intros y Hy. specialize (HF y Hy). unfold disj, bend in *. simpl in *. lia.
Qed.

(** The block is larger: its end is split off. *)
Lemma take_cut s L1 b n L2 A k : um_ok s (L1 ++ (b, n) :: L2) A → 0 < k < n →
  let q := b + 8 * (n - k) in
  let m1 := zupd (um_mem s) b (mkHdr (s_ptr (um_mem s b)) (n - k)) in
  um_ok (set_freep (last_addr L1) (set_mem (zupd m1 q (mkHdr (s_ptr (m1 q)) k)) s))
    (L1 ++ (b, n - k) :: L2) ((q, k) :: A).
Proof.
  intros Hs Hk q m1.
  destruct (um_bounds _ _ _ (b, n) Hs) as (Hb1 & Hb2 & Hb3); [set_solver|]. unfold bend in Hb3. simpl in *.
  assert (Hq : ∀ x, x ∈ ((base, 0) :: L1 ++ (b, n) :: L2).*1 ∨ x ∈ A.*1 → x ≠ q).
  { assert (pw ((b, n) :: (L1 ++ L2) ++ A)) as Hpw'.
    { eapply pw_perm; [|exact (uo_pw _ _ _ Hs)]. by rewrite move_perm, <-Permutation_middle. }
    destruct Hpw' as [Hpw' _]. rewrite Forall_forall in Hpw'.
    intros x Hx ->. assert (∃ y, y ∈ (base, 0) :: (b, n) :: (L1 ++ L2) ++ A ∧ q = y.1) as (y & Hy & Eq).
    { destruct Hx as [Hx|Hx]; apply list_elem_of_fmap in Hx as (y & -> & Hy); exists y; set_solver. }
    apply elem_of_cons in Hy as [->|Hy]; [simpl in Eq; lia|].
    apply elem_of_cons in Hy as [->|Hy]; [simpl in Eq; lia|].
    specialize (Hpw' y Hy). destruct (um_bounds _ _ _ y Hs) as (? & ? & ?); [set_solver|].
    unfold disj, bend in *. simpl in *. lia. }
  assert (Hqr : q ∉ ((base, 0) :: L1 ++ (b, n) :: L2).*1) by (intros Hx; by apply (Hq q); [left|]).
  pose proof (asc_nodup _ _ (uo_asc _ _ _ Hs)) as Hnd.
  change ((base, 0) :: L1 ++ (b, n) :: L2) with (((base, 0) :: L1) ++ (b, n) :: L2) in Hnd, Hqr.
  rewrite fmap_app, fmap_cons in Hnd, Hqr. apply NoDup_app in Hnd as (_ & N1 & N2).
  pose proof (uo_ring _ _ _ Hs) as Hring.
  change ((base, 0) :: L1 ++ (b, n) :: L2) with (((base, 0) :: L1) ++ (b, n) :: L2) in Hring.
  apply useg_middle in Hring as (Hr1 & nx & Hb & Hr2).
  apply NoDup_cons in N2 as [HbL2 _].
  assert (HbL : b ∉ ((base, 0) :: L1).*1) by (intros Hx; apply (N1 b Hx); set_solver).
  assert (Ering : seg (zupd m1 q (mkHdr (s_ptr (m1 q)) k)) base (((base, 0) :: L1) ++ (b, n - k) :: L2) base).
  { apply seg_upd; [by rewrite fmap_app, fmap_cons|]. unfold m1. rewrite Hb.
    apply (useg_relink _ _ _ _ n L2); [|done|done|done]. apply useg_middle. eauto. }
  destruct (ring_split _ _ _ (uo_ring _ _ _ Hs)) as (K & p & np & EK & Ep & _).
  assert (Hfp : last_addr L1 ∈ (((base, 0) :: L1) ++ (b, n - k) :: L2).*1).
  { rewrite EK, !fmap_app, <-Ep. set_solver. }
  split; [exact Ering|exact Hfp|simpl..].
  - pose proof (uo_asc _ _ _ Hs) as Ha. apply asc_app in Ha as [Ha1 Ha2]. apply asc_app. split; [done|].
    simpl in Ha2 |- *. destruct Ha2 as (H1 & H2 & H3). split_and!; [done|lia|].
    apply (asc_mono (bend (b, n) + 1)); [|exact H3]. unfold bend. simpl. lia.
  - rewrite move_perm. pose proof (uo_in _ _ _ Hs) as Hin. rewrite move_perm in Hin.
    rewrite Forall_app in Hin |- *. destruct Hin as [Hi1 Hi2]. split; [done|].
    apply Forall_cons in Hi2 as [Hib Hi2]. apply Forall_cons. split; [unfold bend in *; simpl in *; lia|].
    apply Forall_cons. split; [unfold bend, q in *; simpl in *; lia|done].
  - apply Forall_cons. simpl. split; [by rewrite zupd_eq|]. apply Forall_forall. intros x Hx.
    rewrite zupd_ne by (apply Hq; right; by apply list_elem_of_fmap_2). unfold m1. rewrite zupd_ne.
    + by apply (proj1 (Forall_forall _ _) (uo_size _ _ _ Hs)).
    + intros E. apply (alloc_not_ring _ _ _ x Hs Hx). rewrite E. simpl. rewrite fmap_app. set_solver.
  - pose proof (uo_pw _ _ _ Hs) as Hpw. rewrite move_perm, <-Permutation_middle in Hpw |- *.
    rewrite <-Permutation_middle. by apply pw_cut.
  - apply Hs.
Qed.

(** The body of find_fit on a block that is large enough. *)
Lemma wp_take s L1 b n L2 A k (Q : Z → um → Prop) :
  um_ok s (L1 ++ (b, n) :: L2) A → 0 < k ≤ n →
  (∀ q s', gives (L1 ++ (b, n) :: L2) A k q s' → base + 8 ≤ q < LIM → Q (q + 8) s') →
  wp (q ← (if s_size (um_mem s b) =? k then wr_ptr (last_addr L1) (s_ptr (um_mem s b)) ;; mret b
           else
             wr_size b (u32 (s_size (um_mem s b) - k)) ;;
             let q := hadd b (u32 (s_size (um_mem s b) - k)) in
             wr_size q k ;; mret q);
      modify (set_freep (last_addr L1)) ;; mret (hadd q 1)) Q s.
Proof.
  intros Hs Hk HQ.
  destruct (um_bounds _ _ _ (b, n) Hs) as (Hb1 & Hb2 & Hb3); [set_solver|]. unfold bend, LIM in *. simpl in *.
  assert (s_size (um_mem s b) = n) as Hn.
  { pose proof (uo_ring _ _ _ Hs) as Hr.
    change ((base, 0) :: L1 ++ (b, n) :: L2) with (((base, 0) :: L1) ++ (b, n) :: L2) in Hr.
    apply useg_middle in Hr as (_ & nx & -> & _). done. }
  unfold wr_ptr, wr_size. rewrite Hn. destruct (Z.eqb_spec n k) as [<-|Hne].
  - wstep. wstep. wstep. wstep. wstep. wstep. wstep. rewrite hadd_small by lia.
    apply HQ; [|lia]. exists (L1 ++ L2). split; [by apply take_exact|].
    intros x. rewrite !ufree_at_app, ufree_at_cons. unfold bend. simpl. tauto.
  - rewrite u32_small by (unfold is_u32; lia). wstep. wstep. wstep. wstep. wstep. wstep. wstep. wstep. wstep.
    rewrite (hadd_small b) by lia. simpl. rewrite hadd_small by lia. rewrite Z.mul_1_r. change (set_mem ?x (set_mem ?y s)) with (set_mem x s).
    apply HQ; [|lia]. exists (L1 ++ (b, n - k) :: L2). split; [apply take_cut; [done|lia]|].
    intros x. rewrite !ufree_at_app, !ufree_at_cons. unfold bend. simpl.
    destruct (decide (x < b + 8 * (n - k))); intuition lia.
Qed.

(** A stretch of free memory lies within one block. *)
Lemma free_stretch lo L a k : asc lo L → 0 < k → (∀ x, a ≤ x < a + k → free_at L x) →
  ∃ y, y ∈ L ∧ y.1 ≤ a ∧ a + k ≤ bend y.
Proof.
  intros Hasc Hk Hf. destruct (Hf a) as (y & Hy & Hya); [lia|]. exists y. split_and!; [done|lia|].
  destruct (decide (a + k ≤ bend y)); [done|]. exfalso.
  destruct (Hf (bend y)) as (z & Hz & Hza); [lia|].
  apply list_elem_of_lookup in Hy as [i Hi]. apply list_elem_of_lookup in Hz as [j Hj].
  destruct (lt_eq_lt_dec i j) as [[Hij|Hij]|Hij].
  - pose proof (asc_lookup _ _ _ _ _ _ Hasc Hij Hi Hj). lia.
  - subst j. simplify_eq. lia.
  - pose proof (asc_lookup _ _ _ _ _ _ Hasc Hij Hj Hi). lia.
Qed.

Lemma freep_pos s L A : um_ok s L A → 0 < freep s.
Proof.
  intros Hs. pose proof (uo_freep _ _ _ Hs) as ([p np] & -> & Hp)%list_elem_of_fmap. simpl.
  apply elem_of_cons in Hp as [[= -> ->]|Hp]; [done|].
  destruct (um_bounds _ _ _ (p, np) Hs) as (? & _); [set_solver|]. simpl in *. lia.
Qed.

(** A client that writes inside its blocks touches no header. *)
Lemma client_writes s L A q n w x : um_ok s L A → (q, n) ∈ A → q + 8 ≤ w < q + 8 * n →
  x ∈ ((base, 0) :: L).*1 ∨ x ∈ A.*1 → ¬ (x ≤ w < x + 8).
Proof.
  intros Hs Hq Hw Hx Hxw. destruct (um_bounds _ _ _ (q, n) Hs) as (Hq1 & _ & _); [set_solver|]. simpl in Hq1.
  assert (x = base ∨ ∃ y, y ∈ L ++ A ∧ y.1 = x) as [->|(y & Hy & Ey)]; [|lia|].
  { destruct Hx as [Hx|Hx]; apply list_elem_of_fmap in Hx as (y & -> & Hy);
      [apply elem_of_cons in Hy as [->|Hy]; [by left|]|]; right; exists y; set_solver. }
  destruct (um_bounds _ _ _ y Hs Hy) as (_ & ? & _).
  destruct (decide (y = (q, n))) as [->|Hne]; [simpl in Ey; lia|].
  assert (disj y (q, n)) as Hd; [|unfold disj, bend in Hd; simpl in Hd; lia].
  pose proof (uo_pw _ _ _ Hs) as Hpw. apply list_elem_of_split in Hq as (A1 & A2 & ->).
  rewrite app_assoc in Hpw, Hy. rewrite <-Permutation_middle in Hpw. destruct Hpw as [Hpw _].
  apply elem_of_app in Hy as [Hy|Hy]; [|apply elem_of_cons in Hy as [->|Hy]; [done|]].
  - assert (disj (q, n) y); [|unfold disj in *; tauto].
    apply (proj1 (Forall_forall _ _) Hpw). apply elem_of_app. by left.
  - assert (disj (q, n) y); [|unfold disj in *; tauto].
    apply (proj1 (Forall_forall _ _) Hpw). apply elem_of_app. by right.
Qed.

Lemma um_ok_write s L A m : um_ok s L A →
  (∀ x, x ∈ ((base, 0) :: L).*1 ∨ x ∈ A.*1 → m x = um_mem s x) → um_ok (set_mem m s) L A.
Proof.
  intros Hs Hm. split; try apply Hs.
  - apply (seg_same (um_mem s)); [|apply Hs]. intros x Hx. apply Hm. by left.
  - apply Forall_forall. intros x Hx. simpl. rewrite Hm by (right; by apply list_elem_of_fmap_2).
    by apply (proj1 (Forall_forall _ _) (uo_size _ _ _ Hs)).
Qed.
Context (sbrk : Z → Z → option Z).
Hypothesis sbrk_fresh : ∀ n t a, 0 < n → sbrk n t = Some a → t ≤ a ∧ a + n ≤ LIM.

(** New memory from sbrk is a block of its own. *)
Lemma grown_ok s L A a nu : um_ok s L A → 0 < nu → um_top s ≤ a → a + nu * 8 ≤ LIM →
  um_ok (set_mem (zupd (um_mem s) a (mkHdr (s_ptr (um_mem s a)) nu)) (set_top (a + nu * 8) s)) L ((a, nu) :: A).
Proof.
  intros Hs Hnu Ha Hlim. pose proof (uo_in _ _ _ Hs) as Hin. pose proof (uo_top _ _ _ Hs) as [Ht1 Ht2].
  rewrite Forall_forall in Hin.
  assert (Hne : ∀ x, x ∈ L ++ A → x.1 ≠ a).
  { intros x Hx E. destruct (Hin x Hx) as (_ & ? & ?). unfold bend in *. lia. }
  split; simpl.
  - apply (seg_upd (um_mem s) ((base, 0) :: L)); [|apply (uo_ring _ _ _ Hs)].
    simpl. rewrite not_elem_of_cons. split; [lia|]. intros (x & E & Hx)%list_elem_of_fmap.
    apply (Hne x); [set_solver|done].
  - apply Hs.
  - apply Hs.
  - rewrite <-Permutation_middle. apply Forall_cons. split; [unfold bend; simpl; lia|].
    apply Forall_forall. intros x Hx. destruct (Hin x Hx) as (? & ? & ?). split_and!; [done|done|lia].
  - apply Forall_cons. split; [simpl; by rewrite zupd_eq|]. apply Forall_forall. intros x Hx.
    rewrite zupd_ne by (apply Hne; set_solver). by apply (proj1 (Forall_forall _ _) (uo_size _ _ _ Hs)).
  - rewrite <-Permutation_middle. split; [|apply Hs]. apply Forall_forall. intros x Hx.
    destruct (Hin x Hx) as (_ & _ & ?). right. simpl. lia.
  - lia.
Qed.

Lemma wp_morecore s L A nu (Q : Z → um → Prop) :
  um_ok s L A → 0 < nu → nu * 8 < LIM → (length L < fuel)%nat →
  Q 0 s →
  (∀ s' L', um_ok s' L' A → (length L' ≤ S (length L))%nat → (∀ x, free_at L x → free_at L' x) →
     (∃ y, y ∈ L' ∧ nu ≤ y.2) → Q (freep s') s') →
  wp (morecore sbrk fuel nu) Q s.
Proof.
  intros Hs Hnu Hlim Hfuel H0 HQ. unfold morecore. set (nu' := if nu <? 4096 then 4096 else nu).
  assert (nu ≤ nu' ∧ 0 < nu' ∧ nu' * 8 < LIM) as (H1 & H2 & H3).
  { unfold nu'. destruct (Z.ltb_spec nu 4096); unfold LIM in *; lia. }
  rewrite i32_small by (unfold LIM in *; lia). wstep. wstep.
  destruct (sbrk (nu' * 8) (um_top s)) as [a|] eqn:Esb; [|by wstep].
  destruct (sbrk_fresh (nu' * 8) (um_top s) a) as [Ha Hal]; [lia|done|].
  pose proof (uo_top _ _ _ Hs) as [Ht _].
  wstep. wstep. unfold wr_size. wstep. wstep. wstep. simpl.
  rewrite hadd_small by (unfold LIM in *; lia). replace (a + 8 * 1) with (a + 8) by lia.
  eapply wp_free; [by apply (grown_ok s L A a nu')|done|]. intros s' L' Hs' _ Hlen Hfree. wstep.
  apply (HQ s' L'); try done.
  - intros x Hx. apply Hfree. by left.
  - destruct (free_stretch (base + 8) L' a (8 * nu')) as (y & Hy & Hy1 & Hy2); [apply Hs'|lia| |].
    + intros x Hx. apply Hfree. by right.
    + exists y. split; [done|]. unfold bend in Hy2. lia.
Qed.

(** The size of the block at a position of the ring. *)
Lemma ring_size s L A j b n : um_ok s L A → ((base, 0) :: L) !! j = Some (b, n) →
  addr ((base, 0) :: L) j = b ∧ s_size (um_mem s b) = n.
Proof.
  intros Hs Hj. split; [unfold addr; by rewrite Hj|].
  by rewrite (ring_ix _ _ _ _ _ _ (uo_ring _ _ _ Hs) eq_refl Hj).
Qed.

Lemma ring_addr_inj L i j : asc (base + 8) L → (i < S (length L))%nat → (j < S (length L))%nat →
  addr ((base, 0) :: L) i = addr ((base, 0) :: L) j → i = j.
Proof.
  intros Ha Hi Hj E. destruct (lt_eq_lt_dec i j) as [[H|H]|H]; [|done|].
  - pose proof (ring_asc L i j Ha ltac:(lia)). lia.
  - pose proof (ring_asc L j i Ha ltac:(lia)). lia.
Qed.

Section fit.
Context (L A : list block) (k : Z) (Q : Z → um → Prop).
Hypothesis k_pos : 0 < k.
Abbreviation FL := ((base, 0) :: L).
Hypothesis give : ∀ q s', gives L A k q s' → base + 8 ≤ q < LIM → Q (q + 8) s'.

(** The walk has come to a block that is large enough. *)
Lemma wp_fit_here s i b n f : um_ok s L A → (i < S (length L))%nat →
  FL !! next_ix FL i = Some (b, n) → k ≤ n →
  wp (find_fit sbrk fuel (S f) k (addr FL i) b) Q s.
Proof.
  intros Hs Hi Hj Hk. destruct (ring_size _ _ _ _ _ _ Hs Hj) as [_ Hsz].
  assert (next_ix FL i = S i ∧ L !! i = Some (b, n)) as [Ej HL].
  { unfold next_ix in *. destruct (Nat.eqb_spec (S i) (length FL)); [|done]. simpl in Hj. simplify_eq. lia. }
  assert (addr FL i = last_addr (take i L)) as ->.
  { unfold last_addr. rewrite length_take_le by (simpl in Hi; lia). unfold addr.
    destruct i as [|i]; [done|]. simpl. by rewrite lookup_take_lt by lia. }
  rewrite <-(take_drop_middle L i (b, n) HL) in Hs, give.
  cbn [find_fit]. unfold rd. wstep. wstep. rewrite Hsz. rewrite (proj2 (Z.leb_le k n) Hk), <-Hsz.
  by apply (wp_take s (take i L) b n (drop (S i) L) A k).
Qed.

(** The walk goes past a block that is too small. *)
Lemma fit_past s i f : um_ok s L A → (i < S (length L))%nat →
  (∀ n, snd <$> FL !! next_ix FL i = Some n → n < k) →
  wp (g ← gets freep;
      if addr FL (next_ix FL i) =? g then
        p ← morecore sbrk fuel k;
        if p =? 0 then mret 0 else
        h ← rd p; find_fit sbrk fuel f k p (s_ptr h)
      else find_fit sbrk fuel f k (addr FL (next_ix FL i)) (addr FL (next_ix FL (next_ix FL i)))) Q s →
  wp (find_fit sbrk fuel (S f) k (addr FL i) (addr FL (next_ix FL i))) Q s.
Proof.
  intros Hs Hi Hsmall Hw. pose proof (next_ix_lt FL i Hi) as Hj.
  destruct (lookup_lt_is_Some_2 FL (next_ix FL i)) as [[b n] Hx]; [done|].
  destruct (ring_size _ _ _ _ _ _ Hs Hx) as [Ea Hsz]. rewrite Hx in Hsmall. specialize (Hsmall n eq_refl).
  pose proof (um_link _ _ _ (next_ix FL i) Hs Hj) as Hlink.
  cbn [find_fit]. unfold rd. wstep. wstep.
  rewrite Ea in *. rewrite Hsz, (proj2 (Z.leb_gt k n) Hsmall), Hlink. exact Hw.
Qed.

(** A block that is large enough is found before the walk is back at
    freep: it is [d] blocks on, freep is [e]. *)
Lemma wp_fit_found s : um_ok s L A → ∀ d e i f g,
  (i < S (length L))%nat → (d < f)%nat → (d ≤ e < S (length L))%nat →
  ((next_ix FL i + d) mod S (length L))%nat = g → (∃ b n, FL !! g = Some (b, n) ∧ k ≤ n) →
  freep s = addr FL ((next_ix FL i + e) mod S (length L)) →
  wp (find_fit sbrk fuel f k (addr FL i) (addr FL (next_ix FL i))) Q s.
Proof.
  intros Hs. induction d as [|d IH]; intros e i f g Hi Hf He Hg (b & n & Hgn & Hn) Hfp;
    (destruct f as [|f]; [lia|]); pose proof (next_ix_lt FL i Hi) as Hj.
  - rewrite Nat.add_0_r, Nat.mod_small in Hg by done. subst g.
    destruct (ring_size _ _ _ _ _ _ Hs Hgn) as [-> _]. by apply (wp_fit_here s i b n).
  - destruct (lookup_lt_is_Some_2 FL (next_ix FL i)) as [[b' n'] Hx]; [done|].
    destruct (decide (k ≤ n')) as [Hk|Hk].
    { destruct (ring_size _ _ _ _ _ _ Hs Hx) as [-> _]. by apply (wp_fit_here s i b' n'). }
    apply fit_past; [done|done|rewrite Hx; simpl; intros ? [= ->]; lia|]. wstep. wstep.
    rewrite Hfp. rewrite (proj2 (Z.eqb_neq _ _)).
    + apply (IH (e - 1)%nat _ f g); [done|lia|lia| |eauto|].
      * rewrite <-Hg. by apply next_ix_dist.
      * rewrite Hfp. change (S (length L)) with (length FL). rewrite (next_ix_dist FL (next_ix FL i)) by done.
        by replace (S (e - 1)) with e by lia.
    + intros E. apply ring_addr_inj in E; [|apply Hs|done|apply Nat.mod_upper_bound; lia].
      symmetry in E. apply dist_ne in E; [done|lia].
Qed.

(** The first time round: a block is found, or the walk comes back to freep,
    [e] blocks on, and asks for more memory. *)
Lemma wp_fit_walk s : um_ok s L A → k * 8 < LIM → (length L < fuel)%nat →
  (∀ s', um_ok s' L A → Q 0 s') →
  (∀ s' L' f, um_ok s' L' A → (S (length L) < f)%nat → (length L' ≤ S (length L))%nat →
     (∀ x, free_at L x → free_at L' x) → (∃ y, y ∈ L' ∧ k ≤ y.2) →
     wp (h ← rd (freep s'); find_fit sbrk fuel f k (freep s') (s_ptr h)) Q s') →
  ∀ e i f, (i < S (length L))%nat → (e + S (S (length L)) < f)%nat → (e < S (length L))%nat →
  freep s = addr FL ((next_ix FL i + e) mod S (length L)) →
  wp (find_fit sbrk fuel f k (addr FL i) (addr FL (next_ix FL i))) Q s.
Proof.
  intros Hs Hlim Hfuel H0 Hmore. induction e as [|e IH]; intros i f Hi Hf He Hfp;
    (destruct f as [|f]; [lia|]); pose proof (next_ix_lt FL i Hi) as Hj;
    (destruct (lookup_lt_is_Some_2 FL (next_ix FL i)) as [[b n] Hx]; [done|]);
    (destruct (decide (k ≤ n)) as [Hk|Hk];
      [destruct (ring_size _ _ _ _ _ _ Hs Hx) as [-> _]; by apply (wp_fit_here s i b n)|]);
    (apply fit_past; [done|done|rewrite Hx; simpl; intros ? [= ->]; lia|]); wstep; wstep.
  - rewrite Nat.add_0_r, Nat.mod_small in Hfp by done. rewrite Hfp, Z.eqb_refl. wstep.
    apply (wp_morecore s L A k); try done; [by apply H0|]. intros s' L' Hs' Hlen Hfree Hy.
    pose proof (freep_pos _ _ _ Hs'). rewrite (proj2 (Z.eqb_neq _ _)) by lia.
    apply (Hmore s' L' f); try done. lia.
  - rewrite Hfp. destruct (Z.eqb_spec (addr FL (next_ix FL i)) (addr FL ((next_ix FL i + S e) mod S (length L)))) as [E|E].
    + wstep. apply (wp_morecore s L A k); try done; [by apply H0|]. intros s' L' Hs' Hlen Hfree Hy.
      pose proof (freep_pos _ _ _ Hs'). rewrite (proj2 (Z.eqb_neq _ _)) by lia.
      apply (Hmore s' L' f); try done. lia.
    + apply IH; [done|lia|lia|]. rewrite Hfp. change (S (length L)) with (length FL).
      by rewrite (next_ix_dist FL (next_ix FL i)).
Qed.
End fit.

(** The position of freep, and the distance to it from the block after it. *)
Lemma freep_ix s L A : um_ok s L A → ∃ i, (i < S (length L))%nat ∧
  freep s = addr ((base, 0) :: L) i ∧
  ((next_ix ((base, 0%Z) :: L) i + length L) mod S (length L) = i)%nat.
Proof.
  intros Hs. pose proof (uo_freep _ _ _ Hs) as Hf. apply list_elem_of_lookup in Hf as [i Hf].
  rewrite list_lookup_fmap in Hf. apply fmap_Some in Hf as (x & Hx & Ex). exists i.
  pose proof (lookup_lt_Some _ _ _ Hx) as Hi. split; [done|]. split; [unfold addr; by rewrite Hx|].
  change (S (length L)) with (length ((base, 0) :: L)). rewrite next_ix_dist by done.
  change (S (length L)) with (length ((base, 0) :: L)).
  replace (i + length ((base, 0%Z) :: L))%nat with (i + 1 * length ((base, 0%Z) :: L))%nat by lia.
  rewrite Nat.Div0.mod_add. by apply Nat.mod_small.
Qed.

(** [um_ready]: malloc has never been called, or the ring is set up. *)
Definition um_ready (s : um) (L A : list block) : Prop :=
  um_ok s L A ∨ (freep s = 0 ∧ L = [] ∧ A = [] ∧ base + 8 ≤ um_top s ≤ LIM).

Lemma wp_find_fit s L A k (Q : Z → um → Prop) :
  um_ok s L A → 0 < k → k * 8 < LIM → (S (length L) < fuel)%nat →
  (∀ s', um_ok s' L A → Q 0 s') →
  (∀ q s', gives L A k q s' → base + 8 ≤ q < LIM → Q (q + 8) s') →
  wp (h ← rd (freep s); find_fit sbrk fuel (2 * fuel) k (freep s) (s_ptr h)) Q s.
Proof.
  intros Hs Hk Hlim Hfuel H0 HQ. destruct (freep_ix _ _ _ Hs) as (i & Hi & Efp & Hd).
  unfold rd. wstep. wstep. rewrite Efp at 1 2. rewrite (um_link s L A) by done.
  apply (wp_fit_walk L A k Q Hk HQ s Hs Hlim ltac:(lia) H0) with (e := length L); [|done|lia|lia|by rewrite Hd].
  intros s' L' f Hs' Hf Hlen Hfree (y & Hy & Hyk). destruct (freep_ix _ _ _ Hs') as (i' & Hi' & Efp' & Hd').
  unfold rd. wstep. wstep. rewrite Efp' at 1 2. rewrite (um_link s' L' A) by done.
  apply list_elem_of_lookup in Hy as [g Hg].
  destruct (dist_ex ((base, 0) :: L') (next_ix ((base, 0) :: L') i') (S g)) as (d & Hd1 & Hd2).
  { by apply next_ix_lt. }
  { simpl. apply lookup_lt_Some in Hg. lia. }
  apply (wp_fit_found L' A k Q Hk) with (d := d) (e := length L') (g := S g); try done; try (simpl in Hd1; lia).
  - intros q s'' (L'' & Hs'' & Hl) Hq. apply HQ; [|done]. exists L''. split; [done|]. intros x Hx. by apply Hl, Hfree.
  - destruct y as [b n]. eauto.
  - by rewrite Hd'.
Qed.

End spec.

(** ** Properties *)

(** [C33] malloc either fails and changes nothing, or returns the payload of a
    block that is large enough, lies in memory the process has, and overlaps
    neither an allocated nor a free block; no free memory is lost on the
    way.  It always returns.  This is for requests of fewer than 2^31 - 15
    bytes; for the ones near 2^32 see [malloc_overflow]. *)
Theorem malloc_spec base sbrk fuel s L A nbytes :
  0 < base → (∀ n t a, 0 < n → sbrk n t = Some a → t ≤ a ∧ a + n ≤ LIM) →
  um_ready base s L A → 0 ≤ nbytes → nbytes + 15 < LIM → (S (length L) < fuel)%nat →
  wp (malloc base sbrk fuel nbytes) (λ r s',
    (r = 0 ∧ um_ok base s' L A) ∨
    (∃ q n L', r = q + 8 ∧ r ≠ 0 ∧ nbytes ≤ 8 * (n - 1) ∧ um_ok base s' L' ((q, n) :: A) ∧
       (∀ x, free_at L x → free_at L' x ∨ q ≤ x < q + 8 * n))) s.
Proof.
  intros Hb Hsb Hr Hn Hlim Hfuel. unfold malloc.
  set (k := u32 (u32 (nbytes + 8 - 1) / 8 + 1)).
  assert (k = (nbytes + 7) / 8 + 1) as Ek.
  { unfold k, LIM in *. rewrite (u32_small (nbytes + 8 - 1)) by (unfold is_u32; lia).
    replace (nbytes + 8 - 1) with (nbytes + 7) by lia. apply u32_small. unfold is_u32. zdm. }
  assert (0 < k ∧ k * 8 < LIM ∧ nbytes ≤ 8 * (k - 1)) as (Hk1 & Hk2 & Hk3) by (unfold LIM in *; zdm).
  assert (∀ s0, um_ok base s0 L A →
    wp (h ← rd (freep s0); find_fit sbrk fuel (2 * fuel) k (freep s0) (s_ptr h)) (λ r s',
    (r = 0 ∧ um_ok base s' L A) ∨
    (∃ q n L', r = q + 8 ∧ r ≠ 0 ∧ nbytes ≤ 8 * (n - 1) ∧ um_ok base s' L' ((q, n) :: A) ∧
       (∀ x, free_at L x → free_at L' x ∨ q ≤ x < q + 8 * n))) s0) as Hfit.
  { intros s0 Hs0. apply (wp_find_fit base fuel Hb sbrk Hsb s0 L A k); try done; [by left|].
    intros q s' (L' & Hs' & Hl) Hq. right. exists q, k, L'. split_and!; try done. lia. }
  wstep. wstep. wstep. destruct Hr as [Hs|(Hf & -> & -> & Ht)].
  - pose proof (freep_pos base Hb s L A Hs). rewrite (proj2 (Z.eqb_neq _ _)) by lia. wstep. by apply Hfit.
  - rewrite Hf. simpl. unfold wr_ptr, wr_size. wstep. wstep. wstep. wstep. wstep. wstep. wstep.
    apply Hfit. split; simpl; try done.
    + split; [done|]. exists base. by rewrite !zupd_eq.
    + set_solver.
Qed.

(** free gives back exactly the block: the others stay allocated, and
    the free memory grows by the block, merged so that no two free blocks
    touch. *)
Theorem free_spec base fuel s L A b n :
  0 < base → um_ok base s L ((b, n) :: A) → (length L < fuel)%nat →
  wp (free fuel (b + 8)) (λ _ s', ∃ L', um_ok base s' L' A ∧
    ∀ x, free_at L' x ↔ free_at L x ∨ b ≤ x < b + 8 * n) s.
Proof. intros Hb Hs Hf. eapply wp_free; [done|exact Hs|done|]. eauto. Qed.

(** ** Witnesses *)

(** A process whose data ends at 4096, with memory up to 1 MB. *)
Definition grow (n t : Z) : option Z := if t + n <=? 1048576 then Some t else None.
Definition um0 : um := mkUm (λ _, mkHdr 0 0) 0 4096.

Lemma grow_fresh n t a : 0 < n → grow n t = Some a → t ≤ a ∧ a + n ≤ LIM.
Proof. unfold grow, LIM. intros Hn. case_if; intros; simplify_eq; lia. Qed.

Lemma um0_ready : um_ready 1000 um0 [] [].
Proof. right. unfold LIM. simpl. split_and!; [done..|lia|lia]. Qed.

Lemma malloc_spec_witness :
  wp (malloc 1000 grow 10 100) (λ r s',
    (r = 0 ∧ um_ok 1000 s' [] []) ∨
    (∃ q n L', r = q + 8 ∧ r ≠ 0 ∧ 100 ≤ 8 * (n - 1) ∧ um_ok 1000 s' L' [(q, n)] ∧
       (∀ x, free_at [] x → free_at L' x ∨ q ≤ x < q + 8 * n))) um0.
Proof.
  exact (malloc_spec 1000 grow 10 um0 [] [] 100 ltac:(lia) grow_fresh um0_ready ltac:(lia)
           ltac:(unfold LIM; lia) ltac:(simpl; lia)).
Defined.

(** The state after that call: one block of 14 units is out. *)
Definition um1 : um := end_state (malloc 1000 grow 10 100) um0.

Lemma um1_ok : um_ok 1000 um1 [(4096, 4082)] [(36752, 14)].
Proof.
  split.
  - simpl. split; [done|]. exists 4096. split; [by vm_compute|]. split; [done|]. exists 1000. by vm_compute.
  - assert (freep um1 = 1000) as -> by by vm_compute. simpl. set_solver.
  - simpl. lia.
  - assert (um_top um1 = 36864) as -> by by vm_compute. simpl. unfold bend. repeat constructor; simpl; lia.
  - repeat constructor.
  - simpl. unfold disj, bend. simpl. repeat constructor; simpl; lia.
  - assert (um_top um1 = 36864) as -> by by vm_compute. unfold LIM. lia.
Qed.

Lemma free_spec_witness :
  wp (free 10 (36752 + 8)) (λ _ s', ∃ L', um_ok 1000 s' L' [] ∧
    ∀ x, free_at L' x ↔ free_at [(4096, 4082)] x ∨ 36752 ≤ x < 36752 + 8 * 14) um1.
Proof. exact (free_spec 1000 10 um1 _ [] 36752 14 ltac:(lia) um1_ok ltac:(simpl; lia)). Defined.

(** The freed block is merged with the one before it. *)
Example free_merges : match free 10 36760 um1 with
  | Ret _ s' => um_mem s' 4096 = mkHdr 1000 4096
  | _ => False end.
Proof. by vm_compute. Qed.

(** The rounding overflows for a request near 2^32: malloc(2^32 - 1) returns
    a block of one unit, the header alone. *)
Theorem malloc_overflow : match malloc 1000 grow 10 4294967295 um0 with
  | Ret r s' => r = 36864 ∧ um_mem s' (r - 8) = mkHdr 0 1
  | _ => False end.
Proof. by vm_compute. Qed.
