(* ===== verification/Vm.v ===== *)
(** * Page tables (xv6/vm.c, the paging part of xv6/mmu.h)

    Page directories and page tables are pages of the same memory the
    allocator manages; a kernel pointer is an address in it.  [translate] is
    what the processor does with a directory: the specification the
    functions of vm.c are compared with.  [kend] and [kdata] are the linker
    symbols end and data; readi (fs.c) is an argument of loaduvm. *)

From S2P Require Import Prelude Kernel Spinlock CString Kalloc.
Local Open Scope Z_scope.

(** ** mmu.h *)

Definition PTE_P : Z := 1.
Definition PTE_W : Z := 2.
Definition PTE_U : Z := 4.
Definition NPDENTRIES : Z := 1024.
Definition NPTENTRIES : Z := 1024.
Definition PDX (va : Z) : Z := Z.land (Z.shiftr (u32 va) 22) 1023.
Definition PTX (va : Z) : Z := Z.land (Z.shiftr (u32 va) 12) 1023.
Definition PTE_ADDR (pte : Z) : Z := Z.land pte (Z.lnot 4095).
Definition PTE_FLAGS (pte : Z) : Z := Z.land pte 4095.

Definition hasbit (pte f : Z) : bool := negb (Z.land pte f =? 0).

(** ** vm.c *)

Section vm.
Context (kend kdata : Z).

Definition ld (a : Z) : M machine Z := gets (λ s, load32 (mc_mem s) a).
Definition sto (a v : Z) : M machine unit :=
  modify (λ s, set_mem (store32 (mc_mem s) a v) s).

(** The address of the entry for [va]; 0 is NULL. *)
Definition walkpgdir (pgdir va : Z) (alloc : bool) : M machine Z :=
  let pde := pgdir + 4 * PDX va in
  e ← ld pde;
  if hasbit e PTE_P then mret (p2v (PTE_ADDR e) + 4 * PTX va) else
  if negb alloc then mret 0 else
  pgtab ← kalloc;
  if pgtab =? 0 then mret 0 else
  modify (λ s, set_mem (memset (mc_mem s) pgtab 0 PGSIZE) s) ;;
  sto pde (Z.lor (Z.lor (Z.lor (v2p pgtab) PTE_P) PTE_W) PTE_U) ;;
  mret (pgtab + 4 * PTX va).

Fixpoint mappages_loop (fuel : nat) (pgdir a last pa perm : Z) : M machine Z :=
  match fuel with
  | O => fault
  | S fuel =>
      pte ← walkpgdir pgdir a true;
      if pte =? 0 then mret (-1) else
      e ← ld pte;
      if hasbit e PTE_P then panic "remap" else
      sto pte (Z.lor (Z.lor pa perm) PTE_P) ;;
      if a =? last then mret 0
      else mappages_loop fuel pgdir (u32 (a + PGSIZE)) last (u32 (pa + PGSIZE)) perm
  end.

(** One round per page from [a] to [last], around 2^32 if need be. *)
Definition mappages (pgdir va size pa perm : Z) : M machine Z :=
  let a := PGROUNDDOWN (u32 va) in
  let last := PGROUNDDOWN (u32 (va + size - 1)) in
  mappages_loop (S (Z.to_nat (u32 (last - a) / PGSIZE))) pgdir a last pa perm.

(** kmap[]: virtual address, physical range, permissions. *)
Record kmap_entry := mkKmap { k_virt : Z; k_start : Z; k_end : Z; k_perm : Z }.
Definition kmap : list kmap_entry :=
  [ mkKmap KERNBASE 0 EXTMEM PTE_W;
    mkKmap KERNLINK (v2p KERNLINK) (v2p kdata) 0;
    mkKmap kdata (v2p kdata) PHYSTOP PTE_W;
    mkKmap DEVSPACE DEVSPACE 0 PTE_W ].

Fixpoint setupkvm_loop (pgdir : Z) (ks : list kmap_entry) : M machine Z :=
  match ks with
  | [] => mret pgdir
  | k :: ks =>
      r ← mappages pgdir (k_virt k) (u32 (k_end k - k_start k)) (k_start k) (k_perm k);
      if r <? 0 then mret 0 else setupkvm_loop pgdir ks
  end.

Definition setupkvm : M machine Z :=
  pgdir ← kalloc;
  if pgdir =? 0 then mret 0 else
  modify (λ s, set_mem (memset (mc_mem s) pgdir 0 PGSIZE) s) ;;
  if DEVSPACE <? p2v PHYSTOP then panic "PHYSTOP too high" else
  setupkvm_loop pgdir kmap.

(** [kpgdir], a global, is the argument of switchkvm and the result of kvmalloc. *)
Definition switchkvm (kpgdir : Z) : M machine unit := modify (set_cr3 (v2p kpgdir)).

Definition kvmalloc : M machine Z :=
  kpgdir ← setupkvm;
  switchkvm kpgdir ;;
  mret kpgdir.

(** [init] is the kernel address of the initcode bytes. *)
Definition inituvm (pgdir init sz : Z) : M machine unit :=
  if PGSIZE <=? sz then panic "inituvm: more than a page" else
  m ← kalloc;
  modify (λ s, set_mem (memset (mc_mem s) m 0 PGSIZE) s) ;;
  mappages pgdir 0 PGSIZE (v2p m) (Z.lor PTE_W PTE_U) ;;
  modify (λ s, set_mem (memmove (mc_mem s) m init sz) s).

Fixpoint loaduvm_loop (readi : Z → Z → Z → M machine Z) (fuel : nat)
    (pgdir addr offset sz i : Z) : M machine Z :=
  match fuel with
  | O => fault
  | S fuel =>
      if i <? sz then
        pte ← walkpgdir pgdir (u32 (addr + i)) false;
        if pte =? 0 then panic "loaduvm: address should exist" else
        e ← ld pte;
        let pa := PTE_ADDR e in
        let n := if u32 (sz - i) <? PGSIZE then u32 (sz - i) else PGSIZE in
        r ← readi (p2v pa) (u32 (offset + i)) n;
        if negb (u32 r =? n) then mret (-1)
        else loaduvm_loop readi fuel pgdir addr offset sz (u32 (i + PGSIZE))
      else mret 0
  end.

(** The loop ends because [i] grows by a page a round; sizes whose last
    page would wrap [i] around do not fit a process. *)
Definition loaduvm (readi : Z → Z → Z → M machine Z) (pgdir addr offset sz : Z) : M machine Z :=
  if negb (u32 addr mod PGSIZE =? 0) then panic "loaduvm: addr must be page aligned" else
  loaduvm_loop readi (Z.to_nat (sz / PGSIZE) + 2) pgdir addr offset sz 0.

Fixpoint deallocuvm_loop (fuel : nat) (pgdir a oldsz : Z) : M machine unit :=
  match fuel with
  | O => fault
  | S fuel =>
      if a <? oldsz then
        pte ← walkpgdir pgdir a false;
        if pte =? 0
        then deallocuvm_loop fuel pgdir (u32 (a + (NPTENTRIES - 1) * PGSIZE + PGSIZE)) oldsz
        else
          e ← ld pte;
          (if hasbit e PTE_P then
             let pa := PTE_ADDR e in
             if pa =? 0 then panic "kfree" else
             kfree kend (p2v pa) ;;
             sto pte 0
           else mret tt) ;;
          deallocuvm_loop fuel pgdir (u32 (a + PGSIZE)) oldsz
      else mret tt
  end.

Definition deallocuvm (pgdir oldsz newsz : Z) : M machine Z :=
  if oldsz <=? newsz then mret oldsz else
  deallocuvm_loop (Z.to_nat (oldsz / PGSIZE) + 2) pgdir (PGROUNDUP newsz) oldsz ;;
  mret newsz.

Fixpoint allocuvm_loop (fuel : nat) (pgdir a oldsz newsz : Z) : M machine Z :=
  match fuel with
  | O => fault
  | S fuel =>
      if a <? newsz then
        m ← kalloc;
        if m =? 0 then
          deallocuvm pgdir newsz oldsz ;; mret 0
        else
        modify (λ s, set_mem (memset (mc_mem s) m 0 PGSIZE) s) ;;
        (* the result of mappages is dropped *)
        mappages pgdir a PGSIZE (v2p m) (Z.lor PTE_W PTE_U) ;;
        allocuvm_loop fuel pgdir (u32 (a + PGSIZE)) oldsz newsz
      else mret newsz
  end.

Definition allocuvm (pgdir oldsz newsz : Z) : M machine Z :=
  if KERNBASE <=? newsz then mret 0 else
  if newsz <? oldsz then mret oldsz else
  allocuvm_loop (Z.to_nat (newsz / PGSIZE) + 2) pgdir (PGROUNDUP oldsz) oldsz newsz.

(** freevm's loop over the directory. *)
Fixpoint freevm_loop (n : nat) (pgdir i : Z) : M machine unit :=
  match n with
  | O => mret tt
  | S n =>
      e ← ld (pgdir + 4 * i);
      (if hasbit e PTE_P then kfree kend (p2v (PTE_ADDR e)) else mret tt) ;;
      freevm_loop n pgdir (i + 1)
  end.

Definition freevm (pgdir : Z) : M machine unit :=
  if pgdir =? 0 then panic "freevm: no pgdir" else
  deallocuvm pgdir KERNBASE 0 ;;
  freevm_loop (Z.to_nat NPDENTRIES) pgdir 0 ;;
  kfree kend pgdir.

Definition clearpteu (pgdir uva : Z) : M machine unit :=
  pte ← walkpgdir pgdir uva false;
  if pte =? 0 then panic "clearpteu" else
  e ← ld pte;
  sto pte (Z.land e (Z.lnot PTE_U)).

Fixpoint copyuvm_loop (fuel : nat) (pgdir d sz i : Z) : M machine Z :=
  match fuel with
  | O => fault
  | S fuel =>
      if i <? sz then
        pte ← walkpgdir pgdir i false;
        if pte =? 0 then panic "copyuvm: pte should exist" else
        e ← ld pte;
        if negb (hasbit e PTE_P) then panic "copyuvm: page not present" else
        let pa := PTE_ADDR e in
        let flags := PTE_FLAGS e in
        m ← kalloc;
        if m =? 0 then freevm d ;; mret 0 else
        modify (λ s, set_mem (memmove (mc_mem s) m (p2v pa) PGSIZE) s) ;;
        r ← mappages d i PGSIZE (v2p m) flags;
        if r <? 0 then freevm d ;; mret 0
        else copyuvm_loop fuel pgdir d sz (u32 (i + PGSIZE))
      else mret d
  end.

Definition copyuvm (pgdir sz : Z) : M machine Z :=
  d ← setupkvm;
  if d =? 0 then mret 0 else
  copyuvm_loop (Z.to_nat (sz / PGSIZE) + 2) pgdir d sz 0.

(** The pointer walkpgdir returns is used without a test: NULL is a fault. *)
Definition uva2ka (pgdir uva : Z) : M machine Z :=
  pte ← walkpgdir pgdir uva false;
  if pte =? 0 then fault else
  e ← ld pte;
  if negb (hasbit e PTE_P) then mret 0 else
  if negb (hasbit e PTE_U) then mret 0 else
  mret (p2v (PTE_ADDR e)).

(** [n > len] is tested on unsigned values; a round moves at least a byte. *)
Fixpoint copyout_loop (fuel : nat) (pgdir va buf len : Z) : M machine Z :=
  match fuel with
  | O => fault
  | S fuel =>
      if 0 <? len then
        let va0 := PGROUNDDOWN va in
        pa0 ← uva2ka pgdir va0;
        if pa0 =? 0 then mret (-1) else
        let n := u32 (PGSIZE - (va - va0)) in
        let n := if len <? n then len else n in
        modify (λ s, set_mem (memmove (mc_mem s) (pa0 + (va - va0)) buf n) s) ;;
        copyout_loop fuel pgdir (u32 (va0 + PGSIZE)) (buf + n) (len - n)
      else mret 0
  end.

Definition copyout (pgdir va p len : Z) : M machine Z :=
  copyout_loop (S (Z.to_nat len)) pgdir va p len.
End vm.

(** ** What the processor reads

    [pgtab m pgdir i] is the page table entry [i] of the directory points
    to, [pte_of m pgdir va] the page table entry that translates [va], 0
    (not present) when there is no page table. *)

Definition pgtab (m : mem) (pgdir i : Z) : option Z :=
  let e := load32 m (pgdir + 4 * i) in
  if hasbit e PTE_P then Some (p2v (PTE_ADDR e)) else None.

Definition pte_of (m : mem) (pgdir va : Z) : Z :=
  match pgtab m pgdir (PDX va) with
  | Some t => load32 m (t + 4 * PTX va)
  | None => 0
  end.

(** The physical address and the flags the processor gets for [va]. *)
Definition translate (m : mem) (pgdir va : Z) : option (Z * Z) :=
  let e := pte_of m pgdir va in
  if hasbit e PTE_P then Some (PTE_ADDR e + va mod PGSIZE, PTE_FLAGS e) else None.

(** A directory and its page tables are pages of their own: none of them is
    free, no two entries share a table. *)
Record vm_ok (kend : Z) (m : mem) (pgdir : Z) (l : list Z) : Prop := {
  vo_dir : page_ok kend pgdir;
  vo_dirfree : pgdir ∉ l;
  vo_tab i t : 0 ≤ i < 1024 → pgtab m pgdir i = Some t →
    page_ok kend t ∧ t ∉ l ∧ t ≠ pgdir;
  vo_inj i j t : 0 ≤ i < 1024 → 0 ≤ j < 1024 →
    pgtab m pgdir i = Some t → pgtab m pgdir j = Some t → i = j;
}.

(** ** Arithmetic of addresses and entries *)

Lemma PDX_spec va : is_u32 va → PDX va = va / 4194304.
Proof.
  intros Hv. unfold PDX. rewrite u32_small, Z.shiftr_div_pow2 by (done || lia).
  change 1023 with (Z.ones 10). rewrite Z.land_ones by lia. unfold is_u32 in Hv.
  change (2 ^ 22) with 4194304. change (2 ^ 10) with 1024. zdm.
Qed.

Lemma PTX_spec va : is_u32 va → PTX va = (va / 4096) mod 1024.
Proof.
  intros Hv. unfold PTX. rewrite u32_small, Z.shiftr_div_pow2 by (done || lia).
  change 1023 with (Z.ones 10). by rewrite Z.land_ones by lia.
Qed.

Lemma PDX_range va : is_u32 va → 0 ≤ PDX va < 1024.
Proof. intros Hv. rewrite PDX_spec by done. unfold is_u32 in Hv. zdm. Qed.

Lemma PTX_range va : is_u32 va → 0 ≤ PTX va < 1024.
Proof. intros Hv. rewrite PTX_spec by done. apply Z.mod_pos_bound. lia. Qed.

(** Two addresses with the same indices are in the same page. *)
Lemma same_page va va' :
  is_u32 va → is_u32 va' → PDX va = PDX va' → PTX va = PTX va' → va / 4096 = va' / 4096.
Proof. intros H H'. rewrite !PDX_spec, !PTX_spec by done. unfold is_u32 in *. zdm. Qed.

Lemma lor_aligned x f : x mod 4096 = 0 → 0 ≤ f < 4096 → Z.lor x f = x + f.
Proof.
  intros Hx Hf. rewrite <-Z.lxor_lor, <-Z.add_nocarry_lxor; [done|..].
  all: apply Z.bits_inj'; intros n Hn; rewrite Z.land_spec, Z.bits_0;
    destruct (Z.ltb_spec n 12).
  1,3: replace x with ((x / 4096) * 2 ^ 12) by (change (2 ^ 12) with 4096; zdm);
       rewrite Z.mul_pow2_bits_low by done; done.
  all: rewrite (Z.bits_above_log2 f n), andb_false_r; [done|lia|];
    destruct (Z.eq_dec f 0) as [->|]; [simpl; lia|];
    apply Z.log2_lt_pow2; [lia|]; change 4096 with (2 ^ 12) in Hf;
    pose proof (Z.pow_le_mono_r 2 12 n); lia.
Qed.

Lemma PTE_ADDR_spec e : PTE_ADDR e = e - e mod 4096.
Proof. exact (PGROUNDDOWN_spec e). Qed.

Lemma PTE_ADDR_flags x f : x mod 4096 = 0 → 0 ≤ f < 4096 → PTE_ADDR (x + f) = x.
Proof. intros. rewrite PTE_ADDR_spec. zdm. Qed.

Lemma hasbit_P e : hasbit e PTE_P = Z.odd e.
Proof.
  unfold hasbit, PTE_P. change 1 with (Z.ones 1). rewrite Z.land_ones by lia.
  rewrite Zmod_odd. by destruct (Z.odd e).
Qed.

Lemma page_ok_v2p kend t : page_ok kend t → v2p t = t - KERNBASE ∧ p2v (v2p t) = t ∧ v2p t mod 4096 = 0.
Proof.
  intros (Ha & _ & Hk & Ht). unfold v2p, p2v, PGSIZE, KERNBASE, PHYSTOP in *.
  rewrite (u32_small (t - _)) by (unfold is_u32; lia).
  rewrite u32_small by (unfold is_u32; lia). split_and!; [done|lia|zdm].
Qed.

(** The directory entry walkpgdir stores. *)
Lemma new_pde kend t :
  page_ok kend t →
  let e := Z.lor (Z.lor (Z.lor (v2p t) PTE_P) PTE_W) PTE_U in
  is_u32 e ∧ hasbit e PTE_P = true ∧ p2v (PTE_ADDR e) = t.
Proof.
  intros Hp. destruct (page_ok_v2p _ _ Hp) as (E1 & E2 & E3). intros e.
  assert (e = v2p t + 7) as ->.
  { unfold e. rewrite <-!Z.lor_assoc. apply lor_aligned; [done|]. by vm_compute. }
  rewrite PTE_ADDR_flags, hasbit_P by (done || lia). split_and!; [|..|done].
  - rewrite E1. destruct Hp as (_ & _ & ?). unfold is_u32, KERNBASE, PHYSTOP in *. lia.
  - rewrite Z.odd_add, E1. destruct Hp as (Ha & _). unfold PGSIZE, KERNBASE in *.
    rewrite Z.odd_sub. assert (Z.even t = true) as He.
    { apply Z.even_spec. exists (t / 2). zdm. }
    rewrite <-Z.negb_even, He. done.
Qed.

(** ** walkpgdir and mappages *)

Section vm_facts.
Context (kend : Z).
Abbreviation page_ok := (page_ok kend).
Abbreviation kmem_inv := (kmem_inv kend).
Abbreviation vm_ok := (vm_ok kend).

(** A write that misses the directory keeps its entries. *)
Lemma pgtab_ext m m' pgdir i :
  0 ≤ i < 1024 → (∀ x, pgdir ≤ x < pgdir + PGSIZE → m' x = m x) →
  pgtab m' pgdir i = pgtab m pgdir i.
Proof.
  intros Hi Hx. unfold pgtab. rewrite (load32_ext m' m); [done|].
  intros x ?. apply Hx. unfold PGSIZE. lia.
Qed.

Lemma vm_ok_ext m m' pgdir l :
  vm_ok m pgdir l → (∀ i, 0 ≤ i < 1024 → pgtab m' pgdir i = pgtab m pgdir i) → vm_ok m' pgdir l.
Proof.
  intros [Hd Hf Ht Hj] He. split; [done..| |].
  - intros i t Hi. rewrite He by done. by apply Ht.
  - intros i j t Hi Hj'. rewrite !He by done. by apply Hj.
Qed.

Lemma vm_ok_tail m pgdir p l : vm_ok m pgdir (p :: l) → vm_ok m pgdir l.
Proof.
  intros [Hd Hf Ht Hj]. split; [done|set_solver| |done].
  intros i t Hi Hp. destruct (Ht i t Hi Hp) as (? & ? & ?). split_and!; [done|set_solver|done].
Qed.

(** A write inside a page that is not free keeps the free list. *)
Lemma kmem_inv_write s l t m' :
  kmem_inv s l → page_ok t → t ∉ l → mem_ok m' →
  (∀ x, ¬ (t ≤ x < t + PGSIZE) → m' x = mc_mem s x) → kmem_inv (set_mem m' s) l.
Proof.
  intros [Hc Hn Hp Hm Hq] Ht Htl Hm' Hx. split; simpl; try done.
  eapply freechain_ext; [|exact Hc]. intros q x Hql Hqx. apply Hx.
  assert (Hqo : page_ok q) by (eapply Forall_forall; [exact Hp|done]).
  destruct (page_ok_disjoint kend t q) as [?|?]; try done; [by intros ->|..];
    unfold PGSIZE in *; lia.
Qed.

(** Storing an entry of a page table changes the translation of one page. *)
Lemma pte_of_store m pgdir l va t e va' :
  vm_ok m pgdir l → is_u32 va → is_u32 va' → is_u32 e → pgtab m pgdir (PDX va) = Some t →
  pte_of (store32 m (t + 4 * PTX va) e) pgdir va' =
  if va' / 4096 =? va / 4096 then e else pte_of m pgdir va'.
Proof.
  intros [Hd Hf Ht Hj] Hv Hv' He Hp.
  pose proof (PDX_range va Hv) as R1. pose proof (PTX_range va Hv) as R2.
  pose proof (PDX_range va' Hv') as R3. pose proof (PTX_range va' Hv') as R4.
  destruct (Ht _ _ R1 Hp) as (Hto & _ & Htd). unfold pte_of.
  rewrite (pgtab_ext m); [|done|].
  2:{ intros x Hx. apply store32_out.
      destruct (page_ok_disjoint kend t pgdir); try done; unfold PGSIZE in *; lia. }
  destruct (pgtab m pgdir (PDX va')) as [t'|] eqn:Et'.
  - destruct (Z.eqb_spec (va' / 4096) (va / 4096)) as [Heq|Hne].
    + assert (PDX va' = PDX va ∧ PTX va' = PTX va) as [E1 E2].
      { rewrite !PDX_spec, !PTX_spec by done. split; [|by rewrite Heq].
        unfold is_u32 in *. zdm. }
      rewrite E1, Hp in Et'. injection Et' as <-. rewrite E2. by apply load_store32_eq.
    + apply load_store32_ne. destruct (Z.eq_dec (PDX va') (PDX va)) as [E1|E1].
      * rewrite E1, Hp in Et'. injection Et' as <-.
        assert (PTX va' ≠ PTX va) by (intros E2; apply Hne; by apply same_page). lia.
      * assert (t' ≠ t) as Htt by (intros ->; apply E1; by eapply Hj).
        destruct (Ht _ _ R3 Et') as (Hto' & _).
        destruct (page_ok_disjoint kend t t'); try done; unfold PGSIZE in *; lia.
  - case_if; [|done]. exfalso.
    assert (PDX va' = PDX va) as E1 by (rewrite !PDX_spec by done; unfold is_u32 in *; zdm).
    rewrite E1, Hp in Et'. done.
Qed.

(** What a new, empty page table at [p] does to the directory. *)
Definition with_table (m : mem) (pgdir va p : Z) : mem :=
  store32 (memset m p 0 PGSIZE) (pgdir + 4 * PDX va)
    (Z.lor (Z.lor (Z.lor (v2p p) PTE_P) PTE_W) PTE_U).

Lemma with_table_out m pgdir va p x :
  is_u32 va → ¬ (p ≤ x < p + PGSIZE) → ¬ (pgdir ≤ x < pgdir + PGSIZE) →
  with_table m pgdir va p x = m x.
Proof.
  intros Hv H1 H2. pose proof (PDX_range va Hv). unfold with_table, PGSIZE in *.
  rewrite store32_out by lia. rewrite memset_spec by lia. by zcmp.
Qed.

Lemma with_table_pgtab m pgdir va p i :
  is_u32 va → page_ok p → page_ok pgdir → p ≠ pgdir → 0 ≤ i < 1024 →
  pgtab (with_table m pgdir va p) pgdir i =
  if i =? PDX va then Some p else pgtab m pgdir i.
Proof.
  intros Hv Hp Hd Hne Hi. pose proof (PDX_range va Hv).
  destruct (new_pde _ _ Hp) as (E1 & E2 & E3). unfold pgtab, with_table.
  destruct (Z.eqb_spec i (PDX va)) as [->|Hni].
  - rewrite load_store32_eq by done. by rewrite E2, E3.
  - rewrite load_store32_ne by lia. rewrite (load32_ext _ m); [done|].
    intros x Hx. rewrite memset_spec by (unfold PGSIZE; lia).
    destruct (page_ok_disjoint kend p pgdir) as [?|?]; try done; unfold PGSIZE in *; zcmp; done.
Qed.

Lemma with_table_zero m pgdir va p j :
  is_u32 va → page_ok p → page_ok pgdir → p ≠ pgdir → 0 ≤ j < 1024 →
  load32 (with_table m pgdir va p) (p + 4 * j) = 0.
Proof.
  intros Hv Hp Hd Hne Hj. pose proof (PDX_range va Hv). unfold with_table.
  rewrite load_store32_ne by
    (destruct (page_ok_disjoint kend p pgdir) as [?|?]; try done; unfold PGSIZE in *; lia).
  unfold load32. rewrite !memset_spec by (unfold PGSIZE; lia).
  unfold PGSIZE. by zcmp.
Qed.

(** It adds no translation. *)
Lemma with_table_pte m pgdir l va p va' :
  vm_ok m pgdir (p :: l) → page_ok p → is_u32 va → is_u32 va' →
  pgtab m pgdir (PDX va) = None →
  pte_of (with_table m pgdir va p) pgdir va' = pte_of m pgdir va'.
Proof.
  intros [Hd Hf Ht Hj] Hp Hv Hv' Hn. pose proof (PDX_range va' Hv') as R1.
  pose proof (PTX_range va' Hv') as R2. assert (p ≠ pgdir) by set_solver.
  unfold pte_of. rewrite with_table_pgtab by done.
  destruct (Z.eqb_spec (PDX va') (PDX va)) as [E|E].
  - rewrite E, Hn. by apply with_table_zero.
  - destruct (pgtab m pgdir (PDX va')) as [t|] eqn:Et; [|done].
    destruct (Ht _ _ R1 Et) as (Hto & Htl & Htd).
    apply load32_ext. intros x Hx. apply with_table_out; [done|..].
    + destruct (page_ok_disjoint kend t p); try done; [set_solver|..]; unfold PGSIZE in *; lia.
    + destruct (page_ok_disjoint kend t pgdir); try done; unfold PGSIZE in *; lia.
Qed.

Lemma with_table_ok m pgdir l va p :
  vm_ok m pgdir (p :: l) → page_ok p → p ∉ l → is_u32 va → pgtab m pgdir (PDX va) = None →
  vm_ok (with_table m pgdir va p) pgdir l.
Proof.
  intros [Hd Hf Ht Hj] Hp Hpl Hv Hn. assert (p ≠ pgdir) by set_solver.
  split; [done|set_solver| |].
  - intros i t Hi. rewrite with_table_pgtab by done. case_if.
    + intros [= <-]. done.
    + intros Hq. destruct (Ht _ _ Hi Hq) as (? & ? & ?). split_and!; [done|set_solver|done].
  - intros i j t Hi Hj'. rewrite !with_table_pgtab by done.
    destruct (Z.eqb_spec i (PDX va)) as [->|], (Z.eqb_spec j (PDX va)) as [->|]; try done.
    + intros [= <-] Hq. destruct (Ht _ _ Hj' Hq) as (_ & ? & _). set_solver.
    + intros Hq [= <-]. destruct (Ht _ _ Hi Hq) as (_ & ? & _). set_solver.
    + by apply Hj.
Qed.
End vm_facts.

Section vm_ops.
Context (kend : Z).
Abbreviation page_ok := (page_ok kend).
Abbreviation kmem_inv := (kmem_inv kend).
Abbreviation vm_ok := (vm_ok kend).

(** The states page-table code moves between: the allocator's invariant and
    the directory's, for the same free list. *)
Definition vm_st (s : machine) (pgdir : Z) (l : list Z) : Prop :=
  kmem_inv s l ∧ vm_ok (mc_mem s) pgdir l.

Lemma vm_st_table s t pgdir p l va :
  vm_st s pgdir (p :: l) → is_u32 va → pgtab (mc_mem s) pgdir (PDX va) = None →
  mc_mem t = mc_mem s → kmem_inv t l →
  vm_st (set_mem (with_table (mc_mem s) pgdir va p) t) pgdir l.
Proof.
  intros [Hk Hv] Hva Hn Hm Hk'. pose proof Hk as [_ Hnd Hpp Hmo _].
  apply NoDup_cons in Hnd as [Hpl _]. apply Forall_cons in Hpp as [Hpo _].
  split; [|by apply with_table_ok].
  assert (Hpd : pgdir ∉ l) by (destruct Hv as [_ ? _ _]; set_solver).
  destruct Hv as [Hd _ _ _]. pose proof (PDX_range va Hva).
  assert (Hms : mem_ok (memset (mc_mem s) p 0 PGSIZE)) by (apply memset_ok; done).
  assert (H1 : kmem_inv (set_mem (memset (mc_mem s) p 0 PGSIZE) t) l).
  { apply (kmem_inv_write kend _ _ p); [done..|]. intros x Hx.
    rewrite memset_spec, Hm by (unfold PGSIZE; lia). unfold PGSIZE in *. by zcmp. }
  change (set_mem (with_table (mc_mem s) pgdir va p) t)
    with (set_mem (with_table (mc_mem s) pgdir va p)
            (set_mem (memset (mc_mem s) p 0 PGSIZE) t)).
  apply (kmem_inv_write kend _ _ pgdir); [done|done|done|by apply store32_ok|].
  intros x Hx. simpl. unfold with_table. apply store32_out. unfold PGSIZE in *. lia.
Qed.

(** walkpgdir with [alloc]: NULL when a page table is missing and no page is
    free; else the address of the entry for [va], after adding an empty page
    table if there was none.  Translations do not change. *)
Lemma wp_walk_alloc s pgdir l va (Q : Z → machine → Prop) :
  vm_st s pgdir l → is_u32 va →
  (l = [] → pgtab (mc_mem s) pgdir (PDX va) = None →
     ∀ s', mc_mem s' = mc_mem s → vm_st s' pgdir [] → Q 0 s') →
  (∀ s' l' t, vm_st s' pgdir l' → l' `suffix_of` l →
     pgtab (mc_mem s') pgdir (PDX va) = Some t →
     (∀ va', is_u32 va' → pte_of (mc_mem s') pgdir va' = pte_of (mc_mem s) pgdir va') →
     Q (t + 4 * PTX va) s') →
  wp (walkpgdir pgdir va true) Q s.
Proof.
  intros Hs Hva H0 H1. pose proof Hs as [Hk Hv]. pose proof (PDX_range va Hva) as Hx.
  unfold walkpgdir. wstep. unfold ld. wstep.
  destruct (pgtab (mc_mem s) pgdir (PDX va)) as [t|] eqn:Et; pose proof Et as Et0;
    unfold pgtab in Et0; case_if; try done.
  - injection Et0 as ->. wstep. by eapply H1.
  - simpl. wstep. eapply wp_kalloc; [exact Hk|]. intros s' Hm _ _. destruct l as [|p l].
    + intros _ Hk'. simpl. wstep. apply (H0 eq_refl eq_refl s' Hm).
      split; [done|]. by rewrite Hm.
    + intros Hk'. pose proof Hk as [_ _ Hpp _ _]. apply Forall_cons in Hpp as [Hpo _].
      pose proof (page_ok_nonzero _ _ Hpo) as Hz%Z.eqb_neq. rewrite Hz.
      unfold sto. wstep. wstep. wstep. wstep. wstep. simpl. rewrite Hm.
      apply (H1 _ l p); simpl; fold (with_table (mc_mem s) pgdir va p).
      * exact (vm_st_table s s' pgdir p l va Hs Hva Et Hm Hk').
      * by exists [p].
      * destruct Hv as [Hd Hf _ _]. rewrite (with_table_pgtab kend) by (done || set_solver).
        by rewrite Z.eqb_refl.
      * intros va' Hva'. by eapply with_table_pte.
Qed.

Lemma wp_walk_oom s pgdir va (Q : Z → machine → Prop) :
  vm_st s pgdir [] → pgtab (mc_mem s) pgdir (PDX va) = None →
  (∀ s', mc_mem s' = mc_mem s → vm_st s' pgdir [] → Q 0 s') →
  wp (walkpgdir pgdir va true) Q s.
Proof.
  intros [Hk Hv] Hn HQ. unfold walkpgdir. wstep. unfold ld. wstep.
  unfold pgtab in Hn. case_if; [done|]. simpl. wstep.
  eapply wp_kalloc; [exact Hk|]. intros s' Hm _ _ _ Hk'. simpl. wstep.
  apply HQ; [done|]. split; [done|]. by rewrite Hm.
Qed.

(** walkpgdir without [alloc] only reads. *)
Lemma wp_walk s pgdir va (Q : Z → machine → Prop) :
  Q (match pgtab (mc_mem s) pgdir (PDX va) with Some t => t + 4 * PTX va | None => 0 end) s →
  wp (walkpgdir pgdir va false) Q s.
Proof.
  intros HQ. unfold walkpgdir. wstep. unfold ld. wstep. unfold pgtab in HQ.
  case_if; by wstep.
Qed.

(** Storing the entry walkpgdir found. *)
Lemma vm_st_store s pgdir l va t e :
  vm_st s pgdir l → is_u32 va → pgtab (mc_mem s) pgdir (PDX va) = Some t →
  vm_st (set_mem (store32 (mc_mem s) (t + 4 * PTX va) e) s) pgdir l.
Proof.
  intros [Hk Hv] Hva Ht. pose proof (PDX_range va Hva) as R1. pose proof (PTX_range va Hva).
  destruct Hv as [Hd Hf Hta Hj] eqn:Ev. clear Ev. destruct (Hta _ _ R1 Ht) as (Hto & Htl & Htd).
  split.
  - apply (kmem_inv_write kend _ _ t); [done..| |].
    + destruct Hk as [_ _ _ Hm _]. by apply store32_ok.
    + intros x Hx. apply store32_out. unfold PGSIZE in *. lia.
  - eapply vm_ok_ext; [exact (Build_vm_ok _ _ _ _ Hd Hf Hta Hj)|].
    intros i Hi. apply pgtab_ext; [done|].
    intros x Hx. apply store32_out.
    destruct (page_ok_disjoint kend t pgdir); try done; unfold PGSIZE in *; lia.
Qed.

(** The entry for the page [k] of a range. *)
Definition new_pte (pa perm k : Z) : Z := Z.lor (Z.lor (u32 (pa + k * PGSIZE)) perm) PTE_P.

Lemma new_pte_range pa perm k :
  pa mod PGSIZE = 0 → 0 ≤ perm < 4096 → is_u32 (new_pte pa perm k).
Proof.
  intros Ha Hp. unfold new_pte. rewrite <-Z.lor_assoc.
  assert (Hx : u32 (pa + k * PGSIZE) mod 4096 = 0).
  { change 4096 with (2 ^ 12). rewrite u32_mod_pow2 by lia. unfold PGSIZE in *.
    change (2 ^ 12) with 4096. zdm. }
  assert (Hf : 0 ≤ Z.lor perm PTE_P < 4096).
  { split; [apply Z.lor_nonneg; split; [lia|done]|]. unfold PTE_P.
    destruct (Z.eq_dec (Z.lor perm 1) 0) as [->|]; [done|]. change 4096 with (2 ^ 12).
    assert (0 ≤ Z.lor perm 1) by (apply Z.lor_nonneg; lia).
    apply Z.log2_lt_pow2; [lia|]. rewrite Z.log2_lor by lia. apply Z.max_lub_lt; [|done].
    destruct (Z.eq_dec perm 0) as [->|]; [done|]. apply Z.log2_lt_pow2; lia. }
  rewrite lor_aligned by done. pose proof (u32_range (pa + k * PGSIZE)).
  unfold is_u32 in *. split; [lia|]. zdm.
Qed.

(** After [n] pages of a range that starts at [a]. *)
Definition mapped (m m' : mem) (pgdir a n pa perm : Z) : Prop :=
  ∀ va, is_u32 va →
    pte_of m' pgdir va =
    if (a <=? va) && (va <? a + n * PGSIZE) then new_pte pa perm ((va - a) / PGSIZE)
    else pte_of m pgdir va.

Lemma mapped_cons m m1 m2 pgdir a n pa perm :
  a mod PGSIZE = 0 → 0 ≤ n →
  mapped m m1 pgdir a 1 pa perm →
  mapped m1 m2 pgdir (a + PGSIZE) n (u32 (pa + PGSIZE)) perm →
  mapped m m2 pgdir a (n + 1) pa perm.
Proof.
  intros Ha Hn H1 H2 va Hva. rewrite H2, H1 by done. unfold PGSIZE in *.
  destruct (Z.leb_spec (a + 4096) va).
  - replace (a <=? va) with true by (symmetry; apply Z.leb_le; lia).
    replace (va <? a + 1 * 4096) with false by (symmetry; apply Z.ltb_ge; lia).
    replace (va <? a + (n + 1) * 4096) with (va <? a + 4096 + n * 4096)
      by (apply eq_true_iff_eq; rewrite !Z.ltb_lt; lia).
    simpl. case_if; [|done]. unfold new_pte. rewrite u32_add_l. unfold PGSIZE.
    replace (pa + 4096 + (va - (a + 4096)) / 4096 * 4096) with (pa + (va - a) / 4096 * 4096)
      by zdm. done.
  - simpl. destruct (Z.leb_spec a va); [|done]. simpl.
    replace (va <? a + 1 * 4096) with true by (symmetry; apply Z.ltb_lt; lia).
    by replace (va <? a + (n + 1) * 4096) with true by (symmetry; apply Z.ltb_lt; lia).
Qed.

Lemma mapped_refl m pgdir a pa perm : mapped m m pgdir a 0 pa perm.
Proof. intros va _. by destruct (Z.leb_spec a va), (Z.ltb_spec va (a + 0 * PGSIZE)); try lia. Qed.

Lemma mapped_one s s1 pgdir l a t pa perm :
  vm_ok (mc_mem s1) pgdir l → is_u32 a → a mod PGSIZE = 0 → is_u32 pa →
  pa mod PGSIZE = 0 → 0 ≤ perm < 4096 →
  pgtab (mc_mem s1) pgdir (PDX a) = Some t →
  (∀ va, is_u32 va → pte_of (mc_mem s1) pgdir va = pte_of (mc_mem s) pgdir va) →
  mapped (mc_mem s) (store32 (mc_mem s1) (t + 4 * PTX a) (Z.lor (Z.lor pa perm) PTE_P))
    pgdir a 1 pa perm.
Proof.
  intros Hv Ha Haa Hpa Hpaa Hp Ht Hsame va Hva.
  assert (E : Z.lor (Z.lor pa perm) PTE_P = new_pte pa perm 0).
  { unfold new_pte. by rewrite Z.mul_0_l, Z.add_0_r, (u32_small pa). }
  rewrite E, (pte_of_store kend _ _ l) by (done || by apply new_pte_range).
  unfold PGSIZE in *. rewrite Hsame by done.
  replace ((a <=? va) && (va <? a + 1 * 4096)) with (va / 4096 =? a / 4096).
  - case_if; [|done]. f_equal. zdm.
  - apply eq_true_iff_eq. rewrite andb_true_iff, Z.eqb_eq, Z.leb_le, Z.ltb_lt. zdm.
Qed.

(** The result of a call that maps [n] pages. *)
Definition map_post (s : machine) (pgdir : Z) (l : list Z) (a n pa perm : Z)
    (r : Z) (s' : machine) : Prop :=
  ∃ l' k, vm_st s' pgdir l' ∧ l' `suffix_of` l ∧ 0 ≤ k ≤ n ∧
    mapped (mc_mem s) (mc_mem s') pgdir a k pa perm ∧
    ((r = 0 ∧ k = n) ∨ (r = -1 ∧ k < n ∧ l' = [])).

Lemma wp_mappages_loop m fuel s pgdir l a pa perm :
  (m < fuel)%nat → vm_st s pgdir l → 0 ≤ a → a mod PGSIZE = 0 →
  a + (Z.of_nat m + 1) * PGSIZE ≤ 4294967296 →
  is_u32 pa → pa mod PGSIZE = 0 → 0 ≤ perm < 4096 →
  (∀ va, a ≤ va < a + (Z.of_nat m + 1) * PGSIZE →
     hasbit (pte_of (mc_mem s) pgdir va) PTE_P = false) →
  wp (mappages_loop fuel pgdir a (a + Z.of_nat m * PGSIZE) pa perm)
    (map_post s pgdir l a (Z.of_nat m + 1) pa perm) s.
Proof.
  revert fuel s l a pa. induction m as [|m IH]; intros [|fuel] s l a pa Hf Hs Ha Haa Hl Hpa Hpaa Hp Hfree;
    try lia; simpl mappages_loop; unfold PGSIZE in *;
    (assert (Hua : is_u32 a) by (unfold is_u32; lia)); wstep;
    (apply (wp_walk_alloc s pgdir l); [done|done| |]).
  1,3: intros -> Hn s' Hm Hs'; simpl; wstep; exists [], 0;
    split_and!; [done|done|lia|lia|rewrite Hm; apply mapped_refl|right; split_and!; done || lia].
  all: intros s1 l1 t Hs1 Hl1 Ht Hsame; pose proof Hs1 as [_ Hv1];
    destruct (vo_tab _ _ _ _ Hv1 _ _ (PDX_range a Hua) Ht) as ((_ & _ & Hpk) & _ & _);
    pose proof (PTX_range a Hua);
    (assert (t + 4 * PTX a =? 0 = false) as -> by (apply Z.eqb_neq; unfold KERNBASE in *; lia));
    unfold ld, sto; wstep; wstep;
    (assert (E1 : load32 (mc_mem s1) (t + 4 * PTX a) = pte_of (mc_mem s) pgdir a)
       by (rewrite <-Hsame by done; unfold pte_of; by rewrite Ht));
    rewrite E1, (Hfree a) by lia; wstep; wstep;
    pose proof (vm_st_store s1 pgdir l1 a t (Z.lor (Z.lor pa perm) PTE_P) Hs1 Hua Ht) as Hs2;
    pose proof (mapped_one s s1 pgdir l1 a t pa perm Hv1 Hua Haa Hpa Hpaa Hp Ht Hsame) as Hm1.
  - replace (a =? a + Z.of_nat 0 * 4096) with true by (symmetry; apply Z.eqb_eq; lia).
    wstep. exists l1, 1. split_and!; [done|done|lia|lia|done|by left].
  - replace (a =? a + Z.of_nat (S m) * 4096) with false by (symmetry; apply Z.eqb_neq; lia).
    rewrite (u32_small (a + 4096)) by (unfold is_u32; lia).
    replace (a + Z.of_nat (S m) * 4096) with (a + 4096 + Z.of_nat m * 4096) by lia.
    eapply wp_mono; [apply (IH fuel _ l1); try done; try lia; [zdm|apply u32_range|..]|].
    + change 4096 with (2 ^ 12) at 2. rewrite u32_mod_pow2 by lia. change (2 ^ 12) with 4096. zdm.
    + intros va Hva. simpl mc_mem. rewrite Hm1 by (unfold is_u32; lia). unfold PGSIZE.
      replace (va <? a + 1 * 4096) with false by (symmetry; apply Z.ltb_ge; lia).
      rewrite andb_false_r. apply Hfree. lia.
    + intros r s' (l2 & k & H1 & H2 & H3 & H4 & H5). exists l2, (k + 1).
      split_and!; [done|by etrans|lia|lia| |].
      * eapply mapped_cons; [done|lia|exact Hm1|exact H4].
      * destruct H5 as [[-> ->]|(-> & ? & ->)]; [left|right]; split_and!; done || lia.
Qed.
End vm_ops.

(** ** The operations on whole ranges *)

Section vm_ranges.
Context (kend : Z).
Abbreviation vm_st := (vm_st kend).

Lemma new_pte_fields pa perm k :
  pa mod PGSIZE = 0 → 0 ≤ perm < 4096 →
  hasbit (new_pte pa perm k) PTE_P = true ∧
  PTE_ADDR (new_pte pa perm k) = u32 (pa + k * PGSIZE) ∧
  PTE_FLAGS (new_pte pa perm k) = Z.lor perm PTE_P.
Proof.
  intros Ha Hp.
  assert (Hx : u32 (pa + k * PGSIZE) mod 2 ^ 12 = 0).
  { rewrite u32_mod_pow2 by lia. unfold PGSIZE in *. change (2 ^ 12) with 4096. zdm. }
  assert (Hl : Z.land (u32 (pa + k * PGSIZE)) 4095 = 0).
  { change 4095 with (Z.ones 12). by rewrite Z.land_ones by lia. }
  assert (Hpl : Z.land (Z.lor perm PTE_P) 4095 = Z.lor perm PTE_P).
  { rewrite Z.land_lor_distr_l. f_equal. change 4095 with (Z.ones 12).
    rewrite Z.land_ones by lia. by apply Z.mod_small. }
  unfold new_pte. rewrite <-Z.lor_assoc. split_and!.
  - unfold hasbit. apply negb_true_iff, Z.eqb_neq. intros H.
    assert (Z.testbit (Z.land (Z.lor (u32 (pa + k * PGSIZE)) (Z.lor perm PTE_P)) PTE_P) 0 = false)
      as Hb by (by rewrite H).
    rewrite Z.land_spec, !Z.lor_spec in Hb. simpl in Hb. by rewrite !orb_true_r in Hb.
  - unfold PTE_ADDR. rewrite Z.land_lor_distr_l.
    assert (Z.land (Z.lor perm PTE_P) (Z.lnot 4095) = 0) as ->.
    { rewrite <-Hpl, <-Z.land_assoc, Z.land_lnot_diag. apply Z.land_0_r. }
    rewrite Z.lor_0_r. change 4095 with (Z.ones 12).
    rewrite <-Z.ldiff_land, Z.ldiff_ones_r, Z.shiftr_div_pow2, Z.shiftl_mul_pow2 by lia.
    change (2 ^ 12) with 4096 in *. zdm.
  - unfold PTE_FLAGS. by rewrite Z.land_lor_distr_l, Hl, Hpl.
Qed.

(** The same in terms of what the processor does with an address. *)
Lemma mapped_translate m m' pgdir a n pa perm va :
  mapped m m' pgdir a n pa perm → pa mod PGSIZE = 0 → 0 ≤ perm < 4096 → is_u32 va →
  translate m' pgdir va =
  if (a <=? va) && (va <? a + n * PGSIZE)
  then Some (u32 (pa + (va - a) / PGSIZE * PGSIZE) + va mod PGSIZE, Z.lor perm PTE_P)
  else translate m pgdir va.
Proof.
  intros Hm Ha Hp Hva. unfold translate. rewrite Hm by done.
  destruct ((a <=? va) && (va <? a + n * PGSIZE)); [|done].
  destruct (new_pte_fields pa perm ((va - a) / PGSIZE) Ha Hp) as (-> & -> & ->). done.
Qed.

Lemma translate_None m pgdir va :
  translate m pgdir va = None ↔ hasbit (pte_of m pgdir va) PTE_P = false.
Proof. unfold translate. by case_if. Qed.

(** The number of pages of [size] bytes at [va]. *)
Definition pages_of (va size : Z) : Z :=
  (PGROUNDDOWN (va + size - 1) - PGROUNDDOWN va) / PGSIZE + 1.

Lemma wp_mappages s pgdir l va size pa perm :
  let a := PGROUNDDOWN va in let n := pages_of va size in
  vm_st s pgdir l → 0 ≤ va → 0 < size → va + size ≤ 4294967296 →
  is_u32 pa → pa mod PGSIZE = 0 → 0 ≤ perm < 4096 →
  (∀ va', a ≤ va' < a + n * PGSIZE → translate (mc_mem s) pgdir va' = None) →
  wp (mappages pgdir va size pa perm) (map_post kend s pgdir l a n pa perm) s.
Proof.
  intros a n Hs Hva Hsz Hle Hpa Hpaa Hp Hfree. unfold mappages.
  rewrite (u32_small va), (u32_small (va + size - 1)) by (unfold is_u32; lia).
  subst n a. unfold pages_of in *.
  rewrite !PGROUNDDOWN_spec in *. set (a := va - va mod PGSIZE) in *.
  set (last := va + size - 1 - (va + size - 1) mod PGSIZE) in *.
  unfold PGSIZE in *.
  assert (0 ≤ a ∧ a ≤ last ∧ last + 4096 ≤ 4294967296 ∧ a mod 4096 = 0 ∧ last mod 4096 = 0)
    as (H1 & H2 & H3 & H4 & H5) by (subst a last; split_and!; zdm).
  rewrite u32_small by (unfold is_u32; lia).
  assert (∃ m : nat, last = a + Z.of_nat m * 4096) as [m E]
    by (exists (Z.to_nat ((last - a) / 4096)); zdm).
  clearbody a last. subst last.
  replace (a + Z.of_nat m * 4096 - a) with (Z.of_nat m * 4096) in * by lia.
  rewrite Z.div_mul, Nat2Z.id in * by lia.
  apply wp_mappages_loop; unfold PGSIZE; try done; try lia.
  intros va' Hva'. apply translate_None, Hfree. lia.
Qed.

(** An empty directory in a new page. *)
Lemma vm_st_empty s p l :
  kmem_inv kend s l → page_ok kend p → p ∉ l →
  let s1 := set_mem (memset (mc_mem s) p 0 PGSIZE) s in
  vm_st s1 p l ∧ ∀ va, is_u32 va → translate (mc_mem s1) p va = None.
Proof.
  intros Hk Hp Hpl s1.
  assert (Hn : ∀ i, 0 ≤ i < 1024 → pgtab (mc_mem s1) p i = None).
  { intros i Hi. unfold pgtab, load32. simpl. rewrite !memset_spec by (unfold PGSIZE; lia).
    unfold PGSIZE. by zcmp. }
  assert (Hk1 : kmem_inv kend s1 l).
  { apply (kmem_inv_write kend _ _ p); try done.
    - destruct Hk as [_ _ _ Hm _]. by apply memset_ok.
    - intros x Hx. rewrite memset_spec by (unfold PGSIZE; lia). unfold PGSIZE in *. by zcmp. }
  split; [split; [done|split; [done|done|..]]|].
  - intros i t Hi. by rewrite Hn.
  - intros i j t Hi Hj. by rewrite Hn.
  - intros va Hva. apply translate_None. unfold pte_of. by rewrite Hn by (by apply PDX_range).
Qed.

(** The translations after the first entries [ks] of kmap[]. *)
Definition kmap_translate (ks : list kmap_entry) (va : Z) : option (Z * Z) :=
  fold_right (λ k rest,
    if (k_virt k <=? va) && (va <? k_virt k + u32 (k_end k - k_start k))
    then Some (k_start k + (va - k_virt k), Z.lor (k_perm k) PTE_P) else rest) None ks.

(** What setupkvm needs of an entry: whole pages that do not wrap around. *)
Definition kmap_ok (k : kmap_entry) : Prop :=
  let n := u32 (k_end k - k_start k) in
  0 ≤ k_virt k ∧ k_virt k mod PGSIZE = 0 ∧ k_start k mod PGSIZE = 0 ∧ 0 ≤ k_start k ∧
  n mod PGSIZE = 0 ∧ 0 < n ∧ k_virt k + n ≤ 4294967296 ∧ k_start k + n ≤ 4294967296 ∧
  0 ≤ k_perm k < 4096.

Lemma wp_map_entry s pgdir l k (done : list kmap_entry) :
  vm_st s pgdir l → kmap_ok k →
  (∀ va, is_u32 va → translate (mc_mem s) pgdir va = kmap_translate done va) →
  (∀ va, k_virt k ≤ va < k_virt k + u32 (k_end k - k_start k) → kmap_translate done va = None) →
  wp (mappages pgdir (k_virt k) (u32 (k_end k - k_start k)) (k_start k) (k_perm k))
    (λ r s', ∃ l', vm_st s' pgdir l' ∧
       ((r = 0 ∧ ∀ va, is_u32 va → translate (mc_mem s') pgdir va = kmap_translate (k :: done) va)
        ∨ (r = -1 ∧ l' = []))) s.
Proof.
  unfold kmap_ok. simpl. set (n := u32 (k_end k - k_start k)).
  intros Hs (H1 & H2 & H3 & H4 & H5 & H6 & H7 & H8 & H9) Ht Hd.
  assert (Ea : PGROUNDDOWN (k_virt k) = k_virt k) by (rewrite PGROUNDDOWN_spec, H2; lia).
  assert (En : pages_of (k_virt k) n * PGSIZE = n).
  { unfold pages_of. rewrite Ea, PGROUNDDOWN_spec. unfold PGSIZE in *. zdm. }
  eapply wp_mono; [apply (wp_mappages s pgdir l); try done; unfold is_u32; try lia|].
  { rewrite Ea, En. intros va' Hva'. rewrite Ht by (unfold is_u32; lia). by apply Hd. }
  rewrite Ea. intros r s' (l' & c & Hs' & _ & Hc & Hm & Hr). exists l'. split; [done|].
  destruct Hr as [[-> ->]|(-> & _ & ->)]; [left|by right]. split; [done|]. intros va Hva.
  rewrite (mapped_translate _ _ _ _ _ _ _ _ Hm) by done. rewrite En. simpl. fold n.
  destruct ((k_virt k <=? va) && (va <? k_virt k + n)) eqn:E; [|by apply Ht].
  bool_facts. f_equal. f_equal. unfold is_u32, PGSIZE in *.
  rewrite u32_small by (unfold is_u32; zdm). zdm.
Qed.
End vm_ranges.

Lemma kmap_entries_ok kdata :
  kdata mod PGSIZE = 0 → KERNLINK < kdata < KERNBASE + PHYSTOP → Forall kmap_ok (kmap kdata).
Proof.
  intros Ha Hk. assert (E : v2p kdata = kdata - KERNBASE).
  { unfold v2p. apply u32_small. unfold is_u32, KERNLINK, KERNBASE, PHYSTOP, EXTMEM in *. lia. }
  unfold kmap. rewrite !Forall_cons, E. split_and!; [..|done].
  - unfold kmap_ok. simpl. by vm_compute.
  - change (v2p KERNLINK) with 1048576.
    unfold kmap_ok, KERNLINK, KERNBASE, PHYSTOP, EXTMEM, PGSIZE in *. simpl.
    rewrite u32_small by (unfold is_u32; lia). split_and!; try done; try lia; zdm.
  - unfold kmap_ok, KERNLINK, KERNBASE, PHYSTOP, EXTMEM, PGSIZE in *. simpl.
    rewrite u32_small by (unfold is_u32; lia). split_and!; try done; try lia; zdm.
  - unfold kmap_ok. simpl. by vm_compute.
Qed.

(** The rest of the table, when [done] is mapped: in the order of kmap[], the
    ranges do not meet. *)
Lemma wp_setupkvm_loop kend pgdir ks s l (done : list kmap_entry) :
  vm_st kend s pgdir l → Forall kmap_ok ks →
  (∀ va, is_u32 va → translate (mc_mem s) pgdir va = kmap_translate done va) →
  (∀ pre k post va, ks = pre ++ k :: post →
     k_virt k ≤ va < k_virt k + u32 (k_end k - k_start k) →
     kmap_translate (rev pre ++ done) va = None) →
  pgdir ≠ 0 →
  wp (setupkvm_loop pgdir ks)
    (λ r s', ∃ l', vm_st kend s' pgdir l' ∧
       ((r = pgdir ∧ ∀ va, is_u32 va →
           translate (mc_mem s') pgdir va = kmap_translate (rev ks ++ done) va)
        ∨ (r = 0 ∧ l' = []))) s.
Proof.
  intros Hs Hok Ht Hd Hz. revert s l done Hs Ht Hd.
  induction ks as [|k ks IH]; intros s l done Hs Ht Hd; simpl.
  - wstep. exists l. split; [exact Hs|]. left. split; [reflexivity|exact Ht].
  - apply Forall_cons in Hok as [Hk Hok]. wstep.
    eapply wp_mono; [apply (wp_map_entry kend s pgdir l k done Hs Hk Ht)|].
    + intros va Hva. exact (Hd [] k ks va eq_refl Hva).
    + intros r s' (l' & Hs' & [[-> Ht']|[-> ->]]); simpl.
      * rewrite <-app_assoc. apply (IH Hok s' l' (k :: done) Hs' Ht').
        intros pre k' post va E Hva. pose proof (Hd (k :: pre) k' post va) as Hd'.
        simpl in Hd'. rewrite <-app_assoc in Hd'. apply Hd'; [by rewrite E|exact Hva].
      * wstep. exists []. split; [exact Hs'|]. by right.
Qed.

(** The kernel's half of every address space, as the comment of vm.c draws it. *)
Definition kernel_map (kdata va : Z) : option (Z * Z) :=
  if va <? KERNBASE then None
  else if va <? KERNLINK then Some (va - KERNBASE, Z.lor PTE_W PTE_P)
  else if va <? kdata then Some (va - KERNBASE, PTE_P)
  else if va <? KERNBASE + PHYSTOP then Some (va - KERNBASE, Z.lor PTE_W PTE_P)
  else if va <? DEVSPACE then None
  else Some (va, Z.lor PTE_W PTE_P).

Lemma kmap_fields kdata :
  KERNLINK < kdata < KERNBASE + PHYSTOP →
  v2p kdata = kdata - KERNBASE ∧ v2p KERNLINK = EXTMEM ∧ u32 (EXTMEM - 0) = EXTMEM ∧
  u32 (kdata - KERNBASE - EXTMEM) = kdata - KERNLINK ∧
  u32 (PHYSTOP - (kdata - KERNBASE)) = KERNBASE + PHYSTOP - kdata ∧
  u32 (0 - DEVSPACE) = 4294967296 - DEVSPACE.
Proof.
  intros Hk. unfold v2p, KERNLINK, KERNBASE, PHYSTOP, EXTMEM, DEVSPACE in *.
  split_and!; try done; rewrite u32_small by (unfold is_u32; lia); lia.
Qed.

Lemma kmap_kernel_map kdata va :
  KERNLINK < kdata < KERNBASE + PHYSTOP → is_u32 va →
  kmap_translate (rev (kmap kdata)) va = kernel_map kdata va.
Proof.
  intros Hk Hva. destruct (kmap_fields kdata Hk) as (E1 & E2 & E3 & E4 & E5 & E6).
  unfold kmap_translate, kmap, kernel_map. simpl. rewrite E1, E2, E3, E4, E5, E6.
  unfold is_u32, KERNLINK, KERNBASE, PHYSTOP, EXTMEM, DEVSPACE in *.
  zcmp; try done; repeat f_equal; lia.
Qed.

Lemma kmap_disjoint kdata pre k post va :
  KERNLINK < kdata < KERNBASE + PHYSTOP → kmap kdata = pre ++ k :: post →
  k_virt k ≤ va < k_virt k + u32 (k_end k - k_start k) →
  kmap_translate (rev pre) va = None.
Proof.
  intros Hk. destruct (kmap_fields kdata Hk) as (E1 & E2 & E3 & E4 & E5 & E6).
  unfold kmap. intros E Hva.
  repeat (destruct pre as [|? pre]; simpl in E; [injection E as <- _|injection E as <- E]);
    try done; revert Hva; simpl; rewrite ?E1, ?E2, ?E3, ?E4, ?E5, ?E6;
    unfold KERNLINK, KERNBASE, PHYSTOP, EXTMEM, DEVSPACE in *; intros Hva; zcmp; try done.
  by destruct pre.
Qed.

(** ** Properties *)

(** mappages, on any range of unmapped virtual addresses: it never
    panics; it returns 0 after mapping every page of the range to the
    consecutive physical pages with the given permissions, or -1 after
    mapping the first pages of it when no free page is left for a page
    table.  No other translation changes, and the directory, its tables and
    the free list stay disjoint. *)
Theorem mappages_spec kend s pgdir l va size pa perm :
  let a := PGROUNDDOWN va in let n := pages_of va size in
  vm_st kend s pgdir l → 0 ≤ va → 0 < size → va + size ≤ 4294967296 →
  is_u32 pa → pa mod PGSIZE = 0 → 0 ≤ perm < 4096 →
  (∀ va', a ≤ va' < a + n * PGSIZE → translate (mc_mem s) pgdir va' = None) →
  wp (mappages pgdir va size pa perm)
    (λ r s', ∃ l' k, vm_st kend s' pgdir l' ∧ l' `suffix_of` l ∧
       ((r = 0 ∧ k = n) ∨ (r = -1 ∧ 0 ≤ k < n ∧ l' = [])) ∧
       ∀ va', is_u32 va' →
         translate (mc_mem s') pgdir va' =
         if (a <=? va') && (va' <? a + k * PGSIZE)
         then Some (u32 (pa + (va' - a) / PGSIZE * PGSIZE) + va' mod PGSIZE, Z.lor perm PTE_P)
         else translate (mc_mem s) pgdir va') s.
Proof.
  intros a n Hs H1 H2 H3 H4 H5 H6 Hf. eapply wp_mono; [by apply (wp_mappages kend s pgdir l)|].
  intros r s' (l' & k & Hs' & Hl & Hk & Hm & Hr). exists l', k. split_and!; [done|done| |].
  - destruct Hr as [?|(? & ? & ?)]; [by left|right]. split_and!; done || lia.
  - intros va' Hva'. by apply (mapped_translate _ _ _ _ _ _ _ _ Hm).
Qed.

(** [C18] setupkvm returns a fresh page directory whose translations are
    exactly the kernel's: nothing below KERNBASE, physical memory at
    KERNBASE with the text read-only, the devices at their own addresses,
    none for user mode.  It does not panic (no entry of kmap[] overlaps
    another), and returns 0 only when no page is free. *)
Theorem setupkvm_spec kend kdata s l :
  kmem_inv kend s l → kdata mod PGSIZE = 0 → KERNLINK < kdata < KERNBASE + PHYSTOP →
  wp (setupkvm kdata)
    (λ r s', (r = 0 ∧ freelist s' = 0) ∨
       ∃ l', head l = Some r ∧ vm_st kend s' r l' ∧
         ∀ va, is_u32 va → translate (mc_mem s') r va = kernel_map kdata va) s.
Proof.
  intros Hk Ha Hd. unfold setupkvm. wstep. eapply wp_kalloc; [exact Hk|].
  intros s1 Hm _ _. destruct l as [|p l].
  - intros Hfl _. simpl. wstep. by left.
  - intros Hk1. destruct Hk as [_ Hnd Hpp _ _]. apply Forall_cons in Hpp as [Hpo _].
    apply NoDup_cons in Hnd as [Hpl _]. pose proof (page_ok_nonzero _ _ Hpo) as Hz.
    rewrite (proj2 (Z.eqb_neq _ _) Hz). wstep. wstep.
    change (DEVSPACE <? p2v PHYSTOP) with false. cbv iota.
    destruct (vm_st_empty kend s1 p l Hk1 Hpo Hpl) as [Hs2 Ht2].
    eapply wp_mono; [apply (wp_setupkvm_loop kend p _ _ l []); try done|].
    + by apply kmap_entries_ok.
    + intros pre k post va E Hva. rewrite app_nil_r. by eapply kmap_disjoint.
    + intros r s' (l' & Hs' & [[-> Ht]|[-> ->]]); [right|].
      2:{ left. split; [done|]. by destruct Hs' as [[? _ _ _ _] _]. }
      exists l'. split_and!; [done|done|]. intros va Hva. rewrite Ht by done.
      rewrite app_nil_r. by apply kmap_kernel_map.
Qed.

(** allocuvm drops the result of mappages: when the last free page is
    used for the user page and none is left for its page table, it reports
    the new size although the address has no translation. *)
Theorem allocuvm_unmapped kend s pgdir p oldsz :
  vm_st kend s pgdir [p] → 0 ≤ oldsz → oldsz mod PGSIZE = 0 → oldsz + PGSIZE < KERNBASE →
  pgtab (mc_mem s) pgdir (PDX oldsz) = None →
  wp (allocuvm kend pgdir oldsz (oldsz + PGSIZE))
    (λ r s', r = oldsz + PGSIZE ∧ freelist s' = 0 ∧ translate (mc_mem s') pgdir oldsz = None) s.
Proof.
  intros [Hk Hv] H0 Ha Hk1 Hn. unfold allocuvm, KERNBASE, PGSIZE in *.
  replace (2147483648 <=? oldsz + 4096) with false by (symmetry; apply Z.leb_gt; lia).
  replace (oldsz + 4096 <? oldsz) with false by (symmetry; apply Z.ltb_ge; lia).
  destruct (PGROUNDUP_spec oldsz H0) as [E1 E2]; [unfold PGSIZE; lia|].
  assert (PGROUNDUP oldsz = oldsz) as -> by (unfold PGSIZE in *; zdm).
  assert (∃ f, (Z.to_nat ((oldsz + 4096) / 4096) + 2 = S (S f))%nat) as [f ->]
    by (exists (Z.to_nat ((oldsz + 4096) / 4096)); lia).
  simpl allocuvm_loop.
  replace (oldsz <? oldsz + 4096) with true by (symmetry; apply Z.ltb_lt; lia).
  wstep. eapply wp_kalloc; [exact Hk|]. intros s1 Hm _ _ Hk2. pose proof Hk as [_ Hnd Hpp _ _].
  apply Forall_cons in Hpp as [Hpo _]. apply NoDup_cons in Hnd as [Hpl _].
  rewrite (proj2 (Z.eqb_neq _ _) (page_ok_nonzero _ _ Hpo)). wstep. wstep. wstep.
  set (s2 := set_mem _ s1). assert (Hu : is_u32 oldsz) by (unfold is_u32; lia).
  pose proof (vo_dirfree _ _ _ _ Hv) as Hpd.
  assert (Hpt : ∀ i, 0 ≤ i < 1024 → pgtab (mc_mem s2) pgdir i = pgtab (mc_mem s) pgdir i).
  { intros i Hi. apply pgtab_ext; [done|]. intros x Hx. simpl. rewrite Hm.
    rewrite memset_spec by (unfold PGSIZE; lia). pose proof (vo_dir _ _ _ _ Hv).
    destruct (page_ok_disjoint kend p pgdir) as [?|?]; try done; [set_solver|..];
      unfold PGSIZE in *; zcmp; done. }
  assert (Hs2 : vm_st kend s2 pgdir []).
  { split.
    - apply (kmem_inv_write kend _ _ p); try done; destruct Hk2 as [_ _ _ Hmo _].
      + by apply memset_ok.
      + intros x Hx. rewrite memset_spec by (unfold PGSIZE; lia). unfold PGSIZE in *. by zcmp.
    - eapply vm_ok_ext; [|exact Hpt]. by eapply vm_ok_tail. }
  assert (Hn2 : translate (mc_mem s2) pgdir oldsz = None).
  { apply translate_None. unfold pte_of. rewrite Hpt by (by apply PDX_range). by rewrite Hn. }
  unfold mappages. rewrite (u32_small oldsz) by done.
  rewrite (PGROUNDDOWN_spec oldsz). unfold PGSIZE. rewrite Ha, Z.sub_0_r.
  simpl mappages_loop. wstep.
  apply (wp_walk_oom kend); [done|by rewrite Hpt by (by apply PDX_range)|].
  intros s3 Hm3 [[Hfl _ _ _ _] _]. simpl. wstep. rewrite u32_small by (unfold is_u32; lia).
  rewrite Z.ltb_irrefl. wstep. split_and!; [done|exact Hfl|by rewrite Hm3].
Qed.

(** uva2ka, on every branch: the kernel address of the page of [uva]
    when it is mapped for the user, 0 when its entry is not present or is
    the kernel's, and a dereference of NULL when there is no page table for
    [uva] at all. *)
Theorem uva2ka_spec kend s pgdir l uva :
  vm_st kend s pgdir l → is_u32 uva →
  uva2ka pgdir uva s =
  match pgtab (mc_mem s) pgdir (PDX uva), translate (mc_mem s) pgdir uva with
  | None, _ => Fault
  | Some _, Some (pa, flags) =>
      Ret (if hasbit flags PTE_U then p2v (pa - uva mod PGSIZE) else 0) s
  | Some _, None => Ret 0 s
  end.
Proof.
  intros [_ Hv] Hu. pose proof (PDX_range uva Hu) as R. pose proof (PTX_range uva Hu).
  unfold uva2ka, walkpgdir, translate, pte_of, ld, gets, mbind, M_bind.
  destruct (pgtab (mc_mem s) pgdir (PDX uva)) as [t|] eqn:Et; pose proof Et as Et0;
    unfold pgtab in Et; destruct (hasbit (load32 (mc_mem s) (pgdir + 4 * PDX uva)) PTE_P); try done.
  injection Et as Et. simpl. rewrite Et.
  destruct (vo_tab _ _ _ _ Hv _ _ R Et0) as ((_ & _ & ?) & _).
  replace (t + 4 * PTX uva =? 0) with false
    by (symmetry; apply Z.eqb_neq; unfold KERNBASE in *; lia).
  set (e := load32 _ (t + _)). destruct (hasbit e PTE_P); [|done]. simpl.
  assert (hasbit (PTE_FLAGS e) PTE_U = hasbit e PTE_U) as ->.
  { unfold hasbit, PTE_FLAGS. by rewrite <-Z.land_assoc. }
  rewrite Z.add_simpl_r. by destruct (hasbit e PTE_U).
Qed.

(** ** Witnesses *)

(** An empty directory at [km_page], one free page after it. *)
Definition vm1 : machine := mkMachine cpu0 (λ _, 0) lock0 1 (km_page + 4096) 0.

Lemma vm1_ok : vm_st km_page vm1 km_page [km_page + 4096].
Proof.
  assert (Hp : page_ok km_page (km_page + 4096)) by (by split_and!).
  split; [split; try done; [apply NoDup_singleton|by apply Forall_singleton]|].
  split; [by split_and!|by rewrite list_elem_of_singleton|done|done].
Qed.

Lemma vm1_empty va : translate (mc_mem vm1) km_page va = None.
Proof. done. Qed.

Lemma mappages_spec_witness :
  wp (mappages km_page 100 PGSIZE 1048576 PTE_W)
    (λ r s', ∃ l' k, vm_st km_page s' km_page l' ∧ l' `suffix_of` [km_page + 4096] ∧
       ((r = 0 ∧ k = pages_of 100 PGSIZE) ∨ (r = -1 ∧ 0 ≤ k < pages_of 100 PGSIZE ∧ l' = [])) ∧
       ∀ va', is_u32 va' →
         translate (mc_mem s') km_page va' =
         if (PGROUNDDOWN 100 <=? va') && (va' <? PGROUNDDOWN 100 + k * PGSIZE)
         then Some (u32 (1048576 + (va' - PGROUNDDOWN 100) / PGSIZE * PGSIZE) + va' mod PGSIZE,
                    Z.lor PTE_W PTE_P)
         else translate (mc_mem vm1) km_page va') vm1.
Proof.
  apply (mappages_spec km_page vm1 km_page [km_page + 4096] 100 PGSIZE 1048576 PTE_W);
    [apply vm1_ok|by vm_compute..|]. intros. apply vm1_empty.
Defined.

Lemma setupkvm_spec_witness :
  wp (setupkvm (KERNLINK + 8192))
    (λ r s', (r = 0 ∧ freelist s' = 0) ∨
       ∃ l', head [km_page + 4096] = Some r ∧ vm_st km_page s' r l' ∧
         ∀ va, is_u32 va → translate (mc_mem s') r va = kernel_map (KERNLINK + 8192) va) vm1.
Proof.
  apply (setupkvm_spec km_page (KERNLINK + 8192) vm1 [km_page + 4096]);
    [apply vm1_ok|by vm_compute..].
Defined.

Lemma allocuvm_unmapped_witness :
  wp (allocuvm km_page km_page 0 (0 + PGSIZE))
    (λ r s', r = 0 + PGSIZE ∧ freelist s' = 0 ∧ translate (mc_mem s') km_page 0 = None) vm1.
Proof.
  apply (allocuvm_unmapped km_page vm1 km_page (km_page + 4096) 0); [apply vm1_ok|by vm_compute..].
Defined.

Lemma uva2ka_spec_witness : uva2ka km_page 0 vm1 = Fault.
Proof. apply (uva2ka_spec km_page vm1 km_page [km_page + 4096] 0); [apply vm1_ok|by vm_compute]. Defined.
