(* ===== verification/Block.v ===== *)
(** * Typed access to the bytes of a block

    The C code reads and writes structures inside [buf->data] through casts.
    Here a block is a list of bytes; [getw]/[setw] and [geth]/[seth] are the
    little-endian 32-bit and 16-bit accesses at a byte offset, [getbytes]
    and [putbytes] are memmove out of and into the block. *)

From S2P Require Import Prelude.
Local Open Scope Z_scope.

Definition getbytes (off n : nat) (d : list Z) : list Z := take n (drop off d).
Definition putbytes (off : nat) (bs : list Z) (d : list Z) : list Z :=
  take off d ++ bs ++ drop (off + length bs) d.

Definition le32 (bs : list Z) : Z :=
  match bs with
  | [a; b; c; e] => a + 256 * b + 65536 * c + 16777216 * e
  | _ => 0
  end.
Definition to_le32 (v : Z) : list Z :=
  [u8 v; u8 (v / 256); u8 (v / 65536); u8 (v / 16777216)].
Definition le16 (bs : list Z) : Z :=
  match bs with [a; b] => a + 256 * b | _ => 0 end.
Definition to_le16 (v : Z) : list Z := [u8 v; u8 (v / 256)].

Definition getw (off : nat) (d : list Z) : Z := le32 (getbytes off 4 d).
Definition setw (off : nat) (v : Z) (d : list Z) : list Z := putbytes off (to_le32 v) d.
Definition geth (off : nat) (d : list Z) : Z := le16 (getbytes off 2 d).
Definition seth (off : nat) (v : Z) (d : list Z) : list Z := putbytes off (to_le16 v) d.

(** What a read of [n] bytes at [off] copies from a file and returns. *)
Definition file_read (f : list Z) (off n : Z) : list Z * Z :=
  if (Z.of_nat (length f) <? off) || (u32 (off + n) <? off) then ([], -1)
  else let bs := take (Z.to_nat n) (drop (Z.to_nat off) f) in (bs, Z.of_nat (length bs)).

(** ** Lemmas *)

Lemma le32_to_le32 v : is_u32 v → le32 (to_le32 v) = v.
Proof. intros H. unfold le32, to_le32, u8, is_u32 in *. zdm. Qed.

Lemma le16_to_le16 v : 0 ≤ v < 65536 → le16 (to_le16 v) = v.
Proof. intros H. unfold le16, to_le16, u8. zdm. Qed.

Lemma to_le32_bytes v : Forall is_u8 (to_le32 v).
Proof. repeat constructor; unfold u8; apply Z.mod_pos_bound; lia. Qed.

Lemma le32_range bs : Forall is_u8 bs → is_u32 (le32 bs).
Proof.
  intros H. destruct bs as [|a [|b [|c [|e [|? ?]]]]]; try done.
  repeat match goal with H : Forall _ (_ :: _) |- _ => apply Forall_cons in H as [? H] end.
  unfold le32, is_u8, is_u32 in *. lia.
Qed.

Lemma putbytes_length off bs d :
  (off + length bs ≤ length d)%nat → length (putbytes off bs d) = length d.
Proof. intros. unfold putbytes. rewrite !length_app, length_take, length_drop. lia. Qed.

Lemma putbytes_bytes off bs d :
  Forall is_u8 bs → Forall is_u8 d → Forall is_u8 (putbytes off bs d).
Proof.
  intros H1 H2. unfold putbytes. rewrite !Forall_app. split_and!; [|done|];
    [by apply Forall_take|by apply Forall_drop].
Qed.

Lemma getbytes_length off n d : (off + n ≤ length d)%nat → length (getbytes off n d) = n.
Proof. intros. unfold getbytes. rewrite length_take, length_drop. lia. Qed.

Lemma lookup_getbytes off n d i :
  (i < n)%nat → getbytes off n d !! i = d !! (off + i)%nat.
Proof. intros. unfold getbytes. rewrite lookup_take_lt by done. apply lookup_drop. Qed.

Lemma lookup_putbytes off bs d i :
  (off + length bs ≤ length d)%nat →
  putbytes off bs d !! i =
    if decide (off ≤ i < off + length bs)%nat then bs !! (i - off)%nat else d !! i.
Proof.
  intros H. unfold putbytes. assert (length (take off d) = off) by (rewrite length_take; lia).
  case_decide as E.
  - rewrite lookup_app_r by lia. rewrite lookup_app_l by lia. f_equal. lia.
  - destruct (decide (i < off)%nat).
    + rewrite lookup_app_l by lia. apply lookup_take_lt. lia.
    + rewrite lookup_app_r by lia. rewrite lookup_app_r by lia. rewrite lookup_drop. f_equal. lia.
Qed.

Lemma getbytes_ext off n d d' :
  length d = length d' → (∀ i, (off ≤ i < off + n)%nat → d !! i = d' !! i) →
  getbytes off n d = getbytes off n d'.
Proof.
  intros Hl H. apply list_eq. intros i. destruct (decide (i < n)%nat).
  - rewrite !lookup_getbytes by done. apply H. lia.
  - unfold getbytes. rewrite !lookup_ge_None_2; [done|rewrite length_take; lia..].
Qed.

Lemma get_put_same off bs d :
  (off + length bs ≤ length d)%nat → getbytes off (length bs) (putbytes off bs d) = bs.
Proof.
  intros H. apply list_eq. intros i. destruct (decide (i < length bs)%nat).
  - rewrite lookup_getbytes, lookup_putbytes by done. rewrite decide_True by lia. f_equal. lia.
  - rewrite !lookup_ge_None_2; [done|lia|]. unfold getbytes. rewrite length_take. lia.
Qed.

Lemma get_put_other off n off' bs d :
  (off' + length bs ≤ length d)%nat → (off + n ≤ off' ∨ off' + length bs ≤ off)%nat →
  getbytes off n (putbytes off' bs d) = getbytes off n d.
Proof.
  intros H1 H2. apply getbytes_ext; [by rewrite putbytes_length|].
  intros i Hi. rewrite lookup_putbytes by done. by rewrite decide_False by lia.
Qed.

Lemma getw_setw off v d :
  is_u32 v → (off + 4 ≤ length d)%nat → getw off (setw off v d) = v.
Proof.
  intros Hv H. unfold getw, setw. change 4%nat with (length (to_le32 v)).
  rewrite get_put_same by done. by apply le32_to_le32.
Qed.

Lemma getw_setw_other off off' v d :
  (off' + 4 ≤ length d)%nat → (off + 4 ≤ off' ∨ off' + 4 ≤ off)%nat →
  getw off (setw off' v d) = getw off d.
Proof. intros. unfold getw, setw. by rewrite get_put_other. Qed.

Lemma setw_length off v d : (off + 4 ≤ length d)%nat → length (setw off v d) = length d.
Proof. intros. unfold setw. by rewrite putbytes_length. Qed.

Lemma getw_range off d : Forall is_u8 d → is_u32 (getw off d).
Proof. intros. apply le32_range. unfold getbytes. by apply Forall_take, Forall_drop. Qed.

Lemma getbytes_putbytes0 off n bs d :
  (off + n ≤ length bs)%nat → getbytes off n (putbytes 0 bs d) = getbytes off n bs.
Proof.
  intros H. unfold getbytes, putbytes. rewrite take_0, app_nil_l, drop_app_le by lia.
  rewrite take_app_le; [done|]. rewrite length_drop. lia.
Qed.

Lemma getbytes_take off n k f : (off + n ≤ k)%nat → getbytes off n (take k f) = getbytes off n f.
Proof.
  intros H. unfold getbytes. apply list_eq. intros i. destruct (decide (i < n)%nat) as [Hi|Hi].
  - rewrite !lookup_take, !decide_True, !lookup_drop, lookup_take, decide_True by lia. done.
  - rewrite !lookup_take, !decide_False by lia. done.
Qed.

Lemma file_read_all f off n bs :
  0 < n → 0 ≤ off → file_read f off n = (bs, n) →
  bs = getbytes (Z.to_nat off) (Z.to_nat n) f ∧ off + n ≤ Z.of_nat (length f).
Proof.
  unfold file_read. intros Hn Ho. destruct (_ || _)%bool; intros [= <- H]; [lia|]. split; [done|].
  rewrite length_take, length_drop in H. lia.
Qed.

Lemma file_read_result f off n bs r :
  0 ≤ n < 2147483648 → file_read f off n = (bs, r) → (u32 r =? n) = (r =? n) ∧ r ≤ n ∧ -1 ≤ r.
Proof.
  unfold file_read. intros Hn. destruct (_ || _)%bool; intros [= <- <-].
  - unfold u32. change (-1 mod 4294967296) with 4294967295. split; [|lia].
    destruct (Z.eqb_spec 4294967295 n), (Z.eqb_spec (-1) n); lia.
  - rewrite length_take. rewrite u32_small by (unfold is_u32; lia). split; [done|lia].
Qed.

(** ** Bytes of a sequence of blocks *)

Lemma getbytes_split off m n l : getbytes off (m + n) l = getbytes off m l ++ getbytes (off + m) n l.
Proof. unfold getbytes. by rewrite <- drop_drop, <- take_take_drop. Qed.

(** Bytes within one of several blocks of the same length. *)
Lemma getbytes_concat B (bs : list (list Z)) k b o n :
  Forall (λ b, length b = B) bs → bs !! k = Some b → (o + n ≤ B)%nat →
  getbytes (k * B + o) n (concat bs) = getbytes o n b.
Proof.
  revert k. induction bs as [|b' bs IH]; intros k Hl Hk Ho; [done|]. apply Forall_cons_1 in Hl as [Hb Hl].
  destruct k as [|k]; simpl in *.
  - injection Hk as ->. unfold getbytes. rewrite drop_app_le, take_app_le; rewrite ?length_drop; try lia. done.
  - rewrite <- (IH k Hl Hk Ho). unfold getbytes. f_equal. rewrite drop_app_ge by lia. f_equal. lia.
Qed.

Lemma length_concat_blocks B (bs : list (list Z)) :
  Forall (λ b, length b = B) bs → length (concat bs) = (length bs * B)%nat.
Proof. induction 1 as [|b bs Hb _ IH]; simpl; [done|]. rewrite length_app. lia. Qed.

(** ** Writing bytes *)

Lemma putbytes_app_l off p l z :
  (off + length p ≤ length l)%nat → putbytes off p (l ++ z) = putbytes off p l ++ z.
Proof.
  intros H. unfold putbytes. rewrite take_app_le, drop_app_le by lia. by rewrite <- !app_assoc.
Qed.

Lemma putbytes_app_r b off p l : putbytes (length b + off) p (b ++ l) = b ++ putbytes off p l.
Proof.
  unfold putbytes. rewrite take_app_add, <- Nat.add_assoc, drop_app_add. by rewrite <- !app_assoc.
Qed.

Lemma putbytes_putbytes off p q l :
  (off + length p ≤ length l)%nat →
  putbytes (off + length p) q (putbytes off p l) = putbytes off (p ++ q) l.
Proof.
  intros H. unfold putbytes at 2. assert (length (take off l) = off) as Ht by (rewrite length_take; lia).
  rewrite <- Ht at 1. rewrite putbytes_app_r. unfold putbytes at 2. f_equal.
  replace (length p) with (length p + 0)%nat at 1 by lia. rewrite putbytes_app_r, <- app_assoc. f_equal.
  unfold putbytes. simpl. rewrite drop_drop, length_app. f_equal. f_equal. lia.
Qed.

Lemma concat_putbytes B (bs : list (list Z)) k d o p :
  Forall (λ b, length b = B) bs → bs !! k = Some d → (o + length p ≤ B)%nat →
  concat (<[k := putbytes o p d]> bs) = putbytes (k * B + o) p (concat bs).
Proof.
  revert k. induction bs as [|b bs IH]; intros k Hl Hk Ho; [done|]. apply Forall_cons_1 in Hl as [Hb Hl].
  destruct k as [|k]; simpl in *.
  - injection Hk as ->. rewrite putbytes_app_l by lia. done.
  - rewrite (IH k Hl Hk Ho). replace (B + k * B + o)%nat with (length b + (k * B + o))%nat by lia.
    by rewrite putbytes_app_r.
Qed.
