(* ===== verification/Bio.v ===== *)
(** * The buffer cache (xv6/bio.c, xv6/buf.h) on the memory disk (xv6/memide.c)

    The cache is modelled at the level of its pointers: [NBUF] buffers and
    the list head, linked through [prev]/[next] in LRU order.  A pointer is
    an index: [i < NBUF] is [&bcache.buf[i]], [NBUF] is [&bcache.head].

    [BufferCache] is the interface the log and the file system are verified
    against.  It speaks of an abstract block store ([bview]): the current
    contents of every block, the contents on disk, which buffers are held
    and which blocks are pinned.  [bcache_ok], the instance at the end,
    shows that the pointer-level code implements it. *)

From stdpp Require Export gmap functions list.
From S2P Require Import Prelude Kernel Spinlock.
Local Open Scope Z_scope.

(** ** Data *)

Definition BSIZE : nat := 512.
Definition NBUF : nat := 30.
Definition FSSIZE : Z := 1000.
Definition B_BUSY : Z := 1.
Definition B_VALID : Z := 2.
Definition B_DIRTY : Z := 4.

(** The bytes of one block. *)
Definition block : Type := list Z.

(** struct buf; [b_qnext] is the disk queue link of ide.c. *)
Record buf := mkBuf {
  b_flags : Z;
  b_dev : Z;
  b_blockno : Z;
  b_prev : nat;
  b_next : nat;
  b_qnext : option nat;
  b_data : block;
}.

Definition set_flags (x : Z) (b : buf) : buf :=
  mkBuf x (b_dev b) (b_blockno b) (b_prev b) (b_next b) (b_qnext b) (b_data b).
Definition set_id (d n : Z) (b : buf) : buf :=
  mkBuf (b_flags b) d n (b_prev b) (b_next b) (b_qnext b) (b_data b).
Definition set_prev (p : nat) (b : buf) : buf :=
  mkBuf (b_flags b) (b_dev b) (b_blockno b) p (b_next b) (b_qnext b) (b_data b).
Definition set_next (p : nat) (b : buf) : buf :=
  mkBuf (b_flags b) (b_dev b) (b_blockno b) (b_prev b) p (b_qnext b) (b_data b).
Definition set_data (d : block) (b : buf) : buf :=
  mkBuf (b_flags b) (b_dev b) (b_blockno b) (b_prev b) (b_next b) (b_qnext b) d.

Definition hasflag (x f : Z) : bool := negb (Z.land x f =? 0).

(** The kernel state bio.c and memide.c work on.  [memdisk] is the image,
    cut into blocks, so that its length is [disksize].  Two fields record
    history: the channels woken, and the block writes that reached the
    disk, in order. *)
Record bstate := mkBst {
  bs_cpu : cpu;
  bs_lock : spinlock;
  bufs : list buf;
  memdisk : list block;
  woken : list nat;
  writes : list (Z * block);
}.

Definition set_bs_cpu (c : cpu) (s : bstate) : bstate :=
  mkBst c (bs_lock s) (bufs s) (memdisk s) (woken s) (writes s).
Definition set_bs_lock (l : spinlock) (s : bstate) : bstate :=
  mkBst (bs_cpu s) l (bufs s) (memdisk s) (woken s) (writes s).
Definition set_bufs (x : list buf) (s : bstate) : bstate :=
  mkBst (bs_cpu s) (bs_lock s) x (memdisk s) (woken s) (writes s).
Definition wakeup_buf (i : nat) (s : bstate) : bstate :=
  mkBst (bs_cpu s) (bs_lock s) (bufs s) (memdisk s) (woken s ++ [i]) (writes s).
Definition write_disk (n : Z) (d : block) (s : bstate) : bstate :=
  mkBst (bs_cpu s) (bs_lock s) (bufs s) (<[Z.to_nat n := d]> (memdisk s)) (woken s)
    (writes s ++ [(n, d)]).

Definition bcpu : lens bstate cpu := mkLens bs_cpu set_bs_cpu.
Definition bclock : lens bstate spinlock := mkLens bs_lock set_bs_lock.

#[export] Instance bcpu_ok : LensOk bcpu.
Proof. split; try done. by intros []. Qed.
#[export] Instance bclock_ok : LensOk bclock.
Proof. split; try done. by intros []. Qed.
#[export] Instance bcpu_bclock : LensIndep bcpu bclock.
Proof. by split. Qed.

(** Reading and updating through a buffer pointer. *)
Definition rd (i : nat) : M bstate buf := λ s,
  match bufs s !! i with Some b => Ret b s | None => Fault end.
Definition upd (i : nat) (f : buf → buf) : M bstate unit := λ s,
  match bufs s !! i with
  | Some b => Ret tt (set_bufs (<[i := f b]> (bufs s)) s)
  | None => Fault
  end.

(** ** memide.c *)

(** Sync buf with disk. *)
Definition iderw (i : nat) : M bstate unit :=
  b ← rd i;
  if negb (hasflag (b_flags b) B_BUSY) then panic "iderw: buf not busy" else
  if Z.land (b_flags b) (Z.lor B_VALID B_DIRTY) =? B_VALID
  then panic "iderw: nothing to do" else
  if negb (b_dev b =? 1) then panic "iderw: request not for disk 1" else
  disksize ← gets (λ s, Z.of_nat (length (memdisk s)));
  if disksize <=? b_blockno b then panic "iderw: block out of range" else
  (if hasflag (b_flags b) B_DIRTY
   then upd i (λ b, set_flags (Z.ldiff (b_flags b) B_DIRTY) b) ;;
        b ← rd i;
        modify (write_disk (b_blockno b) (b_data b))
   else d ← gets (λ s, memdisk s !! Z.to_nat (b_blockno b));
        d ← deref d;
        upd i (set_data d)) ;;
  upd i (λ b, set_flags (Z.lor (b_flags b) B_VALID) b).

(** ** bio.c *)

(** One round of binit's loop. *)
Definition binit_one (i : nat) : M bstate unit :=
  h ← rd NBUF;
  upd i (set_next (b_next h)) ;;
  upd i (set_prev NBUF) ;;
  upd i (λ b, set_id 4294967295 (b_blockno b) b) ;;
  h ← rd NBUF;
  upd (b_next h) (set_prev i) ;;
  upd NBUF (set_next i).

Definition binit : M bstate unit :=
  modify (λ s, set_bs_lock (initlock "bcache" (bs_lock s)) s) ;;
  upd NBUF (set_prev NBUF) ;;
  upd NBUF (set_next NBUF) ;;
  forM (seq 0 NBUF) binit_one.

(** The two for loops of bget: the first buffer from [i] on, along [step],
    that satisfies [p].  The inner option is the outcome of the loop. *)
Fixpoint scan (step : buf → nat) (p : buf → bool) (fuel i : nat) : M bstate (option nat) :=
  match fuel with
  | O => fault
  | S fuel =>
      if decide (i = NBUF) then mret None else
      b ← rd i;
      if p b then mret (Some i) else scan step p fuel (step b)
  end.

(** Every buffer once, and the head. *)
Definition bget_fuel : nat := S NBUF.

Definition bget (dev blockno : Z) : M bstate nat :=
  acquire bcpu bclock ;;
  h ← rd NBUF;
  r ← scan b_next (λ b, (b_dev b =? dev) && (b_blockno b =? blockno)) bget_fuel (b_next h);
  match r with
  | Some i =>
      b ← rd i;
      if negb (hasflag (b_flags b) B_BUSY)
      then upd i (λ b, set_flags (Z.lor (b_flags b) B_BUSY) b) ;;
           release bcpu bclock ;; mret i
      else (* sleep releases the lock *) release bcpu bclock ;; sleeps (Z.of_nat i)
  | None =>
      h ← rd NBUF;
      r ← scan b_prev (λ b, negb (hasflag (b_flags b) B_BUSY) &&
                            negb (hasflag (b_flags b) B_DIRTY)) bget_fuel (b_prev h);
      match r with
      | Some i =>
          upd i (set_id dev blockno) ;;
          upd i (set_flags B_BUSY) ;;
          release bcpu bclock ;; mret i
      | None => panic "bget: no buffers"
      end
  end.

Definition bread (dev blockno : Z) : M bstate nat :=
  i ← bget dev blockno;
  b ← rd i;
  (if negb (hasflag (b_flags b) B_VALID) then iderw i else mret tt) ;;
  mret i.

Definition bwrite (i : nat) : M bstate unit :=
  b ← rd i;
  if negb (hasflag (b_flags b) B_BUSY) then panic "bwrite" else
  upd i (λ b, set_flags (Z.lor (b_flags b) B_DIRTY) b) ;;
  iderw i.

Definition brelse (i : nat) : M bstate unit :=
  b ← rd i;
  if negb (hasflag (b_flags b) B_BUSY) then panic "brelse" else
  acquire bcpu bclock ;;
  b ← rd i;
  upd (b_next b) (set_prev (b_prev b)) ;;
  b ← rd i;
  upd (b_prev b) (set_next (b_next b)) ;;
  h ← rd NBUF;
  upd i (set_next (b_next h)) ;;
  upd i (set_prev NBUF) ;;
  h ← rd NBUF;
  upd (b_next h) (set_prev i) ;;
  upd NBUF (set_next i) ;;
  upd i (λ b, set_flags (Z.ldiff (b_flags b) B_BUSY) b) ;;
  modify (wakeup_buf i) ;;
  release bcpu bclock.

(** ** The abstract block store and the interface *)

(** [bv_cur]: what each block holds now, [bv_disk]: what the disk holds,
    [bv_held]: the buffers a process holds with their block numbers,
    [bv_pin]: the blocks with changes the log has not written,
    [bv_writes]: the disk writes so far. *)
Record bview := mkBv {
  bv_cur : list block;
  bv_disk : list block;
  bv_held : gmap nat Z;
  bv_pin : gset Z;
  bv_writes : list (Z * block);
}.

Definition bv_len (v : bview) : Z := Z.of_nat (length (bv_disk v)).

Definition v_hold (i : nat) (x : Z) (v : bview) : bview :=
  mkBv (bv_cur v) (bv_disk v) (<[i := x]> (bv_held v)) (bv_pin v) (bv_writes v).
Definition v_unhold (i : nat) (v : bview) : bview :=
  mkBv (bv_cur v) (bv_disk v) (delete i (bv_held v)) (bv_pin v) (bv_writes v).
Definition v_set (x : Z) (d : block) (v : bview) : bview :=
  mkBv (<[Z.to_nat x := d]> (bv_cur v)) (bv_disk v) (bv_held v) (bv_pin v) (bv_writes v).
Definition v_pin (x : Z) (v : bview) : bview :=
  mkBv (bv_cur v) (bv_disk v) (bv_held v) ({[x]} ∪ bv_pin v) (bv_writes v).
Definition v_write (x : Z) (d : block) (v : bview) : bview :=
  mkBv (bv_cur v) (<[Z.to_nat x := d]> (bv_disk v)) (bv_held v) (bv_pin v ∖ {[x]})
    (bv_writes v ++ [(x, d)]).

(** What bio.c promises to its clients. *)
Class BufferCache (B : Type) := {
  bc_bread : Z → Z → M B nat;
  bc_bwrite : nat → M B unit;
  bc_brelse : nat → M B unit;
  bc_data : nat → B → option block;
  bc_setdata : nat → block → M B unit;
  bc_blockno : nat → B → option Z;
  bc_setdirty : nat → M B unit;
  bc_cpu : lens B cpu;
  bc_rel : B → bview → Prop;

  bc_cpu_ok :: LensOk bc_cpu;
  bc_rel_cpu s v : bc_rel s v → cpu_ok (lget bc_cpu s);
  bc_rel_setcpu s v c : bc_rel s v → cpu_ok c → bc_rel (lput bc_cpu c s) v;
  bc_rel_len s v : bc_rel s v → length (bv_cur v) = length (bv_disk v);
  bc_rel_clean s v x :
    bc_rel s v → 0 ≤ x → x ∉ bv_pin v → (∀ i, bv_held v !! i ≠ Some x) →
    bv_cur v !! Z.to_nat x = bv_disk v !! Z.to_nat x;

  bread_law s v x (Q : nat → B → Prop) :
    bc_rel s v → 0 ≤ x < bv_len v → (∀ i, bv_held v !! i ≠ Some x) →
    (x ∈ bv_pin v ∨ (size (bv_pin v) + size (bv_held v) < NBUF)%nat) →
    (∀ i s', bv_held v !! i = None → bc_rel s' (v_hold i x v) → Q i s') →
    wp (bc_bread 1 x) Q s;
  data_law s v i x :
    bc_rel s v → bv_held v !! i = Some x →
    bc_blockno i s = Some x ∧ 0 ≤ x < bv_len v ∧
    ∃ d, bc_data i s = Some d ∧ bv_cur v !! Z.to_nat x = Some d;
  setdata_law s v i x d (Q : unit → B → Prop) :
    bc_rel s v → bv_held v !! i = Some x →
    (∀ s', bc_rel s' (v_set x d v) → Q tt s') → wp (bc_setdata i d) Q s;
  setdirty_law s v i x (Q : unit → B → Prop) :
    bc_rel s v → bv_held v !! i = Some x →
    (∀ s', bc_rel s' (v_pin x v) → lget bc_cpu s' = lget bc_cpu s → Q tt s') →
    wp (bc_setdirty i) Q s;
  bwrite_law s v i x d (Q : unit → B → Prop) :
    bc_rel s v → bv_held v !! i = Some x → bv_cur v !! Z.to_nat x = Some d →
    (∀ s', bc_rel s' (v_write x d v) → Q tt s') → wp (bc_bwrite i) Q s;
  brelse_law s v i x (Q : unit → B → Prop) :
    bc_rel s v → bv_held v !! i = Some x →
    (x ∈ bv_pin v ∨ bv_cur v !! Z.to_nat x = bv_disk v !! Z.to_nat x) →
    (∀ s', bc_rel s' (v_unhold i v) → Q tt s') → wp (bc_brelse i) Q s;
}.

(** ** The LRU list *)

Definition nxt (bs : list buf) (i : nat) : nat :=
  match bs !! i with Some b => b_next b | None => O end.
Definition prv (bs : list buf) (i : nat) : nat :=
  match bs !! i with Some b => b_prev b | None => O end.

Fixpoint linked (nx pv : nat → nat) (l : list nat) : Prop :=
  match l with
  | x :: ((y :: _) as r) => nx x = y ∧ pv y = x ∧ linked nx pv r
  | _ => True
  end.

(** [ord] is the cache from the most to the least recently used buffer. *)
Definition lru_ok (bs : list buf) (ord : list nat) : Prop :=
  ord ≡ₚ seq 0 NBUF ∧ linked (nxt bs) (prv bs) (NBUF :: ord ++ [NBUF]).

Lemma linked_ext nx nx' pv pv' l :
  (∀ x, nx' x = nx x) → (∀ x, pv' x = pv x) → linked nx pv l → linked nx' pv' l.
Proof.
  intros H1 H2. induction l as [|x [|y r] IH]; simpl; try done.
  rewrite H1, H2. intros (? & ? & ?). split_and!; try done. by apply IH.
Qed.

Lemma linked_app nx pv l x r :
  linked nx pv (l ++ x :: r) ↔ linked nx pv (l ++ [x]) ∧ linked nx pv (x :: r).
Proof.
  induction l as [|a l IH].
  - cbn [app]. split; [intros H; split; [done|exact H]|by intros [_ H]].
  - destruct l as [|c l]; [simpl; tauto|]. cbn [app linked] in *. rewrite IH. tauto.
Qed.

(** Changing [next] of a node that is not a source and [prev] of a node that
    is not a target leaves the list alone. *)
Lemma linked_upd (nx pv : nat → nat) (a u b v : nat) l :
  (∀ l' z, l = l' ++ [z] → a ∉ l') → b ∉ tail l →
  linked nx pv l → linked (<[a:=u]> nx) (<[b:=v]> pv) l.
Proof.
  induction l as [|x [|y r] IH]; intros Ha Hb; simpl; try done.
  intros (H1 & H2 & H3). simpl in Hb. split_and!.
  - rewrite fn_lookup_insert_ne; [done|].
    destruct (exists_last (l:=y :: r)) as (l' & z & E); [done|].
    intros ->. apply (Ha (x :: l') z); [by rewrite E|set_solver].
  - rewrite fn_lookup_insert_ne; [done|set_solver].
  - apply IH; [|set_solver|done]. intros l' z E Hin.
    apply (Ha (x :: l') z); [by rewrite E|set_solver].
Qed.

Lemma linked_unlink (nx pv : nat → nat) l (a b c : nat) r :
  NoDup (l ++ [a; b]) → NoDup (b :: c :: r) →
  (∀ l' z, c :: r = l' ++ [z] → a ∉ l') → c ∉ tail (l ++ [a]) →
  linked nx pv (l ++ a :: b :: c :: r) →
  linked (<[a:=c]> nx) (<[c:=a]> pv) (l ++ a :: c :: r).
Proof.
  intros Hn1 Hn2 Hac Hc. rewrite linked_app. intros [H1 (Hab & Hba & Hbc & Hcb & H2)].
  apply linked_app. split.
  - apply linked_upd; [|done|done]. intros l' z E. apply app_inj_tail in E as [-> ->].
    intros Hin. apply NoDup_app in Hn1 as (_ & Hd & _). apply (Hd z Hin). set_solver.
  - change (<[a:=c]> nx a = c ∧ <[c:=a]> pv c = a ∧
            linked (<[a:=c]> nx) (<[c:=a]> pv) (c :: r)).
    rewrite !fn_lookup_insert. split_and!; try done.
    apply linked_upd; try done. simpl.
    apply NoDup_cons in Hn2 as [_ Hn2]. by apply NoDup_cons in Hn2 as [? _].
Qed.

Lemma linked_push (nx pv : nat → nat) (h b c : nat) r :
  h ≠ b → b ∉ c :: r → NoDup (c :: r) → (∀ l' z, c :: r = l' ++ [z] → h ∉ l') →
  linked nx pv (h :: c :: r) →
  linked (<[h:=b]> (<[b:=c]> nx)) (<[c:=b]> (<[b:=h]> pv)) (h :: b :: c :: r).
Proof.
  intros Hhb Hb Hn Hh (H1 & H2 & H3).
  change (<[h:=b]> (<[b:=c]> nx) h = b ∧ <[c:=b]> (<[b:=h]> pv) b = h ∧
          <[h:=b]> (<[b:=c]> nx) b = c ∧ <[c:=b]> (<[b:=h]> pv) c = b ∧
          linked (<[h:=b]> (<[b:=c]> nx)) (<[c:=b]> (<[b:=h]> pv)) (c :: r)).
  split_and!.
  - by rewrite fn_lookup_insert.
  - rewrite fn_lookup_insert_ne by set_solver. by rewrite fn_lookup_insert.
  - rewrite fn_lookup_insert_ne by done. by rewrite fn_lookup_insert.
  - by rewrite fn_lookup_insert.
  - apply linked_upd; [done|simpl; by apply NoDup_cons in Hn as [? _]|].
    apply linked_upd; [|simpl; set_solver|done]. intros l' z E Hin. apply Hb. rewrite E. set_solver.
Qed.

(** ** Reading and writing through pointers *)

Lemma wp_rd i b (Q : buf → bstate → Prop) s :
  bufs s !! i = Some b → Q b s → wp (rd i) Q s.
Proof. unfold wp, rd. by intros ->. Qed.

Lemma wp_upd i b f (Q : unit → bstate → Prop) s :
  bufs s !! i = Some b → Q tt (set_bufs (<[i := f b]> (bufs s)) s) → wp (upd i f) Q s.
Proof. unfold wp, upd. by intros ->. Qed.

Lemma nxt_insert bs i b x :
  (i < length bs)%nat →
  nxt (<[i:=b]> bs) x = <[i := b_next b]> (nxt bs) x.
Proof.
  intros Hi. unfold nxt. rewrite lookup_insert_case by done.
  destruct (decide (i = x)) as [->|]; [by rewrite fn_lookup_insert|].
  by rewrite fn_lookup_insert_ne.
Qed.

Lemma prv_insert bs i b x :
  (i < length bs)%nat →
  prv (<[i:=b]> bs) x = <[i := b_prev b]> (prv bs) x.
Proof.
  intros Hi. unfold prv. rewrite lookup_insert_case by done.
  destruct (decide (i = x)) as [->|]; [by rewrite fn_lookup_insert|].
  by rewrite fn_lookup_insert_ne.
Qed.

(** An update that keeps the links keeps the list. *)
Lemma lru_same bs i b b' ord :
  bs !! i = Some b → b_next b' = b_next b → b_prev b' = b_prev b →
  lru_ok bs ord → lru_ok (<[i:=b']> bs) ord.
Proof.
  intros Hb H1 H2 [Hp Hl]. split; [done|]. pose proof (lookup_lt_Some _ _ _ Hb).
  eapply linked_ext; [..|exact Hl]; intros x.
  - rewrite nxt_insert by done. destruct (decide (i = x)) as [->|];
      [|by rewrite fn_lookup_insert_ne]. rewrite fn_lookup_insert. unfold nxt. by rewrite Hb.
  - rewrite prv_insert by done. destruct (decide (i = x)) as [->|];
      [|by rewrite fn_lookup_insert_ne]. rewrite fn_lookup_insert. unfold prv. by rewrite Hb.
Qed.

(** ** The scans of bget *)

(** Following [step] from the head of [l] visits [l] and ends at the list head. *)
Fixpoint spath (step : buf → nat) (bs : list buf) (l : list nat) : Prop :=
  match l with
  | [] => True
  | x :: r => (x < NBUF)%nat ∧ (∃ b, bs !! x = Some b ∧ step b = hd NBUF r) ∧ spath step bs r
  end.

(** The first element of [l] whose buffer satisfies [p]. *)
Fixpoint findb (p : buf → bool) (bs : list buf) (l : list nat) : option nat :=
  match l with
  | [] => None
  | x :: r => match bs !! x with
              | Some b => if p b then Some x else findb p bs r
              | None => None
              end
  end.

Lemma scan_ok step p l fuel s :
  (length l < fuel)%nat → spath step (bufs s) l →
  scan step p fuel (hd NBUF l) s = Ret (findb p (bufs s) l) s.
Proof.
  revert fuel. induction l as [|x r IH]; intros [|fuel] Hf Hp; simpl in Hf; try lia.
  - done.
  - destruct Hp as (Hx & (b & Hb & Hs) & Hp). simpl.
    rewrite decide_False by lia. unfold mbind, M_bind, rd. rewrite Hb. simpl.
    destruct (p b); [done|]. rewrite Hs. apply IH; [lia|done].
Qed.

Lemma findb_some p bs l i :
  findb p bs l = Some i → i ∈ l ∧ ∃ b, bs !! i = Some b ∧ p b = true.
Proof.
  induction l as [|x r IH]; simpl; [done|]. destruct (bs !! x) as [b|] eqn:E; [|done].
  destruct (p b) eqn:Ep.
  - intros [= <-]. split; [set_solver|eauto].
  - intros H. destruct (IH H) as [? ?]. split; [set_solver|done].
Qed.

Lemma findb_none p bs l step i b :
  spath step bs l → findb p bs l = None → i ∈ l → bs !! i = Some b → p b = false.
Proof.
  induction l as [|x r IH]; simpl; [set_solver|]. intros (_ & (b' & Hb' & _) & Hp).
  rewrite Hb'. destruct (p b') eqn:Ep; [done|]. intros Hn [->|Hi]%elem_of_cons Hb; [congruence|].
  by apply IH.
Qed.

Lemma linked_spath_next bs l x :
  length bs = S NBUF → Forall (λ y, (y < NBUF)%nat) l →
  linked (nxt bs) (prv bs) (x :: l ++ [NBUF]) → spath b_next bs l ∧ nxt bs x = hd NBUF l.
Proof.
  intros Hlen. revert x. induction l as [|y r IH]; intros x Hf Hl; simpl.
  - by destruct Hl as [-> _].
  - apply Forall_cons in Hf as [Hy Hf]. destruct Hl as (H1 & _ & Hl).
    destruct (IH y Hf Hl) as [Hp Hn]. split_and!; try done.
    destruct (lookup_lt_is_Some_2 bs y) as [b Hb]; [lia|]. exists b. split; [done|].
    unfold nxt in Hn. by rewrite Hb in Hn.
Qed.

Lemma linked_spath_prev bs l x :
  length bs = S NBUF → Forall (λ y, (y < NBUF)%nat) l →
  linked (nxt bs) (prv bs) (NBUF :: l ++ [x]) →
  spath b_prev bs (reverse l) ∧ prv bs x = hd NBUF (reverse l).
Proof.
  intros Hlen. revert x. induction l as [|y r IH] using rev_ind; intros x Hf Hl; simpl.
  - by destruct Hl as (_ & -> & _).
  - apply Forall_app in Hf as [Hf Hy]. apply Forall_cons in Hy as [Hy _].
    rewrite <-app_assoc in Hl. change (NBUF :: r ++ [y] ++ [x]) with ((NBUF :: r) ++ y :: [x]) in Hl.
    apply linked_app in Hl as [H1 (_ & H2 & _)].
    destruct (IH y Hf H1) as [Hp Hn]. rewrite reverse_snoc. simpl.
    split_and!; try done.
    destruct (lookup_lt_is_Some_2 bs y) as [b Hb]; [rewrite Hlen; lia|]. exists b. split; [done|].
    unfold prv in Hn. by rewrite Hb in Hn.
Qed.

Lemma lru_range bs ord : lru_ok bs ord → Forall (λ y, (y < NBUF)%nat) ord ∧ NoDup ord ∧ length ord = NBUF.
Proof.
  intros [Hp _]. rewrite Hp. split_and!; [|apply NoDup_seq|by rewrite length_seq].
  apply Forall_forall. intros x Hx%elem_of_seq. lia.
Qed.

Lemma lru_elem bs ord i : lru_ok bs ord → (i < NBUF)%nat → i ∈ ord.
Proof. intros [Hp _] Hi. rewrite Hp. apply elem_of_seq. lia. Qed.

(** The two loops of bget see every buffer. *)
Lemma scan_next_ok p bs ord h s :
  bufs s = bs → length bs = S NBUF → lru_ok bs ord → bs !! NBUF = Some h →
  spath b_next bs ord ∧
  scan b_next p bget_fuel (b_next h) s = Ret (findb p bs ord) s.
Proof.
  intros Hs Hlen Hl Hh. destruct (lru_range _ _ Hl) as (Hf & _ & Hlo). destruct Hl as [_ Hl].
  destruct (linked_spath_next _ _ _ Hlen Hf Hl) as [Hp Hn].
  unfold nxt in Hn. rewrite Hh in Hn. split; [done|]. rewrite Hn. subst bs.
  apply scan_ok; [unfold bget_fuel; lia|done].
Qed.

Lemma scan_prev_ok p bs ord h s :
  bufs s = bs → length bs = S NBUF → lru_ok bs ord → bs !! NBUF = Some h →
  spath b_prev bs (reverse ord) ∧
  scan b_prev p bget_fuel (b_prev h) s = Ret (findb p bs (reverse ord)) s.
Proof.
  intros Hs Hlen Hl Hh. destruct (lru_range _ _ Hl) as (Hf & _ & Hlo). destruct Hl as [_ Hl].
  destruct (linked_spath_prev _ _ _ Hlen Hf Hl) as [Hp Hn].
  unfold prv in Hn. rewrite Hh in Hn. split; [done|]. rewrite Hn. subst bs.
  apply scan_ok; [rewrite length_reverse; unfold bget_fuel; lia|done].
Qed.

(** ** The cache represents a block store *)

Definition flags_of (held dirty : bool) : Z :=
  2 + (if held then 1 else 0) + (if dirty then 4 else 0).

Inductive buf_ok (v : bview) (i : nat) (b : buf) : Prop :=
  | buf_unused :
      b_dev b = 4294967295 → b_flags b = 0 → bv_held v !! i = None → buf_ok v i b
  | buf_used :
      b_dev b = 1 → 0 ≤ b_blockno b < bv_len v →
      b_flags b = flags_of (bool_decide (is_Some (bv_held v !! i)))
                           (bool_decide (b_blockno b ∈ bv_pin v)) →
      (∀ x, bv_held v !! i = Some x → x = b_blockno b) →
      bv_cur v !! Z.to_nat (b_blockno b) = Some (b_data b) →
      (bv_held v !! i = None → b_blockno b ∉ bv_pin v →
       bv_disk v !! Z.to_nat (b_blockno b) = Some (b_data b)) →
      buf_ok v i b.

(** Buffer [i] caches block [x]. *)
Definition caches (bs : list buf) (i : nat) (b : buf) (x : Z) : Prop :=
  (i < NBUF)%nat ∧ bs !! i = Some b ∧ b_dev b = 1 ∧ b_blockno b = x.

Record core (bs : list buf) (v : bview) : Prop := {
  c_len : length bs = S NBUF;
  c_curlen : length (bv_cur v) = length (bv_disk v);
  c_lru : ∃ ord, lru_ok bs ord;
  c_buf i b : (i < NBUF)%nat → bs !! i = Some b → buf_ok v i b;
  c_inj i j bi bj x : caches bs i bi x → caches bs j bj x → i = j;
  c_cur x : 0 ≤ x → (∀ i b, ¬ caches bs i b x) →
            bv_cur v !! Z.to_nat x = bv_disk v !! Z.to_nat x;
  c_pin x : x ∈ bv_pin v → ∃ i b, caches bs i b x;
  c_held i x : bv_held v !! i = Some x → (i < NBUF)%nat;
}.

Record bio_inv (s : bstate) (v : bview) : Prop := {
  bi_quiet : quiet bcpu bclock s;
  bi_disk : memdisk s = bv_disk v;
  bi_writes : writes s = bv_writes v;
  bi_core : core (bufs s) v;
}.

Lemma core_held bs v i x :
  core bs v → bv_held v !! i = Some x →
  ∃ b, caches bs i b x ∧ 0 ≤ x < bv_len v ∧
       b_flags b = flags_of true (bool_decide (x ∈ bv_pin v)) ∧
       bv_cur v !! Z.to_nat x = Some (b_data b).
Proof.
  intros C H. pose proof (c_held _ _ C _ _ H) as Hi.
  destruct (lookup_lt_is_Some_2 bs i) as [b Hb]; [rewrite (c_len _ _ C); lia|].
  destruct (c_buf _ _ C i b Hi Hb) as [? ? ?|Hd Hr Hf Hx Hc _]; [congruence|].
  pose proof (Hx _ H). subst x. exists b. repeat split; try done; try lia.
  rewrite Hf. f_equal. apply bool_decide_eq_true_2. eauto.
Qed.

(** Two views that differ at buffer [i] and block [x] at most. *)
Record differ_at (i : nat) (x : Z) (v v' : bview) : Prop := {
  d_len : length (bv_disk v') = length (bv_disk v);
  d_curlen : length (bv_cur v') = length (bv_cur v);
  d_held j : j ≠ i → bv_held v' !! j = bv_held v !! j;
  d_pin y : y ≠ x → y ∈ bv_pin v' ↔ y ∈ bv_pin v;
  d_cur y : 0 ≤ y → y ≠ x → bv_cur v' !! Z.to_nat y = bv_cur v !! Z.to_nat y;
  d_disk y : 0 ≤ y → y ≠ x → bv_disk v' !! Z.to_nat y = bv_disk v !! Z.to_nat y;
}.

Lemma buf_ok_differ i x v v' j b :
  differ_at i x v v' → j ≠ i → (b_dev b = 1 → b_blockno b ≠ x) →
  buf_ok v j b → buf_ok v' j b.
Proof.
  intros D Hj Hx [H1 H2 H3|H1 H2 H3 H4 H5 H6].
  - apply buf_unused; try done. by rewrite (d_held _ _ _ _ D).
  - specialize (Hx H1). apply buf_used; rewrite ?(d_held _ _ _ _ D) by done; try done.
    + unfold bv_len in *. by rewrite (d_len _ _ _ _ D).
    + rewrite H3. f_equal. apply bool_decide_ext. by rewrite (d_pin _ _ _ _ D).
    + by rewrite (d_cur _ _ _ _ D) by (try done; lia).
    + rewrite (d_pin _ _ _ _ D), (d_disk _ _ _ _ D) by (try done; lia). done.
Qed.

(** Updating one buffer in place, its block number unchanged. *)
Lemma core_upd bs v v' i b b' x :
  core bs v → caches bs i b x → 0 ≤ x →
  b_next b' = b_next b → b_prev b' = b_prev b → b_dev b' = 1 → b_blockno b' = x →
  buf_ok v' i b' → differ_at i x v v' → core (<[i:=b']> bs) v'.
Proof.
  intros C (Hi & Hb & Hd & Hx) H0 Hn Hp Hd' Hx' Hok D.
  assert (Hc : ∀ j bj y, caches (<[i:=b']> bs) j bj y ↔
                 (j = i ∧ bj = b' ∧ y = x) ∨ (j ≠ i ∧ caches bs j bj y)).
  { intros j bj y. unfold caches.
    rewrite lookup_insert_case by (rewrite (c_len _ _ C); lia).
    case_decide as E; [subst j|]; naive_solver. }
  assert (Hother : ∀ j bj y, j ≠ i → caches bs j bj y → y ≠ x).
  { intros j bj y Hj Hc1 ->. apply Hj. eapply (c_inj _ _ C); [exact Hc1|]. by split. }
  split.
  - rewrite length_insert. apply C.
  - rewrite (d_len _ _ _ _ D), (d_curlen _ _ _ _ D). apply C.
  - destruct (c_lru _ _ C) as [ord ?]. exists ord. by eapply lru_same.
  - intros j bj Hj. rewrite lookup_insert_case by (rewrite (c_len _ _ C); lia).
    case_decide as E; [intros [= <-]; by subst j|]. intros Hbj.
    eapply buf_ok_differ; [exact D|done| |by apply (c_buf _ _ C)].
    intros Hdj. eapply (Hother j bj); [done|]. by split_and!.
  - intros j k bj bk y Hj%Hc Hk%Hc. destruct Hj as [(-> & -> & ->)|[Hj1 Hj]],
      Hk as [(-> & -> & E)|[Hk1 Hk]]; try done.
    + by eapply Hother in Hk.
    + subst y. by eapply Hother in Hj.
    + by eapply (c_inj _ _ C).
  - intros y Hy Hno. assert (y ≠ x) by (intros ->; apply (Hno i b'), Hc; by left).
    rewrite (d_cur _ _ _ _ D), (d_disk _ _ _ _ D) by done. apply (c_cur _ _ C); [done|].
    intros j bj Hj. apply (Hno j bj), Hc. right. split; [|done]. intros ->.
    destruct Hj as (_ & Hb2 & _ & Hy2). congruence.
  - intros y Hy. destruct (decide (y = x)) as [->|Hne]; [exists i, b'; apply Hc; by left|].
    rewrite (d_pin _ _ _ _ D) in Hy by done. destruct (c_pin _ _ C y Hy) as (j & bj & Hj).
    exists j, bj. apply Hc. right. split; [|done]. intros ->.
    destruct Hj as (_ & Hb2 & _ & Hy2). congruence.
  - intros j y Hj. destruct (decide (j = i)) as [->|Hne]; [done|].
    rewrite (d_held _ _ _ _ D) in Hj by done. by eapply (c_held _ _ C).
Qed.

(** Recycling a clean buffer nobody holds for a block that is not cached. *)
Lemma core_recycle bs v i b x d b' :
  core bs v → (i < NBUF)%nat → bs !! i = Some b →
  bv_held v !! i = None → (b_dev b = 1 → b_blockno b ∉ bv_pin v) →
  0 ≤ x → (∀ j bj, ¬ caches bs j bj x) → (∀ j, bv_held v !! j ≠ Some x) →
  bv_disk v !! Z.to_nat x = Some d →
  b_next b' = b_next b → b_prev b' = b_prev b →
  b_dev b' = 1 → b_blockno b' = x → b_flags b' = 3 → b_data b' = d →
  core (<[i:=b']> bs) (v_hold i x v).
Proof.
  intros C Hi Hb Hh Hnp H0 Hnc Hnh Hd Hn Hp Hd' Hx' Hf' Hdat.
  assert (Hc : ∀ j bj y, caches (<[i:=b']> bs) j bj y ↔
                 (j = i ∧ bj = b' ∧ y = x) ∨ (j ≠ i ∧ caches bs j bj y)).
  { intros j bj y. unfold caches.
    rewrite lookup_insert_case by (rewrite (c_len _ _ C); lia).
    case_decide as E; [subst j|]; naive_solver. }
  assert (Hxp : x ∉ bv_pin v) by (intros Hx; destruct (c_pin _ _ C x Hx) as (j & bj & ?); by eapply Hnc).
  assert (Hcur : bv_cur v !! Z.to_nat x = Some d) by (by rewrite (c_cur _ _ C)).
  split; simpl.
  - rewrite length_insert. apply C.
  - apply C.
  - destruct (c_lru _ _ C) as [ord ?]. exists ord. by eapply lru_same.
  - intros j bj Hj. rewrite lookup_insert_case by (rewrite (c_len _ _ C); lia).
    case_decide as E.
    + intros [= <-]. subst j. apply buf_used; simpl; rewrite ?lookup_insert_eq; try done.
      * rewrite Hx'. apply lookup_lt_Some in Hd. unfold bv_len. simpl. lia.
      * rewrite Hx', Hf'. rewrite bool_decide_eq_true_2 by eauto.
        by rewrite bool_decide_eq_false_2.
      * intros y. congruence.
      * by rewrite Hx', Hdat.
    + intros Hbj. destruct (c_buf _ _ C j bj Hj Hbj) as [? ? ?|? ? ? ? ? ?];
        [apply buf_unused|apply buf_used]; simpl; rewrite ?lookup_insert_ne by done; done.
  - intros j k bj bk y Hj%Hc Hk%Hc. destruct Hj as [(-> & -> & ->)|[Hj1 Hj]],
      Hk as [(-> & -> & E)|[Hk1 Hk]]; try done.
    + by apply Hnc in Hk.
    + subst y. by apply Hnc in Hj.
    + by eapply (c_inj _ _ C).
  - intros y Hy Hno. destruct (decide (b_dev b = 1 ∧ b_blockno b = y)) as [[E1 E2]|Hne].
    + destruct (c_buf _ _ C i b Hi Hb) as [? ? ?|_ _ _ _ E5 E6]; [congruence|].
      rewrite <-E2, E5, E6; auto.
    + apply (c_cur _ _ C); [done|]. intros j bj Hj. apply (Hno j bj), Hc. right.
      split; [|done]. intros ->. destruct Hj as (_ & Hb2 & ? & ?). apply Hne.
      split; congruence.
  - intros y Hy. destruct (c_pin _ _ C y Hy) as (j & bj & Hj). exists j, bj. apply Hc. right.
    split; [|done]. intros ->. destruct Hj as (_ & Hb2 & ? & ?).
    rewrite Hb in Hb2. simplify_eq. by apply Hnp.
  - intros j y. rewrite lookup_insert_Some. intros [[<- _]|[_ ?]]; [done|].
    by eapply (c_held _ _ C).
Qed.

Definition clean_at (bs : list buf) (i : nat) : bool :=
  match bs !! i with
  | Some b => negb (hasflag (b_flags b) B_BUSY) && negb (hasflag (b_flags b) B_DIRTY)
  | None => false
  end.

(** With fewer pinned blocks and held buffers than buffers, one is clean
    and not held. *)
Lemma core_room bs v :
  core bs v → (size (bv_pin v) + size (bv_held v) < NBUF)%nat →
  ∃ i b, (i < NBUF)%nat ∧ bs !! i = Some b ∧
         hasflag (b_flags b) B_BUSY = false ∧ hasflag (b_flags b) B_DIRTY = false.
Proof.
  intros C Hsz.
  set (used := filter (λ i, is_Some (bv_held v !! i)) (seq 0 NBUF)).
  set (rest := filter (λ i, ¬ is_Some (bv_held v !! i)) (seq 0 NBUF)).
  set (bno := λ i, match bs !! i with Some b => b_blockno b | None => 0 end).
  destruct (decide (Exists (λ i, clean_at bs i = true) (seq 0 NBUF))) as [H|H].
  { apply Exists_exists in H as (i & Hi%elem_of_seq & H). unfold clean_at in H.
    destruct (bs !! i) as [b|] eqn:E; [|done]. exists i, b. bool_facts.
    split_and!; [lia|done..]. }
  exfalso. apply not_Exists_Forall in H; [|apply _].
  assert (Hused : (length used ≤ size (bv_held v))%nat).
  { rewrite <-size_dom. rewrite <-(size_list_to_set (C:=gset nat) used)
      by (apply NoDup_filter, NoDup_seq). apply subseteq_size.
    intros i. unfold used. rewrite elem_of_list_to_set, list_elem_of_filter, elem_of_dom. tauto. }
  assert (Hdirty : ∀ i, i ∈ rest → ∃ b, caches bs i b (bno i) ∧ bno i ∈ bv_pin v).
  { intros i [Hno Hi]%list_elem_of_filter. rewrite Forall_forall in H. specialize (H i Hi).
    apply elem_of_seq in Hi. unfold bno, caches. unfold clean_at in H. simpl in H.
    destruct (lookup_lt_is_Some_2 bs i) as [b Hb]; [rewrite (c_len _ _ C); lia|].
    rewrite Hb in *. exists b. destruct (c_buf _ _ C i b) as [? Hf ?|? ? Hf ? ? ?]; [lia|done|..].
    - exfalso. by rewrite Hf in H.
    - split; [repeat split; try done; lia|]. destruct (decide (b_blockno b ∈ bv_pin v)); [done|].
      exfalso. rewrite Hf, !bool_decide_eq_false_2 in H by done. done. }
  assert (Hrest : (length rest ≤ size (bv_pin v))%nat).
  { rewrite <-(length_fmap bno rest).
    rewrite <-(size_list_to_set (C:=gset Z) (bno <$> rest)).
    - apply subseteq_size. intros x. rewrite elem_of_list_to_set, list_elem_of_fmap.
      intros (i & -> & (b & _ & ?)%Hdirty). done.
    - apply NoDup_fmap_2_strong; [|apply NoDup_filter, NoDup_seq].
      intros i j (bi & Ci & _)%Hdirty (bj & Cj & _)%Hdirty E. rewrite E in Ci.
      by eapply (c_inj _ _ C). }
  assert (length used + length rest = NBUF)%nat; [|lia].
  unfold used, rest. rewrite <-length_app, filter_app_complement. by rewrite length_seq.
Qed.

(** ** The operations *)

(** [s'] has the buffers [bs] and everything else like [s], locks free. *)
Record same_but (bs : list buf) (s s' : bstate) : Prop := {
  sb_bufs : bufs s' = bs;
  sb_quiet : quiet bcpu bclock s';
  sb_disk : memdisk s' = memdisk s;
  sb_writes : writes s' = writes s;
}.

Lemma leave_same bs s t :
  quiet bcpu bclock s → bufs t = bs → memdisk t = memdisk s → writes t = writes s →
  same_but bs s (leave bcpu bclock s t).
Proof. intros Hq H0 H1 H2. split; try done. apply leave_quiet; [apply _..|done]. Qed.

Lemma insert_twice {A} (l : list A) i x y : <[i:=x]> (<[i:=y]> l) = <[i:=x]> l.
Proof. apply list_insert_insert_eq. Qed.

Lemma caches_dec_false bs v ord x p :
  core bs v → lru_ok bs ord → spath b_next bs ord →
  (∀ b, p b = (b_dev b =? 1) && (b_blockno b =? x)) →
  findb p bs ord = None → ∀ i b, ¬ caches bs i b x.
Proof.
  intros C Hl Hs Hp Hf i b (Hi & Hb & Hd & Hx).
  pose proof (findb_none p bs ord b_next i b Hs Hf (lru_elem _ _ _ Hl Hi) Hb) as H.
  by rewrite Hp, Hd, Hx, !Z.eqb_refl in H.
Qed.

Lemma wp_bget s v x (Q : nat → bstate → Prop) :
  bio_inv s v → (∀ i, bv_held v !! i ≠ Some x) →
  (x ∈ bv_pin v ∨ (size (bv_pin v) + size (bv_held v) < NBUF)%nat) →
  (∀ i b s', caches (bufs s) i b x →
     same_but (<[i := set_flags (Z.lor (b_flags b) B_BUSY) b]> (bufs s)) s s' → Q i s') →
  (∀ i b s', (i < NBUF)%nat → bufs s !! i = Some b → (∀ j bj, ¬ caches (bufs s) j bj x) →
     hasflag (b_flags b) B_BUSY = false → hasflag (b_flags b) B_DIRTY = false →
     same_but (<[i := set_flags B_BUSY (set_id 1 x b)]> (bufs s)) s s' → Q i s') →
  wp (bget 1 x) Q s.
Proof.
  intros [Hq Hdk Hw C] Hnh Hroom Hhit Hmiss. destruct (c_lru _ _ C) as [ord Hl].
  destruct (lookup_lt_is_Some_2 (bufs s) NBUF) as [h Hh]; [rewrite (c_len _ _ C); lia|].
  set (p := λ b, (b_dev b =? 1) && (b_blockno b =? x)).
  set (s1 := acquired bcpu bclock s).
  destruct (scan_next_ok p (bufs s) ord h s1 eq_refl (c_len _ _ C) Hl Hh) as [Hsp Hscan].
  destruct (lru_range _ _ Hl) as (Hrange & _).
  unfold bget. wstep. apply wp_acquire; [apply _..|done|]. wstep. eapply wp_rd; [exact Hh|].
  wstep. eapply wp_run; [exact Hscan|]. destruct (findb p (bufs s) ord) as [i|] eqn:Ef.
  - apply findb_some in Ef as (Hi & b & Hb & Hpb). unfold p in Hpb. bool_facts.
    rewrite Forall_forall in Hrange. specialize (Hrange i Hi).
    wstep. eapply wp_rd; [exact Hb|].
    destruct (c_buf _ _ C i b) as [? ? ?|_ _ Hf Hhx _ _]; [done|done|congruence|].
    assert (Hno : bv_held v !! i = None).
    { destruct (bv_held v !! i) as [y|] eqn:E; [|done].
      exfalso. apply (Hnh i). rewrite E. f_equal. rewrite (Hhx y eq_refl). done. }
    replace (hasflag (b_flags b) B_BUSY) with false
      by (by rewrite Hf, Hno; destruct (bool_decide (b_blockno b ∈ bv_pin v))).
    simpl negb. cbv iota. wstep. eapply wp_upd; [exact Hb|]. wstep.
    eapply (wp_release bcpu bclock _ s); [done..|]. wstep.
    apply (Hhit i b); [by split|]. by apply leave_same.
  - pose proof (caches_dec_false _ _ _ x p C Hl Hsp (λ _, eq_refl) Ef) as Hnc.
    destruct Hroom as [Hx|Hroom].
    { destruct (c_pin _ _ C x Hx) as (i & b & Hc). by apply Hnc in Hc. }
    wstep. eapply wp_rd; [exact Hh|]. cbv beta.
    set (q := λ b, negb (hasflag (b_flags b) B_BUSY) && negb (hasflag (b_flags b) B_DIRTY)).
    destruct (scan_prev_ok q (bufs s) ord h s1 eq_refl (c_len _ _ C) Hl Hh) as [Hsp' Hscan'].
    wstep. eapply wp_run; [exact Hscan'|].
    destruct (findb q (bufs s) (reverse ord)) as [i|] eqn:Eq.
    + apply findb_some in Eq as (Hi & b & Hb & Hqb). unfold q in Hqb. bool_facts.
      rewrite elem_of_reverse in Hi. rewrite Forall_forall in Hrange.
      pose proof (lookup_lt_Some _ _ _ Hb).
      wstep. eapply wp_upd; [exact Hb|]. wstep. eapply wp_upd; [by apply list_lookup_insert_eq|].
      wstep. eapply (wp_release bcpu bclock _ s); [done..|]. wstep. simpl.
      apply (Hmiss i b); try done; [by apply Hrange|]. rewrite insert_twice. by apply leave_same.
    + destruct (core_room _ _ C Hroom) as (i & b & Hi & Hb & H1 & H2).
      pose proof (findb_none q (bufs s) _ b_prev i b Hsp' Eq) as H3.
      rewrite elem_of_reverse in H3. specialize (H3 (lru_elem _ _ _ Hl Hi) Hb).
      unfold q in H3. by rewrite H1, H2 in H3.
Qed.

Lemma iderw_read s i b d :
  bufs s !! i = Some b → b_flags b = 1 → b_dev b = 1 →
  b_blockno b < Z.of_nat (length (memdisk s)) → memdisk s !! Z.to_nat (b_blockno b) = Some d →
  iderw i s = Ret tt (set_bufs (<[i := set_flags 3 (set_data d b)]> (bufs s)) s).
Proof.
  intros Hb Hf Hd Hr Hm. pose proof (lookup_lt_Some _ _ _ Hb).
  unfold iderw, mbind, M_bind, rd, gets. rewrite Hb. rewrite Hf, Hd. simpl.
  replace (_ <=? b_blockno b) with false by (symmetry; apply Z.leb_gt; lia).
  simpl. rewrite Hm. simpl. unfold mret, M_ret, upd. rewrite Hb. simpl.
  rewrite list_lookup_insert_eq by done. rewrite insert_twice. simpl. by rewrite Hf.
Qed.

(** A write clears B_DIRTY and puts the data on disk. *)
Lemma iderw_write s i b :
  bufs s !! i = Some b → b_flags b = 7 → b_dev b = 1 →
  b_blockno b < Z.of_nat (length (memdisk s)) →
  iderw i s = Ret tt (set_bufs (<[i := set_flags 3 b]> (bufs s))
                        (write_disk (b_blockno b) (b_data b) s)).
Proof.
  intros Hb Hf Hd Hr. pose proof (lookup_lt_Some _ _ _ Hb).
  unfold iderw, mbind, M_bind, rd, gets, upd, modify. rewrite Hb. rewrite Hf, Hd. simpl.
  replace (_ <=? b_blockno b) with false by (symmetry; apply Z.leb_gt; lia).
  rewrite Hb. simpl. rewrite list_lookup_insert_eq by done. simpl.
  rewrite list_lookup_insert_eq by done. simpl. rewrite insert_twice, Hf. done.
Qed.

Lemma caches_buf_ok bs v i b x :
  core bs v → caches bs i b x →
  0 ≤ x < bv_len v ∧
  b_flags b = flags_of (bool_decide (is_Some (bv_held v !! i))) (bool_decide (x ∈ bv_pin v)) ∧
  (∀ y, bv_held v !! i = Some y → y = x) ∧
  bv_cur v !! Z.to_nat x = Some (b_data b) ∧
  (bv_held v !! i = None → x ∉ bv_pin v → bv_disk v !! Z.to_nat x = Some (b_data b)).
Proof.
  intros C (Hi & Hb & Hd & <-). destruct (c_buf _ _ C i b Hi Hb) as [? ? ?|]; [congruence|done].
Qed.

Lemma differ_hold i x v : differ_at i x v (v_hold i x v).
Proof. split; try done. intros j Hj. simpl. by rewrite lookup_insert_ne. Qed.
Lemma differ_unhold i x v : differ_at i x v (v_unhold i v).
Proof. split; try done. intros j Hj. simpl. by rewrite lookup_delete_ne. Qed.
Lemma differ_pin i x v : differ_at i x v (v_pin x v).
Proof. split; try done. intros y Hy. simpl. set_solver. Qed.
Lemma differ_set i x d v : 0 ≤ x → differ_at i x v (v_set x d v).
Proof.
  intros H. split; try done; simpl; [by rewrite length_insert|].
  intros y Hy Hne. rewrite list_lookup_insert_ne; [done|]. lia.
Qed.
Lemma differ_write i x d v : 0 ≤ x → differ_at i x v (v_write x d v).
Proof.
  intros H. split; try done; simpl; [by rewrite length_insert|set_solver|].
  intros y Hy Hne. rewrite list_lookup_insert_ne; [done|]. lia.
Qed.

Lemma core_hold_hit bs v i b x :
  core bs v → caches bs i b x → bv_held v !! i = None →
  core (<[i := set_flags (Z.lor (b_flags b) B_BUSY) b]> bs) (v_hold i x v).
Proof.
  intros C Hc Hno. destruct (caches_buf_ok _ _ _ _ _ C Hc) as (Hr & Hf & Hh & Hcur & Hdk).
  pose proof Hc as (Hi & Hb & Hd & Hx).
  eapply (core_upd bs v); [done|exact Hc|lia|done..| |apply differ_hold].
  apply buf_used; simpl; rewrite ?Hx, ?lookup_insert_eq; try done.
  - rewrite Hf, Hno. rewrite (bool_decide_eq_true_2 (is_Some (Some x))) by eauto.
    by destruct (bool_decide (x ∈ bv_pin v)).
  - intros y. congruence.
Qed.

Lemma wp_bread s v x (Q : nat → bstate → Prop) :
  bio_inv s v → 0 ≤ x < bv_len v → (∀ i, bv_held v !! i ≠ Some x) →
  (x ∈ bv_pin v ∨ (size (bv_pin v) + size (bv_held v) < NBUF)%nat) →
  (∀ i s', bv_held v !! i = None → bio_inv s' (v_hold i x v) → Q i s') →
  wp (bread 1 x) Q s.
Proof.
  intros Hinv Hx Hnh Hroom HQ. pose proof Hinv as [Hq Hdk Hw C].
  unfold bread. wstep. eapply wp_bget; [exact Hinv|done|done|..].
  - intros i b s' Hc [Hbs Hq' Hd' Hw'].
    destruct (caches_buf_ok _ _ _ _ _ C Hc) as (Hr & Hf & Hh & Hcur & _).
    assert (Hno : bv_held v !! i = None).
    { destruct (bv_held v !! i) as [y|] eqn:E; [|done]. exfalso. apply (Hnh i).
      by rewrite E, (Hh y). }
    pose proof Hc as (_ & Hb & _). wstep. eapply wp_rd.
    { rewrite Hbs. apply list_lookup_insert_eq. by eapply lookup_lt_Some. }
    simpl b_flags. replace (hasflag (Z.lor (b_flags b) B_BUSY) B_VALID) with true
      by (by rewrite Hf, Hno; destruct (bool_decide (x ∈ bv_pin v))).
    simpl negb. cbv iota. wsteps. apply HQ; [done|].
    split; simpl; try congruence. rewrite Hbs. by apply core_hold_hit.
  - intros i b s' Hi Hb Hnc H1 H2 [Hbs Hq' Hd' Hw'].
    destruct (lookup_lt_is_Some_2 (bv_disk v) (Z.to_nat x)) as [d Hd]; [unfold bv_len in Hx; lia|].
    pose proof (lookup_lt_Some _ _ _ Hb) as Hlt.
    assert (Hb' : bufs s' !! i = Some (set_flags B_BUSY (set_id 1 x b)))
      by (rewrite Hbs; by apply list_lookup_insert_eq).
    wstep. eapply wp_rd; [exact Hb'|]. simpl.
    wstep. eapply wp_run.
    { apply (iderw_read s' i _ d Hb'); try done; rewrite Hd', Hdk; [|done]. simpl. unfold bv_len in Hx. lia. }
    wstep. assert (Hno : bv_held v !! i = None).
    { destruct (c_buf _ _ C i b Hi Hb) as [? ? ?|_ _ Hf _ _ _]; [done|].
      destruct (bv_held v !! i) as [y|] eqn:E; [|done]. rewrite Hf in H1.
      rewrite bool_decide_eq_true_2 in H1 by eauto.
      by destruct (bool_decide (b_blockno b ∈ bv_pin v)). }
    apply HQ; [done|]. split; [exact Hq'|simpl; congruence..|]. simpl. rewrite Hbs, insert_twice.
    eapply (core_recycle _ _ _ b); try done; [|lia].
    intros Hdev Hp. destruct (c_buf _ _ C i b Hi Hb) as [? ? ?|_ _ Hf _ _ _]; [congruence|].
    rewrite Hf, Hno, (bool_decide_eq_true_2 (_ ∈ _)) in H2 by done. done.
Qed.

Lemma wp_bwrite s v i x d (Q : unit → bstate → Prop) :
  bio_inv s v → bv_held v !! i = Some x → bv_cur v !! Z.to_nat x = Some d →
  (∀ s', bio_inv s' (v_write x d v) → Q tt s') → wp (bwrite i) Q s.
Proof.
  intros [Hq Hdk Hw C] Hh Hd HQ.
  destruct (core_held _ _ _ _ C Hh) as (b & Hc & Hr & Hf & Hcur). pose proof Hc as (Hi & Hb & Hdev & Hx).
  assert (b_data b = d) as <- by congruence. pose proof (lookup_lt_Some _ _ _ Hb) as Hlt.
  unfold bwrite. wstep. eapply wp_rd; [exact Hb|].
  replace (hasflag (b_flags b) B_BUSY) with true
    by (by rewrite Hf; destruct (bool_decide (x ∈ bv_pin v))).
  simpl negb. cbv iota. wstep. eapply wp_upd; [exact Hb|].
  eapply wp_run; [apply iderw_write; simpl|].
  { by apply list_lookup_insert_eq. }
  { simpl. rewrite Hf. by destruct (bool_decide (x ∈ bv_pin v)). }
  { done. }
  { simpl. rewrite Hdk, Hx. apply Hr. }
  apply HQ. simpl. rewrite insert_twice. split; [exact Hq|simpl..].
  - by rewrite Hdk, Hx.
  - by rewrite Hw, Hx.
  - eapply (core_upd _ v); [done|exact Hc|lia|done..| |apply differ_write; lia].
    apply buf_used; simpl; rewrite ?Hx; try done.
    + unfold bv_len. simpl. by rewrite length_insert.
    + rewrite Hh, bool_decide_eq_true_2 by eauto. by rewrite bool_decide_eq_false_2 by set_solver.
    + intros y. congruence.
    + intros _ _. apply list_lookup_insert_eq. unfold bv_len in Hr. lia.
Qed.

(** ** brelse: moving a buffer to the front *)

Definition content (b : buf) : Z * Z * Z * block :=
  (b_flags b, b_dev b, b_blockno b, b_data b).

(** [bs] is [bs0] with its links replaced by [nx] and [pv]. *)
Record relink (nx pv : nat → nat) (bs0 bs : list buf) : Prop := {
  rl_len : length bs = length bs0;
  rl_next x : nxt bs x = nx x;
  rl_prev x : prv bs x = pv x;
  rl_content j : content <$> bs !! j = content <$> bs0 !! j;
}.

Lemma relink_rd nx pv bs0 s i (Q : buf → bstate → Prop) :
  relink nx pv bs0 (bufs s) → (i < length bs0)%nat →
  (∀ b, b_next b = nx i → b_prev b = pv i → Q b s) → wp (rd i) Q s.
Proof.
  intros R Hi HQ. destruct (lookup_lt_is_Some_2 (bufs s) i) as [b Hb];
    [by rewrite (rl_len _ _ _ _ R)|].
  eapply wp_rd; [exact Hb|]. pose proof (rl_next _ _ _ _ R i). pose proof (rl_prev _ _ _ _ R i).
  unfold nxt, prv in *. rewrite Hb in *. by apply HQ.
Qed.

Lemma relink_set nx pv bs0 s i f (Q : unit → bstate → Prop) nx' pv' :
  relink nx pv bs0 (bufs s) → (i < length bs0)%nat → (∀ b, content (f b) = content b) →
  (∀ b, b_next b = nx i → b_prev b = pv i →
        (∀ x, <[i := b_next (f b)]> nx x = nx' x) ∧ (∀ x, <[i := b_prev (f b)]> pv x = pv' x)) →
  (∀ bs, relink nx' pv' bs0 bs → Q tt (set_bufs bs s)) → wp (upd i f) Q s.
Proof.
  intros R Hi Hf Hl HQ. pose proof (rl_len _ _ _ _ R) as Hlen.
  destruct (lookup_lt_is_Some_2 (bufs s) i) as [b Hb]; [lia|].
  eapply wp_upd; [exact Hb|]. apply HQ.
  pose proof (rl_next _ _ _ _ R) as Hn. pose proof (rl_prev _ _ _ _ R) as Hp.
  destruct (Hl b) as [H1 H2]; [rewrite <-Hn; unfold nxt; by rewrite Hb|
    rewrite <-Hp; unfold prv; by rewrite Hb|].
  split; [by rewrite length_insert|intros x..|].
  - rewrite nxt_insert by lia. rewrite <-H1. destruct (decide (i = x)) as [->|];
      [by rewrite !fn_lookup_insert|by rewrite !fn_lookup_insert_ne].
  - rewrite prv_insert by lia. rewrite <-H2. destruct (decide (i = x)) as [->|];
      [by rewrite !fn_lookup_insert|by rewrite !fn_lookup_insert_ne].
  - intros j. rewrite lookup_insert_case by lia. rewrite <-(rl_content _ _ _ _ R).
    case_decide as E; [subst j; rewrite Hb; simpl; by rewrite Hf|done].
Qed.

Lemma fn_insert_id {A} (f : nat → A) i a x : f i = a → <[i:=a]> f x = f x.
Proof.
  intros <-. destruct (decide (i = x)) as [->|];
    [by rewrite fn_lookup_insert|by rewrite fn_lookup_insert_ne].
Qed.

Lemma relink_next nx pv bs0 s i w (Q : unit → bstate → Prop) :
  relink nx pv bs0 (bufs s) → (i < length bs0)%nat →
  (∀ bs, relink (<[i:=w]> nx) pv bs0 bs → Q tt (set_bufs bs s)) → wp (upd i (set_next w)) Q s.
Proof.
  intros R Hi. eapply relink_set; [done..|]. intros b H1 H2. split; [done|].
  intros x. by apply fn_insert_id.
Qed.

Lemma relink_prev nx pv bs0 s i w (Q : unit → bstate → Prop) :
  relink nx pv bs0 (bufs s) → (i < length bs0)%nat →
  (∀ bs, relink nx (<[i:=w]> pv) bs0 bs → Q tt (set_bufs bs s)) → wp (upd i (set_prev w)) Q s.
Proof.
  intros R Hi. eapply relink_set; [done..|]. intros b H1 H2. split; [|done].
  intros x. by apply fn_insert_id.
Qed.

Lemma core_content bs0 bs v ord :
  core bs0 v → length bs = length bs0 → (∀ j, content <$> bs !! j = content <$> bs0 !! j) →
  lru_ok bs ord → core bs v.
Proof.
  intros C Hlen Hc Hl.
  assert (Hb : ∀ j b, bs !! j = Some b → ∃ b0, bs0 !! j = Some b0 ∧ content b0 = content b).
  { intros j b Hj. specialize (Hc j). rewrite Hj in Hc.
    destruct (bs0 !! j) as [b0|]; [|done]. exists b0. split; [done|].
    change (Some (content b) = Some (content b0)) in Hc. congruence. }
  assert (Hb0 : ∀ j b, bs0 !! j = Some b → ∃ b0, bs !! j = Some b0 ∧ content b0 = content b).
  { intros j b Hj. specialize (Hc j). rewrite Hj in Hc.
    destruct (bs !! j) as [b0|]; [|done]. exists b0. split; [done|].
    change (Some (content b0) = Some (content b)) in Hc. congruence. }
  assert (Hca : ∀ i b x, caches bs i b x → ∃ b0, caches bs0 i b0 x).
  { intros i b x (Hi & Hbi & Hd & Hx). destruct (Hb i b Hbi) as (b0 & H0 & [=]).
    exists b0. split_and!; congruence. }
  assert (Hca0 : ∀ i b x, caches bs0 i b x → ∃ b0, caches bs i b0 x).
  { intros i b x (Hi & Hbi & Hd & Hx). destruct (Hb0 i b Hbi) as (b0 & H0 & [=]).
    exists b0. split_and!; congruence. }
  split.
  - rewrite Hlen. apply C.
  - apply C.
  - by exists ord.
  - intros i b Hi Hbi. destruct (Hb i b Hbi) as (b0 & H0 & [= E1 E2 E3 E4]).
    destruct (c_buf _ _ C i b0 Hi H0) as [? ? ?|? ? ? ? ? ?];
      [apply buf_unused|apply buf_used]; rewrite <-?E1, <-?E2, <-?E3, <-?E4; done.
  - intros i j bi bj x Hi Hj. destruct (Hca _ _ _ Hi) as (? & ?), (Hca _ _ _ Hj) as (? & ?).
    by eapply (c_inj _ _ C).
  - intros x Hx Hno. apply (c_cur _ _ C); [done|]. intros i b Hi.
    destruct (Hca0 _ _ _ Hi) as (? & ?). by eapply Hno.
  - intros x Hx. destruct (c_pin _ _ C x Hx) as (i & b & Hi).
    destruct (Hca0 _ _ _ Hi) as (b' & ?). by exists i, b'.
  - apply C.
Qed.

(** Unlinking [b] and pushing it in front of the list head [h]. *)
Lemma linked_mru (nx pv : nat → nat) h b o1 o2 :
  NoDup (h :: o1 ++ b :: o2) → linked nx pv (h :: (o1 ++ b :: o2) ++ [h]) →
  nx b ≠ b ∧ pv b ≠ b ∧ (nx b ∈ o2 ∨ nx b = h) ∧ (pv b = h ∨ pv b ∈ o1) ∧
  let pv1 := <[nx b := pv b]> pv in let nx1 := <[pv b := nx b]> nx in
  linked (<[h:=b]> (<[b := nx1 h]> nx1)) (<[nx1 h := b]> (<[b := h]> pv1))
    (h :: b :: o1 ++ o2 ++ [h]) ∧ nx1 h ≠ b ∧ nx1 h ∈ o1 ++ o2 ++ [h].
Proof.
  intros Hn Hl. apply NoDup_cons in Hn as [Hh Hn].
  apply NoDup_app in Hn as (Hn1 & Hd & Hn2). apply NoDup_cons in Hn2 as [Hb2 Hn2].
  assert (Hb1 : b ∉ o1) by (intros H; apply (Hd b H); set_solver).
  assert (Hd' : ∀ x, x ∈ o1 → x ∉ o2) by (intros x H1 H2; apply (Hd x H1); set_solver).
  assert (h ∉ o1 ∧ h ≠ b ∧ h ∉ o2) as (Hh1 & Hhb & Hh2) by set_solver.
  (* the neighbours of [b] in the circular list *)
  assert (∃ l a, h :: o1 = l ++ [a]) as (l & a & Ea)
    by (destruct (exists_last (l:=h :: o1)) as (l & a & ?); [done|by exists l, a]).
  assert (∃ c r, o2 ++ [h] = c :: r) as (c & r & Er) by (destruct o2; simpl; eauto).
  assert (El : h :: (o1 ++ b :: o2) ++ [h] = l ++ a :: b :: c :: r).
  { rewrite <-app_assoc. simpl. rewrite Er. change (h :: o1 ++ b :: c :: r) with ((h :: o1) ++ b :: c :: r).
    by rewrite Ea, <-app_assoc. }
  rewrite El in Hl. assert (Hla := Hl). apply linked_app in Hla as [_ (Hab & Hba & Hbc & Hcb & _)].
  assert (Ha : a = h ∨ a ∈ o1).
  { apply elem_of_cons. rewrite Ea. apply elem_of_app. right. by apply list_elem_of_singleton. }
  assert (Hc : c ∈ o2 ∨ c = h).
  { rewrite <-(list_elem_of_singleton c h), <-elem_of_app, Er. by left. }
  assert (Hncr : NoDup (c :: r)).
  { rewrite <-Er. apply NoDup_app. split_and!; [done| |apply NoDup_singleton].
    intros x Hx ->%list_elem_of_singleton. done. }
  assert (Hbcr : b ∉ c :: r).
  { rewrite <-Er, elem_of_app, list_elem_of_singleton. intros [?|?]; congruence. }
  rewrite Hba, Hbc. cbv zeta.
  assert (c ≠ b ∧ a ≠ b) as [Hcb' Hab'] by (split; intros ->; naive_solver).
  do 4 (split; [done|]). apply linked_unlink in Hl.
  - replace (l ++ a :: c :: r) with (h :: o1 ++ o2 ++ [h]) in Hl
      by (rewrite Er; change (h :: o1 ++ c :: r) with ((h :: o1) ++ c :: r); by rewrite Ea, <-app_assoc).
    destruct (o1 ++ o2 ++ [h]) as [|c' r'] eqn:Er'; [by destruct o1, o2|].
    assert (Hc' : <[a:=c]> nx h = c') by apply Hl. rewrite Hc'.
    assert (Hb' : b ∉ c' :: r').
    { rewrite <-Er', !elem_of_app, list_elem_of_singleton. intros [?|[?|?]]; congruence. }
    split_and!; [|intros ->; apply Hb'; by left|by left]. apply linked_push; try done.
    + rewrite <-Er', Er. apply NoDup_app. split_and!; try done.
      intros x Hx. rewrite <-Er, elem_of_app, list_elem_of_singleton.
      intros [?| ->]; [by apply (Hd' x)|done].
    + intros l' z E. rewrite <-Er', app_assoc in E. apply app_inj_tail in E as [<- _].
      rewrite elem_of_app. tauto.
  - change (l ++ [a; b]) with (l ++ [a] ++ [b]). rewrite app_assoc, <-Ea. apply NoDup_app. split_and!.
    + by apply NoDup_cons.
    + intros x Hx ->%list_elem_of_singleton. apply elem_of_cons in Hx as [?|?]; congruence.
    + apply NoDup_singleton.
  - by apply NoDup_cons.
  - intros l' z E. rewrite <-Er in E. apply app_inj_tail in E as [<- _].
    destruct Ha as [->|Ha]; [done|by apply Hd'].
  - rewrite <-Ea. simpl. intros Hc1. destruct Hc as [Hc| ->]; [by apply (Hd' c)|done].
Qed.

Lemma wp_brelse s v i x (Q : unit → bstate → Prop) :
  bio_inv s v → bv_held v !! i = Some x →
  (x ∈ bv_pin v ∨ bv_cur v !! Z.to_nat x = bv_disk v !! Z.to_nat x) →
  (∀ s', bio_inv s' (v_unhold i v) → Q tt s') → wp (brelse i) Q s.
Proof.
  intros [Hq Hdk Hw C] Hh Hclean HQ.
  destruct (core_held _ _ _ _ C Hh) as (b & Hc & Hr & Hf & Hcur). pose proof Hc as (Hi & Hb & Hdev & Hx).
  pose proof (c_len _ _ C) as Hlen. destruct (c_lru _ _ C) as [ord Hl].
  pose proof (lru_elem _ _ _ Hl Hi) as (o1 & o2 & Eo)%list_elem_of_split.
  destruct (lru_range _ _ Hl) as (Hran & Hnd & _). destruct Hl as [Hperm Hl]. subst ord.
  assert (Hnd' : NoDup (NBUF :: o1 ++ i :: o2)).
  { apply NoDup_cons. split; [|done]. intros Hin. rewrite Forall_forall in Hran.
    apply Hran in Hin. lia. }
  assert (R : relink (nxt (bufs s)) (prv (bufs s)) (bufs s) (bufs s)) by done.
  destruct (linked_mru _ _ _ _ _ _ Hnd' Hl) as (Hn1 & Hp1 & Hn2 & Hp2 & Hlk & Hhd & Hhd2).
  set (nx := nxt (bufs s)) in *. set (pv := prv (bufs s)) in *.
  assert (Hin : ∀ y, y ∈ o1 ++ o2 ∨ y = NBUF → (y < length (bufs s))%nat).
  { intros y. rewrite Hlen. rewrite Forall_app, Forall_cons, !Forall_forall in Hran.
    destruct Hran as (Hr1 & _ & Hr2). rewrite elem_of_app.
    intros [[Hy|Hy]| ->]; [apply Hr1 in Hy|apply Hr2 in Hy|]; lia. }
  assert (Hi' : (i < length (bufs s))%nat) by lia.
  assert (HN : (NBUF < length (bufs s))%nat) by lia.
  assert (H1 : (nx i < length (bufs s))%nat) by (apply Hin; rewrite elem_of_app; tauto).
  assert (H2 : (pv i < length (bufs s))%nat) by (apply Hin; rewrite elem_of_app; tauto).
  set (nx1 := <[pv i := nx i]> nx) in *. set (pv1 := <[nx i := pv i]> pv) in *.
  assert (H3 : (nx1 NBUF < length (bufs s))%nat).
  { apply Hin. rewrite app_assoc, elem_of_app, list_elem_of_singleton in Hhd2. done. }
  assert (Hiv : pv1 i = pv i) by (by apply fn_lookup_insert_ne).
  unfold brelse. wstep. eapply wp_rd; [exact Hb|].
  replace (hasflag (b_flags b) B_BUSY) with true
    by (by rewrite Hf; destruct (bool_decide (x ∈ bv_pin v))).
  simpl negb. cbv iota. wstep. apply wp_acquire; [apply _..|done|].
  wstep. eapply relink_rd; [exact R|done|]. intros b1 -> ->.
  wstep. eapply relink_prev; [exact R|done|]. clear R. intros bs1 R. fold pv1 in R.
  wstep. eapply relink_rd; [exact R|done|]. intros b2 -> ->. rewrite Hiv.
  wstep. eapply relink_next; [exact R|done|]. clear R. intros bs2 R. fold nx1 in R.
  wstep. eapply relink_rd; [exact R|done|]. intros b3 -> _.
  wstep. eapply relink_next; [exact R|done|]. clear R. intros bs3 R.
  wstep. eapply relink_prev; [exact R|done|]. clear R. intros bs4 R.
  wstep. eapply relink_rd; [exact R|done|]. intros b4 -> _.
  assert (Hni : i ≠ NBUF) by lia. rewrite fn_lookup_insert_ne by done.
  wstep. eapply relink_prev; [exact R|done|]. clear R. intros bs5 R.
  wstep. eapply relink_next; [exact R|done|]. clear R. intros bs6 R.
  assert (C' : core bs6 v).
  { eapply (core_content (bufs s) _ _ (i :: o1 ++ o2)); [done|apply R|apply R|].
    split; [by rewrite <-Hperm, Permutation_middle|].
    eapply linked_ext; [apply R|apply R|]. simpl. by rewrite <-app_assoc. }
  wstep. simpl. destruct (core_held _ _ _ _ C' Hh) as (b' & Hc' & _ & Hf' & Hcur').
  pose proof Hc' as (_ & Hb' & Hdev' & Hx'). eapply wp_upd; [exact Hb'|].
  wstep. wstep. eapply (wp_release bcpu bclock _ s); [done..|]. apply HQ.
  split; [apply leave_quiet; [apply _..|done]|done..|]. simpl.
  eapply core_upd; [exact C'|exact Hc'|lia|done..| |apply differ_unhold].
  apply buf_used; simpl; rewrite ?lookup_delete_eq, ?Hx'; try done.
  - rewrite Hf'. by destruct (bool_decide (x ∈ bv_pin v)).
  - intros _ Hnp. destruct Hclean as [?|E]; [done|congruence].
Qed.

Definition bsetdata (i : nat) (d : block) : M bstate unit := upd i (set_data d).
Definition bsetdirty (i : nat) : M bstate unit :=
  upd i (λ b, set_flags (Z.lor (b_flags b) B_DIRTY) b).

Lemma wp_bsetdata s v i x d (Q : unit → bstate → Prop) :
  bio_inv s v → bv_held v !! i = Some x →
  (∀ s', bio_inv s' (v_set x d v) → Q tt s') → wp (bsetdata i d) Q s.
Proof.
  intros [Hq Hdk Hw C] Hh HQ.
  destruct (core_held _ _ _ _ C Hh) as (b & Hc & Hr & Hf & Hcur). pose proof Hc as (Hi & Hb & Hdev & Hx).
  eapply wp_upd; [exact Hb|]. apply HQ. split; [exact Hq|done..|].
  eapply core_upd; [exact C|exact Hc|lia|done..| |apply differ_set; lia].
  apply buf_used; simpl; rewrite ?Hx, ?Hh; try done.
  - intros y. congruence.
  - apply list_lookup_insert_eq. rewrite (c_curlen _ _ C). unfold bv_len in Hr. lia.
Qed.

Lemma wp_bsetdirty s v i x (Q : unit → bstate → Prop) :
  bio_inv s v → bv_held v !! i = Some x →
  (∀ s', bio_inv s' (v_pin x v) → lget bcpu s' = lget bcpu s → Q tt s') →
  wp (bsetdirty i) Q s.
Proof.
  intros [Hq Hdk Hw C] Hh HQ.
  destruct (core_held _ _ _ _ C Hh) as (b & Hc & Hr & Hf & Hcur). pose proof Hc as (Hi & Hb & Hdev & Hx).
  eapply wp_upd; [exact Hb|]. apply HQ; [|done]. split; [exact Hq|done..|].
  eapply core_upd; [exact C|exact Hc|lia|done..| |apply differ_pin].
  apply buf_used; simpl; rewrite ?Hx, ?Hh; try done.
  - rewrite (bool_decide_eq_true_2 (x ∈ {[x]} ∪ _)) by set_solver. rewrite Hf. by destruct (bool_decide (x ∈ bv_pin v)).
  - intros y. congruence.
Qed.

Lemma bio_data s v i x :
  bio_inv s v → bv_held v !! i = Some x →
  b_blockno <$> bufs s !! i = Some x ∧ 0 ≤ x < bv_len v ∧
  ∃ d, b_data <$> bufs s !! i = Some d ∧ bv_cur v !! Z.to_nat x = Some d.
Proof.
  intros [Hq Hdk Hw C] Hh.
  destruct (core_held _ _ _ _ C Hh) as (b & (Hi & Hb & Hdev & Hx) & Hr & Hf & Hcur).
  rewrite Hb. simpl. rewrite Hx. split_and!; try done; [lia..|]. by exists (b_data b).
Qed.

Lemma bio_cpu_ok s v : bio_inv s v → cpu_ok (lget bcpu s).
Proof. intros H. apply (bi_quiet _ _ H). Qed.

Lemma bio_setcpu s v c : bio_inv s v → cpu_ok c → bio_inv (lput bcpu c s) v.
Proof. intros [[Hl _] H1 H2 H3] Hc. by split. Qed.

Lemma bio_len s v : bio_inv s v → length (bv_cur v) = length (bv_disk v).
Proof. intros H. apply (c_curlen _ _ (bi_core _ _ H)). Qed.

(** A block that is neither held nor pinned is on disk as the cache has it. *)
Lemma bio_clean s v x :
  bio_inv s v → 0 ≤ x → x ∉ bv_pin v → (∀ i, bv_held v !! i ≠ Some x) →
  bv_cur v !! Z.to_nat x = bv_disk v !! Z.to_nat x.
Proof.
  intros [_ _ _ C] Hx Hp Hh.
  destruct (decide (Exists (λ i, match bufs s !! i with
                                 | Some b => (b_dev b =? 1) && (b_blockno b =? x)
                                 | None => false end = true) (seq 0 NBUF))) as [H|H].
  - apply Exists_exists in H as (i & Hi%elem_of_seq & H).
    destruct (bufs s !! i) as [b|] eqn:Hb; [|done]. bool_facts.
    assert (Hc : caches (bufs s) i b x) by (split_and!; [lia|done..]).
    destruct (caches_buf_ok _ _ _ _ _ C Hc) as (_ & _ & Hy & Hcur & Hdk).
    rewrite Hcur. symmetry. apply Hdk; [|done].
    destruct (bv_held v !! i) as [y|] eqn:E; [|done]. exfalso. apply (Hh i). by rewrite E, (Hy y).
  - apply not_Exists_Forall in H; [|apply _]. rewrite Forall_forall in H.
    apply (c_cur _ _ C); [done|]. intros i b (Hi & Hb & Hd & Hxb).
    apply (H i); [apply elem_of_seq; lia|]. by rewrite Hb, Hd, Hxb, !Z.eqb_refl.
Qed.

(** The pointer-level cache implements the interface. *)
#[export] Instance bcache_ok : BufferCache bstate := {|
  bc_bread := bread;
  bc_bwrite := bwrite;
  bc_brelse := brelse;
  bc_data i s := b_data <$> bufs s !! i;
  bc_setdata := bsetdata;
  bc_blockno i s := b_blockno <$> bufs s !! i;
  bc_setdirty := bsetdirty;
  bc_cpu := bcpu;
  bc_rel := bio_inv;
  bc_cpu_ok := bcpu_ok;
  bc_rel_cpu := bio_cpu_ok;
  bc_rel_setcpu := bio_setcpu;
  bc_rel_len := bio_len;
  bc_rel_clean := bio_clean;
  bread_law := wp_bread;
  data_law := bio_data;
  setdata_law := wp_bsetdata;
  setdirty_law := wp_bsetdirty;
  bwrite_law := wp_bwrite;
  brelse_law := wp_brelse;
|}.

(** ** Boot *)

(** bcache before binit: static storage, all zero; [z] is a block of zeros. *)
Definition zerobuf (z : block) : buf := mkBuf 0 0 0 0 0 None z.
Definition boot (c : cpu) (l : spinlock) (z : block) (disk : list block) : bstate :=
  mkBst c l (replicate (S NBUF) (zerobuf z)) disk [] [].

(** The buffers binit leaves: buffer 29 is the most recently used. *)
Definition binit_bufs (z : block) : list buf :=
  ((λ i, mkBuf 0 4294967295 0 (if decide (i = 29%nat) then NBUF else S i)
           (match i with O => NBUF | S j => j end) None z) <$> seq 0 NBUF) ++
  [mkBuf 0 0 0 0 29 None z].

Definition view0 (disk : list block) : bview := mkBv disk disk ∅ ∅ [].

Lemma binit_run c l z disk :
  binit (boot c l z disk) = Ret tt (mkBst c (initlock "bcache" l) (binit_bufs z) disk [] []).
Proof. vm_compute. reflexivity. Qed.

Lemma binit_buf_facts z :
  forallb (λ i, match binit_bufs z !! i with
                | Some b => (b_dev b =? 4294967295) && (b_flags b =? 0)
                | None => false end) (seq 0 NBUF) = true.
Proof. vm_compute. reflexivity. Qed.

Lemma binit_core z disk : core (binit_bufs z) (view0 disk).
Proof.
  assert (Hf : ∀ i b, (i < NBUF)%nat → binit_bufs z !! i = Some b →
                 b_dev b = 4294967295 ∧ b_flags b = 0).
  { intros i b Hi Hb. pose proof (binit_buf_facts z) as H. rewrite forallb_forall in H.
    specialize (H i). rewrite Hb in H.
    specialize (H ltac:(apply list_elem_of_In, elem_of_seq; lia)). by bool_facts. }
  split; simpl.
  - by vm_compute.
  - done.
  - exists (reverse (seq 0 NBUF)). split; [by rewrite reverse_Permutation|].
    vm_compute. tauto.
  - intros i b Hi Hb. destruct (Hf i b Hi Hb). by apply buf_unused.
  - intros i j bi bj x (Hi & Hb & Hd & _). destruct (Hf i bi Hi Hb). congruence.
  - done.
  - set_solver.
  - intros i x H. by rewrite lookup_empty in H.
Qed.

(** ** Properties *)

(** The operations of a client that holds buffers. *)
Inductive bop :=
  | OBread (x : Z) | OBwrite (i : nat) | OBrelse (i : nat)
  | OModify (i : nat) (d : block) | ODirty (i : nat).

Definition run_bop (o : bop) : M bstate (option nat) :=
  match o with
  | OBread x => i ← bread 1 x; mret (Some i)
  | OBwrite i => bwrite i ;; mret None
  | OBrelse i => brelse i ;; mret None
  | OModify i d => bsetdata i d ;; mret None
  | ODirty i => bsetdirty i ;; mret None
  end.

(** When a client may use an operation. *)
Definition bop_ok (v : bview) (o : bop) : Prop :=
  match o with
  | OBread x => 0 ≤ x < bv_len v ∧ (∀ i, bv_held v !! i ≠ Some x) ∧
                (x ∈ bv_pin v ∨ (size (bv_pin v) + size (bv_held v) < NBUF)%nat)
  | OBwrite i | OModify i _ | ODirty i => is_Some (bv_held v !! i)
  | OBrelse i => ∃ x, bv_held v !! i = Some x ∧
      (x ∈ bv_pin v ∨ bv_cur v !! Z.to_nat x = bv_disk v !! Z.to_nat x)
  end.

(** What the operation does to the block store. *)
Definition bop_post (v : bview) (o : bop) (r : option nat) (v' : bview) : Prop :=
  match o with
  | OBread x => ∃ i, r = Some i ∧ bv_held v !! i = None ∧ v' = v_hold i x v
  | OBwrite i => ∃ x d, bv_held v !! i = Some x ∧ bv_cur v !! Z.to_nat x = Some d ∧
                        v' = v_write x d v
  | OBrelse i => v' = v_unhold i v
  | OModify i d => ∃ x, bv_held v !! i = Some x ∧ v' = v_set x d v
  | ODirty i => ∃ x, bv_held v !! i = Some x ∧ v' = v_pin x v
  end.

(** [C2] The buffer cache refines the abstract block store: from any state
    that represents a store [v], every operation a client may use returns
    (no panic, no sleep, no wild pointer, and the LRU list stays intact) and
    leads to a state that represents the store after the operation.  In
    particular bread always finds a buffer while fewer than [NBUF] are
    pinned or held. *)
Theorem bio_refines s v o :
  bio_inv s v → bop_ok v o →
  wp (run_bop o) (λ r s', ∃ v', bop_post v o r v' ∧ bio_inv s' v') s.
Proof.
  intros Hinv Hok. destruct o as [x|i|i|i d|i]; simpl in *.
  - destruct Hok as (Hx & Hnh & Hroom). wstep. eapply wp_bread; [done..|].
    intros i s' Hi Hs'. wstep. eauto 10.
  - destruct Hok as [x Hx]. destruct (bio_data _ _ _ _ Hinv Hx) as (_ & _ & d & _ & Hd).
    wstep. eapply wp_bwrite; [done..|]. intros s' Hs'. wstep. eauto 10.
  - destruct Hok as (x & Hx & Hc). wstep. eapply wp_brelse; [done..|].
    intros s' Hs'. wstep. eauto.
  - destruct Hok as [x Hx]. wstep. eapply wp_bsetdata; [done..|].
    intros s' Hs'. wstep. eauto 10.
  - destruct Hok as [x Hx]. wstep. eapply wp_bsetdirty; [done..|].
    intros s' Hs' _. wstep. eauto 10.
Qed.

(** binit turns the zeroed cache into an empty one: afterwards the
    cache represents the contents of the disk, nothing is held or pinned. *)
Theorem binit_spec c l z disk :
  cpu_ok c → wp binit (λ _ s', bio_inv s' (view0 disk)) (boot c l z disk).
Proof.
  intros Hc. eapply wp_run; [apply binit_run|]. split; try done. apply binit_core.
Qed.

(** ** Witnesses *)

Definition disk0 : list block := replicate 4 (replicate BSIZE 0).
Definition bst0 : bstate := mkBst cpu0 (initlock "bcache" lock0) (binit_bufs []) disk0 [] [].

Lemma bst0_inv : bio_inv bst0 (view0 disk0).
Proof. split; try done. apply binit_core. Qed.

Lemma bio_refines_witness :
  bop_ok (view0 disk0) (OBread 2) ∧
  wp (run_bop (OBread 2))
    (λ r s', ∃ v', bop_post (view0 disk0) (OBread 2) r v' ∧ bio_inv s' v') bst0.
Proof.
  assert (bop_ok (view0 disk0) (OBread 2)) as H.
  { split_and!; [done|done|by intros i|right; vm_compute; lia]. }
  split; [exact H|]. exact (bio_refines bst0 (view0 disk0) (OBread 2) bst0_inv H).
Defined.

Lemma binit_spec_witness :
  wp binit (λ _ s', bio_inv s' (view0 disk0)) (boot cpu0 lock0 [] disk0).
Proof. exact (binit_spec cpu0 lock0 [] disk0 cpu0_ok). Defined.
