(* ===== verification/Ide.v ===== *)
(** * The IDE disk driver (xv6/ide.c)

    The driver talks to the disk controller through ports.  The controller
    is an argument: the class [AtaController] says what the driver relies on
    of an ATA controller in PIO mode, against the state [ata] of its task
    file (the command registers, the command under way, the sectors).  An
    interrupt may come at any moment between two operations of the driver.

    iderw sleeps until the interrupt handler has served its buffer; the call
    that is suspended there goes on with [iderw_resume]. *)

From stdpp Require Import list.
From S2P Require Import Prelude Kernel Spinlock Bio.
Local Open Scope Z_scope.

Definition SECTOR_SIZE : Z := 512.
Definition IDE_BSY : Z := 128.
Definition IDE_DRDY : Z := 64.
Definition IDE_DF : Z := 32.
Definition IDE_ERR : Z := 1.
Definition IDE_CMD_READ : Z := 32.
Definition IDE_CMD_WRITE : Z := 48.

(** ** The controller *)

Inductive ata_op :=
  | AtaIdle
  | AtaRead (drive : bool) (sector : Z)
  | AtaWrite (drive : bool) (sector : Z).

Definition sectors : Type := bool → Z → block.
Definition sec_upd (dr : bool) (x : Z) (d : block) (f : sectors) : sectors :=
  λ dr' x', if Bool.eqb dr' dr && (x' =? x) then d else f dr' x'.

(** The task file: the registers at ports 0x1f2 to 0x1f6 and 0x3f6, the
    command, and what the disks hold. *)
Record ata := mkAta {
  at_reg : Z → Z;
  at_op : ata_op;
  at_sec : sectors;
}.

Definition at_lba (v : ata) : Z :=
  at_reg v 0x1f3 + 256 * at_reg v 0x1f4 + 65536 * at_reg v 0x1f5 + 16777216 * Z.land (at_reg v 0x1f6) 15.
Definition at_drive (v : ata) : bool := Z.testbit (at_reg v 0x1f6) 4.

(** A write to a port: a register, or the command for one sector. *)
Definition ata_outb (p x : Z) (v : ata) : ata :=
  if p =? 0x1f7 then
    if at_reg v 0x1f2 =? 1 then
      if x =? IDE_CMD_READ then mkAta (at_reg v) (AtaRead (at_drive v) (at_lba v)) (at_sec v) else
      if x =? IDE_CMD_WRITE then mkAta (at_reg v) (AtaWrite (at_drive v) (at_lba v)) (at_sec v) else v
    else v
  else mkAta (λ q, if q =? p then x else at_reg v q) (at_op v) (at_sec v).

(** What the driver relies on.  Port 0x1f7 read is the status: it changes
    nothing, and after at most [ctl_polls] readings the controller is ready.
    The data port takes the sector of a write command and gives the sector
    of a read command.  A command may fail: the status then has an error bit,
    and a sector written is not what was given. *)
Class AtaController (C : Type) := {
  ctl_outb : Z → Z → C → C;
  ctl_status : C → Z * C;
  ctl_outsl : block → C → C;
  ctl_insl : C → block * C;
  ctl_rel : C → ata → Prop;
  ctl_polls : nat;
  ctl_wait : C → nat;
  ctl_fails : Prop;                        (* commands may fail *)
  ctl_wait_le c v : ctl_rel c v → (ctl_wait c ≤ ctl_polls)%nat;
  ctl_outb_law p x c v : ctl_rel c v → ctl_rel (ctl_outb p x c) (ata_outb p x v);
  ctl_status_law c v : ctl_rel c v → ctl_rel (ctl_status c).2 v;
  ctl_error_law c v : ctl_rel c v → Z.land (ctl_status c).1 (Z.lor IDE_DF IDE_ERR) ≠ 0 → ctl_fails;
  ctl_ready_law c v : ctl_rel c v →
    Z.land (ctl_status c).1 (Z.lor IDE_BSY IDE_DRDY) = IDE_DRDY ∨ (ctl_wait (ctl_status c).2 < ctl_wait c)%nat;
  ctl_outsl_law d c v dr x : ctl_rel c v → at_op v = AtaWrite dr x → length d = BSIZE →
    ctl_rel (ctl_outsl d c) (mkAta (at_reg v) AtaIdle (sec_upd dr x d (at_sec v))) ∨
    ctl_fails ∧ ∃ d', length d' = BSIZE ∧
      ctl_rel (ctl_outsl d c) (mkAta (at_reg v) AtaIdle (sec_upd dr x d' (at_sec v)));
  ctl_insl_law c v dr x : ctl_rel c v → at_op v = AtaRead dr x →
    (ctl_insl c).1 = at_sec v dr x ∧ ctl_rel (ctl_insl c).2 (mkAta (at_reg v) AtaIdle (at_sec v));
}.

(** ** The driver *)

Record ide (C : Type) := mkIde {
  id_cpu : cpu;
  idelock : spinlock;
  idequeue : option nat;
  havedisk1 : Z;
  id_bufs : list buf;
  id_ctl : C;
  id_woken : list nat;
}.
Arguments mkIde {C}.
Arguments id_cpu {C}.
Arguments idelock {C}.
Arguments idequeue {C}.
Arguments havedisk1 {C}.
Arguments id_bufs {C}.
Arguments id_ctl {C}.
Arguments id_woken {C}.

Definition set_qnext (q : option nat) (b : buf) : buf :=
  mkBuf (b_flags b) (b_dev b) (b_blockno b) (b_prev b) (b_next b) q (b_data b).

Section ide.
Context {C : Type} `{!AtaController C}.
Abbreviation st := (ide C).

Definition set_icpu (x : cpu) (s : st) : st :=
  mkIde x (idelock s) (idequeue s) (havedisk1 s) (id_bufs s) (id_ctl s) (id_woken s).
Definition set_idelock (x : spinlock) (s : st) : st :=
  mkIde (id_cpu s) x (idequeue s) (havedisk1 s) (id_bufs s) (id_ctl s) (id_woken s).
Definition set_queue (x : option nat) (s : st) : st :=
  mkIde (id_cpu s) (idelock s) x (havedisk1 s) (id_bufs s) (id_ctl s) (id_woken s).
Definition set_disk1 (x : Z) (s : st) : st :=
  mkIde (id_cpu s) (idelock s) (idequeue s) x (id_bufs s) (id_ctl s) (id_woken s).
Definition set_ibufs (x : list buf) (s : st) : st :=
  mkIde (id_cpu s) (idelock s) (idequeue s) (havedisk1 s) x (id_ctl s) (id_woken s).
Definition set_ctl (x : C) (s : st) : st :=
  mkIde (id_cpu s) (idelock s) (idequeue s) (havedisk1 s) (id_bufs s) x (id_woken s).
Definition set_iwoken (x : list nat) (s : st) : st :=
  mkIde (id_cpu s) (idelock s) (idequeue s) (havedisk1 s) (id_bufs s) (id_ctl s) x.

Definition icpu : lens st cpu := mkLens id_cpu set_icpu.
Definition ilk : lens st spinlock := mkLens idelock set_idelock.

Definition outb (p x : Z) : M st unit := modify (λ s, set_ctl (ctl_outb p x (id_ctl s)) s).
Definition inb_status : M st Z := λ s, Ret (ctl_status (id_ctl s)).1 (set_ctl (ctl_status (id_ctl s)).2 s).
Definition outsl (d : block) : M st unit := modify (λ s, set_ctl (ctl_outsl d (id_ctl s)) s).
Definition insl : M st block := λ s, Ret (ctl_insl (id_ctl s)).1 (set_ctl (ctl_insl (id_ctl s)).2 s).

Definition rdb (i : nat) : M st buf := o ← gets (λ s, id_bufs s !! i); deref o.
Definition updb (i : nat) (f : buf → buf) : M st unit :=
  b ← rdb i; modify (λ s, set_ibufs (<[i := f b]> (id_bufs s)) s).

Fixpoint idewait_loop (fuel : nat) : M st Z :=
  match fuel with
  | O => spins
  | S fuel =>
      r ← inb_status;
      if negb (Z.land r (Z.lor IDE_BSY IDE_DRDY) =? IDE_DRDY) then idewait_loop fuel else mret r
  end.

Definition idewait (checkerr : bool) : M st Z :=
  r ← idewait_loop (S ctl_polls);
  if checkerr && negb (Z.land r (Z.lor IDE_DF IDE_ERR) =? 0) then mret (-1) else mret 0.

(** The probe of ideinit for disk 1; the interrupt controllers it enables are
    not part of this state. *)
Fixpoint probe (n : nat) : M st unit :=
  match n with
  | O => mret tt
  | S n => r ← inb_status; if negb (r =? 0) then modify (set_disk1 1) else probe n
  end.

Definition ideinit : M st unit :=
  modify (λ s, set_idelock (initlock "ide" (idelock s)) s) ;;
  _ ← idewait false;
  outb 0x1f6 (Z.lor 0xe0 (Z.shiftl 1 4)) ;;
  probe 1000 ;;
  outb 0x1f6 (Z.lor 0xe0 (Z.shiftl 0 4)).

Definition idestart (b : option nat) : M st unit :=
  match b with
  | None => panic "idestart"
  | Some i =>
      b ← rdb i;
      if FSSIZE <=? b_blockno b then panic "incorrect blockno" else
      let sector_per_block := Z.of_nat BSIZE / SECTOR_SIZE in
      let sector := b_blockno b * sector_per_block in
      if 7 <? sector_per_block then panic "idestart" else
      _ ← idewait false;
      outb 0x3f6 0 ;;
      outb 0x1f2 sector_per_block ;;
      outb 0x1f3 (Z.land sector 0xff) ;;
      outb 0x1f4 (Z.land (Z.shiftr sector 8) 0xff) ;;
      outb 0x1f5 (Z.land (Z.shiftr sector 16) 0xff) ;;
      outb 0x1f6 (Z.lor (Z.lor 0xe0 (Z.shiftl (Z.land (b_dev b) 1) 4)) (Z.land (Z.shiftr sector 24) 0x0f)) ;;
      if hasflag (b_flags b) B_DIRTY then
        outb 0x1f7 IDE_CMD_WRITE ;;
        outsl (b_data b)
      else outb 0x1f7 IDE_CMD_READ
  end.

Definition ideintr : M st unit :=
  acquire icpu ilk ;;
  q ← gets idequeue;
  match q with
  | None => release icpu ilk
  | Some i =>
      b ← rdb i;
      modify (set_queue (b_qnext b)) ;;
      (if hasflag (b_flags b) B_DIRTY then mret tt else
       r ← idewait true;
       if 0 <=? r then d ← insl; updb i (set_data d) else mret tt) ;;
      updb i (λ b, set_flags (Z.lor (b_flags b) B_VALID) b) ;;
      updb i (λ b, set_flags (Z.ldiff (b_flags b) B_DIRTY) b) ;;
      modify (λ s, set_iwoken (id_woken s ++ [i]) s) ;;
      q ← gets idequeue;
      (match q with None => mret tt | Some _ => idestart q end) ;;
      release icpu ilk
  end.

(** The walk to the end of the queue: the last buffer, if there is one. *)
Fixpoint last_queued (fuel : nat) (i : nat) : M st nat :=
  match fuel with
  | O => fault
  | S fuel => b ← rdb i; match b_qnext b with None => mret i | Some j => last_queued fuel j end
  end.

(** while((b->flags & (B_VALID|B_DIRTY)) != B_VALID) sleep(b, &idelock) *)
Definition iderw_wait (i : nat) : M st unit :=
  b ← rdb i;
  if negb (Z.land (b_flags b) (Z.lor B_VALID B_DIRTY) =? B_VALID)
  then (* sleep releases the lock *) release icpu ilk ;; sleeps (Z.of_nat i)
  else release icpu ilk.

Definition iderw_resume (i : nat) : M st unit := acquire icpu ilk ;; iderw_wait i.

Definition iderw (i : nat) : M st unit :=
  b ← rdb i;
  if negb (hasflag (b_flags b) B_BUSY) then panic "iderw: buf not busy" else
  if Z.land (b_flags b) (Z.lor B_VALID B_DIRTY) =? B_VALID then panic "iderw: nothing to do" else
  d1 ← gets havedisk1;
  if negb (b_dev b =? 0) && (d1 =? 0) then panic "iderw: ide disk 1 not present" else
  acquire icpu ilk ;;
  updb i (set_qnext None) ;;
  q ← gets idequeue;
  n ← gets (λ s, length (id_bufs s));
  (match q with
   | None => modify (set_queue (Some i))
   | Some j => l ← last_queued n j; updb l (set_qnext (Some i))
   end) ;;
  q ← gets idequeue;
  (if bool_decide (q = Some i) then idestart (Some i) else mret tt) ;;
  iderw_wait i.
End ide.

(** ** What the driver does: a queue of requests

    The abstract driver has a disk and a queue; an interrupt serves the
    first request.  [a_wait] is the buffers whose iderw has not returned. *)
Record adrv := mkAd {
  a_bufs : list buf;
  a_disk : sectors;
  a_queue : list nat;
  a_wait : list nat;
  a_woken : list nat;
}.

(** A buffer's drive, and what it is when its request has been served. *)
Definition drive (b : buf) : bool := Z.testbit (b_dev b) 0.
Definition dirty (b : buf) : bool := hasflag (b_flags b) B_DIRTY.
Definition served (b : buf) : buf := set_flags (Z.ldiff (Z.lor (b_flags b) B_VALID) B_DIRTY) b.

(** What becomes of a request: it is done, or it fails, and a sector that was
    written then holds d. *)
Inductive outcome := Good | Bad (d : block).
Definition kept (o : outcome) (b : buf) : block := match o with Good => b_data b | Bad d => d end.

(** The first request is served.  A failure is noticed by nobody: after a read
    the buffer has the bytes it had, and the buffer is valid in any case. *)
Definition serve (o : outcome) (a : adrv) : adrv :=
  match a_queue a with
  | [] => a
  | i :: q =>
      match a_bufs a !! i with
      | None => a
      | Some b =>
          if dirty b
          then mkAd (<[i := served b]> (a_bufs a)) (sec_upd (drive b) (b_blockno b) (kept o b) (a_disk a)) q
                 (a_wait a) (a_woken a ++ [i])
          else mkAd (<[i := served (match o with Good => set_data (a_disk a (drive b) (b_blockno b)) b | Bad _ => b end)]>
                       (a_bufs a)) (a_disk a) q
                 (a_wait a) (a_woken a ++ [i])
      end
  end.

(** What happens: the owner of a buffer fills it in, calls iderw, or goes on
    in iderw after a wakeup; the disk interrupts. *)
Inductive event :=
  | Prep (i : nat) (flags dev blockno : Z) (data : block)
  | Rw (i : nat)
  | Resume (i : nat)
  | Intr.

Definition prepare (flags dev n : Z) (d : block) (b : buf) : buf := set_flags flags (set_id dev n (set_data d b)).

(** The abstract driver, and whether the call sleeps; [o] is what becomes of
    the request that an interrupt serves. *)
Definition abs_step (o : outcome) (e : event) (a : adrv) : adrv * bool :=
  match e with
  | Prep i fl dev n d =>
      (mkAd (alter (prepare fl dev n d) i (a_bufs a)) (a_disk a) (a_queue a) (a_wait a) (a_woken a), false)
  | Rw i => (mkAd (a_bufs a) (a_disk a) (a_queue a ++ [i]) (i :: a_wait a) (a_woken a), true)
  | Resume i =>
      if bool_decide (i ∈ a_queue a) then (a, true)
      else (mkAd (a_bufs a) (a_disk a) (a_queue a) (filter (λ j, j ≠ i) (a_wait a)) (a_woken a), false)
  | Intr => (serve o a, false)
  end.

(** A buffer iderw accepts. *)
Record request (b : buf) : Prop := {
  rq_busy : hasflag (b_flags b) B_BUSY = true;
  rq_work : Z.land (b_flags b) (Z.lor B_VALID B_DIRTY) ≠ B_VALID;
  rq_dev : b_dev b = 0 ∨ b_dev b = 1;
  rq_block : 0 ≤ b_blockno b < FSSIZE;
  rq_data : length (b_data b) = BSIZE;
}.

(** The discipline of the buffer cache: only its owner touches a buffer, and
    not while its request is under way. *)
Definition enabled (a : adrv) (e : event) : Prop :=
  match e with
  | Prep i _ _ _ _ => i ∉ a_wait a ∧ is_Some (a_bufs a !! i)
  | Rw i => i ∉ a_wait a ∧ ∃ b, a_bufs a !! i = Some b ∧ request b
  | Resume i => i ∈ a_wait a
  | Intr => True
  end.

Section refine.
Context {C : Type} `{!AtaController C}.
Abbreviation st := (ide C).
Implicit Types (s : st) (a : adrv).

(** The outcomes this controller has. *)
Definition possible (o : outcome) : Prop :=
  match o with Good => True | Bad d => ctl_fails ∧ length d = BSIZE end.

Lemma possible_good : possible Good.
Proof. done. Qed.

Definition event_code (e : event) : M st unit :=
  match e with
  | Prep i fl dev n d => updb i (prepare fl dev n d)
  | Rw i => iderw i
  | Resume i => iderw_resume i
  | Intr => ideintr
  end.

(** Running the driver on an event: the state after it, and whether the call
    sleeps; [None] if it panics, spins or faults. *)
Definition ide_step (e : event) s : option (st * bool) :=
  match event_code e s with
  | Ret _ s' => Some (s', false)
  | Sleeps _ s' => Some (s', true)
  | _ => None
  end.

(** ** Simulation *)

Fixpoint chain (bs : list buf) (q : option nat) (l : list nat) : Prop :=
  match l with
  | [] => q = None
  | i :: l => q = Some i ∧ ∃ b, bs !! i = Some b ∧ chain bs (b_qnext b) l
  end.

(** The controller has been given the request of [b]; a write has its outcome. *)
Definition started (b : buf) (v : ata) (D : sectors) : Prop :=
  if dirty b
  then ∃ o, possible o ∧ ∀ dr x, at_sec v dr x = sec_upd (drive b) (b_blockno b) (kept o b) D dr x
  else at_op v = AtaRead (drive b) (b_blockno b) ∧ ∀ dr x, at_sec v dr x = D dr x.

Definition busy_with (a : adrv) (v : ata) : Prop :=
  match a_queue a with
  | [] => ∀ dr x, at_sec v dr x = a_disk a dr x
  | i :: _ => ∃ b, a_bufs a !! i = Some b ∧ started b v (a_disk a)
  end.

Record core s a : Prop := {
  co_disk1 : havedisk1 s ≠ 0;
  co_bufs : set_qnext None <$> id_bufs s = a_bufs a;
  co_woken : id_woken s = a_woken a;
  co_chain : chain (id_bufs s) (idequeue s) (a_queue a);
  co_nodup : NoDup (a_queue a);
  co_sub i : i ∈ a_queue a → i ∈ a_wait a;
  co_req i : i ∈ a_queue a → ∃ b, a_bufs a !! i = Some b ∧ request b;
  co_done i : i ∈ a_wait a → i ∉ a_queue a →
    ∃ b, a_bufs a !! i = Some b ∧ Z.land (b_flags b) (Z.lor B_VALID B_DIRTY) = B_VALID;
  co_ctl : ∃ v, ctl_rel (id_ctl s) v ∧ busy_with a v;
}.

Definition ide_rel s a : Prop := quiet icpu ilk s ∧ core s a.

#[export] Instance icpu_ok : LensOk (icpu (C:=C)).
Proof. split; try done. by intros []. Qed.
#[export] Instance ilk_ok : LensOk (ilk (C:=C)).
Proof. split; try done. by intros []. Qed.
#[export] Instance icpu_ilk : LensIndep (icpu (C:=C)) ilk.
Proof. by split. Qed.

(** *** The controller *)

Lemma wp_rdb i b s (Q : buf → st → Prop) : id_bufs s !! i = Some b → Q b s → wp (rdb i) Q s.
Proof. intros Hb HQ. unfold rdb. wstep. wstep. by eapply wp_deref. Qed.

Lemma wp_updb i f b s (Q : unit → st → Prop) :
  id_bufs s !! i = Some b → Q tt (set_ibufs (<[i := f b]> (id_bufs s)) s) → wp (updb i f) Q s.
Proof. intros Hb HQ. unfold updb. wstep. eapply wp_rdb; [exact Hb|]. by wstep. Qed.

Lemma wp_idewait_loop v : ∀ fuel s (Q : Z → st → Prop),
  ctl_rel (id_ctl s) v → (ctl_wait (id_ctl s) < fuel)%nat →
  (∀ c r, ctl_rel c v → (Z.land r (Z.lor IDE_DF IDE_ERR) ≠ 0 → ctl_fails) → Q r (set_ctl c s)) → wp (idewait_loop fuel) Q s.
Proof.
  induction fuel as [|fuel IH]; intros s Q HR Hf HQ; [lia|]. cbn [idewait_loop]. wstep.
  eapply wp_run; [reflexivity|]. pose proof (ctl_status_law _ _ HR) as HR'. pose proof (ctl_error_law _ _ HR) as He.
  destruct (Z.eqb_spec (Z.land (ctl_status (id_ctl s)).1 (Z.lor IDE_BSY IDE_DRDY)) IDE_DRDY) as [Hr|Hr]; cbn [negb].
  - wstep. by apply HQ.
  - destruct (ctl_ready_law _ _ HR) as [?|Hlt]; [done|]. apply IH; [done|simpl; lia|]. intros c r Hc Hr'. by apply HQ.
Qed.

Lemma wp_idewait chk v s (Q : Z → st → Prop) :
  ctl_rel (id_ctl s) v →
  (∀ c r, ctl_rel c v → r = 0 ∨ (r = -1 ∧ chk = true ∧ ctl_fails) → Q r (set_ctl c s)) → wp (idewait chk) Q s.
Proof.
  intros HR HQ. unfold idewait. wstep. eapply wp_idewait_loop; [exact HR| |].
  { pose proof (ctl_wait_le _ _ HR). lia. }
  intros c r Hc Hr. destruct (chk && _) eqn:E; wstep; apply HQ; try done; [|by left].
  apply andb_true_iff in E as [-> E]. right. split_and!; [done|done|]. apply Hr. bool_facts. done.
Qed.

Lemma wp_outb p x v s (Q : unit → st → Prop) :
  ctl_rel (id_ctl s) v → (∀ c, ctl_rel c (ata_outb p x v) → Q tt (set_ctl c s)) → wp (outb p x) Q s.
Proof. intros HR HQ. unfold outb. wstep. by apply HQ, ctl_outb_law. Qed.

(** The registers idestart sets name the block. *)
Lemma sector_bytes n : 0 ≤ n < FSSIZE →
  Z.land n 255 + 256 * Z.land (Z.shiftr n 8) 255 + 65536 * Z.land (Z.shiftr n 16) 255 = n ∧ Z.shiftr n 24 = 0.
Proof.
  unfold FSSIZE. intros H. change 255 with (Z.ones 8). rewrite !Z.land_ones, !Z.shiftr_div_pow2 by lia.
  change (2 ^ 8) with 256. change (2 ^ 16) with 65536. change (2 ^ 24) with 16777216. zdm.
Qed.

Lemma wp_idestart i b v s (Q : unit → st → Prop) :
  id_bufs s !! i = Some b → request b → ctl_rel (id_ctl s) v →
  (∀ c v', ctl_rel c v' → started b v' (at_sec v) → Q tt (set_ctl c s)) →
  wp (idestart (Some i)) Q s.
Proof using Type*.
  intros Hb [R1 R2 R3 R4 R5] HR HQ. unfold idestart. wstep. eapply wp_rdb; [exact Hb|].
  rewrite (proj2 (Z.leb_gt _ _)) by lia. change (Z.of_nat BSIZE / SECTOR_SIZE) with 1. cbv zeta. rewrite Z.mul_1_r.
  change (7 <? 1) with false. cbv iota. destruct (sector_bytes _ R4) as [S1 S2].
  wstep. eapply wp_idewait; [exact HR|]. intros c0 r0 H0 _.
  wstep. eapply wp_outb; [exact H0|]. intros c1 H1. wstep. eapply wp_outb; [exact H1|]. intros c2 H2.
  wstep. eapply wp_outb; [exact H2|]. intros c3 H3. wstep. eapply wp_outb; [exact H3|]. intros c4 H4.
  wstep. eapply wp_outb; [exact H4|]. intros c5 H5. wstep. eapply wp_outb; [exact H5|]. intros c6 H6.
  rewrite S2 in H6. set (v6 := ata_outb 0x1f6 _ _) in H6.
  assert (at_lba v6 = b_blockno b) as Hlba.
  { unfold at_lba, v6. simpl.
    destruct R3 as [-> | ->]; match goal with |- _ + 16777216 * ?x = _ => change x with 0 end; lia. }
  assert (at_drive v6 = drive b) as Hdr by (unfold at_drive, drive, v6; simpl; by destruct R3 as [-> | ->]).
  assert (at_sec v6 = at_sec v) as Hsec by done. assert (at_reg v6 0x1f2 = 1) as Hcnt by done. clearbody v6.
  destruct (hasflag (b_flags b) B_DIRTY) eqn:Hd.
  - wstep. eapply wp_outb; [exact H6|]. intros c7 H7. unfold outsl. wstep.
    unfold ata_outb in H7. simpl in H7. rewrite Hcnt in H7. simpl in H7. rewrite Hlba, Hdr in H7.
    assert (∃ o, possible o ∧ ctl_rel (ctl_outsl (b_data b) c7)
      (mkAta (at_reg v6) AtaIdle (sec_upd (drive b) (b_blockno b) (kept o b) (at_sec v6)))) as (o & Ho & H8).
    { destruct (ctl_outsl_law (b_data b) _ _ _ _ H7 eq_refl R5) as [H8|(Hf & d' & Hd' & H8)].
      - by exists Good.
      - by exists (Bad d'). }
    eapply HQ; [exact H8|]. unfold started, dirty. rewrite Hd. exists o. split; [done|]. simpl. by rewrite Hsec.
  - eapply wp_outb; [exact H6|]. intros c7 H7. eapply HQ; [exact H7|].
    unfold started, dirty, ata_outb. rewrite Hd. simpl. rewrite Hcnt. simpl. by rewrite Hlba, Hdr, Hsec.
Qed.

(** *** The queue *)

Lemma chain_ext bs bs' q l :
  chain bs q l → (∀ i, i ∈ l → b_qnext <$> bs' !! i = b_qnext <$> bs !! i) → chain bs' q l.
Proof.
  revert q. induction l as [|i l IH]; intros q H Hx; [done|]. destruct H as (-> & b & Hb & H). split; [done|].
  pose proof (Hx i ltac:(left)) as Hi. rewrite Hb in Hi. simpl in Hi.
  destruct (bs' !! i) as [b'|] eqn:Hb'; [|done]. injection Hi as Hi. exists b'. split; [done|]. rewrite Hi.
  apply IH; [done|]. intros j Hj. apply Hx. by right.
Qed.

(** A change of a buffer that keeps its link, or of one outside the queue. *)
Lemma chain_upd bs q l i b b' :
  chain bs q l → bs !! i = Some b → b_qnext b' = b_qnext b ∨ i ∉ l → chain (<[i := b']> bs) q l.
Proof.
  intros H Hb Hor. eapply chain_ext; [exact H|]. intros j Hj. destruct (decide (j = i)) as [-> |Hne].
  - rewrite list_lookup_insert_eq by by eapply lookup_lt_Some. rewrite Hb. simpl. destruct Hor as [-> |Hni]; done.
  - by rewrite list_lookup_insert_ne.
Qed.

Lemma wp_last_queued k : ∀ l fuel j s (Q : nat → st → Prop),
  chain (id_bufs s) (Some j) (l ++ [k]) → (length l < fuel)%nat → Q k s → wp (last_queued fuel j) Q s.
Proof.
  induction l as [|i l IH]; intros [|fuel] j s Q H Hf HQ; simpl in Hf; try lia; cbn [last_queued];
    destruct H as ([= ->] & b & Hb & H); wstep; eapply wp_rdb; try exact Hb.
  - simpl in H. rewrite H. by wstep.
  - destruct l as [|i' l]; pose proof H as [Hq _]; rewrite Hq in *; (apply IH; [done|simpl in *; lia|done]).
Qed.

Lemma chain_snoc bs q l k bk i b :
  chain bs q (l ++ [k]) → NoDup (l ++ [k]) → i ∉ l ++ [k] → bs !! k = Some bk → bs !! i = Some b → b_qnext b = None →
  chain (<[k := set_qnext (Some i) bk]> bs) q (l ++ [k; i]).
Proof.
  intros H Hn Hi Hk Hb Hq. pose proof (lookup_lt_Some _ _ _ Hk) as Hlt.
  assert (i ≠ k) as Hik by (intros ->; apply Hi, elem_of_app; right; by apply list_elem_of_singleton).
  revert q H Hn Hi. induction l as [|j l IH]; intros q H Hn Hi.
  - destruct H as (-> & b0 & Hb0 & H). simpl in H. simpl. split; [done|].
    rewrite list_lookup_insert_eq by done. eexists. split; [reflexivity|]. simpl. split; [done|].
    exists b. by rewrite list_lookup_insert_ne.
  - destruct H as (-> & b0 & Hb0 & H). simpl in Hn. apply NoDup_cons in Hn as [Hj Hn].
    assert (j ≠ k) as Hjk by (intros ->; apply Hj, elem_of_app; right; by apply list_elem_of_singleton).
    simpl. split; [done|]. exists b0. rewrite list_lookup_insert_ne by done. split; [done|].
    apply IH; [done|done|]. intros Hin. apply Hi. by right.
Qed.

(** *** Buffers *)

Lemma abs_lookup s a i b : core s a → id_bufs s !! i = Some b → a_bufs a !! i = Some (set_qnext None b).
Proof. intros Hc Hb. by rewrite <- (co_bufs _ _ Hc), list_lookup_fmap, Hb. Qed.

Lemma abs_lookup_inv s a i b' : core s a → a_bufs a !! i = Some b' → ∃ b, id_bufs s !! i = Some b ∧ b' = set_qnext None b.
Proof. intros Hc. rewrite <- (co_bufs _ _ Hc), list_lookup_fmap_Some. intros (b & -> & Hb). by exists b. Qed.

Lemma request_q b q : request (set_qnext q b) ↔ request b.
Proof. split; intros []; by split. Qed.

Lemma abs_insert s a i b (f : buf → buf) :
  core s a → id_bufs s !! i = Some b → set_qnext None (f b) = f (set_qnext None b) →
  set_qnext None <$> <[i := f b]> (id_bufs s) = <[i := f (set_qnext None b)]> (a_bufs a).
Proof. intros Hc Hb Hf. rewrite list_fmap_insert, Hf. by rewrite (co_bufs _ _ Hc). Qed.

Lemma core_queue_wait s a i : core s a → i ∉ a_wait a → i ∉ a_queue a.
Proof. intros Hc Hn Hi. by apply Hn, (co_sub _ _ Hc). Qed.

Lemma started_ext b v D D' : (∀ dr x, D dr x = D' dr x) → started b v D → started b v D'.
Proof.
  intros H. unfold started. case_if.
  - intros (o & H1 & H2). exists o. split; [done|]. intros dr x. rewrite H2. unfold sec_upd. by case_if.
  - intros [H1 H2]. split; [done|]. intros dr x. by rewrite H2.
Qed.

Lemma quiet_leave s t : quiet icpu ilk s → quiet (icpu (C:=C)) ilk (leave icpu ilk s t).
Proof. apply leave_quiet; apply _. Qed.

(** What the lock leaves alone. *)
Lemma core_leave s t a : core t a → core (leave icpu ilk s t) a.
Proof. by intros []. Qed.
Lemma core_acquired s a : core s a → core (acquired icpu ilk s) a.
Proof. by intros []. Qed.

Lemma insert_alter_at (f : buf → buf) i b (l : list buf) : l !! i = Some b → <[i := f b]> l = alter f i l.
Proof.
  intros Hb. apply list_eq. intros j. destruct (decide (j = i)) as [-> |Hne].
  - rewrite list_lookup_insert_eq by by eapply lookup_lt_Some. by rewrite list_lookup_alter_eq, Hb.
  - by rewrite list_lookup_insert_ne, list_lookup_alter_ne.
Qed.

Lemma sim_prep s a i fl dev n d :
  ide_rel s a → enabled a (Prep i fl dev n d) →
  wp (updb i (prepare fl dev n d)) (λ _ s', ide_rel s' (abs_step Good (Prep i fl dev n d) a).1) s.
Proof.
  intros [Hq Hc] [Hw [b' Hb']]. destruct (abs_lookup_inv _ _ _ _ Hc Hb') as (b & Hb & ->).
  pose proof (core_queue_wait _ _ _ Hc Hw) as Hnq. eapply wp_updb; [exact Hb|]. split; [done|].
  assert (∀ j, j ≠ i → alter (prepare fl dev n d) i (a_bufs a) !! j = a_bufs a !! j) as Hne
    by (intros; by rewrite list_lookup_alter_ne).
  destruct Hc as [C1 C2 C3 C4 C5 C6 C7 C8 C9]. split; simpl; try done.
  - rewrite list_fmap_insert, C2. change (set_qnext None (prepare fl dev n d b)) with (prepare fl dev n d (set_qnext None b)).
    by apply insert_alter_at.
  - eapply chain_upd; [exact C4|exact Hb|by right].
  - intros j Hj. rewrite Hne; [by apply C7|]. by intros ->.
  - intros j Hj Hj'. rewrite Hne; [by apply C8|]. by intros ->.
  - destruct C9 as (v & Hv & Hbw). exists v. split; [done|]. unfold busy_with in *. simpl.
    destruct (a_queue a) as [|j q] eqn:Hqe; [done|]. rewrite Hne; [done|]. intros ->. apply Hnq. left.
Qed.

(** Links do not show in the abstract buffers. *)
Lemma erase_insert (bs : list buf) k b q : bs !! k = Some b → set_qnext None <$> <[k := set_qnext q b]> bs = set_qnext None <$> bs.
Proof.
  intros Hb. rewrite list_fmap_insert. apply list_insert_id. rewrite list_lookup_fmap, Hb. done.
Qed.

(** The last round of iderw: the buffer's request is still under way. *)
Lemma wsw_iderw_wait i b s t (Q : st → Prop) :
  quiet icpu ilk s → id_cpu t = id_cpu (acquired icpu ilk s) → idelock t = idelock (acquired icpu ilk s) →
  id_bufs t !! i = Some b → Z.land (b_flags b) (Z.lor B_VALID B_DIRTY) ≠ B_VALID →
  Q (leave icpu ilk s t) → wsw (iderw_wait i) Q t.
Proof.
  intros Hq E1 E2 Hb Hf HQ. unfold iderw_wait. apply wsw_bind. eapply wp_rdb; [exact Hb|].
  rewrite (proj2 (Z.eqb_neq _ _) Hf). cbn [negb]. apply wsw_bind.
  eapply wp_release; try apply _; [exact Hq|exact E1|exact E2|]. by apply wsw_sleeps.
Qed.

(** The abstract driver once [i] is queued. *)
Definition queued (a : adrv) (i : nat) : adrv :=
  mkAd (a_bufs a) (a_disk a) (a_queue a ++ [i]) (i :: a_wait a) (a_woken a).

Lemma core_queued s t a i b :
  core s a → i ∉ a_wait a → a_bufs a !! i = Some b → request b →
  havedisk1 t = havedisk1 s → set_qnext None <$> id_bufs t = a_bufs a → id_woken t = id_woken s →
  chain (id_bufs t) (idequeue t) (a_queue a ++ [i]) → (∃ v, ctl_rel (id_ctl t) v ∧ busy_with (queued a i) v) →
  core t (queued a i).
Proof.
  intros Hc Hw Hb Hr E1 E2 E3 Hch Hctl. pose proof (core_queue_wait _ _ _ Hc Hw) as Hnq.
  destruct Hc as [C1 C2 C3 C4 C5 C6 C7 C8 C9]. split; simpl; try done.
  - by rewrite E1.
  - by rewrite E3.
  - apply NoDup_app. split_and!; [done| |apply NoDup_singleton]. intros x Hx. rewrite list_elem_of_singleton. by intros ->.
  - intros j. rewrite elem_of_app, list_elem_of_singleton. intros [Hj| ->]; [right; by apply C6|left].
  - intros j. rewrite elem_of_app, list_elem_of_singleton. intros [Hj| ->]; [by apply C7|by exists b].
  - intros j. rewrite elem_of_cons, elem_of_app, list_elem_of_singleton. intros [-> |Hj] Hn; [tauto|].
    apply C8; [done|]. tauto.
Qed.

Lemma sim_rw s a i :
  ide_rel s a → enabled a (Rw i) → wsw (iderw i) (λ s', ide_rel s' (queued a i)) s.
Proof using Type*.
  intros [Hq Hc] (Hw & b' & Hb' & Hr'). destruct (abs_lookup_inv _ _ _ _ Hc Hb') as (b & Hb & ->).
  pose proof Hr' as Hr. rewrite request_q in Hr. pose proof (core_queue_wait _ _ _ Hc Hw) as Hnq.
  unfold iderw. apply wsw_bind. eapply wp_rdb; [exact Hb|]. rewrite (rq_busy _ Hr). cbn [negb].
  rewrite (proj2 (Z.eqb_neq _ _) (rq_work _ Hr)). apply wsw_bind, wp_gets.
  rewrite (proj2 (Z.eqb_neq _ _) (co_disk1 _ _ Hc)), andb_false_r.
  apply wsw_bind. eapply wp_acquire; try apply _; [exact Hq|]. set (u := acquired icpu ilk s).
  apply wsw_bind. eapply wp_updb; [exact Hb|]. apply wsw_bind, wp_gets. apply wsw_bind, wp_gets.
  change (id_bufs u) with (id_bufs s). change (idequeue (set_ibufs ?x u)) with (idequeue s).
  set (bs1 := <[i := set_qnext None b]> (id_bufs s)). pose proof (lookup_lt_Some _ _ _ Hb) as Hlt.
  assert (bs1 !! i = Some (set_qnext None b)) as Hb1 by by apply list_lookup_insert_eq.
  assert (set_qnext None <$> bs1 = a_bufs a) as He1 by (unfold bs1; rewrite erase_insert by done; apply Hc).
  pose proof (co_chain _ _ Hc) as Hch. pose proof (chain_upd _ _ _ i b (set_qnext None b) Hch Hb ltac:(by right)) as Hch1.
  fold bs1 in Hch1. destruct (co_ctl _ _ Hc) as (v & Hv & Hbw). unfold busy_with in Hbw. cbn [id_bufs set_ibufs].
  destruct (decide (a_queue a = [])) as [Hnil|Hnn].
  - rewrite Hnil in *. simpl in Hch. rewrite Hch.
    apply wsw_bind, wp_modify. apply wsw_bind, wp_gets. apply wsw_bind. rewrite bool_decide_true by done.
    eapply (wp_idestart i (set_qnext None b) v); [exact Hb1|done|exact Hv|].
    intros c v' Hc' Hst. eapply wsw_iderw_wait; [exact Hq|done|done|exact Hb1|apply Hr|].
    split; [by apply quiet_leave|]. apply core_leave.
    eapply (core_queued s); try done; [by rewrite Hnil; simpl; split; [done|exists (set_qnext None b)]|].
    exists v'. split; [done|]. unfold busy_with. simpl. rewrite Hnil. simpl. exists (set_qnext None b).
    split; [done|]. by eapply started_ext.
  - destruct (exists_last Hnn) as (l & k & Hlk). rewrite Hlk in *.
    destruct (idequeue s) as [j|] eqn:Hj; [|destruct l; by destruct Hch].
    assert (j ∈ l ++ [k]) as Hjin by (destruct l; destruct Hch as ([= ->] & _); left).
    destruct (co_req _ _ Hc k) as (bk' & Hbk' & _); [rewrite Hlk; apply elem_of_app; right; by apply list_elem_of_singleton|].
    destruct (abs_lookup_inv _ _ _ _ Hc Hbk') as (bk & Hbk & _).
    assert (k ≠ i) as Hki by (intros ->; apply Hnq, elem_of_app; right; by apply list_elem_of_singleton).
    assert (bs1 !! k = Some bk) as Hbk1 by (unfold bs1; by rewrite list_lookup_insert_ne).
    apply wsw_bind. wstep. eapply (wp_last_queued k l); [exact Hch1| |].
    { pose proof (co_nodup _ _ Hc) as Hnd. rewrite Hlk in Hnd. unfold bs1. rewrite length_insert.
      assert (length (l ++ [k]) ≤ length (seq 0 (length (id_bufs s))))%nat as Hle.
      { apply submseteq_length, NoDup_submseteq; [done|]. intros x Hx. apply elem_of_seq.
        destruct (co_req _ _ Hc x) as (bx & Hbx & _); [by rewrite Hlk|].
        destruct (abs_lookup_inv _ _ _ _ Hc Hbx) as (bx' & Hbx' & _). apply lookup_lt_Some in Hbx'. lia. }
      rewrite length_app, length_seq in Hle. simpl in Hle. lia. }
    eapply wp_updb; [exact Hbk1|]. apply wsw_bind, wp_gets. cbn [set_ibufs id_bufs idequeue].
    change (idequeue u) with (idequeue s). rewrite Hj. apply wsw_bind.
    rewrite bool_decide_false by (intros [= ->]; done). wstep.
    eapply wsw_iderw_wait; [exact Hq|done|done|simpl; by rewrite list_lookup_insert_ne|apply Hr|].
    split; [by apply quiet_leave|]. apply core_leave. eapply (core_queued s); try done.
    + simpl. by rewrite erase_insert.
    + simpl. change (idequeue u) with (idequeue s). rewrite Hj, Hlk, <- app_assoc.
      eapply chain_snoc; [exact Hch1|rewrite <- Hlk; apply Hc|done|done|exact Hb1|done].
    + exists v. split; [done|]. unfold busy_with, queued. simpl. rewrite Hlk. rewrite <- app_assoc.
      by destruct l.
Qed.

Lemma sim_resume_sleeps s a i :
  ide_rel s a → i ∈ a_queue a → wsw (iderw_resume i) (λ s', ide_rel s' a) s.
Proof.
  intros [Hq Hc] Hi. destruct (co_req _ _ Hc i Hi) as (b' & Hb' & Hr).
  destruct (abs_lookup_inv _ _ _ _ Hc Hb') as (b & Hb & ->). apply request_q in Hr.
  unfold iderw_resume. apply wsw_bind. eapply wp_acquire; try apply _; [exact Hq|].
  eapply wsw_iderw_wait; [exact Hq|done|done|exact Hb|apply Hr|].
  split; [by apply quiet_leave|]. by apply core_leave, core_acquired.
Qed.

Lemma sim_resume_returns s a i :
  ide_rel s a → i ∈ a_wait a → i ∉ a_queue a →
  wp (iderw_resume i) (λ _ s', ide_rel s' (abs_step Good (Resume i) a).1) s.
Proof.
  intros [Hq Hc] Hi Hn. destruct (co_done _ _ Hc i Hi Hn) as (b' & Hb' & Hf).
  destruct (abs_lookup_inv _ _ _ _ Hc Hb') as (b & Hb & ->). unfold iderw_resume, iderw_wait.
  wstep. eapply wp_acquire; try apply _; [exact Hq|]. wstep. eapply wp_rdb; [exact Hb|].
  change (b_flags (set_qnext None b)) with (b_flags b) in Hf. rewrite (proj2 (Z.eqb_eq _ _) Hf). cbn [negb]. eapply wp_release; try apply _; [exact Hq|done|done|].
  split; [by apply quiet_leave|]. apply core_leave, core_acquired. simpl. rewrite bool_decide_false by done.
  destruct Hc as [C1 C2 C3 C4 C5 C6 C7 C8 C9]. split; simpl; try done.
  - intros j Hj. apply list_elem_of_filter. split; [by intros ->|by apply C6].
  - intros j Hj Hnj. apply list_elem_of_filter in Hj as [_ Hj]. by apply C8.
Qed.

Lemma served_flags b : Z.land (b_flags (served b)) (Z.lor B_VALID B_DIRTY) = B_VALID.
Proof.
  unfold served. simpl. apply Z.bits_inj'. intros n Hn. rewrite Z.land_spec, Z.ldiff_spec, Z.lor_spec.
  unfold B_VALID, B_DIRTY. change 2 with (2 ^ 1). change 4 with (2 ^ 2). rewrite Z.lor_spec, !Z.pow2_bits_eqb by lia.
  destruct (Z.eqb_spec 1 n), (Z.eqb_spec 2 n); subst; try done; rewrite ?orb_true_r, ?andb_true_r, ?andb_false_r; done.
Qed.

(** The end of the handler: the buffer has its data. *)
Lemma wp_intr_tail s t a i q b D v :
  quiet icpu ilk s → id_cpu t = id_cpu (acquired icpu ilk s) → idelock t = idelock (acquired icpu ilk s) →
  core s a → a_queue a = i :: q → id_bufs t !! i = Some b →
  set_qnext None <$> id_bufs t = <[i := set_qnext None b]> (a_bufs a) →
  chain (id_bufs t) (idequeue t) q → havedisk1 t = havedisk1 s → id_woken t = id_woken s →
  ctl_rel (id_ctl t) v → (∀ dr x, at_sec v dr x = D dr x) →
  let a' := mkAd (<[i := served (set_qnext None b)]> (a_bufs a)) D q (a_wait a) (a_woken a ++ [i]) in
  wp (updb i (λ b, set_flags (Z.lor (b_flags b) B_VALID) b) ;;
      updb i (λ b, set_flags (Z.ldiff (b_flags b) B_DIRTY) b) ;;
      modify (λ s, set_iwoken (id_woken s ++ [i]) s) ;;
      q ← gets idequeue;
      (match q with None => mret tt | Some _ => idestart q end) ;;
      release icpu ilk) (λ _ s', ide_rel s' a') t.
Proof using Type*.
  intros Hqu E1 E2 Hc Hqe Hb Hbs Hch E3 E4 Hv Hsec a'. pose proof (lookup_lt_Some _ _ _ Hb) as Hlt.
  pose proof (co_nodup _ _ Hc) as Hnd. rewrite Hqe in Hnd. apply NoDup_cons in Hnd as [Hiq Hnd].
  wstep. eapply wp_updb; [exact Hb|]. wstep. eapply wp_updb; [simpl; by apply list_lookup_insert_eq|].
  cbn [id_bufs set_ibufs]. rewrite list_insert_insert_eq. wstep. wstep. cbn [id_woken set_ibufs]. set (bs := <[i := _]> _).
  assert (bs = <[i := served b]> (id_bufs t)) as Hbs' by done. clearbody bs.
  assert (set_qnext None <$> bs = a_bufs a') as Hab.
  { rewrite Hbs', list_fmap_insert, Hbs, list_insert_insert_eq. done. }
  assert (chain bs (idequeue t) q) as Hch' by (rewrite Hbs'; eapply chain_upd; [exact Hch|exact Hb|by left]).
  assert (i < length (a_bufs a))%nat as Hlta.
  { pose proof (f_equal length Hbs) as Hl. rewrite length_fmap, length_insert in Hl. lia. }
  assert (∀ j, j ≠ i → a_bufs a' !! j = a_bufs a !! j) as Hne by (intros; simpl; by rewrite list_lookup_insert_ne).
  assert (∀ t', havedisk1 t' = havedisk1 t → id_bufs t' = bs → id_woken t' = id_woken t ++ [i] → idequeue t' = idequeue t →
    (∃ v', ctl_rel (id_ctl t') v' ∧ busy_with a' v') → core t' a') as Hcore.
  { intros t' F1 F2 F3 F4 Hctl. destruct Hc as [C1 C2 C3 C4 C5 C6 C7 C8 C9]. rewrite Hqe in *.
    split; simpl; try done; [by rewrite F1, E3|by rewrite F2|rewrite F3, E4, C3; done|by rewrite F2, F4| | |].
    - intros j Hj. apply C6. by right.
    - intros j Hj. rewrite list_lookup_insert_ne by by intros ->. apply C7. by right.
    - intros j Hj Hn. destruct (decide (j = i)) as [-> |Hji].
      + rewrite list_lookup_insert_eq by done. eexists. split; [reflexivity|]. apply served_flags.
      + rewrite list_lookup_insert_ne by done. apply C8; [done|]. rewrite elem_of_cons. tauto. }
  wstep. wstep. cbn [idequeue set_iwoken set_ibufs]. wstep. destruct q as [|j q].
  - simpl in Hch. rewrite Hch. wstep. eapply wp_release; try apply _; [exact Hqu|done|done|].
    split; [by apply quiet_leave|]. apply core_leave. apply Hcore; try done.
    exists v. split; [done|]. by unfold busy_with.
  - pose proof Hch' as (Hq' & bj & Hbj & _). rewrite Hq'.
    assert (j ≠ i) as Hji by (intros ->; apply Hiq; left).
    assert (a_bufs a' !! j = Some (set_qnext None bj)) as Hbj' by (by rewrite <- Hab, list_lookup_fmap, Hbj).
    assert (request bj) as Hrj.
    { destruct (co_req _ _ Hc j) as (b1 & Hb1 & Hr1); [rewrite Hqe; right; left|].
      rewrite <- Hne, Hbj' in Hb1 by done. injection Hb1 as <-. by apply request_q in Hr1. }
    eapply (wp_idestart j bj v); [exact Hbj|done|exact Hv|]. intros c v' Hc' Hst.
    eapply wp_release; try apply _; [exact Hqu|done|done|].
    split; [by apply quiet_leave|]. apply core_leave. apply Hcore; try done.
    exists v'. split; [done|]. unfold busy_with. simpl a_queue. exists (set_qnext None bj). split; [done|].
    by eapply started_ext.
Qed.

Lemma sim_intr s a : ide_rel s a → wp ideintr (λ _ s', ∃ o, possible o ∧ ide_rel s' (serve o a)) s.
Proof using Type*.
  intros [Hq Hc]. unfold ideintr, serve. wstep. eapply wp_acquire; try apply _; [exact Hq|]. wstep. wstep.
  change (idequeue (acquired icpu ilk s)) with (idequeue s). pose proof (co_chain _ _ Hc) as Hch.
  destruct (a_queue a) as [|i q] eqn:Hqe.
  { simpl in Hch. rewrite Hch. eapply wp_release; try apply _; [exact Hq|done|done|]. exists Good. split; [apply possible_good|].
    split; [by apply quiet_leave|]. by apply core_leave, core_acquired. }
  destruct Hch as (-> & b & Hb & Hch). pose proof (abs_lookup _ _ _ _ Hc Hb) as Hba. rewrite Hba.
  destruct (co_ctl _ _ Hc) as (v & Hv & Hbw). unfold busy_with in Hbw. rewrite Hqe in Hbw.
  destruct Hbw as (b' & Hb' & Hst). rewrite Hba in Hb'. injection Hb' as <-.
  pose proof (co_nodup _ _ Hc) as Hnd. rewrite Hqe in Hnd. apply NoDup_cons in Hnd as [Hiq _].
  wstep. eapply wp_rdb; [exact Hb|]. wstep. wstep. wstep. unfold started in Hst.
  change (dirty (set_qnext None b)) with (hasflag (b_flags b) B_DIRTY) in *.
  destruct (hasflag (b_flags b) B_DIRTY).
  - destruct Hst as (o & Ho & Hsec). wstep. eapply wp_mono; [|intros u s' HR; exists o; split; [exact Ho|exact HR]].
    eapply (wp_intr_tail s _ a i q b _ v); try done. simpl. by rewrite (co_bufs _ _ Hc), list_insert_id.
  - destruct Hst as [Hop Hsec]. wstep. eapply wp_idewait; [exact Hv|]. intros c r Hc' [->|(-> & _ & Hfail)].
    + change (0 <=? 0) with true. cbv iota.
      destruct (ctl_insl_law _ _ _ _ Hc' Hop) as [Hd Hr]. wstep. eapply wp_run; [reflexivity|].
      cbn [id_ctl set_ctl]. rewrite Hd, Hsec. cbn [id_bufs set_ctl set_queue]. eapply wp_updb; [exact Hb|].
      eapply wp_mono; [|intros u s' HR; exists Good; split; [apply possible_good|exact HR]].
      eapply (wp_intr_tail s _ a i q (set_data (a_disk a (drive b) (b_blockno b)) b) (a_disk a)
        (mkAta (at_reg v) AtaIdle (at_sec v))); try done.
      * simpl. apply list_lookup_insert_eq. by eapply lookup_lt_Some.
      * simpl. by rewrite list_fmap_insert, (co_bufs _ _ Hc).
      * simpl. eapply chain_upd; [exact Hch|exact Hb|by right].
    + change (0 <=? -1) with false. cbv iota. wstep.
      eapply wp_mono; [|intros u s' HR; exists (Bad (replicate BSIZE 0)); split; [by split|exact HR]].
      eapply (wp_intr_tail s _ a i q b (a_disk a) v); try done. simpl. by rewrite (co_bufs _ _ Hc), list_insert_id.
Qed.

Lemma ide_step_wp e s (Q : st → Prop) :
  wp (event_code e) (λ _, Q) s → ∃ s', ide_step e s = Some (s', false) ∧ Q s'.
Proof. unfold wp, ide_step. destruct (event_code e s); [|done..]. eauto. Qed.

Lemma ide_step_wsw e s (Q : st → Prop) :
  wsw (event_code e) Q s → ∃ s', ide_step e s = Some (s', true) ∧ Q s'.
Proof. unfold wsw, ide_step. destruct (event_code e s); [done..| |done|done]; eauto. Qed.

Lemma sim_step e s a :
  ide_rel s a → enabled a e →
  ∃ o s', possible o ∧ ide_step e s = Some (s', (abs_step o e a).2) ∧ ide_rel s' (abs_step o e a).1.
Proof using Type*.
  intros HR He. pose proof possible_good as Hg. destruct e as [i fl dev n d|i|i|].
  - destruct (ide_step_wp (Prep i fl dev n d) s _ (sim_prep s a i fl dev n d HR He)) as (s' & H1 & H2). by exists Good, s'.
  - destruct (ide_step_wsw (Rw i) s _ (sim_rw s a i HR He)) as (s' & H1 & H2). by exists Good, s'.
  - simpl. destruct (bool_decide_reflect (i ∈ a_queue a)) as [Hi|Hi].
    + destruct (ide_step_wsw (Resume i) s _ (sim_resume_sleeps s a i HR Hi)) as (s' & H1 & H2). by exists Good, s'.
    + pose proof (sim_resume_returns s a i HR He Hi) as H. simpl in H. rewrite bool_decide_false in H by done.
      destruct (ide_step_wp (Resume i) s _ H) as (s' & H1 & H2). by exists Good, s'.
  - destruct (ide_step_wp Intr s _ (sim_intr s a HR)) as (s' & H1 & o & H2 & H3). by exists o, s'.
Qed.
End refine.

(** ** Properties *)

Section props.
Context {C : Type} `{!AtaController C}.
Abbreviation st := (ide C).

(** A history of the driver: the state it ends in, and for every call whether
    it went to sleep. *)
Fixpoint ide_run (es : list event) (s : st) : option (st * list bool) :=
  match es with
  | [] => Some (s, [])
  | e :: es =>
      '(s1, b) ← ide_step e s;
      '(s2, bs) ← ide_run es s1;
      Some (s2, b :: bs)
  end.

(** The abstract driver, when the requests have these outcomes (there is one
    for each event; only those of interrupts matter). *)
Fixpoint abs_run (os : list outcome) (es : list event) (a : adrv) : adrv * list bool :=
  match os, es with
  | o :: os, e :: es =>
      let '(a1, b) := abs_step o e a in let '(a2, bs) := abs_run os es a1 in (a2, b :: bs)
  | _, _ => (a, [])
  end.

(** Each event is allowed when it comes, whatever became of the requests. *)
Fixpoint all_enabled (es : list event) (a : adrv) : Prop :=
  match es with
  | [] => True
  | e :: es => enabled a e ∧ ∀ o, possible o → all_enabled es (abs_step o e a).1
  end.

Lemma sim_run es : ∀ s a,
  ide_rel s a → all_enabled es a →
  ∃ os s', length os = length es ∧ Forall possible os ∧
    ide_run es s = Some (s', (abs_run os es a).2) ∧ ide_rel s' (abs_run os es a).1.
Proof using Type*.
  induction es as [|e es IH]; intros s a HR He; [by exists [], s|]. destruct He as [He Hes].
  destruct (sim_step e s a HR He) as (o & s1 & Ho & Hs1 & HR1).
  destruct (IH s1 _ HR1 (Hes o Ho)) as (os & s2 & Hl & Hos & Hs2 & HR2).
  exists (o :: os), s2. split; [simpl; by rewrite Hl|]. split; [by constructor|].
  cbn [ide_run abs_run]. rewrite Hs1. simpl. rewrite Hs2. destruct (abs_step o e a) as [a1 b]. simpl in *.
  by destruct (abs_run os es a1).
Qed.

(** [C3] The driver serves its requests one after the other in the order of
    the calls, whatever the order in which processes call iderw, interrupts
    arrive (also when nothing is under way) and sleepers wake up, and whether
    or not the controller reports errors: it never panics, faults or spins;
    every buffer and its flags are those of a queue whose first request is
    served by each interrupt, a call sleeps exactly while its request is in
    the queue, and wakeup is called once for each request served.  A request
    served has its block of the disk read or written (always, when the
    controller reports no error); one that failed leaves the buffer's bytes,
    or another content of the sector, and is marked valid and clean all the
    same. *)
Theorem ide_refines es (s : st) a :
  ide_rel s a → all_enabled es a →
  ∃ os s', length os = length es ∧ Forall possible os ∧ (¬ ctl_fails → os = replicate (length es) Good) ∧
    ide_run es s = Some (s', (abs_run os es a).2) ∧ ide_rel s' (abs_run os es a).1 ∧
    set_qnext None <$> id_bufs s' = a_bufs (abs_run os es a).1 ∧ id_woken s' = a_woken (abs_run os es a).1.
Proof using Type*.
  intros HR He. destruct (sim_run es s a HR He) as (os & s' & Hl & Hos & Hs & HR'). exists os, s'.
  split; [done|]. split; [done|]. split; [|split; [done|split; [done|]]; destruct HR' as [_ Hc]; split; apply Hc].
  intros Hrel. symmetry. apply replicate_as_elem_of. split; [done|]. intros o Ho.
  rewrite Forall_forall in Hos. specialize (Hos o Ho). destruct o as [|d]; [done|]. by destruct Hos.
Qed.

(** ideinit leaves the lock free and the controller idle, with the disks as
    they were; the driver is ready when it has found disk 1. *)
Lemma wp_probe v n : ∀ (s : st) (Q : unit → st → Prop),
  ctl_rel (id_ctl s) v →
  (∀ c d1, ctl_rel c v → d1 = 1 ∨ d1 = havedisk1 s → Q tt (set_disk1 d1 (set_ctl c s))) → wp (probe n) Q s.
Proof.
  induction n as [|n IH]; intros s Q HR HQ; cbn [probe].
  - wstep. specialize (HQ (id_ctl s) (havedisk1 s) HR ltac:(by right)). by destruct s.
  - wstep. eapply wp_run; [reflexivity|]. pose proof (ctl_status_law _ _ HR) as HR'. wstep.
    + wstep. apply HQ; [done|by left].
    + apply IH; [done|]. intros c d1 Hc Hd. by apply HQ.
Qed.

Theorem ideinit_ready (s : st) v :
  cpu_ok (id_cpu s) → ctl_rel (id_ctl s) v → idequeue s = None →
  wp ideinit (λ _ s', (havedisk1 s' = 1 ∨ havedisk1 s' = havedisk1 s) ∧
    (havedisk1 s' ≠ 0 → ide_rel s' (mkAd (set_qnext None <$> id_bufs s) (at_sec v) [] [] (id_woken s)))) s.
Proof using Type*.
  intros Hcpu HR Hq. unfold ideinit. wstep. wstep. wstep. eapply wp_idewait; [exact HR|]. intros c1 r1 H1 _.
  wstep. eapply wp_outb; [exact H1|]. intros c2 H2. wstep. eapply wp_probe; [exact H2|]. intros c3 d1 H3 Hd.
  eapply wp_outb; [exact H3|]. intros c4 H4. split; [done|]. intros Hn. split; [by split|].
  split; simpl; try done; [apply NoDup_nil_2|by intros i Hi%not_elem_of_nil..|]. eexists. split; [exact H4|]. done.
Qed.

(** Interrupts drain the queue: after as many as there are requests, every
    suspended iderw returns when it goes on. *)
Lemma serve_queue (s : st) o a : core s a → a_queue (serve o a) = tail (a_queue a) ∧ a_wait (serve o a) = a_wait a.
Proof.
  intros Hc. unfold serve. destruct (a_queue a) as [|i q] eqn:E; [by rewrite E|].
  destruct (co_req _ _ Hc i) as (b & -> & _); [rewrite E; left|]. by destruct (dirty b).
Qed.

Theorem ide_drains (s : st) a :
  ide_rel s a → let n := length (a_queue a) in
  ∃ s' a', ide_run (replicate n Intr) s = Some (s', replicate n false) ∧ ide_rel s' a' ∧ a_queue a' = [] ∧
    ∀ i, i ∈ a_wait a → ∃ s'', ide_step (Resume i) s' = Some (s'', false).
Proof using Type*.
  intros HR n.
  assert (∃ s' a', ide_run (replicate n Intr) s = Some (s', replicate n false) ∧ ide_rel s' a' ∧ a_queue a' = [] ∧
    a_wait a' = a_wait a) as (s' & a' & H1 & H2 & H3 & H4).
  { revert s a n HR. assert (∀ n s a, ide_rel s a → length (a_queue a) = n →
      ∃ s' a', ide_run (replicate n Intr) s = Some (s', replicate n false) ∧ ide_rel s' a' ∧ a_queue a' = [] ∧
        a_wait a' = a_wait a) as H.
    { induction n as [|n IH]; intros s a HR Hn; [exists s, a; by destruct (a_queue a)|].
      destruct (sim_step Intr s a HR I) as (o & s1 & _ & Hs1 & HR1). simpl in Hs1, HR1.
      destruct (serve_queue s o a (proj2 HR)) as [Hq Hw].
      destruct (IH s1 (serve o a) HR1) as (s' & a' & H1 & H2 & H3 & H4).
      { rewrite Hq. destruct (a_queue a); simpl in *; lia. }
      exists s', a'. split_and!; [|done|done|by rewrite H4]. cbn [replicate ide_run]. rewrite Hs1. simpl. by rewrite H1. }
    intros s a n HR. by apply H. }
  exists s', a'. split_and!; [done|done|done|]. intros i Hi.
  destruct (sim_step (Resume i) s' a' H2) as (o & s'' & _ & Hs & _); [by rewrite <- H4 in Hi|].
  simpl in Hs. rewrite H3 in Hs. exists s''. exact Hs.
Qed.
End props.

(** ** A controller *)

(** The task file, with a busy time of two readings of the status after
    every command; [err] is a controller whose disk always fails, and whose sectors
    are cleared by a write. *)
Record simctl (err : bool) := mkSim { sc_ata : ata; sc_delay : nat }.
Arguments mkSim {err}.
Arguments sc_ata {err}.
Arguments sc_delay {err}.

Definition sim_status {err} (c : simctl err) : Z * simctl err :=
  match sc_delay c with
  | O => (if err then Z.lor IDE_DRDY IDE_ERR else IDE_DRDY, c)
  | S n => (IDE_BSY, mkSim (sc_ata c) n)
  end.

Definition sim_outb {err} (p x : Z) (c : simctl err) : simctl err :=
  mkSim (ata_outb p x (sc_ata c)) (if p =? 0x1f7 then 2 else sc_delay c).

Definition sim_data {err} (op : ata_op) (sec : sectors) (c : simctl err) : simctl err :=
  mkSim (mkAta (at_reg (sc_ata c)) op sec) (sc_delay c).

#[export] Instance sim_controller err : AtaController (simctl err).
Proof.
  refine {|
    ctl_outb := sim_outb;
    ctl_status := sim_status;
    ctl_outsl := λ d c, match at_op (sc_ata c) with
                        | AtaWrite dr x => sim_data AtaIdle (sec_upd dr x (if err then replicate BSIZE 0 else d) (at_sec (sc_ata c))) c
                        | _ => c
                        end;
    ctl_insl := λ c, match at_op (sc_ata c) with
                     | AtaRead dr x => (at_sec (sc_ata c) dr x, sim_data AtaIdle (at_sec (sc_ata c)) c)
                     | _ => ([], c)
                     end;
    ctl_rel := λ c v, sc_ata c = v ∧ (sc_delay c ≤ 2)%nat;
    ctl_polls := 2;
    ctl_wait := sc_delay;
    ctl_fails := err = true;
  |}.
  - by intros c v [_ H].
  - intros p x c v [<- H]. split; [done|]. simpl. case_if; lia.
  - intros c v [<- H]. unfold sim_status. destruct (sc_delay c) eqn:E; simpl; split; try done; lia.
  - intros c v _. unfold sim_status. destruct (sc_delay c) eqn:E; simpl; [by destruct err|by destruct err].
  - intros c v _. unfold sim_status. destruct (sc_delay c) eqn:E; simpl; [left; by destruct err|right; lia].
  - intros d c v dr x [<- H] Hop Hd. rewrite Hop. destruct err; [right; split; [done|]; by exists (replicate BSIZE 0)|by left].
  - intros c v dr x [<- H] Hop. rewrite Hop. done.
Defined.

(** ** Witnesses *)

Definition buf_w : buf := mkBuf 0 0 0 0 0 None (replicate BSIZE 0).
Definition ide_w err : ide (simctl err) :=
  mkIde cpu0 (initlock "ide" lock0) None 1 [buf_w; buf_w; buf_w]
    (mkSim (mkAta (λ _, 0) AtaIdle (λ _ x, replicate BSIZE x)) 0) [].
Definition drv_w : adrv := mkAd [buf_w; buf_w; buf_w] (λ _ x, replicate BSIZE x) [] [] [].

Lemma ide_w_rel : ide_rel (ide_w false) drv_w.
Proof.
  split; [by split|]. split; try done; [apply NoDup_nil_2|by intros i Hi%not_elem_of_nil..|].
  eexists. split; [split; [reflexivity|simpl; lia]|]. done.
Qed.

(** A read of block 5 and, while it is under way, a write of block 6. *)
Definition events_w : list event :=
  [Prep 0 B_BUSY 1 5 (replicate BSIZE 0); Rw 0;
   Prep 1 (Z.lor B_BUSY B_DIRTY) 1 6 (replicate BSIZE 9); Rw 1; Intr; Resume 1; Resume 0; Intr; Intr; Resume 1].

Lemma request_intro b :
  bool_decide (hasflag (b_flags b) B_BUSY = true ∧ Z.land (b_flags b) (Z.lor B_VALID B_DIRTY) ≠ B_VALID ∧
    (b_dev b = 0 ∨ b_dev b = 1) ∧ 0 ≤ b_blockno b ∧ b_blockno b < FSSIZE ∧ length (b_data b) = BSIZE) = true → request b.
Proof. rewrite bool_decide_eq_true. intros (H1 & H2 & H3 & H4 & H5 & H6). by split. Qed.

(** Requests of a reliable controller are done. *)
Ltac good_only := let H := fresh "H" in intros [|?] H; [clear H|by destruct H].

Lemma events_w_enabled : all_enabled (C:=simctl false) events_w drv_w.
Proof.
  assert (0%nat ∉ [1%nat]) by (by rewrite list_elem_of_singleton).
  assert (1%nat ∉ [0%nat]) by (by rewrite list_elem_of_singleton).
  unfold events_w. cbn [all_enabled enabled].
  split; [split; [apply not_elem_of_nil|by eexists]|good_only].
  split; [split; [apply not_elem_of_nil|eexists; split; [reflexivity|by apply request_intro]]|good_only].
  split; [split; [done|by eexists]|good_only].
  split; [split; [done|eexists; split; [reflexivity|by apply request_intro]]|good_only].
  repeat (split; [first [done|apply (bool_decide_unpack _); by vm_compute]|good_only]). done.
Qed.

Lemma ide_refines_witness :
  ∃ s', ide_run events_w (ide_w false) = Some (s', [false; true; false; true; false; true; false; false; false; false]) ∧
        b_data <$> id_bufs s' = [replicate BSIZE 5; replicate BSIZE 9; replicate BSIZE 0] ∧
        at_sec (sc_ata (id_ctl s')) true 6 = replicate BSIZE 9 ∧ id_woken s' = [0%nat; 1%nat].
Proof.
  destruct (ide_refines events_w (ide_w false) drv_w ide_w_rel events_w_enabled) as (os & s' & _ & _ & Ho & Hr & HR & Hb & Hw).
  rewrite (Ho ltac:(discriminate)) in *.
  exists s'. split; [rewrite Hr; by vm_compute|]. split_and!.
  - apply (f_equal (fmap b_data)) in Hb. rewrite <- list_fmap_compose in Hb. change (b_data ∘ set_qnext None) with b_data in Hb.
    rewrite Hb. by vm_compute.
  - destruct (co_ctl _ _ (proj2 HR)) as (v & [<- _] & Hs). rewrite Hs. by vm_compute.
  - rewrite Hw. by vm_compute.
Defined.

(** A failed read goes unnoticed: the handler marks the buffer valid although
    it has read nothing, so iderw returns with the old bytes of the buffer. *)
Theorem ide_read_error_ignored :
  match ide_run [Prep 0 B_BUSY 1 5 (replicate BSIZE 0); Rw 0; Intr; Resume 0] (ide_w true) with
  | Some (s, outcomes) =>
      outcomes = [false; true; false; false] ∧
      (b_data <$> id_bufs s !! 0%nat) = Some (replicate BSIZE 0) ∧ (b_flags <$> id_bufs s !! 0%nat) = Some (Z.lor B_BUSY B_VALID)
  | None => False
  end.
Proof. vm_compute. done. Qed.

(** A failed write goes unnoticed as well: the buffer is marked clean although
    the sector does not have its bytes. *)
Theorem ide_write_error_ignored :
  match ide_run [Prep 0 (Z.lor B_BUSY B_DIRTY) 1 6 (replicate BSIZE 9); Rw 0; Intr; Resume 0] (ide_w true) with
  | Some (s, outcomes) =>
      outcomes = [false; true; false; false] ∧
      (b_flags <$> id_bufs s !! 0%nat) = Some (Z.lor B_BUSY B_VALID) ∧ at_sec (sc_ata (id_ctl s)) true 6 = replicate BSIZE 0
  | None => False
  end.
Proof. vm_compute. done. Qed.
