(* ===== verification/Log.v ===== *)
(** * The write-ahead log (xv6/log.c)

    The log works on any buffer cache that satisfies [BufferCache]; its
    state is the cache's state paired with struct log.  The crash model: the
    disk writes of the cache happen in order and each block is written
    whole, so a crash leaves the disk after some prefix of them. *)

From S2P Require Import Prelude Kernel Spinlock Block Bio.
Local Open Scope Z_scope.

(** ** Data *)

Definition MAXOPBLOCKS : Z := 10.
Definition LOGSIZE : Z := MAXOPBLOCKS * 3.

(** struct log with its struct logheader; [log_woken] counts wakeup(&log). *)
Record logst := mkLog {
  log_lock : spinlock;
  log_start : Z;
  log_size : Z;
  outstanding : Z;
  committing : Z;
  log_dev : Z;
  lh_n : Z;
  lh_block : list Z;
  log_woken : nat;
}.

Definition set_log_lock (k : spinlock) (l : logst) : logst :=
  mkLog k (log_start l) (log_size l) (outstanding l) (committing l) (log_dev l)
    (lh_n l) (lh_block l) (log_woken l).
Definition set_log_area (st sz dev : Z) (l : logst) : logst :=
  mkLog (log_lock l) st sz (outstanding l) (committing l) dev (lh_n l) (lh_block l) (log_woken l).
Definition set_outstanding (n : Z) (l : logst) : logst :=
  mkLog (log_lock l) (log_start l) (log_size l) n (committing l) (log_dev l)
    (lh_n l) (lh_block l) (log_woken l).
Definition set_committing (n : Z) (l : logst) : logst :=
  mkLog (log_lock l) (log_start l) (log_size l) (outstanding l) n (log_dev l)
    (lh_n l) (lh_block l) (log_woken l).
Definition set_lh_n (n : Z) (l : logst) : logst :=
  mkLog (log_lock l) (log_start l) (log_size l) (outstanding l) (committing l) (log_dev l)
    n (lh_block l) (log_woken l).
Definition set_lh_block (b : list Z) (l : logst) : logst :=
  mkLog (log_lock l) (log_start l) (log_size l) (outstanding l) (committing l) (log_dev l)
    (lh_n l) b (log_woken l).
Definition wakeup_log (l : logst) : logst :=
  mkLog (log_lock l) (log_start l) (log_size l) (outstanding l) (committing l) (log_dev l)
    (lh_n l) (lh_block l) (S (log_woken l)).

(** Running cache code in a state that has the cache as its first part. *)
Definition lift {B L A} (m : M B A) : M (B * L) A := λ s,
  match m s.1 with
  | Ret a b => Ret a (b, s.2)
  | Panic msg => Panic msg
  | Sleeps c b => Sleeps c (b, s.2)
  | Spins => Spins
  | Fault => Fault
  end.

Definition onl {B L} (f : L → L) : M (B * L) unit := modify (λ s, (s.1, f s.2)).

Section log.
Context {B : Type} `{!BufferCache B}.
Abbreviation st := (B * logst)%type.

Definition log_cpu : lens st cpu :=
  mkLens (λ s, lget bc_cpu s.1) (λ c s, (lput bc_cpu c s.1, s.2)).
Definition log_lk : lens st spinlock :=
  mkLens (λ s, log_lock s.2) (λ k s, (s.1, set_log_lock k s.2)).

(** The bytes of a held buffer. *)
Definition bdata (i : nat) : M st block :=
  d ← gets (λ s, bc_data i s.1); deref d.

Definition bread' (dev x : Z) : M st nat := lift (bc_bread dev x).
Definition bwrite' (i : nat) : M st unit := lift (bc_bwrite i).
Definition brelse' (i : nat) : M st unit := lift (bc_brelse i).
Definition bset' (i : nat) (d : block) : M st unit := lift (bc_setdata i d).

(** [log.lh.block[i]] and its assignment; out of range is undefined. *)
Definition lh_get (i : nat) : M st Z :=
  o ← gets (λ s, lh_block s.2 !! i); deref o.
Definition lh_put (i : nat) (x : Z) : M st unit :=
  o ← gets (λ s, lh_block s.2 !! i); _ ← deref o;
  onl (λ l, set_lh_block (<[i := x]> (lh_block l)) l).

(** One round of install_trans. *)
Definition install_one (tail : nat) : M st unit :=
  l ← gets snd;
  lbuf ← bread' (log_dev l) (log_start l + Z.of_nat tail + 1);
  x ← lh_get tail;
  dbuf ← bread' (log_dev l) x;
  d ← bdata lbuf;
  bset' dbuf d ;;
  bwrite' dbuf ;;
  brelse' lbuf ;;
  brelse' dbuf.

Definition install_trans : M st unit :=
  n ← gets (λ s, lh_n s.2);
  forM (seq 0 (Z.to_nat n)) install_one.

(** The on-disk header: n at offset 0, block[i] at 4 + 4*i. *)
Definition read_head : M st unit :=
  l ← gets snd;
  buf ← bread' (log_dev l) (log_start l);
  d ← bdata buf;
  onl (set_lh_n (i32 (getw 0 d))) ;;
  n ← gets (λ s, lh_n s.2);
  forM (seq 0 (Z.to_nat n)) (λ i,
    if decide (4 + 4 * i + 4 ≤ BSIZE)%nat
    then lh_put i (i32 (getw (4 + 4 * i) d)) else fault) ;;
  brelse' buf.

Fixpoint put_header (i n : nat) (bl : list Z) (d : block) : block :=
  match n with
  | O => d
  | S n => put_header (S i) n bl (setw (4 + 4 * i) (u32 (nth i bl 0)) d)
  end.

Definition write_head : M st unit :=
  l ← gets snd;
  buf ← bread' (log_dev l) (log_start l);
  d ← bdata buf;
  bset' buf (put_header 0 (Z.to_nat (lh_n l)) (lh_block l) (setw 0 (u32 (lh_n l)) d)) ;;
  bwrite' buf ;;
  brelse' buf.

Definition recover_from_log : M st unit :=
  read_head ;;
  install_trans ;;
  onl (set_lh_n 0) ;;
  write_head.

(** readsb, from fs.c: the fields initlog uses are words 3 and 4. *)
Definition initlog (dev : Z) : M st unit :=
  if (BSIZE <=? 4 + 4 * Z.to_nat LOGSIZE)%nat then panic "initlog: too big logheader" else
  onl (λ l, set_log_lock (initlock "log" (log_lock l)) l) ;;
  bp ← bread' dev 1;
  d ← bdata bp;
  brelse' bp ;;
  onl (set_log_area (i32 (getw 16 d)) (i32 (getw 12 d)) dev) ;;
  recover_from_log.

(** The body of begin_op's loop; sleep gives up the lock, and the process
    that wakes up starts over. *)
Definition begin_op : M st unit :=
  acquire log_cpu log_lk ;;
  l ← gets snd;
  if negb (committing l =? 0) then release log_cpu log_lk ;; sleeps 0 else
  if LOGSIZE <? lh_n l + (outstanding l + 1) * MAXOPBLOCKS
  then release log_cpu log_lk ;; sleeps 0 else
  onl (λ l, set_outstanding (outstanding l + 1) l) ;;
  release log_cpu log_lk.

(** One round of write_log. *)
Definition write_log_one (tail : nat) : M st unit :=
  l ← gets snd;
  to ← bread' (log_dev l) (log_start l + Z.of_nat tail + 1);
  x ← lh_get tail;
  from ← bread' (log_dev l) x;
  d ← bdata from;
  bset' to d ;;
  bwrite' to ;;
  brelse' from ;;
  brelse' to.

Definition write_log : M st unit :=
  n ← gets (λ s, lh_n s.2);
  forM (seq 0 (Z.to_nat n)) write_log_one.

Definition commit : M st unit :=
  n ← gets (λ s, lh_n s.2);
  if 0 <? n then
    write_log ;;
    write_head ;;
    install_trans ;;
    onl (set_lh_n 0) ;;
    write_head
  else mret tt.

Definition end_op : M st unit :=
  acquire log_cpu log_lk ;;
  onl (λ l, set_outstanding (outstanding l - 1) l) ;;
  l ← gets snd;
  if negb (committing l =? 0) then panic "log.committing" else
  (if outstanding l =? 0
   then onl (set_committing 1) else onl wakeup_log) ;;
  release log_cpu log_lk ;;
  if outstanding l =? 0 then
    commit ;;
    acquire log_cpu log_lk ;;
    onl (set_committing 0) ;;
    onl wakeup_log ;;
    release log_cpu log_lk
  else mret tt.

(** The search of log_write: the first [i < n] with [block[i] == x], or n. *)
Fixpoint absorb (bl : list Z) (x : Z) (n i : nat) : nat :=
  match n with
  | O => i
  | S n => if nth i bl 0 =? x then i else absorb bl x n (S i)
  end.

Definition log_write (b : nat) : M st unit :=
  l ← gets snd;
  if (LOGSIZE <=? lh_n l) || (log_size l - 1 <=? lh_n l)
  then panic "too big a transaction" else
  if outstanding l <? 1 then panic "log_write outside of trans" else
  acquire log_cpu log_lk ;;
  x ← gets (λ s, bc_blockno b s.1);
  x ← deref x;
  let i := absorb (lh_block l) x (Z.to_nat (lh_n l)) 0 in
  lh_put i x ;;
  (if Z.of_nat i =? lh_n l then onl (set_lh_n (lh_n l + 1)) else mret tt) ;;
  lift (bc_setdirty b) ;;
  release log_cpu log_lk.
End log.

(** ** Write-through: a block read, changed, written and released *)

Definition v_put (x : Z) (d : block) (v : bview) : bview :=
  mkBv (<[Z.to_nat x := d]> (bv_cur v)) (<[Z.to_nat x := d]> (bv_disk v)) (bv_held v)
    (bv_pin v ∖ {[x]}) (bv_writes v ++ [(x, d)]).

Definition apply_writes (d : list block) (ws : list (Z * block)) : list block :=
  foldl (λ d w, <[Z.to_nat w.1 := w.2]> d) d ws.

Definition v_puts (ws : list (Z * block)) (v : bview) : bview :=
  foldl (λ v w, v_put w.1 w.2 v) v ws.

Lemma v_puts_fields ws v :
  bv_cur (v_puts ws v) = apply_writes (bv_cur v) ws ∧
  bv_disk (v_puts ws v) = apply_writes (bv_disk v) ws ∧
  bv_held (v_puts ws v) = bv_held v ∧
  bv_pin (v_puts ws v) = bv_pin v ∖ list_to_set ws.*1 ∧
  bv_writes (v_puts ws v) = bv_writes v ++ ws.
Proof.
  revert v. induction ws as [|[x d] ws IH]; intros v; simpl.
  - split_and!; try done; [set_solver|by rewrite app_nil_r].
  - destruct (IH (v_put x d v)) as (H1 & H2 & H3 & H4 & H5). split_and!; try done.
    + rewrite H4. simpl. set_solver.
    + rewrite H5. simpl. by rewrite <-app_assoc.
Qed.

Lemma apply_app d ws ws' : apply_writes d (ws ++ ws') = apply_writes (apply_writes d ws) ws'.
Proof. unfold apply_writes, v_puts. by rewrite foldl_app. Qed.

Lemma v_puts_app ws ws' v : v_puts (ws ++ ws') v = v_puts ws' (v_puts ws v).
Proof. unfold apply_writes, v_puts. by rewrite foldl_app. Qed.

Lemma apply_length d ws : length (apply_writes d ws) = length d.
Proof. revert d. induction ws; intros d; simpl; [done|]. by rewrite IHws, length_insert. Qed.

Lemma apply_notin d ws x :
  0 ≤ x → Forall (λ w, 0 ≤ w.1) ws → x ∉ ws.*1 →
  apply_writes d ws !! Z.to_nat x = d !! Z.to_nat x.
Proof.
  intros Hx. revert d. induction ws as [|[y e] ws IH]; intros d Hf Hn; simpl; [done|].
  apply Forall_cons in Hf as [Hy Hf]. simpl in *. apply not_elem_of_cons in Hn as [Hne Hn].
  rewrite IH by done. apply list_lookup_insert_ne. lia.
Qed.

Lemma apply_in d ws x e :
  Forall (λ w, 0 ≤ w.1) ws → NoDup ws.*1 → (x, e) ∈ ws → x < Z.of_nat (length d) →
  apply_writes d ws !! Z.to_nat x = Some e.
Proof.
  revert d. induction ws as [|[y f] ws IH]; intros d Hf Hn Hin Hx; simpl; [set_solver|].
  apply Forall_cons in Hf as [Hy Hf]. simpl in *. apply NoDup_cons in Hn as [Hni Hn].
  apply elem_of_cons in Hin as [[= -> ->]|Hin].
  - rewrite apply_notin by done. apply list_lookup_insert_eq. lia.
  - apply IH; try done. by rewrite length_insert.
Qed.

Section log_facts.
Context {B : Type} `{!BufferCache B}.
Abbreviation st := (B * logst)%type.
Implicit Types (b : B) (l : logst) (v : bview).

Lemma wp_lift {A} (m : M B A) (Q : A → st → Prop) b l :
  wp m (λ a b', Q a (b', l)) b → wp (lift m) Q (b, l).
Proof. unfold wp, lift. simpl. by destruct (m b). Qed.

Lemma wp_onl (f : logst → logst) (Q : unit → st → Prop) b l :
  Q tt (b, f l) → wp (onl f) Q (b, l).
Proof. done. Qed.

Lemma wp_bread' b l v x (Q : nat → st → Prop) :
  bc_rel b v → 0 ≤ x < bv_len v → (∀ i, bv_held v !! i ≠ Some x) →
  (x ∈ bv_pin v ∨ (size (bv_pin v) + size (bv_held v) < NBUF)%nat) →
  (∀ i b', bv_held v !! i = None → bc_rel b' (v_hold i x v) → Q i (b', l)) →
  wp (bread' 1 x) Q (b, l).
Proof. intros. apply wp_lift. by eapply bread_law. Qed.

Lemma wp_bdata b l v i x (Q : block → st → Prop) :
  bc_rel b v → bv_held v !! i = Some x →
  (∀ d, bv_cur v !! Z.to_nat x = Some d → Q d (b, l)) → wp (bdata i) Q (b, l).
Proof.
  intros H1 H2 HQ. destruct (data_law _ _ _ _ H1 H2) as (_ & _ & d & Hd & Hc).
  unfold bdata. wstep. wstep. simpl. rewrite Hd. apply wp_ret. by apply HQ.
Qed.

Lemma wp_bset' b l v i x d (Q : unit → st → Prop) :
  bc_rel b v → bv_held v !! i = Some x →
  (∀ b', bc_rel b' (v_set x d v) → Q tt (b', l)) → wp (bset' i d) Q (b, l).
Proof. intros. apply wp_lift. by eapply setdata_law. Qed.

Lemma wp_bwrite' b l v i x d (Q : unit → st → Prop) :
  bc_rel b v → bv_held v !! i = Some x → bv_cur v !! Z.to_nat x = Some d →
  (∀ b', bc_rel b' (v_write x d v) → Q tt (b', l)) → wp (bwrite' i) Q (b, l).
Proof. intros. apply wp_lift. by eapply bwrite_law. Qed.

Lemma wp_brelse' b l v i x (Q : unit → st → Prop) :
  bc_rel b v → bv_held v !! i = Some x →
  (x ∈ bv_pin v ∨ bv_cur v !! Z.to_nat x = bv_disk v !! Z.to_nat x) →
  (∀ b', bc_rel b' (v_unhold i v) → Q tt (b', l)) → wp (brelse' i) Q (b, l).
Proof. intros. apply wp_lift. by eapply brelse_law. Qed.

Lemma wp_lh_get b l i x (Q : Z → st → Prop) :
  lh_block l !! i = Some x → Q x (b, l) → wp (lh_get i) Q (b, l).
Proof. intros H HQ. unfold lh_get. wstep. wstep. simpl. by rewrite H. Qed.

(** Writing block [x], from block [y]'s contents, both buffers held. *)
Lemma v_put_from v i j x y d :
  bv_held v = ∅ → i ≠ j →
  v_unhold i (v_unhold j (v_write x d (v_set x d (v_hold j y (v_hold i x v))))) = v_put x d v.
Proof.
  intros Hh Hij. unfold v_unhold, v_write, v_set, v_hold, v_put. simpl. rewrite Hh.
  f_equal. rewrite delete_insert_id by (by rewrite lookup_insert_ne).
  by rewrite delete_insert_id.
Qed.

(** The same with the written block read second and released second. *)
Lemma v_put_to v i j x y d :
  bv_held v = ∅ → i ≠ j →
  v_unhold j (v_unhold i (v_write x d (v_set x d (v_hold j x (v_hold i y v))))) = v_put x d v.
Proof.
  intros Hh Hij. unfold v_unhold, v_write, v_set, v_hold, v_put. simpl. rewrite Hh.
  f_equal. rewrite insert_insert_ne by done. rewrite delete_insert_id by (by rewrite lookup_insert_ne).
  by rewrite delete_insert_id.
Qed.

Lemma held_two v i j x y k z :
  bv_held v = ∅ → bv_held (v_hold j y (v_hold i x v)) !! k = Some z →
  (k = j ∧ z = y) ∨ (k = i ∧ z = x).
Proof.
  intros Hh. simpl. rewrite Hh, !lookup_insert_Some, lookup_empty. naive_solver.
Qed.

Lemma put_room v x d : (size (bv_pin (v_put x d v)) ≤ size (bv_pin v))%nat.
Proof. simpl. apply subseteq_size. set_solver. Qed.

Lemma wp_write_log_one b l v tail x d (Q : unit → st → Prop) :
  let L := log_start l + Z.of_nat tail + 1 in
  bc_rel b v → bv_held v = ∅ → log_dev l = 1 → lh_block l !! tail = Some x →
  x ∈ bv_pin v → bv_cur v !! Z.to_nat x = Some d → 0 ≤ x < bv_len v →
  0 ≤ L < bv_len v → x ≠ L → (size (bv_pin v) < NBUF)%nat →
  (∀ b', bc_rel b' (v_put L d v) → Q tt (b', l)) → wp (write_log_one tail) Q (b, l).
Proof.
  intros L HR Hh Hdev Hx Hp Hc Hxr HL Hne Hsz HQ. unfold write_log_one. wstep. wstep. simpl snd.
  rewrite Hdev. fold L. wstep. eapply wp_bread'; [exact HR|done| | |].
  { intros i. by rewrite Hh, lookup_empty. }
  { right. rewrite Hh, map_size_empty. lia. }
  intros i1 b1 Hi1 R1. wstep. eapply wp_lh_get; [exact Hx|]. wstep.
  eapply wp_bread'; [exact R1|done| |by left|].
  { intros i. simpl. rewrite Hh, lookup_insert_Some, lookup_empty. naive_solver. }
  intros i2 b2 Hi2 R2. simpl in Hi2. rewrite lookup_insert_None in Hi2. destruct Hi2 as [_ Hi].
  assert (Hd2 : bv_held (v_hold i2 x (v_hold i1 L v)) !! i2 = Some x) by apply lookup_insert_eq.
  assert (Hd1 : bv_held (v_hold i2 x (v_hold i1 L v)) !! i1 = Some L).
  { simpl. by rewrite lookup_insert_ne, lookup_insert_eq. }
  wstep. eapply wp_bdata; [exact R2|exact Hd2|]. intros d' Hd'. simpl in Hd'.
  assert (d' = d) as -> by congruence.
  wstep. eapply wp_bset'; [exact R2|exact Hd1|]. intros b3 R3.
  assert (HLc : (Z.to_nat L < length (bv_cur v))%nat)
    by (rewrite (bc_rel_len _ _ HR); unfold bv_len in HL; lia).
  wstep. eapply wp_bwrite'; [exact R3|exact Hd1|simpl; by apply list_lookup_insert_eq|].
  intros b4 R4. wstep. eapply wp_brelse'; [exact R4|exact Hd2|simpl; set_solver|].
  intros b5 R5. eapply wp_brelse'; [exact R5|simpl; rewrite lookup_delete_ne by done; exact Hd1| |].
  { right. simpl. rewrite !list_lookup_insert_eq; [done| |done].
    unfold bv_len in HL. lia. }
  intros b6 R6. rewrite v_put_from in R6 by done. by apply HQ.
Qed.

Lemma wp_install_one b l v tail x d (Q : unit → st → Prop) :
  let L := log_start l + Z.of_nat tail + 1 in
  bc_rel b v → bv_held v = ∅ → log_dev l = 1 → lh_block l !! tail = Some x →
  (x ∈ bv_pin v ∨ (size (bv_pin v) + 1 < NBUF)%nat) → L ∉ bv_pin v →
  bv_cur v !! Z.to_nat L = Some d → 0 ≤ x < bv_len v →
  0 ≤ L < bv_len v → x ≠ L → (size (bv_pin v) < NBUF)%nat →
  (∀ b', bc_rel b' (v_put x d v) → Q tt (b', l)) → wp (install_one tail) Q (b, l).
Proof.
  intros L HR Hh Hdev Hx Hp HLp Hc Hxr HL Hne Hsz HQ.
  assert (Hclean : bv_cur v !! Z.to_nat L = bv_disk v !! Z.to_nat L).
  { eapply bc_rel_clean; [exact HR|lia|done|]. intros i. by rewrite Hh, lookup_empty. }
  unfold install_one. wstep. wstep. simpl snd.
  rewrite Hdev. fold L. wstep. eapply wp_bread'; [exact HR|done| | |].
  { intros i. by rewrite Hh, lookup_empty. }
  { right. rewrite Hh, map_size_empty. lia. }
  intros i1 b1 Hi1 R1. wstep. eapply wp_lh_get; [exact Hx|]. wstep.
  eapply wp_bread'; [exact R1|done| | |].
  { intros i. simpl. rewrite Hh, lookup_insert_Some, lookup_empty. naive_solver. }
  { destruct Hp as [?|?]; [by left|right]. simpl. rewrite Hh, map_size_insert, lookup_empty.
    rewrite map_size_empty. done. }
  intros i2 b2 Hi2 R2. simpl in Hi2. rewrite lookup_insert_None in Hi2. destruct Hi2 as [_ Hi].
  assert (Hd2 : bv_held (v_hold i2 x (v_hold i1 L v)) !! i2 = Some x) by apply lookup_insert_eq.
  assert (Hd1 : bv_held (v_hold i2 x (v_hold i1 L v)) !! i1 = Some L).
  { simpl. by rewrite lookup_insert_ne, lookup_insert_eq. }
  wstep. eapply wp_bdata; [exact R2|exact Hd1|]. intros d' Hd'. simpl in Hd'.
  assert (d' = d) as -> by congruence.
  wstep. eapply wp_bset'; [exact R2|exact Hd2|]. intros b3 R3.
  assert (Hxc : (Z.to_nat x < length (bv_cur v))%nat)
    by (rewrite (bc_rel_len _ _ HR); unfold bv_len in Hxr; lia).
  wstep. eapply wp_bwrite'; [exact R3|exact Hd2|simpl; by apply list_lookup_insert_eq|].
  intros b4 R4. wstep. eapply wp_brelse'; [exact R4|exact Hd1| |].
  { right. simpl. rewrite !list_lookup_insert_ne by lia. done. }
  intros b5 R5. eapply wp_brelse'; [exact R5|simpl; rewrite lookup_delete_ne by done; exact Hd2| |].
  { right. simpl. rewrite !list_lookup_insert_eq; [done| |done].
    unfold bv_len in Hxr. lia. }
  intros b6 R6. rewrite v_put_to in R6 by done. by apply HQ.
Qed.

Definition header (n : Z) (bl : list Z) (d : block) : block :=
  put_header 0 (Z.to_nat n) bl (setw 0 (u32 n) d).

Lemma wp_write_head b l v d (Q : unit → st → Prop) :
  bc_rel b v → bv_held v = ∅ → log_dev l = 1 → 0 ≤ log_start l < bv_len v →
  (size (bv_pin v) < NBUF)%nat → bv_cur v !! Z.to_nat (log_start l) = Some d →
  (∀ b', bc_rel b' (v_put (log_start l) (header (lh_n l) (lh_block l) d) v) → Q tt (b', l)) →
  wp write_head Q (b, l).
Proof.
  intros HR Hh Hdev HL Hsz Hd HQ. unfold write_head. wstep. wstep. simpl snd. rewrite Hdev.
  wstep. eapply wp_bread'; [exact HR|done| | |].
  { intros i. by rewrite Hh, lookup_empty. }
  { right. rewrite Hh, map_size_empty. lia. }
  intros i b1 Hi R1.
  assert (Hd1 : bv_held (v_hold i (log_start l) v) !! i = Some (log_start l)) by apply lookup_insert_eq.
  wstep. eapply wp_bdata; [exact R1|exact Hd1|]. intros d' Hd'. simpl in Hd'.
  assert (d' = d) as -> by congruence.
  wstep. eapply wp_bset'; [exact R1|exact Hd1|]. intros b2 R2. fold (header (lh_n l) (lh_block l) d) in R2.
  assert (HLc : (Z.to_nat (log_start l) < length (bv_cur v))%nat)
    by (rewrite (bc_rel_len _ _ HR); unfold bv_len in HL; lia).
  wstep. eapply wp_bwrite'; [exact R2|exact Hd1|simpl; by apply list_lookup_insert_eq|].
  intros b3 R3. eapply wp_brelse'; [exact R3|exact Hd1| |].
  { right. simpl. rewrite !list_lookup_insert_eq; [done| |done]. unfold bv_len in HL. lia. }
  intros b4 R4. apply HQ. revert R4. unfold v_put, v_unhold, v_write, v_set, v_hold. simpl.
  rewrite Hh, delete_insert_id by done. done.
Qed.

(** ** The loops *)

(** The log copies of [items], from log block [j] on. *)
Fixpoint log_copies (start : Z) (j : nat) (items : list (Z * block)) : list (Z * block) :=
  match items with
  | [] => []
  | (_, d) :: r => (start + Z.of_nat j + 1, d) :: log_copies start (S j) r
  end.

Definition in_log (l : logst) (x : Z) : Prop := log_start l ≤ x < log_start l + log_size l.

(** The log area lies inside the disk. *)
Definition area_ok (l : logst) (len : Z) : Prop :=
  0 ≤ log_start l ∧ log_start l + log_size l ≤ len.

(** A block of the file system proper. *)
Definition home_ok (l : logst) (len x : Z) : Prop := 0 ≤ x < len ∧ ¬ in_log l x.

Lemma wp_write_log_loop items j b l v (Q : unit → st → Prop) :
  bc_rel b v → bv_held v = ∅ → log_dev l = 1 → area_ok l (bv_len v) →
  Z.of_nat (j + length items) < log_size l → (size (bv_pin v) < NBUF)%nat →
  (∀ x, x ∈ bv_pin v → home_ok l (bv_len v) x) →
  (∀ k x d, items !! k = Some (x, d) →
     lh_block l !! (j + k)%nat = Some x ∧ x ∈ bv_pin v ∧ bv_cur v !! Z.to_nat x = Some d) →
  (∀ b', bc_rel b' (v_puts (log_copies (log_start l) j items) v) → Q tt (b', l)) →
  wp (forM (seq j (length items)) write_log_one) Q (b, l).
Proof.
  revert j b v. induction items as [|[x d] items IH]; intros j b v HR Hh Hdev Ha Hj Hsz Hp Hi HQ; simpl.
  { apply wp_ret. by apply HQ. }
  destruct (Hi 0%nat x d eq_refl) as (Hb & Hxp & Hc). rewrite Nat.add_0_r in Hb.
  destruct (Hp x Hxp) as [Hxr Hxl]. simpl in Hj.
  destruct Ha as [Ha1 Ha2]. unfold in_log in Hxl.
  wstep. eapply (wp_write_log_one b l v j x d); try done; try lia.
  intros b' R'. apply (IH (S j) _ _ R'); try done.
  - simpl. split; [done|]. unfold bv_len in *. simpl. by rewrite length_insert.
  - lia.
  - eapply Nat.le_lt_trans; [apply put_room|done].
  - intros y Hy. unfold bv_len. simpl. rewrite length_insert. apply Hp. simpl in Hy. set_solver.
  - intros k y e Hk. destruct (Hi (S k) y e Hk) as (H1 & H2 & H3).
    destruct (Hp y H2) as [Hyr Hyl]. unfold in_log in Hyl. split_and!.
    + by rewrite <-Nat.add_succ_comm in H1.
    + simpl. assert (y ≠ log_start l + Z.of_nat j + 1) by lia. set_solver.
    + simpl. rewrite list_lookup_insert_ne by lia. done.
Qed.

Lemma wp_install_loop items j b l v (Q : unit → st → Prop) :
  bc_rel b v → bv_held v = ∅ → log_dev l = 1 → area_ok l (bv_len v) →
  Z.of_nat (j + length items) < log_size l → (size (bv_pin v) < NBUF)%nat →
  NoDup items.*1 → (bv_pin v = ∅ ∨ ∀ x, x ∈ items.*1 → x ∈ bv_pin v) →
  (∀ x, x ∈ bv_pin v → ¬ in_log l x) →
  (∀ k x d, items !! k = Some (x, d) →
     lh_block l !! (j + k)%nat = Some x ∧ home_ok l (bv_len v) x ∧
     bv_cur v !! Z.to_nat (log_start l + Z.of_nat (j + k) + 1) = Some d) →
  (∀ b', bc_rel b' (v_puts items v) → Q tt (b', l)) →
  wp (forM (seq j (length items)) install_one) Q (b, l).
Proof.
  revert j b v. induction items as [|[x d] items IH];
    intros j b v HR Hh Hdev Ha Hj Hsz Hn Hp Hpl Hi HQ; simpl.
  { apply wp_ret. by apply HQ. }
  destruct (Hi 0%nat x d eq_refl) as (Hb & [Hxr Hxl] & Hc). rewrite Nat.add_0_r in *.
  simpl in Hj, Hn. apply NoDup_cons in Hn as [Hxn Hn].
  destruct Ha as [Ha1 Ha2]. unfold in_log in Hxl.
  wstep. eapply (wp_install_one b l v j x d); try done; try lia.
  { destruct Hp as [->|Hp]; [right; rewrite size_empty; unfold NBUF; lia|left; apply Hp; by left]. }
  { intros Hin. apply Hpl in Hin. unfold in_log in Hin. lia. }
  intros b' R'. apply (IH (S j) _ _ R'); try done.
  - simpl. split; [done|]. unfold bv_len in *. simpl. by rewrite length_insert.
  - lia.
  - eapply Nat.le_lt_trans; [apply put_room|done].
  - simpl. destruct Hp as [->|Hp]; [left; set_solver|right]. intros y Hy.
    assert (y ≠ x) by (intros ->; by apply Hxn). apply elem_of_difference. split; [apply Hp; by right|set_solver].
  - intros y Hy. apply Hpl. simpl in Hy. set_solver.
  - intros k y e Hk. destruct (Hi (S k) y e Hk) as (H1 & H2 & H3).
    split; [|split].
    + by rewrite <-Nat.add_succ_comm in H1.
    + unfold home_ok, bv_len in *. simpl. by rewrite length_insert.
    + simpl. apply lookup_lt_Some in Hk. rewrite list_lookup_insert_ne by lia. rewrite <-H3. do 2 f_equal. lia.
Qed.

(** ** The header block *)

Lemma put_header_facts i n bl d :
  (4 + 4 * (i + n) ≤ length d)%nat →
  length (put_header i n bl d) = length d ∧
  (∀ off, (off + 4 ≤ 4 + 4 * i)%nat → getw off (put_header i n bl d) = getw off d) ∧
  (∀ k, (i ≤ k < i + n)%nat → getw (4 + 4 * k) (put_header i n bl d) = u32 (nth k bl 0)).
Proof.
  revert i d. induction n as [|n IH]; intros i d Hl; cbn [put_header].
  { split_and!; try done. intros; lia. }
  destruct (IH (S i) (setw (4 + 4 * i) (u32 (nth i bl 0)) d)) as (H1 & H2 & H3);
    [rewrite setw_length; lia|].
  rewrite setw_length in H1 by lia. split_and!; [done| |].
  - intros off Hoff. rewrite H2 by lia. apply getw_setw_other; lia.
  - intros k Hk. destruct (decide (k = i)) as [->|Hne]; [|apply H3; lia].
    rewrite H2 by lia. apply getw_setw; [apply u32_range|lia].
Qed.

Lemma header_facts n bl d :
  length d = BSIZE → (n ≤ 30)%nat →
  length (header (Z.of_nat n) bl d) = BSIZE ∧
  getw 0 (header (Z.of_nat n) bl d) = Z.of_nat n ∧
  ∀ k, (k < n)%nat → getw (4 + 4 * k) (header (Z.of_nat n) bl d) = u32 (nth k bl 0).
Proof.
  intros Hl Hn. unfold header. rewrite Nat2Z.id.
  assert (Hu : u32 (Z.of_nat n) = Z.of_nat n) by (apply u32_small; unfold is_u32; lia).
  destruct (put_header_facts 0 n bl (setw 0 (u32 (Z.of_nat n)) d)) as (H1 & H2 & H3);
    [rewrite setw_length; rewrite ?Hl; unfold BSIZE; lia|].
  rewrite setw_length in H1 by (rewrite Hl; unfold BSIZE; lia).
  split_and!; [congruence| |intros k Hk; apply H3; lia].
  rewrite H2 by lia. rewrite Hu. apply getw_setw; [unfold is_u32; lia|rewrite Hl; unfold BSIZE; lia].
Qed.

(** What the log on disk says: the home blocks and the logged contents. *)
Definition log_items (start : Z) (disk : list block) : list (Z * block) :=
  let h : block := default ([] : block) (disk !! Z.to_nat start) in
  (λ k : nat, (i32 (getw (4 + 4 * k) h),
               default ([] : block) (disk !! Z.to_nat (start + Z.of_nat k + 1))))
    <$> seq 0 (Z.to_nat (i32 (getw 0 h))).

(** A disk whose log recovery can read. *)
Record log_wf (l : logst) (disk : list block) : Prop := {
  lw_area : area_ok l (Z.of_nat (length disk));
  lw_hdr : ∃ h : block, disk !! Z.to_nat (log_start l) = Some h ∧ length h = BSIZE;
  lw_len : Z.of_nat (length (log_items (log_start l) disk)) < log_size l;
  lw_max : (length (log_items (log_start l) disk) ≤ Z.to_nat LOGSIZE)%nat;
  lw_nodup : NoDup (log_items (log_start l) disk).*1;
  lw_home x : x ∈ (log_items (log_start l) disk).*1 →
              home_ok l (Z.of_nat (length disk)) x;
}.

(** read_head's copy loop. *)
Lemma wp_read_loop (h : block) n j b l (Q : unit → st → Prop) :
  (j + n ≤ Z.to_nat LOGSIZE)%nat → length (lh_block l) = Z.to_nat LOGSIZE →
  (∀ bl, length bl = Z.to_nat LOGSIZE → (∀ k, (k < j)%nat → bl !! k = lh_block l !! k) →
     (∀ k, (j ≤ k < j + n)%nat → bl !! k = Some (i32 (getw (4 + 4 * k) h))) →
     Q tt (b, set_lh_block bl l)) →
  wp (forM (seq j n) (λ i,
    if decide (4 + 4 * i + 4 ≤ BSIZE)%nat
    then lh_put i (i32 (getw (4 + 4 * i) h)) else fault)) Q (b, l).
Proof.
  change (Z.to_nat LOGSIZE) with 30%nat.
  revert j l. induction n as [|n IH]; intros j l Hj Hl HQ; cbn [seq forM].
  { apply wp_ret. assert (l = set_lh_block (lh_block l) l) as -> by (by destruct l).
    apply HQ; [done|done|intros; lia]. }
  wstep. rewrite decide_True by (unfold BSIZE; lia). unfold lh_put.
  destruct (lookup_lt_is_Some_2 (lh_block l) j) as [y Hy]; [lia|].
  wstep. wstep. wstep. eapply wp_deref; [exact Hy|]. unfold onl. wstep.
  apply IH; [lia|simpl; by rewrite length_insert|]. simpl.
  intros bl Hbl H1 H2. apply (HQ bl Hbl).
  - intros k Hk. rewrite H1 by lia. apply list_lookup_insert_ne. lia.
  - intros k Hk. destruct (decide (k = j)) as [->|Hne]; [|apply H2; lia].
    rewrite H1 by lia. apply list_lookup_insert_eq. lia.
Qed.

Lemma v_hold_unhold v i x : bv_held v !! i = None → v_unhold i (v_hold i x v) = v.
Proof.
  intros H. destruct v. unfold v_unhold, v_hold. simpl in *. by rewrite delete_insert_id.
Qed.

Lemma wp_read_head b l v (h : block) (Q : unit → st → Prop) :
  let n := Z.to_nat (i32 (getw 0 h)) in
  bc_rel b v → bv_held v = ∅ → log_dev l = 1 → 0 ≤ log_start l < bv_len v →
  log_start l ∉ bv_pin v → (size (bv_pin v) < NBUF)%nat →
  bv_cur v !! Z.to_nat (log_start l) = Some h →
  (n ≤ Z.to_nat LOGSIZE)%nat → length (lh_block l) = Z.to_nat LOGSIZE →
  (∀ b' bl, bc_rel b' v → length bl = Z.to_nat LOGSIZE →
     (∀ k, (k < n)%nat → bl !! k = Some (i32 (getw (4 + 4 * k) h))) →
     Q tt (b', set_lh_block bl (set_lh_n (i32 (getw 0 h)) l))) →
  wp read_head Q (b, l).
Proof.
  intros n HR Hh Hdev HL Hnp Hsz Hd Hn Hbl HQ. unfold read_head. wstep. wstep. simpl snd.
  rewrite Hdev. wstep. eapply wp_bread'; [exact HR|done| | |].
  { intros i. by rewrite Hh, lookup_empty. }
  { right. rewrite Hh, map_size_empty. lia. }
  intros i b1 Hi R1.
  assert (Hd1 : bv_held (v_hold i (log_start l) v) !! i = Some (log_start l)) by apply lookup_insert_eq.
  wstep. eapply wp_bdata; [exact R1|exact Hd1|]. intros d' Hd'. simpl in Hd'.
  assert (d' = h) as -> by congruence.
  wstep. apply wp_onl. wstep. wstep. wstep. apply wp_read_loop; [done|done|].
  intros bl Hl1 _ Hl2. eapply wp_brelse'; [exact R1|exact Hd1| |].
  { right. simpl. eapply bc_rel_clean; [exact HR|lia|done|]. intros j. by rewrite Hh, lookup_empty. }
  intros b2 R2. rewrite v_hold_unhold in R2 by done. apply HQ; [done|done|].
  intros k Hk. apply Hl2. split; [lia|exact Hk].
Qed.

(** ** Recovery *)

Lemma items_lookup start disk k x d :
  log_items start disk !! k = Some (x, d) →
  (k < length (log_items start disk))%nat ∧
  x = i32 (getw (4 + 4 * k) (default ([] : block) (disk !! Z.to_nat start))) ∧
  d = default ([] : block) (disk !! Z.to_nat (start + Z.of_nat k + 1)).
Proof.
  intros H. split; [by eapply lookup_lt_Some|]. unfold log_items in H.
  rewrite list_lookup_fmap_Some in H. destruct H as (j & [= -> ->] & [-> _]%lookup_seq). done.
Qed.

Lemma home_nonneg l len ws :
  (∀ x, x ∈ ws.*1 → home_ok l len x) → Forall (λ w : Z * block, 0 ≤ w.1) ws.
Proof.
  intros H. apply Forall_forall. intros w Hw. apply (H w.1).
  apply list_elem_of_fmap. by exists w.
Qed.

Lemma home_not_in l len (ws : list (Z * block)) x :
  (∀ y, y ∈ ws.*1 → home_ok l len y) → in_log l x → x ∉ ws.*1.
Proof. intros H Hx Hin. by destruct (H x Hin). Qed.

Lemma wp_recover b l d ws0 (Q : unit → st → Prop) :
  let v := mkBv d d ∅ ∅ ws0 in let items := log_items (log_start l) d in
  bc_rel b v → log_dev l = 1 → log_wf l d → length (lh_block l) = Z.to_nat LOGSIZE →
  (∀ b' l' h0, bc_rel b' (v_put (log_start l) h0 (v_puts items v)) →
     length h0 = BSIZE → getw 0 h0 = 0 → lh_n l' = 0 →
     log_start l' = log_start l → log_size l' = log_size l → Q tt (b', l')) →
  wp recover_from_log Q (b, l).
Proof.
  intros v items HR Hdev W Hbl HQ. pose proof W as [[Ha1 Ha2] (h & Hh & Hhl) Hlen Hmax Hnd Hhome].
  fold items in Hlen, Hmax, Hnd, Hhome.
  assert (Hn : Z.to_nat (i32 (getw 0 h)) = length items).
  { unfold items, log_items. by rewrite length_fmap, length_seq, Hh. }
  assert (Hst : in_log l (log_start l)) by (unfold in_log; lia).
  unfold recover_from_log. wstep. eapply (wp_read_head b l v h); try done.
  { unfold bv_len. simpl. unfold in_log in Hst. lia. }
  { change (size (∅ : gset Z) < NBUF)%nat. rewrite size_empty. unfold NBUF. lia. }
  { by rewrite Hn. }
  intros b1 bl R1 Hl1 Hl2. wstep. unfold install_trans. wstep. wstep.
  simpl lh_n. rewrite Hn. eapply (wp_install_loop items 0 _ _ v); try done.
  { change (size (∅ : gset Z) < NBUF)%nat. rewrite size_empty. unfold NBUF. lia. }
  { by left. }
  { intros k x e Hk. pose proof (items_lookup _ _ _ _ _ Hk) as (Hkn & -> & ->).
    fold items in Hkn. rewrite Hh in *. simpl lh_block. split; [|split].
    - apply Hl2. by rewrite Hn.
    - apply Hhome. apply list_elem_of_fmap. exists (i32 (getw (4 + 4 * k) h), default ([] : block) (d !! Z.to_nat (log_start l + Z.of_nat k + 1))).
      split; [done|]. by eapply list_elem_of_lookup_2.
    - simpl log_start. change (0 + k)%nat with k.
      destruct (lookup_lt_is_Some_2 d (Z.to_nat (log_start l + Z.of_nat k + 1))) as [e He]; [lia|].
      simpl bv_cur. unfold block in *. by rewrite He. }
  intros b2 R2. wstep. apply wp_onl.
  destruct (v_puts_fields items v) as (F1 & F2 & F3 & F4 & F5).
  assert (Hc : bv_cur (v_puts items v) !! Z.to_nat (log_start l) = Some h).
  { rewrite F1, apply_notin; [done|done|by eapply home_nonneg|by eapply home_not_in]. }
  eapply (wp_write_head b2 _ (v_puts items v) h); [done|by rewrite F3|done| | |done|].
  { unfold bv_len. rewrite F2, apply_length. simpl. unfold in_log in Hst. lia. }
  { rewrite F4. change (bv_pin v) with (∅ : gset Z).
    rewrite empty_difference_L, size_empty. unfold NBUF. lia. }
  intros b3 R3. simpl in R3. destruct (header_facts 0 bl h Hhl) as (Hz1 & Hz2 & _); [lia|].
  eapply HQ; [exact R3|done..].
Qed.

(** ** Commit *)

(** Between system calls: the log lists the pinned blocks [items] with
    their contents, no buffer is held, the header on disk is clear. *)
Record log_ready (b : B) (l : logst) (v : bview) (items : list (Z * block)) : Prop := {
  lr_rel : bc_rel b v;
  lr_held : bv_held v = ∅;
  lr_dev : log_dev l = 1;
  lr_area : area_ok l (bv_len v);
  lr_blen : length (lh_block l) = Z.to_nat LOGSIZE;
  lr_n : lh_n l = Z.of_nat (length items);
  lr_size : Z.of_nat (length items) < log_size l;
  lr_nbuf : (length items < NBUF)%nat;
  lr_pin : bv_pin v = list_to_set items.*1;
  lr_nodup : NoDup items.*1;
  lr_home x : x ∈ items.*1 → home_ok l (bv_len v) x;
  lr_int : bv_len v ≤ 2147483648;
  lr_items k x d : items !! k = Some (x, d) →
     lh_block l !! k = Some x ∧ bv_cur v !! Z.to_nat x = Some d;
  lr_hdr : ∃ h : block, bv_cur v !! Z.to_nat (log_start l) = Some h ∧ length h = BSIZE ∧ getw 0 h = 0;
}.

(** The disk writes of a commit. *)
Definition commit_writes (start : Z) (items : list (Z * block)) (h1 h0 : block) :=
  log_copies start 0 items ++ [(start, h1)] ++ items ++ [(start, h0)].

Lemma log_copies_lookup start j items k :
  log_copies start j items !! k = (λ w, (start + Z.of_nat (j + k) + 1, w.2)) <$> items !! k.
Proof.
  revert j k. induction items as [|[x d] items IH]; intros j [|k]; simpl; try done.
  - do 3 f_equal. lia.
  - rewrite IH. destruct (items !! k); simpl; [|done]. do 3 f_equal. lia.
Qed.

Lemma log_copies_elem start j items x e :
  (x, e) ∈ log_copies start j items →
  ∃ k, (k < length items)%nat ∧ x = start + Z.of_nat (j + k) + 1 ∧ (∃ y, items !! k = Some (y, e)).
Proof.
  intros [k Hk]%list_elem_of_lookup. rewrite log_copies_lookup in Hk.
  destruct (items !! k) as [[y e']|] eqn:E; simpl in Hk; [|done]. simplify_eq.
  exists k. split_and!; [by eapply lookup_lt_Some|done|eauto].
Qed.

Lemma log_copies_in l items x :
  Z.of_nat (length items) < log_size l → x ∈ (log_copies (log_start l) 0 items).*1 →
  in_log l x ∧ x ≠ log_start l.
Proof.
  intros Hs ([y e] & -> & H)%list_elem_of_fmap. apply log_copies_elem in H as (k & Hk & -> & _).
  unfold in_log. simpl. lia.
Qed.

Lemma log_copies_nodup start j items : NoDup (log_copies start j items).*1.
Proof.
  revert j. induction items as [|[x d] items IH]; intros j; simpl; [apply NoDup_nil_2|].
  apply NoDup_cons. split; [|apply IH]. intros ([y e] & E & H)%list_elem_of_fmap.
  apply log_copies_elem in H as (k & _ & -> & _). simpl in E. lia.
Qed.

Lemma ready_pin_small b l v items : log_ready b l v items → (size (bv_pin v) < NBUF)%nat.
Proof.
  intros R. rewrite (lr_pin _ _ _ _ R), size_list_to_set by apply R.
  rewrite length_fmap. apply R.
Qed.

Lemma copies_lookup base b l v items k x d :
  log_ready b l v items → items !! k = Some (x, d) → Z.of_nat (length base) = bv_len v →
  apply_writes base (log_copies (log_start l) 0 items)
    !! Z.to_nat (log_start l + Z.of_nat k + 1) = Some d.
Proof.
  intros R Hk Hb. pose proof (lookup_lt_Some _ _ _ Hk). destruct (lr_area _ _ _ _ R) as [Ha1 Ha2].
  pose proof (lr_size _ _ _ _ R). apply apply_in.
  - apply Forall_forall. intros [y e] Hy. apply log_copies_elem in Hy as (j & _ & -> & _). simpl. lia.
  - apply log_copies_nodup.
  - apply list_elem_of_lookup. exists k. rewrite log_copies_lookup, Hk. done.
  - lia.
Qed.

Lemma ready_curlen b l v items : log_ready b l v items → Z.of_nat (length (bv_cur v)) = bv_len v.
Proof. intros R. unfold bv_len. by rewrite (bc_rel_len _ _ (lr_rel _ _ _ _ R)). Qed.

(** The view once the header is on disk. *)
Lemma logged_view b l v items h1 :
  let W := log_copies (log_start l) 0 items ++ [(log_start l, h1)] in
  log_ready b l v items →
  bv_held (v_puts W v) = ∅ ∧ bv_pin (v_puts W v) = bv_pin v ∧ bv_len (v_puts W v) = bv_len v ∧
  bv_cur (v_puts W v) !! Z.to_nat (log_start l) = Some h1 ∧
  ∀ k x d, items !! k = Some (x, d) →
    bv_cur (v_puts W v) !! Z.to_nat (log_start l + Z.of_nat k + 1) = Some d.
Proof.
  intros W R. destruct (v_puts_fields W v) as (F1 & F2 & F3 & F4 & _).
  destruct (lr_area _ _ _ _ R) as [Ha1 Ha2]. pose proof (lr_size _ _ _ _ R) as Hs.
  rewrite F3, F1. split_and!.
  - apply R.
  - rewrite F4, (lr_pin _ _ _ _ R). unfold W. apply set_eq. intros x.
    rewrite elem_of_difference, !elem_of_list_to_set. split; [tauto|]. intros Hx. split; [done|].
    rewrite fmap_app, elem_of_app. pose proof (lr_home _ _ _ _ R x Hx) as [_ Hnl].
    intros [Hin|Hin]; [by apply log_copies_in in Hin as [? _]|].
    apply list_elem_of_singleton in Hin. simpl in Hin. subst x. apply Hnl. unfold in_log. lia.
  - unfold bv_len. by rewrite F2, apply_length.
  - unfold W. rewrite apply_app. simpl. apply list_lookup_insert_eq. rewrite apply_length.
    rewrite (bc_rel_len _ _ (lr_rel _ _ _ _ R)). unfold bv_len in *. lia.
  - intros k x d Hk. unfold W. rewrite apply_app. simpl. rewrite list_lookup_insert_ne by lia.
    eapply copies_lookup; [done..|by eapply ready_curlen].
Qed.

Lemma wp_commit_tail b0 b l v items h1 (Q : unit → st → Prop) :
  let v2 := v_puts (log_copies (log_start l) 0 items ++ [(log_start l, h1)]) v in
  log_ready b0 l v items → bc_rel b v2 → length h1 = BSIZE →
  (∀ b' h0, length h0 = BSIZE → getw 0 h0 = 0 →
     bc_rel b' (v_puts (items ++ [(log_start l, h0)]) v2) → Q tt (b', set_lh_n 0 l)) →
  wp (install_trans ;; onl (set_lh_n 0) ;; write_head) Q (b, l).
Proof.
  intros v2 R HR2 Hl1 HQ. destruct (logged_view b0 l v items h1 R) as (Gh & Gp & Gl & Gs & Gk).
  fold v2 in Gh, Gp, Gl, Gs, Gk. pose proof (ready_pin_small _ _ _ _ R) as Hsz.
  destruct (lr_area _ _ _ _ R) as [Ha1 Ha2]. pose proof (lr_size _ _ _ _ R) as Hs.
  wstep. unfold install_trans. wstep. wstep. simpl lh_n. rewrite (lr_n _ _ _ _ R), Nat2Z.id.
  eapply (wp_install_loop items 0 b l v2); try done; try apply R.
  { rewrite Gl. by split. }
  { by rewrite Gp. }
  { right. intros x Hx. by rewrite Gp, (lr_pin _ _ _ _ R), elem_of_list_to_set. }
  { intros x. rewrite Gp, (lr_pin _ _ _ _ R), elem_of_list_to_set. intros Hx. by apply (lr_home _ _ _ _ R). }
  { intros k x d Hk. destruct (lr_items _ _ _ _ R k x d Hk) as [H1 _]. split; [|split]; [done| |by eapply Gk].
    rewrite Gl. apply (lr_home _ _ _ _ R). apply list_elem_of_fmap. exists (x, d).
    split; [done|by eapply list_elem_of_lookup_2]. }
  intros b3 R3. wstep. apply wp_onl.
  destruct (v_puts_fields items v2) as (F1 & F2 & F3 & F4 & _).
  eapply (wp_write_head b3 _ (v_puts items v2) h1); try done.
  { by rewrite F3. }
  { apply R. }
  { unfold bv_len in *. rewrite F2, apply_length. simpl. lia. }
  { rewrite F4. eapply Nat.le_lt_trans; [|exact Hsz]. apply subseteq_size. rewrite Gp. set_solver. }
  { simpl. rewrite F1, apply_notin; try done;
      [eapply home_nonneg, (lr_home _ _ _ _ R)|eapply home_not_in; [apply (lr_home _ _ _ _ R)|]].
    unfold in_log. lia. }
  intros b4 R4. destruct (header_facts 0 (lh_block l) h1 Hl1) as (Hz1 & Hz2 & _); [lia|].
  eapply HQ; [exact Hz1|exact Hz2|]. by rewrite v_puts_app.
Qed.

Lemma wp_commit b l v items (Q : unit → st → Prop) :
  log_ready b l v items → items ≠ [] →
  (∀ b' h h0, let h1 := header (lh_n l) (lh_block l) h in
     bv_cur v !! Z.to_nat (log_start l) = Some h → length h = BSIZE →
     length h0 = BSIZE → getw 0 h0 = 0 →
     bc_rel b' (v_puts (commit_writes (log_start l) items h1 h0) v) → Q tt (b', set_lh_n 0 l)) →
  wp commit Q (b, l).
Proof.
  intros R Hne HQ. pose proof R as [HR Hh Hdev [Ha1 Ha2] Hbl Hn Hs Hnb Hpin Hnd Hhome Hint Hit (h & Hhd & Hhl & Hh0)].
  pose proof (ready_pin_small _ _ _ _ R) as Hsz.
  set (W1 := log_copies (log_start l) 0 items).
  set (h1 := header (lh_n l) (lh_block l) h).
  assert (Hlen : (0 < length items)%nat) by (destruct items; [done|simpl; lia]).
  unfold commit. wstep. wstep. simpl lh_n. rewrite Hn.
  replace (0 <? Z.of_nat (length items)) with true by (symmetry; apply Z.ltb_lt; lia).
  wstep. unfold write_log. wstep. wstep. simpl lh_n. rewrite Hn, Nat2Z.id.
  eapply (wp_write_log_loop items 0 b l v); try done.
  { intros x Hx. rewrite Hpin, elem_of_list_to_set in Hx. by apply Hhome. }
  { intros k x d Hk. destruct (Hit k x d Hk). split_and!; try done.
    rewrite Hpin, elem_of_list_to_set. apply list_elem_of_fmap. exists (x, d).
    split; [done|by eapply list_elem_of_lookup_2]. }
  intros b1 R1. fold W1 in R1. destruct (v_puts_fields W1 v) as (F1 & F2 & F3 & F4 & _).
  assert (Hnp : ∀ x, x ∈ W1.*1 → x ∉ bv_pin v).
  { intros x Hx. apply log_copies_in in Hx as [Hx _]; [|done]. rewrite Hpin, elem_of_list_to_set.
    by eapply home_not_in. }
  assert (F4' : bv_pin (v_puts W1 v) = bv_pin v) by (rewrite F4; set_solver).
  assert (Hw0 : Forall (λ w, 0 ≤ w.1) W1).
  { apply Forall_forall. intros [y e] Hy. apply log_copies_elem in Hy as (j & _ & -> & _). simpl. lia. }
  assert (Hcur1 : bv_cur (v_puts W1 v) !! Z.to_nat (log_start l) = Some h).
  { rewrite F1, apply_notin; try done. intros Hin. by apply log_copies_in in Hin as [_ ?]. }
  wstep. eapply (wp_write_head b1 l (v_puts W1 v) h); try done; [by rewrite F3| |by rewrite F4'|].
  { unfold bv_len. rewrite F2, apply_length. unfold bv_len in Ha2. lia. }
  intros b2 R2. fold h1 in R2. change (v_put (log_start l) h1 (v_puts W1 v)) with
    (v_puts [(log_start l, h1)] (v_puts W1 v)) in R2. rewrite <-v_puts_app in R2.
  eapply (wp_commit_tail b b2 l v items h1); [done|done| |].
  { unfold h1. rewrite Hn. apply header_facts; [done|unfold NBUF in Hnb; lia]. }
  intros b' h0 Hl0 Hz R3. apply (HQ b' h h0); try done.
  unfold commit_writes. fold h1. rewrite app_assoc, v_puts_app. done.
Qed.

(** ** Crashes during a commit *)

(** The two disks agree on the file system proper. *)
Definition same_data (l : logst) (d d' : list block) : Prop :=
  length d = length d' ∧ ∀ x, 0 ≤ x → ¬ in_log l x → d !! Z.to_nat x = d' !! Z.to_nat x.

Lemma apply_in_log l d ws :
  0 ≤ log_start l → Forall (λ w, in_log l w.1) ws → same_data l (apply_writes d ws) d.
Proof.
  intros H0 Hf. split; [apply apply_length|]. intros x Hx Hn. apply apply_notin; [done| |].
  - eapply Forall_impl; [exact Hf|]. unfold in_log. simpl. intros. lia.
  - intros ([y e] & -> & Hw)%list_elem_of_fmap. rewrite Forall_forall in Hf. by apply Hn, (Hf _ Hw).
Qed.

Lemma ready_start_in b l v items : log_ready b l v items → in_log l (log_start l).
Proof. intros R. pose proof (lr_size _ _ _ _ R). unfold in_log. lia. Qed.

Lemma copies_in_log b l v items :
  log_ready b l v items → Forall (λ w, in_log l w.1) (log_copies (log_start l) 0 items).
Proof.
  intros R. apply Forall_forall. intros [y e] Hw.
  apply (log_copies_in l items y); [apply R|]. apply list_elem_of_fmap. by exists (y, e).
Qed.

(** Once every item has been installed, the data is the cache's. *)
Lemma new_data b l v items ws1 ws2 :
  log_ready b l v items →
  Forall (λ w, in_log l w.1 ∨ w.1 ∈ items.*1) ws1 → Forall (λ w, in_log l w.1) ws2 →
  same_data l (apply_writes (bv_disk v) (ws1 ++ items ++ ws2)) (bv_cur v).
Proof.
  intros R H1 H2. destruct (lr_area _ _ _ _ R) as [Ha1 Ha2].
  assert (Hnn : ∀ ws, Forall (λ w, in_log l w.1 ∨ w.1 ∈ items.*1) ws → Forall (λ w : Z * block, 0 ≤ w.1) ws).
  { intros ws Hws. eapply Forall_impl; [exact Hws|]. intros w [Hw|Hw]; [unfold in_log in Hw; lia|].
    apply (lr_home _ _ _ _ R) in Hw as [[? ?] _]. done. }
  assert (Hi : Forall (λ w : Z * block, 0 ≤ w.1) items) by (eapply home_nonneg, R).
  split; [rewrite apply_length; symmetry; apply (bc_rel_len _ _ (lr_rel _ _ _ _ R))|].
  intros x Hx Hnl. rewrite app_assoc, apply_app, apply_notin; [|done| |].
  2:{ eapply Forall_impl; [exact H2|]. unfold in_log. simpl. intros. lia. }
  2:{ intros ([y e] & -> & Hw)%list_elem_of_fmap. rewrite Forall_forall in H2. by apply Hnl, (H2 _ Hw). }
  rewrite apply_app. destruct (decide (x ∈ items.*1)) as [Hin|Hnin].
  - apply list_elem_of_fmap in Hin as ([y e] & -> & Hin). simpl in *.
    rewrite (apply_in _ _ _ e); [|done|apply R|done|].
    + apply list_elem_of_lookup in Hin as [k Hk]. symmetry. by eapply (lr_items _ _ _ _ R).
    + rewrite apply_length. assert (y ∈ items.*1) as Hy by (apply list_elem_of_fmap; by exists (y, e)).
      apply (lr_home _ _ _ _ R) in Hy as [Hy _]. apply Hy.
  - rewrite apply_notin by done. rewrite apply_notin; [|done|by apply Hnn|].
    + symmetry. eapply bc_rel_clean; [apply R|done| |].
      * by rewrite (lr_pin _ _ _ _ R), elem_of_list_to_set.
      * intros i. by rewrite (lr_held _ _ _ _ R), lookup_empty.
    + intros ([y e] & -> & Hw)%list_elem_of_fmap. rewrite Forall_forall in H1.
      by destruct (H1 _ Hw) as [?|?].
Qed.

(** A clear header: nothing to recover. *)
Lemma clear_wf l (d : list block) (h : block) :
  area_ok l (Z.of_nat (length d)) → 0 < log_size l →
  d !! Z.to_nat (log_start l) = Some h → length h = BSIZE → getw 0 h = 0 →
  log_items (log_start l) d = [] ∧ log_wf l d.
Proof.
  intros Ha Hs Hh Hl Hz.
  assert (E : log_items (log_start l) d = []) by (unfold log_items; rewrite Hh; simpl; by rewrite Hz).
  split; [done|]. split; rewrite ?E; try done; [by exists h|simpl; lia|apply NoDup_nil_2|].
  intros x Hx. by apply not_elem_of_nil in Hx.
Qed.

Lemma take_commit k start items h1 h0 :
  let ws := take k (commit_writes start items h1 h0) in
  (∃ j, ws = take j (log_copies start 0 items)) ∨
  (∃ j, ws = (log_copies start 0 items ++ [(start, h1)]) ++ take j items) ∨
  ws = (log_copies start 0 items ++ [(start, h1)]) ++ items ++ [(start, h0)].
Proof.
  intros ws. unfold ws, commit_writes.
  destruct (decide (k ≤ length (log_copies start 0 items))%nat) as [H1|H1].
  { left. exists k. by rewrite take_app_le. }
  right. rewrite app_assoc. set (W := log_copies start 0 items ++ [(start, h1)]).
  assert (Hl : length W = S (length (log_copies start 0 items))) by (unfold W; rewrite length_app; simpl; lia).
  rewrite take_app_ge by lia. destruct (decide (k - length W ≤ length items)%nat) as [H2|H2].
  - left. exists (k - length W)%nat. by rewrite take_app_le.
  - right. rewrite take_ge; [done|]. rewrite length_app. simpl. lia.
Qed.

Lemma i32_u32 x : i32 (u32 x) = i32 x.
Proof. unfold i32, u32. rewrite Z.mod_mod by lia. done. Qed.

(** With the header written, the log on disk is the transaction. *)
Lemma logged_items b l v items (h : block) j :
  let h1 := header (lh_n l) (lh_block l) h in
  let d := apply_writes (bv_disk v) ((log_copies (log_start l) 0 items ++ [(log_start l, h1)])
                                       ++ take j items) in
  log_ready b l v items → length h = BSIZE → log_items (log_start l) d = items ∧ log_wf l d.
Proof.
  intros h1 d R Hl. destruct (lr_area _ _ _ _ R) as [Ha1 Ha2]. pose proof (lr_size _ _ _ _ R) as Hs.
  destruct (header_facts (length items) (lh_block l) h Hl) as (G1 & G2 & G3);
    [pose proof (lr_nbuf _ _ _ _ R) as Hnb; unfold NBUF in Hnb; lia|].
  rewrite <-(lr_n _ _ _ _ R) in G1, G2, G3. fold h1 in G1, G2, G3.
  assert (Hit : Forall (λ w : Z * block, 0 ≤ w.1) (take j items)) by (apply Forall_take; eapply home_nonneg, R).
  assert (Hni : ∀ x, in_log l x → x ∉ (take j items).*1).
  { intros x Hx Hin. eapply home_not_in; [apply (lr_home _ _ _ _ R)|exact Hx|].
    rewrite <-(take_drop j items), fmap_app. set_solver. }
  assert (Hd : ∀ x, 0 ≤ x → in_log l x → d !! Z.to_nat x =
            apply_writes (apply_writes (bv_disk v) (log_copies (log_start l) 0 items))
              [(log_start l, h1)] !! Z.to_nat x).
  { intros x Hx0 Hx. unfold d. rewrite apply_app, apply_notin by (try done; by apply Hni). by rewrite apply_app. }
  assert (Hh : d !! Z.to_nat (log_start l) = Some h1).
  { rewrite Hd by (try done; by eapply ready_start_in). simpl. apply list_lookup_insert_eq.
    rewrite apply_length. unfold bv_len in Ha2. lia. }
  assert (E : log_items (log_start l) d = items).
  { unfold log_items. unfold block in *. rewrite Hh. simpl default.
    pose proof (lr_int _ _ _ _ R) as Hint. pose proof (lr_nbuf _ _ _ _ R) as Hnb. unfold NBUF in Hnb.
    rewrite G2, (lr_n _ _ _ _ R), i32_small, Nat2Z.id by lia.
    apply list_eq. intros k. rewrite list_lookup_fmap.
    destruct (items !! k) as [[x e]|] eqn:Hk.
    - pose proof (lookup_lt_Some _ _ _ Hk) as Hkl. rewrite lookup_seq_lt by done. simpl.
      destruct (lr_items _ _ _ _ R k x e Hk) as [Hb _].
      pose proof (copies_lookup (bv_disk v) _ _ _ _ _ _ _ R Hk eq_refl) as Hc.
      assert (Hx : x ∈ items.*1) by (apply list_elem_of_fmap; exists (x, e); split; [done|by eapply list_elem_of_lookup_2]).
      destruct (lr_home _ _ _ _ R x Hx) as [Hxr _].
      do 2 f_equal.
      + change (S (S (S (S (k + (k + (k + (k + 0)))))))) with (4 + 4 * k)%nat.
        rewrite G3 by done. rewrite i32_u32, (nth_lookup_Some _ _ _ _ Hb). apply i32_small. lia.
      + rewrite Hd by (unfold in_log; lia). simpl. rewrite list_lookup_insert_ne by lia.
        unfold block in *. rewrite Hc. done.
    - rewrite lookup_seq_ge; [done|]. by apply lookup_ge_None_1. }
  split; [done|]. split; rewrite ?E.
  - unfold d. rewrite apply_length. by split.
  - by exists h1.
  - done.
  - pose proof (lr_nbuf _ _ _ _ R) as Hnb. unfold NBUF in Hnb. change (Z.to_nat LOGSIZE) with 30%nat. lia.
  - apply R.
  - unfold d. rewrite apply_length. apply R.
Qed.

Lemma crash_recoverable b l v items (h h0 : block) k :
  let h1 := header (lh_n l) (lh_block l) h in
  let d := apply_writes (bv_disk v) (take k (commit_writes (log_start l) items h1 h0)) in
  log_ready b l v items → bv_cur v !! Z.to_nat (log_start l) = Some h → length h = BSIZE →
  length h0 = BSIZE → getw 0 h0 = 0 →
  log_wf l d ∧ (same_data l (apply_writes d (log_items (log_start l) d)) (bv_disk v) ∨
                same_data l (apply_writes d (log_items (log_start l) d)) (bv_cur v)).
Proof.
  intros h1 d R Hh Hl Hl0 Hz0. pose proof (ready_start_in _ _ _ _ R) as Hst.
  destruct (lr_area _ _ _ _ R) as [Ha1 Ha2]. pose proof (copies_in_log _ _ _ _ R) as Hci.
  assert (Hlen : length d = length (bv_disk v)) by apply apply_length.
  assert (Har : area_ok l (Z.of_nat (length d))) by (rewrite Hlen; by split).
  assert (Hs0 : 0 < log_size l) by (unfold in_log in Hst; lia).
  destruct (take_commit k (log_start l) items h1 h0) as [[j E]|[[j E]|E]].
  - (* the header is still clear *)
    assert (Hd : d !! Z.to_nat (log_start l) = Some h).
    { unfold d. rewrite E, apply_notin; [|done| |].
      - rewrite <-Hh. symmetry. eapply bc_rel_clean; [apply R|done| |].
        + rewrite (lr_pin _ _ _ _ R), elem_of_list_to_set. eapply home_not_in; [apply R|done].
        + intros i. by rewrite (lr_held _ _ _ _ R), lookup_empty.
      - apply Forall_take. eapply Forall_impl; [exact Hci|]. unfold in_log. simpl. intros. lia.
      - intros Hin. apply (log_copies_in l items (log_start l)); [apply R| |done].
        rewrite <-(take_drop j (log_copies (log_start l) 0 items)), fmap_app. set_solver. }
    destruct (lr_hdr _ _ _ _ R) as (h' & Hh' & _ & Hz'). assert (h' = h) as -> by congruence.
    destruct (clear_wf l d h Har Hs0 Hd Hl Hz') as [Ei W]. split; [done|left].
    rewrite Ei. simpl. unfold d. rewrite E. apply apply_in_log; [done|by apply Forall_take].
  - (* committed, partly installed *)
    unfold d in *. rewrite E. destruct (logged_items b l v items h j R Hl) as [Ei W].
    fold h1 in Ei, W. split; [done|right]. rewrite Ei, <-apply_app.
    rewrite <-(app_nil_r items) at 3. eapply new_data; [done| |by apply Forall_nil].
    rewrite !Forall_app. split_and!.
    + eapply Forall_impl; [exact Hci|]. by left.
    + apply Forall_cons. split; [by left|by apply Forall_nil].
    + apply Forall_forall. intros w Hw. right. apply list_elem_of_fmap. exists w. split; [done|].
      rewrite <-(take_drop j items). set_solver.
  - (* the header is clear again *)
    assert (Hd : d !! Z.to_nat (log_start l) = Some h0).
    { unfold d. rewrite E, app_assoc, apply_app. simpl. apply list_lookup_insert_eq.
      rewrite apply_length. unfold bv_len in Ha2. lia. }
    destruct (clear_wf l d h0 Har Hs0 Hd Hl0 Hz0) as [Ei W]. split; [done|right].
    rewrite Ei. simpl. unfold d. rewrite E. eapply new_data; [done| |].
    + rewrite Forall_app. split; [eapply Forall_impl; [exact Hci|]; by left|].
      apply Forall_cons. split; [by left|by apply Forall_nil].
    + apply Forall_cons. split; [done|by apply Forall_nil].
Qed.

Lemma same_data_head l d d' h : in_log l (log_start l) → 0 ≤ log_start l →
  same_data l d d' → same_data l (<[Z.to_nat (log_start l) := h]> d) d'.
Proof.
  intros Hs H0 [Hl Hd]. split; [by rewrite length_insert|]. intros x Hx Hn.
  rewrite list_lookup_insert_ne; [by apply Hd|]. intros E. apply Hn.
  assert (x = log_start l) by lia. by subst x.
Qed.

(** A freshly booted kernel over the disk [d], about to recover. *)
Definition booted (b : B) (l0 l : logst) (d : list block) : Prop :=
  bc_rel b (view0 d) ∧ log_dev l0 = 1 ∧ log_start l0 = log_start l ∧
  log_size l0 = log_size l ∧ length (lh_block l0) = Z.to_nat LOGSIZE.

Lemma wp_recover_booted b l0 l d d' :
  booted b l0 l d → log_wf l d → in_log l (log_start l) →
  same_data l (apply_writes d (log_items (log_start l) d)) d' →
  wp recover_from_log (λ _ s, ∃ v', bc_rel s.1 v' ∧ same_data l (bv_disk v') d' ∧
                                    bv_cur v' = bv_disk v' ∧ lh_n s.2 = 0) (b, l0).
Proof.
  intros (HR & Hdev & Es & Ez & Hbl) W Hin Hsd.
  assert (W0 : log_wf l0 d).
  { destruct W as [W1 W2 W3 W4 W5 W6]. unfold home_ok, in_log, area_ok in *.
    split; unfold home_ok, in_log, area_ok; rewrite ?Es, ?Ez; done. }
  eapply (wp_recover b l0 d []); [done|done|done|done|].
  intros b' l' h0 R' Hl Hz Hn _ _. rewrite Es in R'. eexists. split; [exact R'|].
  destruct (v_puts_fields (log_items (log_start l) d) (mkBv d d ∅ ∅ [])) as (F1 & F2 & _).
  simpl. rewrite F1, F2. simpl. split_and!; [|done|done].
  apply same_data_head; [done|apply W|done].
Qed.

Lemma commit_writes_final b l v items (h h0 : block) :
  let h1 := header (lh_n l) (lh_block l) h in
  let w := v_puts (commit_writes (log_start l) items h1 h0) v in
  log_ready b l v items → same_data l (bv_disk w) (bv_cur v) ∧ bv_pin w = ∅.
Proof.
  intros h1 w R. destruct (v_puts_fields (commit_writes (log_start l) items h1 h0) v) as (_ & F2 & _ & F4 & _).
  fold w in F2, F4. unfold commit_writes in *. rewrite F2, F4. split.
  - rewrite app_assoc. eapply new_data; [done| |].
    + rewrite Forall_app. split; [eapply Forall_impl; [eapply copies_in_log; exact R|]; by left|].
      apply Forall_cons. split; [left; by eapply ready_start_in|by apply Forall_nil].
    + apply Forall_cons. split; [by eapply ready_start_in|by apply Forall_nil].
  - rewrite (lr_pin _ _ _ _ R). apply subseteq_empty_difference_L. intros x.
    rewrite !elem_of_list_to_set, !fmap_app, !elem_of_app. tauto.
Qed.
End log_facts.

(** ** System calls on the log *)

Section log_calls.
Context {B : Type} `{!BufferCache B}.
Abbreviation st := (B * logst)%type.
Abbreviation log_lk := (log_lk (B:=B)).
Implicit Types (b : B) (l : logst) (v : bview).

#[export] Instance log_cpu_ok : LensOk log_cpu.
Proof.
  split; simpl.
  - intros c s. apply lget_lput.
  - intros c d s. by rewrite lput_lput.
  - intros [b l]. simpl. by rewrite lput_lget.
Qed.
#[export] Instance log_lk_ok : LensOk log_lk.
Proof. split; simpl; try done. by intros [b []]. Qed.
#[export] Instance log_cpu_lk : LensIndep log_cpu log_lk.
Proof. by split. Qed.

(** While system calls run: the log lists the pinned blocks [xs]. *)
Record log_run (b : B) (l : logst) (v : bview) (xs : list Z) : Prop := {
  lu_rel : bc_rel b v;
  lu_free : locked (log_lock l) = 0;
  lu_blen : length (lh_block l) = Z.to_nat LOGSIZE;
  lu_n : lh_n l = Z.of_nat (length xs);
  lu_max : (length xs ≤ Z.to_nat LOGSIZE)%nat;
  lu_blocks k x : xs !! k = Some x → lh_block l !! k = Some x;
  lu_nodup : NoDup xs;
  lu_pin : bv_pin v = list_to_set xs;
}.

Lemma run_quiet b l v xs : log_run b l v xs → quiet log_cpu log_lk (b, l).
Proof. intros R. split; [apply R|]. simpl. eapply bc_rel_cpu, R. Qed.

(** The cache's state after taking and giving back the log's lock. *)
Lemma acquired_rel b l v :
  bc_rel b v → bc_rel (acquired log_cpu log_lk (b, l)).1 v.
Proof.
  intros HR. unfold acquired. simpl. apply bc_rel_setcpu; [done|].
  apply pushed_ok. by eapply bc_rel_cpu.
Qed.

Lemma leave_rel b l v t :
  bc_rel b v → bc_rel t.1 v → quiet log_cpu log_lk (b, l) → bc_rel (leave log_cpu log_lk (b, l) t).1 v.
Proof.
  intros HR Ht Hq. destruct (leave_quiet log_cpu log_lk (b, l) t Hq) as [_ Hc].
  unfold leave in *. simpl in *. rewrite lget_lput in Hc. by apply bc_rel_setcpu.
Qed.

Lemma absorb_spec bl xs x i :
  (∀ k y, xs !! k = Some y → nth (i + k) bl 0 = y) → NoDup xs →
  absorb bl x (length xs) i =
    match list_find (x =.) xs with Some (k, _) => (i + k)%nat | None => (i + length xs)%nat end.
Proof.
  revert i. induction xs as [|y xs IH]; intros i Hb Hn; simpl; [lia|].
  pose proof (Hb 0%nat y eq_refl) as H0. rewrite Nat.add_0_r in H0. rewrite H0.
  destruct (Z.eqb_spec y x) as [->|Hne].
  - rewrite decide_True by done. lia.
  - rewrite decide_False by done. rewrite IH.
    + destruct (list_find (x =.) xs) as [[k z]|]; simpl; lia.
    + intros k z Hk. rewrite Nat.add_succ_comm. by apply Hb.
    + by apply NoDup_cons in Hn as [_ ?].
Qed.

(** What log_write leaves alone in struct log. *)
Definition log_conf (l : logst) : Z * Z * Z * Z := (log_start l, log_size l, log_dev l, outstanding l).

(** The list log_write leaves. *)
Definition logged (x : Z) (xs : list Z) : list Z := if decide (x ∈ xs) then xs else xs ++ [x].

Lemma logged_facts x xs :
  NoDup xs → NoDup (logged x xs) ∧ list_to_set (logged x xs) =@{gset Z} {[x]} ∪ list_to_set xs.
Proof.
  intros Hn. unfold logged. case_decide as Hx.
  - split; [done|]. apply set_eq. intros y. rewrite elem_of_union, elem_of_singleton.
    rewrite elem_of_list_to_set. split; [by right|]. by intros [->|?].
  - split; [|rewrite list_to_set_app_L; set_solver]. apply NoDup_app. split_and!; try done.
    + by intros y Hy ->%list_elem_of_singleton.
    + apply NoDup_singleton.
Qed.

(** The end of log_write: mark the buffer dirty and give the lock back. *)
Lemma wp_log_write_end b l v xs i x l2 (Q : unit → st → Prop) :
  let s1 := acquired log_cpu log_lk (b, l) in
  log_run b l v xs → bv_held v !! i = Some x →
  log_lock l2 = log_lock s1.2 → length (lh_block l2) = Z.to_nat LOGSIZE →
  lh_n l2 = Z.of_nat (length (logged x xs)) → (length (logged x xs) ≤ Z.to_nat LOGSIZE)%nat →
  (∀ k y, logged x xs !! k = Some y → lh_block l2 !! k = Some y) →
  log_conf l2 = log_conf l →
  (∀ b' l', log_run b' l' (v_pin x v) (logged x xs) → log_conf l' = log_conf l → Q tt (b', l')) →
  wp (lift (bc_setdirty i) ;; release log_cpu log_lk) Q (s1.1, l2).
Proof.
  intros s1 R Hh Hlk Hbl Hn Hmax Hbk E1 HQ. pose proof (run_quiet _ _ _ _ R) as Hq.
  pose proof (acquired_rel b l v (lu_rel _ _ _ _ R)) as HR1. fold s1 in HR1.
  destruct (logged_facts x xs (lu_nodup _ _ _ _ R)) as [Hnd Hset].
  wstep. apply wp_lift. eapply setdirty_law; [exact HR1|done|]. intros b2 HR2 Hcpu.
  eapply (wp_release log_cpu log_lk _ (b, l)); [done|exact Hcpu|exact Hlk|].
  pose proof (leave_quiet log_cpu log_lk (b, l) (b2, l2) Hq) as [Hq1 Hq2].
  destruct (leave log_cpu log_lk (b, l) (b2, l2)) as [b3 l3] eqn:El.
  assert (E3' : b3 = lput bc_cpu (unpushed (lget bc_cpu b)) b2 ∧ lh_block l3 = lh_block l2 ∧
                lh_n l3 = lh_n l2 ∧ log_conf l3 = log_conf l2)
    by (unfold leave in El; simpl in El; by simplify_eq).
  destruct E3' as (-> & F1 & F2 & F3).
  apply HQ; try congruence. split; rewrite ?F1, ?F2; try done.
  - apply bc_rel_setcpu; [done|]. simpl in Hq2. by rewrite lget_lput in Hq2.
  - simpl. by rewrite (lu_pin _ _ _ _ R), Hset.
Qed.

Lemma wp_log_write b l v xs i x (Q : unit → st → Prop) :
  log_run b l v xs → bv_held v !! i = Some x → 1 ≤ outstanding l →
  lh_n l < LOGSIZE → lh_n l < log_size l - 1 →
  (∀ b' l', log_run b' l' (v_pin x v) (logged x xs) → log_conf l' = log_conf l → Q tt (b', l')) →
  wp (log_write i) Q (b, l).
Proof.
  intros R Hh Ho Hn1 Hn2 HQ. pose proof (run_quiet _ _ _ _ R) as Hq.
  pose proof R as [HR Hfree Hbl Hn Hmax Hbk Hnd Hpin].
  change (Z.to_nat LOGSIZE) with 30%nat in *. change LOGSIZE with 30 in *.
  unfold log_write. wstep. wstep. simpl snd. change LOGSIZE with 30.
  replace (30 <=? lh_n l) with false by (symmetry; apply Z.leb_gt; lia).
  replace (log_size l - 1 <=? lh_n l) with false by (symmetry; apply Z.leb_gt; lia).
  replace (outstanding l <? 1) with false by (symmetry; apply Z.ltb_ge; lia). simpl orb. cbv iota.
  wstep. apply wp_acquire; [apply _..|done|].
  pose proof (acquired_rel b l v HR) as HR1.
  destruct (data_law _ _ _ _ HR1 Hh) as (Hbn & _).
  wstep. wstep. wstep. eapply wp_deref; [exact Hbn|]. cbv zeta. rewrite Hn, Nat2Z.id.
  rewrite (absorb_spec _ xs); [|intros k y Hk; apply nth_lookup_Some; by apply Hbk|done].
  unfold lh_put. destruct (list_find (x =.) xs) as [[k y]|] eqn:Ef.
  - apply list_find_Some in Ef as (Hk & <- & _). simpl. pose proof (lookup_lt_Some _ _ _ Hk).
    wstep. wstep. wstep. wstep. eapply wp_deref; [simpl; by apply Hbk|]. unfold onl. wstep. wstep.
    replace (Z.of_nat k =? Z.of_nat (length xs)) with false by (symmetry; apply Z.eqb_neq; lia). wstep.
    assert (El : logged x xs = xs).
    { unfold logged. rewrite decide_True; [done|by eapply list_elem_of_lookup_2]. }
    eapply (wp_log_write_end b l v xs); try done; rewrite ?El; try done.
    + simpl. by rewrite length_insert.
    + simpl. intros j z Hj. rewrite lookup_insert_case by lia.
      case_decide; [subst j; congruence|by apply Hbk].
  - assert (El : logged x xs = xs ++ [x]).
    { unfold logged. rewrite decide_False; [done|]. intros Hx.
      apply list_find_None in Ef. rewrite Forall_forall in Ef. by apply (Ef x). }
    destruct (lookup_lt_is_Some_2 (lh_block l) (length xs)) as [z Hz]; [lia|].
    simpl. wstep. wstep. wstep. wstep. eapply wp_deref; [simpl; exact Hz|]. unfold onl. wstep. wstep.
    rewrite Z.eqb_refl. wstep.
    eapply (wp_log_write_end b l v xs); try done; rewrite ?El, ?length_app; simpl; try done; try lia.
    + by rewrite length_insert.
    + change (Z.to_nat LOGSIZE) with 30%nat. lia.
    + intros j y Hj. rewrite lookup_insert_case by lia. case_decide; [subst j|].
      * rewrite lookup_app_r, Nat.sub_diag in Hj by lia. done.
      * apply lookup_app_Some in Hj as [Hj|[? Hj]]; [by apply Hbk|].
        apply lookup_lt_Some in Hj. simpl in Hj. lia.
Qed.

(** Giving the lock back after a change to the counters. *)
Lemma run_release b l v xs l2 :
  let s1 := acquired log_cpu log_lk (b, l) in
  log_run b l v xs → log_lock l2 = log_lock s1.2 → lh_n l2 = lh_n l → lh_block l2 = lh_block l →
  ∃ b' l', release log_cpu log_lk (s1.1, l2) = Ret tt (b', l') ∧ log_run b' l' v xs ∧
           outstanding l' = outstanding l2 ∧ lh_n l' = lh_n l.
Proof.
  intros s1 R Hlk Hn Hbl. pose proof (run_quiet _ _ _ _ R) as Hq. pose proof (lu_rel _ _ _ _ R) as HR.
  exists (leave log_cpu log_lk (b, l) (s1.1, l2)).1, (leave log_cpu log_lk (b, l) (s1.1, l2)).2.
  split; [|split; [|done]].
  - rewrite <-surjective_pairing. by apply release_run; try apply _; [apply Hq| |].
  - pose proof R as [_ Hfree Hbl' Hn' Hmax Hbk Hnd Hpin].
    split; try done; [apply leave_rel; [done|by apply acquired_rel|done]| | |];
      simpl; rewrite ?Hn, ?Hbl; done.
Qed.
End log_calls.

(** ** Properties *)

(** [C1] Commits are atomic.  Take any state between system calls, with
    the transaction [items] logged.  commit() returns, empties the log and
    leaves the file system on disk as the cache had it; and if the machine
    crashes after any number [k] of its disk writes, rebooting and running
    recover_from_log gives a file system that is the old one or the new one
    as a whole, in the cache and on disk alike. *)
Theorem commit_crash_atomic {B} `{!BufferCache B} (b : B) l v items :
  log_ready b l v items →
  wp commit (λ _ s, ∃ v' ws,
    bc_rel s.1 v' ∧ lh_n s.2 = 0 ∧ bv_pin v' = ∅ ∧
    bv_writes v' = bv_writes v ++ ws ∧ same_data l (bv_disk v') (bv_cur v) ∧
    ∀ k b0 l0, booted b0 l0 l (apply_writes (bv_disk v) (take k ws)) →
      wp recover_from_log (λ _ s0, ∃ v0, bc_rel s0.1 v0 ∧
        (same_data l (bv_disk v0) (bv_disk v) ∨ same_data l (bv_disk v0) (bv_cur v)) ∧
        bv_cur v0 = bv_disk v0 ∧ lh_n s0.2 = 0) (b0, l0)) (b, l).
Proof.
  intros R. pose proof (ready_start_in _ _ _ _ R) as Hst. destruct (decide (items = [])) as [->|Hne].
  - unfold commit. wstep. wstep. simpl. rewrite (lr_n _ _ _ _ R). simpl. wstep.
    assert (Hsd : same_data l (bv_disk v) (bv_cur v)).
    { apply (new_data b l v [] [] [] R); by apply Forall_nil. }
    exists v, []. refine (conj (lr_rel _ _ _ _ R) (conj (lr_n _ _ _ _ R) (conj (lr_pin _ _ _ _ R)
      (conj _ (conj Hsd _))))); [by rewrite app_nil_r|].
    intros k b0 l0 Hb. rewrite take_nil in Hb. simpl in Hb.
    destruct (lr_hdr _ _ _ _ R) as (h & Hh & Hl & Hz).
    assert (Hd : bv_disk v !! Z.to_nat (log_start l) = Some h).
    { rewrite <-Hh. symmetry. eapply bc_rel_clean; [apply R|apply R| |].
      - rewrite (lr_pin _ _ _ _ R). apply not_elem_of_empty.
      - intros i. by rewrite (lr_held _ _ _ _ R), lookup_empty. }
    destruct (clear_wf l (bv_disk v) h) as [Ei W]; try done; [apply R|unfold in_log in Hst; lia|].
    eapply wp_mono; [eapply (wp_recover_booted b0 l0 l _ (bv_disk v)); try done; by rewrite Ei|].
    intros [] s0 (v0 & H1 & H2 & H3 & H4). exists v0. auto.
  - eapply wp_commit; [done..|]. intros b' h h0 h1 Hh Hl Hl0 Hz R'.
    destruct (commit_writes_final b l v items h h0 R) as [Hsd Hp].
    eexists _, (commit_writes (log_start l) items h1 h0).
    split; [exact R'|]. split; [done|]. split; [done|].
    split; [apply (v_puts_fields _ v)|]. split; [done|].
    intros k b0 l0 Hb. destruct (crash_recoverable b l v items h h0 k R) as [W Hor]; try done.
    destruct Hor as [Hor|Hor]; (eapply wp_mono; [by eapply wp_recover_booted|]);
      intros [] s0 (v0 & H1 & H2 & H3 & H4); exists v0; auto.
Qed.

(** log_write pins the caller's block and records it once: a block
    already in the transaction is absorbed, a new one is appended; the
    number of logged blocks never passes the header's capacity. *)
Theorem log_write_spec {B} `{!BufferCache B} (b : B) l v xs i x :
  log_run b l v xs → bv_held v !! i = Some x → 1 ≤ outstanding l →
  lh_n l < LOGSIZE → lh_n l < log_size l - 1 →
  wp (log_write i) (λ _ s, log_run s.1 s.2 (v_pin x v) (logged x xs)) (b, l).
Proof. intros. eapply wp_log_write; [done..|]. by intros. Qed.

(** begin_op admits a system call exactly when no commit is under way
    and the log has room for MAXOPBLOCKS more blocks for every running
    call, the new one included; otherwise it sleeps with the lock free and
    the counters untouched.  It never panics. *)
Theorem begin_op_spec {B} `{!BufferCache B} (b : B) l v xs :
  log_run b l v xs →
  match begin_op (b, l) with
  | Ret _ (b', l') =>
      log_run b' l' v xs ∧ committing l = 0 ∧ outstanding l' = outstanding l + 1 ∧
      lh_n l' + outstanding l' * MAXOPBLOCKS ≤ LOGSIZE
  | Sleeps _ (b', l') =>
      log_run b' l' v xs ∧ outstanding l' = outstanding l ∧
      (committing l ≠ 0 ∨ LOGSIZE < lh_n l + (outstanding l + 1) * MAXOPBLOCKS)
  | _ => False
  end.
Proof.
  intros R. pose proof (run_quiet _ _ _ _ R) as Hq.
  set (s1 := acquired log_cpu (log_lk (B:=B)) (b, l)).
  assert (E1 : committing s1.2 = committing l ∧ lh_n s1.2 = lh_n l ∧
               outstanding s1.2 = outstanding l ∧ lh_block s1.2 = lh_block l) by done.
  destruct E1 as (E1 & E2 & E3 & E4).
  destruct (run_release b l v xs s1.2 R) as (b' & l' & Hr & Hu & Ho & _); [done..|].
  destruct (run_release b l v xs (set_outstanding (outstanding l + 1) s1.2) R)
    as (b2 & l2 & Hr2 & Hu2 & Ho2 & Hn2); [done..|].
  fold s1 in Hr, Hr2. rewrite <-surjective_pairing in Hr.
  unfold begin_op, mbind, M_bind, gets, onl, modify.
  rewrite (acquire_free log_cpu log_lk (b, l)) by apply Hq. fold s1. cbv beta iota.
  rewrite E1, E2, E3.
  destruct (Z.eqb_spec (committing l) 0) as [Hc|Hc]; cbn [negb]; cbv beta iota.
  - destruct (Z.ltb_spec LOGSIZE (lh_n l + (outstanding l + 1) * MAXOPBLOCKS)) as [Hg|Hg]; cbv beta iota.
    + rewrite Hr. simpl. split_and!; [done|congruence|by right].
    + rewrite E3, Hr2. split_and!; [done..|]. rewrite Ho2, Hn2. simpl. lia.
  - rewrite Hr. simpl. split_and!; [done|congruence|by left].
Qed.

(** The log holds one block less than begin_op promises: on the log
    mkfs builds (nlog = LOGSIZE blocks, one of them the header) log_write
    panics with 29 blocks logged, although three system calls of
    MAXOPBLOCKS = 10 blocks each were admitted by begin_op. *)
Theorem log_write_capacity {B} `{!BufferCache B} (b : B) l i :
  log_size l = LOGSIZE → lh_n l = LOGSIZE - 1 → log_write i (b, l) = Panic "too big a transaction".
Proof. intros H1 H2. unfold log_write, mbind, M_bind, gets. simpl. by rewrite H1, H2. Qed.

(** ** Witnesses: a disk of 40 blocks with the log at block 2 *)

Definition wdisk : list block := replicate 40 (replicate BSIZE 0).
Definition wb0 : bstate := mkBst cpu0 (initlock "bcache" lock0) (binit_bufs []) wdisk [] [].
Definition wl0 : logst := mkLog lock0 2 30 1 0 1 0 (replicate 30 0) 0.

Lemma wb0_inv : bc_rel wb0 (view0 wdisk).
Proof. split; try done. apply binit_core. Qed.

Lemma wb0_run : log_run wb0 wl0 (view0 wdisk) [].
Proof.
  split; try done; [apply wb0_inv|change (Z.to_nat LOGSIZE) with 30%nat; simpl; lia|apply NoDup_nil_2].
Qed.

(** A small system call: write block 35 through the log. *)
Definition wprog : M (bstate * logst) unit :=
  i ← bread' 1 35;
  bset' i (replicate BSIZE 7) ;;
  log_write i ;;
  brelse' i.

Lemma wprog_ready :
  wp wprog (λ _ s, ∃ v, log_ready s.1 s.2 v [(35, replicate BSIZE 7)]) (wb0, wl0).
Proof.
  unfold wprog. wstep. eapply wp_bread'; [exact wb0_inv|done|done|right; vm_compute; lia|].
  intros i b1 Hi R1. set (v1 := v_hold i 35 (view0 wdisk)) in *.
  assert (Hh : bv_held v1 !! i = Some 35) by apply lookup_insert_eq.
  wstep. eapply wp_bset'; [exact R1|exact Hh|]. intros b2 R2.
  set (v2 := v_set 35 (replicate BSIZE 7) v1) in *.
  assert (Hrun : log_run b2 wl0 v2 []).
  { destruct wb0_run as [_ H2 H3 H4 H5 H6 H7 H8]. by split. }
  wstep. eapply (wp_log_write b2 wl0 v2 [] i 35); [done|exact Hh|done|done|done|].
  intros b3 l3 R3 Ec. eapply (wp_brelse' b3 l3 _ i 35); [apply R3|exact Hh|left; set_solver|].
  intros b4 R4. set (v4 := v_unhold i (v_pin 35 v2)) in *. exists v4.
  assert (El : logged 35 [] = [35]) by (unfold logged; by rewrite decide_False by (by apply not_elem_of_nil)).
  rewrite El in R3. destruct R3 as [_ H2 H3 H4 H5 H6 H7 H8].
  injection Ec as E1 E2 E3 E4. split; try done; cbn [fst snd] in *.
  - apply delete_insert_id. done.
  - unfold area_ok. rewrite E1, E2. split; done.
  - rewrite E2. done.
  - unfold NBUF. simpl length. lia.
  - intros x Hx. apply list_elem_of_singleton in Hx as ->. unfold home_ok, in_log. rewrite E1, E2.
    split; [done|]. simpl. lia.
  - intros [|k] x d [= <- <-]. split; [by apply H6|]. by vm_compute.
  - rewrite E1. exists (replicate BSIZE 0). by vm_compute.
Qed.

(** The state wprog ends in. *)
Definition ws1 : bstate * logst := end_state wprog (wb0, wl0).

Lemma ws1_ready : ∃ v, log_ready ws1.1 ws1.2 v [(35, replicate BSIZE 7)].
Proof. destruct (wp_end _ _ _ wprog_ready) as [[] H]. exact H. Qed.

Lemma commit_crash_atomic_witness :
  ∃ v, bv_pin v = {[35]} ∧
    wp commit (λ _ s, ∃ v', bc_rel s.1 v' ∧ bv_pin v' = ∅ ∧
                            same_data ws1.2 (bv_disk v') (bv_cur v)) ws1.
Proof.
  destruct ws1_ready as [v R]. exists v. split; [rewrite (lr_pin _ _ _ _ R); apply union_empty_r_L|].
  pose proof (commit_crash_atomic ws1.1 ws1.2 v _ R) as H. rewrite <-surjective_pairing in H.
  eapply wp_mono; [exact H|]. intros [] s (v' & ws & H1 & _ & H3 & _ & H5 & _). exact (ex_intro _ v' (conj H1 (conj H3 H5))).
Defined.

Lemma log_write_spec_witness :
  wp (i ← bread' 1 35; log_write i)
     (λ _ s, ∃ v, log_run s.1 s.2 v [35]) (wb0, wl0).
Proof.
  wstep. eapply wp_bread'; [exact wb0_inv|done|done|right; vm_compute; lia|].
  intros i b1 Hi R1. eapply wp_mono.
  - apply (log_write_spec b1 wl0 (v_hold i 35 (view0 wdisk)) [] i 35); try done;
      [|apply lookup_insert_eq]. destruct wb0_run as [_ H2 H3 H4 H5 H6 H7 H8]. by split.
  - intros [] s H. eexists. unfold logged in H.
    rewrite decide_False in H by (by apply not_elem_of_nil). exact H.
Defined.

Lemma begin_op_spec_witness :
  match begin_op (wb0, wl0) with
  | Ret _ (b', l') => outstanding l' = 2
  | _ => False
  end.
Proof.
  pose proof (begin_op_spec wb0 wl0 (view0 wdisk) [] wb0_run) as H.
  destruct (begin_op (wb0, wl0)) as [[] [b' l']| |c [b' l']| |]; [apply H|destruct H| |destruct H..].
  destruct H as (_ & _ & [Hc|Hc]); [by apply Hc|]. vm_compute in Hc. discriminate Hc.
Defined.

Lemma log_write_capacity_witness :
  log_write 3 (wb0, mkLog lock0 2 30 3 0 1 29 (replicate 30 0) 0) = Panic "too big a transaction".
Proof. exact (log_write_capacity wb0 (mkLog lock0 2 30 3 0 1 29 (replicate 30 0) 0) 3 eq_refl eq_refl). Defined.
