(* ===== verification/Tx.v ===== *)
(** * What the file system is built on

    [TxStore] is what log.c and bio.c promise to fs.c inside a transaction
    (between begin_op and end_op): blocks can be read, changed and logged.
    The log over any buffer cache is an instance. *)

From S2P Require Import Prelude Kernel Spinlock Block Bio Log.
Local Open Scope Z_scope.

(** ** The interface

    A view of the store: the contents of the blocks as the file system sees
    them, the held buffers, the logged blocks, the held blocks changed and
    not yet logged, and how many blocks the log takes. *)
Record tview := mkTv {
  tv_cur : list block;
  tv_held : gmap nat Z;
  tv_log : gset Z;
  tv_dirty : gset Z;
  tv_cap : nat;
}.

Definition tv_len (v : tview) : Z := Z.of_nat (length (tv_cur v)).

Definition t_hold (i : nat) (x : Z) (v : tview) : tview :=
  mkTv (tv_cur v) (<[i := x]> (tv_held v)) (tv_log v) (tv_dirty v) (tv_cap v).
Definition t_unhold (i : nat) (v : tview) : tview :=
  mkTv (tv_cur v) (delete i (tv_held v)) (tv_log v) (tv_dirty v) (tv_cap v).
Definition t_set (x : Z) (d : block) (v : tview) : tview :=
  mkTv (<[Z.to_nat x := d]> (tv_cur v)) (tv_held v) (tv_log v) ({[x]} ∪ tv_dirty v) (tv_cap v).
Definition t_log (x : Z) (v : tview) : tview :=
  mkTv (tv_cur v) (tv_held v) ({[x]} ∪ tv_log v) (tv_dirty v ∖ {[x]}) (tv_cap v).

Class TxStore (T : Type) := {
  tx_bread : Z → Z → M T nat;
  tx_data : nat → T → option block;
  tx_setdata : nat → block → M T unit;
  tx_log_write : nat → M T unit;
  tx_brelse : nat → M T unit;
  tx_cpu : lens T cpu;
  tx_rel : T → tview → Prop;

  tx_cpu_ok :: LensOk tx_cpu;
  tx_rel_cpu s v : tx_rel s v → cpu_ok (lget tx_cpu s);
  tx_rel_setcpu s v c : tx_rel s v → cpu_ok c → tx_rel (lput tx_cpu c s) v;

  tx_bread_law s v x (Q : nat → T → Prop) :
    tx_rel s v → 0 ≤ x < tv_len v → (∀ i, tv_held v !! i ≠ Some x) →
    (x ∈ tv_log v ∨ (size (tv_log v) + size (tv_held v) < NBUF)%nat) →
    (∀ i s', tv_held v !! i = None → x ∉ tv_dirty v → tx_rel s' (t_hold i x v) → Q i s') →
    wp (tx_bread 1 x) Q s;
  tx_data_law s v i x :
    tx_rel s v → tv_held v !! i = Some x →
    ∃ d, tx_data i s = Some d ∧ tv_cur v !! Z.to_nat x = Some d;
  tx_setdata_law s v i x d (Q : unit → T → Prop) :
    tx_rel s v → tv_held v !! i = Some x →
    (∀ s', tx_rel s' (t_set x d v) → Q tt s') → wp (tx_setdata i d) Q s;
  tx_log_write_law s v i x (Q : unit → T → Prop) :
    tx_rel s v → tv_held v !! i = Some x → (size (tv_log v) < tv_cap v)%nat →
    (∀ s', tx_rel s' (t_log x v) → Q tt s') → wp (tx_log_write i) Q s;
  tx_brelse_law s v i x (Q : unit → T → Prop) :
    tx_rel s v → tv_held v !! i = Some x → x ∉ tv_dirty v →
    (∀ s', tx_rel s' (t_unhold i v) → Q tt s') → wp (tx_brelse i) Q s;
}.

(** ** The log is such a store *)

Section log_tx.
Context {B : Type} `{!BufferCache B}.

Record lrel (s : B * logst) (v : tview) (bv : bview) (xs : list Z) : Prop := {
  lr_run : log_run s.1 s.2 bv xs;
  lr_out : 1 ≤ outstanding s.2;
  lr_cap : Z.of_nat (tv_cap v) = Z.min LOGSIZE (log_size s.2 - 1);
  lr_cur : tv_cur v = bv_cur bv;
  lr_held : tv_held v = bv_held bv;
  lr_pin : tv_log v = bv_pin bv;
  lr_dirty x : x ∈ tv_dirty v → ∃ i, tv_held v !! i = Some x;
  lr_clean i x : tv_held v !! i = Some x → x ∉ tv_dirty v → x ∉ tv_log v →
    bv_cur bv !! Z.to_nat x = bv_disk bv !! Z.to_nat x;
  lr_inj i j x : tv_held v !! i = Some x → tv_held v !! j = Some x → i = j;
}.
Definition log_rel (s : B * logst) (v : tview) : Prop := ∃ bv xs, lrel s v bv xs.

Lemma log_run_rel b b' l v v' xs :
  log_run b l v xs → bc_rel b' v' → bv_pin v' = bv_pin v → log_run b' l v' xs.
Proof. intros [H1 H2 H3 H4 H5 H6 H7 H8] Hb Hp. split; try done. by rewrite Hp. Qed.

Lemma log_len b l v bv xs : lrel (b, l) v bv xs → tv_len v = bv_len bv.
Proof.
  intros R. unfold tv_len, bv_len. rewrite (lr_cur _ _ _ _ R).
  by rewrite (bc_rel_len _ _ (lu_rel _ _ _ _ (lr_run _ _ _ _ R))).
Qed.

Lemma log_bread_law s v x (Q : nat → B * logst → Prop) :
  log_rel s v → 0 ≤ x < tv_len v → (∀ i, tv_held v !! i ≠ Some x) →
  (x ∈ tv_log v ∨ (size (tv_log v) + size (tv_held v) < NBUF)%nat) →
  (∀ i s', tv_held v !! i = None → x ∉ tv_dirty v → log_rel s' (t_hold i x v) → Q i s') →
  wp (bread' 1 x) Q s.
Proof.
  intros (bv & xs & R) Hx Hh Hr HQ. destruct s as [b l].
  rewrite (log_len _ _ _ _ _ R) in Hx. destruct R as [R1 R2 R3 R4 R5 R6 R7 R8 R9]. simpl in *.
  rewrite R5, R6 in *.
  eapply wp_bread'; [apply R1|done|done|done|]. intros i b' Hi Hb.
  apply HQ; [done|intros Hd; destruct (R7 x Hd) as [j Hj]; by apply (Hh j)|].
  exists (v_hold i x bv), xs. split; simpl; rewrite ?R5; try done.
  - by eapply log_run_rel.
  - intros y Hy. destruct (R7 y Hy) as [j Hj]. exists j.
    rewrite lookup_insert_ne; [done|]. intros ->. congruence.
  - intros j y. rewrite lookup_insert_Some. intros [[<- <-]|[_ Hj]].
    + intros _ Hp. eapply bc_rel_clean; [apply R1|lia| |done]. by rewrite <-R6 || done.
    + rewrite R6. by eapply R8.
  - intros j k y. rewrite !lookup_insert_Some.
    intros [[<- E]|[? Hj]] [[<- E']|[? Hk]]; subst; try done;
      [by destruct (Hh k)|by destruct (Hh j)|by eapply R9].
Qed.

Lemma log_data_law s v i x :
  log_rel s v → tv_held v !! i = Some x →
  ∃ d, bc_data i s.1 = Some d ∧ tv_cur v !! Z.to_nat x = Some d.
Proof.
  intros (bv & xs & R) Hi. rewrite (lr_held _ _ _ _ R) in Hi. rewrite (lr_cur _ _ _ _ R).
  by destruct (data_law _ _ _ _ (lu_rel _ _ _ _ (lr_run _ _ _ _ R)) Hi) as (_ & _ & ?).
Qed.

Lemma log_setdata_law s v i x d (Q : unit → B * logst → Prop) :
  log_rel s v → tv_held v !! i = Some x →
  (∀ s', log_rel s' (t_set x d v) → Q tt s') → wp (bset' i d) Q s.
Proof.
  intros (bv & xs & R) Hi HQ. destruct s as [b l].
  destruct R as [R1 R2 R3 R4 R5 R6 R7 R8 R9]. simpl in *. pose proof Hi as Hi'. rewrite R5 in Hi'.
  eapply wp_bset'; [apply R1|exact Hi'|]. intros b' Hb. apply HQ.
  exists (v_set x d bv), xs. split; simpl; rewrite ?R4; try done.
  - by eapply log_run_rel.
  - intros y [->%elem_of_singleton|Hy]%elem_of_union; [by exists i|by apply R7].
  - intros j y Hj Hy Hp. apply not_elem_of_union in Hy as [Hyx Hy].
    rewrite list_lookup_insert_ne; [by eapply R8|].
    pose proof (lu_rel _ _ _ _ R1) as Hrel. pose proof Hj as Hj'. rewrite R5 in Hj'.
    destruct (data_law _ _ _ _ Hrel Hj') as (_ & ? & _).
    destruct (data_law _ _ _ _ Hrel Hi') as (_ & ? & _).
    rewrite elem_of_singleton in Hyx. lia.
Qed.

Lemma log_write_law s v i x (Q : unit → B * logst → Prop) :
  log_rel s v → tv_held v !! i = Some x → (size (tv_log v) < tv_cap v)%nat →
  (∀ s', log_rel s' (t_log x v) → Q tt s') → wp (log_write i) Q s.
Proof.
  intros (bv & xs & R) Hi Hc HQ. destruct s as [b l].
  destruct R as [R1 R2 R3 R4 R5 R6 R7 R8 R9]. simpl in *. pose proof Hi as Hi'. rewrite R5 in Hi'.
  assert (Hn : lh_n l = Z.of_nat (size (tv_log v))).
  { rewrite R6, (lu_pin _ _ _ _ R1), (lu_n _ _ _ _ R1). f_equal.
    by rewrite size_list_to_set by apply R1. }
  eapply (wp_log_write b l bv xs); [done|exact Hi'|done|lia|lia|].
  intros b' l' Hr [= E1 E2 E3 E4]. apply HQ. exists (v_pin x bv), (logged x xs).
  split; simpl; rewrite ?E2, ?E4, ?R6; try done.
  - intros y Hy. apply R7. set_solver.
  - intros j y Hj Hy Hp. apply (R8 j); [done|set_solver|rewrite R6; set_solver].
Qed.

Lemma log_brelse_law s v i x (Q : unit → B * logst → Prop) :
  log_rel s v → tv_held v !! i = Some x → x ∉ tv_dirty v →
  (∀ s', log_rel s' (t_unhold i v) → Q tt s') → wp (brelse' i) Q s.
Proof.
  intros (bv & xs & R) Hi Hd HQ. destruct s as [b l].
  destruct R as [R1 R2 R3 R4 R5 R6 R7 R8 R9]. simpl in *. pose proof Hi as Hi'. rewrite R5 in Hi'.
  eapply wp_brelse'; [apply R1|exact Hi'| |].
  { destruct (decide (x ∈ bv_pin bv)); [by left|right]. eapply R8; [exact Hi|done|by rewrite R6]. }
  intros b' Hb. apply HQ. exists (v_unhold i bv), xs. split; simpl; rewrite ?R5; try done.
  - by eapply log_run_rel.
  - intros y Hy. destruct (R7 y Hy) as [j Hj]. exists j. rewrite R5 in Hj.
    rewrite lookup_delete_ne; [done|]. intros <-. rewrite Hi' in Hj. by injection Hj as ->.
  - intros j y [_ Hj]%lookup_delete_Some. rewrite <-R5 in Hj. by eapply R8.
  - intros j k y [_ Hj]%lookup_delete_Some [_ Hk]%lookup_delete_Some.
    rewrite <-R5 in Hj, Hk. by eapply R9.
Qed.
End log_tx.

#[export] Program Instance log_tx {B} `{!BufferCache B} : TxStore (B * logst) := {|
  tx_bread := bread';
  tx_data i s := bc_data i s.1;
  tx_setdata := bset';
  tx_log_write := log_write;
  tx_brelse := brelse';
  tx_cpu := log_cpu;
  tx_rel := log_rel;
  tx_bread_law := log_bread_law;
  tx_data_law := log_data_law;
  tx_setdata_law := log_setdata_law;
  tx_log_write_law := log_write_law;
  tx_brelse_law := log_brelse_law;
|}.
Next Obligation.
  intros B BC s v (bv & xs & R). apply (bc_rel_cpu s.1 bv), (lr_run _ _ _ _ R).
Qed.
Next Obligation.
  intros B BC [b l] v c (bv & xs & R) Hc. destruct R as [R1 R2 R3 R4 R5 R6 R7 R8 R9].
  exists bv, xs. split; try done. simpl in *. eapply log_run_rel; [exact R1| |done].
  apply bc_rel_setcpu; [apply R1|done].
Qed.
