(* ===== verification/Fs.v ===== *)
(** * The file system (xv6/fs.c, xv6/fs.h, struct inode of xv6/file.h)

    Blocks, inodes, directories and path names over any transactional block
    store [T].  A pointer to an in-memory inode is its index in
    icache.inode[].  What readi copies to its destination is returned with
    its result; the devices' read and write functions (devsw[]) are
    arguments.  Path names and directory entries are lists of bytes. *)

From S2P Require Import Prelude Kernel Spinlock CString Block Bio Log Tx.
Local Open Scope Z_scope.

(** ** fs.h, file.h *)

Definition ROOTINO : Z := 1.
Definition ROOTDEV : Z := 1.
Definition NDIRECT : Z := 12.
Definition NINDIRECT : Z := Z.of_nat BSIZE / 4.
Definition MAXFILE : Z := NDIRECT + NINDIRECT.
Definition NINODE : nat := 50.
Definition NDEV : Z := 10.
Definition DIRSIZ : nat := 14.
Definition T_DIR : Z := 1.
Definition T_FILE : Z := 2.
Definition T_DEV : Z := 3.
Definition I_BUSY : Z := 1.
Definition I_VALID : Z := 2.
Definition BSZ : Z := Z.of_nat BSIZE.

Definition i16 (x : Z) : Z := let y := x mod 65536 in if y <? 32768 then y else y - 65536.

Record superblock := mkSb {
  sb_size : Z; sb_nblocks : Z; sb_ninodes : Z; sb_nlog : Z;
  sb_logstart : Z; sb_inodestart : Z; sb_bmapstart : Z;
}.

(** sizeof(struct dinode) is 64: four shorts, the size, 13 addresses. *)
Definition DINODE : nat := 64.
Definition IPB : Z := Z.of_nat BSIZE / Z.of_nat DINODE.
Definition IBLOCK (i : Z) (sb : superblock) : Z := i / IPB + sb_inodestart sb.
Definition BPB : Z := Z.of_nat BSIZE * 8.
Definition BBLOCK (b : Z) (sb : superblock) : Z := b / BPB + sb_bmapstart sb.

(** struct inode of file.h. *)
Record inode := mkInode {
  i_dev : Z; i_inum : Z; i_ref : Z; i_flags : Z;
  i_type : Z; i_major : Z; i_minor : Z; i_nlink : Z; i_size : Z; i_addrs : list Z;
}.

Definition w_ref (x : Z) (ip : inode) : inode :=
  mkInode (i_dev ip) (i_inum ip) x (i_flags ip) (i_type ip) (i_major ip) (i_minor ip)
    (i_nlink ip) (i_size ip) (i_addrs ip).
Definition w_flags (x : Z) (ip : inode) : inode :=
  mkInode (i_dev ip) (i_inum ip) (i_ref ip) x (i_type ip) (i_major ip) (i_minor ip)
    (i_nlink ip) (i_size ip) (i_addrs ip).
Definition w_type (x : Z) (ip : inode) : inode :=
  mkInode (i_dev ip) (i_inum ip) (i_ref ip) (i_flags ip) x (i_major ip) (i_minor ip)
    (i_nlink ip) (i_size ip) (i_addrs ip).
Definition w_nlink (x : Z) (ip : inode) : inode :=
  mkInode (i_dev ip) (i_inum ip) (i_ref ip) (i_flags ip) (i_type ip) (i_major ip) (i_minor ip)
    x (i_size ip) (i_addrs ip).
Definition w_majmin (x y : Z) (ip : inode) : inode :=
  mkInode (i_dev ip) (i_inum ip) (i_ref ip) (i_flags ip) (i_type ip) x y
    (i_nlink ip) (i_size ip) (i_addrs ip).
Definition w_size (x : Z) (ip : inode) : inode :=
  mkInode (i_dev ip) (i_inum ip) (i_ref ip) (i_flags ip) (i_type ip) (i_major ip) (i_minor ip)
    (i_nlink ip) x (i_addrs ip).
Definition w_addr (k : nat) (x : Z) (ip : inode) : inode :=
  mkInode (i_dev ip) (i_inum ip) (i_ref ip) (i_flags ip) (i_type ip) (i_major ip) (i_minor ip)
    (i_nlink ip) (i_size ip) (<[k := x]> (i_addrs ip)).

(** The disk inode at byte [off] of a block: read into, written from [ip]. *)
Definition get_dinode (off : nat) (d : block) (ip : inode) : inode :=
  mkInode (i_dev ip) (i_inum ip) (i_ref ip) (i_flags ip)
    (i16 (geth off d)) (i16 (geth (off + 2) d)) (i16 (geth (off + 4) d)) (i16 (geth (off + 6) d))
    (getw (off + 8) d) ((λ k, getw (off + 12 + 4 * k) d) <$> seq 0 13).

Fixpoint put_addrs (off : nat) (a : list Z) (d : block) : block :=
  match a with
  | [] => d
  | x :: a => put_addrs (off + 4) a (setw off x d)
  end.

Definition put_dinode (off : nat) (ip : inode) (d : block) : block :=
  put_addrs (off + 12) (i_addrs ip)
    (setw (off + 8) (i_size ip)
      (seth (off + 6) (i_nlink ip)
        (seth (off + 4) (i_minor ip)
          (seth (off + 2) (i_major ip)
            (seth off (i_type ip) d))))).

(** ** State *)

(** The store, the global sb, icache, wakeup(ip) calls, and proc->cwd. *)
Record fstate (T : Type) := mkFs {
  fs_t : T;
  fs_sb : superblock;
  ic_lock : spinlock;
  ic_inode : list inode;
  fs_woken : list nat;
  fs_cwd : nat;
}.
Arguments mkFs {T}.
Arguments fs_t {T}.
Arguments fs_sb {T}.
Arguments ic_lock {T}.
Arguments ic_inode {T}.
Arguments fs_woken {T}.
Arguments fs_cwd {T}.

Section fset.
Context {T : Type}.
Implicit Types (s : fstate T).
Definition set_t (x : T) s : fstate T :=
  mkFs x (fs_sb s) (ic_lock s) (ic_inode s) (fs_woken s) (fs_cwd s).
Definition set_sb (x : superblock) s : fstate T :=
  mkFs (fs_t s) x (ic_lock s) (ic_inode s) (fs_woken s) (fs_cwd s).
Definition set_ic_lock (x : spinlock) s : fstate T :=
  mkFs (fs_t s) (fs_sb s) x (ic_inode s) (fs_woken s) (fs_cwd s).
Definition set_inodes (x : list inode) s : fstate T :=
  mkFs (fs_t s) (fs_sb s) (ic_lock s) x (fs_woken s) (fs_cwd s).
Definition add_woken (i : nat) s : fstate T :=
  mkFs (fs_t s) (fs_sb s) (ic_lock s) (ic_inode s) (i :: fs_woken s) (fs_cwd s).
End fset.

(** ** fs.c *)

Section fs.
Context {T : Type} `{!TxStore T}.
Abbreviation st := (fstate T).

Definition tl {A} (m : M T A) : M st A := λ s,
  match m (fs_t s) with
  | Ret a t => Ret a (set_t t s)
  | Panic msg => Panic msg
  | Sleeps c t => Sleeps c (set_t t s)
  | Spins => Spins
  | Fault => Fault
  end.

Definition fs_cpu : lens st cpu :=
  mkLens (λ s, lget tx_cpu (fs_t s)) (λ c s, set_t (lput tx_cpu c (fs_t s)) s).
Definition iclk : lens st spinlock := mkLens ic_lock set_ic_lock.

Definition bread (dev x : Z) : M st nat := tl (tx_bread dev x).
Definition brelse (i : nat) : M st unit := tl (tx_brelse i).
Definition log_write (i : nat) : M st unit := tl (tx_log_write i).
Definition getdata (i : nat) : M st block :=
  d ← gets (λ s, tx_data i (fs_t s)); deref d.
Definition setdata (i : nat) (d : block) : M st unit := tl (tx_setdata i d).

Definition geti (ip : nat) : M st inode := o ← gets (λ s, ic_inode s !! ip); deref o.
Definition updi (ip : nat) (f : inode → inode) : M st unit :=
  i ← geti ip; modify (λ s, set_inodes (<[ip := f i]> (ic_inode s)) s).
Definition wakeupi (ip : nat) : M st unit := modify (add_woken ip).

Definition readsb (dev : Z) : M st superblock :=
  bp ← bread dev 1;
  d ← getdata bp;
  brelse bp ;;
  mret (mkSb (getw 0 d) (getw 4 d) (getw 8 d) (getw 12 d) (getw 16 d) (getw 20 d) (getw 24 d)).

Definition bzero (dev bno : Z) : M st unit :=
  bp ← bread dev bno;
  setdata bp (replicate BSIZE 0) ;;
  log_write bp ;;
  brelse bp.

(** Bit [bi] of a bitmap block. *)
Definition bitmask (bi : nat) : Z := Z.shiftl 1 (Z.of_nat (bi mod 8)).
Definition getbit (d : block) (bi : nat) : bool :=
  negb (Z.land (nth (bi / 8) d 0) (bitmask bi) =? 0).

(** The inner loop of balloc: [n] bits from [bi] on. *)
Fixpoint find_clear (d : block) (b size : Z) (n bi : nat) : option nat :=
  match n with
  | O => None
  | S n => if b + Z.of_nat bi <? size
           then if getbit d bi then find_clear d b size n (S bi) else Some bi
           else None
  end.

Fixpoint balloc_loop (fuel : nat) (dev b : Z) : M st Z :=
  match fuel with
  | O => fault
  | S fuel =>
      sb ← gets fs_sb;
      if b <? sb_size sb then
        bp ← bread dev (BBLOCK b sb);
        d ← getdata bp;
        match find_clear d b (sb_size sb) (Z.to_nat BPB) 0 with
        | Some bi =>
            setdata bp (<[(bi / 8)%nat := Z.lor (nth (bi / 8) d 0) (bitmask bi)]> d) ;;
            log_write bp ;;
            brelse bp ;;
            bzero dev (b + Z.of_nat bi) ;;
            mret (b + Z.of_nat bi)
        | None => brelse bp ;; balloc_loop fuel dev (b + BPB)
        end
      else panic "balloc: out of blocks"
  end.

(** One round per bitmap block and one for the final test. *)
Definition balloc (dev : Z) : M st Z :=
  sb ← gets fs_sb;
  balloc_loop (Z.to_nat (sb_size sb / BPB) + 2) dev 0.

Definition bfree (dev b : Z) : M st unit :=
  sb ← readsb dev;
  modify (set_sb sb) ;;
  bp ← bread dev (BBLOCK b sb);
  let bi := Z.to_nat (b mod BPB) in
  d ← getdata bp;
  if negb (getbit d bi) then panic "freeing free block" else
  setdata bp (<[(bi / 8)%nat := Z.land (nth (bi / 8) d 0) (Z.lnot (bitmask bi))]> d) ;;
  log_write bp ;;
  brelse bp.

Definition iinit (dev : Z) : M st unit :=
  modify (λ s, set_ic_lock (initlock "icache" (ic_lock s)) s) ;;
  sb ← readsb dev;
  modify (set_sb sb).

(** The scan of iget: the entry of (dev, inum), or the first empty one. *)
Fixpoint iget_scan (l : list inode) (i : nat) (dev inum : Z) (empty : option nat)
    : nat + option nat :=
  match l with
  | [] => inr empty
  | ip :: l =>
      if (0 <? i_ref ip) && (i_dev ip =? dev) && (i_inum ip =? inum) then inl i
      else iget_scan l (S i) dev inum
             (match empty with
              | None => if i_ref ip =? 0 then Some i else None
              | _ => empty
              end)
  end.

Definition iget (dev inum : Z) : M st nat :=
  acquire fs_cpu iclk ;;
  l ← gets ic_inode;
  match iget_scan l 0 dev inum None with
  | inl ip => updi ip (λ i, w_ref (i_ref i + 1) i) ;; release fs_cpu iclk ;; mret ip
  | inr None => panic "iget: no inodes"
  | inr (Some ip) =>
      updi ip (λ i, mkInode dev inum 1 0 (i_type i) (i_major i) (i_minor i) (i_nlink i)
                      (i_size i) (i_addrs i)) ;;
      release fs_cpu iclk ;;
      mret ip
  end.

Definition idoff (inum : Z) : nat := Z.to_nat (inum mod IPB) * DINODE.

Fixpoint ialloc_loop (fuel : nat) (dev type inum : Z) : M st nat :=
  match fuel with
  | O => fault
  | S fuel =>
      sb ← gets fs_sb;
      if inum <? sb_ninodes sb then
        bp ← bread dev (IBLOCK inum sb);
        d ← getdata bp;
        if geth (idoff inum) d =? 0 then
          setdata bp (seth (idoff inum) type (putbytes (idoff inum) (replicate DINODE 0) d)) ;;
          log_write bp ;;
          brelse bp ;;
          iget dev inum
        else brelse bp ;; ialloc_loop fuel dev type (inum + 1)
      else panic "ialloc: no inodes"
  end.

Definition ialloc (dev type : Z) : M st nat :=
  sb ← gets fs_sb;
  ialloc_loop (Z.to_nat (sb_ninodes sb) + 1) dev type 1.

Definition iupdate (ip : nat) : M st unit :=
  i ← geti ip;
  sb ← gets fs_sb;
  bp ← bread (i_dev i) (IBLOCK (i_inum i) sb);
  d ← getdata bp;
  setdata bp (put_dinode (idoff (i_inum i)) i d) ;;
  log_write bp ;;
  brelse bp.

Definition idup (ip : nat) : M st nat :=
  acquire fs_cpu iclk ;;
  updi ip (λ i, w_ref (i_ref i + 1) i) ;;
  release fs_cpu iclk ;;
  mret ip.

(** The second half of ilock: read the inode if the copy is not valid. *)
Definition ilock_read (ip : nat) : M st unit :=
  i ← geti ip;
  if Z.land (i_flags i) I_VALID =? 0 then
    sb ← gets fs_sb;
    bp ← bread (i_dev i) (IBLOCK (i_inum i) sb);
    d ← getdata bp;
    updi ip (get_dinode (idoff (i_inum i)) d) ;;
    brelse bp ;;
    updi ip (λ i, w_flags (Z.lor (i_flags i) I_VALID) i) ;;
    i ← geti ip;
    if i_type i =? 0 then panic "ilock: no type" else mret tt
  else mret tt.

(** A busy inode: the process sleeps on it and starts over. *)
Definition ilock (ip : nat) : M st unit :=
  i ← geti ip;
  if i_ref i <? 1 then panic "ilock" else
  acquire fs_cpu iclk ;;
  i ← geti ip;
  if negb (Z.land (i_flags i) I_BUSY =? 0)
  then release fs_cpu iclk ;; sleeps (Z.of_nat ip) else
  updi ip (λ i, w_flags (Z.lor (i_flags i) I_BUSY) i) ;;
  release fs_cpu iclk ;;
  ilock_read ip.

Definition iunlock (ip : nat) : M st unit :=
  i ← geti ip;
  if (Z.land (i_flags i) I_BUSY =? 0) || (i_ref i <? 1) then panic "iunlock" else
  acquire fs_cpu iclk ;;
  updi ip (λ i, w_flags (Z.land (i_flags i) (Z.lnot I_BUSY)) i) ;;
  wakeupi ip ;;
  release fs_cpu iclk.

Definition bmap (ip : nat) (bn : Z) : M st Z :=
  i ← geti ip;
  if bn <? NDIRECT then
    let k := Z.to_nat bn in
    addr ← deref (i_addrs i !! k);
    if addr =? 0 then
      addr ← balloc (i_dev i);
      updi ip (w_addr k addr) ;;
      mret addr
    else mret addr
  else
  let bn := bn - NDIRECT in
  if bn <? NINDIRECT then
    let k := Z.to_nat NDIRECT in
    addr ← deref (i_addrs i !! k);
    addr ← (if addr =? 0 then
              addr ← balloc (i_dev i);
              updi ip (w_addr k addr) ;;
              mret addr
            else mret addr);
    bp ← bread (i_dev i) addr;
    d ← getdata bp;
    let addr := getw (4 * Z.to_nat bn) d in
    addr ← (if addr =? 0 then
              addr ← balloc (i_dev i);
              d ← getdata bp;
              setdata bp (setw (4 * Z.to_nat bn) addr d) ;;
              log_write bp ;;
              mret addr
            else mret addr);
    brelse bp ;;
    mret addr
  else panic "bmap: out of range".

Definition itrunc (ip : nat) : M st unit :=
  forM (seq 0 (Z.to_nat NDIRECT)) (λ k,
    i ← geti ip;
    addr ← deref (i_addrs i !! k);
    if addr =? 0 then mret tt else
    bfree (i_dev i) addr ;;
    updi ip (w_addr k 0)) ;;
  i ← geti ip;
  addr ← deref (i_addrs i !! Z.to_nat NDIRECT);
  (if addr =? 0 then mret tt else
   bp ← bread (i_dev i) addr;
   forM (seq 0 (Z.to_nat NINDIRECT)) (λ j,
     d ← getdata bp;
     if getw (4 * j) d =? 0 then mret tt else bfree (i_dev i) (getw (4 * j) d)) ;;
   brelse bp ;;
   bfree (i_dev i) addr ;;
   updi ip (w_addr (Z.to_nat NDIRECT) 0)) ;;
  updi ip (w_size 0) ;;
  iupdate ip.

Definition iput (ip : nat) : M st unit :=
  acquire fs_cpu iclk ;;
  i ← geti ip;
  (if (i_ref i =? 1) && negb (Z.land (i_flags i) I_VALID =? 0) && (i_nlink i =? 0) then
     if negb (Z.land (i_flags i) I_BUSY =? 0) then panic "iput busy" else
     updi ip (λ i, w_flags (Z.lor (i_flags i) I_BUSY) i) ;;
     release fs_cpu iclk ;;
     itrunc ip ;;
     updi ip (w_type 0) ;;
     iupdate ip ;;
     acquire fs_cpu iclk ;;
     updi ip (w_flags 0) ;;
     wakeupi ip
   else mret tt) ;;
  updi ip (λ i, w_ref (i_ref i - 1) i) ;;
  release fs_cpu iclk.

Definition iunlockput (ip : nat) : M st unit := iunlock ip ;; iput ip.

(** struct stat, filled in by stati. *)
Definition stati (ip : nat) : M st (Z * Z * Z * Z * Z) :=
  i ← geti ip;
  mret (i_type i, i_dev i, i_inum i, i_nlink i, i_size i).

(** *** Contents *)

(** devsw[]: the functions of a device, by major number. *)
Context (devread : Z → option (nat → Z → M st (list Z * Z))).
Context (devwrite : Z → option (nat → list Z → Z → M st Z)).

(** A round moves to the next block, so there are at most n/BSIZE + 2 rounds,
    and one more test. *)
Fixpoint readi_loop (fuel : nat) (ip : nat) (tot off n : Z) (acc : list Z) : M st (list Z) :=
  match fuel with
  | O => fault
  | S fuel =>
      if tot <? n then
        x ← bmap ip (off / BSZ);
        i ← geti ip;
        bp ← bread (i_dev i) x;
        let m := Z.min (n - tot) (BSZ - off mod BSZ) in
        d ← getdata bp;
        brelse bp ;;
        readi_loop fuel ip (tot + m) (off + m) n
          (acc ++ getbytes (Z.to_nat (off mod BSZ)) (Z.to_nat m) d)
      else mret acc
  end.

Definition readi (ip : nat) (off n : Z) : M st (list Z * Z) :=
  i ← geti ip;
  if i_type i =? T_DEV then
    if (i_major i <? 0) || (NDEV <=? i_major i) then mret ([], -1) else
    match devread (i_major i) with
    | None => mret ([], -1)
    | Some f => f ip (i32 n)
    end
  else
  if (i_size i <? off) || (u32 (off + n) <? off) then mret ([], -1) else
  let n := if i_size i <? u32 (off + n) then i_size i - off else n in
  bs ← readi_loop (Z.to_nat (n / BSZ) + 3) ip 0 off n [];
  mret (bs, n).

(** The rest of the source and the offset after the last byte. *)
Fixpoint writei_loop (fuel : nat) (ip : nat) (src : list Z) (tot off n : Z) : M st Z :=
  match fuel with
  | O => fault
  | S fuel =>
      if tot <? n then
        x ← bmap ip (off / BSZ);
        i ← geti ip;
        bp ← bread (i_dev i) x;
        let m := Z.min (n - tot) (BSZ - off mod BSZ) in
        d ← getdata bp;
        setdata bp (putbytes (Z.to_nat (off mod BSZ)) (take (Z.to_nat m) src) d) ;;
        log_write bp ;;
        brelse bp ;;
        writei_loop fuel ip (drop (Z.to_nat m) src) (tot + m) (off + m) n
      else mret off
  end.

Definition writei (ip : nat) (src : list Z) (off n : Z) : M st Z :=
  i ← geti ip;
  if i_type i =? T_DEV then
    if (i_major i <? 0) || (NDEV <=? i_major i) then mret (-1) else
    match devwrite (i_major i) with
    | None => mret (-1)
    | Some f => f ip src (i32 n)
    end
  else
  if (i_size i <? off) || (u32 (off + n) <? off) then mret (-1) else
  if MAXFILE * BSZ <? u32 (off + n) then mret (-1) else
  off ← writei_loop (Z.to_nat (n / BSZ) + 3) ip src 0 off n;
  i ← geti ip;
  (if (0 <? n) && (i_size i <? off) then updi ip (w_size off) ;; iupdate ip else mret tt) ;;
  mret n.

(** *** Directories *)

(** A string or a name[DIRSIZ] array as a stream; past its end it is NUL. *)
Definition bstr (l : list Z) : nat → Z := λ i, nth i l 0.

Definition namecmp (s t : list Z) : Z := strncmp (bstr s) (bstr t) DIRSIZ.

(** strncpy of a string into an array of [n] bytes: cut or padded with NUL. *)
Fixpoint strncpy_arr (n : nat) (s : list Z) : list Z :=
  match n with
  | O => []
  | S n' => match s with
            | [] => replicate n 0
            | c :: s => if c =? 0 then replicate n 0 else c :: strncpy_arr n' s
            end
  end.

(** struct dirent: the inode number and the name. *)
Definition de_inum (de : list Z) : Z := geth 0 de.
Definition de_name (de : list Z) : list Z := drop 2 de.
Definition DIRENT : Z := 16.

Fixpoint dirlookup_loop (fuel : nat) (dp : nat) (name : list Z) (off : Z) : M st (option (nat * Z)) :=
  match fuel with
  | O => fault
  | S fuel =>
      i ← geti dp;
      if off <? i_size i then
        '(de, r) ← readi dp off DIRENT;
        if negb (r =? DIRENT) then panic "dirlink read" else
        if de_inum de =? 0 then dirlookup_loop fuel dp name (off + DIRENT) else
        if namecmp name (de_name de) =? 0 then
          ip ← iget (i_dev i) (de_inum de);
          mret (Some (ip, off))
        else dirlookup_loop fuel dp name (off + DIRENT)
      else mret None
  end.

(** The inode and *poff. *)
Definition dirlookup (dp : nat) (name : list Z) : M st (option (nat * Z)) :=
  i ← geti dp;
  if negb (i_type i =? T_DIR) then panic "dirlookup not DIR" else
  dirlookup_loop (Z.to_nat (i_size i / DIRENT) + 2) dp name 0.

(** The offset of the first empty entry, or the size. *)
Fixpoint dirempty_loop (fuel : nat) (dp : nat) (off : Z) : M st Z :=
  match fuel with
  | O => fault
  | S fuel =>
      i ← geti dp;
      if off <? i_size i then
        '(de, r) ← readi dp off DIRENT;
        if negb (r =? DIRENT) then panic "dirlink read" else
        if de_inum de =? 0 then mret off else dirempty_loop fuel dp (off + DIRENT)
      else mret off
  end.

Definition dirlink (dp : nat) (name : list Z) (inum : Z) : M st Z :=
  o ← dirlookup dp name;
  match o with
  | Some (ip, _) => iput ip ;; mret (-1)
  | None =>
      i ← geti dp;
      off ← dirempty_loop (Z.to_nat (i_size i / DIRENT) + 2) dp 0;
      r ← writei dp (to_le16 inum ++ strncpy_arr DIRSIZ name) off DIRENT;
      if negb (r =? DIRENT) then panic "dirlink" else mret 0
  end.

(** *** Paths *)

Definition SLASH : Z := 47.

Fixpoint skip_slashes (path : list Z) : list Z :=
  match path with
  | c :: r => if c =? SLASH then skip_slashes r else path
  | [] => []
  end.

(** The element up to the next slash, and what follows it. *)
Fixpoint span_elem (path : list Z) : list Z * list Z :=
  match path with
  | c :: r => if c =? SLASH then ([], path)
              else let '(e, r) := span_elem r in (c :: e, r)
  | [] => ([], [])
  end.

(** The rest of the path and the new contents of the array name. *)
Definition skipelem (path name : list Z) : option (list Z * list Z) :=
  let path := skip_slashes path in
  match path with
  | [] => None
  | _ =>
      let '(e, path) := span_elem path in
      let name := if (DIRSIZ <=? length e)%nat then putbytes 0 (take DIRSIZ e) name
                  else putbytes 0 (e ++ [0]) name in
      Some (skip_slashes path, name)
  end.

(** Each element takes at least one byte of the path. *)
Fixpoint namex_loop (fuel : nat) (ip : nat) (path : list Z) (nameiparent : bool) (name : list Z)
    : M st (option nat * list Z) :=
  match fuel with
  | O => fault
  | S fuel =>
      match skipelem path name with
      | None => if nameiparent then iput ip ;; mret (None, name) else mret (Some ip, name)
      | Some (path, name) =>
          ilock ip ;;
          i ← geti ip;
          if negb (i_type i =? T_DIR) then iunlockput ip ;; mret (None, name) else
          if nameiparent && bool_decide (path = []) then iunlock ip ;; mret (Some ip, name) else
          next ← dirlookup ip name;
          match next with
          | None => iunlockput ip ;; mret (None, name)
          | Some (next, _) => iunlockput ip ;; namex_loop fuel next path nameiparent name
          end
      end
  end.

Definition namex (path : list Z) (nameiparent : bool) (name : list Z) : M st (option nat * list Z) :=
  ip ← (match path with
        | c :: _ => if c =? SLASH then iget ROOTDEV ROOTINO else cwd ← gets fs_cwd; idup cwd
        | [] => cwd ← gets fs_cwd; idup cwd
        end);
  namex_loop (S (length path)) ip path nameiparent name.

(** name[] is a local array: its first contents are arbitrary. *)
Definition namei (path junk : list Z) : M st (option nat) :=
  r ← namex path false junk; mret (fst r).

Definition nameiparent (path name : list Z) : M st (option nat * list Z) := namex path true name.
End fs.

(** ** Lemmas: blocks *)

(** Block [x] changed and logged. *)
Definition t_upd (x : Z) (d : block) (v : tview) : tview :=
  mkTv (<[Z.to_nat x := d]> (tv_cur v)) (tv_held v) ({[x]} ∪ tv_log v) (tv_dirty v) (tv_cap v).

Lemma t_upd_eq i x d v :
  tv_held v !! i = None → x ∉ tv_dirty v →
  t_unhold i (t_log x (t_set x d (t_hold i x v))) = t_upd x d v.
Proof.
  intros Hi Hx. unfold t_unhold, t_log, t_set, t_hold, t_upd. simpl. f_equal.
  - by apply delete_insert_id.
  - set_solver.
Qed.

Lemma t_hold_unhold i x v : tv_held v !! i = None → t_unhold i (t_hold i x v) = v.
Proof.
  intros Hi. destruct v. unfold t_unhold, t_hold. simpl in *. f_equal. by apply delete_insert_id.
Qed.

(** A block the file system may read now. *)
Definition readable (v : tview) (x : Z) : Prop :=
  0 ≤ x < tv_len v ∧ (∀ i, tv_held v !! i ≠ Some x) ∧
  (x ∈ tv_log v ∨ (size (tv_log v) + size (tv_held v) < NBUF)%nat).

(** A block the file system may read, change and log now. *)
Definition writable (v : tview) (x : Z) : Prop :=
  readable v x ∧ (size (tv_log v) < tv_cap v)%nat.

Section fs_blocks.
Context {T : Type} `{!TxStore T}.
Abbreviation st := (fstate T).
Implicit Types (s : st) (v : tview).

Lemma wp_tl {A} (m : M T A) (Q : A → st → Prop) s :
  wp m (λ a t, Q a (set_t t s)) (fs_t s) → wp (tl m) Q s.
Proof. unfold wp, tl. by destruct (m (fs_t s)). Qed.

Lemma wp_fbread s v x (Q : nat → st → Prop) :
  tx_rel (fs_t s) v → readable v x →
  (∀ i t d, tv_held v !! i = None → x ∉ tv_dirty v → tx_rel t (t_hold i x v) →
     tv_cur v !! Z.to_nat x = Some d → tx_data i t = Some d → Q i (set_t t s)) →
  wp (bread 1 x) Q s.
Proof.
  intros HR (H1 & H2 & H3) HQ. apply wp_tl. eapply tx_bread_law; try done.
  intros i t Hi Hd Ht. destruct (tx_data_law t (t_hold i x v) i x Ht) as (d & E1 & E2).
  { apply lookup_insert_eq. }
  by eapply HQ.
Qed.

Lemma wp_getdata s i d (Q : block → st → Prop) :
  tx_data i (fs_t s) = Some d → Q d s → wp (getdata i) Q s.
Proof. intros H HQ. unfold getdata. wstep. wstep. by rewrite H. Qed.

Lemma wp_fbrelse s v i x (Q : unit → st → Prop) :
  tx_rel (fs_t s) (t_hold i x v) → tv_held v !! i = None → x ∉ tv_dirty v →
  (∀ t, tx_rel t v → Q tt (set_t t s)) → wp (brelse i) Q s.
Proof.
  intros HR Hi Hd HQ. apply wp_tl. eapply (tx_brelse_law _ _ _ x); [exact HR|apply lookup_insert_eq|done|].
  intros t. rewrite t_hold_unhold by done. apply HQ.
Qed.

(** setdata; log_write; brelse of a held block. *)
Lemma wp_put s v i x d (Q : unit → st → Prop) :
  tx_rel (fs_t s) (t_hold i x v) → tv_held v !! i = None → x ∉ tv_dirty v →
  (size (tv_log v) < tv_cap v)%nat →
  (∀ t, tx_rel t (t_upd x d v) → Q tt (set_t t s)) →
  wp (setdata i d ;; log_write i ;; brelse i) Q s.
Proof.
  intros HR Hi Hd Hc HQ. wstep. apply wp_tl.
  eapply (tx_setdata_law _ _ _ x); [exact HR|apply lookup_insert_eq|]. intros t1 R1.
  wstep. apply wp_tl. simpl.
  eapply (tx_log_write_law _ _ _ x); [exact R1|apply lookup_insert_eq|done|]. intros t2 R2.
  apply wp_tl. simpl.
  eapply (tx_brelse_law _ _ _ x); [exact R2|apply lookup_insert_eq|simpl; set_solver|].
  intros t3. rewrite t_upd_eq by done. apply HQ.
Qed.

(** The same, followed by more code. *)
Lemma wp_put_bind {C} s v i x d (k : unit → M st C) (Q : C → st → Prop) :
  tx_rel (fs_t s) (t_hold i x v) → tv_held v !! i = None → x ∉ tv_dirty v →
  (size (tv_log v) < tv_cap v)%nat →
  (∀ t, tx_rel t (t_upd x d v) → wp (k tt) Q (set_t t s)) →
  wp (setdata i d ;; log_write i ;; brelse i ≫= k) Q s.
Proof.
  intros HR Hi Hd Hc HQ. wstep. apply wp_tl.
  eapply (tx_setdata_law _ _ _ x); [exact HR|apply lookup_insert_eq|]. intros t1 R1.
  wstep. apply wp_tl. simpl.
  eapply (tx_log_write_law _ _ _ x); [exact R1|apply lookup_insert_eq|done|]. intros t2 R2.
  wstep. apply wp_tl. simpl.
  eapply (tx_brelse_law _ _ _ x); [exact R2|apply lookup_insert_eq|simpl; set_solver|].
  intros t3. rewrite t_upd_eq by done. apply HQ.
Qed.

Lemma wp_bzero s v x (Q : unit → st → Prop) :
  tx_rel (fs_t s) v → writable v x →
  (∀ t, tx_rel t (t_upd x (replicate BSIZE 0) v) → Q tt (set_t t s)) →
  wp (bzero 1 x) Q s.
Proof.
  intros HR [Hr Hc] HQ. unfold bzero. wstep. eapply wp_fbread; [exact HR|done|].
  intros i t d Hi Hd Ht _ _. eapply wp_put; [exact Ht|done..|]. intros t2 R2. by apply HQ.
Qed.
End fs_blocks.

(** *** The bitmap *)

Lemma getbit_testbit d bi : getbit d bi = Z.testbit (nth (bi / 8) d 0) (Z.of_nat (bi mod 8)).
Proof.
  unfold getbit, bitmask. set (x := nth _ _ _). set (k := Z.of_nat _).
  assert (Hk : 0 ≤ k) by lia. clearbody x k.
  assert (E : Z.land x (Z.shiftl 1 k) = if Z.testbit x k then Z.shiftl 1 k else 0).
  { apply Z.bits_inj'. intros n Hn. rewrite Z.land_spec, Z.shiftl_1_l.
    rewrite Z.pow2_bits_eqb by done. destruct (Z.eqb_spec k n) as [->|Hne].
    - destruct (Z.testbit x n) eqn:Ex; simpl; rewrite ?Z.bits_0; [|done].
      by rewrite Z.pow2_bits_true.
    - rewrite andb_false_r. destruct (Z.testbit x k); [|by rewrite Z.bits_0].
      by rewrite Z.pow2_bits_false. }
  rewrite E. destruct (Z.testbit x k); [|done].
  rewrite Z.shiftl_1_l. apply negb_true_iff, Z.eqb_neq, Z.pow_nonzero; lia.
Qed.

Lemma bitmask_bit bi n : 0 ≤ n → Z.testbit (bitmask bi) n = (n =? Z.of_nat (bi mod 8)).
Proof.
  intros Hn. unfold bitmask. rewrite Z.shiftl_1_l, Z.pow2_bits_eqb by lia. apply Z.eqb_sym.
Qed.

Lemma same_bit (i j : nat) : (i / 8 = j / 8 → i mod 8 = j mod 8 → i = j)%nat.
Proof. intros. rewrite (Nat.div_mod_eq i 8), (Nat.div_mod_eq j 8). congruence. Qed.

Lemma nth_insert_same (d : list Z) k x : (k < length d)%nat → nth k (<[k := x]> d) 0 = x.
Proof. intros. apply nth_lookup_Some. by apply list_lookup_insert_eq. Qed.

Lemma nth_insert_other (d : list Z) k j x : j ≠ k → nth j (<[k := x]> d) 0 = nth j d 0.
Proof. intros. rewrite !nth_lookup. by rewrite list_lookup_insert_ne. Qed.

(** Setting and clearing one bit of a block. *)
Lemma getbit_set d bi j :
  (bi / 8 < length d)%nat →
  getbit (<[(bi / 8)%nat := Z.lor (nth (bi / 8) d 0) (bitmask bi)]> d) j =
  (j =? bi)%nat || getbit d j.
Proof.
  intros Hl. rewrite !getbit_testbit. destruct (Nat.eqb_spec j bi) as [->|Hne].
  - rewrite nth_insert_same by done. rewrite Z.lor_spec, bitmask_bit, Z.eqb_refl by lia.
    by rewrite orb_true_r.
  - rewrite orb_false_l. destruct (decide (j / 8 = bi / 8)%nat) as [E|E].
    + rewrite E, nth_insert_same by done. rewrite Z.lor_spec, bitmask_bit by lia.
      replace (Z.of_nat (j mod 8) =? Z.of_nat (bi mod 8)) with false; [by rewrite orb_false_r|].
      symmetry. apply Z.eqb_neq. intros ?. apply Hne, same_bit; [done|lia].
    + by rewrite nth_insert_other.
Qed.

Lemma getbit_clear d bi j :
  (bi / 8 < length d)%nat →
  getbit (<[(bi / 8)%nat := Z.land (nth (bi / 8) d 0) (Z.lnot (bitmask bi))]> d) j =
  negb (j =? bi)%nat && getbit d j.
Proof.
  intros Hl. rewrite !getbit_testbit. destruct (Nat.eqb_spec j bi) as [->|Hne].
  - rewrite nth_insert_same by done. rewrite Z.land_spec, Z.lnot_spec, bitmask_bit, Z.eqb_refl by lia.
    by rewrite andb_false_r.
  - cbn [negb]. rewrite andb_true_l. destruct (decide (j / 8 = bi / 8)%nat) as [E|E].
    + rewrite E, nth_insert_same by done. rewrite Z.land_spec, Z.lnot_spec, bitmask_bit by lia.
      replace (Z.of_nat (j mod 8) =? Z.of_nat (bi mod 8)) with false; [by rewrite andb_true_r|].
      symmetry. apply Z.eqb_neq. intros ?. apply Hne, same_bit; [done|lia].
    + by rewrite nth_insert_other.
Qed.

Lemma find_clear_spec d b size n bi :
  match find_clear d b size n bi with
  | Some k => (bi ≤ k < bi + n)%nat ∧ b + Z.of_nat k < size ∧ getbit d k = false ∧
              ∀ j, (bi ≤ j < k)%nat → getbit d j = true
  | None => ∀ j, (bi ≤ j < bi + n)%nat → b + Z.of_nat j < size → getbit d j = true
  end.
Proof.
  revert bi. induction n as [|n IH]; intros bi; simpl; [lia|].
  destruct (Z.ltb_spec (b + Z.of_nat bi) size); [|lia].
  destruct (getbit d bi) eqn:E.
  - specialize (IH (S bi)). destruct (find_clear d b size n (S bi)) as [k|].
    + destruct IH as (H1 & H2 & H3 & H4). split_and!; [lia|lia|done|done|].
      intros j Hj. destruct (decide (j = bi)) as [->|]; [done|]. apply H4. lia.
    + intros j Hj Hs. destruct (decide (j = bi)) as [->|]; [done|]. apply IH; [lia|done].
  - split_and!; [lia|lia|done|done|lia].
Qed.

(** Block [b] is marked in use. *)
Definition used (v : tview) (sb : superblock) (b : Z) : bool :=
  getbit (default ([] : block) (tv_cur v !! Z.to_nat (BBLOCK b sb))) (Z.to_nat (b mod BPB)).

(** The geometry balloc and bfree rely on: the bitmap covers the blocks of
    the file system, its blocks are marked in use, no bitmap block is held,
    and the transaction has room for two more blocks. *)
Record bmap_ok (sb : superblock) (v : tview) : Prop := {
  bk_size : 0 ≤ sb_size sb ≤ tv_len v;
  bk_start : 0 ≤ sb_bmapstart sb;
  bk_in b : 0 ≤ b < sb_size sb → BBLOCK b sb < sb_size sb;
  bk_held b : 0 ≤ b < sb_size sb → ∀ i, tv_held v !! i ≠ Some (BBLOCK b sb);
  bk_len b (d : block) : 0 ≤ b < sb_size sb → tv_cur v !! Z.to_nat (BBLOCK b sb) = Some d → length d = BSIZE;
  bk_used b : 0 ≤ b < sb_size sb → used v sb (BBLOCK b sb) = true;
  bk_free b i : 0 ≤ b < sb_size sb → used v sb b = false → tv_held v !! i ≠ Some b;
}.

Definition tx_room (n : nat) (v : tview) : Prop :=
  (size (tv_log v) + n ≤ tv_cap v ∧ size (tv_log v) + n + size (tv_held v) ≤ NBUF)%nat.

Lemma BBLOCK_nonneg b sb : 0 ≤ b → 0 ≤ sb_bmapstart sb → 0 ≤ BBLOCK b sb.
Proof. intros Hb Hs. unfold BBLOCK. pose proof (Z.div_pos b BPB Hb eq_refl). lia. Qed.

Lemma BBLOCK_in b (k : nat) sb :
  0 ≤ b → b mod BPB = 0 → (k < Z.to_nat BPB)%nat →
  BBLOCK (b + Z.of_nat k) sb = BBLOCK b sb ∧ Z.to_nat ((b + Z.of_nat k) mod BPB) = k.
Proof.
  intros Hb Hm Hk. unfold BBLOCK. change (Z.to_nat BPB) with (Z.to_nat 4096) in Hk.
  change BPB with 4096 in *. split; [f_equal; zdm|].
  rewrite <-(Nat2Z.id k) at 2. f_equal. zdm.
Qed.

Lemma size_add_log x (v : tview) : (size ({[x]} ∪ tv_log v) ≤ S (size (tv_log v)))%nat.
Proof.
  destruct (decide (x ∈ tv_log v)).
  - rewrite subseteq_union_1_L by set_solver. lia.
  - rewrite size_union by set_solver. rewrite size_singleton. lia.
Qed.

Lemma readable_bmap sb v b :
  bmap_ok sb v → tx_room 2 v → 0 ≤ b < sb_size sb → readable v (BBLOCK b sb).
Proof.
  intros Hk [_ Hr] Hb. pose proof (BBLOCK_nonneg b sb (proj1 Hb) (bk_start _ _ Hk)).
  pose proof (bk_in _ _ Hk b Hb). pose proof (bk_size _ _ Hk).
  split_and!; [lia|lia|by apply Hk|right; lia].
Qed.

(** A free block stays writable after another block was logged. *)
Lemma writable_free sb v b x d :
  bmap_ok sb v → tx_room 2 v → 0 ≤ b < sb_size sb → used v sb b = false →
  writable (t_upd x d v) b.
Proof.
  intros Hk [Hc Hr] Hb Hu. pose proof (bk_size _ _ Hk). pose proof (size_add_log x v).
  split; [split_and!|]; simpl.
  - lia.
  - unfold tv_len in *. simpl. rewrite length_insert. lia.
  - intros i. by eapply bk_free.
  - right. lia.
  - lia.
Qed.

(** The view after balloc took block [b]. *)
Definition t_alloc (sb : superblock) (b : Z) (v : tview) : tview :=
  let d := default ([] : block) (tv_cur v !! Z.to_nat (BBLOCK b sb)) in
  let bi := Z.to_nat (b mod BPB) in
  t_upd b (replicate BSIZE 0)
    (t_upd (BBLOCK b sb) (<[(bi / 8)%nat := Z.lor (nth (bi / 8) d 0) (bitmask bi)]> d) v).

Section balloc.
Context {T : Type} `{!TxStore T}.
Abbreviation st := (fstate T).

Lemma wp_balloc_hit s v sb b k d (Q : Z → st → Prop) E :
  tx_rel (fs_t s) v → bmap_ok sb v → tx_room 2 v →
  0 ≤ b → b mod BPB = 0 → (k < Z.to_nat BPB)%nat → b + Z.of_nat k < sb_size sb →
  tv_cur v !! Z.to_nat (BBLOCK b sb) = Some d → getbit d k = false →
  (∀ t, tx_rel t (t_alloc sb (b + Z.of_nat k) v) → Q (b + Z.of_nat k) (set_t t s)) →
  ∀ i t0, tv_held v !! i = None → BBLOCK b sb ∉ tv_dirty v → tx_rel t0 (t_hold i (BBLOCK b sb) v) →
  wpe (setdata i (<[(k / 8)%nat := Z.lor (nth (k / 8) d 0) (bitmask k)]> d) ;;
       log_write i ;; brelse i ;; bzero 1 (b + Z.of_nat k) ;; mret (b + Z.of_nat k)) Q E (set_t t0 s).
Proof.
  intros HR Hk Hroom Hb Hm Hk0 Hs Hd Hg HQ i t0 Hi Hdirty Ht.
  destruct (BBLOCK_in b k sb Hb Hm Hk0) as [E1 E2].
  assert (Hu : used v sb (b + Z.of_nat k) = false) by (unfold used; by rewrite E1, E2, Hd).
  apply wpe_wp. eapply wp_put_bind; [exact Ht|done|done|destruct Hroom; lia|].
  intros t1 R1. wstep. eapply wp_bzero; [exact R1|by eapply writable_free; try done; lia|].
  intros t2 R2. wstep. apply HQ. unfold t_alloc. by rewrite E1, E2, Hd.
Qed.

(** What balloc returns from bitmap position [b] on. *)
Definition balloc_post s v sb (r : Z) (s' : st) : Prop :=
  0 ≤ r < sb_size sb ∧ used v sb r = false ∧ (∀ b, 0 ≤ b < r → used v sb b = true) ∧
  ∃ t, s' = set_t t s ∧ tx_rel t (t_alloc sb r v).

Lemma wp_balloc_loop fuel s v b :
  let sb := fs_sb s in
  tx_rel (fs_t s) v → bmap_ok sb v → tx_room 2 v →
  0 ≤ b < sb_size sb + BPB → b mod BPB = 0 → sb_size sb - b + BPB ≤ Z.of_nat fuel * BPB →
  (∀ b', 0 ≤ b' < b → b' < sb_size sb → used v sb b' = true) →
  wpe (balloc_loop fuel 1 b) (balloc_post s v sb)
    (λ msg, msg = "balloc: out of blocks" ∧ ∀ b', 0 ≤ b' < sb_size sb → used v sb b' = true) s.
Proof.
  revert s b. induction fuel as [|fuel IH]; intros s b sb HR Hk Hroom Hb Hm Hf Hu; [lia|].
  cbn [balloc_loop]. apply wpe_bind. wstep. fold sb.
  destruct (Z.ltb_spec b (sb_size sb)) as [Hlt|Hge].
  2:{ split; [done|]. intros b' Hb'. apply Hu; lia. }
  apply wpe_bind. eapply wp_fbread; [exact HR|by apply readable_bmap; try done; lia|].
  intros i t d Hi Hdirty Ht Hd Hdata. apply wpe_bind. eapply wp_getdata; [exact Hdata|].
  pose proof (find_clear_spec d b (sb_size sb) (Z.to_nat BPB) 0) as Hfc.
  destruct (find_clear d b (sb_size sb) (Z.to_nat BPB) 0) as [k|].
  - destruct Hfc as (H1 & H2 & H3 & H4).
    destruct (BBLOCK_in b k sb) as [E1 E2]; [lia|done|lia|].
    eapply wp_balloc_hit; try done; [lia..|]. intros t2 R2.
    split_and!; [lia|lia| | |by exists t2].
    + unfold used. by rewrite E1, E2, Hd.
    + intros b' Hb'. destruct (Z.lt_ge_cases b' b) as [?|Hge]; [apply Hu; lia|].
      replace b' with (b + Z.of_nat (Z.to_nat (b' - b))) by lia.
      destruct (BBLOCK_in b (Z.to_nat (b' - b)) sb) as [F1 F2]; [lia|done|lia|].
      unfold used. rewrite F1, F2, Hd. apply H4. lia.
  - apply wpe_bind. eapply wp_fbrelse; [exact Ht|done|done|]. intros t2 R2.
    apply (IH (set_t t2 s) (b + BPB)); simpl; fold sb; try done; change BPB with 4096 in *; try lia; [zdm|].
    intros b' Hb' Hs'. destruct (Z.lt_ge_cases b' b) as [?|Hge]; [apply Hu; lia|].
    replace b' with (b + Z.of_nat (Z.to_nat (b' - b))) by lia.
    destruct (BBLOCK_in b (Z.to_nat (b' - b)) sb) as [F1 F2];
      [lia|done|change (Z.to_nat BPB) with (Z.to_nat 4096); lia|].
    unfold used. rewrite F1, F2, Hd.
    apply Hfc; [change (Z.to_nat BPB) with (Z.to_nat 4096)|]; lia.
Qed.

Lemma wp_balloc s v :
  let sb := fs_sb s in
  tx_rel (fs_t s) v → bmap_ok sb v → tx_room 2 v →
  wpe (balloc 1) (balloc_post s v sb)
    (λ msg, msg = "balloc: out of blocks" ∧ ∀ b, 0 ≤ b < sb_size sb → used v sb b = true) s.
Proof.
  intros sb HR Hk Hroom. pose proof (bk_size _ _ Hk) as Hsz. unfold balloc. apply wpe_bind. wstep.
  apply wp_balloc_loop; fold sb; [done..| |done| |]; change BPB with 4096; [lia|zdm|lia].
Qed.
End balloc.

Lemma BBLOCK_inj b b' sb :
  0 ≤ b → 0 ≤ b' → BBLOCK b sb = BBLOCK b' sb → Z.to_nat (b mod BPB) = Z.to_nat (b' mod BPB) → b = b'.
Proof. unfold BBLOCK. change BPB with 4096. intros. zdm. Qed.

Lemma bit_in_block b (d : block) : length d = BSIZE → (Z.to_nat (b mod BPB) / 8 < length d)%nat.
Proof.
  intros ->. change BPB with 4096. apply Nat.Div0.div_lt_upper_bound.
  change (8 * BSIZE)%nat with (Z.to_nat 4096). zdm.
Qed.

Lemma bmap_block sb v b :
  bmap_ok sb v → 0 ≤ b < sb_size sb →
  ∃ d : block, tv_cur v !! Z.to_nat (BBLOCK b sb) = Some d ∧ length d = BSIZE.
Proof.
  intros Hk Hb. pose proof (bk_in _ _ Hk b Hb). pose proof (bk_size _ _ Hk).
  pose proof (BBLOCK_nonneg b sb (proj1 Hb) (bk_start _ _ Hk)).
  destruct (lookup_lt_is_Some_2 (tv_cur v) (Z.to_nat (BBLOCK b sb))) as [d Hd].
  { unfold tv_len in *. lia. }
  exists d. split; [done|]. by apply (bk_len _ _ Hk b).
Qed.

(** Rewriting the bitmap block of [r] changes the marks of its blocks only. *)
Lemma used_upd sb v r d' b :
  bmap_ok sb v → 0 ≤ r < sb_size sb → 0 ≤ b < sb_size sb →
  used (t_upd (BBLOCK r sb) d' v) sb b =
  if decide (BBLOCK b sb = BBLOCK r sb) then getbit d' (Z.to_nat (b mod BPB)) else used v sb b.
Proof.
  intros Hk Hr Hb. unfold used, t_upd. simpl.
  pose proof (BBLOCK_nonneg b sb (proj1 Hb) (bk_start _ _ Hk)).
  pose proof (BBLOCK_nonneg r sb (proj1 Hr) (bk_start _ _ Hk)).
  destruct (bmap_block sb v r Hk Hr) as (d & Hd & _). pose proof (lookup_lt_Some _ _ _ Hd).
  case_decide as E.
  - rewrite E. by rewrite list_lookup_insert_eq.
  - rewrite list_lookup_insert_ne by lia. done.
Qed.

Lemma used_alloc sb v r b :
  bmap_ok sb v → 0 ≤ r < sb_size sb → used v sb r = false → 0 ≤ b < sb_size sb →
  used (t_alloc sb r v) sb b = (b =? r) || used v sb b.
Proof.
  intros Hk Hr Hu Hb. unfold t_alloc. cbv zeta.
  destruct (bmap_block sb v r Hk Hr) as (d & Hd & Hl). rewrite Hd. simpl default.
  pose proof (BBLOCK_nonneg b sb (proj1 Hb) (bk_start _ _ Hk)).
  assert (Hne : BBLOCK b sb ≠ r).
  { intros E. pose proof (bk_used _ _ Hk b Hb) as Hbu. rewrite E in Hbu. congruence. }
  transitivity (used (t_upd (BBLOCK r sb) (<[(Z.to_nat (r mod BPB) / 8)%nat :=
      Z.lor (nth (Z.to_nat (r mod BPB) / 8) d 0) (bitmask (Z.to_nat (r mod BPB)))]> d) v) sb b).
  { unfold used, t_upd. cbn [tv_cur]. rewrite list_lookup_insert_ne by lia. done. }
  rewrite used_upd by done. case_decide as E.
  - rewrite getbit_set by (by apply bit_in_block). unfold used. rewrite E, Hd. simpl default. f_equal.
    destruct (Z.eqb_spec b r) as [->|Hbr]; [by apply Nat.eqb_refl|].
    apply Nat.eqb_neq. intros E2. apply Hbr. apply (BBLOCK_inj b r sb); lia.
  - destruct (Z.eqb_spec b r) as [->|Hbr]; done.
Qed.

(** The super block as readsb reads it. *)
Definition sb_of (d : block) : superblock :=
  mkSb (getw 0 d) (getw 4 d) (getw 8 d) (getw 12 d) (getw 16 d) (getw 20 d) (getw 24 d).

(** The view after bfree released block [b]. *)
Definition t_free (sb : superblock) (b : Z) (v : tview) : tview :=
  let d := default ([] : block) (tv_cur v !! Z.to_nat (BBLOCK b sb)) in
  let bi := Z.to_nat (b mod BPB) in
  t_upd (BBLOCK b sb) (<[(bi / 8)%nat := Z.land (nth (bi / 8) d 0) (Z.lnot (bitmask bi))]> d) v.

Lemma used_free sb v r b :
  bmap_ok sb v → 0 ≤ r < sb_size sb → 0 ≤ b < sb_size sb →
  used (t_free sb r v) sb b = negb (b =? r) && used v sb b.
Proof.
  intros Hk Hr Hb. unfold t_free. cbv zeta. destruct (bmap_block sb v r Hk Hr) as (d & Hd & Hl).
  rewrite Hd. simpl default. rewrite used_upd by done. case_decide as E.
  - rewrite getbit_clear by (by apply bit_in_block). unfold used. rewrite E, Hd. simpl default.
    f_equal. f_equal. destruct (Z.eqb_spec b r) as [->|Hbr]; [by apply Nat.eqb_refl|].
    apply Nat.eqb_neq. intros E2. apply Hbr. apply (BBLOCK_inj b r sb); lia.
  - destruct (Z.eqb_spec b r) as [->|Hbr]; done.
Qed.

Section bfree.
Context {T : Type} `{!TxStore T}.
Abbreviation st := (fstate T).

Lemma wp_readsb (s : st) v (d : block) (Q : superblock → st → Prop) :
  tx_rel (fs_t s) v → readable v 1 → tv_cur v !! 1%nat = Some d →
  (∀ t, tx_rel t v → Q (sb_of d) (set_t t s)) → wp (readsb 1) Q s.
Proof.
  intros HR Hr Hd HQ. unfold readsb. wstep. eapply wp_fbread; [exact HR|done|].
  intros i t d' Hi Hdirty Ht Hd' Hdata.
  assert (d' = d) as -> by (change (Z.to_nat 1) with 1%nat in Hd'; congruence).
  wstep. eapply wp_getdata; [exact Hdata|]. wstep. eapply wp_fbrelse; [exact Ht|done|done|].
  intros t2 R2. wstep. by apply HQ.
Qed.

Lemma wp_bfree (s : st) v (d : block) b :
  let sb := sb_of d in
  tx_rel (fs_t s) v → bmap_ok sb v → tx_room 2 v → readable v 1 → tv_cur v !! 1%nat = Some d →
  0 ≤ b < sb_size sb →
  wpe (bfree 1 b)
    (λ _ s', used v sb b = true ∧ ∃ t, s' = set_sb sb (set_t t s) ∧ tx_rel t (t_free sb b v))
    (λ msg, msg = "freeing free block" ∧ used v sb b = false) s.
Proof.
  intros sb HR Hk Hroom H1 Hd Hb. unfold bfree. apply wpe_bind.
  eapply wp_readsb; [exact HR|done|exact Hd|]. intros t1 R1. fold sb.
  apply wpe_bind. wstep. apply wpe_bind. eapply wp_fbread; [exact R1|by apply readable_bmap|].
  intros i t2 d2 Hi Hdirty R2 Hd2 Hdata. apply wpe_bind. eapply wp_getdata; [exact Hdata|].
  assert (Hu : used v sb b = getbit d2 (Z.to_nat (b mod BPB))) by (unfold used; by rewrite Hd2).
  destruct (getbit d2 (Z.to_nat (b mod BPB))) eqn:Eg; cbn [negb].
  - apply wpe_wp. eapply wp_put; [exact R2|done|done|destruct Hroom; lia|]. intros t3 R3.
    split; [done|]. exists t3. split; [done|]. unfold t_free. cbv zeta. rewrite Hd2. exact R3.
  - by split.
Qed.
End bfree.

(** ** Lemmas: inodes *)

Definition is_i16 (x : Z) : Prop := -32768 ≤ x < 32768.

Lemma le16_mod v : le16 (to_le16 v) = v mod 65536.
Proof. unfold le16, to_le16, u8. zdm. Qed.

Lemma i16_geth_seth off v d :
  is_i16 v → (off + 2 ≤ length d)%nat → i16 (geth off (seth off v d)) = v.
Proof.
  intros Hv H. unfold geth, seth. change 2%nat with (length (to_le16 v)) at 1.
  rewrite get_put_same by done. rewrite le16_mod. unfold i16, is_i16 in *.
  case_if; zdm.
Qed.

Lemma geth_seth_other off off' v d :
  (off' + 2 ≤ length d)%nat → (off + 2 ≤ off' ∨ off' + 2 ≤ off)%nat →
  geth off (seth off' v d) = geth off d.
Proof. intros. unfold geth, seth. by rewrite get_put_other. Qed.

Lemma geth_setw_other off off' v d :
  (off' + 4 ≤ length d)%nat → (off + 2 ≤ off' ∨ off' + 4 ≤ off)%nat →
  geth off (setw off' v d) = geth off d.
Proof. intros. unfold geth, setw. by rewrite get_put_other. Qed.

Lemma getw_seth_other off off' v d :
  (off' + 2 ≤ length d)%nat → (off + 4 ≤ off' ∨ off' + 2 ≤ off)%nat →
  getw off (seth off' v d) = getw off d.
Proof. intros. unfold getw, seth. by rewrite get_put_other. Qed.

Lemma seth_length off v d : (off + 2 ≤ length d)%nat → length (seth off v d) = length d.
Proof. intros. unfold seth. by rewrite putbytes_length. Qed.

Lemma put_addrs_length a off d :
  (off + 4 * length a ≤ length d)%nat → length (put_addrs off a d) = length d.
Proof.
  revert off d. induction a as [|x a IH]; intros off d H; simpl in *; [done|].
  rewrite IH; rewrite ?setw_length by lia; [done|lia].
Qed.

(** The addresses leave everything outside them alone. *)
Lemma put_addrs_getbytes a off d o n :
  (off + 4 * length a ≤ length d)%nat → (o + n ≤ off ∨ off + 4 * length a ≤ o)%nat →
  getbytes o n (put_addrs off a d) = getbytes o n d.
Proof.
  revert off d. induction a as [|x a IH]; intros off d H Ho; simpl in *; [done|].
  rewrite IH by (rewrite ?setw_length by lia; lia). unfold setw.
  rewrite get_put_other; [done|simpl; lia|simpl; lia].
Qed.

Lemma put_addrs_getw a off d k x :
  (off + 4 * length a ≤ length d)%nat → a !! k = Some x → is_u32 x →
  getw (off + 4 * k) (put_addrs off a d) = x.
Proof.
  revert off d k. induction a as [|y a IH]; intros off d [|k] H Hk Hx; simpl in *; try done.
  - injection Hk as ->. rewrite Nat.add_0_r. unfold getw.
    rewrite put_addrs_getbytes by (rewrite ?setw_length by lia; lia).
    apply getw_setw; [done|lia].
  - replace (off + S (k + S (k + S (k + S (k + 0)))))%nat with (off + 4 + 4 * k)%nat by lia.
    apply IH; try done. rewrite setw_length by lia. lia.
Qed.

Record inode_ok (ip : inode) : Prop := {
  ik_type : is_i16 (i_type ip); ik_major : is_i16 (i_major ip); ik_minor : is_i16 (i_minor ip);
  ik_nlink : is_i16 (i_nlink ip); ik_size : is_u32 (i_size ip);
  ik_len : length (i_addrs ip) = 13%nat; ik_addrs : Forall is_u32 (i_addrs ip);
}.

(** The lengths of the blocks between the assignments of iupdate. *)
Lemma put_dinode_steps off ip d :
  inode_ok ip → (off + DINODE ≤ length d)%nat →
  ∃ d1 d2 d3 d4 d5, put_dinode off ip d = put_addrs (off + 12) (i_addrs ip) d5 ∧
    d1 = seth off (i_type ip) d ∧ d2 = seth (off + 2) (i_major ip) d1 ∧
    d3 = seth (off + 4) (i_minor ip) d2 ∧ d4 = seth (off + 6) (i_nlink ip) d3 ∧
    d5 = setw (off + 8) (i_size ip) d4 ∧
    length d1 = length d ∧ length d2 = length d ∧ length d3 = length d ∧
    length d4 = length d ∧ length d5 = length d.
Proof.
  intros Hi H. unfold DINODE in H. do 5 eexists. split; [reflexivity|]. do 5 (split; [reflexivity|]).
  assert (L1 : length (seth off (i_type ip) d) = length d) by (rewrite seth_length; lia).
  split; [done|]. do 3 (match goal with
    |- length (seth ?o ?v ?e) = _ ∧ _ =>
      assert (length (seth o v e) = length d) by (rewrite seth_length; lia); split; [done|] end).
  rewrite setw_length; lia.
Qed.

Lemma put_dinode_length off ip d :
  inode_ok ip → (off + DINODE ≤ length d)%nat → length (put_dinode off ip d) = length d.
Proof.
  intros Hi H. pose proof (ik_len _ Hi) as Hl.
  destruct (put_dinode_steps off ip d Hi H) as (d1 & d2 & d3 & d4 & d5 & -> & Hs).
  unfold DINODE in H. rewrite put_addrs_length; [tauto|]. destruct Hs as (_ & _ & _ & _ & _ & _ & _ & _ & _ & ->). lia.
Qed.

(** iupdate then ilock: the disk copy is the inode. *)
Lemma get_put_dinode off ip jp d :
  inode_ok ip → (off + DINODE ≤ length d)%nat →
  get_dinode off (put_dinode off ip d) jp =
  mkInode (i_dev jp) (i_inum jp) (i_ref jp) (i_flags jp) (i_type ip) (i_major ip) (i_minor ip)
    (i_nlink ip) (i_size ip) (i_addrs ip).
Proof.
  intros Hi H. pose proof (ik_len _ Hi) as Hl.
  destruct (put_dinode_steps off ip d Hi H) as
    (d1 & d2 & d3 & d4 & d5 & -> & E1 & E2 & E3 & E4 & E5 & L1 & L2 & L3 & L4 & L5).
  unfold DINODE in H. destruct Hi as [K1 K2 K3 K4 K5 _ K7].
  assert (Hh : ∀ o, (o + 2 ≤ off + 12)%nat →
    geth o (put_addrs (off + 12) (i_addrs ip) d5) = geth o d5).
  { intros o Ho. unfold geth. rewrite put_addrs_getbytes by lia. done. }
  assert (Hw : getw (off + 8) (put_addrs (off + 12) (i_addrs ip) d5) = i_size ip).
  { unfold getw at 1. rewrite put_addrs_getbytes by lia. rewrite E5. apply getw_setw; [done|lia]. }
  unfold get_dinode. rewrite !Hh, Hw by lia. f_equal.
  - rewrite E5, geth_setw_other, E4, geth_seth_other, E3, geth_seth_other, E2, geth_seth_other, E1 by lia.
    apply i16_geth_seth; [done|lia].
  - rewrite E5, geth_setw_other, E4, geth_seth_other, E3, geth_seth_other, E2 by lia.
    apply i16_geth_seth; [done|lia].
  - rewrite E5, geth_setw_other, E4, geth_seth_other, E3 by lia. apply i16_geth_seth; [done|lia].
  - rewrite E5, geth_setw_other, E4 by lia. apply i16_geth_seth; [done|lia].
  - apply list_eq_same_length with 13%nat; [done|by rewrite length_fmap, length_seq|].
    intros k x y Hk Hx Hy. rewrite list_lookup_fmap, lookup_seq_lt in Hx by lia.
    injection Hx as <-. apply (put_addrs_getw (i_addrs ip) (off + 12) d5 k y); [lia|exact Hy|].
    eapply Forall_lookup_1; [exact K7|exact Hy].
Qed.

(** The other disk inodes of the block do not change. *)
Lemma put_dinode_frame off ip d o n :
  inode_ok ip → (off + DINODE ≤ length d)%nat → (o + n ≤ off ∨ off + DINODE ≤ o)%nat →
  getbytes o n (put_dinode off ip d) = getbytes o n d.
Proof.
  intros Hi H Ho. pose proof (ik_len _ Hi) as Hl.
  destruct (put_dinode_steps off ip d Hi H) as
    (d1 & d2 & d3 & d4 & d5 & -> & E1 & E2 & E3 & E4 & E5 & L1 & L2 & L3 & L4 & L5).
  unfold DINODE in *. rewrite put_addrs_getbytes by lia.
  rewrite E5. unfold setw. rewrite get_put_other by (simpl; lia).
  rewrite E4. unfold seth. rewrite get_put_other by (simpl; lia).
  rewrite E3. unfold seth. rewrite get_put_other by (simpl; lia).
  rewrite E2. unfold seth. rewrite get_put_other by (simpl; lia).
  rewrite E1. unfold seth. rewrite get_put_other by (simpl; lia). done.
Qed.

Section inodes.
Context {T : Type} `{!TxStore T}.
Abbreviation st := (fstate T).
Implicit Types (s : st) (v : tview).

#[export] Instance fs_cpu_ok : LensOk (fs_cpu (T:=T)).
Proof.
  split.
  - intros c s. simpl. apply lget_lput.
  - intros c c' s. unfold fs_cpu, set_t. simpl. by rewrite lput_lput.
  - intros s. unfold fs_cpu, set_t. simpl. rewrite lput_lget. by destruct s.
Qed.
#[export] Instance iclk_ok : LensOk (iclk (T:=T)).
Proof. split; try done. by intros []. Qed.
#[export] Instance fs_cpu_iclk : LensIndep (fs_cpu (T:=T)) iclk.
Proof. by split. Qed.

(** icache.lock is free and the CPU's interrupt nesting is consistent. *)
Definition ic_quiet s : Prop := quiet fs_cpu iclk s.

Lemma wp_geti s k ip (Q : inode → st → Prop) :
  ic_inode s !! k = Some ip → Q ip s → wp (geti k) Q s.
Proof. intros H HQ. unfold geti. wstep. wstep. by rewrite H. Qed.

Lemma wp_updi s k ip f (Q : unit → st → Prop) :
  ic_inode s !! k = Some ip → Q tt (set_inodes (<[k := f ip]> (ic_inode s)) s) →
  wp (updi k f) Q s.
Proof. intros H HQ. unfold updi. wstep. eapply wp_geti; [exact H|]. by wstep. Qed.

Lemma idoff_fits inum (d : block) : length d = BSIZE → (idoff inum + DINODE ≤ length d)%nat.
Proof.
  intros ->. unfold idoff, DINODE. change IPB with 8. change BSIZE with 512%nat.
  pose proof (Z.mod_pos_bound inum 8). lia.
Qed.

Lemma wp_iupdate s v k ip d (Q : unit → st → Prop) :
  let x := IBLOCK (i_inum ip) (fs_sb s) in
  tx_rel (fs_t s) v → ic_inode s !! k = Some ip → i_dev ip = 1 → writable v x →
  tv_cur v !! Z.to_nat x = Some d →
  (∀ t, tx_rel t (t_upd x (put_dinode (idoff (i_inum ip)) ip d) v) → Q tt (set_t t s)) →
  wp (iupdate k) Q s.
Proof.
  intros x HR Hk Hdev [Hr Hc] Hd HQ. unfold iupdate. wstep. eapply wp_geti; [exact Hk|].
  wstep. wstep. rewrite Hdev. wstep. eapply wp_fbread; [exact HR|exact Hr|].
  intros i t d' Hi Hdirty Ht Hd' Hdata. assert (d' = d) as -> by (fold x in Hd'; congruence).
  wstep. eapply wp_getdata; [exact Hdata|]. eapply wp_put; [exact Ht|done|done|done|].
  intros t2 R2. by apply HQ.
Qed.

Lemma wp_ilock_read s v k ip d (Q : unit → st → Prop) :
  let x := IBLOCK (i_inum ip) (fs_sb s) in
  let ip' := w_flags (Z.lor (i_flags ip) I_VALID) (get_dinode (idoff (i_inum ip)) d ip) in
  tx_rel (fs_t s) v → ic_inode s !! k = Some ip → i_dev ip = 1 →
  Z.land (i_flags ip) I_VALID = 0 → readable v x → tv_cur v !! Z.to_nat x = Some d →
  i_type ip' ≠ 0 →
  (∀ t, tx_rel t v → Q tt (set_inodes (<[k := ip']> (ic_inode s)) (set_t t s))) →
  wp (ilock_read k) Q s.
Proof.
  intros x ip' HR Hk Hdev Hf Hr Hd Ht HQ. pose proof (lookup_lt_Some _ _ _ Hk) as Hlt.
  unfold ilock_read. wstep. eapply wp_geti; [exact Hk|]. rewrite Hf. simpl Z.eqb. cbv iota.
  wstep. wstep. rewrite Hdev. wstep. eapply wp_fbread; [exact HR|exact Hr|].
  intros i t d' Hi Hdirty R1 Hd' Hdata. assert (d' = d) as -> by (fold x in Hd'; congruence).
  wstep. eapply wp_getdata; [exact Hdata|]. wstep. eapply wp_updi; [exact Hk|].
  wstep. eapply wp_fbrelse; [exact R1|done|done|]. intros t2 R2.
  wstep. eapply wp_updi; [simpl; by apply list_lookup_insert_eq|].
  simpl set_inodes. rewrite list_insert_insert_eq. fold ip'.
  wstep. eapply wp_geti; [simpl; by apply list_lookup_insert_eq|]. simpl ic_inode.
  replace (i_type ip' =? 0) with false by (symmetry; by apply Z.eqb_neq). wstep.
  exact (HQ t2 R2).
Qed.
End inodes.

(** ** Lemmas: the inode cache *)

Definition cached (dev inum : Z) (ip : inode) : Prop :=
  0 < i_ref ip ∧ i_dev ip = dev ∧ i_inum ip = inum.

(** No inode has two entries. *)
Definition ic_uniq (l : list inode) : Prop :=
  ∀ i j a b, l !! i = Some a → l !! j = Some b → cached (i_dev b) (i_inum b) a → 0 < i_ref b → i = j.

Lemma cached_test dev inum ip :
  (0 <? i_ref ip) && (i_dev ip =? dev) && (i_inum ip =? inum) = true ↔ cached dev inum ip.
Proof. unfold cached. rewrite !andb_true_iff, Z.ltb_lt, !Z.eqb_eq. tauto. Qed.

Lemma iget_scan_spec l i dev inum empty :
  match iget_scan l i dev inum empty with
  | inl k => ∃ a, (i ≤ k)%nat ∧ l !! (k - i)%nat = Some a ∧ cached dev inum a
  | inr e => (∀ j a, l !! j = Some a → ¬ cached dev inum a) ∧
      match empty with
      | Some _ => e = empty
      | None => match e with
                | Some k => ∃ a, (i ≤ k)%nat ∧ l !! (k - i)%nat = Some a ∧ i_ref a = 0
                | None => ∀ j a, l !! j = Some a → i_ref a ≠ 0
                end
      end
  end.
Proof.
  revert i empty. induction l as [|ip l IH]; intros i empty; simpl.
  { split; [done|]. by destruct empty. }
  destruct (_ && _ && _) eqn:Et.
  { exists ip. rewrite Nat.sub_diag. split_and!; [lia|done|by apply cached_test]. }
  assert (Hn : ¬ cached dev inum ip) by (rewrite <-cached_test, Et; done).
  specialize (IH (S i) (match empty with
    None => if i_ref ip =? 0 then Some i else None | _ => empty end)).
  destruct (iget_scan l (S i) dev inum _) as [k|e].
  - destruct IH as (a & H1 & H2 & H3). exists a.
    replace (k - i)%nat with (S (k - S i)) by lia. split_and!; [lia|done|done].
  - destruct IH as [H1 H2]. split.
    { intros [|j] a; simpl; [by intros [= <-]|by apply H1]. }
    destruct empty as [e0|]; [done|]. destruct (Z.eqb_spec (i_ref ip) 0) as [Hz|Hz].
    + subst e. exists ip. rewrite Nat.sub_diag. split_and!; [lia|done|done].
    + destruct e as [k|].
      * destruct H2 as (a & ? & ? & ?). exists a.
        replace (k - i)%nat with (S (k - S i)) by lia. split_and!; [lia|done|done].
      * intros [|j] a; simpl; [by intros [= <-]|by apply H2].
Qed.

Lemma ic_uniq_insert l k a a' :
  ic_uniq l → l !! k = Some a → 
  (∀ j b, j ≠ k → l !! j = Some b → ¬ cached (i_dev a') (i_inum a') b) →
  ic_uniq (<[k := a']> l).
Proof.
  intros Hu Hk Hn i j x y. pose proof (lookup_lt_Some _ _ _ Hk).
  rewrite !lookup_insert_case by done.
  repeat case_decide; subst; try done.
  - intros [= <-] Hj [_ [E1 E2]] Hy. exfalso. apply (Hn j y); [done|done|]. by split_and!.
  - intros Hi [= <-] Hc _. exfalso. by eapply (Hn i).
  - by apply Hu.
Qed.

Section iget.
Context {T : Type} `{!TxStore T}.
Abbreviation st := (fstate T).

(** One critical section on icache.lock that changes one entry. *)
Lemma wp_ic_update (s : st) v k ip f (Q : nat → st → Prop) :
  ic_quiet s → tx_rel (fs_t s) v → ic_inode s !! k = Some ip →
  (∀ s', ic_inode s' = <[k := f ip]> (ic_inode s) → ic_quiet s' → tx_rel (fs_t s') v →
         fs_sb s' = fs_sb s → fs_woken s' = fs_woken s → fs_cwd s' = fs_cwd s → Q k s') →
  wp (updi k f ;; release fs_cpu iclk ;; mret k) Q (acquired fs_cpu iclk s).
Proof.
  intros Hq HR Hk HQ. wstep. eapply wp_updi; [exact Hk|]. wstep.
  set (t := set_inodes _ _). eapply (wp_release fs_cpu iclk _ s); [done|done|done|]. wstep.
  apply HQ; try done.
  - by apply leave_quiet; [apply _..|].
  - unfold leave. simpl. apply tx_rel_setcpu.
    + simpl. apply tx_rel_setcpu; [done|]. apply pushed_ok. apply Hq.
    + destruct (leave_quiet fs_cpu iclk s t Hq) as [_ Hc]. unfold leave in Hc. simpl in Hc.
      by rewrite lget_lput in Hc.
Qed.

(** The entry iget returns. *)
Definition gotten (dev inum : Z) (a a' : inode) : Prop :=
  (cached dev inum a ∧ a' = w_ref (i_ref a + 1) a) ∨
  (i_ref a = 0 ∧ a' = mkInode dev inum 1 0 (i_type a) (i_major a) (i_minor a) (i_nlink a)
                        (i_size a) (i_addrs a)).

Lemma wpe_iget (s : st) v dev inum (Q : nat → st → Prop) (E : string → Prop) :
  ic_quiet s → tx_rel (fs_t s) v → ic_uniq (ic_inode s) →
  (∀ k a a' s', ic_inode s !! k = Some a → ic_inode s' = <[k := a']> (ic_inode s) →
     gotten dev inum a a' → ic_uniq (ic_inode s') → ic_quiet s' → tx_rel (fs_t s') v →
     fs_sb s' = fs_sb s → fs_cwd s' = fs_cwd s → Q k s') →
  ((∀ j a, ic_inode s !! j = Some a → ¬ cached dev inum a ∧ i_ref a ≠ 0) → E "iget: no inodes") →
  wpe (iget dev inum) Q E s.
Proof.
  intros Hq HR Hu HQ HE. unfold iget. apply wpe_bind. apply wp_acquire; [apply _..|done|].
  apply wpe_bind. wstep. simpl ic_inode.
  pose proof (iget_scan_spec (ic_inode s) 0 dev inum None) as Hs.
  destruct (iget_scan (ic_inode s) 0 dev inum None) as [k|[k|]].
  - destruct Hs as (a & _ & Ha & Hc). rewrite Nat.sub_0_r in Ha. apply wpe_wp.
    eapply wp_ic_update; [done|done|exact Ha|]. intros s' E1 E2 E3 E4 E5 E6.
    eapply HQ; try done; [by left|]. rewrite E1. eapply ic_uniq_insert; [done|exact Ha|].
    intros j b Hj Hb Hc'. apply Hj. destruct Hc as (? & ? & ?).
    by apply (Hu j k b a).
  - destruct Hs as (Hn & a & _ & Ha & Hz). rewrite Nat.sub_0_r in Ha. apply wpe_wp.
    eapply wp_ic_update; [done|done|exact Ha|]. intros s' E1 E2 E3 E4 E5 E6.
    eapply HQ; try done; [by right|]. rewrite E1. eapply ic_uniq_insert; [done|exact Ha|].
    intros j b _ Hb. by eapply Hn.
  - destruct Hs as [Hn Hz]. apply HE. intros j a Ha. split; [by eapply Hn|by eapply Hz].
Qed.
End iget.

(** ** Lemmas: paths *)

(** The reference: the pieces between slashes that are not empty. *)
Fixpoint split_path (path cur : list Z) : list (list Z) :=
  match path with
  | [] => if bool_decide (cur = []) then [] else [rev cur]
  | c :: r => if c =? SLASH
              then (if bool_decide (cur = []) then [] else [rev cur]) ++ split_path r []
              else split_path r (c :: cur)
  end.

(** The string in name[]: up to a NUL, at most DIRSIZ bytes. *)
Fixpoint name_str (n : nat) (name : list Z) : list Z :=
  match n, name with
  | S n, c :: r => if c =? 0 then [] else c :: name_str n r
  | _, _ => []
  end.

(** The names namex looks up, in order. *)
Fixpoint path_names (fuel : nat) (path name : list Z) : option (list (list Z)) :=
  match fuel with
  | O => None
  | S fuel =>
      match skipelem path name with
      | None => Some []
      | Some (path, name) => l ← path_names fuel path name; Some (name_str DIRSIZ name :: l)
      end
  end.

Lemma strncpy_arr_length n s : length (strncpy_arr n s) = n.
Proof.
  revert s. induction n as [|n IH]; intros [|x s]; simpl; try done; [by rewrite length_replicate|].
  case_if; simpl; by rewrite ?length_replicate, ?IH.
Qed.

Lemma split_path_span path cur :
  split_path path cur =
  let '(e, r) := span_elem path in
  (if bool_decide (rev cur ++ e = []) then [] else [rev cur ++ e]) ++ split_path r [].
Proof.
  revert cur. induction path as [|c path IH]; intros cur; simpl.
  - rewrite !app_nil_r. destruct cur as [|x cur]; [done|].
    rewrite bool_decide_eq_false_2 by done. rewrite bool_decide_eq_false_2; [done|].
    simpl. by destruct (rev cur).
  - destruct (c =? SLASH) eqn:Ec.
    + rewrite app_nil_r. simpl. rewrite Ec. simpl. destruct cur as [|x cur]; [done|].
      rewrite bool_decide_eq_false_2 by done. rewrite bool_decide_eq_false_2; [done|].
      simpl. by destruct (rev cur).
    + rewrite IH. destruct (span_elem path) as [e r]. simpl. rewrite <-app_assoc. done.
Qed.

Lemma split_path_skip path : split_path (skip_slashes path) [] = split_path path [].
Proof.
  induction path as [|c path IH]; simpl; [done|]. destruct (c =? SLASH) eqn:E; [done|].
  simpl. by rewrite E.
Qed.

Lemma skip_slashes_head path :
  match skip_slashes path with [] => True | c :: _ => c ≠ SLASH end.
Proof. induction path as [|c path IH]; simpl; [done|]. destruct (Z.eqb_spec c SLASH); done. Qed.

Lemma span_elem_spec path e r :
  span_elem path = (e, r) →
  (length e + length r = length path)%nat ∧
  (Forall (.≠ 0) path → Forall (.≠ 0) e ∧ Forall (.≠ 0) r) ∧
  (match path with [] => True | c :: _ => c ≠ SLASH → e ≠ [] end).
Proof.
  revert e r. induction path as [|c path IH]; intros e r; simpl; [by intros [= <- <-]|].
  destruct (Z.eqb_spec c SLASH) as [->|Hc]; [by intros [= <- <-]|].
  destruct (span_elem path) as [e' r']. intros [= <- <-].
  destruct (IH e' r' eq_refl) as (H1 & H2 & _). simpl. split_and!; [lia| |done].
  intros [Hc0 Hf]%Forall_cons. destruct (H2 Hf). split; [by constructor|done].
Qed.

Lemma skip_slashes_length path : (length (skip_slashes path) ≤ length path)%nat.
Proof. induction path as [|c path IH]; simpl; [lia|]. destruct (c =? SLASH); simpl; lia. Qed.

Lemma skip_slashes_nonzero path : Forall (.≠ 0) path → Forall (.≠ 0) (skip_slashes path).
Proof.
  induction path as [|c path IH]; simpl; [done|]. intros [Hc Hf]%Forall_cons.
  destruct (c =? SLASH); [by apply IH|by constructor].
Qed.

Lemma name_str_full n l : Forall (.≠ 0) l → name_str n l = take n l.
Proof.
  revert n. induction l as [|c l IH]; intros [|n]; simpl; try done.
  intros [Hc Hf]%Forall_cons. rewrite (proj2 (Z.eqb_neq c 0) Hc). f_equal. by apply IH.
Qed.

Lemma name_str_app n l r :
  Forall (.≠ 0) l → (length l < n)%nat → name_str n (l ++ 0 :: r) = l.
Proof.
  revert n. induction l as [|c l IH]; intros [|n]; simpl; try lia; [done|].
  intros [Hc Hf]%Forall_cons Hn. rewrite (proj2 (Z.eqb_neq c 0) Hc). f_equal. apply IH; [done|lia].
Qed.

(** The name skipelem leaves is the element, cut to DIRSIZ bytes. *)
Lemma skipelem_name e name :
  Forall (.≠ 0) e → length name = DIRSIZ →
  let name' := if (DIRSIZ <=? length e)%nat then putbytes 0 (take DIRSIZ e) name
               else putbytes 0 (e ++ [0]) name in
  length name' = DIRSIZ ∧ name_str DIRSIZ name' = take DIRSIZ e.
Proof.
  intros He Hn name'. subst name'. destruct (Nat.leb_spec DIRSIZ (length e)) as [H|H].
  - assert (Hl : length (take DIRSIZ e) = DIRSIZ) by (rewrite length_take; lia).
    unfold putbytes. rewrite take_0, app_nil_l, Hl, drop_ge, app_nil_r by lia. split; [done|].
    rewrite name_str_full by (by apply Forall_take). by rewrite take_take, Nat.min_id.
  - unfold putbytes. rewrite take_0, app_nil_l, <-app_assoc. cbn [app]. split.
    + rewrite length_app. cbn [length]. rewrite length_drop, length_app. cbn [length]. lia.
    + rewrite name_str_app by done. by rewrite take_ge by lia.
Qed.

Lemma path_names_split fuel path name :
  (length path < fuel)%nat → Forall (.≠ 0) path → length name = DIRSIZ →
  path_names fuel path name = Some (take DIRSIZ <$> split_path path []).
Proof.
  revert path name. induction fuel as [|fuel IH]; intros path name Hf Hp Hn; [lia|].
  cbn [path_names]. unfold skipelem. rewrite <-split_path_skip.
  pose proof (skip_slashes_head path) as Hh. pose proof (skip_slashes_length path) as Hl.
  pose proof (skip_slashes_nonzero path Hp) as Hz.
  destruct (skip_slashes path) as [|c p] eqn:Es; [done|].
  rewrite split_path_span. destruct (span_elem (c :: p)) as [e r] eqn:Ee.
  destruct (span_elem_spec _ _ _ Ee) as (H1 & H2 & H3). destruct (H2 Hz) as [He Hr].
  specialize (H3 Hh). pose proof (skipelem_name e name He Hn) as [Hn' Hs]. cbv zeta in Hn', Hs.
  set (name' := if (DIRSIZ <=? length e)%nat then _ else _) in *.
  pose proof (skip_slashes_length r). assert (length e ≠ 0)%nat by (by destruct e).
  rewrite (IH (skip_slashes r) name'); [|simpl in *; lia|by apply skip_slashes_nonzero|done].
  cbn [mbind option_bind]. rewrite Hs, split_path_skip. cbn [rev app].
  by rewrite bool_decide_eq_false_2.
Qed.

(** ** Properties *)

(** balloc returns the lowest block whose bit in the free map is clear,
    sets that bit and no other, and zeroes the block; every other block but
    its bitmap block keeps its contents.  It panics exactly when every block
    of the file system is in use. *)
Theorem balloc_spec {T} `{!TxStore T} (s : fstate T) v :
  let sb := fs_sb s in
  tx_rel (fs_t s) v → bmap_ok sb v → tx_room 2 v →
  wpe (balloc 1)
    (λ r s', 0 ≤ r < sb_size sb ∧ used v sb r = false ∧ (∀ b, 0 ≤ b < r → used v sb b = true) ∧
       ∃ t v', s' = set_t t s ∧ tx_rel t v' ∧
         (∀ b, 0 ≤ b < sb_size sb → used v' sb b = (b =? r) || used v sb b) ∧
         tv_cur v' !! Z.to_nat r = Some (replicate BSIZE 0) ∧
         ∀ x, x ≠ Z.to_nat r → x ≠ Z.to_nat (BBLOCK r sb) → tv_cur v' !! x = tv_cur v !! x)
    (λ msg, msg = "balloc: out of blocks" ∧ ∀ b, 0 ≤ b < sb_size sb → used v sb b = true) s.
Proof.
  intros sb HR Hk Hroom. pose proof (bk_size _ _ Hk) as Hsz.
  eapply wpe_mono; [by apply wp_balloc| |done]. intros r s' H. fold sb in H.
  destruct H as (H1 & H2 & H3 & t & -> & Ht). split_and!; [lia|lia|done|done|].
  exists t, (t_alloc sb r v). split_and!; try done.
  - intros b Hb. by apply used_alloc.
  - unfold t_alloc, t_upd. cbn [tv_cur]. apply list_lookup_insert_eq.
    rewrite length_insert. change (Z.to_nat r < length (tv_cur v))%nat. unfold tv_len in Hsz. lia.
  - intros x Hx Hx'. unfold t_alloc, t_upd. cbn [tv_cur]. by rewrite !list_lookup_insert_ne.
Qed.

(** bfree clears the bit of its block and no other, and panics exactly
    when the block is free already: a block is never freed twice. *)
Theorem bfree_spec {T} `{!TxStore T} (s : fstate T) v (d : block) b :
  let sb := sb_of d in
  tx_rel (fs_t s) v → bmap_ok sb v → tx_room 2 v → readable v 1 → tv_cur v !! 1%nat = Some d →
  0 ≤ b < sb_size sb →
  wpe (bfree 1 b)
    (λ _ s', used v sb b = true ∧
       ∃ t v', s' = set_sb sb (set_t t s) ∧ tx_rel t v' ∧
         (∀ b', 0 ≤ b' < sb_size sb → used v' sb b' = negb (b' =? b) && used v sb b') ∧
         ∀ x, x ≠ Z.to_nat (BBLOCK b sb) → tv_cur v' !! x = tv_cur v !! x)
    (λ msg, msg = "freeing free block" ∧ used v sb b = false) s.
Proof.
  intros sb HR Hk Hroom H1 Hd Hb. pose proof (wp_bfree s v d b HR Hk Hroom H1 Hd Hb) as H.
  fold sb in H. unfold wpe in *. destruct (bfree 1 b s) as [u s'| | | |]; try done.
  destruct H as (Hu & t & -> & Ht). split; [done|]. exists t, (t_free sb b v).
  split_and!; try done; [intros b' Hb'; by apply used_free|].
  intros x Hx. unfold t_free, t_upd. cbn [tv_cur]. by rewrite list_lookup_insert_ne.
Qed.

(** iupdate writes the in-memory inode so that ilock reads it back: after
    iupdate, whatever the cache entry is recycled to hold, reading the inode
    again gives the type, device, link count, size and block addresses it
    had. *)
Theorem iupdate_ilock {T} `{!TxStore T} (s : fstate T) v k ip junk (d : block) :
  let x := IBLOCK (i_inum ip) (fs_sb s) in
  tx_rel (fs_t s) v → ic_inode s !! k = Some ip → inode_ok ip → i_type ip ≠ 0 → i_dev ip = 1 →
  i_dev junk = 1 → i_inum junk = i_inum ip → Z.land (i_flags junk) I_VALID = 0 →
  writable v x → tv_cur v !! Z.to_nat x = Some d → length d = BSIZE →
  wp (iupdate k ;; updi k (λ _, junk) ;; ilock_read k)
    (λ _ s', ic_inode s' = <[k := mkInode 1 (i_inum ip) (i_ref junk)
        (Z.lor (i_flags junk) I_VALID) (i_type ip) (i_major ip) (i_minor ip) (i_nlink ip)
        (i_size ip) (i_addrs ip)]> (ic_inode s)) s.
Proof.
  intros x HR Hk Hok Ht Hdev Hj1 Hj2 Hj3 Hw Hd Hl. pose proof (idoff_fits (i_inum ip) d Hl) as Hfit.
  pose proof (lookup_lt_Some _ _ _ Hk) as Hlt. destruct Hw as [(Hx & Hh & Hr) Hc].
  wstep. eapply wp_iupdate; [exact HR|exact Hk|done|by split|exact Hd|]. fold x. intros t1 R1.
  wstep. eapply wp_updi; [exact Hk|].
  pose proof (get_put_dinode (idoff (i_inum ip)) ip junk d Hok Hfit) as Hg.
  eapply (wp_ilock_read _ _ k junk (put_dinode (idoff (i_inum ip)) ip d)); [exact R1| |done|done|..].
  - simpl. by apply list_lookup_insert_eq.
  - rewrite Hj2. simpl. fold x. split_and!.
    + lia.
    + unfold tv_len in *. simpl. rewrite length_insert. lia.
    + done.
    + left. set_solver.
  - rewrite Hj2. simpl. fold x. apply list_lookup_insert_eq. unfold tv_len in *. lia.
  - rewrite Hj2, Hg. done.
  - intros t2 R2. rewrite Hj2, Hg. simpl. rewrite list_insert_insert_eq. unfold w_flags. simpl.
    by rewrite Hj1, Hj2.
Qed.

(** iget keeps the inode cache free of duplicates: it returns the entry
    of the inode if one is in use, with one more reference, else an unused
    entry, now for that inode and not valid; no other entry changes, and it
    panics exactly when all entries are in use for other inodes. *)
Theorem iget_spec {T} `{!TxStore T} (s : fstate T) v dev inum :
  ic_quiet s → tx_rel (fs_t s) v → ic_uniq (ic_inode s) →
  wpe (iget dev inum)
    (λ k s', ∃ a a', ic_inode s !! k = Some a ∧ ic_inode s' = <[k := a']> (ic_inode s) ∧
       gotten dev inum a a' ∧ ic_uniq (ic_inode s') ∧ ic_quiet s' ∧ tx_rel (fs_t s') v)
    (λ msg, msg = "iget: no inodes" ∧
       ∀ j a, ic_inode s !! j = Some a → ¬ cached dev inum a ∧ i_ref a ≠ 0) s.
Proof.
  intros Hq HR Hu. eapply wpe_iget; [done|exact HR|done|..].
  - intros k a a' s' H1 H2 H3 H4 H5 H6 _ _. by exists a, a'.
  - intros Hall. by split.
Qed.

(** skipelem splits a path the way its comment says: the names namex
    looks up are the non-empty pieces between slashes, each cut to DIRSIZ
    bytes, and the walk ends within one round per byte. *)
Theorem skipelem_spec path name :
  Forall (.≠ 0) path → length name = DIRSIZ →
  path_names (S (length path)) path name = Some (take DIRSIZ <$> split_path path []).
Proof. intros. apply path_names_split; [lia|done|done]. Qed.

(** ** Witnesses *)

(** A disk of 40 blocks as mkfs lays it out: log at 2, inodes at 32, bitmap
    at 33, the blocks up to 34 in use. *)
Definition fs_sb0 : superblock := mkSb 40 5 8 30 2 32 33.
Definition sb_block : block :=
  setw 24 33 (setw 20 32 (setw 16 2 (setw 12 30 (setw 8 8 (setw 4 5 (setw 0 40 (replicate BSIZE 0))))))).
Definition fs_disk : list block :=
  <[33%nat := [255; 255; 255; 255; 7] ++ replicate 507 0]> (<[1%nat := sb_block]> wdisk).
Definition fs_b0 : bstate := mkBst cpu0 (initlock "bcache" lock0) (binit_bufs []) fs_disk [] [].
Definition inode0 : inode := mkInode 0 0 0 0 0 0 0 0 0 (replicate 13 0).
Definition fs0 : fstate (bstate * logst) :=
  mkFs (fs_b0, wl0) fs_sb0 lock0 (replicate NINODE inode0) [] 0.
Definition fs_v0 : tview := mkTv fs_disk ∅ ∅ ∅ 29.

Lemma fs0_rel : tx_rel (fs_t fs0) fs_v0.
Proof.
  exists (view0 fs_disk), []. split; try done.
  destruct wb0_run as [_ H2 H3 H4 H5 H6 H7 H8]. split; try done.
  split; try done. apply binit_core.
Qed.

Lemma fs0_bblock b : 0 ≤ b < 40 → BBLOCK b fs_sb0 = 33.
Proof. intros. unfold BBLOCK. change BPB with 4096. simpl. zdm. Qed.

Lemma fs0_bmap : bmap_ok fs_sb0 fs_v0.
Proof.
  split; try done.
  - intros b Hb. by rewrite fs0_bblock.
  - intros b d Hb. rewrite fs0_bblock by done. intros [= <-]. by vm_compute.
  - intros b Hb. rewrite fs0_bblock by done. by vm_compute.
Qed.

Lemma fs0_quiet : ic_quiet fs0.
Proof. split; [done|]. by vm_compute. Qed.

Lemma fs0_room : tx_room 2 fs_v0.
Proof. split; vm_compute; lia. Qed.

Lemma fs0_sb1 : readable fs_v0 1.
Proof. split_and!; [done|done|done|right; vm_compute; lia]. Qed.

Lemma balloc_spec_witness :
  wpe (balloc 1) (λ r _, used fs_v0 fs_sb0 r = false ∧ ∀ b, 0 ≤ b < r → used fs_v0 fs_sb0 b = true)
    (λ msg, msg = "balloc: out of blocks" ∧ ∀ b, 0 ≤ b < 40 → used fs_v0 fs_sb0 b = true) fs0.
Proof.
  eapply wpe_mono; [exact (balloc_spec fs0 fs_v0 fs0_rel fs0_bmap fs0_room)| |intros msg H; exact H].
  intros r s' (_ & H1 & H2 & _). split; [exact H1|exact H2].
Defined.

Lemma sb_block_sb : sb_of sb_block = fs_sb0.
Proof. by vm_compute. Qed.

Lemma bfree_spec_witness :
  wpe (bfree 1 20) (λ _ _, used fs_v0 (sb_of sb_block) 20 = true)
    (λ msg, msg = "freeing free block" ∧ used fs_v0 (sb_of sb_block) 20 = false) fs0.
Proof.
  eapply wpe_mono; [apply (bfree_spec fs0 fs_v0 sb_block 20 fs0_rel)| |intros msg H; exact H].
  - rewrite sb_block_sb. exact fs0_bmap.
  - exact fs0_room.
  - exact fs0_sb1.
  - reflexivity.
  - rewrite sb_block_sb. split; reflexivity || discriminate.
  - intros r s' (H1 & _). exact H1.
Defined.

Definition inode1 : inode := mkInode 1 3 1 3 2 0 0 1 100 (35 :: replicate 12 0).
Definition fs1 : fstate (bstate * logst) :=
  mkFs (fs_b0, wl0) fs_sb0 lock0 (<[7%nat := inode1]> (replicate NINODE inode0)) [] 0.

Definition junk1 : inode := mkInode 1 3 1 1 9 9 9 9 9 [].

Lemma inode1_ok : inode_ok inode1.
Proof.
  split; unfold is_i16, is_u32; simpl; try lia.
  repeat (apply Forall_cons_2; [unfold is_u32; lia|]). apply Forall_nil_2.
Qed.

Lemma fs1_writable : writable fs_v0 (IBLOCK (i_inum inode1) (fs_sb fs1)).
Proof. split; [split_and!; [done|done|done|right; vm_compute; lia]|vm_compute; lia]. Qed.

Lemma fs1_block : tv_cur fs_v0 !! Z.to_nat (IBLOCK (i_inum inode1) (fs_sb fs1)) = Some (replicate BSIZE 0).
Proof. by vm_compute. Qed.

Lemma iupdate_ilock_witness :
  wp (iupdate 7 ;; updi 7 (λ _, junk1) ;; ilock_read 7)
    (λ _ s', ic_inode s' = <[7%nat := mkInode 1 (i_inum inode1) (i_ref junk1)
        (Z.lor (i_flags junk1) I_VALID) (i_type inode1) (i_major inode1) (i_minor inode1)
        (i_nlink inode1) (i_size inode1) (i_addrs inode1)]> (ic_inode fs1)) fs1.
Proof.
  exact (iupdate_ilock fs1 fs_v0 7 inode1 junk1 (replicate BSIZE 0) fs0_rel eq_refl inode1_ok
    ltac:(discriminate) eq_refl eq_refl eq_refl eq_refl fs1_writable fs1_block (length_replicate BSIZE 0)).
Defined.

Lemma iget_spec_witness :
  wpe (iget 1 1)
    (λ k s', ∃ a a', ic_inode fs0 !! k = Some a ∧ ic_inode s' = <[k := a']> (ic_inode fs0) ∧
       gotten 1 1 a a' ∧ ic_uniq (ic_inode s') ∧ ic_quiet s' ∧ tx_rel (fs_t s') fs_v0)
    (λ msg, msg = "iget: no inodes" ∧
       ∀ j a, ic_inode fs0 !! j = Some a → ¬ cached 1 1 a ∧ i_ref a ≠ 0) fs0.
Proof.
  apply (iget_spec fs0 fs_v0 1 1 fs0_quiet fs0_rel).
  intros i j a b Ha Hb [Hr _] _. apply lookup_replicate in Ha as [-> _]. simpl in Hr. lia.
Defined.

(** The examples of the comment: "a/bb/c", "///a//bb". *)
Lemma skipelem_spec_witness :
  path_names 9 [47; 47; 47; 97; 47; 47; 98; 98] (replicate DIRSIZ 0) = Some [[97]; [98; 98]].
Proof.
  apply (skipelem_spec [47; 47; 47; 97; 47; 47; 98; 98] (replicate DIRSIZ 0));
    [repeat constructor; done|done].
Defined.
