(* ===== verification/Layout.v ===== *)
(** * Files on disk

    What an inode says its file contains: [fdata cur i] is the bytes of the
    file of inode [i] in a file system whose blocks are [cur], the blocks
    its addresses name, direct or through the indirect block, one after the
    other and cut at the size.  [file_core] says that a file has its blocks
    to itself; its lemmas say how a change of the disk changes the bytes.
    The kernel (fs.c) and the program that makes the first file system
    (mkfs.c) are verified against these definitions. *)

From stdpp Require Import gmap list.
From S2P Require Import Prelude Kernel Block Bio Fs.
Local Open Scope Z_scope.

(** ** What an inode describes *)

Definition blk (cur : list block) (x : Z) : block := default ([] : block) (cur !! Z.to_nat x).

(** The indirect block, and the address of block [k] of the file; 0 is none. *)
Definition iaddr (a : list Z) : Z := default 0 (a !! 12%nat).
Definition baddr (cur : list block) (a : list Z) (k : nat) : Z :=
  if (k <? 12)%nat then default 0 (a !! k)
  else if iaddr a =? 0 then 0 else getw (4 * (k - 12)) (blk cur (iaddr a)).

Definition nblk (size : Z) : nat := Z.to_nat ((size + BSZ - 1) / BSZ).

(** The first [N] blocks of the file, and their bytes. *)
Definition fblocks (cur : list block) (a : list Z) (N : nat) : list block :=
  (λ k, blk cur (baddr cur a k)) <$> seq 0 N.
Definition raw (cur : list block) (a : list Z) (N : nat) : list Z := concat (fblocks cur a N).
Definition fdata (cur : list block) (i : inode) : list Z :=
  take (Z.to_nat (i_size i)) (raw cur (i_addrs i) (nblk (i_size i))).

(** The addresses [a] name [N] blocks. *)
Record maps (cur : list block) (a : list Z) (N : nat) : Prop := {
  mp_len : length a = 13%nat;
  mp_max : (N ≤ 140)%nat;
  mp_addr k : (k < N)%nat → baddr cur a k ≠ 0 ∧ 0 ≤ baddr cur a k < Z.of_nat (length cur);
  mp_ind : (12 < N)%nat → iaddr a ≠ 0 ∧ 0 ≤ iaddr a < Z.of_nat (length cur);
  mp_blocks : Forall (λ b : block, length b = BSIZE) cur;
}.

(** Every block of the file is there. *)
Record mapped (cur : list block) (i : inode) : Prop := {
  md_dev : i_dev i = 1;
  md_size : 0 ≤ i_size i ≤ MAXFILE * BSZ;
  md_maps : maps cur (i_addrs i) (nblk (i_size i));
}.

(** ** Arithmetic of blocks *)

Lemma nblk_bounds size : 0 ≤ size → Z.of_nat (nblk size) * BSZ - BSZ < size ≤ Z.of_nat (nblk size) * BSZ ∨
  size = 0 ∧ nblk size = 0%nat.
Proof. intros H. unfold nblk. change BSZ with 512. destruct (decide (size = 0)) as [->|]; [right; done|left]. zdm. Qed.

Lemma nblk_in size off : 0 ≤ off < size → (Z.to_nat (off / BSZ) < nblk size)%nat.
Proof. intros H. unfold nblk. change BSZ with 512. zdm. Qed.

Lemma nblk_max size : 0 ≤ size ≤ MAXFILE * BSZ → (nblk size ≤ 140)%nat.
Proof. intros H. unfold nblk. change (MAXFILE * BSZ) with 71680 in H. change BSZ with 512. zdm. Qed.

Lemma blk_length cur x :
  Forall (λ b : block, length b = BSIZE) cur → 0 ≤ x < Z.of_nat (length cur) → length (blk cur x) = BSIZE.
Proof.
  intros H Hx. unfold blk. destruct (lookup_lt_is_Some_2 cur (Z.to_nat x)) as [b Hb]; [lia|].
  rewrite Hb. exact (Forall_lookup_1 _ _ _ _ H Hb).
Qed.

Lemma fblocks_length cur a N : maps cur a N → Forall (λ b : block, length b = BSIZE) (fblocks cur a N).
Proof.
  intros Hm. apply Forall_forall. intros b Hb. apply list_elem_of_fmap in Hb as (k & -> & Hk).
  apply elem_of_seq in Hk. apply blk_length; [apply Hm|]. apply Hm. lia.
Qed.

Lemma raw_length cur a N : maps cur a N → length (raw cur a N) = (N * BSIZE)%nat.
Proof.
  intros Hm. unfold raw. rewrite (length_concat_blocks BSIZE) by by apply fblocks_length.
  unfold fblocks. by rewrite length_fmap, length_seq.
Qed.

Lemma fdata_length cur i : mapped cur i → Z.of_nat (length (fdata cur i)) = i_size i.
Proof.
  intros [_ Hs Hm]. unfold fdata. rewrite length_take, raw_length by done.
  destruct (nblk_bounds (i_size i)) as [H|[H1 H2]]; [lia| |]; change BSZ with (Z.of_nat BSIZE) in *; lia.
Qed.

(** The bytes of a file within one block. *)
Lemma raw_block cur a N off n :
  maps cur a N → 0 ≤ off → 0 ≤ n → off mod BSZ + n ≤ BSZ → (Z.to_nat (off / BSZ) < N)%nat →
  getbytes (Z.to_nat off) (Z.to_nat n) (raw cur a N) =
  getbytes (Z.to_nat (off mod BSZ)) (Z.to_nat n) (blk cur (baddr cur a (Z.to_nat (off / BSZ)))).
Proof.
  intros Hm Ho Hn Hb Hk. pose proof (Z.mod_pos_bound off BSZ eq_refl).
  replace (Z.to_nat off) with (Z.to_nat (off / BSZ) * BSIZE + Z.to_nat (off mod BSZ))%nat
    by (change BSIZE with 512%nat; change BSZ with 512 in *; zdm).
  apply getbytes_concat; [by apply fblocks_length| |change BSZ with (Z.of_nat BSIZE) in *; lia].
  unfold fblocks. rewrite list_lookup_fmap, lookup_seq_lt by done. done.
Qed.

Lemma fdata_block cur i off n :
  mapped cur i → 0 ≤ off → 0 < n → off mod BSZ + n ≤ BSZ → off + n ≤ i_size i →
  getbytes (Z.to_nat off) (Z.to_nat n) (fdata cur i) =
  getbytes (Z.to_nat (off mod BSZ)) (Z.to_nat n) (blk cur (baddr cur (i_addrs i) (Z.to_nat (off / BSZ)))).
Proof.
  intros [_ Hs Hm] Ho Hn Hb Hle. unfold fdata. rewrite getbytes_take by lia.
  apply raw_block; [done|done|lia|done|]. apply nblk_in. lia.
Qed.

(** ** Blocks that change and blocks that do not *)

Lemma blk_insert cur x d y :
  0 ≤ x < Z.of_nat (length cur) → 0 ≤ y →
  blk (<[Z.to_nat x := d]> cur) y = if y =? x then d else blk cur y.
Proof.
  intros Hx Hy. unfold blk. destruct (Z.eqb_spec y x) as [->|Hne].
  - by rewrite list_lookup_insert_eq by lia.
  - by rewrite list_lookup_insert_ne by lia.
Qed.

(** [cur'] differs from [cur] in the blocks of [X] at most. *)
Definition frame (X : list Z) (cur cur' : list block) : Prop :=
  length cur' = length cur ∧ ∀ x, 0 ≤ x → x ∉ X → blk cur' x = blk cur x.

Lemma frame_refl cur : frame [] cur cur.
Proof. done. Qed.

Lemma frame_trans X Y cur cur' cur'' :
  frame X cur cur' → frame Y cur' cur'' → frame (X ++ Y) cur cur''.
Proof.
  intros [L1 F1] [L2 F2]. split; [congruence|]. intros x Hx Hn.
  rewrite F2, F1; [done|done|set_solver|done|set_solver].
Qed.

Lemma frame_mono X Y cur cur' : frame X cur cur' → X ⊆ Y → frame Y cur cur'.
Proof. intros [L F] H. split; [done|]. intros x Hx Hn. apply F; [done|set_solver]. Qed.

Lemma frame_insert x d cur : 0 ≤ x < Z.of_nat (length cur) → frame [x] cur (<[Z.to_nat x := d]> cur).
Proof.
  intros Hx. split; [apply length_insert|]. intros y Hy Hn. rewrite blk_insert by done.
  destruct (Z.eqb_spec y x); [set_solver|done].
Qed.

Lemma not_in2 (x a b : Z) : x ≠ a → x ≠ b → x ∉ [a; b].
Proof. intros H1 H2. rewrite !not_elem_of_cons. split_and!; [done|done|apply not_elem_of_nil]. Qed.

(** The blocks a file uses. *)
Definition iblocks (a : list Z) : list Z := if iaddr a =? 0 then [] else [iaddr a].
Definition owns (cur : list block) (a : list Z) (N : nat) : list Z := (baddr cur a <$> seq 0 N) ++ iblocks a.

Lemma baddr_ext cur cur' a a' N :
  (∀ k, (k < N)%nat → baddr cur' a' k = baddr cur a k) → baddr cur' a' <$> seq 0 N = baddr cur a <$> seq 0 N.
Proof. intros H. apply list_fmap_ext. intros j k Hj. apply lookup_seq in Hj as [-> Hj]. by apply H. Qed.

Lemma raw_ext cur cur' a a' N :
  (∀ k, (k < N)%nat → baddr cur' a' k = baddr cur a k ∧ blk cur' (baddr cur a k) = blk cur (baddr cur a k)) →
  raw cur' a' N = raw cur a N.
Proof.
  intros H. unfold raw, fblocks. f_equal. apply list_fmap_ext. intros j k Hj.
  apply lookup_seq in Hj as [-> Hj]. simpl. destruct (H j Hj) as [-> ->]. done.
Qed.

Lemma owns_data cur a N k : (k < N)%nat → baddr cur a k ∈ owns cur a N.
Proof. intros H. apply elem_of_app. left. apply list_elem_of_fmap. exists k. split; [done|]. apply elem_of_seq. lia. Qed.

Lemma owns_ind cur a N : iaddr a ≠ 0 → iaddr a ∈ owns cur a N.
Proof. intros H. apply elem_of_app. right. unfold iblocks. rewrite (proj2 (Z.eqb_neq _ _) H). set_solver. Qed.

Lemma baddr_frame X cur cur' a k :
  frame X cur cur' → 0 ≤ iaddr a → (iaddr a ≠ 0 → iaddr a ∉ X) → baddr cur' a k = baddr cur a k.
Proof.
  intros [_ F] H0 Hi. unfold baddr. case_if; [done|]. case_if; [done|]. f_equal. apply F; [done|]. by apply Hi.
Qed.

Lemma raw_frame X cur cur' a N :
  frame X cur cur' → 0 ≤ iaddr a → (∀ k, (k < N)%nat → 0 ≤ baddr cur a k) →
  (∀ x, x ∈ owns cur a N → x ∉ X) → raw cur' a N = raw cur a N.
Proof.
  intros F H0 Hk HX. apply raw_ext. intros k Hk'. split.
  - eapply baddr_frame; [exact F|done|]. intros. by apply HX, owns_ind.
  - apply F; [by apply Hk|]. by apply HX, owns_data.
Qed.

Lemma raw_snoc cur a N : raw cur a (S N) = raw cur a N ++ blk cur (baddr cur a N).
Proof.
  unfold raw, fblocks. rewrite seq_S, fmap_app, concat_app. simpl. by rewrite app_nil_r.
Qed.

Lemma owns_snoc cur a N : owns cur a (S N) ≡ₚ baddr cur a N :: owns cur a N.
Proof.
  unfold owns. rewrite seq_S, fmap_app. simpl. rewrite <- app_assoc. simpl.
  by rewrite <- Permutation_middle.
Qed.

Lemma owns_grow cur cur' a a' N r :
  iaddr a' = iaddr a → (∀ k, (k < N)%nat → baddr cur' a' k = baddr cur a k) → baddr cur' a' N = r →
  owns cur' a' (S N) ≡ₚ r :: owns cur a N.
Proof.
  intros Ha Hk Hr. rewrite owns_snoc, Hr. f_equiv. unfold owns, iblocks. rewrite Ha.
  apply Permutation_app_tail, Permutation_refl'. by apply baddr_ext.
Qed.

Lemma raw_grow cur cur' a a' N :
  (∀ k, (k < N)%nat → baddr cur' a' k = baddr cur a k ∧ blk cur' (baddr cur a k) = blk cur (baddr cur a k)) →
  raw cur' a' (S N) = raw cur a N ++ blk cur' (baddr cur' a' N).
Proof.
  intros H. rewrite raw_snoc. f_equal. by apply raw_ext.
Qed.

(** ** A file with its blocks *)

(** The addresses [a] name exactly [N] blocks: all different, all taken
    ([U]), and nothing after them. *)
Record file_core (U : Z → Prop) (cur : list block) (a : list Z) (N : nat) : Prop := {
  fl_maps : maps cur a N;
  fl_zero k : (N ≤ k < 140)%nat → baddr cur a k = 0;
  fl_ind : iaddr a ≠ 0 → (12 ≤ N)%nat;
  fl_nodup : NoDup (owns cur a N);
  fl_used x : x ∈ owns cur a N → U x;
}.

(** The data blocks are not the indirect block, and differ from each other. *)
Lemma owns_data_ind U cur a N k :
  file_core U cur a N → (k < N)%nat → iaddr a ≠ 0 → baddr cur a k ≠ iaddr a.
Proof.
  intros [_ _ _ Hn _] Hk Hi Heq. unfold owns, iblocks in Hn. rewrite (proj2 (Z.eqb_neq _ _) Hi) in Hn.
  apply NoDup_app in Hn as (_ & Hn & _). apply (Hn (iaddr a)); [|by apply list_elem_of_singleton].
  apply list_elem_of_fmap. exists k. split; [done|]. apply elem_of_seq. lia.
Qed.

Lemma owns_data_inj U cur a N j k :
  file_core U cur a N → (j < N)%nat → (k < N)%nat → baddr cur a j = baddr cur a k → j = k.
Proof.
  intros [_ _ _ Hn _] Hj Hk Heq. unfold owns in Hn. apply NoDup_app in Hn as (Hn & _ & _).
  eapply NoDup_lookup; [exact Hn|rewrite list_lookup_fmap, lookup_seq_lt by done; reflexivity|].
  rewrite list_lookup_fmap, lookup_seq_lt by done. simpl. by rewrite Heq.
Qed.

Section core.
Context (U : Z → Prop) (cur : list block) (HU : ∀ x, U x → 0 ≤ x < Z.of_nat (length cur)).

Lemma core_nonneg a N : file_core U cur a N → 0 ≤ iaddr a ∧ ∀ k, (k < N)%nat → 0 ≤ baddr cur a k.
Proof using HU.
  intros [Hm _ _ _ Hu]. split; [|intros k Hk; by apply Hm].
  destruct (decide (iaddr a = 0)) as [->|H]; [done|]. by apply HU, Hu, owns_ind.
Qed.

(** Block numbers are 32-bit words. *)
Lemma core_addrs a N : Z.of_nat (length cur) < 4294967296 → file_core U cur a N → Forall is_u32 a.
Proof using HU.
  intros Hlen Hf. apply Forall_lookup_2. intros k x Hk. pose proof (mp_len _ _ _ (fl_maps _ _ _ _ Hf)) as Hl.
  assert (∀ y, 0 ≤ y < Z.of_nat (length cur) → is_u32 y) as Hin by (unfold is_u32; lia).
  pose proof (lookup_lt_Some _ _ _ Hk) as Hk'. destruct (decide (k = 12%nat)) as [-> |Hne].
  - replace x with (iaddr a) by (unfold iaddr; by rewrite Hk).
    destruct (decide (iaddr a = 0)) as [-> |Hz]; [done|]. apply Hin, HU. by apply (fl_used _ _ _ _ Hf), owns_ind.
  - assert (baddr cur a k = x) as Hb.
    { unfold baddr. rewrite (proj2 (Nat.ltb_lt _ _)) by lia. by rewrite Hk. }
    rewrite <- Hb. destruct (decide (k < N)%nat); [apply Hin; by apply Hf|].
    rewrite (fl_zero _ _ _ _ Hf) by lia. done.
Qed.

(** A change elsewhere keeps the file and its bytes. *)
Lemma core_frame (U' : Z → Prop) cur' a N X :
  file_core U cur a N → frame X cur cur' → Forall (λ b : block, length b = BSIZE) cur' →
  (∀ x, x ∈ owns cur a N → x ∉ X) → (∀ x, U x → U' x) →
  file_core U' cur' a N ∧ raw cur' a N = raw cur a N ∧ owns cur' a N = owns cur a N.
Proof using HU.
  intros Hf F Hbl HX Hus. destruct (core_nonneg _ _ Hf) as [H0 Hk]. pose proof Hf as [[M1 M2 M3 M4 M5] Hz Hi Hn Hu].
  assert (∀ k, baddr cur' a k = baddr cur a k) as Hb.
  { intros k. eapply baddr_frame; [exact F|done|]. intros. by apply HX, owns_ind. }
  assert (owns cur' a N = owns cur a N) as Ho by (unfold owns; f_equal; by apply baddr_ext).
  split_and!; [|by eapply raw_frame|done]. split; try done.
  - split; try done; [|rewrite (proj1 F); done]. intros k Hk'. rewrite Hb, (proj1 F). by apply M3.
  - intros k Hk'. rewrite Hb. by apply Hz.
  - by rewrite Ho.
  - intros x. rewrite Ho. intros Hx. by apply Hus, Hu.
Qed.

(** One more block, once its address is where baddr finds it. *)
Lemma core_grow (U' : Z → Prop) cur' a a' N r :
  file_core U cur a N → length cur' = length cur → Forall (λ b : block, length b = BSIZE) cur' →
  (∀ x, U x → U' x) →
  length a' = 13%nat → (N < 140)%nat → iaddr a' = iaddr a → ((12 ≤ N)%nat → iaddr a ≠ 0) →
  (∀ k, (k < 140)%nat → k ≠ N → baddr cur' a' k = baddr cur a k) →
  baddr cur' a' N = r → 0 < r < Z.of_nat (length cur) → U' r → r ∉ owns cur a N → file_core U' cur' a' (S N).
Proof using HU.
  intros [[M1 M2 M3 M4 M5] Hz Hi Hn Hu] Hlen Hbl Hus Hl HN Ha Hind Hk Hr Hrr Hur Hro.
  assert (owns cur' a' (S N) ≡ₚ r :: owns cur a N) as Ho.
  { apply owns_grow; [done| |done]. intros k Hk'. apply Hk; lia. }
  split.
  - split; [done|lia| |intros H12; rewrite Ha, Hlen; destruct (decide (12 < N)%nat); [by apply M4|]|done].
    + intros k Hk'. destruct (decide (k = N)) as [->|Hne]; [rewrite Hr; lia|].
      rewrite Hk, Hlen by lia. apply M3. lia.
    + specialize (Hind ltac:(lia)). split; [done|]. apply HU, Hu. by apply owns_ind.
  - intros k Hk'. rewrite Hk by lia. apply Hz. lia.
  - rewrite Ha. intros H. specialize (Hi H). lia.
  - rewrite Ho. by constructor.
  - intros x. rewrite Ho, elem_of_cons. intros [->|Hx]; [done|]. by apply Hus, Hu.
Qed.

(** Bytes written within one block of the file. *)
Lemma core_write a N k o p :
  file_core U cur a N → (k < N)%nat → (o + length p ≤ BSIZE)%nat →
  let x := baddr cur a k in
  let cur' := <[Z.to_nat x := putbytes o p (blk cur x)]> cur in
  file_core U cur' a N ∧ raw cur' a N = putbytes (k * BSIZE + o) p (raw cur a N) ∧
  (∀ y, 0 ≤ y → y ≠ x → blk cur' y = blk cur y) ∧ owns cur' a N = owns cur a N.
Proof using HU.
  intros Hk HkN Ho x cur'. pose proof (HU _ (fl_used _ _ _ _ Hk x (owns_data _ _ _ _ HkN))) as X4.
  pose proof Hk as [[M1 M2 M3 M4 M5] Hz Hi Hn Hu]. pose proof (blk_length _ _ M5 X4) as X5.
  set (d := putbytes o p (blk cur x)) in *.
  assert (length d = BSIZE) as Hd by (unfold d; rewrite putbytes_length by lia; done).
  assert (∀ y, 0 ≤ y → blk cur' y = if y =? x then d else blk cur y) as Hblk by (intros y Hy; by apply blk_insert).
  destruct (core_nonneg _ _ Hk) as [Hi0 Hb0].
  assert (∀ j, baddr cur' a j = baddr cur a j) as Hb.
  { intros j. unfold baddr. case_if; [done|]. case_if; [done|]. rewrite Hblk by done.
    rewrite (proj2 (Z.eqb_neq _ _)); [done|]. intros Heq. by apply (owns_data_ind U cur a N k Hk HkN). }
  assert (owns cur' a N = owns cur a N) as Hown by (unfold owns; f_equal; by apply baddr_ext).
  assert (length cur' = length cur) as Hlen by apply length_insert.
  split_and!; [| | |done].
  - split; [split| | | |]; try done; [|by rewrite Hlen|by apply Forall_insert| |by rewrite Hown|by rewrite Hown].
    + intros j Hj. rewrite Hb, Hlen. by apply M3.
    + intros j Hj. rewrite Hb. by apply Hz.
  - unfold raw. rewrite <- (concat_putbytes BSIZE (fblocks cur a N) k (blk cur x)).
    2:{ apply fblocks_length, Hk. }
    2:{ unfold fblocks. by rewrite list_lookup_fmap, lookup_seq_lt. }
    2:{ done. }
    f_equal. apply list_eq. intros j. destruct (decide (j < N)%nat) as [Hj|Hj].
    + unfold fblocks. rewrite list_lookup_fmap, lookup_seq_lt by done. simpl. rewrite Hb, Hblk by by apply Hb0.
      destruct (decide (j = k)) as [->|Hne].
      * rewrite list_lookup_insert_eq by (by rewrite length_fmap, length_seq). fold x. by rewrite Z.eqb_refl.
      * rewrite list_lookup_insert_ne, list_lookup_fmap, lookup_seq_lt by done. simpl.
        rewrite (proj2 (Z.eqb_neq _ _)); [done|]. intros Heq. by apply Hne, (owns_data_inj U cur a N j k Hk Hj HkN).
    + rewrite !lookup_ge_None_2; [done|unfold fblocks; rewrite ?length_insert, length_fmap, length_seq; lia..].
  - intros y Hy Hne. rewrite Hblk by done. by rewrite (proj2 (Z.eqb_neq _ _)) by done.
Qed.
End core.

Lemma iaddr_insert a N r : N ≠ 12%nat → iaddr (<[N := r]> a) = iaddr a.
Proof. intros H. unfold iaddr. by rewrite list_lookup_insert_ne. Qed.

Lemma getw_zeros off n : getw off (replicate n 0) = 0.
Proof.
  unfold getw, getbytes. rewrite drop_replicate, take_replicate.
  by destruct (4 `min` (n - off))%nat as [|[|[|[|[|]]]]].
Qed.

Lemma baddr_ind cur a k : (12 ≤ k)%nat → iaddr a ≠ 0 → baddr cur a k = getw (4 * (k - 12)) (blk cur (iaddr a)).
Proof.
  intros Hk Hi. unfold baddr. rewrite (proj2 (Nat.ltb_ge _ _)) by done. by rewrite (proj2 (Z.eqb_neq _ _)) by done.
Qed.

Lemma baddr_direct cur cur' a a' k : (k < 12)%nat → a !! k = a' !! k → baddr cur a k = baddr cur' a' k.
Proof. intros Hk H. unfold baddr. rewrite (proj2 (Nat.ltb_lt _ _)) by done. by rewrite H. Qed.

(** ** The three ways a file gains a block *)

Section gain.
Context (U U' : Z → Prop) (cur : list block) (HU : ∀ x, U x → 0 ≤ x < Z.of_nat (length cur)) (HUU : ∀ x, U x → U' x).
Context (a : list Z) (r : Z) (Hr : 0 < r < Z.of_nat (length cur)) (Hur : U' r).

Lemma core_direct N :
  file_core U cur a N → (N < 12)%nat → r ∉ owns cur a N →
  let a' := <[N := r]> a in
  file_core U' cur a' (S N) ∧ raw cur a' (S N) = raw cur a N ++ blk cur r ∧ baddr cur a' N = r ∧
  iaddr a' = iaddr a ∧ owns cur a' (S N) ≡ₚ r :: owns cur a N.
Proof using HU HUU Hr Hur.
  intros Hk HN Hro a'. pose proof (mp_len _ _ _ (fl_maps _ _ _ _ Hk)) as Hl.
  assert (iaddr a' = iaddr a) as Hi by (apply iaddr_insert; lia).
  assert (baddr cur a' N = r) as Hb.
  { unfold baddr, a'. rewrite (proj2 (Nat.ltb_lt _ _)) by done. by rewrite list_lookup_insert_eq by lia. }
  assert (∀ k, k ≠ N → baddr cur a' k = baddr cur a k) as Hne.
  { intros k Hk'. unfold baddr. rewrite Hi. unfold a'. by rewrite list_lookup_insert_ne by done. }
  split_and!; [|rewrite (raw_grow cur cur a), Hb; [done|intros; split; [apply Hne; lia|done]]|done|done|
    apply owns_grow; [done|intros; apply Hne; lia|done]].
  eapply (core_grow U cur HU U' cur a a' N r); try done; [apply Hk|unfold a'; by rewrite length_insert|lia|lia|].
  intros. by apply Hne.
Qed.

Lemma core_newind :
  file_core U cur a 12 → iaddr a = 0 → r ∉ owns cur a 12 → blk cur r = replicate BSIZE 0 →
  let a' := <[12%nat := r]> a in
  file_core U' cur a' 12 ∧ raw cur a' 12 = raw cur a 12 ∧ iaddr a' = r ∧ owns cur a' 12 ≡ₚ r :: owns cur a 12.
Proof using HUU Hr Hur.
  intros [[M1 M2 M3 M4 M5] Hz Hi Hn Hus] H0 Hro Hzero a'.
  assert (iaddr a' = r) as Hi' by (unfold iaddr, a'; by rewrite list_lookup_insert_eq by lia).
  assert (∀ k, (k < 12)%nat → baddr cur a' k = baddr cur a k) as Hb.
  { intros k Hk'. apply baddr_direct; [done|]. unfold a'. by rewrite list_lookup_insert_ne by lia. }
  assert (owns cur a' 12 ≡ₚ r :: owns cur a 12) as Ho.
  { unfold owns, iblocks. rewrite Hi', H0. rewrite (proj2 (Z.eqb_neq r 0)) by lia. change (0 =? 0) with true. cbv iota.
    rewrite app_nil_r, (baddr_ext cur cur a _ 12) by done. symmetry. apply Permutation_cons_append. }
  split_and!; [|apply raw_ext; intros k Hk'; by rewrite Hb|done|done]. split.
  - split; [unfold a'; by rewrite length_insert|lia| |lia|done]. intros k Hk'. rewrite Hb by lia. by apply M3.
  - intros k Hk'. rewrite baddr_ind by (rewrite ?Hi'; lia). rewrite Hi', Hzero. apply getw_zeros.
  - lia.
  - rewrite Ho. by constructor.
  - intros x. rewrite Ho, elem_of_cons. intros [->|Hx]; [done|]. by apply HUU, Hus.
Qed.

Lemma core_ind N :
  file_core U cur a N → (12 ≤ N < 140)%nat → iaddr a ≠ 0 → r ∉ owns cur a N → is_u32 r →
  let cur' := <[Z.to_nat (iaddr a) := setw (4 * (N - 12)) r (blk cur (iaddr a))]> cur in
  file_core U' cur' a (S N) ∧ raw cur' a (S N) = raw cur a N ++ blk cur r ∧ baddr cur' a N = r ∧
  owns cur' a (S N) ≡ₚ r :: owns cur a N ∧ (∀ y, 0 ≤ y → y ≠ iaddr a → blk cur' y = blk cur y) ∧
  length (setw (4 * (N - 12)) r (blk cur (iaddr a))) = BSIZE.
Proof using HU HUU Hr Hur.
  intros Hk HN Hi Hro Hr32 cur'. pose proof (owns_ind cur a N Hi) as Hio.
  pose proof (HU _ (fl_used _ _ _ _ Hk _ Hio)) as I4. pose proof (mp_blocks _ _ _ (fl_maps _ _ _ _ Hk)) as Hbs.
  pose proof (blk_length _ _ Hbs I4) as I5. assert (iaddr a ≠ r) as I6 by (intros E; by rewrite <- E in Hro).
  set (d := setw (4 * (N - 12)) r (blk cur (iaddr a))) in *.
  assert (length d = BSIZE) as Hd by (unfold d; rewrite setw_length by (rewrite I5; change BSIZE with 512%nat; lia); done).
  assert (∀ y, 0 ≤ y → blk cur' y = if y =? iaddr a then d else blk cur y) as Hblk by (intros y Hy; by apply blk_insert).
  assert (∀ k, (k < 140)%nat → k ≠ N → baddr cur' a k = baddr cur a k) as Hne.
  { intros k Hk' Hkn. destruct (decide (k < 12)%nat) as [H12|H12]; [by apply baddr_direct|].
    rewrite !baddr_ind by (try done; lia). rewrite Hblk, Z.eqb_refl by lia. unfold d.
    apply getw_setw_other; [rewrite I5; change BSIZE with 512%nat; lia|lia]. }
  assert (baddr cur' a N = r) as Hb.
  { rewrite baddr_ind by (try done; lia). rewrite Hblk, Z.eqb_refl by lia. apply getw_setw; [done|].
    rewrite I5. change BSIZE with 512%nat. lia. }
  assert (∀ y, 0 ≤ y → y ≠ iaddr a → blk cur' y = blk cur y) as Hother.
  { intros y Hy Hyi. rewrite Hblk by done. by rewrite (proj2 (Z.eqb_neq _ _)). }
  split_and!; [| |done| |done|done].
  - eapply (core_grow U cur HU U' cur' a a N r); try done; [unfold cur'; by rewrite length_insert|by apply Forall_insert|apply Hk|lia].
  - rewrite (raw_grow cur cur' a).
    + rewrite Hb, Hother by (try done; lia). done.
    + intros k Hk'. split; [apply Hne; lia|]. destruct (mp_addr _ _ _ (fl_maps _ _ _ _ Hk) k Hk') as [K1 K2].
      apply Hother; [lia|]. by apply (owns_data_ind U cur a N k).
  - apply owns_grow; [done|intros; apply Hne; lia|done].
Qed.
End gain.

(** ** Sizes *)

Lemma nblk_mono a b : a ≤ b → (nblk a ≤ nblk b)%nat.
Proof. intros H. unfold nblk. change BSZ with 512. zdm. Qed.

Lemma nblk_cover size : 0 ≤ size → (Z.to_nat size ≤ nblk size * BSIZE)%nat.
Proof. intros H. unfold nblk. change BSZ with 512. change BSIZE with 512%nat. zdm. Qed.

(** The first [size'] bytes of a longer sequence into which [src] was put. *)
Lemma take_putbytes (off size size' : nat) src (R z : list Z) :
  (off ≤ size)%nat → (size ≤ length R)%nat → size' = (size `max` (off + length src))%nat →
  (size' ≤ length (R ++ z))%nat →
  take size' (putbytes off src (R ++ z)) = take off (take size R) ++ src ++ drop (off + length src) (take size R).
Proof.
  intros H1 H2 -> H3. unfold putbytes. rewrite (take_app_le R) by lia.
  rewrite take_take, Nat.min_l by lia. rewrite take_app_ge by (rewrite length_take; lia).
  rewrite length_take, Nat.min_l by lia. f_equal. rewrite take_app_ge by lia. f_equal.
  rewrite skipn_firstn_comm.
  destruct (decide (off + length src ≤ size)%nat) as [Hle|Hgt].
  - rewrite Nat.max_l by lia. rewrite drop_app_le by lia. rewrite take_app_le by (rewrite length_drop; lia). f_equal. lia.
  - replace (size `max` (off + length src) - off - length src)%nat with 0%nat by lia.
    replace (size - (off + length src))%nat with 0%nat by lia. by rewrite !take_0.
Qed.

(** [src] put at [off] into the bytes of a file. *)
Definition splice (off : Z) (src data : list Z) : list Z :=
  take (Z.to_nat off) data ++ src ++ drop (Z.to_nat off + length src) data.

Lemma splice_length off src data :
  0 ≤ off ≤ Z.of_nat (length data) →
  length (splice off src data) = (length data `max` (Z.to_nat off + length src))%nat.
Proof. intros H. unfold splice. rewrite !length_app, length_take, length_drop. lia. Qed.

(** Reading what was put. *)
Lemma read_splice off src data :
  0 ≤ off ≤ Z.of_nat (length data) → off + Z.of_nat (length src) < 4294967296 →
  file_read (splice off src data) off (Z.of_nat (length src)) = (src, Z.of_nat (length src)).
Proof.
  intros H1 H2. unfold file_read. rewrite splice_length, u32_small by (unfold is_u32; lia).
  rewrite !(proj2 (Z.ltb_ge _ _)) by lia. simpl orb. cbv iota zeta. unfold splice.
  rewrite drop_app_length' by (rewrite length_take; lia). rewrite Nat2Z.id, take_app_length. done.
Qed.

