(* ===== verification/Contents.v ===== *)
(** * The contents of files (bmap, readi and writei of xv6/fs.c)

    Against the bytes of a file as Layout.v defines them: readi returns
    exactly the bytes that were asked for, writei replaces exactly the bytes
    it was given, with blocks that no other file has. *)

From stdpp Require Import gmap list.
From S2P Require Import Prelude Kernel Spinlock CString Block Bio Log Tx Fs Layout.
Local Open Scope Z_scope.

(** ** readi *)

(** No buffer is held, and the log leaves a buffer free. *)
Definition idle (v : tview) : Prop := tv_held v = ∅ ∧ (size (tv_log v) < NBUF)%nat.

Lemma idle_readable v x : idle v → 0 ≤ x < tv_len v → readable v x.
Proof.
  intros [Hh Hl] Hx. split_and!; [lia|lia|by rewrite Hh|]. right. rewrite Hh. change (size ∅) with 0%nat. lia.
Qed.

Section read.
Context {T : Type} `{!TxStore T}.
Abbreviation st := (fstate T).
Implicit Types (s : st) (v : tview).

(** Where a block is mapped, bmap only looks it up. *)
Lemma wp_bmap_mapped ip i k N v s (Q : Z → st → Prop) :
  tx_rel (fs_t s) v → idle v → i_dev i = 1 → maps (tv_cur v) (i_addrs i) N → ic_inode s !! ip = Some i →
  (k < N)%nat →
  (∀ t, tx_rel t v → Q (baddr (tv_cur v) (i_addrs i) k) (set_t t s)) →
  wp (bmap ip (Z.of_nat k)) Q s.
Proof.
  intros HR Hv Hdev Hm Hi Hk HQ. pose proof (mp_max _ _ _ Hm) as Hmax.
  destruct (mp_addr _ _ _ Hm k Hk) as [Hne Hrg]. pose proof (mp_len _ _ _ Hm) as Hlen. unfold bmap.
  wstep. eapply wp_geti; [exact Hi|]. change NDIRECT with 12. unfold baddr in *.
  destruct (Nat.ltb_spec k 12) as [Hk12|Hk12].
  - rewrite (proj2 (Z.ltb_lt _ _)) by lia. rewrite Nat2Z.id.
    destruct (lookup_lt_is_Some_2 (i_addrs i) k) as [a Ha]; [lia|]. rewrite Ha in Hne, HQ. simpl in Hne, HQ.
    wstep. eapply wp_deref; [exact Ha|]. rewrite (proj2 (Z.eqb_neq _ _) Hne). wstep.
    specialize (HQ (fs_t s) HR). by destruct s.
  - rewrite (proj2 (Z.ltb_ge _ _)) by lia. change NINDIRECT with 128. cbv zeta.
    rewrite (proj2 (Z.ltb_lt _ _)) by lia. change (Z.to_nat 12) with 12%nat.
    destruct (mp_ind _ _ _ Hm ltac:(lia)) as [Hine Hirg].
    rewrite (proj2 (Z.eqb_neq _ _) Hine) in Hne, HQ. unfold iaddr in *.
    destruct (lookup_lt_is_Some_2 (i_addrs i) 12) as [a Ha]; [lia|]. rewrite Ha in Hne, HQ, Hirg, Hine.
    simpl default in *. wstep. eapply wp_deref; [exact Ha|]. rewrite (proj2 (Z.eqb_neq _ _) Hine). wstep. wstep.
    wstep. rewrite Hdev. eapply wp_fbread; [exact HR|by apply idle_readable|].
    intros b t d Hb Hd Ht Hcur Hdata. wstep. eapply wp_getdata; [exact Hdata|].
    assert (blk (tv_cur v) a = d) as Hblk by (unfold blk; by rewrite Hcur). rewrite Hblk in Hne, HQ.
    replace (Z.to_nat (Z.of_nat k - 12)) with (k - 12)%nat by lia.
    rewrite (proj2 (Z.eqb_neq _ _) Hne). wstep. wstep. wstep.
    eapply wp_fbrelse; [exact Ht|done|done|]. intros t' Ht'. wstep. by apply HQ.
Qed.

Lemma wp_readi_loop ip i v : ∀ fuel s tot off n acc (Q : list Z → st → Prop),
  tx_rel (fs_t s) v → idle v → mapped (tv_cur v) i → ic_inode s !! ip = Some i →
  0 ≤ off → 0 ≤ tot ≤ n → off + (n - tot) ≤ i_size i →
  (0 < fuel)%nat → (tot < n → n - tot + off mod BSZ ≤ BSZ * (Z.of_nat fuel - 1)) →
  (∀ t, tx_rel t v →
     Q (acc ++ getbytes (Z.to_nat off) (Z.to_nat (n - tot)) (fdata (tv_cur v) i)) (set_t t s)) →
  wp (readi_loop fuel ip tot off n acc) Q s.
Proof.
  induction fuel as [|fuel IH]; intros s tot off n acc Q HR Hv Hm Hi Ho Ht Hs Hf Hf' HQ; [lia|].
  cbn [readi_loop]. case_if.
  2:{ wstep. replace (Z.to_nat (n - tot)) with 0%nat in HQ by lia. unfold getbytes in HQ.
      rewrite take_0, app_nil_r in HQ. specialize (HQ _ HR). by destruct s. }
  pose proof (Z.mod_pos_bound off BSZ eq_refl) as Hmod. pose proof (nblk_in (i_size i) off ltac:(lia)) as Hk.
  set (m := Z.min (n - tot) (BSZ - off mod BSZ)).
  assert (0 < m ≤ n - tot) as Hm0 by lia.
  wstep. replace (off / BSZ) with (Z.of_nat (Z.to_nat (off / BSZ))) by (change BSZ with 512; zdm).
  eapply wp_bmap_mapped; [exact HR|done|apply Hm|apply Hm|exact Hi|done|]. intros t1 Ht1.
  wstep. eapply wp_geti; [exact Hi|]. rewrite (md_dev _ _ Hm).
  destruct (mp_addr _ _ _ (md_maps _ _ Hm) _ Hk) as [Hne Hrg].
  wstep. eapply wp_fbread; [exact Ht1|by apply idle_readable|]. intros b t d Hb Hd Ht2 Hcur Hdata.
  wstep. eapply wp_getdata; [exact Hdata|]. wstep. eapply wp_fbrelse; [exact Ht2|done|done|].
  intros t3 Ht3. specialize (Hf' ltac:(lia)).
  eapply IH; [exact Ht3|done|done|exact Hi|lia|lia|lia|change BSZ with 512 in *; lia| |].
  { intros Hlt. unfold m in *. change BSZ with 512 in *. zdm. }
  intros t4 Ht4. specialize (HQ t4 Ht4).
  replace (Z.to_nat (n - tot)) with (Z.to_nat m + Z.to_nat (n - (tot + m)))%nat in HQ by lia.
  rewrite getbytes_split, fdata_block in HQ by (try done; lia). unfold blk in HQ. rewrite Hcur in HQ. simpl default in HQ.
  rewrite <- app_assoc. replace (Z.to_nat (off + m)) with (Z.to_nat off + Z.to_nat m)%nat by lia. exact HQ.
Qed.

Lemma wp_readi devread ip off n i v s (Q : list Z * Z → st → Prop) :
  tx_rel (fs_t s) v → idle v → mapped (tv_cur v) i → ic_inode s !! ip = Some i →
  i_type i ≠ T_DEV → is_u32 off → is_u32 n →
  (∀ t, tx_rel t v → Q (file_read (fdata (tv_cur v) i) off n) (set_t t s)) →
  wp (readi devread ip off n) Q s.
Proof.
  intros HR Hv Hm Hi Hty Ho Hn HQ. unfold readi, is_u32 in *. wstep. eapply wp_geti; [exact Hi|].
  rewrite (proj2 (Z.eqb_neq _ _) Hty). unfold file_read in HQ. rewrite (fdata_length _ _ Hm) in HQ.
  destruct (_ || _) eqn:E; [wstep; specialize (HQ _ HR); by destruct s|]. bool_facts.
  pose proof (md_size _ _ Hm) as Hs. change (MAXFILE * BSZ) with 71680 in Hs.
  assert (u32 (off + n) = off + n) as Hu by (unfold u32 in *; zdm). rewrite Hu.
  set (n' := if i_size i <? off + n then i_size i - off else n). cbv zeta. fold n'.
  assert (0 ≤ n' ∧ off + n' ≤ i_size i ∧ n' ≤ n ∧ (n' = n ∨ off + n' = i_size i)) as (N1 & N2 & N3 & N4)
    by (unfold n'; case_if; lia).
  wstep. eapply (wp_readi_loop ip i v); [exact HR|done|done|exact Hi|lia|lia|lia|lia| |].
  { intros _. pose proof (Z.mod_pos_bound off BSZ eq_refl). change BSZ with 512 in *. zdm. }
  intros t Ht. wstep. specialize (HQ t Ht). rewrite Z.sub_0_r, app_nil_l.
  pose proof (fdata_length _ _ Hm) as Hl. unfold getbytes.
  assert (take (Z.to_nat n) (drop (Z.to_nat off) (fdata (tv_cur v) i)) =
          take (Z.to_nat n') (drop (Z.to_nat off) (fdata (tv_cur v) i))) as E2.
  { destruct N4 as [->|N4]; [done|]. rewrite !take_ge; [done|rewrite length_drop; lia..]. }
  rewrite E2 in HQ. replace n' with (Z.of_nat (length (take (Z.to_nat n') (drop (Z.to_nat off) (fdata (tv_cur v) i))))) at 2;
    [exact HQ|]. rewrite length_take, length_drop. lia.
Qed.
End read.

(** ** The file system while a file is written *)

(** A file system with one bitmap block, in a transaction that holds nothing. *)
Record fsok (sb : superblock) (v : tview) : Prop := {
  fo_size : 0 < sb_size sb ≤ BPB;
  fo_len : sb_size sb ≤ tv_len v;
  fo_bm : 0 ≤ sb_bmapstart sb < sb_size sb;
  fo_used : used v sb (sb_bmapstart sb) = true;
  fo_boot : used v sb 0 = true;
  fo_blocks : Forall (λ b : block, length b = BSIZE) (tv_cur v);
  fo_held : tv_held v = ∅;
  fo_cap : (tv_cap v < NBUF)%nat;
}.

(** The blocks a file may use: inside the file system, marked, not the bitmap. *)
Definition taken (sb : superblock) (v : tview) (x : Z) : Prop :=
  0 ≤ x < sb_size sb ∧ used v sb x = true ∧ x ≠ sb_bmapstart sb.
Definition file_ok (sb : superblock) (v : tview) (a : list Z) (N : nat) : Prop :=
  file_core (taken sb v) (tv_cur v) a N.

Lemma BBLOCK_one sb b : 0 ≤ b < BPB → BBLOCK b sb = sb_bmapstart sb.
Proof. unfold BBLOCK. change BPB with 4096. intros H. rewrite Z.div_small by lia. lia. Qed.

Lemma used_one v sb b : 0 ≤ b < BPB → used v sb b = getbit (blk (tv_cur v) (sb_bmapstart sb)) (Z.to_nat b).
Proof. intros H. unfold used. rewrite BBLOCK_one by done. rewrite Z.mod_small by done. done. Qed.

Lemma fsok_bmap_ok sb v : fsok sb v → bmap_ok sb v.
Proof.
  intros [H1 H2 H3 H4 H0 H5 H6 H7].
  assert (∀ b, 0 ≤ b < sb_size sb → BBLOCK b sb = sb_bmapstart sb) as HB by (intros; apply BBLOCK_one; lia).
  split; [lia|lia|intros b Hb; rewrite HB; lia|by rewrite H6| |intros b Hb; by rewrite HB|by rewrite H6].
  intros b d Hb Hd. exact (Forall_lookup_1 _ _ _ _ H5 Hd).
Qed.

(** Holding a block in use that is not the bitmap changes nothing for balloc. *)
Lemma bmap_ok_hold sb v i x :
  fsok sb v → used v sb x = true → 0 ≤ x < sb_size sb → x ≠ sb_bmapstart sb → bmap_ok sb (t_hold i x v).
Proof.
  intros Hf Hu Hx Hb. pose proof (fsok_bmap_ok _ _ Hf) as [K1 K2 K3 K4 K5 K6 K7]. destruct Hf as [H1 H2 H3 H4 H0 H5 H6 H7].
  assert (∀ b, 0 ≤ b < sb_size sb → BBLOCK b sb = sb_bmapstart sb) as HB by (intros; apply BBLOCK_one; lia).
  assert (∀ j y, tv_held (t_hold i x v) !! j = Some y → y = x) as Hh.
  { intros j y. simpl. rewrite H6. destruct (decide (j = i)) as [->|]; [by rewrite lookup_insert_eq; intros [= <-]|].
    by rewrite lookup_insert_ne. }
  split; [done|done|done| |done|done|].
  - intros b Hb' j Hj. apply Hh in Hj. rewrite HB in Hj by done. congruence.
  - intros b j Hb' Hub Hj. apply Hh in Hj. subst b. unfold used in *. simpl in Hub. congruence.
Qed.

Lemma fsok_range sb v x : fsok sb v → 0 ≤ x < sb_size sb → 0 ≤ x < Z.of_nat (length (tv_cur v)).
Proof. intros Hf Hx. pose proof (fo_len _ _ Hf). unfold tv_len in *. lia. Qed.

Lemma fsok_upd sb v x (d : block) :
  fsok sb v → 0 ≤ x < sb_size sb → x ≠ sb_bmapstart sb → length d = BSIZE →
  fsok sb (t_upd x d v) ∧ ∀ b, 0 ≤ b < sb_size sb → used (t_upd x d v) sb b = used v sb b.
Proof.
  intros Hf Hx Hb Hd. pose proof (fsok_range _ _ _ Hf Hx) as Hr. pose proof Hf as [H1 H2 H3 H4 H0 H5 H6 H7].
  assert (∀ b, 0 ≤ b < sb_size sb → used (t_upd x d v) sb b = used v sb b) as Hu.
  { intros b Hb'. rewrite !used_one by lia. simpl. rewrite blk_insert by lia.
    by rewrite (proj2 (Z.eqb_neq _ _)) by done. }
  split; [|done]. split; simpl; try done.
  - unfold tv_len in *. simpl. by rewrite length_insert.
  - by rewrite Hu.
  - rewrite Hu; [done|lia].
  - by apply Forall_insert.
Qed.

(** What balloc does to the blocks. *)
Lemma alloc_view sb v r :
  fsok sb v → 0 ≤ r < sb_size sb → used v sb r = false →
  let v' := t_alloc sb r v in
  fsok sb v' ∧ frame [sb_bmapstart sb; r] (tv_cur v) (tv_cur v') ∧
  blk (tv_cur v') r = replicate BSIZE 0 ∧ r ≠ sb_bmapstart sb ∧
  (∀ b, 0 ≤ b < sb_size sb → used v' sb b = (b =? r) || used v sb b) ∧
  tv_log v' = {[r]} ∪ ({[sb_bmapstart sb]} ∪ tv_log v).
Proof.
  intros Hf Hr Hu v'. pose proof Hf as [H1 H2 H3 H4 H0 H5 H6 H7]. pose proof (fsok_bmap_ok _ _ Hf) as Hk.
  assert (r ≠ sb_bmapstart sb) as Hne by congruence.
  assert (∀ b, 0 ≤ b < sb_size sb → used v' sb b = (b =? r) || used v sb b) as Hu' by (intros; by apply used_alloc).
  pose proof (fsok_range _ _ _ Hf Hr) as R1. pose proof (fsok_range _ _ _ Hf H3) as R2.
  unfold v', t_alloc in *. clear v'. rewrite BBLOCK_one in * by lia. cbv zeta in *.
  set (d' := <[(_ / 8)%nat := _]> _) in *. assert (length d' = BSIZE) as Hd'.
  { unfold d', block. rewrite length_insert. exact (blk_length (tv_cur v) _ H5 R2). }
  assert (frame [sb_bmapstart sb; r] (tv_cur v)
    (<[Z.to_nat r := replicate BSIZE 0]> (<[Z.to_nat (sb_bmapstart sb) := d']> (tv_cur v)))) as Hfr.
  { apply (frame_trans [sb_bmapstart sb] [r] _ (<[Z.to_nat (sb_bmapstart sb) := d']> (tv_cur v)));
      apply frame_insert; rewrite ?length_insert; done. }
  split_and!; [split|exact Hfr| |done|exact Hu'|done]; try done.
  - unfold tv_len in *. simpl. by rewrite !length_insert.
  - rewrite Hu' by lia. rewrite H4. apply orb_true_r.
  - rewrite Hu' by lia. rewrite H0. apply orb_true_r.
  - simpl. apply Forall_insert; [by apply Forall_insert|]. done.
  - simpl. rewrite blk_insert by (rewrite ?length_insert; lia). by rewrite Z.eqb_refl.
Qed.

(** ** A file keeps or gains blocks *)

Lemma taken_range sb v x : fsok sb v → taken sb v x → 0 ≤ x < Z.of_nat (length (tv_cur v)).
Proof. intros Hf (Hx & _). by eapply fsok_range. Qed.

(** A change elsewhere keeps the file and its bytes. *)
Lemma file_frame sb v v' a N X :
  fsok sb v → file_ok sb v a N → fsok sb v' → frame X (tv_cur v) (tv_cur v') →
  (∀ x, x ∈ owns (tv_cur v) a N → x ∉ X) →
  (∀ b, 0 ≤ b < sb_size sb → used v sb b = true → used v' sb b = true) →
  file_ok sb v' a N ∧ raw (tv_cur v') a N = raw (tv_cur v) a N ∧ owns (tv_cur v') a N = owns (tv_cur v) a N.
Proof.
  intros Hfs Hf Hfs' F HX Hus. eapply core_frame; [by intros; eapply taken_range|exact Hf|exact F|apply Hfs'|done|].
  intros x (U1 & U2 & U3). by split_and!; [lia|lia|apply Hus|].
Qed.

(** ** What allocation may cost *)

(** The blocks a write to the file may log in any case: the bitmap, the
    indirect block, and what is logged already. *)
Definition wset (sb : superblock) (v : tview) (a : list Z) : gset Z :=
  {[sb_bmapstart sb]} ∪ list_to_set (iblocks a) ∪ tv_log v.
Definition budget (sb : superblock) (v : tview) (a : list Z) : nat :=
  (size (wset sb v a) + if (iaddr a =? 0)%Z then 1 else 0)%nat.

Lemma size_insert_le (x : Z) (X Y : gset Z) : Y ⊆ {[x]} ∪ X → (size Y ≤ S (size X))%nat.
Proof.
  intros H. transitivity (size ({[x]} ∪ X)); [by apply subseteq_size|].
  destruct (decide (x ∈ X)); [rewrite subseteq_union_1_L by set_solver; lia|].
  rewrite size_union, size_singleton by set_solver. lia.
Qed.

Lemma budget_log sb v a : (size (tv_log v) ≤ budget sb v a)%nat.
Proof. unfold budget. pose proof (subseteq_size (tv_log v) (wset sb v a) ltac:(set_solver)). lia. Qed.

Lemma budget_bm sb v a : (size ({[sb_bmapstart sb]} ∪ tv_log v) ≤ budget sb v a)%nat.
Proof.
  unfold budget. pose proof (subseteq_size ({[sb_bmapstart sb]} ∪ tv_log v) (wset sb v a) ltac:(unfold wset; set_solver)).
  lia.
Qed.

(** The file went from [N] to [N'] blocks, and the view from [v] to [v']. *)
Record grown (sb : superblock) (v : tview) (a : list Z) (N : nat) (v' : tview) (a' : list Z) (N' : nat) : Prop := {
  gr_fs : fsok sb v';
  gr_cap : tv_cap v' = tv_cap v;
  gr_len : length (tv_cur v') = length (tv_cur v);
  gr_file : file_ok sb v' a' N';
  gr_raw : raw (tv_cur v') a' N' = raw (tv_cur v) a N ++ replicate ((N' - N) * BSIZE) 0;
  gr_other y : 0 ≤ y < sb_size sb → used v sb y = true → y ≠ sb_bmapstart sb → y ∉ iblocks a →
    blk (tv_cur v') y = blk (tv_cur v) y;
  gr_owns y : y ∈ owns (tv_cur v') a' N' → y ∈ owns (tv_cur v) a N ∨ used v sb y = false;
  gr_used b : 0 ≤ b < sb_size sb → used v sb b = true → used v' sb b = true;
  gr_ind : iaddr a' = iaddr a ∨ used v sb (iaddr a') = false;
  gr_budget : (budget sb v' a' ≤ budget sb v a + (N' - N))%nat;
  gr_new k : (N ≤ k < N')%nat → baddr (tv_cur v') a' k ∈ tv_log v';
}.

Lemma grown_refl sb v a N : fsok sb v → file_ok sb v a N → grown sb v a N v a N.
Proof.
  intros Hf Hk. split; try done; [|by left|by left|lia|lia].
  rewrite Nat.sub_diag. simpl. by rewrite app_nil_r.
Qed.

Lemma grown_trans sb v a N v' a' N' v'' a'' N'' :
  grown sb v a N v' a' N' → grown sb v' a' N' v'' a'' N'' → (N ≤ N' ≤ N'')%nat → (N' = N ∨ N'' = N') →
  (N'' = N' → v'' = v' ∧ a'' = a') → grown sb v a N v'' a'' N''.
Proof.
  intros H1 H2 HN Hor Hid. pose proof H1 as [A1 A2 A3 A4 A5 A6 A6' A7 A8 A9 A10].
  pose proof H2 as [B1 B2 B3 B4 B5 B6 B6' B7 B8 B9 B10].
  assert (∀ y, used v sb y = true → y ∉ iblocks a → y ∉ iblocks a') as Hne.
  { intros y Hu. unfold iblocks. destruct A8 as [->|A8]; [done|]. intros _.
    case_if; [apply not_elem_of_nil|]. rewrite list_elem_of_singleton. congruence. }
  assert (∀ y, used v' sb y = false → used v sb y = false ∨ ¬ 0 ≤ y < sb_size sb) as Hnu.
  { intros y Hy. destruct (used v sb y) eqn:E; [|by left]. right. intros Hr. rewrite A7 in Hy; congruence. }
  split; [done|congruence|congruence|done| | | | | | |].
  - rewrite B5, A5, <- app_assoc, <- replicate_add. do 2 f_equal. lia.
  - intros y Hy Hu Hb Hi. rewrite B6; [by apply A6|done|by apply A7|done|by apply Hne].
  - intros y Hy. destruct (fl_used _ _ _ _ B4 _ Hy) as (Hr & _).
    destruct (B6' y Hy) as [Hy'|Hy']; [by apply A6'|]. destruct (Hnu y Hy'); [by right|done].
  - intros b Hb Hu. by apply B7, A7.
  - destruct B8 as [->|B8]; [done|]. right. destruct (Hnu _ B8) as [?|Hr]; [done|]. exfalso. apply Hr.
    destruct (decide (iaddr a'' = 0)) as [->|E0]; [pose proof (fo_size _ _ A1); lia|].
    by destruct (fl_used _ _ _ _ B4 _ (owns_ind _ _ _ E0)).
  - lia.
  - intros k Hk. destruct Hor as [-> | ->]; [by apply B10|]. destruct (Hid eq_refl) as [-> ->]. by apply A10.
Qed.

(** After balloc: the file is as it was. *)
Lemma alloc_file sb v a N r :
  fsok sb v → file_ok sb v a N → 0 ≤ r < sb_size sb → used v sb r = false →
  let v' := t_alloc sb r v in
  0 < r ∧ r ∉ owns (tv_cur v) a N ∧ file_ok sb v' a N ∧ raw (tv_cur v') a N = raw (tv_cur v) a N ∧
  owns (tv_cur v') a N = owns (tv_cur v) a N.
Proof.
  intros Hf Hk Hr Hu v'. destruct (alloc_view sb v r Hf Hr Hu) as (F1 & F2 & F3 & F4 & F5 & F6). fold v' in F1, F2, F3, F5.
  assert (r ∉ owns (tv_cur v) a N) as Hro by (intros Hx; destruct (fl_used _ _ _ _ Hk _ Hx) as (_ & ? & _); congruence).
  pose proof (fo_boot _ _ Hf) as Hb. split; [|split; [done|]].
  - destruct (decide (r = 0)) as [->|]; [congruence|lia].
  - eapply file_frame; [exact Hf|exact Hk|done|exact F2| |].
    + intros x Hx. destruct (fl_used _ _ _ _ Hk _ Hx) as (_ & _ & ?). apply not_in2; [done|congruence].
    + intros b Hb' Hub. rewrite F5 by done. rewrite Hub. apply orb_true_r.
Qed.

(** What balloc changes, as the parts of [grown] that do not depend on where
    the new block goes. *)
Lemma alloc_frame sb v r y :
  fsok sb v → 0 ≤ r < sb_size sb → used v sb r = false → 0 ≤ y < sb_size sb → used v sb y = true → y ≠ sb_bmapstart sb →
  blk (tv_cur (t_alloc sb r v)) y = blk (tv_cur v) y ∧ used (t_alloc sb r v) sb y = true.
Proof.
  intros Hf Hr Hu Hy Huy Hb. destruct (alloc_view sb v r Hf Hr Hu) as (F1 & F2 & F3 & F4 & F5 & F6).
  split; [apply F2; [lia|apply not_in2; [done|congruence]]|]. rewrite F5, Huy by done. apply orb_true_r.
Qed.

Lemma alloc_used sb v r b :
  fsok sb v → 0 ≤ r < sb_size sb → used v sb r = false → 0 ≤ b < sb_size sb → used v sb b = true →
  used (t_alloc sb r v) sb b = true.
Proof.
  intros Hf Hr Hu Hb Hub. destruct (alloc_view sb v r Hf Hr Hu) as (_ & _ & _ & _ & F5 & _).
  rewrite F5, Hub by done. apply orb_true_r.
Qed.

Lemma alloc_taken sb v r : fsok sb v → 0 ≤ r < sb_size sb → used v sb r = false → taken sb (t_alloc sb r v) r.
Proof.
  intros Hf Hr Hu. destruct (alloc_view sb v r Hf Hr Hu) as (_ & _ & _ & F4 & F5 & _).
  split_and!; [lia|lia|by rewrite F5, Z.eqb_refl|done].
Qed.

Lemma budget_step sb v v' a a' r :
  iaddr a' = iaddr a → tv_log v' ⊆ {[r]} ∪ wset sb v a → (budget sb v' a' ≤ S (budget sb v a))%nat.
Proof.
  intros Hi Hl. unfold budget. rewrite Hi. assert (size (wset sb v' a') ≤ S (size (wset sb v a)))%nat; [|lia].
  apply (size_insert_le r). unfold wset, iblocks in *. rewrite Hi. set_solver.
Qed.

Lemma grow_direct sb v a N r :
  fsok sb v → file_ok sb v a N → (N < 12)%nat → 0 ≤ r < sb_size sb → used v sb r = false →
  grown sb v a N (t_alloc sb r v) (<[N := r]> a) (S N) ∧
  baddr (tv_cur (t_alloc sb r v)) (<[N := r]> a) N = r.
Proof.
  intros Hf Hk HN Hr Hu. destruct (alloc_view sb v r Hf Hr Hu) as (F1 & F2 & F3 & F4 & F5 & F6).
  destruct (alloc_file sb v a N r Hf Hk Hr Hu) as (G0 & G1 & G2 & G3 & G4).
  pose proof (alloc_taken sb v r Hf Hr Hu) as Ht. pose proof (fsok_range _ _ r F1 Hr) as Hrr.
  set (v' := t_alloc sb r v) in *.
  destruct (core_direct (taken sb v') (taken sb v') (tv_cur v') ltac:(by intros; eapply taken_range) ltac:(done)
    a r ltac:(lia) Ht N G2 HN ltac:(by rewrite G4)) as (C1 & C2 & C3 & C4 & C5).
  split; [|done]. split; [done|done|apply F2|done| | | | |by left| |].
  - rewrite C2, F3, G3. f_equal. by replace ((S N - N) * BSIZE)%nat with BSIZE by lia.
  - intros y Hy Hu' Hb' _. by apply alloc_frame.
  - intros y. rewrite C5, G4, elem_of_cons. intros [->|?]; [by right|by left].
  - intros b Hb' Hub. by apply alloc_used.
  - replace (S N - N)%nat with 1%nat by lia. rewrite Nat.add_1_r. apply (budget_step sb v v' a _ r C4).
    rewrite F6. unfold wset. clear. set_solver.
  - intros k Hk'. replace k with N by lia. rewrite C3, F6. clear. set_solver.
Qed.

Lemma grow_newind sb v a r :
  fsok sb v → file_ok sb v a 12 → iaddr a = 0 → 0 ≤ r < sb_size sb → used v sb r = false →
  grown sb v a 12 (t_alloc sb r v) (<[12%nat := r]> a) 12 ∧ iaddr (<[12%nat := r]> a) = r.
Proof.
  intros Hf Hk H0 Hr Hu. destruct (alloc_view sb v r Hf Hr Hu) as (F1 & F2 & F3 & F4 & F5 & F6).
  destruct (alloc_file sb v a 12 r Hf Hk Hr Hu) as (G0 & G1 & G2 & G3 & G4).
  pose proof (alloc_taken sb v r Hf Hr Hu) as Ht. pose proof (fsok_range _ _ r F1 Hr) as Hrr.
  set (v' := t_alloc sb r v) in *.
  destruct (core_newind (taken sb v') (taken sb v') (tv_cur v') ltac:(done) a r ltac:(lia) Ht G2 H0
    ltac:(by rewrite G4) F3) as (C1 & C2 & C3 & C4).
  split; [|done]. split; [done|done|apply F2|done| | | | |right; by rewrite C3| |lia].
  - rewrite Nat.sub_diag. change (replicate (0 * BSIZE) 0) with (@nil Z). by rewrite app_nil_r, C2.
  - intros y Hy Hu' Hb' _. by apply alloc_frame.
  - intros y. rewrite C4, G4, elem_of_cons. intros [->|?]; [by right|by left].
  - intros b Hb' Hub. by apply alloc_used.
  - unfold budget. rewrite C3, H0. rewrite (proj2 (Z.eqb_neq r 0)) by lia. change (0 =? 0) with true. cbv iota.
    rewrite Nat.sub_diag. assert (size (wset sb v' (<[12%nat:=r]> a)) ≤ S (size (wset sb v a)))%nat; [|lia].
    apply (size_insert_le r). unfold wset, iblocks. rewrite F6, C3. rewrite (proj2 (Z.eqb_neq r 0)) by lia. clear. set_solver.
Qed.

Lemma grow_ind sb v a N r :
  fsok sb v → file_ok sb v a N → (12 ≤ N < 140)%nat → iaddr a ≠ 0 → 0 ≤ r < sb_size sb → used v sb r = false →
  let v1 := t_alloc sb r v in
  let v' := t_upd (iaddr a) (setw (4 * (N - 12)) r (blk (tv_cur v) (iaddr a))) v1 in
  grown sb v a N v' a (S N) ∧ baddr (tv_cur v') a N = r.
Proof.
  intros Hf Hk HN Hi Hr Hu v1 v'. destruct (alloc_view sb v r Hf Hr Hu) as (F1 & F2 & F3 & F4 & F5 & F6).
  destruct (alloc_file sb v a N r Hf Hk Hr Hu) as (G0 & G1 & G2 & G3 & G4). fold v1 in F1, F2, F3, F5, F6, G2, G3, G4.
  destruct (fl_used _ _ _ _ Hk _ (owns_ind (tv_cur v) a N Hi)) as (I1 & I2 & I3).
  destruct (alloc_frame sb v r _ Hf Hr Hu I1 I2 I3) as [I4 _]. fold v1 in I4.
  pose proof (fsok_range _ _ r F1 Hr) as Hrr. pose proof (fo_size _ _ Hf) as Hsz. change BPB with 4096 in Hsz.
  destruct (core_ind (taken sb v1) (taken sb v1) (tv_cur v1) ltac:(by intros; eapply taken_range) ltac:(done)
    a r ltac:(lia) (alloc_taken sb v r Hf Hr Hu) N G2 HN Hi ltac:(by rewrite G4) ltac:(unfold is_u32; lia))
    as (C1 & C2 & C3 & C4 & C5 & C6).
  rewrite I4 in C1, C2, C3, C4, C5, C6. destruct (fsok_upd sb v1 (iaddr a) _ F1 I1 I3 C6) as [E1 E2].
  fold v' in E1, E2. split; [|exact C3]. split; [done|done|unfold v'; simpl; rewrite length_insert; apply F2| | | | | |by left| |].
  - destruct C1 as [M1 M2 M3 M4 M5]. split; try done. intros x Hx. destruct (M5 x Hx) as (U1 & U2 & U3).
    split_and!; [lia|lia|by rewrite E2|done].
  - change (tv_cur v') with (<[Z.to_nat (iaddr a) := setw (4 * (N - 12)) r (blk (tv_cur v) (iaddr a))]> (tv_cur v1)).
    rewrite C2, F3, G3. f_equal. by replace ((S N - N) * BSIZE)%nat with BSIZE by lia.
  - intros y Hy Hu' Hb' Hyi. unfold iblocks in Hyi. rewrite (proj2 (Z.eqb_neq _ _) Hi), list_elem_of_singleton in Hyi.
    transitivity (blk (tv_cur v1) y); [apply C5; [lia|done]|by apply alloc_frame].
  - intros y Hy. change (y ∈ owns (<[Z.to_nat (iaddr a) := setw (4 * (N - 12)) r (blk (tv_cur v) (iaddr a))]> (tv_cur v1)) a (S N)) in Hy.
    rewrite C4, G4, elem_of_cons in Hy. destruct Hy as [->|?]; [by right|by left].
  - intros b Hb' Hub. rewrite E2 by done. by apply alloc_used.
  - replace (S N - N)%nat with 1%nat by lia. rewrite Nat.add_1_r. apply (budget_step sb v v' a a r); [done|].
    unfold v', wset, iblocks. cbn [tv_log t_upd]. rewrite F6, (proj2 (Z.eqb_neq _ _) Hi). clear. set_solver.
  - intros k Hk'. replace k with N by lia.
    change (tv_cur v') with (<[Z.to_nat (iaddr a) := setw (4 * (N - 12)) r (blk (tv_cur v) (iaddr a))]> (tv_cur v1)).
    rewrite C3. unfold v'. cbn [tv_log t_upd]. rewrite F6. clear. set_solver.
Qed.

(** ** bmap *)

#[local] Arguments t_alloc : simpl never.

Definition w_addrs (a : list Z) (i : inode) : inode :=
  mkInode (i_dev i) (i_inum i) (i_ref i) (i_flags i) (i_type i) (i_major i) (i_minor i)
    (i_nlink i) (i_size i) a.

Section write.
Context {T : Type} `{!TxStore T}.
Abbreviation st := (fstate T).
Implicit Types (s : st) (v : tview).

Definition out_of_blocks (msg : string) : Prop := msg = "balloc: out of blocks"%string.

Lemma wpe_balloc_c s v (Q : Z → st → Prop) :
  let sb := fs_sb s in
  tx_rel (fs_t s) v → bmap_ok sb v → tx_room 2 v →
  (∀ r t, 0 ≤ r < sb_size sb → used v sb r = false → tx_rel t (t_alloc sb r v) → Q r (set_t t s)) →
  wpe (balloc 1) Q out_of_blocks s.
Proof.
  intros sb HR Hk Hr HQ. eapply wpe_mono; [by apply wp_balloc| |].
  - intros r s' (H1 & H2 & _ & t & -> & Ht). by apply HQ.
  - by intros msg [-> _].
Qed.

Lemma budget_room sb v a : fsok sb v → (budget sb v a + 2 ≤ tv_cap v)%nat → tx_room 2 v.
Proof.
  intros Hf Hb. pose proof (budget_log sb v a). pose proof (fo_cap _ _ Hf). split; [lia|].
  rewrite (fo_held _ _ Hf). change (size ∅) with 0%nat. lia.
Qed.

(** The result of bmap: the address of block [k] of the file, which has it now. *)
Definition bmap_post (ip : nat) (i : inode) s v (N k : nat) (x : Z) (s' : st) : Prop :=
  ∃ v' a' t, s' = set_inodes (<[ip := w_addrs a' i]> (ic_inode s)) (set_t t s) ∧ tx_rel t v' ∧
    grown (fs_sb s) v (i_addrs i) N v' a' (N `max` S k) ∧ x = baddr (tv_cur v') a' k ∧
    ((k < N)%nat → a' = i_addrs i).

(** From the indirect block on. *)
Lemma wpe_bmap_ind ip i s v N k :
  tx_rel (fs_t s) v → fsok (fs_sb s) v → file_ok (fs_sb s) v (i_addrs i) N → i_dev i = 1 →
  ic_inode s !! ip = Some i → (12 ≤ k ≤ N)%nat → (k < 140)%nat → iaddr (i_addrs i) ≠ 0 →
  (budget (fs_sb s) v (i_addrs i) + 2 ≤ tv_cap v)%nat →
  wpe (bp ← bread (i_dev i) (iaddr (i_addrs i));
       d ← getdata bp;
       let addr := getw (4 * (k - 12)) d in
       addr ← (if addr =? 0 then
                 addr ← balloc (i_dev i);
                 d ← getdata bp;
                 setdata bp (setw (4 * (k - 12)) addr d) ;;
                 log_write bp ;;
                 mret addr
               else mret addr);
       brelse bp ;;
       mret addr) (bmap_post ip i s v N k) out_of_blocks s.
Proof.
  intros HR Hf Hk Hdev Hi Hkn Hk140 Hia Hbud. set (q := iaddr (i_addrs i)) in *.
  destruct (fl_used _ _ _ _ Hk _ (owns_ind _ _ _ Hia)) as (I1 & I2 & I3). fold q in I1, I2, I3.
  pose proof (fsok_range _ _ _ Hf I1) as I4. pose proof (budget_log (fs_sb s) v (i_addrs i)) as Hbl.
  pose proof (fo_cap _ _ Hf) as Hcap. pose proof (fo_held _ _ Hf) as Hheld.
  assert (idle v) as Hidle by (split; [done|lia]). rewrite Hdev.
  apply wpe_bind. eapply wp_fbread; [exact HR|by apply idle_readable|].
  intros b t d Hb Hd Ht Hcur Hdata. apply wpe_bind. eapply wp_getdata; [exact Hdata|].
  assert (blk (tv_cur v) q = d) as Hblk by (unfold blk; by rewrite Hcur). cbv zeta.
  assert (getw (4 * (k - 12)) d = baddr (tv_cur v) (i_addrs i) k) as Hg by (rewrite baddr_ind by (try done; lia); fold q; by rewrite Hblk).
  rewrite Hg. destruct (decide (k = N)) as [->|Hne].
  - rewrite (fl_zero _ _ _ _ Hk) by lia. change (0 =? 0) with true. cbv iota. apply wpe_bind_e, wpe_bind_e.
    eapply (wpe_balloc_c (set_t t s) (t_hold b q v)); [exact Ht|by apply bmap_ok_hold| |].
    { split; simpl; [lia|]. rewrite Hheld, insert_empty. change (size {[b := q]}) with (size ({[b := q]} : gmap nat Z)).
      rewrite map_size_singleton. lia. }
    intros r t2 Hr Hur Ht2. change (used v (fs_sb s) r = false) in Hur. simpl in Hr.
    change (tx_rel t2 (t_hold b q (t_alloc (fs_sb s) r v))) in Ht2.
    destruct (alloc_view _ v r Hf Hr Hur) as (F1 & F2 & _ & F4 & F5 & F6).
    assert (q ≠ r) as Hqr by congruence.
    destruct (tx_data_law t2 _ b q Ht2) as (d2 & D1 & D2); [apply lookup_insert_eq|].
    assert (d2 = d) as ->.
    { assert (blk (tv_cur (t_alloc (fs_sb s) r v)) q = blk (tv_cur v) q) as E by (apply F2; [lia|by apply not_in2]).
      change (tv_cur (t_alloc (fs_sb s) r v) !! Z.to_nat q = Some d2) in D2.
      unfold blk in E at 1. rewrite D2 in E. change (d2 = blk (tv_cur v) q) in E. congruence. }
    apply wpe_bind. eapply wp_getdata; [exact D1|]. apply wpe_bind. apply wp_tl. simpl.
    eapply (tx_setdata_law _ _ _ q); [exact Ht2|apply lookup_insert_eq|]. intros t3 Ht3.
    apply wpe_bind. apply wp_tl. simpl. eapply (tx_log_write_law _ _ _ q); [exact Ht3|apply lookup_insert_eq| |].
    { change (size (tv_log (t_alloc (fs_sb s) r v)) < tv_cap v)%nat. rewrite F6.
      pose proof (size_insert_le r ({[sb_bmapstart (fs_sb s)]} ∪ tv_log v) _ (reflexivity _)).
      pose proof (budget_bm (fs_sb s) v (i_addrs i)). lia. }
    intros t4 Ht4. apply wpe_wp, wp_ret. apply wpe_bind. apply wp_tl. simpl.
    eapply (tx_brelse_law _ _ _ q); [exact Ht4|apply lookup_insert_eq|simpl; set_solver|]. intros t5 Ht5.
    rewrite t_upd_eq in Ht5 by done. apply wpe_wp, wp_ret.
    destruct (grow_ind _ v (i_addrs i) N r Hf Hk ltac:(lia) Hia Hr Hur) as [G1 G2]. fold q in G1, G2.
    rewrite Hblk in G1, G2. exists (t_upd q (setw (4 * (N - 12)) r d) (t_alloc (fs_sb s) r v)), (i_addrs i), t5.
    split; [|split; [exact Ht5|split; [|split; [by rewrite G2|lia]]]].
    + unfold set_inodes, set_t, w_addrs. simpl. f_equal. destruct i; simpl. by rewrite list_insert_id.
    + by replace (N `max` S N)%nat with (S N) by lia.
  - destruct (mp_addr _ _ _ (fl_maps _ _ _ _ Hk) k ltac:(lia)) as [K1 K2].
    rewrite (proj2 (Z.eqb_neq _ _) K1). apply wpe_bind, wp_ret, wpe_bind.
    eapply wp_fbrelse; [exact Ht|done|done|]. intros t' Ht'. apply wpe_wp, wp_ret.
    exists v, (i_addrs i), t'. split; [|split; [exact Ht'|split; [|by split]]].
    + unfold set_inodes, set_t, w_addrs. simpl. f_equal. destruct i; simpl. by rewrite list_insert_id.
    + replace (N `max` S k)%nat with N by lia. by apply grown_refl.
Qed.

Lemma same_inode ip (i : inode) s t :
  ic_inode s !! ip = Some i → set_t t s = set_inodes (<[ip := w_addrs (i_addrs i) i]> (ic_inode s)) (set_t t s).
Proof. intros H. unfold set_inodes, set_t, w_addrs. simpl. f_equal. destruct i; simpl. by rewrite list_insert_id. Qed.

(** bmap on a block of the file or the one after its last: it is there
    afterwards, with zeroes if it is new. *)
Lemma wpe_bmap ip i s v N k :
  tx_rel (fs_t s) v → fsok (fs_sb s) v → file_ok (fs_sb s) v (i_addrs i) N → i_dev i = 1 →
  ic_inode s !! ip = Some i → (k ≤ N)%nat → (k < 140)%nat →
  (budget (fs_sb s) v (i_addrs i) + 3 ≤ tv_cap v)%nat →
  wpe (bmap ip (Z.of_nat k)) (bmap_post ip i s v N k) out_of_blocks s.
Proof.
  intros HR Hf Hk Hdev Hi Hkn Hk140 Hbud. pose proof (mp_len _ _ _ (fl_maps _ _ _ _ Hk)) as Hlen.
  assert (ip < length (ic_inode s))%nat as Hip by by eapply lookup_lt_Some.
  unfold bmap. apply wpe_bind. eapply wp_geti; [exact Hi|]. change NDIRECT with 12.
  destruct (Z.ltb_spec (Z.of_nat k) 12) as [H12|H12].
  - rewrite Nat2Z.id. cbv zeta. destruct (lookup_lt_is_Some_2 (i_addrs i) k) as [x Hx]; [lia|].
    assert (baddr (tv_cur v) (i_addrs i) k = x) as Hb by (unfold baddr; rewrite (proj2 (Nat.ltb_lt _ _)) by lia; by rewrite Hx).
    apply wpe_bind. eapply wp_deref; [exact Hx|]. destruct (decide (k = N)) as [->|Hne].
    + rewrite <- Hb, (fl_zero _ _ _ _ Hk) by lia. change (0 =? 0) with true. cbv iota. rewrite Hdev.
      apply wpe_bind_e. eapply (wpe_balloc_c s v); [exact HR|by apply fsok_bmap_ok|apply (budget_room (fs_sb s) v (i_addrs i)); [done|lia]|].
      intros r t Hr Hu Ht. destruct (grow_direct _ v (i_addrs i) N r Hf Hk ltac:(lia) Hr Hu) as [G1 G2].
      apply wpe_bind. eapply wp_updi; [exact Hi|]. apply wpe_wp, wp_ret.
      exists (t_alloc (fs_sb s) r v), (<[N := r]> (i_addrs i)), t. split_and!; [done|exact Ht| |by rewrite G2|lia].
      by replace (N `max` S N)%nat with (S N) by lia.
    + destruct (mp_addr _ _ _ (fl_maps _ _ _ _ Hk) k ltac:(lia)) as [K1 K2]. rewrite Hb in K1.
      rewrite (proj2 (Z.eqb_neq _ _) K1). apply wpe_wp, wp_ret. exists v, (i_addrs i), (fs_t s).
      split_and!; [by rewrite <- same_inode by done; destruct s|done| |done|done].
      replace (N `max` S k)%nat with N by lia. by apply grown_refl.
  - cbv zeta. change NINDIRECT with 128. rewrite (proj2 (Z.ltb_lt _ _)) by lia.
    replace (Z.to_nat (Z.of_nat k - 12)) with (k - 12)%nat by lia. change (Z.to_nat 12) with 12%nat.
    destruct (lookup_lt_is_Some_2 (i_addrs i) 12) as [x Hx]; [lia|].
    assert (iaddr (i_addrs i) = x) as Hix by (unfold iaddr; by rewrite Hx).
    apply wpe_bind. eapply wp_deref; [exact Hx|]. destruct (Z.eqb_spec x 0) as [->|Hne].
    + assert (k = 12%nat ∧ N = 12%nat) as [-> ->].
      { destruct (decide (12 < N)%nat) as [Hn|Hn]; [|lia]. by destruct (mp_ind _ _ _ (fl_maps _ _ _ _ Hk) Hn). }
      rewrite Hdev. apply wpe_bind_e, wpe_bind_e.
      eapply (wpe_balloc_c s v); [exact HR|by apply fsok_bmap_ok|apply (budget_room (fs_sb s) v (i_addrs i)); [done|lia]|].
      intros r t Hr Hu Ht. destruct (grow_newind _ v (i_addrs i) r Hf Hk Hix Hr Hu) as [G1 G2].
      destruct (alloc_file _ v (i_addrs i) 12 r Hf Hk Hr Hu) as (G0 & _).
      apply wpe_bind. eapply wp_updi; [exact Hi|]. apply wpe_wp, wp_ret.
      set (i1 := w_addr 12 r i). set (s1 := set_inodes _ _).
      pose proof (wpe_bmap_ind ip i1 s1 (t_alloc (fs_sb s) r v) 12 12 Ht (gr_fs _ _ _ _ _ _ _ G1) (gr_file _ _ _ _ _ _ _ G1) Hdev) as H.
      rewrite <- Hdev. change (i_dev i) with (i_dev i1). change r with (default 0 (Some r)).
      change (i_addrs i1) with (<[12%nat := r]> (i_addrs i)) in H. rewrite G2 in H. simpl default.
      eapply wpe_mono; [apply H| |done].
      * unfold s1. simpl. by apply list_lookup_insert_eq.
      * lia.
      * lia.
      * lia.
      * pose proof (gr_budget _ _ _ _ _ _ _ G1) as Hgb. rewrite (gr_cap _ _ _ _ _ _ _ G1). simpl. lia.
      * intros y s' (v' & a' & t' & -> & Ht' & Hg & -> & _). exists v', a', t'. split_and!; [|done| |done|lia].
        -- unfold s1. unfold set_inodes, set_t. simpl. by rewrite list_insert_insert_eq.
        -- eapply grown_trans; [exact G1|exact Hg|simpl; lia|by left|simpl; lia].
    + apply wpe_bind, wp_ret. rewrite <- Hix in Hne |- *. apply wpe_bmap_ind; try done; lia.
Qed.
End write.

(** ** writei *)

(** [src] has been written at [off], and the file has [N'] blocks now. *)
Record written (sb : superblock) (v : tview) (a : list Z) (N : nat) (v' : tview) (a' : list Z) (N' : nat)
    (off : nat) (src : list Z) : Prop := {
  wr_fs : fsok sb v';
  wr_cap : tv_cap v' = tv_cap v;
  wr_len : length (tv_cur v') = length (tv_cur v);
  wr_le : (N ≤ N')%nat;
  wr_room : (off + length src ≤ N' * BSIZE)%nat;
  wr_file : file_ok sb v' a' N';
  wr_raw : raw (tv_cur v') a' N' = putbytes off src (raw (tv_cur v) a N ++ replicate ((N' - N) * BSIZE) 0);
  wr_other y : 0 ≤ y < sb_size sb → used v sb y = true → y ≠ sb_bmapstart sb → y ∉ owns (tv_cur v) a N →
    blk (tv_cur v') y = blk (tv_cur v) y ∧ y ∉ owns (tv_cur v') a' N';
  wr_used b : 0 ≤ b < sb_size sb → used v sb b = true → used v' sb b = true;
  wr_same : N' = N → a' = a;
}.

Lemma raw_putbytes sb v a N k o p :
  file_ok sb v a N → fsok sb v → (k < N)%nat → (o + length p ≤ BSIZE)%nat →
  let x := baddr (tv_cur v) a k in
  let v' := t_upd x (putbytes o p (blk (tv_cur v) x)) v in
  fsok sb v' ∧ file_ok sb v' a N ∧ raw (tv_cur v') a N = putbytes (k * BSIZE + o) p (raw (tv_cur v) a N) ∧
  (∀ y, 0 ≤ y → y ≠ x → blk (tv_cur v') y = blk (tv_cur v) y) ∧
  (∀ b, 0 ≤ b < sb_size sb → used v' sb b = used v sb b) ∧ owns (tv_cur v') a N = owns (tv_cur v) a N.
Proof.
  intros Hk Hf HkN Ho x v'. destruct (fl_used _ _ _ _ Hk x (owns_data _ _ _ _ HkN)) as (X1 & X2 & X3).
  pose proof (fsok_range _ _ _ Hf X1) as X4. pose proof (blk_length _ _ (fo_blocks _ _ Hf) X4) as X5.
  destruct (fsok_upd sb v x (putbytes o p (blk (tv_cur v) x)) Hf X1 X3) as [E1 E2].
  { rewrite putbytes_length by lia. done. }
  fold v' in E1, E2.
  destruct (core_write (taken sb v) (tv_cur v) ltac:(by intros; eapply taken_range) a N k o p Hk HkN Ho) as (C1 & C2 & C3 & C4).
  split_and!; [done| |exact C2|exact C3|done|exact C4]. destruct C1 as [M1 M2 M3 M4 M5]. split; try done.
  intros y Hy. destruct (M5 y Hy) as (U1 & U2 & U3). split_and!; [lia|lia|by rewrite E2|done].
Qed.

(** One round: bmap, then the bytes that fit into the block. *)
Lemma written_step sb v a N v1 a1 N1 k o p :
  grown sb v a N v1 a1 N1 → (N ≤ N1)%nat → (k < N1)%nat → (o + length p ≤ BSIZE)%nat → file_ok sb v a N →
  (N1 = N → a1 = a) →
  let x := baddr (tv_cur v1) a1 k in
  let v' := t_upd x (putbytes o p (blk (tv_cur v1) x)) v1 in
  written sb v a N v' a1 N1 (k * BSIZE + o) p ∧
  (budget sb v' a1 ≤ budget sb v1 a1 + if decide (x ∈ tv_log v1) then 0 else 1)%nat.
Proof.
  intros Hg HN Hk Ho Hok Hsame x v'. destruct Hg as [G1 G2 G3 G4 G5 G6 G6' G7 G8 G9 G10].
  destruct (raw_putbytes sb v1 a1 N1 k o p G4 G1 Hk Ho) as (R1 & R2 & R3 & R4 & R5 & R6). fold x in R1, R2, R3, R4, R5, R6. fold v' in R1, R2, R3, R4, R5, R6.
  split; [split|].
  - done.
  - done.
  - unfold v'. simpl. by rewrite length_insert.
  - done.
  - change BSIZE with 512%nat in *. nia.
  - done.
  - by rewrite R3, G5.
  - intros y Hy Hu Hb Hyo. assert (y ∉ owns (tv_cur v1) a1 N1) as Hyo1.
    { intros Hy'. destruct (G6' y Hy'); [done|congruence]. }
    split; [|by rewrite R6]. rewrite R4; [|lia|intros ->; by apply Hyo1, owns_data].
    apply G6; try done. intros Hi. apply Hyo, elem_of_app. by right.
  - intros b Hb Hu. rewrite R5 by done. by apply G7.
  - done.
  - unfold budget. assert (size (wset sb v' a1) ≤ size (wset sb v1 a1) + if decide (x ∈ tv_log v1) then 0 else 1)%nat; [|lia].
    unfold v', wset. cbn [tv_log t_upd]. case_decide as Hx.
    + rewrite (subseteq_union_1_L {[x]} (tv_log v1)) by set_solver. lia.
    + rewrite Nat.add_1_r. apply (size_insert_le x). clear. set_solver.
Qed.

Lemma written_trans sb v a N v1 a1 N1 v2 a2 N2 off p q :
  written sb v a N v1 a1 N1 off p → written sb v1 a1 N1 v2 a2 N2 (off + length p) q →
  maps (tv_cur v) a N → written sb v a N v2 a2 N2 off (p ++ q).
Proof.
  intros [A1 A2 A3 A4 A5 A6 A7 A8 A9 A10] [B1 B2 B3 B4 B5 B6 B7 B8 B9 B10] Hm.
  split; [done|congruence|congruence|lia|rewrite length_app; lia|done| | | |intros HN; rewrite B10, A10 by lia; done].
  - assert (length (raw (tv_cur v) a N ++ replicate ((N1 - N) * BSIZE) 0) = (N1 * BSIZE)%nat) as Hl.
    { rewrite length_app, length_replicate, raw_length by done. change BSIZE with 512%nat. lia. }
    rewrite B7, A7. rewrite <- putbytes_app_l by (rewrite Hl; lia).
    rewrite putbytes_putbytes by (rewrite length_app, Hl; lia). f_equal.
    rewrite <- app_assoc. f_equal. rewrite <- replicate_add. f_equal. change BSIZE with 512%nat. lia.
  - intros y Hy Hu Hb Ho. destruct (A8 y Hy Hu Hb Ho) as [E1 E2].
    destruct (B8 y Hy (A9 y Hy Hu) Hb E2) as [E3 E4]. split; [congruence|done].
  - intros b Hb Hu. by apply B9, A9.
Qed.

Lemma written_nil sb v a N off :
  fsok sb v → file_ok sb v a N → (off ≤ N * BSIZE)%nat → written sb v a N v a N off [].
Proof.
  intros Hf Hk Ho. split; try done; [simpl; lia|].
  rewrite Nat.sub_diag. simpl. rewrite app_nil_r. unfold putbytes. simpl. rewrite Nat.add_0_r. by rewrite take_drop.
Qed.

Section writei.
Context {T : Type} `{!TxStore T}.
Abbreviation st := (fstate T).
Implicit Types (s : st) (v : tview).

(** setdata; log_write; brelse of a held block, then more code. *)
Lemma wpe_put_bind {C} s v i x d (k : unit → M st C) (Q : C → st → Prop) E :
  tx_rel (fs_t s) (t_hold i x v) → tv_held v !! i = None → x ∉ tv_dirty v →
  (size (tv_log v) < tv_cap v)%nat →
  (∀ t, tx_rel t (t_upd x d v) → wpe (k tt) Q E (set_t t s)) →
  wpe (setdata i d ;; log_write i ;; brelse i ≫= k) Q E s.
Proof.
  intros HR Hi Hd Hc HQ. apply wpe_bind, wp_tl.
  eapply (tx_setdata_law _ _ _ x); [exact HR|apply lookup_insert_eq|]. intros t1 R1.
  apply wpe_bind, wp_tl. simpl.
  eapply (tx_log_write_law _ _ _ x); [exact R1|apply lookup_insert_eq|done|]. intros t2 R2.
  apply wpe_bind, wp_tl. simpl.
  eapply (tx_brelse_law _ _ _ x); [exact R2|apply lookup_insert_eq|simpl; set_solver|].
  intros t3. rewrite t_upd_eq by done. apply HQ.
Qed.

(** How many blocks the file has after a write up to [e]. *)
Definition nafter (N : nat) (e : Z) : nat := (N `max` nblk e)%nat.

Definition writei_post (ip : nat) (i : inode) s v (N N' : nat) (off : Z) (src : list Z) (bound : nat) (s' : st) : Prop :=
  ∃ v' a' t, s' = set_inodes (<[ip := w_addrs a' i]> (ic_inode s)) (set_t t s) ∧ tx_rel t v' ∧
    written (fs_sb s) v (i_addrs i) N v' a' N' (Z.to_nat off) src ∧
    (budget (fs_sb s) v' a' ≤ budget (fs_sb s) v (i_addrs i) + bound)%nat.

Lemma wpe_writei_loop ip : ∀ fuel i s v N src tot off n,
  tx_rel (fs_t s) v → fsok (fs_sb s) v → file_ok (fs_sb s) v (i_addrs i) N → i_dev i = 1 →
  ic_inode s !! ip = Some i → 0 ≤ off ≤ Z.of_nat N * BSZ → 0 ≤ tot ≤ n → Z.of_nat (length src) = n - tot →
  off + (n - tot) ≤ MAXFILE * BSZ →
  (0 < fuel)%nat → (tot < n → n - tot + off mod BSZ ≤ BSZ * (Z.of_nat fuel - 1)) →
  (budget (fs_sb s) v (i_addrs i) + fuel + 3 ≤ tv_cap v)%nat →
  wpe (writei_loop fuel ip src tot off n)
    (λ r s', r = off + (n - tot) ∧
       writei_post ip i s v N (if tot <? n then nafter N (off + (n - tot)) else N) off src fuel s') out_of_blocks s.
Proof.
  induction fuel as [|fuel IH]; intros i s v N src tot off n HR Hf Hk Hdev Hi Ho Ht Hl Hmax Hf0 Hfu Hbud; [lia|].
  cbn [writei_loop]. assert (Z.of_nat BSIZE = BSZ) as HB by done. case_if.
  2:{ assert (n = tot) as -> by lia. destruct src; [|simpl in Hl; lia]. apply wpe_wp, wp_ret. split; [lia|].
      exists v, (i_addrs i), (fs_t s). split_and!; [rewrite <- same_inode by done; by destruct s|done| |lia].
      apply written_nil; [done|done|]. change BSZ with 512 in *. change BSIZE with 512%nat. lia. }
  pose proof (Z.mod_pos_bound off BSZ eq_refl) as Hmod. set (m := Z.min (n - tot) (BSZ - off mod BSZ)).
  assert (0 < m ≤ n - tot) as Hm0 by lia. specialize (Hfu ltac:(lia)).
  set (k := Z.to_nat (off / BSZ)). assert (off = Z.of_nat k * BSZ + off mod BSZ) as Hoff.
  { unfold k. change BSZ with 512 in *. zdm. }
  assert (k ≤ N)%nat as HkN by (change BSZ with 512 in *; zdm).
  assert (k < 140)%nat as Hk140 by (change (MAXFILE * BSZ) with 71680 in Hmax; change BSZ with 512 in *; lia).
  replace (off / BSZ) with (Z.of_nat k) by (unfold k; change BSZ with 512 in *; zdm).
  apply wpe_bind_e. eapply wpe_mono; [eapply (wpe_bmap ip i s v N k); try done; lia| |done].
  intros x s1 (v1 & a1 & t1 & -> & Ht1 & Hg & -> & Hsame). pose proof Hg as [G1 G2 G3 G4 G5 G6 G6' G7 G8 G9 G10].
  assert (ip < length (ic_inode s))%nat as Hip by by eapply lookup_lt_Some.
  apply wpe_bind. eapply wp_geti; [by apply list_lookup_insert_eq|]. change (i_dev (w_addrs a1 i)) with (i_dev i). rewrite Hdev.
  set (x := baddr (tv_cur v1) a1 k). destruct (fl_used _ _ _ _ G4 x (owns_data (tv_cur v1) a1 (N `max` S k) k ltac:(lia))) as (X1 & X2 & X3).
  pose proof (fsok_range _ _ _ G1 X1) as X4. pose proof (budget_log (fs_sb s) v1 a1) as Hbl.
  pose proof (fo_cap _ _ Hf) as Hcap.
  apply wpe_bind. eapply wp_fbread; [exact Ht1|apply idle_readable; [split; [apply G1|lia]|exact X4]|].
  intros b t d Hb Hd Ht2 Hcur Hdata. assert (blk (tv_cur v1) x = d) as Hblk by (unfold blk; by rewrite Hcur).
  apply wpe_bind. eapply wp_getdata; [exact Hdata|].
  set (piece := take (Z.to_nat m) src). assert (length piece = Z.to_nat m) as Hpl by (unfold piece; rewrite length_take; lia).
  destruct (written_step _ v (i_addrs i) N v1 a1 (N `max` S k) k (Z.to_nat (off mod BSZ)) piece Hg ltac:(lia) ltac:(lia)
    ltac:(rewrite Hpl; change BSIZE with 512%nat; change BSZ with 512 in *; lia) Hk ltac:(intros HN; apply Hsame; lia)) as [W1 W2].
  fold x in W1, W2. rewrite Hblk in W1, W2.
  replace (k * BSIZE + Z.to_nat (off mod BSZ))%nat with (Z.to_nat off) in W1
    by (change BSIZE with 512%nat; change BSZ with 512 in *; lia).
  assert (budget (fs_sb s) (t_upd x (putbytes (Z.to_nat (off mod BSZ)) piece d) v1) a1 ≤
    budget (fs_sb s) v (i_addrs i) + 1)%nat as W3.
  { destruct (decide (k = N)) as [->|Hne].
    - rewrite decide_True in W2 by (apply G10; lia). lia.
    - case_decide; lia. }
  set (v2 := t_upd x (putbytes (Z.to_nat (off mod BSZ)) piece d) v1) in *.
  eapply wpe_put_bind; [exact Ht2|done|done|lia|]. fold v2. intros t3 Ht3.
  set (s1 := set_t t3 _).
  eapply wpe_mono; [eapply (IH (w_addrs a1 i) s1 v2 (N `max` S k)%nat (drop (Z.to_nat m) src) (tot + m) (off + m) n)| |done].
  - exact Ht3.
  - apply W1.
  - apply W1.
  - done.
  - unfold s1. simpl. by apply list_lookup_insert_eq.
  - unfold m. change BSZ with 512 in *. lia.
  - lia.
  - rewrite length_drop. lia.
  - lia.
  - change BSZ with 512 in *. lia.
  - intros Hlt. unfold m in *. change BSZ with 512 in *. zdm.
  - change (fs_sb s1) with (fs_sb s). change (i_addrs (w_addrs a1 i)) with a1. change (tv_cap v2) with (tv_cap v1). lia.
  - intros r s' [-> (v3 & a3 & t4 & -> & Ht4 & W4 & W5)]. split; [lia|].
    change (fs_sb s1) with (fs_sb s) in W4, W5. change (i_addrs (w_addrs a1 i)) with a1 in W4, W5.
    exists v3, a3, t4. split_and!; [|done| |lia].
    + unfold s1, set_inodes, set_t. simpl. f_equal. by rewrite list_insert_insert_eq.
    + rewrite <- (take_drop (Z.to_nat m) src). eapply written_trans; [exact W1| |apply Hk].
      fold piece. rewrite Hpl. replace (Z.to_nat off + Z.to_nat m)%nat with (Z.to_nat (off + m)) by lia.
      replace (nafter N (off + (n - tot))) with (if tot + m <? n then nafter (N `max` S k) (off + m + (n - (tot + m))) else (N `max` S k)%nat); [exact W4|].
      unfold nafter, nblk. case_if.
      * replace (off + m + (n - (tot + m))) with (off + (n - tot)) by lia. change BSZ with 512 in *. zdm.
      * unfold m in *. change BSZ with 512 in *. zdm.
Qed.
End writei.

Lemma file_addrs_u32 sb v a N : file_ok sb v a N → fsok sb v → Forall is_u32 a.
Proof.
  intros Hk Hf. pose proof (mp_len _ _ _ (fl_maps _ _ _ _ Hk)) as Hl. pose proof (fo_size _ _ Hf) as Hs. change BPB with 4096 in Hs.
  assert (∀ x, x ∈ owns (tv_cur v) a N → is_u32 x) as Hr.
  { intros x Hx. destruct (fl_used _ _ _ _ Hk x Hx). unfold is_u32. lia. }
  apply Forall_lookup. intros j x Hj. pose proof (lookup_lt_Some _ _ _ Hj). destruct (decide (j = 12%nat)) as [->|H12].
  - assert (iaddr a = x) as Hi by (unfold iaddr; by rewrite Hj). destruct (decide (x = 0)) as [->|Hx]; [done|].
    apply Hr. rewrite <- Hi. apply owns_ind. congruence.
  - assert (baddr (tv_cur v) a j = x) as Hb.
    { unfold baddr. rewrite (proj2 (Nat.ltb_lt _ _)) by lia. by rewrite Hj. }
    destruct (decide (j < N)%nat); [apply Hr; rewrite <- Hb; by apply owns_data|].
    rewrite (fl_zero _ _ _ _ Hk) in Hb by lia. by subst x.
Qed.

(** A locked regular file in a transaction: its blocks are its own, and so
    is the block of its disk inode. *)
Record file_open (sb : superblock) (v : tview) (i : inode) : Prop := {
  of_fs : fsok sb v;
  of_dev : i_dev i = 1;
  of_type : i_type i ≠ T_DEV;
  of_ok : inode_ok i;
  of_size : 0 ≤ i_size i ≤ MAXFILE * BSZ;
  of_file : file_ok sb v (i_addrs i) (nblk (i_size i));
  of_ib : 0 ≤ IBLOCK (i_inum i) sb < sb_size sb;
  of_ib_used : used v sb (IBLOCK (i_inum i) sb) = true;
  of_ib_bm : IBLOCK (i_inum i) sb ≠ sb_bmapstart sb;
  of_ib_own : IBLOCK (i_inum i) sb ∉ owns (tv_cur v) (i_addrs i) (nblk (i_size i));
}.

Lemma open_mapped sb v i : file_open sb v i → mapped (tv_cur v) i.
Proof. intros Ho. split; [apply Ho|apply Ho|apply (fl_maps _ _ _ _ (of_file _ _ _ Ho))]. Qed.

Lemma idoff_in inum : (idoff inum + DINODE ≤ BSIZE)%nat.
Proof.
  unfold idoff, DINODE. change IPB with 8. change BSIZE with 512%nat.
  pose proof (Z.mod_pos_bound inum 8 eq_refl). lia.
Qed.

(** The view and the inode after a write, but for the size on disk. *)
Lemma written_file sb v i v' a' off src :
  file_open sb v i → 0 ≤ off ≤ i_size i → off + Z.of_nat (length src) ≤ MAXFILE * BSZ →
  let size' := Z.max (i_size i) (off + Z.of_nat (length src)) in
  written sb v (i_addrs i) (nblk (i_size i)) v' a' (nblk size') (Z.to_nat off) src →
  let i' := w_size size' (w_addrs a' i) in
  file_open sb v' i' ∧ fdata (tv_cur v') i' = splice off src (fdata (tv_cur v) i).
Proof.
  intros Ho Hoff Hmax size' W i'. pose proof W as [W1 W2 W3 W4 W5 W6 W7 W8 W9 _].
  pose proof Ho as [O1 O2 O3 [P1 P2 P3 P4 P5 P6 P7] O5 O6 O7 O8 O9 O10].
  change (MAXFILE * BSZ) with 71680 in *. destruct (W8 _ O7 O8 O9 O10) as [W10 W11]. split.
  - split; try done; [|change (0 ≤ size' ≤ 71680); lia|by apply W9].
    split; try done; [change (0 ≤ size' < 4294967296); lia|apply (fl_maps _ _ _ _ W6)|by eapply file_addrs_u32].
  - unfold fdata. change (i_size i') with size'. change (i_addrs i') with a'. rewrite W7. unfold splice.
    pose proof (raw_length _ _ _ (fl_maps _ _ _ _ O6)) as Hl.
    pose proof (nblk_cover (i_size i) ltac:(lia)) as C1. pose proof (nblk_cover size' ltac:(lia)) as C2.
    apply take_putbytes; [lia|lia|lia|]. rewrite length_app, length_replicate, Hl. change BSIZE with 512%nat in *. lia.
Qed.

(** The disk inode of the file is its inode in memory: ilock would read this
    inode back, whatever the entry held. *)
Definition on_disk (sb : superblock) (v : tview) (i : inode) : Prop :=
  ∀ jp, get_dinode (idoff (i_inum i)) (blk (tv_cur v) (IBLOCK (i_inum i) sb)) jp =
    mkInode (i_dev jp) (i_inum jp) (i_ref jp) (i_flags jp) (i_type i) (i_major i) (i_minor i)
      (i_nlink i) (i_size i) (i_addrs i).

(** The bytes around the disk inode, where the other inodes of its block are. *)
Definition beside_inode (sb : superblock) (v v' : tview) (inum : Z) : Prop :=
  ∀ o n, (o + n ≤ idoff inum ∨ idoff inum + DINODE ≤ o)%nat →
    getbytes o n (blk (tv_cur v') (IBLOCK inum sb)) = getbytes o n (blk (tv_cur v) (IBLOCK inum sb)).

(** Writing the disk inode keeps the file. *)
Lemma inode_written sb v i :
  file_open sb v i →
  let x := IBLOCK (i_inum i) sb in
  let v' := t_upd x (put_dinode (idoff (i_inum i)) i (blk (tv_cur v) x)) v in
  file_open sb v' i ∧ fdata (tv_cur v') i = fdata (tv_cur v) i ∧
  (∀ b, 0 ≤ b < sb_size sb → used v' sb b = used v sb b) ∧
  (∀ y, 0 ≤ y → y ≠ x → blk (tv_cur v') y = blk (tv_cur v) y) ∧
  on_disk sb v' i ∧ beside_inode sb v v' (i_inum i).
Proof.
  intros Ho x v'. pose proof Ho as [O1 O2 O3 O4 O5 O6 O7 O8 O9 O10]. fold x in O7, O8, O9, O10.
  pose proof (fsok_range _ _ _ O1 O7) as Hr. pose proof (blk_length _ _ (fo_blocks _ _ O1) Hr) as Hbl.
  destruct (fsok_upd sb v x (put_dinode (idoff (i_inum i)) i (blk (tv_cur v) x)) O1 O7 O9) as [E1 E2].
  { rewrite put_dinode_length; [done|done|]. rewrite Hbl. apply idoff_in. }
  fold v' in E1, E2. assert (frame [x] (tv_cur v) (tv_cur v')) as F by by apply frame_insert.
  destruct (file_frame sb v v' (i_addrs i) (nblk (i_size i)) [x] O1 O6 E1 F) as (F1 & F2 & F3).
  - intros y Hy. rewrite list_elem_of_singleton. congruence.
  - intros b Hb Hu. by rewrite E2.
  - assert (blk (tv_cur v') x = put_dinode (idoff (i_inum i)) i (blk (tv_cur v) x)) as Hb.
    { unfold v'. cbn [tv_cur t_upd]. rewrite blk_insert by lia. by rewrite Z.eqb_refl. }
    pose proof (idoff_in (i_inum i)) as Hin. split_and!; [|unfold fdata; by rewrite F2|done| | |].
    + split; try done; fold x; [by rewrite E2|by rewrite F3].
    + intros y Hy Hne. apply F; [done|]. by rewrite list_elem_of_singleton.
    + intros jp. fold x. rewrite Hb. apply get_put_dinode; [done|by rewrite Hbl].
    + intros o n Hon. fold x. rewrite Hb. apply put_dinode_frame; [done|by rewrite Hbl|done].
Qed.

Section writei_spec.
Context {T : Type} `{!TxStore T}.
Abbreviation st := (fstate T).
Implicit Types (s : st) (v : tview).

(** The outcome of a write that is possible. *)
Definition writei_done (ip : nat) (i : inode) s v (off : Z) (src : list Z) (s' : st) : Prop :=
  ∃ v' i' t, s' = set_inodes (<[ip := i']> (ic_inode s)) (set_t t s) ∧ tx_rel t v' ∧
    file_open (fs_sb s) v' i' ∧ i' = w_size (i_size i') (w_addrs (i_addrs i') i) ∧
    i_size i' = Z.max (i_size i) (off + Z.of_nat (length src)) ∧
    fdata (tv_cur v') i' = splice off src (fdata (tv_cur v) i) ∧
    (∀ y, 0 ≤ y < sb_size (fs_sb s) → used v (fs_sb s) y = true → y ≠ sb_bmapstart (fs_sb s) →
       y ∉ owns (tv_cur v) (i_addrs i) (nblk (i_size i)) → y ≠ IBLOCK (i_inum i) (fs_sb s) →
       blk (tv_cur v') y = blk (tv_cur v) y) ∧
    (on_disk (fs_sb s) v i ∨ i_size i < i_size i' → on_disk (fs_sb s) v' i') ∧
    beside_inode (fs_sb s) v v' (i_inum i) ∧
    (size (tv_log v') ≤ budget (fs_sb s) v (i_addrs i) + Z.to_nat (Z.of_nat (length src) / BSZ) + 4)%nat.

Lemma wpe_writei dw ip i v s off src :
  let n := Z.of_nat (length src) in
  file_open (fs_sb s) v i → tx_rel (fs_t s) v → ic_inode s !! ip = Some i → is_u32 off → is_u32 n →
  (budget (fs_sb s) v (i_addrs i) + Z.to_nat (n / BSZ) + 7 ≤ tv_cap v)%nat →
  wpe (writei dw ip src off n)
    (λ r s', r = n ∧ off ≤ i_size i ∧ off + n ≤ MAXFILE * BSZ ∧ writei_done ip i s v off src s' ∨
             r = -1 ∧ s' = s ∧ ¬ (off ≤ i_size i ∧ off + n ≤ MAXFILE * BSZ)) out_of_blocks s.
Proof.
  intros n Ho HR Hi Hu1 Hu2 Hbud. pose proof Ho as [O1 O2 O3 O4 O5 O6 O7 O8 O9 O10]. unfold is_u32 in *.
  pose proof (nblk_cover (i_size i) ltac:(lia)) as Hcov. change BSIZE with 512%nat in Hcov.
  assert (MAXFILE * BSZ = 71680) as HM by done. unfold writei. apply wpe_bind. eapply wp_geti; [exact Hi|].
  rewrite (proj2 (Z.eqb_neq _ _) O3). destruct (_ || _) eqn:E1.
  { apply wpe_wp, wp_ret. right. split_and!; [done|done|]. intros [H1 H2]. apply orb_true_iff in E1 as [E1|E1]; bool_facts; [lia|].
    rewrite u32_small in E1 by (unfold is_u32; lia). lia. }
  bool_facts. assert (u32 (off + n) = off + n) as Hu by (unfold u32 in *; zdm). rewrite Hu.
  case_if; [apply wpe_wp, wp_ret; right; split_and!; [done|done|lia]|].
  apply wpe_bind_e. eapply wpe_mono; [eapply (wpe_writei_loop ip _ i s v (nblk (i_size i)) src 0 off n)| |done]; try done.
  - change BSZ with 512. lia.
  - lia.
  - lia.
  - lia.
  - lia.
  - intros _. pose proof (Z.mod_pos_bound off BSZ eq_refl). change BSZ with 512 in *. zdm.
  - lia.
  - intros r s1 [-> (v1 & a1 & t1 & -> & Ht1 & W & Wb)]. rewrite Z.sub_0_r in W |- *.
    assert ((if 0 <? n then nafter (nblk (i_size i)) (off + n) else nblk (i_size i)) = nblk (Z.max (i_size i) (off + n))) as HN.
    { unfold nafter. case_if.
      - destruct (Z.max_spec (i_size i) (off + n)) as [[? ->]|[? ->]];
          [pose proof (nblk_mono (i_size i) (off + n))|pose proof (nblk_mono (off + n) (i_size i))]; lia.
      - f_equal. lia. }
    rewrite HN in W. destruct (written_file (fs_sb s) v i v1 a1 off src Ho ltac:(lia) ltac:(lia) W) as [Ho1 Hd1].
    fold n in Ho1, Hd1. set (size' := Z.max (i_size i) (off + n)) in *.
    assert (ip < length (ic_inode s))%nat as Hip by by eapply lookup_lt_Some.
    assert (blk (tv_cur v1) (IBLOCK (i_inum i) (fs_sb s)) = blk (tv_cur v) (IBLOCK (i_inum i) (fs_sb s))) as Hib
      by by apply (wr_other _ _ _ _ _ _ _ _ _ W).
    assert (∀ t v', tx_rel t v' → file_open (fs_sb s) v' (w_size size' (w_addrs a1 i)) →
      fdata (tv_cur v') (w_size size' (w_addrs a1 i)) = splice off src (fdata (tv_cur v) i) →
      (∀ y, 0 ≤ y → y ≠ IBLOCK (i_inum i) (fs_sb s) → blk (tv_cur v') y = blk (tv_cur v1) y) →
      (on_disk (fs_sb s) v i ∨ i_size i < size' → on_disk (fs_sb s) v' (w_size size' (w_addrs a1 i))) →
      beside_inode (fs_sb s) v1 v' (i_inum i) →
      (size (tv_log v') ≤ size (tv_log v1) + 1)%nat →
      writei_done ip i s v off src (set_inodes (<[ip := w_size size' (w_addrs a1 i)]> (ic_inode s)) (set_t t s))) as Hdone.
    { intros t v' Ht' Ho' Hd' Hfr Hdi Hbe Hsz. exists v', (w_size size' (w_addrs a1 i)), t. split_and!; try done.
      2:{ intros o m Hom. rewrite Hbe, Hib by done. done. }
      - intros y Hy Hyu Hyb Hyo Hyi. rewrite Hfr by (try done; lia). by apply (wr_other _ _ _ _ _ _ _ _ _ W).
      - pose proof (budget_log (fs_sb s) v1 a1). fold n. lia. }
    apply wpe_bind. eapply wp_geti; [by apply list_lookup_insert_eq|]. change (i_size (w_addrs a1 i)) with (i_size i).
    apply wpe_bind. destruct ((0 <? n) && (i_size i <? off + n)) eqn:E3.
    + bool_facts. assert (size' = off + n) as Hs' by lia.
      wstep. eapply wp_updi; [by apply list_lookup_insert_eq|].
      change (ic_inode (set_inodes ?l ?x)) with l. rewrite list_insert_insert_eq, <- Hs'.
      set (i' := w_size size' (w_addrs a1 i)) in *. set (s2 := set_inodes (<[ip := i']> _) _).
      pose proof Ho1 as [Q1 Q2 Q3 Q4 Q5 Q6 Q7 Q8 Q9 Q10].
      pose proof (fsok_range _ _ _ Q1 Q7) as Hrg.
      destruct (lookup_lt_is_Some_2 (tv_cur v1) (Z.to_nat (IBLOCK (i_inum i') (fs_sb s)))) as [d Hd]; [lia|].
      assert (blk (tv_cur v1) (IBLOCK (i_inum i') (fs_sb s)) = d) as Hblk by (unfold blk; by rewrite Hd).
      pose proof (budget_log (fs_sb s) v1 a1) as Hbl. pose proof (wr_cap _ _ _ _ _ _ _ _ _ W) as Hcap.
      eapply (wp_iupdate s2 v1 ip i' d); [exact Ht1|by apply list_lookup_insert_eq|done| |exact Hd|].
      { split; [|lia]. apply idle_readable; [split; [apply Q1|]|unfold tv_len; exact Hrg].
        pose proof (fo_cap _ _ Q1). lia. }
      intros t2 Ht2. apply wpe_wp, wp_ret. left. split_and!; [done|lia|lia|].
      destruct (inode_written _ _ _ Ho1) as (I1 & I2 & _ & I4 & I5 & I6). rewrite Hblk in I1, I2, I4, I5, I6.
      apply (Hdone t2 _ Ht2 I1); [exact (eq_trans I2 Hd1)|exact I4|by intros _|exact I6|].
      etransitivity; [apply (size_add_log (IBLOCK (i_inum i) (fs_sb s)) v1)|lia].
    + apply wp_ret. apply wpe_wp, wp_ret. left. split_and!; [done|lia|lia|].
      assert (size' = i_size i) as Hs' by (apply andb_false_iff in E3 as [E3|E3]; bool_facts; lia).
      replace (w_addrs a1 i) with (w_size size' (w_addrs a1 i)) by (rewrite Hs'; by destruct i).
      apply (Hdone t1 v1 Ht1 Ho1); [done|done| |done|lia]. intros [Hdi|?]; [|lia].
      pose proof (wr_same _ _ _ _ _ _ _ _ _ W ltac:(by rewrite Hs')) as ->. rewrite Hs'.
      intros jp. specialize (Hdi jp). rewrite <- Hib in Hdi. exact Hdi.
Qed.
End writei_spec.

(** ** The theorems *)

(** readi on a file that is not a device returns exactly the bytes its
    inode describes from the offset on, cut at the end of the file, or -1
    when the offset is behind the end or offset plus count overflows; it
    changes neither the file system nor the inodes. *)
Theorem readi_spec {T} `{!TxStore T} devread ip off n i v (s : fstate T) :
  tx_rel (fs_t s) v → idle v → mapped (tv_cur v) i → ic_inode s !! ip = Some i →
  i_type i ≠ T_DEV → is_u32 off → is_u32 n →
  wp (readi devread ip off n)
    (λ r s', r = file_read (fdata (tv_cur v) i) off n ∧ ∃ t, s' = set_t t s ∧ tx_rel t v) s.
Proof. intros HR Hv Hm Hi Hty Ho Hn. eapply wp_readi; eauto. Qed.

(** [C19] writei on a regular file, in a transaction with room, puts the bytes
    where they were asked for: the file is then its old contents with the
    bytes in place, as long as needed, its blocks are its own and marked in
    use, and no block of another file and no other disk inode has changed; when
    the file grew, and whenever the disk inode agreed with the inode in memory
    before, the disk inode is the new inode in memory, with its size and
    addresses.  It returns -1 and changes nothing
    exactly when the offset is behind the end or the file would be too
    large; it panics only when the disk is full. *)
Theorem writei_spec {T} `{!TxStore T} dw ip i v (s : fstate T) off src :
  let n := Z.of_nat (length src) in
  file_open (fs_sb s) v i → tx_rel (fs_t s) v → ic_inode s !! ip = Some i → is_u32 off → is_u32 n →
  (budget (fs_sb s) v (i_addrs i) + Z.to_nat (n / BSZ) + 7 ≤ tv_cap v)%nat →
  wpe (writei dw ip src off n)
    (λ r s', r = n ∧ off ≤ i_size i ∧ off + n ≤ MAXFILE * BSZ ∧ writei_done ip i s v off src s' ∨
             r = -1 ∧ s' = s ∧ ¬ (off ≤ i_size i ∧ off + n ≤ MAXFILE * BSZ)) out_of_blocks s.
Proof. apply wpe_writei. Qed.

(** What writei has written, readi reads back. *)
Theorem write_read {T} `{!TxStore T} dr dw ip i v (s : fstate T) off src :
  let n := Z.of_nat (length src) in
  file_open (fs_sb s) v i → tx_rel (fs_t s) v → ic_inode s !! ip = Some i → 0 ≤ off ≤ i_size i → 
  off + n ≤ MAXFILE * BSZ →
  (budget (fs_sb s) v (i_addrs i) + Z.to_nat (n / BSZ) + 7 ≤ tv_cap v)%nat →
  wpe (writei dw ip src off n ;; readi dr ip off n) (λ r _, r = (src, n)) out_of_blocks s.
Proof.
  intros n Ho HR Hi Hoff Hmax Hb. change (MAXFILE * BSZ) with 71680 in Hmax.
  pose proof (of_size _ _ _ Ho) as Hs. change (MAXFILE * BSZ) with 71680 in Hs.
  apply wpe_bind_e. eapply wpe_mono; [apply (wpe_writei dw ip i v s off src); try done; unfold is_u32; fold n; lia| |done].
  intros r s' [(-> & _ & _ & v' & i' & t & -> & Ht & Ho' & _ & _ & Hd & _ & _ & _ & Hlog)|(_ & _ & Hn)].
  2:{ exfalso. apply Hn. change (MAXFILE * BSZ) with 71680. fold n. lia. }
  assert (ip < length (ic_inode s))%nat as Hip by by eapply lookup_lt_Some. fold n in Hlog.
  apply wpe_wp. eapply (wp_readi dr ip off n i' v'); [exact Ht| |by eapply open_mapped|by apply list_lookup_insert_eq|apply Ho'|
    unfold is_u32; lia|unfold is_u32; lia|].
  { split; [apply (of_fs _ _ _ Ho')|]. pose proof (fo_cap _ _ (of_fs _ _ _ Ho)). lia. }
  intros t' Ht'. rewrite Hd. apply read_splice; [|fold n; lia].
  rewrite (fdata_length _ _ (open_mapped _ _ _ Ho)). lia.
Qed.

(** ** Witnesses *)

(** A kernel that has booted from any disk, in a transaction. *)
Lemma boot_rel (d : list block) :
  tx_rel (mkBst cpu0 (initlock "bcache" lock0) (binit_bufs []) d [] [], wl0) (mkTv d ∅ ∅ ∅ 29).
Proof.
  exists (view0 d), []. split; try done. destruct wb0_run as [_ H2 H3 H4 H5 H6 H7 H8]. split; try done.
  split; try done. apply binit_core.
Qed.

Definition inode_w : inode := mkInode 1 3 1 3 2 0 0 1 100 (34 :: replicate 12 0).
Definition fs_w : fstate (bstate * logst) :=
  mkFs (fs_b0, wl0) fs_sb0 lock0 (<[7%nat := inode_w]> (replicate NINODE inode0)) [] 0.

Lemma fs_w_blocks : Forall (λ b : block, length b = BSIZE) fs_disk.
Proof. apply (bool_decide_unpack _). vm_compute. exact I. Qed.

Lemma fs_w_ok : fsok fs_sb0 fs_v0.
Proof.
  split.
  - change BPB with 4096. simpl. lia.
  - vm_compute. discriminate.
  - simpl. lia.
  - vm_compute. reflexivity.
  - vm_compute. reflexivity.
  - apply fs_w_blocks.
  - reflexivity.
  - vm_compute. lia.
Qed.

Lemma inode_w_baddr k : (1 ≤ k < 140)%nat → baddr fs_disk (i_addrs inode_w) k = 0.
Proof. intros H. unfold baddr. case_if; [|done]. by do 12 (destruct k as [|k]; [done||lia|]). Qed.

Lemma inode_w_ok : inode_ok inode_w.
Proof.
  split; unfold is_i16, is_u32; simpl; try lia.
  repeat (apply Forall_cons_2; [unfold is_u32; lia|]). apply Forall_nil_2.
Qed.

Lemma inode_w_file : file_ok fs_sb0 fs_v0 (i_addrs inode_w) 1.
Proof.
  split.
  - split; [done|lia| |lia|apply fs_w_blocks]. intros k Hk. replace k with 0%nat by lia. by vm_compute.
  - apply inode_w_baddr.
  - done.
  - apply NoDup_singleton.
  - intros x Hx. apply list_elem_of_singleton in Hx as ->. split_and!; [done|done|by vm_compute|done].
Qed.

Lemma fs_w_open : file_open fs_sb0 fs_v0 inode_w.
Proof.
  split.
  - apply fs_w_ok.
  - done.
  - discriminate.
  - apply inode_w_ok.
  - by vm_compute.
  - apply inode_w_file.
  - by vm_compute.
  - by vm_compute.
  - by vm_compute.
  - change (IBLOCK (i_inum inode_w) fs_sb0 ∉ [34]). rewrite list_elem_of_singleton. by vm_compute.
Qed.

Lemma readi_spec_witness :
  wp (readi (λ _, None) 7 90 20) (λ r _, r = (replicate 10 0, 10)) fs_w.
Proof.
  eapply wp_mono; [apply (readi_spec (λ _, None) 7 90 20 inode_w fs_v0 fs_w)|].
  - exact fs0_rel.
  - split; [done|vm_compute; lia].
  - apply (open_mapped _ _ _ fs_w_open).
  - reflexivity.
  - discriminate.
  - unfold is_u32. lia.
  - unfold is_u32. lia.
  - intros r s' [-> _]. vm_compute. reflexivity.
Defined.

Lemma writei_spec_witness :
  wpe (writei (λ _, None) 7 (replicate 500 7) 100 500)
    (λ r s', r = 500 ∧ ∃ v' i' t, s' = set_inodes (<[7%nat := i']> (ic_inode fs_w)) (set_t t fs_w) ∧
       fdata (tv_cur v') i' = replicate 100 0 ++ replicate 500 7) out_of_blocks fs_w.
Proof.
  eapply wpe_mono; [apply (writei_spec (λ _, None) 7 inode_w fs_v0 fs_w 100 (replicate 500 7))| |done].
  - exact fs_w_open.
  - exact fs0_rel.
  - reflexivity.
  - unfold is_u32. lia.
  - unfold is_u32. simpl. lia.
  - vm_compute. lia.
  - intros r s' [(-> & _ & _ & v' & i' & t & -> & _ & _ & _ & _ & Hd & _)|(_ & _ & H)]; [|exfalso; apply H; by vm_compute].
    split; [done|]. exists v', i', t. split; [done|]. rewrite Hd. vm_compute. reflexivity.
Defined.

Lemma write_read_witness :
  wpe (writei (λ _, None) 7 [1; 2; 3] 99 3 ;; readi (λ _, None) 7 99 3) (λ r _, r = ([1; 2; 3], 3)) out_of_blocks fs_w.
Proof.
  apply (write_read (λ _, None) (λ _, None) 7 inode_w fs_v0 fs_w 99 [1; 2; 3]).
  - exact fs_w_open.
  - exact fs0_rel.
  - reflexivity.
  - simpl. lia.
  - by vm_compute.
  - vm_compute. lia.
Defined.
