(* ===== verification/Dir.v ===== *)
(** * Directories (dirlookup and dirlink of xv6/fs.c)

    The bytes of a directory as a finite map: [dir_get D name] is the inode
    number a directory with bytes [D] gives to a name.  dirlookup computes
    it, dirlink adds one binding to it. *)

From stdpp Require Import gmap list.
From S2P Require Import Prelude Kernel Spinlock CString Block Bio Log Tx Fs Layout Contents.
Local Open Scope Z_scope.

(** ** Names *)

Lemma nth_drop_cons (l : list Z) i c r : drop i l = c :: r → nth i l 0 = c ∧ drop (S i) l = r.
Proof.
  intros H. split.
  - rewrite nth_lookup, <- (Nat.add_0_r i), <- lookup_drop, H. done.
  - by rewrite <- Nat.add_1_r, <- drop_drop, H.
Qed.

Lemma nth_drop_nil (l : list Z) i : drop i l = [] → nth i l 0 = 0 ∧ drop (S i) l = [].
Proof.
  intros H. apply (f_equal length) in H. rewrite length_drop in H. simpl in H. split; [|apply drop_ge; lia].
  apply nth_overflow. lia.
Qed.

Lemma strncmp_name s t n : ∀ i,
  strncmp_at (bstr s) (bstr t) i n = 0 ↔ name_str n (drop i s) = name_str n (drop i t).
Proof.
  induction n as [|n IH]; intros i; [done|]. cbn [strncmp_at]. change (bstr s i) with (nth i s 0). change (bstr t i) with (nth i t 0).
  destruct (drop i s) as [|c r] eqn:Hs, (drop i t) as [|d q] eqn:Ht; cbn [name_str];
    try (apply nth_drop_nil in Hs as [-> Hs]); try (apply nth_drop_nil in Ht as [-> Ht]);
    try (apply nth_drop_cons in Hs as [-> Hs]); try (apply nth_drop_cons in Ht as [-> Ht]); simpl.
  - done.
  - destruct (Z.eqb_spec d 0) as [-> |Hd]; [done|]. split; [lia|done].
  - destruct (Z.eqb_spec c 0) as [-> |Hc]; simpl; [done|].
    destruct (Z.eqb_spec c 0); [done|]. split; [lia|done].
  - destruct (Z.eqb_spec c 0) as [-> |Hc]; simpl.
    + destruct (Z.eqb_spec d 0) as [-> |Hd]; [done|]. split; [lia|done].
    + destruct (Z.eqb_spec c d) as [-> |Hcd].
      * rewrite (proj2 (Z.eqb_neq _ _) Hc). rewrite IH, Hs, Ht. split; [by intros -> |by intros [= ->]].
      * split; [lia|]. case_if; [done|]. by intros [= ?].
Qed.

(** namecmp compares the strings in two name arrays. *)
Lemma namecmp_spec s t : namecmp s t = 0 ↔ name_str DIRSIZ s = name_str DIRSIZ t.
Proof. apply (strncmp_name s t DIRSIZ 0). Qed.

Lemma name_strncpy n s : name_str n (strncpy_arr n s) = name_str n s.
Proof.
  revert s. induction n as [|n IH]; intros [|c s]; cbn [strncpy_arr name_str]; try done.
  destruct (Z.eqb_spec c 0) as [-> |Hc]; [done|]. cbn [name_str]. rewrite (proj2 (Z.eqb_neq _ _) Hc). by rewrite IH.
Qed.

(** ** Entries *)

(** Entry [k], the number of entries, and the first one from [k] on among
    [n] that satisfies a test. *)
Definition dent (D : list Z) (k : nat) : list Z := getbytes (16 * k) 16 D.
Definition dlen (D : list Z) : nat := (length D / 16)%nat.
Fixpoint dscan (p : list Z → bool) (D : list Z) (k n : nat) : option nat :=
  match n with
  | O => None
  | S n => if p (dent D k) then Some k else dscan p D (S k) n
  end.

Definition de_free (de : list Z) : bool := de_inum de =? 0.
Definition de_match (name de : list Z) : bool := negb (de_free de) && (namecmp name (de_name de) =? 0).

(** Where a name is, where a new entry goes, and the map. *)
Definition dfind (name D : list Z) : option nat := dscan (de_match name) D 0 (dlen D).
Definition dslot (D : list Z) : nat := default (dlen D) (dscan de_free D 0 (dlen D)).
Definition dir_get (D name : list Z) : option Z := k ← dfind name D; Some (de_inum (dent D k)).

(** The 16 bytes dirlink writes. *)
Definition entry (name : list Z) (inum : Z) : list Z := to_le16 inum ++ strncpy_arr DIRSIZ name.
Definition dir_add (name : list Z) (inum : Z) (D : list Z) : list Z := splice (Z.of_nat (16 * dslot D)) (entry name inum) D.

Lemma dscan_Some p D : ∀ n k j, dscan p D k n = Some j →
  (k ≤ j < k + n)%nat ∧ p (dent D j) = true ∧ ∀ i, (k ≤ i < j)%nat → p (dent D i) = false.
Proof.
  induction n as [|n IH]; intros k j H; [done|]. cbn [dscan] in H. destruct (p (dent D k)) eqn:Hp.
  - injection H as <-. split_and!; [lia|lia|done|lia].
  - destruct (IH _ _ H) as (H1 & H2 & H3). split_and!; [lia|lia|done|]. intros i Hi.
    destruct (decide (i = k)) as [-> |]; [done|apply H3; lia].
Qed.

Lemma dscan_None p D : ∀ n k, dscan p D k n = None → ∀ i, (k ≤ i < k + n)%nat → p (dent D i) = false.
Proof.
  induction n as [|n IH]; intros k H i Hi; [lia|]. cbn [dscan] in H. destruct (p (dent D k)) eqn:Hp; [done|].
  destruct (decide (i = k)) as [-> |]; [done|]. apply (IH _ H). lia.
Qed.

Lemma dscan_first p D n k j :
  (k ≤ j < k + n)%nat → p (dent D j) = true → (∀ i, (k ≤ i < j)%nat → p (dent D i) = false) → dscan p D k n = Some j.
Proof.
  revert k. induction n as [|n IH]; intros k Hj Hp Hf; [lia|]. cbn [dscan].
  destruct (decide (j = k)) as [-> |Hne]; [by rewrite Hp|]. rewrite Hf by lia. apply IH; [lia|done|]. intros i Hi. apply Hf. lia.
Qed.

Lemma dscan_none p D n k : (∀ i, (k ≤ i < k + n)%nat → p (dent D i) = false) → dscan p D k n = None.
Proof.
  revert k. induction n as [|n IH]; intros k Hf; [done|]. cbn [dscan]. rewrite Hf by lia. apply IH. intros i Hi. apply Hf. lia.
Qed.

Lemma entry_length name inum : length (entry name inum) = 16%nat.
Proof. unfold entry. by rewrite length_app, strncpy_arr_length. Qed.

(** ** Adding an entry *)

Definition dir_ok (D : list Z) : Prop := (length D mod 16 = 0)%nat.

Lemma dslot_le D : (dslot D ≤ dlen D)%nat.
Proof.
  unfold dslot. destruct (dscan de_free D 0 (dlen D)) as [j|] eqn:E; [|done]. apply dscan_Some in E as (H & _). simpl. lia.
Qed.

Lemma dlen_length D : dir_ok D → length D = (16 * dlen D)%nat.
Proof. intros H. unfold dlen. rewrite (Nat.div_mod_eq (length D) 16) at 1. unfold dir_ok in H. lia. Qed.

Lemma dir_add_length name inum D : dir_ok D →
  length (dir_add name inum D) = (16 * (dlen D `max` S (dslot D)))%nat.
Proof.
  intros H. pose proof (dslot_le D) as Hle. pose proof (dlen_length D H) as Hl. unfold dir_add.
  rewrite splice_length by lia. rewrite entry_length. lia.
Qed.

Lemma dir_add_ok name inum D : dir_ok D → dir_ok (dir_add name inum D).
Proof. intros H. unfold dir_ok. rewrite dir_add_length by done. rewrite Nat.mul_comm. apply Nat.Div0.mod_mul. Qed.

Lemma dlen_add name inum D : dir_ok D → dlen (dir_add name inum D) = (dlen D `max` S (dslot D))%nat.
Proof. intros H. unfold dlen at 1. rewrite dir_add_length by done. rewrite Nat.mul_comm. by apply Nat.div_mul. Qed.

Lemma dent_add name inum D k :
  dir_ok D → (k < dlen D ∨ k = dslot D)%nat →
  dent (dir_add name inum D) k = if decide (k = dslot D) then entry name inum else dent D k.
Proof.
  intros H Hk. pose proof (dslot_le D) as Hle. pose proof (dlen_length D H) as Hl. unfold dir_add, splice, dent.
  rewrite entry_length. set (m := dslot D) in *. replace (Z.to_nat (Z.of_nat (16 * m))) with (16 * m)%nat by lia.
  assert (length (take (16 * m) D) = (16 * m)%nat) as Ht by (rewrite length_take; lia).
  unfold getbytes. case_decide as E.
  - subst k. rewrite drop_app_length' by done. rewrite take_app_length'; [done|symmetry; apply entry_length].
  - destruct (decide (k < m)%nat) as [Hlt|Hge].
    + rewrite drop_app_le by lia. rewrite take_app_le by (rewrite length_drop; lia).
      rewrite skipn_firstn_comm, take_take. f_equal. lia.
    + rewrite drop_app_ge by lia. rewrite drop_app_ge by (rewrite entry_length; lia). rewrite drop_drop, entry_length, Ht.
      f_equal. f_equal. lia.
Qed.

Lemma entry_fields name inum : 0 ≤ inum < 65536 → de_inum (entry name inum) = inum ∧ de_name (entry name inum) = strncpy_arr DIRSIZ name.
Proof.
  intros H. split; [|done]. unfold de_inum, geth, getbytes, entry. rewrite drop_0.
  change (to_le16 inum) with ([u8 inum; u8 (inum / 256)]). simpl take.
  change [u8 inum; u8 (inum / 256)] with (to_le16 inum). by apply le16_to_le16.
Qed.

Lemma de_match_name name name' de : name_str DIRSIZ name = name_str DIRSIZ name' → de_match name de = de_match name' de.
Proof.
  intros H. unfold de_match. f_equal. apply eq_true_iff_eq. rewrite !Z.eqb_eq, !namecmp_spec. by rewrite H.
Qed.

Lemma de_match_entry name name' inum : 0 < inum < 65536 →
  de_match name' (entry name inum) = bool_decide (name_str DIRSIZ name' = name_str DIRSIZ name).
Proof.
  intros H. destruct (entry_fields name inum ltac:(lia)) as [E1 E2]. unfold de_match, de_free. rewrite E1, E2.
  rewrite (proj2 (Z.eqb_neq inum 0)) by lia. cbn [negb andb]. apply eq_true_iff_eq.
  by rewrite Z.eqb_eq, namecmp_spec, name_strncpy, bool_decide_eq_true.
Qed.

Lemma dslot_free D name : dir_ok D → (dslot D < dlen D)%nat → de_match name (dent D (dslot D)) = false.
Proof.
  intros H Hlt. unfold dslot in *. destruct (dscan de_free D 0 (dlen D)) as [j|] eqn:E; simpl in *; [|lia].
  apply dscan_Some in E as (_ & Hp & _). unfold de_match. by rewrite Hp.
Qed.

(** dirlink binds the name, when it was not bound, and nothing else. *)
Lemma dir_get_add name inum D name' :
  dir_ok D → 0 < inum < 65536 → dfind name D = None →
  dir_get (dir_add name inum D) name' =
    if decide (name_str DIRSIZ name' = name_str DIRSIZ name) then Some inum else dir_get D name'.
Proof.
  intros Hok Hi Hnone. pose proof (dslot_le D) as Hle. unfold dir_get, dfind in *. rewrite dlen_add by done.
  set (m := dslot D) in *. set (n := (dlen D `max` S m)%nat).
  assert (dent (dir_add name inum D) m = entry name inum) as Hm by (rewrite dent_add by (done || lia); by rewrite decide_True).
  assert (∀ i, (i < dlen D)%nat → i ≠ m → dent (dir_add name inum D) i = dent D i) as Hother.
  { intros i Hlt Hne. rewrite dent_add by (done || lia). by rewrite decide_False. }
  case_decide as E.
  - rewrite (dscan_first _ _ n 0 m).
    + simpl. rewrite Hm. f_equal. apply entry_fields. lia.
    + lia.
    + rewrite Hm, de_match_entry by done. by apply bool_decide_true.
    + intros i Hlt. rewrite Hother by lia. rewrite (de_match_name name' name) by done.
      apply (dscan_None _ _ _ _ Hnone). lia.
  - assert (de_match name' (dent (dir_add name inum D) m) = false) as Hmf.
    { rewrite Hm, de_match_entry by done. by apply bool_decide_false. }
    destruct (dscan (de_match name') D 0 (dlen D)) as [j|] eqn:Ej.
    + apply dscan_Some in Ej as (J1 & J2 & J3).
      assert (j ≠ m) as Hjm by (intros ->; unfold m in *; rewrite dslot_free in J2 by (done || lia); done).
      rewrite (dscan_first _ _ n 0 j).
      * simpl. by rewrite Hother by lia.
      * lia.
      * by rewrite Hother by lia.
      * intros i Hlt. destruct (decide (i = m)) as [-> |Hne]; [done|]. rewrite Hother by lia. apply J3. lia.
    + rewrite dscan_none; [done|]. intros i Hlt. destruct (decide (i = m)) as [-> |Hne]; [done|].
      rewrite Hother by lia. apply (dscan_None _ _ _ _ Ej). lia.
Qed.

(** ** The kernel on a directory *)

Section dirs.
Context {T : Type} `{!TxStore T} (dr : Z → option (nat → Z → M (fstate T) (list Z * Z))).
Abbreviation st := (fstate T).
Implicit Types (s : st) (v : tview).

Lemma ic_quiet_t t s v : ic_quiet s → tx_rel t v → ic_quiet (set_t t s).
Proof. intros [H _] Ht. split; [exact H|]. exact (tx_rel_cpu _ _ Ht). Qed.

(** What the loops of directories read. *)
Lemma read_entry D k : (16 * k + 16 ≤ length D)%nat → Z.of_nat (length D) ≤ 71680 →
  file_read D (Z.of_nat (16 * k)) DIRENT = (dent D k, DIRENT).
Proof.
  intros H1 H2. unfold file_read. change DIRENT with 16. rewrite u32_small by (unfold is_u32; lia).
  rewrite !(proj2 (Z.ltb_ge _ _)) by lia. cbn [orb]. unfold dent, getbytes. rewrite Nat2Z.id. f_equal.
  rewrite length_take, length_drop. lia.
Qed.

Lemma wp_read_entry dp i k v s (Q : list Z * Z → st → Prop) :
  tx_rel (fs_t s) v → idle v → mapped (tv_cur v) i → i_type i ≠ T_DEV → ic_inode s !! dp = Some i →
  let D := fdata (tv_cur v) i in
  (16 * k + 16 ≤ length D)%nat →
  (∀ t, tx_rel t v → Q (dent D k, DIRENT) (set_t t s)) → wp (readi dr dp (Z.of_nat (16 * k)) DIRENT) Q s.
Proof.
  intros HR Hv Hm Hty Hi D Hk HQ. pose proof (fdata_length _ _ Hm) as Hl. fold D in Hl.
  pose proof (md_size _ _ Hm) as Hs. change (MAXFILE * BSZ) with 71680 in Hs.
  eapply (wp_readi dr dp _ DIRENT i v); [exact HR|done|done|done|done|unfold is_u32; lia|done|].
  intros t Ht. fold D. rewrite read_entry by lia. by apply HQ.
Qed.

Lemma wpe_dirlookup_loop dp i v name E : ∀ fuel k s (Q : option (nat * Z) → st → Prop),
  tx_rel (fs_t s) v → idle v → mapped (tv_cur v) i → i_type i ≠ T_DEV → ic_inode s !! dp = Some i →
  let D := fdata (tv_cur v) i in
  dir_ok D → (k ≤ dlen D)%nat → (dlen D - k < fuel)%nat →
  (∀ t, tx_rel t v → dscan (de_match name) D k (dlen D - k) = None → Q None (set_t t s)) →
  (∀ t j, tx_rel t v → dscan (de_match name) D k (dlen D - k) = Some j →
     wpe (ip ← iget 1 (de_inum (dent D j)); mret (Some (ip, Z.of_nat (16 * j)))) Q E (set_t t s)) →
  wpe (dirlookup_loop dr fuel dp name (Z.of_nat (16 * k))) Q E s.
Proof.
  induction fuel as [|fuel IH]; intros k s Q HR Hv Hm Hty Hi D Hok Hk Hf HN HS; [lia|].
  pose proof (dlen_length D Hok) as HlD. pose proof (fdata_length _ _ Hm) as Hl. fold D in Hl.
  cbn [dirlookup_loop]. apply wpe_bind. eapply wp_geti; [exact Hi|].
  destruct (decide (k = dlen D)) as [-> |Hne].
  { rewrite (proj2 (Z.ltb_ge _ _)) by lia. apply wpe_wp, wp_ret. rewrite Nat.sub_diag in HN.
    specialize (HN (fs_t s) HR eq_refl). by destruct s. }
  rewrite (proj2 (Z.ltb_lt _ _)) by lia. apply wpe_bind.
  eapply (wp_read_entry dp i k v); [exact HR|done|done|done|done|fold D; lia|]. fold D. intros t Ht. change (negb (DIRENT =? DIRENT)) with false. cbv iota.
  replace (dlen D - k)%nat with (S (dlen D - S k)) in HN, HS by lia. cbn [dscan] in HN, HS.
  replace (Z.of_nat (16 * k) + DIRENT) with (Z.of_nat (16 * S k)) by (change DIRENT with 16; lia).
  assert (de_match name (dent D k) = false → wpe (dirlookup_loop dr fuel dp name (Z.of_nat (16 * S k))) Q E (set_t t s)) as Hgo.
  { intros Hno. rewrite Hno in HN, HS. apply IH; [exact Ht|done|done|done|done|done|fold D; lia|fold D; lia|exact HN|exact HS]. }
  unfold de_match, de_free in Hgo, HN, HS.
  destruct (de_inum (dent D k) =? 0); [by apply Hgo|]. cbn [negb andb] in *.
  destruct (namecmp name (de_name (dent D k)) =? 0); [|by apply Hgo].
  rewrite (md_dev _ _ Hm). apply HS; [exact Ht|done].
Qed.

Lemma wp_dirempty_loop dp i v : ∀ fuel k s (Q : Z → st → Prop),
  tx_rel (fs_t s) v → idle v → mapped (tv_cur v) i → i_type i ≠ T_DEV → ic_inode s !! dp = Some i →
  let D := fdata (tv_cur v) i in
  dir_ok D → (k ≤ dlen D)%nat → (dlen D - k < fuel)%nat →
  (∀ t, tx_rel t v → Q (Z.of_nat (16 * default (dlen D) (dscan de_free D k (dlen D - k)))) (set_t t s)) →
  wp (dirempty_loop dr fuel dp (Z.of_nat (16 * k))) Q s.
Proof.
  induction fuel as [|fuel IH]; intros k s Q HR Hv Hm Hty Hi D Hok Hk Hf HQ; [lia|].
  pose proof (dlen_length D Hok) as HlD. pose proof (fdata_length _ _ Hm) as Hl. fold D in Hl.
  cbn [dirempty_loop]. wstep. eapply wp_geti; [exact Hi|]. destruct (decide (k = dlen D)) as [-> |Hne].
  { rewrite (proj2 (Z.ltb_ge _ _)) by lia. wstep. rewrite Nat.sub_diag in HQ. specialize (HQ (fs_t s) HR). by destruct s. }
  rewrite (proj2 (Z.ltb_lt _ _)) by lia. wstep.
  eapply (wp_read_entry dp i k v); [exact HR|done|done|done|done|fold D; lia|]. fold D. intros t Ht. change (negb (DIRENT =? DIRENT)) with false. cbv iota.
  replace (dlen D - k)%nat with (S (dlen D - S k)) in HQ by lia. cbn [dscan] in HQ. unfold de_free in HQ at 1.
  destruct (de_inum (dent D k) =? 0); [wstep; by apply HQ|].
  replace (Z.of_nat (16 * k) + DIRENT) with (Z.of_nat (16 * S k)) by (change DIRENT with 16; lia).
  apply IH; [exact Ht|done|done|done|done|done|fold D; lia|fold D; lia|exact HQ].
Qed.

(** What dirlookup leaves: nothing but the reference iget took. *)
Definition found s v (D : list Z) (k : nat) (r : option (nat * Z)) (s' : st) : Prop :=
  ∃ ip a a', r = Some (ip, Z.of_nat (16 * k)) ∧ ic_inode s !! ip = Some a ∧ ic_inode s' = <[ip := a']> (ic_inode s) ∧
    gotten 1 (de_inum (dent D k)) a a' ∧ ic_uniq (ic_inode s') ∧ ic_quiet s' ∧ tx_rel (fs_t s') v ∧
    fs_sb s' = fs_sb s ∧ fs_cwd s' = fs_cwd s.

Definition no_inodes s (dev inum : Z) : Prop := ∀ j a, ic_inode s !! j = Some a → ¬ cached dev inum a ∧ i_ref a ≠ 0.

Lemma wpe_dirlookup dp i v name s (Q : option (nat * Z) → st → Prop) (E : string → Prop) :
  tx_rel (fs_t s) v → idle v → mapped (tv_cur v) i → i_type i = T_DIR → ic_inode s !! dp = Some i →
  ic_quiet s → ic_uniq (ic_inode s) →
  let D := fdata (tv_cur v) i in
  dir_ok D →
  (dfind name D = None → ∀ t, tx_rel t v → Q None (set_t t s)) →
  (∀ k, dfind name D = Some k → ∀ r s', found s v D k r s' → Q r s') →
  (∀ k, dfind name D = Some k → no_inodes s 1 (de_inum (dent D k)) → E "iget: no inodes") →
  wpe (dirlookup dr dp name) Q E s.
Proof.
  intros HR Hv Hm Hty Hi Hq Hu D Hok HN HS HE. unfold dirlookup. apply wpe_bind. eapply wp_geti; [exact Hi|].
  rewrite Hty. change (negb (T_DIR =? T_DIR)) with false. cbv iota.
  pose proof (dlen_length D Hok) as HlD. pose proof (fdata_length _ _ Hm) as Hl. fold D in Hl.
  unfold dfind in *. change 0 with (Z.of_nat (16 * 0)) at 1.
  eapply (wpe_dirlookup_loop dp i v); [exact HR|done|done|by rewrite Hty|done|done|lia| |..]; fold D; rewrite ?Nat.sub_0_r.
  { rewrite <- Hl. change DIRENT with 16. rewrite HlD. replace (Z.of_nat (16 * dlen D) / 16) with (Z.of_nat (dlen D)) by zdm. lia. }
  - intros t Ht Hs. by apply HN.
  - intros t j Ht Hs. apply wpe_bind_e. eapply wpe_iget; [by eapply ic_quiet_t|exact Ht|exact Hu| |].
    + intros ip a a' s' H1 H2 H3 H4 H5 H6 H7 H8. apply wpe_wp, wp_ret. eapply HS; [exact Hs|].
      exists ip, a, a'. split_and!; try done.
    + intros Hall. eapply HE; [exact Hs|exact Hall].
Qed.

(** iput of a reference that does not drop the file. *)
Lemma wp_iput_ref k a v s (Q : unit → st → Prop) :
  ic_quiet s → tx_rel (fs_t s) v → ic_inode s !! k = Some a →
  ¬ (i_ref a = 1 ∧ Z.land (i_flags a) I_VALID ≠ 0 ∧ i_nlink a = 0) →
  (∀ s', ic_inode s' = <[k := w_ref (i_ref a - 1) a]> (ic_inode s) → ic_quiet s' → tx_rel (fs_t s') v →
     fs_sb s' = fs_sb s → fs_cwd s' = fs_cwd s → Q tt s') → wp (iput k) Q s.
Proof.
  intros Hq HR Hk Hn HQ. unfold iput. wstep. apply wp_acquire; [apply _..|done|].
  wstep. eapply wp_geti; [exact Hk|].
  assert ((i_ref a =? 1) && negb (Z.land (i_flags a) I_VALID =? 0) && (i_nlink a =? 0) = false) as ->.
  { apply not_true_iff_false. rewrite !andb_true_iff, negb_true_iff, !Z.eqb_eq, Z.eqb_neq. tauto. }
  wstep. wstep. wstep. eapply wp_updi; [exact Hk|].
  set (t := set_inodes _ _). eapply (wp_release fs_cpu iclk _ s); [done|done|done|].
  apply HQ; try done.
  - by apply leave_quiet; [apply _..|].
  - unfold leave. simpl. apply tx_rel_setcpu.
    + simpl. apply tx_rel_setcpu; [done|]. apply pushed_ok. apply Hq.
    + destruct (leave_quiet fs_cpu iclk s t Hq) as [_ Hc]. unfold leave in Hc. simpl in Hc.
      by rewrite lget_lput in Hc.
Qed.


(** ** dirlink *)

(** An open directory. *)
Definition dir_open (sb : superblock) (v : tview) (i : inode) : Prop :=
  file_open sb v i ∧ i_type i = T_DIR ∧ dir_ok (fdata (tv_cur v) i).

(** Entries of the inode cache in use are as they were. *)
Definition ic_kept (l l' : list inode) : Prop :=
  length l' = length l ∧ ∀ j a, l !! j = Some a → 0 < i_ref a → l' !! j = Some a.

(** The directory has become [dir_add name inum D], and nothing else changed
    but blocks that were free and the inode's own. *)
Definition linked (dp : nat) (i : inode) s v (name : list Z) (inum : Z) (s' : st) : Prop :=
  ∃ v' i' t, s' = set_inodes (<[dp := i']> (ic_inode s)) (set_t t s) ∧ tx_rel t v' ∧ dir_open (fs_sb s) v' i' ∧
    i' = w_size (i_size i') (w_addrs (i_addrs i') i) ∧ idle v' ∧
    fdata (tv_cur v') i' = dir_add name inum (fdata (tv_cur v) i) ∧
    (∀ y, 0 ≤ y < sb_size (fs_sb s) → used v (fs_sb s) y = true → y ≠ sb_bmapstart (fs_sb s) →
       y ∉ owns (tv_cur v) (i_addrs i) (nblk (i_size i)) → y ≠ IBLOCK (i_inum i) (fs_sb s) →
       blk (tv_cur v') y = blk (tv_cur v) y).

(** How dirlink can fail: no entry in the inode cache, no block, a full directory. *)
Definition link_fails s (D name : list Z) (msg : string) : Prop :=
  (∃ k, dfind name D = Some k ∧ no_inodes s 1 (de_inum (dent D k)) ∧ msg = "iget: no inodes"%string) ∨
  out_of_blocks msg ∨
  (dfind name D = None ∧ dslot D = dlen D ∧ Z.of_nat (length D) + DIRENT > MAXFILE * BSZ ∧ msg = "dirlink"%string).

Lemma gotten_put a a' dev inum :
  gotten dev inum a a' →
  ¬ (i_ref a' = 1 ∧ Z.land (i_flags a') I_VALID ≠ 0 ∧ i_nlink a' = 0) ∧
  (0 < i_ref a → w_ref (i_ref a' - 1) a' = a).
Proof.
  intros [[(H1 & H2 & H3) ->]|[H1 ->]]; simpl.
  - split; [lia|]. intros _. replace (i_ref a + 1 - 1) with (i_ref a) by lia. by destruct a.
  - split; [|lia]. intros (_ & H & _). by apply H.
Qed.

Lemma wpe_dirlink dw dp i v name inum s :
  let D := fdata (tv_cur v) i in
  dir_open (fs_sb s) v i → tx_rel (fs_t s) v → ic_inode s !! dp = Some i → ic_quiet s → ic_uniq (ic_inode s) →
  (budget (fs_sb s) v (i_addrs i) + 7 ≤ tv_cap v)%nat →
  wpe (dirlink dr dw dp name inum)
    (λ r s', match dfind name D with
             | Some _ => r = -1 ∧ tx_rel (fs_t s') v ∧ ic_kept (ic_inode s) (ic_inode s')
             | None => r = 0 ∧ linked dp i s v name inum s'
             end) (link_fails s D name) s.
Proof.
  intros D (Ho & Hty & Hok) HR Hi Hq Hu Hb. fold D in Hok. pose proof (open_mapped _ _ _ Ho) as Hm.
  pose proof (of_fs _ _ _ Ho) as Hfs. pose proof (fo_cap _ _ Hfs) as Hcap.
  pose proof (budget_log (fs_sb s) v (i_addrs i)) as Hbl.
  assert (idle v) as Hv by (split; [apply Hfs|lia]).
  pose proof (dlen_length D Hok) as HlD. pose proof (fdata_length _ _ Hm) as Hl. fold D in Hl.
  unfold dirlink. apply wpe_bind_e. eapply (wpe_dirlookup dp i v name); [exact HR|done|done|done|done|done|done|exact Hok|..]; fold D.
  - intros Hnone t Ht. rewrite Hnone. apply wpe_bind. eapply wp_geti; [exact Hi|]. apply wpe_bind.
    change 0 with (Z.of_nat (16 * 0)) at 1.
    eapply (wp_dirempty_loop dp i v); [exact Ht|done|done|by rewrite Hty|exact Hi|exact Hok|lia| |]; fold D.
    { rewrite <- Hl. change DIRENT with 16. rewrite HlD. replace (Z.of_nat (16 * dlen D) / 16) with (Z.of_nat (dlen D)) by zdm. lia. }
    rewrite Nat.sub_0_r. fold (dslot D). intros t2 Ht2. pose proof (dslot_le D) as Hle. fold (entry name inum).
    apply wpe_bind_e. change DIRENT with (Z.of_nat 16) at 1. rewrite <- (entry_length name inum) at 2.
    pose proof (of_size _ _ _ Ho) as Hsz. change (MAXFILE * BSZ) with 71680 in Hsz.
    eapply wpe_mono; [apply (wpe_writei dw dp i v (set_t t2 s) (Z.of_nat (16 * dslot D)) (entry name inum))| |by right; left].
    + exact Ho.
    + exact Ht2.
    + exact Hi.
    + unfold is_u32. lia.
    + rewrite entry_length. done.
    + rewrite entry_length. change (Z.to_nat (Z.of_nat 16 / BSZ)) with 0%nat. simpl fs_sb. lia.
    + rewrite entry_length. intros r s' [(-> & H1 & H2 & Hd)|(-> & -> & Hno)].
      * change (negb (Z.of_nat 16 =? DIRENT)) with false. cbv iota. apply wpe_wp, wp_ret. split; [done|].
        destruct Hd as (v' & i' & t3 & -> & Ht3 & Ho' & Hi' & Hs' & Hd & Hoth & _ & _ & Hlog). fold D in Hd.
        exists v', i', t3. split_and!; try done.
        -- split_and!; [exact Ho'|rewrite Hi'; exact Hty|rewrite Hd; by apply dir_add_ok].
        -- split; [apply (fo_held _ _ (of_fs _ _ _ Ho'))|].
           rewrite entry_length in Hlog. change (Z.to_nat (Z.of_nat 16 / BSZ)) with 0%nat in Hlog. simpl in Hlog. lia.
      * change (negb (-1 =? DIRENT)) with true. cbv iota. right. right. split; [done|].
        change (MAXFILE * BSZ) with 71680 in *. change DIRENT with 16.
        split; [|split; [lia|done]]. destruct (decide (dslot D = dlen D)) as [|Hne]; [done|]. exfalso. apply Hno. lia.
  - intros k Hk r s' (ip & a & a' & -> & H1 & H2 & H3 & H4 & H5 & H6 & H7 & H8). rewrite Hk.
    apply wpe_wp. wstep. destruct (gotten_put _ _ _ _ H3) as [Hp Hback].
    pose proof (lookup_lt_Some _ _ _ H1) as Hlt.
    eapply (wp_iput_ref ip a' v); [done|exact H6|by rewrite H2, list_lookup_insert_eq|done|].
    intros s2 E1 E2 E3 E4 E5. wstep. split_and!; [done|done|]. rewrite E1, H2, list_insert_insert_eq.
    split; [apply length_insert|]. intros j b Hj Hr. destruct (decide (j = ip)) as [-> |Hne].
    + rewrite list_lookup_insert_eq by done. rewrite H1 in Hj. injection Hj as ->. by rewrite Hback.
    + by rewrite list_lookup_insert_ne.
  - intros k Hk Hall. left. by exists k.
Qed.
End dirs.

(** ** Properties *)

(** dirlookup finds a name exactly when the directory binds it: it
    returns the first entry in use with that name, with its offset and a
    reference to its inode from iget, and no name is found where there is
    none; disk, transaction and every other entry of the inode cache stay
    as they were, and it panics only when iget has no entry left. *)
Theorem dirlookup_spec {T} `{!TxStore T} dr dp i v name (s : fstate T) :
  let D := fdata (tv_cur v) i in
  tx_rel (fs_t s) v → idle v → mapped (tv_cur v) i → i_type i = T_DIR → ic_inode s !! dp = Some i →
  ic_quiet s → ic_uniq (ic_inode s) → dir_ok D →
  wpe (dirlookup dr dp name)
    (λ r s', match dfind name D with
             | None => dir_get D name = None ∧ r = None ∧ ∃ t, s' = set_t t s ∧ tx_rel t v
             | Some k => dir_get D name = Some (de_inum (dent D k)) ∧ found s v D k r s'
             end)
    (λ msg, msg = "iget: no inodes"%string ∧ ∃ inum, dir_get D name = Some inum ∧ no_inodes s 1 inum) s.
Proof.
  intros D HR Hv Hm Hty Hi Hq Hu Hok. eapply (wpe_dirlookup dr dp i v name); try done; fold D; unfold dir_get.
  - intros -> t Ht. split_and!; [done|done|]. by exists t.
  - intros k -> r s' Hf. by split.
  - intros k -> Hall. split; [done|]. by eexists.
Qed.

(** [C20] dirlink binds a name that is not bound and changes nothing else:
    after it every name has the inode it had, the new one the given inode,
    whether an empty entry is reused or the directory grows; no block of
    another file has changed.  When the name exists it returns -1 with disk
    and inode cache as before.  It panics only when no entry of the inode
    cache, no block or no room in the directory is left. *)
Theorem dirlink_spec {T} `{!TxStore T} dr dw dp i v name inum (s : fstate T) :
  let D := fdata (tv_cur v) i in
  dir_open (fs_sb s) v i → tx_rel (fs_t s) v → ic_inode s !! dp = Some i → ic_quiet s → ic_uniq (ic_inode s) →
  (budget (fs_sb s) v (i_addrs i) + 7 ≤ tv_cap v)%nat → 0 < inum < 65536 →
  wpe (dirlink dr dw dp name inum)
    (λ r s', match dir_get D name with
             | Some _ => r = -1 ∧ tx_rel (fs_t s') v ∧ ic_kept (ic_inode s) (ic_inode s')
             | None => r = 0 ∧ linked dp i s v name inum s' ∧
                 ∀ name', dir_get (dir_add name inum D) name' =
                   if decide (name_str DIRSIZ name' = name_str DIRSIZ name) then Some inum else dir_get D name'
             end) (link_fails s D name) s.
Proof.
  intros D Ho HR Hi Hq Hu Hb Hin. eapply wpe_mono; [by apply (wpe_dirlink dr dw dp i v name inum s)| |done].
  fold D. unfold dir_get at 1. intros r s' H. destruct (dfind name D) as [k|] eqn:E; [done|]. destruct H as [-> H].
  split_and!; [done|done|]. intros name'. apply dir_get_add; [apply Ho|done|done].
Qed.

(** What dirlink has bound, dirlookup finds. *)
Theorem dirlink_dirlookup {T} `{!TxStore T} dr dw dp i v name inum (s : fstate T) :
  let D := fdata (tv_cur v) i in
  dir_open (fs_sb s) v i → tx_rel (fs_t s) v → ic_inode s !! dp = Some i → ic_quiet s → ic_uniq (ic_inode s) →
  (budget (fs_sb s) v (i_addrs i) + 7 ≤ tv_cap v)%nat → 0 < inum < 65536 → 0 < i_ref i → dir_get D name = None →
  wpe (dirlink dr dw dp name inum ;; dirlookup dr dp name)
    (λ r s', ∃ ip off a, r = Some (ip, off) ∧ ic_inode s' !! ip = Some a ∧ i_dev a = 1 ∧ i_inum a = inum)
    (λ msg, link_fails s D name msg ∨ msg = "iget: no inodes"%string) s.
Proof.
  intros D Ho HR Hi Hq Hu Hb Hin Hpos Hnone. apply wpe_bind_e.
  eapply wpe_mono; [by apply (wpe_dirlink dr dw dp i v name inum s)| |by left]. fold D.
  assert (dfind name D = None) as Hf by (unfold dir_get in Hnone; by destruct (dfind name D)). rewrite Hf.
  intros r s' (_ & v' & i' & t & -> & Ht & (Ho' & Hty' & Hok') & Hi' & Hv' & Hd & _).
  pose proof (lookup_lt_Some _ _ _ Hi) as Hlt.
  assert (dir_get (fdata (tv_cur v') i') name = Some inum) as Hget.
  { rewrite Hd, dir_get_add by (try done; apply Ho). by rewrite decide_True. }
  eapply (wpe_dirlookup dr dp i' v' name); [exact Ht|done|by eapply open_mapped|done|by apply list_lookup_insert_eq| | |done|..].
  - destruct Hq as [Hq _]. split; [exact Hq|]. exact (tx_rel_cpu _ _ Ht).
  - simpl. eapply ic_uniq_insert; [done|exact Hi|]. rewrite Hi'. simpl. intros j b Hj Hbj (C1 & C2 & C3).
    apply Hj. by apply (Hu j dp b i Hbj Hi).
  - intros Hno. unfold dir_get in Hget. by rewrite Hno in Hget.
  - intros k Hk r' s'' (ip & a & a' & -> & H1 & H2 & H3 & _). unfold dir_get in Hget. rewrite Hk in Hget. injection Hget as Hget.
    rewrite Hget in H3. exists ip, (Z.of_nat (16 * k)), a'. split; [done|].
    rewrite H2, list_lookup_insert_eq by by eapply lookup_lt_Some. split; [done|].
    destruct H3 as [[(G1 & G2 & G3) ->]|[_ ->]]; done.
  - by right.
Qed.

(** ** Witnesses *)

(** A directory of three entries: ., an empty one and a file c. *)
Definition dir_bytes : list Z := entry [46] 3 ++ replicate 16 0 ++ entry [99] 5.
Definition dir_disk : list block := <[34%nat := dir_bytes ++ replicate 464 0]> fs_disk.
Definition inode_d : inode := mkInode 1 3 1 3 T_DIR 0 0 1 48 (34 :: replicate 12 0).
Definition fs_d : fstate (bstate * logst) :=
  mkFs (mkBst cpu0 (initlock "bcache" lock0) (binit_bufs []) dir_disk [] [], wl0) fs_sb0 lock0
    (<[7%nat := inode_d]> (replicate NINODE inode0)) [] 0.
Definition fs_dv : tview := mkTv dir_disk ∅ ∅ ∅ 29.

Lemma fs_d_rel : tx_rel (fs_t fs_d) fs_dv.
Proof. apply boot_rel. Qed.

Lemma fs_d_open : dir_open fs_sb0 fs_dv inode_d.
Proof.
  assert (Forall (λ b : block, length b = BSIZE) dir_disk) as Hbl.
  { apply Forall_insert; [apply fs_w_blocks|by vm_compute]. }
  split; [|split; [done|by vm_compute]]. split; try done.
  - split; try done; try (by vm_compute).
  - split; unfold is_i16, is_u32; simpl; try lia; [done|].
    repeat (apply Forall_cons_2; [unfold is_u32; lia|]). apply Forall_nil_2.
  - split.
    + split; [done|vm_compute; lia| |vm_compute; lia|done]. intros k Hk. replace k with 0%nat by (vm_compute in Hk; lia). by vm_compute.
    + intros k Hk. change (nblk (i_size inode_d)) with 1%nat in Hk. unfold baddr. case_if; [|done].
      by do 12 (destruct k as [|k]; [done||lia|]).
    + done.
    + apply NoDup_singleton.
    + intros x Hx. apply list_elem_of_singleton in Hx as ->. split_and!; [done|done|by vm_compute|done].
  - change (IBLOCK (i_inum inode_d) fs_sb0 ∉ [34]). rewrite list_elem_of_singleton. by vm_compute.
Qed.

Lemma fs_d_uniq : ic_uniq (ic_inode fs_d).
Proof.
  assert (∀ j a, ic_inode fs_d !! j = Some a → 0 < i_ref a → j = 7%nat) as H.
  { intros j a. change (ic_inode fs_d) with (<[7%nat := inode_d]> (replicate NINODE inode0)). rewrite lookup_insert_case by (rewrite length_replicate; unfold NINODE; lia).
    case_decide; [done|]. intros Hj. apply lookup_replicate in Hj as [-> _]. done. }
  intros i j a b Hi Hj (Hc & _) Hr. by rewrite (H i a Hi Hc), (H j b Hj Hr).
Qed.

Lemma fs_d_free : ¬ no_inodes fs_d 1 5.
Proof. intros H. by destruct (H 0%nat inode0 eq_refl) as [_ []]. Qed.

Lemma dirlookup_spec_witness :
  wpe (dirlookup (λ _, None) 7 [99]) (λ r _, ∃ ip, r = Some (ip, 32)) (λ _, False) fs_d.
Proof.
  eapply wpe_mono; [apply (dirlookup_spec (λ _, None) 7 inode_d fs_dv [99] fs_d)|..].
  - exact fs_d_rel.
  - split; [done|vm_compute; lia].
  - apply (open_mapped _ _ _ (proj1 fs_d_open)).
  - reflexivity.
  - reflexivity.
  - split; [done|by vm_compute].
  - exact fs_d_uniq.
  - apply fs_d_open.
  - intros r s' H. change (dfind [99] (fdata (tv_cur fs_dv) inode_d)) with (Some 2%nat) in H.
    destruct H as (_ & ip & a & a' & -> & _). by exists ip.
  - intros msg (_ & inum & H & Hall). vm_compute in H. injection H as <-. by apply fs_d_free.
Defined.

Lemma dirlink_spec_witness :
  wpe (dirlink (λ _, None) (λ _, None) 7 [100] 6)
    (λ r s', r = 0 ∧ ∃ v' i' t, s' = set_inodes (<[7%nat := i']> (ic_inode fs_d)) (set_t t fs_d) ∧
       fdata (tv_cur v') i' = entry [46] 3 ++ entry [100] 6 ++ entry [99] 5) out_of_blocks fs_d.
Proof.
  eapply wpe_mono; [apply (dirlink_spec (λ _, None) (λ _, None) 7 inode_d fs_dv [100] 6 fs_d)|..].
  - exact fs_d_open.
  - exact fs_d_rel.
  - reflexivity.
  - split; [done|by vm_compute].
  - exact fs_d_uniq.
  - vm_compute. lia.
  - lia.
  - intros r s' H. change (dir_get (fdata (tv_cur fs_dv) inode_d) [100]) with (@None Z) in H.
    destruct H as (-> & (v' & i' & t & -> & _ & _ & _ & _ & Hd & _) & _). split; [done|]. exists v', i', t.
    split; [done|]. rewrite Hd. vm_compute. reflexivity.
  - intros msg [(k & Hk & _)|[H|(_ & Hs & _)]]; [vm_compute in Hk; discriminate|exact H|vm_compute in Hs; discriminate].
Defined.
