(* ===== verification/Inode.v ===== *)
(** * The life of an inode (ialloc, itrunc and iput of xv6/fs.c)

    ialloc takes the first inode that is free on the disk.  itrunc gives back
    exactly the blocks of a file, direct, indirect and the indirect block
    itself, each once; iput drops a reference, and with the last reference to
    a file without a name the file. *)

From stdpp Require Import gmap list.
From S2P Require Import Prelude Kernel Spinlock CString Block Bio Log Tx Fs Layout Contents Dir.
Local Open Scope Z_scope.

(** ** Freeing blocks *)

(** The superblock on the disk is the one in memory, and not the bitmap. *)
Definition sb_disk (sb : superblock) (v : tview) : Prop :=
  (∃ d, tv_cur v !! 1%nat = Some d ∧ sb_of d = sb) ∧ sb_bmapstart sb ≠ 1.

Definition t_frees (sb : superblock) (bs : list Z) (v : tview) : tview := foldl (λ v b, t_free sb b v) v bs.

Lemma t_frees_app sb bs cs v : t_frees sb (bs ++ cs) v = t_frees sb cs (t_frees sb bs v).
Proof. apply foldl_app. Qed.

(** What bfree does to the blocks. *)
Lemma free_view sb v b :
  fsok sb v → sb_disk sb v → taken sb v b → b ≠ 0 →
  let v' := t_free sb b v in
  fsok sb v' ∧ sb_disk sb v' ∧ frame [sb_bmapstart sb] (tv_cur v) (tv_cur v') ∧
  (∀ c, 0 ≤ c < sb_size sb → used v' sb c = negb (c =? b) && used v sb c) ∧
  tv_log v' = {[sb_bmapstart sb]} ∪ tv_log v ∧ tv_cap v' = tv_cap v.
Proof.
  intros Hf [(d1 & Hd1 & Hsb) Hb1] (Hr & Hu & Hne) Hb0 v'. pose proof Hf as [H1 H2 H3 H4 H0 H5 H6 H7].
  pose proof (fsok_bmap_ok _ _ Hf) as Hk. pose proof (fsok_range _ _ _ Hf H3) as R2.
  assert (∀ c, 0 ≤ c < sb_size sb → used v' sb c = negb (c =? b) && used v sb c) as Hu' by (intros; by apply used_free).
  unfold v', t_free in *. clear v'. rewrite BBLOCK_one in * by lia. cbv zeta in *.
  set (d' := <[(_ / 8)%nat := _]> _) in *. assert (length d' = BSIZE) as Hd'.
  { unfold d', block. rewrite length_insert. exact (blk_length (tv_cur v) _ H5 R2). }
  split_and!; [split|split|by apply frame_insert|exact Hu'|done|done]; try done.
  - unfold tv_len in *. simpl. by rewrite length_insert.
  - rewrite Hu' by lia. rewrite (proj2 (Z.eqb_neq _ _)) by done. done.
  - rewrite Hu' by lia. rewrite (proj2 (Z.eqb_neq _ _)) by done. done.
  - simpl. by apply Forall_insert.
  - exists d1. split; [|done]. simpl. rewrite list_lookup_insert_ne; [done|]. lia.
Qed.

(** Blocks that can be given back: in use, each named once. *)
Definition freeable (sb : superblock) (v : tview) (bs : list Z) : Prop :=
  NoDup bs ∧ ∀ b, b ∈ bs → taken sb v b ∧ b ≠ 0.

Record freed (sb : superblock) (bs : list Z) (v v' : tview) : Prop := {
  fd_fs : fsok sb v';
  fd_sb : sb_disk sb v';
  fd_frame : frame [sb_bmapstart sb] (tv_cur v) (tv_cur v');
  fd_used c : 0 ≤ c < sb_size sb → used v' sb c = bool_decide (c ∉ bs) && used v sb c;
  fd_log : tv_log v' ⊆ {[sb_bmapstart sb]} ∪ tv_log v;
  fd_cap : tv_cap v' = tv_cap v;
}.

Lemma frame_twice X cur cur' cur'' : frame X cur cur' → frame X cur' cur'' → frame X cur cur''.
Proof. intros [L1 F1] [L2 F2]. split; [congruence|]. intros x Hx Hn. by rewrite F2, F1. Qed.

Lemma frees_view sb bs v : fsok sb v → sb_disk sb v → freeable sb v bs → freed sb bs v (t_frees sb bs v).
Proof.
  revert v. induction bs as [|b bs IH]; intros v Hf Hs [Hn Ht].
  { split; try done. simpl. set_solver. }
  apply NoDup_cons in Hn as [Hb Hn]. destruct (Ht b) as [Htb Hb0]; [by left|].
  destruct (free_view sb v b Hf Hs Htb Hb0) as (F1 & F2 & F3 & F4 & F5 & F6).
  destruct (IH (t_free sb b v)) as [G1 G2 G3 G4 G5 G6]; [done|done| |].
  { split; [done|]. intros c Hc. destruct (Ht c) as [(T1 & T2 & T3) Hc0]; [by right|].
    split; [|done]. split_and!; [lia|lia| |done]. rewrite F4, T2 by lia.
    rewrite (proj2 (Z.eqb_neq c b)) by congruence. done. }
  change (t_frees sb (b :: bs) v) with (t_frees sb bs (t_free sb b v)).
  split; [done|done|by eapply frame_twice| |set_solver|congruence].
  intros c Hc. rewrite G4, F4 by done. destruct (Z.eqb_spec c b) as [->|Hcb]; cbn [negb andb].
  - rewrite andb_false_r. rewrite (bool_decide_eq_false_2 (b ∉ b :: bs)) by (intros H; apply H; by left). done.
  - rewrite (bool_decide_ext (c ∉ bs) (c ∉ b :: bs)); [done|]. rewrite not_elem_of_cons. tauto.
Qed.

(** ** A buffer held while blocks are freed *)

Definition held (h : option (nat * Z)) (v : tview) : tview :=
  match h with None => v | Some (i, x) => t_hold i x v end.

Definition hold_ok (sb : superblock) (h : option (nat * Z)) (v : tview) : Prop :=
  match h with None => True | Some (i, x) => taken sb v x ∧ x ≠ 1 end.

Lemma held_free sb b h v : t_free sb b (held h v) = held h (t_free sb b v).
Proof. by destruct h as [[i x]|]. Qed.

Lemma held_used sb h v b : used (held h v) sb b = used v sb b.
Proof. by destruct h as [[i x]|]. Qed.

(** The room freeing takes: the bitmap block, and one more. *)
Definition free_room (sb : superblock) (v : tview) : Prop :=
  (size ({[sb_bmapstart sb]} ∪ tv_log v) + 2 ≤ tv_cap v)%nat.

Lemma freed_room sb bs v v' : freed sb bs v v' → free_room sb v → free_room sb v'.
Proof.
  unfold free_room. intros [_ _ _ _ Hl Hc] H. rewrite Hc.
  assert (size ({[sb_bmapstart sb]} ∪ tv_log v') ≤ size ({[sb_bmapstart sb]} ∪ tv_log v))%nat; [|lia].
  apply subseteq_size. set_solver.
Qed.

Lemma room_log sb v : free_room sb v → (size (tv_log v) + 2 ≤ tv_cap v)%nat.
Proof.
  unfold free_room. intros H. assert (size (tv_log v) ≤ size ({[sb_bmapstart sb]} ∪ tv_log v))%nat; [|lia].
  apply subseteq_size. set_solver.
Qed.

Lemma freed_hold sb bs h v v' : freed sb bs v v' → hold_ok sb h v →
  (∀ i x, h = Some (i, x) → x ∉ bs) → hold_ok sb h v'.
Proof.
  intros Hf. destruct h as [[i x]|]; [|done]. intros [(H1 & H2 & H3) H4] Hn. split; [|done].
  split_and!; [lia|lia| |done]. rewrite (fd_used _ _ _ _ Hf), H2 by done.
  rewrite bool_decide_eq_true_2; [done|]. by eapply Hn.
Qed.

Section free.
Context {T : Type} `{!TxStore T}.
Abbreviation st := (fstate T).
Implicit Types (s : st) (v : tview).

Lemma held_bmap_ok sb h v : fsok sb v → hold_ok sb h v → bmap_ok sb (held h v).
Proof. intros Hf. destruct h as [[i x]|]; [|intros _; by apply fsok_bmap_ok]. intros [(H1 & H2 & H3) _]. by apply bmap_ok_hold. Qed.

Lemma held_size h v : tv_held v = ∅ → (size (tv_held (held h v)) ≤ 1)%nat.
Proof.
  intros He. destruct h as [[i x]|]; simpl; rewrite He; [|change (size ∅) with 0%nat; lia].
  rewrite map_size_insert_None by done. rewrite map_size_empty. lia.
Qed.

(** bfree of a block in use, whatever other block is held. *)
Lemma wp_free_block s v h b (Q : unit → st → Prop) :
  fsok (fs_sb s) v → sb_disk (fs_sb s) v → hold_ok (fs_sb s) h v → free_room (fs_sb s) v →
  tx_rel (fs_t s) (held h v) → taken (fs_sb s) v b →
  (∀ t, tx_rel t (held h (t_free (fs_sb s) b v)) → Q tt (set_t t s)) → wp (bfree 1 b) Q s.
Proof.
  intros Hf Hs Hh Hr HR (Hb & Hu & _) HQ. pose proof Hs as [(d & Hd & Hsb) Hb1].
  pose proof (room_log _ _ Hr) as Hlog. pose proof (fo_cap _ _ Hf) as Hcap.
  pose proof (held_size h v (fo_held _ _ Hf)) as Hsz.
  assert (tv_cur (held h v) !! 1%nat = Some d) as Hd' by by destruct h as [[i x]|].
  assert (tv_log (held h v) = tv_log v ∧ tv_cap (held h v) = tv_cap v ∧ tv_len (held h v) = tv_len v) as (El & Ec & En)
    by by destruct h as [[i x]|].
  assert (readable (held h v) 1) as H1.
  { split_and!; [lia|rewrite En; unfold tv_len; apply lookup_lt_Some in Hd; lia| |right; rewrite El; lia].
    intros i. destruct h as [[j x]|]; simpl; rewrite (fo_held _ _ Hf); [|done].
    destruct (decide (i = j)) as [->|Hne]; [rewrite lookup_insert_eq; destruct Hh; congruence|by rewrite lookup_insert_ne]. }
  assert (tx_room 2 (held h v)) as Hroom by (unfold tx_room; rewrite El, Ec; lia).
  pose proof (held_bmap_ok _ h v Hf Hh) as Hk. rewrite <- Hsb in Hk, Hb.
  pose proof (wp_bfree s (held h v) d b HR Hk Hroom H1 Hd' Hb) as Hw. cbv zeta in Hw. rewrite Hsb, held_used, Hu in Hw.
  unfold wp, wpe in *. destruct (bfree 1 b s) as [[] s'|msg| | |]; try done; [|by destruct Hw].
  destruct Hw as (_ & t & -> & Ht). rewrite held_free in Ht. apply HQ in Ht. by destruct s.
Qed.
End free.

(** ** The loops of itrunc *)

(** The addresses that are there. *)
Definition nz (l : list Z) : list Z := filter (λ x, x ≠ 0) l.

Lemma nz_zero l : nz (0 :: l) = nz l.
Proof. done. Qed.
Lemma nz_cons x l : x ≠ 0 → nz (x :: l) = x :: nz l.
Proof. intros H. unfold nz. by rewrite filter_cons_True. Qed.

Lemma freeable_cons sb v b bs : freeable sb v (b :: bs) → taken sb v b ∧ b ≠ 0 ∧ b ∉ bs ∧ freeable sb v bs.
Proof.
  intros [Hn Ht]. apply NoDup_cons in Hn as [Hb Hn]. destruct (Ht b) as [H1 H2]; [by left|].
  split_and!; [done|done|done|]. split; [done|]. intros c Hc. apply Ht. by right.
Qed.

Lemma freed_taken sb bs v v' c : freed sb bs v v' → taken sb v c → c ∉ bs → taken sb v' c.
Proof.
  intros Hf (H1 & H2 & H3) Hc. split_and!; [lia|lia| |done]. rewrite (fd_used _ _ _ _ Hf), H2 by done.
  by rewrite bool_decide_eq_true_2.
Qed.

Lemma freed_freeable sb bs cs v v' : freed sb bs v v' → freeable sb v (bs ++ cs) → freeable sb v' cs.
Proof.
  intros Hf [Hn Ht]. apply NoDup_app in Hn as (_ & Hd & Hn). split; [done|]. intros c Hc.
  destruct (Ht c) as [H1 H2]; [apply elem_of_app; by right|]. split; [|done].
  eapply freed_taken; [done|done|]. intros Hcb. by apply (Hd c).
Qed.

Lemma freeable_l sb bs cs v : freeable sb v (bs ++ cs) → freeable sb v bs.
Proof.
  intros [Hn Ht]. apply NoDup_app in Hn as (Hn & _ & _). split; [done|]. intros c Hc. apply Ht. apply elem_of_app. by left.
Qed.

Lemma freed_1 sb v b : fsok sb v → sb_disk sb v → taken sb v b → b ≠ 0 → freed sb [b] v (t_free sb b v).
Proof.
  intros Hf Hs Ht Hb. apply (frees_view sb [b] v Hf Hs). split; [apply NoDup_singleton|].
  intros c Hc. by apply list_elem_of_singleton in Hc as ->.
Qed.

Lemma zero_next k x (l : list Z) i : w_addr k 0 (w_addrs (replicate k 0 ++ x :: l) i) = w_addrs (replicate (S k) 0 ++ l) i.
Proof.
  unfold w_addr, w_addrs. cbn [i_dev i_inum i_ref i_flags i_type i_major i_minor i_nlink i_size i_addrs]. f_equal.
  rewrite insert_app_r_alt by (rewrite length_replicate; lia). rewrite length_replicate, Nat.sub_diag.
  cbn [insert list_insert]. by rewrite replicate_S_end, <- app_assoc.
Qed.

Section loops.
Context {T : Type} `{!TxStore T}.
Abbreviation st := (fstate T).
Implicit Types (s : st) (v : tview).

(** The direct blocks, from the k-th on. *)
Lemma wp_trunc_direct ip i : ∀ n k l s v (Q : unit → st → Prop),
  (k + n = 12)%nat → length l = S n → i_dev i = 1 →
  ic_inode s !! ip = Some (w_addrs (replicate k 0 ++ l) i) →
  fsok (fs_sb s) v → sb_disk (fs_sb s) v → free_room (fs_sb s) v → tx_rel (fs_t s) v →
  freeable (fs_sb s) v (nz (take n l)) →
  (∀ t, tx_rel t (t_frees (fs_sb s) (nz (take n l)) v) →
     Q tt (set_inodes (<[ip := w_addrs (replicate 12 0 ++ drop n l) i]> (ic_inode s)) (set_t t s))) →
  wp (forM (seq k n) (λ k, i ← geti ip; addr ← deref (i_addrs i !! k);
        if addr =? 0 then mret tt else bfree (i_dev i) addr ;; updi ip (w_addr k 0))) Q s.
Proof.
  induction n as [|n IH]; intros k l s v Q Hk Hl Hdev Hi Hf Hs Hr HR Hfree HQ.
  { cbn [seq forM]. wstep. replace k with 12%nat in Hi by lia. cbn [take drop] in HQ. specialize (HQ _ HR).
    rewrite list_insert_id in HQ by done. by destruct s. }
  destruct l as [|x l]; [done|]. cbn [take drop] in Hfree, HQ. injection Hl as Hl.
  cbn [seq forM]. wstep. wstep. eapply wp_geti; [exact Hi|].
  wstep. eapply wp_deref; [cbn [i_addrs w_addrs]; rewrite lookup_app_r, length_replicate, Nat.sub_diag by (rewrite length_replicate; lia); reflexivity|].
  destruct (Z.eqb_spec x 0) as [->|Hx].
  - wstep. rewrite nz_zero in Hfree, HQ. eapply (IH (S k) l s v); try done; [lia|].
    rewrite Hi. f_equal. f_equal. by rewrite replicate_S_end, <- app_assoc.
  - rewrite nz_cons in Hfree, HQ by done. destruct (freeable_cons _ _ _ _ Hfree) as (Ht & _ & Hxb & _).
    pose proof (freed_1 _ _ _ Hf Hs Ht Hx) as F. wstep. cbn [i_dev w_addrs]. rewrite Hdev.
    eapply (wp_free_block s v None x); [done..|]. intros t1 R1.
    eapply wp_updi; [exact Hi|]. rewrite zero_next.
    eapply (IH (S k) l _ (t_free (fs_sb s) x v)); [lia|done|done| |apply F|apply F|by eapply freed_room|done| |].
    + apply list_lookup_insert_eq. by eapply lookup_lt_Some.
    + eapply (freed_freeable _ [x]); [exact F|exact Hfree].
    + intros t2 R2. specialize (HQ t2 R2). cbn [ic_inode set_inodes]. by rewrite list_insert_insert_eq.
Qed.

(** The blocks an indirect block names, from the j-th on. *)
Lemma wp_trunc_ind bp x (D : block) : ∀ n j s v (Q : unit → st → Prop),
  fsok (fs_sb s) v → sb_disk (fs_sb s) v → free_room (fs_sb s) v → tx_rel (fs_t s) (t_hold bp x v) →
  taken (fs_sb s) v x → x ≠ 1 → blk (tv_cur v) x = D →
  let l := nz ((λ j, getw (4 * j) D) <$> seq j n) in
  freeable (fs_sb s) v l → x ∉ l →
  (∀ t, tx_rel t (t_hold bp x (t_frees (fs_sb s) l v)) → Q tt (set_t t s)) →
  wp (forM (seq j n) (λ j, d ← getdata bp;
        if getw (4 * j) d =? 0 then mret tt else bfree 1 (getw (4 * j) d))) Q s.
Proof.
  induction n as [|n IH]; intros j s v Q Hf Hs Hr HR Hx Hx1 HD l Hfree Hxl HQ.
  { cbn [seq forM]. wstep. specialize (HQ _ HR). by destruct s. }
  subst l. cbn [seq fmap list_fmap] in Hfree, Hxl, HQ. cbn [seq forM]. wstep. wstep.
  destruct (tx_data_law _ _ bp x HR) as (d & Hd & Hcur); [apply lookup_insert_eq|].
  assert (d = D) as -> by (unfold blk in HD; change (tv_cur (t_hold bp x v)) with (tv_cur v) in Hcur; by rewrite Hcur in HD).
  eapply wp_getdata; [exact Hd|].
  destruct (Z.eqb_spec (getw (4 * j) D) 0) as [E|E].
  - wstep. rewrite E, nz_zero in Hfree, Hxl, HQ. by apply (IH (S j) s v).
  - rewrite nz_cons in Hfree, Hxl, HQ by done. destruct (freeable_cons _ _ _ _ Hfree) as (Ht & _ & Hb & _).
    apply not_elem_of_cons in Hxl as [Hxb Hxl]. pose proof (freed_1 _ _ _ Hf Hs Ht E) as F.
    eapply (wp_free_block s v (Some (bp, x))); [done..|]. intros t1 R1.
    eapply (IH (S j) _ (t_free (fs_sb s) (getw (4 * j) D) v)); [apply F|apply F|by eapply freed_room|exact R1| |done| | |done|].
    + eapply freed_taken; [exact F|done|]. rewrite list_elem_of_singleton. done.
    + destruct Hx as (? & _ & ?). rewrite (proj2 (fd_frame _ _ _ _ F) x); [done|lia|by rewrite list_elem_of_singleton].
    + eapply (freed_freeable _ [getw (4 * j) D]); [exact F|exact Hfree].
    + intros t2 R2. by specialize (HQ t2 R2).
Qed.
End loops.

(** ** The blocks of a file, in the order in which itrunc frees them *)

Definition ind_addrs (D : block) : list Z := (λ j, getw (4 * j) D) <$> seq 0 (Z.to_nat NINDIRECT).

Lemma nz_all (l : list Z) : (∀ x, x ∈ l → x ≠ 0) → nz l = l.
Proof.
  induction l as [|x l IH]; intros H; [done|]. rewrite nz_cons by (apply H; by left).
  f_equal. apply IH. intros y Hy. apply H. by right.
Qed.

Lemma nz_none (l : list Z) : (∀ x, x ∈ l → x = 0) → nz l = [].
Proof.
  induction l as [|x l IH]; intros H; [done|]. rewrite (H x) by by left. rewrite nz_zero.
  apply IH. intros y Hy. apply H. by right.
Qed.

Lemma nz_app l k : nz (l ++ k) = nz l ++ nz k.
Proof. apply filter_app. Qed.

Lemma nz_baddrs sb v a N : file_ok sb v a N → nz (baddr (tv_cur v) a <$> seq 0 140) = baddr (tv_cur v) a <$> seq 0 N.
Proof.
  intros Hf. pose proof (fl_maps _ _ _ _ Hf) as Hm. pose proof (mp_max _ _ _ Hm).
  replace 140%nat with (N + (140 - N))%nat by lia. rewrite seq_app, fmap_app, nz_app, nz_all, nz_none, app_nil_r; [done|..].
  - intros x (k & -> & Hk)%list_elem_of_fmap. apply elem_of_seq in Hk. apply (fl_zero _ _ _ _ Hf). lia.
  - intros x (k & -> & Hk)%list_elem_of_fmap. apply elem_of_seq in Hk. apply (mp_addr _ _ _ Hm). lia.
Qed.

Lemma direct_addrs cur a : length a = 13%nat → take 12 a = baddr cur a <$> seq 0 12.
Proof.
  intros Hl. apply list_eq_same_length with 12%nat; [by rewrite length_fmap, length_seq|rewrite length_take; lia|].
  intros k x y Hk Hx Hy. rewrite list_lookup_fmap, lookup_seq_lt in Hy by done. injection Hy as <-.
  rewrite lookup_take_lt in Hx by done. unfold baddr. rewrite (proj2 (Nat.ltb_lt _ _)) by done. cbn. by rewrite Hx.
Qed.

Lemma owns_order sb v a N : file_ok sb v a N →
  owns (tv_cur v) a N = nz (take 12 a) ++
    if iaddr a =? 0 then [] else nz (ind_addrs (blk (tv_cur v) (iaddr a))) ++ [iaddr a].
Proof.
  intros Hf. pose proof (mp_len _ _ _ (fl_maps _ _ _ _ Hf)) as Hl. unfold owns, iblocks.
  rewrite <- (nz_baddrs sb v a N Hf), (direct_addrs (tv_cur v) a Hl).
  change 140%nat with (12 + Z.to_nat NINDIRECT)%nat. rewrite seq_app, fmap_app, nz_app, <- app_assoc. f_equal. cbn [Nat.add].
  destruct (Z.eqb_spec (iaddr a) 0) as [E|E].
  - rewrite app_nil_r. apply nz_none. intros x (k & -> & Hk)%list_elem_of_fmap. apply elem_of_seq in Hk. unfold baddr.
    rewrite (proj2 (Nat.ltb_ge _ _)) by lia. by rewrite E.
  - f_equal. f_equal. unfold ind_addrs. change 12%nat with (12 + 0)%nat at 1. rewrite <- fmap_add_seq, <- list_fmap_compose.
    apply list_fmap_ext. intros j k Hj. cbn [compose]. rewrite baddr_ind by (try done; lia). f_equal. lia.
Qed.

Lemma owns_freeable sb v a N : file_ok sb v a N → freeable sb v (owns (tv_cur v) a N).
Proof.
  intros Hf. split; [apply Hf|]. intros b Hb. split; [by apply Hf|]. apply elem_of_app in Hb as [Hb|Hb].
  - apply list_elem_of_fmap in Hb as (k & -> & Hk). apply elem_of_seq in Hk. apply (mp_addr _ _ _ (fl_maps _ _ _ _ Hf)). lia.
  - unfold iblocks in Hb. destruct (Z.eqb_spec (iaddr a) 0) as [E|E]; [by apply elem_of_nil in Hb|].
    by apply list_elem_of_singleton in Hb as ->.
Qed.

(** ** itrunc *)

(** The inode of the empty file. *)
Definition emptied (i : inode) : inode := w_size 0 (w_addrs (replicate 13 0) i).

(** The store after itrunc of [i]: the file is empty and open, its blocks and
    no others are free, no block but the bitmap and the inode's has changed. *)
Record truncated (sb : superblock) (v : tview) (i : inode) (v' : tview) : Prop := {
  tc_open : file_open sb v' (emptied i);
  tc_sb : sb_disk sb v';
  tc_used b : 0 ≤ b < sb_size sb →
    used v' sb b = bool_decide (b ∉ owns (tv_cur v) (i_addrs i) (nblk (i_size i))) && used v sb b;
  tc_blk y : 0 ≤ y → y ≠ sb_bmapstart sb → y ≠ IBLOCK (i_inum i) sb → blk (tv_cur v') y = blk (tv_cur v) y;
  tc_disk : blk (tv_cur v') (IBLOCK (i_inum i) sb) =
    put_dinode (idoff (i_inum i)) (emptied i) (blk (tv_cur v) (IBLOCK (i_inum i) sb));
  tc_log : tv_log v' ⊆ {[sb_bmapstart sb; IBLOCK (i_inum i) sb]} ∪ tv_log v;
  tc_cap : tv_cap v' = tv_cap v;
}.

Lemma empty_file sb v : fsok sb v → file_ok sb v (replicate 13 0) 0.
Proof.
  intros Hf. assert (∀ k, baddr (tv_cur v) (replicate 13 0) k = 0) as Hz.
  { intros k. unfold baddr. change (iaddr (replicate 13 0) =? 0) with true. cbv iota.
    destruct (k <? 12)%nat; [|done]. by do 13 (destruct k as [|k]; [done|]). }
  split; [|by intros; apply Hz|done|apply NoDup_nil_2|intros x Hx; by apply elem_of_nil in Hx].
  split; [done|lia|intros; lia|intros; lia|apply Hf].
Qed.

Lemma emptied_ok i : inode_ok i → inode_ok (emptied i).
Proof.
  intros [H1 H2 H3 H4 H5 H6 H7]. split; try done. apply Forall_forall. intros x Hx.
  by apply elem_of_replicate in Hx as [-> _].
Qed.

Lemma freed_open sb v i v' : file_open sb v i → freed sb (owns (tv_cur v) (i_addrs i) (nblk (i_size i))) v v' →
  file_open sb v' (emptied i).
Proof.
  intros [O1 O2 O3 O4 O5 O6 O7 O8 O9 O10] F. split; try done; [apply F|by apply emptied_ok|by apply empty_file, F| |].
  - change (i_inum (emptied i)) with (i_inum i). rewrite (fd_used _ _ _ _ F), O8 by done. by rewrite bool_decide_eq_true_2.
  - apply not_elem_of_nil.
Qed.

Lemma freed_truncated sb v i v' : file_open sb v i → IBLOCK (i_inum i) sb ≠ 1 →
  freed sb (owns (tv_cur v) (i_addrs i) (nblk (i_size i))) v v' →
  truncated sb v i (t_upd (IBLOCK (i_inum i) sb)
    (put_dinode (idoff (i_inum i)) (emptied i) (blk (tv_cur v') (IBLOCK (i_inum i) sb))) v').
Proof.
  intros Ho Hib F. pose proof (freed_open _ _ _ _ Ho F) as Ho'. pose proof Ho as [O1 O2 O3 O4 O5 O6 O7 O8 O9 O10].
  destruct (inode_written _ _ _ Ho') as (I1 & I2 & I3 & I4 & _). change (i_inum (emptied i)) with (i_inum i) in *.
  set (x := IBLOCK (i_inum i) sb) in *. destruct (fd_frame _ _ _ _ F) as [Hlen Hfr].
  pose proof (fsok_range _ _ _ (fd_fs _ _ _ _ F) O7) as Hr.
  split; [done| | | | | |].
  - destruct (fd_sb _ _ _ _ F) as [(d & Hd & Hsb) Hb]. split; [|done]. exists d. split; [|done]. cbn [tv_cur t_upd].
    rewrite list_lookup_insert_ne; [done|lia].
  - intros b Hb. rewrite I3 by done. by apply F.
  - intros y Hy Hyb Hyx. rewrite I4 by done. apply Hfr; [done|]. by rewrite list_elem_of_singleton.
  - unfold t_upd. cbn [tv_cur]. rewrite blk_insert by lia. rewrite Z.eqb_refl. f_equal. apply Hfr; [lia|].
    by rewrite list_elem_of_singleton.
  - pose proof (fd_log _ _ _ _ F). cbn [tv_log t_upd]. set_solver.
  - apply F.
Qed.

Section itrunc.
Context {T : Type} `{!TxStore T}.
Abbreviation st := (fstate T).
Implicit Types (s : st) (v : tview).

(** Between two steps of a file operation: nothing is held, the next block is readable. *)
Lemma fsok_readable sb v x : fsok sb v → free_room sb v → 0 ≤ x < sb_size sb → readable v x.
Proof.
  intros Hf Hr Hx. pose proof (room_log _ _ Hr). pose proof (fo_cap _ _ Hf).
  apply idle_readable; [split; [apply Hf|lia]|by apply (fsok_range sb)].
Qed.

Lemma t_frees_dirty sb bs v : tv_dirty (t_frees sb bs v) = tv_dirty v.
Proof. revert v. induction bs as [|b bs IH]; intros v; [done|]. apply (IH (t_free sb b v)). Qed.

(** The indirect block and what it names. *)
Lemma wp_trunc_indirect ip i s v (Q : unit → st → Prop) (D : block) :
  let x := iaddr (i_addrs i) in
  ic_inode s !! ip = Some i → i_dev i = 1 → length (i_addrs i) = 13%nat →
  fsok (fs_sb s) v → sb_disk (fs_sb s) v → free_room (fs_sb s) v → tx_rel (fs_t s) v →
  x ≠ 0 → x ≠ 1 → blk (tv_cur v) x = D → freeable (fs_sb s) v (nz (ind_addrs D) ++ [x]) →
  (∀ t, tx_rel t (t_frees (fs_sb s) (nz (ind_addrs D) ++ [x]) v) →
     Q tt (set_inodes (<[ip := w_addr 12 0 i]> (ic_inode s)) (set_t t s))) →
  wp (bp ← bread (i_dev i) x;
      forM (seq 0 (Z.to_nat NINDIRECT)) (λ j,
        d ← getdata bp; if getw (4 * j) d =? 0 then mret tt else bfree (i_dev i) (getw (4 * j) d)) ;;
      brelse bp ;; bfree (i_dev i) x ;; updi ip (w_addr (Z.to_nat NDIRECT) 0)) Q s.
Proof.
  intros x Hi Hdev Hlen Hf Hs Hr HR Hx0 Hx1 HD Hfree HQ.
  assert (taken (fs_sb s) v x) as Hx by (apply Hfree; apply elem_of_app; right; by left).
  assert (x ∉ nz (ind_addrs D)) as Hxl.
  { destruct Hfree as [Hn _]. apply NoDup_app in Hn as (_ & Hn & _). intros Hin. apply (Hn x Hin). by left. }
  pose proof (freeable_l _ _ _ _ Hfree) as Hfree1. pose proof (frees_view _ _ _ Hf Hs Hfree1) as F.
  wstep. rewrite Hdev. eapply wp_fbread; [exact HR|by eapply fsok_readable; [..|apply Hx]|].
  intros bp t1 d Hbp Hdirty R1 _ _. wstep.
  eapply (wp_trunc_ind bp x D); [done..|]. fold (ind_addrs D). intros t2 R2. wstep.
  eapply (wp_fbrelse _ (t_frees (fs_sb s) (nz (ind_addrs D)) v)); [exact R2|by rewrite (fo_held _ _ (fd_fs _ _ _ _ F))|by rewrite t_frees_dirty|].
  intros t3 R3. wstep. pose proof (freed_taken _ _ _ _ _ F Hx Hxl) as Hx'.
  eapply (wp_free_block _ (t_frees (fs_sb s) (nz (ind_addrs D)) v) None x); [apply F|apply F|done|by eapply freed_room|exact R3|done|].
  intros t4 R4. eapply wp_updi; [exact Hi|]. specialize (HQ t4). rewrite t_frees_app in HQ. exact (HQ R4).
Qed.

Lemma wp_itrunc ip i s v (Q : unit → st → Prop) :
  file_open (fs_sb s) v i → sb_disk (fs_sb s) v → free_room (fs_sb s) v → tx_rel (fs_t s) v →
  ic_inode s !! ip = Some i → 1 ∉ owns (tv_cur v) (i_addrs i) (nblk (i_size i)) → IBLOCK (i_inum i) (fs_sb s) ≠ 1 →
  (∀ t v', tx_rel t v' → truncated (fs_sb s) v i v' →
     Q tt (set_inodes (<[ip := emptied i]> (ic_inode s)) (set_t t s))) →
  wp (itrunc ip) Q s.
Proof.
  intros Ho Hs Hr HR Hi H1 Hib HQ. pose proof Ho as [O1 O2 O3 O4 O5 O6 O7 O8 O9 O10].
  set (sb := fs_sb s) in *. set (a := i_addrs i) in *. set (N := nblk (i_size i)) in *.
  pose proof (mp_len _ _ _ (fl_maps _ _ _ _ O6)) as Hlen. pose proof (lookup_lt_Some _ _ _ Hi) as Hip.
  pose proof (owns_freeable _ _ _ _ O6) as Hfree. pose proof (owns_order _ _ _ _ O6) as Hord.
  pose proof (frees_view _ _ _ O1 Hs Hfree) as F.
  assert (∀ t i1 (L : list inode), tx_rel t (t_frees sb (owns (tv_cur v) a N) v) →
    i1 = w_addrs (replicate 13 0) i → L = <[ip := i1]> (ic_inode s) →
    wp (updi ip (w_size 0) ;; iupdate ip) Q (set_inodes L (set_t t s))) as Hend.
  { intros t i1 L Rt -> ->. wstep. eapply wp_updi; [by apply list_lookup_insert_eq|].
    cbn [ic_inode set_inodes]. rewrite list_insert_insert_eq. fold (emptied i).
    pose proof (freed_truncated sb v i _ Ho Hib F) as Ht. pose proof (freed_room _ _ _ _ F Hr) as Hr'.
    set (v3 := t_frees sb (owns (tv_cur v) a N) v) in *.
    pose proof (fsok_range _ _ _ (fd_fs _ _ _ _ F) O7) as Hrg.
    destruct (lookup_lt_is_Some_2 (tv_cur v3) (Z.to_nat (IBLOCK (i_inum i) sb))) as [d Hd]; [lia|].
    assert (blk (tv_cur v3) (IBLOCK (i_inum i) sb) = d) as Hb by (unfold blk; by rewrite Hd).
    rewrite Hb in Ht. eapply (wp_iupdate _ v3 ip (emptied i) d); [exact Rt|by apply list_lookup_insert_eq|done| |exact Hd|].
    - split; [by eapply fsok_readable; [apply F|..]|]. pose proof (room_log _ _ Hr'). lia.
    - intros t2 R2. by apply (HQ t2 _ R2). }
  unfold itrunc. wstep. change (Z.to_nat NDIRECT) with 12%nat.
  eapply (wp_trunc_direct ip i 12 0 a s v); try done.
  - rewrite Hi. f_equal. by destruct i.
  - rewrite Hord in Hfree. by apply freeable_l in Hfree.
  - intros t1 R1. set (a1 := replicate 12 0 ++ drop 12 a).
    assert (drop 12 a = [iaddr a]) as Hd12.
    { apply list_eq_same_length with 1%nat; [done|rewrite length_drop; lia|]. intros [|k] y z Hk Hy Hz; [|lia].
      rewrite lookup_drop in Hy. injection Hz as <-. unfold iaddr. cbn [Nat.add] in Hy. by rewrite Hy. }
    assert (a1 = replicate 12 0 ++ [iaddr a]) as Ha1 by (unfold a1; by rewrite Hd12).
    wstep. eapply wp_geti; [by apply list_lookup_insert_eq|]. wstep.
    eapply (wp_deref _ (iaddr a)); [cbn [i_addrs w_addrs]; by rewrite Ha1|].
    destruct (Z.eqb_spec (iaddr a) 0) as [E|E].
    + wstep. wstep. rewrite app_nil_r in Hord. rewrite <- Hord in R1. eapply Hend; [exact R1| |reflexivity].
      by rewrite Ha1, E.
    + set (D := blk (tv_cur v) (iaddr a)) in *. rewrite Hord in Hfree.
      pose proof (frees_view _ _ _ O1 Hs (freeable_l _ _ _ _ Hfree)) as F1.
      assert (iaddr a ≠ 1) as Hx1 by (intros E1; apply H1; rewrite <- E1; by apply owns_ind).
      destruct (fl_used _ _ _ _ O6 (iaddr a)) as (X1 & X2 & X3); [by apply owns_ind|].
      wstep. assert (iaddr (i_addrs (w_addrs a1 i)) = iaddr a) as Ei by (cbn [i_addrs w_addrs]; by rewrite Ha1).
      rewrite <- Ei. eapply (wp_trunc_indirect ip (w_addrs a1 i) _ (t_frees sb (nz (take 12 a)) v) _ D);
        rewrite ?Ei; try done; [by apply list_lookup_insert_eq|cbn [i_addrs w_addrs]; by rewrite Ha1|apply F1|apply F1|by eapply freed_room| | |].
      * unfold D. apply (fd_frame _ _ _ _ F1); [lia|by rewrite list_elem_of_singleton].
      * eapply freed_freeable; [exact F1|exact Hfree].
      * intros t2 R2. cbn [ic_inode set_inodes]. rewrite list_insert_insert_eq. change (fs_sb _) with sb in R2.
        rewrite <- t_frees_app, <- Hord in R2. eapply Hend; [exact R2| |reflexivity].
        rewrite Ha1. by destruct i.
Qed.
End itrunc.

(** ** iput *)

(** The last reference to a file that has no name. *)
Definition last_ref (i : inode) : Prop := i_ref i = 1 ∧ Z.land (i_flags i) I_VALID ≠ 0 ∧ i_nlink i = 0.
#[export] Instance last_ref_dec i : Decision (last_ref i).
Proof. unfold last_ref. apply _. Defined.

Lemma last_ref_test i :
  (i_ref i =? 1) && negb (Z.land (i_flags i) I_VALID =? 0) && (i_nlink i =? 0) = bool_decide (last_ref i).
Proof.
  apply eq_true_iff_eq. rewrite bool_decide_eq_true, !andb_true_iff, negb_true_iff, !Z.eqb_eq, Z.eqb_neq. unfold last_ref. tauto.
Qed.

(** What giving up the file relies on. *)
Record droppable (sb : superblock) (v : tview) (i : inode) : Prop := {
  dr_open : file_open sb v i;
  dr_idle : Z.land (i_flags i) I_BUSY = 0;
  dr_sb : sb_disk sb v;
  dr_room : free_room sb v;
  dr_ib : IBLOCK (i_inum i) sb ≠ 1;
  dr_one : 1 ∉ owns (tv_cur v) (i_addrs i) (nblk (i_size i));
}.

(** The store without the file: its blocks are free, its disk inode is, and
    nothing else has changed. *)
Record dropped (sb : superblock) (v : tview) (i : inode) (v' : tview) : Prop := {
  dp_fs : fsok sb v';
  dp_sb : sb_disk sb v';
  dp_used b : 0 ≤ b < sb_size sb →
    used v' sb b = bool_decide (b ∉ owns (tv_cur v) (i_addrs i) (nblk (i_size i))) && used v sb b;
  dp_blk y : 0 ≤ y → y ≠ sb_bmapstart sb → y ≠ IBLOCK (i_inum i) sb → blk (tv_cur v') y = blk (tv_cur v) y;
  dp_inode jp : get_dinode (idoff (i_inum i)) (blk (tv_cur v') (IBLOCK (i_inum i) sb)) jp =
    mkInode (i_dev jp) (i_inum jp) (i_ref jp) (i_flags jp) 0 (i_major i) (i_minor i) (i_nlink i) 0 (replicate 13 0);
  dp_others o n : (o + n ≤ idoff (i_inum i) ∨ idoff (i_inum i) + DINODE ≤ o)%nat →
    getbytes o n (blk (tv_cur v') (IBLOCK (i_inum i) sb)) = getbytes o n (blk (tv_cur v) (IBLOCK (i_inum i) sb));
  dp_log : tv_log v' ⊆ {[sb_bmapstart sb; IBLOCK (i_inum i) sb]} ∪ tv_log v;
}.

Lemma truncated_dropped sb v i v1 : file_open sb v i → truncated sb v i v1 → IBLOCK (i_inum i) sb ≠ 1 →
  let x := IBLOCK (i_inum i) sb in let j := w_type 0 (emptied i) in
  dropped sb v i (t_upd x (put_dinode (idoff (i_inum i)) j (blk (tv_cur v1) x)) v1).
Proof.
  intros Ho [T1 T2 T3 T4 T5 T6 T7] Hib x j.
  assert (file_open sb v1 j) as Hj.
  { pose proof T1 as [O1 O2 O3 O4 O5 O6 O7 O8 O9 O10]. split; try done. destruct O4. split; try done. }
  destruct (inode_written _ _ _ Hj) as (I1 & I2 & I3 & I4 & _). change (i_inum j) with (i_inum i) in *. fold x in I1, I2, I3, I4, T4, T5, T6.
  pose proof (of_ib _ _ _ T1) as Hx. change (i_inum (emptied i)) with (i_inum i) in Hx. fold x in Hx.
  pose proof (fsok_range _ _ _ (of_fs _ _ _ T1) Hx) as Hr.
  pose proof (fsok_range _ _ _ (of_fs _ _ _ Ho) Hx) as Hr0.
  pose proof (blk_length _ _ (fo_blocks _ _ (of_fs _ _ _ T1)) Hr) as Hl.
  pose proof (blk_length _ _ (fo_blocks _ _ (of_fs _ _ _ Ho)) Hr0) as Hl0.
  assert (blk (tv_cur (t_upd x (put_dinode (idoff (i_inum i)) j (blk (tv_cur v1) x)) v1)) x =
    put_dinode (idoff (i_inum i)) j (blk (tv_cur v1) x)) as Hb.
  { unfold t_upd. cbn [tv_cur]. rewrite blk_insert by lia. by rewrite Z.eqb_refl. }
  split.
  - apply I1.
  - destruct T2 as [(d & Hd & Hsb) Hbm]. split; [|done]. exists d. split; [|done]. cbn [tv_cur t_upd].
    rewrite list_lookup_insert_ne; [done|lia].
  - intros b Hb'. rewrite I3 by done. by apply T3.
  - intros y Hy Hyb Hyx. rewrite I4 by done. by apply T4.
  - intros jp. fold x. rewrite Hb. rewrite get_put_dinode; [done|apply Hj|rewrite Hl; apply idoff_in].
  - intros o n Hon. fold x. rewrite Hb. rewrite put_dinode_frame; [|apply Hj|rewrite Hl; apply idoff_in|done].
    rewrite T5. apply put_dinode_frame; [apply emptied_ok, Ho|rewrite Hl0; apply idoff_in|done].
  - cbn [tv_log t_upd]. fold x. set_solver.
Qed.

Section iput.
Context {T : Type} `{!TxStore T}.
Abbreviation st := (fstate T).
Implicit Types (s : st) (v : tview).

(** The end of a critical section of icache.lock that was entered in [s]. *)
Lemma wp_ic_release s t v (Q : unit → st → Prop) :
  ic_quiet s → tx_rel (fs_t s) v → fs_t t = fs_t (acquired fs_cpu iclk s) → ic_lock t = ic_lock (acquired fs_cpu iclk s) →
  (∀ t', ic_quiet t' → tx_rel (fs_t t') v → ic_inode t' = ic_inode t → fs_woken t' = fs_woken t → fs_sb t' = fs_sb t →
     fs_cwd t' = fs_cwd t → Q tt t') →
  wp (release fs_cpu iclk) Q t.
Proof.
  intros Hq HR Ht Hl HQ. eapply (wp_release fs_cpu iclk _ s); [done|cbn; by rewrite Ht|done|].
  apply HQ; try done.
  - by apply leave_quiet; [apply _..|].
  - unfold leave. simpl. rewrite Ht. apply tx_rel_setcpu.
    + simpl. apply tx_rel_setcpu; [done|]. apply pushed_ok. apply Hq.
    + destruct (leave_quiet fs_cpu iclk s t Hq) as [_ Hc]. unfold leave in Hc. simpl in Hc.
      by rewrite lget_lput in Hc.
Qed.

(** The entry of the cache that iput leaves behind when it drops the file. *)
Definition unused (i : inode) : inode := w_ref 0 (w_flags 0 (w_type 0 (emptied i))).

Lemma wp_iput_drop ip i s v (Q : unit → st → Prop) :
  ic_quiet s → tx_rel (fs_t s) v → ic_inode s !! ip = Some i → last_ref i → droppable (fs_sb s) v i →
  (∀ s' v', ic_quiet s' → tx_rel (fs_t s') v' → dropped (fs_sb s) v i v' →
     ic_inode s' = <[ip := unused i]> (ic_inode s) → fs_woken s' = ip :: fs_woken s → fs_sb s' = fs_sb s →
     fs_cwd s' = fs_cwd s → Q tt s') →
  wp (iput ip) Q s.
Proof.
  intros Hq HR Hi Hlast [D1 D2 D3 D4 D5 D6] HQ. pose proof (lookup_lt_Some _ _ _ Hi) as Hip.
  unfold iput. wstep. apply wp_acquire; [apply _..|done|]. wstep. eapply wp_geti; [exact Hi|].
  rewrite last_ref_test, bool_decide_eq_true_2 by done. wstep. rewrite D2. change (negb (0 =? 0)) with false. cbv iota.
  wstep. eapply wp_updi; [exact Hi|]. set (i1 := w_flags _ i).
  wstep. eapply (wp_ic_release s _ v); [done|done|done|done|]. intros s2 Q2 R2 E1 E2 E3 E4. cbn in E1, E2, E3, E4.
  wstep. eapply (wp_itrunc ip i1 s2 v); rewrite ?E3; try done.
  { destruct D1 as [O1 O2 O3 [K1 K2 K3 K4 K5 K6 K7] O5 O6 O7 O8 O9 O10]. by split. }
  { rewrite E1. by apply list_lookup_insert_eq. }
  intros t3 v3 R3 T3. rewrite E1, list_insert_insert_eq.
  assert (truncated (fs_sb s) v i v3) as T3'.
  { destruct T3 as [[O1 O2 O3 [K1 K2 K3 K4 K5 K6 K7] O5 O6 O7 O8 O9 O10] T2 T3 T4 T5 T6 T7]. by split. }
  wstep. eapply wp_updi; [by apply list_lookup_insert_eq|]. cbn [ic_inode set_inodes]. rewrite list_insert_insert_eq.
  set (i3 := w_type 0 (emptied i1)). set (x := IBLOCK (i_inum i) (fs_sb s)).
  pose proof (truncated_dropped _ _ _ _ D1 T3' D5) as Hd. cbv zeta in Hd. fold x in Hd.
  pose proof (tc_open _ _ _ _ T3') as O3. pose proof (of_ib _ _ _ O3) as Hx. change (i_inum (emptied i)) with (i_inum i) in Hx. fold x in Hx.
  pose proof (fsok_range _ _ _ (of_fs _ _ _ O3) Hx) as Hrg.
  destruct (lookup_lt_is_Some_2 (tv_cur v3) (Z.to_nat x)) as [d Hd3]; [lia|].
  assert (blk (tv_cur v3) x = d) as Hb by (unfold blk; by rewrite Hd3). rewrite Hb in Hd.
  assert (size (tv_log v3) < tv_cap v3)%nat as Hcap.
  { rewrite (tc_cap _ _ _ _ T3'). unfold free_room in D4.
    pose proof (subseteq_size _ _ (tc_log _ _ _ _ T3')). fold x in H.
    pose proof (size_insert_le x _ ({[x]} ∪ ({[sb_bmapstart (fs_sb s)]} ∪ tv_log v)) ltac:(done)).
    replace ({[sb_bmapstart (fs_sb s); x]} ∪ tv_log v) with ({[x]} ∪ ({[sb_bmapstart (fs_sb s)]} ∪ tv_log v)) in H by set_solver. lia. }
  wstep. eapply (wp_iupdate _ v3 ip i3 d); [exact R3|by apply list_lookup_insert_eq|apply D1| | |].
  { split; [|done]. apply idle_readable; [split; [apply (of_fs _ _ _ O3)|]|].
    - pose proof (fo_cap _ _ (of_fs _ _ _ O3)). lia.
    - unfold tv_len. cbn. rewrite E3. exact Hrg. }
  { cbn. rewrite E3. exact Hd3. }
  intros t4 R4. cbn [fs_sb set_inodes set_t] in R4. rewrite E3 in R4. change (i_inum i3) with (i_inum i) in R4. fold x in R4.
  set (s4 := set_t t4 _). assert (ic_quiet s4) as Q4 by (eapply (ic_quiet_t t4 s2); done).
  assert (ip < length (ic_inode (acquired fs_cpu iclk s4)))%nat as Hip4 by (cbn; by rewrite length_insert).
  wstep. apply wp_acquire; [apply _..|done|].
  wstep. eapply wp_updi; [by apply list_lookup_insert_eq|]. unfold wakeupi. wstep. wstep.
  eapply wp_updi; [by apply list_lookup_insert_eq|].
  eapply (wp_ic_release s4 _ _); [done|exact R4|done|done|]. intros s5 Q5 R5 F1 F2 F3 F4. cbn in F1, F2, F3, F4.
  rewrite E2 in F2. rewrite E3 in F3. rewrite E4 in F4. rewrite !list_insert_insert_eq in F1.
  eapply HQ; [done|exact R5|exact Hd| |done|done|done]. rewrite F1. f_equal.
  by rewrite (proj1 Hlast).
Qed.
End iput.

(** ** ialloc *)

(** The disk inode [inum] is free. *)
Definition inode_free (sb : superblock) (v : tview) (inum : Z) : Prop :=
  geth (idoff inum) (blk (tv_cur v) (IBLOCK inum sb)) = 0.

(** What ialloc relies on: the blocks of the inodes are there, and one more
    block can be logged. *)
Record inodes_there (sb : superblock) (v : tview) : Prop := {
  it_idle : idle v;
  it_cap : (size (tv_log v) < tv_cap v)%nat;
  it_in inum : 1 ≤ inum < sb_ninodes sb → 0 ≤ IBLOCK inum sb < tv_len v;
  it_blocks : Forall (λ b : block, length b = BSIZE) (tv_cur v);
}.

(** The store with the new inode: it is empty and of that type. *)
Record born (sb : superblock) (v : tview) (inum type : Z) (v' : tview) : Prop := {
  bo_inode jp : get_dinode (idoff inum) (blk (tv_cur v') (IBLOCK inum sb)) jp =
    mkInode (i_dev jp) (i_inum jp) (i_ref jp) (i_flags jp) type 0 0 0 0 (replicate 13 0);
  bo_others o n : (o + n ≤ idoff inum ∨ idoff inum + DINODE ≤ o)%nat →
    getbytes o n (blk (tv_cur v') (IBLOCK inum sb)) = getbytes o n (blk (tv_cur v) (IBLOCK inum sb));
  bo_blk y : 0 ≤ y → y ≠ IBLOCK inum sb → blk (tv_cur v') y = blk (tv_cur v) y;
  bo_log : tv_log v' = {[IBLOCK inum sb]} ∪ tv_log v;
  bo_held : tv_held v' = tv_held v;
}.

Lemma getbytes_zeros off d o n : (off + DINODE ≤ length d)%nat → (o + n ≤ DINODE)%nat →
  getbytes (off + o) n (putbytes off (replicate DINODE 0) d) = replicate n 0.
Proof.
  intros Hd Hn. apply list_eq. intros i. destruct (decide (i < n)%nat).
  - rewrite lookup_getbytes, lookup_putbytes by (rewrite ?length_replicate; done).
    rewrite length_replicate, decide_True, !lookup_replicate_2 by lia. done.
  - rewrite !lookup_ge_None_2; [done|rewrite length_replicate; lia|]. unfold getbytes. rewrite length_take. lia.
Qed.

Definition newborn (inum type : Z) (d : block) : block := seth (idoff inum) type (putbytes (idoff inum) (replicate DINODE 0) d).

Lemma get_newborn inum type d jp : is_i16 type → length d = BSIZE →
  get_dinode (idoff inum) (newborn inum type d) jp =
  mkInode (i_dev jp) (i_inum jp) (i_ref jp) (i_flags jp) type 0 0 0 0 (replicate 13 0).
Proof.
  intros Ht Hd. pose proof (idoff_in inum) as Hi. unfold DINODE in Hi.
  set (off := idoff inum) in *. set (z := putbytes off (replicate DINODE 0) d).
  assert (length z = BSIZE) as Hz by (unfold z; rewrite putbytes_length; [done|rewrite length_replicate; unfold DINODE; lia]).
  assert (∀ o, (2 ≤ o ≤ 62)%nat → geth (off + o) (seth off type z) = 0) as Hh.
  { intros o Ho. rewrite geth_seth_other by lia. unfold geth, z. rewrite getbytes_zeros by (unfold DINODE; lia). done. }
  assert (∀ o, (2 ≤ o ≤ 60)%nat → getw (off + o) (seth off type z) = 0) as Hw.
  { intros o Ho. rewrite getw_seth_other by lia. unfold getw, z. rewrite getbytes_zeros by (unfold DINODE; lia). done. }
  unfold get_dinode, newborn. fold off z. rewrite i16_geth_seth, !Hh, Hw by (try done; lia). f_equal.
  apply list_eq_same_length with 13%nat; [done|by rewrite length_fmap, length_seq|].
  intros k x y Hk Hx Hy. rewrite list_lookup_fmap, lookup_seq_lt in Hx by done. injection Hx as <-.
  apply lookup_replicate in Hy as [-> _]. rewrite <- Nat.add_assoc. apply Hw. lia.
Qed.

Lemma newborn_frame inum type d o n : length d = BSIZE → (o + n ≤ idoff inum ∨ idoff inum + DINODE ≤ o)%nat →
  getbytes o n (newborn inum type d) = getbytes o n d.
Proof.
  intros Hd Ho. pose proof (idoff_in inum) as Hi. unfold newborn, seth, DINODE in *.
  assert (length (putbytes (idoff inum) (replicate 64 0) d) = length d) as Hl
    by (rewrite putbytes_length; [done|rewrite length_replicate; lia]).
  rewrite get_put_other by (rewrite ?Hl; cbn [length to_le16]; lia).
  apply get_put_other; rewrite length_replicate; lia.
Qed.

Lemma newborn_born sb v inum type : inodes_there sb v → 1 ≤ inum < sb_ninodes sb → is_i16 type →
  born sb v inum type (t_upd (IBLOCK inum sb) (newborn inum type (blk (tv_cur v) (IBLOCK inum sb))) v).
Proof.
  intros [H1 H2 H3 H4] Hin Ht. specialize (H3 _ Hin). unfold tv_len in H3. pose proof (blk_length _ _ H4 H3) as Hl.
  assert (blk (tv_cur (t_upd (IBLOCK inum sb) (newborn inum type (blk (tv_cur v) (IBLOCK inum sb))) v)) (IBLOCK inum sb) =
    newborn inum type (blk (tv_cur v) (IBLOCK inum sb))) as Hb.
  { unfold t_upd. cbn [tv_cur]. rewrite blk_insert by lia. by rewrite Z.eqb_refl. }
  split; try done.
  - intros jp. rewrite Hb. by apply get_newborn.
  - intros o n Ho. rewrite Hb. by apply newborn_frame.
  - intros y Hy Hne. unfold t_upd. cbn [tv_cur]. rewrite blk_insert by lia. by rewrite (proj2 (Z.eqb_neq _ _)).
Qed.

Section ialloc.
Context {T : Type} `{!TxStore T}.
Abbreviation st := (fstate T).
Implicit Types (s : st) (v : tview).

Definition ialloc_post (type : Z) s v (k : nat) (s' : st) : Prop :=
  ∃ inum a a' v', 1 ≤ inum < sb_ninodes (fs_sb s) ∧ inode_free (fs_sb s) v inum ∧
    (∀ m, 1 ≤ m < inum → ¬ inode_free (fs_sb s) v m) ∧
    ic_inode s !! k = Some a ∧ gotten 1 inum a a' ∧ ic_inode s' = <[k := a']> (ic_inode s) ∧ ic_uniq (ic_inode s') ∧
    ic_quiet s' ∧ fs_sb s' = fs_sb s ∧ tx_rel (fs_t s') v' ∧ born (fs_sb s) v inum type v'.

(** No inode is free, or the cache has no entry for the new one. *)
Definition ialloc_fails s v (msg : string) : Prop :=
  msg = "ialloc: no inodes"%string ∧ (∀ m, 1 ≤ m < sb_ninodes (fs_sb s) → ¬ inode_free (fs_sb s) v m) ∨
  msg = "iget: no inodes"%string ∧ ∃ inum, inode_free (fs_sb s) v inum ∧
    ∀ j a, ic_inode s !! j = Some a → ¬ cached 1 inum a ∧ i_ref a ≠ 0.

Lemma wpe_ialloc_loop type : is_i16 type → ∀ fuel inum s v,
  inodes_there (fs_sb s) v → tx_rel (fs_t s) v → ic_quiet s → ic_uniq (ic_inode s) →
  1 ≤ inum ≤ Z.max 1 (sb_ninodes (fs_sb s)) → Z.max 1 (sb_ninodes (fs_sb s)) < inum + Z.of_nat fuel → (∀ m, 1 ≤ m < inum → ¬ inode_free (fs_sb s) v m) →
  wpe (ialloc_loop fuel 1 type inum) (ialloc_post type s v) (ialloc_fails s v) s.
Proof.
  intros Hty. induction fuel as [|fuel IH]; intros inum s v Ht HR Hq Hu Hin Hfuel Hlow.
  all: pose proof Ht as [H1 H2 H3 H4].
  { lia. }
  cbn [ialloc_loop]. apply wpe_bind. wstep. destruct (Z.ltb_spec inum (sb_ninodes (fs_sb s))) as [Hlt|Hge].
  2:{ left. split; [done|]. intros m Hm. apply Hlow. lia. }
  set (x := IBLOCK inum (fs_sb s)). assert (0 ≤ x < tv_len v) as Hx by (apply H3; lia).
  assert (0 ≤ x < Z.of_nat (length (tv_cur v))) as Hx' by exact Hx.
  apply wpe_bind. eapply wp_fbread; [exact HR|by apply idle_readable|].
  intros bp t1 d Hbp Hdirty R1 Hd Hdata. assert (blk (tv_cur v) x = d) as Hb by (unfold blk; by rewrite Hd).
  apply wpe_bind. eapply wp_getdata; [exact Hdata|].
  destruct (Z.eqb_spec (geth (idoff inum) d) 0) as [E|E].
  - eapply wpe_put_bind; [exact R1|done|done|done|]. intros t2 R2.
    eapply wpe_iget; [by eapply (ic_quiet_t t2 s)|exact R2|exact Hu| |].
    + intros k a a' s' G1 G2 G3 G4 G5 G6 G7 G8. exists inum, a, a'. eexists. split_and!; try done; try lia.
      * unfold inode_free. fold x. by rewrite Hb.
      * rewrite <- Hb. apply (newborn_born (fs_sb s) v inum type); [done|lia|done].
    + intros Hall. right. split; [done|]. exists inum. split; [|exact Hall]. unfold inode_free. fold x. by rewrite Hb.
  - apply wpe_bind. eapply wp_fbrelse; [exact R1|done|done|]. intros t2 R2.
    apply (IH (inum + 1) (set_t t2 s) v); [done|exact R2|by eapply ic_quiet_t|done|cbn; lia|cbn; lia|].
    intros m Hm. destruct (decide (m = inum)) as [->|]; [|apply Hlow; lia]. unfold inode_free. change (fs_sb (set_t t2 s)) with (fs_sb s). fold x. by rewrite Hb.
Qed.
End ialloc.

(** ** The theorems *)

(** itrunc empties a file: all its blocks, and no others, are free
    afterwards, and the empty file is on the disk. *)
Theorem itrunc_spec {T} `{!TxStore T} ip i v (s : fstate T) :
  file_open (fs_sb s) v i → sb_disk (fs_sb s) v → free_room (fs_sb s) v → tx_rel (fs_t s) v →
  ic_inode s !! ip = Some i → 1 ∉ owns (tv_cur v) (i_addrs i) (nblk (i_size i)) → IBLOCK (i_inum i) (fs_sb s) ≠ 1 →
  wp (itrunc ip) (λ _ s', ∃ t v', s' = set_inodes (<[ip := emptied i]> (ic_inode s)) (set_t t s) ∧
    tx_rel t v' ∧ truncated (fs_sb s) v i v') s.
Proof. intros H1 H2 H3 H4 H5 H6 H7. eapply wp_itrunc; try done. intros t v' Ht Hv. by exists t, v'. Qed.

(** [C21] iput gives up one reference.  If it is the last one to a file or
    directory without a name, the file is gone: every block it had, direct,
    indirect and the indirect block, is free again, each freed once and no
    other block freed; its inode is free on the disk, the other inodes of that
    block and all other blocks are as they were, its entry of the cache is
    unused, and the processes waiting for the entry are woken.  Otherwise only
    the count of the entry changes: the last reference to a file with a name
    leaves I_VALID set in an entry with no references (fs.c's comment on the
    states of an inode says that iput clears it).  iput never panics in these
    cases. *)
Theorem iput_spec {T} `{!TxStore T} ip i v (s : fstate T) :
  ic_quiet s → tx_rel (fs_t s) v → ic_inode s !! ip = Some i → (last_ref i → droppable (fs_sb s) v i) →
  wp (iput ip) (λ _ s', ic_quiet s' ∧ fs_sb s' = fs_sb s ∧ fs_cwd s' = fs_cwd s ∧
    if decide (last_ref i) then
      ic_inode s' = <[ip := unused i]> (ic_inode s) ∧ fs_woken s' = ip :: fs_woken s ∧
      ∃ v', tx_rel (fs_t s') v' ∧ dropped (fs_sb s) v i v'
    else ic_inode s' = <[ip := w_ref (i_ref i - 1) i]> (ic_inode s) ∧ tx_rel (fs_t s') v) s.
Proof.
  intros Hq HR Hi Hd. case_decide as Hl.
  - eapply wp_iput_drop; [done|exact HR|exact Hi|done|by apply Hd|]. intros s' v' H1 H2 H3 H4 H5 H6 H7.
    split_and!; try done. by exists v'.
  - by eapply wp_iput_ref; [done|exact HR|exact Hi|done|].
Qed.

(** ialloc gives the first inode that is free on the disk: on the disk it
    is an empty inode of the given type afterwards, the other inodes of its
    block and all other blocks are as they were, and the caller has a
    reference to its entry of the cache, of which there is still one at most
    for each inode.  It panics only when no inode is free on the disk, or no
    entry in the cache. *)
Theorem ialloc_spec {T} `{!TxStore T} type v (s : fstate T) :
  inodes_there (fs_sb s) v → tx_rel (fs_t s) v → ic_quiet s → ic_uniq (ic_inode s) → is_i16 type →
  wpe (ialloc 1 type) (ialloc_post type s v) (ialloc_fails s v) s.
Proof.
  intros H1 H2 H3 H4 H5. unfold ialloc. apply wpe_bind. wstep. apply wpe_ialloc_loop; try done; [lia|lia|]. intros m Hm. lia.
Qed.

(** ** Witness: the file of Contents.v, without a name *)

Definition inode_u : inode := w_nlink 0 (w_flags 2 inode_w).
Definition fs_u : fstate (bstate * logst) :=
  mkFs (fs_b0, wl0) fs_sb0 lock0 (<[7%nat := inode_u]> (replicate NINODE inode0)) [] 0.

Lemma fs_u_droppable : droppable fs_sb0 fs_v0 inode_u.
Proof.
  split.
  - destruct fs_w_open as [O1 O2 O3 [K1 K2 K3 K4 K5 K6 K7] O5 O6 O7 O8 O9 O10]. by split.
  - done.
  - split; [|done]. exists sb_block. split; [vm_compute; reflexivity|apply sb_block_sb].
  - unfold free_room. vm_compute. lia.
  - by vm_compute.
  - change (1 ∉ [34]). rewrite list_elem_of_singleton. done.
Qed.

(** Block 34 was in use, and is free when the last reference is gone. *)
Lemma iput_spec_witness :
  used fs_v0 fs_sb0 34 = true ∧
  wp (iput 7) (λ _ s', ∃ v', tx_rel (fs_t s') v' ∧ used v' fs_sb0 34 = false ∧ ic_inode s' !! 7%nat = Some (unused inode_u)) fs_u.
Proof.
  split; [by vm_compute|]. eapply wp_mono; [apply (iput_spec 7 inode_u fs_v0 fs_u)|].
  - split; [reflexivity|vm_compute; done].
  - exact fs0_rel.
  - reflexivity.
  - intros _. exact fs_u_droppable.
  - intros _ s' (_ & _ & _ & H). rewrite decide_True in H by (vm_compute; done).
    destruct H as (H1 & _ & v' & H2 & H3). exists v'. split; [exact H2|]. split.
    + rewrite (dp_used _ _ _ _ H3) by done. rewrite bool_decide_eq_false_2; [done|]. intros Hn. apply Hn. by left.
    + rewrite H1. reflexivity.
Defined.

Lemma ialloc_spec_witness :
  wpe (ialloc 1 2) (λ k s', ∃ v', tx_rel (fs_t s') v' ∧ born fs_sb0 fs_v0 1 2 v') (λ _, False) fs0.
Proof.
  assert (inode_free fs_sb0 fs_v0 1) as H1 by (vm_compute; reflexivity).
  eapply wpe_mono; [apply (ialloc_spec 2 fs_v0 fs0)| |].
  - split; [split; [done|vm_compute; lia]|vm_compute; lia| |apply fs_w_blocks].
    intros inum Hi. change (sb_ninodes (fs_sb fs0)) with 8 in Hi. unfold IBLOCK. change IPB with 8.
    change (sb_inodestart (fs_sb fs0)) with 32. change (tv_len fs_v0) with 40. zdm.
  - exact fs0_rel.
  - apply fs0_quiet.
  - intros i j a b Ha Hb [Hr _] _. apply lookup_replicate in Ha as [-> _]. simpl in Hr. lia.
  - unfold is_i16. lia.
  - intros k s' (inum & a & a' & v' & B1 & B2 & B3 & _ & _ & _ & _ & _ & _ & B4 & B5).
    assert (inum = 1) as -> by (destruct (decide (inum = 1)) as [|Hne]; [done|]; exfalso; apply (B3 1); [lia|exact H1]).
    exists v'. by split.
  - intros msg [[_ Hno]|(_ & inum & _ & Hall)]; [apply (Hno 1); [by vm_compute|exact H1]|].
    destruct (Hall 0%nat inode0) as [_ Hr]; [reflexivity|]. by apply Hr.
Defined.
