(* ===== verification/Names.v ===== *)
(** * Path names (ilock, iunlock and namex of xv6/fs.c)

    A path against the tree of directories on the disk: [resolve] follows it
    through the bytes of the directories; namex finds the inode it gives,
    through the inode cache, and takes one reference to it and no other. *)

From stdpp Require Import gmap list.
From S2P Require Import Prelude Kernel Spinlock CString Block Bio Log Tx Fs Layout Contents Dir Inode.
Local Open Scope Z_scope.

(** ** The tree on the disk *)

(** The inode the disk has, and the bytes of its file. *)
Definition dino (sb : superblock) (v : tview) (inum : Z) : inode :=
  get_dinode (idoff inum) (blk (tv_cur v) (IBLOCK inum sb)) (mkInode 1 inum 0 0 0 0 0 0 0 []).
Definition dbytes (sb : superblock) (v : tview) (inum : Z) : list Z := fdata (tv_cur v) (dino sb v inum).

(** [P] is a set of inodes in use that the directories do not leave. *)
Record tree (sb : superblock) (v : tview) (P : Z → Prop) : Prop := {
  tr_in inum : P inum → 0 ≤ IBLOCK inum sb < tv_len v;
  tr_used inum : P inum → i_type (dino sb v inum) ≠ 0 ∧ i_nlink (dino sb v inum) ≠ 0;
  tr_dir inum : P inum → i_type (dino sb v inum) = T_DIR →
    mapped (tv_cur v) (dino sb v inum) ∧ dir_ok (dbytes sb v inum) ∧
    ∀ name m, dir_get (dbytes sb v inum) name = Some m → P m;
}.

(** The inode the names lead to from [inum]; with [parent], the directory
    that has the last name. *)
Fixpoint resolve (sb : superblock) (v : tview) (parent : bool) (inum : Z) (names : list (list Z)) : option Z :=
  match names with
  | [] => if parent then None else Some inum
  | n :: names =>
      if negb (i_type (dino sb v inum) =? T_DIR) then None else
      if parent && bool_decide (names = []) then Some inum else
      m ← dir_get (dbytes sb v inum) n; resolve sb v parent m names
  end.

(** ** The inode cache *)

(** An entry with the contents of the disk inode [d]. *)
Definition fill (d a : inode) : inode :=
  mkInode (i_dev a) (i_inum a) (i_ref a) (i_flags a) (i_type d) (i_major d) (i_minor d) (i_nlink d) (i_size d) (i_addrs d).

Lemma fill_ref d a x : a = fill d a → w_ref x a = fill d (w_ref x a).
Proof. destruct a. unfold fill, w_ref. cbn. congruence. Qed.
Lemma fill_flags d a x : a = fill d a → w_flags x a = fill d (w_flags x a).
Proof. destruct a. unfold fill, w_flags. cbn. congruence. Qed.

(** Entries in use are of inodes of the tree; valid ones agree with the disk;
    the only one locked is [lk]. *)
Definition entry_ok (sb : superblock) (v : tview) (P : Z → Prop) (lk : option nat) (k : nat) (a : inode) : Prop :=
  0 ≤ i_ref a ∧
  (lk = Some k → 0 < i_ref a) ∧
  (0 < i_ref a → i_dev a = 1 ∧ P (i_inum a) ∧
    if decide (lk = Some k) then i_flags a = 3 ∧ a = fill (dino sb v (i_inum a)) a
    else i_flags a = 0 ∨ i_flags a = I_VALID ∧ a = fill (dino sb v (i_inum a)) a).

Definition coherent (sb : superblock) (v : tview) (P : Z → Prop) (lk : option nat) (l : list inode) : Prop :=
  ∀ k a, l !! k = Some a → entry_ok sb v P lk k a.

Section inv.
Context {T : Type} `{!TxStore T}.
Abbreviation st := (fstate T).
Implicit Types (s : st).

Record ninv (sb : superblock) (v : tview) (P : Z → Prop) (lk : option nat) s : Prop := {
  ni_rel : tx_rel (fs_t s) v;
  ni_quiet : ic_quiet s;
  ni_uniq : ic_uniq (ic_inode s);
  ni_cache : coherent sb v P lk (ic_inode s);
  ni_sb : fs_sb s = sb;
}.
End inv.

(** The reference counts change by [f]; entries in use keep their inode. *)
Definition moved (f : nat → Z) (l l' : list inode) : Prop :=
  ∀ j a, l !! j = Some a → ∃ a', l' !! j = Some a' ∧ i_ref a' = i_ref a + f j ∧ (0 < i_ref a → i_inum a' = i_inum a).

Definition one (k j : nat) : Z := if decide (j = k) then 1 else 0.

Lemma moved_refl l : moved (λ _, 0) l l.
Proof. intros j a Ha. exists a. split_and!; [done|lia|done]. Qed.

Lemma moved_trans f g h l l' l'' : moved f l l' → moved g l' l'' → (∀ j, 0 ≤ f j) → (∀ j, f j + g j = h j) → moved h l l''.
Proof.
  intros H1 H2 Hf Hh j a Ha. destruct (H1 j a Ha) as (a1 & Ha1 & R1 & I1). destruct (H2 j a1 Ha1) as (a2 & Ha2 & R2 & I2).
  specialize (Hf j). specialize (Hh j). exists a2. split_and!; [done|lia|]. intros Hr. rewrite I2 by lia. by apply I1.
Qed.

Lemma moved_insert l k a a' : l !! k = Some a → (0 < i_ref a → i_inum a' = i_inum a) →
  moved (λ j, if decide (j = k) then i_ref a' - i_ref a else 0) l (<[k := a']> l).
Proof.
  intros Hk Hi j b Hb. pose proof (lookup_lt_Some _ _ _ Hk) as Hlt. destruct (decide (j = k)) as [->|Hne].
  - rewrite Hk in Hb. injection Hb as <-. exists a'. rewrite list_lookup_insert_eq by done. split_and!; [done|lia|done].
  - exists b. rewrite list_lookup_insert_ne by done. split_and!; [done|lia|done].
Qed.

Lemma one_pos k j : 0 ≤ one k j.
Proof. unfold one. case_decide; lia. Qed.

Lemma ic_uniq_upd l k a a' : ic_uniq l → l !! k = Some a → 0 < i_ref a → i_dev a' = i_dev a → i_inum a' = i_inum a →
  ic_uniq (<[k := a']> l).
Proof.
  intros Hu Hk Hr H1 H2. eapply ic_uniq_insert; [done|exact Hk|]. rewrite H1, H2. intros j b Hj Hb Hc. apply Hj.
  by apply (Hu j k b a).
Qed.

Lemma coherent_upd sb v P lk lk' l k a' : coherent sb v P lk l → (k < length l)%nat → entry_ok sb v P lk' k a' →
  (∀ j a, j ≠ k → entry_ok sb v P lk j a → entry_ok sb v P lk' j a) → coherent sb v P lk' (<[k := a']> l).
Proof.
  intros Hc Hk He Ho j b. rewrite lookup_insert_case by done. case_decide as Hjk; [intros [= <-]; by subst j|].
  intros Hb. apply Ho; [done|]. by apply Hc.
Qed.

(** Taking or giving back the lock of [k] is nothing to the other entries. *)
Lemma entry_ok_lock sb v P k j a : j ≠ k → entry_ok sb v P None j a ↔ entry_ok sb v P (Some k) j a.
Proof.
  intros Hj. unfold entry_ok. rewrite decide_False by done. rewrite (decide_False (P := Some k = Some j)) by congruence.
  split; intros (H1 & H2 & H3); split_and!; try done; congruence.
Qed.

(** ** Operations on the cache *)

Section ops.
Context {T : Type} `{!TxStore T} (sb : superblock) (v : tview) (P : Z → Prop).
Context (Hidle : idle v) (Htree : tree sb v P).
Abbreviation st := (fstate T).
Abbreviation inv := (ninv (T:=T) sb v P).
Implicit Types (s : st).

(** One critical section of icache.lock, entered in [s], that changes an entry. *)
Lemma ninv_t lk lk' s s' k a' : inv lk s → tx_rel (fs_t s') v → ic_quiet s' → ic_inode s' = <[k := a']> (ic_inode s) → fs_sb s' = fs_sb s →
  ic_uniq (<[k := a']> (ic_inode s)) → (k < length (ic_inode s))%nat → entry_ok sb v P lk' k a' →
  (∀ j a, j ≠ k → entry_ok sb v P lk j a → entry_ok sb v P lk' j a) → inv lk' s'.
Proof.
  intros [I1 I2 I3 I4 I5] Ht Hq Hi Hs Hu Hk He Ho. split; [done|done|by rewrite Hi| |congruence].
  rewrite Hi. by eapply coherent_upd.
Qed.

Lemma wp_ilock_ok ip a s (Q : unit → st → Prop) :
  inv None s → ic_inode s !! ip = Some a → 0 < i_ref a →
  (∀ s', inv (Some ip) s' → ic_inode s' = <[ip := w_flags 3 (fill (dino sb v (i_inum a)) a)]> (ic_inode s) →
     fs_cwd s' = fs_cwd s → Q tt s') →
  wp (ilock ip) Q s.
Proof using Hidle Htree.
  intros Hi Ha Hr HQ. pose proof Hi as [I1 I2 I3 I4 I5]. pose proof (lookup_lt_Some _ _ _ Ha) as Hlt.
  destruct (I4 ip a Ha) as (E1 & _ & E2). destruct (E2 Hr) as (Hdev & HP & Hfl). rewrite decide_False in Hfl by done.
  set (d := dino sb v (i_inum a)) in *.
  assert (Hbusy : Z.land (i_flags a) I_BUSY = 0) by (by destruct Hfl as [->|[-> _]]).
  assert (∀ s', tx_rel (fs_t s') v → ic_quiet s' → fs_sb s' = fs_sb s → fs_cwd s' = fs_cwd s →
    ic_inode s' = <[ip := w_flags 3 (fill d a)]> (ic_inode s) → Q tt s') as Hend.
  { intros s' R Hq Hs Hc Hin. apply HQ; [|done|done]. eapply (ninv_t None); [exact Hi|done|done|exact Hin|done| |done| |].
    - by eapply ic_uniq_upd.
    - split; [done|]. split; [done|]. intros _. split; [done|]. split; [done|]. by rewrite decide_True.
    - intros j b Hj. by apply entry_ok_lock. }
  unfold ilock. wstep. eapply wp_geti; [exact Ha|]. rewrite (proj2 (Z.ltb_ge _ _)) by lia.
  wstep. apply wp_acquire; [apply _..|done|]. wstep. eapply wp_geti; [exact Ha|]. rewrite Hbusy. change (negb (0 =? 0)) with false. cbv iota.
  wstep. eapply wp_updi; [exact Ha|]. wstep. eapply (wp_ic_release s _ v); [done|exact I1|done|done|].
  intros s2 Q2 R2 F1 F2 F3 F4. cbn [ic_inode set_inodes fs_sb fs_cwd] in F1, F3, F4.
  set (a1 := w_flags (Z.lor (i_flags a) I_BUSY) a) in *.
  assert (ic_inode s2 = <[ip := a1]> (ic_inode s)) as Hs2 by exact F1.
  assert (ic_inode s2 !! ip = Some a1) as Ha1 by (rewrite Hs2; by apply list_lookup_insert_eq).
  assert (fs_sb s2 = sb) as F3' by (etransitivity; [exact F3|exact I5]).
  destruct Hfl as [Hf0|[Hf2 Hfill]].
  - pose proof (tr_in _ _ _ Htree _ HP) as Hx. unfold tv_len in Hx.
    destruct (lookup_lt_is_Some_2 (tv_cur v) (Z.to_nat (IBLOCK (i_inum a) sb))) as [bl Hbl]; [lia|].
    assert (get_dinode (idoff (i_inum a1)) bl a1 = fill d a1) as Hg.
    { unfold d, dino, blk. change (i_inum a1) with (i_inum a). rewrite Hbl. reflexivity. }
    eapply (wp_ilock_read s2 v ip a1 bl); [exact R2|exact Ha1|done|unfold a1; cbn; by rewrite Hf0| | | |].
    + rewrite F3'. by apply idle_readable.
    + rewrite F3'. exact Hbl.
    + rewrite Hg. exact (proj1 (tr_used _ _ _ Htree _ HP)).
    + intros t Ht. rewrite Hg. apply Hend; [exact Ht|by eapply (ic_quiet_t t s2)|exact F3|exact F4|].
      cbn [ic_inode set_inodes]. rewrite Hs2, list_insert_insert_eq. f_equal. unfold a1, w_flags, fill. cbn. by rewrite Hf0.
  - unfold ilock_read. wstep. eapply wp_geti; [exact Ha1|].
    assert (Z.land (i_flags a1) I_VALID =? 0 = false) as -> by (unfold a1; cbn; by rewrite Hf2).
    wstep. apply Hend; [exact R2|done|exact F3|exact F4|]. rewrite Hs2. f_equal.
    rewrite <- Hfill. unfold a1. by rewrite Hf2.
Qed.

Lemma wp_iunlock_ok ip a s (Q : unit → st → Prop) :
  inv (Some ip) s → ic_inode s !! ip = Some a →
  (∀ s', inv None s' → ic_inode s' = <[ip := w_flags 2 a]> (ic_inode s) → fs_cwd s' = fs_cwd s → Q tt s') →
  wp (iunlock ip) Q s.
Proof.
  intros Hi Ha HQ. pose proof Hi as [I1 I2 I3 I4 I5]. pose proof (lookup_lt_Some _ _ _ Ha) as Hlt.
  destruct (I4 ip a Ha) as (E1 & E2 & E3). specialize (E2 eq_refl). destruct (E3 E2) as (Hdev & HP & Hfl).
  rewrite decide_True in Hfl by done. destruct Hfl as [Hf Hfill].
  unfold iunlock. wstep. eapply wp_geti; [exact Ha|].
  assert ((Z.land (i_flags a) I_BUSY =? 0) || (i_ref a <? 1) = false) as ->.
  { rewrite Hf. cbn [Z.eqb]. rewrite (proj2 (Z.ltb_ge _ _)) by lia. done. }
  wstep. apply wp_acquire; [apply _..|done|]. wstep. eapply wp_updi; [exact Ha|]. wstep. unfold wakeupi. wstep.
  eapply (wp_ic_release s _ v); [done|exact I1|done|done|].
  intros s2 Q2 R2 F1 F2 F3 F4. cbn [ic_inode set_inodes add_woken] in F1, F3, F4.
  rewrite Hf in F1. change (Z.land 3 (Z.lnot I_BUSY)) with 2 in F1.
  apply HQ; [|exact F1|done]. eapply (ninv_t (Some ip)); [exact Hi|done|done|exact F1|done| |done| |].
  - by eapply ic_uniq_upd.
  - split; [done|]. split; [done|]. intros _. split; [done|]. split; [done|]. rewrite decide_False by done. right. split; [done|].
    by apply fill_flags.
  - intros j b Hj. by apply entry_ok_lock.
Qed.

(** A reference that is not the last one to a removed file: no file of the tree is. *)
Lemma wp_iput_ok ip a s (Q : unit → st → Prop) :
  inv None s → ic_inode s !! ip = Some a → 0 < i_ref a →
  (∀ s', inv None s' → ic_inode s' = <[ip := w_ref (i_ref a - 1) a]> (ic_inode s) → fs_cwd s' = fs_cwd s → Q tt s') →
  wp (iput ip) Q s.
Proof using Htree.
  intros Hi Ha Hr HQ. pose proof Hi as [I1 I2 I3 I4 I5]. pose proof (lookup_lt_Some _ _ _ Ha) as Hlt.
  destruct (I4 ip a Ha) as (E1 & _ & E2). destruct (E2 Hr) as (Hdev & HP & Hfl). rewrite decide_False in Hfl by done.
  eapply (wp_iput_ref ip a v); [done|exact I1|exact Ha| |].
  - intros (_ & Hv & Hn). destruct Hfl as [Hf|[Hf Hfill]]; [by rewrite Hf in Hv|].
    apply (proj2 (tr_used _ _ _ Htree _ HP)). rewrite Hfill in Hn. exact Hn.
  - intros s' F1 F2 F3 F4 F5. apply HQ; [|done|done]. eapply (ninv_t None); [exact Hi|done|done|exact F1|done| |done| |done].
    + by eapply ic_uniq_upd.
    + split; [cbn; lia|]. split; [done|]. intros Hr'. split; [done|]. split; [done|]. rewrite decide_False by done.
      destruct Hfl as [Hf|[Hf Hfill]]; [by left|right]. split; [done|]. by apply fill_ref.
Qed.

(** iget of an inode of the tree. *)
Lemma gotten_ok lk k a a' inum s s' : inv lk s → P inum → ic_inode s !! k = Some a → gotten 1 inum a a' →
  ic_inode s' = <[k := a']> (ic_inode s) → ic_uniq (ic_inode s') → ic_quiet s' → tx_rel (fs_t s') v → fs_sb s' = fs_sb s →
  inv lk s' ∧ moved (one k) (ic_inode s) (ic_inode s') ∧ cached 1 inum a'.
Proof.
  intros Hi HP Ha Hg Hin Hu Hq HR Hs. pose proof Hi as [I1 I2 I3 I4 I5]. pose proof (lookup_lt_Some _ _ _ Ha) as Hlt.
  destruct (I4 k a Ha) as (E1 & E2 & E3).
  assert (i_ref a' = i_ref a + 1 ∧ (0 < i_ref a → i_inum a' = i_inum a) ∧ cached 1 inum a' ∧ entry_ok sb v P lk k a') as (G1 & G2 & G3 & G4).
  { destruct Hg as [((C1 & C2 & C3) & ->)|(C1 & ->)].
    - split; [done|]. split; [done|]. split; [split_and!; cbn; [lia|done|done]|]. destruct (E3 C1) as (Hdev & HP' & Hf). split; [cbn; lia|]. split; [cbn; lia|].
      intros _. split; [done|]. split; [done|]. case_decide.
      + destruct Hf as [Hf Hfill]. split; [done|]. by apply fill_ref.
      + destruct Hf as [Hf|[Hf Hfill]]; [by left|right]. split; [done|]. by apply fill_ref.
    - split; [cbn; lia|]. split; [lia|]. split; [done|]. split; [cbn; lia|]. split; [cbn; lia|]. intros _. split; [done|]. split; [done|].
      rewrite decide_False by (intros ->; specialize (E2 eq_refl); lia). by left. }
  split_and!; [|rewrite Hin; eapply (moved_trans (λ _, 0) _ _ _ (ic_inode s)); [apply moved_refl|by eapply moved_insert|done|]|done].
  - eapply (ninv_t lk); [exact Hi|done|done|exact Hin|done|by rewrite <- Hin|done|done|done].
  - intros j. cbn. unfold one. destruct (decide (j = k)); lia.
Qed.

(** The directory entry [ip], locked. *)
Lemma locked_entry ip a s : inv (Some ip) s → ic_inode s !! ip = Some a →
  0 < i_ref a ∧ P (i_inum a) ∧ i_flags a = 3 ∧ a = fill (dino sb v (i_inum a)) a ∧ i_dev a = 1.
Proof.
  intros [_ _ _ I4 _] Ha. destruct (I4 ip a Ha) as (_ & E2 & E3). specialize (E2 eq_refl).
  destruct (E3 E2) as (H1 & H2 & H3). rewrite decide_True in H3 by done. tauto.
Qed.

Lemma fill_data d a cur : fdata cur (fill d a) = fdata cur d.
Proof. done. Qed.

Lemma fill_mapped d a cur : i_dev a = 1 → mapped cur d → mapped cur (fill d a).
Proof. intros H [H1 H2 H3]. by split. Qed.

(** iunlockput of a directory whose lock we hold, after any other references were taken. *)
Lemma wp_iunlockput_ok ip a s (Q : unit → st → Prop) :
  inv (Some ip) s → ic_inode s !! ip = Some a →
  (∀ s', inv None s' → moved (λ j, - one ip j) (ic_inode s) (ic_inode s') → fs_cwd s' = fs_cwd s →
     (∀ j b, ic_inode s !! j = Some b → ∃ b', ic_inode s' !! j = Some b' ∧ i_inum b' = i_inum b ∧ i_dev b' = i_dev b) → Q tt s') →
  wp (iunlockput ip) Q s.
Proof using Htree.
  intros Hi Ha HQ. destruct (locked_entry ip a s Hi Ha) as (Hr & _). pose proof (lookup_lt_Some _ _ _ Ha) as Hlt.
  unfold iunlockput. wstep. eapply wp_iunlock_ok; [exact Hi|exact Ha|]. intros s1 Hi1 E1 C1.
  eapply (wp_iput_ok ip (w_flags 2 a)); [exact Hi1|rewrite E1; by apply list_lookup_insert_eq|done|]. intros s2 Hi2 E2 C2.
  rewrite E1, list_insert_insert_eq in E2. apply HQ; [done| |congruence|].
  - rewrite E2. eapply (moved_trans (λ _, 0) _ _ _ (ic_inode s)); [apply moved_refl|by eapply moved_insert|done|].
    intros j. cbn. unfold one. destruct (decide (j = ip)); lia.
  - intros j b Hb. rewrite E2, lookup_insert_case by done. case_decide; [subst j|by exists b]. rewrite Ha in Hb. injection Hb as <-. by eexists.
Qed.

Context (dr : Z → option (nat → Z → M (fstate T) (list Z * Z))).

(** dirlookup in a locked directory of the tree. *)
Lemma wpe_dirlookup_ok ip a name s (Q : option (nat * Z) → st → Prop) :
  inv (Some ip) s → ic_inode s !! ip = Some a → i_type a = T_DIR →
  (dir_get (dbytes sb v (i_inum a)) name = None → ∀ s', inv (Some ip) s' → ic_inode s' = ic_inode s → fs_cwd s' = fs_cwd s → Q None s') →
  (∀ m k off s', dir_get (dbytes sb v (i_inum a)) name = Some m → inv (Some ip) s' → moved (one k) (ic_inode s) (ic_inode s') →
     (∃ b, ic_inode s' !! k = Some b ∧ cached 1 m b) → (∃ a', ic_inode s' !! ip = Some a' ∧ i_inum a' = i_inum a) →
     fs_cwd s' = fs_cwd s → Q (Some (k, off)) s') →
  wpe (dirlookup dr ip name) Q (λ msg, msg = "iget: no inodes"%string) s.
Proof using Hidle Htree.
  intros Hi Ha Hty HN HS. destruct (locked_entry ip a s Hi Ha) as (Hr & HP & Hf & Hfill & Hdev). pose proof Hi as [I1 I2 I3 I4 I5].
  assert (i_type (dino sb v (i_inum a)) = T_DIR) as Htd by (rewrite Hfill in Hty; exact Hty).
  destruct (tr_dir _ _ _ Htree _ HP Htd) as (Hm & Hok & Hcl).
  assert (fdata (tv_cur v) a = dbytes sb v (i_inum a)) as Hd by (rewrite Hfill at 1; done).
  assert (mapped (tv_cur v) a) as Hma by (rewrite Hfill; by apply fill_mapped).
  eapply (wpe_dirlookup dr ip a v name); try done; rewrite ?Hd; [done| |].
  - intros Hno t Ht. apply HN; [unfold dir_get; by rewrite Hno| |done|done]. split; [done|by eapply ic_quiet_t|done|done|done].
  - intros k Hk r s' (j & b & b' & -> & H1 & H2 & H3 & H4 & H5 & H6 & H7 & H8).
    assert (dir_get (dbytes sb v (i_inum a)) name = Some (de_inum (dent (dbytes sb v (i_inum a)) k))) as Hget by (unfold dir_get; by rewrite Hk).
    destruct (gotten_ok (Some ip) j b b' _ s s' Hi (Hcl _ _ Hget) H1 H3 H2 H4 H5 H6 H7) as (G1 & G2 & G3).
    pose proof (lookup_lt_Some _ _ _ H1) as Hlt.
    eapply HS; [exact Hget|done|exact G2| | |done].
    + exists b'. rewrite H2, list_lookup_insert_eq by done. done.
    + destruct (G2 ip a Ha) as (a' & Ha' & _ & Hin). exists a'. split; [done|by apply Hin].
Qed.

(** What following a path from [s0] to [s] leaves: one reference to the
    result, or none. *)
Definition ended (s0 s : st) (target : option Z) (r : option nat) : Prop :=
  inv None s ∧ fs_cwd s = fs_cwd s0 ∧
  match target with
  | None => r = None ∧ moved (λ _, 0) (ic_inode s0) (ic_inode s)
  | Some m => ∃ k a, r = Some k ∧ moved (one k) (ic_inode s0) (ic_inode s) ∧ ic_inode s !! k = Some a ∧ cached 1 m a
  end.
End ops.

(** ** Names *)

Lemma dir_get_name D name name' : name_str DIRSIZ name = name_str DIRSIZ name' → dir_get D name = dir_get D name'.
Proof.
  intros H. unfold dir_get, dfind. replace (dscan (de_match name') D 0 (dlen D)) with (dscan (de_match name) D 0 (dlen D)); [done|].
  generalize 0%nat. induction (dlen D) as [|n IH]; intros k; [done|]. cbn [dscan]. rewrite (de_match_name name name' _ H). by rewrite IH.
Qed.

(** The first name of a path and the rest, as skipelem gives them. *)
Lemma skipelem_split path name : Forall (.≠ 0) path → length name = DIRSIZ →
  match skipelem path name with
  | None => split_path path [] = []
  | Some (path', name') => ∃ e, split_path path [] = e :: split_path path' [] ∧ name_str DIRSIZ name' = take DIRSIZ e ∧
      length name' = DIRSIZ ∧ Forall (.≠ 0) path' ∧ (length path' < length path)%nat ∧ Forall (.≠ 0) e ∧
      (path' = [] ↔ split_path path' [] = [])
  end.
Proof.
  intros Hp Hn. unfold skipelem. rewrite <-split_path_skip.
  pose proof (skip_slashes_head path) as Hh. pose proof (skip_slashes_length path) as Hl.
  pose proof (skip_slashes_nonzero path Hp) as Hz. destruct (skip_slashes path) as [|c p] eqn:Es; [done|].
  rewrite split_path_span. destruct (span_elem (c :: p)) as [e r] eqn:Ee.
  destruct (span_elem_spec _ _ _ Ee) as (H1 & H2 & H3). destruct (H2 Hz) as [He Hr].
  specialize (H3 Hh). pose proof (skipelem_name e name He Hn) as [Hn' Hs]. cbv zeta in Hn', Hs.
  pose proof (skip_slashes_length r). assert (length e ≠ 0)%nat by (by destruct e).
  exists e. cbn [rev app]. rewrite bool_decide_eq_false_2 by done. rewrite split_path_skip. split_and!; try done.
  - by apply skip_slashes_nonzero.
  - simpl in *. lia.
  - rewrite <- (split_path_skip r). pose proof (skip_slashes_head r) as Hh'. destruct (skip_slashes r) as [|c' r'] eqn:Er; [done|].
    split; [done|]. rewrite split_path_span. destruct (span_elem (c' :: r')) as [e' r''] eqn:Ee'.
    destruct (span_elem_spec _ _ _ Ee') as (_ & _ & H4). specialize (H4 Hh'). cbn [rev app]. by rewrite bool_decide_eq_false_2.
Qed.

(** ** namex *)

Section namex.
Context {T : Type} `{!TxStore T} (sb : superblock) (v : tview) (P : Z → Prop).
Context (Hidle : idle v) (Htree : tree sb v P).
Context (dr : Z → option (nat → Z → M (fstate T) (list Z * Z))).
Abbreviation st := (fstate T).
Abbreviation inv := (ninv (T:=T) sb v P).
Implicit Types (s : st).

Definition namex_post (parent : bool) s0 (inum : Z) (names : list (list Z)) (r : option nat * list Z) s' : Prop :=
  ended sb v P s0 s' (resolve sb v parent inum names) r.1 ∧
  (parent = true → r.1 ≠ None → last names = Some (name_str DIRSIZ r.2)).

Lemma ended_none s0 s s' ip r : inv None s' → r = None → fs_cwd s' = fs_cwd s → fs_cwd s = fs_cwd s0 →
  moved (one ip) (ic_inode s0) (ic_inode s) → moved (λ j, - one ip j) (ic_inode s) (ic_inode s') → ended sb v P s0 s' None r.
Proof.
  intros Hi -> H1 H2 M1 M2. split_and!; [done|congruence|done|]. eapply moved_trans; [exact M1|exact M2|apply one_pos|]. intros j. cbn. lia.
Qed.

Lemma wpe_namex_loop parent s0 : ∀ fuel ip path name s inum a,
  inv None s → ic_inode s !! ip = Some a → cached 1 inum a → moved (one ip) (ic_inode s0) (ic_inode s) → fs_cwd s = fs_cwd s0 →
  Forall (.≠ 0) path → length name = DIRSIZ → (length path < fuel)%nat →
  wpe (namex_loop dr fuel ip path parent name) (namex_post parent s0 inum (take DIRSIZ <$> split_path path []))
    (λ msg, msg = "iget: no inodes"%string) s.
Proof using Hidle Htree.
  induction fuel as [|fuel IH]; intros ip path name s inum a Hi Ha Hc Hmv Hcwd Hp Hn Hf; [lia|]. pose proof Hc as (Hr & _ & Hin).
  pose proof (lookup_lt_Some _ _ _ Ha) as Hlt.
  cbn [namex_loop]. pose proof (skipelem_split path name Hp Hn) as Hsk. destruct (skipelem path name) as [[path' name']|].
  2:{ rewrite Hsk. cbn [fmap list_fmap]. destruct parent; apply wpe_wp.
    - wstep. eapply wp_iput_ok; [done|exact Hi|exact Ha|exact Hr|]. intros s' Hi' E C. wstep. split; [|done].
      split_and!; [done|congruence|]. cbn [resolve fst]. split; [done|]. rewrite E. eapply moved_trans; [exact Hmv|by eapply moved_insert|apply one_pos|].
      intros j. cbn. unfold one. destruct (decide (j = ip)); lia.
    - wstep. split; [|done]. split_and!; [done|done|]. by exists ip, a. }
  destruct Hsk as (e & -> & Hname & Hn' & Hp' & Hlen & He & Hlast). cbn [fmap list_fmap].
  set (names := take DIRSIZ <$> split_path path' []).
  assert (path' = [] ↔ names = []) as Hlast'.
  { rewrite Hlast. unfold names. by destruct (split_path path' []). }
  apply wpe_bind. eapply wp_ilock_ok; [exact Hidle|done|exact Hi|exact Ha|exact Hr|]. intros s1 Hi1 E1 C1. rewrite Hin in E1.
  set (a1 := w_flags 3 (fill (dino sb v inum) a)) in *.
  assert (ic_inode s1 !! ip = Some a1) as Ha1 by (rewrite E1; by apply list_lookup_insert_eq).
  assert (moved (one ip) (ic_inode s0) (ic_inode s1)) as Hmv1.
  { rewrite E1. eapply moved_trans; [exact Hmv|by eapply (moved_insert _ ip a a1)|apply one_pos|].
    intros j. cbn. destruct (decide (j = ip)); lia. }
  apply wpe_bind. eapply wp_geti; [exact Ha1|]. change (i_type a1) with (i_type (dino sb v inum)).
  unfold namex_post. cbn [resolve]. destruct (Z.eqb_spec (i_type (dino sb v inum)) T_DIR) as [Hd|Hd]; cbn [negb].
  2:{ apply wpe_wp. wstep. eapply wp_iunlockput_ok; [exact Htree|exact Hi1|exact Ha1|]. intros s2 Hi2 M2 C2 _. wstep. split; [|done].
    by eapply (ended_none s0 s1 s2); [done|done|congruence|congruence|exact Hmv1|exact M2]. }
  rewrite (bool_decide_ext (path' = []) (names = [])) by exact Hlast'.
  destruct (parent && bool_decide (names = [])) eqn:Epar.
  { apply andb_true_iff in Epar as [-> Enil%bool_decide_eq_true]. apply wpe_wp. wstep. eapply wp_iunlock_ok; [exact Hi1|exact Ha1|].
    intros s2 Hi2 E2 C2. wstep. split.
    - split_and!; [done|congruence|]. exists ip, (w_flags 2 a1). cbn [fst]. rewrite E2.
      split; [done|]. split; [|split; [apply list_lookup_insert_eq; by eapply lookup_lt_Some|done]]. eapply moved_trans; [exact Hmv1|by eapply moved_insert|apply one_pos|]. intros j. cbn. destruct (decide (j = ip)); lia.
    - intros _ _. rewrite Enil. cbn [last snd]. by rewrite Hname. }
  assert (dir_get (dbytes sb v inum) name' = dir_get (dbytes sb v inum) (take DIRSIZ e)) as Hget.
  { apply dir_get_name. rewrite Hname, name_str_full by (by apply Forall_take). by rewrite take_take, Nat.min_id. }
  apply wpe_bind_e. eapply (wpe_dirlookup_ok sb v P Hidle Htree dr ip a1 name'); [exact Hi1|exact Ha1|exact Hd| |].
  - change (i_inum a1) with (i_inum a). rewrite Hin, Hget. intros Hno s2 Hi2 E2 C2. apply wpe_wp. wstep.
    eapply wp_iunlockput_ok; [exact Htree|exact Hi2|by rewrite E2|]. intros s3 Hi3 M3 C3 _. wstep. split; [|done].
    rewrite Hno. cbn [mbind option_bind]. rewrite E2 in M3. by eapply (ended_none s0 s1 s3); [done|done|congruence|congruence|exact Hmv1|exact M3].
  - change (i_inum a1) with (i_inum a). rewrite Hin, Hget. intros m k off s2 Hm Hi2 M2 (b & Hb & Hbc) (a2 & Ha2 & _) C2.
    apply wpe_bind. eapply wp_iunlockput_ok; [exact Htree|exact Hi2|exact Ha2|]. intros s3 Hi3 M3 C3 K3.
    rewrite Hm. cbn [mbind option_bind].
    destruct (M3 k b Hb) as (b' & Hb' & Rb & _). destruct (K3 k b Hb) as (b'' & Hb'' & Ib & Db). rewrite Hb' in Hb''. injection Hb'' as <-.
    destruct Hbc as (B1 & B2 & B3). assert (0 < i_ref b') as Hrb.
    { destruct (M2 ip a1 Ha1) as (a2' & Ha2' & R2 & _). rewrite Ha2 in Ha2'. injection Ha2' as <-. rewrite Rb. unfold one in *.
      destruct (decide (k = ip)) as [->|]; [|lia]. rewrite Ha2 in Hb. injection Hb as <-. rewrite decide_True in R2 by done.
      change (i_ref a1) with (i_ref a) in R2. lia. }
    eapply wpe_mono; [eapply (IH k path' name' s3 m b'); [exact Hi3|exact Hb'|split_and!; [done|congruence|congruence]| |congruence|done|done|lia]| |done].
    2:{ intros r s' [H1 H2]. split; [exact H1|]. intros Hpar Hr'. rewrite last_cons. fold names in H2. by rewrite H2. }
    eapply moved_trans; [eapply (moved_trans _ _ (λ j, one ip j + one k j)); [exact Hmv1|exact M2|apply one_pos|done]|exact M3| |].
    + intros j. pose proof (one_pos ip j). pose proof (one_pos k j). cbn. lia.
    + intros j. cbn. lia.
Qed.

(** Where a path starts. *)
Definition start (cwd : Z) (path : list Z) : Z := match path with c :: _ => if c =? SLASH then ROOTINO else cwd | [] => cwd end.

Lemma wpe_start path s c E (Q : nat → st → Prop) :
  inv None s → P ROOTINO → ic_inode s !! fs_cwd s = Some c → 0 < i_ref c → E "iget: no inodes"%string →
  (∀ k a s', inv None s' → ic_inode s' !! k = Some a → cached 1 (start (i_inum c) path) a →
     moved (one k) (ic_inode s) (ic_inode s') → fs_cwd s' = fs_cwd s → Q k s') →
  wpe (match path with
       | c :: _ => if c =? SLASH then iget ROOTDEV ROOTINO else cwd ← gets fs_cwd; idup cwd
       | [] => cwd ← gets fs_cwd; idup cwd
       end) Q E s.
Proof using Type.
  intros Hi HP Hc Hr HE HQ. pose proof Hi as [I1 I2 I3 I4 I5]. pose proof (lookup_lt_Some _ _ _ Hc) as Hlt.
  destruct (I4 _ c Hc) as (_ & _ & E3). destruct (E3 Hr) as (Hdev & HPc & _).
  assert (start (i_inum c) path = i_inum c → wpe (cwd ← gets fs_cwd; idup cwd) Q E s) as Hdup.
  { intros Hst. apply wpe_wp. wstep. wstep. unfold idup. wstep. apply wp_acquire; [apply _..|done|].
    eapply (wp_ic_update s v _ c); [done|exact I1|exact Hc|]. intros s' F1 F2 F3 F4 F5 F6.
    assert (gotten 1 (i_inum c) c (w_ref (i_ref c + 1) c)) as Hg by (left; done).
    assert (ic_uniq (ic_inode s')) as Hu by (rewrite F1; by eapply ic_uniq_upd).
    destruct (gotten_ok sb v P None (fs_cwd s) c _ _ s s' Hi HPc Hc Hg F1 Hu F2 F3 F4) as (G1 & G2 & G3).
    eapply HQ; [exact G1|rewrite F1; by apply list_lookup_insert_eq|by rewrite Hst|exact G2|done]. }
  assert (start (i_inum c) path = ROOTINO → wpe (iget ROOTDEV ROOTINO) Q E s) as Hget.
  { intros Hst. eapply wpe_iget; [done|exact I1|done| |done]. intros k a a' s' F1 F2 F3 F4 F5 F6 F7 F8.
    destruct (gotten_ok sb v P None k a a' _ s s' Hi HP F1 F3 F2 F4 F5 F6 F7) as (G1 & G2 & G3).
    eapply HQ; [exact G1| |rewrite Hst; exact G3|exact G2|done]. rewrite F2. apply list_lookup_insert_eq. by eapply lookup_lt_Some. }
  unfold start in Hdup, Hget. destruct path as [|x path]; [by apply Hdup|]. destruct (x =? SLASH); [by apply Hget|by apply Hdup].
Qed.

Lemma wpe_namex path parent name s c :
  inv None s → P ROOTINO → ic_inode s !! fs_cwd s = Some c → 0 < i_ref c → Forall (.≠ 0) path → length name = DIRSIZ →
  wpe (namex dr path parent name)
    (namex_post parent s (start (i_inum c) path) (take DIRSIZ <$> split_path path [])) (λ msg, msg = "iget: no inodes"%string) s.
Proof using Hidle Htree.
  intros Hi HP Hc Hr Hp Hn. unfold namex. apply wpe_bind_e. eapply wpe_start; [exact Hi|done|exact Hc|done|done|].
  intros k a s' H1 H2 H3 H4 H5. eapply wpe_namex_loop; [exact H1|exact H2|exact H3|exact H4|done|done|done|lia].
Qed.
End namex.

(** ** The theorem *)

(** [C22] Path names.  In a file system whose directories form a tree, with a
    cache that agrees with the disk, namex returns the inode the directories
    give to the path, from the root or from the current directory, with the
    names cut to DIRSIZ bytes; for nameiparent the directory of the last name,
    and that name.  It returns 0 exactly when a name is not there or is
    looked up in something that is not a directory.  In each case it leaves
    one reference more to the result, no other, every entry it has locked
    unlocked, and the cache in agreement with the disk; it panics only when
    the cache has no entry left. *)
Theorem namex_spec {T} `{!TxStore T} (sb : superblock) (v : tview) (P : Z → Prop) dr path parent name c (s : fstate T) :
  idle v → tree sb v P → P ROOTINO → ninv sb v P None s →
  ic_inode s !! fs_cwd s = Some c → 0 < i_ref c → Forall (.≠ 0) path → length name = DIRSIZ →
  wpe (namex dr path parent name)
    (namex_post sb v P parent s (start (i_inum c) path) (take DIRSIZ <$> split_path path []))
    (λ msg, msg = "iget: no inodes"%string) s.
Proof. intros H1 H2 H3 H4 H5 H6 H7 H8. by eapply wpe_namex. Qed.

(** ** Witness: a root directory with a file c *)

Lemma dir_get_in D name m : dir_get D name = Some m → m ≠ 0 ∧ m ∈ (λ k, de_inum (dent D k)) <$> seq 0 (dlen D).
Proof.
  unfold dir_get, dfind. destruct (dscan _ _ _ _) as [k|] eqn:E; cbn [mbind option_bind]; [|done]. intros [= <-].
  apply dscan_Some in E as (H1 & H2 & _). split.
  - intros H0. unfold de_match, de_free in H2. by rewrite H0 in H2.
  - apply list_elem_of_fmap. exists k. split; [done|]. apply elem_of_seq. lia.
Qed.

Definition root_bytes : list Z := entry [46] 1 ++ replicate 16 0 ++ entry [99] 5.
Definition root_inode (ref flags : Z) : inode := mkInode 1 1 ref flags T_DIR 0 0 1 48 (34 :: replicate 12 0).
Definition file_inode : inode := mkInode 1 5 0 0 T_FILE 0 0 1 0 (replicate 13 0).
Definition names_disk : list block :=
  <[32%nat := put_dinode (idoff 1) (root_inode 0 0) (put_dinode (idoff 5) file_inode (replicate BSIZE 0))]>
    (<[34%nat := root_bytes ++ replicate 464 0]> fs_disk).
Definition names_v : tview := mkTv names_disk ∅ ∅ ∅ 29.
Definition names_fs : fstate (bstate * logst) :=
  mkFs (mkBst cpu0 (initlock "bcache" lock0) (binit_bufs []) names_disk [] [], wl0) fs_sb0 lock0
    (<[7%nat := root_inode 1 I_VALID]> (replicate NINODE inode0)) [] 7.
Definition names_P (m : Z) : Prop := m = 1 ∨ m = 5.

Lemma names_tree : tree fs_sb0 names_v names_P.
Proof.
  assert (Forall (λ b : block, length b = BSIZE) names_disk) as Hbl by (apply (bool_decide_unpack _); vm_compute; exact I).
  split.
  - intros m [-> | ->]; by vm_compute.
  - intros m [-> | ->]; by vm_compute.
  - intros m [-> | ->]; [|intros H; by vm_compute in H]. intros _. split; [|split].
    + split; [done|by vm_compute|]. split; [done|vm_compute; lia| |vm_compute; lia|exact Hbl].
      intros k Hk. replace k with 0%nat by (vm_compute in Hk; lia). by vm_compute.
    + by vm_compute.
    + intros name m [Hm Hin]%dir_get_in. change (m ∈ [1; 0; 5]) in Hin. rewrite !elem_of_cons, elem_of_nil in Hin. unfold names_P. naive_solver.
Qed.

Lemma names_inv : ninv fs_sb0 names_v names_P None names_fs.
Proof.
  assert (∀ k a, ic_inode names_fs !! k = Some a → k = 7%nat ∧ a = root_inode 1 I_VALID ∨ a = inode0) as H.
  { intros k a. change (ic_inode names_fs) with (<[7%nat := root_inode 1 I_VALID]> (replicate NINODE inode0)).
    rewrite lookup_insert_case by (rewrite length_replicate; unfold NINODE; lia). case_decide.
    - intros [= <-]. by left.
    - intros Hk. apply lookup_replicate in Hk as [-> _]. by right. }
  split.
  - apply boot_rel.
  - split; [done|by vm_compute].
  - intros i j a b Hi Hj (Hc & _) Hr. destruct (H i a Hi) as [[-> _]| ->]; [|done]. by destruct (H j b Hj) as [[-> _]| ->].
  - intros k a Hk. destruct (H k a Hk) as [[-> ->]| ->]; [|by split_and!]. split; [done|]. split; [done|]. intros _.
    split; [done|]. split; [by left|]. rewrite decide_False by done. right. split; [done|]. by vm_compute.
  - done.
Qed.

(** namei of "//c" gives inode 5, and of "c/d" nothing. *)
Lemma namex_spec_witness :
  wpe (namex (λ _, None) [47; 47; 99] false (replicate 14 0))
    (λ r s', ∃ k a, r.1 = Some k ∧ ic_inode s' !! k = Some a ∧ i_inum a = 5) (λ msg, msg = "iget: no inodes"%string) names_fs.
Proof.
  eapply wpe_mono; [apply (namex_spec fs_sb0 names_v names_P (λ _, None) [47; 47; 99] false (replicate 14 0) (root_inode 1 I_VALID) names_fs)| |done].
  - split; [done|vm_compute; lia].
  - exact names_tree.
  - by left.
  - exact names_inv.
  - reflexivity.
  - done.
  - by repeat constructor.
  - reflexivity.
  - intros r s' [(_ & _ & H) _]. vm_compute (resolve _ _ _ _ _) in H. destruct H as (k & a & H1 & _ & H2 & (_ & _ & H3)). by exists k, a.
Defined.
