(* ===== verification/Mkfs.v ===== *)
(** * The program that makes the first file system (xv6/mkfs.c)

    A host program: it fills an image file with an empty file system and the
    files named on its command line.  All its accesses to the image are whole
    blocks at multiples of BSIZE, so the image is a list of blocks.  The
    calls of the host that open, seek and write the image are taken to
    succeed, except for the open, and the host is little-endian; what opening
    a file and reading it to the end gives is an argument, one list per
    read.  exit(1) and a failed assert are [panic]; what is printed is left
    out.  A struct dinode is the [inode] of Fs.v with its memory fields 0. *)

From stdpp Require Import list.
From S2P Require Import Prelude Kernel Spinlock CString Block Bio Log Tx Fs Layout Contents.
Local Open Scope Z_scope.

(** ** Constants and global variables *)

Definition NINODES : Z := 200.
Definition nbitmap : Z := FSSIZE / (BSZ * 8) + 1.
Definition ninodeblocks : Z := NINODES / IPB + 1.
Definition nlog : Z := LOGSIZE.
Definition nmeta : Z := 2 + nlog + ninodeblocks + nbitmap.
Definition nblocks : Z := FSSIZE - nmeta.
Definition zeroes : block := replicate BSIZE 0.

Record mkstate := mkMk {
  mk_img : list block;
  mk_sb : superblock;
  freeinode : Z;
  freeblock : Z;
}.

Definition set_img (x : list block) (s : mkstate) : mkstate := mkMk x (mk_sb s) (freeinode s) (freeblock s).
Definition set_msb (x : superblock) (s : mkstate) : mkstate := mkMk (mk_img s) x (freeinode s) (freeblock s).
Definition set_freeinode (x : Z) (s : mkstate) : mkstate := mkMk (mk_img s) (mk_sb s) x (freeblock s).
Definition set_freeblock (x : Z) (s : mkstate) : mkstate := mkMk (mk_img s) (mk_sb s) (freeinode s) x.

(** ** Operations *)

(** The bytes of the result are those of Intel order. *)
Definition xshort (x : Z) : Z := le16 (to_le16 x).
Definition xint (x : Z) : Z := le32 (to_le32 x).

(** The block at byte sec * BSIZE, an unsigned product. *)
Definition sect (sec : Z) : nat := Z.to_nat (u32 (sec * BSZ) / BSZ).

(** Writing behind the end leaves a hole, which reads as zeros. *)
Definition wsect (sec : Z) (buf : block) : M mkstate unit :=
  modify (λ s, let l := mk_img s in
    set_img (if (sect sec <? length l)%nat then <[sect sec := buf]> l
             else l ++ replicate (sect sec - length l) zeroes ++ [buf]) s).

Definition rsect (sec : Z) : M mkstate block :=
  o ← gets (λ s, mk_img s !! sect sec);
  match o with
  | Some d => mret d
  | None => panic "read"
  end.

Definition dinode0 : inode := mkInode 0 0 0 0 0 0 0 0 0 (replicate 13 0).

Definition winode (inum : Z) (ip : inode) : M mkstate unit :=
  sb ← gets mk_sb;
  let bn := IBLOCK inum sb in
  buf ← rsect bn;
  wsect bn (put_dinode (idoff inum) ip buf).

Definition rinode (inum : Z) : M mkstate inode :=
  sb ← gets mk_sb;
  let bn := IBLOCK inum sb in
  buf ← rsect bn;
  mret (get_dinode (idoff inum) buf dinode0).

Definition ialloc (type : Z) : M mkstate Z :=
  inum ← gets freeinode;
  modify (set_freeinode (u32 (inum + 1))) ;;
  winode inum (w_size (xint 0) (w_nlink (xshort 1) (w_type (xshort type) dinode0))) ;;
  mret inum.

(** The loop of balloc: the first [n] bits set. *)
Fixpoint set_bits (n : nat) (buf : block) : block :=
  match n with
  | O => buf
  | S i => let b := set_bits i buf in
           <[(i / 8)%nat := Z.lor (nth (i / 8) b 0) (Z.shiftl 1 (Z.of_nat (i mod 8)))]> b
  end.

Definition balloc (used : Z) : M mkstate unit :=
  if negb (used <? BSZ * 8) then panic "assert" else
  sb ← gets mk_sb;
  wsect (sb_bmapstart sb) (set_bits (Z.to_nat used) zeroes).

(** freeblock++ *)
Definition next_block : M mkstate Z :=
  f ← gets freeblock;
  modify (set_freeblock (u32 (f + 1))) ;;
  mret f.

(** The body of iappend's loop up to the address of the block. *)
Definition iappend_block (din : inode) (fbn : Z) : M mkstate (inode * Z) :=
  if fbn <? NDIRECT then
    let k := Z.to_nat fbn in
    a ← deref (i_addrs din !! k);
    din ← (if xint a =? 0 then f ← next_block; mret (w_addr k (xint f) din) else mret din);
    a ← deref (i_addrs din !! k);
    mret (din, xint a)
  else
    let k := Z.to_nat NDIRECT in
    a ← deref (i_addrs din !! k);
    din ← (if xint a =? 0 then f ← next_block; mret (w_addr k (xint f) din) else mret din);
    a ← deref (i_addrs din !! k);
    indirect ← rsect (xint a);
    let o := (4 * Z.to_nat (fbn - NDIRECT))%nat in
    indirect ← (if getw o indirect =? 0 then
        f ← next_block;
        let indirect := setw o (xint f) indirect in
        wsect (xint a) indirect ;;
        mret indirect
      else mret indirect);
    mret (din, xint (getw o indirect)).

Fixpoint iappend_loop (fuel : nat) (din : inode) (p : list Z) (n off : Z) : M mkstate (inode * Z) :=
  match fuel with
  | O => fault
  | S fuel =>
      if 0 <? n then
        let fbn := off / BSZ in
        if negb (fbn <? MAXFILE) then panic "assert" else
        '(din, x) ← iappend_block din fbn;
        let n1 := Z.min n ((fbn + 1) * BSZ - off) in
        buf ← rsect x;
        wsect x (putbytes (Z.to_nat (off - fbn * BSZ)) (take (Z.to_nat n1) p) buf) ;;
        iappend_loop fuel din (drop (Z.to_nat n1) p) (n - n1) (off + n1)
      else mret (din, off)
  end.

(** At most one round per block, one for a first block that is not full and
    one for the final test. *)
Definition iappend (inum : Z) (p : list Z) (n : Z) : M mkstate unit :=
  din ← rinode inum;
  '(din, off) ← iappend_loop (Z.to_nat (n / BSZ) + 3) din p n (xint (i_size din));
  winode inum (w_size (xint off) din).

(** struct dirent, as its 16 bytes. *)
Definition dirent (inum : Z) (name : list Z) : list Z := to_le16 (xshort inum) ++ strncpy_arr DIRSIZ name.

(** while((cc = read(fd, buf, sizeof(buf))) > 0) *)
Fixpoint copy_file (inum : Z) (reads : list (list Z)) : M mkstate unit :=
  match reads with
  | [] => mret tt
  | buf :: reads =>
      let cc := Z.of_nat (length buf) in
      if 0 <? cc then iappend inum buf cc ;; copy_file inum reads else mret tt
  end.

Definition skip_underscore (name : list Z) : list Z :=
  match name with
  | c :: name' => if c =? 95 then name' else name
  | [] => []
  end.

Definition add_file (host : list Z → option (list (list Z))) (rootino : Z) (name : list Z) : M mkstate unit :=
  if bool_decide (SLASH ∈ name) then panic "assert" else
  match host name with
  | None => panic "open"
  | Some reads =>
      inum ← ialloc T_FILE;
      iappend rootino (dirent inum (skip_underscore name)) DIRENT ;;
      copy_file inum reads
  end.

(** The superblock as main fills it, and its bytes. *)
Definition mkfs_sb : superblock :=
  mkSb (xint FSSIZE) (xint nblocks) (xint NINODES) (xint nlog) (xint 2) (xint (2 + nlog)) (xint (2 + nlog + ninodeblocks)).
Definition sb_bytes (sb : superblock) : list Z :=
  to_le32 (sb_size sb) ++ to_le32 (sb_nblocks sb) ++ to_le32 (sb_ninodes sb) ++ to_le32 (sb_nlog sb) ++
  to_le32 (sb_logstart sb) ++ to_le32 (sb_inodestart sb) ++ to_le32 (sb_bmapstart sb).

Definition main (host_create : bool) (host : list Z → option (list (list Z))) (argv : list (list Z)) : M mkstate unit :=
  match argv with
  | _ :: _ :: files =>
      if negb host_create then panic "open" else
      modify (set_img []) ;;
      modify (set_msb mkfs_sb) ;;
      modify (set_freeblock nmeta) ;;
      forM (seq 0 (Z.to_nat FSSIZE)) (λ i, wsect (Z.of_nat i) zeroes) ;;
      sb ← gets mk_sb;
      wsect 1 (putbytes 0 (sb_bytes sb) zeroes) ;;
      rootino ← ialloc T_DIR;
      if negb (rootino =? ROOTINO) then panic "assert" else
      iappend rootino (dirent rootino [46]) DIRENT ;;
      iappend rootino (dirent rootino [46; 46]) DIRENT ;;
      forM files (add_file host rootino) ;;
      din ← rinode rootino;
      let off := xint (i_size din) in
      let off := (off / BSZ + 1) * BSZ in
      winode rootino (w_size (xint off) din) ;;
      f ← gets freeblock;
      balloc f
  | _ => panic "Usage: mkfs fs.img files..."
  end.

(** The program starts with freeinode = 1 and the other globals 0. *)
Definition mkfs_start (img : list block) : mkstate := mkMk img (mkSb 0 0 0 0 0 0 0) 1 0.

(** ** Blocks of the image *)

Lemma xint_u32 x : is_u32 x → xint x = x.
Proof. apply le32_to_le32. Qed.

Lemma xshort_small x : 0 ≤ x < 65536 → xshort x = x.
Proof. apply le16_to_le16. Qed.

Lemma sect_small x : 0 ≤ x < 8388608 → sect x = Z.to_nat x.
Proof.
  intros H. unfold sect. change BSZ with 512. rewrite u32_small by (unfold is_u32; lia).
  by rewrite Z.div_mul.
Qed.

(** A block device of FSSIZE blocks, the blocks from freeblock on untouched. *)
Record image (s : mkstate) : Prop := {
  im_len : length (mk_img s) = Z.to_nat FSSIZE;
  im_blocks : Forall (λ b : block, length b = BSIZE) (mk_img s);
  im_sb : mk_sb s = mkfs_sb;
  im_fb : nmeta ≤ freeblock s ≤ FSSIZE;
  im_zero x : freeblock s ≤ x < FSSIZE → blk (mk_img s) x = zeroes;
}.

(** The data blocks handed out so far. *)
Definition given (s : mkstate) (x : Z) : Prop := nmeta ≤ x < freeblock s.

Lemma image_in s x : image s → 0 ≤ x < FSSIZE → 0 ≤ x < Z.of_nat (length (mk_img s)).
Proof. intros Hi Hx. rewrite (im_len _ Hi). change FSSIZE with 1000 in *. lia. Qed.

Lemma given_in s x : image s → given s x → 0 ≤ x < Z.of_nat (length (mk_img s)).
Proof.
  intros Hi Hx. apply image_in; [done|]. destruct (im_fb _ Hi). unfold given in Hx.
  change nmeta with 59 in *. lia.
Qed.

Lemma wp_rsect x s (Q : block → mkstate → Prop) :
  image s → 0 ≤ x < FSSIZE → (length (blk (mk_img s) x) = BSIZE → Q (blk (mk_img s) x) s) → wp (rsect x) Q s.
Proof.
  intros Hi Hx HQ. pose proof (image_in _ _ Hi Hx) as Hin. unfold rsect. change FSSIZE with 1000 in Hx.
  rewrite sect_small by lia. pose proof (blk_length _ _ (im_blocks _ Hi) Hin) as Hl. specialize (HQ Hl).
  unfold blk in HQ. destruct (lookup_lt_is_Some_2 (mk_img s) (Z.to_nat x)) as [d Hd]; [lia|].
  rewrite Hd in HQ. wstep. wstep. rewrite Hd. wstep. exact HQ.
Qed.

Lemma wp_wsect x d s (Q : unit → mkstate → Prop) :
  image s → 0 ≤ x < FSSIZE → Q tt (set_img (<[Z.to_nat x := d]> (mk_img s)) s) → wp (wsect x d) Q s.
Proof.
  intros Hi Hx HQ. pose proof (image_in _ _ Hi Hx) as Hin. unfold wsect. change FSSIZE with 1000 in Hx.
  apply wp_modify. cbv zeta. rewrite sect_small by lia. by rewrite (proj2 (Nat.ltb_lt _ _)) by lia.
Qed.

Lemma image_upd s x d :
  image s → 0 ≤ x < freeblock s → length d = BSIZE →
  image (set_img (<[Z.to_nat x := d]> (mk_img s)) s).
Proof.
  intros [H1 H2 H3 H4 H5] Hx Hd. split; simpl; try done; [by rewrite length_insert|by apply Forall_insert|].
  intros y Hy. rewrite blk_insert by (rewrite ?H1; change FSSIZE with 1000 in *; lia).
  rewrite (proj2 (Z.eqb_neq _ _)) by lia. by apply H5.
Qed.

Lemma image_fb s : image s → freeblock s < FSSIZE → image (set_freeblock (freeblock s + 1) s).
Proof.
  intros [H1 H2 H3 H4 H5] H. split; simpl; try done; [lia|]. intros x Hx. apply H5. lia.
Qed.

Lemma wp_next_block s (Q : Z → mkstate → Prop) :
  image s → Q (freeblock s) (set_freeblock (freeblock s + 1) s) → wp next_block Q s.
Proof.
  intros Hi HQ. unfold next_block. wstep. wstep. wstep. wstep. wstep. destruct (im_fb _ Hi) as [H1 H2].
  change FSSIZE with 1000 in *. change nmeta with 59 in *. by rewrite u32_small by (unfold is_u32; lia).
Qed.

(** ** A file while it grows *)

(** The addresses [a] name [N] blocks that hold [c] and zeros. *)
Record holds (s : mkstate) (a : list Z) (N : nat) (c : list Z) : Prop := {
  ho_core : file_core (given s) (mk_img s) a N;
  ho_ind : (N ≤ 12)%nat → iaddr a = 0;
  ho_len : (length c ≤ N * BSIZE)%nat;
  ho_raw : raw (mk_img s) a N = c ++ replicate (N * BSIZE - length c) 0;
}.

(** The blocks a file of [N] blocks takes. *)
Definition cost (N : nat) : Z := Z.of_nat N + if (N <=? 12)%nat then 0 else 1.

Lemma cost_mono M N : (M ≤ N)%nat → cost M ≤ cost N.
Proof. intros H. unfold cost. destruct (Nat.leb_spec M 12), (Nat.leb_spec N 12); lia. Qed.

(** From [s] to [s'] the file grew from [a] to [a']: its blocks are old ones
    or fresh ones, and everything else is as it was. *)
Record grew (s : mkstate) (a : list Z) (N : nat) (s' : mkstate) (a' : list Z) (N' : nat) : Prop := {
  gw_img : image s';
  gw_ino : freeinode s' = freeinode s;
  gw_fb : freeblock s' = freeblock s + (cost N' - cost N);
  gw_N : (N ≤ N')%nat;
  gw_blk x : 0 ≤ x < freeblock s → x ∉ owns (mk_img s) a N → blk (mk_img s') x = blk (mk_img s) x;
  gw_owns x : x ∈ owns (mk_img s') a' N' → x ∈ owns (mk_img s) a N ∨ freeblock s ≤ x;
}.

Lemma grew_refl s a N : image s → grew s a N s a N.
Proof. intros H. split; try done; [lia|]. by left. Qed.

Lemma grew_trans s a N s' a' N' s'' a'' N'' :
  grew s a N s' a' N' → grew s' a' N' s'' a'' N'' → grew s a N s'' a'' N''.
Proof.
  intros [A1 A2 A3 A4 A5 A6] [B1 B2 B3 B4 B5 B6]. pose proof (cost_mono _ _ A4). split; try done; try lia.
  - intros x Hx Hn. rewrite B5; [by apply A5|lia|]. intros Hx'. apply A6 in Hx' as [?|?]; [done|lia].
  - intros x Hx. apply B6 in Hx as [Hx|Hx]; [by apply A6|right; lia].
Qed.

Lemma core_u32 s a N : image s → file_core (given s) (mk_img s) a N → Forall is_u32 a.
Proof.
  intros Hi. apply core_addrs; [intros x; by apply given_in|]. rewrite (im_len _ Hi). by vm_compute.
Qed.

Lemma zeros_more (c : list Z) k :
  (length c ≤ k * BSIZE)%nat →
  (c ++ replicate (k * BSIZE - length c) 0) ++ zeroes = c ++ replicate (S k * BSIZE - length c) 0.
Proof.
  intros H. unfold zeroes. rewrite <- app_assoc. f_equal. rewrite <- replicate_add. f_equal. lia.
Qed.

Lemma fresh_not_owned s a N : file_core (given s) (mk_img s) a N → freeblock s ∉ owns (mk_img s) a N.
Proof. intros Hf Hx. apply (fl_used _ _ _ _ Hf) in Hx as [_ Hx]. lia. Qed.

Lemma given_more s : image s → ∀ x, given s x → given (set_freeblock (freeblock s + 1) s) x.
Proof. intros _ x [H1 H2]. split; simpl; lia. Qed.

Lemma given_next s : image s → given (set_freeblock (freeblock s + 1) s) (freeblock s).
Proof. intros Hi. pose proof (im_fb _ Hi). unfold given. simpl. lia. Qed.

Lemma fresh_in s : image s → freeblock s < FSSIZE → 0 < freeblock s < Z.of_nat (length (mk_img s)).
Proof.
  intros Hi H. pose proof (im_fb _ Hi). pose proof (im_len _ Hi). change nmeta with 59 in *.
  change FSSIZE with 1000 in *. lia.
Qed.

Lemma cost_S k : (k ≠ 12)%nat → cost (S k) = cost k + 1.
Proof. intros H. unfold cost. destruct (Nat.leb_spec (S k) 12), (Nat.leb_spec k 12); lia. Qed.

(** A block that is there already. *)
Lemma wp_iappend_block_old s din N c k (Q : inode * Z → mkstate → Prop) :
  image s → holds s (i_addrs din) N c → (k < N)%nat →
  Q (din, baddr (mk_img s) (i_addrs din) k) s → wp (iappend_block din (Z.of_nat k)) Q s.
Proof.
  intros Hi Hh Hk HQ. pose proof (ho_core _ _ _ _ Hh) as Hf. pose proof (core_u32 _ _ _ Hi Hf) as H32.
  pose proof (fl_maps _ _ _ _ Hf) as Hm. pose proof (mp_len _ _ _ Hm) as Hl. pose proof (mp_max _ _ _ Hm) as Hmax.
  destruct (mp_addr _ _ _ Hm k Hk) as [Hne Hrg]. unfold iappend_block. change NDIRECT with 12.
  assert (∀ j x, i_addrs din !! j = Some x → xint x = x) as Hx.
  { intros j x Hj. apply xint_u32. exact (Forall_lookup_1 _ _ _ _ H32 Hj). }
  unfold baddr in *. destruct (Nat.ltb_spec k 12) as [Hk12|Hk12].
  - rewrite (proj2 (Z.ltb_lt _ _)) by lia. cbv zeta. rewrite Nat2Z.id.
    destruct (lookup_lt_is_Some_2 (i_addrs din) k) as [x Ha]; [lia|]. rewrite Ha in Hne, HQ. simpl in Hne, HQ.
    wstep. eapply wp_deref; [exact Ha|]. rewrite (Hx _ _ Ha), (proj2 (Z.eqb_neq _ _) Hne). wstep. wstep.
    wstep. eapply wp_deref; [exact Ha|]. wstep. by rewrite (Hx _ _ Ha).
  - rewrite (proj2 (Z.ltb_ge _ _)) by lia. cbv zeta. change (Z.to_nat 12) with 12%nat.
    destruct (mp_ind _ _ _ Hm ltac:(lia)) as [Hine Hirg]. rewrite (proj2 (Z.eqb_neq _ _) Hine) in Hne, HQ, Hrg.
    destruct (lookup_lt_is_Some_2 (i_addrs din) 12) as [x Ha]; [lia|].
    assert (iaddr (i_addrs din) = x) as Hix by (unfold iaddr; by rewrite Ha). rewrite Hix in *.
    wstep. eapply wp_deref; [exact Ha|]. rewrite (Hx _ _ Ha), (proj2 (Z.eqb_neq _ _) Hine). wstep. wstep.
    wstep. eapply wp_deref; [exact Ha|]. rewrite (Hx _ _ Ha). rewrite (im_len _ Hi) in Hrg, Hirg.
    change (Z.of_nat (Z.to_nat FSSIZE)) with FSSIZE in *.
    wstep. apply wp_rsect; [done|done|]. intros _. replace (Z.to_nat (Z.of_nat k - 12)) with (k - 12)%nat by lia.
    rewrite (proj2 (Z.eqb_neq _ _) Hne). wstep. wstep. wstep. rewrite xint_u32; [done|].
    unfold is_u32. change FSSIZE with 1000 in Hrg. lia.
Qed.

(** A new direct block. *)
Lemma wp_iappend_block_direct s din c k (Q : inode * Z → mkstate → Prop) :
  let a := i_addrs din in
  image s → holds s a k c → (k < 12)%nat → freeblock s < FSSIZE →
  (∀ s' a', grew s a k s' a' (S k) → holds s' a' (S k) c → Q (w_addrs a' din, baddr (mk_img s') a' k) s') →
  wp (iappend_block din (Z.of_nat k)) Q s.
Proof.
  intros a Hi Hh Hk Hfb HQ. pose proof (ho_core _ _ _ _ Hh) as Hf. pose proof (fresh_in _ Hi Hfb) as Hin.
  pose proof (mp_len _ _ _ (fl_maps _ _ _ _ Hf)) as Hl. pose proof (im_len _ Hi) as Hlen.
  assert (a !! k = Some 0) as Ha.
  { pose proof (fl_zero _ _ _ _ Hf k ltac:(lia)) as Hz. unfold baddr in Hz. rewrite (proj2 (Nat.ltb_lt _ _)) in Hz by done.
    destruct (lookup_lt_is_Some_2 a k) as [x Hx]; [lia|]. rewrite Hx in *. simpl in Hz. by subst. }
  assert (xint (freeblock s) = freeblock s) as Hxf.
  { apply xint_u32. unfold is_u32. change FSSIZE with 1000 in *. lia. }
  unfold iappend_block. change NDIRECT with 12. rewrite (proj2 (Z.ltb_lt _ _)) by lia. cbv zeta. rewrite Nat2Z.id.
  wstep. eapply wp_deref; [exact Ha|]. change (xint 0 =? 0) with true. cbv iota. wstep. wstep.
  apply wp_next_block; [done|]. wstep. wstep. rewrite Hxf.
  eapply (wp_deref _ (freeblock s)); [simpl; by rewrite list_lookup_insert_eq by (fold a; lia)|].
  wstep. rewrite Hxf. pose proof (image_fb _ Hi Hfb) as Hi'. set (s' := set_freeblock (freeblock s + 1) s) in *.
  destruct (core_direct (given s) (given s') (mk_img s) (λ x, given_in s x Hi) (given_more s Hi) a
    (freeblock s) Hin (given_next s Hi) k Hf Hk (fresh_not_owned _ _ _ Hf)) as (C1 & C2 & C3 & C4 & C5).
  fold a. rewrite <- C3 at 2. apply (HQ s' (<[k := freeblock s]> a)).
  - split; try done; [simpl; rewrite cost_S; lia|lia|].
    intros x Hx. change (mk_img s') with (mk_img s) in Hx. rewrite C5, elem_of_cons in Hx. destruct Hx as [-> |Hx]; [by right|by left].
  - split; [exact C1|intros _; rewrite C4; apply (ho_ind _ _ _ _ Hh); lia|pose proof (ho_len _ _ _ _ Hh); lia|].
    change (mk_img s') with (mk_img s). rewrite C2, (ho_raw _ _ _ _ Hh), (im_zero _ Hi) by lia.
    apply zeros_more, Hh.
Qed.

(** The part of the body behind the allocation of the indirect block. *)
Lemma wp_iappend_indirect s din k (Q : inode * Z → mkstate → Prop) :
  let a := i_addrs din in
  image s → file_core (given s) (mk_img s) a k → (12 ≤ k < 140)%nat → iaddr a ≠ 0 → freeblock s < FSSIZE →
  (∀ s', image s' → file_core (given s') (mk_img s') a (S k) → freeinode s' = freeinode s →
     freeblock s' = freeblock s + 1 → baddr (mk_img s') a k = freeblock s →
     raw (mk_img s') a (S k) = raw (mk_img s) a k ++ zeroes →
     owns (mk_img s') a (S k) ≡ₚ freeblock s :: owns (mk_img s) a k →
     (∀ y, 0 ≤ y → y ≠ iaddr a → blk (mk_img s') y = blk (mk_img s) y) → Q (din, freeblock s) s') →
  wp (indirect ← rsect (iaddr a);
      let o := (4 * (k - 12))%nat in
      indirect ← (if getw o indirect =? 0 then
        f ← next_block;
        let indirect := setw o (xint f) indirect in
        wsect (iaddr a) indirect ;;
        mret indirect
      else mret indirect);
      mret (din, xint (getw o indirect))) Q s.
Proof.
  intros a Hi Hf Hk Hia Hfb HQ. pose proof (fresh_in _ Hi Hfb) as Hin. pose proof (im_len _ Hi) as Hlen.
  pose proof (fl_used _ _ _ _ Hf _ (owns_ind _ _ k Hia)) as [G1 G2]. pose proof (im_fb _ Hi) as [F1 F2].
  change nmeta with 59 in *. change FSSIZE with 1000 in *.
  assert (is_u32 (freeblock s)) as H32 by (unfold is_u32; lia). assert (xint (freeblock s) = freeblock s) as Hxf by by apply xint_u32.
  destruct (core_ind (given s) (given (set_freeblock (freeblock s + 1) s)) (mk_img s) (λ x, given_in s x Hi) (given_more s Hi) a
    (freeblock s) Hin (given_next s Hi) k Hf Hk Hia (fresh_not_owned _ _ _ Hf) H32) as (C1 & C2 & C3 & C4 & C5 & C6).
  wstep. apply wp_rsect; [done|change FSSIZE with 1000; lia|]. intros Hl. cbv zeta.
  rewrite <- baddr_ind by (done || lia). rewrite (fl_zero _ _ _ _ Hf) by lia. change (0 =? 0) with true. cbv iota.
  wstep. wstep. apply wp_next_block; [done|]. pose proof (image_fb _ Hi Hfb) as Hi'.
  set (s' := set_freeblock (freeblock s + 1) s) in *. wstep. rewrite Hxf.
  apply wp_wsect; [exact Hi'|change FSSIZE with 1000; lia|]. wstep. wstep.
  rewrite getw_setw by (try done; rewrite Hl; change BSIZE with 512%nat; lia). rewrite Hxf.
  eapply HQ; [apply image_upd; [done|simpl; lia|done]|exact C1|done|done|exact C3| |exact C4|exact C5].
  etransitivity; [exact C2|]. by rewrite (im_zero _ Hi) by (change FSSIZE with 1000; lia).
Qed.

Lemma w_addrs_id din : w_addrs (i_addrs din) din = din.
Proof. by destruct din. Qed.

(** A new block behind the direct ones. *)
Lemma wp_iappend_block_ind s din c k (Q : inode * Z → mkstate → Prop) :
  let a := i_addrs din in
  image s → holds s a k c → (12 ≤ k < 140)%nat → freeblock s + (cost (S k) - cost k) ≤ FSSIZE →
  (∀ s' a', grew s a k s' a' (S k) → holds s' a' (S k) c → Q (w_addrs a' din, baddr (mk_img s') a' k) s') →
  wp (iappend_block din (Z.of_nat k)) Q s.
Proof.
  intros a Hi Hh Hk Hfb HQ. pose proof (ho_core _ _ _ _ Hh) as Hf. pose proof (core_u32 _ _ _ Hi Hf) as H32.
  pose proof (mp_len _ _ _ (fl_maps _ _ _ _ Hf)) as Hl. pose proof (ho_len _ _ _ _ Hh) as Hlen.
  destruct (lookup_lt_is_Some_2 a 12) as [x Ha]; [lia|].
  assert (iaddr a = x) as Hix by (unfold iaddr; by rewrite Ha).
  assert (xint x = x) as Hx by (apply xint_u32; exact (Forall_lookup_1 _ _ _ _ H32 Ha)).
  unfold iappend_block. change NDIRECT with 12. rewrite (proj2 (Z.ltb_ge _ _)) by lia. cbv zeta.
  change (Z.to_nat 12) with 12%nat. replace (Z.to_nat (Z.of_nat k - 12)) with (k - 12)%nat by lia.
  wstep. eapply wp_deref; [exact Ha|]. rewrite Hx. destruct (decide (k = 12%nat)) as [-> |Hne].
  - change (cost 13 - cost 12) with 2 in Hfb. rewrite (ho_ind _ _ _ _ Hh) in Hix by lia. subst x. change (0 =? 0) with true. cbv iota.
    assert (freeblock s < FSSIZE) as Hfb' by lia. pose proof (fresh_in _ Hi Hfb') as Hin. pose proof (im_len _ Hi) as Hll.
    assert (xint (freeblock s) = freeblock s) as Hxf.
    { apply xint_u32. unfold is_u32. change FSSIZE with 1000 in *. lia. }
    wstep. wstep. apply wp_next_block; [done|]. wstep. wstep. rewrite Hxf. pose proof (image_fb _ Hi Hfb') as Hi1.
    destruct (core_newind (given s) (given (set_freeblock (freeblock s + 1) s)) (mk_img s) (given_more s Hi) a (freeblock s)
      Hin (given_next s Hi) Hf (ho_ind _ _ _ _ Hh ltac:(lia)) (fresh_not_owned _ _ _ Hf) (im_zero s Hi (freeblock s) ltac:(lia)))
      as (C1 & C2 & C3 & C4).
    set (s1 := set_freeblock (freeblock s + 1) s) in *. set (a1 := <[12%nat := freeblock s]> a) in *.
    eapply (wp_deref _ (freeblock s)); [change (a1 !! 12%nat = Some (freeblock s)); unfold a1; by rewrite list_lookup_insert_eq by lia|].
    rewrite Hxf, <- C3. change (w_addr 12 (iaddr a1) din) with (w_addrs (<[12%nat := iaddr a1]> a) din). rewrite C3. fold a1.
    rewrite <- C3. apply (wp_iappend_indirect s1 (w_addrs a1 din) 12); [done|exact C1|lia|simpl; lia|simpl; lia|].
    intros s' D1 D2 D3 D4 D5 D6 D7 D8. simpl i_addrs in *.
    rewrite <- D5. apply (HQ s' a1).
    + split; try done; [rewrite D4; simpl; change (cost 13 - cost 12) with 2; lia|lia|..].
      * intros y Hy Hny. apply D8; [lia|]. lia.
      * intros y. rewrite D7. change (mk_img s1) with (mk_img s). rewrite elem_of_cons, C4, elem_of_cons. simpl.
        intros [-> |[-> |?]]; [right; lia|by right|by left].
    + split; [done|lia|lia|]. rewrite D6. change (mk_img s1) with (mk_img s).
      rewrite C2, (ho_raw _ _ _ _ Hh). apply zeros_more, Hh.
  - rewrite cost_S in Hfb by done. assert (iaddr a ≠ 0) as Hia by (apply (fl_maps _ _ _ _ Hf); lia).
    rewrite Hix in *. rewrite (proj2 (Z.eqb_neq _ _) Hia). wstep. wstep. wstep. eapply wp_deref; [exact Ha|].
    rewrite Hx, <- Hix. apply (wp_iappend_indirect s din k); [done|done|lia|fold a; by rewrite Hix|lia|].
    intros s' D1 D2 D3 D4 D5 D6 D7 D8. fold a in D2, D5, D6, D7, D8. rewrite <- D5, <- (w_addrs_id din).
    apply (HQ s' a).
    + split; try done; [rewrite D4, cost_S by done; lia|lia|..].
      * intros y Hy Hny. apply D8; [lia|]. intros ->. apply Hny, owns_ind. by rewrite Hix.
      * intros y. rewrite D7, elem_of_cons. intros [-> |?]; [right; lia|by left].
    + split; [done|lia|lia|]. rewrite D6, (ho_raw _ _ _ _ Hh). apply zeros_more, Hh.
Qed.

Lemma wp_iappend_block s din N c k (Q : inode * Z → mkstate → Prop) :
  let a := i_addrs din in
  image s → holds s a N c → (k < 140)%nat → N = k ∨ N = S k → freeblock s + (cost (S k) - cost N) ≤ FSSIZE →
  (∀ s' a', grew s a N s' a' (S k) → holds s' a' (S k) c → Q (w_addrs a' din, baddr (mk_img s') a' k) s') →
  wp (iappend_block din (Z.of_nat k)) Q s.
Proof.
  intros a Hi Hh Hk [-> | ->] Hfb HQ.
  - destruct (decide (k < 12)%nat).
    + eapply wp_iappend_block_direct; [done|exact Hh|done| |done]. rewrite cost_S in Hfb by lia. lia.
    + eapply wp_iappend_block_ind; [done|exact Hh|lia|done|done].
  - eapply wp_iappend_block_old; [done|exact Hh|lia|]. rewrite <- (w_addrs_id din) at 1. apply HQ; [by apply grew_refl|done].
Qed.

(** The bytes put into the last block. *)
Lemma holds_write s a k c p :
  image s → holds s a (S k) c → (k * BSIZE ≤ length c)%nat → (length c + length p ≤ S k * BSIZE)%nat →
  let x := baddr (mk_img s) a k in
  let s' := set_img (<[Z.to_nat x := putbytes (length c - k * BSIZE) p (blk (mk_img s) x)]> (mk_img s)) s in
  grew s a (S k) s' a (S k) ∧ holds s' a (S k) (c ++ p) ∧ 0 ≤ x < FSSIZE.
Proof.
  intros Hi Hh Hc Hp x s'. pose proof (ho_core _ _ _ _ Hh) as Hf. pose proof (im_fb _ Hi) as [F1 F2].
  assert (x ∈ owns (mk_img s) a (S k)) as Hx by (apply owns_data; lia).
  pose proof (fl_used _ _ _ _ Hf _ Hx) as [G1 G2]. change nmeta with 59 in *.
  pose proof (given_in s x Hi ltac:(by split)) as Hin. pose proof (blk_length _ _ (im_blocks _ Hi) Hin) as Hl.
  destruct (core_write (given s) (mk_img s) (λ y, given_in s y Hi) a (S k) k (length c - k * BSIZE) p Hf ltac:(lia) ltac:(lia))
    as (C1 & C2 & C3 & C4).
  fold x in C1, C2, C3, C4. split_and!; [| |lia|lia].
  - split; try done; [apply image_upd; [done|lia|rewrite putbytes_length; lia]|simpl; lia|..].
    + intros y Hy Hn. apply C3; [lia|]. intros ->. done.
    + intros y. unfold s'. simpl. rewrite C4. by left.
  - split; [exact C1|apply Hh|rewrite length_app; lia|]. etransitivity; [exact C2|].
    rewrite (ho_raw _ _ _ _ Hh). replace (k * BSIZE + (length c - k * BSIZE))%nat with (length c + 0)%nat by lia.
    rewrite putbytes_app_r, <- app_assoc. f_equal. unfold putbytes. rewrite take_0, app_nil_l. f_equal.
    rewrite drop_replicate, length_app. f_equal. lia.
Qed.

Abbreviation bytes c := (Z.of_nat (length c)).

Lemma nblk_next off n k :
  0 ≤ off → k = Z.to_nat (off / BSZ) → 0 < n → off + n ≤ (Z.of_nat k + 1) * BSZ →
  nblk (off + n) = S k ∧ (nblk off = k ∨ nblk off = S k) ∧ Z.of_nat k * BSZ ≤ off.
Proof. intros Ho -> Hn H. unfold nblk. change BSZ with 512 in *. zdm. Qed.

Lemma wp_iappend_loop : ∀ fuel s din p c n off (Q : inode * Z → mkstate → Prop),
  let a := i_addrs din in let N := nblk (bytes c) in let N' := nblk (bytes c + bytes p) in
  image s → holds s a N c → n = bytes p → off = bytes c → off + n ≤ MAXFILE * BSZ →
  freeblock s + (cost N' - cost N) ≤ FSSIZE →
  (0 < fuel)%nat → (0 < n → n + off mod BSZ ≤ BSZ * (Z.of_nat fuel - 1)) →
  (∀ s' a', grew s a N s' a' N' → holds s' a' N' (c ++ p) → Q (w_addrs a' din, off + n) s') →
  wp (iappend_loop fuel din p n off) Q s.
Proof.
  induction fuel as [|fuel IH]; intros s din p c n off Q a N N' Hi Hh Hn Hoff Hmax Hfb Hf Hf' HQ; [lia|].
  cbn [iappend_loop]. case_if.
  2:{ wstep. destruct p; [|simpl in *; lia]. simpl length in *. unfold N' in *.
      rewrite Z.add_0_r in *. rewrite Hn, Z.add_0_r, <- (w_addrs_id din) in *. rewrite app_nil_r in HQ.
      apply HQ; [by apply grew_refl|done]. }
  specialize (Hf' E). change (MAXFILE * BSZ) with 71680 in Hmax. cbv zeta.
  set (k := Z.to_nat (off / BSZ)). set (n1 := Z.min n ((off / BSZ + 1) * BSZ - off)).
  assert (Z.of_nat k = off / BSZ) as Hk by (unfold k; change BSZ with 512; zdm).
  assert (0 < n1 ≤ n ∧ off + n1 ≤ (Z.of_nat k + 1) * BSZ) as [Hn1 Hend] by (rewrite Hk; unfold n1; change BSZ with 512; zdm).
  destruct (nblk_next off n1 k ltac:(lia) eq_refl ltac:(lia) Hend) as (B1 & B2 & B3).
  assert (k < 140)%nat as Hk140 by (change BSZ with 512 in *; lia).
  rewrite (proj2 (Z.ltb_lt (off / BSZ) MAXFILE)) by (change MAXFILE with 140; lia). simpl negb. cbv iota.
  assert (cost (S k) ≤ cost N') as Hcost by (apply cost_mono; rewrite <- B1; apply nblk_mono; lia).
  wstep. rewrite <- Hk. eapply (wp_iappend_block s din N c k); [done|exact Hh|done| |lia|].
  { unfold N. rewrite <- Hoff. destruct B2; [left|right]; done. }
  intros s1 a1 G1 H1. pose proof (gw_img _ _ _ _ _ _ G1) as Hi1. set (p1 := take (Z.to_nat n1) p).
  assert (length p1 = Z.to_nat n1) as Hp1 by (unfold p1; rewrite length_take; lia).
  assert (Z.of_nat k * BSZ = Z.of_nat (k * BSIZE)) as Hkb by (change BSZ with (Z.of_nat BSIZE); lia).
  assert ((Z.of_nat k + 1) * BSZ = Z.of_nat (S k * BSIZE)) as Hkb' by (change BSZ with (Z.of_nat BSIZE); lia).
  destruct (holds_write s1 a1 k c p1 Hi1 H1 ltac:(lia) ltac:(lia)) as (G2 & H2 & Hx).
  wstep. apply wp_rsect; [done|done|]. intros _. wstep. apply wp_wsect; [done|done|].
  replace (Z.to_nat (off - Z.of_nat k * BSZ)) with (length c - k * BSIZE)%nat by lia. fold p1.
  set (s2 := set_img _ _) in *. pose proof (grew_trans _ _ _ _ _ _ _ _ _ G1 G2) as G12.
  assert (bytes (c ++ p1) = off + n1) as Hc1 by (rewrite length_app; lia).
  assert (bytes (c ++ p1) + bytes (drop (Z.to_nat n1) p) = bytes c + bytes p) as Hc2 by (rewrite length_app, length_drop; lia).
  replace (S k) with (nblk (bytes (c ++ p1))) in * by (by rewrite Hc1).
  eapply (IH s2 (w_addrs a1 din) _ (c ++ p1)).
  - apply G2.
  - exact H2.
  - rewrite length_drop. lia.
  - lia.
  - change (MAXFILE * BSZ) with 71680. lia.
  - rewrite Hc2. fold N'. rewrite (gw_fb _ _ _ _ _ _ G12). lia.
  - pose proof (Z.mod_pos_bound off BSZ eq_refl). change BSZ with 512 in *. lia.
  - intros Hpos. unfold n1 in *. change BSZ with 512 in *. zdm.
  - rewrite Hc2. fold N'. intros s' a' G3 H3. simpl i_addrs in G3.
    change (w_addrs a' (w_addrs a1 din)) with (w_addrs a' din). replace (off + n1 + (n - n1)) with (off + n) by lia.
    apply HQ; [by eapply grew_trans|]. unfold p1 in H3. by rewrite <- app_assoc, take_drop in H3.
Qed.

(** A file whose blocks did not change. *)
Lemma holds_frame s s' a N c :
  image s → image s' → holds s a N c → freeblock s ≤ freeblock s' →
  (∀ x, x ∈ owns (mk_img s) a N → blk (mk_img s') x = blk (mk_img s) x) →
  holds s' a N c ∧ owns (mk_img s') a N = owns (mk_img s) a N.
Proof.
  intros Hi Hi' [H1 H2 H3 H4] Hfb Hx. set (X := filter (λ x, x ∉ owns (mk_img s) a N) (seqZ 0 FSSIZE)).
  destruct (core_frame (given s) (mk_img s) (λ x, given_in s x Hi) (given s') (mk_img s') a N X H1) as (C1 & C2 & C3).
  - split; [by rewrite (im_len _ Hi), (im_len _ Hi')|]. intros x Hx0 Hn.
    destruct (decide (x < FSSIZE)) as [Hlt|Hge].
    + apply Hx. destruct (decide (x ∈ owns (mk_img s) a N)) as [|Hni]; [done|]. exfalso. apply Hn.
      apply list_elem_of_filter. split; [done|]. apply elem_of_seqZ. lia.
    + unfold blk. rewrite !lookup_ge_None_2; [done|..].
      * rewrite (im_len _ Hi). change FSSIZE with 1000 in *. lia.
      * rewrite (im_len _ Hi'). change FSSIZE with 1000 in *. lia.
  - apply Hi'.
  - intros x Ho Hin. by apply list_elem_of_filter in Hin as [? _].
  - intros x [G1 G2]. split; lia.
  - split; [|done]. split; [done|done|done|]. by rewrite C2.
Qed.

(** ** Inodes of the image *)

Definition inode_at (img : list block) (inum : Z) : inode :=
  get_dinode (idoff inum) (blk img (IBLOCK inum mkfs_sb)) dinode0.

(** What 26 blocks of inodes hold. *)
Definition inode_in (inum : Z) : Prop := 0 ≤ inum < ninodeblocks * IPB.

Lemma IBLOCK_in inum : inode_in inum → 32 ≤ IBLOCK inum mkfs_sb < 58.
Proof.
  unfold inode_in, IBLOCK. change (ninodeblocks * IPB) with 208. change (sb_inodestart mkfs_sb) with 32.
  change IPB with 8. intros H. zdm.
Qed.

Lemma get_dinode_ext off d d' jp :
  (∀ o n, (off ≤ o)%nat → (o + n ≤ off + DINODE)%nat → getbytes o n d = getbytes o n d') →
  get_dinode off d jp = get_dinode off d' jp.
Proof.
  intros H. unfold DINODE in H. unfold get_dinode, geth, getw. rewrite !(H _ 2%nat), (H _ 4%nat) by lia. f_equal.
  apply list_fmap_ext. intros j k Hj. apply lookup_seq in Hj as [-> Hj]. simpl. rewrite H by lia. done.
Qed.

Definition dinode_of (ip : inode) : inode :=
  mkInode 0 0 0 0 (i_type ip) (i_major ip) (i_minor ip) (i_nlink ip) (i_size ip) (i_addrs ip).

(** [s'] is [s] with disk inode [inum] changed to [ip]. *)
Record inode_put (s : mkstate) (inum : Z) (ip : inode) (s' : mkstate) : Prop := {
  ip_img : image s';
  ip_ino : freeinode s' = freeinode s;
  ip_fb : freeblock s' = freeblock s;
  ip_this : inode_at (mk_img s') inum = dinode_of ip;
  ip_other j : inode_in j → j ≠ inum → inode_at (mk_img s') j = inode_at (mk_img s) j;
  ip_blk x : 0 ≤ x → ¬ 32 ≤ x < 58 → blk (mk_img s') x = blk (mk_img s) x;
}.

Lemma idoff_apart i j :
  i / IPB = j / IPB → i ≠ j → (idoff i + DINODE ≤ idoff j ∨ idoff j + DINODE ≤ idoff i)%nat.
Proof. unfold idoff, DINODE. change IPB with 8. intros H Hne. zdm. Qed.

Lemma wp_winode inum ip s (Q : unit → mkstate → Prop) :
  image s → inode_in inum → inode_ok ip → (∀ s', inode_put s inum ip s' → Q tt s') → wp (winode inum ip) Q s.
Proof.
  intros Hi Hin Hok HQ. unfold winode. wstep. wstep. rewrite (im_sb _ Hi). cbv zeta.
  pose proof (IBLOCK_in _ Hin) as Hb. set (x := IBLOCK inum mkfs_sb) in *. pose proof (im_fb _ Hi) as [F1 F2].
  pose proof (im_len _ Hi) as Hlen. change nmeta with 59 in *. change FSSIZE with 1000 in *.
  wstep. apply wp_rsect; [done|change FSSIZE with 1000; lia|]. intros Hl.
  pose proof (idoff_in inum) as Hoff. apply wp_wsect; [done|change FSSIZE with 1000; lia|]. apply HQ.
  set (d := put_dinode (idoff inum) ip (blk (mk_img s) x)).
  assert (∀ y, 0 ≤ y → blk (<[Z.to_nat x := d]> (mk_img s)) y = if y =? x then d else blk (mk_img s) y) as Hblk.
  { intros y Hy. apply blk_insert; lia. }
  split; simpl; try done.
  - apply image_upd; [done|lia|]. unfold d. rewrite put_dinode_length; [done|done|lia].
  - unfold inode_at. fold x. rewrite Hblk, Z.eqb_refl by lia. unfold d. rewrite get_put_dinode; [done|done|lia].
  - intros j Hj Hne. unfold inode_at. pose proof (IBLOCK_in _ Hj). rewrite Hblk by lia.
    destruct (Z.eqb_spec (IBLOCK j mkfs_sb) x) as [Heq|]; [|done]. rewrite Heq.
    assert (inum / IPB = j / IPB) as Hdiv by (unfold x, IBLOCK in Heq; lia).
    apply get_dinode_ext. intros o n H1 H2. unfold d.
    apply put_dinode_frame; [done|rewrite Hl; lia|]. destruct (idoff_apart _ _ Hdiv ltac:(done)); lia.
  - intros y Hy Hn. rewrite Hblk by done. by rewrite (proj2 (Z.eqb_neq _ _)) by lia.
Qed.

Lemma wp_rinode inum s (Q : inode → mkstate → Prop) :
  image s → inode_in inum → Q (inode_at (mk_img s) inum) s → wp (rinode inum) Q s.
Proof.
  intros Hi Hin HQ. unfold rinode. wstep. wstep. rewrite (im_sb _ Hi). cbv zeta.
  pose proof (IBLOCK_in _ Hin) as Hb. wstep. apply wp_rsect; [done|change FSSIZE with 1000; lia|].
  intros _. by wstep.
Qed.

(** ** The file system under construction *)

(** The type and the bytes of each file, in the order of their inodes. *)
Abbreviation files := (list (Z * list Z)).

Definition total (fs : files) : Z := foldr (λ f z, cost (nblk (bytes f.2)) + z) 0 fs.

Lemma total_app fs gs : total (fs ++ gs) = total fs + total gs.
Proof. unfold total. induction fs as [|f fs IH]; simpl; [lia|]. rewrite IH. lia. Qed.

Lemma total_cons f fs : total (f :: fs) = cost (nblk (bytes f.2)) + total fs.
Proof. done. Qed.

Lemma total_nonneg fs : 0 ≤ total fs.
Proof. induction fs as [|f fs IH]; simpl; [lia|]. pose proof (cost_mono 0 (nblk (bytes f.2)) ltac:(lia)). change (cost 0) with 0 in *. lia. Qed.

Lemma total_insert fs k ty c c' :
  fs !! k = Some (ty, c) →
  total (<[k := (ty, c')]> fs) = total fs + (cost (nblk (bytes c')) - cost (nblk (bytes c))).
Proof.
  revert k. induction fs as [|f fs IH]; intros [|k] H; simpl in *; try done.
  - injection H as ->. simpl. lia.
  - rewrite (IH _ H). lia.
Qed.

Arguments total _ : simpl never.

Definition inum_of (k : nat) : Z := Z.of_nat k + 1.

(** The blocks of file [k]. *)
Definition fowns (s : mkstate) (k : nat) : list Z :=
  let i := inode_at (mk_img s) (inum_of k) in owns (mk_img s) (i_addrs i) (nblk (i_size i)).

(** File [k] has type [ty] and contents [c]. *)
Definition file_at (s : mkstate) (k : nat) (f : Z * list Z) : Prop :=
  let i := inode_at (mk_img s) (inum_of k) in
  i = mkInode 0 0 0 0 f.1 0 0 1 (bytes f.2) (i_addrs i) ∧ holds s (i_addrs i) (nblk (bytes f.2)) f.2 ∧
  is_i16 f.1 ∧ bytes f.2 ≤ MAXFILE * BSZ.

Record built (s : mkstate) (fs : files) : Prop := {
  bu_img : image s;
  bu_ino : freeinode s = inum_of (length fs);
  bu_max : freeinode s ≤ NINODES;
  bu_fb : freeblock s = nmeta + total fs;
  bu_file k f : fs !! k = Some f → file_at s k f;
  bu_disj j k x : (j < length fs)%nat → (k < length fs)%nat → j ≠ k → x ∈ fowns s j → x ∉ fowns s k;
  bu_free i : freeinode s ≤ i → inode_in i → inode_at (mk_img s) i = dinode0;
  bu_meta x : 0 ≤ x < nmeta → ¬ 32 ≤ x < 58 →
    blk (mk_img s) x = if x =? 1 then putbytes 0 (sb_bytes mkfs_sb) zeroes else zeroes;
}.

Lemma fowns_at s k f : file_at s k f →
  fowns s k = owns (mk_img s) (i_addrs (inode_at (mk_img s) (inum_of k))) (nblk (bytes f.2)).
Proof. intros [Hi _]. unfold fowns. cbv zeta. by rewrite Hi at 2. Qed.

Lemma file_given s k f x : image s → file_at s k f → x ∈ fowns s k → given s x.
Proof. intros Hi Hf Hx. rewrite (fowns_at _ _ _ Hf) in Hx. destruct Hf as (_ & Hh & _). exact (fl_used _ _ _ _ (ho_core _ _ _ _ Hh) x Hx). Qed.

Lemma file_at_frame s s' k f :
  image s → image s' → file_at s k f → freeblock s ≤ freeblock s' →
  inode_at (mk_img s') (inum_of k) = inode_at (mk_img s) (inum_of k) →
  (∀ x, x ∈ fowns s k → blk (mk_img s') x = blk (mk_img s) x) →
  file_at s' k f ∧ fowns s' k = fowns s k.
Proof.
  intros Hi Hi' Hf Hfb Heq Hx. pose proof (fowns_at _ _ _ Hf) as Ho. rewrite Ho in Hx. destruct Hf as (H1 & H2 & H3 & H4).
  destruct (holds_frame _ _ _ _ _ Hi Hi' H2 Hfb Hx) as [H5 H6].
  assert (file_at s' k f) as Hf by (split; [by rewrite Heq|]; split; [by rewrite Heq|done]).
  split; [done|]. rewrite Ho, (fowns_at _ _ _ Hf), Heq. exact H6.
Qed.

Lemma inode_in_built s fs k : built s fs → (k < length fs)%nat → inode_in (inum_of k).
Proof.
  intros [_ H1 H2 _ _ _ _ _] Hk. unfold inode_in, inum_of in *. change (ninodeblocks * IPB) with 208.
  change NINODES with 200 in *. lia.
Qed.

Lemma holds_nil s : image s → holds s (replicate 13 0) 0 [].
Proof.
  intros Hi. assert (∀ k, baddr (mk_img s) (replicate 13 0) k = 0) as Hb.
  { intros k. unfold baddr. case_if; [|done]. apply Nat.ltb_lt in E. by rewrite lookup_replicate_2 by lia. }
  split; [|done|simpl; lia|done]. split.
  - split; [done|lia|lia|lia|apply Hi].
  - intros k _. apply Hb.
  - done.
  - apply NoDup_nil_2.
  - intros x Hx. by apply not_elem_of_nil in Hx.
Qed.

(** Files whose inodes and blocks a step left alone. *)
Lemma built_frame s s' fs k f :
  built s fs → image s' → fs !! k = Some f → freeblock s ≤ freeblock s' →
  inode_at (mk_img s') (inum_of k) = inode_at (mk_img s) (inum_of k) →
  (∀ x, x ∈ fowns s k → blk (mk_img s') x = blk (mk_img s) x) →
  file_at s' k f ∧ fowns s' k = fowns s k.
Proof. intros Hb Hi' Hk. apply file_at_frame; [apply Hb|done|by apply Hb]. Qed.

Lemma dinode_ok ty : is_i16 ty → inode_ok (w_size 0 (w_nlink 1 (w_type ty dinode0))).
Proof.
  intros H. split; simpl; try done. repeat (apply Forall_cons_2; [done|]). apply Forall_nil_2.
Qed.

Lemma wp_ialloc ty s fs (Q : Z → mkstate → Prop) :
  built s fs → freeinode s < NINODES → 0 ≤ ty < 32768 →
  (∀ s', built s' (fs ++ [(ty, [])]) → Q (inum_of (length fs)) s') → wp (ialloc ty) Q s.
Proof.
  intros Hb Hlt Hty HQ. pose proof Hb as [B1 B2 B3 B4 B5 B6 B7 B8]. unfold ialloc.
  assert (is_i16 ty) as H16 by (unfold is_i16; lia).
  wstep. wstep. wstep. wstep. rewrite B2. unfold inum_of in B2. change NINODES with 200 in *.
  rewrite u32_small by (unfold is_u32, inum_of; lia). change (xint 0) with 0. change (xshort 1) with 1.
  rewrite xshort_small by lia. set (s1 := set_freeinode _ s). assert (image s1) as Hi1 by (destruct B1; by split).
  wstep. apply wp_winode; [done|unfold inode_in, inum_of; change (ninodeblocks * IPB) with 208; lia|by apply dinode_ok|].
  intros s' [P1 P2 P3 P4 P5 P6]. wstep. apply HQ.
  change (mk_img s1) with (mk_img s) in *. change (freeblock s1) with (freeblock s) in *. simpl in P2.
  assert (∀ k f, fs !! k = Some f → file_at s' k f ∧ fowns s' k = fowns s k) as Hold.
  { intros k f Hk. pose proof (lookup_lt_Some _ _ _ Hk) as Hlt'.
    apply (built_frame s s' fs k f Hb P1 Hk); [lia|apply P5; [by eapply inode_in_built|unfold inum_of; lia]|].
    intros x Hx. apply (file_given _ _ _ _ B1 (B5 _ _ Hk)) in Hx as [G1 G2]. change nmeta with 59 in G1.
    apply P6; lia. }
  assert (file_at s' (length fs) (ty, [])) as Hnew.
  { unfold file_at. cbv zeta. rewrite P4. simpl. split; [done|]. split; [by apply holds_nil|]. split; [done|].
    change (MAXFILE * BSZ) with 71680. lia. }
  split; rewrite ?length_app; cbn [length].
  - done.
  - rewrite P2. unfold inum_of. lia.
  - rewrite P2. unfold inum_of. change NINODES with 200. lia.
  - rewrite P3, B4, total_app. change (total [(ty, [])]) with 0. lia.
  - intros k f Hk. apply lookup_app_Some in Hk as [Hk|[Hk1 Hk2]]; [by apply Hold|].
    apply list_lookup_singleton_Some in Hk2 as [Hk2 <-]. by replace k with (length fs) by lia.
  - assert (fowns s' (length fs) = []) as Hnil by (rewrite (fowns_at _ _ _ Hnew), P4; done).
    intros j k x Hj Hk Hne. destruct (decide (j = length fs)) as [-> |Hj'].
    { rewrite Hnil. intros H. by apply not_elem_of_nil in H. }
    destruct (decide (k = length fs)) as [-> |Hk']; [rewrite Hnil; intros _; apply not_elem_of_nil|].
    destruct (lookup_lt_is_Some_2 fs j) as [fj Hfj]; [lia|]. destruct (lookup_lt_is_Some_2 fs k) as [fk Hfk]; [lia|].
    rewrite (proj2 (Hold _ _ Hfj)), (proj2 (Hold _ _ Hfk)). apply B6; [lia|lia|done].
  - intros i Hi Hin. rewrite P2 in Hi. unfold inum_of in Hi. rewrite P5 by (try done; unfold inum_of; lia). apply B7; [lia|done].
  - intros x Hx Hn. rewrite P6 by lia. by apply B8.
Qed.

Lemma wp_iappend k p n s fs ty c (Q : unit → mkstate → Prop) :
  built s fs → fs !! k = Some (ty, c) → n = bytes p → bytes c + n ≤ MAXFILE * BSZ →
  nmeta + total (<[k := (ty, c ++ p)]> fs) ≤ FSSIZE →
  (∀ s', built s' (<[k := (ty, c ++ p)]> fs) → Q tt s') → wp (iappend (inum_of k) p n) Q s.
Proof.
  intros Hb Hk Hn Hmax Hfb HQ. pose proof Hb as [B1 B2 B3 B4 B5 B6 B7 B8].
  pose proof (lookup_lt_Some _ _ _ Hk) as Hlt. pose proof (inode_in_built _ _ _ Hb Hlt) as Hin.
  pose proof (B5 _ _ Hk) as Hf. pose proof (fowns_at _ _ _ Hf) as Hown. destruct Hf as (F1 & F2 & F3 & F4).
  cbn [fst snd] in *. pose proof (total_insert fs k ty c (c ++ p) Hk) as Htot. rewrite length_app, Nat2Z.inj_add in Htot.
  change (MAXFILE * BSZ) with 71680 in *.
  unfold iappend. wstep. apply wp_rinode; [done|done|]. set (i := inode_at (mk_img s) (inum_of k)) in *.
  assert (i_size i = bytes c) as Hsz by by rewrite F1. rewrite Hsz. rewrite xint_u32 by (unfold is_u32; lia).
  wstep. apply (wp_iappend_loop _ s i p c); try done; [lia|lia|..].
  { intros Hpos. pose proof (Z.mod_pos_bound (bytes c) BSZ eq_refl). change BSZ with 512 in *. zdm. }
  set (N := nblk (bytes c)) in *. set (N' := nblk (bytes c + bytes p)) in *. intros s1 a1 G H.
  pose proof (gw_img _ _ _ _ _ _ G) as I1. rewrite xint_u32 by (unfold is_u32; lia).
  pose proof (mp_len _ _ _ (fl_maps _ _ _ _ (ho_core _ _ _ _ H))) as Hl13.
  apply wp_winode; [done|done| |].
  { assert (inode_ok (mkInode 0 0 0 0 ty 0 0 1 (bytes c + bytes p) a1)) as Hok.
    { split; simpl; try done; [unfold is_u32; lia|exact (core_u32 _ _ _ I1 (ho_core _ _ _ _ H))]. }
    rewrite F1, Hn. exact Hok. }
  intros s' P. pose proof P as [P1 P2 P3 P4 P5 P6]. apply HQ.
  pose proof (gw_fb _ _ _ _ _ _ G) as Gfb. pose proof (cost_mono _ _ (gw_N _ _ _ _ _ _ G)) as Hcm.
  assert (∀ x, 0 ≤ x < nmeta → x ∉ owns (mk_img s) (i_addrs i) N) as Hmeta.
  { intros x Hx Ho. apply (fl_used _ _ _ _ (ho_core _ _ _ _ F2)) in Ho as [Ho _]. lia. }
  assert (∀ x, 0 ≤ x < nmeta → blk (mk_img s1) x = blk (mk_img s) x) as Hblk1.
  { intros x Hx. apply G; [|by apply Hmeta]. pose proof (im_fb _ B1). lia. }
  assert (∀ j, inode_in j → inode_at (mk_img s1) j = inode_at (mk_img s) j) as Hino1.
  { intros j Hj. pose proof (IBLOCK_in _ Hj). unfold inode_at. rewrite Hblk1; [done|change nmeta with 59; lia]. }
  destruct (holds_frame s1 s' a1 N' (c ++ p) I1 P1 H) as [Hnew Hown'].
  { lia. }
  { intros x Hx. apply (fl_used _ _ _ _ (ho_core _ _ _ _ H)) in Hx as [Hx _]. change nmeta with 59 in Hx. apply P6; lia. }
  assert (bytes (c ++ p) = bytes c + bytes p) as Hbcp by (rewrite length_app; lia).
  assert (file_at s' k (ty, c ++ p)) as Hfk.
  { unfold file_at. cbv zeta. rewrite P4. simpl. rewrite Hbcp. rewrite F1. simpl. rewrite Hn.
    change (MAXFILE * BSZ) with 71680. split; [done|]. split; [done|]. split; [done|lia]. }
  assert (∀ x, x ∈ fowns s' k → x ∈ fowns s k ∨ freeblock s ≤ x) as Hfresh.
  { intros x. rewrite (fowns_at _ _ _ Hfk), P4, Hown. simpl. rewrite Hbcp. fold N'. rewrite Hown'. apply G. }
  assert (∀ j f, j ≠ k → fs !! j = Some f → file_at s' j f ∧ fowns s' j = fowns s j) as Hold.
  { intros j f Hne Hj. pose proof (lookup_lt_Some _ _ _ Hj) as Hjlt. pose proof (inode_in_built _ _ _ Hb Hjlt) as Hjin.
    apply (built_frame s s' fs j f Hb P1 Hj); [lia|rewrite P5 by (try done; unfold inum_of; lia); by apply Hino1|].
    intros x Hx. pose proof (file_given _ _ _ _ B1 (B5 _ _ Hj) Hx) as [G1 G2]. change nmeta with 59 in G1.
    rewrite P6 by lia. apply G; [lia|]. rewrite <- Hown. by apply (B6 j k). }
  split; rewrite ?length_insert.
  - done.
  - rewrite P2, (gw_ino _ _ _ _ _ _ G). done.
  - rewrite P2, (gw_ino _ _ _ _ _ _ G). done.
  - rewrite P3, Gfb, B4, Htot. lia.
  - intros j f Hj. destruct (decide (j = k)) as [-> |Hne].
    + rewrite list_lookup_insert_eq in Hj by done. by injection Hj as <-.
    + rewrite list_lookup_insert_ne in Hj by done. by apply Hold.
  - assert (∀ j x, (j < length fs)%nat → j ≠ k → x ∈ fowns s j → x ∉ fowns s' k) as Hjk.
    { intros j x Hj Hne Hx Hx'. destruct (lookup_lt_is_Some_2 fs j Hj) as [f Hfj].
      apply Hfresh in Hx' as [Hx'|Hx']; [by apply (B6 j k x)|].
      pose proof (file_given _ _ _ _ B1 (B5 _ _ Hfj) Hx) as [_ ?]. lia. }
    intros j1 j2 x H1 H2 Hne. destruct (lookup_lt_is_Some_2 fs j1 H1) as [f1 Hf1]. destruct (lookup_lt_is_Some_2 fs j2 H2) as [f2 Hf2].
    destruct (decide (j1 = k)) as [-> |N1]; [|destruct (decide (j2 = k)) as [-> |N2]].
    + rewrite (proj2 (Hold j2 _ ltac:(done) Hf2)). intros Hx Hx'. by apply (Hjk j2 x).
    + rewrite (proj2 (Hold j1 _ ltac:(done) Hf1)). by apply Hjk.
    + rewrite (proj2 (Hold j1 _ ltac:(done) Hf1)), (proj2 (Hold j2 _ ltac:(done) Hf2)). by apply B6.
  - intros j Hj Hjin. rewrite P2, (gw_ino _ _ _ _ _ _ G) in Hj.
    rewrite P5, Hino1; [by apply B7|done|done|]. unfold inum_of in *. lia.
  - intros x Hx Hn'. rewrite P6 by lia. rewrite Hblk1 by done. by apply B8.
Qed.

(** ** Copying the files *)

Lemma total_insert_mono fs k ty c c' d :
  fs !! k = Some (ty, c) → (length c' ≤ length d)%nat →
  total (<[k := (ty, c')]> fs) ≤ total (<[k := (ty, d)]> fs).
Proof.
  intros Hk Hl. rewrite !(total_insert _ _ _ _ _ Hk).
  pose proof (cost_mono _ _ (nblk_mono (bytes c') (bytes d) ltac:(lia))). lia.
Qed.

Lemma wp_copy_file k : ∀ reads s fs ty c (Q : unit → mkstate → Prop),
  built s fs → fs !! k = Some (ty, c) → Forall (λ r : list Z, r ≠ []) reads →
  bytes c + bytes (concat reads) ≤ MAXFILE * BSZ →
  nmeta + total (<[k := (ty, c ++ concat reads)]> fs) ≤ FSSIZE →
  (∀ s', built s' (<[k := (ty, c ++ concat reads)]> fs) → Q tt s') → wp (copy_file (inum_of k) reads) Q s.
Proof.
  induction reads as [|r reads IH]; intros s fs ty c Q Hb Hk Hne Hmax Hfb HQ; simpl in *.
  { wstep. apply HQ. rewrite app_nil_r. by rewrite list_insert_id. }
  apply Forall_cons_1 in Hne as [Hr Hne]. rewrite length_app in Hmax. pose proof (lookup_lt_Some _ _ _ Hk) as Hlt.
  assert (0 < length r)%nat by (destruct r; [done|simpl; lia]). rewrite (proj2 (Z.ltb_lt _ _)) by lia.
  wstep. eapply wp_iappend; [exact Hb|exact Hk|done|lia|..].
  { etransitivity; [|exact Hfb]. apply Z.add_le_mono_l. eapply total_insert_mono; [exact Hk|].
    rewrite !length_app. lia. }
  intros s' Hb'. eapply IH; [exact Hb'|by apply list_lookup_insert_eq|done| |..].
  - rewrite length_app. lia.
  - by rewrite list_insert_insert_eq, <- app_assoc.
  - rewrite list_insert_insert_eq, <- app_assoc. exact HQ.
Qed.

Lemma dirent_length i name : bytes (dirent i name) = DIRENT.
Proof. unfold dirent. by rewrite length_app, strncpy_arr_length. Qed.

(** The entries of the root directory for the files from number [k] on. *)
Fixpoint entries (k : nat) (names : list (list Z)) : list Z :=
  match names with
  | [] => []
  | name :: names => dirent (inum_of k) (skip_underscore name) ++ entries (S k) names
  end.

Section add.
Context (host : list Z → option (list (list Z))).

(** What mkfs can take: a name without '/' of a file that can be opened and
    is not too large; every read but the last returns something. *)
Definition file_good (name : list Z) : Prop :=
  SLASH ∉ name ∧ ∃ reads, host name = Some reads ∧ Forall (λ r : list Z, r ≠ []) reads ∧
    bytes (concat reads) ≤ MAXFILE * BSZ.
Definition file_of (name : list Z) : Z * list Z := (T_FILE, concat (default [] (host name))).

Lemma wp_add_file name s rc dn (Q : unit → mkstate → Prop) :
  let fs' := (T_DIR, rc ++ dirent (inum_of (S (length dn))) (skip_underscore name)) :: dn ++ [file_of name] in
  built s ((T_DIR, rc) :: dn) → file_good name → freeinode s < NINODES → bytes rc + DIRENT ≤ MAXFILE * BSZ →
  nmeta + total fs' ≤ FSSIZE → (∀ s', built s' fs' → Q tt s') → wp (add_file host (inum_of 0) name) Q s.
Proof.
  intros fs' Hb (Hsl & reads & Hr & Hne & Hmax) Hlt Hroot Hfb HQ. unfold add_file. rewrite bool_decide_false by done.
  rewrite Hr. unfold fs', file_of in *. rewrite Hr in *. change (default [] (Some reads)) with reads in *.
  set (de := dirent _ _) in *. rewrite total_cons, total_app, total_cons in Hfb. change (total []) with 0 in Hfb.
  cbn [snd] in Hfb.
  pose proof (cost_mono 0 (nblk (bytes (concat reads))) ltac:(lia)) as Hc0. change (cost 0) with 0 in Hc0.
  wstep. eapply wp_ialloc; [exact Hb|done|done|]. intros s1 Hb1. wstep.
  change (inum_of (length ((T_DIR, rc) :: dn))) with (inum_of (S (length dn))).
  eapply (wp_iappend 0 _ _ s1 _ T_DIR rc); [exact Hb1|done|by rewrite dirent_length|done|..].
  { simpl. rewrite total_cons, total_app. change (total [(T_FILE, [])]) with 0. fold de. cbn [snd]. lia. }
  intros s2 Hb2. simpl in Hb2. fold de in Hb2.
  eapply (wp_copy_file (S (length dn)) reads s2 _ T_FILE []); [exact Hb2| |done|done|..].
  - simpl. by rewrite list_lookup_middle.
  - simpl. rewrite insert_app_r_alt by lia. rewrite Nat.sub_diag. simpl.
    rewrite total_cons, total_app, total_cons. change (total []) with 0. cbn [snd]. lia.
  - simpl. rewrite insert_app_r_alt by lia. rewrite Nat.sub_diag. simpl. exact HQ.
Qed.

Lemma entries_length k names : bytes (entries k names) = DIRENT * Z.of_nat (length names).
Proof.
  revert k. induction names as [|n names IH]; intros k; cbn [entries length]; [done|].
  rewrite length_app, Nat2Z.inj_add, dirent_length, IH. lia.
Qed.

Lemma wp_add_files : ∀ names s rc dn (Q : unit → mkstate → Prop),
  let fs' := (T_DIR, rc ++ entries (S (length dn)) names) :: dn ++ (file_of <$> names) in
  built s ((T_DIR, rc) :: dn) → Forall file_good names → inum_of (S (length dn)) + Z.of_nat (length names) ≤ NINODES →
  bytes rc + DIRENT * Z.of_nat (length names) ≤ MAXFILE * BSZ →
  nmeta + total fs' ≤ FSSIZE → (∀ s', built s' fs' → Q tt s') → wp (forM names (add_file host (inum_of 0))) Q s.
Proof.
  induction names as [|name names IH]; intros s rc dn Q fs' Hb Hg Hlt Hroot Hfb HQ; cbn [forM].
  { wstep. apply HQ. unfold fs'. simpl. by rewrite !app_nil_r. }
  apply Forall_cons_1 in Hg as [Hg1 Hg]. unfold fs' in *. cbn [length entries fmap list_fmap] in *.
  set (de := dirent _ _) in *. rewrite total_cons in Hfb. change (dn ++ ?x :: ?l) with (dn ++ [x] ++ l) in Hfb.
  rewrite !total_app in Hfb. cbn [snd] in Hfb. change DIRENT with 16 in *.
  pose proof (dirent_length (inum_of (S (length dn))) (skip_underscore name)) as Hde. fold de in Hde. change DIRENT with 16 in Hde.
  pose proof (cost_mono _ _ (nblk_mono (bytes (rc ++ de)) (bytes (rc ++ de ++ entries (S (S (length dn))) names))
    ltac:(rewrite !length_app; lia))) as Hmono. pose proof (total_nonneg (file_of <$> names)) as Hnn.
  wstep. eapply wp_add_file; [exact Hb|done| |change DIRENT with 16; lia| |].
  - rewrite (bu_ino _ _ Hb). unfold inum_of in *. cbn [length]. lia.
  - rewrite total_cons, total_app. fold de. cbn [snd]. change (list_fmap _ _ file_of names) with (file_of <$> names) in Hfb. lia.
  - fold de. intros s1 Hb1.
    assert (length (dn ++ [file_of name]) = S (length dn)) as Hlen by (rewrite length_app; simpl; lia).
    eapply IH; [exact Hb1|done| | | |]; rewrite ?Hlen.
    + unfold inum_of in *. lia.
    + rewrite length_app. change DIRENT with 16. lia.
    + rewrite total_cons, !total_app, <- app_assoc. cbn [snd].
      change (list_fmap _ _ file_of names) with (file_of <$> names) in Hfb. lia.
    + rewrite <- !app_assoc. exact HQ.
Qed.
End add.

(** ** The empty file system *)

Lemma wp_format n : ∀ m s (Q : unit → mkstate → Prop),
  mk_img s = replicate m zeroes → (m + n ≤ 1000)%nat →
  Q tt (set_img (replicate (m + n) zeroes) s) → wp (forM (seq m n) (λ i, wsect (Z.of_nat i) zeroes)) Q s.
Proof.
  induction n as [|n IH]; intros m s Q Hs Hn HQ; cbn [seq forM].
  { wstep. rewrite Nat.add_0_r, <- Hs in HQ. by destruct s. }
  wstep. unfold wsect. wstep. cbv zeta. rewrite sect_small, Nat2Z.id by lia.
  rewrite Hs, length_replicate, Nat.ltb_irrefl, Nat.sub_diag. cbn [replicate app].
  replace (replicate m zeroes ++ [zeroes]) with (replicate (S m) zeroes) by apply replicate_S_end.
  apply IH; [done|lia|]. by rewrite Nat.add_succ_r in HQ.
Qed.

Lemma geth_zeros off n : geth off (replicate n 0) = 0.
Proof.
  unfold geth, getbytes. rewrite drop_replicate, take_replicate. by destruct (2 `min` (n - off))%nat as [|[|[|]]].
Qed.

Lemma get_dinode_zeros off : get_dinode off zeroes dinode0 = dinode0.
Proof.
  unfold get_dinode, zeroes. rewrite !geth_zeros, getw_zeros. unfold dinode0. f_equal.
  transitivity ((λ _ : nat, 0) <$> seq 0 13); [|done]. apply list_fmap_ext. intros k j _. apply getw_zeros.
Qed.

Definition empty_img : list block :=
  <[1%nat := putbytes 0 (sb_bytes mkfs_sb) zeroes]> (replicate (Z.to_nat FSSIZE) zeroes).

Lemma empty_img_blk x : 0 ≤ x < FSSIZE →
  blk empty_img x = if x =? 1 then putbytes 0 (sb_bytes mkfs_sb) zeroes else zeroes.
Proof.
  intros Hx. unfold empty_img. change 1%nat with (Z.to_nat 1). change FSSIZE with 1000 in *.
  rewrite blk_insert by (rewrite ?length_replicate; lia). case_if; [done|].
  unfold blk. by rewrite lookup_replicate_2 by lia.
Qed.

Lemma built_empty : built (mkMk empty_img mkfs_sb 1 nmeta) [].
Proof.
  split; simpl; try done; try lia.
  - split; simpl; try done.
    + unfold empty_img. apply Forall_insert; [apply Forall_replicate|]; done.
    + intros x Hx. change nmeta with 59 in Hx. rewrite empty_img_blk by lia. by rewrite (proj2 (Z.eqb_neq _ _)) by lia.
  - intros i Hi Hin. apply IBLOCK_in in Hin. unfold inode_at.
    rewrite empty_img_blk by (change FSSIZE with 1000; lia). rewrite (proj2 (Z.eqb_neq _ _)) by lia. apply get_dinode_zeros.
  - intros x Hx Hn. apply empty_img_blk. change nmeta with 59 in Hx. change FSSIZE with 1000. lia.
Qed.

(** ** The finished image *)

Lemma set_bits_length n buf : length (set_bits n buf) = length buf.
Proof. induction n as [|n IH]; simpl; [done|]. unfold block in *. by rewrite length_insert. Qed.

Lemma set_bits_spec n j : (n ≤ 4096)%nat → getbit (set_bits n zeroes) j = (j <? n)%nat.
Proof.
  induction n as [|n IH]; intros Hn.
  - rewrite getbit_testbit. unfold set_bits, zeroes. rewrite nth_lookup.
    destruct (replicate BSIZE 0 !! (j / 8)%nat) as [x|] eqn:E; [apply lookup_replicate in E as [-> _]|]; apply Z.bits_0.
  - cbn [set_bits]. cbv zeta. change (Z.shiftl 1 (Z.of_nat (n mod 8))) with (bitmask n).
    rewrite getbit_set, IH; [|lia|].
    + destruct (Nat.eqb_spec j n), (Nat.ltb_spec j n), (Nat.ltb_spec j (S n)); simpl; try done; lia.
    + rewrite set_bits_length. unfold zeroes. rewrite length_replicate. change BSIZE with 512%nat.
      apply Nat.Div0.div_lt_upper_bound. lia.
Qed.

(** main rounds the size of the root directory up. *)
Definition fsize (k : nat) (c : list Z) : Z :=
  match k with O => (bytes c / BSZ + 1) * BSZ | S _ => bytes c end.

(** The image holds the files [fs]: the superblock, an empty log, the inodes,
    the bitmap, and the bytes of each file in blocks of its own. *)
Record formatted (img : list block) (fs : files) : Prop := {
  fm_len : length img = Z.to_nat FSSIZE;
  fm_blocks : Forall (λ b : block, length b = BSIZE) img;
  fm_super : sb_of (blk img 1) = mkfs_sb;
  fm_log x : 2 ≤ x < 2 + nlog → blk img x = zeroes;
  fm_bitmap x : 0 ≤ x < FSSIZE → getbit (blk img (sb_bmapstart mkfs_sb)) (Z.to_nat x) = (x <? nmeta + total fs);
  fm_max : nmeta + total fs ≤ FSSIZE ∧ Z.of_nat (length fs) < NINODES;
  fm_file k f : fs !! k = Some f →
    let i := inode_at img (inum_of k) in let N := nblk (bytes f.2) in
    i = mkInode 0 0 0 0 f.1 0 0 1 (fsize k f.2) (i_addrs i) ∧ is_i16 f.1 ∧ bytes f.2 ≤ MAXFILE * BSZ ∧
    file_core (λ x, nmeta ≤ x < nmeta + total fs) img (i_addrs i) N ∧
    raw img (i_addrs i) N = f.2 ++ replicate (N * BSIZE - length f.2) 0;
  fm_disj j k f g x : fs !! j = Some f → fs !! k = Some g → j ≠ k →
    x ∈ owns img (i_addrs (inode_at img (inum_of j))) (nblk (bytes f.2)) →
    x ∉ owns img (i_addrs (inode_at img (inum_of k))) (nblk (bytes g.2));
  fm_free i : Z.of_nat (length fs) < i < NINODES → inode_at img i = dinode0;
}.

(** The last steps of main: the size of the root directory and the bitmap. *)
Lemma formatted_end s s1 fs c :
  built s ((T_DIR, c) :: fs) →
  let i := inode_at (mk_img s) 1 in
  inode_put s 1 (w_size (fsize 0 c) i) s1 →
  formatted (<[58%nat := set_bits (Z.to_nat (freeblock s1)) zeroes]> (mk_img s1)) ((T_DIR, c) :: fs).
Proof.
  intros Hb i [P1 P2 P3 P4 P5 P6]. pose proof Hb as [B1 B2 B3 B4 B5 B6 B7 B8]. set (l := (T_DIR, c) :: fs) in *.
  pose proof (im_fb _ P1) as [F1 F2]. set (d := set_bits _ _).
  assert (length d = BSIZE) as Hd by (unfold d; rewrite set_bits_length; done).
  pose proof (image_upd s1 58 d P1 ltac:(change nmeta with 59 in F1; lia) Hd) as I2. change (Z.to_nat 58) with 58%nat in I2.
  set (s2 := set_img (<[58%nat := d]> (mk_img s1)) s1) in *. change (<[58%nat := d]> (mk_img s1)) with (mk_img s2).
  assert (∀ x, 0 ≤ x → x ≠ 58 → blk (mk_img s2) x = blk (mk_img s1) x) as H58.
  { intros x Hx Hne. unfold s2. simpl. change 58%nat with (Z.to_nat 58).
    rewrite blk_insert by (rewrite ?(im_len _ P1); change FSSIZE with 1000; lia). by rewrite (proj2 (Z.eqb_neq _ _)). }
  assert (∀ j, inode_in j → inode_at (mk_img s2) j = inode_at (mk_img s1) j) as Hino.
  { intros j Hj. apply IBLOCK_in in Hj. unfold inode_at. rewrite H58 by lia. done. }
  assert (∀ k f, l !! k = Some f →
    i_addrs (inode_at (mk_img s2) (inum_of k)) = i_addrs (inode_at (mk_img s) (inum_of k)) ∧
    holds s2 (i_addrs (inode_at (mk_img s) (inum_of k))) (nblk (bytes f.2)) f.2 ∧
    owns (mk_img s2) (i_addrs (inode_at (mk_img s) (inum_of k))) (nblk (bytes f.2)) = fowns s k) as Hfiles.
  { intros k f Hk. pose proof (inode_in_built _ _ _ Hb (lookup_lt_Some _ _ _ Hk)) as Hin.
    pose proof (B5 _ _ Hk) as Hf. rewrite (fowns_at _ _ _ Hf). destruct Hf as (_ & Hh & _). split.
    - rewrite Hino by done. destruct (decide (k = 0%nat)) as [-> |Hne].
      + change (inum_of 0) with 1. by rewrite P4.
      + rewrite P5; [done|done|unfold inum_of; lia].
    - apply (holds_frame s s2); [done|done|done|simpl; lia|]. intros x Hx.
      apply (fl_used _ _ _ _ (ho_core _ _ _ _ Hh)) in Hx as [Hx _]. change nmeta with 59 in Hx.
      rewrite H58 by lia. apply P6; lia. }
  change nmeta with 59 in *. change FSSIZE with 1000 in *. change nlog with 30 in *. split.
  - apply I2.
  - apply I2.
  - rewrite H58, P6, B8 by (change nmeta with 59; lia). by vm_compute.
  - intros x Hx. change nlog with 30 in Hx. rewrite H58, P6, B8 by (change nmeta with 59; lia).
    by rewrite (proj2 (Z.eqb_neq _ _)) by lia.
  - intros x Hx. change (sb_bmapstart mkfs_sb) with (Z.of_nat 58). unfold blk, s2. simpl mk_img. rewrite Nat2Z.id.
    rewrite list_lookup_insert_eq by (rewrite (im_len _ P1); change FSSIZE with 1000; lia). simpl default.
    unfold d. rewrite set_bits_spec by lia. rewrite P3, B4. change nmeta with 59.
    destruct (Nat.ltb_spec (Z.to_nat x) (Z.to_nat (59 + total l))), (Z.ltb_spec x (59 + total l)); lia.
  - change NINODES with 200 in *. unfold inum_of in B2. change nmeta with 59. change FSSIZE with 1000. lia.
  - intros k f Hk. destruct (Hfiles k f Hk) as (A1 & A2 & A3). destruct (B5 _ _ Hk) as (E1 & E2 & E3 & E4).
    pose proof (inode_in_built _ _ _ Hb (lookup_lt_Some _ _ _ Hk)) as Hin. cbv zeta.
    split_and!; [|done|done| |rewrite A1; apply A2].
    + rewrite A1, Hino by done. destruct k as [|k].
      * injection Hk as <-. change (inum_of 0) with 1 in *. rewrite P4. fold i. fold i in E1. rewrite E1. done.
      * rewrite P5 by (try done; unfold inum_of; lia). rewrite E1 at 1. done.
    + rewrite A1. assert (nmeta + total l = freeblock s2) as Hfb by (simpl; rewrite P3, B4; done).
      rewrite Hfb. apply A2.
  - intros j k f g x Hj Hk Hne. destruct (Hfiles j f Hj) as (A1 & _ & A3). destruct (Hfiles k g Hk) as (C1 & _ & C3).
    rewrite A1, C1, A3, C3. apply B6; [by eapply lookup_lt_Some|by eapply lookup_lt_Some|done].
  - intros j Hj. change NINODES with 200 in *. assert (inode_in j) by (unfold inode_in; change (ninodeblocks * IPB) with 208; lia).
    assert (1 < j) by (unfold l in Hj; simpl in Hj; lia).
    rewrite Hino, P5 by (try done; lia). apply B7; [rewrite B2; unfold inum_of; lia|done].
Qed.

(** ** The kernel on the image *)

Lemma formatted_used img fs v x :
  formatted img fs → tv_cur v = img → 0 ≤ x < FSSIZE → used v mkfs_sb x = (x <? nmeta + total fs).
Proof.
  intros Hf Hv Hx. rewrite used_one by (change BPB with 4096; change FSSIZE with 1000 in Hx; lia). rewrite Hv.
  by apply (fm_bitmap _ _ Hf).
Qed.

Lemma formatted_fsok img fs v :
  formatted img fs → tv_cur v = img → tv_held v = ∅ → (tv_cap v < NBUF)%nat → fsok mkfs_sb v.
Proof.
  intros Hf Hv Hh Hc. pose proof (total_nonneg fs) as Hnn.
  assert (∀ x, 0 ≤ x < nmeta → used v mkfs_sb x = true) as Hu.
  { intros x Hx. rewrite (formatted_used img fs) by (try done; change FSSIZE with 1000; change nmeta with 59 in Hx; lia).
    apply Z.ltb_lt. lia. }
  split; try done.
  - unfold tv_len. rewrite Hv, (fm_len _ _ Hf). by vm_compute.
  - by apply Hu.
  - by apply Hu.
  - rewrite Hv. apply Hf.
Qed.

Lemma nblk_fsize k c : (k = 0%nat → bytes c mod BSZ ≠ 0) → nblk (fsize k c) = nblk (bytes c) ∧ bytes c ≤ fsize k c.
Proof.
  intros H. unfold fsize, nblk. destruct k as [|k]; [|done]. specialize (H eq_refl). change BSZ with 512 in *. zdm.
Qed.

(** The in-memory copy of a disk inode, as ilock makes it. *)
Definition in_core (img : list block) (inum : Z) (i : inode) : Prop :=
  i_dev i = 1 ∧ i_inum i = inum ∧ dinode_of i = inode_at img inum.

Lemma formatted_open img fs v k f i :
  formatted img fs → tv_cur v = img → tv_held v = ∅ → (tv_cap v < NBUF)%nat →
  fs !! k = Some f → f.1 ≠ T_DEV → (k = 0%nat → bytes f.2 mod BSZ ≠ 0) → in_core img (inum_of k) i →
  file_open mkfs_sb v i ∧ fdata img i = f.2 ++ replicate (Z.to_nat (fsize k f.2) - length f.2) 0.
Proof.
  intros Hf Hv Hh Hc Hk Hty Hmod (I1 & I2 & I3). pose proof (formatted_fsok _ _ _ Hf Hv Hh Hc) as Hfs.
  destruct (fm_file _ _ Hf _ _ Hk) as (E1 & E2 & E3 & E4 & E5). destruct (nblk_fsize k f.2 Hmod) as [Hnb Hle].
  destruct (fm_max _ _ Hf) as [M1 M2]. pose proof (lookup_lt_Some _ _ _ Hk) as Hlt. pose proof (total_nonneg fs) as Hnn.
  rewrite <- I3 in *. unfold dinode_of in E1. simpl in E1. injection E1 as T1 T2 T3 T4 T5.
  simpl i_addrs in *. change (MAXFILE * BSZ) with 71680 in *. change NINODES with 200 in *.
  change nmeta with 59 in *. change FSSIZE with 1000 in *.
  assert (0 ≤ fsize k f.2 ≤ 71680) as Hsz.
  { unfold fsize in *. destruct k; [|lia]. specialize (Hmod eq_refl). change BSZ with 512 in *. zdm. }
  assert (inode_in (inum_of k)) as Hin by (unfold inode_in, inum_of; change (ninodeblocks * IPB) with 208; lia).
  pose proof (IBLOCK_in _ Hin) as Hib.
  pose proof (mp_len _ _ _ (fl_maps _ _ _ _ E4)) as Hl13.
  assert (∀ x, 59 ≤ x < 59 + total fs → 0 ≤ x < Z.of_nat (length img)) as HU by (rewrite (fm_len _ _ Hf); change FSSIZE with 1000; lia).
  assert (Forall is_u32 (i_addrs i)) as H32.
  { eapply core_addrs; [exact HU| |exact E4]. rewrite (fm_len _ _ Hf). by vm_compute. }
  assert (∀ x, 59 ≤ x < 59 + total fs → taken mkfs_sb v x) as Htaken.
  { intros x Hx. split_and!; [lia|change (sb_size mkfs_sb) with 1000; lia| |change (sb_bmapstart mkfs_sb) with 58; lia].
    rewrite (formatted_used img fs) by (try done; change FSSIZE with 1000; lia). apply Z.ltb_lt. change nmeta with 59. lia. }
  assert (file_ok mkfs_sb v (i_addrs i) (nblk (bytes f.2))) as Hok.
  { unfold file_ok. rewrite Hv. destruct E4 as [C1 C2 C3 C4 C5]. split; try done. intros x Hx. by apply Htaken, C5. }
  split; [split|].
  - done.
  - done.
  - by rewrite T1.
  - split; rewrite ?T1, ?T2, ?T3, ?T4, ?T5; unfold is_i16, is_u32 in *; try done; lia.
  - rewrite T5. change (MAXFILE * BSZ) with 71680. lia.
  - rewrite T5, Hnb. done.
  - rewrite I2. change (sb_size mkfs_sb) with 1000. lia.
  - rewrite I2, (formatted_used img fs) by (try done; change FSSIZE with 1000; lia). apply Z.ltb_lt. change nmeta with 59. lia.
  - rewrite I2. change (sb_bmapstart mkfs_sb) with 58. lia.
  - rewrite I2, T5, Hnb, Hv. intros Hx. apply (fl_used _ _ _ _ E4) in Hx. lia.
  - unfold fdata. rewrite T5, Hnb, E5. rewrite take_app_ge by lia. f_equal. rewrite take_replicate. f_equal.
    pose proof (nblk_cover (fsize k f.2) ltac:(lia)) as Hcov. rewrite Hnb in Hcov. lia.
Qed.

(** ** Properties *)

(** The root directory and the files, as the command line gives them. *)
Definition mkfs_root (names : list (list Z)) : Z * list Z :=
  (T_DIR, dirent 1 [46] ++ dirent 1 [46; 46] ++ entries 1 names).
Definition mkfs_files (host : list Z → option (list (list Z))) (names : list (list Z)) : files :=
  mkfs_root names :: (file_of host <$> names).

Lemma wp_main_start (m : M mkstate unit) (Q : unit → mkstate → Prop) old :
  wp m Q (mkMk empty_img mkfs_sb 1 nmeta) →
  wp (modify (set_img []) ;; modify (set_msb mkfs_sb) ;; modify (set_freeblock nmeta) ;;
      forM (seq 0 (Z.to_nat FSSIZE)) (λ i, wsect (Z.of_nat i) zeroes) ;;
      sb ← gets mk_sb; wsect 1 (putbytes 0 (sb_bytes sb) zeroes) ;; m) Q (mkfs_start old).
Proof.
  intros H. do 3 (wstep; wstep). wstep. apply wp_format; [done|by vm_compute; lia|]. wstep. wstep. wstep.
  unfold wsect. wstep. exact H.
Qed.

Lemma mkfs_root_length names : bytes (mkfs_root names).2 = DIRENT * (Z.of_nat (length names) + 2).
Proof. unfold mkfs_root. cbn [snd]. rewrite !length_app, !Nat2Z.inj_add, !dirent_length, entries_length. lia. Qed.

Lemma total_le_mono f g fs : (length f.2 ≤ length g.2)%nat → total (f :: fs) ≤ total (g :: fs).
Proof. intros H. rewrite !total_cons. pose proof (cost_mono _ _ (nblk_mono (bytes f.2) (bytes g.2) ltac:(lia))). lia. Qed.

Lemma wp_main host prog image names old :
  Forall (file_good host) names → Z.of_nat (length names) ≤ NINODES - 2 →
  nmeta + total (mkfs_files host names) ≤ FSSIZE →
  wp (main true host (prog :: image :: names)) (λ _ s, formatted (mk_img s) (mkfs_files host names)) (mkfs_start old).
Proof.
  intros Hg Hn Hfb. unfold main. cbn [negb]. apply wp_main_start. change NINODES with 200 in Hn.
  pose proof (mkfs_root_length names) as Hroot. change DIRENT with 16 in Hroot.
  unfold mkfs_files, mkfs_root in *. set (fs := file_of host <$> names) in *. cbn [snd] in Hroot.
  set (d1 := dirent 1 [46]) in *. set (d2 := dirent 1 [46; 46]) in *. rewrite !length_app in Hroot.
  pose proof (dirent_length 1 [46]) as L1. pose proof (dirent_length 1 [46; 46]) as L2. change DIRENT with 16 in L1, L2.
  fold d1 in L1. fold d2 in L2. pose proof (total_nonneg fs) as Hnn.
  assert (∀ c, (length c ≤ length (d1 ++ d2 ++ entries 1 names))%nat → nmeta + total [(T_DIR, c)] ≤ FSSIZE) as Hroom.
  { intros c Hc. pose proof (total_le_mono (T_DIR, c) (T_DIR, d1 ++ d2 ++ entries 1 names) fs Hc) as Hle.
    rewrite !total_cons in *. change (total []) with 0. lia. }
  wstep. eapply wp_ialloc; [exact built_empty|done|done|]. intros s1 Hb1. change (inum_of (length [])) with 1.
  change (negb (1 =? ROOTINO)) with false. cbv iota. change 1 with (inum_of 0).
  wstep. eapply wp_iappend; [exact Hb1|reflexivity|by rewrite dirent_length|done|apply (Hroom d1); rewrite !length_app; lia|].
  intros s2 Hb2. change (built s2 [(T_DIR, d1)]) in Hb2. wstep.
  eapply wp_iappend; [exact Hb2|reflexivity|by rewrite dirent_length| |apply (Hroom (d1 ++ d2)); rewrite !length_app; lia|].
  { change DIRENT with 16. change (MAXFILE * BSZ) with 71680. lia. }
  intros s3 Hb3. change (built s3 [(T_DIR, d1 ++ d2)]) in Hb3. wstep.
  eapply (wp_add_files host names s3 (d1 ++ d2) []); [exact Hb3|done| | | |].
  { change NINODES with 200. unfold inum_of. simpl. lia. }
  { change DIRENT with 16. change (MAXFILE * BSZ) with 71680. rewrite length_app. lia. }
  { cbn [length app]. rewrite <- app_assoc. exact Hfb. }
  cbn [length app]. rewrite <- app_assoc. fold fs. intros s4 Hb4.
  assert (inode_in (inum_of 0)) as Hin by by eapply inode_in_built; [exact Hb4|simpl; lia].
  pose proof (bu_img _ _ Hb4) as I4. wstep. apply wp_rinode; [done|done|]. cbv zeta.
  destruct (bu_file _ _ Hb4 0%nat _ eq_refl) as (F1 & F2 & F3 & F4). cbn [fst snd] in *.
  set (i := inode_at (mk_img s4) (inum_of 0)) in *. set (c := d1 ++ d2 ++ entries 1 names) in *.
  assert (i_size i = bytes c) as -> by by rewrite F1. change (MAXFILE * BSZ) with 71680 in F4.
  rewrite (xint_u32 (bytes c)) by (unfold is_u32; lia). change (bytes c / BSZ + inum_of 0) with (bytes c / BSZ + 1). rewrite xint_u32 by (unfold is_u32; change BSZ with 512; zdm).
  pose proof (mp_len _ _ _ (fl_maps _ _ _ _ (ho_core _ _ _ _ F2))) as Hl13.
  wstep. apply wp_winode; [done|done| |].
  { assert (inode_ok (mkInode 0 0 0 0 T_DIR 0 0 1 ((bytes c / BSZ + 1) * BSZ) (i_addrs i))) as Hok.
    { split; simpl; try done; [unfold is_u32; change BSZ with 512; zdm|exact (core_u32 _ _ _ I4 (ho_core _ _ _ _ F2))]. }
    rewrite F1. exact Hok. }
  intros s5 P. wstep. wstep. pose proof (im_fb _ (ip_img _ _ _ _ P)) as [X1 X2]. unfold balloc.
  rewrite (proj2 (Z.ltb_lt _ _)) by (change (BSZ * 8) with 4096; change FSSIZE with 1000 in *; lia). cbn [negb].
  wstep. wstep. rewrite (im_sb _ (ip_img _ _ _ _ P)). change (sb_bmapstart mkfs_sb) with 58.
  apply wp_wsect; [apply P|change FSSIZE with 1000; lia|]. simpl mk_img. change (Z.to_nat 58) with 58%nat.
  by apply (formatted_end s4 s5 fs c).
Qed.

(** [C23] mkfs makes the file system it was asked for: when the names have no
    '/', the files can be read and are not too large, there are at most 198
    of them and they fit on the disk, main ends and the image has the
    superblock, an empty log, a root directory with ., .. and the names in
    order, each file with exactly its bytes in blocks that no other file
    has, free inodes that are zero, and a bitmap that marks exactly the
    blocks in use. *)
Theorem mkfs_formats host prog image names old :
  Forall (file_good host) names → Z.of_nat (length names) ≤ NINODES - 2 →
  nmeta + total (mkfs_files host names) ≤ FSSIZE →
  wp (main true host (prog :: image :: names)) (λ _ s, formatted (mk_img s) (mkfs_files host names)) (mkfs_start old).
Proof.
  apply wp_main.
Qed.

(** [C24] The kernel reads on the image what mkfs put there.  Whatever
    transactional store has the image, once ilock has loaded the inode of
    one of the files, the file system satisfies what writei asks for and
    readi returns exactly the bytes of the file: those the host gave, or,
    for the root directory, its entries followed by free ones.  The root
    directory is excepted when its entries fill whole blocks. *)
Theorem mkfs_readable host prog image names old :
  Forall (file_good host) names → Z.of_nat (length names) ≤ NINODES - 2 →
  nmeta + total (mkfs_files host names) ≤ FSSIZE →
  wp (main true host (prog :: image :: names))
    (λ _ m, ∀ T (tx : TxStore T) dr k f ip i v (s : fstate T) off n,
       mkfs_files host names !! k = Some f → (k = 0%nat → bytes f.2 mod BSZ ≠ 0) →
       tx_rel (fs_t s) v → tv_cur v = mk_img m → idle v → (tv_cap v < NBUF)%nat →
       ic_inode s !! ip = Some i → in_core (mk_img m) (inum_of k) i → is_u32 off → is_u32 n →
       file_open mkfs_sb v i ∧
       wp (readi dr ip off n)
         (λ r _, r = file_read (f.2 ++ replicate (Z.to_nat (fsize k f.2) - length f.2) 0) off n) s)
    (mkfs_start old).
Proof.
  intros Hg Hn Hfb. eapply wp_mono; [by apply wp_main|].
  intros u m Hf T tx dr k f ip i v s off n Hk Hmod HR Hv Hi Hc Hip Hin Ho Hn'.
  assert (f.1 ≠ T_DEV) as Hty.
  { destruct k as [|k]; [by injection Hk as <-|]. simpl in Hk.
    apply list_lookup_fmap_Some in Hk as (name & -> & _). done. }
  destruct (formatted_open _ _ v k f i Hf Hv (proj1 Hi) Hc Hk Hty Hmod Hin) as [Hop Hd].
  split; [done|]. eapply (wp_readi dr ip off n i v); [exact HR|done|by eapply open_mapped|done|apply Hop|done|done|].
  intros t _. by rewrite Hv, Hd.
Qed.

(** When the entries of the root directory fill whole blocks, its size
    covers one block more than the directory has: its address is 0. *)
Theorem mkfs_root_hole img fs c :
  formatted img ((T_DIR, c) :: fs) → bytes c mod BSZ = 0 → bytes c < MAXFILE * BSZ →
  let i := inode_at img 1 in
  (nblk (bytes c) < nblk (i_size i))%nat ∧ baddr img (i_addrs i) (nblk (bytes c)) = 0.
Proof.
  intros Hf Hmod Hmax i. destruct (fm_file _ _ Hf 0%nat _ eq_refl) as (E1 & _ & _ & E4 & _). cbn [fst snd] in *.
  change (inum_of 0) with 1 in *. fold i in E1, E4. change (MAXFILE * BSZ) with 71680 in Hmax. split.
  - rewrite E1. simpl i_size. unfold nblk. change BSZ with 512 in *. zdm.
  - apply (fl_zero _ _ _ _ E4). split; [done|]. unfold nblk. change BSZ with 512 in *. zdm.
Qed.

(** ** Witnesses *)

(** README of 600 bytes, in two reads, and a program _cat of 3. *)
Definition host_w (name : list Z) : option (list (list Z)) :=
  if bool_decide (name = [82]) then Some [replicate 512 7; replicate 88 8] else
  if bool_decide (name = [95; 99]) then Some [[1; 2; 3]] else None.

Lemma host_w_good : Forall (file_good host_w) [[82]; [95; 99]].
Proof.
  repeat apply Forall_cons_2; [| |apply Forall_nil_2].
  - split; [apply (bool_decide_unpack _); by vm_compute|]. exists [replicate 512 7; replicate 88 8].
    split; [done|]. split; [repeat constructor; discriminate|by vm_compute].
  - split; [apply (bool_decide_unpack _); by vm_compute|]. exists [[1; 2; 3]].
    split; [done|]. split; [repeat constructor; discriminate|by vm_compute].
Qed.

Lemma mkfs_formats_witness :
  wp (main true host_w [[]; []; [82]; [95; 99]])
    (λ _ s, formatted (mk_img s)
       [(T_DIR, dirent 1 [46] ++ dirent 1 [46; 46] ++ dirent 2 [82] ++ dirent 3 [99]);
        (T_FILE, replicate 512 7 ++ replicate 88 8); (T_FILE, [1; 2; 3])]) (mkfs_start []).
Proof.
  apply (mkfs_formats host_w [] [] [[82]; [95; 99]] []); [exact host_w_good|by vm_compute|by vm_compute].
Defined.

(** A kernel that has booted from the image and holds inode 3. *)
Definition core_w (img : list block) : inode :=
  let i := inode_at img 3 in
  mkInode 1 3 1 I_VALID (i_type i) (i_major i) (i_minor i) (i_nlink i) (i_size i) (i_addrs i).
Definition kernel_w (img : list block) : fstate (bstate * logst) :=
  mkFs (mkBst cpu0 (initlock "bcache" lock0) (binit_bufs []) img [] [], wl0) mkfs_sb lock0
    (<[0%nat := core_w img]> (replicate NINODE inode0)) [] 0.

Lemma mkfs_readable_witness :
  wp (main true host_w [[]; []; [82]; [95; 99]])
    (λ _ m, wp (readi (λ _, None) 0 1 100) (λ r _, r = ([2; 3], 2)) (kernel_w (mk_img m))) (mkfs_start []).
Proof.
  assert (nmeta + total (mkfs_files host_w [[82]; [95; 99]]) ≤ FSSIZE) as Hfit by by vm_compute.
  pose proof (wp_main host_w [] [] [[82]; [95; 99]] [] host_w_good ltac:(by vm_compute) Hfit) as H1.
  pose proof (mkfs_readable host_w [] [] [[82]; [95; 99]] [] host_w_good ltac:(by vm_compute) Hfit) as H2.
  eapply wp_mono; [exact (wp_conj _ _ _ _ H1 H2)|]. clear H1 H2. intros u m [H1 H2].
  destruct (H2 _ _ (λ _, None) 2%nat (T_FILE, [1; 2; 3]) 0%nat (core_w (mk_img m)) (mkTv (mk_img m) ∅ ∅ ∅ 29)
    (kernel_w (mk_img m)) 1 100) as [_ H].
  - reflexivity.
  - discriminate.
  - apply boot_rel.
  - reflexivity.
  - split; [done|vm_compute; lia].
  - vm_compute; lia.
  - reflexivity.
  - split_and!; done.
  - done.
  - done.
  - eapply wp_mono; [exact H|]. intros r s' ->. vm_compute. reflexivity.
Defined.
