(* ===== verification/Proc.v ===== *)
(** * Processes (xv6/proc.c, xv6/proc.h)

    The state is the process table with its lock, the running CPU, and the
    state of the rest of the kernel, [E].  What proc.c calls in vm.c,
    kalloc.c, file.c, fs.c and log.c is the interface [ProcEnv E].

    The state the interface speaks of is an abstract view, [kview]: the pages
    and page directories that exist, and the references to files and inodes;
    what a call needs to return (kfree a page that kalloc gave, freevm a
    directory that exists, and so on) is a condition of its law, which the
    invariant of the process table, [res_ok], makes true.

    swtch to the scheduler ends a function's first segment with [Sleeps];
    [sched_return], [sleep_return] and [yield_return] are what runs when the
    scheduler switches back.  The local variable [intena] of sched lives on
    the process's kernel stack; the field [p_intena] stands for it. *)

From stdpp Require Import gmap gmultiset.
From S2P Require Import Prelude Kernel Spinlock.
Local Open Scope Z_scope.

(** ** Data *)

Definition NPROC : nat := 64.
Definition NOFILE : nat := 16.
Definition MAXARG : nat := 32.
Definition KSTACKSIZE : Z := 4096.
Definition SEG_UCODE : Z := 4.
Definition SEG_UDATA : Z := 5.
Definition DPL_USER : Z := 3.

Inductive procstate := UNUSED | EMBRYO | SLEEPING | RUNNABLE | RUNNING | ZOMBIE.

#[export] Instance procstate_eq_dec : EqDecision procstate.
Proof. solve_decision. Defined.

(** struct trapframe, without its padding. *)
Record trapframe := mkTf {
  tf_edi : Z; tf_esi : Z; tf_ebp : Z; tf_oesp : Z; tf_ebx : Z; tf_edx : Z; tf_ecx : Z; tf_eax : Z;
  tf_gs : Z; tf_fs : Z; tf_es : Z; tf_ds : Z; tf_trapno : Z;
  tf_err : Z; tf_eip : Z; tf_cs : Z; tf_eflags : Z; tf_esp : Z; tf_ss : Z;
}.

Definition tf_zero : trapframe := mkTf 0 0 0 0 0 0 0 0 0 0 0 0 0 0 0 0 0 0 0.
Definition set_eax (x : Z) (t : trapframe) : trapframe :=
  mkTf (tf_edi t) (tf_esi t) (tf_ebp t) (tf_oesp t) (tf_ebx t) (tf_edx t) (tf_ecx t) x
    (tf_gs t) (tf_fs t) (tf_es t) (tf_ds t) (tf_trapno t)
    (tf_err t) (tf_eip t) (tf_cs t) (tf_eflags t) (tf_esp t) (tf_ss t).

Record context := mkCtx { c_edi : Z; c_esi : Z; c_ebx : Z; c_ebp : Z; c_eip : Z }.

(** struct proc.  [parent] is an index into the table; [p_tf] and [p_ctx]
    are what the pointers tf and context point to on the kernel stack,
    [p_ret] is the word above the context (the return address of forkret). *)
Record proc := mkProc {
  p_sz : Z;
  p_pgdir : Z;
  p_kstack : Z;
  p_state : procstate;
  p_pid : Z;
  p_parent : option nat;
  p_tf : trapframe;
  p_ctx : context;
  p_ret : Z;
  p_chan : Z;
  p_killed : Z;
  p_ofile : list Z;
  p_cwd : Z;
  p_name : list Z;
  p_intena : Z;
}.

Definition w_state (x : procstate) (p : proc) : proc :=
  mkProc (p_sz p) (p_pgdir p) (p_kstack p) x (p_pid p) (p_parent p) (p_tf p) (p_ctx p) (p_ret p)
    (p_chan p) (p_killed p) (p_ofile p) (p_cwd p) (p_name p) (p_intena p).
Definition w_pid (x : Z) (p : proc) : proc :=
  mkProc (p_sz p) (p_pgdir p) (p_kstack p) (p_state p) x (p_parent p) (p_tf p) (p_ctx p) (p_ret p)
    (p_chan p) (p_killed p) (p_ofile p) (p_cwd p) (p_name p) (p_intena p).
Definition w_kstack (x : Z) (p : proc) : proc :=
  mkProc (p_sz p) (p_pgdir p) x (p_state p) (p_pid p) (p_parent p) (p_tf p) (p_ctx p) (p_ret p)
    (p_chan p) (p_killed p) (p_ofile p) (p_cwd p) (p_name p) (p_intena p).
Definition w_pgdir (x : Z) (p : proc) : proc :=
  mkProc (p_sz p) x (p_kstack p) (p_state p) (p_pid p) (p_parent p) (p_tf p) (p_ctx p) (p_ret p)
    (p_chan p) (p_killed p) (p_ofile p) (p_cwd p) (p_name p) (p_intena p).
Definition w_sz (x : Z) (p : proc) : proc :=
  mkProc x (p_pgdir p) (p_kstack p) (p_state p) (p_pid p) (p_parent p) (p_tf p) (p_ctx p) (p_ret p)
    (p_chan p) (p_killed p) (p_ofile p) (p_cwd p) (p_name p) (p_intena p).
Definition w_parent (x : option nat) (p : proc) : proc :=
  mkProc (p_sz p) (p_pgdir p) (p_kstack p) (p_state p) (p_pid p) x (p_tf p) (p_ctx p) (p_ret p)
    (p_chan p) (p_killed p) (p_ofile p) (p_cwd p) (p_name p) (p_intena p).
Definition w_tf (x : trapframe) (p : proc) : proc :=
  mkProc (p_sz p) (p_pgdir p) (p_kstack p) (p_state p) (p_pid p) (p_parent p) x (p_ctx p) (p_ret p)
    (p_chan p) (p_killed p) (p_ofile p) (p_cwd p) (p_name p) (p_intena p).
Definition w_ctx (x : context) (r : Z) (p : proc) : proc :=
  mkProc (p_sz p) (p_pgdir p) (p_kstack p) (p_state p) (p_pid p) (p_parent p) (p_tf p) x r
    (p_chan p) (p_killed p) (p_ofile p) (p_cwd p) (p_name p) (p_intena p).
Definition w_chan (x : Z) (p : proc) : proc :=
  mkProc (p_sz p) (p_pgdir p) (p_kstack p) (p_state p) (p_pid p) (p_parent p) (p_tf p) (p_ctx p) (p_ret p)
    x (p_killed p) (p_ofile p) (p_cwd p) (p_name p) (p_intena p).
Definition w_killed (x : Z) (p : proc) : proc :=
  mkProc (p_sz p) (p_pgdir p) (p_kstack p) (p_state p) (p_pid p) (p_parent p) (p_tf p) (p_ctx p) (p_ret p)
    (p_chan p) x (p_ofile p) (p_cwd p) (p_name p) (p_intena p).
Definition w_ofile (x : list Z) (p : proc) : proc :=
  mkProc (p_sz p) (p_pgdir p) (p_kstack p) (p_state p) (p_pid p) (p_parent p) (p_tf p) (p_ctx p) (p_ret p)
    (p_chan p) (p_killed p) x (p_cwd p) (p_name p) (p_intena p).
Definition w_cwd (x : Z) (p : proc) : proc :=
  mkProc (p_sz p) (p_pgdir p) (p_kstack p) (p_state p) (p_pid p) (p_parent p) (p_tf p) (p_ctx p) (p_ret p)
    (p_chan p) (p_killed p) (p_ofile p) x (p_name p) (p_intena p).
Definition w_name (x : list Z) (p : proc) : proc :=
  mkProc (p_sz p) (p_pgdir p) (p_kstack p) (p_state p) (p_pid p) (p_parent p) (p_tf p) (p_ctx p) (p_ret p)
    (p_chan p) (p_killed p) (p_ofile p) (p_cwd p) x (p_intena p).
Definition w_intena (x : Z) (p : proc) : proc :=
  mkProc (p_sz p) (p_pgdir p) (p_kstack p) (p_state p) (p_pid p) (p_parent p) (p_tf p) (p_ctx p) (p_ret p)
    (p_chan p) (p_killed p) (p_ofile p) (p_cwd p) (p_name p) x.

(** ptable, initproc, nextpid, and the cpu and proc variables of this CPU. *)
Record pstate (E : Type) := mkPs {
  ps_cpu : cpu;
  pt_lock : spinlock;
  procs : list proc;
  initproc : option nat;
  nextpid : Z;
  curproc : option nat;
  penv : E;
}.
Arguments mkPs {E}.
Arguments ps_cpu {E}.
Arguments pt_lock {E}.
Arguments procs {E}.
Arguments initproc {E}.
Arguments nextpid {E}.
Arguments curproc {E}.
Arguments penv {E}.

Section setters.
Context {E : Type}.
Implicit Types (s : pstate E).
Definition set_ps_cpu (c : cpu) s : pstate E :=
  mkPs c (pt_lock s) (procs s) (initproc s) (nextpid s) (curproc s) (penv s).
Definition set_pt_lock (l : spinlock) s : pstate E :=
  mkPs (ps_cpu s) l (procs s) (initproc s) (nextpid s) (curproc s) (penv s).
Definition set_procs (x : list proc) s : pstate E :=
  mkPs (ps_cpu s) (pt_lock s) x (initproc s) (nextpid s) (curproc s) (penv s).
Definition set_initproc (x : option nat) s : pstate E :=
  mkPs (ps_cpu s) (pt_lock s) (procs s) x (nextpid s) (curproc s) (penv s).
Definition set_nextpid (x : Z) s : pstate E :=
  mkPs (ps_cpu s) (pt_lock s) (procs s) (initproc s) x (curproc s) (penv s).
Definition set_curproc (x : option nat) s : pstate E :=
  mkPs (ps_cpu s) (pt_lock s) (procs s) (initproc s) (nextpid s) x (penv s).
Definition set_penv (x : E) s : pstate E :=
  mkPs (ps_cpu s) (pt_lock s) (procs s) (initproc s) (nextpid s) (curproc s) x.

Definition pcpu : lens (pstate E) cpu := mkLens ps_cpu set_ps_cpu.
Definition ptlk : lens (pstate E) spinlock := mkLens pt_lock set_pt_lock.
#[export] Instance pcpu_ok : LensOk pcpu.
Proof. split; try done. by intros []. Qed.
#[export] Instance ptlk_ok : LensOk ptlk.
Proof. split; try done. by intros []. Qed.
#[export] Instance pcpu_ptlk : LensIndep pcpu ptlk.
Proof. by split. Qed.
End setters.

(** The rest of the kernel, as processes see it: the pages that kalloc has
    handed out as kernel stacks, the page directories with the size and the
    bytes of their user memory, the references to open files, the references
    to inodes (but for those of the file table), and the operations begun. *)
Record kview := mkKv {
  kv_pages : gset Z;
  kv_dirs : gmap Z (Z * (Z → Z));
  kv_files : gmultiset Z;
  kv_inodes : gmultiset Z;
  kv_ops : nat;
}.
Definition kvs_pages (x : gset Z) (v : kview) : kview := mkKv x (kv_dirs v) (kv_files v) (kv_inodes v) (kv_ops v).
Definition kvs_dirs (x : gmap Z (Z * (Z → Z))) (v : kview) : kview :=
  mkKv (kv_pages v) x (kv_files v) (kv_inodes v) (kv_ops v).
Definition kvs_files (x : gmultiset Z) (v : kview) : kview := mkKv (kv_pages v) (kv_dirs v) x (kv_inodes v) (kv_ops v).
Definition kvs_inodes (x : gmultiset Z) (v : kview) : kview := mkKv (kv_pages v) (kv_dirs v) (kv_files v) x (kv_ops v).
Definition kvs_ops (x : nat) (v : kview) : kview := mkKv (kv_pages v) (kv_dirs v) (kv_files v) (kv_inodes v) x.

(** What proc.c uses of the rest of the kernel.  Pointers are addresses, 0
    is NULL.  Each law says under which condition the call returns, and what
    the view is then; a call that has to wait is one whose wait is over. *)
Class ProcEnv (E : Type) := {
  pe_kalloc : M E Z;
  pe_kfree : Z → M E unit;
  pe_setupkvm : M E Z;
  pe_inituvm : Z → M E unit;
  pe_copyuvm : Z → Z → M E Z;
  pe_freevm : Z → M E unit;
  pe_allocuvm : Z → Z → Z → M E Z;
  pe_deallocuvm : Z → Z → Z → M E Z;
  pe_switchuvm : Z → M E unit;
  pe_switchkvm : M E unit;
  pe_filedup : Z → M E Z;
  pe_fileclose : Z → M E unit;
  pe_idup : Z → M E Z;
  pe_iput : Z → M E unit;
  pe_namei_root : M E Z;
  pe_begin_op : M E unit;
  pe_end_op : M E unit;
  pe_iinit_initlog : M E unit;
  pe_forkret : Z;
  pe_trapret : Z;
  pe_rel : E → kview → Prop;
  pe_kalloc_law e v : pe_rel e v →
    wp pe_kalloc (λ a e', a = 0 ∧ pe_rel e' v ∨
                          a ≠ 0 ∧ a ∉ kv_pages v ∧ pe_rel e' (kvs_pages ({[a]} ∪ kv_pages v) v)) e;
  pe_kfree_law a e v : pe_rel e v → a ∈ kv_pages v →
    wp (pe_kfree a) (λ _ e', pe_rel e' (kvs_pages (kv_pages v ∖ {[a]}) v)) e;
  pe_copyuvm_law d z img e v : pe_rel e v → kv_dirs v !! d = Some (z, img) →
    wp (pe_copyuvm d z) (λ d' e', d' = 0 ∧ pe_rel e' v ∨
                          d' ≠ 0 ∧ kv_dirs v !! d' = None ∧ pe_rel e' (kvs_dirs (<[d' := (z, img)]> (kv_dirs v)) v)) e;
  pe_freevm_law d e v : pe_rel e v → is_Some (kv_dirs v !! d) →
    wp (pe_freevm d) (λ _ e', pe_rel e' (kvs_dirs (delete d (kv_dirs v)) v)) e;
  pe_switchuvm_law d e v : pe_rel e v → is_Some (kv_dirs v !! d) → wp (pe_switchuvm d) (λ _ e', pe_rel e' v) e;
  pe_switchkvm_law e v : pe_rel e v → wp pe_switchkvm (λ _ e', pe_rel e' v) e;
  pe_filedup_law f e v : pe_rel e v → f ∈ kv_files v →
    wp (pe_filedup f) (λ r e', r = f ∧ pe_rel e' (kvs_files (kv_files v ⊎ {[+ f +]}) v)) e;
  pe_fileclose_law f e v : pe_rel e v → f ∈ kv_files v →
    wp (pe_fileclose f) (λ _ e', pe_rel e' (kvs_files (kv_files v ∖ {[+ f +]}) v)) e;
  pe_idup_law i e v : pe_rel e v → i ∈ kv_inodes v →
    wp (pe_idup i) (λ r e', r = i ∧ pe_rel e' (kvs_inodes (kv_inodes v ⊎ {[+ i +]}) v)) e;
  pe_iput_law i e v : pe_rel e v → i ∈ kv_inodes v → (0 < kv_ops v)%nat →
    wp (pe_iput i) (λ _ e', pe_rel e' (kvs_inodes (kv_inodes v ∖ {[+ i +]}) v)) e;
  pe_begin_op_law e v : pe_rel e v → wp pe_begin_op (λ _ e', pe_rel e' (kvs_ops (S (kv_ops v)) v)) e;
  pe_end_op_law e v : pe_rel e v → (0 < kv_ops v)%nat →
    wp pe_end_op (λ _ e', pe_rel e' (kvs_ops (pred (kv_ops v)) v)) e;
}.

(** safestrcpy on a name array: bytes up to a NUL or [n - 1] of them, then
    a NUL; the rest of the destination stays. *)
Fixpoint safestr (dst src : list Z) (n : nat) : list Z :=
  match n, dst with
  | S (S _ as n'), _ :: dst' =>
      match src with
      | c :: src' => if c =? 0 then 0 :: dst' else c :: safestr dst' src' n'
      | [] => 0 :: dst'
      end
  | S O, _ :: dst' => 0 :: dst'
  | _, _ => dst
  end.

(** ** proc.c *)

Section proc.
Context {E : Type} `{!ProcEnv E}.
Abbreviation st := (pstate E).

Definition env {A} (m : M E A) : M st A := λ s,
  match m (penv s) with
  | Ret a e => Ret a (set_penv e s)
  | Panic msg => Panic msg
  | Sleeps c e => Sleeps c (set_penv e s)
  | Spins => Spins
  | Fault => Fault
  end.

(** Access to a slot of the table; [proc] is NULL or a pointer into it. *)
Definition getp (i : nat) : M st proc := o ← gets (λ s, procs s !! i); deref o.
Definition updp (i : nat) (f : proc → proc) : M st unit :=
  p ← getp i; modify (λ s, set_procs (<[i := f p]> (procs s)) s).
Definition myproc : M st nat := o ← gets curproc; deref o.

Definition pinit : M st unit :=
  modify (λ s, set_pt_lock (initlock "ptable" (pt_lock s)) s).

(** The first slot from [i] on that satisfies [f]. *)
Fixpoint findp (f : proc → bool) (ps : list proc) (i : nat) : option nat :=
  match ps with
  | [] => None
  | p :: ps => if f p then Some i else findp f ps (S i)
  end.

Definition isstate (x : procstate) (p : proc) : bool := bool_decide (p_state p = x).

Definition allocproc : M st (option nat) :=
  acquire pcpu ptlk ;;
  r ← gets (λ s, findp (isstate UNUSED) (procs s) 0);
  match r with
  | None => release pcpu ptlk ;; mret None
  | Some i =>
      updp i (w_state EMBRYO) ;;
      n ← gets nextpid;
      updp i (w_pid n) ;;
      modify (set_nextpid (i32 (n + 1))) ;;
      release pcpu ptlk ;;
      k ← env pe_kalloc;
      updp i (w_kstack k) ;;
      if k =? 0 then updp i (w_state UNUSED) ;; mret None else
      (* tf and context lie below the top of the stack *)
      updp i (w_ctx (mkCtx 0 0 0 0 pe_forkret) pe_trapret) ;;
      mret (Some i)
  end.

Definition initcode_name : list Z := [105; 110; 105; 116; 99; 111; 100; 101; 0].

Definition userinit : M st unit :=
  r ← allocproc;
  modify (set_initproc r) ;;
  p ← deref r;
  d ← env pe_setupkvm;
  updp p (w_pgdir d) ;;
  if d =? 0 then panic "userinit: out of memory?" else
  env (pe_inituvm d) ;;
  updp p (w_sz 4096) ;;
  let cs := Z.lor (Z.shiftl SEG_UCODE 3) DPL_USER in
  let ds := Z.lor (Z.shiftl SEG_UDATA 3) DPL_USER in
  updp p (w_tf (mkTf 0 0 0 0 0 0 0 0 0 0 ds ds 0 0 0 cs FL_IF 4096 ds)) ;;
  updp p (λ q, w_name (safestr (p_name q) initcode_name 16) q) ;;
  c ← env pe_namei_root;
  updp p (w_cwd c) ;;
  updp p (w_state RUNNABLE).

Definition growproc (n : Z) : M st Z :=
  c ← myproc;
  p ← getp c;
  let sz := p_sz p in
  r ← (if 0 <? n then
         sz' ← env (pe_allocuvm (p_pgdir p) sz (u32 (sz + n)));
         mret (if sz' =? 0 then None else Some sz')
       else if n <? 0 then
         sz' ← env (pe_deallocuvm (p_pgdir p) sz (u32 (sz + n)));
         mret (if sz' =? 0 then None else Some sz')
       else mret (Some sz));
  match r with
  | None => mret (-1)
  | Some sz' =>
      updp c (w_sz sz') ;;
      env (pe_switchuvm (p_pgdir p)) ;;
      mret 0
  end.

(** fork's loop over the open files. *)
Fixpoint dupfiles (np : nat) (i : nat) (fs : list Z) : M st unit :=
  match fs with
  | [] => mret tt
  | f :: fs =>
      (if f =? 0 then mret tt
       else r ← env (pe_filedup f);
            updp np (λ q, w_ofile (<[i := r]> (p_ofile q)) q)) ;;
      dupfiles np (S i) fs
  end.

Definition fork : M st Z :=
  r ← allocproc;
  match r with
  | None => mret (-1)
  | Some np =>
      c ← myproc;
      p ← getp c;
      d ← env (pe_copyuvm (p_pgdir p) (p_sz p));
      updp np (w_pgdir d) ;;
      if d =? 0 then
        q ← getp np;
        env (pe_kfree (p_kstack q)) ;;
        updp np (w_kstack 0) ;;
        updp np (w_state UNUSED) ;;
        mret (-1)
      else
      updp np (w_sz (p_sz p)) ;;
      updp np (w_parent (Some c)) ;;
      updp np (w_tf (p_tf p)) ;;
      updp np (λ q, w_tf (set_eax 0 (p_tf q)) q) ;;
      dupfiles np 0 (p_ofile p) ;;
      w ← env (pe_idup (p_cwd p));
      updp np (w_cwd w) ;;
      updp np (λ q, w_name (safestr (p_name q) (p_name p) 16) q) ;;
      q ← getp np;
      let pid := p_pid q in
      acquire pcpu ptlk ;;
      updp np (w_state RUNNABLE) ;;
      release pcpu ptlk ;;
      mret pid
  end.

(** A process pointer as a sleep channel; 0 for NULL. *)
Definition chan_of (o : option nat) : Z :=
  match o with Some i => Z.of_nat i + 1 | None => 0 end.

Definition wake (chan : Z) (p : proc) : proc :=
  if isstate SLEEPING p && (p_chan p =? chan) then w_state RUNNABLE p else p.

Definition wakeup1 (chan : Z) : M st unit :=
  modify (λ s, set_procs (wake chan <$> procs s) s).

Definition wakeup (chan : Z) : M st unit :=
  acquire pcpu ptlk ;;
  wakeup1 chan ;;
  release pcpu ptlk.

(** sched up to swtch(&proc->context, cpu->scheduler). *)
Definition sched {A} : M st A :=
  h ← gets (λ s, holding (ps_cpu s) (pt_lock s));
  if negb h then panic "sched ptable.lock" else
  n ← gets (λ s, ncli (ps_cpu s));
  if negb (n =? 1) then panic "sched locks" else
  c ← myproc;
  p ← getp c;
  if isstate RUNNING p then panic "sched running" else
  on ← gets (λ s, intr_on (ps_cpu s));
  if on : bool then panic "sched interruptible" else
  i ← gets (λ s, intena (ps_cpu s));
  updp c (w_intena i) ;;
  sleeps (chan_of (Some c)).

(** sched after the scheduler has switched back to this process. *)
Definition sched_return : M st unit :=
  c ← myproc;
  p ← getp c;
  modify (λ s, set_ps_cpu (set_intena (p_intena p) (ps_cpu s)) s).

Definition yield {A} : M st A :=
  acquire pcpu ptlk ;;
  c ← myproc;
  updp c (w_state RUNNABLE) ;;
  sched.
Definition yield_return : M st unit := sched_return ;; release pcpu ptlk.

(** exit's loop over the table. *)
Definition exit_child (c : nat) (i : nat) : M st unit :=
  p ← getp i;
  if bool_decide (p_parent p = Some c) then
    ip ← gets initproc;
    updp i (w_parent ip) ;;
    if isstate ZOMBIE p then wakeup1 (chan_of ip) else mret tt
  else mret tt.

(** exit's loop over the open files. *)
Definition close_fd (c : nat) (fd : nat) : M st unit :=
  p ← getp c;
  f ← deref (p_ofile p !! fd);
  if f =? 0 then mret tt else
  env (pe_fileclose f) ;;
  updp c (λ q, w_ofile (<[fd := 0]> (p_ofile q)) q).

(** The part of exit under ptable.lock, up to the switch; it never returns. *)
Definition exit_locked {A} (c : nat) : M st A :=
  acquire pcpu ptlk ;;
  p ← getp c;
  wakeup1 (chan_of (p_parent p)) ;;
  forM (seq 0 NPROC) (exit_child c) ;;
  updp c (w_state ZOMBIE) ;;
  sched.

Definition exit {A} : M st A :=
  c ← myproc;
  ip ← gets initproc;
  if bool_decide (ip = Some c) then panic "init exiting" else
  forM (seq 0 NOFILE) (close_fd c) ;;
  env pe_begin_op ;;
  p ← getp c;
  env (pe_iput (p_cwd p)) ;;
  env pe_end_op ;;
  updp c (w_cwd 0) ;;
  exit_locked c.

(** The lock argument of sleep: NULL, &ptable.lock, or another lock. *)
Inductive sleeplk := LkNull | LkPtable | LkOther (l : lens st spinlock).

Definition sleep {A} (chan : Z) (lk : sleeplk) : M st A :=
  cp ← gets curproc;
  if bool_decide (cp = None) then panic "sleep" else
  (match lk with
   | LkNull => panic "sleep without lk"
   | LkPtable => mret tt
   | LkOther l => acquire pcpu ptlk ;; release pcpu l
   end) ;;
  c ← myproc;
  updp c (w_chan chan) ;;
  updp c (w_state SLEEPING) ;;
  sched.

(** sleep after the scheduler has switched back; it was not called with NULL. *)
Definition sleep_return (lk : sleeplk) : M st unit :=
  sched_return ;;
  c ← myproc;
  updp c (w_chan 0) ;;
  match lk with
  | LkOther l => release pcpu ptlk ;; acquire pcpu l
  | _ => mret tt
  end.

(** One pass of wait over the table: the first zombie child, and whether
    there is any child at all. *)
Definition is_child (c : nat) (p : proc) : bool := bool_decide (p_parent p = Some c).
Definition wait_scan (c : nat) (ps : list proc) : option nat * bool :=
  (findp (λ p, is_child c p && isstate ZOMBIE p) ps 0, existsb (is_child c) ps).

Definition reap (i : nat) : M st Z :=
  p ← getp i;
  let pid := p_pid p in
  env (pe_kfree (p_kstack p)) ;;
  updp i (w_kstack 0) ;;
  env (pe_freevm (p_pgdir p)) ;;
  updp i (w_state UNUSED) ;;
  updp i (w_pid 0) ;;
  updp i (w_parent None) ;;
  updp i (λ q, w_name (<[0%nat := 0]> (p_name q)) q) ;;
  updp i (w_killed 0) ;;
  release pcpu ptlk ;;
  mret pid.

Definition wait_loop : M st Z :=
  c ← myproc;
  r ← gets (λ s, wait_scan c (procs s));
  match r.1 with
  | Some i => reap i
  | None =>
      p ← getp c;
      if negb r.2 || negb (p_killed p =? 0)
      then release pcpu ptlk ;; mret (-1)
      else sleep (chan_of (Some c)) LkPtable
  end.
Definition wait : M st Z := acquire pcpu ptlk ;; wait_loop.
Definition wait_return : M st Z := sleep_return LkPtable ;; wait_loop.

(** The scheduler's loop over the table from slot [i] on, ptable.lock held:
    the first RUNNABLE process is switched to. *)
Fixpoint sched_scan (n i : nat) : M st (option nat) :=
  match n with
  | O => mret None
  | S n =>
      p ← getp i;
      if negb (isstate RUNNABLE p) then sched_scan n (S i) else
      modify (set_curproc (Some i)) ;;
      env (pe_switchuvm (p_pgdir p)) ;;
      updp i (w_state RUNNING) ;;
      mret (Some i)
  end.

(** for(;;): rounds over the whole table, at most [fuel] of them. *)
Fixpoint sched_rounds (fuel : nat) : M st nat :=
  match fuel with
  | O => spins
  | S fuel =>
      modify (λ s, set_ps_cpu (sti (ps_cpu s)) s) ;;
      acquire pcpu ptlk ;;
      r ← sched_scan NPROC 0;
      match r with
      | Some j => mret j
      | None => release pcpu ptlk ;; sched_rounds fuel
      end
  end.

(** Where the scheduler goes on: at its beginning, or behind the swtch to
    the process in slot [i]. *)
Inductive sctx := SchedStart | SchedAfter (i : nat).

(** The scheduler up to its next swtch: the slot it switches to. *)
Definition scheduler (fuel : nat) (x : sctx) : M st nat :=
  match x with
  | SchedStart => sched_rounds fuel
  | SchedAfter i =>
      env pe_switchkvm ;;
      modify (set_curproc None) ;;
      r ← sched_scan (NPROC - S i) (S i);
      match r with
      | Some j => mret j
      | None => release pcpu ptlk ;; sched_rounds fuel
      end
  end.

(** [first] is forkret's static variable. *)
Definition forkret (first : bool) : M st bool :=
  release pcpu ptlk ;;
  if first then env pe_iinit_initlog ;; mret false else mret false.

Definition kill (pid : Z) : M st Z :=
  acquire pcpu ptlk ;;
  r ← gets (λ s, findp (λ p, p_pid p =? pid) (procs s) 0);
  match r with
  | Some i =>
      updp i (w_killed 1) ;;
      p ← getp i;
      (if isstate SLEEPING p then updp i (w_state RUNNABLE) else mret tt) ;;
      release pcpu ptlk ;; mret 0
  | None => release pcpu ptlk ;; mret (-1)
  end.
End proc.

(** ** Invariant *)

Definition live (p : proc) : Prop :=
  p_state p = SLEEPING ∨ p_state p = RUNNABLE ∨ p_state p = RUNNING.

(** [0 < nextpid] fails only after 2^31 - 1 processes, when the C counter
    overflows. *)
Record pt_inv (ps : list proc) (ip : option nat) (next : Z) (cur : option nat) : Prop := {
  pi_len : length ps = NPROC;
  pi_next : 0 < next;
  pi_pid i p : ps !! i = Some p → 0 ≤ p_pid p < next;
  pi_uniq i j p q : ps !! i = Some p → ps !! j = Some q → p_pid p = p_pid q → p_pid p ≠ 0 → i = j;
  pi_used i p : ps !! i = Some p → p_state p ≠ UNUSED → p_pid p ≠ 0;
  pi_unused i p : ps !! i = Some p → p_state p = UNUSED → p_parent p = None;
  pi_parent i p k : ps !! i = Some p → p_parent p = Some k → ∃ q, ps !! k = Some q ∧ live q;
  pi_orphan i p : ps !! i = Some p → p_state p ≠ UNUSED → p_state p ≠ EMBRYO → ip ≠ Some i →
                  is_Some (p_parent p);
  pi_init i : ip = Some i → ∃ q, ps !! i = Some q ∧ live q;
  pi_run i p : ps !! i = Some p → p_state p = RUNNING → cur = Some i;
}.

Lemma live_states p : live p → p_state p ≠ UNUSED ∧ p_state p ≠ EMBRYO ∧ p_state p ≠ ZOMBIE.
Proof. intros [->|[->| ->]]; done. Qed.

(** Changes that keep a process's identity, parent and liveness. *)
Record benign (p p' : proc) : Prop := {
  bn_pid : p_pid p' = p_pid p;
  bn_parent : p_parent p' = p_parent p;
  bn_live : live p ↔ live p';
  bn_state : ¬ live p → p_state p' = p_state p;
  bn_run : p_state p' = RUNNING → p_state p = RUNNING;
}.

Lemma benign_refl p : benign p p.
Proof. by split. Qed.

Lemma benign_unused p p' : benign p p' → p_state p' = UNUSED ↔ p_state p = UNUSED.
Proof.
  intros [_ _ Hl Hs _]. split; intros H.
  - destruct (decide (p_state p = UNUSED)) as [|Hne]; [done|]. rewrite <-Hs; [done|].
    intros Hp. apply Hl in Hp. by apply live_states in Hp as [? _].
  - rewrite Hs; [done|]. intros Hp. by apply live_states in Hp as [? _].
Qed.

Lemma benign_embryo p p' : benign p p' → p_state p' = EMBRYO ↔ p_state p = EMBRYO.
Proof.
  intros [_ _ Hl Hs _]. split; intros H.
  - destruct (decide (p_state p = EMBRYO)) as [|Hne]; [done|]. rewrite <-Hs; [done|].
    intros Hp. apply Hl in Hp. by apply live_states in Hp as (_ & ? & _).
  - rewrite Hs; [done|]. intros Hp. by apply live_states in Hp as (_ & ? & _).
Qed.

Lemma inv_benign ps ps' ip n cur :
  pt_inv ps ip n cur → Forall2 benign ps ps' → pt_inv ps' ip n cur.
Proof.
  intros I HF.
  assert (Hb : ∀ i p', ps' !! i = Some p' → ∃ p, ps !! i = Some p ∧ benign p p')
    by (intros i p' Hp; by eapply Forall2_lookup_r).
  assert (Hf : ∀ i p, ps !! i = Some p → ∃ p', ps' !! i = Some p' ∧ benign p p')
    by (intros i p' Hp; by eapply Forall2_lookup_l).
  split.
  - rewrite <-(Forall2_length _ _ _ HF). apply I.
  - apply I.
  - intros i p' (p & Hp & B)%Hb. rewrite (bn_pid _ _ B). by eapply (pi_pid _ _ _ _ I).
  - intros i j p' q' (p & Hp & Bp)%Hb (q & Hq & Bq)%Hb. rewrite (bn_pid _ _ Bp), (bn_pid _ _ Bq).
    by eapply (pi_uniq _ _ _ _ I).
  - intros i p' (p & Hp & B)%Hb Hs. rewrite (bn_pid _ _ B). eapply (pi_used _ _ _ _ I); [done|].
    intros H. apply Hs. by apply (benign_unused _ _ B).
  - intros i p' (p & Hp & B)%Hb Hs. rewrite (bn_parent _ _ B). eapply (pi_unused _ _ _ _ I); [done|].
    by apply (benign_unused _ _ B).
  - intros i p' k (p & Hp & B)%Hb. rewrite (bn_parent _ _ B). intros Hk.
    destruct (pi_parent _ _ _ _ I i p k Hp Hk) as (q & Hq & Hl). destruct (Hf k q Hq) as (q' & Hq' & B').
    exists q'. split; [done|]. by apply (bn_live _ _ B').
  - intros i p' (p & Hp & B)%Hb H1 H2. rewrite (bn_parent _ _ B). eapply (pi_orphan _ _ _ _ I); [done| |].
    + intros H. apply H1. by apply (benign_unused _ _ B).
    + intros H. apply H2. by apply (benign_embryo _ _ B).
  - intros i Hi. destruct (pi_init _ _ _ _ I i Hi) as (q & Hq & Hl). destruct (Hf i q Hq) as (q' & Hq' & B').
    exists q'. split; [done|]. by apply (bn_live _ _ B').
  - intros i p' (p & Hp & B)%Hb Hs. eapply (pi_run _ _ _ _ I); [done|]. by apply (bn_run _ _ B).
Qed.

Lemma Forall2_benign_insert ps i p p' :
  ps !! i = Some p → benign p p' → Forall2 benign ps (<[i:=p']> ps).
Proof.
  intros Hp B. apply Forall2_same_length_lookup. split; [by rewrite length_insert|].
  intros j x y Hx Hy. rewrite lookup_insert_case in Hy by (by eapply lookup_lt_Some).
  case_decide as E; simplify_eq; [done|apply benign_refl].
Qed.

(** A new process in a free slot. *)
Lemma inv_new ps ip n cur i p p' :
  pt_inv ps ip n cur → ps !! i = Some p → p_state p = UNUSED → 0 < n + 1 →
  p_pid p' = n →
  (p_state p' = UNUSED ∧ p_parent p' = None ∨
   p_state p' = RUNNABLE ∧ ∃ k q, p_parent p' = Some k ∧ k ≠ i ∧ ps !! k = Some q ∧ live q) →
  pt_inv (<[i:=p']> ps) ip (n + 1) cur.
Proof.
  intros I Hp Hu Hn Hpid Hcase. pose proof (lookup_lt_Some _ _ _ Hp) as Hi.
  assert (Hl : ∀ j q, <[i:=p']> ps !! j = Some q → (j = i ∧ q = p') ∨ (j ≠ i ∧ ps !! j = Some q)).
  { intros j q. rewrite lookup_insert_case by done. case_decide; naive_solver. }
  assert (Hlive : ∀ k q, ps !! k = Some q → live q → ∃ q, <[i:=p']> ps !! k = Some q ∧ live q).
  { intros k q Hk Hlq. rewrite lookup_insert_case by done. case_decide as E; [subst k|by exists q].
    rewrite Hp in Hk. simplify_eq. by apply live_states in Hlq as [? _]. }
  split.
  - rewrite length_insert. apply I.
  - done.
  - intros j q [[-> ->]|[_ Hq]]%Hl; [pose proof (pi_next _ _ _ _ I); lia|].
    pose proof (pi_pid _ _ _ _ I j q Hq). lia.
  - intros j k q r [[-> ->]|[Hj Hq]]%Hl [[-> ->]|[Hk Hr]]%Hl E H0; [done| | |by eapply (pi_uniq _ _ _ _ I)].
    + pose proof (pi_pid _ _ _ _ I k r Hr). lia.
    + pose proof (pi_pid _ _ _ _ I j q Hq). lia.
  - intros j q [[-> ->]|[_ Hq]]%Hl Hs; [pose proof (pi_next _ _ _ _ I); lia|by eapply (pi_used _ _ _ _ I)].
  - intros j q [[-> ->]|[_ Hq]]%Hl Hs; [destruct Hcase as [[_ ?]|[? _]]; congruence|by eapply (pi_unused _ _ _ _ I)].
  - intros j q k [[-> ->]|[_ Hq]]%Hl Hk.
    + destruct Hcase as [[_ ?]|(_ & k' & r & Hk' & _ & Hr & Hlr)]; [congruence|].
      assert (k' = k) as -> by congruence. by eapply Hlive.
    + destruct (pi_parent _ _ _ _ I j q k Hq Hk) as (r & Hr & Hlr). by eapply Hlive.
  - intros j q [[-> ->]|[_ Hq]]%Hl H1 H2 H3; [|by eapply (pi_orphan _ _ _ _ I)].
    destruct Hcase as [[? _]|(_ & k' & r & Hk' & _)]; [done|by exists k'].
  - intros j Hj. destruct (pi_init _ _ _ _ I j Hj) as (q & Hq & Hlq). by eapply Hlive.
  - intros j q [[-> ->]|[_ Hq]]%Hl Hs; [destruct Hcase as [[? _]|[? _]]; congruence|by eapply (pi_run _ _ _ _ I)].
Qed.

(** A zombie nobody has as parent leaves the table. *)
Lemma inv_reap ps ip n cur i p p' :
  pt_inv ps ip n cur → ps !! i = Some p → p_state p = ZOMBIE →
  p_state p' = UNUSED → p_pid p' = 0 → p_parent p' = None →
  pt_inv (<[i:=p']> ps) ip n cur.
Proof.
  intros I Hp Hz Hs Hpid Hpar. pose proof (lookup_lt_Some _ _ _ Hp) as Hi.
  assert (Hl : ∀ j q, <[i:=p']> ps !! j = Some q → (j = i ∧ q = p') ∨ (j ≠ i ∧ ps !! j = Some q)).
  { intros j q. rewrite lookup_insert_case by done. case_decide; naive_solver. }
  assert (Hlive : ∀ k q, ps !! k = Some q → live q → ∃ q, <[i:=p']> ps !! k = Some q ∧ live q).
  { intros k q Hk Hlq. rewrite lookup_insert_case by done. case_decide as E; [subst k|by exists q].
    rewrite Hp in Hk. simplify_eq. by apply live_states in Hlq as (_ & _ & ?). }
  split.
  - rewrite length_insert. apply I.
  - apply I.
  - intros j q [[-> ->]|[_ Hq]]%Hl; [pose proof (pi_next _ _ _ _ I); lia|by eapply (pi_pid _ _ _ _ I)].
  - intros j k q r [[-> ->]|[Hj Hq]]%Hl [[-> ->]|[Hk Hr]]%Hl E H0; try done; [congruence|].
    by eapply (pi_uniq _ _ _ _ I).
  - intros j q [[-> ->]|[_ Hq]]%Hl H1; [done|by eapply (pi_used _ _ _ _ I)].
  - intros j q [[-> ->]|[_ Hq]]%Hl H1; [done|by eapply (pi_unused _ _ _ _ I)].
  - intros j q k [[-> ->]|[_ Hq]]%Hl Hk; [congruence|].
    destruct (pi_parent _ _ _ _ I j q k Hq Hk) as (r & Hr & Hlr). by eapply Hlive.
  - intros j q [[-> ->]|[_ Hq]]%Hl H1 H2 H3; [done|by eapply (pi_orphan _ _ _ _ I)].
  - intros j Hj. destruct (pi_init _ _ _ _ I j Hj) as (q & Hq & Hlq). by eapply Hlive.
  - intros j q [[-> ->]|[_ Hq]]%Hl H1; [congruence|by eapply (pi_run _ _ _ _ I)].
Qed.

(** *** What the processes own *)

(** The files and the directory a process refers to. *)
Definition lfiles (l : list Z) : gmultiset Z := list_to_set_disj (filter (λ f, f ≠ 0) l).
Definition files_of (p : proc) : gmultiset Z := lfiles (p_ofile p).
Definition cwd_of (p : proc) : gmultiset Z := if p_cwd p =? 0 then ∅ else {[+ p_cwd p +]}.
Definition total (f : proc → gmultiset Z) (ps : list proc) : gmultiset Z := ⋃+ (f <$> ps).

(** A process that has memory: it lives, or has not been reaped yet. *)
Definition owned (p : proc) : Prop := live p ∨ p_state p = ZOMBIE.

(** Every process that has memory has a kernel stack and a page directory of
    its own, which holds an image of its size; files and directories are
    counted; a process that has exited, or a free slot, has none. *)
Record res_ok (ps : list proc) (v : kview) : Prop := {
  rs_stack i p : ps !! i = Some p → owned p → p_kstack p ∈ kv_pages v;
  rs_dir i p : ps !! i = Some p → owned p → ∃ img, kv_dirs v !! p_pgdir p = Some (p_sz p, img);
  rs_apart i j p q : ps !! i = Some p → ps !! j = Some q → owned p → owned q → i ≠ j →
    p_kstack p ≠ p_kstack q ∧ p_pgdir p ≠ p_pgdir q;
  rs_files : total files_of ps ⊆ kv_files v;
  rs_cwds : total cwd_of ps ⊆ kv_inodes v;
  rs_nofile i p : ps !! i = Some p → length (p_ofile p) = NOFILE;
  rs_cwd i p : ps !! i = Some p → live p → p_cwd p ≠ 0;
  rs_done i p : ps !! i = Some p → p_state p = ZOMBIE ∨ p_state p = UNUSED →
    p_ofile p = replicate NOFILE 0 ∧ p_cwd p = 0;
  rs_free i p : ps !! i = Some p → p_state p = UNUSED → p_kstack p = 0;
}.

(** Changes that keep what a process owns. *)
Record keeps (p p' : proc) : Prop := {
  kp_stack : p_kstack p' = p_kstack p;
  kp_dir : p_pgdir p' = p_pgdir p;
  kp_sz : p_sz p' = p_sz p;
  kp_ofile : p_ofile p' = p_ofile p;
  kp_cwd : p_cwd p' = p_cwd p;
  kp_live : live p ↔ live p';
  kp_state : ¬ live p → p_state p' = p_state p;
}.

Lemma keeps_refl p : keeps p p.
Proof. by split. Qed.

Lemma keeps_trans p q r : keeps p q → keeps q r → keeps p r.
Proof.
  intros [A1 A2 A3 A4 A5 A6 A7] [B1 B2 B3 B4 B5 B6 B7]. split; try congruence; [by rewrite A6|].
  intros Hn. rewrite B7, A7; [done|done|by rewrite <- A6].
Qed.

Lemma keeps_not p p' : keeps p p' → ¬ live p' → p_state p' = p_state p.
Proof. intros K Hn. apply K. by rewrite (kp_live _ _ K). Qed.

Lemma keeps_owned p p' : keeps p p' → owned p' → owned p.
Proof.
  intros K [H|H]; [left; by apply K|right]. rewrite <- (keeps_not p p' K); [done|].
  intros Hl. by apply live_states in Hl as (_ & _ & ?).
Qed.

Lemma keeps_done p p' x : keeps p p' → x = ZOMBIE ∨ x = UNUSED → p_state p' = x → p_state p = x.
Proof.
  intros K Hx H. rewrite <- (keeps_not p p' K); [done|]. intros Hl. apply live_states in Hl as (? & _ & ?).
  destruct Hx; congruence.
Qed.

Lemma total_ext f ps ps' :
  length ps' = length ps → (∀ i p p', ps !! i = Some p → ps' !! i = Some p' → f p' = f p) → total f ps' = total f ps.
Proof.
  intros Hl H. unfold total. f_equal. apply list_eq_same_length with (length ps); [by rewrite length_fmap|by rewrite length_fmap|].
  intros i x y _ Hx Hy. rewrite list_lookup_fmap_Some in Hx, Hy. destruct Hx as (p' & -> & Hp'), Hy as (p & -> & Hp).
  by eapply H.
Qed.

Lemma total_upd f ps i p p' : ps !! i = Some p → total f (<[i := p']> ps) ⊎ f p = total f ps ⊎ f p'.
Proof.
  intros Hp. pose proof (lookup_lt_Some _ _ _ Hp) as Hi. unfold total.
  rewrite insert_take_drop by done. rewrite <- (take_drop_middle ps i p Hp) at 3.
  rewrite !fmap_app, !fmap_cons, !gmultiset_disj_union_list_app. simpl. multiset_solver.
Qed.

Lemma total_sub f ps i p : ps !! i = Some p → f p ⊆ total f ps.
Proof.
  intros Hp. unfold total. rewrite <- (take_drop_middle ps i p Hp).
  rewrite fmap_app, fmap_cons, gmultiset_disj_union_list_app. simpl. multiset_solver.
Qed.

Lemma lfiles_cons f fs : lfiles (f :: fs) = (if f =? 0 then ∅ else {[+ f +]}) ⊎ lfiles fs.
Proof.
  unfold lfiles. rewrite filter_cons. destruct (Z.eqb_spec f 0) as [->|Hf].
  - rewrite decide_False by (intros H; by apply H). multiset_solver.
  - by rewrite decide_True.
Qed.

Lemma lfiles_zeros n : lfiles (replicate n 0) = ∅.
Proof. induction n as [|n IH]; [done|]. simpl. rewrite lfiles_cons, IH. multiset_solver. Qed.

Lemma res_keeps ps ps' v : res_ok ps v → Forall2 keeps ps ps' → res_ok ps' v.
Proof.
  intros R HF. pose proof (Forall2_length _ _ _ HF) as Hl.
  assert (Hb : ∀ i p', ps' !! i = Some p' → ∃ p, ps !! i = Some p ∧ keeps p p')
    by (intros i p' Hp; by eapply Forall2_lookup_r).
  assert (Hk : ∀ i p p', ps !! i = Some p → ps' !! i = Some p' → keeps p p').
  { intros i p p' Hp Hp'. destruct (Hb i p' Hp') as (q & Hq & K). congruence. }
  split.
  - intros i p' (p & Hp & K)%Hb Ho. rewrite (kp_stack _ _ K). eapply (rs_stack _ _ R); [done|by eapply keeps_owned].
  - intros i p' (p & Hp & K)%Hb Ho. rewrite (kp_dir _ _ K), (kp_sz _ _ K).
    eapply (rs_dir _ _ R); [done|by eapply keeps_owned].
  - intros i j p' q' (p & Hp & K)%Hb (q & Hq & K')%Hb Ho Ho' Hij.
    rewrite (kp_stack _ _ K), (kp_dir _ _ K), (kp_stack _ _ K'), (kp_dir _ _ K').
    eapply (rs_apart _ _ R i j); try done; by eapply keeps_owned.
  - rewrite (total_ext _ ps ps'); [apply R|done|]. intros i p p' Hp Hp'. unfold files_of.
    by rewrite (kp_ofile _ _ (Hk i p p' Hp Hp')).
  - rewrite (total_ext _ ps ps'); [apply R|done|]. intros i p p' Hp Hp'. unfold cwd_of.
    by rewrite (kp_cwd _ _ (Hk i p p' Hp Hp')).
  - intros i p' (p & Hp & K)%Hb. rewrite (kp_ofile _ _ K). by eapply (rs_nofile _ _ R).
  - intros i p' (p & Hp & K)%Hb Ho. rewrite (kp_cwd _ _ K). eapply (rs_cwd _ _ R); [done|by apply K].
  - intros i p' (p & Hp & K)%Hb Ho. rewrite (kp_ofile _ _ K), (kp_cwd _ _ K). eapply (rs_done _ _ R); [done|].
    destruct Ho as [Ho|Ho]; [left|right]; (eapply keeps_done; [exact K| |exact Ho]); auto.
  - intros i p' (p & Hp & K)%Hb Ho. rewrite (kp_stack _ _ K). eapply (rs_free _ _ R); [done|].
    eapply keeps_done; [exact K| |exact Ho]; auto.
Qed.

Lemma Forall2_keeps_insert ps i p p' : ps !! i = Some p → keeps p p' → Forall2 keeps ps (<[i:=p']> ps).
Proof.
  intros Hp B. apply Forall2_same_length_lookup. split; [by rewrite length_insert|].
  intros j x y Hx Hy. rewrite lookup_insert_case in Hy by (by eapply lookup_lt_Some).
  case_decide as E; simplify_eq; [done|apply keeps_refl].
Qed.

(** The view after fork, reaping and exit. *)
Definition forked (p : proc) (k d : Z) (img : Z → Z) (v : kview) : kview :=
  mkKv ({[k]} ∪ kv_pages v) (<[d := (p_sz p, img)]> (kv_dirs v)) (kv_files v ⊎ files_of p)
    (kv_inodes v ⊎ {[+ p_cwd p +]}) (kv_ops v).
Definition unloaded (p : proc) (v : kview) : kview :=
  kvs_dirs (delete (p_pgdir p) (kv_dirs v)) (kvs_pages (kv_pages v ∖ {[p_kstack p]}) v).
Definition closed (p : proc) (v : kview) : kview :=
  kvs_inodes (kv_inodes v ∖ {[+ p_cwd p +]}) (kvs_files (kv_files v ∖ files_of p) v).

(** A process with the files and the directory of [p], in a free slot. *)
Lemma res_new ps v i c p q p' img :
  res_ok ps v → ps !! i = Some q → p_state q = UNUSED → ps !! c = Some p → live p →
  p_kstack p' ∉ kv_pages v → kv_dirs v !! p_pgdir p' = None → p_sz p' = p_sz p → live p' →
  p_ofile p' = p_ofile p → p_cwd p' = p_cwd p →
  res_ok (<[i := p']> ps) (forked p (p_kstack p') (p_pgdir p') img v).
Proof.
  intros R Hq Hu Hp Hlp Hk Hd Hsz Hl Hof Hcw. pose proof (lookup_lt_Some _ _ _ Hq) as Hi.
  destruct (rs_done _ _ R i q Hq ltac:(by right)) as [Hqf Hqc].
  assert (Hb : ∀ j r, <[i:=p']> ps !! j = Some r → (j = i ∧ r = p') ∨ (j ≠ i ∧ ps !! j = Some r)).
  { intros j r. rewrite lookup_insert_case by done. case_decide; naive_solver. }
  assert (Hnew : ∀ j r, ps !! j = Some r → owned r → p_kstack r ≠ p_kstack p' ∧ p_pgdir r ≠ p_pgdir p').
  { intros j r Hr Ho. pose proof (rs_stack _ _ R j r Hr Ho). destruct (rs_dir _ _ R j r Hr Ho) as [im Him].
    split; intros E; [rewrite E in *; done|]. rewrite E in Him. congruence. }
  pose proof (live_states _ Hl) as (L1 & L2 & L3).
  split; simpl.
  - intros j r [[-> ->]|[_ Hr]]%Hb Ho; [set_solver|]. pose proof (rs_stack _ _ R j r Hr Ho). set_solver.
  - intros j r [[-> ->]|[_ Hr]]%Hb Ho; [exists img; rewrite lookup_insert_eq; by rewrite Hsz|].
    destruct (rs_dir _ _ R j r Hr Ho) as [im Him]. exists im. rewrite lookup_insert_ne; [done|].
    intros E. rewrite E in Hd. congruence.
  - intros j k r r' [[-> ->]|[Hj Hr]]%Hb [[-> ->]|[Hj' Hr']]%Hb Ho Ho' Hjk; [done| | |by eapply (rs_apart _ _ R)].
    + destruct (Hnew k r' Hr' Ho'). auto.
    + destruct (Hnew j r Hr Ho). auto.
  - pose proof (total_upd files_of ps i q p' Hq) as E. pose proof (rs_files _ _ R) as Hf.
    assert (files_of q = ∅) as E0 by (unfold files_of; rewrite Hqf; apply lfiles_zeros).
    assert (files_of p' = files_of p) as E1 by (unfold files_of; by rewrite Hof). rewrite E0, E1 in E. multiset_solver.
  - pose proof (total_upd cwd_of ps i q p' Hq) as E. pose proof (rs_cwds _ _ R) as Hf.
    assert (cwd_of q = ∅) as E0 by (unfold cwd_of; by rewrite Hqc).
    assert (cwd_of p' = {[+ p_cwd p +]}) as E1.
    { unfold cwd_of. rewrite Hcw, (proj2 (Z.eqb_neq _ _)); [done|]. by eapply (rs_cwd _ _ R). }
    rewrite E0, E1 in E. multiset_solver.
  - intros j r [[-> ->]|[_ Hr]]%Hb; [rewrite Hof|]; by eapply (rs_nofile _ _ R).
  - intros j r [[-> ->]|[_ Hr]]%Hb Ho; [rewrite Hcw|]; by eapply (rs_cwd _ _ R).
  - intros j r [[-> ->]|[_ Hr]]%Hb Ho; [destruct Ho; congruence|by eapply (rs_done _ _ R)].
  - intros j r [[-> ->]|[_ Hr]]%Hb Ho; [congruence|by eapply (rs_free _ _ R)].
Qed.

(** What is in a free slot beyond its state does not matter. *)
Lemma res_slot ps v i p p' :
  res_ok ps v → ps !! i = Some p → p_state p = UNUSED → p_state p' = UNUSED → p_kstack p' = 0 →
  p_ofile p' = p_ofile p → p_cwd p' = p_cwd p → res_ok (<[i := p']> ps) v.
Proof.
  intros R Hp Hu Hs Hk Hof Hcw. pose proof (lookup_lt_Some _ _ _ Hp) as Hi.
  destruct (rs_done _ _ R i p Hp ltac:(by right)) as [Hpf Hpc].
  assert (Hb : ∀ j r, <[i:=p']> ps !! j = Some r → (j = i ∧ r = p') ∨ (j ≠ i ∧ ps !! j = Some r)).
  { intros j r. rewrite lookup_insert_case by done. case_decide; naive_solver. }
  assert (¬ owned p') as Hno by (intros [H|H]; [by apply live_states in H as [? _]|congruence]).
  assert (¬ live p') as Hnl by (intros H; by apply Hno; left).
  split; simpl.
  - intros j r [[-> ->]|[Hj Hr]]%Hb Ho; [done|by eapply (rs_stack _ _ R)].
  - intros j r [[-> ->]|[Hj Hr]]%Hb Ho; [done|by eapply (rs_dir _ _ R)].
  - intros j k r r' [[-> ->]|[Hj Hr]]%Hb [[-> ->]|[Hj' Hr']]%Hb Ho Ho' Hjk; [done..|by eapply (rs_apart _ _ R)].
  - rewrite (total_ext _ ps); [apply R|by rewrite length_insert|]. intros j r r' Hr [[-> ->]|[_ ?]]%Hb; [|congruence].
    assert (r = p) as -> by congruence. unfold files_of. by rewrite Hof.
  - rewrite (total_ext _ ps); [apply R|by rewrite length_insert|]. intros j r r' Hr [[-> ->]|[_ ?]]%Hb; [|congruence].
    assert (r = p) as -> by congruence. unfold cwd_of. by rewrite Hcw.
  - intros j r [[-> ->]|[_ Hr]]%Hb; [rewrite Hof|]; by eapply (rs_nofile _ _ R).
  - intros j r [[-> ->]|[_ Hr]]%Hb Ho; [done|by eapply (rs_cwd _ _ R)].
  - intros j r [[-> ->]|[_ Hr]]%Hb Ho; [by rewrite Hof, Hcw|by eapply (rs_done _ _ R)].
  - intros j r [[-> ->]|[_ Hr]]%Hb Ho; [done|by eapply (rs_free _ _ R)].
Qed.

(** A zombie's slot is given back with its memory. *)
Lemma res_reap ps v i p p' :
  res_ok ps v → ps !! i = Some p → p_state p = ZOMBIE → p_state p' = UNUSED → p_kstack p' = 0 →
  p_ofile p' = p_ofile p → p_cwd p' = p_cwd p → res_ok (<[i := p']> ps) (unloaded p v).
Proof.
  intros R Hp Hz Hs Hk Hof Hcw. pose proof (lookup_lt_Some _ _ _ Hp) as Hi.
  destruct (rs_done _ _ R i p Hp ltac:(by left)) as [Hpf Hpc].
  assert (Hb : ∀ j r, <[i:=p']> ps !! j = Some r → (j = i ∧ r = p') ∨ (j ≠ i ∧ ps !! j = Some r)).
  { intros j r. rewrite lookup_insert_case by done. case_decide; naive_solver. }
  assert (¬ owned p') as Hno by (intros [H|H]; [by apply live_states in H as [? _]|congruence]).
  assert (¬ live p') as Hnl by (intros H; by apply Hno; left).
  assert (∀ j r, j ≠ i → ps !! j = Some r → owned r → p_kstack r ≠ p_kstack p ∧ p_pgdir r ≠ p_pgdir p) as Hap.
  { intros j r Hj Hr Ho. eapply (rs_apart _ _ R j i); [done|done|done|by right|done]. }
  split; simpl.
  - intros j r [[-> ->]|[Hj Hr]]%Hb Ho; [done|]. destruct (Hap j r Hj Hr Ho).
    pose proof (rs_stack _ _ R j r Hr Ho). set_solver.
  - intros j r [[-> ->]|[Hj Hr]]%Hb Ho; [done|]. destruct (Hap j r Hj Hr Ho).
    destruct (rs_dir _ _ R j r Hr Ho) as [im Him]. exists im. by rewrite lookup_delete_ne.
  - intros j k r r' [[-> ->]|[Hj Hr]]%Hb [[-> ->]|[Hj' Hr']]%Hb Ho Ho' Hjk; [done..|by eapply (rs_apart _ _ R)].
  - rewrite (total_ext _ ps); [apply R|by rewrite length_insert|]. intros j r r' Hr [[-> ->]|[_ ?]]%Hb; [|congruence].
    assert (r = p) as -> by congruence. unfold files_of. by rewrite Hof.
  - rewrite (total_ext _ ps); [apply R|by rewrite length_insert|]. intros j r r' Hr [[-> ->]|[_ ?]]%Hb; [|congruence].
    assert (r = p) as -> by congruence. unfold cwd_of. by rewrite Hcw.
  - intros j r [[-> ->]|[_ Hr]]%Hb; [rewrite Hof|]; by eapply (rs_nofile _ _ R).
  - intros j r [[-> ->]|[_ Hr]]%Hb Ho; [done|by eapply (rs_cwd _ _ R)].
  - intros j r [[-> ->]|[_ Hr]]%Hb Ho; [by rewrite Hof, Hcw|by eapply (rs_done _ _ R)].
  - intros j r [[-> ->]|[_ Hr]]%Hb Ho; [done|by eapply (rs_free _ _ R)].
Qed.

(** A process has become a zombie: it has closed its files and left its
    directory; its memory is still there. *)
Lemma res_exit ps v ps' c p z :
  res_ok ps v → ps !! c = Some p → live p → length ps' = length ps → ps' !! c = Some z →
  (∀ j q, j ≠ c → ps !! j = Some q → ∃ q', ps' !! j = Some q' ∧ keeps q q') →
  p_state z = ZOMBIE → p_kstack z = p_kstack p → p_pgdir z = p_pgdir p → p_sz z = p_sz p →
  p_ofile z = replicate NOFILE 0 → p_cwd z = 0 → res_ok ps' (closed p v).
Proof.
  intros R Hp Hl Hlen Hz Hk Zs Zk Zd Zz Zf Zc. pose proof (lookup_lt_Some _ _ _ Hp) as Hi.
  set (ps1 := <[c := z]> ps).
  assert (res_ok ps1 (closed p v)) as R1.
  { assert (Hb : ∀ j r, ps1 !! j = Some r → (j = c ∧ r = z) ∨ (j ≠ c ∧ ps !! j = Some r)).
    { intros j r. unfold ps1. rewrite lookup_insert_case by done. case_decide; naive_solver. }
    assert (owned p) as Hop by by left.
    split; simpl.
    - intros j r [[-> ->]|[Hj Hr]]%Hb Ho; [rewrite Zk|]; by eapply (rs_stack _ _ R).
    - intros j r [[-> ->]|[Hj Hr]]%Hb Ho; [rewrite Zd, Zz|]; by eapply (rs_dir _ _ R).
    - intros j k r r' [[-> ->]|[Hj Hr]]%Hb [[-> ->]|[Hj' Hr']]%Hb Ho Ho' Hjk; [done| | |by eapply (rs_apart _ _ R)].
      + rewrite Zk, Zd. by eapply (rs_apart _ _ R c k).
      + rewrite Zk, Zd. by eapply (rs_apart _ _ R j c).
    - pose proof (total_upd files_of ps c p z Hp) as E. fold ps1 in E. pose proof (rs_files _ _ R) as Hf.
      assert (files_of z = ∅) as E0 by (unfold files_of; rewrite Zf; apply lfiles_zeros). rewrite E0 in E. multiset_solver.
    - pose proof (total_upd cwd_of ps c p z Hp) as E. fold ps1 in E. pose proof (rs_cwds _ _ R) as Hf.
      assert (cwd_of z = ∅) as E0 by (unfold cwd_of; by rewrite Zc).
      assert (cwd_of p = {[+ p_cwd p +]}) as E1.
      { unfold cwd_of. rewrite (proj2 (Z.eqb_neq _ _)); [done|]. by eapply (rs_cwd _ _ R). }
      rewrite E0, E1 in E. multiset_solver.
    - intros j r [[-> ->]|[_ Hr]]%Hb; [by rewrite Zf|by eapply (rs_nofile _ _ R)].
    - intros j r [[-> ->]|[_ Hr]]%Hb Ho; [by apply live_states in Ho as (_ & _ & ?)|by eapply (rs_cwd _ _ R)].
    - intros j r [[-> ->]|[_ Hr]]%Hb Ho; [done|by eapply (rs_done _ _ R)].
    - intros j r [[-> ->]|[_ Hr]]%Hb Ho; [congruence|by eapply (rs_free _ _ R)]. }
  eapply res_keeps; [exact R1|]. apply Forall2_same_length_lookup. unfold ps1. split; [by rewrite length_insert|].
  intros j x y Hx Hy. rewrite lookup_insert_case in Hx by done. case_decide as Hj.
  - injection Hx as <-. subst j. assert (y = z) as -> by congruence. apply keeps_refl.
  - destruct (Hk j x) as (x' & Hx' & K); [congruence|done|]. congruence.
Qed.

(** ** Running the operations *)

Section proc_facts.
Context {E : Type} `{!ProcEnv E}.
Abbreviation st := (pstate E).
Implicit Types (s t : st).

Implicit Types (v : kview).

Definition ps_ok v (s : st) : Prop :=
  pt_inv (procs s) (initproc s) (nextpid s) (curproc s) ∧ quiet pcpu ptlk s ∧
  pe_rel (penv s) v ∧ res_ok (procs s) v.

Lemma wp_getp i p (Q : proc → st → Prop) s :
  procs s !! i = Some p → Q p s → wp (getp i) Q s.
Proof. intros H HQ. unfold getp. wstep. wstep. by rewrite H. Qed.

Lemma wp_updp i p f (Q : unit → st → Prop) s :
  procs s !! i = Some p → Q tt (set_procs (<[i := f p]> (procs s)) s) → wp (updp i f) Q s.
Proof. intros H HQ. unfold updp. wstep. eapply wp_getp; [exact H|]. by wstep. Qed.

(** Updating a slot that was just written. *)
Lemma wp_updp_again i p l f (Q : unit → st → Prop) s :
  procs s = <[i := p]> l → (i < length l)%nat →
  Q tt (set_procs (<[i := f p]> l) s) → wp (updp i f) Q s.
Proof.
  intros H Hi HQ. eapply wp_updp; [rewrite H; by apply list_lookup_insert_eq|].
  by rewrite H, list_insert_insert_eq.
Qed.

Lemma wp_env {A} (m : M E A) (R : A → E → Prop) (Q : A → st → Prop) s :
  wp m R (penv s) → (∀ a e, R a e → Q a (set_penv e s)) → wp (env m) Q s.
Proof. unfold wp, env. intros H HQ. destruct (m (penv s)); try done. by apply HQ. Qed.

Lemma wp_myproc c (Q : nat → st → Prop) s : curproc s = Some c → Q c s → wp myproc Q s.
Proof. intros H HQ. unfold myproc. wstep. wstep. by rewrite H. Qed.

Lemma findp_spec f ps i :
  match findp f ps i with
  | Some j => ∃ p, (i ≤ j)%nat ∧ ps !! (j - i)%nat = Some p ∧ f p = true ∧
              ∀ k q, (k < j - i)%nat → ps !! k = Some q → f q = false
  | None => ∀ k q, ps !! k = Some q → f q = false
  end.
Proof.
  revert i. induction ps as [|p ps IH]; intros i; simpl; [done|].
  destruct (f p) eqn:Ef.
  - exists p. replace (i - i)%nat with 0%nat by lia. split_and!; [lia|done|done|]. intros; lia.
  - specialize (IH (S i)). destruct (findp f ps (S i)) as [j|].
    + destruct IH as (q & Hj & Hq & Hfq & Hb). exists q.
      replace (j - i)%nat with (S (j - S i)) by lia. split_and!; [lia|done|done|].
      intros [|k] r Hk Hr; simpl in Hr; [congruence|]. apply (Hb k); [lia|done].
    + intros [|k] q Hq; simpl in Hq; [congruence|]. by apply (IH k).
Qed.

(** What allocproc leaves: a slot in state EMBRYO with a fresh pid and a
    page of its own, or no new process, in which case the pid may still be
    spent. *)
Lemma wp_allocproc v s (Q : option nat → st → Prop) :
  ps_ok v s → nextpid s < 2147483647 →
  (∀ s' i p k, procs s !! i = Some p → p_state p = UNUSED → k ≠ 0 → k ∉ kv_pages v →
     procs s' = <[i := w_ctx (mkCtx 0 0 0 0 pe_forkret) pe_trapret
                         (w_kstack k (w_pid (nextpid s) (w_state EMBRYO p)))]> (procs s) →
     nextpid s' = nextpid s + 1 → initproc s' = initproc s → curproc s' = curproc s →
     quiet pcpu ptlk s' → pe_rel (penv s') (kvs_pages ({[k]} ∪ kv_pages v) v) → Q (Some i) s') →
  (∀ s', ps_ok v s' → (procs s' = procs s ∧ nextpid s' = nextpid s ∧ Forall (λ p, p_state p ≠ UNUSED) (procs s)) ∨
         (∃ i p, procs s !! i = Some p ∧ p_state p = UNUSED ∧ nextpid s' = nextpid s + 1 ∧
            procs s' = <[i := w_state UNUSED (w_kstack 0 (w_pid (nextpid s) (w_state EMBRYO p)))]> (procs s)) →
         initproc s' = initproc s → curproc s' = curproc s → Q None s') →
  wp allocproc Q s.
Proof.
  intros (I & Hq & He & Hres) Hn HS HN. pose proof (pi_next _ _ _ _ I) as Hn0. unfold allocproc.
  wstep. apply wp_acquire; [apply _..|done|].
  wstep. wstep. change (procs (acquired pcpu ptlk s)) with (procs s).
  pose proof (findp_spec (isstate UNUSED) (procs s) 0) as Hf.
  destruct (findp (isstate UNUSED) (procs s) 0) as [i|].
  - destruct Hf as (p & _ & Hp & Hu & _). rewrite Nat.sub_0_r in Hp.
    apply bool_decide_eq_true in Hu. pose proof (lookup_lt_Some _ _ _ Hp) as Hi.
    wstep. eapply wp_updp; [exact Hp|]. wstep. wstep. wstep.
    eapply wp_updp_again; [done|exact Hi|]. wstep. wstep.
    change (nextpid _) with (nextpid s). rewrite i32_small by lia.
    wstep. eapply (wp_release pcpu ptlk _ s); [done..|].
    wstep. eapply wp_env; [exact (pe_kalloc_law _ v He)|]. intros k e' He'.
    wstep. eapply wp_updp_again; [done|exact Hi|].
    destruct (Z.eqb_spec k 0) as [->|Hk].
    + destruct He' as [[_ He']|[? _]]; [|done].
      wstep. eapply wp_updp_again; [done|exact Hi|]. wstep. apply HN; [|right|done..].
      * split; [|split; [exact (leave_quiet pcpu ptlk s _ Hq)|split; [done|]]]; simpl.
        -- eapply inv_new; [done|done|done|lia|done|]. left. split; [done|].
           exact (pi_unused _ _ _ _ I i p Hp Hu).
        -- eapply res_keeps; [exact Hres|]. eapply Forall2_keeps_insert; [exact Hp|].
           assert (¬ live p) as Hnl by (intros Hl; by apply live_states in Hl as [? _]).
           split; try done; [simpl; by rewrite (rs_free _ _ Hres i p Hp Hu)|].
           split; [done|]. intros Hl. by apply live_states in Hl as [? _].
      * exists i, p. done.
    + destruct He' as [[? _]|(_ & Hfr & He')]; [done|].
      wstep. eapply wp_updp_again; [done|exact Hi|]. wstep. eapply HS; try done.
      exact (leave_quiet pcpu ptlk s _ Hq).
  - wstep. eapply (wp_release pcpu ptlk _ s); [done..|]. wstep.
    apply HN; [|left|done..].
    + split; [done|split; [exact (leave_quiet pcpu ptlk s _ Hq)|done]].
    + split_and!; [done..|]. apply Forall_lookup. intros k q Hk Hu. specialize (Hf k q Hk).
      unfold isstate in Hf. by rewrite bool_decide_eq_true_2 in Hf.
Qed.

(** *** States in a normal form: [set_procs l (set_penv e s)] *)

Lemma ps_eta s : s = set_procs (procs s) (set_penv (penv s) s).
Proof. by destruct s. Qed.

Lemma upd_c i p l f e s (Q : unit → st → Prop) :
  (i < length l)%nat → Q tt (set_procs (<[i := f p]> l) (set_penv e s)) →
  wp (updp i f) Q (set_procs (<[i := p]> l) (set_penv e s)).
Proof.
  intros Hi HQ. eapply wp_updp; [by apply list_lookup_insert_eq|].
  change (procs (set_procs (<[i:=p]> l) (set_penv e s))) with (<[i:=p]> l).
  rewrite list_insert_insert_eq. exact HQ.
Qed.

Lemma get_c i p l e s (Q : proc → st → Prop) :
  (i < length l)%nat → Q p (set_procs (<[i := p]> l) (set_penv e s)) →
  wp (getp i) Q (set_procs (<[i := p]> l) (set_penv e s)).
Proof. intros Hi HQ. eapply wp_getp; [by apply list_lookup_insert_eq|exact HQ]. Qed.

Lemma env_c {A} (m : M E A) (R : A → E → Prop) l e s (Q : A → st → Prop) :
  wp m R e → (∀ a e', R a e' → Q a (set_procs l (set_penv e' s))) →
  wp (env m) Q (set_procs l (set_penv e s)).
Proof. intros H HQ. eapply wp_env; [exact H|]. intros a e' Ha. exact (HQ a e' Ha). Qed.

(** dupfiles copies the open files; the child's other slots stay. *)
Fixpoint dupped (i : nat) (fs old : list Z) : list Z :=
  match fs with
  | [] => old
  | f :: fs => dupped (S i) fs (if f =? 0 then old else <[i := f]> old)
  end.

(** Every file was counted before, and is counted once more afterwards. *)
Lemma wp_dupfiles v np i fs e s q l (Q : unit → st → Prop) :
  pe_rel e v → lfiles fs ⊆ kv_files v → (np < length l)%nat →
  (∀ e', pe_rel e' (kvs_files (kv_files v ⊎ lfiles fs) v) →
     Q tt (set_procs (<[np := w_ofile (dupped i fs (p_ofile q)) q]> l) (set_penv e' s))) →
  wp (dupfiles np i fs) Q (set_procs (<[np := q]> l) (set_penv e s)).
Proof.
  revert i e q v. induction fs as [|f fs IH]; intros i e q v He Hin Hl HQ; cbn [dupfiles].
  { apply wp_ret. specialize (HQ e). simpl in HQ. change (lfiles []) with (∅ : gmultiset Z) in HQ.
    rewrite gmultiset_disj_union_right_id in HQ. replace (kvs_files (kv_files v) v) with v in HQ by (by destruct v).
    replace (w_ofile (p_ofile q) q) with q in HQ by (by destruct q). by apply HQ. }
  rewrite lfiles_cons in Hin, HQ. wstep. cbn [dupped] in HQ. destruct (Z.eqb_spec f 0) as [->|Hf].
  - rewrite gmultiset_disj_union_left_id in Hin, HQ. wstep. by eapply IH.
  - wstep. eapply env_c; [apply (pe_filedup_law f e v He); multiset_solver|]. intros r e2 (-> & He2).
    eapply upd_c; [done|]. eapply (IH (S i)); [exact He2|simpl; multiset_solver|done|].
    simpl. rewrite <- gmultiset_disj_union_assoc. exact HQ.
Qed.

Lemma dupped_all fs : ∀ pre i, length pre = i → dupped i fs (pre ++ replicate (length fs) 0) = pre ++ fs.
Proof.
  induction fs as [|f fs IH]; intros pre i Hi; cbn [dupped length replicate]; [done|].
  replace (if f =? 0 then pre ++ 0 :: replicate (length fs) 0 else <[i:=f]> (pre ++ 0 :: replicate (length fs) 0))
    with ((pre ++ [f]) ++ replicate (length fs) 0).
  - rewrite IH by (rewrite length_app; simpl; lia). by rewrite <- app_assoc.
  - rewrite <- app_assoc. destruct (Z.eqb_spec f 0) as [->|]; [done|].
    subst i. by rewrite insert_app_r_alt, Nat.sub_diag by lia.
Qed.

(** The child fork builds from the parent [p] in the slot [q] it was given. *)
Definition child_of (c : nat) (p q : proc) (pid k d : Z) : proc :=
  mkProc (p_sz p) d k RUNNABLE pid (Some c) (set_eax 0 (p_tf p))
    (mkCtx 0 0 0 0 pe_forkret) pe_trapret (p_chan q) (p_killed q)
    (p_ofile p) (p_cwd p) (safestr (p_name q) (p_name p) 16) (p_intena q).

(** fork once the slot [i] and the page directory [d] have been allocated. *)
Lemma fork_child v s s1 c p i q k d img (Q : Z → st → Prop) q0 e :
  ps_ok v s → nextpid s < 2147483647 →
  procs s !! c = Some p → p_state p = RUNNING → procs s !! i = Some q → p_state q = UNUSED → i ≠ c →
  q0 = w_ctx (mkCtx 0 0 0 0 pe_forkret) pe_trapret (w_kstack k (w_pid (nextpid s) (w_state EMBRYO q))) →
  curproc s = Some c → curproc s1 = curproc s → initproc s1 = initproc s →
  nextpid s1 = nextpid s + 1 → quiet pcpu ptlk s1 → k ∉ kv_pages v → kv_dirs v !! d = None →
  pe_rel e (kvs_dirs (<[d := (p_sz p, img)]> (kv_dirs v)) (kvs_pages ({[k]} ∪ kv_pages v) v)) →
  (∀ s', ps_ok (forked p k d img v) s' → procs s' = <[i := child_of c p q (nextpid s) k d]> (procs s) →
     curproc s' = Some c → Q (nextpid s) s') →
  wp (updp i (w_sz (p_sz p)) ;;
      updp i (w_parent (Some c)) ;;
      updp i (w_tf (p_tf p)) ;;
      updp i (λ q, w_tf (set_eax 0 (p_tf q)) q) ;;
      dupfiles i 0 (p_ofile p) ;;
      w ← env (pe_idup (p_cwd p));
      updp i (w_cwd w) ;;
      updp i (λ q, w_name (safestr (p_name q) (p_name p) 16) q) ;;
      q ← getp i;
      let pid := p_pid q in
      acquire pcpu ptlk ;;
      updp i (w_state RUNNABLE) ;;
      release pcpu ptlk ;;
      mret pid) Q (set_procs (<[i := w_pgdir d q0]> (procs s)) (set_penv e s1)).
Proof.
  intros (I & Hq & He0 & R) Hn Hp Hr Hi Hu Hic -> Hc Hcu Hip Hnp Hq1 Hk Hd He HS.
  pose proof (lookup_lt_Some _ _ _ Hi) as Hil. assert (live p) as Hlp by (by right; right).
  assert (files_of p ⊆ kv_files v) as Hfiles
    by (etransitivity; [by eapply total_sub|apply R]).
  assert (p_cwd p ∈ kv_inodes v) as Hcwd.
  { pose proof (rs_cwd _ _ R c p Hp Hlp) as Hne. pose proof (rs_cwds _ _ R) as Hsub.
    pose proof (total_sub cwd_of (procs s) c p Hp) as Hin. unfold cwd_of at 1 in Hin.
    rewrite (proj2 (Z.eqb_neq _ _) Hne) in Hin. multiset_solver. }
  do 4 (wstep; eapply upd_c; [done|]).
  wstep. eapply wp_dupfiles; [exact He|exact Hfiles|done|]. intros e3 He3.
  wstep. eapply env_c; [by apply (pe_idup_law _ _ _ He3)|]. intros w e4 (-> & He4).
  do 2 (wstep; eapply upd_c; [done|]).
  wstep. eapply get_c; [done|]. cbv zeta. set (s2 := set_procs _ _).
  assert (Hq2 : quiet pcpu ptlk s2) by exact Hq1.
  wstep. apply wp_acquire; [apply _..|exact Hq2|].
  wstep. eapply wp_updp; [by apply list_lookup_insert_eq|].
  wstep. eapply (wp_release pcpu ptlk _ s2); [exact Hq2|reflexivity|reflexivity|]. wstep.
  set (s3 := leave pcpu ptlk s2 _).
  assert (Hof : dupped 0 (p_ofile p) (p_ofile q) = p_ofile p).
  { destruct (rs_done _ _ R i q Hi ltac:(by right)) as [-> _]. rewrite <- (rs_nofile _ _ R c p Hp).
    by apply (dupped_all (p_ofile p) []). }
  assert (E3 : procs s3 = <[i := child_of c p q (nextpid s) k d]> (procs s)).
  { unfold s3. change (procs (leave pcpu ptlk s2 ?t)) with (procs t). cbn [procs set_procs].
    change (procs (acquired pcpu ptlk s2)) with (procs s2). unfold s2. cbn [procs set_procs].
    rewrite list_insert_insert_eq.
    replace (child_of c p q (nextpid s) k d) with (w_ofile (dupped 0 (p_ofile p) (p_ofile q)) (child_of c p q (nextpid s) k d))
      by (rewrite Hof; done). done. }
  apply (HS s3); [|exact E3|change (curproc s1 = Some c); congruence].
  split; [|split; [exact (leave_quiet pcpu ptlk s2 _ Hq2)|split; [exact He4|]]]; rewrite E3.
  - change (initproc s3) with (initproc s1). change (curproc s3) with (curproc s1).
    change (nextpid s3) with (nextpid s1). rewrite Hip, Hcu, Hnp.
    eapply inv_new; [done|done|done|pose proof (pi_next _ _ _ _ I); lia|done|].
    right. split; [done|]. exists c, p. by split_and!.
  - eapply (res_new (procs s) v i c p q (child_of c p q (nextpid s) k d) img R); try done. by right; left.
Qed.

(** What a failed fork leaves: the processes, and free slots. *)
Definition fork_failed (ps ps' : list proc) : Prop :=
  ∀ j q, ps !! j = Some q → ∃ q', ps' !! j = Some q' ∧ if decide (p_state q = UNUSED) then p_state q' = UNUSED else q' = q.

Lemma failed_insert ps i q q' : ps !! i = Some q → p_state q = UNUSED → p_state q' = UNUSED → fork_failed ps (<[i := q']> ps).
Proof.
  intros Hi Hu Hu' j r Hj. rewrite lookup_insert_case by by eapply lookup_lt_Some. case_decide as Ej.
  - subst j. exists q'. split; [done|]. assert (r = q) as -> by congruence. by rewrite decide_True.
  - exists r. split; [done|]. by case_decide.
Qed.

Lemma wp_fork v s c p (Q : Z → st → Prop) :
  ps_ok v s → nextpid s < 2147483647 → curproc s = Some c → procs s !! c = Some p →
  p_state p = RUNNING →
  (∀ s' i q k d img, procs s !! i = Some q → p_state q = UNUSED →
     kv_dirs v !! p_pgdir p = Some (p_sz p, img) → k ∉ kv_pages v → kv_dirs v !! d = None →
     ps_ok (forked p k d img v) s' →
     procs s' = <[i := child_of c p q (nextpid s) k d]> (procs s) → curproc s' = Some c → Q (nextpid s) s') →
  (∀ s', ps_ok v s' → curproc s' = Some c → fork_failed (procs s) (procs s') → Q (-1) s') →
  wp fork Q s.
Proof.
  intros Hok Hn Hc Hp Hr HS HF. pose proof Hok as (I & Hq & He & R).
  unfold fork. wstep. eapply wp_allocproc; [exact Hok|done|..].
  2:{ intros s' Hok' Hps _ Hc'. wstep. apply HF; [done|congruence|].
      destruct Hps as [(-> & _)|(i & q & Hi & Hu & _ & ->)]; [|by eapply failed_insert].
      intros j r Hj. exists r. split; [done|]. by case_decide. }
  intros s1 i q k Hi Hu Hk Hfr Hps Hnp Hip Hcu Hq1 He1.
  assert (Hic : i ≠ c) by (intros ->; congruence). pose proof (lookup_lt_Some _ _ _ Hi) as Hil.
  assert (live p) as Hlp by (by right; right).
  destruct (rs_dir _ _ R c p Hp ltac:(by left)) as [img Himg].
  wstep. eapply wp_myproc; [by rewrite Hcu|]. wstep. eapply wp_getp.
  { rewrite Hps, list_lookup_insert_ne by done. exact Hp. }
  rewrite (ps_eta s1), Hps. wstep.
  eapply env_c; [eapply pe_copyuvm_law; [exact He1|exact Himg]|]. intros d e2 He2.
  wstep. eapply upd_c; [done|]. destruct (Z.eqb_spec d 0) as [->|Hd].
  - destruct He2 as [[_ He2]|[? _]]; [|done].
    wstep. eapply get_c; [done|]. wstep.
    eapply env_c; [eapply pe_kfree_law; [exact He2|simpl; set_solver]|]. intros [] e3 He3.
    assert (pe_rel e3 v) as He4.
    { replace v with (kvs_pages ((kv_pages (kvs_pages ({[k]} ∪ kv_pages v) v)) ∖ {[k]}) (kvs_pages ({[k]} ∪ kv_pages v) v));
        [exact He3|]. destruct v. unfold kvs_pages. simpl in *. f_equal. set_solver. }
    do 2 (wstep; eapply upd_c; [done|]). wstep. apply HF; [|simpl; congruence|].
    + split; [|split; [exact Hq1|split; [exact He4|]]]; cbn [procs set_procs initproc nextpid curproc set_penv].
      * rewrite Hip, Hcu, Hnp.
        eapply inv_new; [done|done|done|pose proof (pi_next _ _ _ _ I); lia|done|].
        left. split; [done|]. exact (pi_unused _ _ _ _ I i q Hi Hu).
      * assert (¬ live q) as Hnl by (intros Hl; by apply live_states in Hl as [? _]).
        set (q' := w_state UNUSED _).
        assert (p_state q' = UNUSED ∧ p_kstack q' = 0 ∧ p_ofile q' = p_ofile q ∧ p_cwd q' = p_cwd q) as (U1 & U2 & U3 & U4) by done.
        clearbody q'. apply (res_slot (procs s) v i q q'); done.
    + cbn [procs set_procs]. by eapply failed_insert.
  - destruct He2 as [[? _]|(_ & Hdn & He2)]; [done|].
    eapply (fork_child v s s1 c p i q k d img); try done. intros s' Hok' Hps' Hcu'. by apply (HS s' i q k d img).
Qed.

(** ** Switching away *)

(** [t] is inside the critical section of ptable.lock entered from [s]. *)
Definition in_crit s t : Prop :=
  ps_cpu t = ps_cpu (acquired pcpu ptlk s) ∧ pt_lock t = pt_lock (acquired pcpu ptlk s).

Lemma crit_intr s : intr_on (ps_cpu (acquired pcpu ptlk s)) = false.
Proof. simpl. unfold pushed. destruct (ncli (ps_cpu s) =? 0); apply (intr_on_cli (ps_cpu s)). Qed.

Lemma crit_ncli s : ncli (ps_cpu (acquired pcpu ptlk s)) = ncli (ps_cpu s) + 1.
Proof. simpl. unfold pushed. by destruct (ncli (ps_cpu s) =? 0). Qed.

Lemma crit_holding s t : in_crit s t → holding (ps_cpu t) (pt_lock t) = true.
Proof.
  intros [-> ->]. unfold holding. simpl. rewrite bool_decide_eq_true_2; [done|].
  unfold pushed. by destruct (ncli (ps_cpu s) =? 0).
Qed.

Lemma wsw_sched {A} s t c p (Q : st → Prop) :
  in_crit s t → ncli (ps_cpu s) = 0 → curproc t = Some c → procs t !! c = Some p →
  p_state p ≠ RUNNING →
  Q (set_procs (<[c := w_intena (intena (ps_cpu t)) p]> (procs t)) t) → wsw (A:=A) sched Q t.
Proof.
  intros Hcr Hn Hc Hp Hs HQ. unfold sched.
  apply wsw_bind. wstep. rewrite (crit_holding s) by done. cbn [negb].
  apply wsw_bind. wstep. destruct Hcr as [Hcpu _]. rewrite Hcpu, crit_ncli, Hn.
  change (negb (0 + 1 =? 1)) with false. cbv iota.
  apply wsw_bind. eapply wp_myproc; [exact Hc|]. apply wsw_bind. eapply wp_getp; [exact Hp|].
  unfold isstate. rewrite bool_decide_eq_false_2 by done.
  apply wsw_bind. wstep. rewrite Hcpu, crit_intr. cbv iota.
  apply wsw_bind. wstep. apply wsw_bind. eapply wp_updp; [exact Hp|].
  apply wsw_sleeps. exact HQ.
Qed.

Lemma benign_live p p' :
  p_pid p' = p_pid p → p_parent p' = p_parent p → live p → live p' → p_state p' ≠ RUNNING →
  benign p p'.
Proof. intros H1 H2 H3 H4 H5. split; try done. Qed.

Lemma wake_benign chan p : benign p (wake chan p).
Proof.
  unfold wake, isstate. destruct (bool_decide_reflect (p_state p = SLEEPING)) as [Hs|]; simpl; [|apply benign_refl].
  destruct (p_chan p =? chan); [|apply benign_refl].
  apply benign_live; try done; [by left|by right; left].
Qed.

Lemma wake_all_benign chan ps : Forall2 benign ps (wake chan <$> ps).
Proof.
  apply Forall2_fmap_r, Forall2_same_length_lookup. split; [done|].
  intros i x y Hx Hy. assert (x = y) as -> by congruence. apply wake_benign.
Qed.

(** ** wait *)

Definition reaped (p : proc) : proc :=
  w_killed 0 (w_name (<[0%nat := 0]> (p_name p))
    (w_parent None (w_pid 0 (w_state UNUSED (w_kstack 0 p))))).

Lemma wp_reap v s t i p (Q : Z → st → Prop) :
  in_crit s t → quiet pcpu ptlk s → procs t !! i = Some p → pe_rel (penv t) v →
  p_kstack p ∈ kv_pages v → is_Some (kv_dirs v !! p_pgdir p) →
  (∀ s', procs s' = <[i := reaped p]> (procs t) → initproc s' = initproc t → nextpid s' = nextpid t →
     curproc s' = curproc t → quiet pcpu ptlk s' → pe_rel (penv s') (unloaded p v) → Q (p_pid p) s') →
  wp (reap i) Q t.
Proof.
  intros Hcr Hq Hp He Hst Hdir HQ. pose proof (lookup_lt_Some _ _ _ Hp) as Hi. unfold reap.
  wstep. eapply wp_getp; [exact Hp|]. cbv zeta.
  rewrite (ps_eta t). rewrite <-(list_insert_id _ _ _ Hp).
  wstep. eapply env_c; [by apply (pe_kfree_law _ _ _ He)|]. intros [] e1 He1.
  wstep. eapply upd_c; [done|]. wstep. eapply env_c; [by apply (pe_freevm_law _ _ _ He1)|]. intros [] e2 He2.
  do 5 (wstep; eapply upd_c; [done|]).
  wstep. destruct Hcr as [H1 H2]. eapply (wp_release pcpu ptlk _ s); [exact Hq|exact H1|exact H2|].
  wstep. apply HQ; try reflexivity; [exact (leave_quiet pcpu ptlk s _ Hq)|exact He2].
Qed.

(** What the end of the table scan of wait amounts to. *)
Definition wait_result v (c : nat) (p : proc) (ps : list proc) (r : outcome st Z) (s : st) : Prop :=
  match r with
  | Ret r s' =>
      curproc s' = Some c ∧
      ((∃ i q, ps !! i = Some q ∧ p_parent q = Some c ∧ p_state q = ZOMBIE ∧ r = p_pid q ∧
               procs s' = <[i := reaped q]> ps ∧ ps_ok (unloaded q v) s') ∨
       (r = -1 ∧ procs s' = ps ∧ ps_ok v s' ∧
        (∀ i q, ps !! i = Some q → p_parent q = Some c → p_state q ≠ ZOMBIE) ∧
        ((∀ i q, ps !! i = Some q → p_parent q ≠ Some c) ∨ p_killed p ≠ 0)))
  | Sleeps _ s' =>
      pt_inv (procs s') (initproc s') (nextpid s') (curproc s') ∧ pe_rel (penv s') v ∧ res_ok (procs s') v ∧
      (∃ i q, ps !! i = Some q ∧ p_parent q = Some c) ∧ p_killed p = 0 ∧
      (∀ i q, ps !! i = Some q → p_parent q = Some c → p_state q ≠ ZOMBIE) ∧
      ∃ p', procs s' = <[c := p']> ps ∧ p_state p' = SLEEPING ∧ p_chan p' = chan_of (Some c)
  | _ => False
  end.

Lemma existsb_child c ps :
  existsb (is_child c) ps = true ↔ ∃ i q, ps !! i = Some q ∧ p_parent q = Some c.
Proof.
  rewrite existsb_exists. split.
  - intros (q & [i Hi]%list_elem_of_In%list_elem_of_lookup & Hq). apply bool_decide_eq_true in Hq. eauto.
  - intros (i & q & Hi & Hq). exists q. split; [apply list_elem_of_In; by eapply list_elem_of_lookup_2|].
    by apply bool_decide_eq_true.
Qed.

Lemma wait_run v s c p :
  ps_ok v s → ncli (ps_cpu s) = 0 → curproc s = Some c → procs s !! c = Some p → p_state p = RUNNING →
  wait_result v c p (procs s) (wait s) s.
Proof.
  intros (I & Hq & He & R) Hn Hc Hp Hr. set (t := acquired pcpu ptlk s).
  assert (Hcr : in_crit s t) by done. pose proof (lookup_lt_Some _ _ _ Hp) as Hcl.
  unfold wait, wait_loop, mbind, M_bind.
  rewrite (acquire_free pcpu ptlk s) by apply Hq. fold t.
  unfold myproc, mbind, M_bind, gets. change (curproc t) with (curproc s). rewrite Hc. simpl deref.
  unfold mret, M_ret. change (procs t) with (procs s).
  pose proof (findp_spec (λ p, is_child c p && isstate ZOMBIE p) (procs s) 0) as Hf.
  unfold wait_scan. cbn [fst snd].
  destruct (findp _ (procs s) 0) as [i|].
  - destruct Hf as (q & _ & Hq' & Hz & _). rewrite Nat.sub_0_r in Hq'.
    apply andb_prop in Hz as [Hz1%bool_decide_eq_true Hz2%bool_decide_eq_true].
    assert (owned q) as Hoq by by right.
    assert (H : wp (reap i) (λ r s', ps_ok (unloaded q v) s' ∧ curproc s' = Some c ∧ r = p_pid q ∧
                                     procs s' = <[i := reaped q]> (procs s)) t).
    { destruct (rs_dir _ _ R i q Hq' Hoq) as [im Him].
      eapply (wp_reap v s); [done|done|exact Hq'|done|by eapply (rs_stack _ _ R)|by eexists|].
      intros s' E1 E2 E3 E4 Hq2 He2.
      refine (conj (conj _ (conj Hq2 (conj He2 _))) (conj _ (conj eq_refl E1))); [| |rewrite E4; exact Hc].
      - rewrite E1, E2, E3, E4. by eapply inv_reap.
      - rewrite E1. by apply res_reap. }
    unfold wp in H. destruct (reap i t) as [r s'| | | |]; try done. destruct H as (H1 & H2 & H3 & H4).
    split; [done|]. left. exists i, q. done.
  - assert (Hnz : ∀ i q, procs s !! i = Some q → p_parent q = Some c → p_state q ≠ ZOMBIE).
    { intros i q Hi Hpq Hz. specialize (Hf i q Hi). unfold is_child, isstate in Hf.
      by rewrite !bool_decide_eq_true_2 in Hf. }
    unfold getp, mbind, M_bind, gets. change (procs t) with (procs s). rewrite Hp. simpl deref.
    unfold mret, M_ret.
    destruct (existsb (is_child c) (procs s)) eqn:Ek; [apply existsb_child in Ek|]; cbn [negb orb].
    2:{ rewrite (release_run pcpu ptlk s t); [|apply Hq|done|done].
        split; [done|]. right. split; [done|]. split; [done|].
        split; [split; [done|split; [exact (leave_quiet pcpu ptlk s _ Hq)|done]]|].
        split; [done|]. left. intros i q Hi Hq2.
        assert (existsb (is_child c) (procs s) = true) by (apply existsb_child; eauto). congruence. }
    destruct (Z.eqb_spec (p_killed p) 0) as [Hk|Hk]; cbn [negb].
    2:{ rewrite (release_run pcpu ptlk s t); [|apply Hq|done|done].
        split; [done|]. right. split; [done|]. split; [done|].
        split; [split; [done|split; [exact (leave_quiet pcpu ptlk s _ Hq)|done]]|]. split; [done|]. by right. }
    set (p2 := w_state SLEEPING (w_chan (chan_of (Some c)) p)).
    assert (H : wsw (A:=Z) (sleep (chan_of (Some c)) LkPtable)
       (λ s', ∃ i, s' = set_procs (<[c := w_intena i p2]> (procs s)) t) t).
    { unfold sleep. apply wsw_bind. wstep. change (curproc t) with (curproc s). rewrite Hc.
      rewrite bool_decide_eq_false_2 by done. apply wsw_bind. wstep. apply wsw_bind.
      eapply wp_myproc; [exact Hc|]. apply wsw_bind. eapply wp_updp; [exact Hp|]. apply wsw_bind.
      eapply wp_updp_again; [done|exact Hcl|]. change (procs t) with (procs s).
      eapply (wsw_sched s _ c p2); try done; [by apply list_lookup_insert_eq|].
      eexists. cbn [procs set_procs]. rewrite list_insert_insert_eq. reflexivity. }
    unfold wsw in H. destruct (sleep (chan_of (Some c)) LkPtable t) as [| |? s'| |]; try done.
    destruct H as [i0 ->]. assert (live p) as Hlp by (by right; right). split.
    { eapply inv_benign; [exact I|]. eapply Forall2_benign_insert; [exact Hp|].
      apply benign_live; try done; by left. }
    split; [exact He|]. split.
    { eapply res_keeps; [exact R|]. eapply Forall2_keeps_insert; [exact Hp|].
      split; try done. split; [by left|done]. }
    split_and!; try done. eexists. split; [reflexivity|done].
Qed.

(** ** exit *)

(** A slot after exit's loop has passed it or not. *)
Record passed (c : nat) (ip : option nat) (done : bool) (p p' : proc) : Prop := {
  pa_pid : p_pid p' = p_pid p;
  pa_parent : p_parent p' = if done && is_child c p then ip else p_parent p;
  pa_live : live p ↔ live p';
  pa_state : ¬ live p → p_state p' = p_state p;
  pa_run : p_state p' = RUNNING → p_state p = RUNNING;
  pa_sleep : p_state p' = SLEEPING → p_state p = SLEEPING ∧ p_chan p' = p_chan p;
  pa_keeps : keeps p p';
}.

Definition exit_inv (c : nat) (ip : option nat) (k : nat) (ps ps' : list proc) : Prop :=
  length ps' = length ps ∧
  ∀ j p, ps !! j = Some p → ∃ p', ps' !! j = Some p' ∧ passed c ip (bool_decide (j < k)%nat) p p'.

(** Two states with the same table, up to the table itself. *)
Definition same_rest s t : Prop :=
  ps_cpu t = ps_cpu s ∧ pt_lock t = pt_lock s ∧ initproc t = initproc s ∧
  nextpid t = nextpid s ∧ curproc t = curproc s ∧ penv t = penv s.

Lemma wake_keeps chan p : keeps p (wake chan p).
Proof.
  pose proof (wake_benign chan p) as [_ _ H1 H2 _]. split; try done;
    unfold wake; by destruct (isstate SLEEPING p && (p_chan p =? chan)).
Qed.

Lemma passed_wake c ip d p p' chan : passed c ip d p p' → passed c ip d p (wake chan p').
Proof.
  intros [H1 H2 H3 H4 H5 H6 H7]. destruct (wake_benign chan p') as [B1 B2 B3 B4 B5].
  split; [congruence|congruence|by rewrite H3| |auto| |eapply keeps_trans; [exact H7|apply wake_keeps]].
  - intros Hn. rewrite B4; [auto|]. by rewrite <-H3.
  - unfold wake. destruct (isstate SLEEPING p' && (p_chan p' =? chan)); [done|auto].
Qed.

Lemma exit_inv_wake c ip k ps ps' chan :
  exit_inv c ip k ps ps' → exit_inv c ip k ps (wake chan <$> ps').
Proof.
  intros [Hl Hj]. split; [by rewrite length_fmap|]. intros j p Hp.
  destruct (Hj j p Hp) as (p' & Hp' & Hpa). exists (wake chan p'). split; [|by apply passed_wake].
  by rewrite list_lookup_fmap, Hp'.
Qed.

Lemma wp_exit_child c ip k ps t (Q : unit → st → Prop) :
  exit_inv c ip k ps (procs t) → initproc t = ip → (k < length ps)%nat →
  (∀ t', same_rest t t' → exit_inv c ip (S k) ps (procs t') → Q tt t') →
  wp (exit_child c k) Q t.
Proof.
  intros [Hl Hj] Hip Hk HQ. destruct (lookup_lt_is_Some_2 ps k Hk) as [p Hp].
  destruct (Hj k p Hp) as (q & Hq & Hpa). pose proof Hpa as [A1 A2 A3 A4 A5 A6 A7].
  rewrite bool_decide_eq_false_2 in A2 by lia. simpl in A2.
  assert (Hkt : (k < length (procs t))%nat) by lia.
  assert (Hother : ∀ j r, j ≠ k → passed c ip (bool_decide (j < k)%nat) r = passed c ip (bool_decide (j < S k)%nat) r).
  { intros j r Hne. f_equal. apply bool_decide_ext. lia. }
  unfold exit_child. wstep. eapply wp_getp; [exact Hq|]. rewrite A2.
  destruct (bool_decide_reflect (p_parent p = Some c)) as [Hc|Hc].
  - wstep. wstep. rewrite Hip. wstep. eapply wp_updp; [exact Hq|].
    assert (Hinv : exit_inv c ip (S k) ps (<[k := w_parent ip q]> (procs t))).
    { split; [by rewrite length_insert|]. intros j r Hr. rewrite lookup_insert_case by done.
      destruct (decide (k = j)) as [<-|Ej].
      - assert (r = p) as -> by congruence. eexists. split; [done|].
        rewrite bool_decide_eq_true_2 by lia. split; try done; [simpl; unfold is_child; by rewrite bool_decide_eq_true_2|].
        eapply keeps_trans; [exact A7|by split].
      - destruct (Hj j r Hr) as (r' & Hr' & Hpr). exists r'. split; [done|]. by rewrite <-Hother. }
    destruct (isstate ZOMBIE q).
    + unfold wakeup1. wstep. apply HQ; [done|]. by apply exit_inv_wake.
    + wstep. by apply HQ.
  - wstep. apply HQ; [done|]. split; [done|]. intros j r Hr. destruct (Hj j r Hr) as (r' & Hr' & Hpr).
    exists r'. split; [done|]. destruct (decide (j = k)) as [->|Hne]; [|by rewrite <-Hother].
    assert (r = p) as -> by congruence. assert (r' = q) as -> by congruence.
    rewrite bool_decide_eq_true_2 by lia. split; try done. unfold is_child.
    by rewrite bool_decide_eq_false_2.
Qed.

Lemma wp_exit_loop c ip n k ps t (Q : unit → st → Prop) :
  exit_inv c ip k ps (procs t) → initproc t = ip → (k + n = length ps)%nat →
  (∀ t', same_rest t t' → exit_inv c ip (length ps) ps (procs t') → Q tt t') →
  wp (forM (seq k n) (exit_child c)) Q t.
Proof.
  revert k t. induction n as [|n IH]; intros k t Hi Hip Hk HQ; cbn [seq forM].
  { apply wp_ret. apply HQ; [done|]. by rewrite <-Hk, Nat.add_0_r. }
  wstep. eapply wp_exit_child; [exact Hi|done|lia|]. intros t1 Hs1 Hi1.
  apply IH; [done| |lia|].
  - destruct Hs1 as (_ & _ & Ej & _). congruence.
  - intros t2 Hs2 Hi2. apply HQ; [|done]. unfold same_rest in *. naive_solver congruence.
Qed.

(** The exiting process becomes a zombie, its children pass to init. *)
Lemma inv_exit ps ps' ip n c p i :
  pt_inv ps (Some i) n (Some c) → ip = Some i → i ≠ c → ps !! c = Some p → p_state p = RUNNING →
  exit_inv c ip (length ps) ps ps' →
  ∀ z, p_state z = ZOMBIE → (∀ q, ps' !! c = Some q → p_pid z = p_pid q ∧ p_parent z = p_parent q) →
  pt_inv (<[c := z]> ps') (Some i) n (Some c).
Proof.
  intros I -> Hic Hp Hr [Hlen Hj] z Hz Hzq.
  assert (Hcl : (c < length ps')%nat) by (rewrite Hlen; by eapply lookup_lt_Some).
  destruct (Hj c p Hp) as (pc & Hpc & [C1 C2 C3 C4 C5 C6 _]). destruct (Hzq pc Hpc) as [Z1 Z2].
  assert (Hb : ∀ j q', <[c:=z]> ps' !! j = Some q' →
     ∃ q, ps !! j = Some q ∧ p_pid q' = p_pid q ∧
       p_parent q' = (if is_child c q then Some i else p_parent q) ∧
       (j = c ∧ q' = z ∨ j ≠ c ∧ (live q ↔ live q') ∧ (¬ live q → p_state q' = p_state q) ∧
          (p_state q' = RUNNING → p_state q = RUNNING))).
  { intros j q'. rewrite lookup_insert_case by done. destruct (decide (c = j)) as [<-|Ej].
    - intros [= <-]. exists p. rewrite bool_decide_eq_true_2 in C2 by lia. simpl in C2.
      split_and!; [done|congruence|congruence|by left].
    - intros Hq'. destruct (lookup_lt_is_Some_2 ps j) as [q Hq]; [rewrite <-Hlen; by eapply lookup_lt_Some|].
      destruct (Hj j q Hq) as (r & Hr' & [A1 A2 A3 A4 A5 A6 _]). assert (r = q') as -> by congruence.
      rewrite bool_decide_eq_true_2 in A2 by (by eapply lookup_lt_Some). simpl in A2.
      exists q. split_and!; try done. right. done. }
  assert (Hlive : ∀ k q, k ≠ c → ps !! k = Some q → live q → ∃ q', <[c:=z]> ps' !! k = Some q' ∧ live q').
  { intros k q Hk Hq Hlq. destruct (Hj k q Hq) as (q' & Hq' & [A1 A2 A3 A4 A5 A6 _]). exists q'.
    rewrite list_lookup_insert_ne by done. split; [done|]. by apply A3. }
  destruct (pi_init _ _ _ _ I i eq_refl) as (qi & Hqi & Hli).
  split.
  - rewrite length_insert, Hlen. apply I.
  - apply I.
  - intros j q' (q & Hq & -> & _)%Hb. by eapply (pi_pid _ _ _ _ I).
  - intros j k q' r' (q & Hq & -> & _)%Hb (r & Hr' & -> & _)%Hb. by eapply (pi_uniq _ _ _ _ I).
  - intros j q' (q & Hq & -> & _ & Hd)%Hb Hs. eapply (pi_used _ _ _ _ I); [done|].
    destruct Hd as [[-> ->]|(_ & D1 & D2 & _)]; [congruence|]. intros Ej. apply Hs. rewrite D2; [done|].
    intros Hl. by apply live_states in Hl as [? _].
  - intros j q' (q & Hq & _ & -> & Hd)%Hb Hs. destruct Hd as [[-> ->]|(_ & D1 & D2 & _)]; [congruence|].
    assert (Hu : p_state q = UNUSED).
    { rewrite <-D2; [done|]. intros Hl. apply D1 in Hl. by apply live_states in Hl as [? _]. }
    pose proof (pi_unused _ _ _ _ I j q Hq Hu) as Ej. unfold is_child. by rewrite Ej, bool_decide_eq_false_2.
  - intros j q' k (q & Hq & _ & -> & _)%Hb Hk. unfold is_child in Hk.
    case_bool_decide as Hch; [injection Hk as <-; by eapply Hlive|].
    destruct (pi_parent _ _ _ _ I j q k Hq Hk) as (r & Hr' & Hlr). eapply Hlive; [|done|done]. congruence.
  - intros j q' (q & Hq & _ & -> & Hd)%Hb H1 H2 H3. unfold is_child.
    destruct (bool_decide_reflect (p_parent q = Some c)); [by eexists|]. destruct Hd as [[-> ->]|(_ & D1 & D2 & _)].
    + eapply (pi_orphan _ _ _ _ I); [done|congruence|congruence|done].
    + eapply (pi_orphan _ _ _ _ I); [done| | |done].
      * intros Ej. apply H1. rewrite D2; [done|]. intros Hl. by apply live_states in Hl as [? _].
      * intros Ej. apply H2. rewrite D2; [done|]. intros Hl. by apply live_states in Hl as (_ & ? & _).
  - intros j [= <-]. by eapply Hlive.
  - intros j q' (q & Hq & _ & _ & Hd)%Hb Hs. destruct Hd as [[-> ->]|(_ & _ & _ & D3)]; [done|].
    eapply (pi_run _ _ _ _ I); [done|auto].
Qed.

(** What exit leaves of the table: [ps] before, [ps'] after. *)
Record exited (c i : nat) (p : proc) (ps ps' : list proc) : Prop := {
  ex_zombie : ∃ z, ps' !! c = Some z ∧ p_state z = ZOMBIE ∧ p_pid z = p_pid p;
  ex_children j q : ps !! j = Some q → p_parent q = Some c →
                    ∃ q', ps' !! j = Some q' ∧ p_parent q' = Some i;
  ex_none j q' : ps' !! j = Some q' → p_parent q' ≠ Some c;
  ex_parent k q' : p_parent p = Some k → ps' !! k = Some q' →
                   p_state q' = SLEEPING → p_chan q' ≠ chan_of (Some k);
}.

(** What exit's last part leaves of what the processes own. *)
Definition exit_keeps (c : nat) (p : proc) (ps ps' : list proc) : Prop :=
  length ps' = length ps ∧
  (∀ j q, j ≠ c → ps !! j = Some q → ∃ q', ps' !! j = Some q' ∧ keeps q q') ∧
  ∃ z, ps' !! c = Some z ∧ p_state z = ZOMBIE ∧ p_kstack z = p_kstack p ∧ p_pgdir z = p_pgdir p ∧ p_sz z = p_sz p ∧
    p_ofile z = p_ofile p ∧ p_cwd z = p_cwd p.

Lemma wsw_exit_locked {A} s c p i (Q : st → Prop) :
  pt_inv (procs s) (initproc s) (nextpid s) (curproc s) → quiet pcpu ptlk s → ncli (ps_cpu s) = 0 → curproc s = Some c → procs s !! c = Some p →
  p_state p = RUNNING → initproc s = Some i → i ≠ c →
  (∀ s', pt_inv (procs s') (initproc s') (nextpid s') (curproc s') →
         exited c i p (procs s) (procs s') → exit_keeps c p (procs s) (procs s') → penv s' = penv s → Q s') →
  wsw (A:=A) (exit_locked c) Q s.
Proof.
  intros I Hq Hn Hc Hp Hr Hip Hic HQ. set (t := acquired pcpu ptlk s).
  set (ps1 := wake (chan_of (p_parent p)) <$> procs s).
  assert (Hp1 : ps1 !! c = Some p).
  { unfold ps1. rewrite list_lookup_fmap, Hp. simpl. unfold wake, isstate.
    by rewrite bool_decide_eq_false_2 by congruence. }
  assert (I1 : pt_inv ps1 (Some i) (nextpid s) (Some c)).
  { rewrite <-Hip, <-Hc. eapply inv_benign; [exact I|]. apply wake_all_benign. }
  unfold exit_locked. apply wsw_bind. apply wp_acquire; [apply _..|done|]. fold t.
  apply wsw_bind. eapply wp_getp; [exact Hp|]. apply wsw_bind. unfold wakeup1. wstep.
  change (procs t) with (procs s). fold ps1.
  apply wsw_bind. eapply (wp_exit_loop c (Some i) NPROC 0 ps1).
  { split; [done|]. intros j q Hj. exists q. split; [done|]. rewrite bool_decide_eq_false_2 by lia.
    by split. }
  { exact Hip. }
  { by rewrite (pi_len _ _ _ _ I1). }
  intros t1 (E1 & E2 & E3 & E4 & E5 & E6) Hex. pose proof Hex as [Hl1 Hj1].
  destruct (Hj1 c p Hp1) as (pc & Hpc & Hpa). pose proof (lookup_lt_Some _ _ _ Hpc) as Hcl.
  apply wsw_bind. eapply wp_updp; [exact Hpc|].
  eapply (wsw_sched s _ c (w_state ZOMBIE pc)); [by split|done|exact (eq_trans E5 Hc)|
    by apply list_lookup_insert_eq|done|].
  set (z := w_intena _ _). apply HQ; cbn [procs set_procs initproc nextpid curproc penv].
  3:{ split; [rewrite list_insert_insert_eq, length_insert, Hl1; unfold ps1; by rewrite length_fmap|].
    rewrite list_insert_insert_eq. split.
    - intros j q Hj Hq'. assert (ps1 !! j = Some (wake (chan_of (p_parent p)) q)) as Hq1
        by (unfold ps1; by rewrite list_lookup_fmap, Hq').
      destruct (Hj1 j _ Hq1) as (q2 & Hq2 & Hp2). exists q2. rewrite list_lookup_insert_ne by done.
      split; [done|]. eapply keeps_trans; [apply wake_keeps|apply Hp2].
    - exists z. split; [by apply list_lookup_insert_eq|]. destruct (pa_keeps _ _ _ _ _ Hpa) as [K1 K2 K3 K4 K5 _ _]. done. }
  3:{ rewrite E6. done. }
  - rewrite E3, E4, E5, list_insert_insert_eq. change (initproc _) with (initproc s).
    change (nextpid _) with (nextpid s). change (curproc _) with (curproc s). rewrite Hip, Hc.
    eapply (inv_exit ps1 (procs t1) (Some i)); [exact I1|done|done|exact Hp1|done|exact Hex|done|].
    intros q Hq'. assert (q = pc) as -> by congruence. done.
  - rewrite list_insert_insert_eq. assert (Hpar : ∀ j q q', ps1 !! j = Some q → procs t1 !! j = Some q' →
       p_parent q' = if is_child c q then Some i else p_parent q).
    { intros j q q' Hj Hq'. destruct (Hj1 j q Hj) as (q2 & Hq2 & [_ A2 _ _ _ _ _]).
      assert (q2 = q') as -> by congruence. by rewrite bool_decide_eq_true_2 in A2 by (by eapply lookup_lt_Some). }
    assert (Hps1 : ∀ j q, procs s !! j = Some q → ∃ q1, ps1 !! j = Some q1 ∧ p_parent q1 = p_parent q).
    { intros j q Hj. eexists. unfold ps1. rewrite list_lookup_fmap, Hj. split; [done|]. apply wake_benign. }
    split.
    + exists z. split_and!; [by apply list_lookup_insert_eq|done|]. apply Hpa.
    + intros j q Hj Hpq. destruct (Hps1 j q Hj) as (q1 & Hq1 & Epq). destruct (Hj1 j q1 Hq1) as (q' & Hq' & _).
      pose proof (Hpar _ _ _ Hq1 Hq') as HP. unfold is_child in HP.
      rewrite bool_decide_eq_true_2 in HP by congruence. rewrite lookup_insert_case by done.
      destruct (decide (c = j)) as [<-|]; [|by exists q'].
      exists z. split; [done|]. change (p_parent pc = Some i). congruence.
    + intros j q' Hj'. assert (∃ q2, procs t1 !! j = Some q2 ∧ p_parent q' = p_parent q2) as (q2 & Hq2 & ->).
      { rewrite lookup_insert_case in Hj' by done. destruct (decide (c = j)) as [<-|]; [|by exists q'].
        injection Hj' as <-. by exists pc. }
      destruct (lookup_lt_is_Some_2 ps1 j) as [q1 Hq1]; [rewrite <-Hl1; by eapply lookup_lt_Some|].
      rewrite (Hpar _ _ _ Hq1 Hq2). unfold is_child. destruct (bool_decide_reflect (p_parent q1 = Some c)); congruence.
    + intros k q' Hk Hj' Hs Hch. assert (Hkc : c ≠ k).
      { intros <-. rewrite list_lookup_insert_eq in Hj' by done. by injection Hj' as <-. }
      rewrite list_lookup_insert_ne in Hj' by done.
      destruct (lookup_lt_is_Some_2 (procs s) k) as [q0 Hq0].
      { unfold ps1 in Hl1. rewrite length_fmap in Hl1. rewrite <-Hl1. by eapply lookup_lt_Some. }
      assert (Hq1 : ps1 !! k = Some (wake (chan_of (p_parent p)) q0)) by (unfold ps1; by rewrite list_lookup_fmap, Hq0).
      destruct (Hj1 k _ Hq1) as (q2 & Hq2 & Hp2). assert (q2 = q') as -> by congruence.
      destruct (pa_sleep _ _ _ _ _ Hp2 Hs) as [Hs0 Hc0]. rewrite Hk in Hs0, Hc0.
      unfold wake, isstate in Hs0, Hc0. destruct (bool_decide_reflect (p_state q0 = SLEEPING)) as [Hs1|Hs1]; simpl in *; [|done].
      destruct (Z.eqb_spec (p_chan q0) (Z.of_nat k + 1)) as [Ec|Ec]; [done|]. apply Ec.
      simpl in Hch. congruence.
Qed.

(** exit's loop over the files: each one is closed, F are the references of
    the others. *)
Lemma wp_close_fds v F c n k e s q l (Q : unit → st → Prop) :
  pe_rel e (kvs_files (F ⊎ lfiles (drop k (p_ofile q))) v) → (c < length l)%nat → (k + n = length (p_ofile q))%nat →
  (∀ e', pe_rel e' (kvs_files F v) →
     Q tt (set_procs (<[c := w_ofile (take k (p_ofile q) ++ replicate n 0) q]> l) (set_penv e' s))) →
  wp (forM (seq k n) (close_fd c)) Q (set_procs (<[c := q]> l) (set_penv e s)).
Proof.
  revert k e q. induction n as [|n IH]; intros k e q He Hc Hk HQ; cbn [seq forM].
  { apply wp_ret. rewrite drop_ge, gmultiset_disj_union_right_id in He by lia. specialize (HQ e He).
    rewrite take_ge, app_nil_r in HQ by lia.
    by replace (w_ofile (p_ofile q) q) with q in HQ by (by destruct q). }
  wstep. unfold close_fd at 1. wstep. eapply get_c; [done|].
  destruct (lookup_lt_is_Some_2 (p_ofile q) k) as [f Hf]; [lia|].
  rewrite (drop_S _ f k Hf), lfiles_cons in He.
  wstep. eapply wp_deref; [exact Hf|]. destruct (Z.eqb_spec f 0) as [Hf0|Hf0].
  - rewrite Hf0 in Hf. wstep. rewrite gmultiset_disj_union_left_id in He. apply IH; [exact He|done|lia|].
    intros e' He'. specialize (HQ e' He'). rewrite (take_S_r _ _ 0 Hf), <- app_assoc. exact HQ.
  - wstep. eapply env_c; [apply (pe_fileclose_law f _ _ He); simpl; multiset_solver|]. intros [] e1 He1.
    assert (pe_rel e1 (kvs_files (F ⊎ lfiles (drop (S k) (p_ofile q))) v)) as He2.
    { match goal with H : pe_rel e1 ?w |- _ => replace w with (kvs_files (F ⊎ lfiles (drop (S k) (p_ofile q))) v) in H; [exact H|] end.
      unfold kvs_files. simpl. f_equal. multiset_solver. }
    clear He1. eapply upd_c; [done|]. apply IH.
    + simpl. rewrite drop_insert_lt by lia. exact He2.
    + done.
    + simpl. rewrite length_insert. lia.
    + intros e' He'. specialize (HQ e' He'). simpl.
      assert (<[k:=0]> (p_ofile q) !! k = Some 0) as Hk0 by (apply list_lookup_insert_eq; lia).
      rewrite (take_S_r _ _ 0 Hk0), take_insert_ge, <- app_assoc by lia. exact HQ.
Qed.

Lemma wsw_exit {A} v s c p i (Q : st → Prop) :
  ps_ok v s → ncli (ps_cpu s) = 0 → curproc s = Some c → procs s !! c = Some p →
  p_state p = RUNNING → initproc s = Some i → i ≠ c →
  (∀ s', pt_inv (procs s') (initproc s') (nextpid s') (curproc s') →
         exited c i p (procs s) (procs s') → pe_rel (penv s') (closed p v) → res_ok (procs s') (closed p v) → Q s') →
  wsw (A:=A) exit Q s.
Proof.
  intros (I & Hq & He & R) Hn Hc Hp Hr Hip Hic HQ. pose proof (lookup_lt_Some _ _ _ Hp) as Hcl.
  assert (live p) as Hlp by (by right; right). pose proof (rs_nofile _ _ R c p Hp) as Hof.
  pose proof (rs_cwd _ _ R c p Hp Hlp) as Hcw.
  assert (files_of p ⊆ kv_files v) as Hfiles by (etransitivity; [by eapply total_sub|apply R]).
  assert (p_cwd p ∈ kv_inodes v) as Hcwd.
  { pose proof (rs_cwds _ _ R) as Hsub. pose proof (total_sub cwd_of (procs s) c p Hp) as Hin.
    unfold cwd_of at 1 in Hin. rewrite (proj2 (Z.eqb_neq _ _) Hcw) in Hin. multiset_solver. }
  unfold exit. apply wsw_bind. eapply wp_myproc; [exact Hc|]. apply wsw_bind. wstep. rewrite Hip.
  rewrite bool_decide_eq_false_2 by congruence. apply wsw_bind.
  rewrite (ps_eta s). rewrite <-(list_insert_id _ _ _ Hp).
  eapply (wp_close_fds v (kv_files v ∖ files_of p)).
  { replace (kvs_files _ v) with v; [exact He|]. destruct v as [v1 v2 v3 v4 v5]. unfold kvs_files. simpl. f_equal.
    rewrite drop_0. simpl in Hfiles. unfold files_of in *. multiset_solver. }
  { done. }
  { by rewrite Hof. }
  intros e1 He1. rewrite take_0. change ([] ++ ?x) with x.
  apply wsw_bind. eapply env_c; [apply (pe_begin_op_law _ _ He1)|]. intros [] e2 He2.
  apply wsw_bind. eapply get_c; [done|]. apply wsw_bind.
  eapply env_c; [apply (pe_iput_law _ _ _ He2); [exact Hcwd|simpl; lia]|]. intros [] e3 He3.
  apply wsw_bind. eapply env_c; [apply (pe_end_op_law _ _ He3); simpl; lia|]. intros [] e4 He4.
  apply wsw_bind. eapply upd_c; [done|]. set (p1 := w_cwd 0 (w_ofile (replicate NOFILE 0) p)).
  assert (I1 : pt_inv (<[c:=p1]> (procs s)) (initproc s) (nextpid s) (curproc s)).
  { eapply inv_benign; [exact I|]. eapply Forall2_benign_insert; [exact Hp|]. by split. }
  eapply (wsw_exit_locked _ c p1 i); [exact I1|exact Hq|exact Hn|done|by apply list_lookup_insert_eq|done|done|done|].
  intros s' I' [X1 X2 X3 X4] (K1 & K2 & z & Kz & K3 & K4 & K5 & K6 & K7 & K8) Ee. cbn [procs set_procs penv set_penv] in *.
  apply HQ; [done| | |].
  - split; try done. intros j q Hj Hpq. destruct (decide (c = j)) as [<-|Hne].
    + apply (X2 c p1); [by apply list_lookup_insert_eq|]. change (p_parent p = Some c). congruence.
    + apply (X2 j q); [by rewrite list_lookup_insert_ne|done].
  - rewrite Ee. exact He4.
  - eapply (res_exit (procs s) v _ c p z); [exact R|done|done|by rewrite K1, length_insert|done| |done..].
    intros j q Hj Hjq. apply K2; [done|]. by rewrite list_lookup_insert_ne.
Qed.

(** ** kill and wakeup *)

Lemma wp_wakeup v s chan (Q : unit → st → Prop) :
  ps_ok v s →
  (∀ s', ps_ok v s' → procs s' = wake chan <$> procs s → curproc s' = curproc s → Q tt s') →
  wp (wakeup chan) Q s.
Proof.
  intros (I & Hq & He & R) HQ. unfold wakeup. wstep. apply wp_acquire; [apply _..|done|].
  unfold wakeup1. wstep. wstep. eapply (wp_release pcpu ptlk _ s); [done..|].
  apply HQ; [|done..]. split; [|split; [exact (leave_quiet pcpu ptlk s _ Hq)|split; [done|]]].
  - eapply inv_benign; [exact I|apply wake_all_benign].
  - eapply res_keeps; [exact R|]. apply Forall2_fmap_r, Forall2_same_length_lookup. split; [done|].
    intros i x y Hx Hy. change (procs s !! i = Some y) in Hy. assert (x = y) as -> by congruence. apply wake_keeps.
Qed.

(** What kill does to the slot it finds. *)
Definition killed_proc (p : proc) : proc :=
  if isstate SLEEPING p then w_state RUNNABLE (w_killed 1 p) else w_killed 1 p.

Lemma killed_benign p : benign p (killed_proc p).
Proof.
  unfold killed_proc, isstate. destruct (bool_decide_reflect (p_state p = SLEEPING)); [|by split].
  apply benign_live; try done; [by left|by right; left].
Qed.

Lemma killed_keeps p : keeps p (killed_proc p).
Proof.
  pose proof (killed_benign p) as [_ _ H1 H2 _]. split; try done; unfold killed_proc; by destruct (isstate SLEEPING p).
Qed.

Lemma wp_kill v s pid (Q : Z → st → Prop) :
  ps_ok v s →
  (∀ s' i p, procs s !! i = Some p → p_pid p = pid → ps_ok v s' →
     procs s' = <[i := killed_proc p]> (procs s) → Q 0 s') →
  (∀ s', (∀ i p, procs s !! i = Some p → p_pid p ≠ pid) → ps_ok v s' → procs s' = procs s → Q (-1) s') →
  wp (kill pid) Q s.
Proof.
  intros (I & Hq & He & R) HS HN. unfold kill. wstep. apply wp_acquire; [apply _..|done|].
  wstep. wstep. change (procs (acquired pcpu ptlk s)) with (procs s).
  pose proof (findp_spec (λ p, p_pid p =? pid) (procs s) 0) as Hf.
  destruct (findp _ (procs s) 0) as [i|].
  - destruct Hf as (p & _ & Hp & Hpid & _). rewrite Nat.sub_0_r in Hp. apply Z.eqb_eq in Hpid.
    pose proof (lookup_lt_Some _ _ _ Hp) as Hi.
    wstep. eapply wp_updp; [exact Hp|]. wstep. eapply wp_getp; [by apply list_lookup_insert_eq|].
    change (isstate SLEEPING (w_killed 1 p)) with (isstate SLEEPING p). wstep.
    assert (I' : pt_inv (<[i := killed_proc p]> (procs s)) (initproc s) (nextpid s) (curproc s)).
    { eapply inv_benign; [exact I|]. eapply Forall2_benign_insert; [exact Hp|apply killed_benign]. }
    assert (R' : res_ok (<[i := killed_proc p]> (procs s)) v).
    { eapply res_keeps; [exact R|]. eapply Forall2_keeps_insert; [exact Hp|apply killed_keeps]. }
    destruct (isstate SLEEPING p) eqn:Es.
    + eapply wp_updp_again; [done|exact Hi|]. wstep.
      eapply (wp_release pcpu ptlk _ s); [done..|]. wstep.
      apply (HS _ i p); [done|done| |by unfold killed_proc; rewrite Es].
      unfold killed_proc in I', R'. rewrite Es in I', R'. by split; [|split; [exact (leave_quiet pcpu ptlk s _ Hq)|]].
    + wstep. wstep. eapply (wp_release pcpu ptlk _ s); [done..|]. wstep.
      apply (HS _ i p); [done|done| |by unfold killed_proc; rewrite Es].
      unfold killed_proc in I', R'. rewrite Es in I', R'. by split; [|split; [exact (leave_quiet pcpu ptlk s _ Hq)|]].
  - wstep. eapply (wp_release pcpu ptlk _ s); [done..|]. wstep. apply HN; [|split; [done|]|done].
    + intros i p Hp. apply Z.eqb_neq. by apply (Hf i).
    + split; [exact (leave_quiet pcpu ptlk s _ Hq)|done].
Qed.

(** ** The scheduler *)

(** Picking a RUNNABLE process makes it the only RUNNING one. *)
Lemma inv_pick ps ip n i p :
  pt_inv ps ip n None → ps !! i = Some p → p_state p = RUNNABLE →
  pt_inv (<[i := w_state RUNNING p]> ps) ip n (Some i).
Proof.
  intros I Hp Hr. pose proof (lookup_lt_Some _ _ _ Hp) as Hi.
  assert (Hb : ∀ j q', <[i:=w_state RUNNING p]> ps !! j = Some q' →
     ∃ q, ps !! j = Some q ∧ p_pid q' = p_pid q ∧ p_parent q' = p_parent q ∧
          (j = i ∧ q = p ∧ p_state q' = RUNNING ∨ j ≠ i ∧ q' = q)).
  { intros j q'. rewrite lookup_insert_case by done. destruct (decide (i = j)) as [<-|].
    - intros [= <-]. exists p. split_and!; try done. by left.
    - intros Hq. exists q'. split_and!; try done. by right. }
  assert (Hlive : ∀ k q, ps !! k = Some q → live q → ∃ q', <[i:=w_state RUNNING p]> ps !! k = Some q' ∧ live q').
  { intros k q Hk Hl. rewrite lookup_insert_case by done. destruct (decide (i = k)) as [<-|]; [|by exists q].
    eexists. split; [done|]. by right; right. }
  split.
  - rewrite length_insert. apply I.
  - apply I.
  - intros j q' (q & Hq & -> & _)%Hb. by eapply (pi_pid _ _ _ _ I).
  - intros j k q' r' (q & Hq & -> & _)%Hb (r & Hr' & -> & _)%Hb. by eapply (pi_uniq _ _ _ _ I).
  - intros j q' (q & Hq & -> & _ & Hd)%Hb Hs. eapply (pi_used _ _ _ _ I); [done|].
    destruct Hd as [(_ & -> & _)|[_ ->]]; congruence.
  - intros j q' (q & Hq & _ & -> & Hd)%Hb Hs. destruct Hd as [(_ & _ & Hd)|[_ ->]]; [congruence|].
    by eapply (pi_unused _ _ _ _ I).
  - intros j q' k (q & Hq & _ & -> & _)%Hb Hk.
    destruct (pi_parent _ _ _ _ I j q k Hq Hk) as (r & Hr' & Hl). by eapply Hlive.
  - intros j q' (q & Hq & _ & -> & Hd)%Hb H1 H2 H3. eapply (pi_orphan _ _ _ _ I); [done| | |done];
      destruct Hd as [(_ & -> & _)|[_ ->]]; congruence.
  - intros j Hj. destruct (pi_init _ _ _ _ I j Hj) as (q & Hq & Hl). by eapply Hlive.
  - intros j q' (q & Hq & _ & _ & Hd)%Hb Hs. destruct Hd as [(-> & _)|[_ ->]]; [done|].
    by pose proof (pi_run _ _ _ _ I j q Hq Hs).
Qed.

(** A state the scheduler can look at: the table has its slots, and the
    processes their directories. *)
Definition sched_ok (s : st) : Prop :=
  ∃ v, pe_rel (penv s) v ∧ length (procs s) = NPROC ∧ res_ok (procs s) v.

Lemma sched_scan_run s n i :
  sched_ok s → (i + n = length (procs s))%nat →
  wp (sched_scan n i) (λ r s', r = findp (isstate RUNNABLE) (drop i (procs s)) i ∧
     match r with
     | Some j => ∃ p, procs s !! j = Some p ∧ p_state p = RUNNABLE ∧
                      procs s' = <[j := w_state RUNNING p]> (procs s) ∧ curproc s' = Some j ∧
                      ps_cpu s' = ps_cpu s ∧ pt_lock s' = pt_lock s
     | None => s' = s
     end) s.
Proof.
  intros (v & He & _ & R). revert i. induction n as [|n IH]; intros i Hi; cbn [sched_scan].
  { apply wp_ret. rewrite drop_ge by lia. done. }
  destruct (lookup_lt_is_Some_2 (procs s) i) as [p Hp]; [lia|].
  wstep. eapply wp_getp; [exact Hp|].
  rewrite (drop_S (procs s) p i Hp). cbn [findp].
  destruct (isstate RUNNABLE p) eqn:Es; cbn [negb].
  - apply bool_decide_eq_true in Es. wstep. wstep. wstep.
    destruct (rs_dir _ _ R i p Hp ltac:(left; right; by left)) as [img Him].
    eapply wp_env; [apply (pe_switchuvm_law (p_pgdir p) _ v He); by eexists|]. intros [] e _.
    wstep. eapply wp_updp; [exact Hp|]. wstep. split; [done|]. by exists p.
  - apply IH. lia.
Qed.

(** The first RUNNABLE slot from [k] on, around the table. *)
Definition next_run (k : nat) (ps : list proc) : option nat :=
  match findp (isstate RUNNABLE) (drop k ps) k with
  | Some j => Some j
  | None => findp (isstate RUNNABLE) ps 0
  end.

(** The scheduler inside its critical section, which it entered from [u]. *)
Definition in_round (u s : st) : Prop := quiet pcpu ptlk u ∧ in_crit u s.

(** What the switch leaves. *)
Definition switched (j : nat) (s' : st) : Prop :=
  curproc s' = Some j ∧ (∃ p, procs s' !! j = Some p ∧ p_state p = RUNNING) ∧ ∃ u, in_round u s'.

Lemma sti_ok c : cpu_ok c → ncli c = 0 → cpu_ok (sti c).
Proof. intros [H1 H2] Hn. split; [done|]. simpl. lia. Qed.

Lemma sched_ok_ext s t : sched_ok s → procs t = procs s → penv t = penv s → sched_ok t.
Proof. intros (v & H1 & H2 & H3) E1 E2. exists v. by rewrite E1, E2. Qed.

(** A round over the whole table that finds a process. *)
Lemma sched_round fuel s j :
  sched_ok s → quiet pcpu ptlk s → ncli (ps_cpu s) = 0 → findp (isstate RUNNABLE) (procs s) 0 = Some j →
  wp (sched_rounds (S fuel)) (λ r s', r = j ∧ switched j s') s.
Proof.
  intros Hok [Hq1 Hq2] Hn Hf. cbn [sched_rounds]. wstep. wstep. set (u := set_ps_cpu _ s).
  assert (quiet pcpu ptlk u) as Hu by (split; [done|by apply sti_ok]).
  wstep. apply wp_acquire; [apply _..|exact Hu|]. set (t := acquired pcpu ptlk u).
  wstep. eapply wp_mono; [apply (sched_scan_run t NPROC 0)|].
  - by apply (sched_ok_ext s).
  - destruct Hok as (v & _ & Hl & _). by rewrite <- Hl.
  - intros r s' [-> H]. change (procs t) with (procs s) in *. rewrite drop_0, Hf in *.
    destruct H as (p & Hp & Hr & E1 & E2 & E3 & E4). apply wp_ret. split; [done|]. split; [done|]. split.
    + eexists. rewrite E1. split; [apply list_lookup_insert_eq; by eapply lookup_lt_Some|done].
    + exists u. split; [exact Hu|]. split; [by rewrite E3|by rewrite E4].
Qed.

(** From its beginning, or behind a swtch with the table locked, the
    scheduler switches to the next RUNNABLE process around the table. *)
Definition sched_ready (x : sctx) (s : st) : Prop :=
  sched_ok s ∧
  match x with
  | SchedStart => quiet pcpu ptlk s ∧ ncli (ps_cpu s) = 0
  | SchedAfter k => (k < NPROC)%nat ∧ ∃ u, in_round u s ∧ ncli (ps_cpu u) = 0
  end.
Definition sched_from (x : sctx) : nat := match x with SchedStart => 0 | SchedAfter k => S k end.

Lemma scheduler_next fuel x s j :
  (0 < fuel)%nat → sched_ready x s → next_run (sched_from x) (procs s) = Some j →
  wp (scheduler fuel x) (λ r s', r = j ∧ switched j s') s.
Proof.
  intros Hfu [Hok Hx] Hj. destruct fuel as [|fuel]; [lia|]. destruct x as [|k]; cbn [scheduler sched_from] in *.
  - apply sched_round; [done|apply Hx|apply Hx|]. unfold next_run in Hj. rewrite drop_0 in Hj.
    by destruct (findp _ _ 0).
  - destruct Hx as (Hk & u & [Hu [Hc Hl]] & Hn). pose proof Hok as (v & He & Hlen & R).
    wstep. eapply wp_env; [by apply pe_switchkvm_law|]. intros [] e He'. wstep. wstep.
    set (t := set_curproc None _). assert (sched_ok t) as Hokt by (exists v; done).
    wstep. eapply wp_mono; [apply (sched_scan_run t (NPROC - S k) (S k)); [done|]|].
    { change (procs t) with (procs s). lia. }
    intros r s' [Hr H]. change (procs t) with (procs s) in *. unfold next_run in Hj. rewrite <- Hr in Hj.
    destruct r as [j'|].
    + injection Hj as ->. destruct H as (p & Hp & Hpr & E1 & E2 & E3 & E4). apply wp_ret. split; [done|]. split; [done|]. split.
      * eexists. rewrite E1. split; [apply list_lookup_insert_eq; by eapply lookup_lt_Some|done].
      * exists u. split; [exact Hu|]. split; [by rewrite E3|by rewrite E4].
    + subst s'. wstep. eapply (wp_release pcpu ptlk _ u); [exact Hu|exact Hc|exact Hl|].
      apply sched_round; [by apply (sched_ok_ext t)|exact (leave_quiet pcpu ptlk u _ Hu)| |exact Hj].
      simpl. unfold unpushed. by rewrite Hn.
Qed.

(** The scheduler's successive switches: [ss n] is the state in which it
    runs for the [n]-th time; the context it goes on from is the slot it
    switched to before. *)
Fixpoint sched_ctx (fuel : nat) (ss : nat → st) (n : nat) : sctx :=
  match n with
  | O => SchedStart
  | S n => match scheduler fuel (sched_ctx fuel ss n) (ss n) with
           | Ret j _ => SchedAfter j
           | _ => SchedStart
           end
  end.

Lemma next_run_spec k ps i p : ps !! i = Some p → p_state p = RUNNABLE → (k ≤ length ps)%nat →
  ∃ j, next_run k ps = Some j ∧ (j < length ps)%nat ∧
    (if decide (k ≤ i)%nat then (k ≤ j ≤ i)%nat else (k ≤ j)%nat ∨ (j ≤ i)%nat).
Proof.
  intros Hp Hr Hk. unfold next_run. assert (isstate RUNNABLE p = true) as Hi by (by apply bool_decide_eq_true).
  pose proof (findp_spec (isstate RUNNABLE) (drop k ps) k) as H1.
  destruct (findp _ (drop k ps) k) as [j|].
  - destruct H1 as (q & Hkj & Hq & _ & Hb). rewrite lookup_drop in Hq. pose proof (lookup_lt_Some _ _ _ Hq).
    exists j. split; [done|]. split; [lia|]. case_decide as Hki; [|lia].
    assert (¬ (i < j)%nat); [|lia]. intros Hij. specialize (Hb (i - k)%nat p ltac:(lia)). rewrite lookup_drop in Hb.
    replace (k + (i - k))%nat with i in Hb by lia. rewrite Hb in Hi; done.
  - assert (i < k)%nat as Hik.
    { destruct (decide (i < k)%nat) as [|Hge]; [done|]. exfalso. specialize (H1 (i - k)%nat p). rewrite lookup_drop in H1.
      replace (k + (i - k))%nat with i in H1 by lia. rewrite H1 in Hi; done. }
    pose proof (findp_spec (isstate RUNNABLE) ps 0) as H2.
    destruct (findp _ ps 0) as [j|]; [|rewrite (H2 i p Hp) in Hi; done].
    destruct H2 as (q & _ & Hq & _ & Hb). rewrite Nat.sub_0_r in *. exists j. split; [done|].
    split; [by eapply lookup_lt_Some|]. rewrite decide_False by lia. right.
    assert (¬ (i < j)%nat); [|lia]. intros Hij. rewrite (Hb i p Hij Hp) in Hi. done.
Qed.

(** How many switches away slot [i] is at most. *)
Definition sched_dist (x : sctx) (i : nat) : nat :=
  match x with
  | SchedStart => S i
  | SchedAfter k => if decide (k < i)%nat then i - k else (NPROC - S k) + S i
  end.

Lemma sched_reach fuel ss i d : ∀ n,
  (0 < fuel)%nat → (∀ m, sched_ready (sched_ctx fuel ss m) (ss m)) →
  (∀ m, ∃ p, procs (ss m) !! i = Some p ∧ p_state p = RUNNABLE) →
  (sched_dist (sched_ctx fuel ss n) i ≤ d)%nat →
  ∃ m, (n ≤ m < n + d)%nat ∧ ∃ s', scheduler fuel (sched_ctx fuel ss m) (ss m) = Ret i s' ∧ switched i s'.
Proof.
  induction d as [|d IH]; intros n Hfu Hs Hi Hd.
  { unfold sched_dist in Hd. destruct (sched_ctx fuel ss n); [lia|case_decide; lia]. }
  destruct (Hi n) as (p & Hp & Hpr). pose proof (Hs n) as Hsn. pose proof Hsn as [(v & _ & Hlen & _) Hx].
  destruct (next_run_spec (sched_from (sched_ctx fuel ss n)) (procs (ss n)) i p Hp Hpr) as (j & Hj & Hjl & Hb).
  { rewrite Hlen. destruct (sched_ctx fuel ss n); simpl; [lia|]. destruct Hx as [? _]. lia. }
  pose proof (scheduler_next fuel _ _ j Hfu Hsn Hj) as H. apply wp_inv in H as (r & s' & Hr & -> & Hsw).
  pose proof (lookup_lt_Some _ _ _ Hp) as Hil.
  destruct (decide (j = i)) as [->|Hne]; [exists n; split; [lia|by exists s']|].
  destruct (IH (S n) Hfu Hs Hi) as (m & Hm & H').
  - cbn [sched_ctx]. rewrite Hr. unfold sched_dist in *. unfold sched_from in Hb.
    rewrite Hlen in *. destruct (sched_ctx fuel ss n) as [|k]; repeat case_decide; lia.
  - exists m. split; [lia|done].
Qed.
End proc_facts.

(** ** Properties *)


(** [C7] wait reaps exactly the zombie children: if the caller has one, its
    pid is returned, its slot is free again, its kernel stack and its page
    directory are given back and nothing else is; without children, or when
    the caller was killed, wait returns -1 and changes nothing; otherwise
    the caller sleeps on its own process structure, which is where exit of
    a child will wake it.  wait never panics. *)
Theorem wait_spec {E} `{!ProcEnv E} v (s : pstate E) c p :
  ps_ok v s → ncli (ps_cpu s) = 0 → curproc s = Some c → procs s !! c = Some p → p_state p = RUNNING →
  wait_result v c p (procs s) (wait s) s.
Proof. apply wait_run. Qed.

(** exit of a process other than init switches away as a zombie with
    its pid; every child now belongs to init and none to the zombie; and a
    parent asleep in wait has been woken.  Its files are closed and its
    directory is left; its kernel stack and page directory are still there
    for wait to free.  The table invariant survives, so every zombie has a
    live parent to reap it. *)
Theorem exit_spec {E} `{!ProcEnv E} {A} v (s : pstate E) c p i :
  ps_ok v s → ncli (ps_cpu s) = 0 → curproc s = Some c → procs s !! c = Some p →
  p_state p = RUNNING → initproc s = Some i → i ≠ c →
  wsw (A:=A) exit (λ s', pt_inv (procs s') (initproc s') (nextpid s') (curproc s') ∧
                         exited c i p (procs s) (procs s') ∧
                         pe_rel (penv s') (closed p v) ∧ res_ok (procs s') (closed p v)) s.
Proof. intros. eapply wsw_exit; [done..|]. by intros s' ? ? ? ?. Qed.

(** [C8] The scheduler is fair: a process that stays RUNNABLE is switched to
    within NPROC switches, whatever ran in between left the other processes
    in; it is the running process then.  The scheduler runs from its
    beginning, and from behind each swtch when a process gives the CPU back
    with the table locked; between two of its switches it needs at most two
    rounds over the table. *)
Theorem scheduler_fair {E} `{!ProcEnv E} fuel (ss : nat → pstate E) i :
  (0 < fuel)%nat → (∀ n, sched_ready (sched_ctx fuel ss n) (ss n)) →
  (∀ n, ∃ p, procs (ss n) !! i = Some p ∧ p_state p = RUNNABLE) →
  ∃ n, (n < NPROC)%nat ∧ ∃ s', scheduler fuel (sched_ctx fuel ss n) (ss n) = Ret i s' ∧ switched i s'.
Proof.
  intros Hfu Hs Hi. destruct (Hi 0%nat) as (p & Hp & _). pose proof (lookup_lt_Some _ _ _ Hp) as Hlt.
  destruct (Hs 0%nat) as [(v & _ & Hlen & _) _]. rewrite Hlen in Hlt.
  destruct (sched_reach fuel ss i (S i) 0 Hfu Hs Hi) as (m & Hm & H); [done|]. exists m. split; [lia|done].
Qed.

(** kill marks the process with the given pid and wakes it if it
    sleeps, and keeps the table invariant; with no such pid it returns -1
    and changes nothing. *)
Theorem kill_spec {E} `{!ProcEnv E} v (s : pstate E) pid :
  ps_ok v s →
  wp (kill pid) (λ r s', ps_ok v s' ∧
    ((r = 0 ∧ ∃ i p, procs s !! i = Some p ∧ p_pid p = pid ∧
                     procs s' = <[i := killed_proc p]> (procs s)) ∨
     (r = -1 ∧ procs s' = procs s ∧ ∀ i p, procs s !! i = Some p → p_pid p ≠ pid))) s.
Proof.
  intros Hok. eapply wp_kill; [done| |].
  - intros s' i p Hi Hp Hok' Hps. split; [done|]. left. eauto 10.
  - intros s' Hn Hok' Hps. split; [done|]. by right.
Qed.

(** ** Witnesses: a kernel that is its own view *)

Definition freshZ (X : gset Z) : Z := fresh ({[0]} ∪ X).
Lemma freshZ_spec X : freshZ X ≠ 0 ∧ freshZ X ∉ X.
Proof. pose proof (is_fresh ({[0]} ∪ X)) as H. unfold freshZ. split; [intros E|]; set_solver. Qed.

Definition guard {A} (P : Prop) `{!Decision P} (a : A) (f : kview → kview) : M kview A := λ v,
  if decide P then Ret a (f v) else Panic "env".

#[local] Instance env0 : ProcEnv kview.
Proof.
  refine {|
    pe_kalloc := λ v, let a := freshZ (kv_pages v) in Ret a (kvs_pages ({[a]} ∪ kv_pages v) v);
    pe_kfree a := λ v, guard (a ∈ kv_pages v) tt (kvs_pages (kv_pages v ∖ {[a]})) v;
    pe_setupkvm := mret 8192; pe_inituvm _ := mret tt;
    pe_copyuvm d z := λ v, match kv_dirs v !! d with
      | Some x => let d' := freshZ (dom (kv_dirs v)) in Ret d' (kvs_dirs (<[d' := x]> (kv_dirs v)) v)
      | None => Panic "copyuvm"
      end;
    pe_freevm d := λ v, guard (is_Some (kv_dirs v !! d)) tt (kvs_dirs (delete d (kv_dirs v))) v;
    pe_allocuvm _ _ n := mret n; pe_deallocuvm _ _ n := mret n;
    pe_switchuvm d := λ v, guard (is_Some (kv_dirs v !! d)) tt id v; pe_switchkvm := mret tt;
    pe_filedup f := λ v, guard (f ∈ kv_files v) f (kvs_files (kv_files v ⊎ {[+ f +]})) v;
    pe_fileclose f := λ v, guard (f ∈ kv_files v) tt (kvs_files (kv_files v ∖ {[+ f +]})) v;
    pe_idup i := λ v, guard (i ∈ kv_inodes v) i (kvs_inodes (kv_inodes v ⊎ {[+ i +]})) v;
    pe_iput i := λ v, guard (i ∈ kv_inodes v) tt (kvs_inodes (kv_inodes v ∖ {[+ i +]})) v;
    pe_namei_root := mret 1;
    pe_begin_op := λ v, Ret tt (kvs_ops (S (kv_ops v)) v); pe_end_op := λ v, Ret tt (kvs_ops (pred (kv_ops v)) v);
    pe_iinit_initlog := mret tt; pe_forkret := 100; pe_trapret := 200;
    pe_rel v w := v = w;
  |}.
  - intros v ? <-. destruct (freshZ_spec (kv_pages v)). by right.
  - intros a v ? <- Ha. unfold wp, guard. by rewrite decide_True.
  - intros d z img v ? <- Hd. unfold wp. rewrite Hd. destruct (freshZ_spec (dom (kv_dirs v))) as [H1 H2].
    right. split_and!; [done|by apply not_elem_of_dom|done].
  - intros d v ? <- Hd. unfold wp, guard. by rewrite decide_True.
  - intros d v ? <- Hd. unfold wp, guard. by rewrite decide_True.
  - by intros v ? <-.
  - intros f v ? <- Hf. unfold wp, guard. by rewrite decide_True.
  - intros f v ? <- Hf. unfold wp, guard. by rewrite decide_True.
  - intros f v ? <- Hf. unfold wp, guard. by rewrite decide_True.
  - intros f v ? <- Hf _. unfold wp, guard. by rewrite decide_True.
  - by intros v ? <-.
  - by intros v ? <- _.
Defined.

Definition slot0 : proc :=
  mkProc 0 0 0 UNUSED 0 None tf_zero (mkCtx 0 0 0 0 0) 0 0 0 (replicate NOFILE 0) 0 (replicate 16 0) 0.
(** A process with a kernel stack, a page directory and a directory. *)
Definition proc0 (n : Z) (x : procstate) (parent : option nat) (files : list Z) (cwd : Z) : proc :=
  mkProc 4096 (8192 * n) (4096 * n) x n parent tf_zero (mkCtx 0 0 0 0 0) 0 0 0 files cwd (replicate 16 0) 0.
Definition init0 : proc := proc0 1 SLEEPING None (replicate NOFILE 0) 1.
Definition run0 : proc := proc0 2 RUNNING (Some 0%nat) ([5; 5; 6] ++ replicate 13 0) 1.
Definition zomb0 : proc := proc0 3 ZOMBIE (Some 1%nat) (replicate NOFILE 0) 0.

(** init sleeps, process 1 runs and has a zombie child in slot 2. *)
Definition ptab0 : list proc := [init0; run0; zomb0] ++ replicate 61 slot0.
Definition view0 : kview :=
  mkKv {[4096; 8192; 12288]} {[ 8192 := (4096, λ _, 0); 16384 := (4096, λ a, a); 24576 := (4096, λ _, 0) ]}
    {[+ 5; 5; 6 +]} {[+ 1; 1 +]} 0.
Definition pst0 : pstate kview := mkPs cpu0 lock0 ptab0 (Some 0%nat) 4 (Some 1%nat) view0.

(** ptab0 has four kinds of slots. *)
Lemma ptab0_cases i p :
  ptab0 !! i = Some p →
  (i = 0%nat ∧ p = init0) ∨ (i = 1%nat ∧ p = run0) ∨ (i = 2%nat ∧ p = zomb0) ∨ ((3 ≤ i)%nat ∧ p = slot0).
Proof.
  unfold ptab0. destruct i as [|[|[|i]]]; [cbn; naive_solver..|].
  intros H. right; right; right. split; [lia|].
  change (replicate 61 slot0 !! i = Some p) in H. by apply lookup_replicate_1 in H as [-> _].
Qed.

Ltac slot_cases H :=
  apply ptab0_cases in H as [(-> & ->)|[(-> & ->)|[(-> & ->)|(? & ->)]]].

Lemma ptab0_inv : pt_inv ptab0 (Some 0%nat) 4 (Some 1%nat).
Proof.
  split.
  - reflexivity.
  - done.
  - intros i p H. by slot_cases H.
  - intros i j p q H H2. slot_cases H; slot_cases H2; simpl; intros; done || congruence.
  - intros i p H. by slot_cases H.
  - intros i p H. by slot_cases H.
  - intros i p k H Hk. slot_cases H; simpl in Hk; simplify_eq.
    + exists init0. split; [done|by left].
    + exists run0. split; [done|by right; right].
  - intros i p H H1 H2 H3. slot_cases H; simpl in *; done || by eexists.
  - intros i [= <-]. exists init0. split; [done|by left].
  - intros i p H Hs. by slot_cases H.
Qed.

Lemma ptab0_res : res_ok ptab0 view0.
Proof.
  assert (¬ owned slot0) as Hn by (intros [[|[|]]|]; done).
  split.
  - intros i p H Ho. slot_cases H; try done; unfold view0; cbn [kv_pages p_kstack init0 run0 zomb0 proc0]; set_solver.
  - intros i p H Ho. slot_cases H; try done; eexists; reflexivity.
  - intros i j p q H H2 Ho Ho' Hij. slot_cases H; slot_cases H2; done.
  - apply (bool_decide_unpack _). vm_compute. exact I.
  - apply (bool_decide_unpack _). vm_compute. exact I.
  - intros i p H. by slot_cases H.
  - intros i p H Hl. slot_cases H; try done; [by apply live_states in Hl as (_ & _ & ?)|by apply live_states in Hl as [? _]].
  - intros i p H Hs. slot_cases H; try done; by destruct Hs.
  - intros i p H Hs. by slot_cases H.
Qed.

Lemma pst0_ok : ps_ok view0 pst0.
Proof. split; [apply ptab0_inv|]. split; [done|]. split; [done|apply ptab0_res]. Qed.

(** kill(0) succeeds on a free slot, since free slots have pid 0, and
    the mark stays: allocproc does not clear [killed], so the next process
    created in that slot is born killed. *)
Theorem kill_zero_born_killed :
  wp (kill 0 ;; fork) (λ r s', r = 4 ∧ ∃ p, procs s' !! 3%nat = Some p ∧
        p_pid p = 4 ∧ p_state p = RUNNABLE ∧ p_killed p = 1) pst0.
Proof. vm_compute. split; [reflexivity|]. eexists. split_and!; reflexivity. Qed.


Lemma wait_spec_witness :
  wait_result view0 1 run0 ptab0 (wait pst0) pst0.
Proof. exact (wait_spec view0 pst0 1%nat run0 pst0_ok eq_refl eq_refl eq_refl eq_refl). Defined.

Lemma exit_spec_witness :
  wsw (A:=unit) exit (λ s', exited 1 0 run0 ptab0 (procs s') ∧ penv s' = closed run0 view0) pst0.
Proof.
  pose proof (exit_spec (A:=unit) view0 pst0 1%nat run0 0%nat pst0_ok eq_refl eq_refl eq_refl eq_refl
                eq_refl ltac:(discriminate)) as H.
  eapply wsw_mono; [exact H|]. intros s' (_ & Hs & Hv & _). by split.
Defined.

(** Slot 1 runs and gives the CPU back RUNNABLE, slot 0 was woken: the
    scheduler starts, and takes them in turn. *)
Definition ptab1 : list proc := [w_state RUNNABLE init0; w_state RUNNABLE run0; zomb0] ++ replicate 61 slot0.
Definition ready0 : pstate kview := mkPs cpu0 lock0 ptab1 (Some 0%nat) 4 None view0.
Definition ready1 (n : nat) : pstate kview := match n with O => ready0 | S _ => acquired pcpu ptlk ready0 end.

Lemma ptab1_res : res_ok ptab1 view0.
Proof.
  assert (∀ p, live p → keeps p (w_state RUNNABLE p)) as Hk.
  { intros p Hl. split; try done. split; [intros _; right; by left|done]. }
  eapply res_keeps; [apply ptab0_res|]. unfold ptab1, ptab0.
  apply Forall2_app; [|apply Forall_Forall2_diag, Forall_true, keeps_refl].
  apply Forall2_cons; split; [apply Hk; by left|]. apply Forall2_cons; split; [apply Hk; by right; right|].
  apply Forall2_cons; split; [apply keeps_refl|apply Forall2_nil_2].
Qed.

Lemma ready1_ok n : sched_ok (ready1 n).
Proof. exists view0. destruct n; (split; [done|split; [done|apply ptab1_res]]). Qed.

Lemma scheduler_fair_witness :
  ∃ n, (n < NPROC)%nat ∧ ∃ s', scheduler 1 (sched_ctx 1 ready1 n) (ready1 n) = Ret 1%nat s' ∧ switched 1 s'.
Proof.
  apply (scheduler_fair 1 ready1 1%nat).
  - lia.
  - assert (∀ n, sched_ctx 1 ready1 n = match n with O => SchedStart | S n => SchedAfter (if Nat.even n then 0 else 1)%nat end) as Hc.
    { intros [|n]; [done|]. induction n as [|n IH]; [by vm_compute|].
      change (sched_ctx 1 ready1 (S (S n))) with
        (match scheduler 1 (sched_ctx 1 ready1 (S n)) (ready1 (S n)) with Ret j _ => SchedAfter j | _ => SchedStart end).
      rewrite IH, Nat.even_succ, <- Nat.negb_even. destruct (Nat.even n); by vm_compute. }
    intros n. split; [apply ready1_ok|]. rewrite Hc. destruct n as [|n]; [split; [split; [done|apply cpu0_ok]|done]|].
    split; [destruct (Nat.even n); unfold NPROC; lia|]. exists ready0.
    split; [split; [split; [done|apply cpu0_ok]|done]|done].
  - intros [|n]; exists (w_state RUNNABLE run0); by split.
Defined.

Lemma kill_spec_witness :
  wp (kill 2) (λ r s', r = 0 ∧ ∃ p, procs s' !! 1%nat = Some p ∧ p_killed p = 1) pst0.
Proof.
  pose proof (kill_spec view0 pst0 2 pst0_ok) as H. eapply wp_mono; [exact H|].
  intros r s' [_ [(-> & i & p & Hi & Hp & ->)|(_ & _ & Hn)]].
  - split; [done|]. apply ptab0_cases in Hi as [(-> & ->)|[(-> & ->)|[(-> & ->)|(_ & ->)]]]; try done.
    exists (killed_proc run0). done.
  - exfalso. by apply (Hn 1%nat run0).
Defined.
