(* ===== verification/Exec.v ===== *)
(** * Loading a program (xv6/exec.c, xv6/elf.h)

    exec on the process table; what it calls in fs.c, log.c and vm.c is the
    interface [ExecEnv].  A path and an argument are lists of bytes without
    their NUL; [argv] ends where the array has its null pointer.  The local
    variables elf and ph are uninitialised before readi fills them: what the
    stack holds there is an argument.

    The laws of [ExecEnv] are about calls that have returned, or have ended
    in a panic of fs.c, log.c or bio.c on a full table or disk
    ([low_panic]), and about files that are not devices.  When kalloc has no
    page left for a page table inside allocuvm, mappages fails and allocuvm
    reports success all the same (vm.c:240, [Vm.allocuvm_unmapped]): the law
    of allocuvm then says nothing, and it only speaks of views with
    [xv_tables].  uva2ka reads a page table entry without asking whether the
    page table is there: the law of copyout only speaks of addresses that
    have one.  The view [xview] says what the calls do to the open
    transaction, the inodes and the user address spaces; [exec_spec] then
    says that a failed exec leaves all of them and the process as they were,
    and that a successful one has replaced the address space by the image
    the file describes with the arguments on its stack. *)

From S2P Require Import Prelude Kernel Spinlock Block Kalloc Proc.
From stdpp Require Import gmap gmultiset list.
Local Open Scope Z_scope.

(** ** What exec uses of the rest of the kernel *)

(** A user address space: its memory, its size (the pages up to it are
    mapped, no other user page is), and the pages the program may not touch. *)
Record uspace := mkUs {
  us_mem : Z → Z;
  us_size : Z;
  us_guard : gset Z;
}.

(** The open transaction, the references and locks on inodes, the directory
    tree as seen from a working directory, the files, the address space of
    every page directory, and whether pages are left for the page tables of
    a new address space. *)
Record xview := mkXv {
  xv_tx : bool;
  xv_refs : gmultiset nat;
  xv_locked : gset nat;
  xv_tree : Z → list Z → option nat;
  xv_file : nat → option (list Z);
  xv_dirs : gmap Z uspace;
  xv_tables : bool;
}.

Definition xv_settx (b : bool) (v : xview) : xview :=
  mkXv b (xv_refs v) (xv_locked v) (xv_tree v) (xv_file v) (xv_dirs v) (xv_tables v).
Definition xv_ref (ip : nat) (v : xview) : xview :=
  mkXv (xv_tx v) ({[+ ip +]} ⊎ xv_refs v) (xv_locked v) (xv_tree v) (xv_file v) (xv_dirs v) (xv_tables v).
Definition xv_lock (ip : nat) (v : xview) : xview :=
  mkXv (xv_tx v) (xv_refs v) ({[ip]} ∪ xv_locked v) (xv_tree v) (xv_file v) (xv_dirs v) (xv_tables v).
Definition xv_put (ip : nat) (v : xview) : xview :=
  mkXv (xv_tx v) (xv_refs v ∖ {[+ ip +]}) (xv_locked v ∖ {[ip]}) (xv_tree v) (xv_file v) (xv_dirs v) (xv_tables v).
Definition xv_setdirs (ds : gmap Z uspace) (v : xview) : xview :=
  mkXv (xv_tx v) (xv_refs v) (xv_locked v) (xv_tree v) (xv_file v) ds (xv_tables v).

(** [bs] written at [a]. *)
Definition wmem (m : Z → Z) (a : Z) (bs : list Z) : Z → Z :=
  λ x, if (a <=? x) && (x <? a + Z.of_nat (length bs)) then default 0 (bs !! Z.to_nat (x - a)) else m x.

(** Zeroes from [a] to [b]. *)
Definition zmem (m : Z → Z) (a b : Z) : Z → Z := λ x, if (a <=? x) && (x <? b) then 0 else m x.

Definition us_grow (old new : Z) (u : uspace) : uspace :=
  mkUs (zmem (us_mem u) (PGROUNDUP old) (PGROUNDUP new)) (Z.max old new) (us_guard u).
Definition us_write (a : Z) (bs : list Z) (u : uspace) : uspace :=
  mkUs (wmem (us_mem u) a bs) (us_size u) (us_guard u).
Definition us_close (a : Z) (u : uspace) : uspace :=
  mkUs (us_mem u) (us_size u) ({[a / PGSIZE]} ∪ us_guard u).

(** User memory the kernel can write through the page table from [a] on. *)
Definition us_open (u : uspace) (a : Z) (n : Z) : Prop :=
  a + n ≤ PGROUNDUP (us_size u) ∧ ∀ x, a ≤ x < a + n → x / PGSIZE ∉ us_guard u.

(** [n] bytes at [a] of the program, or a place among the devices: copyout
    finds a page table for every address it looks at. *)
Definition has_table (u : uspace) (a n : Z) : Prop := 0 ≤ a ∧ a + n ≤ us_size u ∨ DEVSPACE ≤ a.

Class ExecEnv (E : Type) := {
  xe_begin_op : M E unit;
  xe_end_op : M E unit;
  xe_namei : Z → list Z → M E (option nat);            (* proc->cwd, path *)
  xe_ilock : nat → M E unit;
  xe_iunlockput : nat → M E unit;
  xe_readi : nat → Z → Z → M E (list Z * Z);           (* bytes copied, result *)
  xe_setupkvm : M E Z;
  xe_allocuvm : Z → Z → Z → M E Z;
  xe_loaduvm : Z → Z → nat → Z → Z → M E Z;
  xe_clearpteu : Z → Z → M E unit;
  xe_copyout : Z → Z → list Z → M E Z;
  xe_freevm : Z → M E unit;
  xe_switchuvm : Z → M E unit;
  xe_rel : E → xview → Prop;

  xe_begin_op_law e v (Q : unit → E → Prop) : xe_rel e v → xv_tx v = false → xv_locked v = ∅ →
    (∀ e', xe_rel e' (xv_settx true v) → Q tt e') → wpe xe_begin_op Q low_panic e;
  xe_end_op_law e v (Q : unit → E → Prop) : xe_rel e v → xv_tx v = true → xv_locked v = ∅ →
    (∀ e', xe_rel e' (xv_settx false v) → Q tt e') → wpe xe_end_op Q low_panic e;
  xe_namei_law e v cwd path (Q : option nat → E → Prop) : xe_rel e v → xv_tx v = true → xv_locked v = ∅ →
    (∀ e', xv_tree v cwd path = None → xe_rel e' v → Q None e') →
    (∀ ip e', xv_tree v cwd path = Some ip → xe_rel e' (xv_ref ip v) → Q (Some ip) e') →
    wpe (xe_namei cwd path) Q low_panic e;
  xe_ilock_law e v ip (Q : unit → E → Prop) : xe_rel e v → ip ∈ xv_refs v → ip ∉ xv_locked v →
    (∀ e', xe_rel e' (xv_lock ip v) → Q tt e') → wpe (xe_ilock ip) Q low_panic e;
  xe_iunlockput_law e v ip (Q : unit → E → Prop) : xe_rel e v → xv_tx v = true → ip ∈ xv_refs v →
    ip ∈ xv_locked v → (∀ e', xe_rel e' (xv_put ip v) → Q tt e') → wpe (xe_iunlockput ip) Q low_panic e;
  xe_readi_law e v ip f off n (Q : list Z * Z → E → Prop) : xe_rel e v → ip ∈ xv_locked v →
    xv_file v ip = Some f → (∀ e', xe_rel e' v → Q (file_read f off n) e') → wpe (xe_readi ip off n) Q low_panic e;
  xe_setupkvm_law e v (Q : Z → E → Prop) : xe_rel e v → (∀ e', xe_rel e' v → Q 0 e') →
    (∀ d m e', d ≠ 0 → xv_dirs v !! d = None →
       xe_rel e' (xv_setdirs (<[d := mkUs m 0 ∅]> (xv_dirs v)) v) → Q d e') →
    wp xe_setupkvm Q e;
  xe_allocuvm_law e v d u old new (Q : Z → E → Prop) : xe_rel e v → xv_dirs v !! d = Some u →
    PGROUNDUP (us_size u) = PGROUNDUP old → 0 ≤ new → xv_tables v = true →
    (∀ u' e', xe_rel e' (xv_setdirs (<[d := u']> (xv_dirs v)) v) → Q 0 e') →
    (∀ e', new < KERNBASE →
       xe_rel e' (xv_setdirs (<[d := us_grow old new u]> (xv_dirs v)) v) → Q (Z.max old new) e') →
    wp (xe_allocuvm d old new) Q e;
  xe_loaduvm_law e v d u va ip f off sz (Q : Z → E → Prop) :
    xe_rel e v → xv_dirs v !! d = Some u → ip ∈ xv_locked v → xv_file v ip = Some f →
    va mod PGSIZE = 0 → 0 ≤ va → 0 ≤ sz → va + sz ≤ us_size u →
    (∀ u' e', xe_rel e' (xv_setdirs (<[d := u']> (xv_dirs v)) v) → Q (-1) e') →
    (∀ e', sz = 0 ∨ off + sz ≤ Z.of_nat (length f) →
       xe_rel e' (xv_setdirs
         (<[d := us_write va (getbytes (Z.to_nat off) (Z.to_nat sz) f) u]> (xv_dirs v)) v) → Q 0 e') →
    wpe (xe_loaduvm d va ip off sz) Q low_panic e;
  xe_clearpteu_law e v d u va (Q : unit → E → Prop) : xe_rel e v → xv_dirs v !! d = Some u →
    0 ≤ va < us_size u →
    (∀ e', xe_rel e' (xv_setdirs (<[d := us_close va u]> (xv_dirs v)) v) → Q tt e') →
    wp (xe_clearpteu d va) Q e;
  xe_copyout_law e v d u va bs (Q : Z → E → Prop) : xe_rel e v → xv_dirs v !! d = Some u →
    has_table u va (Z.of_nat (length bs)) → bs ≠ [] →
    (∀ u' e', xe_rel e' (xv_setdirs (<[d := u']> (xv_dirs v)) v) → Q (-1) e') →
    (∀ e', us_open u va (Z.of_nat (length bs)) →
       xe_rel e' (xv_setdirs (<[d := us_write va bs u]> (xv_dirs v)) v) → Q 0 e') →
    wp (xe_copyout d va bs) Q e;
  xe_freevm_law e v d u (Q : unit → E → Prop) : xe_rel e v → xv_dirs v !! d = Some u →
    (∀ e', xe_rel e' (xv_setdirs (delete d (xv_dirs v)) v) → Q tt e') → wp (xe_freevm d) Q e;
  xe_switchuvm_law e v d u (Q : unit → E → Prop) : xe_rel e v → xv_dirs v !! d = Some u → d ≠ 0 →
    (∀ e', xe_rel e' v → Q tt e') → wp (xe_switchuvm d) Q e;
}.

(** ** elf.h *)

Definition ELF_MAGIC : Z := 1179403647.
Definition ELF_PROG_LOAD : Z := 1.
Definition SIZEOF_ELFHDR : Z := 52.
Definition SIZEOF_PROGHDR : Z := 32.

Definition elf_magic (b : list Z) : Z := getw 0 b.
Definition elf_entry (b : list Z) : Z := getw 24 b.
Definition elf_phoff (b : list Z) : Z := getw 28 b.
Definition elf_phnum (b : list Z) : Z := geth 44 b.

Definition ph_type (b : list Z) : Z := getw 0 b.
Definition ph_off (b : list Z) : Z := getw 4 b.
Definition ph_vaddr (b : list Z) : Z := getw 8 b.
Definition ph_filesz (b : list Z) : Z := getw 16 b.
Definition ph_memsz (b : list Z) : Z := getw 20 b.

(** ** exec.c *)

Section exec.
Context {E : Type} `{!ExecEnv E}.
Abbreviation st := (pstate E).

(** The label bad. *)
Definition bad (pgdir : Z) (ip : option nat) : M st Z :=
  (if negb (pgdir =? 0) then env (xe_freevm pgdir) else mret tt) ;;
  (match ip with
   | Some ip => env (xe_iunlockput ip) ;; env xe_end_op
   | None => mret tt
   end) ;;
  mret (-1).

(** The loop over the program headers: [n] of them are left, sz is the size
    so far; [None] is a jump to bad. *)
Fixpoint load_segments (n : nat) (pgdir : Z) (ip : nat) (ph : list Z) (off sz : Z) : M st (option Z) :=
  match n with
  | O => mret (Some sz)
  | S n =>
      '(bs, r) ← env (xe_readi ip (u32 off) SIZEOF_PROGHDR);
      let ph := putbytes 0 bs ph in
      if negb (u32 r =? SIZEOF_PROGHDR) then mret None else
      if negb (ph_type ph =? ELF_PROG_LOAD) then load_segments n pgdir ip ph (i32 (off + SIZEOF_PROGHDR)) sz else
      if ph_memsz ph <? ph_filesz ph then mret None else
      sz ← env (xe_allocuvm pgdir sz (u32 (ph_vaddr ph + ph_memsz ph)));
      if u32 sz =? 0 then mret None else
      r ← env (xe_loaduvm pgdir (ph_vaddr ph) ip (ph_off ph) (ph_filesz ph));
      if r <? 0 then mret None else
      load_segments n pgdir ip ph (i32 (off + SIZEOF_PROGHDR)) (u32 sz)
  end.

(** The loop over the arguments: the stack pointer and the addresses of the
    strings pushed so far. *)
Fixpoint push_args (pgdir : Z) (argv : list (list Z)) (argc : nat) (sp : Z) (ptrs : list Z) :
    M st (option (Z * list Z)) :=
  match argv with
  | [] => mret (Some (sp, ptrs))
  | a :: argv =>
      if (MAXARG <=? argc)%nat then mret None else
      let sp := Z.land (u32 (sp - (Z.of_nat (length a) + 1))) (Z.lnot 3) in
      r ← env (xe_copyout pgdir sp (a ++ [0]));
      if r <? 0 then mret None else
      push_args pgdir argv (S argc) sp (ptrs ++ [sp])
  end.

(** The part of the path after the last slash. *)
Fixpoint last_name (s last : list Z) : list Z :=
  match s with
  | [] => last
  | c :: s => last_name s (if c =? 47 then s else last)
  end.

Definition words (l : list Z) : list Z := concat (to_le32 <$> l).

Definition set_entry (eip esp : Z) (t : trapframe) : trapframe :=
  mkTf (tf_edi t) (tf_esi t) (tf_ebp t) (tf_oesp t) (tf_ebx t) (tf_edx t) (tf_ecx t) (tf_eax t)
    (tf_gs t) (tf_fs t) (tf_es t) (tf_ds t) (tf_trapno t)
    (tf_err t) eip (tf_cs t) (tf_eflags t) esp (tf_ss t).

(** After the program is in memory and its inode is released. *)
Definition exec_stack (c : nat) (path : list Z) (argv : list (list Z)) (pgdir entry sz : Z) : M st Z :=
  let sz := PGROUNDUP sz in
  sz ← env (xe_allocuvm pgdir sz (u32 (sz + 2 * PGSIZE)));
  let sz := u32 sz in
  if sz =? 0 then bad pgdir None else
  env (xe_clearpteu pgdir (u32 (sz - 2 * PGSIZE))) ;;
  o ← push_args pgdir argv 0 sz [];
  match o with
  | None => bad pgdir None
  | Some (sp, ptrs) =>
      let argc := Z.of_nat (length argv) in
      let ustack := [4294967295; argc; u32 (sp - (argc + 1) * 4)] ++ ptrs ++ [0] in
      let sp := u32 (sp - (3 + argc + 1) * 4) in
      r ← env (xe_copyout pgdir sp (words ustack));
      if r <? 0 then bad pgdir None else
      updp c (λ p, w_name (safestr (p_name p) (last_name path path) 16) p) ;;
      p ← getp c;
      let oldpgdir := p_pgdir p in
      updp c (w_pgdir pgdir) ;;
      updp c (w_sz sz) ;;
      updp c (λ p, w_tf (set_entry entry sp (p_tf p)) p) ;;
      env (xe_switchuvm pgdir) ;;
      env (xe_freevm oldpgdir) ;;
      mret 0
  end.

(** [elf] and [ph] are the uninitialised local variables. *)
Definition exec (elf ph path : list Z) (argv : list (list Z)) : M st Z :=
  env xe_begin_op ;;
  c ← myproc;
  p ← getp c;
  o ← env (xe_namei (p_cwd p) path);
  match o with
  | None => env xe_end_op ;; mret (-1)
  | Some ip =>
      env (xe_ilock ip) ;;
      '(bs, r) ← env (xe_readi ip 0 SIZEOF_ELFHDR);
      let elf := putbytes 0 bs elf in
      if u32 r <? SIZEOF_ELFHDR then bad 0 (Some ip) else
      if negb (elf_magic elf =? ELF_MAGIC) then bad 0 (Some ip) else
      pgdir ← env xe_setupkvm;
      if pgdir =? 0 then bad 0 (Some ip) else
      o ← load_segments (Z.to_nat (elf_phnum elf)) pgdir ip ph (i32 (elf_phoff elf)) 0;
      match o with
      | None => bad pgdir (Some ip)
      | Some sz =>
          env (xe_iunlockput ip) ;;
          env xe_end_op ;;
          exec_stack c path argv pgdir (elf_entry elf) sz
      end
  end.
End exec.

(** ** What a program file means *)

(** The program headers up to the first one that is not all in the file, and
    whether there was none. *)
Fixpoint headers (f : list Z) (n : nat) (off : Z) : list (list Z) * bool :=
  match n with
  | O => ([], true)
  | S n =>
      let '(bs, r) := file_read f (u32 off) SIZEOF_PROGHDR in
      if r =? SIZEOF_PROGHDR
      then let '(hs, ok) := headers f n (i32 (off + SIZEOF_PROGHDR)) in (bs :: hs, ok)
      else ([], false)
  end.

Definition is_load (h : list Z) : bool := ph_type h =? ELF_PROG_LOAD.
Definition prog_headers (f : list Z) : list (list Z) * bool :=
  headers f (Z.to_nat (elf_phnum f)) (i32 (elf_phoff f)).
Definition segments (f : list Z) : list (list Z) := List.filter is_load (prog_headers f).1.

Definition seg_end (h : list Z) : Z := ph_vaddr h + ph_memsz h.
Definition seg_load (f : list Z) (m : Z → Z) (h : list Z) : Z → Z :=
  wmem m (ph_vaddr h) (getbytes (Z.to_nat (ph_off h)) (Z.to_nat (ph_filesz h)) f).

(** The size and the memory of the program, from an empty address space. *)
Definition prog_size (hs : list (list Z)) (sz : Z) : Z := foldl (λ sz h, Z.max sz (seg_end h)) sz hs.
Definition prog_image (f : list Z) (hs : list (list Z)) (m : Z → Z) : Z → Z := foldl (seg_load f) m hs.

(** A segment exec does not check: it starts on a page and ends below 2^32. *)
Definition seg_safe (h : list Z) : Prop := ph_vaddr h mod PGSIZE = 0 ∧ seg_end h < 4294967296.

(** A segment exec accepts: the part in the file fits the one in memory, and
    is in the file. *)
Definition seg_fits (f h : list Z) : Prop :=
  ph_filesz h ≤ ph_memsz h ∧ (ph_filesz h = 0 ∨ ph_off h + ph_filesz h ≤ Z.of_nat (length f)).

(** [bs] is in memory at [a]. *)
Definition holds (m : Z → Z) (a : Z) (bs : list Z) : Prop :=
  ∀ i b, bs !! i = Some b → m (a + Z.of_nat i) = b.

(** The user stack of a fresh program: at esp the return address, argc, argv
    and the array argv points to; above it, within the last page, each
    argument with its NUL. *)
Record stack_ok (u : uspace) (esp : Z) (argv : list (list Z)) (ptrs : list Z) : Prop := {
  so_words : holds (us_mem u) esp
    (words ([4294967295; Z.of_nat (length argv); esp + 12] ++ ptrs ++ [0]));
  so_align : esp mod 4 = 0;
  so_page : us_size u - PGSIZE ≤ esp;
  so_args : Forall2 (λ p a, holds (us_mem u) p (a ++ [0]) ∧
     esp + 4 * (4 + Z.of_nat (length argv)) ≤ p ∧ p + Z.of_nat (length a) + 1 ≤ us_size u ∧ p mod 4 = 0) ptrs argv;
}.

(** What a successful exec has checked of the file, and the address space it
    has built from it. *)
Record loaded (f : list Z) (u : uspace) : Prop := {
  ld_header : SIZEOF_ELFHDR ≤ Z.of_nat (length f) ∧ elf_magic f = ELF_MAGIC;
  ld_headers : (prog_headers f).2 = true;
  ld_fits : Forall (seg_fits f) (segments f);
  ld_size : us_size u = PGROUNDUP (prog_size (segments f) 0) + 2 * PGSIZE;
  ld_user : us_size u < KERNBASE;
  ld_image x : 0 ≤ x < us_size u - 2 * PGSIZE → us_mem u x = prog_image f (segments f) (λ _, 0) x;
}.

(** ** Words of a file and of memory *)

Lemma land4 x : 0 ≤ x → Z.land x (Z.lnot 3) = x - x mod 4.
Proof.
  intros Hx. change 3 with (Z.ones 2). rewrite <- Z.ldiff_land, Z.ldiff_ones_r by lia.
  rewrite Z.shiftr_div_pow2, Z.shiftl_mul_pow2 by lia. change (2 ^ 2) with 4. zdm.
Qed.

Lemma words_length l : length (words l) = (4 * length l)%nat.
Proof.
  induction l as [|a l IH]; [done|]. change (words (a :: l)) with (to_le32 a ++ words l).
  rewrite length_app, IH. simpl. lia.
Qed.

(** ** Memory *)

Lemma wmem_out m a bs x : x < a ∨ a + Z.of_nat (length bs) ≤ x → wmem m a bs x = m x.
Proof. unfold wmem. intros H. case_if; [lia|done]. Qed.

Lemma wmem_holds m a bs : holds (wmem m a bs) a bs.
Proof.
  intros i b H. pose proof (lookup_lt_Some _ _ _ H). unfold wmem.
  rewrite (proj2 (Z.leb_le _ _)), (proj2 (Z.ltb_lt _ _)) by lia. simpl.
  replace (Z.to_nat (a + Z.of_nat i - a)) with i by lia. by rewrite H.
Qed.

Lemma holds_mono m m' a bs :
  holds m a bs → (∀ x, a ≤ x < a + Z.of_nat (length bs) → m' x = m x) → holds m' a bs.
Proof.
  intros H Hm i b Hb. pose proof (lookup_lt_Some _ _ _ Hb). rewrite Hm by lia. by apply H.
Qed.

Lemma elf_read f bs r elf :
  file_read f 0 SIZEOF_ELFHDR = (bs, r) → SIZEOF_ELFHDR ≤ u32 r →
  SIZEOF_ELFHDR ≤ Z.of_nat (length f) ∧
  elf_magic (putbytes 0 bs elf) = elf_magic f ∧ elf_entry (putbytes 0 bs elf) = elf_entry f ∧
  elf_phoff (putbytes 0 bs elf) = elf_phoff f ∧ elf_phnum (putbytes 0 bs elf) = elf_phnum f.
Proof.
  unfold file_read, SIZEOF_ELFHDR. change (u32 (0 + 52) <? 0) with false.
  rewrite (proj2 (Z.ltb_ge _ _)) by lia. simpl orb. cbv iota. intros [= <- <-] H.
  change (Z.to_nat 0) with 0%nat in *. change (Z.to_nat 52) with 52%nat in *. rewrite drop_0 in *.
  rewrite length_take in H. rewrite u32_small in H by (unfold is_u32; lia).
  assert (length (take 52 f) = 52%nat) as Hl by (rewrite length_take; lia).
  split; [lia|]. unfold elf_magic, elf_entry, elf_phoff, elf_phnum, getw, geth.
  by rewrite !getbytes_putbytes0, !getbytes_take by lia.
Qed.

(** ** The segments *)

Record load_inv (img : Z → Z) (sz : Z) (u : uspace) : Prop := {
  li_size : us_size u = sz;
  li_range : 0 ≤ sz < KERNBASE;
  li_mem x : 0 ≤ x < PGROUNDUP sz → us_mem u x = img x;
  li_out x : sz ≤ x → img x = 0;
}.

Lemma bytes_fields h :
  Forall is_u8 h → is_u32 (ph_vaddr h) ∧ is_u32 (ph_memsz h) ∧ is_u32 (ph_filesz h) ∧ is_u32 (ph_off h).
Proof. intros H. split_and!; by apply getw_range. Qed.

Lemma load_inv_seg f img sz u h :
  Forall is_u8 h → load_inv img sz u → ph_filesz h ≤ ph_memsz h → seg_end h < KERNBASE →
  load_inv (seg_load f img h) (Z.max sz (seg_end h))
    (us_write (ph_vaddr h) (getbytes (Z.to_nat (ph_off h)) (Z.to_nat (ph_filesz h)) f)
       (us_grow sz (seg_end h) u)).
Proof.
  intros Hb [Hs Hr Hm Ho] Hf He. destruct (bytes_fields h Hb) as (V1 & V2 & V3 & V4).
  unfold is_u32, seg_end, KERNBASE in *.
  destruct (PGROUNDUP_spec sz) as [P1 P2]; [unfold PGSIZE; lia..|].
  destruct (PGROUNDUP_spec (ph_vaddr h + ph_memsz h)) as [P3 P4]; [unfold PGSIZE; lia..|].
  set (bs := getbytes _ _ f). assert (Z.of_nat (length bs) ≤ ph_filesz h) as Hl.
  { unfold bs, getbytes. rewrite length_take. lia. }
  split; [done|unfold KERNBASE; lia| |].
  - intros x Hx. unfold us_write, us_grow, seg_load. cbn [us_mem]. unfold wmem. fold bs. case_if; [done|].
    unfold zmem. case_if; [symmetry; apply Ho; lia|]. apply Hm. split; [lia|].
    destruct (Z.max_spec sz (ph_vaddr h + ph_memsz h)) as [[? E2]|[? E2]]; rewrite E2 in Hx; [|lia].
    apply andb_false_iff in E0. destruct E0; bool_facts; lia.
  - intros x Hx. unfold seg_load. rewrite wmem_out; [apply Ho; lia|]. fold bs. lia.
Qed.

(** ** The stack *)

(** A user stack of one page below sz, with a page nobody may touch below it. *)
Record stack_page (sz : Z) (u : uspace) : Prop := {
  sp_size : us_size u = sz;
  sp_align : sz mod PGSIZE = 0;
  sp_range : 2 * PGSIZE ≤ sz < KERNBASE;
  sp_guard : (sz - 2 * PGSIZE) / PGSIZE ∈ us_guard u;
}.

Lemma stack_page_write sz u a bs : stack_page sz u → stack_page sz (us_write a bs u).
Proof. by intros []. Qed.

(** What is written contiguously below the stack pointer stays in the page. *)
Lemma stack_lower sz u sp a n :
  stack_page sz u → sz - PGSIZE ≤ sp → 0 < n → sp - 4 < a + n ≤ sp → us_open u a n → sz - PGSIZE ≤ a.
Proof.
  intros [Hs Ha Hr Hg] H1 Hn H2 [_ Ho]. destruct (Z.le_gt_cases (sz - PGSIZE) a); [done|exfalso].
  apply (Ho (Z.min (a + n - 1) (sz - PGSIZE - 1))); [lia|].
  replace (_ / PGSIZE) with ((sz - 2 * PGSIZE) / PGSIZE); [done|]. unfold PGSIZE in *. zdm.
Qed.

(** After some arguments: where they are, and that nothing below the stack
    has changed since [u0]. *)
Record args_inv (sz : Z) (u0 u : uspace) (sp : Z) (ptrs : list Z) (args : list (list Z)) : Prop := {
  ai_page : stack_page sz u;
  ai_align : sp mod 4 = 0;
  ai_range : sz - PGSIZE ≤ sp ≤ sz;
  ai_below x : x < sz - PGSIZE → us_mem u x = us_mem u0 x;
  ai_args : Forall2 (λ p a, holds (us_mem u) p (a ++ [0]) ∧
     sp ≤ p ∧ p + Z.of_nat (length a) + 1 ≤ sz ∧ p mod 4 = 0) ptrs args;
}.

(** A write below the stack pointer keeps the arguments. *)
Lemma args_inv_write sz u0 u sp ptrs args sp' bs :
  args_inv sz u0 u sp ptrs args → sp' mod 4 = 0 → sz - PGSIZE ≤ sp' →
  sp' + Z.of_nat (length bs) ≤ sp → args_inv sz u0 (us_write sp' bs u) sp' ptrs args.
Proof.
  intros [Hp Ha Hr Hb Hargs] H1 H2 H3. split; [by apply stack_page_write|done|lia| |].
  - intros x Hx. simpl. rewrite wmem_out by lia. by apply Hb.
  - eapply Forall2_impl; [exact Hargs|]. intros p a (Hh & P1 & P2 & P3). split_and!; [|lia|lia|done].
    eapply holds_mono; [exact Hh|]. intros x Hx. simpl. apply wmem_out. lia.
Qed.

Lemma stack_page_top sz u : stack_page sz u → PGROUNDUP (us_size u) = sz.
Proof.
  intros [-> Ha Hr _]. unfold KERNBASE, PGSIZE in *.
  destruct (PGROUNDUP_spec sz) as [P1 P2]; [unfold PGSIZE; lia..|]. unfold PGSIZE in *. zdm.
Qed.

(** An argument goes below the stack pointer, or around among the devices. *)
Lemma push_table sz u0 u sp ptrs args a :
  args_inv sz u0 u sp ptrs args → Z.of_nat (length a) < 33554432 →
  has_table u (Z.land (u32 (sp - (Z.of_nat (length a) + 1))) (Z.lnot 3)) (Z.of_nat (length (a ++ [0]))).
Proof.
  intros [[Hs Hpa Hpr _] Ha Hr _ _] Hl. rewrite land4 by apply u32_range.
  rewrite length_app, Nat2Z.inj_add. simpl. unfold has_table, KERNBASE, PGSIZE, DEVSPACE in *.
  set (L := Z.of_nat (length a)) in *. assert (0 ≤ L) by lia.
  destruct (Z.le_gt_cases (L + 1) sp).
  - left. rewrite u32_small by (unfold is_u32; lia). rewrite Hs. clearbody L. zdm.
  - right. unfold u32. clearbody L.
    replace ((sp - (L + 1)) mod 4294967296) with (sp - (L + 1) + 4294967296) by zdm. zdm.
Qed.

Lemma args_inv_push sz u0 u sp ptrs args a :
  args_inv sz u0 u sp ptrs args → Z.of_nat (length a) < 33554432 →
  let sp' := Z.land (u32 (sp - (Z.of_nat (length a) + 1))) (Z.lnot 3) in
  us_open u sp' (Z.of_nat (length (a ++ [0]))) →
  args_inv sz u0 (us_write sp' (a ++ [0]) u) sp' (ptrs ++ [sp']) (args ++ [a]).
Proof.
  intros Hinv Hl sp' Ho. pose proof (u32_range (sp - (Z.of_nat (length a) + 1))) as Hu.
  unfold is_u32 in Hu. assert (sp' = _) as Hsp by (apply land4; lia).
  pose proof Hinv as [Hp Ha Hr Hb Hargs]. pose proof (stack_page_top _ _ Hp) as Htop.
  destruct Hp as [Hs Hpa Hpr Hg]. assert (stack_page sz u) as Hp by done.
  pose proof Ho as [Ho1 _]. rewrite Htop, length_app in Ho1. simpl in Ho1.
  assert (u32 (sp - (Z.of_nat (length a) + 1)) = sp - (Z.of_nat (length a) + 1)) as Eu.
  { destruct (Z.le_gt_cases (Z.of_nat (length a) + 1) sp).
    - apply u32_small. unfold is_u32, KERNBASE in *. lia.
    - exfalso. unfold u32, KERNBASE, PGSIZE in *. zdm. }
  rewrite Eu in Hsp. set (L := Z.of_nat (length a)) in *.
  assert (sp' mod 4 = 0) as H4 by zdm. assert (sp - 4 < sp' + (L + 1) ≤ sp) as Hw by zdm.
  assert (sz - PGSIZE ≤ sp') as Hlow.
  { apply (stack_lower sz u sp sp' (L + 1)); [done|lia|lia|done|].
    rewrite length_app in Ho. simpl in Ho. by replace (L + 1) with (Z.of_nat (length a + 1)) by lia. }
  destruct (args_inv_write sz u0 u sp ptrs args sp' (a ++ [0])) as [Q1 Q2 Q3 Q4 Q5];
    [done..|rewrite length_app; simpl; lia|]. split; [done..|]. apply Forall2_app; [done|].
  constructor; [|constructor]. split_and!; [apply wmem_holds|lia|lia|done].
Qed.

Lemma load_inv_0 m g : load_inv (λ _, 0) 0 (mkUs m 0 g).
Proof. split; [done|done| |done]. intros x Hx. change (PGROUNDUP 0) with 0 in Hx. lia. Qed.

Section exec_proof.
Context {E : Type} `{!ExecEnv E}.
Abbreviation st := (pstate E).
Implicit Types (s : st) (e : E) (v : xview).

Lemma envx {A} (m : M E A) (Q : A → st → Prop) e s :
  wp m (λ a e', Q a (set_penv e' s)) e → wp (env m) Q (set_penv e s).
Proof. unfold wp, env. simpl. by destruct (m e). Qed.

Lemma envxe {A} (m : M E A) (Q : A → st → Prop) (P : string → Prop) e s :
  wpe m (λ a e', Q a (set_penv e' s)) P e → wpe (env m) Q P (set_penv e s).
Proof. unfold wpe, env. simpl. by destruct (m e). Qed.

(** The view with the address space [u] for the directory [d]. *)
Definition xv_us (d : Z) (u : uspace) v : xview := xv_setdirs (<[d := u]> (xv_dirs v)) v.

Lemma xv_us_lookup d u v : xv_dirs (xv_us d u v) !! d = Some u.
Proof. apply lookup_insert_eq. Qed.

Lemma xv_us_again d u u' v :
  xv_setdirs (<[d := u']> (xv_dirs (xv_us d u v))) (xv_us d u v) = xv_us d u' v.
Proof. unfold xv_us, xv_setdirs. simpl. by rewrite insert_insert_eq. Qed.

Lemma ph_put bs ph : length bs = 32%nat →
  ph_type (putbytes 0 bs ph) = ph_type bs ∧ ph_off (putbytes 0 bs ph) = ph_off bs ∧
  ph_vaddr (putbytes 0 bs ph) = ph_vaddr bs ∧ ph_filesz (putbytes 0 bs ph) = ph_filesz bs ∧
  ph_memsz (putbytes 0 bs ph) = ph_memsz bs.
Proof.
  intros H. unfold ph_type, ph_off, ph_vaddr, ph_filesz, ph_memsz, getw.
  by rewrite !getbytes_putbytes0 by lia.
Qed.

(** The loop over the program headers builds the image of the segments. *)
Lemma wpe_load_segments f v d ip n : ∀ off ph img sz u e s (Q : option Z → st → Prop),
  Forall is_u8 f → ip ∈ xv_locked v → xv_file v ip = Some f → xv_tables v = true →
  xe_rel e (xv_us d u v) → load_inv img sz u →
  let hs := List.filter is_load (headers f n off).1 in
  Forall seg_safe hs →
  (∀ e' u', xe_rel e' (xv_us d u' v) → Q None (set_penv e' s)) →
  (∀ e' u', (headers f n off).2 = true → Forall (seg_fits f) hs →
     load_inv (prog_image f hs img) (prog_size hs sz) u' →
     xe_rel e' (xv_us d u' v) → Q (Some (prog_size hs sz)) (set_penv e' s)) →
  wpe (load_segments n d ip ph off sz) Q low_panic (set_penv e s).
Proof.
  induction n as [|n IH]; intros off ph img sz u e s Q Hf Hip Hfile Htab Hrel Hinv hs Hsafe HN HS; simpl.
  { apply wpe_wp, wp_ret. by apply (HS e u). }
  wstep. apply envxe. eapply xe_readi_law; [exact Hrel|exact Hip|exact Hfile|]. intros e1 Hr1.
  subst hs. cbn [headers] in *. destruct (file_read f (u32 off) SIZEOF_PROGHDR) as [bs r] eqn:Er.
  destruct (file_read_result f (u32 off) SIZEOF_PROGHDR bs r) as (Hr & _); [done..|]. rewrite Hr.
  destruct (Z.eqb_spec r SIZEOF_PROGHDR) as [->|Hne]; simpl; [|apply wp_ret; by apply (HN e1 u)].
  destruct (file_read_all f (u32 off) SIZEOF_PROGHDR bs) as [Hbs Hlen]; [done|apply u32_range|done|].
  assert (length bs = 32%nat) as Hbl.
  { rewrite Hbs. unfold getbytes. rewrite length_take, length_drop. unfold SIZEOF_PROGHDR in *.
    pose proof (u32_range off). unfold is_u32 in *. lia. }
  assert (Forall is_u8 bs) as Hb8 by (rewrite Hbs; by apply Forall_take, Forall_drop).
  destruct (ph_put bs ph Hbl) as (-> & -> & -> & -> & ->).
  specialize (IH (i32 (off + SIZEOF_PROGHDR)) (putbytes 0 bs ph)).
  destruct (headers f n (i32 (off + SIZEOF_PROGHDR))) as [hs ok]. simpl in *.
  unfold is_load in *.
  destruct (Z.eqb_spec (ph_type bs) ELF_PROG_LOAD) as [Ht|Ht]; simpl in *; [|by eapply IH].
  apply Forall_cons_1 in Hsafe as [[Hal Hend] Hsafe].
  destruct (bytes_fields bs Hb8) as (V1 & V2 & V3 & V4). unfold is_u32 in V1, V2, V3, V4.
  case_if; [apply wp_ret; by apply (HN e1 u)|].
  rewrite u32_small by (unfold is_u32, seg_end in *; lia). fold (seg_end bs).
  wstep. apply envxe, wpe_wp. eapply xe_allocuvm_law; [exact Hr1|apply xv_us_lookup|by rewrite (li_size _ _ _ Hinv)
    |unfold seg_end; lia|done| |].
  { intros u' e' He'. rewrite xv_us_again in He'. change (u32 0 =? 0) with true. apply wpe_wp, wp_ret. by apply (HN e' u'). }
  intros e2 Hk Hr2. rewrite xv_us_again in Hr2. destruct (li_range _ _ _ Hinv) as [Hz1 Hz2].
  rewrite u32_small by (unfold is_u32, KERNBASE in *; lia).
  case_if; [apply wp_ret; by eapply (HN e2)|].
  pose proof (load_inv_seg f img sz u bs Hb8 Hinv ltac:(lia) Hk) as Hinv'.
  wstep. apply envxe. eapply xe_loaduvm_law; [exact Hr2|apply xv_us_lookup|exact Hip|exact Hfile|exact Hal|lia|lia| | |].
  { unfold us_grow. simpl. unfold seg_end. lia. }
  { intros u' e' He'. rewrite xv_us_again in He'. apply wpe_wp, wp_ret. by apply (HN e' u'). }
  intros e3 Hfit Hr3. rewrite xv_us_again in Hr3. simpl.
  eapply IH; [done..|exact Hr3|exact Hinv'|done|done|].
  intros e4 u4 Hok Hfits. apply HS; [done|]. by constructor.
Qed.

Lemma wp_push_args v d sz u0 argv : ∀ argc sp ptrs args u e s (Q : option (Z * list Z) → st → Prop),
  Forall (λ a, Z.of_nat (length a) < 33554432) argv →
  xe_rel e (xv_us d u v) → args_inv sz u0 u sp ptrs args → length args = argc →
  (argc ≤ MAXARG)%nat →
  (∀ e' u', xe_rel e' (xv_us d u' v) → Q None (set_penv e' s)) →
  (∀ e' u' sp' ptrs', (argc + length argv ≤ MAXARG)%nat → xe_rel e' (xv_us d u' v) →
     args_inv sz u0 u' sp' ptrs' (args ++ argv) → Q (Some (sp', ptrs')) (set_penv e' s)) →
  wp (push_args d argv argc sp ptrs) Q (set_penv e s).
Proof.
  induction argv as [|a argv IH]; intros argc sp ptrs args u e s Q Hl Hrel Hinv Hc Hm HN HS; cbn [push_args].
  { apply wp_ret. apply (HS e u); [simpl; lia|done|by rewrite app_nil_r]. }
  apply Forall_cons_1 in Hl as [Ha Hl].
  destruct (Nat.leb_spec MAXARG argc); [apply wp_ret; by apply (HN e u)|].
  wstep. apply envx. eapply xe_copyout_law; [exact Hrel|apply xv_us_lookup| | | |].
  { by eapply push_table. }
  { by destruct a. }
  { intros u' e' He'. rewrite xv_us_again in He'. apply wp_ret. by apply (HN e' u'). }
  intros e1 Ho Hr1. rewrite xv_us_again in Hr1. simpl.
  eapply IH; [done|exact Hr1|by apply args_inv_push|rewrite length_app; simpl; lia|lia|done|].
  intros e' u' sp' ptrs' Hk He' Hi. rewrite <- app_assoc in Hi. apply (HS e' u'); [simpl; lia|done|done].
Qed.
(** ** exec *)

(** The process after a successful exec. *)
Definition exec_proc (p : proc) (path : list Z) (d sz entry esp : Z) : proc :=
  w_tf (set_entry entry esp (p_tf p))
    (w_sz sz (w_pgdir d (w_name (safestr (p_name p) (last_name path path) 16) p))).

(** Nothing has changed but what the calls leave behind out of sight. *)
Definition exec_failed v (s s' : st) : Prop := ∃ e', xe_rel e' v ∧ s' = set_penv e' s.

(** A fresh page directory with the program of file [f] and its arguments is
    the address space of the process; the old one is gone. *)
Definition exec_done (c : nat) (p : proc) (path : list Z) (argv : list (list Z)) (f : list Z) v (s s' : st) : Prop :=
  ∃ d u esp ptrs e',
    d ≠ 0 ∧ xv_dirs v !! d = None ∧ loaded f u ∧ stack_ok u esp argv ptrs ∧ (length argv ≤ MAXARG)%nat ∧
    xe_rel e' (xv_setdirs (delete (p_pgdir p) (<[d := u]> (xv_dirs v))) v) ∧
    s' = set_procs (<[c := exec_proc p path d (us_size u) (elf_entry f) esp]> (procs s)) (set_penv e' s).

Lemma envx_procs {A} (m : M E A) (Q : A → st → Prop) l e s :
  wp m (λ a e', Q a (set_procs l (set_penv e' s))) e → wp (env m) Q (set_procs l (set_penv e s)).
Proof. apply (envx m Q e (set_procs l s)). Qed.

Lemma xv_setdirs_id v : xv_setdirs (xv_dirs v) v = v.
Proof. by destruct v. Qed.

Lemma wp_freevm_new d u v e s (Q : unit → st → Prop) :
  xe_rel e (xv_us d u v) → xv_dirs v !! d = None →
  (∀ e', xe_rel e' v → Q tt (set_penv e' s)) → wp (env (xe_freevm d)) Q (set_penv e s).
Proof.
  intros Hrel Hd HQ. apply envx. eapply xe_freevm_law; [exact Hrel|apply xv_us_lookup|].
  intros e' He'. apply HQ. unfold xv_us in He'. simpl in He'. rewrite delete_insert_id in He' by done.
  change (xv_setdirs (xv_dirs v) (xv_setdirs (<[d:=u]> (xv_dirs v)) v)) with (xv_setdirs (xv_dirs v) v) in He'.
  by rewrite xv_setdirs_id in He'.
Qed.

(** The view while exec holds the inode in its transaction. *)
Definition xv_held (ip : nat) v : xview := xv_lock ip (xv_ref ip (xv_settx true v)).

Lemma wpe_put_held ip D v e s (Q : unit → st → Prop) :
  xv_locked v = ∅ → xe_rel e (xv_setdirs D (xv_held ip v)) →
  (∀ e', xe_rel e' (xv_setdirs D (xv_settx true v)) → Q tt (set_penv e' s)) →
  wpe (env (xe_iunlockput ip)) Q low_panic (set_penv e s).
Proof.
  intros Hl Hrel HQ. apply envxe. eapply xe_iunlockput_law; [exact Hrel|done|simpl; multiset_solver|simpl; set_solver|].
  intros e' He'. apply HQ. replace (xv_setdirs D (xv_settx true v)) with (xv_put ip (xv_setdirs D (xv_held ip v))); [done|].
  unfold xv_put, xv_held, xv_setdirs, xv_settx, xv_lock, xv_ref. simpl. f_equal; [multiset_solver|set_solver].
Qed.

Lemma wpe_end_held D v e s (Q : unit → st → Prop) :
  xv_tx v = false → xv_locked v = ∅ → xe_rel e (xv_setdirs D (xv_settx true v)) →
  (∀ e', xe_rel e' (xv_setdirs D v) → Q tt (set_penv e' s)) → wpe (env xe_end_op) Q low_panic (set_penv e s).
Proof.
  intros Ht Hl Hrel HQ. apply envxe. eapply xe_end_op_law; [exact Hrel|done|done|].
  intros e' He'. apply HQ. unfold xv_setdirs, xv_settx in *. simpl in He'. by rewrite Ht.
Qed.

(** bad releases what has been taken. *)
Lemma wp_bad_stack d u v e s :
  d ≠ 0 → xe_rel e (xv_us d u v) → xv_dirs v !! d = None →
  wp (bad d None) (λ r s', r = -1 ∧ exec_failed v s s') (set_penv e s).
Proof.
  intros Hd Hrel Hn. unfold bad. rewrite (proj2 (Z.eqb_neq d 0) Hd). simpl. wstep.
  eapply wp_freevm_new; [exact Hrel|done|]. intros e' He'. wsteps. by split; [|exists e'].
Qed.

Lemma wpe_bad_nodir ip v e s :
  xv_tx v = false → xv_locked v = ∅ → xe_rel e (xv_held ip v) →
  wpe (bad 0 (Some ip)) (λ r s', r = -1 ∧ exec_failed v s s') low_panic (set_penv e s).
Proof.
  intros Ht Hl Hrel. unfold bad. simpl. wstep. wstep. wstep. wstep.
  eapply (wpe_put_held ip (xv_dirs v)); [done|by rewrite <- (xv_setdirs_id (xv_held ip v)) in Hrel|].
  intros e1 Hr1. eapply wpe_end_held; [done..|exact Hr1|]. intros e2 Hr2. rewrite xv_setdirs_id in Hr2.
  wsteps. by split; [|exists e2].
Qed.

Lemma wpe_bad_held d u ip v e s :
  xv_tx v = false → xv_locked v = ∅ → d ≠ 0 → xv_dirs v !! d = None →
  xe_rel e (xv_us d u (xv_held ip v)) →
  wpe (bad d (Some ip)) (λ r s', r = -1 ∧ exec_failed v s s') low_panic (set_penv e s).
Proof.
  intros Ht Hl Hd Hn Hrel. unfold bad. rewrite (proj2 (Z.eqb_neq d 0) Hd). simpl. wstep.
  eapply wpe_wp, wp_freevm_new; [exact Hrel|done|]. intros e' He'.
  pose proof (wpe_bad_nodir ip v e' s Ht Hl He') as H. exact H.
Qed.
(** The address space once the stack pages are there. *)
Lemma stack_pages img szp u :
  load_inv img szp u → let sz := PGROUNDUP szp in let new := sz + 2 * PGSIZE in
  PGROUNDUP (us_size u) = PGROUNDUP sz ∧ is_u32 new ∧ 0 ≤ sz ∧
  (new < KERNBASE →
   let u2 := us_close (new - 2 * PGSIZE) (us_grow sz new u) in
   stack_page new u2 ∧ ∀ x, 0 ≤ x < sz → us_mem u2 x = img x).
Proof.
  intros [Hs Hr Hm Ho] sz new. unfold KERNBASE in *.
  destruct (PGROUNDUP_spec szp) as [P1 P2]; [unfold PGSIZE; lia..|]. fold sz in P1, P2.
  destruct (PGROUNDUP_spec sz) as [P3 P4]; [unfold PGSIZE in *; lia..|].
  assert (PGROUNDUP sz = sz) as Esz by (unfold PGSIZE in *; zdm).
  split_and!; [by rewrite Hs, Esz|unfold is_u32, new, PGSIZE in *; lia|lia|].
  intros Hk. split.
  - split; [simpl; unfold new, PGSIZE; lia|unfold new, PGSIZE in *; zdm|unfold new, PGSIZE, KERNBASE in *; lia|].
    simpl. set_solver.
  - intros x Hx. simpl. unfold zmem. rewrite Esz. case_if; [lia|]. by apply Hm.
Qed.

(** The words below the arguments: how many they are and where they go. *)
Lemma stack_words sz u0 u sp ptrs argv :
  args_inv sz u0 u sp ptrs argv → (length argv ≤ MAXARG)%nat →
  let argc := Z.of_nat (length argv) in
  let ustack := [4294967295; argc; u32 (sp - (argc + 1) * 4)] ++ ptrs ++ [0] in
  let esp := u32 (sp - (3 + argc + 1) * 4) in
  Z.of_nat (length (words ustack)) = (argc + 4) * 4 ∧ esp = sp - (argc + 4) * 4 ∧
  has_table u esp (Z.of_nat (length (words ustack))).
Proof.
  intros [Hp Ha Hr Hb Hargs] Hc argc ustack esp. unfold MAXARG in Hc.
  pose proof (Forall2_length _ _ _ Hargs) as Hl. destruct Hp as [Hs Hpa [R1 R2] _].
  assert (Z.of_nat (length (words ustack)) = (argc + 4) * 4) as Hw.
  { rewrite words_length. unfold ustack. rewrite !length_app. simpl. lia. }
  unfold KERNBASE, PGSIZE in *. assert (0 ≤ argc ≤ 32) as Hargc by (unfold argc; lia).
  assert (esp = sp - (argc + 4) * 4) as He.
  { unfold esp. replace (3 + argc + 1) with (argc + 4) by lia. apply u32_small. unfold is_u32. lia. }
  split_and!; [done|done|]. left. rewrite Hw, He. lia.
Qed.

Lemma stack_ok_intro sz u0 u sp ptrs argv :
  args_inv sz u0 u sp ptrs argv → (length argv ≤ MAXARG)%nat →
  let argc := Z.of_nat (length argv) in
  let ustack := [4294967295; argc; u32 (sp - (argc + 1) * 4)] ++ ptrs ++ [0] in
  let esp := u32 (sp - (3 + argc + 1) * 4) in
  us_open u esp (Z.of_nat (length (words ustack))) →
  stack_ok (us_write esp (words ustack) u) esp argv ptrs ∧
  ∀ x, x < sz - PGSIZE → us_mem (us_write esp (words ustack) u) x = us_mem u0 x.
Proof.
  intros Hinv Hc argc ustack esp Ho. pose proof (stack_words _ _ _ _ _ _ Hinv Hc) as Hsw. cbv zeta in Hsw.
  fold argc ustack esp in Hsw. destruct Hsw as (Hw & He & _). destruct Hinv as [Hp Ha Hr Hb Hargs].
  pose proof (stack_page_top _ _ Hp) as Htop. pose proof Ho as [Ho1 _]. rewrite Htop, Hw in Ho1.
  destruct (sp_range _ _ Hp) as [R1 R2]. pose proof (sp_size _ _ Hp) as Hs. rewrite Hw in Ho.
  unfold KERNBASE, PGSIZE in R1, R2. unfold MAXARG in Hc.
  assert (0 ≤ argc ≤ 32) as Hargc by (unfold argc; lia).
  assert (u32 (sp - (argc + 1) * 4) = esp + 12) as Hv.
  { rewrite He. replace (sp - (argc + 4) * 4 + 12) with (sp - (argc + 1) * 4) by lia.
    apply u32_small. unfold is_u32, PGSIZE in *. lia. }
  assert (sz - PGSIZE ≤ esp) as Hlow by (apply (stack_lower sz u sp esp ((argc + 4) * 4)); [done|lia..|done]).
  split; [split|].
  - simpl us_mem. unfold ustack. rewrite Hv. apply wmem_holds.
  - rewrite He. zdm.
  - simpl. lia.
  - eapply Forall2_impl; [exact Hargs|]. intros q a (Hh & Q1 & Q2 & Q3). fold argc.
    split_and!; [|lia|simpl; lia|done]. eapply holds_mono; [exact Hh|]. intros x Hx. simpl.
    apply wmem_out. lia.
  - intros x Hx. simpl. rewrite wmem_out by lia. by apply Hb.
Qed.

Lemma wp_exec_stack f c p path argv v d u e s :
  let hs := segments f in
  procs s !! c = Some p → d ≠ 0 → xv_dirs v !! d = None → is_Some (xv_dirs v !! p_pgdir p) →
  Forall (λ a, Z.of_nat (length a) < 33554432) argv →
  SIZEOF_ELFHDR ≤ Z.of_nat (length f) → elf_magic f = ELF_MAGIC → (prog_headers f).2 = true →
  Forall (seg_fits f) hs → load_inv (prog_image f hs (λ _, 0)) (prog_size hs 0) u →
  xv_tables v = true → xe_rel e (xv_us d u v) →
  wp (exec_stack c path argv d (elf_entry f) (prog_size hs 0))
    (λ r s', r = -1 ∧ exec_failed v s s' ∨ r = 0 ∧ exec_done c p path argv f v s s') (set_penv e s).
Proof.
  intros hs Hp Hd Hn [uo Hold] Hl Hf1 Hf2 Hok Hfits Hinv Htab Hrel.
  assert (∀ u' e', xe_rel e' (xv_us d u' v) → wp (bad d None)
    (λ r s', r = -1 ∧ exec_failed v s s' ∨ r = 0 ∧ exec_done c p path argv f v s s') (set_penv e' s)) as Hbad.
  { intros u' e' He'. eapply wp_mono; [by eapply wp_bad_stack|]. by left. }
  destruct (stack_pages _ _ _ Hinv) as (G1 & G2 & G3 & G4). unfold exec_stack. cbv zeta.
  set (sz := PGROUNDUP (prog_size hs 0)) in *. rewrite (u32_small (sz + 2 * PGSIZE)) by done.
  wstep. apply envx. eapply xe_allocuvm_law; [exact Hrel|apply xv_us_lookup|exact G1|unfold is_u32 in G2; lia|done| |].
  { intros u' e' He'. rewrite xv_us_again in He'. by eapply Hbad. }
  intros e1 Hk Hr1. rewrite xv_us_again in Hr1. replace (sz `max` (sz + 2 * PGSIZE)) with (sz + 2 * PGSIZE) by (unfold PGSIZE; lia).
  rewrite (u32_small (sz + 2 * PGSIZE)) by done. specialize (G4 Hk). destruct G4 as [Hpage Himg].
  rewrite (proj2 (Z.eqb_neq (sz + 2 * PGSIZE) 0)) by (unfold PGSIZE; lia).
  rewrite (u32_small (sz + 2 * PGSIZE - 2 * PGSIZE)) by (unfold is_u32, PGSIZE in *; lia).
  wstep. apply envx. eapply xe_clearpteu_law; [exact Hr1|apply xv_us_lookup|simpl; unfold PGSIZE; lia|].
  intros e2 Hr2. rewrite xv_us_again in Hr2. set (u2 := us_close _ _) in *. set (new := sz + 2 * PGSIZE) in *.
  wstep. eapply (wp_push_args v d new u2 argv 0 new [] [] u2); [done|exact Hr2| |done|lia|intros e' u'; apply Hbad|].
  { split; [done| | |done|constructor]; destruct Hpage as [? Ha Hr _]; unfold PGSIZE in *; [zdm|lia]. }
  intros e3 u3 sp ptrs Hc Hr3 Hargs. simpl in Hc, Hargs. cbv zeta beta iota.
  pose proof (stack_ok_intro _ _ _ _ _ _ Hargs Hc) as Hst. cbv zeta in Hst.
  pose proof (proj2 (proj2 (stack_words _ _ _ _ _ _ Hargs Hc))) as Htbl. cbv zeta in Htbl.
  set (ws := words _) in *. set (esp := u32 (sp - (3 + Z.of_nat (length argv) + 1) * 4)) in *.
  wstep. apply envx. eapply xe_copyout_law; [exact Hr3|apply xv_us_lookup|exact Htbl|done| |].
  { intros u' e' He'. rewrite xv_us_again in He'. by eapply Hbad. }
  intros e4 Ho Hr4. rewrite xv_us_again in Hr4. destruct (Hst Ho) as [Hsok Hbel]. set (u4 := us_write _ _ _) in *.
  change (0 <? 0) with false. cbv iota.
  assert (c < length (procs s))%nat as Hcl by by eapply lookup_lt_Some.
  wstep. eapply wp_updp; [exact Hp|]. change (procs (set_penv e4 s)) with (procs s).
  wstep. apply get_c; [done|]. wstep. apply upd_c; [done|]. wstep. apply upd_c; [done|].
  wstep. apply upd_c; [done|].
  wstep. apply envx_procs. eapply xe_switchuvm_law; [exact Hr4|apply xv_us_lookup|done|]. intros e5 Hr5.
  change (p_pgdir (w_name _ p)) with (p_pgdir p).
  assert (d ≠ p_pgdir p) as Hdp by congruence.
  wstep. apply envx_procs. eapply xe_freevm_law; [exact Hr5|simpl; by rewrite lookup_insert_ne|].
  intros e6 Hr6. apply wp_ret. right. split; [done|].
  assert (us_size u4 = new) as Hs4 by exact (sp_size _ _ (ai_page _ _ _ _ _ _ Hargs)).
  exists d, u4, esp, ptrs, e6. split_and!; [done|done| |exact Hsok|done|exact Hr6|].
  - split; [done|done|done|by rewrite Hs4|by rewrite Hs4|].
    intros x Hx. rewrite Hs4 in Hx. rewrite Hbel by (unfold PGSIZE in *; lia). apply Himg. unfold new in Hx. lia.
  - by rewrite Hs4.
Qed.
(** [C9] exec, on a file whose loadable segments start on a page and do not
    wrap around, with arguments shorter than 32 MB, and with pages left for
    the page tables of the new program, returns, or panics because a table,
    the log or the disk below it is full or not a file system ([low_panic]).
    If it returns, either it returns -1, and the process, the transaction,
    the inodes and the address spaces are as before; or it returns 0, the
    file is a complete ELF program whose segments fit, the process runs in a
    fresh address space with exactly the image of the segments (and zeroes),
    the old address space is freed, the inode is released, and the stack
    page holds the arguments, their array, argc and a return address, all
    above the guard page. *)
Theorem exec_spec elf ph path argv v c p s :
  curproc s = Some c → procs s !! c = Some p → is_Some (xv_dirs v !! p_pgdir p) →
  xe_rel (penv s) v → xv_tx v = false → xv_locked v = ∅ → xv_tables v = true →
  Forall (λ a, Z.of_nat (length a) < 33554432) argv →
  (∀ ip, xv_tree v (p_cwd p) path = Some ip →
     ∃ f, xv_file v ip = Some f ∧ Forall is_u8 f ∧ Forall seg_safe (segments f)) →
  wpe (exec elf ph path argv)
    (λ r s', r = -1 ∧ exec_failed v s s' ∨
       r = 0 ∧ ∃ ip f, xv_tree v (p_cwd p) path = Some ip ∧ xv_file v ip = Some f ∧
                 exec_done c p path argv f v s s') low_panic s.
Proof.
  intros Hc Hp Hold Hrel Ht Hl Htab Hargs Hfile. destruct s as [cpu lk ps ip0 np cur e]. simpl in Hrel, Hp, Hc.
  set (s := mkPs cpu lk ps ip0 np cur e). change s with (set_penv e s) at 2. unfold exec.
  wstep. apply envxe. eapply xe_begin_op_law; [exact Hrel|done|done|]. intros e1 Hr1.
  wstep. eapply wpe_wp, wp_myproc; [exact Hc|]. wstep. eapply wpe_wp, wp_getp; [exact Hp|].
  wstep. apply envxe. eapply xe_namei_law; [exact Hr1|done|done| |].
  { intros e2 Htree Hr2. wstep. eapply (wpe_end_held (xv_dirs v)); [done..|exact Hr2|].
    intros e3 Hr3. wstep. left. split; [done|]. exists e3. by rewrite xv_setdirs_id in Hr3. }
  intros ip e2 Htree Hr2. simpl in Htree. destruct (Hfile ip Htree) as (f & Hf & Hb & Hsafe).
  wstep. apply envxe. eapply xe_ilock_law; [exact Hr2|simpl; multiset_solver|simpl; set_solver|].
  intros e3 Hr3. fold (xv_held ip v) in Hr3.
  assert (ip ∈ xv_locked (xv_held ip v)) as Hlk by (simpl; set_solver).
  wstep. apply envxe. eapply xe_readi_law; [exact Hr3|exact Hlk|exact Hf|]. intros e4 Hr4.
  set (Q := λ (r : Z) (s' : st), _). assert (∀ r s', r = -1 ∧ exec_failed v s s' → Q r s') as Hbad by by left.
  destruct (file_read f 0 SIZEOF_ELFHDR) as [bs r] eqn:Er.
  case_if; [eapply wpe_mono; [by eapply (wpe_bad_nodir ip v e4)|apply Hbad|done]|].
  destruct (elf_read f bs r elf Er ltac:(done)) as (Hlen & -> & -> & -> & ->).
  case_if; [eapply wpe_mono; [by eapply (wpe_bad_nodir ip v e4)|apply Hbad|done]|].
  wstep. apply envxe, wpe_wp. eapply xe_setupkvm_law; [exact Hr4| |].
  { intros e5 Hr5. eapply wpe_mono; [by eapply (wpe_bad_nodir ip v e5)|apply Hbad|done]. }
  intros d m e5 Hd Hdn Hr5. rewrite (proj2 (Z.eqb_neq d 0) Hd). fold (xv_us d (mkUs m 0 ∅) (xv_held ip v)) in Hr5.
  wstep. eapply (wpe_load_segments f (xv_held ip v) d ip _ _ _ (λ _, 0)); [done|done|done|done|exact Hr5|by apply load_inv_0|exact Hsafe| |].
  { intros e6 u6 Hr6. eapply wpe_mono; [by eapply wpe_bad_held|apply Hbad|done]. }
  intros e6 u6 Hok Hfits Hinv Hr6.
  wstep. eapply wpe_put_held; [done|exact Hr6|]. intros e7 Hr7.
  wstep. eapply wpe_end_held; [done..|exact Hr7|]. intros e8 Hr8.
  eapply wpe_wp, wp_mono; [eapply (wp_exec_stack f c p path argv v d u6 e8 s); done|].
  intros r' s' [?|[? ?]]; [by apply Hbad|]. right. split; [done|]. by exists ip, f.
Qed.
End exec_proof.

(** ** A kernel for the witness: the view itself *)

Definition us_openb (u : uspace) (a : Z) (n : nat) : bool :=
  (a + Z.of_nat n <=? PGROUNDUP (us_size u)) &&
  forallb (λ i, bool_decide ((a + Z.of_nat i) / PGSIZE ∉ us_guard u)) (seq 0 n).

Lemma us_openb_ok u a n : us_openb u a n = true → us_open u a (Z.of_nat n).
Proof.
  unfold us_openb. intros H. bool_facts. split; [done|]. intros x Hx. rewrite forallb_forall in H0.
  specialize (H0 (Z.to_nat (x - a))). rewrite bool_decide_eq_true in H0.
  replace (a + Z.of_nat (Z.to_nat (x - a))) with x in H0 by lia. apply H0. apply in_seq. lia.
Qed.

Definition dir_op (d : Z) (A : Type) (k : uspace → xview → outcome xview A) : M xview A := λ v,
  match xv_dirs v !! d with Some u => k u v | None => Fault end.
Definition dir_put {A} (d : Z) (a : A) (u : uspace) (v : xview) : outcome xview A :=
  Ret a (xv_setdirs (<[d := u]> (xv_dirs v)) v).

Lemma wp_dir_op d A k (Q : A → xview → Prop) u v :
  xv_dirs v !! d = Some u → wp (k u) Q v → wp (dir_op d A k) Q v.
Proof. unfold wp, dir_op. by intros ->. Qed.

Lemma dir_same (P : xview → Prop) d u v :
  xv_dirs v !! d = Some u → P v → P (xv_setdirs (<[d := u]> (xv_dirs v)) v).
Proof. intros H. rewrite insert_id by done. by rewrite xv_setdirs_id. Qed.

#[refine] Instance view_env : ExecEnv xview := {
  xe_begin_op := modify (xv_settx true);
  xe_end_op := modify (xv_settx false);
  xe_namei cwd path := λ v,
    match xv_tree v cwd path with Some ip => Ret (Some ip) (xv_ref ip v) | None => Ret None v end;
  xe_ilock ip := modify (xv_lock ip);
  xe_iunlockput ip := modify (xv_put ip);
  xe_readi ip off n := λ v,
    match xv_file v ip with Some f => Ret (file_read f off n) v | None => Fault end;
  xe_setupkvm := λ v,
    match xv_dirs v !! 4096 with
    | Some _ => Ret 0 v
    | None => dir_put 4096 4096 (mkUs (λ _, 204) 0 ∅) v
    end;
  xe_allocuvm d old new := dir_op d Z (λ u v,
    if KERNBASE <=? new then Ret 0 v else dir_put d (Z.max old new) (us_grow old new u) v);
  xe_loaduvm d va ip off sz := dir_op d Z (λ u v,
    if negb (va mod PGSIZE =? 0) then Panic "loaduvm: addr must be page aligned" else
    if us_size u <? va + sz then Panic "loaduvm: address should exist" else
    match xv_file v ip with
    | None => Fault
    | Some f => if (sz =? 0) || (off + sz <=? Z.of_nat (length f))
                then dir_put d 0 (us_write va (getbytes (Z.to_nat off) (Z.to_nat sz) f) u) v
                else Ret (-1) v
    end);
  xe_clearpteu d va := dir_op d unit (λ u v, dir_put d tt (us_close va u) v);
  xe_copyout d va bs := dir_op d Z (λ u v,
    if us_openb u va (length bs) then dir_put d 0 (us_write va bs u) v else Ret (-1) v);
  xe_freevm d := modify (λ v, xv_setdirs (delete d (xv_dirs v)) v);
  xe_switchuvm d := mret tt;
  xe_rel := eq;
}.
Proof.
  - intros e v Q <- _ _ H. by apply H.
  - intros e v Q <- _ _ H. by apply H.
  - intros e v cwd path Q <- _ _ H1 H2. unfold wpe. destruct (xv_tree e cwd path); eauto.
  - intros e v ip Q <- _ _ H. by apply H.
  - intros e v ip Q <- _ _ _ H. by apply H.
  - intros e v ip f off n Q <- _ Hf H. unfold wpe. rewrite Hf. by apply H.
  - intros e v Q <- H1 H2. unfold wp. destruct (xv_dirs e !! 4096) eqn:E; [by apply H1|]. by eapply H2.
  - intros e v d u old new Q <- Hu _ _ _ H1 H2. eapply wp_dir_op; [done|]. unfold wp.
    case_if; [|by apply H2]. by apply (H1 u), (dir_same (eq e) d u e Hu).
  - intros e v d u va ip f off sz Q <- Hu _ Hf Ha _ _ Hs H1 H2. eapply wpe_wp, wp_dir_op; [done|]. unfold wp.
    rewrite Ha, Hf. simpl. rewrite (proj2 (Z.ltb_ge _ _)) by done.
    case_if; [|by apply (H1 u), (dir_same (eq e) d u e Hu)]. apply H2; [|done].
    apply orb_true_iff in E as [?|?]; bool_facts; auto.
  - intros e v d u va Q <- Hu _ H. eapply wp_dir_op; [done|]. by apply H.
  - intros e v d u va bs Q <- Hu _ _ H1 H2. eapply wp_dir_op; [done|]. unfold wp.
    case_if; [by apply H2; [apply us_openb_ok|]|]. by apply (H1 u), (dir_same (eq e) d u e Hu).
  - intros e v d u Q <- _ H. by apply H.
  - intros e v d u Q <- _ _ H. by apply H.
Defined.

(** A program with one segment of 4 bytes in the file and 20 in memory. *)
Definition x_file : list Z :=
  [127; 69; 76; 70] ++ replicate 12 0 ++ [2; 0; 3; 0; 1; 0; 0; 0] ++ to_le32 16 ++ to_le32 52 ++
  replicate 10 0 ++ [32; 0; 1; 0] ++ replicate 4 0 ++ [0; 0] ++
  to_le32 1 ++ to_le32 84 ++ to_le32 0 ++ to_le32 0 ++ to_le32 4 ++ to_le32 20 ++ to_le32 7 ++ to_le32 4096 ++
  [235; 254; 144; 204].

Definition x_view : xview :=
  mkXv false ∅ ∅ (λ _ _, Some 7%nat) (λ _, Some x_file) {[8192 := mkUs (λ _, 0) 4096 ∅]} true.

Definition x_proc : proc :=
  mkProc 4096 8192 12288 RUNNING 1 None tf_zero (mkCtx 0 0 0 0 0) 0 0 0 (replicate 16 0) 1 (replicate 16 0) 0.

Definition x_state : pstate xview := mkPs cpu0 lock0 [x_proc] (Some 0%nat) 2 (Some 0%nat) x_view.

Definition x_path : list Z := [47; 98; 105; 110; 47; 108; 115].   (* /bin/ls *)
Definition x_argv : list (list Z) := [[108; 115]; [45; 108]].      (* ls -l *)

Lemma exec_spec_witness :
  wp (exec [] [] x_path x_argv)
    (λ r s', r = 0 ∧ exec_done 0 x_proc x_path x_argv x_file x_view x_state s') x_state.
Proof.
  assert (wp (exec [] [] x_path x_argv) (λ r _, r = 0) x_state) as Hr by (vm_compute; reflexivity).
  assert (segments x_file = [take 32 (drop 52 x_file)]) as Hs by (vm_compute; reflexivity).
  pose proof (exec_spec [] [] x_path x_argv x_view 0%nat x_proc x_state) as H.
  specialize (H eq_refl eq_refl (mk_is_Some _ _ eq_refl) eq_refl eq_refl eq_refl eq_refl).
  unfold wp, wpe in *. destruct (exec [] [] x_path x_argv x_state) as [r s'| | | |]; [|done..]. subst r.
  destruct H as [[? _]|[_ (ip & f & _ & [= <-] & H)]]; [repeat constructor| |done|done].
  intros ip _. exists x_file. rewrite Hs. split; [done|]. split; [by apply (bool_decide_unpack _); vm_compute|].
  apply Forall_singleton. by vm_compute.
Defined.
