(* ===== verification/Pipe.v ===== *)
(** * Pipes (xv6/pipe.c)

    Every function of pipe.c runs with p->lock held, except where it sleeps,
    so one segment of a call (from taking the lock to sleeping or returning)
    is one atomic action on struct pipe.  [pipewrite] and [piperead] are
    such segments; a sleeping writer keeps what is left of its buffer.  The
    step relation at the end runs any number of readers and writers against
    one pipe and records every byte that enters and leaves it. *)

From S2P Require Import Prelude.
Local Open Scope Z_scope.

(** ** Data *)

Definition PIPESIZE : Z := 512.

Record pipe := mkPipe {
  data : list Z;
  nread : Z;
  nwrite : Z;
  readopen : bool;
  writeopen : bool;
}.

(** The state pipealloc gives a pipe; the page's old contents are [junk]. *)
Definition pipealloc_init (junk : list Z) : pipe := mkPipe junk 0 0 true true.

(** The channels processes sleep on: &p->nread and &p->nwrite. *)
Inductive chan := CRead | CWrite.

#[export] Instance chan_eq_dec : EqDecision chan.
Proof. solve_decision. Defined.

(** How a segment of a call ends: it returns, or it sleeps and will go on
    with [rest]; in both cases it may have woken a channel. *)
Inductive seg (A R : Type) :=
  | Done (a : A) (woke : option chan)
  | Blocks (on : chan) (rest : R) (woke : option chan).
Arguments Done {A R}.
Arguments Blocks {A R}.

(** ** pipe.c *)

Definition full (p : pipe) : bool := nwrite p =? u32 (nread p + PIPESIZE).
Definition empty (p : pipe) : bool := nread p =? nwrite p.

(** [p->data[p->nwrite++ % PIPESIZE] = b] *)
Definition put (b : Z) (p : pipe) : pipe :=
  mkPipe (<[Z.to_nat (nwrite p mod PIPESIZE) := b]> (data p)) (nread p) (u32 (nwrite p + 1))
    (readopen p) (writeopen p).

(** [p->data[p->nread++ % PIPESIZE]] *)
Definition take1 (p : pipe) : Z * pipe :=
  (default 0 (data p !! Z.to_nat (nread p mod PIPESIZE)),
   mkPipe (data p) (u32 (nread p + 1)) (nwrite p) (readopen p) (writeopen p)).

(** The for loop of pipewrite up to a full pipe: what is left to write. *)
Fixpoint copyin (bs : list Z) (p : pipe) : list Z * pipe :=
  match bs with
  | [] => ([], p)
  | b :: r => if full p then (bs, p) else copyin r (put b p)
  end.

(** A segment of pipewrite with [rest] still to be written out of [n]. *)
Definition pipewrite (killed : bool) (n : Z) (rest : list Z) (p : pipe) : seg Z (list Z) * pipe :=
  let '(rest, p) := copyin rest p in
  match rest with
  | [] => (Done n (Some CRead), p)
  | _ => if negb (readopen p) || killed then (Done (-1) None, p)
         else (Blocks CWrite rest (Some CRead), p)
  end.

(** The for loop of piperead: at most [n] bytes. *)
Fixpoint copyout (n : nat) (p : pipe) : list Z * pipe :=
  match n with
  | O => ([], p)
  | S n => if empty p then ([], p)
           else let '(b, p) := take1 p in
                let '(bs, p) := copyout n p in (b :: bs, p)
  end.

(** A segment of piperead; [None] is -1. *)
Definition piperead (killed : bool) (n : nat) (p : pipe) : seg (option (list Z)) unit * pipe :=
  if empty p && writeopen p then
    if killed then (Done None None, p) else (Blocks CRead tt None, p)
  else
    let '(bs, p) := copyout n p in (Done (Some bs) (Some CWrite), p).

(** pipeclose: the pipe, the channel woken, and whether its page is freed. *)
Definition pipeclose (writable : bool) (p : pipe) : pipe * chan * bool :=
  let '(p, c) := if writable
                 then (mkPipe (data p) (nread p) (nwrite p) (readopen p) false, CRead)
                 else (mkPipe (data p) (nread p) (nwrite p) false (writeopen p), CWrite) in
  (p, c, negb (readopen p) && negb (writeopen p)).

(** ** Readers and writers *)

(** What a process is doing; [asleep] is its process state. *)
Inductive activity :=
  | Idle
  | Writing (n : Z) (rest : list Z) (asleep : bool)
  | Reading (n : nat) (asleep : bool).

Record psys := mkSys {
  thepipe : pipe;
  act : nat → activity;
  sent : list Z;
  recv : list Z;
}.

(** wakeup(c): the sleepers on [c] become runnable. *)
Definition woken_by (c : chan) (a : activity) : activity :=
  match c, a with
  | CWrite, Writing n r _ => Writing n r false
  | CRead, Reading n _ => Reading n false
  | _, _ => a
  end.
Definition wake_all (c : option chan) (f : nat → activity) : nat → activity :=
  match c with Some c => λ i, woken_by c (f i) | None => f end.
Definition upd_act (i : nat) (a : activity) (f : nat → activity) : nat → activity :=
  λ j, if decide (j = i) then a else f j.

(** One system-call segment of process [i]; [killed] is its proc->killed.  A
    process inside a call has the file open, so file.c does not call
    pipeclose for that end. *)
Inductive pstep : bool → psys → psys → Prop :=
  | start_write p f s r i bs k :
      f i = Idle → writeopen p = true →
      pstep k (mkSys p f s r) (mkSys p (upd_act i (Writing (Z.of_nat (length bs)) bs false) f) s r)
  | start_read p f s r i n k :
      f i = Idle → readopen p = true →
      pstep k (mkSys p f s r) (mkSys p (upd_act i (Reading n false) f) s r)
  | write_done p f s r i n bs killed x w p' :
      f i = Writing n bs false → pipewrite killed n bs p = (Done x w, p') →
      pstep killed (mkSys p f s r)
        (mkSys p' (upd_act i Idle (wake_all w f))
           (s ++ take (length bs - length (copyin bs p).1) bs) r)
  | write_sleeps p f s r i n bs killed c rest w p' :
      f i = Writing n bs false → pipewrite killed n bs p = (Blocks c rest w, p') →
      pstep killed (mkSys p f s r)
        (mkSys p' (upd_act i (Writing n rest true) (wake_all w f))
           (s ++ take (length bs - length rest) bs) r)
  | read_done p f s r i n killed x w p' :
      f i = Reading n false → piperead killed n p = (Done x w, p') →
      pstep killed (mkSys p f s r)
        (mkSys p' (upd_act i Idle (wake_all w f)) s (r ++ default [] x))
  | read_sleeps p f s r i n killed c w p' :
      f i = Reading n false → piperead killed n p = (Blocks c tt w, p') →
      pstep killed (mkSys p f s r) (mkSys p' (upd_act i (Reading n true) (wake_all w f)) s r)
  | close p f s r w p' c fr k :
      pipeclose w p = (p', c, fr) →
      (∀ i, if w then ∀ n bs a, f i ≠ Writing n bs a else ∀ n a, f i ≠ Reading n a) →
      pstep k (mkSys p f s r) (mkSys p' (wake_all (Some c) f) s r).

Definition psys_init (junk : list Z) : psys :=
  mkSys (pipealloc_init junk) (λ _, Idle) [] [].

(** ** The ring buffer *)

(** [bs] is what the pipe holds, oldest byte first. *)
Record holds (p : pipe) (bs : list Z) : Prop := {
  h_len : length (data p) = 512%nat;
  h_nread : is_u32 (nread p);
  h_nwrite : nwrite p = u32 (nread p + Z.of_nat (length bs));
  h_max : (length bs ≤ 512)%nat;
  h_data k b : bs !! k = Some b →
     data p !! Z.to_nat ((nread p + Z.of_nat k) mod PIPESIZE) = Some b;
}.

Lemma u32_mod512 x : u32 x mod PIPESIZE = x mod PIPESIZE.
Proof. apply (u32_mod_pow2 x 9). lia. Qed.

Lemma holds_full p bs : holds p bs → full p = true ↔ length bs = 512%nat.
Proof.
  intros [H1 H2 H3 H4 H5]. unfold full. rewrite H3, Z.eqb_eq. unfold u32, PIPESIZE, is_u32 in *.
  split; [intros E; zdm|intros ->; done].
Qed.

Lemma holds_empty p bs : holds p bs → empty p = true ↔ bs = [].
Proof.
  intros [H1 H2 H3 H4 H5]. unfold empty. rewrite H3, Z.eqb_eq. unfold u32, is_u32 in *.
  split.
  - intros E. apply length_zero_iff_nil. zdm.
  - intros ->. simpl. zdm.
Qed.

Lemma holds_put p bs b : holds p bs → full p = false → holds (put b p) (bs ++ [b]).
Proof.
  intros H Hf. assert (Hn : length bs ≠ 512%nat) by (intros E; apply (holds_full _ _ H) in E; congruence).
  destruct H as [H1 H2 H3 H4 H5]. unfold PIPESIZE in *. split; simpl.
  - by rewrite length_insert.
  - done.
  - rewrite H3, u32_add_l, length_app. simpl. f_equal. lia.
  - rewrite length_app. simpl. lia.
  - intros k x Hk. rewrite H3. change 512 with PIPESIZE. rewrite u32_mod512. unfold PIPESIZE.
    assert (Hk' : (k < length bs + 1)%nat) by (apply lookup_lt_Some in Hk; rewrite length_app in Hk; simpl in Hk; lia).
    rewrite lookup_insert_case by (rewrite H1; zdm).
    destruct (decide (k = length bs)) as [->|Hne].
    + rewrite lookup_app_r, Nat.sub_diag in Hk by lia. rewrite decide_True by done. done.
    + rewrite decide_False by zdm. apply H5. by rewrite lookup_app_l in Hk by lia.
Qed.

Lemma holds_take p b bs :
  holds p (b :: bs) → (take1 p).1 = b ∧ holds (take1 p).2 bs.
Proof.
  intros [H1 H2 H3 H4 H5]. unfold take1. simpl. split.
  - specialize (H5 0%nat b eq_refl). rewrite Z.add_0_r in H5. by rewrite H5.
  - simpl in *. split; simpl.
    + done.
    + apply u32_range.
    + rewrite H3, u32_add_l. f_equal. lia.
    + lia.
    + intros k x Hk. rewrite Zplus_mod, u32_mod512, <-Zplus_mod. rewrite <-(H5 (S k) x Hk). do 3 f_equal. lia.
Qed.

Lemma copyin_spec bs p q :
  holds p q →
  let '(rest, p') := copyin bs p in
  let n := (length bs - length rest)%nat in
  rest = drop n bs ∧ holds p' (q ++ take n bs) ∧ (rest ≠ [] → full p' = true) ∧
  readopen p' = readopen p ∧ writeopen p' = writeopen p.
Proof.
  revert p q. induction bs as [|b bs IH]; intros p q H; simpl.
  { rewrite app_nil_r. by split_and!. }
  destruct (full p) eqn:Ef.
  - rewrite Nat.sub_diag. simpl. rewrite app_nil_r. by split_and!.
  - specialize (IH (put b p) (q ++ [b]) (holds_put _ _ _ H Ef)).
    destruct (copyin bs (put b p)) as [rest p'].
    destruct IH as (E & Hh & Hf & Hr & Hw).
    assert (Hl : (length rest ≤ length bs)%nat) by (rewrite E; rewrite length_drop; lia).
    replace (S (length bs) - length rest)%nat with (S (length bs - length rest)) by lia.
    simpl. split_and!; try done. by rewrite <-app_assoc in Hh.
Qed.

Lemma copyout_spec n p q :
  holds p q →
  let '(bs, p') := copyout n p in
  bs = take n q ∧ holds p' (drop n q) ∧ readopen p' = readopen p ∧ writeopen p' = writeopen p.
Proof.
  revert p q. induction n as [|n IH]; intros p q H; simpl; [by split_and!|].
  destruct (empty p) eqn:Ee.
  - apply (holds_empty _ _ H) in Ee. subst q. by split_and!.
  - destruct q as [|b q]; [assert (empty p = true) by (by apply (holds_empty _ _ H)); congruence|].
    destruct (holds_take _ _ _ H) as [Eb Hh]. unfold take1 in *. simpl in *.
    specialize (IH _ _ Hh). destruct (copyout n _) as [bs p'].
    destruct IH as (-> & Hh' & Hr & Hw). by rewrite Eb.
Qed.

(** ** The system *)

Definition fifo (s : psys) : Prop := ∃ q, holds (thepipe s) q ∧ sent s = recv s ++ q.

Lemma pipewrite_spec killed n bs p q :
  holds p q →
  let '(o, p') := pipewrite killed n bs p in
  let rest := (copyin bs p).1 in
  let k := (length bs - length rest)%nat in
  holds p' (q ++ take k bs) ∧ readopen p' = readopen p ∧ writeopen p' = writeopen p ∧
  match o with
  | Done x w => (rest = [] ∧ x = n ∧ w = Some CRead) ∨
                (x = -1 ∧ w = None ∧ full p' = true ∧ (readopen p = false ∨ killed = true))
  | Blocks c r w => c = CWrite ∧ w = Some CRead ∧ r = rest ∧ full p' = true ∧ readopen p = true
  end.
Proof.
  intros H. unfold pipewrite. pose proof (copyin_spec bs p q H) as Hc.
  destruct (copyin bs p) as [rest p']. destruct Hc as (E & Hh & Hf & Hr & Hw).
  destruct rest as [|b rest]; simpl in *.
  - split_and!; try done. by left.
  - specialize (Hf ltac:(done)). rewrite Hr.
    destruct (readopen p), killed; simpl; split_and!; try done; right; auto.
Qed.

Lemma piperead_spec killed n p q :
  holds p q →
  let '(o, p') := piperead killed n p in
  readopen p' = readopen p ∧ writeopen p' = writeopen p ∧
  match o with
  | Done (Some bs) w => w = Some CWrite ∧ q = bs ++ drop n q ∧ holds p' (drop n q) ∧
                        (q = [] → writeopen p = false)
  | Done None w => w = None ∧ killed = true ∧ p' = p
  | Blocks c _ w => c = CRead ∧ w = None ∧ p' = p ∧ q = [] ∧ writeopen p = true
  end.
Proof.
  intros H. unfold piperead. destruct (empty p && writeopen p) eqn:E.
  - apply andb_prop in E as [E1 E2]. apply (holds_empty _ _ H) in E1. by destruct killed.
  - pose proof (copyout_spec n p q H) as Hc. destruct (copyout n p) as [bs p'].
    destruct Hc as (-> & Hh & Hr & Hw). split_and!; try done; [by rewrite take_drop|].
    intros ->. assert (empty p = true) as He by (by apply (holds_empty _ _ H)). by rewrite He in E.
Qed.

Lemma fifo_step k s t : fifo s → pstep k s t → fifo t.
Proof.
  intros [q [H Hs]] Hst. destruct Hst; simpl in *.
  - by exists q.
  - by exists q.
  - match goal with E : pipewrite _ _ _ _ = _ |- _ =>
      pose proof (pipewrite_spec killed n bs p q H) as Hw; rewrite E in Hw end.
    destruct Hw as (Hh & _). eexists. split; [exact Hh|]. by rewrite Hs, <-app_assoc.
  - match goal with E : pipewrite _ _ _ _ = _ |- _ =>
      pose proof (pipewrite_spec killed n bs p q H) as Hw; rewrite E in Hw end.
    destruct Hw as (Hh & _ & _ & _ & _ & Hr & _). rewrite <-Hr in Hh.
    eexists. split; [exact Hh|]. by rewrite Hs, <-app_assoc.
  - match goal with E : piperead _ _ _ = _ |- _ =>
      pose proof (piperead_spec killed n p q H) as Hr; rewrite E in Hr end.
    destruct Hr as (_ & _ & Hr). destruct x as [bs|]; simpl.
    + destruct Hr as (_ & Hq & Hh & _). exists (drop n q). split; [done|]. simpl.
      rewrite Hs, Hq at 1. apply app_assoc.
    + destruct Hr as (_ & _ & ->). exists q. by rewrite app_nil_r.
  - match goal with E : piperead _ _ _ = _ |- _ =>
      pose proof (piperead_spec killed n p q H) as Hr; rewrite E in Hr end.
    destruct Hr as (_ & _ & _ & _ & -> & _). by exists q.
  - exists q. split; [|done]. unfold pipeclose in *. destruct H as [G1 G2 G3 G4 G5].
    destruct w; simplify_eq; by split.
Qed.

(** A process asleep has nothing to do. *)
Definition act_ok (p : pipe) (a : activity) : Prop :=
  match a with
  | Idle => True
  | Writing _ _ asleep => writeopen p = true ∧ (asleep = true → full p = true ∧ readopen p = true)
  | Reading _ asleep => readopen p = true ∧ (asleep = true → empty p = true ∧ writeopen p = true)
  end.

Definition no_lost (s : psys) : Prop := fifo s ∧ ∀ i, act_ok (thepipe s) (act s i).

(** Waking [w] and moving to the pipe [p'] is safe if what is not woken stays right. *)
Lemma act_ok_wake p p' w a :
  readopen p' = readopen p → writeopen p' = writeopen p → act_ok p a →
  (w ≠ Some CWrite → full p = true → readopen p = true → full p' = true) →
  (w ≠ Some CRead → empty p = true → writeopen p = true → readopen p = true → empty p' = true) →
  act_ok p' (match w with Some c => woken_by c a | None => a end).
Proof.
  intros Hr Hw Ha H1 H2. destruct a as [|n bs as_|n as_]; [by destruct w as [[]|]| |].
  - destruct Ha as [Ha Hs]. destruct w as [[]|]; simpl; rewrite Hr, Hw; (split; [done|]);
      intros E; try done; destruct (Hs E); auto.
  - destruct Ha as [Ha Hs]. destruct w as [[]|]; simpl; rewrite Hr, Hw; (split; [done|]);
      intros E; try done; destruct (Hs E); auto.
Qed.

Lemma upd_act_ok p' i a f : act_ok p' a → (∀ j, act_ok p' (f j)) → ∀ j, act_ok p' (upd_act i a f j).
Proof. intros Ha Hf j. unfold upd_act. by case_decide. Qed.

Lemma wake_all_at w f j : wake_all w f j = match w with Some c => woken_by c (f j) | None => f j end.
Proof. by destruct w. Qed.

Lemma full_not_empty p q : holds p q → full p = true → empty p = false.
Proof.
  intros H Hf. apply (holds_full _ _ H) in Hf. destruct (empty p) eqn:E; [|done].
  apply (holds_empty _ _ H) in E. subst q. done.
Qed.

Lemma copyin_full bs p : full p = true → copyin bs p = (bs, p).
Proof. intros H. destruct bs; simpl; [done|]. by rewrite H. Qed.

Lemma no_lost_write p f s r i n bs o p' q (a' : activity) w :
  no_lost (mkSys p f s r) → holds p q → f i = Writing n bs false → pipewrite false n bs p = (o, p') →
  match o with Done _ w' => w' = w | Blocks _ _ w' => w' = w end →
  act_ok p' a' → ∀ j, act_ok p' (upd_act i a' (wake_all w f) j).
Proof.
  intros [_ Hact] H Hfi E Hw Ha'. simpl in Hact.
  pose proof (pipewrite_spec false n bs p q H) as Hs. rewrite E in Hs. destruct Hs as (Hh & Hr & Hwo & Ho).
  apply upd_act_ok; [done|]. intros j. rewrite wake_all_at. eapply act_ok_wake; [done|done|apply Hact| |].
  - intros _ Hf _. revert E Ho. unfold pipewrite. rewrite (copyin_full bs p Hf).
    destruct bs; simpl; [by intros [= <- <-]|]. destruct (_ || _); by intros [= <- <-].
  - intros Hw' _ _ Hro. destruct o as [x w'|c rest w']; subst w'.
    + destruct Ho as [(_ & _ & ->)|(_ & _ & _ & [?|?])]; [done|congruence|done].
    + destruct Ho as (_ & -> & _). done.
Qed.

Lemma no_lost_step s t : no_lost s → pstep false s t → no_lost t.
Proof.
  intros Hn Hst. split; [by eapply fifo_step; [apply Hn|]|]. pose proof Hn as [[q [H Hs]] Hact].
  remember false as k eqn:Ek. destruct Hst as
    [p f s r i bs k Hfi Hwo|p f s r i m k Hfi Hro|p f s r i m bs k x w p' Hfi E|p f s r i m bs k c rest w p' Hfi E
    |p f s r i m k x w p' Hfi E|p f s r i m k c w p' Hfi E|p f s r w p' c fr k E Hcl]; subst k; simpl in *.
  - apply upd_act_ok; [by split|done].
  - apply upd_act_ok; [by split|done].
  - eapply no_lost_write; [exact Hn|exact H|exact Hfi|exact E|done|done].
  - eapply no_lost_write; [exact Hn|exact H|exact Hfi|exact E|done|].
    pose proof (pipewrite_spec false m bs p q H) as Hw. rewrite E in Hw.
    destruct Hw as (_ & Hr & Hwo & _ & _ & _ & Hf & Hro). pose proof (Hact i) as Ha. rewrite Hfi in Ha.
    destruct Ha as [Ha _]. split; [congruence|]. intros _. split; congruence.
  - pose proof (piperead_spec false m p q H) as Hr. rewrite E in Hr. destruct Hr as (Hr & Hwo & Hx).
    destruct x as [bs|]; [|by destruct Hx as (_ & ? & _)]. destruct Hx as (-> & _ & _ & Hq).
    apply upd_act_ok; [done|]. intros j. rewrite wake_all_at.
    apply (act_ok_wake p p' (Some CWrite) (f j)); [done|done|apply Hact|done|].
    intros _ He Hw _. apply (holds_empty _ _ H) in He. specialize (Hq He). congruence.
  - pose proof (piperead_spec false m p q H) as Hr. rewrite E in Hr.
    destruct Hr as (_ & _ & -> & -> & -> & -> & Hw). pose proof (Hact i) as Ha. rewrite Hfi in Ha.
    apply upd_act_ok; [|done]. split; [apply Ha|]. intros _. split; [by apply (holds_empty _ _ H)|done].
  - intros j. specialize (Hact j). specialize (Hcl j). unfold pipeclose in E.
    destruct w; simplify_eq; destruct (f j) as [|m bs a|m a] eqn:Ef; simpl in *; try done.
    + by destruct (Hcl m bs a).
    + destruct Hact as [Ha _]. by split.
    + destruct Hact as [Ha _]. by split.
    + by destruct (Hcl m a).
Qed.

(** ** Properties *)

Definition any_step (s t : psys) : Prop := ∃ k, pstep k s t.

Lemma init_holds junk : length junk = 512%nat → holds (pipealloc_init junk) [].
Proof. intros H. split; try done. simpl. lia. Qed.

(** [C10] A pipe is a FIFO: whatever any number of readers and writers do, in
    any interleaving and however often the 32-bit counters wrap around, the
    bytes read so far followed by the at most 512 bytes in the pipe are
    exactly the bytes written so far, in order; the full and empty tests of
    the code are right. *)
Theorem pipe_fifo junk s :
  length junk = 512%nat → rtc any_step (psys_init junk) s →
  ∃ q, sent s = recv s ++ q ∧ (length q ≤ 512)%nat ∧
       (full (thepipe s) = true ↔ length q = 512%nat) ∧ (empty (thepipe s) = true ↔ q = []).
Proof.
  intros Hj Hr. assert (H : fifo s).
  { assert (H0 : fifo (psys_init junk)) by (exists []; split; [by apply init_holds|done]).
    induction Hr as [|x y z [k Hk] _ IH]; [done|]. apply IH. by eapply fifo_step. }
  destruct H as [q [H Hs]]. exists q. split; [done|]. split; [apply H|].
  split; [by apply holds_full|by apply holds_empty].
Qed.

(** [C11] No lost wakeup and no deadlock among processes that are not
    killed: a writer sleeps only while the pipe is full and has a reader, a
    reader only while it is empty and has a writer, so they never sleep at
    the same time. *)
Theorem pipe_no_lost_wakeup junk s :
  length junk = 512%nat → rtc (pstep false) (psys_init junk) s →
  (∀ i n bs, act s i = Writing n bs true → full (thepipe s) = true ∧ readopen (thepipe s) = true) ∧
  (∀ i n, act s i = Reading n true → empty (thepipe s) = true ∧ writeopen (thepipe s) = true) ∧
  (∀ i j n m bs, act s i = Writing n bs true → act s j ≠ Reading m true).
Proof.
  intros Hj Hr. assert (H : no_lost s).
  { assert (H0 : no_lost (psys_init junk)).
    { split; [exists []; split; [by apply init_holds|done]|done]. }
    induction Hr as [|x y z Hk _ IH]; [done|]. apply IH. by eapply no_lost_step. }
  destruct H as [[q [H _]] Hact].
  assert (HW : ∀ i n bs, act s i = Writing n bs true → full (thepipe s) = true ∧ readopen (thepipe s) = true).
  { intros i n bs E. specialize (Hact i). rewrite E in Hact. by apply Hact. }
  assert (HR : ∀ i n, act s i = Reading n true → empty (thepipe s) = true ∧ writeopen (thepipe s) = true).
  { intros i n E. specialize (Hact i). rewrite E in Hact. by apply Hact. }
  split; [done|]. split; [done|]. intros i j n m bs E1 E2.
  destruct (HW i n bs E1) as [Hf _]. destruct (HR j m E2) as [He _].
  rewrite (full_not_empty _ _ H Hf) in He. done.
Qed.

Definition zeros (n : nat) : list Z := replicate n 0.

(** A killed writer can strand a reader: with a reader asleep on an
    empty pipe, a killed process that writes 513 bytes fills the pipe and
    returns -1 without the wakeup, so the reader stays asleep although the
    pipe holds 512 bytes and still has a writer. *)
Theorem killed_writer_strands_reader :
  ∃ s, rtc any_step (psys_init (zeros 512)) s ∧
       act s 0%nat = Reading 1 true ∧ full (thepipe s) = true ∧ writeopen (thepipe s) = true.
Proof.
  eexists. split.
  - eapply rtc_l; [exists false; by apply (start_read _ _ _ _ 0%nat 1%nat)|].
    eapply rtc_l; [exists false; eapply (read_sleeps _ _ _ _ 0%nat); reflexivity|].
    eapply rtc_l; [exists false; by apply (start_write _ _ _ _ 1%nat (zeros 513))|].
    eapply rtc_l; [exists true; eapply (write_done _ _ _ _ 1%nat _ (zeros 513) true (-1) None); vm_compute; reflexivity|].
    apply rtc_refl.
  - split_and!; vm_compute; reflexivity.
Qed.

(** ** Witnesses *)

Definition sys1 : psys :=
  mkSys (pipealloc_init (zeros 512)) (upd_act 0 (Reading 1 true) (upd_act 0 (Reading 1 false) (λ _, Idle))) [] [].

Lemma sys1_reach : rtc (pstep false) (psys_init (zeros 512)) sys1.
Proof.
  eapply rtc_l; [by apply (start_read _ _ _ _ 0%nat 1%nat)|].
  eapply rtc_l; [eapply (read_sleeps _ _ _ _ 0%nat); reflexivity|]. apply rtc_refl.
Qed.

Lemma pipe_fifo_witness :
  ∃ q, sent sys1 = recv sys1 ++ q ∧ (length q ≤ 512)%nat ∧
       (full (thepipe sys1) = true ↔ length q = 512%nat) ∧ (empty (thepipe sys1) = true ↔ q = []).
Proof.
  apply (pipe_fifo (zeros 512) sys1); [reflexivity|].
  eapply rtc_subrel; [|exact sys1_reach]. intros x y H. by exists false.
Defined.

Lemma pipe_no_lost_wakeup_witness :
  act sys1 0%nat = Reading 1 true ∧ empty (thepipe sys1) = true.
Proof.
  split; [reflexivity|].
  destruct (pipe_no_lost_wakeup (zeros 512) sys1 eq_refl sys1_reach) as (_ & H & _).
  apply (H 0%nat 1%nat). reflexivity.
Defined.
