(* ===== verification/Grep.v ===== *)
(** * grep (xv6/grep.c)

    The matcher of Kernighan and Pike against the language its pattern
    denotes, and the loop that cuts the input into lines.  A C string is the
    list of its bytes before the NUL. *)

From S2P Require Import Prelude.
Local Open Scope Z_scope.

Definition CARET : Z := 94.
Definition DOLLAR : Z := 36.
Definition STAR : Z := 42.
Definition DOT : Z := 46.
Definition NL : Z := 10.

(** ** The matcher *)

(** matchstar's do-while, [here] being matchhere on the rest of the pattern. *)
Fixpoint matchstar (here : list Z → bool) (c : Z) (text : list Z) : bool :=
  here text ||
  match text with
  | [] => false
  | t :: text => ((t =? c) || (c =? DOT)) && matchstar here c text
  end.

Definition is_nil (l : list Z) : bool := match l with [] => true | _ => false end.

Fixpoint matchhere (re text : list Z) : bool :=
  match re with
  | [] => true
  | c :: re1 =>
      match re1 with
      | s :: re2 =>
          if s =? STAR then matchstar (matchhere re2) c text
          else match text with
               | t :: text => ((c =? DOT) || (c =? t)) && matchhere re1 text
               | [] => false
               end
      | [] =>
          if c =? DOLLAR then is_nil text
          else match text with
               | t :: text => ((c =? DOT) || (c =? t)) && matchhere re1 text
               | [] => false
               end
      end
  end.

(** The do-while of match: every suffix of the text, the empty one included. *)
Fixpoint match_suffixes (re text : list Z) : bool :=
  matchhere re text ||
  match text with
  | [] => false
  | _ :: text => match_suffixes re text
  end.

Definition match_ (re text : list Z) : bool :=
  match re with
  | c :: re' => if c =? CARET then matchhere re' text else match_suffixes re text
  | [] => match_suffixes re text
  end.

(** ** The loop over the input *)

(** The first newline before a NUL: the line and what follows. *)
Fixpoint cut_line (b : list Z) : option (list Z * list Z) :=
  match b with
  | [] => None
  | c :: b => if c =? 0 then None
              else if c =? NL then Some ([], b)
              else '(l, r) ← cut_line b; Some (c :: l, r)
  end.

(** The inner while: the lines written, and the bytes from [p] on. *)
Fixpoint grep_scan (fuel : nat) (pattern p : list Z) : list (list Z) * list Z :=
  match fuel with
  | O => ([], p)
  | S fuel =>
      match cut_line p with
      | None => ([], p)
      | Some (line, rest) =>
          let '(out, r) := grep_scan fuel pattern rest in
          ((if match_ pattern line then [line ++ [NL]] else []) ++ out, r)
      end
  end.

(** One round of the outer while: [b] is buf[0..m) before the read. *)
Definition grep_round (pattern b chunk : list Z) : list (list Z) * list Z :=
  let b := b ++ chunk in
  let '(out, p) := grep_scan (S (length b)) pattern b in
  (out, if (length p =? length b)%nat then [] else p).

(** [chunks]: what the successive read calls return, up to the empty one. *)
Fixpoint grep (pattern b : list Z) (chunks : list (list Z)) : list (list Z) :=
  match chunks with
  | [] => []
  | c :: chunks =>
      match c with
      | [] => []
      | _ => let '(out, b) := grep_round pattern b c in out ++ grep pattern b chunks
      end
  end.

(** ** What a pattern means *)

Inductive item := Lit (c : Z) | Any | StarOf (c : Z).

(** The items of a pattern and whether it ends in $. *)
Fixpoint compile (re : list Z) : list item * bool :=
  match re with
  | [] => ([], false)
  | c :: re1 =>
      match re1 with
      | s :: re2 =>
          if s =? STAR then let '(l, e) := compile re2 in (StarOf c :: l, e)
          else let '(l, e) := compile re1 in ((if c =? DOT then Any else Lit c) :: l, e)
      | [] => if c =? DOLLAR then ([], true) else ([if c =? DOT then Any else Lit c], false)
      end
  end.

Inductive lang : list item → list Z → Prop :=
  | lang_nil : lang [] []
  | lang_lit c l w : lang l w → lang (Lit c :: l) (c :: w)
  | lang_any c l w : lang l w → lang (Any :: l) (c :: w)
  | lang_star0 c l w : lang l w → lang (StarOf c :: l) w
  | lang_star1 c t l w : t = c ∨ c = DOT → lang (StarOf c :: l) w → lang (StarOf c :: l) (t :: w).

(** [re] matches a prefix of [text], all of it when it ends in $. *)
Definition prefix_match (re text : list Z) : Prop :=
  ∃ w r, text = w ++ r ∧ lang (compile re).1 w ∧ ((compile re).2 = true → r = []).

(** ** Lemmas *)

Lemma matchstar_spec here c text l e :
  (∀ t, here t = true ↔ ∃ w r, t = w ++ r ∧ lang l w ∧ (e = true → r = [])) →
  matchstar here c text = true ↔
  ∃ w r, text = w ++ r ∧ lang (StarOf c :: l) w ∧ (e = true → r = []).
Proof.
  intros Hh. induction text as [|t text IH]; simpl; rewrite orb_true_iff, Hh.
  - split.
    + intros [(w & r & ? & ? & ?)|?]; [|done]. exists w, r. split_and!; [done|by apply lang_star0|done].
    + intros (w & r & E & Hl & He). left. symmetry in E. apply app_eq_nil in E as [-> ->].
      exists [], []. split_and!; try done. by inversion Hl.
  - rewrite andb_true_iff, orb_true_iff, !Z.eqb_eq, IH. split.
    + intros [(w & r & ? & ? & ?)|[Hc (w & r & -> & Hl & He)]].
      * exists w, r. split_and!; [done|by apply lang_star0|done].
      * exists (t :: w), r. split_and!; [done|by apply lang_star1|done].
    + intros (w & r & E & Hl & He). inversion Hl; subst.
      * left. by exists w, r.
      * right. simplify_eq/=. split; [tauto|]. by exists w0, r.
Qed.

(** A pattern that starts with one ordinary character. *)
Definition one (c : Z) : item := if c =? DOT then Any else Lit c.

Lemma lang_one c l w :
  lang (one c :: l) w ↔ ∃ t w', w = t :: w' ∧ (c = DOT ∨ c = t) ∧ lang l w'.
Proof.
  unfold one. destruct (Z.eqb_spec c DOT) as [->|Hc]; split.
  - intros Hl. inversion Hl; subst. by eexists _, _; split_and!; [|left|].
  - intros (t & w' & -> & _ & Hl). by constructor.
  - intros Hl. inversion Hl; subst. by eexists _, _; split_and!; [|right|].
  - intros (t & w' & -> & [?| ->] & Hl); [done|by constructor].
Qed.

Lemma prefix_one c re text :
  compile (c :: re) = (one c :: (compile re).1, (compile re).2) →
  prefix_match (c :: re) text ↔
  match text with
  | t :: text => (c = DOT ∨ c = t) ∧ prefix_match re text
  | [] => False
  end.
Proof.
  intros E. unfold prefix_match. rewrite E. cbn [fst snd]. destruct text as [|t text]; split.
  - intros (w & r & Ew & Hl & _). apply lang_one in Hl as (? & ? & -> & _). done.
  - done.
  - intros (w & r & Ew & Hl & He). apply lang_one in Hl as (t' & w' & -> & Hc & Hl).
    injection Ew as -> ->. split; [done|]. by exists w', r.
  - intros [Hc (w & r & -> & Hl & He)]. exists (t :: w), r. split_and!; [done| |done].
    apply lang_one. by exists t, w.
Qed.

Lemma prefix_nil text : prefix_match [] text.
Proof. exists [], text. split_and!; [done|constructor|done]. Qed.

Lemma step_test c (t : Z) (b : bool) (P : Prop) :
  (b = true ↔ P) → ((c =? DOT) || (c =? t)) && b = true ↔ (c = DOT ∨ c = t) ∧ P.
Proof. intros H. by rewrite andb_true_iff, orb_true_iff, !Z.eqb_eq, H. Qed.

Lemma matchhere_spec n re text :
  (length re ≤ n)%nat → matchhere re text = true ↔ prefix_match re text.
Proof.
  revert re text. induction n as [|n IH]; intros [|c re] text Hn; simpl in Hn; try lia;
    try (split; [intros _; apply prefix_nil|done]).
  destruct re as [|s re].
  - cbn [matchhere]. destruct (c =? DOLLAR) eqn:Ed.
    + unfold prefix_match. cbn [compile]. rewrite Ed. cbn [fst snd]. split.
      * destruct text; [|done]. intros _. exists [], []. split_and!; [done|constructor|done].
      * intros (w & r & -> & Hl & He). rewrite (He eq_refl). by inversion Hl.
    + rewrite prefix_one by (cbn [compile]; by rewrite Ed).
      destruct text as [|t text]; [done|]. apply step_test. split; [intros _; apply prefix_nil|done].
  - destruct (s =? STAR) eqn:Es.
    + cbn [matchhere]. rewrite Es.
      rewrite (matchstar_spec _ c text (compile re).1 (compile re).2).
      * unfold prefix_match. cbn [compile]. rewrite Es. by destruct (compile re).
      * intros t. apply IH. simpl in Hn. lia.
    + rewrite prefix_one.
      2:{ change (compile (c :: s :: re)) with
            (if s =? STAR then let '(l, e) := compile re in (StarOf c :: l, e)
             else let '(l, e) := compile (s :: re) in (one c :: l, e)).
          rewrite Es. by destruct (compile (s :: re)). }
      change (matchhere (c :: s :: re) text) with
        (if s =? STAR then matchstar (matchhere re) c text
         else match text with
              | t :: text => ((c =? DOT) || (c =? t)) && matchhere (s :: re) text
              | [] => false
              end).
      rewrite Es. destruct text as [|t text]; [done|]. apply step_test, IH. simpl in *. lia.
Qed.

Lemma match_suffixes_spec re text :
  match_suffixes re text = true ↔ ∃ l r, text = l ++ r ∧ prefix_match re r.
Proof.
  induction text as [|t text IH]; simpl; rewrite orb_true_iff, (matchhere_spec (length re)) by done.
  - split; [intros [H|?]; [by exists [], []|done]|].
    intros (l & r & E & H). symmetry in E. apply app_eq_nil in E as [-> ->]. by left.
  - rewrite IH. split.
    + intros [H|(l & r & -> & H)]; [by exists [], (t :: text)|by exists (t :: l), r].
    + intros ([|x l] & r & E & H); simplify_eq/=; [by left|right; by exists l, r].
Qed.

(** Cutting lines. *)
Fixpoint lines (b : list Z) (cur : list Z) : list (list Z) * list Z :=
  match b with
  | [] => ([], cur)
  | c :: b => if c =? NL then let '(ls, r) := lines b [] in (cur :: ls, r) else lines b (cur ++ [c])
  end.

Lemma lines_app b1 b2 cur :
  lines (b1 ++ b2) cur =
  ((lines b1 cur).1 ++ (lines b2 (lines b1 cur).2).1, (lines b2 (lines b1 cur).2).2).
Proof.
  revert cur. induction b1 as [|c b1 IH]; intros cur; simpl; [by destruct (lines b2 cur)|].
  destruct (c =? NL); [|apply IH]. rewrite IH. by destruct (lines b1 []).
Qed.

Lemma cut_line_lines b cur :
  Forall (.≠ 0) b →
  lines b cur = match cut_line b with
                | None => ([], cur ++ b)
                | Some (l, r) => ((cur ++ l) :: (lines r []).1, (lines r []).2)
                end ∧
  (∀ l r, cut_line b = Some (l, r) → (length r < length b)%nat ∧ Forall (.≠ 0) r).
Proof.
  revert cur. induction b as [|c b IH]; intros cur Hb; simpl; [by rewrite app_nil_r|].
  apply Forall_cons in Hb as [Hc Hb]. rewrite (proj2 (Z.eqb_neq c 0) Hc).
  destruct (c =? NL).
  - rewrite app_nil_r. split; [by destruct (lines b [])|]. intros l r [= <- <-]. split; [lia|done].
  - destruct (IH (cur ++ [c]) Hb) as [-> H2]. destruct (cut_line b) as [[l r]|]; simpl.
    + rewrite <-app_assoc. split; [done|]. intros l' r' [= <- <-].
      destruct (H2 l r eq_refl). split; [lia|done].
    + by rewrite <-app_assoc.
Qed.

(** The lines grep writes. *)
Definition hits (pattern : list Z) (ls : list (list Z)) : list (list Z) :=
  (λ l, l ++ [NL]) <$> filter (λ l, match_ pattern l = true) ls.

Lemma hits_cons pattern l ls :
  hits pattern (l :: ls) = (if match_ pattern l then [l ++ [NL]] else []) ++ hits pattern ls.
Proof.
  unfold hits. rewrite filter_cons. destruct (match_ pattern l) eqn:E.
  - by rewrite decide_True.
  - rewrite decide_False by done. done.
Qed.

Lemma hits_app pattern l k : hits pattern (l ++ k) = hits pattern l ++ hits pattern k.
Proof. unfold hits. by rewrite filter_app, fmap_app. Qed.

Lemma grep_scan_spec fuel pattern p :
  (length p < fuel)%nat → Forall (.≠ 0) p →
  grep_scan fuel pattern p = (hits pattern (lines p []).1, (lines p []).2).
Proof.
  revert p. induction fuel as [|fuel IH]; intros p Hf Hp; [lia|]. simpl.
  destruct (cut_line_lines p [] Hp) as [-> H2]. destruct (cut_line p) as [[l r]|]; [|done].
  destruct (H2 l r eq_refl). rewrite IH by (done || lia). simpl. by rewrite hits_cons.
Qed.

(** A buffer with a newline shrinks. *)
Lemma lines_rest b cur :
  (length (lines b cur).2 ≤ length cur + length b)%nat ∧
  (NL ∈ b → (length (lines b cur).2 < length b)%nat) ∧
  (Forall (.≠ 0) cur → Forall (.≠ 0) b → Forall (.≠ 0) (lines b cur).2).
Proof.
  revert cur. induction b as [|c b IH]; intros cur; simpl.
  { split_and!; [lia|by intros ?%not_elem_of_nil|done]. }
  destruct (Z.eqb_spec c NL) as [->|Hc].
  - destruct (IH []) as (H1 & _ & H3). destruct (lines b []) as [ls r]. simpl in *.
    split_and!; [lia|lia|]. intros _ [_ ?]%Forall_cons. by apply H3.
  - destruct (IH (cur ++ [c])) as (H1 & H2 & H3). rewrite length_app in H1. simpl in H1. split_and!.
    + lia.
    + intros [?|Hin]%elem_of_cons; [done|]. specialize (H2 Hin). lia.
    + intros Hcur [? ?]%Forall_cons. apply H3; [|done]. apply Forall_app. split; [done|].
      by apply Forall_singleton.
Qed.

Lemma lines_none b cur : NL ∉ b → lines b cur = ([], cur ++ b).
Proof.
  revert cur. induction b as [|c b IH]; intros cur Hb; simpl; [by rewrite app_nil_r|].
  apply not_elem_of_cons in Hb as [Hc Hb].
  destruct (Z.eqb_spec c NL); [congruence|]. rewrite IH by done. by rewrite <-app_assoc.
Qed.

Lemma lines_rest_none b cur : NL ∉ cur → NL ∉ (lines b cur).2.
Proof.
  revert cur. induction b as [|c b IH]; intros cur Hcur; simpl; [done|].
  destruct (Z.eqb_spec c NL) as [->|Hc].
  - specialize (IH [] ltac:(by apply not_elem_of_nil)). by destruct (lines b []).
  - apply IH. rewrite elem_of_app, list_elem_of_singleton. intros [?|?]; congruence.
Qed.

Lemma grep_run pattern b chunks :
  Forall (.≠ 0) b → NL ∉ b → Forall (λ c, Forall (.≠ 0) c ∧ NL ∈ c) chunks →
  grep pattern b chunks = hits pattern (lines (b ++ concat chunks) []).1.
Proof.
  revert b. induction chunks as [|c chunks IH]; intros b Hb Hn Hc; simpl.
  { by rewrite app_nil_r, lines_none. }
  apply Forall_cons in Hc as [[Hc Hnl] Hcs].
  destruct c as [|x c]; [by apply not_elem_of_nil in Hnl|]. set (ch := x :: c) in *.
  unfold grep_round. assert (Hbc : Forall (.≠ 0) (b ++ ch)) by (by apply Forall_app).
  rewrite grep_scan_spec by (done || lia).
  destruct (lines_rest (b ++ ch) []) as (_ & H2 & H3).
  assert (Hin : NL ∈ b ++ ch) by (apply elem_of_app; by right).
  specialize (H2 Hin). specialize (H3 ltac:(by constructor) Hbc).
  assert (Hr : NL ∉ (lines (b ++ ch) []).2) by (apply lines_rest_none, not_elem_of_nil).
  replace (length (lines (b ++ ch) []).2 =? length (b ++ ch))%nat with false
    by (symmetry; apply Nat.eqb_neq; lia).
  rewrite app_assoc, (lines_app (b ++ ch)). cbn [fst]. rewrite hits_app. f_equal.
  rewrite IH by done. f_equal. rewrite lines_app, lines_none by done. simpl. done.
Qed.

(** ** Properties *)

(** [C25] match decides the language of the pattern: it returns true exactly
    when the text contains a match of the pattern's items, at its start if
    the pattern begins with ^, and reaching its end if it ends in $. *)
Theorem match_spec re text :
  match_ re text = true ↔
  ∃ l w r, text = l ++ w ++ r ∧
    match re with
    | c :: re' =>
        if c =? CARET then l = [] ∧ lang (compile re').1 w ∧ ((compile re').2 = true → r = [])
        else lang (compile re).1 w ∧ ((compile re).2 = true → r = [])
    | [] => w = []
    end.
Proof.
  assert (Hs : match_suffixes re text = true ↔
    ∃ l w r, text = l ++ w ++ r ∧ lang (compile re).1 w ∧ ((compile re).2 = true → r = [])).
  { rewrite match_suffixes_spec. split.
    - intros (l & r' & -> & w & r & -> & ?). by exists l, w, r.
    - intros (l & w & r & -> & ?). exists l, (w ++ r). split; [done|]. by exists w, r. }
  destruct re as [|c re]; simpl match_.
  - rewrite Hs. split; intros (l & w & r & -> & Hw); exists l, w, r; (split; [done|]).
    + destruct Hw as [Hl _]. by inversion Hl.
    + subst w. split; [constructor|done].
  - destruct (c =? CARET); [|done]. rewrite (matchhere_spec (length re)) by done. split.
    + intros (w & r & -> & ? & ?). by exists [], w, r.
    + intros (l & w & r & -> & -> & ? & ?). by exists w, r.
Qed.

(** grep prints exactly the matching lines, in order, of input that
    arrives with a newline in every read, for instance line by line from the
    console; a last line without a newline is not printed. *)
Theorem grep_spec pattern chunks :
  Forall (λ c, Forall (.≠ 0) c ∧ NL ∈ c) chunks →
  grep pattern [] chunks = hits pattern (lines (concat chunks) []).1.
Proof. intros H. rewrite (grep_run pattern [] chunks); [done|constructor|apply not_elem_of_nil|done]. Qed.

(** A read that returns no newline empties the buffer: a line that
    arrives in two reads is lost although it matches. *)
Theorem grep_loses_split_line :
  let ab := [97; 98] in
  grep ab [] [[97]; [98; NL]] = [] ∧ hits ab (lines ([97] ++ [98; NL]) []).1 = [[97; 98; NL]].
Proof. by vm_compute. Qed.

(** ** Witnesses *)

Lemma grep_spec_witness :
  grep [97; DOT; STAR; DOLLAR] [] [[98; NL; 97]; [99; NL; 98; NL]] = [[97; 99; NL]].
Proof.
  apply (grep_spec [97; DOT; STAR; DOLLAR] [[98; NL; 97]; [99; NL; 98; NL]]).
  repeat constructor; done.
Defined.
