(* ===== verification/Console.v ===== *)
(** * The console (xv6/console.c, the number printing of xv6/printf.c)

    Output: formatting, the CGA screen and the serial port.  Input: the line
    discipline between consoleintr, which runs with input.lock held for each
    batch of characters, and consoleread, one segment of which runs from
    taking the lock to sleeping or returning. *)

From S2P Require Import Prelude Kernel.
Local Open Scope Z_scope.

(** ** Numbers and formats *)

(** digits[x % base]: upper case in printf.c, lower case in console.c. *)
Definition digit (upper : bool) (d : Z) : Z :=
  if d <? 10 then 48 + d else if upper then 55 + d else 87 + d.

(** The do-while of printint; [buf] holds the digits, the last one first. *)
Fixpoint print_digits (fuel : nat) (upper : bool) (x base : Z) (buf : list Z) : list Z :=
  match fuel with
  | O => buf
  | S fuel => let buf := buf ++ [digit upper (x mod base)] in
              if x / base =? 0 then buf else print_digits fuel upper (x / base) base buf
  end.

(** At most 32 digits, with base 2; the bytes in the order they are put. *)
Definition printint (upper : bool) (xx base : Z) (sgn : bool) : list Z :=
  let neg := sgn && (xx <? 0) in
  let x := if neg then u32 (- xx) else u32 xx in
  let buf := print_digits 32 upper x base [] in
  rev (buf ++ if neg then [45] else []).

Definition null_str : list Z := [40; 110; 117; 108; 108; 41].

(** The conversions of printf.c; [str] reads the string at an address. *)
Section printf.
Context (str : Z → list Z).

Definition str_arg (a : Z) : list Z := if a =? 0 then null_str else str a.

(** [state] is whether a percent sign was just seen; missing arguments are
    undefined. *)
Fixpoint printf_loop (fmt : list Z) (state : bool) (ap : list Z) : option (list Z) :=
  match fmt with
  | [] => Some []
  | c :: fmt =>
      if state then
        if c =? 100 then                       (* %d *)
          match ap with
          | x :: ap => r ← printf_loop fmt false ap; Some (printint true (i32 x) 10 true ++ r)
          | [] => None
          end
        else if (c =? 120) || (c =? 112) then  (* %x, %p *)
          match ap with
          | x :: ap => r ← printf_loop fmt false ap; Some (printint true (i32 x) 16 false ++ r)
          | [] => None
          end
        else if c =? 115 then                  (* %s *)
          match ap with
          | x :: ap => r ← printf_loop fmt false ap; Some (str_arg x ++ r)
          | [] => None
          end
        else if c =? 99 then                   (* %c *)
          match ap with
          | x :: ap => r ← printf_loop fmt false ap; Some (u8 x :: r)
          | [] => None
          end
        else if c =? 37 then
          r ← printf_loop fmt false ap; Some (c :: r)
        else
          r ← printf_loop fmt false ap; Some (37 :: c :: r)
      else if c =? 37 then printf_loop fmt true ap
      else r ← printf_loop fmt false ap; Some (c :: r)
  end.
Definition printf (fmt ap : list Z) : option (list Z) := printf_loop fmt false ap.

(** cprintf: no %c, and a percent sign at the end stops it. *)
Fixpoint cprintf_loop (fmt : list Z) (argp : list Z) : option (list Z) :=
  match fmt with
  | [] => Some []
  | c :: fmt =>
      if negb (c =? 37) then r ← cprintf_loop fmt argp; Some (c :: r)
      else
        match fmt with
        | [] => Some []
        | c :: fmt =>
            if c =? 100 then
              match argp with
              | x :: argp => r ← cprintf_loop fmt argp; Some (printint false (i32 x) 10 true ++ r)
              | [] => None
              end
            else if (c =? 120) || (c =? 112) then
              match argp with
              | x :: argp => r ← cprintf_loop fmt argp; Some (printint false (i32 x) 16 false ++ r)
              | [] => None
              end
            else if c =? 115 then
              match argp with
              | x :: argp => r ← cprintf_loop fmt argp; Some (str_arg x ++ r)
              | [] => None
              end
            else if c =? 37 then r ← cprintf_loop fmt argp; Some (37 :: r)
            else r ← cprintf_loop fmt argp; Some (37 :: c :: r)
        end
  end.
End printf.

(** ** State *)

Definition INPUT_BUF : Z := 128.
Definition BACKSPACE : Z := 256.
Definition CTRL (x : Z) : Z := x - 64.

(** The serial port's output, the CGA cursor and memory, struct input, the
    number of wakeup(&input.r) and procdump calls, and panicked. *)
Record console := mkCons {
  uart : list Z;
  cursor : Z;
  crt : list Z;
  ibuf : list Z;
  ir : Z; iw : Z; ie : Z;
  iwoken : nat;
  idumps : nat;
  panicked : bool;
}.

Definition set_screen (p : Z) (m : list Z) (s : console) : console :=
  mkCons (uart s) p m (ibuf s) (ir s) (iw s) (ie s) (iwoken s) (idumps s) (panicked s).
Definition set_uart (u : list Z) (s : console) : console :=
  mkCons u (cursor s) (crt s) (ibuf s) (ir s) (iw s) (ie s) (iwoken s) (idumps s) (panicked s).
Definition set_edit (e : Z) (s : console) : console :=
  mkCons (uart s) (cursor s) (crt s) (ibuf s) (ir s) (iw s) e (iwoken s) (idumps s) (panicked s).
Definition set_ibuf (b : list Z) (s : console) : console :=
  mkCons (uart s) (cursor s) (crt s) b (ir s) (iw s) (ie s) (iwoken s) (idumps s) (panicked s).
Definition set_ir (r : Z) (s : console) : console :=
  mkCons (uart s) (cursor s) (crt s) (ibuf s) r (iw s) (ie s) (iwoken s) (idumps s) (panicked s).
Definition commit_input (s : console) : console :=
  mkCons (uart s) (cursor s) (crt s) (ibuf s) (ir s) (ie s) (ie s) (S (iwoken s)) (idumps s) (panicked s).
Definition count_dump (s : console) : console :=
  mkCons (uart s) (cursor s) (crt s) (ibuf s) (ir s) (iw s) (ie s) (iwoken s) (S (idumps s)) (panicked s).

(** ** Output *)

(** crt[pos] = v; outside the 25 lines of the screen is undefined. *)
Definition crt_put (pos v : Z) : M console unit :=
  s ← gets (λ s, s);
  if (0 <=? pos) && (pos <? Z.of_nat (length (crt s)))
  then modify (λ s, set_screen (cursor s) (<[Z.to_nat pos := v]> (crt s)) s) else fault.

(** memmove of 23 lines up, then zeros from [pos - 80] to the end of line 24. *)
Definition scroll (pos : Z) (m : list Z) : list Z :=
  let m := take (23 * 80) (drop 80 m) ++ drop (23 * 80) m in
  let p := Z.to_nat (pos - 80) in
  take p m ++ replicate (24 * 80 - p) 0 ++ drop (24 * 80) m.

Definition cgaputc (c : Z) : M console unit :=
  pos ← gets cursor;
  pos ← (if c =? 10 then mret (pos + (80 - pos mod 80))
         else if c =? BACKSPACE then mret (if 0 <? pos then pos - 1 else pos)
         else crt_put pos (Z.lor (Z.land c 255) 1792) ;; mret (pos + 1));
  pos ← (if 24 <=? pos / 80 then
           if 24 * 80 <? pos - 80 then fault else
           modify (λ s, set_screen (cursor s) (scroll pos (crt s)) s) ;; mret (pos - 80)
         else mret pos);
  modify (λ s, set_screen (u16 pos) (crt s) s) ;;
  crt_put pos (Z.lor 32 1792).

Definition consputc (c : Z) : M console unit :=
  p ← gets panicked;
  if (p : bool) then spins else
  modify (λ s, set_uart (uart s ++ if c =? BACKSPACE then [8; 32; 8] else [c]) s) ;;
  cgaputc c.

(** ** Input *)

(** input.buf[k % INPUT_BUF] *)
Definition ibuf_at (k : Z) (s : console) : Z := nth (Z.to_nat (u32 k mod INPUT_BUF)) (ibuf s) 0.

(** The while loop of control-U. *)
Fixpoint kill_line (fuel : nat) : M console unit :=
  match fuel with
  | O => fault
  | S fuel =>
      s ← gets (λ s, s);
      if negb (ie s =? iw s) && negb (ibuf_at (ie s - 1) s =? 10)
      then modify (set_edit (u32 (ie s - 1))) ;; consputc BACKSPACE ;; kill_line fuel
      else mret tt
  end.

(** The body of consoleintr's loop. *)
Definition consoleintr_char (c : Z) : M console unit :=
  if c =? CTRL 80 then modify count_dump
  else if c =? CTRL 85 then kill_line (Z.to_nat INPUT_BUF + 1)
  else if (c =? CTRL 72) || (c =? 127) then
    s ← gets (λ s, s);
    if negb (ie s =? iw s)
    then modify (set_edit (u32 (ie s - 1))) ;; consputc BACKSPACE else mret tt
  else
    s ← gets (λ s, s);
    if negb (c =? 0) && (u32 (ie s - ir s) <? INPUT_BUF) then
      let c := if c =? 13 then 10 else c in
      modify (λ s, set_edit (u32 (ie s + 1))
                (set_ibuf (<[Z.to_nat (ie s mod INPUT_BUF) := u8 c]> (ibuf s)) s)) ;;
      consputc c ;;
      s ← gets (λ s, s);
      if (c =? 10) || (c =? CTRL 68) || (ie s =? u32 (ir s + INPUT_BUF))
      then modify commit_input else mret tt
    else mret tt.

(** [cs]: what getc returns before it returns a negative number. *)
Definition consoleintr (cs : list Z) : M console unit := forM cs consoleintr_char.

(** How a segment of consoleread ends: it returns the bytes read so far (the
    result is their number), returns -1, or sleeps with [n] bytes to go. *)
Inductive read_end :=
  | RDone (dst : list Z)
  | RKilled
  | RSleeps (dst : list Z) (n : Z).

(** The while loop from [n] bytes to go; [dst] is what was stored so far. *)
Fixpoint consoleread (fuel : nat) (killed : bool) (target n : Z) (dst : list Z) (s : console)
    : read_end * console :=
  match fuel with
  | O => (RDone dst, s)
  | S fuel =>
      if 0 <? n then
        if ir s =? iw s then (if killed then RKilled else RSleeps dst n, s) else
        let c := ibuf_at (ir s) s in
        let s := set_ir (u32 (ir s + 1)) s in
        if c =? CTRL 68 then
          (RDone dst, if n <? target then set_ir (u32 (ir s - 1)) s else s)
        else if c =? 10 then (RDone (dst ++ [c]), s)
        else consoleread fuel killed target (n - 1) (dst ++ [c]) s
      else (RDone dst, s)
  end.

Definition consolewrite (buf : list Z) : M console Z :=
  forM buf (λ c, consputc (Z.land c 255)) ;;
  mret (Z.of_nat (length buf)).

(** ** Lemmas: numbers *)

(** The value of a digit string. *)
Definition digit_val (c : Z) : Z := if c <? 58 then c - 48 else if c <? 91 then c - 55 else c - 87.
Definition value (base : Z) (s : list Z) : Z := foldl (λ a c, base * a + digit_val c) 0 s.

Lemma digit_val_digit upper d : 0 ≤ d < 16 → digit_val (digit upper d) = d.
Proof. intros. unfold digit_val, digit. destruct upper; zcmp. Qed.

Lemma value_snoc base s c : value base (s ++ [c]) = base * value base s + digit_val c.
Proof. unfold value. by rewrite foldl_app. Qed.

(** The digits, read back from the last one, and how many there are. *)
Lemma print_digits_spec fuel upper x base buf :
  2 ≤ base ≤ 16 → 0 ≤ x < 2 ^ Z.of_nat fuel → (0 < fuel)%nat →
  ∃ ds, print_digits fuel upper x base buf = buf ++ ds ∧ value base (rev ds) = x ∧
    (0 < length ds ≤ fuel)%nat ∧ (∀ k, 0 < k → x < base ^ k → Z.of_nat (length ds) ≤ k) ∧
    Forall (λ c, ∃ d, 0 ≤ d < base ∧ c = digit upper d) ds.
Proof.
  intros Hb. revert x buf. induction fuel as [|fuel IH]; intros x buf Hx Hf; [lia|].
  cbn [print_digits]. assert (Hm : 0 ≤ x mod base < base) by (apply Z.mod_pos_bound; lia).
  assert (Hdm : x = base * (x / base) + x mod base) by (apply Z.div_mod; lia).
  destruct (Z.eqb_spec (x / base) 0) as [E|E].
  - exists [digit upper (x mod base)]. simpl. split_and!; [done| |lia|lia|intros; lia|].
    + unfold value. simpl. rewrite digit_val_digit by lia. rewrite Hdm at 2. rewrite E. lia.
    + constructor; [|done]. by exists (x mod base).
  - assert (0 ≤ x / base) by (apply Z.div_pos; lia).
    assert (Hfu : x / base < 2 ^ Z.of_nat fuel).
    { apply Z.div_lt_upper_bound; [lia|]. rewrite Nat2Z.inj_succ, Z.pow_succ_r in Hx by lia. nia. }
    destruct (IH (x / base) (buf ++ [digit upper (x mod base)])) as (ds & E1 & E2 & E3 & E4 & E5).
    { lia. }
    { destruct fuel; [|lia]. simpl in Hfu. lia. }
    exists (digit upper (x mod base) :: ds). rewrite E1, <-app_assoc. simpl. split_and!; [done| |lia|lia| |].
    + rewrite value_snoc, E2, digit_val_digit by lia. lia.
    + intros k Hk Hxk. destruct (Z.eq_dec k 1) as [->|].
      { rewrite Z.pow_1_r in Hxk. exfalso. apply E. apply Z.div_small. lia. }
      enough (Z.of_nat (length ds) ≤ k - 1) by lia. apply E4; [lia|].
      apply Z.div_lt_upper_bound; [lia|]. rewrite <-Z.pow_succ_r by lia.
      by replace (Z.succ (k - 1)) with k by lia.
    + constructor; [|done]. by exists (x mod base).
Qed.

(** ** Lemmas: the screen *)

(** The screen is 25 lines and the cursor is in the first 24. *)
Definition screen_ok (s : console) : Prop := length (crt s) = 2000%nat ∧ 0 ≤ cursor s < 24 * 80.

(** What output leaves alone. *)
Definition same_input (s s' : console) : Prop :=
  ibuf s' = ibuf s ∧ ir s' = ir s ∧ iw s' = iw s ∧ ie s' = ie s ∧ iwoken s' = iwoken s ∧
  panicked s' = panicked s.

Lemma scroll_length pos m :
  length m = 2000%nat → 0 ≤ pos - 80 ≤ 24 * 80 → length (scroll pos m) = 2000%nat.
Proof.
  intros Hm Hp. unfold scroll.
  set (m' := take (23 * 80) (drop 80 m) ++ drop (23 * 80) m).
  assert (Hm' : length m' = 2000%nat).
  { unfold m'. rewrite length_app, length_take, !length_drop, Hm. done. }
  rewrite !length_app, length_take, length_replicate, length_drop, Hm'. lia.
Qed.

Lemma wp_crt_put s pos v (Q : unit → console → Prop) :
  length (crt s) = 2000%nat → 0 ≤ pos < 2000 →
  Q tt (set_screen (cursor s) (<[Z.to_nat pos := v]> (crt s)) s) → wp (crt_put pos v) Q s.
Proof.
  intros Hl Hp HQ. unfold crt_put. wstep. wstep. rewrite Hl.
  replace (0 <=? pos) with true by (symmetry; apply Z.leb_le; lia).
  replace (pos <? Z.of_nat 2000) with true by (symmetry; apply Z.ltb_lt; lia). by wstep.
Qed.

Lemma wp_cgaputc s c :
  screen_ok s → wp (cgaputc c) (λ _ s', screen_ok s' ∧ same_input s s' ∧ uart s' = uart s) s.
Proof.
  intros [Hl Hc]. unfold cgaputc. wstep. wstep.
  assert (H : wp (if c =? 10 then mret (cursor s + (80 - cursor s mod 80))
         else if c =? BACKSPACE then mret (if 0 <? cursor s then cursor s - 1 else cursor s)
         else crt_put (cursor s) (Z.lor (Z.land c 255) 1792) ;; mret (cursor s + 1))
      (λ pos s', length (crt s') = 2000%nat ∧ 0 ≤ pos ≤ 24 * 80 ∧ same_input s s' ∧ uart s' = uart s) s).
  { repeat wstep; try (split_and!; try done; zdm).
    - destruct (0 <? cursor s) eqn:E'; bool_facts; split_and!; try done; lia.
    - apply wp_crt_put; [done|lia|]. wstep. simpl. rewrite length_insert. split_and!; try done; lia. }
  wstep. eapply wp_mono; [exact H|]. clear H. intros pos s1 (H1 & H2 & H3 & H4).
  wstep. destruct (Z.leb_spec 24 (pos / 80)) as [Hs|Hs].
  - replace (24 * 80 <? pos - 80) with false by (symmetry; apply Z.ltb_ge; lia).
    wstep. wstep. wstep. wstep. wstep. unfold u16.
    apply wp_crt_put; simpl; [apply scroll_length; [done|zdm]|zdm|].
    split_and!; simpl; try done; rewrite ?length_insert.
    + split; simpl; rewrite ?length_insert; [apply scroll_length; [done|zdm]|zdm].
  - wstep. wstep. wstep. unfold u16. apply wp_crt_put; simpl; [done|zdm|].
    split_and!; simpl; try done. split; simpl; rewrite ?length_insert; [done|zdm].
Qed.

Lemma wp_consputc s c :
  screen_ok s → panicked s = false →
  wp (consputc c) (λ _ s', screen_ok s' ∧ same_input s s') s.
Proof.
  intros Hs Hp. unfold consputc. wstep. wstep. rewrite Hp. wstep. wstep.
  eapply wp_mono; [apply wp_cgaputc; done|]. by intros _ s' (? & ? & _).
Qed.

(** ** The line discipline, abstractly

    [ready] are the bytes consoleread may take, [line] the line being
    edited. *)
Record cin := mkCin { ready : list Z; line : list Z }.

Definition a_key (c : Z) (a : cin) : cin :=
  if c =? CTRL 80 then a
  else if c =? CTRL 85 then mkCin (ready a) []
  else if (c =? CTRL 72) || (c =? 127) then mkCin (ready a) (take (length (line a) - 1) (line a))
  else if negb (c =? 0) && (Z.of_nat (length (ready a) + length (line a)) <? INPUT_BUF) then
    let c := if c =? 13 then 10 else c in
    let l := line a ++ [u8 c] in
    if (c =? 10) || (c =? CTRL 68) || (Z.of_nat (length (ready a) + length l) =? INPUT_BUF)
    then mkCin (ready a ++ l) [] else mkCin (ready a) l
  else a.

(** Taking [n] bytes: up to and with a newline; an end-of-file mark ends the
    read and stays for the next one unless nothing was read. *)
Fixpoint a_read (killed : bool) (first : bool) (n : nat) (dst rd : list Z) : read_end * list Z :=
  match n with
  | O => (RDone dst, rd)
  | S n' =>
      match rd with
      | [] => (if killed then RKilled else RSleeps dst (Z.of_nat n), rd)
      | c :: rd' =>
          if c =? CTRL 68 then (RDone dst, if first then rd' else rd)
          else if c =? 10 then (RDone (dst ++ [c]), rd')
          else a_read killed false n' (dst ++ [c]) rd'
      end
  end.

(** The ring buffer holds [l] from index [k] on. *)
Definition ring (b : list Z) (k : Z) (l : list Z) : Prop :=
  ∀ i x, l !! i = Some x → b !! Z.to_nat ((k + Z.of_nat i) mod INPUT_BUF) = Some x.

Record cons_rep (s : console) (a : cin) : Prop := {
  cr_screen : screen_ok s;
  cr_live : panicked s = false;
  cr_len : length (ibuf s) = 128%nat;
  cr_room : (length (ready a) + length (line a) ≤ 128)%nat;
  cr_r : is_u32 (ir s);
  cr_w : iw s = u32 (ir s + Z.of_nat (length (ready a)));
  cr_e : ie s = u32 (ir s + Z.of_nat (length (ready a) + length (line a)));
  cr_ring : ring (ibuf s) (ir s) (ready a ++ line a);
  cr_line : 10 ∉ line a;
}.

Lemma u32_mod128 x : u32 x mod 128 = x mod 128.
Proof. change 128 with (2 ^ 7). apply u32_mod_pow2. lia. Qed.

Lemma u32_eq_small x i j : 0 ≤ i < 4294967296 → 0 ≤ j < 4294967296 → u32 (x + i) = u32 (x + j) → i = j.
Proof. unfold u32. intros. zdm. Qed.

Lemma ring_put b k l c :
  ring b k l → length b = 128%nat → (length l < 128)%nat →
  ring (<[Z.to_nat ((k + Z.of_nat (length l)) mod INPUT_BUF) := c]> b) k (l ++ [c]).
Proof.
  intros Hr Hb Hl i x Hi. change INPUT_BUF with 128 in *.
  assert (0 ≤ (k + Z.of_nat (length l)) mod 128 < 128) by (apply Z.mod_pos_bound; lia).
  rewrite lookup_insert_case by (rewrite Hb; lia).
  apply lookup_app_Some in Hi as [Hi|[Hi Hx]].
  - pose proof (lookup_lt_Some _ _ _ Hi). rewrite decide_False; [by apply Hr|]. intros E.
    assert (0 ≤ (k + Z.of_nat i) mod 128 < 128) by (apply Z.mod_pos_bound; lia).
    assert (E' : (k + Z.of_nat (length l)) mod 128 = (k + Z.of_nat i) mod 128) by lia. zdm.
  - apply list_lookup_singleton_Some in Hx as [? ->]. replace i with (length l) by lia.
    by rewrite decide_True.
Qed.

Lemma ring_take b k l n : ring b k l → ring b k (take n l).
Proof. intros Hr i x [? Hi]%lookup_take_Some. by apply Hr. Qed.

Lemma ring_drop b k c l : ring b k (c :: l) → ring b (u32 (k + 1)) l.
Proof.
  intros Hr i x Hi. specialize (Hr (S i) x Hi). change INPUT_BUF with 128 in *.
  rewrite <-Zplus_mod_idemp_l, u32_mod128, Zplus_mod_idemp_l.
  by replace (k + 1 + Z.of_nat i) with (k + Z.of_nat (S i)) by lia.
Qed.

(** Output does not disturb the representation. *)
Lemma rep_output s s' a : cons_rep s a → screen_ok s' → same_input s s' → cons_rep s' a.
Proof.
  intros [H1 H2 H3 H4 H5 H6 H7 H8 H9] Hs (E1 & E2 & E3 & E4 & E5 & E6).
  split; rewrite ?E1, ?E2, ?E3, ?E4, ?E6; done.
Qed.

(** Deleting the last byte of the line. *)
Lemma rep_erase s a c l :
  cons_rep s a → line a = l ++ [c] → cons_rep (set_edit (u32 (ie s - 1)) s) (mkCin (ready a) l).
Proof.
  intros [H1 H2 H3 H4 H5 H6 H7 H8 H9] Hl. rewrite Hl, length_app in *. simpl in *.
  split; simpl; try done; [lia| | |].
  - rewrite H7, u32_sub_l. f_equal. lia.
  - rewrite app_assoc in H8. apply (ring_take _ _ _ (length (ready a ++ l))) in H8.
    by rewrite take_app_length in H8.
  - intros Hin. apply H9, elem_of_app. by left.
Qed.

Lemma rep_line_empty s a : cons_rep s a → (ie s =? iw s) = bool_decide (line a = []).
Proof.
  intros [H1 H2 H3 H4 H5 H6 H7 H8 H9]. rewrite H6, H7. case_bool_decide as E.
  - rewrite E. simpl. rewrite Nat.add_0_r. apply Z.eqb_refl.
  - apply Z.eqb_neq. intros Heq. apply u32_eq_small in Heq; [|lia..]. destruct (line a); [done|].
    simpl in *. lia.
Qed.

(** The byte before the edit index. *)
Lemma rep_last s a c l :
  cons_rep s a → line a = l ++ [c] → ibuf_at (ie s - 1) s = c.
Proof.
  intros [H1 H2 H3 H4 H5 H6 H7 H8 H9] Hl. rewrite Hl, length_app in *. simpl in *.
  unfold ibuf_at. change INPUT_BUF with 128. rewrite u32_mod128, H7.
  rewrite <-Zminus_mod_idemp_l, u32_mod128, Zminus_mod_idemp_l.
  replace (ir s + Z.of_nat (length (ready a) + (length l + 1)) - 1)
    with (ir s + Z.of_nat (length (ready a ++ l))) by (rewrite length_app; lia).
  apply nth_lookup_Some. apply (H8 (length (ready a ++ l))).
  rewrite app_assoc. by apply list_lookup_middle.
Qed.

Lemma wp_kill_line s a fuel :
  cons_rep s a → (length (line a) < fuel)%nat →
  wp (kill_line fuel) (λ _ s', cons_rep s' (mkCin (ready a) [])) s.
Proof.
  revert s a. induction fuel as [|fuel IH]; intros s a Hr Hf; [lia|]. cbn [kill_line]. wstep. wstep.
  rewrite (rep_line_empty s a Hr). destruct (line a) as [|x l0 _] eqn:El using rev_ind.
  - rewrite bool_decide_eq_true_2 by done. simpl. wstep. destruct a as [rd ln]. simpl in *. by subst.
  - rewrite bool_decide_eq_false_2 by (by destruct l0). rewrite (rep_last s a x l0 Hr El).
    assert (x ≠ 10).
    { intros ->. apply (cr_line _ _ Hr). rewrite El. apply elem_of_app. right. set_solver. }
    replace (x =? 10) with false by (symmetry; by apply Z.eqb_neq). simpl. wstep. wstep.
    pose proof (rep_erase s a x l0 Hr El) as Hr2. wstep.
    eapply wp_mono; [apply wp_consputc; apply Hr2|]. intros [] s2 [Hs2 Hi2].
    rewrite length_app in Hf. simpl in Hf.
    apply (IH s2 (mkCin (ready a) l0)); [by eapply rep_output|simpl; lia].
Qed.

(** Storing one byte. *)
Lemma rep_store s a c :
  cons_rep s a → (length (ready a) + length (line a) < 128)%nat → is_u8 c →
  let s1 := set_edit (u32 (ie s + 1)) (set_ibuf (<[Z.to_nat (ie s mod INPUT_BUF) := c]> (ibuf s)) s) in
  screen_ok s1 ∧ panicked s1 = false ∧ length (ibuf s1) = 128%nat ∧ ir s1 = ir s ∧ iw s1 = iw s ∧
  ie s1 = u32 (ir s + Z.of_nat (length (ready a) + length (line a ++ [c]))) ∧
  ring (ibuf s1) (ir s) ((ready a ++ line a) ++ [c]).
Proof.
  intros [H1 H2 H3 H4 H5 H6 H7 H8 H9] Hl Hc s1. subst s1. simpl. split_and!; try done.
  - by rewrite length_insert.
  - rewrite H7, u32_add_l, length_app. f_equal. simpl. lia.
  - change INPUT_BUF with 128. rewrite H7, u32_mod128.
    rewrite <-length_app. apply (ring_put _ _ (ready a ++ line a)); [done|done|].
    rewrite length_app. lia.
Qed.

(** consoleintr refines the abstract line discipline, for one character. *)
Lemma wp_key s a c :
  cons_rep s a → is_u8 c → wp (consoleintr_char c) (λ _ s', cons_rep s' (a_key c a)) s.
Proof.
  intros Hr Hc. unfold consoleintr_char, a_key. destruct (c =? CTRL 80).
  { wstep. by destruct Hr as [H1 H2 H3 H4 H5 H6 H7 H8 H9]. }
  destruct (c =? CTRL 85).
  { apply wp_kill_line; [done|]. pose proof (cr_room _ _ Hr). change (Z.to_nat INPUT_BUF) with 128%nat. lia. }
  destruct ((c =? CTRL 72) || (c =? 127)).
  { wstep. wstep. rewrite (rep_line_empty s a Hr). destruct (line a) as [|x l _] eqn:El using rev_ind.
    - rewrite bool_decide_eq_true_2 by done. simpl. wstep. destruct a. simpl in *. by subst.
    - rewrite bool_decide_eq_false_2 by (by destruct l). simpl. wstep. wstep.
      pose proof (rep_erase s a x l Hr El) as Hr2.
      eapply wp_mono; [apply wp_consputc; apply Hr2|]. intros [] s2 [Hs2 Hi2].
      rewrite length_app, Nat.add_sub, take_app_length. by eapply rep_output. }
  wstep. wstep. pose proof (cr_room _ _ Hr) as Hroom.
  assert (E : u32 (ie s - ir s) = Z.of_nat (length (ready a) + length (line a))).
  { rewrite (cr_e _ _ Hr), u32_sub_l. rewrite u32_small; [lia|unfold is_u32; lia]. }
  rewrite E. destruct (negb (c =? 0) && _) eqn:Eg; [|by wstep]. bool_facts.
  change INPUT_BUF with 128 in *.
  set (c' := if c =? 13 then 10 else c).
  assert (Hc' : is_u8 c') by (unfold c'; case_if; [done|done]).
  assert (Hu : u8 c' = c') by (unfold u8; unfold is_u8 in Hc'; apply Z.mod_small; lia).
  wstep. wstep. rewrite Hu.
  destruct (rep_store s a c' Hr) as (S1 & S2 & S3 & S4 & S5 & S6 & S7); [lia|done|].
  set (s1 := set_edit _ _) in *. wstep. eapply wp_mono; [by apply wp_consputc|].
  intros [] s2 [Hs2 (E1 & E2 & E3 & E4 & E5 & E6)]. wstep. wstep. rewrite E4, E2, S4, S6.
  assert (Ef : (u32 (ir s + Z.of_nat (length (ready a) + length (line a ++ [c']))) =? u32 (ir s + 128))
               = (Z.of_nat (length (ready a) + length (line a ++ [c'])) =? 128)).
  { apply eq_true_iff_eq. rewrite !Z.eqb_eq. rewrite !length_app. simpl. split; [|by intros ->].
    apply u32_eq_small; lia. }
  rewrite Ef. pose proof Hr as [_ _ _ _ H5 H6 _ _ H9].
  destruct ((c' =? 10) || (c' =? CTRL 68) || _) eqn:Ec; wstep.
  - split; simpl; rewrite ?E1, ?E2, ?E4, ?E6, ?S4, ?S6; try done.
    + rewrite !length_app. simpl. lia.
    + by rewrite !length_app, Nat.add_assoc.
    + by rewrite !length_app, Nat.add_0_r, Nat.add_assoc.
    + by rewrite app_nil_r, app_assoc.
    + apply not_elem_of_nil.
  - bool_facts. split; simpl; rewrite ?E1, ?E2, ?E3, ?E4, ?E6, ?S4, ?S5, ?S6; try done.
    + rewrite length_app. simpl. lia.
    + by rewrite app_assoc.
    + rewrite elem_of_app, list_elem_of_singleton. intros [?|?]; [done|congruence].
Qed.

Lemma wp_keys s a cs :
  cons_rep s a → Forall is_u8 cs →
  wp (consoleintr cs) (λ _ s', cons_rep s' (foldl (λ a c, a_key c a) a cs)) s.
Proof.
  revert s a. induction cs as [|c cs IH]; intros s a Hr Hf; simpl; [by apply wp_ret|].
  apply Forall_cons in Hf as [Hc Hf]. unfold consoleintr. simpl. wstep.
  eapply wp_mono; [by apply wp_key|]. intros [] s' Hr'. by apply IH.
Qed.

Lemma rep_consume s c rd ln :
  cons_rep s (mkCin (c :: rd) ln) →
  ibuf_at (ir s) s = c ∧ cons_rep (set_ir (u32 (ir s + 1)) s) (mkCin rd ln).
Proof.
  intros [H1 H2 H3 H4 H5 H6 H7 H8 H9]. simpl in *. split.
  - unfold ibuf_at. change INPUT_BUF with 128. rewrite u32_mod128. apply nth_lookup_Some.
    specialize (H8 0%nat c eq_refl). by rewrite Z.add_0_r in H8.
  - split; simpl; try done; [lia|apply u32_range|..].
    + rewrite H6, u32_add_l. f_equal. lia.
    + rewrite H7, u32_add_l. f_equal. lia.
    + by eapply ring_drop.
Qed.

Lemma rep_ready_empty s a : cons_rep s a → (ir s =? iw s) = bool_decide (ready a = []).
Proof.
  intros [H1 H2 H3 H4 H5 H6 H7 H8 H9]. rewrite H6. case_bool_decide as E.
  - rewrite E. simpl. rewrite Z.add_0_r, u32_small by done. apply Z.eqb_refl.
  - apply Z.eqb_neq. rewrite <-(u32_small (ir s)) at 1 by done. rewrite <-(Z.add_0_r (ir s)) at 1.
    intros Heq. apply u32_eq_small in Heq; [|lia..]. destruct (ready a); [done|]. simpl in *. lia.
Qed.

Lemma read_run fuel killed target n dst s rd ln :
  cons_rep s (mkCin rd ln) → (n < fuel)%nat → Z.of_nat n ≤ target →
  let out := consoleread fuel killed target (Z.of_nat n) dst s in
  let abs := a_read killed (Z.of_nat n =? target) n dst rd in
  out.1 = abs.1 ∧ cons_rep out.2 (mkCin abs.2 ln).
Proof.
  revert n dst s rd. induction fuel as [|fuel IH]; intros n dst s rd Hr Hf Ht; [lia|].
  cbn [consoleread]. destruct n as [|n]; [done|].
  replace (0 <? Z.of_nat (S n)) with true by (symmetry; apply Z.ltb_lt; lia).
  rewrite (rep_ready_empty s _ Hr). destruct rd as [|c rd]; cbn [ready a_read].
  { rewrite bool_decide_eq_true_2 by done. by destruct killed. }
  rewrite bool_decide_eq_false_2 by done. destruct (rep_consume s c rd ln Hr) as [-> Hr2].
  destruct (c =? CTRL 68).
  - destruct (Z.ltb_spec (Z.of_nat (S n)) target) as [Hlt|Hge].
    + replace (Z.of_nat (S n) =? target) with false by (symmetry; apply Z.eqb_neq; lia).
      split; [done|]. cbn [fst snd]. simpl ir.
      replace (u32 (u32 (ir s + 1) - 1)) with (ir s); [by destruct s|].
      rewrite u32_sub_l, Z.add_simpl_r, u32_small; [done|]. apply (cr_r _ _ Hr).
    + replace (Z.of_nat (S n) =? target) with true by (symmetry; apply Z.eqb_eq; lia). done.
  - destruct (c =? 10); [done|]. replace (Z.of_nat (S n) - 1) with (Z.of_nat n) by lia.
    assert (E : (Z.of_nat n =? target) = false) by (apply Z.eqb_neq; lia).
    specialize (IH n (dst ++ [c]) _ rd Hr2 ltac:(lia) ltac:(lia)). cbv zeta in IH. by rewrite E in IH.
Qed.

(** ** Properties *)

(** printint prints the number: the digits it puts, after a minus sign
    for a negative signed number, read back as the argument, 32 bits wide,
    for every base from 2 to 16; in bases 10 and 16 they fit buf[16]. *)
Theorem printint_spec upper xx base sgn :
  -2147483648 ≤ xx < 2147483648 → 2 ≤ base ≤ 16 →
  let neg := sgn && (xx <? 0) in
  ∃ ds, printint upper xx base sgn = (if neg then [45] else []) ++ ds ∧
    (if sgn then (if neg then - value base ds else value base ds) = xx
     else value base ds = u32 xx) ∧
    Forall (λ c, ∃ d, 0 ≤ d < base ∧ c = digit upper d) ds ∧
    (10 ≤ base → (0 < length (printint upper xx base sgn) ≤ 16)%nat).
Proof.
  intros Hx Hb neg. unfold printint. fold neg.
  set (x := if neg then u32 (- xx) else u32 xx).
  assert (Hu : is_u32 x) by (unfold x; case_if; apply u32_range).
  destruct (print_digits_spec 32 upper x base []) as (ds & E1 & E2 & E3 & E4 & E5);
    [done|exact Hu|lia|]. rewrite E1, app_nil_l. exists (rev ds).
  rewrite rev_app_distr. split_and!.
  - by destruct neg.
  - rewrite E2. unfold x, neg. destruct sgn; [|done]. simpl.
    destruct (Z.ltb_spec xx 0); [rewrite u32_small; [lia|unfold is_u32; lia]|].
    rewrite u32_small; [done|unfold is_u32; lia].
  - by apply Forall_rev.
  - intros H10. rewrite length_app, !length_rev.
    assert (Z.of_nat (length ds) ≤ 10).
    { apply E4; [lia|]. unfold is_u32 in Hu. apply Z.lt_le_trans with (10 ^ 10); [lia|].
      apply Z.pow_le_mono_l. lia. }
    destruct neg; simpl; lia.
Qed.

(** [C26] The line discipline: whatever is typed and however much of it has
    been read, consoleintr commits the edited line (control-H and control-U
    applied, CR as LF) on newline, control-D or a full buffer, and
    consoleread returns committed bytes in order, up to a newline, leaving a
    control-D behind when it already has bytes.  The indices wrap around
    2^32 freely and the screen stays inside its memory. *)
Theorem console_refines s a cs killed target n dst :
  cons_rep s a → Forall is_u8 cs → Z.of_nat n ≤ target →
  wp (consoleintr cs)
    (λ _ s', let a' := foldl (λ a c, a_key c a) a cs in
       cons_rep s' a' ∧
       let out := consoleread (S n) killed target (Z.of_nat n) dst s' in
       let abs := a_read killed (Z.of_nat n =? target) n dst (ready a') in
       out.1 = abs.1 ∧ cons_rep out.2 (mkCin abs.2 (line a'))) s.
Proof.
  intros Hr Hc Ht. eapply wp_mono; [by apply wp_keys|]. intros [] s' Hr'. split; [done|].
  apply read_run; [|lia|done]. by destruct (foldl _ a cs).
Qed.

(** ** Witnesses *)

Lemma printint_spec_witness :
  ∃ ds, printint true (-2147483648) 10 true = [45] ++ ds ∧ - value 10 ds = -2147483648 ∧
    Forall (λ c, ∃ d, 0 ≤ d < 10 ∧ c = digit true d) ds ∧
    (10 ≤ 10 → (0 < length (printint true (-2147483648) 10 true) ≤ 16)%nat).
Proof. apply (printint_spec true (-2147483648) 10 true); lia. Defined.

Definition cons0 : console :=
  mkCons [] 0 (replicate 2000 0) (replicate 128 0) 4294967290 4294967290 4294967290 0 0 false.

Lemma cons0_rep : cons_rep cons0 (mkCin [] []).
Proof.
  split; try done; [simpl; lia|apply not_elem_of_nil].
Qed.

(** "ab", backspace, "c", enter: the read gets "ac" and a newline. *)
Lemma console_refines_witness :
  wp (consoleintr [97; 98; 8; 99; 13])
    (λ _ s', cons_rep s' (mkCin [97; 99; 10] []) ∧
       (consoleread 11 false 10 10 [] s').1 = RDone [97; 99; 10] ∧
       cons_rep (consoleread 11 false 10 10 [] s').2 (mkCin [] [])) cons0.
Proof.
  apply (console_refines cons0 (mkCin [] []) [97; 98; 8; 99; 13] false 10 10 []);
    [apply cons0_rep|repeat constructor; done|done].
Defined.
