(* ===== verification/Kbd.v ===== *)
(** * The keyboard (xv6/kbd.c, xv6/kbd.h)

    kbdgetc turns scan codes into characters; the static variable shift is
    its state.  The tables are those of kbd.h, with character constants
    written as their codes. *)

From S2P Require Import Prelude.
Local Open Scope Z_scope.

Definition KBS_DIB : Z := 1.
Definition SHIFT : Z := 1.
Definition CTL : Z := 2.
Definition ALT : Z := 4.
Definition CAPSLOCK : Z := 8.
Definition NUMLOCK : Z := 16.
Definition SCROLLLOCK : Z := 32.
Definition E0ESC : Z := 64.

(** A C initialiser: the first entries, then the designated ones. *)
Definition table (first : list Z) (designated : list (Z * Z)) : list Z :=
  foldl (λ t e, <[Z.to_nat e.1 := e.2]> t) (first ++ replicate (256 - length first) 0) designated.

Definition shiftcode : list Z :=
  table
    []
    [(29, 2); (42, 1); (54, 1); (56, 4); (157, 2); (184, 4)].

Definition togglecode : list Z :=
  table
    []
    [(58, 8); (69, 16); (70, 32)].

Definition normalmap : list Z :=
  table
    [0; 27; 49; 50; 51; 52; 53; 54; 55; 56; 57; 48; 45; 61; 8; 9;
     113; 119; 101; 114; 116; 121; 117; 105; 111; 112; 91; 93; 10; 0; 97; 115;
     100; 102; 103; 104; 106; 107; 108; 59; 39; 96; 0; 92; 122; 120; 99; 118;
     98; 110; 109; 44; 46; 47; 0; 42; 0; 32; 0; 0; 0; 0; 0; 0;
     0; 0; 0; 0; 0; 0; 0; 55; 56; 57; 45; 52; 53; 54; 43; 49;
     50; 51; 48; 46; 0; 0; 0; 0]
    [(156, 10); (181, 47); (200, 226); (208, 227); (201, 230); (209, 231); (203, 228); (205, 229); (151, 224); (207, 225); (210, 232); (211, 233)].

Definition shiftmap : list Z :=
  table
    [0; 27; 33; 64; 35; 36; 37; 94; 38; 42; 40; 41; 95; 43; 8; 9;
     81; 87; 69; 82; 84; 89; 85; 73; 79; 80; 123; 125; 10; 0; 65; 83;
     68; 70; 71; 72; 74; 75; 76; 58; 34; 126; 0; 124; 90; 88; 67; 86;
     66; 78; 77; 60; 62; 63; 0; 42; 0; 32; 0; 0; 0; 0; 0; 0;
     0; 0; 0; 0; 0; 0; 0; 55; 56; 57; 45; 52; 53; 54; 43; 49;
     50; 51; 48; 46; 0; 0; 0; 0]
    [(156, 10); (181, 47); (200, 226); (208, 227); (201, 230); (209, 231); (203, 228); (205, 229); (151, 224); (207, 225); (210, 232); (211, 233)].

Definition ctlmap : list Z :=
  table
    [0; 0; 0; 0; 0; 0; 0; 0; 0; 0; 0; 0; 0; 0; 0; 0;
     17; 23; 5; 18; 20; 25; 21; 9; 15; 16; 0; 0; 13; 0; 1; 19;
     4; 6; 7; 8; 10; 11; 12; 0; 0; 0; 0; 28; 26; 24; 3; 22;
     2; 14; 13; 0; 0; 239; 0; 0]
    [(156, 13); (181, 239); (200, 226); (208, 227); (201, 230); (209, 231); (203, 228); (205, 229); (151, 224); (207, 225); (210, 232); (211, 233)].

(** charcode[k][data] *)
Definition charcode (k data : Z) : Z :=
  nth (Z.to_nat data) (if k =? 0 then normalmap else if k =? 1 then shiftmap else ctlmap) 0.
Definition code (t : list Z) (data : Z) : Z := nth (Z.to_nat data) t 0.

Definition hasf (x f : Z) : bool := negb (Z.land x f =? 0).

(** kbdgetc: [st] and [data] are what the ports return, [shift] the static
    variable; the result and the new [shift]. *)
Definition kbdgetc (st data shift : Z) : Z * Z :=
  if negb (hasf st KBS_DIB) then (-1, shift) else
  if data =? 224 then (0, Z.lor shift E0ESC) else
  if hasf data 128 then
    let data := if hasf shift E0ESC then data else Z.land data 127 in
    (0, Z.land shift (Z.lnot (Z.lor (code shiftcode data) E0ESC)))
  else
    let '(data, shift) := if hasf shift E0ESC then (Z.lor data 128, Z.land shift (Z.lnot E0ESC))
                          else (data, shift) in
    let shift := Z.lor shift (code shiftcode data) in
    let shift := Z.lxor shift (code togglecode data) in
    let c := charcode (Z.land shift (Z.lor CTL SHIFT)) data in
    let c := if hasf shift CAPSLOCK then
               if (97 <=? c) && (c <=? 122) then c - 32
               else if (65 <=? c) && (c <=? 90) then c + 32 else c
             else c in
    (c, shift).

(** The characters of a sequence of scan codes. *)
Fixpoint kbd_run (codes : list Z) (shift : Z) : list Z * Z :=
  match codes with
  | [] => ([], shift)
  | d :: codes => let '(c, shift) := kbdgetc 1 d shift in
                  let '(cs, shift) := kbd_run codes shift in (c :: cs, shift)
  end.

(** ** Properties *)

(** Every shift state and every scan code, decided by running them. *)
Definition all_below (n : nat) (P : Z → bool) : bool := forallb P (Z.of_nat <$> seq 0 n).

Lemma all_below_spec n P x : all_below n P = true → 0 ≤ x < Z.of_nat n → P x = true.
Proof.
  intros H Hx. unfold all_below in H. rewrite forallb_forall in H. apply H.
  apply list_elem_of_In, list_elem_of_fmap. exists (Z.to_nat x). split; [lia|].
  apply elem_of_seq. lia.
Qed.

Definition press_release_ok (shift d : Z) : bool :=
  let '(c, s1) := kbdgetc 1 d shift in
  let '(c', s2) := kbdgetc 1 (Z.lor d 128) s1 in
  (0 <=? c) && (c <? 256) && (c' =? 0) &&
  (s1 =? Z.lxor (Z.lor shift (code shiftcode d)) (code togglecode d)) &&
  (s2 =? Z.land s1 (Z.lnot (code shiftcode d))).

(** The modifier state follows the keys: pressing a key sets its
    modifier and toggles its lock, releasing it clears the modifier and
    nothing else, and the character is a byte; for every state without a
    pending escape and every scan code but the escape's. *)
Theorem kbd_press_release shift d :
  0 ≤ shift < 64 → 0 ≤ d < 128 → d ≠ 96 →
  let '(c, s1) := kbdgetc 1 d shift in
  let '(c', s2) := kbdgetc 1 (Z.lor d 128) s1 in
  0 ≤ c < 256 ∧ c' = 0 ∧
  s1 = Z.lxor (Z.lor shift (code shiftcode d)) (code togglecode d) ∧
  s2 = Z.land s1 (Z.lnot (code shiftcode d)).
Proof.
  intros Hs Hd Hn.
  assert (H : all_below 64 (λ shift, all_below 128 (λ d, (d =? 96) || press_release_ok shift d)) = true)
    by (vm_compute; reflexivity).
  pose proof (all_below_spec _ _ d (all_below_spec _ _ shift H Hs) Hd) as Hp. simpl in Hp.
  rewrite (proj2 (Z.eqb_neq d 96) Hn) in Hp. simpl in Hp. unfold press_release_ok in Hp.
  destruct (kbdgetc 1 d shift) as [c s1], (kbdgetc 1 (Z.lor d 128) s1) as [c' s2].
  bool_facts. split_and!; done.
Qed.

(** ** Witnesses *)

(** Shift and "a", with caps lock: a small letter. *)
Lemma kbd_press_release_witness :
  let '(c, s1) := kbdgetc 1 30 9 in
  let '(c', s2) := kbdgetc 1 (Z.lor 30 128) s1 in
  0 ≤ c < 256 ∧ c' = 0 ∧
  s1 = Z.lxor (Z.lor 9 (code shiftcode 30)) (code togglecode 30) ∧
  s2 = Z.land s1 (Z.lnot (code shiftcode 30)).
Proof. apply (kbd_press_release 9 30); [lia|lia|discriminate]. Defined.
