(* ===== verification/Sh.v ===== *)
(** * The shell's parser (xv6/sh.c)

    The parser works on the command line in place: a word is a pair of
    positions (q, eq), and nulterminate later writes a NUL at every eq.
    [l] is the line without its NUL, positions are indices into it, [es] is
    its length.  A panic of the shell ends the parse. *)

From S2P Require Import Prelude.
Local Open Scope Z_scope.

Definition MAXARGS : nat := 10.
Definition O_RDONLY : Z := 0.
Definition O_WRONLY : Z := 1.
Definition O_CREATE : Z := 512.

(** struct cmd and its five kinds. *)
Inductive cmd :=
  | EXEC (argv : list (nat * nat))
  | REDIR (c : cmd) (file : nat * nat) (mode fd : Z)
  | PIPE (left right : cmd)
  | LIST (left right : cmd)
  | BACK (c : cmd).

(** Returned with the new position, panicked, or out of fuel. *)
Inductive pres (A : Type) :=
  | POk (a : A) (p : nat)
  | PPanic (msg : string)
  | PFuel.
Arguments POk {A}.
Arguments PPanic {A}.
Arguments PFuel {A}.

Definition pbind {A B} (m : pres A) (f : A → nat → pres B) : pres B :=
  match m with POk a p => f a p | PPanic msg => PPanic msg | PFuel => PFuel end.

Definition whitespace : list Z := [32; 9; 13; 10; 11].
Definition symbols : list Z := [60; 124; 62; 38; 59; 40; 41].   (* < | > & ; ( ) *)
Definition strchr (s : list Z) (c : Z) : bool := existsb (Z.eqb c) s.
Arguments strchr : simpl never.

Section sh.
Context (l : list Z).
Definition es : nat := length l.
Definition chr (p : nat) : Z := nth p l 0.

(** while(s < es && strchr(whitespace, *s)) s++ *)
Fixpoint skipws (n p : nat) : nat :=
  match n with
  | O => p
  | S n => if (p <? es)%nat && strchr whitespace (chr p) then skipws n (S p) else p
  end.

(** The while loop of a word. *)
Fixpoint skipword (n p : nat) : nat :=
  match n with
  | O => p
  | S n => if (p <? es)%nat && negb (strchr whitespace (chr p)) && negb (strchr symbols (chr p))
           then skipword n (S p) else p
  end.

Record token := mkTok { tk_ret : Z; tk_q : nat; tk_eq : nat; tk_next : nat }.

Definition gettoken (p : nat) : token :=
  let q := skipws es p in
  let c := chr q in
  let '(ret, eq) :=
    if c =? 0 then (0, q)
    else if (c =? 124) || (c =? 40) || (c =? 41) || (c =? 59) || (c =? 38) || (c =? 60) then (c, S q)
    else if c =? 62 then (if chr (S q) =? 62 then (43, S (S q)) else (c, S q))
    else (97, skipword es q) in
  mkTok ret q eq (skipws es eq).

(** The new position and the result. *)
Definition peek (p : nat) (toks : list Z) : nat * bool :=
  let p := skipws es p in (p, negb (chr p =? 0) && strchr toks (chr p)).

(** One redirection: the file, the mode and the descriptor. *)
Definition redir_of (tok : Z) (file : nat * nat) : option ((nat * nat) * Z * Z) :=
  if tok =? 60 then Some (file, O_RDONLY, 0)
  else if tok =? 62 then Some (file, Z.lor O_WRONLY O_CREATE, 1)
  else if tok =? 43 then Some (file, Z.lor O_WRONLY O_CREATE, 1)
  else None.

(** parseredirs, as the list of redirections to wrap around its command: the
    command's own fields may still change afterwards. *)
Fixpoint parseredirs (n p : nat) (acc : list ((nat * nat) * Z * Z)) : pres (list ((nat * nat) * Z * Z)) :=
  match n with
  | O => PFuel
  | S n =>
      let '(p, more) := peek p [60; 62] in
      if (more : bool) then
        let t := gettoken p in
        let f := gettoken (tk_next t) in
        if negb (tk_ret f =? 97) then PPanic "missing file for redirection"
        else parseredirs n (tk_next f)
               (acc ++ match redir_of (tk_ret t) (tk_q f, tk_eq f) with Some r => [r] | None => [] end)
      else POk acc p
  end.

Definition wrap (c : cmd) (rs : list ((nat * nat) * Z * Z)) : cmd :=
  foldl (λ c r, REDIR c r.1.1 r.1.2 r.2) c rs.

(** The argument loop of parseexec. *)
Fixpoint parseargs (n p : nat) (argv : list (nat * nat)) (rs : list ((nat * nat) * Z * Z)) : pres cmd :=
  match n with
  | O => PFuel
  | S n =>
      let '(p, stop) := peek p [124; 41; 38; 59] in
      if (stop : bool) then POk (wrap (EXEC argv) rs) p
      else
        let t := gettoken p in
        if tk_ret t =? 0 then POk (wrap (EXEC argv) rs) (tk_next t)
        else if negb (tk_ret t =? 97) then PPanic "syntax"
        else
          let argv := argv ++ [(tk_q t, tk_eq t)] in
          if (MAXARGS <=? length argv)%nat then PPanic "too many args"
          else pbind (parseredirs (S es) (tk_next t) []) (λ rs' p, parseargs n p argv (rs ++ rs'))
  end.

(** The while loop of parseline over &. *)
Fixpoint parseback (n p : nat) (c : cmd) : pres cmd :=
  match n with
  | O => PFuel
  | S n => let '(p, more) := peek p [38] in
           if (more : bool) then parseback n (tk_next (gettoken p)) (BACK c) else POk c p
  end.

Fixpoint parseline (n p : nat) : pres cmd :=
  match n with
  | O => PFuel
  | S n =>
      pbind (parsepipe n p) (λ c p,
      pbind (parseback (S es) p c) (λ c p,
        let '(p, more) := peek p [59] in
        if (more : bool)
        then pbind (parseline n (tk_next (gettoken p))) (λ r p, POk (LIST c r) p)
        else POk c p))
  end
with parsepipe (n p : nat) : pres cmd :=
  match n with
  | O => PFuel
  | S n =>
      pbind (parseexec n p) (λ c p,
        let '(p, more) := peek p [124] in
        if (more : bool)
        then pbind (parsepipe n (tk_next (gettoken p))) (λ r p, POk (PIPE c r) p)
        else POk c p)
  end
with parseexec (n p : nat) : pres cmd :=
  match n with
  | O => PFuel
  | S n =>
      let '(p, block) := peek p [40] in
      if (block : bool) then parseblock n p
      else pbind (parseredirs (S es) p []) (λ rs p, parseargs (S es) p [] rs)
  end
with parseblock (n p : nat) : pres cmd :=
  match n with
  | O => PFuel
  | S n =>
      let '(p, open) := peek p [40] in
      if negb open then PPanic "parseblock" else
      pbind (parseline n (tk_next (gettoken p))) (λ c p,
        let '(p, close) := peek p [41] in
        if negb close then PPanic "syntax - missing )" else
        pbind (parseredirs (S es) (tk_next (gettoken p)) []) (λ rs p, POk (wrap c rs) p))
  end.

(** Four calls per byte of the line, and a few for the empty one. *)
Definition parsecmd : pres cmd :=
  pbind (parseline (4 * es + 4) 0) (λ c p,
    let '(p, _) := peek p [] in
    if (p =? es)%nat then POk c p else PPanic "syntax").
End sh.

(** nulterminate on the line and its NUL. *)
Fixpoint nulterminate (c : cmd) (b : list Z) : list Z :=
  match c with
  | EXEC argv => foldl (λ b a, <[a.2 := 0]> b) b argv
  | REDIR c file _ _ => <[file.2 := 0]> (nulterminate c b)
  | PIPE x y => nulterminate y (nulterminate x b)
  | LIST x y => nulterminate y (nulterminate x b)
  | BACK c => nulterminate c b
  end.

(** The words of a command. *)
Fixpoint words (c : cmd) : list (nat * nat) :=
  match c with
  | EXEC argv => argv
  | REDIR c file _ _ => file :: words c
  | PIPE x y => words x ++ words y
  | LIST x y => words x ++ words y
  | BACK c => words c
  end.

(** The C string at [p] of a buffer. *)
Fixpoint cstr (b : list Z) : list Z :=
  match b with
  | [] => []
  | c :: b => if c =? 0 then [] else c :: cstr b
  end.

(** ** Lemmas *)

Definition is_word (c : Z) : bool := negb (strchr whitespace c) && negb (strchr symbols c).

Section sh_facts.
Context (l : list Z) (Hnz : Forall (.≠ 0) l).
Abbreviation ee := (es l).
Abbreviation ch := (chr l).

Lemma chr_zero p : ch p = 0 ↔ (ee ≤ p)%nat.
Proof using Hnz.
  unfold chr, es. split.
  - intros H. destruct (decide (length l ≤ p)%nat) as [|Hlt]; [done|].
    destruct (lookup_lt_is_Some_2 l p) as [c Hc]; [lia|].
    rewrite (nth_lookup_Some _ _ _ _ Hc) in H. eapply Forall_lookup_1 in Hnz; [|exact Hc]. done.
  - intros. by rewrite nth_overflow.
Qed.

Lemma skipws_spec n p :
  (p ≤ ee)%nat → (ee - p ≤ n)%nat →
  (p ≤ skipws l n p ≤ ee)%nat ∧
  ((skipws l n p < ee)%nat → strchr whitespace (ch (skipws l n p)) = false).
Proof using Type.
  revert p. induction n as [|n IH]; intros p Hp Hn; simpl; [split; [lia|lia]|].
  destruct (Nat.ltb_spec p ee) as [H|H]; simpl; [|split; [lia|lia]].
  destruct (strchr whitespace (ch p)) eqn:E; [|split; [lia|done]].
  destruct (IH (S p)) as [H1 H2]; [lia|lia|]. split; [lia|done].
Qed.

Lemma skipword_spec n p :
  (p ≤ ee)%nat → (ee - p ≤ n)%nat →
  (p ≤ skipword l n p ≤ ee)%nat ∧
  (∀ i, (p ≤ i < skipword l n p)%nat → is_word (ch i) = true) ∧
  ((skipword l n p < ee)%nat → is_word (ch (skipword l n p)) = false).
Proof using Type.
  revert p. induction n as [|n IH]; intros p Hp Hn; simpl; [split_and!; lia|].
  destruct (Nat.ltb_spec p ee) as [H|H]; simpl; [|split_and!; lia].
  fold (is_word (ch p)). destruct (is_word (ch p)) eqn:E; [|split_and!; [lia|lia|lia|done]].
  destruct (IH (S p)) as (H1 & H2 & H3); [lia|lia|]. split_and!; [lia|lia| |done].
  intros i Hi. destruct (decide (i = p)) as [->|]; [done|]. apply H2. lia.
Qed.

(** A maximal word of the line. *)
Definition word (w : nat * nat) : Prop :=
  (w.1 < w.2 ≤ ee)%nat ∧ (∀ i, (w.1 ≤ i < w.2)%nat → is_word (ch i) = true) ∧
  ((w.2 < ee)%nat → is_word (ch w.2) = false).

Lemma gettoken_spec p :
  (p ≤ ee)%nat →
  let t := gettoken l p in
  (p ≤ tk_q t ≤ tk_eq t)%nat ∧ (tk_eq t ≤ tk_next t ≤ ee)%nat ∧
  (tk_q t < ee → tk_q t < tk_eq t)%nat ∧ (tk_ret t = 97 → word (tk_q t, tk_eq t)).
Proof using Hnz.
  intros Hp t. subst t. unfold gettoken. destruct (skipws_spec ee p Hp ltac:(lia)) as [H1 H2].
  set (q := skipws l ee p) in *.
  assert (Hn : ∀ e, (e ≤ ee)%nat → (e ≤ skipws l ee e ≤ ee)%nat) by
    (intros e He; apply skipws_spec; [done|lia]).
  destruct (Z.eqb_spec (ch q) 0) as [E|E].
  { apply chr_zero in E. simpl. pose proof (Hn q ltac:(lia)). split_and!; try lia; done. }
  assert (Hq : (q < ee)%nat) by (rewrite chr_zero in E; lia).
  destruct (_ || _) eqn:Es.
  { simpl. pose proof (Hn (S q) ltac:(lia)). split_and!; try lia;
    intros E97; rewrite E97 in Es; done. }
  destruct (Z.eqb_spec (ch q) 62) as [E62|E62].
  { destruct (Z.eqb_spec (ch (S q)) 62) as [E2|E2]; simpl.
    - assert (S q < ee)%nat by (destruct (decide (ee ≤ S q)%nat) as [H%chr_zero|]; [congruence|lia]).
      pose proof (Hn (S (S q)) ltac:(lia)). split_and!; try lia; done.
    - pose proof (Hn (S q) ltac:(lia)). split_and!; try lia;
      intros E97; congruence. }
  simpl. destruct (skipword_spec ee q ltac:(lia) ltac:(lia)) as (K1 & K2 & K3).
  pose proof (Hn (skipword l ee q) ltac:(lia)).
  assert (Hw : is_word (ch q) = true).
  { unfold is_word. rewrite (H2 Hq). simpl. apply negb_true_iff. unfold strchr. simpl.
    rewrite !orb_false_iff in *. rewrite !Z.eqb_neq in *. tauto. }
  assert (q < skipword l ee q)%nat.
  { destruct (decide (q < skipword l ee q)%nat) as [|Hge]; [done|].
    assert (skipword l ee q = q) as Heq by lia. rewrite Heq in K3. rewrite (K3 Hq) in Hw. done. }
  split_and!; try lia. intros _. split_and!; simpl; [lia|lia|done|done].
Qed.

Lemma peek_spec p toks :
  (p ≤ ee)%nat →
  (p ≤ (peek l p toks).1 ≤ ee)%nat ∧ ((peek l p toks).2 = true → (peek l p toks).1 < ee)%nat.
Proof using Hnz.
  intros Hp. unfold peek. simpl. destruct (skipws_spec ee p Hp ltac:(lia)) as [H1 _].
  split; [lia|]. intros [H _]%andb_true_iff. apply negb_true_iff, Z.eqb_neq in H.
  rewrite chr_zero in H. lia.
Qed.

Lemma skipws_stop n p : strchr whitespace (ch p) = false → skipws l n p = p.
Proof using Type. intros Hw. destruct n; simpl; [done|]. by rewrite Hw, andb_false_r. Qed.

(** A token read where peek saw something moves the position. *)
Lemma gettoken_moves p :
  (p < ee)%nat → strchr whitespace (ch p) = false → (p < tk_next (gettoken l p) ≤ ee)%nat.
Proof using Hnz.
  intros Hp Hw. destruct (gettoken_spec p ltac:(lia)) as (H1 & H2 & H3 & _).
  assert (Hs : tk_q (gettoken l p) = skipws l ee p)
    by (unfold gettoken; by destruct (if ch _ =? 0 then _ else _)).
  rewrite skipws_stop in Hs by done.
  lia.
Qed.

Lemma peek_token p toks :
  (p ≤ ee)%nat → (peek l p toks).2 = true →
  (p < tk_next (gettoken l (peek l p toks).1) ≤ ee)%nat.
Proof using Hnz.
  intros Hp Ht. destruct (peek_spec p toks Hp) as [H1 H2]. specialize (H2 Ht).
  destruct (skipws_spec ee p Hp ltac:(lia)) as [_ Hw].
  pose proof (gettoken_moves (peek l p toks).1 H2 (Hw H2)). lia.
Qed.

Definition good {A} (p : nat) (W : A → Prop) (m : pres A) : Prop :=
  match m with
  | POk a p' => (p ≤ p' ≤ ee)%nat ∧ W a
  | PPanic _ => True
  | PFuel => False
  end.

Lemma good_bind {A B} p (W : A → Prop) (V : B → Prop) (m : pres A) (f : A → nat → pres B) :
  good p W m → (∀ a p', (p ≤ p' ≤ ee)%nat → W a → good p V (f a p')) → good p V (pbind m f).
Proof using Type. destruct m; simpl; [|done..]. intros [? ?] Hf. by apply Hf. Qed.

Lemma good_mono {A} p q (W : A → Prop) m : (p ≤ q)%nat → good q W m → good p W m.
Proof using Type. destruct m; simpl; [|done..]. intros ? [? ?]. split; [lia|done]. Qed.

Definition cmd_ok (c : cmd) : Prop := Forall word (words c).
Definition redirs_ok (rs : list ((nat * nat) * Z * Z)) : Prop := Forall (λ r, word r.1.1) rs.

Lemma wrap_ok c rs : cmd_ok c → redirs_ok rs → cmd_ok (wrap c rs).
Proof using Type.
  revert c. induction rs as [|r rs IH]; intros c Hc Hr; [done|].
  apply Forall_cons in Hr as [H Hr]. simpl. apply IH; [|done]. unfold cmd_ok. simpl. by constructor.
Qed.

Lemma parseredirs_good n p acc :
  (p ≤ ee)%nat → (ee - p < n)%nat → redirs_ok acc → good p redirs_ok (parseredirs l n p acc).
Proof using Hnz.
  revert p acc. induction n as [|n IH]; intros p acc Hp Hn Ha; [lia|]. cbn [parseredirs].
  destruct (peek_spec p [60; 62] Hp) as [H1 _]. pose proof (peek_token p [60; 62] Hp) as H2.
  destruct (peek l p [60; 62]) as [p1 more]. simpl in H1, H2.
  destruct more; [|simpl; split; [lia|done]].
  specialize (H2 eq_refl). set (t := gettoken l p1) in *.
  destruct (gettoken_spec (tk_next t) ltac:(lia)) as (K1 & K2 & K3 & K4).
  set (f := gettoken l (tk_next t)) in *. destruct (Z.eqb_spec (tk_ret f) 97) as [E|E]; simpl; [|done].
  apply good_mono with (tk_next f); [lia|]. apply IH; [lia|lia|].
  apply Forall_app. split; [done|]. unfold redir_of.
  repeat case_if; repeat constructor; simpl; by apply K4.
Qed.

Lemma parseargs_good n p argv rs :
  (p ≤ ee)%nat → (ee - p < n)%nat → Forall word argv → redirs_ok rs →
  good p cmd_ok (parseargs l n p argv rs).
Proof using Hnz.
  revert p argv rs. induction n as [|n IH]; intros p argv rs Hp Hn Ha Hr; [lia|]. cbn [parseargs].
  destruct (peek_spec p [124; 41; 38; 59] Hp) as [H1 _].
  destruct (skipws_spec ee p Hp ltac:(lia)) as [_ Hw].
  destruct (peek l p [124; 41; 38; 59]) as [p1 stop] eqn:Ep.
  assert (p1 = skipws l ee p) as Ep1 by (unfold peek in Ep; by injection Ep). simpl in H1.
  destruct stop; [split; [lia|by apply wrap_ok]|].
  destruct (gettoken_spec p1 ltac:(lia)) as (K1 & K2 & K3 & K4). set (t := gettoken l p1) in *.
  destruct (Z.eqb_spec (tk_ret t) 0) as [E0|E0]; [split; [lia|by apply wrap_ok]|].
  destruct (Z.eqb_spec (tk_ret t) 97) as [E|E]; cbn [negb]; [|done].
  specialize (K4 E). destruct (_ <=? _)%nat; [done|].
  assert (p < tk_next t)%nat by (destruct K4 as [? _]; simpl in *; lia).
  apply good_mono with (tk_next t); [lia|].
  eapply good_bind; [apply parseredirs_good; [lia|lia|constructor]|].
  intros rs' p' Hp' Hrs. apply good_mono with p'; [lia|]. apply IH; [lia|lia| |].
  - apply Forall_app. split; [done|by apply Forall_singleton].
  - by apply Forall_app.
Qed.

Lemma parseback_good n p c :
  (p ≤ ee)%nat → (ee - p < n)%nat → cmd_ok c → good p cmd_ok (parseback l n p c).
Proof using Hnz.
  revert p c. induction n as [|n IH]; intros p c Hp Hn Hc; [lia|]. cbn [parseback].
  destruct (peek_spec p [38] Hp) as [H1 _]. pose proof (peek_token p [38] Hp) as H2.
  destruct (peek l p [38]) as [p1 more]. simpl in H1, H2. destruct more; [|split; [lia|done]].
  specialize (H2 eq_refl). apply good_mono with (tk_next (gettoken l p1)); [lia|].
  apply IH; [lia|lia|done].
Qed.

(** The four mutually recursive functions, at the fuel parsecmd gives them:
    four calls per byte that is left. *)
Lemma parse_good n :
  (∀ p, p ≤ ee → 4 * (ee - p) + 4 ≤ n → good p cmd_ok (parseline l n p))%nat ∧
  (∀ p, p ≤ ee → 4 * (ee - p) + 3 ≤ n → good p cmd_ok (parsepipe l n p))%nat ∧
  (∀ p, p ≤ ee → 4 * (ee - p) + 2 ≤ n → good p cmd_ok (parseexec l n p))%nat ∧
  (∀ p, p < ee → 4 * (ee - p) + 1 ≤ n → good p cmd_ok (parseblock l n p))%nat.
Proof using Hnz.
  induction n as [|n (IHl & IHp & IHe & IHb)]; [split_and!; lia|]. split_and!; intros p Hp Hn.
  - cbn [parseline]. eapply good_bind; [apply IHp; lia|]. intros c p1 Hp1 Hc.
    apply good_mono with p1; [lia|].
    eapply good_bind; [apply parseback_good; [lia|lia|done]|]. intros c2 p2 Hp2 Hc2.
    destruct (peek_spec p2 [59] ltac:(lia)) as [H1 _]. pose proof (peek_token p2 [59] ltac:(lia)) as H2.
    destruct (peek l p2 [59]) as [p3 more]. simpl in H1, H2. destruct more; [|split; [lia|done]].
    specialize (H2 eq_refl). apply good_mono with (tk_next (gettoken l p3)); [lia|].
    eapply good_bind; [apply IHl; lia|]. intros r p4 Hp4 Hr. split; [lia|]. by apply Forall_app.
  - cbn [parsepipe]. eapply good_bind; [apply IHe; lia|]. intros c p1 Hp1 Hc.
    destruct (peek_spec p1 [124] ltac:(lia)) as [H1 _]. pose proof (peek_token p1 [124] ltac:(lia)) as H2.
    destruct (peek l p1 [124]) as [p3 more]. simpl in H1, H2. destruct more; [|split; [lia|done]].
    specialize (H2 eq_refl). apply good_mono with (tk_next (gettoken l p3)); [lia|].
    eapply good_bind; [apply IHp; lia|]. intros r p4 Hp4 Hr. split; [lia|]. by apply Forall_app.
  - cbn [parseexec]. destruct (peek_spec p [40] Hp) as [H1 H2].
    destruct (peek l p [40]) as [p1 block]. simpl in H1, H2. destruct block.
    { apply good_mono with p1; [lia|]. apply IHb; [by apply H2|]. specialize (H2 eq_refl). lia. }
    apply good_mono with p1; [lia|].
    eapply good_bind; [apply parseredirs_good; [lia|lia|constructor]|]. intros rs p2 Hp2 Hrs.
    apply good_mono with p2; [lia|]. apply parseargs_good; [lia|lia|constructor|done].
  - cbn [parseblock]. pose proof (peek_token p [40] ltac:(lia)) as H2.
    destruct (peek l p [40]) as [p1 open]. simpl in H2. destruct open; cbn [negb]; [|done].
    specialize (H2 eq_refl). apply good_mono with (tk_next (gettoken l p1)); [lia|].
    eapply good_bind; [apply IHl; lia|]. intros c p2 Hp2 Hc.
    pose proof (peek_token p2 [41] ltac:(lia)) as H3.
    destruct (peek l p2 [41]) as [p3 close]. simpl in H3. destruct close; cbn [negb]; [|done].
    specialize (H3 eq_refl). apply good_mono with (tk_next (gettoken l p3)); [lia|].
    eapply good_bind; [apply parseredirs_good; [lia|lia|constructor]|].
    intros rs p4 Hp4 Hrs. split; [lia|by apply wrap_ok].
Qed.

Lemma parsecmd_good : good 0 cmd_ok (parsecmd l).
Proof using Hnz.
  unfold parsecmd. destruct (parse_good (4 * ee + 4)) as (Hl & _).
  eapply good_bind; [apply Hl; lia|]. intros c p Hp Hc.
  destruct (peek_spec p [] ltac:(lia)) as [H1 _]. destruct (peek l p []) as [p1 b]. simpl in H1.
  destruct (p1 =? ee)%nat; [|done]. by split; [lia|].
Qed.
End sh_facts.

(** *** NUL-termination *)

Lemma fold_zero (argv : list (nat * nat)) b i :
  (i < length b)%nat →
  foldl (λ b a, <[a.2 := 0]> b) b argv !! i =
  (if bool_decide (i ∈ argv.*2) then Some 0 else b !! i) ∧
  length (foldl (λ b (a : nat * nat), <[a.2 := 0]> b) b argv) = length b.
Proof.
  revert b. induction argv as [|a argv IH]; intros b Hi; simpl; [done|].
  destruct (IH (<[a.2 := 0]> b)) as [-> ->]; [by rewrite length_insert|].
  rewrite length_insert. split; [|done]. repeat case_bool_decide; try done.
  - exfalso. set_solver.
  - assert (i = a.2) as -> by set_solver. by rewrite list_lookup_insert_eq.
  - rewrite list_lookup_insert_ne; [done|]. set_solver.
Qed.

Lemma nulterminate_lookup c b i :
  (i < length b)%nat →
  nulterminate c b !! i = (if bool_decide (i ∈ (words c).*2) then Some 0 else b !! i) ∧
  length (nulterminate c b) = length b.
Proof.
  revert b. induction c as [argv|c IH f m d|x IHx y IHy|x IHx y IHy|c IH]; intros b Hi; simpl.
  - by apply fold_zero.
  - destruct (IH b Hi) as [H1 H2]. rewrite length_insert, H2. split; [|done].
    destruct (decide (i = f.2)) as [->|Hne].
    + rewrite list_lookup_insert_eq by lia. rewrite bool_decide_eq_true_2; [done|]. set_solver.
    + rewrite list_lookup_insert_ne by done. rewrite H1.
      repeat case_bool_decide; try done; exfalso; set_solver.
  - destruct (IHx b Hi) as [H1 H2]. destruct (IHy (nulterminate x b)) as [H3 H4]; [lia|].
    rewrite H3, H4, H1. split; [|done]. rewrite fmap_app.
    repeat case_bool_decide; try done; exfalso; set_solver.
  - destruct (IHx b Hi) as [H1 H2]. destruct (IHy (nulterminate x b)) as [H3 H4]; [lia|].
    rewrite H3, H4, H1. split; [|done]. rewrite fmap_app.
    repeat case_bool_decide; try done; exfalso; set_solver.
  - by apply IH.
Qed.

Lemma cstr_word n b :
  (∀ i, (i < n)%nat → ∃ c, b !! i = Some c ∧ c ≠ 0) → b !! n = Some 0 → cstr b = take n b.
Proof.
  revert b. induction n as [|n IH]; intros [|c b] Hb Hn; simpl in *; try done.
  - by injection Hn as ->.
  - destruct (Hb 0%nat ltac:(lia)) as (x & [= ->] & Hx). rewrite (proj2 (Z.eqb_neq x 0) Hx).
    f_equal. apply IH; [|done]. intros i Hi. apply (Hb (S i)). lia.
Qed.

(** ** Properties *)

(** [C30] The parser terminates: on every line, within four calls per byte,
    parsecmd returns a command or panics with a syntax error; every word of
    the command is a maximal run of bytes that are neither blanks nor
    symbols. *)
Theorem parsecmd_total l :
  Forall (.≠ 0) l →
  match parsecmd l with
  | POk c p => p = es l ∧ Forall (word l) (words c)
  | PPanic _ => True
  | PFuel => False
  end.
Proof.
  intros Hl. pose proof (parsecmd_good l Hl) as H. unfold parsecmd in *.
  destruct (parseline l (4 * es l + 4) 0) as [c p| |]; simpl in *; try done.
  destruct (Nat.eqb_spec (skipws l (es l) p) (es l)); simpl in *; [|done]. by destruct H.
Qed.

(** nulterminate makes each word of the parsed command a C string of
    its own: no NUL written for one word lands inside another, although all
    of them are written into the one line. *)
Theorem nulterminate_spec l c p w :
  Forall (.≠ 0) l → parsecmd l = POk c p → w ∈ words c →
  cstr (drop w.1 (nulterminate c (l ++ [0]))) = take (w.2 - w.1) (drop w.1 l) ∧ (w.1 < w.2)%nat.
Proof.
  intros Hl Hp Hw. pose proof (parsecmd_good l Hl) as H. rewrite Hp in H. destruct H as [_ Hok].
  unfold cmd_ok in Hok. rewrite Forall_forall in Hok.
  destruct (Hok w Hw) as (H1 & H2 & H3). unfold es in *.
  assert (Hlook : ∀ i, (i < length l + 1)%nat → nulterminate c (l ++ [0]) !! i =
            (if bool_decide (i ∈ (words c).*2) then Some 0 else (l ++ [0]) !! i)).
  { intros i Hi. apply nulterminate_lookup. rewrite length_app. simpl. lia. }
  assert (Hin : ∀ i, (w.1 ≤ i < w.2)%nat → nulterminate c (l ++ [0]) !! i = l !! i).
  { intros i Hi. rewrite Hlook by lia. rewrite bool_decide_eq_false_2.
    - by rewrite lookup_app_l by lia.
    - intros [w' [-> Hw']]%list_elem_of_fmap. destruct (Hok w' Hw') as (_ & _ & H3').
      specialize (H2 w'.2 Hi). unfold es in H3'. rewrite H3' in H2; [done|lia]. }
  split; [|lia]. rewrite (cstr_word (w.2 - w.1)).
  - apply list_eq_same_length with (w.2 - w.1)%nat.
    + rewrite length_take, length_drop. lia.
    + rewrite length_take, length_drop. destruct (nulterminate_lookup c (l ++ [0]) 0) as [_ ->];
        rewrite length_app; simpl; lia.
    + intros i x y Hi. rewrite !lookup_take_lt, !lookup_drop, Hin by lia. congruence.
  - intros i Hi. rewrite lookup_drop, Hin by lia.
    destruct (lookup_lt_is_Some_2 l (w.1 + i)) as [x Hx]; [lia|]. exists x. split; [done|].
    eapply Forall_lookup_1 in Hl; [|exact Hx]. done.
  - rewrite lookup_drop. replace (w.1 + (w.2 - w.1))%nat with w.2 by lia. rewrite Hlook by lia.
    rewrite bool_decide_eq_true_2; [done|]. apply list_elem_of_fmap. by exists w.
Qed.

(** ** Witnesses *)

(** ls|wc>f& *)
Definition line1 : list Z := [108; 115; 124; 119; 99; 62; 102; 38].
Definition cmd1 : cmd :=
  BACK (PIPE (EXEC [(0, 2)]) (REDIR (EXEC [(3, 5)]) (6, 7) 513 1))%nat.

Lemma line1_nz : Forall (.≠ 0) line1.
Proof. repeat constructor; discriminate. Qed.

Lemma parsecmd_total_witness :
  match parsecmd line1 with
  | POk c p => p = es line1 ∧ Forall (word line1) (words c)
  | PPanic _ => True
  | PFuel => False
  end.
Proof. exact (parsecmd_total line1 line1_nz). Defined.

Lemma nulterminate_spec_witness :
  cstr (drop 3 (nulterminate cmd1 (line1 ++ [0]))) = [119; 99] ∧ (3 < 5)%nat.
Proof.
  apply (nulterminate_spec line1 cmd1 8 (3, 5)%nat line1_nz); [reflexivity|].
  simpl. apply elem_of_cons. right. apply elem_of_cons. right. apply elem_of_cons. by left.
Defined.
