(* ===== verification/Shrun.v ===== *)
(** * Running a parsed command (runcmd of xv6/sh.c)

    runcmd forks a tree of processes.  Each of them only looks at the command
    and at its own descriptor table, so [runcmd] returns the calls of exec and of
    wait that the processes of a command make, each with the descriptor table
    of its process; a process's calls are in its order, after those of the
    children it has created.  A place in the command ([list bool], the path
    from the root) names the pipe that is created there.  Whether fork and
    open succeed at a place is an argument; pipe fails when two descriptors
    are not free. *)

From S2P Require Import Prelude Sh.
Local Open Scope Z_scope.

(** What a descriptor stands for. *)
Inductive obj :=
  | Inherited (fd : nat)
  | Opened (name : list Z) (mode : Z)
  | PipeR (place : list bool)
  | PipeW (place : list bool).

Definition fdtab : Type := list (option obj).

Definition close (fd : nat) (t : fdtab) : fdtab := <[fd := None]> t.

(** The lowest free descriptor. *)
Fixpoint lowest (t : fdtab) (fd : nat) : option nat :=
  match t with
  | [] => None
  | None :: _ => Some fd
  | Some _ :: t => lowest t (S fd)
  end.
Definition install (o : obj) (t : fdtab) : option (nat * fdtab) :=
  match lowest t 0 with
  | Some fd => Some (fd, <[fd := Some o]> t)
  | None => None
  end.
Definition dup (fd : nat) (t : fdtab) : fdtab :=
  match t !! fd with
  | Some (Some o) => match install o t with Some (_, t) => t | None => t end
  | _ => t
  end.
Definition pipe_fds (place : list bool) (t : fdtab) : option (nat * nat * fdtab) :=
  match install (PipeR place) t with
  | Some (p0, t) =>
      match install (PipeW place) t with Some (p1, t) => Some (p0, p1, t) | None => None end
  | None => None
  end.

Section runcmd.
(** The line after nulterminate; which forks and opens succeed. *)
Context (b : list Z).
Context (fork_ok : list bool → nat → bool) (open_ok : list bool → bool).

Definition str (w : nat * nat) : list Z := cstr (drop w.1 b).

(** A system call of a process at the end of its part of the command. *)
Inductive syscall := Execs (argv : list (list Z)) | Waits.

(** The two children of a PIPE command, and its parent. *)
Definition left_fds (p0 p1 : nat) (t : fdtab) : fdtab :=
  close p1 (close p0 (dup p1 (close 1 t))).
Definition right_fds (p0 p1 : nat) (t : fdtab) : fdtab :=
  close p1 (close p0 (dup p0 (close 0 t))).

Definition parent_fds (p0 p1 : nat) (t : fdtab) : fdtab := close p1 (close p0 t).

Fixpoint runcmd (c : cmd) (place : list bool) (t : fdtab) : list (syscall * fdtab) :=
  match c with
  | EXEC [] => []
  | EXEC argv => [(Execs (str <$> argv), t)]
  | REDIR c file mode fd =>
      let t := close (Z.to_nat fd) t in
      if open_ok place then
        match install (Opened (str file) mode) t with
        | Some (_, t) => runcmd c (place ++ [false]) t
        | None => []
        end
      else []
  | LIST x y =>
      if fork_ok place 0 then runcmd x (place ++ [false]) t ++ (Waits, t) :: runcmd y (place ++ [true]) t else []
  | PIPE x y =>
      match pipe_fds place t with
      | None => []
      | Some (p0, p1, t) =>
          if fork_ok place 0 then
            runcmd x (place ++ [false]) (left_fds p0 p1 t) ++
            (if fork_ok place 1 then
               runcmd y (place ++ [true]) (right_fds p0 p1 t) ++
               [(Waits, parent_fds p0 p1 t); (Waits, parent_fds p0 p1 t)]
             else [])
          else []
      end
  | BACK c => if fork_ok place 0 then runcmd c (place ++ [false]) t else []
  end.

(** ** The plumbing a command describes *)

(** Standard input and output of each program of the command, and of the
    shells that wait for one. *)
Fixpoint plumbing (c : cmd) (place : list bool) (i o : obj) : list (syscall * obj * obj) :=
  match c with
  | EXEC [] => []
  | EXEC argv => [(Execs (str <$> argv), i, o)]
  | REDIR c file mode fd =>
      if fd =? 0 then plumbing c (place ++ [false]) (Opened (str file) mode) o
      else plumbing c (place ++ [false]) i (Opened (str file) mode)
  | LIST x y => plumbing x (place ++ [false]) i o ++ (Waits, i, o) :: plumbing y (place ++ [true]) i o
  | PIPE x y =>
      plumbing x (place ++ [false]) i (PipeW place) ++ plumbing y (place ++ [true]) (PipeR place) o ++
      [(Waits, i, o); (Waits, i, o)]
  | BACK c => plumbing c (place ++ [false]) i o
  end.

(** A table with three open descriptors. *)
Definition std (i o e : obj) : fdtab := [Some i; Some o; Some e] ++ replicate 13 None.

(** The parser only makes redirections of 0 and 1. *)
Fixpoint redirs01 (c : cmd) : Prop :=
  match c with
  | EXEC _ => True
  | REDIR c _ _ fd => (fd = 0 ∨ fd = 1) ∧ redirs01 c
  | LIST x y | PIPE x y => redirs01 x ∧ redirs01 y
  | BACK c => redirs01 c
  end.

Definition wire (e : obj) (x : syscall * obj * obj) : syscall * fdtab :=
  (x.1.1, std x.1.2 x.2 e).

Lemma pipe_std place i o e :
  pipe_fds place (std i o e) =
  Some (3%nat, 4%nat, [Some i; Some o; Some e; Some (PipeR place); Some (PipeW place)] ++ replicate 11 None).
Proof. done. Qed.

Lemma runcmd_sub c : ∀ place i o e,
  redirs01 c → runcmd c place (std i o e) `sublist_of` wire e <$> plumbing c place i o.
Proof.
  induction c as [argv|c IH f m d|x IHx y IHy|x IHx y IHy|c IH]; intros place i o e Hr; simpl in Hr.
  - by destruct argv.
  - destruct Hr as [[-> | ->] Hr]; cbn [runcmd plumbing Z.eqb]; destruct (open_ok place);
      try apply sublist_nil_l; by apply IH.
  - destruct Hr as [Hx Hy]. cbn [runcmd plumbing]. rewrite pipe_std, !fmap_app.
    destruct (fork_ok place 0); [|apply sublist_nil_l]. apply sublist_app; [by apply IHx|].
    destruct (fork_ok place 1); [|apply sublist_nil_l]. apply sublist_app; [by apply IHy|done].
  - destruct Hr as [Hx Hy]. cbn [runcmd plumbing]. rewrite fmap_app.
    destruct (fork_ok place 0); [|apply sublist_nil_l].
    apply sublist_app; [by apply IHx|]. apply sublist_skip. by apply IHy.
  - cbn [runcmd plumbing]. destruct (fork_ok place 0); [by apply IH|apply sublist_nil_l].
Qed.

Lemma runcmd_all c : ∀ place i o e,
  (∀ q k, fork_ok q k = true) → (∀ q, open_ok q = true) → redirs01 c →
  runcmd c place (std i o e) = wire e <$> plumbing c place i o.
Proof.
  intros place i o e Hf Ho. revert place i o.
  induction c as [argv|c IH f m d|x IHx y IHy|x IHx y IHy|c IH]; intros place i o Hr; simpl in Hr.
  - by destruct argv.
  - destruct Hr as [[-> | ->] Hr]; cbn [runcmd plumbing Z.eqb]; rewrite Ho; by apply IH.
  - destruct Hr as [Hx Hy]. cbn [runcmd plumbing]. rewrite pipe_std, !fmap_app, !Hf.
    f_equal; [by apply IHx|]. f_equal. by apply IHy.
  - destruct Hr as [Hx Hy]. cbn [runcmd plumbing]. rewrite fmap_app, Hf.
    f_equal; [by apply IHx|]. cbn [fmap list_fmap]. f_equal. by apply IHy.
  - cbn [runcmd plumbing]. rewrite Hf. by apply IH.
Qed.
End runcmd.

(** ** What the parser makes *)

Definition okp {A} (P : A → Prop) (m : pres A) : Prop :=
  match m with POk a _ => P a | _ => True end.

Lemma okp_bind {A B} (P : A → Prop) (R : B → Prop) m (f : A → nat → pres B) :
  okp P m → (∀ a p, P a → okp R (f a p)) → okp R (pbind m f).
Proof. destruct m; simpl; auto. Qed.

Definition redir01 (r : (nat * nat) * Z * Z) : Prop := r.2 = 0 ∨ r.2 = 1.

Lemma wrap_redirs01 rs : ∀ c, redirs01 c → Forall redir01 rs → redirs01 (wrap c rs).
Proof.
  unfold wrap. induction rs as [|r rs IH]; intros c Hc Hrs; simpl; [done|].
  inversion Hrs; subst. apply IH; [|done]. by split.
Qed.

Section parsed.
Context (l : list Z).

Lemma parseredirs_redir01 n : ∀ p acc,
  Forall redir01 acc → okp (Forall redir01) (parseredirs l n p acc).
Proof.
  induction n as [|n IH]; intros p acc Hacc; cbn [parseredirs]; [done|].
  destruct (peek l p [60; 62]) as [p1 more]. destruct more; [|done].
  destruct (negb _); [done|]. apply IH, Forall_app. split; [done|].
  unfold redir_of. repeat case_match; simplify_eq/=; repeat constructor; by (left + right).
Qed.

Lemma parseargs_redirs01 n : ∀ p argv rs,
  Forall redir01 rs → okp redirs01 (parseargs l n p argv rs).
Proof.
  induction n as [|n IH]; intros p argv rs Hrs; cbn [parseargs]; [done|].
  destruct (peek l p _) as [p1 stop]. destruct stop; [by apply wrap_redirs01|].
  destruct (_ =? 0); [by apply wrap_redirs01|]. destruct (negb _); [done|].
  destruct (_ <=? _)%nat; [done|].
  eapply okp_bind; [by apply parseredirs_redir01|]. intros rs' q Hrs'. apply IH. by apply Forall_app.
Qed.

Lemma parseback_redirs01 n : ∀ p c, redirs01 c → okp redirs01 (parseback l n p c).
Proof.
  induction n as [|n IH]; intros p c Hc; cbn [parseback]; [done|].
  destruct (peek l p _) as [p1 more]. destruct more; [by apply IH|done].
Qed.

Lemma parse_redirs01 n : ∀ p,
  okp redirs01 (parseline l n p) ∧ okp redirs01 (parsepipe l n p) ∧
  okp redirs01 (parseexec l n p) ∧ okp redirs01 (parseblock l n p).
Proof.
  induction n as [|n IH]; intros p; [done|]. split_and!.
  - cbn [parseline]. eapply okp_bind; [apply IH|]. intros c q Hc.
    eapply okp_bind; [by apply parseback_redirs01|]. intros c2 q2 Hc2.
    destruct (peek l q2 _) as [q3 more]. destruct more; [|done].
    eapply okp_bind; [apply IH|]. by intros r q4 Hr.
  - cbn [parsepipe]. eapply okp_bind; [apply IH|]. intros c q Hc.
    destruct (peek l q _) as [q3 more]. destruct more; [|done].
    eapply okp_bind; [apply IH|]. by intros r q4 Hr.
  - cbn [parseexec]. destruct (peek l p _) as [q block]. destruct block; [apply IH|].
    eapply okp_bind; [by apply parseredirs_redir01|]. intros rs q2 Hrs. by apply parseargs_redirs01.
  - cbn [parseblock]. destruct (peek l p _) as [q op]. destruct (negb op); [done|].
    eapply okp_bind; [apply IH|]. intros c q2 Hc.
    destruct (peek l q2 _) as [q3 cl]. destruct (negb cl); [done|].
    eapply okp_bind; [by apply parseredirs_redir01|]. intros rs q4 Hrs. by apply wrap_redirs01.
Qed.

Lemma parsecmd_redirs01 c p : parsecmd l = POk c p → redirs01 c.
Proof.
  intros H. assert (Hok : okp redirs01 (parsecmd l)); [|by rewrite H in Hok].
  unfold parsecmd. eapply okp_bind; [apply parse_redirs01|]. intros d q Hd.
  destruct (peek l q []) as [q2 b]. by destruct (_ =? _)%nat.
Qed.
End parsed.

(** ** Properties *)

(** [C29] The shell plumbs a command line the way it reads: started with
    descriptors 0, 1 and 2 only, every program it executes gets the standard
    input and output its pipes and redirections say, its parent's standard
    error, and no other descriptor; and so does every shell that waits for
    such a program (no stray pipe end keeps a reader from its end of file);
    when no fork or open fails all programs of the line are executed, and
    waited for as the line says. *)
Theorem runcmd_plumbs l c p fork_ok open_ok i o e :
  parsecmd l = POk c p →
  let b := nulterminate c (l ++ [0]) in
  runcmd b fork_ok open_ok c [] (std i o e) `sublist_of` wire e <$> plumbing b c [] i o ∧
  ((∀ q k, fork_ok q k = true) → (∀ q, open_ok q = true) →
   runcmd b fork_ok open_ok c [] (std i o e) = wire e <$> plumbing b c [] i o).
Proof.
  intros H%parsecmd_redirs01 b. split; [by apply runcmd_sub|]. intros. by apply runcmd_all.
Qed.

(** ** Witnesses *)

(** ls|wc>f& *)
Lemma runcmd_plumbs_witness :
  runcmd (nulterminate cmd1 (line1 ++ [0])) (λ _ _, true) (λ _, true) cmd1 []
    (std (Inherited 0) (Inherited 1) (Inherited 2)) =
  [(Execs [[108; 115]], std (Inherited 0) (PipeW [false]) (Inherited 2));
   (Execs [[119; 99]], std (PipeR [false]) (Opened [102] 513) (Inherited 2));
   (Waits, std (Inherited 0) (Inherited 1) (Inherited 2)); (Waits, std (Inherited 0) (Inherited 1) (Inherited 2))].
Proof.
  exact (proj2 (runcmd_plumbs line1 cmd1 8 (λ _ _, true) (λ _, true)
                 (Inherited 0) (Inherited 1) (Inherited 2) eq_refl)
           (λ _ _, eq_refl) (λ _, eq_refl)).
Defined.
