(* ===== verification/Cmds.v ===== *)
(** * Command-line programs of xv6 (wc.c, cat.c, echo.c, ls.c, rm.c, mkdir.c,
    ln.c, kill.c, init.c), gets of ulib.c and the main loop of sh.c

    These programs only make system calls.  What the calls give them is an
    argument: what reading a descriptor to the end returns, one list per
    read, and whether it ends in an error; which opens, links, ... succeed.
    What they do is the list of their writes and calls, in order, with one
    entry for all that one printf writes.  A C string
    is the list of its bytes before the NUL. *)

From stdpp Require Import list strings.
From S2P Require Import Prelude CString Block Fs Console Sh.
Local Open Scope Z_scope.

(** The bytes of a string literal. *)
Definition lit (s : string) : list Z := (λ c, Z.of_nat (Ascii.nat_of_ascii c)) <$> String.list_ascii_of_string s.

(** What a program does. *)
Inductive act :=
  | Out (fd : Z) (bytes : list Z)
  | Unlink (path : list Z)
  | Mkdir (path : list Z)
  | Link (old new : list Z)
  | Kill (pid : Z)
  | Chdir (path : list Z)
  | Open (path : list Z)
  | Close (fd : Z)
  | Mknod (path : list Z)
  | Dup (fd : Z)
  | Exec (path : list Z)
  | Run (line : list Z).

(** A decimal argument and a string argument of printf; the formats of these
    programs have one conversion per argument. *)
Definition dec (x : Z) : list Z := printint true (i32 x) 10 true.

(** What a descriptor gives: the reads, and whether the last one fails. *)
Record stream := mkStream { reads : list (list Z); fails : bool }.

(** A read of nothing is the end of the file. *)
Definition is_nil (l : list Z) : bool := match l with [] => true | _ => false end.
Definition read_error (f : stream) : bool := fails f && forallb (λ r, negb (is_nil r)) (reads f).

(** The reads a loop sees: up to the first one that returns nothing. *)
Fixpoint upto (l : list (list Z)) : list (list Z) :=
  match l with
  | [] => []
  | r :: l => match r with [] => [] | _ => r :: upto l end
  end.

(** ** wc *)

Record counts := mkCounts { wl : Z; ww : Z; wch : Z; inword : bool }.

Definition is_space (c : Z) : bool := existsb (Z.eqb c) [32; 13; 9; 10; 11].

(** One round of the inner loop; the counters are ints. *)
Definition wc_char (k : counts) (ch : Z) : counts :=
  let c := i32 (wch k + 1) in
  let l := if ch =? 10 then i32 (wl k + 1) else wl k in
  if is_space ch then mkCounts l (ww k) c false
  else if negb (inword k) then mkCounts l (i32 (ww k + 1)) c true
  else mkCounts l (ww k) c (inword k).

Fixpoint wc_loop (l : list (list Z)) (k : counts) : counts :=
  match l with
  | [] => k
  | buf :: l => match buf with [] => k | _ => wc_loop l (foldl wc_char k buf) end
  end.

(** The output, and whether wc has called exit. *)
Definition wc (f : stream) (name : list Z) : list act * bool :=
  let k := wc_loop (reads f) (mkCounts 0 0 0 false) in
  if read_error f then ([Out 1 (lit "wc: read error" ++ [10])], true)
  else ([Out 1 (dec (wl k) ++ [32] ++ dec (ww k) ++ [32] ++ dec (wch k) ++ [32] ++ name ++ [10])], false).

(** ** cat *)

Definition cat (f : stream) : list act * bool :=
  let out := Out 1 <$> upto (reads f) in
  if read_error f then (out ++ [Out 1 (lit "cat: read error" ++ [10])], true) else (out, false).

(** The main of wc and cat: descriptor 0, or each file in turn. *)
Section each_file.
Context (cmd : stream → list Z → list act * bool) (cannot : list Z → act) (open : list Z → option stream).

Fixpoint each_file (files : list (list Z)) : list act :=
  match files with
  | [] => []
  | name :: files =>
      match open name with
      | None => [cannot name]
      | Some f => let '(out, stop) := cmd f name in if stop then out else out ++ each_file files
      end
  end.
Definition file_main (stdin : stream) (args : list (list Z)) : list act :=
  match args with
  | [] => (cmd stdin []).1
  | _ => each_file args
  end.
End each_file.

Definition wc_main : (list Z → option stream) → stream → list (list Z) → list act :=
  file_main wc (λ name, Out 1 (lit "wc: cannot open " ++ name ++ [10])).
Definition cat_main : (list Z → option stream) → stream → list (list Z) → list act :=
  file_main (λ f _, cat f) (λ name, Out 1 (lit "cat: cannot open " ++ name ++ [10])).

(** ** echo, rm, mkdir, ln, kill *)

Fixpoint echo_main (args : list (list Z)) : list act :=
  match args with
  | [] => []
  | a :: rest => Out 1 (a ++ match rest with [] => [10] | _ => [32] end) :: echo_main rest
  end.

(** The loop of rm and mkdir: one call per file, until one fails. *)
Fixpoint until_fail (call : list Z → act) (ok : list Z → bool) (failed : list Z → list Z) (files : list (list Z)) : list act :=
  match files with
  | [] => []
  | f :: files => call f :: if ok f then until_fail call ok failed files else [Out 2 (failed f)]
  end.
Definition rm_main (unlink_ok : list Z → bool) (args : list (list Z)) : list act :=
  match args with
  | [] => [Out 2 (lit "Usage: rm files..." ++ [10])]
  | _ => until_fail Unlink unlink_ok (λ f, lit "rm: " ++ f ++ lit " failed to delete" ++ [10]) args
  end.
Definition mkdir_main (mkdir_ok : list Z → bool) (args : list (list Z)) : list act :=
  match args with
  | [] => [Out 2 (lit "Usage: mkdir files..." ++ [10])]
  | _ => until_fail Mkdir mkdir_ok (λ f, lit "mkdir: " ++ f ++ lit " failed to create" ++ [10]) args
  end.

Definition ln_main (link_ok : list Z → list Z → bool) (args : list (list Z)) : list act :=
  match args with
  | [old; new] =>
      Link old new ::
      if link_ok old new then [] else [Out 2 (lit "link " ++ old ++ [32] ++ new ++ lit ": failed" ++ [10])]
  | _ => [Out 2 (lit "Usage: ln old new" ++ [10])]
  end.

Definition kill_main (args : list (list Z)) : list act :=
  match args with
  | [] => [Out 2 (lit "usage: kill pid..." ++ [10])]
  | _ => (λ a, Kill (default 0 (atoi (bstr a) (S (length a))))) <$> args
  end.

(** ** ls *)

(** for(p=path+strlen(path); p >= path && *p != '/'; p--); p++; *)
Fixpoint after_slash (rpath acc : list Z) : list Z :=
  match rpath with
  | [] => acc
  | c :: r => if c =? 47 then acc else after_slash r (c :: acc)
  end.

Definition fmtname (path : list Z) : list Z :=
  let p := after_slash (rev path) [] in
  if (DIRSIZ <=? length p)%nat then p else p ++ replicate (DIRSIZ - length p) 32.

(** What open, fstat and stat find: the type, inode number and size. *)
Definition stat_ : Type := Z * Z * Z.

Definition ls_line (path : list Z) (st : stat_) : act :=
  let '(type, ino, size) := st in
  Out 1 (fmtname path ++ [32] ++ dec type ++ [32] ++ dec ino ++ [32] ++ dec size ++ [10]).

Section ls.
(** The opens that succeed with what fstat then gives, what stat gives, and
    the reads of a directory. *)
Context (fstat_of : list Z → option (option stat_)) (stat_of : list Z → option stat_) (dir_reads : list Z → list (list Z)).

Fixpoint ls_entries (path : list Z) (l : list (list Z)) : list act :=
  match l with
  | [] => []
  | de :: l =>
      if (length de =? 16)%nat then
        if de_inum de =? 0 then ls_entries path l else
        let buf := path ++ [47] ++ name_str DIRSIZ (de_name de) in
        (match stat_of buf with
         | None => Out 1 (lit "ls: cannot stat " ++ buf ++ [10])
         | Some st => ls_line buf st
         end) :: ls_entries path l
      else []
  end.

Definition ls (path : list Z) : list act :=
  match fstat_of path with
  | None => [Out 2 (lit "ls: cannot open " ++ path ++ [10])]
  | Some None => [Out 2 (lit "ls: cannot stat " ++ path ++ [10])]
  | Some (Some st) =>
      let '(type, ino, size) := st in
      if type =? T_FILE then [ls_line path st] else
      if type =? T_DIR then
        if (512 <? length path + 1 + DIRSIZ + 1)%nat then [Out 1 (lit "ls: path too long" ++ [10])]
        else ls_entries path (dir_reads path)
      else []
  end.

Definition ls_main (args : list (list Z)) : list act :=
  match args with
  | [] => ls [46]
  | _ => concat (ls <$> args)
  end.
End ls.

(** ** init *)

(** while((wpid=wait()) >= 0 && wpid != pid): the output, and the results of
    wait that are left; with none left init is still waiting. *)
Fixpoint init_wait (pid : Z) (waits : list Z) : list act * list Z :=
  match waits with
  | [] => ([], [])
  | w :: waits =>
      if (0 <=? w) && negb (w =? pid)
      then let '(out, r) := init_wait pid waits in (Out 1 (lit "zombie!" ++ [10]) :: out, r)
      else ([], waits)
  end.

(** The for(;;) loop, as long as there are results of fork. *)
Fixpoint init_loop (forks waits : list Z) : list act :=
  match forks with
  | [] => []
  | pid :: forks =>
      Out 1 (lit "init: starting sh" ++ [10]) ::
      if pid <? 0 then [Out 1 (lit "init: fork failed" ++ [10])] else
      if pid =? 0 then [Exec (lit "sh"); Out 1 (lit "init: exec sh failed" ++ [10])] else
      let '(out, waits) := init_wait pid waits in out ++ init_loop forks waits
  end.

Definition init_main (console_ok : bool) (forks waits : list Z) : list act :=
  (if console_ok then [Open (lit "console")]
   else [Open (lit "console"); Mknod (lit "console"); Open (lit "console")]) ++
  [Dup 0; Dup 0] ++ init_loop forks waits.

(** ** The main loop of the shell *)

(** gets: [room] bytes may still be stored; the bytes stored and the input left. *)
Fixpoint gets_loop (room : nat) (input : list Z) : list Z * list Z :=
  match room, input with
  | S room, c :: input =>
      if (c =? 10) || (c =? 13) then ([c], input)
      else let '(l, r) := gets_loop room input in (c :: l, r)
  | _, _ => ([], input)
  end.
Definition gets (max : nat) (input : list Z) : list Z * list Z := gets_loop (max - 1) input.

(** The C string in buf, and its first bytes, NUL after the end. *)
Fixpoint cstring (l : list Z) : list Z :=
  match l with
  | [] => []
  | c :: l => if c =? 0 then [] else c :: cstring l
  end.

Definition getcmd (input : list Z) : option (list Z * list Z) :=
  let '(buf, rest) := gets 100 input in
  if nth 0 buf 0 =? 0 then None else Some (buf, rest).

(** One command per line: cd in the shell itself, the others in a child that
    runs the line; [fork_ok] and [chdir_ok] say which calls succeed, by the
    number of the command. *)
Fixpoint sh_loop (fork_ok : nat → bool) (chdir_ok : list Z → bool) (fuel n : nat) (input : list Z) : option (list act) :=
  match fuel with
  | O => None
  | S fuel =>
      match getcmd input with
      | None => Some [Out 2 (lit "$ ")]
      | Some (buf, rest) =>
          let s := cstring buf in
          if (nth 0 s 0 =? 99) && (nth 1 s 0 =? 100) && (nth 2 s 0 =? 32) then
            let path := cstring (drop 3 (take (length s - 1) s)) in
            r ← sh_loop fork_ok chdir_ok fuel (S n) rest;
            Some (Out 2 (lit "$ ") :: Chdir path ::
                  (if chdir_ok path then [] else [Out 2 (lit "cannot cd " ++ path ++ [10])]) ++ r)
          else if fork_ok n then
            r ← sh_loop fork_ok chdir_ok fuel (S n) rest;
            Some (Out 2 (lit "$ ") :: Run s :: r)
          else Some [Out 2 (lit "$ "); Out 2 (lit "fork" ++ [10])]
      end
  end.

(** main makes sure that descriptors 0 to 2 are open; [opens] is what open
    returns. *)
Fixpoint sh_fds (opens : list Z) : list act :=
  match opens with
  | [] => []
  | fd :: opens => Open (lit "console") :: if fd <? 0 then [] else if 3 <=? fd then [Close fd] else sh_fds opens
  end.

(** Every command takes a byte of the input. *)
Definition sh_main (opens : list Z) (fork_ok : nat → bool) (chdir_ok : list Z → bool) (input : list Z) : option (list act) :=
  r ← sh_loop fork_ok chdir_ok (S (length input)) 0 input;
  Some (sh_fds opens ++ r).

(** ** Properties of wc *)

(** The words of a text: the longest runs of bytes that are not space. *)
Fixpoint split_words (s cur : list Z) : list (list Z) :=
  match s with
  | [] => if is_nil cur then [] else [rev cur]
  | c :: s => if is_space c then (if is_nil cur then [] else [rev cur]) ++ split_words s []
              else split_words s (c :: cur)
  end.

Definition newlines (s : list Z) : Z := Z.of_nat (length (filter (λ c, c = 10) s)).

(** Counters that agree with a text read so far, [cur] being the word it ends in. *)
Lemma wc_chars s : ∀ k cur,
  inword k = negb (is_nil cur) → 0 ≤ wl k ≤ wch k → 0 ≤ ww k ≤ wch k → wch k + Z.of_nat (length s) < 2147483648 →
  let k' := foldl wc_char k s in
  wl k' = wl k + newlines s ∧ wch k' = wch k + Z.of_nat (length s) ∧
  ww k' = ww k + Z.of_nat (length (split_words s cur)) - (if is_nil cur then 0 else 1).
Proof.
  induction s as [|c s IH]; intros k cur Hin Hl Hw Hm k'.
  { unfold k', newlines. simpl. destruct (is_nil cur); simpl; lia. }
  unfold k'. cbn [foldl]. cbn [length] in Hm. clear k'.
  assert (i32 (wch k + 1) = wch k + 1) as E1 by (apply i32_small; lia).
  assert (i32 (wl k + 1) = wl k + 1) as E2 by (apply i32_small; lia).
  assert (i32 (ww k + 1) = ww k + 1) as E3 by (apply i32_small; lia).
  assert (newlines (c :: s) = (if c =? 10 then 1 else 0) + newlines s) as Hn.
  { unfold newlines. rewrite filter_cons. destruct (Z.eqb_spec c 10); [rewrite decide_True by done|rewrite decide_False by done]; simpl length; lia. }
  rewrite Hn. cbn [split_words length].
  destruct (is_space c) eqn:Hsp.
  - destruct (IH (wc_char k c) []) as (I1 & I2 & I3); unfold wc_char; rewrite Hsp, ?E1, ?E2; simpl; try done;
      [case_if; lia|lia|lia|]. unfold wc_char in I1, I2, I3. rewrite Hsp, ?E1, ?E2 in I1, I2, I3. simpl in I1, I2, I3.
    rewrite I1, I2, I3. rewrite length_app. split_and!; [case_if; lia|lia|destruct (is_nil cur); simpl; lia].
  - destruct (IH (wc_char k c) (c :: cur)) as (I1 & I2 & I3); unfold wc_char; rewrite Hsp, ?E1, ?E2, ?E3.
    + destruct (inword k) eqn:Hk; simpl; [done|done].
    + destruct (inword k); simpl; case_if; lia.
    + destruct (inword k); simpl; lia.
    + destruct (inword k); simpl; lia.
    + unfold wc_char in I1, I2, I3. rewrite Hsp, ?E1, ?E2, ?E3 in I1, I2, I3. rewrite Hin in *.
      destruct (is_nil cur); simpl in *; rewrite I1, I2, I3; split_and!; try lia; case_if; lia.
Qed.

Lemma wc_loop_concat l k : Forall (λ r : list Z, r ≠ []) l → wc_loop l k = foldl wc_char k (concat l).
Proof.
  revert k. induction l as [|r l IH]; intros k H; [done|]. apply Forall_cons_1 in H as [Hr H]. simpl.
  rewrite foldl_app, <- IH by done. by destruct r.
Qed.

(** wc counts the lines, words and bytes of its input, however the
    reads cut it: below 2^31 bytes it prints the number of newlines, of
    longest runs of bytes that are not space, and of bytes. *)
Theorem wc_spec f name :
  Forall (λ r : list Z, r ≠ []) (reads f) → fails f = false → Z.of_nat (length (concat (reads f))) < 2147483648 →
  let s := concat (reads f) in
  wc f name = ([Out 1 (dec (newlines s) ++ [32] ++ dec (Z.of_nat (length (split_words s []))) ++ [32] ++
                       dec (Z.of_nat (length s)) ++ [32] ++ name ++ [10])], false).
Proof.
  intros Hr Hf Hl s. unfold wc, read_error. rewrite Hf. cbn [andb]. rewrite wc_loop_concat by done. fold s. fold s in Hl.
  destruct (wc_chars s (mkCounts 0 0 0 false) []) as (-> & -> & ->); simpl; try done; try lia.
  by rewrite Z.sub_0_r.
Qed.

(** cat writes what it reads. *)
Definition written (l : list act) : list Z := concat ((λ a, match a with Out _ b => b | _ => [] end) <$> l).
Theorem cat_spec f :
  Forall (λ r : list Z, r ≠ []) (reads f) → fails f = false →
  written (cat f).1 = concat (reads f) ∧ (cat f).2 = false.
Proof.
  intros Hr Hf. unfold cat, read_error. rewrite Hf. cbn [andb]. split; [|done]. cbn [fst]. unfold written.
  induction (reads f) as [|r l IH]; [done|]. apply Forall_cons_1 in Hr as [Hne Hr]. destruct r; [done|]. simpl.
  f_equal. f_equal. by apply IH.
Qed.

(** ** Properties of ls *)

Lemma after_slash_spec r : ∀ acc, 47 ∉ acc →
  ∃ pre base, rev r ++ acc = pre ++ base ∧ after_slash r acc = base ∧ 47 ∉ base ∧ (pre = [] ∨ ∃ q, pre = q ++ [47]).
Proof.
  induction r as [|c r IH]; intros acc Hacc; simpl.
  - exists [], acc. split_and!; [done|done|done|by left].
  - destruct (Z.eqb_spec c 47) as [-> |Hc].
    + exists (rev r ++ [47]), acc. split_and!; [done|done|done|]. right. by exists (rev r).
    + destruct (IH (c :: acc)) as (pre & base & H1 & H2 & H3 & H4).
      { rewrite not_elem_of_cons. split; [congruence|done]. }
      exists pre, base. split_and!; [|done|done|done]. rewrite <- H1, <- app_assoc. done.
Qed.

(** fmtname is what follows the last slash, with blanks up to DIRSIZ. *)
Theorem fmtname_spec path :
  ∃ pre base, path = pre ++ base ∧ 47 ∉ base ∧ (pre = [] ∨ ∃ q, pre = q ++ [47]) ∧
    fmtname path = base ++ replicate (DIRSIZ - length base) 32 ∧ (DIRSIZ ≤ length (fmtname path))%nat.
Proof.
  destruct (after_slash_spec (rev path) []) as (pre & base & H1 & H2 & H3 & H4); [apply not_elem_of_nil|].
  rewrite rev_involutive, app_nil_r in H1. exists pre, base. split_and!; try done; unfold fmtname; rewrite H2.
  - destruct (Nat.leb_spec DIRSIZ (length base)) as [Hle|]; [|done].
    replace (DIRSIZ - length base)%nat with 0%nat by lia. by rewrite app_nil_r.
  - destruct (Nat.leb_spec DIRSIZ (length base)) as [Hle|]; [done|]. rewrite length_app, length_replicate. lia.
Qed.

(** ** Properties of init *)

(** init starts one shell at a time: the next one when wait has returned the
    last, and reports every other child it reaps in between. *)
Definition start_sh : act := Out 1 (lit "init: starting sh" ++ [10]).
Definition zombie : act := Out 1 (lit "zombie!" ++ [10]).

Lemma init_wait_run pid o waits :
  Forall (λ w, 0 ≤ w ∧ w ≠ pid) o → 0 < pid → init_wait pid (o ++ pid :: waits) = (replicate (length o) zombie, waits).
Proof.
  intros Ho Hp. induction Ho as [|w o [H1 H2] _ IH]; simpl.
  - rewrite Z.eqb_refl, andb_false_r. done.
  - rewrite (proj2 (Z.leb_le _ _)) by done. rewrite (proj2 (Z.eqb_neq _ _)) by done. cbn [negb andb].
    by rewrite IH.
Qed.

Theorem init_spec (rounds : list (list Z * Z)) :
  Forall (λ r, 0 < r.2 ∧ Forall (λ w, 0 ≤ w ∧ w ≠ r.2) r.1) rounds →
  init_loop (snd <$> rounds) (concat ((λ r, r.1 ++ [r.2]) <$> rounds)) =
  concat ((λ r, start_sh :: replicate (length r.1) zombie) <$> rounds).
Proof.
  induction 1 as [|[o pid] rounds [Hp Ho] _ IH]; [done|]. cbn [fst snd] in *. simpl.
  rewrite (proj2 (Z.ltb_ge _ _)) by lia. rewrite (proj2 (Z.eqb_neq _ _)) by lia.
  rewrite <- app_assoc. cbn [app]. rewrite init_wait_run by done. f_equal. f_equal. exact IH.
Qed.

(** ** Properties of the shell's loop *)

Definition eol (c : Z) : bool := (c =? 10) || (c =? 13).

(** A line as gets reads it: whole, or cut at [room] bytes or at the end of
    the input [rest]. *)
Definition is_line (room : nat) (l rest : list Z) : Prop :=
  (length l ≤ room)%nat ∧
  ∃ q, Forall (λ c, eol c = false) q ∧ ((∃ c, l = q ++ [c] ∧ eol c = true) ∨ l = q ∧ (length l = room ∨ rest = [])).

Lemma gets_line room : ∀ input, let '(l, r) := gets_loop room input in input = l ++ r ∧ is_line room l r.
Proof.
  induction room as [|room IH]; intros input; cbn [gets_loop].
  { split; [done|]. split; [simpl; lia|]. exists []. split; [by apply Forall_nil_2|]. right. split; [done|]. by left. }
  destruct input as [|c input].
  { split; [done|]. split; [simpl; lia|]. exists []. split; [by apply Forall_nil_2|]. right. split; [done|]. by right. }
  change ((c =? 10) || (c =? 13)) with (eol c). destruct (eol c) eqn:E.
  { split; [done|]. split; [simpl; lia|]. exists []. split; [by apply Forall_nil_2|]. left. by exists c. }
  specialize (IH input). destruct (gets_loop room input) as [l r]. destruct IH as [-> [H1 (q & Hq & H2)]].
  split; [done|]. split; [simpl; lia|]. exists (c :: q). split; [by apply Forall_cons_2|].
  destruct H2 as [(d & -> & Hd)|[-> H2]]; [left; by exists d|right; split; [done|]]. destruct H2 as [<- | ->]; [by left|by right].
Qed.

(** The call a line stands for, and the calls of a run. *)
Definition cmd_of (line : list Z) : act :=
  let s := cstring line in
  if (nth 0 s 0 =? 99) && (nth 1 s 0 =? 100) && (nth 2 s 0 =? 32)
  then Chdir (cstring (drop 3 (take (length s - 1) s))) else Run s.
Definition is_call (a : act) : bool := match a with Out _ _ | Open _ | Close _ => false | _ => true end.
Definition calls (l : list act) : list act := filter (λ a, is_call a = true) l.

Lemma calls_app l m : calls (l ++ m) = calls l ++ calls m.
Proof. apply filter_app. Qed.

Lemma sh_loop_lines chdir_ok fuel : ∀ n input, (length input < fuel)%nat →
  ∃ acts lines rest, sh_loop (λ _, true) chdir_ok fuel n input = Some acts ∧ input = concat lines ++ rest ∧
    (rest = [] ∨ nth 0 rest 0 = 0) ∧ calls acts = cmd_of <$> lines ∧
    ∀ pre l post, lines = pre ++ l :: post → nth 0 l 0 ≠ 0 ∧ is_line 99 l (concat post ++ rest).
Proof.
  induction fuel as [|fuel IH]; intros n input Hf; [lia|]. cbn [sh_loop]. unfold getcmd, gets.
  change (100 - 1)%nat with 99%nat. pose proof (gets_line 99 input) as Hg.
  destruct (gets_loop 99 input) as [buf r] eqn:Eg. destruct Hg as [Hin Hl].
  destruct (Z.eqb_spec (nth 0 buf 0) 0) as [H0|H0].
  { exists [Out 2 (lit "$ ")], [], input. split_and!; [done|done| |done|].
    - rewrite Hin. destruct buf as [|c buf]; [|by right]. left. destruct Hl as [_ (q & _ & [(c & H & _)|[<- [H|H]]])];
        [by destruct q|done|done].
    - intros [|a pre] l post H; done. }
  assert (length r < fuel)%nat as Hr by (rewrite Hin, length_app in Hf; destruct buf; [done|simpl in Hf; lia]).
  destruct (IH (S n) r Hr) as (acts & lines & rest & H1 & H2 & H3 & H4 & H5).
  assert (∀ pre l post, buf :: lines = pre ++ l :: post → nth 0 l 0 ≠ 0 ∧ is_line 99 l (concat post ++ rest)) as Hls.
  { intros [|p pre] l post H; injection H as H H'; subst; [|by apply (H5 pre l post)]. split; [done|]. exact Hl. }
  set (s := cstring buf) in *. cbv zeta. unfold mbind, option_bind. rewrite H1.
  assert (cmd_of buf :: (cmd_of <$> lines) = cmd_of <$> (buf :: lines)) as Hmap by done.
  unfold cmd_of at 1 in Hmap. cbv zeta in Hmap. fold s in Hmap.
  destruct ((nth 0 s 0 =? 99) && (nth 1 s 0 =? 100) && (nth 2 s 0 =? 32)).
  - eexists _, (buf :: lines), rest. split_and!; [reflexivity|by rewrite Hin, H2; simpl; rewrite app_assoc|done| |done].
    rewrite <- Hmap, <- H4. change (calls (?a :: ?b :: ?l)) with (calls ([a; b] ++ l)). rewrite !calls_app.
    by destruct (chdir_ok _).
  - eexists _, (buf :: lines), rest. split_and!; [reflexivity|by rewrite Hin, H2; simpl; rewrite app_assoc|done| |done].
    rewrite <- Hmap, <- H4. done.
Qed.

(** The shell's loop ends, and runs every line of its input once and in
    order, up to the end or a line that starts with NUL; lines longer than
    99 bytes are run in pieces. *)
Theorem sh_main_spec opens chdir_ok input :
  ∃ acts lines rest, sh_main opens (λ _, true) chdir_ok input = Some acts ∧ input = concat lines ++ rest ∧
    (rest = [] ∨ nth 0 rest 0 = 0) ∧ calls acts = cmd_of <$> lines ∧
    ∀ pre l post, lines = pre ++ l :: post → nth 0 l 0 ≠ 0 ∧ is_line 99 l (concat post ++ rest).
Proof.
  destruct (sh_loop_lines chdir_ok (S (length input)) 0 input) as (acts & lines & rest & H1 & H2 & H3 & H4 & H5); [lia|].
  exists (sh_fds opens ++ acts), lines, rest. split_and!; [unfold sh_main; by rewrite H1|done|done| |done].
  rewrite calls_app, H4. assert (calls (sh_fds opens) = []) as ->; [|done].
  induction opens as [|fd opens IH]; [done|]. simpl. case_if; [done|]. by case_if.
Qed.

(** A cd that is not followed by a newline loses the last byte of its path. *)
Theorem sh_cd_at_end :
  sh_main [] (λ _, true) (λ _, true) (lit "cd ab") = Some [Out 2 (lit "$ "); Chdir (lit "a"); Out 2 (lit "$ ")].
Proof. vm_compute. done. Qed.

(** ** Witnesses *)

Lemma wc_spec_witness :
  wc (mkStream [lit "ab c"; lit "d  e" ++ [10]] false) (lit "f") = ([Out 1 (lit "1 3 9 f" ++ [10])], false).
Proof.
  rewrite (wc_spec (mkStream [lit "ab c"; lit "d  e" ++ [10]] false) (lit "f")).
  - vm_compute. reflexivity.
  - repeat constructor; discriminate.
  - reflexivity.
  - vm_compute. reflexivity.
Defined.
