(* ===== verification/File.v ===== *)
(** * Open files (xv6/file.c, struct file of xv6/file.h, pipealloc of xv6/pipe.c)

    The table of open files above the inode layer and the pipes.  What
    file.c, pipealloc and sysfile.c use of fs.c, log.c, pipe.c and kalloc.c
    is the interface [InodeLayer]: its operations are completed calls (one
    that sleeps has been resumed and has returned), and its laws say which
    references, locks, pipe ends and transaction each of them takes and
    gives back.  Each law allows the panics of fs.c, log.c and bio.c on a
    full table, log or disk or on a disk that is not a file system
    ([low_panic]), and rules out those for a lock, a reference or a
    transaction the caller does not hold. *)

From S2P Require Import Prelude Kernel Spinlock Log Fs.
From stdpp Require Import gmap gmultiset.
Local Open Scope Z_scope.

(** ** The inode layer *)

(** What the callers hold of it: references to inodes, inode locks, ends of
    pipes (the writing one is [true]), and an open transaction. *)
Record iview := mkIv {
  iv_refs : gmultiset nat;
  iv_locked : gset nat;
  iv_ends : gmultiset (Z * bool);
  iv_tx : bool;
}.

Definition iv_ref (ip : nat) (v : iview) : iview :=
  mkIv ({[+ ip +]} ⊎ iv_refs v) (iv_locked v) (iv_ends v) (iv_tx v).
Definition iv_unref (ip : nat) (v : iview) : iview :=
  mkIv (iv_refs v ∖ {[+ ip +]}) (iv_locked v) (iv_ends v) (iv_tx v).
Definition iv_lock (ip : nat) (v : iview) : iview :=
  mkIv (iv_refs v) ({[ip]} ∪ iv_locked v) (iv_ends v) (iv_tx v).
Definition iv_unlock (ip : nat) (v : iview) : iview :=
  mkIv (iv_refs v) (iv_locked v ∖ {[ip]}) (iv_ends v) (iv_tx v).
Definition iv_settx (b : bool) (v : iview) : iview :=
  mkIv (iv_refs v) (iv_locked v) (iv_ends v) b.
Definition iv_newpipe (p : Z) (v : iview) : iview :=
  mkIv (iv_refs v) (iv_locked v) ({[+ (p, false); (p, true) +]} ⊎ iv_ends v) (iv_tx v).
Definition iv_closeend (p : Z) (w : bool) (v : iview) : iview :=
  mkIv (iv_refs v) (iv_locked v) (iv_ends v ∖ {[+ (p, w) +]}) (iv_tx v).

Definition DOT : list Z := [46; 0].
Definition DOTDOT : list Z := [46; 46; 0].

(** The changes sysfile.c makes to an inode in place: its link count and its
    device numbers. *)
Definition links_only (f : inode → inode) : Prop :=
  ∀ i, w_nlink (i_nlink i) (w_majmin (i_major i) (i_minor i) (f i)) = i.

Class InodeLayer (I : Type) := {
  il_begin_op : M I unit;
  il_end_op : M I unit;
  il_namei : nat → list Z → M I (option nat);                 (* proc->cwd, path *)
  il_nameiparent : nat → list Z → M I (option nat * list Z);  (* and name[] *)
  il_ialloc : Z → Z → M I (option nat);
  il_geti : nat → M I inode;
  il_updi : nat → (inode → inode) → M I unit;
  il_ilock : nat → M I unit;
  il_iunlock : nat → M I unit;
  il_iput : nat → M I unit;
  il_iupdate : nat → M I unit;
  il_readi : nat → Z → Z → M I (list Z * Z);
  il_writei : nat → list Z → Z → Z → M I Z;
  il_dirlookup : nat → list Z → M I (option (nat * Z));
  il_dirlink : nat → list Z → Z → M I Z;
  il_pipenew : M I Z;                    (* kalloc and the fields of the new pipe *)
  il_kfree : Z → M I unit;
  il_pipeclose : Z → bool → M I unit;
  il_piperead : Z → Z → M I (list Z * Z);
  il_pipewrite : Z → list Z → Z → M I Z;
  il_cpu : lens I cpu;
  il_inode : I → nat → inode;
  il_rel : I → iview → Prop;

  il_cpu_ok :: LensOk il_cpu;
  il_rel_cpu s v : il_rel s v → cpu_ok (lget il_cpu s);
  il_rel_setcpu s v c : il_rel s v → cpu_ok c → il_rel (lput il_cpu c s) v;

  il_begin_op_law s v (Q : unit → I → Prop) :
    il_rel s v → iv_tx v = false → iv_locked v = ∅ →
    (∀ s', il_rel s' (iv_settx true v) → Q tt s') → wpe il_begin_op Q low_panic s;
  il_end_op_law s v (Q : unit → I → Prop) :
    il_rel s v → iv_tx v = true → iv_locked v = ∅ →
    (∀ s', il_rel s' (iv_settx false v) → Q tt s') → wpe il_end_op Q low_panic s;
  il_namei_law s v cwd path (Q : option nat → I → Prop) :
    il_rel s v → iv_tx v = true → iv_locked v = ∅ → cwd ∈ iv_refs v →
    (∀ s', il_rel s' v → Q None s') →
    (∀ ip s', il_rel s' (iv_ref ip v) → Q (Some ip) s') → wpe (il_namei cwd path) Q low_panic s;
  il_nameiparent_law s v cwd path (Q : option nat * list Z → I → Prop) :
    il_rel s v → iv_tx v = true → iv_locked v = ∅ → cwd ∈ iv_refs v →
    (∀ name s', il_rel s' v → Q (None, name) s') →
    (∀ dp name s', il_rel s' (iv_ref dp v) → Q (Some dp, name) s') →
    wpe (il_nameiparent cwd path) Q low_panic s;
  il_ialloc_law s v dev type (Q : option nat → I → Prop) :
    il_rel s v → iv_tx v = true →
    (∀ ip s', ip ∉ iv_locked v → il_rel s' (iv_ref ip v) → Q (Some ip) s') →
    wpe (il_ialloc dev type) Q low_panic s;
  il_geti_law s v ip (Q : inode → I → Prop) :
    il_rel s v → ip ∈ iv_refs v → Q (il_inode s ip) s → wpe (il_geti ip) Q low_panic s;
  il_updi_law s v ip f (Q : unit → I → Prop) :
    il_rel s v → ip ∈ iv_locked v → links_only f → (∀ s', il_rel s' v → Q tt s') → wpe (il_updi ip f) Q low_panic s;
  il_ilock_law s v ip (Q : unit → I → Prop) :
    il_rel s v → ip ∈ iv_refs v → ip ∉ iv_locked v →
    (∀ s', il_rel s' (iv_lock ip v) → Q tt s') → wpe (il_ilock ip) Q low_panic s;
  il_iunlock_law s v ip (Q : unit → I → Prop) :
    il_rel s v → ip ∈ iv_refs v → ip ∈ iv_locked v →
    (∀ s', il_rel s' (iv_unlock ip v) → Q tt s') → wpe (il_iunlock ip) Q low_panic s;
  il_iput_law s v ip (Q : unit → I → Prop) :
    il_rel s v → iv_tx v = true → ip ∈ iv_refs v → ip ∉ iv_locked v →
    (∀ s', il_rel s' (iv_unref ip v) → Q tt s') → wpe (il_iput ip) Q low_panic s;
  il_iupdate_law s v ip (Q : unit → I → Prop) :
    il_rel s v → iv_tx v = true → ip ∈ iv_locked v →
    (∀ s', il_rel s' v → Q tt s') → wpe (il_iupdate ip) Q low_panic s;
  il_readi_law s v ip off n (Q : list Z * Z → I → Prop) :
    il_rel s v → ip ∈ iv_locked v →
    (∀ r s', il_rel s' v → i_size (il_inode s' ip) = i_size (il_inode s ip) → Q r s') →
    wpe (il_readi ip off n) Q low_panic s;
  il_writei_law s v ip src off n (Q : Z → I → Prop) :
    il_rel s v → iv_tx v = true → ip ∈ iv_locked v →
    (∀ r s', r = n ∨ r = -1 → il_rel s' v → Q r s') → wpe (il_writei ip src off n) Q low_panic s;
  (* a directory holds no entry for itself other than "." and ".." *)
  il_dirlookup_law s v dp name (Q : option (nat * Z) → I → Prop) :
    il_rel s v → dp ∈ iv_locked v →
    (∀ s', il_rel s' v → Q None s') →
    (∀ ip off s', (namecmp name DOT ≠ 0 → namecmp name DOTDOT ≠ 0 → ip ≠ dp) →
       il_rel s' (iv_ref ip v) → Q (Some (ip, off)) s') →
    wpe (il_dirlookup dp name) Q low_panic s;
  il_dirlink_law s v dp name inum (Q : Z → I → Prop) :
    il_rel s v → iv_tx v = true → dp ∈ iv_locked v →
    (∀ r s', r = 0 ∨ r = -1 → il_rel s' v → Q r s') → wpe (il_dirlink dp name inum) Q low_panic s;
  il_pipenew_law s v (Q : Z → I → Prop) :
    il_rel s v → (∀ s', il_rel s' v → Q 0 s') →
    (∀ p s', p ≠ 0 → il_rel s' (iv_newpipe p v) → Q p s') → wpe il_pipenew Q low_panic s;
  il_pipeclose_law s v p w (Q : unit → I → Prop) :
    il_rel s v → (p, w) ∈ iv_ends v →
    (∀ s', il_rel s' (iv_closeend p w v) → Q tt s') → wpe (il_pipeclose p w) Q low_panic s;
  il_piperead_law s v p n (Q : list Z * Z → I → Prop) :
    il_rel s v → (p, false) ∈ iv_ends v → iv_locked v = ∅ →
    (∀ r s', il_rel s' v → Q r s') → wpe (il_piperead p n) Q low_panic s;
  il_pipewrite_law s v p src n (Q : Z → I → Prop) :
    il_rel s v → (p, true) ∈ iv_ends v → iv_locked v = ∅ →
    (∀ r s', il_rel s' v → Q r s') → wpe (il_pipewrite p src n) Q low_panic s;
}.

(** The panics a call of file.c or sysfile.c can end in: those of the layers
    below, and those sysfile.c has for a file system that does not agree with
    itself. *)
Definition fs_panics : list string :=
  low_panics ++
  ["unlink: nlink < 1"; "isdirempty: readi"; "unlink: writei";
   "create: ialloc"; "create dots"; "create: dirlink"]%string.
Definition fs_panic (msg : string) : Prop := msg ∈ fs_panics.

Lemma fs_panic_in msg : bool_decide (msg ∈ fs_panics) = true → fs_panic msg.
Proof. apply bool_decide_eq_true. Qed.

(** A call below in a caller that may panic in its own way too. *)
Lemma wpe_low {S A} (m : M S A) (Q : A → S → Prop) s : wpe m Q low_panic s → wpe m Q fs_panic s.
Proof. intros H. eapply wpe_mono; [exact H|done|]. intros msg Hm. apply elem_of_app. by left. Qed.

(** ** Data *)

Definition NFILE : nat := 100.

Inductive ftype := FD_NONE | FD_PIPE | FD_INODE.

#[export] Instance ftype_eq_dec : EqDecision ftype.
Proof. solve_decision. Defined.

(** struct file; [f_ip] is an index into the inode cache. *)
Record file := mkFile {
  f_type : ftype;
  f_ref : Z;
  f_readable : bool;
  f_writable : bool;
  f_pipe : Z;
  f_ip : nat;
  f_off : Z;
}.

Definition wf_ref (x : Z) (f : file) : file :=
  mkFile (f_type f) x (f_readable f) (f_writable f) (f_pipe f) (f_ip f) (f_off f).
Definition wf_type (x : ftype) (f : file) : file :=
  mkFile x (f_ref f) (f_readable f) (f_writable f) (f_pipe f) (f_ip f) (f_off f).
Definition wf_off (x : Z) (f : file) : file :=
  mkFile (f_type f) (f_ref f) (f_readable f) (f_writable f) (f_pipe f) (f_ip f) x.

(** ftable, tickslock and ticks, the memory of the running process, and the
    layers below. *)
Record kenv (I : Type) := mkKe {
  ft_lock : spinlock;
  ft_file : list file;
  tk_lock : spinlock;
  ticks : Z;
  umem : Z → Z;
  ke_i : I;
}.
Arguments mkKe {I}.
Arguments ft_lock {I}.
Arguments ft_file {I}.
Arguments tk_lock {I}.
Arguments ticks {I}.
Arguments umem {I}.
Arguments ke_i {I}.

Section kset.
Context {I : Type}.
Implicit Types (s : kenv I).
Definition set_ft_lock (x : spinlock) s : kenv I :=
  mkKe x (ft_file s) (tk_lock s) (ticks s) (umem s) (ke_i s).
Definition set_files (x : list file) s : kenv I :=
  mkKe (ft_lock s) x (tk_lock s) (ticks s) (umem s) (ke_i s).
Definition set_tk_lock (x : spinlock) s : kenv I :=
  mkKe (ft_lock s) (ft_file s) x (ticks s) (umem s) (ke_i s).
Definition set_umem (x : Z → Z) s : kenv I :=
  mkKe (ft_lock s) (ft_file s) (tk_lock s) (ticks s) x (ke_i s).
Definition set_i (x : I) s : kenv I :=
  mkKe (ft_lock s) (ft_file s) (tk_lock s) (ticks s) (umem s) x.
End kset.

(** ** file.c *)

Section file.
Context {I : Type} `{!InodeLayer I}.
Abbreviation st := (kenv I).

(** A call into the layers below. *)
Definition il {A} (m : M I A) : M st A := λ s,
  match m (ke_i s) with
  | Ret a i => Ret a (set_i i s)
  | Panic msg => Panic msg
  | Sleeps c i => Sleeps c (set_i i s)
  | Spins => Spins
  | Fault => Fault
  end.

Definition kcpu : lens st cpu :=
  mkLens (λ s, lget il_cpu (ke_i s)) (λ c s, set_i (lput il_cpu c (ke_i s)) s).
Definition ftlk : lens st spinlock := mkLens ft_lock set_ft_lock.

Definition getf (f : nat) : M st file := o ← gets (λ s, ft_file s !! f); deref o.
Definition updf (f : nat) (g : file → file) : M st unit :=
  x ← getf f; modify (λ s, set_files (<[f := g x]> (ft_file s)) s).

Definition fileinit : M st unit :=
  modify (λ s, set_ft_lock (initlock "ftable" (ft_lock s)) s).

(** The first entry with ref == 0. *)
Fixpoint free_file (l : list file) (i : nat) : option nat :=
  match l with
  | [] => None
  | f :: l => if f_ref f =? 0 then Some i else free_file l (S i)
  end.

Definition filealloc : M st (option nat) :=
  acquire kcpu ftlk ;;
  o ← gets (λ s, free_file (ft_file s) 0);
  match o with
  | Some f => updf f (wf_ref 1) ;; release kcpu ftlk ;; mret (Some f)
  | None => release kcpu ftlk ;; mret None
  end.

Definition filedup (f : nat) : M st nat :=
  acquire kcpu ftlk ;;
  x ← getf f;
  if f_ref x <? 1 then panic "filedup" else
  updf f (wf_ref (f_ref x + 1)) ;;
  release kcpu ftlk ;;
  mret f.

Definition fileclose (f : nat) : M st unit :=
  acquire kcpu ftlk ;;
  x ← getf f;
  if f_ref x <? 1 then panic "fileclose" else
  updf f (wf_ref (f_ref x - 1)) ;;
  ff ← getf f;
  if 0 <? f_ref ff then release kcpu ftlk else
  updf f (wf_ref 0) ;;
  updf f (wf_type FD_NONE) ;;
  release kcpu ftlk ;;
  match f_type ff with
  | FD_PIPE => il (il_pipeclose (f_pipe ff) (f_writable ff))
  | FD_INODE => il il_begin_op ;; il (il_iput (f_ip ff)) ;; il il_end_op
  | FD_NONE => mret tt
  end.

Definition il_stati (ip : nat) : M I (Z * Z * Z * Z * Z) :=
  i ← il_geti ip; mret (i_type i, i_dev i, i_inum i, i_nlink i, i_size i).

(** The struct stat it fills in, and the result. *)
Definition filestat (f : nat) : M st (option (Z * Z * Z * Z * Z) * Z) :=
  x ← getf f;
  match f_type x with
  | FD_INODE =>
      il (il_ilock (f_ip x)) ;;
      stt ← il (il_stati (f_ip x));
      il (il_iunlock (f_ip x)) ;;
      mret (Some stt, 0)
  | _ => mret (None, -1)
  end.

(** The bytes it stores at addr, and the result. *)
Definition fileread (f : nat) (n : Z) : M st (list Z * Z) :=
  x ← getf f;
  if negb (f_readable x) then mret ([], -1) else
  match f_type x with
  | FD_PIPE => il (il_piperead (f_pipe x) n)
  | FD_INODE =>
      il (il_ilock (f_ip x)) ;;
      '(bs, r) ← il (il_readi (f_ip x) (f_off x) (u32 n));
      (if 0 <? r then updf f (wf_off (u32 (f_off x + r))) else mret tt) ;;
      il (il_iunlock (f_ip x)) ;;
      mret (bs, r)
  | FD_NONE => panic "fileread"
  end.

(** ((LOGSIZE-1-1-2) / 2) * 512 *)
Definition fw_max : Z := ((LOGSIZE - 1 - 1 - 2) / 2) * 512.

(** The while loop; every round but the last writes [fw_max] bytes. *)
Fixpoint filewrite_loop (fuel : nat) (f : nat) (src : list Z) (i n : Z) : M st Z :=
  match fuel with
  | O => fault
  | S fuel =>
      if i <? n then
        let n1 := if fw_max <? n - i then fw_max else n - i in
        il il_begin_op ;;
        x ← getf f;
        il (il_ilock (f_ip x)) ;;
        r ← il (il_writei (f_ip x) (drop (Z.to_nat i) src) (f_off x) n1);
        (if 0 <? r then updf f (wf_off (u32 (f_off x + r))) else mret tt) ;;
        il (il_iunlock (f_ip x)) ;;
        il il_end_op ;;
        if r <? 0 then mret i else
        if negb (r =? n1) then panic "short filewrite" else
        filewrite_loop fuel f src (i + r) n
      else mret i
  end.

Definition filewrite (f : nat) (src : list Z) (n : Z) : M st Z :=
  x ← getf f;
  if negb (f_writable x) then mret (-1) else
  match f_type x with
  | FD_PIPE => il (il_pipewrite (f_pipe x) src n)
  | FD_INODE =>
      i ← filewrite_loop (Z.to_nat (n / fw_max) + 2) f src 0 n;
      mret (if i =? n then n else -1)
  | FD_NONE => panic "filewrite"
  end.

(** ** pipealloc *)

Definition set_pipe_end (w : bool) (p : Z) (f : file) : file :=
  mkFile FD_PIPE (f_ref f) (negb w) w p (f_ip f) (f_off f).

Definition pipealloc_bad (p : Z) (f0 f1 : option nat) : M st (option (nat * nat)) :=
  (if p =? 0 then mret tt else il (il_kfree p)) ;;
  match f0 with Some f => fileclose f | None => mret tt end ;;
  match f1 with Some f => fileclose f | None => mret tt end ;;
  mret None.

(** *f0 and *f1, or -1. *)
Definition pipealloc : M st (option (nat * nat)) :=
  o0 ← filealloc;
  match o0 with
  | None => pipealloc_bad 0 None None
  | Some f0 =>
      o1 ← filealloc;
      match o1 with
      | None => pipealloc_bad 0 (Some f0) None
      | Some f1 =>
          p ← il il_pipenew;
          if p =? 0 then pipealloc_bad 0 (Some f0) (Some f1) else
          updf f0 (set_pipe_end false p) ;;
          updf f1 (set_pipe_end true p) ;;
          mret (Some (f0, f1))
      end
  end.
End file.

(** ** The table's invariant *)

Lemma insert_perm {A} (l : list A) i x y :
  l !! i = Some y → y :: <[i := x]> l ≡ₚ x :: l.
Proof.
  intros Hi. rewrite insert_take_drop by by eapply lookup_lt_Some.
  rewrite <-(take_drop_middle l i y Hi) at 3.
  rewrite <-!Permutation_middle. apply perm_swap.
Qed.

(** A multiset of at most one element. *)
Definition oset `{Countable A} (o : option A) : gmultiset A :=
  match o with Some a => {[+ a +]} | None => ∅ end.

Lemma omap_insert_ms {A} `{Countable B} (g : A → option B) (l : list A) i x y :
  l !! i = Some y →
  list_to_set_disj (omap g (<[i := x]> l)) ⊎ oset (g y) =@{gmultiset B}
  list_to_set_disj (omap g l) ⊎ oset (g x).
Proof.
  intros Hi. pose proof (insert_perm l i x y Hi) as Hp.
  assert (Hc : ∀ a k, list_to_set_disj (omap g (a :: k)) =@{gmultiset B}
                 list_to_set_disj (omap g k) ⊎ oset (g a)).
  { intros a k. simpl. destruct (g a); simpl.
    - by rewrite (comm_L (⊎)).
    - by rewrite (right_id_L ∅ (⊎)). }
  by rewrite <-!Hc, Hp.
Qed.

(** What an entry owns below it. *)
Definition f_ino (f : file) : option nat :=
  match f_type f with FD_INODE => Some (f_ip f) | _ => None end.
Definition f_end (f : file) : option (Z * bool) :=
  match f_type f with FD_PIPE => Some (f_pipe f, f_writable f) | _ => None end.

(** [R] are the references to entries, [N] the entries that are allocated and
    not filled in yet, [C] the inode references that do not belong to the
    table. *)
Record tab_ok (l : list file) (N : gset nat) (v : iview) (R C : gmultiset nat) : Prop := {
  to_ref f x : l !! f = Some x → f_ref x = Z.of_nat (multiplicity f R);
  to_dom f : f ∈ R → (f < length l)%nat;
  to_none f x : l !! f = Some x → f_ref x = 0 → f_type x = FD_NONE;
  to_typed f x : l !! f = Some x → f_ref x ≠ 0 → f ∉ N → f_type x ≠ FD_NONE;
  to_mode f x : l !! f = Some x → f_type x = FD_PIPE → f_readable x = negb (f_writable x);
  to_inos : iv_refs v = list_to_set_disj (omap f_ino l) ⊎ C;
  to_ends : iv_ends v = list_to_set_disj (omap f_end l);
}.

Lemma tab_update l N v R C f x y N' v' R' C' :
  tab_ok l N v R C → l !! f = Some x →
  f_ref y = Z.of_nat (multiplicity f R') → (f_ref y = 0 → f_type y = FD_NONE) →
  (f_ref y ≠ 0 → f ∉ N' → f_type y ≠ FD_NONE) → (∀ g, g ≠ f → g ∉ N' → g ∉ N) →
  (f_type y = FD_PIPE → f_readable y = negb (f_writable y)) →
  (∀ g, g ≠ f → multiplicity g R' = multiplicity g R) →
  iv_refs v' ⊎ oset (f_ino x) ⊎ C = iv_refs v ⊎ oset (f_ino y) ⊎ C' →
  iv_ends v' ⊎ oset (f_end x) = iv_ends v ⊎ oset (f_end y) →
  tab_ok (<[f := y]> l) N' v' R' C'.
Proof.
  intros [H1 H2 H3 H7 H4 H5 H6] Hf Hr Hn Hty HN Hm Hg Hi He.
  pose proof (lookup_lt_Some _ _ _ Hf) as Hlt. split.
  - intros g z. rewrite lookup_insert_case by done. case_decide; [by intros [= <-]; subst|].
    rewrite Hg by done. apply H1.
  - intros g Hin. rewrite length_insert. destruct (decide (g = f)) as [->|Hne]; [done|].
    apply H2. apply elem_of_multiplicity. rewrite <-Hg by done. by apply elem_of_multiplicity.
  - intros g z. rewrite lookup_insert_case by done. case_decide; [by intros [= <-]|]. apply H3.
  - intros g z. rewrite lookup_insert_case by done. case_decide; [by intros [= <-]; subst; auto|].
    intros. eapply H7; [done|done|by apply HN].
  - intros g z. rewrite lookup_insert_case by done. case_decide; [by intros [= <-]|]. apply H4.
  - pose proof (omap_insert_ms f_ino l f y x Hf). multiset_solver.
  - pose proof (omap_insert_ms f_end l f y x Hf). multiset_solver.
Qed.

(** Entry [f] with its fields as they are and [n] references. *)
Lemma tab_setref l N v R C f x n N' R' :
  tab_ok l N v R C → l !! f = Some x → n = Z.of_nat (multiplicity f R') → n ≠ 0 →
  (f ∉ N' → f_type x ≠ FD_NONE) → (∀ g, g ≠ f → g ∉ N' → g ∉ N) →
  (∀ g, g ≠ f → multiplicity g R' = multiplicity g R) →
  tab_ok (<[f := wf_ref n x]> l) N' v R' C.
Proof.
  intros H Hf Hn H0 Hty HN Hg. eapply tab_update; try done.
  exact (to_mode _ _ _ _ _ H f x Hf).
Qed.

Lemma tab_alloc l N v R C f x :
  tab_ok l N v R C → l !! f = Some x → f_ref x = 0 →
  tab_ok (<[f := wf_ref 1 x]> l) ({[f]} ∪ N) v ({[+ f +]} ⊎ R) C.
Proof.
  intros H Hf H0. pose proof (to_ref _ _ _ _ _ H f x Hf). eapply tab_setref; try done.
  - rewrite multiplicity_disj_union, multiplicity_singleton_eq. lia.
  - set_solver.
  - set_solver.
  - intros g Hg. rewrite multiplicity_disj_union, multiplicity_singleton_ne; done.
Qed.

Lemma tab_dup l N v R C f x :
  tab_ok l N v R C → l !! f = Some x → 1 ≤ f_ref x →
  tab_ok (<[f := wf_ref (f_ref x + 1) x]> l) N v ({[+ f +]} ⊎ R) C.
Proof.
  intros H Hf H1. pose proof (to_ref _ _ _ _ _ H f x Hf). eapply tab_setref; try done.
  - rewrite multiplicity_disj_union, multiplicity_singleton_eq. lia.
  - lia.
  - apply (to_typed _ _ _ _ _ H f x Hf). lia.
  - intros g Hg. rewrite multiplicity_disj_union, multiplicity_singleton_ne; done.
Qed.

Lemma tab_drop l N v R C f x :
  tab_ok l N v R C → l !! f = Some x → 1 < f_ref x →
  tab_ok (<[f := wf_ref (f_ref x - 1) x]> l) N v (R ∖ {[+ f +]}) C.
Proof.
  intros H Hf H1. pose proof (to_ref _ _ _ _ _ H f x Hf). eapply tab_setref; try done.
  - rewrite multiplicity_difference, multiplicity_singleton_eq. lia.
  - lia.
  - apply (to_typed _ _ _ _ _ H f x Hf). lia.
  - intros g Hg. rewrite multiplicity_difference, multiplicity_singleton_ne by done. lia.
Qed.

(** What is left of the view when entry [x] gives its resource back. *)
Definition iv_release (x : file) (v : iview) : iview :=
  match f_type x with
  | FD_NONE => v
  | FD_PIPE => iv_closeend (f_pipe x) (f_writable x) v
  | FD_INODE => iv_unref (f_ip x) v
  end.

Lemma owned_elem {B} `{Countable B} (g : file → option B) (l : list file) f x b :
  l !! f = Some x → g x = Some b → b ∈@{gmultiset B} list_to_set_disj (omap g l).
Proof.
  intros Hf Hg. apply elem_of_list_to_set_disj, list_elem_of_omap. exists x.
  split; [by eapply list_elem_of_lookup_2|done].
Qed.

Lemma tab_last l N v R C f x :
  tab_ok l N v R C → l !! f = Some x → f_ref x = 1 →
  tab_ok (<[f := wf_type FD_NONE (wf_ref 0 x)]> l) N (iv_release x v) (R ∖ {[+ f +]}) C.
Proof.
  intros H Hf H1. pose proof (to_ref _ _ _ _ _ H f x Hf). eapply tab_update; try done.
  - simpl. rewrite multiplicity_difference, multiplicity_singleton_eq. lia.
  - intros g Hg. rewrite multiplicity_difference, multiplicity_singleton_ne by done. lia.
  - pose proof (owned_elem f_ino l f x). pose proof (to_inos _ _ _ _ _ H).
    unfold f_ino, iv_release in *. destruct (f_type x); simpl; [multiset_solver|multiset_solver|].
    specialize (H2 _ Hf eq_refl). multiset_solver.
  - pose proof (owned_elem f_end l f x). pose proof (to_ends _ _ _ _ _ H).
    unfold f_end, iv_release in *. destruct (f_type x); simpl; [multiset_solver| |multiset_solver].
    specialize (H2 _ Hf eq_refl). multiset_solver.
Qed.

(** sys_open and pipealloc fill in a fresh entry. *)
Lemma tab_open l N v R C f x y :
  tab_ok l N v R C → l !! f = Some x → f_type x = FD_NONE → f_ref y = f_ref x → f_ref x ≠ 0 →
  f_type y = FD_INODE → f_ip y ∈ C →
  tab_ok (<[f := y]> l) (N ∖ {[f]}) v R (C ∖ {[+ f_ip y +]}).
Proof.
  intros H Hf Hn Hr H0 Ht Hc. eapply tab_update; try done.
  - rewrite Hr. by apply (to_ref _ _ _ _ _ H).
  - by rewrite Hr.
  - by rewrite Ht.
  - set_solver.
  - by rewrite Ht.
  - unfold f_ino. rewrite Ht, Hn. simpl. multiset_solver.
  - unfold f_end. rewrite Ht, Hn. done.
Qed.

(** The table does not own locks or the transaction, and an inode reference
    that comes or goes outside it is [C]'s. *)
Lemma tab_view l N v v' R C C' :
  tab_ok l N v R C → iv_refs v' ⊎ C = iv_refs v ⊎ C' → iv_ends v' = iv_ends v → tab_ok l N v' R C'.
Proof.
  intros [H1 H2 H3 H7 H4 H5 H6] Hr He. split; try done; [|congruence].
  multiset_solver.
Qed.

Lemma tab_shrink l N v R C f :
  tab_ok l N v R C → f ∉ R → tab_ok l (N ∖ {[f]}) v R C.
Proof.
  intros [H1 H2 H3 H7 H4 H5 H6] Hf. split; try done. intros g x Hg H0 Hn.
  destruct (decide (g = f)) as [->|Hne].
  - rewrite (H1 f x Hg) in H0. apply not_elem_of_multiplicity in Hf. lia.
  - apply (H7 g x Hg H0). set_solver.
Qed.

(** ** What each operation does to the resources *)

Section file_facts.
Context {I : Type} `{!InodeLayer I}.
Abbreviation st := (kenv I).
Implicit Types (s : st) (N : gset nat) (v : iview) (R C : gmultiset nat).

#[export] Instance kcpu_ok : LensOk (kcpu (I:=I)).
Proof.
  split; simpl.
  - intros. apply lget_lput.
  - intros x y []. unfold set_i. simpl. by rewrite lput_lput.
  - intros []. unfold set_i. simpl. by rewrite lput_lget.
Qed.
#[export] Instance ftlk_ok : LensOk (ftlk (I:=I)).
Proof. split; try done. by intros []. Qed.
#[export] Instance kcpu_ftlk : LensIndep (kcpu (I:=I)) ftlk.
Proof. by split. Qed.

Lemma wpe_il {A} (m : M I A) (Q : A → st → Prop) s :
  wpe m (λ a i, Q a (set_i i s)) low_panic (ke_i s) → wpe (il m) Q fs_panic s.
Proof. intros H%wpe_low. revert H. unfold wpe, il. by destruct (m (ke_i s)). Qed.

Lemma wp_getf f x (Q : file → st → Prop) s :
  ft_file s !! f = Some x → Q x s → wp (getf f) Q s.
Proof. intros Hf HQ. unfold getf. wsteps. by eapply wp_deref. Qed.

Lemma wp_updf f g x (Q : unit → st → Prop) s :
  ft_file s !! f = Some x → Q tt (set_files (<[f := g x]> (ft_file s)) s) → wp (updf f g) Q s.
Proof. intros Hf HQ. unfold updf. wstep. eapply wp_getf; [done|]. by apply wp_modify. Qed.

Record fok s N v R C : Prop := {
  fk_lock : locked (ft_lock s) = 0;
  fk_rel : il_rel (ke_i s) v;
  fk_tab : tab_ok (ft_file s) N v R C;
}.

Lemma fok_quiet s N v R C : fok s N v R C → quiet kcpu ftlk s.
Proof. intros [H1 H2 _]. split; [done|]. by eapply il_rel_cpu. Qed.

(** Leaving a critical section on ftable.lock that changed the table. *)
Lemma rel_leave s t N v R C :
  fok s N v R C → ke_i t = ke_i (acquired kcpu ftlk s) → il_rel (ke_i (leave kcpu ftlk s t)) v.
Proof.
  intros H Ht. pose proof (fok_quiet _ _ _ _ _ H) as Hq.
  pose proof (leave_quiet kcpu ftlk s t Hq) as [_ Hc].
  unfold leave in *. simpl in *. rewrite Ht in *. simpl in *. rewrite lget_lput in Hc.
  apply il_rel_setcpu; [|done].
  apply il_rel_setcpu; [apply (fk_rel _ _ _ _ _ H)|]. apply pushed_ok, Hq.
Qed.

Lemma fok_leave s t N v R C N' R' C' :
  fok s N v R C → ke_i t = ke_i (acquired kcpu ftlk s) → tab_ok (ft_file t) N' v R' C' →
  fok (leave kcpu ftlk s t) N' v R' C'.
Proof.
  intros H Ht Htab. split; [|by eapply rel_leave|exact Htab].
  apply (leave_quiet kcpu ftlk s t (fok_quiet _ _ _ _ _ H)).
Qed.

Lemma wp_ft_release s t N v R C N' R' C' (Q : unit → st → Prop) :
  fok s N v R C → (∃ l, t = set_files l (acquired kcpu ftlk s)) → tab_ok (ft_file t) N' v R' C' →
  (∀ s', ft_file s' = ft_file t → fok s' N' v R' C' → Q tt s') → wp (release kcpu ftlk) Q t.
Proof.
  intros H [l ->] Htab HQ.
  eapply (wp_release kcpu ftlk _ s); [by eapply fok_quiet|done|done|].
  apply HQ; [done|]. by eapply fok_leave.
Qed.

Lemma set_files_self s : s = set_files (ft_file s) s.
Proof. by destruct s. Qed.

Lemma free_file_spec l i :
  match free_file l i with
  | Some f => (i ≤ f)%nat ∧ ∃ x, l !! (f - i)%nat = Some x ∧ f_ref x = 0
  | None => Forall (λ x, f_ref x ≠ 0) l
  end.
Proof.
  revert i. induction l as [|x l IH]; intros i; simpl; [constructor|].
  destruct (Z.eqb_spec (f_ref x) 0) as [H|H].
  - rewrite Nat.sub_diag. eauto.
  - specialize (IH (S i)). destruct (free_file l (S i)) as [f|]; [|by constructor].
    destruct IH as (Hf & y & Hy & H0). split; [lia|]. exists y.
    by replace (f - i)%nat with (S (f - S i)) by lia.
Qed.

(** A fresh entry [f]. *)
Definition fresh (f : nat) s : Prop :=
  ∃ x, ft_file s !! f = Some x ∧ f_type x = FD_NONE ∧ f_ref x = 1.

Lemma wp_filealloc s N v R C (Q : option nat → st → Prop) :
  fok s N v R C →
  (∀ s', ft_file s' = ft_file s → fok s' N v R C → Q None s') →
  (∀ f s', f ∉ R → (∀ g, g ≠ f → ft_file s' !! g = ft_file s !! g) → fresh f s' →
     fok s' ({[f]} ∪ N) v ({[+ f +]} ⊎ R) C → Q (Some f) s') →
  wp filealloc Q s.
Proof.
  intros H HN HS. unfold filealloc. wstep. apply (wp_acquire kcpu ftlk); [by eapply fok_quiet|]. wsteps.
  pose proof (free_file_spec (ft_file s) 0) as Hff. destruct (free_file (ft_file s) 0) as [f|].
  - destruct Hff as (_ & x & Hx & H0). rewrite Nat.sub_0_r in Hx.
    wstep. eapply wp_updf; [exact Hx|]. wstep.
    eapply (wp_ft_release s); [exact H|by eexists|simpl; by apply tab_alloc; [apply H|..]|].
    intros s' Hs' Hok. wstep. simpl in Hs'. apply HS; [| | |done].
    + apply not_elem_of_multiplicity. pose proof (to_ref _ _ _ _ _ (fk_tab _ _ _ _ _ H) f x Hx). lia.
    + intros g Hg. rewrite Hs'. by rewrite list_lookup_insert_ne.
    + exists (wf_ref 1 x). rewrite Hs'. rewrite list_lookup_insert_eq by by eapply lookup_lt_Some.
      split_and!; [done|exact (to_none _ _ _ _ _ (fk_tab _ _ _ _ _ H) f x Hx H0)|done].
  - wstep. eapply (wp_ft_release s); [exact H|eexists; apply set_files_self|apply H|].
    intros s' Hs' Hok. wstep. by apply HN.
Qed.

Lemma fok_lookup s N v R C f : fok s N v R C → f ∈ R → ∃ x, ft_file s !! f = Some x ∧ 1 ≤ f_ref x.
Proof.
  intros H Hf. destruct (lookup_lt_is_Some_2 (ft_file s) f) as [x Hx].
  { by apply (to_dom _ _ _ _ _ (fk_tab _ _ _ _ _ H)). }
  exists x. split; [done|]. rewrite (to_ref _ _ _ _ _ (fk_tab _ _ _ _ _ H) f x Hx).
  rewrite elem_of_multiplicity in Hf. lia.
Qed.

Lemma wp_filedup s N v R C f (Q : nat → st → Prop) :
  fok s N v R C → f ∈ R → (∀ s', fok s' N v ({[+ f +]} ⊎ R) C → Q f s') → wp (filedup f) Q s.
Proof.
  intros H Hf HQ. destruct (fok_lookup _ _ _ _ _ _ H Hf) as (x & Hx & H1).
  unfold filedup. wstep. apply (wp_acquire kcpu ftlk); [by eapply fok_quiet|]. wstep.
  eapply wp_getf; [exact Hx|]. destruct (Z.ltb_spec (f_ref x) 1); [lia|].
  wstep. eapply wp_updf; [exact Hx|]. wstep.
  eapply (wp_ft_release s); [exact H|by eexists|simpl; apply tab_dup; [apply H|done|done]|].
  intros s' _ Hok. wstep. by apply HQ.
Qed.

(** The view keeps its locks and its transaction. *)
Definition same_ctl v v' : Prop := iv_locked v' = iv_locked v ∧ iv_tx v' = iv_tx v.

(** The tail of fileclose. *)
Lemma wpe_release_owned (x : file) v (Q : unit → st → Prop) s :
  il_rel (ke_i s) v →
  (f_type x = FD_PIPE → (f_pipe x, f_writable x) ∈ iv_ends v) →
  (f_type x = FD_INODE → iv_tx v = false ∧ iv_locked v = ∅ ∧ f_ip x ∈ iv_refs v) →
  (∀ i', il_rel i' (iv_release x v) → Q tt (set_i i' s)) →
  wpe match f_type x with
     | FD_PIPE => il (il_pipeclose (f_pipe x) (f_writable x))
     | FD_INODE => il il_begin_op ;; il (il_iput (f_ip x)) ;; il il_end_op
     | FD_NONE => mret tt
     end Q fs_panic s.
Proof.
  intros H Hp Hi HQ. unfold iv_release in HQ. destruct (f_type x).
  - wstep. specialize (HQ _ H). by destruct s.
  - apply wpe_il. eapply il_pipeclose_law; [done|by apply Hp|done].
  - destruct (Hi eq_refl) as (Htx & Hl & Hin).
    wstep. apply wpe_il. eapply il_begin_op_law; [done|done|done|]. intros i1 H1.
    wstep. apply wpe_il. eapply il_iput_law; [done|done|done|simpl; rewrite Hl; set_solver|].
    intros i2 H2. apply wpe_il. eapply il_end_op_law; [done|done|done|].
    intros i3 H3. apply HQ. destruct v; simpl in *. by subst.
Qed.

(** A held entry owns its resource. *)
Lemma fok_owned s N v R C f x :
  fok s N v R C → ft_file s !! f = Some x →
  (f_type x = FD_PIPE → (f_pipe x, f_writable x) ∈ iv_ends v) ∧
  (f_type x = FD_INODE → f_ip x ∈ iv_refs v).
Proof.
  intros H Hx. rewrite (to_ends _ _ _ _ _ (fk_tab _ _ _ _ _ H)), (to_inos _ _ _ _ _ (fk_tab _ _ _ _ _ H)).
  split; intros Ht.
  - eapply owned_elem; [exact Hx|]. unfold f_end. by rewrite Ht.
  - apply gmultiset_elem_of_disj_union. left.
    eapply owned_elem; [exact Hx|]. unfold f_ino. by rewrite Ht.
Qed.

Lemma wpe_fileclose s N v R C f (Q : unit → st → Prop) :
  fok s N v R C → f ∈ R →
  (fresh f s ∨ iv_tx v = false ∧ iv_locked v = ∅) →
  (∀ v' s', same_ctl v v' → (fresh f s → v' = v) → (∀ g, g ≠ f → ft_file s' !! g = ft_file s !! g) →
     fok s' N v' (R ∖ {[+ f +]}) C → Q tt s') →
  wpe (fileclose f) Q fs_panic s.
Proof.
  intros H Hf Hctl HQ. destruct (fok_lookup _ _ _ _ _ _ H Hf) as (x & Hx & H1).
  pose proof (lookup_lt_Some _ _ _ Hx) as Hlt.
  unfold fileclose. wstep. apply wpe_wp, (wp_acquire kcpu ftlk); [by eapply fok_quiet|]. wstep.
  eapply wpe_wp, wp_getf; [exact Hx|]. destruct (Z.ltb_spec (f_ref x) 1); [lia|].
  wstep. eapply wpe_wp, wp_updf; [exact Hx|]. wstep.
  eapply wpe_wp, wp_getf; [simpl; by apply list_lookup_insert_eq|]. simpl.
  destruct (Z.ltb_spec 0 (f_ref x - 1)).
  { apply wpe_wp; eapply (wp_ft_release s); [exact H|by eexists|simpl; apply tab_drop; [apply H|done|lia]|].
    intros s' Hs' Hok. apply (HQ v); [done|done| |done].
    intros g Hg. rewrite Hs'. simpl. by rewrite list_lookup_insert_ne. }
  wstep. eapply wpe_wp, wp_updf; [simpl; by apply list_lookup_insert_eq|]. wstep.
  eapply wpe_wp, wp_updf; [simpl; apply list_lookup_insert_eq; by rewrite length_insert|]. wstep.
  apply wpe_wp; eapply (wp_release kcpu ftlk _ s); [by eapply fok_quiet|done|done|].
  simpl. rewrite !list_insert_insert_eq. set (t := set_files _ _).
  destruct (fok_owned _ _ _ _ _ _ _ H Hx) as [Hend Hino].
  eapply (wpe_release_owned x v); [|exact Hend| |].
  - exact (rel_leave s t N v R C H eq_refl).
  - intros Hty. destruct Hctl as [(y & Hy & Hn & _)|[Ha Hb]]; [congruence|].
    split_and!; [done|done|by apply Hino].
  - intros i' Hi'. apply (HQ (iv_release x v)).
    + unfold same_ctl, iv_release. by destruct (f_type x).
    + intros (y & Hy & Hn & _). simplify_eq. unfold iv_release. by rewrite Hn.
    + intros g Hg. simpl. by rewrite list_lookup_insert_ne.
    + split; [done|done|]. exact (tab_last _ _ _ _ _ f x (fk_tab _ _ _ _ _ H) Hx ltac:(lia)).
Qed.

Lemma fok_set_i s N v v' R C C' i :
  fok s N v R C → il_rel i v' → iv_refs v' ⊎ C = iv_refs v ⊎ C' → iv_ends v' = iv_ends v →
  fok (set_i i s) N v' R C'.
Proof. intros [H1 H2 H3] Hi Hr He. split; [done|done|]. by eapply tab_view. Qed.

Lemma fok_set_i_same s N v R C i : fok s N v R C → il_rel i v → fok (set_i i s) N v R C.
Proof. intros H Hi. by eapply fok_set_i. Qed.

Lemma fok_off s N v R C f x o :
  fok s N v R C → ft_file s !! f = Some x →
  fok (set_files (<[f := wf_off o x]> (ft_file s)) s) N v R C.
Proof.
  intros [H1 H2 H3] Hx. split; [done|done|]. eapply tab_update; try done.
  - exact (to_ref _ _ _ _ _ H3 f x Hx).
  - exact (to_none _ _ _ _ _ H3 f x Hx).
  - exact (to_typed _ _ _ _ _ H3 f x Hx).
  - exact (to_mode _ _ _ _ _ H3 f x Hx).
Qed.

Lemma iv_lock_unlock ip v : ip ∉ iv_locked v → iv_unlock ip (iv_lock ip v) = v.
Proof. destruct v. unfold iv_unlock, iv_lock. simpl. intros. f_equal. set_solver. Qed.

Lemma iv_tx_back v : iv_tx v = false → iv_settx false (iv_settx true v) = v.
Proof. destruct v. unfold iv_settx. simpl. by intros ->. Qed.

(** The body of filestat, fileread and filewrite between ilock and iunlock
    moves the offset at most. *)
Lemma wp_bump s N v R C f x o (b : bool) (Q : unit → st → Prop) :
  fok s N v R C → ft_file s !! f = Some x →
  (∀ s' y, fok s' N v R C → ft_file s' !! f = Some y → f_ip y = f_ip x →
     f_type y = f_type x → Q tt s') →
  wp (if b then updf f (wf_off o) else mret tt) Q s.
Proof.
  intros H Hx HQ. destruct b.
  - eapply wp_updf; [exact Hx|]. apply (HQ _ (wf_off o x)); [by apply fok_off| |done|done].
    simpl. apply list_lookup_insert_eq. by eapply lookup_lt_Some.
  - wstep. by apply (HQ _ x).
Qed.

Lemma wpe_filestat s N v R C f (Q : option (Z * Z * Z * Z * Z) * Z → st → Prop) :
  fok s N v R C → f ∈ R → iv_locked v = ∅ →
  (∀ r s', fok s' N v R C → Q r s') → wpe (filestat f) Q fs_panic s.
Proof.
  intros H Hf Hl HQ. destruct (fok_lookup _ _ _ _ _ _ H Hf) as (x & Hx & _).
  destruct (fok_owned _ _ _ _ _ _ _ H Hx) as [_ Hino].
  unfold filestat. wstep. eapply wpe_wp, wp_getf; [exact Hx|].
  destruct (f_type x); [by wstep; apply HQ..|]. specialize (Hino eq_refl).
  wstep. apply wpe_il. eapply il_ilock_law; [by apply H|done|by rewrite Hl|]. intros i1 H1.
  wstep. apply wpe_il. unfold il_stati. wstep. eapply il_geti_law; [done|done|]. wstep.
  wstep. apply wpe_il. eapply il_iunlock_law; [done|done|simpl; set_solver|]. intros i2 H2.
  wstep. apply HQ. rewrite iv_lock_unlock in H2 by by rewrite Hl.
  exact (fok_set_i_same s N v R C i2 H H2).
Qed.

Lemma wpe_fileread s N v R C f n (Q : list Z * Z → st → Prop) :
  fok s N v R C → f ∈ R → f ∉ N →
  iv_locked v = ∅ →
  (∀ r s', fok s' N v R C → Q r s') → wpe (fileread f n) Q fs_panic s.
Proof.
  intros H Hf HfN Hl HQ. destruct (fok_lookup _ _ _ _ _ _ H Hf) as (x & Hx & Hr1).
  destruct (fok_owned _ _ _ _ _ _ _ H Hx) as [Hend Hino].
  pose proof (to_typed _ _ _ _ _ (fk_tab _ _ _ _ _ H) f x Hx ltac:(lia) HfN) as Hty.
  pose proof (to_mode _ _ _ _ _ (fk_tab _ _ _ _ _ H) f x Hx) as Hmode.
  unfold fileread. wstep. eapply wpe_wp, wp_getf; [exact Hx|].
  destruct (f_readable x) eqn:Er; cbn [negb]; [|by wstep; apply HQ].
  destruct (f_type x); [done| |].
  { apply wpe_il. specialize (Hmode eq_refl). specialize (Hend eq_refl).
    destruct (f_writable x); [done|].
    eapply il_piperead_law; [by apply H|done|done|]. intros r i Hi.
    apply HQ. by apply fok_set_i_same. }
  specialize (Hino eq_refl).
  wstep. apply wpe_il. eapply il_ilock_law; [by apply H|done|by rewrite Hl|]. intros i1 H1.
  wstep. apply wpe_il. eapply il_readi_law; [done|simpl; set_solver|]. intros [bs r] i2 H2 _.
  wstep. apply wpe_wp; eapply (wp_bump _ N (iv_lock (f_ip x) v)).
  { eapply (fok_set_i s); [exact H|done|done|done]. }
  { exact Hx. }
  intros s2 y Hs2 _ _ _.
  wstep. apply wpe_il. eapply il_iunlock_law; [by apply Hs2|done|simpl; set_solver|]. intros i3 H3.
  wstep. apply HQ. rewrite iv_lock_unlock in H3 by by rewrite Hl.
  by eapply (fok_set_i s2).
Qed.

Lemma wpe_filewrite_loop N v R C f src n fuel :
  iv_locked v = ∅ → iv_tx v = false → ∀ i s (Q : Z → st → Prop),
  (Z.to_nat ((n - i + (fw_max - 1)) / fw_max) + 1 ≤ fuel)%nat →
  fok s N v R C → (∃ x, ft_file s !! f = Some x ∧ f_type x = FD_INODE) →
  (∀ r s', fok s' N v R C → Q r s') → wpe (filewrite_loop fuel f src i n) Q fs_panic s.
Proof.
  intros Hl Htx. induction fuel as [|fuel IH]; intros i s Q Hfuel H (x & Hx & Hty) HQ; [lia|].
  cbn [filewrite_loop]. destruct (Z.ltb_spec i n) as [Hin|Hin]; [|by wstep; apply HQ].
  set (n1 := if fw_max <? n - i then fw_max else n - i).
  destruct (fok_owned _ _ _ _ _ _ _ H Hx) as [_ Hino]. specialize (Hino Hty).
  wstep. apply wpe_il. eapply il_begin_op_law; [by apply H|done|done|]. intros i1 H1.
  wstep. eapply wpe_wp, wp_getf; [exact Hx|].
  wstep. apply wpe_il. eapply il_ilock_law; [done|done|simpl; by rewrite Hl|]. intros i2 H2.
  wstep. apply wpe_il. eapply il_writei_law; [done|done|simpl; set_solver|]. intros r i3 Hr H3.
  wstep. apply wpe_wp; eapply (wp_bump _ N (iv_lock (f_ip x) (iv_settx true v))).
  { eapply (fok_set_i s); [exact H|done|done|done]. }
  { exact Hx. }
  intros s3 y Hs3 Hy Hyip Hyty.
  wstep. apply wpe_il. eapply il_iunlock_law; [by apply Hs3|done|simpl; set_solver|]. intros i4 H4.
  rewrite iv_lock_unlock in H4 by (simpl; by rewrite Hl).
  wstep. apply wpe_il. eapply il_end_op_law; [done|done|done|]. intros i5 H5.
  rewrite iv_tx_back in H5 by done.
  assert (Hs5 : fok (set_i i5 s3) N v R C) by by eapply (fok_set_i s3).
  destruct (Z.ltb_spec r 0); [by wstep; apply HQ|].
  assert (r = n1) as -> by lia. rewrite Z.eqb_refl. cbn [negb].
  apply IH; [|exact Hs5|exists y; split; [exact Hy|congruence]|done].
  revert Hfuel. unfold n1. change fw_max with 6656. destruct (Z.ltb_spec 6656 (n - i)).
  - replace (n - (i + 6656) + (6656 - 1)) with (n - i + (6656 - 1) + (-1) * 6656) by lia.
    rewrite Z.div_add by lia.
    assert (1 ≤ (n - i + (6656 - 1)) / 6656) by (apply Z.div_le_lower_bound; lia). lia.
  - replace (n - (i + (n - i)) + (6656 - 1)) with 6655 by lia. change (6655 / 6656) with 0.
    assert (1 ≤ (n - i + (6656 - 1)) / 6656) by (apply Z.div_le_lower_bound; lia). lia.
Qed.

Lemma wpe_filewrite s N v R C f src n (Q : Z → st → Prop) :
  fok s N v R C → f ∈ R → f ∉ N →
  iv_locked v = ∅ → iv_tx v = false →
  (∀ r s', fok s' N v R C → Q r s') → wpe (filewrite f src n) Q fs_panic s.
Proof.
  intros H Hf HfN Hl Htx HQ. destruct (fok_lookup _ _ _ _ _ _ H Hf) as (x & Hx & Hr1).
  destruct (fok_owned _ _ _ _ _ _ _ H Hx) as [Hend _].
  pose proof (to_typed _ _ _ _ _ (fk_tab _ _ _ _ _ H) f x Hx ltac:(lia) HfN) as Hty.
  unfold filewrite. wstep. eapply wpe_wp, wp_getf; [exact Hx|].
  destruct (f_writable x) eqn:Er; cbn [negb]; [|by wstep; apply HQ].
  destruct (f_type x) eqn:Et; [done| |].
  { apply wpe_il. eapply il_pipewrite_law; [by apply H|by apply Hend|done|]. intros r i Hi.
    apply HQ. by apply fok_set_i_same. }
  wstep. eapply wpe_filewrite_loop; [done|done| |exact H|by exists x|].
  { change fw_max with 6656. replace (n - 0 + (6656 - 1)) with (n + 6655) by lia.
    assert ((n + 6655) / 6656 ≤ n / 6656 + 1); [|lia].
    replace (n / 6656 + 1) with ((n + 1 * 6656) / 6656) by (rewrite Z.div_add by lia; lia).
    apply Z.div_le_mono; lia. }
  intros r s' Hs'. wstep. by apply HQ.
Qed.

Lemma wpe_fileclose_fresh s N v R C f (Q : unit → st → Prop) :
  fok s N v R C → f ∈ R → fresh f s →
  (∀ s', (∀ g, g ≠ f → ft_file s' !! g = ft_file s !! g) →
     fok s' (N ∖ {[f]}) v (R ∖ {[+ f +]}) C → Q tt s') →
  wpe (fileclose f) Q fs_panic s.
Proof.
  intros H Hf Hfr HQ. eapply wpe_fileclose; [exact H|done|by left|].
  intros v' s' _ Hv Hg Hs'. rewrite (Hv Hfr) in Hs'. apply HQ; [done|].
  destruct Hs' as [H1 H2 H3]. split; [done|done|]. apply tab_shrink; [done|].
  destruct Hfr as (x & Hx & _ & Hr). apply not_elem_of_multiplicity.
  pose proof (to_ref _ _ _ _ _ (fk_tab _ _ _ _ _ H) f x Hx).
  rewrite multiplicity_difference, multiplicity_singleton_eq. lia.
Qed.

Lemma fresh_other f g s s' :
  fresh f s → f ≠ g → (∀ h, h ≠ g → ft_file s' !! h = ft_file s !! h) → fresh f s'.
Proof. intros (x & Hx & ?) Hne Hs. exists x. by rewrite Hs. Qed.

(** A fresh entry becomes an end of pipe [p]. *)
Definition iv_end (p : Z) (w : bool) v : iview :=
  mkIv (iv_refs v) (iv_locked v) ({[+ (p, w) +]} ⊎ iv_ends v) (iv_tx v).

Lemma tab_pipe_end l N v R C f (w : bool) p x :
  tab_ok l N v R C → l !! f = Some x → f_type x = FD_NONE → f_ref x ≠ 0 →
  tab_ok (<[f := set_pipe_end w p x]> l) (N ∖ {[f]}) (iv_end p w v) R C.
Proof.
  intros H Hx Hn H0. eapply tab_update; [exact H|exact Hx|..]; try done.
  - exact (to_ref _ _ _ _ _ H f x Hx).
  - set_solver.
  - unfold f_ino. simpl. by rewrite Hn.
  - unfold f_end. simpl. rewrite Hn. simpl. multiset_solver.
Qed.

Lemma iv_newpipe_ends p v : iv_newpipe p v = iv_end p true (iv_end p false v).
Proof. unfold iv_newpipe, iv_end. simpl. f_equal. multiset_solver. Qed.

(** The two entries pipealloc fills in. *)
Lemma fok_pipe_ends s N v R C f0 f1 p x0 x1 :
  fok s N v R C → f0 ≠ f1 →
  ft_file s !! f0 = Some x0 → f_type x0 = FD_NONE → f_ref x0 = 1 →
  ft_file s !! f1 = Some x1 → f_type x1 = FD_NONE → f_ref x1 = 1 →
  tab_ok (<[f1 := set_pipe_end true p x1]> (<[f0 := set_pipe_end false p x0]> (ft_file s)))
    (N ∖ {[f0]} ∖ {[f1]}) (iv_newpipe p v) R C.
Proof.
  intros H Hne Hx0 Hn0 Hr0 Hx1 Hn1 Hr1. rewrite iv_newpipe_ends.
  apply tab_pipe_end; [|by rewrite list_lookup_insert_ne|done|by rewrite Hr1].
  apply tab_pipe_end; [apply H|done|done|by rewrite Hr0].
Qed.

(** Giving back two fresh entries. *)
Lemma wpe_close_two s N v R C f0 f1 (Q : option (nat * nat) → st → Prop) :
  fok s ({[f1]} ∪ ({[f0]} ∪ N)) v ({[+ f1 +]} ⊎ ({[+ f0 +]} ⊎ R)) C → f0 ∉ N → f1 ∉ N → f0 ≠ f1 → fresh f0 s → fresh f1 s →
  (∀ s', fok s' N v R C → Q None s') → wpe (pipealloc_bad 0 (Some f0) (Some f1)) Q fs_panic s.
Proof.
  intros H HN0 HN1 Hne H0 H1 HN. unfold pipealloc_bad. wsteps.
  eapply wpe_fileclose_fresh; [exact H|multiset_solver|done|]. intros s3 Hg3 H3. wstep.
  eapply wpe_fileclose_fresh; [exact H3|multiset_solver|by eapply (fresh_other f1 f0)|].
  intros s4 Hg4 H4. wstep. apply HN.
  replace R with ((({[+ f1 +]} ⊎ ({[+ f0 +]} ⊎ R)) ∖ {[+ f0 +]}) ∖ {[+ f1 +]}) by multiset_solver.
  by replace N with (({[f1]} ∪ ({[f0]} ∪ N)) ∖ {[f0]} ∖ {[f1]}) by set_solver.
Qed.

(** pipealloc gives two entries that own the two ends of a new pipe, or gives
    back what it took. *)
Lemma wpe_pipealloc s v R C (Q : option (nat * nat) → st → Prop) :
  fok s ∅ v R C →
  (∀ s', fok s' ∅ v R C → Q None s') →
  (∀ f0 f1 p s', f0 ∉ R → f1 ∉ R →
     (∀ g, g ≠ f0 → g ≠ f1 → ft_file s' !! g = ft_file s !! g) →
     ft_file s' !! f0 ≫= f_end = Some (p, false) → ft_file s' !! f1 ≫= f_end = Some (p, true) →
     fok s' ∅ (iv_newpipe p v) ({[+ f1 +]} ⊎ ({[+ f0 +]} ⊎ R)) C → Q (Some (f0, f1)) s') →
  wpe pipealloc Q fs_panic s.
Proof.
  intros H HN HS. unfold pipealloc. wstep. eapply wpe_wp, wp_filealloc; [exact H|intros s1 _ H1|].
  { unfold pipealloc_bad. wsteps. by apply HN. }
  intros f0 s1 Hf0 Hg1 Hfr0 H1. wstep. eapply wpe_wp, wp_filealloc; [exact H1|intros s2 Hs2 H2|].
  { unfold pipealloc_bad. wsteps. eapply wpe_fileclose_fresh; [exact H2|multiset_solver| |].
    { eapply (fresh_other _ (S f0)); [exact Hfr0|lia|]. intros. by rewrite Hs2. }
    intros s3 _ H3. wsteps. apply HN. replace R with (({[+ f0 +]} ⊎ R) ∖ {[+ f0 +]}) by multiset_solver.
    by replace (∅ : gset nat) with (({[f0]} ∪ ∅ : gset nat) ∖ {[f0]}) by set_solver. }
  intros f1 s2 Hf1 Hg2 Hfr1 H2.
  assert (f0 ≠ f1) as Hne by (intros ->; apply Hf1; multiset_solver).
  pose proof (fresh_other f0 f1 _ _ Hfr0 Hne Hg2) as Hfr0'.
  wstep. apply wpe_il. eapply il_pipenew_law; [by apply H2|intros i Hi|intros p i Hp Hi].
  { simpl. eapply wpe_close_two; [by apply fok_set_i_same|set_solver|set_solver|done|done|done|done]. }
  apply Z.eqb_neq in Hp. rewrite Hp.
  destruct Hfr0' as (x0 & Hx0 & Hn0 & Hr0), Hfr1 as (x1 & Hx1 & Hn1 & Hr1).
  wstep. eapply wpe_wp, wp_updf; [exact Hx0|]. wstep.
  eapply wpe_wp, wp_updf; [simpl; rewrite list_lookup_insert_ne; done|]. wstep.
  apply lookup_some_lt in Hx0 as Hl0. apply lookup_some_lt in Hx1 as Hl1.
  apply (HS _ _ p); [done|multiset_solver| | | |].
  - intros g Hg0 Hg. simpl. rewrite !list_lookup_insert_ne by done. rewrite Hg2, Hg1; done.
  - simpl. rewrite list_lookup_insert_ne, list_lookup_insert_eq by done. done.
  - simpl. rewrite list_lookup_insert_eq; [done|]. by rewrite length_insert.
  - split; [apply H2|exact Hi|]. simpl.
    pose proof (fok_pipe_ends s2 _ v _ _ f0 f1 p x0 x1 H2 Hne Hx0 Hn0 Hr0 Hx1 Hn1 Hr1) as Ht.
    by replace (({[f1]} ∪ ({[f0]} ∪ ∅ : gset nat)) ∖ {[f0]} ∖ {[f1]}) with (∅ : gset nat) in Ht by set_solver.
Qed.
End file_facts.
