(* ===== verification/Syscall.v ===== *)
(** * System-call arguments (xv6/syscall.c)

    Fetching integers, pointers and strings from the memory of the running
    process.  A result of -1 is [None]; a fetched value is the value of the
    C variable, a fetched string its bytes without the NUL. *)

From S2P Require Import Prelude Kernel Spinlock Log Fs File Proc.
Local Open Scope Z_scope.

(** The int at [a], least significant byte first. *)
Definition int_at (m : Z → Z) (a : Z) : Z :=
  i32 (m a + 256 * m (a + 1) + 65536 * m (a + 2) + 16777216 * m (a + 3)).

(** Stores by the kernel into the process's memory. *)
Fixpoint store (a : Z) (bs : list Z) (m : Z → Z) : Z → Z :=
  match bs with
  | [] => m
  | b :: bs => store (a + 1) bs (λ x, if x =? a then b else m x)
  end.

Section syscall.
Context {I : Type}.
Abbreviation st := (pstate (kenv I)).

Definition myp : M st proc := c ← myproc; getp c.

Definition fetchint (addr : Z) : M st (option Z) :=
  p ← myp;
  if (p_sz p <=? addr) || (p_sz p <? u32 (addr + 4)) then mret None else
  m ← gets (λ s, umem (penv s));
  mret (Some (int_at m addr)).

(** The for loop of fetchstr: [n] bytes from [a] up to proc->sz. *)
Fixpoint scan_nul (m : Z → Z) (n : nat) (a : Z) : option (list Z) :=
  match n with
  | O => None
  | S n => if m a =? 0 then Some []
           else match scan_nul m n (a + 1) with Some l => Some (m a :: l) | None => None end
  end.

Definition fetchstr (addr : Z) : M st (option (list Z)) :=
  p ← myp;
  if p_sz p <=? addr then mret None else
  m ← gets (λ s, umem (penv s));
  mret (scan_nul m (Z.to_nat (p_sz p - addr)) addr).

Definition argint (n : Z) : M st (option Z) :=
  p ← myp;
  fetchint (u32 (tf_esp (p_tf p) + 4 + 4 * n)).

Definition argptr (n size : Z) : M st (option Z) :=
  o ← argint n;
  match o with
  | None => mret None
  | Some i =>
      p ← myp;
      if (p_sz p <=? u32 i) || (p_sz p <? u32 (u32 i + size)) then mret None
      else mret (Some (u32 i))
  end.

Definition argstr (n : Z) : M st (option (list Z)) :=
  o ← argint n;
  match o with
  | None => mret None
  | Some addr => fetchstr (u32 addr)
  end.

Definition setmem (a : Z) (bs : list Z) : M st unit :=
  modify (λ s, set_penv (set_umem (store a bs (umem (penv s))) (penv s)) s).
End syscall.

(** ** Lemmas *)

Section syscall_facts.
Context {I : Type}.
Abbreviation st := (pstate (kenv I)).
Implicit Types (s : st).

(** The running process is slot [c], with [p] in it. *)
Definition running (c : nat) (p : proc) s : Prop := curproc s = Some c ∧ procs s !! c = Some p.

Lemma wp_myp c p s (Q : proc → st → Prop) : running c p s → Q p s → wp myp Q s.
Proof.
  intros [H1 H2] HQ. unfold myp, myproc, getp. wsteps. eapply wp_deref; [exact H1|].
  wsteps. by eapply wp_deref.
Qed.

(** Where argument [n] lies, and when fetchint accepts an address. *)
Definition arg_addr (n : Z) (p : proc) : Z := u32 (tf_esp (p_tf p) + 4 + 4 * n).
Definition int_in (a : Z) (p : proc) : bool := (a <? p_sz p) && (u32 (a + 4) <=? p_sz p).

Lemma wp_fetchint a c p s (Q : option Z → st → Prop) :
  running c p s →
  Q (if int_in a p then Some (int_at (umem (penv s)) a) else None) s → wp (fetchint a) Q s.
Proof.
  intros Hr HQ. unfold fetchint. wstep. eapply wp_myp; [done|].
  unfold int_in in HQ. rewrite (Z.ltb_antisym (p_sz p) a), (Z.leb_antisym _ (u32 _)) in HQ.
  destruct (p_sz p <=? a), (p_sz p <? u32 (a + 4)); simpl in *; wsteps; done.
Qed.

Lemma wp_argint n c p s (Q : option Z → st → Prop) :
  running c p s →
  Q (if int_in (arg_addr n p) p then Some (int_at (umem (penv s)) (arg_addr n p)) else None) s →
  wp (argint n) Q s.
Proof.
  intros Hr HQ. unfold argint. wstep. eapply wp_myp; [done|]. by eapply wp_fetchint.
Qed.

(** The result of argptr as a function of the state. *)
Definition ptr_arg (n size : Z) (p : proc) (m : Z → Z) : option Z :=
  if int_in (arg_addr n p) p then
    let i := u32 (int_at m (arg_addr n p)) in
    if (i <? p_sz p) && (u32 (i + size) <=? p_sz p) then Some i else None
  else None.

Lemma wp_argptr n size c p s (Q : option Z → st → Prop) :
  running c p s → Q (ptr_arg n size p (umem (penv s))) s → wp (argptr n size) Q s.
Proof.
  intros Hr HQ. unfold argptr. wstep. eapply wp_argint; [done|]. unfold ptr_arg in HQ.
  destruct (int_in (arg_addr n p) p); [|by wstep].
  wstep. eapply wp_myp; [done|]. cbv zeta in HQ.
  rewrite (Z.ltb_antisym (p_sz p)), (Z.leb_antisym _ (u32 (_ + size))) in HQ.
  destruct (p_sz p <=? _), (p_sz p <? u32 (_ + size)); simpl in *; wsteps; done.
Qed.

Lemma wp_fetchstr a c p s (Q : option (list Z) → st → Prop) :
  running c p s →
  Q (if a <? p_sz p then scan_nul (umem (penv s)) (Z.to_nat (p_sz p - a)) a else None) s →
  wp (fetchstr a) Q s.
Proof.
  intros Hr HQ. unfold fetchstr. wstep. eapply wp_myp; [done|].
  rewrite Z.ltb_antisym in HQ. destruct (p_sz p <=? a); simpl in *; wsteps; done.
Qed.

(** argint and argstr leave the state alone. *)
Lemma wp_argint_any n c p s (Q : option Z → st → Prop) :
  running c p s → (∀ o, Q o s) → wp (argint n) Q s.
Proof. intros Hr HQ. by eapply wp_argint. Qed.

Lemma wp_argptr_any n size c p s (Q : option Z → st → Prop) :
  running c p s → (∀ o, Q o s) → wp (argptr n size) Q s.
Proof. intros Hr HQ. by eapply wp_argptr. Qed.

Lemma wp_argstr_any n c p s (Q : option (list Z) → st → Prop) :
  running c p s → (∀ o, Q o s) → wp (argstr n) Q s.
Proof.
  intros Hr HQ. unfold argstr. wstep. eapply wp_argint_any; [done|].
  intros [a|]; [by eapply wp_fetchstr|by wstep].
Qed.

Lemma scan_nul_spec m n a :
  match scan_nul m n a with
  | Some l => (length l < n)%nat ∧ m (a + Z.of_nat (length l)) = 0 ∧
      ∀ k, (k < length l)%nat → l !! k = Some (m (a + Z.of_nat k)) ∧ m (a + Z.of_nat k) ≠ 0
  | None => ∀ k, (k < n)%nat → m (a + Z.of_nat k) ≠ 0
  end.
Proof.
  revert a. induction n as [|n IH]; intros a; simpl; [intros; lia|].
  destruct (Z.eqb_spec (m a) 0) as [H0|H0].
  { simpl. rewrite Z.add_0_r. split_and!; [lia|done|]. intros; lia. }
  specialize (IH (a + 1)). destruct (scan_nul m n (a + 1)) as [l|].
  - destruct IH as (H1 & H2 & H3). simpl. split_and!; [lia|by rewrite <-H2; f_equal; lia|].
    intros [|k] Hk; simpl; [by rewrite Z.add_0_r|].
    destruct (H3 k ltac:(lia)) as [H4 H5].
    replace (a + Z.of_nat (S k)) with (a + 1 + Z.of_nat k) by lia. done.
  - intros [|k] Hk; [by rewrite Z.add_0_r|].
    replace (a + Z.of_nat (S k)) with (a + 1 + Z.of_nat k) by lia. apply IH. lia.
Qed.
End syscall_facts.

(** ** Properties *)

(** [C28] argptr checks what it is meant to check: with a size that is not
    negative it accepts the pointer in slot n exactly when the slot and the
    whole block lie in the process's memory.  It accepts every negative size
    that does not reach below address 0. *)
Theorem argptr_bounds {I} (s : pstate (kenv I)) c p n size :
  running c p s → 0 ≤ p_sz p < KERNBASE → -KERNBASE ≤ size < KERNBASE →
  wp (argptr n size) (λ r s', s' = s ∧
    let q := u32 (int_at (umem (penv s)) (arg_addr n p)) in
    (r = Some q ∨ r = None) ∧
    (r = Some q ↔ arg_addr n p + 4 ≤ p_sz p ∧ 0 ≤ q < p_sz p ∧ 0 ≤ q + size ≤ p_sz p)) s.
Proof.
  intros Hr Hsz Hsize. eapply wp_argptr; [done|]. split; [done|]. cbv zeta. unfold ptr_arg, int_in.
  set (a := arg_addr n p). set (q := u32 (int_at _ a)).
  assert (is_u32 a) as Ha by apply u32_range. assert (is_u32 q) as Hq by apply u32_range.
  unfold is_u32, KERNBASE in *.
  assert (Ea : a < p_sz p → u32 (a + 4) = a + 4) by (intros; unfold u32; rewrite Z.mod_small; lia).
  assert (Eq : q < p_sz p → u32 (q + size) = if q + size <? 0 then q + size + 4294967296 else q + size).
  { intros. unfold u32. destruct (Z.ltb_spec (q + size) 0); [|rewrite Z.mod_small; lia].
    rewrite <-(Z.mod_add _ 1) by lia. rewrite Z.mod_small; lia. }
  destruct (Z.ltb_spec a (p_sz p)); simpl; [rewrite Ea by done|split; [by right|split; [done|lia]]].
  destruct (Z.leb_spec (a + 4) (p_sz p)); simpl; [|split; [by right|split; [done|lia]]].
  destruct (Z.ltb_spec q (p_sz p)); simpl; [rewrite Eq by done|split; [by right|split; [done|lia]]].
  destruct (Z.ltb_spec (q + size) 0);
    destruct (Z.leb_spec (q + size + 4294967296) (p_sz p)); try lia;
    destruct (Z.leb_spec (q + size) (p_sz p)); simpl; split; try (by left); try (by right);
    split; try done; try lia.
Qed.

(** fetchstr returns the string at addr exactly when its NUL lies in the
    process's memory, and otherwise -1; it terminates and reads nothing past
    proc->sz. *)
Theorem fetchstr_spec {I} (s : pstate (kenv I)) c p a :
  running c p s →
  wp (fetchstr a) (λ r s', s' = s ∧
    match r with
    | Some l => a + Z.of_nat (length l) < p_sz p ∧ umem (penv s) (a + Z.of_nat (length l)) = 0 ∧
        ∀ k, (k < length l)%nat →
          l !! k = Some (umem (penv s) (a + Z.of_nat k)) ∧ umem (penv s) (a + Z.of_nat k) ≠ 0
    | None => ∀ b, a ≤ b < p_sz p → umem (penv s) b ≠ 0
    end) s.
Proof.
  intros Hr. eapply wp_fetchstr; [done|]. split; [done|].
  destruct (Z.ltb_spec a (p_sz p)); [|intros; lia].
  pose proof (scan_nul_spec (umem (penv s)) (Z.to_nat (p_sz p - a)) a) as H1.
  destruct (scan_nul _ _ _) as [l|].
  - destruct H1 as (H1 & H2 & H3). split_and!; [lia|done|done].
  - intros b Hb. specialize (H1 (Z.to_nat (b - a)) ltac:(lia)).
    by replace (a + Z.of_nat (Z.to_nat (b - a))) with b in H1 by lia.
Qed.

(** ** Witnesses *)

(** A process of one page whose stack pointer is 0 and whose memory holds
    [1; 0; 0; 0] from address 4 on: argument 0 is the pointer 1. *)
Definition arg_p : proc :=
  mkProc 4096 0 0 RUNNING 1 None tf_zero (mkCtx 0 0 0 0 0) 0 0 0 (replicate 16 0) 0 [] 0.
Definition arg_s : pstate (kenv unit) :=
  mkPs cpu0 lock0 [arg_p] None 2 (Some 0%nat)
    (mkKe lock0 [] lock0 0 (λ a, if a =? 4 then 1 else 0) tt).

Lemma arg_s_running : running 0 arg_p arg_s.
Proof. by split. Qed.

Lemma argptr_bounds_witness :
  wp (argptr 0 (-1)) (λ r s', s' = arg_s ∧
    (r = Some 1 ∨ r = None) ∧ (r = Some 1 ↔ 8 ≤ 4096 ∧ 0 ≤ 1 < 4096 ∧ 0 ≤ 1 + -1 ≤ 4096)) arg_s.
Proof.
  apply (argptr_bounds arg_s 0 arg_p 0 (-1) arg_s_running);
    unfold KERNBASE; simpl; lia.
Defined.

Lemma fetchstr_spec_witness :
  wp (fetchstr 4) (λ r s', s' = arg_s ∧
    match r with
    | Some l => 4 + Z.of_nat (length l) < 4096 ∧ umem (penv arg_s) (4 + Z.of_nat (length l)) = 0 ∧
        ∀ k, (k < length l)%nat →
          l !! k = Some (umem (penv arg_s) (4 + Z.of_nat k)) ∧ umem (penv arg_s) (4 + Z.of_nat k) ≠ 0
    | None => ∀ b, 4 ≤ b < 4096 → umem (penv arg_s) b ≠ 0
    end) arg_s.
Proof. exact (fetchstr_spec arg_s 0 arg_p 4 arg_s_running). Defined.
