(* ===== verification/Sysfile.v ===== *)
(** * File-system system calls (xv6/sysfile.c)

    Every system call of sysfile.c on the process table, the table of open
    files and the inode layer.  A file pointer in proc->ofile[] and an inode
    pointer in proc->cwd are one more than the index they stand for, 0 is
    NULL.  exec.c is an argument of [sys_exec]. *)

From S2P Require Import Prelude Kernel Spinlock Block Log Fs File Proc Syscall.
From stdpp Require Import gmap gmultiset.
Local Open Scope Z_scope.

Definition O_RDONLY : Z := 0.
Definition O_WRONLY : Z := 1.
Definition O_RDWR : Z := 2.
Definition O_CREATE : Z := 512.
Definition SIZEOF_STAT : Z := 20.

Definition ptr (i : nat) : Z := Z.of_nat i + 1.
Definition idx (p : Z) : nat := Z.to_nat (p - 1).

(** [n] bytes of memory from [a] on. *)
Definition mem_bytes (m : Z → Z) (a n : Z) : list Z :=
  (λ k, m (a + Z.of_nat k)) <$> seq 0 (Z.to_nat n).

(** ** Transactions on the inode layer *)

Section tx.
Context {I : Type} `{!InodeLayer I}.

Definition il_iunlockput (ip : nat) : M I unit := il_iunlock ip ;; il_iput ip.

(** The label bad of sys_link. *)
Definition link_bad (ip : nat) : M I Z :=
  il_ilock ip ;;
  il_updi ip (λ i, w_nlink (i16 (i_nlink i - 1)) i) ;;
  il_iupdate ip ;;
  il_iunlockput ip ;;
  il_end_op ;;
  mret (-1).

(** sys_link after its arguments. *)
Definition link_tx (cwd : nat) (old new : list Z) : M I Z :=
  il_begin_op ;;
  o ← il_namei cwd old;
  match o with
  | None => il_end_op ;; mret (-1)
  | Some ip =>
      il_ilock ip ;;
      i ← il_geti ip;
      if i_type i =? T_DIR then il_iunlockput ip ;; il_end_op ;; mret (-1) else
      il_updi ip (λ i, w_nlink (i16 (i_nlink i + 1)) i) ;;
      il_iupdate ip ;;
      il_iunlock ip ;;
      '(o, name) ← il_nameiparent cwd new;
      match o with
      | None => link_bad ip
      | Some dp =>
          il_ilock dp ;;
          d ← il_geti dp;
          i ← il_geti ip;
          r ← (if negb (i_dev d =? i_dev i) then mret (-1) else il_dirlink dp name (i_inum i));
          if r <? 0 then il_iunlockput dp ;; link_bad ip else
          il_iunlockput dp ;;
          il_iput ip ;;
          il_end_op ;;
          mret 0
      end
  end.

(** The for loop of isdirempty; one round per entry. *)
Fixpoint isdirempty_loop (fuel : nat) (dp : nat) (off : Z) : M I bool :=
  match fuel with
  | O => fault
  | S fuel =>
      i ← il_geti dp;
      if off <? i_size i then
        '(de, r) ← il_readi dp off DIRENT;
        if negb (r =? DIRENT) then panic "isdirempty: readi" else
        if negb (de_inum de =? 0) then mret false else
        isdirempty_loop fuel dp (off + DIRENT)
      else mret true
  end.
Definition isdirempty (dp : nat) : M I bool :=
  i ← il_geti dp;
  isdirempty_loop (Z.to_nat (i_size i / DIRENT) + 2) dp (2 * DIRENT).

(** The label bad of sys_unlink. *)
Definition unlink_bad (dp : nat) : M I Z := il_iunlockput dp ;; il_end_op ;; mret (-1).

(** sys_unlink after its arguments. *)
Definition unlink_tx (cwd : nat) (path : list Z) : M I Z :=
  il_begin_op ;;
  '(o, name) ← il_nameiparent cwd path;
  match o with
  | None => il_end_op ;; mret (-1)
  | Some dp =>
      il_ilock dp ;;
      if (namecmp name DOT =? 0) || (namecmp name DOTDOT =? 0) then unlink_bad dp else
      o ← il_dirlookup dp name;
      match o with
      | None => unlink_bad dp
      | Some (ip, off) =>
          il_ilock ip ;;
          i ← il_geti ip;
          if i_nlink i <? 1 then panic "unlink: nlink < 1" else
          busy ← (if i_type i =? T_DIR then e ← isdirempty ip; mret (negb e) else mret false);
          if (busy : bool) then il_iunlockput ip ;; unlink_bad dp else
          r ← il_writei dp (replicate 16 0) off DIRENT;
          if negb (r =? DIRENT) then panic "unlink: writei" else
          (if i_type i =? T_DIR then
             il_updi dp (λ d, w_nlink (i16 (i_nlink d - 1)) d) ;; il_iupdate dp
           else mret tt) ;;
          il_iunlockput dp ;;
          il_updi ip (λ i, w_nlink (i16 (i_nlink i - 1)) i) ;;
          il_iupdate ip ;;
          il_iunlockput ip ;;
          il_end_op ;;
          mret 0
      end
  end.

(** The new inode, locked and with a reference; 0 is [None]. *)
Definition create (cwd : nat) (path : list Z) (type major minor : Z) : M I (option nat) :=
  '(o, name) ← il_nameiparent cwd path;
  match o with
  | None => mret None
  | Some dp =>
      il_ilock dp ;;
      o ← il_dirlookup dp name;
      match o with
      | Some (ip, _) =>
          il_iunlockput dp ;;
          il_ilock ip ;;
          i ← il_geti ip;
          if (type =? T_FILE) && (i_type i =? T_FILE) then mret (Some ip) else
          il_iunlockput ip ;;
          mret None
      | None =>
          d ← il_geti dp;
          o ← il_ialloc (i_dev d) type;
          match o with
          | None => panic "create: ialloc"
          | Some ip =>
              il_ilock ip ;;
              il_updi ip (λ i, w_nlink 1 (w_majmin major minor i)) ;;
              il_iupdate ip ;;
              (if type =? T_DIR then
                 il_updi dp (λ d, w_nlink (i16 (i_nlink d + 1)) d) ;;
                 il_iupdate dp ;;
                 i ← il_geti ip;
                 r ← il_dirlink ip DOT (i_inum i);
                 if r <? 0 then panic "create dots" else
                 d ← il_geti dp;
                 r ← il_dirlink ip DOTDOT (i_inum d);
                 if r <? 0 then panic "create dots" else mret tt
               else mret tt) ;;
              i ← il_geti ip;
              r ← il_dirlink dp name (i_inum i);
              if r <? 0 then panic "create: dirlink" else
              il_iunlockput dp ;;
              mret (Some ip)
          end
      end
  end.

(** sys_open from begin_op to the locked inode; 0 is [None]. *)
Definition open_inode (cwd : nat) (path : list Z) (omode : Z) : M I (option nat) :=
  il_begin_op ;;
  if negb (Z.land omode O_CREATE =? 0) then
    o ← create cwd path T_FILE 0 0;
    match o with
    | None => il_end_op ;; mret None
    | Some ip => mret (Some ip)
    end
  else
    o ← il_namei cwd path;
    match o with
    | None => il_end_op ;; mret None
    | Some ip =>
        il_ilock ip ;;
        i ← il_geti ip;
        if (i_type i =? T_DIR) && negb (omode =? O_RDONLY)
        then il_iunlockput ip ;; il_end_op ;; mret None
        else mret (Some ip)
    end.

(** create, and the end of sys_mkdir and sys_mknod. *)
Definition create_tx (cwd : nat) (path : list Z) (type major minor : Z) : M I Z :=
  o ← create cwd path type major minor;
  match o with
  | None => il_end_op ;; mret (-1)
  | Some ip => il_iunlockput ip ;; il_end_op ;; mret 0
  end.

(** sys_chdir from namei on: the new directory, or -1. *)
Definition chdir_tx (cwd : nat) (path : list Z) : M I (option nat) :=
  o ← il_namei cwd path;
  match o with
  | None => il_end_op ;; mret None
  | Some ip =>
      il_ilock ip ;;
      i ← il_geti ip;
      if negb (i_type i =? T_DIR) then il_iunlockput ip ;; il_end_op ;; mret None else
      il_iunlock ip ;;
      il_iput cwd ;;
      il_end_op ;;
      mret (Some ip)
  end.
End tx.

(** ** System calls *)

Section sysfile.
Context {I : Type} `{!InodeLayer I}.
Abbreviation st := (pstate (kenv I)).

Definition k {A} (m : M I A) : M st A := env (il m).
Definition mycwd : M st nat := p ← myp; mret (idx (p_cwd p)).

(** The descriptor and the file. *)
Definition argfd (n : Z) : M st (option (nat * nat)) :=
  o ← argint n;
  match o with
  | None => mret None
  | Some fd =>
      p ← myp;
      if (fd <? 0) || (Z.of_nat NOFILE <=? fd) then mret None else
      f ← deref (p_ofile p !! Z.to_nat fd);
      if f =? 0 then mret None else mret (Some (Z.to_nat fd, idx f))
  end.

Fixpoint free_fd (l : list Z) (fd : nat) : option nat :=
  match l with
  | [] => None
  | f :: l => if f =? 0 then Some fd else free_fd l (S fd)
  end.

Definition set_fd (fd : nat) (f : Z) : M st unit :=
  c ← myproc; updp c (λ q, w_ofile (<[fd := f]> (p_ofile q)) q).

(** -1 is [None]. *)
Definition fdalloc (f : nat) : M st (option nat) :=
  p ← myp;
  match free_fd (p_ofile p) 0 with
  | Some fd => set_fd fd (ptr f) ;; mret (Some fd)
  | None => mret None
  end.

Definition sys_dup : M st Z :=
  o ← argfd 0;
  match o with
  | None => mret (-1)
  | Some (_, f) =>
      o ← fdalloc f;
      match o with
      | None => mret (-1)
      | Some fd => env (filedup f) ;; mret (Z.of_nat fd)
      end
  end.

(** The arguments of read and write: file, count and address. *)
Definition arg_rw : M st (option (nat * Z * Z)) :=
  o ← argfd 0;
  match o with
  | None => mret None
  | Some (_, f) =>
      o ← argint 2;
      match o with
      | None => mret None
      | Some n =>
          o ← argptr 1 n;
          mret (match o with None => None | Some p => Some (f, n, p) end)
      end
  end.

Definition sys_read : M st Z :=
  o ← arg_rw;
  match o with
  | None => mret (-1)
  | Some (f, n, p) =>
      '(bs, r) ← env (fileread f n);
      setmem p bs ;;
      mret r
  end.

Definition sys_write : M st Z :=
  o ← arg_rw;
  match o with
  | None => mret (-1)
  | Some (f, n, p) =>
      m ← gets (λ s, umem (penv s));
      env (filewrite f (mem_bytes m p n) n)
  end.

Definition sys_close : M st Z :=
  o ← argfd 0;
  match o with
  | None => mret (-1)
  | Some (fd, f) => set_fd fd 0 ;; env (fileclose f) ;; mret 0
  end.

Definition sys_fstat : M st Z :=
  o ← argfd 0;
  match o with
  | None => mret (-1)
  | Some (_, f) =>
      o ← argptr 1 SIZEOF_STAT;
      match o with
      | None => mret (-1)
      | Some p =>
          '(o, r) ← env (filestat f);
          match o with
          | Some (type, dev, ino, nlink, size) =>
              setmem p (to_le16 type) ;;
              setmem (p + 4) (to_le32 dev) ;;
              setmem (p + 8) (to_le32 ino) ;;
              setmem (p + 12) (to_le16 nlink) ;;
              setmem (p + 16) (to_le32 size) ;;
              mret r
          | None => mret r
          end
      end
  end.

Definition sys_link : M st Z :=
  o ← argstr 0;
  match o with
  | None => mret (-1)
  | Some old =>
      o ← argstr 1;
      match o with
      | None => mret (-1)
      | Some new => cwd ← mycwd; k (link_tx cwd old new)
      end
  end.

Definition sys_unlink : M st Z :=
  o ← argstr 0;
  match o with
  | None => mret (-1)
  | Some path => cwd ← mycwd; k (unlink_tx cwd path)
  end.

Definition open_file (ip : nat) (omode : Z) (f : file) : file :=
  mkFile FD_INODE (f_ref f) (Z.land omode O_WRONLY =? 0)
    (negb (Z.land omode O_WRONLY =? 0) || negb (Z.land omode O_RDWR =? 0)) (f_pipe f) ip 0.

(** The part of sys_open that gives the locked inode a descriptor. *)
Definition open_fd (ip : nat) (omode : Z) : M st Z :=
  o ← env filealloc;
  match o with
  | None => k (il_iunlockput ip) ;; k il_end_op ;; mret (-1)
  | Some f =>
      o ← fdalloc f;
      match o with
      | None => env (fileclose f) ;; k (il_iunlockput ip) ;; k il_end_op ;; mret (-1)
      | Some fd =>
          k (il_iunlock ip) ;;
          k il_end_op ;;
          env (updf f (open_file ip omode)) ;;
          mret (Z.of_nat fd)
      end
  end.

Definition sys_open : M st Z :=
  o ← argstr 0;
  match o with
  | None => mret (-1)
  | Some path =>
      o ← argint 1;
      match o with
      | None => mret (-1)
      | Some omode =>
          cwd ← mycwd;
          o ← k (open_inode cwd path omode);
          match o with
          | None => mret (-1)
          | Some ip => open_fd ip omode
          end
      end
  end.

Definition sys_mkdir : M st Z :=
  k il_begin_op ;;
  o ← argstr 0;
  match o with
  | None => k il_end_op ;; mret (-1)
  | Some path => cwd ← mycwd; k (create_tx cwd path T_DIR 0 0)
  end.

Definition sys_mknod : M st Z :=
  k il_begin_op ;;
  o ← argstr 0;
  match o with
  | None => k il_end_op ;; mret (-1)
  | Some path =>
      o ← argint 1;
      match o with
      | None => k il_end_op ;; mret (-1)
      | Some major =>
          o ← argint 2;
          match o with
          | None => k il_end_op ;; mret (-1)
          | Some minor => cwd ← mycwd; k (create_tx cwd path T_DEV (i16 major) (i16 minor))
          end
      end
  end.

Definition sys_chdir : M st Z :=
  k il_begin_op ;;
  o ← argstr 0;
  match o with
  | None => k il_end_op ;; mret (-1)
  | Some path =>
      cwd ← mycwd;
      o ← k (chdir_tx cwd path);
      match o with
      | None => mret (-1)
      | Some ip => c ← myproc; updp c (w_cwd (ptr ip)) ;; mret 0
      end
  end.

(** The for loop of sys_exec: argv from entry [i] on, -1 is [None]. *)
Fixpoint exec_args (n : nat) (uargv : Z) (i : Z) : M st (option (list (list Z))) :=
  match n with
  | O => mret None
  | S n =>
      o ← fetchint (u32 (uargv + 4 * i));
      match o with
      | None => mret None
      | Some uarg =>
          if uarg =? 0 then mret (Some []) else
          o ← fetchstr (u32 uarg);
          match o with
          | None => mret None
          | Some a =>
              o ← exec_args n uargv (i + 1);
              mret (match o with Some l => Some (a :: l) | None => None end)
          end
      end
  end.

Definition sys_exec (exec : list Z → list (list Z) → M st Z) : M st Z :=
  o ← argstr 0;
  match o with
  | None => mret (-1)
  | Some path =>
      o ← argint 1;
      match o with
      | None => mret (-1)
      | Some uargv =>
          o ← exec_args MAXARG (u32 uargv) 0;
          match o with
          | None => mret (-1)
          | Some argv => exec path argv
          end
      end
  end.

Definition sys_pipe : M st Z :=
  o ← argptr 0 8;
  match o with
  | None => mret (-1)
  | Some p =>
      o ← env pipealloc;
      match o with
      | None => mret (-1)
      | Some (rf, wf) =>
          o0 ← fdalloc rf;
          match o0 with
          | None => env (fileclose rf) ;; env (fileclose wf) ;; mret (-1)
          | Some fd0 =>
              o1 ← fdalloc wf;
              match o1 with
              | None =>
                  set_fd fd0 0 ;;
                  env (fileclose rf) ;; env (fileclose wf) ;; mret (-1)
              | Some fd1 =>
                  setmem p (to_le32 (Z.of_nat fd0)) ;;
                  setmem (p + 4) (to_le32 (Z.of_nat fd1)) ;;
                  mret 0
              end
          end
      end
  end.
End sysfile.

(** ** Transactions give back what they take *)

(** Side conditions and equalities of views. *)
Ltac iv_side := simpl; first [done | by subst | set_solver | multiset_solver].
Ltac iv_norm v :=
  destruct v as [? ? ? ?]; unfold iv_unref, iv_unlock, iv_lock, iv_ref, iv_settx in *; simpl in *;
  subst; f_equal; first [done | set_solver | multiset_solver].

Lemma iv_ref_unref ip v : iv_unref ip (iv_ref ip v) = v.
Proof. destruct v. unfold iv_unref, iv_ref. simpl. f_equal. multiset_solver. Qed.

(** A lock, reference or transaction that was just taken and is given back. *)
Ltac iv_cancel :=
  match goal with H : il_rel _ _ |- _ =>
    repeat first [rewrite iv_ref_unref in H | rewrite iv_lock_unlock in H by iv_side
                 | rewrite iv_tx_back in H by iv_side]
  end.

Ltac il_done v :=
  match goal with
  | H : il_rel ?s ?x |- il_rel ?s ?y => first [exact H | replace y with x; [exact H|iv_norm v]]
  end.

Section tx_facts.
Context {I : Type} `{!InodeLayer I}.
Implicit Types (s : I) (v : iview).

Lemma wpe_iunlockput s v ip (Q : unit → I → Prop) :
  il_rel s v → iv_tx v = true → ip ∈ iv_refs v → ip ∈ iv_locked v →
  (∀ s', il_rel s' (iv_unref ip (iv_unlock ip v)) → Q tt s') → wpe (il_iunlockput ip) Q fs_panic s.
Proof.
  intros H Htx Hr Hl HQ. unfold il_iunlockput. wstep. eapply wpe_low, il_iunlock_law; [done|done|done|].
  intros s1 H1. eapply wpe_low, il_iput_law; [done|done|done|iv_side|done].
Qed.

Ltac drop_rels := repeat match goal with H : il_rel _ _ |- _ => clear H end.

(** One step of the inode layer. *)
Ltac il_step :=
  apply wpe_bind_e;
  lazymatch goal with H : il_rel ?s _ |- wpe _ _ _ ?s =>
  lazymatch goal with
  | |- wpe il_begin_op _ _ _ => eapply wpe_low, il_begin_op_law; [exact H|iv_side|iv_side|clear H; intros ? ?; iv_cancel]
  | |- wpe il_end_op _ _ _ => eapply wpe_low, il_end_op_law; [exact H|iv_side|iv_side|clear H; intros ? ?; iv_cancel]
  | |- wpe (il_ilock _) _ _ _ => eapply wpe_low, il_ilock_law; [exact H|iv_side|iv_side|clear H; intros ? ?; iv_cancel]
  | |- wpe (il_iunlock _) _ _ _ => eapply wpe_low, il_iunlock_law; [exact H|iv_side|iv_side|clear H; intros ? ?; iv_cancel]
  | |- wpe (il_iput _) _ _ _ => eapply wpe_low, il_iput_law; [exact H|iv_side|iv_side|iv_side|clear H; intros ? ?; iv_cancel]
  | |- wpe (il_iunlockput _) _ _ _ =>
      eapply wpe_iunlockput; [exact H|iv_side|iv_side|iv_side|clear H; intros ? ?; iv_cancel]
  | |- wpe (il_iupdate _) _ _ _ => eapply wpe_low, il_iupdate_law; [exact H|iv_side|iv_side|clear H; intros ? ?; iv_cancel]
  | |- wpe (il_updi _ _) _ _ _ => eapply wpe_low, il_updi_law; [exact H|iv_side|by intros []|clear H; intros ? ?; iv_cancel]
  | |- wpe (il_geti _) _ _ _ => eapply wpe_low, il_geti_law; [exact H|iv_side|]
  | |- wpe (il_dirlink _ _ _) _ _ _ =>
      eapply wpe_low, il_dirlink_law; [exact H|iv_side|iv_side|clear H; intros ? ? ? ?; iv_cancel]
  | |- wpe (il_namei _ _) _ _ _ =>
      eapply wpe_low, il_namei_law; [exact H|iv_side|iv_side|iv_side|clear H; intros ? ?; try iv_cancel|clear H; intros ? ? ?; iv_cancel]
  | |- wpe (il_nameiparent _ _) _ _ _ =>
      eapply wpe_low, il_nameiparent_law; [exact H|iv_side|iv_side|iv_side|clear H; intros ? ? ?; try iv_cancel|clear H; intros ? ? ? ?; iv_cancel]
  end end.

Lemma wpe_link_bad s v ip (Q : Z → I → Prop) :
  il_rel s v → iv_tx v = true → iv_locked v = ∅ → ip ∈ iv_refs v →
  (∀ s', il_rel s' (iv_settx false (iv_unref ip v)) → Q (-1) s') → wpe (link_bad ip) Q fs_panic s.
Proof.
  intros H Htx Hl Hr HQ. unfold link_bad. do 5 il_step. wstep. apply HQ.
  il_done v.
Qed.

Lemma wpe_link_tx s v cwd old new (Q : Z → I → Prop) :
  il_rel s v → iv_tx v = false → iv_locked v = ∅ → cwd ∈ iv_refs v →
  (∀ r s', r = 0 ∨ r = -1 → il_rel s' v → Q r s') → wpe (link_tx cwd old new) Q fs_panic s.
Proof.
  intros H Htx Hl Hc HQ. unfold link_tx. do 2 il_step.
  { il_step. wstep. by apply HQ; [right|]. }
  do 2 il_step.
  destruct (_ =? T_DIR).
  { do 2 il_step. wstep. apply HQ; [by right|]. il_done v. }
  do 4 il_step; simpl.
  { eapply wpe_link_bad; [eassumption|iv_side..|]. intros. apply HQ; [by right|]. il_done v. }
  do 3 il_step. wstep.
  eapply (wpe_mono _ (λ r s', il_rel s' _ ∧ (r = 0 ∨ r = -1)) _ fs_panic); [| |done].
  { destruct (negb _); [wstep; split; [eassumption|by right]|].
    eapply wpe_low, il_dirlink_law; [eassumption|iv_side|iv_side|]. auto. }
  intros r t [Ht Hr]. destruct (r <? 0).
  - il_step. eapply wpe_link_bad; [eassumption|iv_side..|]. intros. apply HQ; [by right|]. il_done v.
  - do 3 il_step. wstep. apply HQ; [by left|]. il_done v.
Qed.

Lemma wpe_isdirempty_loop v dp fuel : ∀ s off (Q : bool → I → Prop),
  il_rel s v → dp ∈ iv_refs v → dp ∈ iv_locked v →
  (1 ≤ fuel)%nat → i_size (il_inode s dp) ≤ off + DIRENT * (Z.of_nat fuel - 1) →
  (∀ b s', il_rel s' v → Q b s') →
  wpe (isdirempty_loop fuel dp off) Q fs_panic s.
Proof.
  unfold DIRENT. induction fuel as [|fuel IH]; intros s off Q H Hr Hl H1 Hf HQ; [lia|].
  cbn [isdirempty_loop]. unfold DIRENT.
  il_step. destruct (Z.ltb_spec off (i_size (il_inode s dp))); [|by apply wpe_wp, wp_ret, HQ].
  apply wpe_bind_e. eapply wpe_low, il_readi_law; [done|done|]. intros [de r] s1 Hs1 Hsz.
  destruct (negb (r =? 16)); [by apply fs_panic_in|].
  destruct (negb (de_inum de =? 0)); [by apply wpe_wp, wp_ret, HQ|].
  apply IH; try done; [lia|]. rewrite Hsz. lia.
Qed.

Lemma wpe_isdirempty s v dp (Q : bool → I → Prop) :
  il_rel s v → dp ∈ iv_refs v → dp ∈ iv_locked v →
  (∀ b s', il_rel s' v → Q b s') → wpe (isdirempty dp) Q fs_panic s.
Proof.
  intros H Hr Hl HQ. unfold isdirempty. il_step.
  eapply wpe_isdirempty_loop; [done|done|done|lia| |done].
  unfold DIRENT. set (z := i_size _).
  assert (z ≤ 16 * (z / 16) + 15) by zdm. lia.
Qed.

Lemma wpe_unlink_bad s v dp (Q : Z → I → Prop) :
  il_rel s v → iv_tx v = true → iv_locked v = {[dp]} → dp ∈ iv_refs v →
  (∀ s', il_rel s' (iv_settx false (iv_unref dp (iv_unlock dp v))) → Q (-1) s') →
  wpe (unlink_bad dp) Q fs_panic s.
Proof.
  intros H Htx Hl Hr HQ. unfold unlink_bad. do 2 il_step. wstep. by apply HQ.
Qed.

(** Giving back the lower one of two locked inodes. *)
Lemma iv_put_under ip dp v :
  ip ≠ dp → dp ∉ iv_locked v →
  iv_unref dp (iv_unlock dp (iv_lock ip (iv_ref ip (iv_lock dp (iv_ref dp v))))) =
  iv_lock ip (iv_ref ip v).
Proof.
  intros Hne Hl. destruct v as [r l e t]. unfold iv_unref, iv_unlock, iv_lock, iv_ref. simpl in *.
  f_equal; [multiset_solver|set_solver].
Qed.

Lemma iv_put_under_ref ip dp v :
  dp ∉ iv_locked v →
  iv_unref dp (iv_unlock dp (iv_ref ip (iv_lock dp (iv_ref dp v)))) = iv_ref ip v.
Proof.
  intros Hl. destruct v as [r l e t]. unfold iv_unref, iv_unlock, iv_lock, iv_ref. simpl in *.
  f_equal; [multiset_solver|set_solver].
Qed.

(** The tail of sys_unlink, with dp and ip locked. *)
Lemma wpe_unlink_tail s v ip dp (b : bool) (Q : Z → I → Prop) :
  il_rel s (iv_lock ip (iv_ref ip (iv_lock dp (iv_ref dp v)))) →
  iv_tx v = true → iv_locked v = ∅ → ip ≠ dp →
  (∀ s', il_rel s' (iv_settx false v) → Q 0 s') →
  wpe ((if b then
          il_updi dp (λ d, w_nlink (i16 (i_nlink d - 1)) d) ;; il_iupdate dp
        else mret tt) ;;
       il_iunlockput dp ;;
       il_updi ip (λ i, w_nlink (i16 (i_nlink i - 1)) i) ;;
       il_iupdate ip ;;
       il_iunlockput ip ;;
       il_end_op ;;
       mret 0) Q fs_panic s.
Proof.
  intros H Htx Hl Hne HQ. set (w := iv_lock ip _) in *. apply wpe_bind_e.
  eapply (wpe_mono _ (λ _ s', il_rel s' w) _ fs_panic); [| |done].
  { destruct b; [|by wstep]. il_step. eapply wpe_low, il_iupdate_law; [eassumption|done|iv_side|done]. }
  intros _ s1 H1. clear H. unfold w in *. il_step. rewrite iv_put_under in * by iv_side.
  do 4 il_step. wstep. by apply HQ.
Qed.

Lemma wpe_unlink_tx s v cwd path (Q : Z → I → Prop) :
  il_rel s v → iv_tx v = false → iv_locked v = ∅ → cwd ∈ iv_refs v →
  (∀ r s', r = 0 ∨ r = -1 → il_rel s' v → Q r s') → wpe (unlink_tx cwd path) Q fs_panic s.
Proof.
  intros H Htx Hl Hc HQ. unfold unlink_tx. do 2 il_step.
  { il_step. wstep. by apply HQ; [right|]. }
  il_step. assert (Hbad : ∀ s, il_rel s (iv_lock dp (iv_ref dp (iv_settx true v))) →
                     wpe (unlink_bad dp) Q fs_panic s).
  { intros t Ht. eapply wpe_unlink_bad; [exact Ht|iv_side..|]. intros t' Ht'. apply HQ; [by right|].
    rewrite iv_lock_unlock, iv_ref_unref, iv_tx_back in Ht' by iv_side. done. }
  destruct ((namecmp name DOT =? 0) || (namecmp name DOTDOT =? 0)) eqn:Edot; [by apply Hbad|].
  apply orb_false_iff in Edot as [E1%Z.eqb_neq E2%Z.eqb_neq].
  apply wpe_bind_e. eapply wpe_low, il_dirlookup_law; [eassumption|iv_side|by apply Hbad|].
  drop_rels. intros ip off t Hne Ht. specialize (Hne E1 E2).
  do 2 il_step. destruct (_ <? 1); [by apply fs_panic_in|]. apply wpe_bind_e.
  set (w := iv_lock ip _) in *.
  eapply (wpe_mono _ (λ _ s', il_rel s' w) _ fs_panic); [|drop_rels; intros busy t1 Ht1|done].
  { destruct (_ =? T_DIR); [|by apply wpe_wp, wp_ret].
    apply wpe_bind_e. eapply wpe_isdirempty; [eassumption|iv_side|iv_side|].
    intros e t1 Ht1. wstep. exact Ht1. }
  subst w. destruct busy.
  { il_step. by apply Hbad. }
  apply wpe_bind_e. eapply wpe_low, il_writei_law; [exact Ht1|iv_side|iv_side|]. intros r t2 _ Ht2. clear Ht1.
  destruct (negb _); [by apply fs_panic_in|].
  eapply wpe_unlink_tail; [exact Ht2|iv_side..|]. intros t3 Ht3. apply HQ; [by left|].
  by rewrite iv_tx_back in Ht3.
Qed.

(** create, inside a transaction: the inode it returns is locked and has one
    more reference. *)
Lemma wpe_create s v cwd path type major minor (Q : option nat → I → Prop) :
  il_rel s v → iv_tx v = true → iv_locked v = ∅ → cwd ∈ iv_refs v →
  (∀ s', il_rel s' v → Q None s') →
  (∀ ip s', il_rel s' (iv_lock ip (iv_ref ip v)) → Q (Some ip) s') →
  wpe (create cwd path type major minor) Q fs_panic s.
Proof.
  intros H Htx Hl Hc HN HS. unfold create. il_step.
  { wstep. by apply HN. }
  il_step. apply wpe_bind_e. eapply wpe_low, il_dirlookup_law; [eassumption|iv_side|..]; drop_rels.
  - intros t Ht. il_step. apply wpe_bind_e. eapply wpe_low, il_ialloc_law; [eassumption|iv_side|].
    drop_rels. intros ip t1 Hnl Ht1. do 3 il_step. set (w := iv_lock ip _) in *. apply wpe_bind_e.
    eapply (wpe_mono _ (λ _ s', il_rel s' w) _ fs_panic); [|drop_rels; intros _ t2 Ht2|done].
    { destruct (_ =? T_DIR); [|by apply wpe_wp, wp_ret]. unfold w in *. do 4 il_step.
      destruct (_ <? 0); [by apply fs_panic_in|]. do 2 il_step.
      destruct (_ <? 0); [by apply fs_panic_in|]. by apply wpe_wp, wp_ret. }
    unfold w in *. do 2 il_step. destruct (_ <? 0); [by apply fs_panic_in|].
    il_step. rewrite iv_put_under in * by iv_side. wstep. by apply HS.
  - intros ip off t _ Ht. il_step.
    rewrite iv_put_under_ref in * by iv_side. do 2 il_step. destruct (_ && _).
    + wstep. by apply HS.
    + il_step. wstep. by apply HN.
Qed.

Lemma wpe_open_inode s v cwd path omode (Q : option nat → I → Prop) :
  il_rel s v → iv_tx v = false → iv_locked v = ∅ → cwd ∈ iv_refs v →
  (∀ s', il_rel s' v → Q None s') →
  (∀ ip s', il_rel s' (iv_lock ip (iv_ref ip (iv_settx true v))) → Q (Some ip) s') →
  wpe (open_inode cwd path omode) Q fs_panic s.
Proof.
  intros H Htx Hl Hc HN HS. unfold open_inode. il_step. destruct (negb _).
  - apply wpe_bind_e. eapply wpe_create; [eassumption|iv_side..| |]; drop_rels.
    + intros t Ht. il_step. wstep. by apply HN.
    + intros ip t Ht. wstep. by apply HS.
  - il_step.
    { il_step. wstep. by apply HN. }
    do 2 il_step. destruct (_ && _).
    + do 2 il_step. wstep. by apply HN.
    + wstep. by apply HS.
Qed.

Lemma wpe_create_tx s v cwd path type major minor (Q : Z → I → Prop) :
  il_rel s (iv_settx true v) → iv_tx v = false → iv_locked v = ∅ → cwd ∈ iv_refs v →
  (∀ r s', r = 0 ∨ r = -1 → il_rel s' v → Q r s') →
  wpe (create_tx cwd path type major minor) Q fs_panic s.
Proof.
  intros H Htx Hl Hc HQ. unfold create_tx. apply wpe_bind_e.
  eapply wpe_create; [eassumption|iv_side..| |]; drop_rels.
  - intros t Ht. il_step. wstep. by apply HQ; [right|].
  - intros ip t Ht. do 2 il_step. wstep. by apply HQ; [left|].
Qed.

Lemma wpe_chdir_tx s v cwd path (Q : option nat → I → Prop) :
  il_rel s (iv_settx true v) → iv_tx v = false → iv_locked v = ∅ → cwd ∈ iv_refs v →
  (∀ s', il_rel s' v → Q None s') →
  (∀ ip s', il_rel s' (iv_unref cwd (iv_ref ip v)) → Q (Some ip) s') →
  wpe (chdir_tx cwd path) Q fs_panic s.
Proof.
  intros H Htx Hl Hc HN HS. unfold chdir_tx. il_step.
  { il_step. wstep. by apply HN. }
  do 2 il_step. destruct (negb _).
  - do 2 il_step. wstep. by apply HN.
  - do 3 il_step. wstep. apply HS. il_done v.
Qed.
End tx_facts.

(** ** Descriptors *)

Definition pix (z : Z) : option nat := if z =? 0 then None else Some (idx z).

(** The references to open files and to current directories, of all
    processes. *)
Definition ofds (p : proc) : list nat := omap pix (p_ofile p).
Definition fds (ps : list proc) : gmultiset nat := list_to_set_disj (ps ≫= ofds).
Definition cwds (ps : list proc) : gmultiset nat := list_to_set_disj (omap (λ p, pix (p_cwd p)) ps).

Lemma pix_ptr f : pix (ptr f) = Some f.
Proof. unfold pix, ptr, idx. destruct (Z.eqb_spec (Z.of_nat f + 1) 0); [lia|]. f_equal. lia. Qed.

Lemma bind_insert {A} `{Countable B} (h : A → list B) (l : list A) i x y :
  l !! i = Some y →
  list_to_set_disj (h y) ⊎ list_to_set_disj (<[i := x]> l ≫= h) =@{gmultiset B}
  list_to_set_disj (h x) ⊎ list_to_set_disj (l ≫= h).
Proof.
  intros Hi. pose proof (insert_perm l i x y Hi) as Hp.
  rewrite <-!list_to_set_disj_app. change (h y ++ (?k ≫= h)) with ((y :: k) ≫= h).
  change (h x ++ (l ≫= h)) with ((x :: l) ≫= h). by rewrite <-Hp.
Qed.

Lemma fds_set ps c p fd a z :
  ps !! c = Some p → p_ofile p !! fd = Some a →
  fds (<[c := w_ofile (<[fd := z]> (p_ofile p)) p]> ps) ⊎ oset (pix a) = fds ps ⊎ oset (pix z).
Proof.
  intros Hc Hf. pose proof (bind_insert ofds ps c (w_ofile (<[fd := z]> (p_ofile p)) p) p Hc) as H1.
  pose proof (omap_insert_ms pix (p_ofile p) fd z a Hf) as H2.
  unfold fds. unfold ofds at 1 3 in H1. simpl in H1.
  revert H1 H2. generalize (list_to_set_disj (omap pix (p_ofile p)) : gmultiset nat).
  generalize (list_to_set_disj (omap pix (<[fd := z]> (p_ofile p))) : gmultiset nat).
  intros. multiset_solver.
Qed.

Lemma cwds_same ps c p q :
  ps !! c = Some p → p_cwd q = p_cwd p → cwds (<[c := q]> ps) = cwds ps.
Proof.
  intros Hc Hq. pose proof (omap_insert_ms (λ p, pix (p_cwd p)) ps c q p Hc) as H.
  cbv beta in H. rewrite Hq in H. unfold cwds. multiset_solver.
Qed.

Lemma fds_same ps c p q :
  ps !! c = Some p → p_ofile q = p_ofile p → fds (<[c := q]> ps) = fds ps.
Proof.
  intros Hc Hq. pose proof (bind_insert ofds ps c q p Hc) as H.
  unfold ofds at 1 3 in H. rewrite Hq in H. unfold fds. multiset_solver.
Qed.

Lemma fds_elem ps c p fd z :
  ps !! c = Some p → p_ofile p !! fd = Some z → z ≠ 0 → idx z ∈ fds ps.
Proof.
  intros Hc Hf Hz. apply elem_of_list_to_set_disj, list_elem_of_bind. exists p.
  split; [|by eapply list_elem_of_lookup_2]. apply list_elem_of_omap. exists z.
  split; [by eapply list_elem_of_lookup_2|]. unfold pix. by rewrite (proj2 (Z.eqb_neq z 0) Hz).
Qed.

Lemma cwds_elem ps c p : ps !! c = Some p → p_cwd p ≠ 0 → idx (p_cwd p) ∈ cwds ps.
Proof.
  intros Hc Hz. apply elem_of_list_to_set_disj, list_elem_of_omap. exists p.
  split; [by eapply list_elem_of_lookup_2|]. unfold pix. by rewrite (proj2 (Z.eqb_neq _ 0) Hz).
Qed.

(** ** The state between system calls *)

Section sysfile_facts.
Context {I : Type} `{!InodeLayer I}.
Abbreviation st := (pstate (kenv I)).
Implicit Types (s : st) (v : iview).

(** The running process can make file-system calls. *)
Definition can_call (c : nat) (p : proc) s : Prop :=
  running c p s ∧ length (p_ofile p) = NOFILE ∧ p_cwd p ≠ 0.

(** Nothing is held but by a descriptor or a current directory: every open
    file has as many references as descriptors of all processes point to it,
    every inode as many as open files and current directories, every pipe
    end belongs to the open file for it; no inode is locked and no
    transaction is open. *)
Record balanced s v : Prop := {
  ba_f : fok (penv s) ∅ v (fds (procs s)) (cwds (procs s));
  ba_run : ∃ c p, can_call c p s;
  ba_locked : iv_locked v = ∅;
  ba_tx : iv_tx v = false;
}.
Definition sys_ok s : Prop := ∃ v, balanced s v.

Lemma wpe_envr {A} (m : M (kenv I) A) (Q : A → st → Prop) E s :
  wpe m (λ a e, Q a (set_penv e s)) E (penv s) → wpe (env m) Q E s.
Proof. unfold wpe, env. by destruct (m (penv s)). Qed.

Lemma wpe_k {A} (m : M I A) (Q : A → st → Prop) E s :
  wpe m (λ a i, Q a (set_penv (set_i i (penv s)) s)) E (ke_i (penv s)) → wpe (k m) Q E s.
Proof. unfold wpe, k, env, il. by destruct (m (ke_i (penv s))). Qed.

(** A call below the process table that keeps the references. *)
Lemma balanced_env s v e :
  balanced s v → fok e ∅ v (fds (procs s)) (cwds (procs s)) → balanced (set_penv e s) v.
Proof. intros [H1 H2 H3 H4] He. by split. Qed.

Lemma balanced_i s v i : balanced s v → il_rel i v → balanced (set_penv (set_i i (penv s)) s) v.
Proof. intros H Hi. apply balanced_env; [done|]. apply fok_set_i_same; [apply H|done]. Qed.

Lemma balanced_mem s v m : balanced s v → balanced (set_penv (set_umem m (penv s)) s) v.
Proof. intros H. apply balanced_env; [done|]. by destruct (ba_f _ _ H). Qed.

Lemma wp_setmem s v a bs (Q : unit → st → Prop) :
  balanced s v → (∀ s', balanced s' v → Q tt s') → wp (setmem a bs) Q s.
Proof. intros H HQ. unfold setmem. wstep. by apply HQ, balanced_mem. Qed.

Lemma wp_mycwd c p s (Q : nat → st → Prop) :
  running c p s → Q (idx (p_cwd p)) s → wp mycwd Q s.
Proof. intros H HQ. unfold mycwd. wstep. eapply wp_myp; [done|]. by wstep. Qed.

Lemma cwd_in s v c p : balanced s v → can_call c p s → idx (p_cwd p) ∈ iv_refs v.
Proof.
  intros H ([_ Hp] & Hl & Hc).
  rewrite (to_inos _ _ _ _ _ (fk_tab _ _ _ _ _ (ba_f _ _ H))).
  apply gmultiset_elem_of_disj_union. right. by eapply cwds_elem.
Qed.

Lemma wp_argfd n c p s (Q : option (nat * nat) → st → Prop) :
  can_call c p s → Q None s →
  (∀ fd z, p_ofile p !! fd = Some z → z ≠ 0 → idx z ∈ fds (procs s) → Q (Some (fd, idx z)) s) →
  wp (argfd n) Q s.
Proof.
  intros (Hr & Hl & Hc) HN HS. unfold argfd. wstep. eapply wp_argint_any; [done|].
  intros [fd|]; [|by wstep]. wstep. eapply wp_myp; [done|].
  destruct (Z.ltb_spec fd 0); [by wstep|]. destruct (Z.leb_spec (Z.of_nat NOFILE) fd); [by wstep|].
  simpl. destruct (lookup_lt_is_Some_2 (p_ofile p) (Z.to_nat fd)) as [z Hz]; [lia|].
  wstep. eapply wp_deref; [exact Hz|].
  destruct (Z.eqb_spec z 0); [by wstep|]. wstep. apply HS; try done.
  destruct Hr as [_ Hp]. by eapply fds_elem.
Qed.

(** Writing slot [fd]. *)
Definition set_ofile (c fd : nat) (z : Z) (p : proc) s : st :=
  set_procs (<[c := w_ofile (<[fd := z]> (p_ofile p)) p]> (procs s)) s.

Lemma wp_set_fd c p fd z s (Q : unit → st → Prop) :
  running c p s → Q tt (set_ofile c fd z p s) → wp (set_fd fd z) Q s.
Proof.
  intros [H1 H2] HQ. unfold set_fd. wstep. eapply wp_myproc; [done|]. by eapply wp_updp.
Qed.

Lemma running_set c p fd z s :
  running c p s → running c (w_ofile (<[fd := z]> (p_ofile p)) p) (set_ofile c fd z p s).
Proof.
  intros [H1 H2]. split; [done|]. simpl. apply list_lookup_insert_eq. by eapply lookup_lt_Some.
Qed.

Lemma can_call_set c p fd z s :
  can_call c p s → can_call c (w_ofile (<[fd := z]> (p_ofile p)) p) (set_ofile c fd z p s).
Proof.
  intros (H1 & H2 & H3). split_and!; [by apply running_set|simpl; by rewrite length_insert|done].
Qed.

Lemma free_fd_spec l i :
  match free_fd l i with
  | Some fd => (i ≤ fd)%nat ∧ l !! (fd - i)%nat = Some 0
  | None => 0 ∉ l
  end.
Proof.
  revert i. induction l as [|z l IH]; intros i; simpl; [by apply not_elem_of_nil|].
  destruct (Z.eqb_spec z 0) as [->|Hz]; [by rewrite Nat.sub_diag|].
  specialize (IH (S i)). destruct (free_fd l (S i)) as [fd|].
  - destruct IH as [H1 H2]. split; [lia|]. by replace (fd - i)%nat with (S (fd - S i)) by lia.
  - by apply not_elem_of_cons.
Qed.

(** fdalloc takes a free slot, or all of them are in use. *)
Lemma wp_fdalloc c p f s (Q : option nat → st → Prop) :
  can_call c p s → (0 ∉ p_ofile p → Q None s) →
  (∀ fd, p_ofile p !! fd = Some 0 →
     fds (procs (set_ofile c fd (ptr f) p s)) = {[+ f +]} ⊎ fds (procs s) →
     cwds (procs (set_ofile c fd (ptr f) p s)) = cwds (procs s) →
     Q (Some fd) (set_ofile c fd (ptr f) p s)) →
  wp (fdalloc f) Q s.
Proof.
  intros (Hr & Hl & Hc) HN HS. unfold fdalloc. wstep. eapply wp_myp; [done|].
  pose proof (free_fd_spec (p_ofile p) 0) as H. destruct (free_fd (p_ofile p) 0) as [fd|].
  - destruct H as [_ H]. rewrite Nat.sub_0_r in H. wstep. eapply wp_set_fd; [done|]. wstep.
    destruct Hr as [H1 H2]. apply HS; [done| |simpl; by eapply cwds_same].
    simpl. pose proof (fds_set (procs s) c p fd 0 (ptr f) H2 H) as E. rewrite pix_ptr in E.
    simpl in E. multiset_solver.
  - wstep. by apply HN.
Qed.

Abbreviation keeps m := (∀ s, sys_ok s → wpe m (λ _ s', sys_ok s') fs_panic s).

Lemma sys_ok_i s v i : balanced s v → il_rel i v → sys_ok (set_penv (set_i i (penv s)) s).
Proof. intros H Hi. exists v. by apply balanced_i. Qed.

Lemma keep_dup : keeps sys_dup.
Proof.
  intros s [v H]. destruct (ba_run _ _ H) as (c & p & Hc). unfold sys_dup. wstep.
  eapply wpe_wp, wp_argfd; [done|wstep; by exists v|]. intros fd z Hfd Hz Hin. wstep.
  eapply wpe_wp, wp_fdalloc; [done|intros _; wstep; by exists v|]. intros fd' Hfree Hf Hw. wstep.
  apply wpe_envr. eapply wpe_wp, wp_filedup; [apply H|done|]. intros e He. wstep. exists v.
  destruct H as [_ _ H3 H4]. split; [|by eexists c, _; apply can_call_set|done|done].
  simpl in *. by rewrite Hf, Hw.
Qed.

Lemma keep_close : keeps sys_close.
Proof.
  intros s [v H]. destruct (ba_run _ _ H) as (c & p & Hc). unfold sys_close. wstep.
  eapply wpe_wp, wp_argfd; [done|wstep; by exists v|]. intros fd z Hfd Hz Hin. wstep.
  eapply wpe_wp, wp_set_fd; [apply Hc|]. wstep. apply wpe_envr.
  eapply wpe_fileclose; [apply H|done|right; by destruct H|]. intros v' e [Hl Ht] _ _ He.
  wstep. exists v'. destruct Hc as ([Hcur Hp] & Hlen & Hcwd).
  split; [|by eexists c, _; apply can_call_set|by rewrite Hl; apply H|by rewrite Ht; apply H].
  simpl. rewrite (cwds_same _ c p) by done.
  replace (fds (<[c := _]> (procs s))) with (fds (procs s) ∖ {[+ idx z +]}); [done|].
  pose proof (fds_set (procs s) c p fd z 0 Hp Hfd) as E. simpl in E.
  unfold pix in E at 1. rewrite (proj2 (Z.eqb_neq z 0) Hz) in E. simpl in E. multiset_solver.
Qed.

Lemma wp_arg_rw s v (Q : option (nat * Z * Z) → st → Prop) :
  balanced s v → Q None s → (∀ f n a, f ∈ fds (procs s) → Q (Some (f, n, a)) s) → wp arg_rw Q s.
Proof.
  intros H HN HS. destruct (ba_run _ _ H) as (c & p & Hc). unfold arg_rw. wstep.
  eapply wp_argfd; [done|by wstep|]. intros fd z Hfd Hz Hin. wstep.
  eapply wp_argint_any; [apply Hc|]. intros [n|]; [|by wstep]. wstep.
  eapply wp_argptr_any; [apply Hc|]. intros [a|]; wstep; auto.
Qed.

Lemma keep_read : keeps sys_read.
Proof.
  intros s [v H]. unfold sys_read. wstep. eapply wpe_wp, wp_arg_rw; [done|wstep; by exists v|].
  intros f n a Hf. wstep. apply wpe_envr. eapply wpe_fileread; [apply H|done|set_solver|apply H|].
  intros [bs r] e He. wstep. eapply wpe_wp, wp_setmem; [by apply balanced_env|].
  intros s' Hs'. wstep. by exists v.
Qed.

Lemma keep_write : keeps sys_write.
Proof.
  intros s [v H]. unfold sys_write. wstep. eapply wpe_wp, wp_arg_rw; [done|wstep; by exists v|].
  intros f n a Hf. wstep. wstep. apply wpe_envr.
  eapply wpe_filewrite; [apply H|done|set_solver|apply H|apply H|].
  intros r e He. exists v. by apply balanced_env.
Qed.

Lemma keep_fstat : keeps sys_fstat.
Proof.
  intros s [v H]. destruct (ba_run _ _ H) as (c & p & Hc). unfold sys_fstat. wstep.
  eapply wpe_wp, wp_argfd; [done|wstep; by exists v|]. intros fd z Hfd Hz Hin. wstep.
  eapply wpe_wp, wp_argptr_any; [apply Hc|]. intros [a|]; [|wstep; by exists v]. wstep. apply wpe_envr.
  eapply wpe_filestat; [apply H|done|apply H|]. intros [o r] e He.
  pose proof (balanced_env _ _ _ H He) as H0.
  destruct o as [[[[[type dev] ino] nlink] size]|]; [|wstep; by exists v].
  do 5 (wstep; eapply wpe_wp, wp_setmem; [eassumption|]; intros ? ?). wstep. by exists v.
Qed.

Lemma keep_link : keeps sys_link.
Proof.
  intros s [v H]. destruct (ba_run _ _ H) as (c & p & Hc). unfold sys_link. wstep.
  eapply wpe_wp, wp_argstr_any; [apply Hc|]. intros [old|]; [|wstep; by exists v]. wstep.
  eapply wpe_wp, wp_argstr_any; [apply Hc|]. intros [new|]; [|wstep; by exists v]. wstep.
  eapply wpe_wp, wp_mycwd; [apply Hc|]. apply wpe_k.
  eapply wpe_link_tx; [apply H|apply H|apply H|by eapply cwd_in|]. intros r i _ Hi. by eapply sys_ok_i.
Qed.

Lemma keep_unlink s : sys_ok s → wpe sys_unlink (λ _ s', sys_ok s') fs_panic s.
Proof.
  intros [v H]. destruct (ba_run _ _ H) as (c & p & Hc). unfold sys_unlink. apply wpe_bind_e.
  eapply wpe_wp, wp_argstr_any; [apply Hc|]. intros [path|]; [|wstep; by exists v].
  apply wpe_bind_e. eapply wpe_wp, wp_mycwd; [apply Hc|]. apply wpe_k.
  eapply wpe_unlink_tx; [apply H|apply H|apply H|by eapply cwd_in|]. intros r i _ Hi. by eapply sys_ok_i.
Qed.

(** mkdir, mknod and chdir open the transaction before they look at their
    arguments. *)
Lemma wpe_begin s v (Q : unit → st → Prop) :
  balanced s v →
  (∀ i, il_rel i (iv_settx true v) → Q tt (set_penv (set_i i (penv s)) s)) → wpe (k il_begin_op) Q fs_panic s.
Proof.
  intros H HQ. apply wpe_k. eapply wpe_low, il_begin_op_law; [apply H|apply H|apply H|]. done.
Qed.

Lemma wpe_bad_arg s v i :
  balanced s v → il_rel i (iv_settx true v) →
  wpe (k il_end_op ;; mret (-1)) (λ _ s', sys_ok s') fs_panic (set_penv (set_i i (penv s)) s).
Proof.
  intros H Hi. wstep. apply wpe_k. eapply wpe_low, il_end_op_law; [exact Hi|done|apply H|].
  intros i2 H2. wstep. rewrite iv_tx_back in H2 by apply H. by eapply (sys_ok_i s).
Qed.

Lemma wpe_create_call s v i c p path type major minor :
  balanced s v → can_call c p s → il_rel i (iv_settx true v) →
  wpe (cwd ← mycwd; k (create_tx cwd path type major minor)) (λ _ s', sys_ok s') fs_panic
    (set_penv (set_i i (penv s)) s).
Proof.
  intros H Hc Hi. apply wpe_bind_e. eapply wpe_wp, wp_mycwd; [apply Hc|]. apply wpe_k.
  eapply wpe_create_tx; [exact Hi|apply H|apply H|by eapply cwd_in|].
  intros r i2 _ Hi2. by eapply (sys_ok_i s).
Qed.

Lemma keep_mkdir s : sys_ok s → wpe sys_mkdir (λ _ s', sys_ok s') fs_panic s.
Proof.
  intros [v H]. destruct (ba_run _ _ H) as (c & p & Hc). unfold sys_mkdir. apply wpe_bind_e.
  eapply wpe_begin; [done|]. intros i Hi. apply wpe_bind_e.
  eapply wpe_wp, wp_argstr_any; [apply Hc|]. intros [path|]; [|by eapply wpe_bad_arg].
  by eapply wpe_create_call.
Qed.

Lemma keep_mknod s : sys_ok s → wpe sys_mknod (λ _ s', sys_ok s') fs_panic s.
Proof.
  intros [v H]. destruct (ba_run _ _ H) as (c & p & Hc). unfold sys_mknod. apply wpe_bind_e.
  eapply wpe_begin; [done|]. intros i Hi. apply wpe_bind_e.
  eapply wpe_wp, wp_argstr_any; [apply Hc|]. intros [path|]; [|by eapply wpe_bad_arg].
  apply wpe_bind_e. eapply wpe_wp, wp_argint_any; [apply Hc|].
  intros [maj|]; [|by eapply wpe_bad_arg].
  apply wpe_bind_e. eapply wpe_wp, wp_argint_any; [apply Hc|].
  intros [min|]; [|by eapply wpe_bad_arg].
  by eapply wpe_create_call.
Qed.

Lemma keep_chdir : keeps sys_chdir.
Proof.
  intros s [v H]. destruct (ba_run _ _ H) as (c & p & Hc). unfold sys_chdir. wstep.
  eapply wpe_begin; [done|]. intros i Hi. wstep.
  eapply wpe_wp, wp_argstr_any; [apply Hc|]. intros [path|]; [|by eapply wpe_bad_arg].
  wstep. eapply wpe_wp, wp_mycwd; [apply Hc|]. wstep. apply wpe_k.
  pose proof (cwd_in _ _ _ _ H Hc) as Hin.
  eapply wpe_chdir_tx; [exact Hi|apply H|apply H|done| |].
  { intros i2 H2. wstep. by eapply (sys_ok_i s). }
  intros ip i2 H2. destruct Hc as ([Hcur Hp] & Hl & Hc).
  wstep. eapply wpe_wp, wp_myproc; [done|]. wstep. eapply wpe_wp, wp_updp; [exact Hp|]. wstep.
  exists (iv_unref (idx (p_cwd p)) (iv_ref ip v)). split; [| |apply H|apply H].
  - simpl. rewrite (fds_same _ c p) by done. eapply (fok_set_i (penv s) ∅ v); [apply H|done| |done].
    pose proof (omap_insert_ms (λ p, pix (p_cwd p)) (procs s) c (w_cwd (ptr ip) p) p Hp) as E.
    cbv beta in E. simpl in E. rewrite pix_ptr in E. unfold pix in E at 2.
    rewrite (proj2 (Z.eqb_neq _ 0) Hc) in E. simpl in *. unfold cwds. multiset_solver.
  - exists c, (w_cwd (ptr ip) p). split_and!; [|done|simpl; unfold ptr; lia].
    split; [done|]. simpl. apply list_lookup_insert_eq. by eapply lookup_lt_Some.
Qed.

(** sys_open gives up: the locked inode goes back. *)
Lemma wpe_open_fail s v ip e :
  balanced s v →
  fok e ∅ (iv_lock ip (iv_ref ip (iv_settx true v))) (fds (procs s)) ({[+ ip +]} ⊎ cwds (procs s)) →
  wpe (k (il_iunlockput ip) ;; k il_end_op ;; mret (-1)) (λ _ s', sys_ok s') fs_panic (set_penv e s).
Proof.
  intros H He. pose proof (ba_locked _ _ H) as Hl. wstep. apply wpe_k. simpl.
  eapply wpe_iunlockput; [apply He|done|iv_side|iv_side|]. intros i1 H1.
  rewrite iv_lock_unlock, iv_ref_unref in H1 by iv_side. wstep. apply wpe_k.
  eapply wpe_low, il_end_op_law; [exact H1|done|done|]. intros i2 H2. rewrite iv_tx_back in H2 by apply H.
  wstep. exists v. destruct H as [_ H3 _ H4]. split; [|done|done|done].
  simpl. eapply (fok_set_i e); [exact He|done| |done]. simpl. multiset_solver.
Qed.

Lemma wpe_open_fd s v c p ip omode i :
  balanced s v → can_call c p s → il_rel i (iv_lock ip (iv_ref ip (iv_settx true v))) →
  wpe (open_fd ip omode) (λ _ s', sys_ok s') fs_panic (set_penv (set_i i (penv s)) s).
Proof.
  intros H Hc Hi. set (w := iv_lock ip _) in *. unfold open_fd. wstep. apply wpe_envr.
  apply wpe_wp; eapply (wp_filealloc _ ∅ w (fds (procs s)) ({[+ ip +]} ⊎ cwds (procs s))).
  { simpl. eapply (fok_set_i (penv s) ∅ v); [apply H|done| |done]. simpl. multiset_solver. }
  { intros e _ He. by eapply (wpe_open_fail s v). }
  intros f e Hf _ Hfr He. wstep. eapply wpe_wp, wp_fdalloc; [apply Hc|intros _|].
  { wstep. apply wpe_envr. eapply wpe_fileclose_fresh; [exact He|multiset_solver|done|].
    intros e2 _ He2. eapply (wpe_open_fail s v); [done|].
    replace (fds (procs s)) with (({[+ f +]} ⊎ fds (procs s)) ∖ {[+ f +]}) by multiset_solver.
    by replace (∅ : gset nat) with (({[f]} ∪ ∅ : gset nat) ∖ {[f]}) by set_solver. }
  simpl. intros fd Hfree Hfds Hcwds.
  wstep. apply wpe_k. eapply wpe_low, il_iunlock_law; [apply He|iv_side|iv_side|]. intros i1 H1.
  unfold w in H1. rewrite iv_lock_unlock in H1 by (simpl; by rewrite (ba_locked _ _ H)).
  wstep. apply wpe_k. eapply wpe_low, il_end_op_law; [exact H1|done|apply H|]. intros i2 H2.
  assert (il_rel i2 (iv_ref ip v)) as H3.
  { replace (iv_ref ip v) with (iv_settx false (iv_ref ip (iv_settx true v))); [done|].
    destruct H as [_ _ _ Ht]. destruct v. simpl in *. by subst. }
  destruct Hfr as (x & Hx & Hn & Hr). wstep. apply wpe_envr. eapply wpe_wp, wp_updf; [exact Hx|]. wstep.
  exists (iv_ref ip v). split; [|by eexists c, _; apply can_call_set|apply H|apply H].
  split; [apply He|exact H3|]. simpl. rewrite Hfds, Hcwds.
  pose proof (tab_open (ft_file e) ({[f]} ∪ ∅) (iv_ref ip v) ({[+ f +]} ⊎ fds (procs s))
    ({[+ ip +]} ⊎ cwds (procs s)) f x (open_file ip omode x)) as Ht. simpl in Ht.
  replace (∅ : gset nat) with (({[f]} ∪ ∅ : gset nat) ∖ {[f]}) by set_solver.
  replace (cwds (procs s)) with (({[+ ip +]} ⊎ cwds (procs s)) ∖ {[+ ip +]}) by multiset_solver.
  apply Ht; [|done|done|done|by rewrite Hr|done|multiset_solver].
  eapply tab_view; [apply He|done|done].
Qed.

Lemma keep_open s : sys_ok s → wpe sys_open (λ _ s', sys_ok s') fs_panic s.
Proof.
  intros [v H]. destruct (ba_run _ _ H) as (c & p & Hc). unfold sys_open. apply wpe_bind_e.
  eapply wpe_wp, wp_argstr_any; [apply Hc|]. intros [path|]; [|wstep; by exists v].
  apply wpe_bind_e. eapply wpe_wp, wp_argint_any; [apply Hc|].
  intros [omode|]; [|wstep; by exists v].
  apply wpe_bind_e. eapply wpe_wp, wp_mycwd; [apply Hc|]. apply wpe_bind_e, wpe_k.
  eapply wpe_open_inode; [apply H|apply H|apply H|by eapply cwd_in| |].
  - intros i Hi. wstep. by eapply sys_ok_i.
  - intros ip i Hi. by eapply wpe_open_fd.
Qed.

(** sys_pipe gives up: the two new files are closed. *)
Lemma wpe_pipe_fail s v v' rf wf e :
  balanced s v → same_ctl v v' → rf ∉ fds (procs s) → wf ∉ fds (procs s) →
  fok e ∅ v' ({[+ wf +]} ⊎ ({[+ rf +]} ⊎ fds (procs s))) (cwds (procs s)) →
  wpe (env (fileclose rf) ;; env (fileclose wf) ;; mret (-1)) (λ _ s', sys_ok s') fs_panic (set_penv e s).
Proof.
  intros [H1 H2 H3 H4] [C1 C2] Hr Hw He. rewrite H3 in C1. rewrite H4 in C2.
  wstep. apply wpe_envr. eapply wpe_fileclose; [exact He|multiset_solver|by right|].
  intros v1 e1 [D1 D2] _ _ He1. wstep. apply wpe_envr.
  eapply wpe_fileclose; [exact He1|multiset_solver|right; by rewrite D1, D2|].
  intros v2 e2 [F1 F2] _ _ He2. wstep. exists v2.
  split; [|done|by rewrite F1, D1|by rewrite F2, D2]. simpl.
  replace (fds (procs s)) with
    ((({[+ wf +]} ⊎ ({[+ rf +]} ⊎ fds (procs s))) ∖ {[+ rf +]}) ∖ {[+ wf +]}) by multiset_solver.
  done.
Qed.

Lemma set_ofile_undo c fd z p s :
  procs s !! c = Some p → p_ofile p !! fd = Some 0 →
  set_ofile c fd 0 (w_ofile (<[fd := z]> (p_ofile p)) p) (set_ofile c fd z p s) = s.
Proof.
  intros Hp Hf. destruct s as [a b ps d e g h]. unfold set_ofile, set_procs. simpl in *. f_equal.
  rewrite !list_insert_insert_eq, (list_insert_id (p_ofile p)) by done.
  apply list_insert_id. rewrite Hp. by destruct p.
Qed.

Lemma keep_pipe : keeps sys_pipe.
Proof.
  intros s [v H]. destruct (ba_run _ _ H) as (c & p & Hc). unfold sys_pipe. wstep.
  eapply wpe_wp, wp_argptr_any; [apply Hc|]. intros [a|]; [|wstep; by exists v]. wstep. apply wpe_envr.
  eapply wpe_pipealloc; [apply H|intros e He; wstep; exists v; by apply balanced_env|].
  intros rf wf q e Hrf Hwf _ _ _ He. wstep.
  eapply wpe_wp, wp_fdalloc; [apply Hc|intros _|].
  { eapply (wpe_pipe_fail s v (iv_newpipe q v)); [done|done|done|done|exact He]. }
  simpl. intros fd0 Hfree0 Hfds0 Hcwds0. wstep.
  pose proof (can_call_set c p fd0 (ptr rf) s Hc) as Hc1.
  eapply wpe_wp, wp_fdalloc; [exact Hc1|intros _|simpl; intros fd1 Hfree1 Hfds1 Hcwds1].
  - wstep. eapply wpe_wp, wp_set_fd; [apply Hc1|].
    rewrite set_ofile_undo by (done || apply Hc).
    eapply (wpe_pipe_fail s v (iv_newpipe q v)); [done|done|done|done|exact He].
  - set (s2 := set_ofile _ _ _ _ _).
    assert (balanced s2 (iv_newpipe q v)) as H2.
    { destruct H as [_ _ H3 H4]. split; [|by eexists c, _; apply can_call_set|done|done].
      simpl. by rewrite Hfds1, Hcwds1, Hfds0, Hcwds0. }
    wstep. eapply wpe_wp, wp_setmem; [exact H2|]. intros s3 H3.
    wstep. eapply wpe_wp, wp_setmem; [exact H3|]. intros s4 H4. wstep. by eexists.
Qed.
End sysfile_facts.

(** ** Properties *)

(** The file-system calls that return to their caller; exec is in Exec. *)
Inductive fcall :=
  | Dup | Read | Write | Close | Fstat | Link | Unlink | Open | Mkdir | Mknod | Chdir | PipeC.

Definition fs_call {I} `{!InodeLayer I} (c : fcall) : M (pstate (kenv I)) Z :=
  match c with
  | Dup => sys_dup | Read => sys_read | Write => sys_write | Close => sys_close
  | Fstat => sys_fstat | Link => sys_link | Unlink => sys_unlink | Open => sys_open
  | Mkdir => sys_mkdir | Mknod => sys_mknod | Chdir => sys_chdir | PipeC => sys_pipe
  end.


(** ** Witnesses *)

(** An inode layer that only counts. *)
Definition cstate : Type := cpu * iview.
Definition cmod (f : iview → iview) : M cstate unit := modify (λ s, (s.1, f s.2)).
Definition cnamei (path : list Z) : M cstate (option nat) :=
  match path with [] => mret None | _ => cmod (iv_ref 1) ;; mret (Some 1%nat) end.
Definition cino : inode := mkInode 1 1 1 I_VALID T_DIR 0 0 1 48 [].

#[export] Instance cstate_cpu_ok : LensOk (mkLens fst (λ c (s : cstate), (c, s.2))).
Proof. split; try done. by intros []. Qed.

#[export] Program Instance count_layer : InodeLayer cstate := {|
  il_begin_op := cmod (iv_settx true);
  il_end_op := cmod (iv_settx false);
  il_namei cwd path := cnamei path;
  il_nameiparent cwd path := o ← cnamei path; mret (o, path);
  il_ialloc dev type :=
    ip ← gets (λ s : cstate, base.fresh (iv_locked s.2)); cmod (iv_ref ip) ;; mret (Some ip);
  il_geti ip := mret cino;
  il_updi ip f := mret tt;
  il_ilock ip := cmod (iv_lock ip);
  il_iunlock ip := cmod (iv_unlock ip);
  il_iput ip := cmod (iv_unref ip);
  il_iupdate ip := mret tt;
  il_readi ip off n := mret ([], n);
  il_writei ip src off n := mret n;
  il_dirlookup dp name := mret None;
  il_dirlink dp name inum := mret 0;
  il_pipenew := cmod (iv_newpipe 4096) ;; mret 4096;
  il_kfree p := mret tt;
  il_pipeclose p w := cmod (iv_closeend p w);
  il_piperead p n := mret ([], 0);
  il_pipewrite p src n := mret n;
  il_cpu := mkLens fst (λ c s, (c, s.2));
  il_inode s ip := cino;
  il_rel s v := s.2 = v ∧ cpu_ok s.1;
|}.
Solve All Obligations with
  (intros; simpl in *; destruct_and?; subst;
   repeat match goal with s : cstate |- _ => destruct s end;
   try match goal with |- context [cnamei ?p] => destruct p end;
   first [done | match goal with H : _ |- _ => apply H; solve [done | by left | by apply is_fresh] end]).

(** One process with descriptor 0 open on inode 2, in directory 1. *)
Definition sys_p0 : proc :=
  mkProc 4096 0 0 RUNNING 1 None tf_zero (mkCtx 0 0 0 0 0) 0 0 0
    (1 :: replicate 15 0) (ptr 1) [] 0.
Definition file0 : file := mkFile FD_INODE 1 true false 0 2 0.
Definition files0 : list file := file0 :: replicate 99 (mkFile FD_NONE 0 false false 0 0 0).
Definition view0 : iview := mkIv {[+ 2%nat; 1%nat +]} ∅ ∅ false.
Definition sys_s0 : pstate (kenv cstate) :=
  mkPs cpu0 lock0 [sys_p0] None 2 (Some 0%nat)
    (mkKe lock0 files0 lock0 0 (λ _, 0) (cpu0, view0)).

Lemma omap_none {A B} (g : A → option B) n x : g x = None → omap g (replicate n x) = [].
Proof. intros H. induction n as [|n IH]; simpl; [done|]. by rewrite H. Qed.

Lemma files0_ok n :
  tab_ok (file0 :: replicate n (mkFile FD_NONE 0 false false 0 0 0)) ∅ view0 {[+ 0%nat +]} {[+ 1%nat +]}.
Proof.
  split.
  - intros [|f] x; simpl; [by intros [= <-]|]. intros [-> _]%lookup_replicate.
    rewrite multiplicity_singleton_ne by done. done.
  - intros f Hf. assert (f = 0%nat) as -> by multiset_solver. simpl. lia.
  - intros [|f] x; simpl; [by intros [= <-]|]. by intros [-> _]%lookup_replicate.
  - intros [|f] x; simpl; [by intros [= <-]|]. by intros [-> _]%lookup_replicate.
  - intros [|f] x; simpl; [by intros [= <-]|]. by intros [-> _]%lookup_replicate.
  - change (omap f_ino (file0 :: ?l)) with (2%nat :: omap f_ino l). rewrite omap_none by done.
    simpl. multiset_solver.
  - change (omap f_end (file0 :: ?l)) with (omap f_end l). by rewrite omap_none.
Qed.

Lemma sys_s0_ok : sys_ok sys_s0.
Proof.
  exists view0. split; [|by exists 0%nat, sys_p0|done|done].
  split; [done|by split; [|apply cpu0_ok]|]. exact (files0_ok 99).
Qed.


(** That call duplicates the descriptor, a read of it returns the count, and
    a pipe takes the next two. *)
Example sys_s0_dup : ∃ s, sys_dup sys_s0 = Ret 1 s ∧ map f_ref (take 1 (ft_file (penv s))) = [2].
Proof. eexists. split; [vm_compute; reflexivity|reflexivity]. Qed.
