(* ===== verification/Sysproc.v ===== *)
(** * Process system calls, the dispatcher and trap (xv6/sysproc.c,
    syscall() of xv6/syscall.c, xv6/trap.c)

    exec.c and the interrupt handlers of the disk, the keyboard and the
    serial port are arguments; lapiceoi and cprintf touch nothing that is
    modelled.  sys_sleep and trap are suspended with a live local variable
    or a known place to go on from: [sys_sleep_return] and [trap_return] run
    when the scheduler switches back. *)

From S2P Require Import Prelude Traps Kernel Spinlock Log Fs File Proc Syscall Sysfile.
Local Open Scope Z_scope.

Section sysproc.
Context {I : Type} `{!InodeLayer I} `{!ProcEnv (kenv I)}.
Abbreviation st := (pstate (kenv I)).

(** tickslock, and the address of ticks as a channel. *)
Definition tklk : lens st spinlock :=
  mkLens (λ s, tk_lock (penv s)) (λ l s, set_penv (set_tk_lock l (penv s)) s).
Context (ticks_chan : Z).
Definition set_ticks (x : Z) (e : kenv I) : kenv I :=
  mkKe (ft_lock e) (ft_file e) (tk_lock e) x (umem e) (ke_i e).

Definition sys_fork : M st Z := fork.
Definition sys_exit : M st Z := exit.
Definition sys_wait : M st Z := wait.

Definition sys_kill : M st Z :=
  o ← argint 0;
  match o with None => mret (-1) | Some pid => kill pid end.

Definition sys_getpid : M st Z := p ← myp; mret (p_pid p).

Definition sys_sbrk : M st Z :=
  o ← argint 0;
  match o with
  | None => mret (-1)
  | Some n =>
      p ← myp;
      r ← growproc n;
      if r <? 0 then mret (-1) else mret (i32 (p_sz p))
  end.

(** The while loop of sys_sleep; [ticks - ticks0 < n] compares uints. *)
Definition sleep_loop (n ticks0 : Z) : M st Z :=
  t ← gets (λ s, ticks (penv s));
  if u32 (t - ticks0) <? u32 n then
    p ← myp;
    if negb (p_killed p =? 0) then release pcpu tklk ;; mret (-1)
    else sleep ticks_chan (LkOther tklk)
  else release pcpu tklk ;; mret 0.

Definition sys_sleep : M st Z :=
  o ← argint 0;
  match o with
  | None => mret (-1)
  | Some n =>
      acquire pcpu tklk ;;
      ticks0 ← gets (λ s, ticks (penv s));
      sleep_loop n ticks0
  end.
Definition sys_sleep_return (n ticks0 : Z) : M st Z :=
  sleep_return (LkOther tklk) ;; sleep_loop n ticks0.

Definition sys_uptime : M st Z :=
  acquire pcpu tklk ;;
  x ← gets (λ s, ticks (penv s));
  release pcpu tklk ;;
  mret (i32 x).

(** ** syscall.c *)

Context (exec : list Z → list (list Z) → M st Z).

(** The table syscalls[]. *)
Definition syscalls : list (option (M st Z)) :=
  [ None; Some sys_fork; Some sys_exit; Some sys_wait; Some sys_pipe; Some sys_read;
    Some sys_kill; Some (sys_exec exec); Some sys_fstat; Some sys_chdir; Some sys_dup;
    Some sys_getpid; Some sys_sbrk; Some sys_sleep; Some sys_uptime; Some sys_open;
    Some sys_write; Some sys_mknod; Some sys_unlink; Some sys_link; Some sys_mkdir;
    Some sys_close ].

Definition set_eax_cur (r : Z) : M st unit :=
  c ← myproc; updp c (λ p, w_tf (set_eax (u32 r) (p_tf p)) p).

Definition syscall : M st unit :=
  p ← myp;
  let num := i32 (tf_eax (p_tf p)) in
  match (if (0 <? num) && (num <? 22) then syscalls !! Z.to_nat num else None) with
  | Some (Some f) => r ← f; set_eax_cur r
  | _ => set_eax_cur (-1)
  end.

(** ** trap.c *)

Context (ideintr kbdintr uartintr : M st unit).

Definition lapiceoi : M st unit := mret tt.

Definition killed_user (tf : trapframe) : M st bool :=
  o ← gets curproc;
  match o with
  | None => mret false
  | Some c => p ← getp c; mret (negb (p_killed p =? 0) && (Z.land (tf_cs tf) 3 =? DPL_USER))
  end.

(** The switch over the trap numbers. *)
Definition trap_switch (tf : trapframe) : M st unit :=
  let no := tf_trapno tf in
  if no =? T_IRQ0 + IRQ_TIMER then
    id ← gets (λ s, cpu_id (ps_cpu s));
    (if (id =? 0)%nat then
       acquire pcpu tklk ;;
       modify (λ s, set_penv (set_ticks (u32 (ticks (penv s) + 1)) (penv s)) s) ;;
       wakeup ticks_chan ;;
       release pcpu tklk
     else mret tt) ;;
    lapiceoi
  else if no =? T_IRQ0 + IRQ_IDE then ideintr ;; lapiceoi
  else if no =? T_IRQ0 + IRQ_IDE + 1 then mret tt
  else if no =? T_IRQ0 + IRQ_KBD then kbdintr ;; lapiceoi
  else if no =? T_IRQ0 + IRQ_COM1 then uartintr ;; lapiceoi
  else if (no =? T_IRQ0 + 7) || (no =? T_IRQ0 + IRQ_SPURIOUS) then lapiceoi
  else
    o ← gets curproc;
    match o with
    | None => panic "trap"
    | Some c =>
        if Z.land (tf_cs tf) 3 =? 0 then panic "trap" else updp c (w_killed 1)
    end.

(** What is left of trap after yield. *)
Definition trap_return (tf : trapframe) : M st unit :=
  b ← killed_user tf;
  if (b : bool) then exit else mret tt.

Definition trap (tf : trapframe) : M st unit :=
  if tf_trapno tf =? T_SYSCALL then
    p ← myp;
    if negb (p_killed p =? 0) then exit else
    c ← myproc;
    updp c (w_tf tf) ;;
    syscall ;;
    p ← myp;
    if negb (p_killed p =? 0) then exit else mret tt
  else
    trap_switch tf ;;
    b ← killed_user tf;
    if (b : bool) then exit else
    o ← gets curproc;
    match o with
    | Some c =>
        p ← getp c;
        if isstate RUNNING p && (tf_trapno tf =? T_IRQ0 + IRQ_TIMER) then yield
        else trap_return tf
    | None => mret tt
    end.
End sysproc.

(** ** Lemmas *)

Section sysproc_facts.
Context {I : Type} `{!InodeLayer I} `{!ProcEnv (kenv I)}.
Abbreviation st := (pstate (kenv I)).
Implicit Types (s : st).

#[export] Instance tklk_ok : LensOk (tklk (I:=I)).
Proof. split; try done; by intros [? ? ? ? ? ? []]. Qed.
#[export] Instance pcpu_tklk : LensIndep (pcpu (E:=kenv I)) tklk.
Proof. by split. Qed.

Lemma wp_wakeup_raw chan s (Q : unit → st → Prop) :
  quiet pcpu ptlk s →
  (∀ s', ps_cpu s' = unpushed (ps_cpu s) → locked (pt_lock s') = 0 →
     procs s' = wake chan <$> procs s → penv s' = penv s → curproc s' = curproc s → Q tt s') →
  wp (wakeup chan) Q s.
Proof.
  intros Hq HQ. unfold wakeup. wstep. apply (wp_acquire pcpu ptlk); [done|]. wstep.
  unfold wakeup1. wstep. eapply (wp_release pcpu ptlk _ s); [done|done|done|]. by apply HQ.
Qed.

(** The clock interrupt: ticks goes up and the sleepers on it wake up. *)
Lemma wp_tick chan s (Q : unit → st → Prop) :
  quiet pcpu ptlk s → quiet pcpu tklk s →
  (∀ s', ps_cpu s' = unpushed (ps_cpu s) → locked (pt_lock s') = 0 → 
     locked (tk_lock (penv s')) = 0 →
     procs s' = wake chan <$> procs s → ticks (penv s') = u32 (ticks (penv s) + 1) →
     curproc s' = curproc s → Q tt s') →
  wp (acquire pcpu tklk ;;
      modify (λ s, set_penv (set_ticks (u32 (ticks (penv s) + 1)) (penv s)) s) ;;
      wakeup chan ;;
      release pcpu tklk) Q s.
Proof.
  intros [Hl Hc] Hq HQ. wstep. apply (wp_acquire pcpu tklk); [done|]. wstep. wstep. wstep.
  apply wp_wakeup_raw; [split; [exact Hl|by apply pushed_ok]|].
  intros s1 H1 H2 H3 H4 H5. simpl in *. rewrite unpushed_pushed in H1 by done.
  eapply (wp_release pcpu tklk _ s); [done|exact H1|simpl; by rewrite H4|].
  apply HQ; simpl; try done; by rewrite ?H4.
Qed.

Lemma wsw_yield {A} c p s (Q : st → Prop) :
  quiet pcpu ptlk s → ncli (ps_cpu s) = 0 → running c p s →
  (∀ s', (∃ i, procs s' = <[c := w_intena i (w_state RUNNABLE p)]> (procs s)) →
     curproc s' = Some c → penv s' = penv s → Q s') →
  wsw (A:=A) yield Q s.
Proof.
  intros Hq Hn [Hc Hp] HQ. unfold yield. apply wsw_bind.
  apply (wp_acquire pcpu ptlk); [done|].
  apply wsw_bind. eapply wp_myproc; [exact Hc|]. apply wsw_bind. eapply wp_updp; [exact Hp|].
  eapply (wsw_sched s _ c (w_state RUNNABLE p)); [by split|done|exact Hc| |done|].
  - simpl. apply list_lookup_insert_eq. by eapply lookup_lt_Some.
  - apply HQ; [|done|done]. eexists. simpl. by rewrite list_insert_insert_eq.
Qed.

Lemma unpushed_ncli c : ncli (unpushed c) = ncli c.
Proof. unfold unpushed. by destruct (ncli c =? 0). Qed.

Lemma unpushed_ok c : cpu_ok c → cpu_ok (unpushed c).
Proof. unfold cpu_ok, unpushed. by destruct (ncli c =? 0). Qed.

Lemma wake_running chan p : p_state p = RUNNING → wake chan p = p.
Proof. intros H. unfold wake, isstate. by rewrite bool_decide_eq_false_2 by congruence. Qed.

(** [t] is inside the critical section of tickslock entered from [s]. *)
Definition in_tick (s t : st) : Prop :=
  ps_cpu t = pushed (ps_cpu s) ∧ tk_lock (penv t) = tk_lock (penv (acquired pcpu tklk s)) ∧
  pt_lock t = pt_lock s.

(** sleep(&ticks, &tickslock) takes ptable.lock, then gives tickslock back. *)
Lemma wsw_sleep_tick {A} chan (s t : st) c p (Q : st → Prop) :
  quiet pcpu tklk s → locked (pt_lock s) = 0 → ncli (ps_cpu s) = 0 → in_tick s t → running c p t →
  (∀ s', locked (tk_lock (penv s')) = 0 → curproc s' = Some c →
     (∃ i, procs s' = <[c := w_intena i (w_state SLEEPING (w_chan chan p))]> (procs t)) →
     ticks (penv s') = ticks (penv t) → Q s') →
  wsw (A:=A) (sleep chan (LkOther tklk)) Q t.
Proof.
  intros Hq Hl Hn (H1 & H2 & H3) [Hc Hp] HQ. unfold sleep. apply wsw_bind. wstep.
  rewrite Hc, bool_decide_eq_false_2 by done. apply wsw_bind. wstep.
  assert (Hok : cpu_ok (pushed (ps_cpu s))) by apply pushed_ok, Hq.
  apply (wp_acquire pcpu ptlk); [split; simpl; [by rewrite H3|by rewrite H1]|].
  set (x := set_ps_cpu (pushed (ps_cpu s)) s).
  eapply (wp_release pcpu tklk _ x); [by split; [apply Hq|]|simpl; by rewrite H1| |].
  { simpl. rewrite H2. simpl. unfold pushed. by repeat destruct (_ =? 0). }
  apply wsw_bind. eapply wp_myproc; [exact Hc|].
  apply wsw_bind. eapply wp_updp; [exact Hp|].
  apply wsw_bind. eapply wp_updp; [simpl; apply list_lookup_insert_eq; by eapply lookup_lt_Some|].
  eapply (wsw_sched s _ c (w_state SLEEPING (w_chan chan p))); [|done|exact Hc| |done|].
  - split; simpl; [by rewrite unpushed_pushed by apply Hq|]. rewrite H1, H3.
    unfold pushed. by repeat destruct (_ =? 0).
  - simpl. rewrite list_insert_insert_eq. apply list_lookup_insert_eq. by eapply lookup_lt_Some.
  - apply HQ; [done|done| |done]. eexists. simpl. by rewrite !list_insert_insert_eq.
Qed.
End sysproc_facts.

(** ** Properties *)

(** The clock interrupt preempts: taken on CPU 0 while process c runs,
    it adds one to ticks, makes every process that sleeps on ticks runnable
    and gives the CPU to the scheduler with c runnable and no other process
    changed. *)
Theorem trap_timer {I} `{!InodeLayer I} `{!ProcEnv (kenv I)} chan exec ideintr kbdintr uartintr
    (s : pstate (kenv I)) tf c p :
  tf_trapno tf = T_IRQ0 + IRQ_TIMER → cpu_id (ps_cpu s) = 0%nat → ncli (ps_cpu s) = 0 →
  quiet pcpu ptlk s → quiet pcpu tklk s →
  running c p s → p_state p = RUNNING → p_killed p = 0 →
  wsw (trap chan exec ideintr kbdintr uartintr tf)
    (λ s', ticks (penv s') = u32 (ticks (penv s) + 1) ∧ curproc s' = Some c ∧
       ∃ i, procs s' = <[c := w_intena i (w_state RUNNABLE p)]> (wake chan <$> procs s)) s.
Proof.
  intros Hno Hid Hn Hpt Htk [Hc Hp] Hst Hk. unfold trap, trap_switch. rewrite Hno.
  change (T_IRQ0 + IRQ_TIMER =? T_SYSCALL) with false. rewrite Z.eqb_refl. cbv iota.
  apply wsw_bind. wstep. wstep. rewrite Hid. wstep. simpl.
  apply wp_tick; [done|done|]. intros s1 C1 L1 L2 P1 T1 R1.
  unfold lapiceoi. wstep. apply wsw_bind. unfold killed_user.
  rewrite Hc in R1.
  assert (Hp1 : procs s1 !! c = Some p).
  { rewrite P1, list_lookup_fmap, Hp. simpl. by rewrite wake_running. }
  wstep. wstep. rewrite R1. wstep. eapply wp_getp; [exact Hp1|]. wstep. rewrite Hk. simpl.
  apply wsw_bind. wstep. rewrite R1. apply wsw_bind. eapply wp_getp; [exact Hp1|].
  unfold isstate. rewrite bool_decide_eq_true_2 by done. simpl.
  eapply (wsw_yield c p); [|by rewrite C1, unpushed_ncli|done|].
  { split; [done|]. simpl. rewrite C1. apply unpushed_ok, Hpt. }
  intros s2 [i P2] R2 E2. rewrite E2. split_and!; [done|done|]. exists i. by rewrite P2, P1.
Qed.

(** The loop of sys_sleep, entered with tickslock held: it returns 0 once
    n ticks (as an unsigned number) have passed, -1 when the process has
    been killed, and otherwise puts the process to sleep on ticks with
    tickslock released. *)
Theorem sleep_loop_spec {I} `{!InodeLayer I} `{!ProcEnv (kenv I)} chan (s t : pstate (kenv I)) c p n t0 :
  quiet pcpu tklk s → locked (pt_lock s) = 0 → ncli (ps_cpu s) = 0 → in_tick s t → running c p t →
  match sleep_loop chan n t0 t with
  | Ret r s' =>
      locked (tk_lock (penv s')) = 0 ∧ procs s' = procs t ∧
      ((r = 0 ∧ u32 n ≤ u32 (ticks (penv t) - t0)) ∨
       (r = -1 ∧ p_killed p ≠ 0 ∧ u32 (ticks (penv t) - t0) < u32 n))
  | Sleeps _ s' =>
      locked (tk_lock (penv s')) = 0 ∧ p_killed p = 0 ∧ u32 (ticks (penv t) - t0) < u32 n ∧
      ∃ i, procs s' = <[c := w_intena i (w_state SLEEPING (w_chan chan p))]> (procs t)
  | _ => False
  end.
Proof.
  intros Hq Hl Hn Hin Hr.
  assert (Hrel : ∀ r : Z, wp (release pcpu tklk ;; mret r)
            (λ r' s', r' = r ∧ locked (tk_lock (penv s')) = 0 ∧ procs s' = procs t) t).
  { intros r. destruct Hin as (H1 & H2 & _). wstep.
    by eapply (wp_release pcpu tklk _ s); [| | |wstep]. }
  unfold sleep_loop. unfold mbind at 1, M_bind at 1. simpl.
  destruct (Z.ltb_spec (u32 (ticks (penv t) - t0)) (u32 n)) as [Hlt|Hge].
  - unfold mbind at 1, M_bind at 1.
    destruct (wp_inv _ _ _ (wp_myp c p t (λ q s', q = p ∧ s' = t) Hr (conj eq_refl eq_refl)))
      as (? & ? & -> & -> & ->).
    destruct (Z.eqb_spec (p_killed p) 0) as [Hk|Hk]; cbn [negb].
    + assert (H : wsw (A:=Z) (sleep chan (LkOther tklk)) (λ s', locked (tk_lock (penv s')) = 0 ∧
        ∃ i, procs s' = <[c := w_intena i (w_state SLEEPING (w_chan chan p))]> (procs t)) t).
      { eapply (wsw_sleep_tick chan s); [done..|]. by intros s' ? ? ?. }
      unfold wsw in H. by destruct (sleep chan (LkOther tklk) t); destruct_and?.
    + destruct (wp_inv _ _ _ (Hrel (-1))) as (r & s' & -> & -> & H1 & H2).
      split_and!; [done|done|by right].
  - destruct (wp_inv _ _ _ (Hrel 0)) as (r & s' & -> & -> & H1 & H2).
    split_and!; [done|done|by left].
Qed.

(** ** Witnesses *)

(** A kernel that has no memory left for processes. *)
#[export] Instance count_env : ProcEnv (kenv cstate) := {|
  pe_kalloc := mret 0; pe_kfree _ := mret tt; pe_setupkvm := mret 0; pe_inituvm _ := mret tt;
  pe_copyuvm _ _ := mret 0; pe_freevm _ := mret tt; pe_allocuvm _ _ _ := mret 0;
  pe_deallocuvm _ _ n := mret n; pe_switchuvm _ := mret tt; pe_switchkvm := mret tt;
  pe_filedup f := mret f; pe_fileclose _ := mret tt; pe_idup i := mret i; pe_iput _ := mret tt;
  pe_namei_root := mret 1; pe_begin_op := mret tt; pe_end_op := mret tt;
  pe_iinit_initlog := mret tt; pe_forkret := 100; pe_trapret := 200; pe_rel _ _ := True;
  pe_kalloc_law _ _ _ := or_introl (conj eq_refl I); pe_kfree_law _ _ _ _ _ := I;
  pe_copyuvm_law _ _ _ _ _ _ _ := or_introl (conj eq_refl I); pe_freevm_law _ _ _ _ _ := I;
  pe_switchuvm_law _ _ _ _ _ := I; pe_switchkvm_law _ _ _ := I;
  pe_filedup_law _ _ _ _ _ := conj eq_refl I; pe_fileclose_law _ _ _ _ _ := I;
  pe_idup_law _ _ _ _ _ := conj eq_refl I; pe_iput_law _ _ _ _ _ _ := I; pe_begin_op_law _ _ _ := I;
  pe_end_op_law _ _ _ _ := I;
|}.

Definition tf_timer : trapframe := mkTf 0 0 0 0 0 0 0 0 0 0 0 0 32 0 0 27 0 0 0.

Lemma sys_s0_quiet : quiet pcpu ptlk sys_s0 ∧ quiet pcpu tklk sys_s0.
Proof. split; (split; [done|apply cpu0_ok]). Qed.

Lemma trap_timer_witness :
  wsw (trap 9 (λ _ _, mret (-1)) (mret tt) (mret tt) (mret tt) tf_timer)
    (λ s', ticks (penv s') = 1 ∧ curproc s' = Some 0%nat ∧
       ∃ i, procs s' = [w_intena i (w_state RUNNABLE sys_p0)]) sys_s0.
Proof.
  exact (trap_timer 9 (λ _ _, mret (-1)) (mret tt) (mret tt) (mret tt) sys_s0 tf_timer 0 sys_p0
           eq_refl eq_refl eq_refl (proj1 sys_s0_quiet) (proj2 sys_s0_quiet)
           (conj eq_refl eq_refl) eq_refl eq_refl).
Defined.

Lemma sleep_loop_spec_witness :
  match sleep_loop 9 5 0 (acquired pcpu tklk sys_s0) with
  | Ret r s' =>
      locked (tk_lock (penv s')) = 0 ∧ procs s' = [sys_p0] ∧
      ((r = 0 ∧ u32 5 ≤ u32 (0 - 0)) ∨ (r = -1 ∧ 0 ≠ 0 ∧ u32 (0 - 0) < u32 5))
  | Sleeps _ s' =>
      locked (tk_lock (penv s')) = 0 ∧ 0 = 0 ∧ u32 (0 - 0) < u32 5 ∧
      ∃ i, procs s' = [w_intena i (w_state SLEEPING (w_chan 9 sys_p0))]
  | _ => False
  end.
Proof.
  exact (sleep_loop_spec 9 sys_s0 (acquired pcpu tklk sys_s0) 0 sys_p0 5 0
           (proj2 sys_s0_quiet) eq_refl eq_refl (conj eq_refl (conj eq_refl eq_refl))
           (conj eq_refl eq_refl)).
Defined.
