(* ===== verification/Seg.v ===== *)
(** * Segments, the task state and the interrupt table (mmu.h, seginit and
    switchuvm of vm.c, tvinit and idtinit of trap.c, lgdt to ltr of x86.h)

    The tables the kernel builds are read by the processor, so they are kept
    here as the bytes the processor reads: [struct cpu], [struct proc] and the
    interrupt table lie in a byte memory at the offsets of their fields, and
    descriptors are packed from their bit-fields.  [loadgs], [ltr] and
    [deliver] are the parts of the processor that read them (the Intel
    manual's segment loading, LTR and INT n), faults included.

    [trap_entry] says what the tables are for: after switchuvm, any interrupt
    of a user program enters the kernel at its vector, at privilege 0 and on
    the kernel stack of that process, and of the vectors only the system call
    can be raised by the program itself. *)

From S2P Require Import Prelude Traps Kernel Spinlock CString Kalloc Proc Sysproc.
Local Open Scope Z_scope.

(** ** Bit-fields, least significant first *)

Fixpoint pack (l : list (Z * Z)) : Z :=
  match l with
  | [] => 0
  | (w, v) :: r => v mod 2 ^ w + 2 ^ w * pack r
  end.

Definition bits (x lo w : Z) : Z := (x / 2 ^ lo) mod 2 ^ w.

(** ** Descriptors (mmu.h) *)

Definition SEG_KCODE : Z := 1.
Definition SEG_KDATA : Z := 2.
Definition SEG_KCPU : Z := 3.
Definition SEG_TSS : Z := 6.
Definition NSEGS : Z := 7.

Definition STA_X : Z := 8.
Definition STA_W : Z := 2.
Definition STA_R : Z := 2.
Definition STS_T32A : Z := 9.
Definition STS_IG32 : Z := 14.
Definition STS_TG32 : Z := 15.

Record segdesc := mkSeg {
  lim_15_0 : Z;
  base_15_0 : Z;
  base_23_16 : Z;
  sd_type : Z;
  sd_s : Z;
  sd_dpl : Z;
  sd_p : Z;
  lim_19_16 : Z;
  sd_avl : Z;
  sd_rsv1 : Z;
  sd_db : Z;
  sd_g : Z;
  base_31_24 : Z;
}.

Definition seg_lo (d : segdesc) : Z := pack [(16, lim_15_0 d); (16, base_15_0 d)].
Definition seg_hi (d : segdesc) : Z :=
  pack [(8, base_23_16 d); (4, sd_type d); (1, sd_s d); (2, sd_dpl d); (1, sd_p d);
        (4, lim_19_16 d); (1, sd_avl d); (1, sd_rsv1 d); (1, sd_db d); (1, sd_g d);
        (8, base_31_24 d)].

Definition put_segdesc (m : mem) (a : Z) (d : segdesc) : mem :=
  store32 (store32 m a (seg_lo d)) (a + 4) (seg_hi d).

Definition get_segdesc (m : mem) (a : Z) : segdesc :=
  let lo := load32 m a in
  let hi := load32 m (a + 4) in
  mkSeg (bits lo 0 16) (bits lo 16 16) (bits hi 0 8) (bits hi 8 4) (bits hi 12 1)
    (bits hi 13 2) (bits hi 15 1) (bits hi 16 4) (bits hi 20 1) (bits hi 21 1)
    (bits hi 22 1) (bits hi 23 1) (bits hi 24 8).

Definition set_s (v : Z) (d : segdesc) : segdesc :=
  mkSeg (lim_15_0 d) (base_15_0 d) (base_23_16 d) (sd_type d) v (sd_dpl d) (sd_p d)
    (lim_19_16 d) (sd_avl d) (sd_rsv1 d) (sd_db d) (sd_g d) (base_31_24 d).

Definition SEG (type base lim dpl : Z) : segdesc :=
  mkSeg (Z.land (Z.shiftr lim 12) 65535) (Z.land (u32 base) 65535)
    (Z.land (Z.shiftr (u32 base) 16) 255) type 1 dpl 1
    (Z.shiftr (u32 lim) 28) 0 0 1 1 (Z.shiftr (u32 base) 24).

Definition SEG16 (type base lim dpl : Z) : segdesc :=
  mkSeg (Z.land lim 65535) (Z.land (u32 base) 65535)
    (Z.land (Z.shiftr (u32 base) 16) 255) type 1 dpl 1
    (Z.shiftr (u32 lim) 16) 0 0 1 0 (Z.shiftr (u32 base) 24).

(** A gate is written field by field, every field of it. *)
Definition SETGATE (m : mem) (gate : Z) (istrap : bool) (sel off d : Z) : mem :=
  let m := store32 m gate (pack [(16, Z.land (u32 off) 65535); (16, sel)]) in
  store32 m (gate + 4)
    (pack [(5, 0); (3, 0); (4, if istrap then STS_TG32 else STS_IG32); (1, 0); (2, d); (1, 1);
           (16, Z.shiftr (u32 off) 16)]).

(** ** The processor's view of a descriptor and of a gate *)

Record hwdesc := mkHw {
  h_base : Z;
  h_limit : Z;   (* in bytes: the last offset that can be used *)
  h_type : Z;
  h_s : Z;
  h_dpl : Z;
  h_p : Z;
}.

Definition hwdesc_at (m : mem) (a : Z) : hwdesc :=
  let lo := load32 m a in
  let hi := load32 m (a + 4) in
  let l := bits lo 0 16 + 65536 * bits hi 16 4 in
  mkHw (bits lo 16 16 + 65536 * bits hi 0 8 + 16777216 * bits hi 24 8)
    (if bits hi 23 1 =? 1 then l * 4096 + 4095 else l)
    (bits hi 8 4) (bits hi 12 1) (bits hi 13 2) (bits hi 15 1).

Record hwgate := mkHwGate {
  hg_sel : Z;
  hg_off : Z;
  hg_type : Z;
  hg_s : Z;
  hg_dpl : Z;
  hg_p : Z;
}.

Definition hwgate_at (m : mem) (a : Z) : hwgate :=
  let lo := load32 m a in
  let hi := load32 m (a + 4) in
  mkHwGate (bits lo 16 16) (bits lo 0 16 + 65536 * bits hi 16 16)
    (bits hi 8 4) (bits hi 12 1) (bits hi 13 2) (bits hi 15 1).

(** ** State *)

Record xstate := mkX {
  x_cpu : cpu;                 (* ncli, intena and the flags, as in spinlock.c *)
  x_mem : mem;
  x_gdtr : Z * Z;              (* limit and base *)
  x_idtr : Z * Z;
  x_gs : Z;                    (* the selectors, and the descriptors loaded with them *)
  x_gsd : hwdesc;
  x_tr : Z;
  x_trd : hwdesc;
  x_cr3 : Z;
  x_tickslock : spinlock;
}.

Definition set_xcpu (c : cpu) (s : xstate) : xstate :=
  mkX c (x_mem s) (x_gdtr s) (x_idtr s) (x_gs s) (x_gsd s) (x_tr s) (x_trd s) (x_cr3 s) (x_tickslock s).
Definition set_xmem (m : mem) (s : xstate) : xstate :=
  mkX (x_cpu s) m (x_gdtr s) (x_idtr s) (x_gs s) (x_gsd s) (x_tr s) (x_trd s) (x_cr3 s) (x_tickslock s).
Definition set_gdtr (g : Z * Z) (s : xstate) : xstate :=
  mkX (x_cpu s) (x_mem s) g (x_idtr s) (x_gs s) (x_gsd s) (x_tr s) (x_trd s) (x_cr3 s) (x_tickslock s).
Definition set_idtr (g : Z * Z) (s : xstate) : xstate :=
  mkX (x_cpu s) (x_mem s) (x_gdtr s) g (x_gs s) (x_gsd s) (x_tr s) (x_trd s) (x_cr3 s) (x_tickslock s).
Definition set_gs (v : Z) (b : hwdesc) (s : xstate) : xstate :=
  mkX (x_cpu s) (x_mem s) (x_gdtr s) (x_idtr s) v b (x_tr s) (x_trd s) (x_cr3 s) (x_tickslock s).
Definition set_tr (v : Z) (b : hwdesc) (s : xstate) : xstate :=
  mkX (x_cpu s) (x_mem s) (x_gdtr s) (x_idtr s) (x_gs s) (x_gsd s) v b (x_cr3 s) (x_tickslock s).
Definition set_xcr3 (v : Z) (s : xstate) : xstate :=
  mkX (x_cpu s) (x_mem s) (x_gdtr s) (x_idtr s) (x_gs s) (x_gsd s) (x_tr s) (x_trd s) v (x_tickslock s).
Definition set_xticks (l : spinlock) (s : xstate) : xstate :=
  mkX (x_cpu s) (x_mem s) (x_gdtr s) (x_idtr s) (x_gs s) (x_gsd s) (x_tr s) (x_trd s) (x_cr3 s) l.

Definition xcpu : lens xstate cpu := mkLens x_cpu set_xcpu.

(** Offsets in [struct cpu] and [struct proc] (proc.h). *)
Definition cpu_ts (c : Z) : Z := c + 8.
Definition cpu_gdt (c : Z) : Z := c + 112.
Definition cpu_cpu (c : Z) : Z := c + 180.
Definition cpu_size : Z := 188.
Definition ts_size : Z := 104.
Definition ts_esp0 (t : Z) : Z := t + 4.
Definition ts_ss0 (t : Z) : Z := t + 8.
Definition proc_pgdir (p : Z) : Z := p + 4.
Definition proc_kstack (p : Z) : Z := p + 8.

Definition ldx (a : Z) : M xstate Z := gets (λ s, load32 (x_mem s) a).
Definition stx (a v : Z) : M xstate unit := modify (λ s, set_xmem (store32 (x_mem s) a v) s).

Definition store16 (m : mem) (a v : Z) : mem := store8 (store8 m a v) (a + 1) (v / 256).
Definition load16 (m : mem) (a : Z) : Z := m a + 256 * m (a + 1).

(** ** x86.h *)

(** pd[0] is the limit and pd[1], pd[2] the halves of the base. *)
Definition pseudo_desc (p size : Z) : Z * Z := (u16 (size - 1), u16 p + 65536 * u16 (p / 65536)).

Definition lgdt (p size : Z) : M xstate unit := modify (set_gdtr (pseudo_desc p size)).
Definition lidt (p size : Z) : M xstate unit := modify (set_idtr (pseudo_desc p size)).

(** The descriptor a selector names, when it names one of the table. *)
Definition desc_addr (gdtr : Z * Z) (sel : Z) : option Z :=
  if (8 <=? sel) && (bits sel 2 1 =? 0) && (sel / 8 * 8 + 7 <=? gdtr.1)
  then Some (gdtr.2 + sel / 8 * 8) else None.

(** Loading a data segment: present, and data or readable code. *)
Definition loadgs (v : Z) : M xstate unit :=
  g ← gets x_gdtr;
  a ← deref (desc_addr g (u16 v));
  d ← gets (λ s, hwdesc_at (x_mem s) a);
  if (h_p d =? 1) && (h_s d =? 1) && ((bits (h_type d) 3 1 =? 0) || (bits (h_type d) 1 1 =? 1))
  then modify (set_gs (u16 v) d) else fault.

(** LTR takes an available 32-bit task state and marks it busy in the table. *)
Definition ltr (sel : Z) : M xstate unit :=
  g ← gets x_gdtr;
  a ← deref (desc_addr g (u16 sel));
  d ← gets (λ s, hwdesc_at (x_mem s) a);
  if (h_p d =? 1) && (h_s d =? 0) && (h_type d =? STS_T32A)
  then modify (λ s, set_xmem (store32 (x_mem s) (a + 4) (load32 (x_mem s) (a + 4) + 512)) s) ;;
       modify (set_tr (u16 sel) d)
  else fault.

(** %gs:off, for a word: a fault beyond the segment's limit. *)
Definition gsaddr (off : Z) : M xstate Z :=
  d ← gets x_gsd;
  if off + 3 <=? h_limit d then mret (u32 (h_base d + off)) else fault.

Definition lcr3 (v : Z) : M xstate unit := modify (set_xcr3 v).

(** ** vm.c *)

Definition put_seg (a : Z) (d : segdesc) : M xstate unit :=
  modify (λ s, set_xmem (put_segdesc (x_mem s) a d) s).

(** [c] is &cpus[cpunum()].  The last two assignments go through %gs, where
    the variables cpu and proc are. *)
Definition seginit (c : Z) : M xstate unit :=
  put_seg (cpu_gdt c + 8 * SEG_KCODE) (SEG (Z.lor STA_X STA_R) 0 4294967295 0) ;;
  put_seg (cpu_gdt c + 8 * SEG_KDATA) (SEG STA_W 0 4294967295 0) ;;
  put_seg (cpu_gdt c + 8 * SEG_UCODE) (SEG (Z.lor STA_X STA_R) 0 4294967295 DPL_USER) ;;
  put_seg (cpu_gdt c + 8 * SEG_UDATA) (SEG STA_W 0 4294967295 DPL_USER) ;;
  put_seg (cpu_gdt c + 8 * SEG_KCPU) (SEG STA_W (cpu_cpu c) 8 0) ;;
  lgdt (cpu_gdt c) (8 * NSEGS) ;;
  loadgs (Z.shiftl SEG_KCPU 3) ;;
  a ← gsaddr 0; stx a c ;;
  a ← gsaddr 4; stx a 0.

(** The stack is that of the current process, not of [p]. *)
Definition switchuvm (p : Z) : M xstate unit :=
  pushcli xcpu ;;
  a ← gsaddr 0; cpu ← ldx a;
  put_seg (cpu_gdt cpu + 8 * SEG_TSS) (SEG16 STS_T32A (cpu_ts cpu) (ts_size - 1) 0) ;;
  d ← gets (λ s, get_segdesc (x_mem s) (cpu_gdt cpu + 8 * SEG_TSS));
  put_seg (cpu_gdt cpu + 8 * SEG_TSS) (set_s 0 d) ;;
  modify (λ s, set_xmem (store16 (x_mem s) (ts_ss0 (cpu_ts cpu)) (Z.shiftl SEG_KDATA 3)) s) ;;
  a ← gsaddr 4; proc ← ldx a;
  k ← ldx (proc_kstack proc);
  stx (ts_esp0 (cpu_ts cpu)) (u32 (k + KSTACKSIZE)) ;;
  ltr (Z.shiftl SEG_TSS 3) ;;
  pgdir ← ldx (proc_pgdir p);
  if pgdir =? 0 then panic "switchuvm: no pgdir" else
  lcr3 (v2p pgdir) ;;
  popcli xcpu.

(** ** trap.c: [idt] and [vectors] are the addresses of the two tables *)

Definition tvinit (idt vectors : Z) : M xstate unit :=
  forM (Z.of_nat <$> seq 0 256) (λ i,
    off ← ldx (vectors + 4 * i);
    modify (λ s, set_xmem (SETGATE (x_mem s) (idt + 8 * i) false (Z.shiftl SEG_KCODE 3) off 0) s)) ;;
  off ← ldx (vectors + 4 * T_SYSCALL);
  modify (λ s, set_xmem
    (SETGATE (x_mem s) (idt + 8 * T_SYSCALL) true (Z.shiftl SEG_KCODE 3) off DPL_USER) s) ;;
  modify (λ s, set_xticks (initlock "time" (x_tickslock s)) s).

Definition idtinit (idt : Z) : M xstate unit := lidt idt (8 * 256).

(** ** The processor on an interrupt, an exception or INT n ([soft]) *)

Record kentry := mkEntry {
  e_cpl : Z;
  e_eip : Z;
  e_stack : option (Z * Z);   (* the new %ss and %esp, when the privilege changes *)
  e_flags : Z;
}.

Definition FL_CLEARED : Z := 213248.   (* FL_TF, FL_NT, FL_RF and FL_VM *)

(** The stack of privilege 0, from the task state. *)
Definition stack0 (s : xstate) : option (Z * Z) :=
  let t := x_trd s in
  if h_limit t <? 11 then None else
  let esp := load32 (x_mem s) (ts_esp0 (h_base t)) in
  let ss := load16 (x_mem s) (ts_ss0 (h_base t)) in
  a ← desc_addr (x_gdtr s) ss;
  let d := hwdesc_at (x_mem s) a in
  if (h_p d =? 1) && (h_s d =? 1) && (bits (h_type d) 3 1 =? 0) && (bits (h_type d) 1 1 =? 1) && (h_dpl d =? 0)
  then Some (ss, esp) else None.

Definition deliver (s : xstate) (n cpl : Z) (soft : bool) : option kentry :=
  if (x_idtr s).1 <? 8 * n + 7 then None else
  let g := hwgate_at (x_mem s) ((x_idtr s).2 + 8 * n) in
  if negb ((hg_p g =? 1) && (hg_s g =? 0) && ((hg_type g =? STS_IG32) || (hg_type g =? STS_TG32))) then None else
  if soft && (hg_dpl g <? cpl) then None else
  a ← desc_addr (x_gdtr s) (hg_sel g);
  let d := hwdesc_at (x_mem s) a in
  if negb ((h_p d =? 1) && (h_s d =? 1) && (bits (h_type d) 3 1 =? 1) && (h_dpl d <=? cpl)
           && (hg_off g <=? h_limit d)) then None else
  let conforming := bits (h_type d) 2 1 =? 1 in
  let flags := Z.ldiff (eflags (x_cpu s)) FL_CLEARED in
  let flags := if hg_type g =? STS_IG32 then Z.ldiff flags FL_IF else flags in
  if negb conforming && (h_dpl d <? cpl)
  then k ← stack0 s; Some (mkEntry (h_dpl d) (h_base d + hg_off g) (Some k) flags)
  else Some (mkEntry cpl (h_base d + hg_off g) None flags).

(** ** Facts on bit-fields *)

Lemma bits_here w v r : 0 ≤ w → bits (pack ((w, v) :: r)) 0 w = v mod 2 ^ w.
Proof.
  intros H. unfold bits. cbn [pack]. rewrite Z.pow_0_r, Z.div_1_r, Z.mul_comm, Z.mod_add, Z.mod_mod; lia.
Qed.

Lemma bits_next w v r lo n : 0 ≤ w ≤ lo → bits (pack ((w, v) :: r)) lo n = bits (pack r) (lo - w) n.
Proof.
  intros H. unfold bits. cbn [pack]. f_equal.
  replace (2 ^ lo) with (2 ^ w * 2 ^ (lo - w)) by (rewrite <-Z.pow_add_r; [f_equal; lia|lia|lia]).
  rewrite <-Z.div_div by (try apply Z.pow_nonzero; try apply Z.pow_pos_nonneg; lia).
  f_equal. rewrite Z.mul_comm, Z.div_add by (apply Z.pow_nonzero; lia).
  rewrite Z.div_small; [lia|]. apply Z.mod_pos_bound, Z.pow_pos_nonneg; lia.
Qed.

Lemma pack_range l k :
  Forall (λ x, 0 ≤ x.1) l → k = foldr (λ x a, x.1 + a) 0 l → 0 ≤ pack l < 2 ^ k.
Proof.
  intros Hl ->. induction Hl as [|[w v] l Hw Hl IH]; simpl in *; [lia|].
  assert (0 ≤ foldr (λ x a, x.1 + a) 0 l) by (clear IH; induction Hl; simpl; lia).
  rewrite Z.pow_add_r by lia. pose proof (Z.mod_pos_bound v (2 ^ w) ltac:(apply Z.pow_pos_nonneg; lia)). nia.
Qed.

Ltac unpack := repeat (rewrite bits_next by lia; cbn [Z.sub]); rewrite bits_here by lia.

Lemma pack_u32 l : forallb (λ x, 0 <=? x.1) l = true → foldr (λ x a, x.1 + a) 0 l = 32 → is_u32 (pack l).
Proof.
  intros H E. unfold is_u32. change 4294967296 with (2 ^ 32). apply pack_range; [|done].
  rewrite forallb_forall in H. apply Forall_forall. intros x Hx. apply Z.leb_le, H.
  by apply list_elem_of_In.
Qed.

Lemma load_put_lo m a d : load32 (put_segdesc m a d) a = seg_lo d.
Proof.
  unfold put_segdesc. rewrite load_store32_ne by lia. by apply load_store32_eq, pack_u32.
Qed.

Lemma load_put_hi m a d : load32 (put_segdesc m a d) (a + 4) = seg_hi d.
Proof. by apply load_store32_eq, pack_u32. Qed.

(** What the processor reads where a descriptor was written. *)
Definition hw_of (d : segdesc) : hwdesc :=
  let l := lim_15_0 d mod 65536 + 65536 * (lim_19_16 d mod 16) in
  mkHw (base_15_0 d mod 65536 + 65536 * (base_23_16 d mod 256) + 16777216 * (base_31_24 d mod 256))
    (if sd_g d mod 2 =? 1 then l * 4096 + 4095 else l)
    (sd_type d mod 16) (sd_s d mod 2) (sd_dpl d mod 4) (sd_p d mod 2).

Definition seg_trunc (d : segdesc) : segdesc :=
  mkSeg (lim_15_0 d mod 65536) (base_15_0 d mod 65536) (base_23_16 d mod 256) (sd_type d mod 16)
    (sd_s d mod 2) (sd_dpl d mod 4) (sd_p d mod 2) (lim_19_16 d mod 16) (sd_avl d mod 2)
    (sd_rsv1 d mod 2) (sd_db d mod 2) (sd_g d mod 2) (base_31_24 d mod 256).

Lemma get_put_segdesc m a d : get_segdesc (put_segdesc m a d) a = seg_trunc d.
Proof.
  unfold get_segdesc. rewrite load_put_lo, load_put_hi. unfold seg_lo, seg_hi, seg_trunc.
  f_equal; by unpack.
Qed.

Lemma hw_of_trunc v d : hw_of (set_s v (seg_trunc d)) = hw_of (set_s v d).
Proof. unfold hw_of; simpl. by rewrite !Z.mod_mod. Qed.

Lemma bits_mod x lo w : 0 ≤ w → bits x lo w mod 2 ^ w = bits x lo w.
Proof. intros. apply Z.mod_mod, Z.pow_nonzero; lia. Qed.

Lemma hwdesc_get m a : hwdesc_at m a = hw_of (get_segdesc m a).
Proof.
  unfold hwdesc_at, hw_of, get_segdesc; simpl.
  by rewrite !(bits_mod _ _ 16), !(bits_mod _ _ 8), !(bits_mod _ _ 4), !(bits_mod _ _ 1), !(bits_mod _ _ 2) by lia.
Qed.

Lemma hw_put m a d : hwdesc_at (put_segdesc m a d) a = hw_of d.
Proof.
  rewrite hwdesc_get, get_put_segdesc. unfold hw_of; simpl. by rewrite !Z.mod_mod.
Qed.

(** The macros put the base and the limit together again. *)
Lemma base_split b : is_u32 b →
  Z.land (u32 b) 65535 mod 65536 + 65536 * (Z.land (Z.shiftr (u32 b) 16) 255 mod 256)
    + 16777216 * (Z.shiftr (u32 b) 24 mod 256) = b.
Proof.
  intros H. rewrite u32_small by done.
  change 65535 with (Z.ones 16). change 255 with (Z.ones 8). rewrite !Z.land_ones, !Z.shiftr_div_pow2 by lia.
  change (2 ^ 16) with 65536. change (2 ^ 8) with 256. change (2 ^ 24) with 16777216.
  unfold is_u32 in H. rewrite !Z.mod_mod by lia. zdm.
Qed.

Lemma hw_SEG type base lim dpl : is_u32 base → is_u32 lim →
  hw_of (SEG type base lim dpl) = mkHw base (lim / 4096 * 4096 + 4095) (type mod 16) 1 (dpl mod 4) 1.
Proof.
  intros Hb Hl. unfold hw_of, SEG; simpl. rewrite base_split by done. f_equal.
  rewrite u32_small by done. change 65535 with (Z.ones 16). rewrite !Z.land_ones, !Z.shiftr_div_pow2 by lia.
  change (2 ^ 16) with 65536. change (2 ^ 12) with 4096. change (2 ^ 28) with 268435456.
  unfold is_u32 in Hl. rewrite !Z.mod_mod by lia.
  replace (lim / 268435456 mod 16) with (lim / 4096 / 65536) by (rewrite Z.div_div by lia; zdm). zdm.
Qed.

Lemma hw_SEG16 type base lim dpl v : is_u32 base → 0 ≤ lim < 1048576 →
  hw_of (set_s v (SEG16 type base lim dpl)) = mkHw base lim (type mod 16) (v mod 2) (dpl mod 4) 1.
Proof.
  intros Hb Hl. unfold hw_of, SEG16, set_s; simpl. rewrite base_split by done. f_equal.
  rewrite u32_small by (unfold is_u32; lia). change 65535 with (Z.ones 16). rewrite !Z.land_ones, !Z.shiftr_div_pow2 by lia.
  change (2 ^ 16) with 65536. zdm.
Qed.

Lemma hw_SETGATE m a istrap sel off d : is_u32 off → 0 ≤ sel < 65536 → 0 ≤ d < 4 →
  hwgate_at (SETGATE m a istrap sel off d) a =
  mkHwGate sel off (if istrap then STS_TG32 else STS_IG32) 0 d 1.
Proof.
  intros Ho Hs Hd. unfold hwgate_at, SETGATE.
  rewrite load_store32_eq, load_store32_ne, load_store32_eq by (lia || by apply pack_u32).
  rewrite u32_small by done. change 65535 with (Z.ones 16). rewrite Z.land_ones, Z.shiftr_div_pow2 by lia.
  f_equal; try (unpack; by rewrite ?Z.mod_small by (simpl; lia)).
  - transitivity (off mod 65536 + 65536 * (off / 65536 mod 65536)).
    { f_equal; [|f_equal]; unpack; [apply Z.mod_mod; lia|done]. }
    unfold is_u32 in Ho. rewrite (Z.mod_small (off / 65536)) by zdm. zdm.
  - unpack. by destruct istrap.
Qed.

(** Descriptors and gates depend on their eight bytes alone. *)
Lemma hwdesc_ext m m' a : (∀ x, a ≤ x < a + 8 → m x = m' x) → hwdesc_at m a = hwdesc_at m' a.
Proof.
  intros H. unfold hwdesc_at. by rewrite (load32_ext m m' a), (load32_ext m m' (a + 4)) by (intros; apply H; lia).
Qed.

Lemma hwgate_ext m m' a : (∀ x, a ≤ x < a + 8 → m x = m' x) → hwgate_at m a = hwgate_at m' a.
Proof.
  intros H. unfold hwgate_at. by rewrite (load32_ext m m' a), (load32_ext m m' (a + 4)) by (intros; apply H; lia).
Qed.

Lemma put_segdesc_out m a d x : ¬ (a ≤ x < a + 8) → put_segdesc m a d x = m x.
Proof. intros. unfold put_segdesc. by rewrite !store32_out by lia. Qed.

Lemma SETGATE_out m a t sel off d x : ¬ (a ≤ x < a + 8) → SETGATE m a t sel off d x = m x.
Proof. intros. unfold SETGATE. by rewrite !store32_out by lia. Qed.

Lemma store16_out m a v x : ¬ (a ≤ x < a + 2) → store16 m a v x = m x.
Proof. intros. unfold store16, store8. repeat case_if; lia. Qed.

(** ** The invariants of the tables *)

Definition KCODE_HW : hwdesc := mkHw 0 4294967295 10 1 0 1.
Definition KDATA_HW : hwdesc := mkHw 0 4294967295 2 1 0 1.
Definition UCODE_HW : hwdesc := mkHw 0 4294967295 10 1 3 1.
Definition UDATA_HW : hwdesc := mkHw 0 4294967295 2 1 3 1.

(** The table of the CPU whose [struct cpu] is at [c] is loaded, and %gs
    leads to its variables. *)
Record seg_ready (c : Z) (s : xstate) : Prop := {
  sr_gdtr : x_gdtr s = (55, cpu_gdt c);
  sr_gs : x_gsd s = mkHw (cpu_cpu c) 4095 2 1 0 1;
  sr_cpu : load32 (x_mem s) (cpu_cpu c) = c;
  sr_kcode : hwdesc_at (x_mem s) (cpu_gdt c + 8 * SEG_KCODE) = KCODE_HW;
  sr_kdata : hwdesc_at (x_mem s) (cpu_gdt c + 8 * SEG_KDATA) = KDATA_HW;
  sr_ucode : hwdesc_at (x_mem s) (cpu_gdt c + 8 * SEG_UCODE) = UCODE_HW;
  sr_udata : hwdesc_at (x_mem s) (cpu_gdt c + 8 * SEG_UDATA) = UDATA_HW;
}.

(** Every vector has its gate; that of the system call is a trap gate user
    programs may use, the others are interrupt gates they may not. *)
Definition gate_of (vec : Z → Z) (n : Z) : hwgate :=
  mkHwGate 8 (vec n) (if n =? T_SYSCALL then STS_TG32 else STS_IG32) 0
    (if n =? T_SYSCALL then DPL_USER else 0) 1.

Record idt_ready (idt : Z) (vec : Z → Z) (s : xstate) : Prop := {
  ir_idtr : x_idtr s = (2047, idt);
  ir_vec n : 0 ≤ n < 256 → is_u32 (vec n);
  ir_gate n : 0 ≤ n < 256 → hwgate_at (x_mem s) (idt + 8 * n) = gate_of vec n;
}.

(** [struct cpu] at [c] fits below 4 GB. *)
Definition cpu_fits (c : Z) : Prop := 0 ≤ c ∧ c + cpu_size ≤ 4294967296.

Definition apart (a n b k : Z) : Prop := a + n ≤ b ∨ b + k ≤ a.

Ltac seg_unfold :=
  unfold apart, cpu_fits, cpu_gdt, cpu_ts, cpu_cpu, cpu_size, ts_size, ts_ss0, ts_esp0, proc_kstack,
    proc_pgdir, SEG_KCODE, SEG_KDATA, SEG_KCPU, SEG_UCODE, SEG_UDATA, SEG_TSS, NSEGS, T_SYSCALL in *.
Ltac seg_lia := seg_unfold; lia.

Lemma hw_store32_ne m a v b : apart a 4 b 8 → hwdesc_at (store32 m a v) b = hwdesc_at m b.
Proof. intros. apply hwdesc_ext. intros. apply store32_out. seg_lia. Qed.
Lemma hw_store16_ne m a v b : apart a 2 b 8 → hwdesc_at (store16 m a v) b = hwdesc_at m b.
Proof. intros. apply hwdesc_ext. intros. apply store16_out. seg_lia. Qed.
Lemma hw_put_ne m a d b : apart a 8 b 8 → hwdesc_at (put_segdesc m a d) b = hwdesc_at m b.
Proof. intros. apply hwdesc_ext. intros. apply put_segdesc_out. seg_lia. Qed.
Lemma load_put_ne m a d b : apart a 8 b 4 → load32 (put_segdesc m a d) b = load32 m b.
Proof. intros. apply load32_ext. intros. apply put_segdesc_out. seg_lia. Qed.
Lemma load_store16_ne m a v b : apart a 2 b 4 → load32 (store16 m a v) b = load32 m b.
Proof. intros. apply load32_ext. intros. apply store16_out. seg_lia. Qed.

(** Reads through the writes that do not touch what is read. *)
Ltac seg_mem :=
  repeat first
    [ rewrite hw_store32_ne by seg_lia | rewrite hw_store16_ne by seg_lia | rewrite hw_put_ne by seg_lia
    | rewrite load_put_ne by seg_lia | rewrite load_store16_ne by seg_lia
    | rewrite load_store32_ne by seg_lia | rewrite hw_put
    | rewrite load_store32_eq by (unfold is_u32; seg_lia) ].

Lemma pseudo_desc_ok p size : is_u32 p → 0 < size ≤ 65536 → pseudo_desc p size = (size - 1, p).
Proof. unfold is_u32, pseudo_desc, u16. intros. f_equal; zdm. Qed.

(** A selector of the table, as [desc_addr] finds it. *)
Lemma desc_addr_sel c i : 1 ≤ i < 7 → desc_addr (55, cpu_gdt c) (8 * i) = Some (cpu_gdt c + 8 * i).
Proof.
  intros. unfold desc_addr, bits. simpl fst. simpl snd.
  rewrite (proj2 (Z.leb_le 8 (8 * i))) by lia.
  replace (8 * i / 2 ^ 2 mod 2 ^ 1) with 0 by (change (2 ^ 2) with 4; change (2 ^ 1) with 2; zdm).
  replace (8 * i / 8 * 8) with (8 * i) by zdm.
  rewrite (proj2 (Z.leb_le _ 55)) by lia. done.
Qed.

Lemma wp_gsaddr c off s (Q : Z → xstate → Prop) :
  x_gsd s = mkHw (cpu_cpu c) 4095 2 1 0 1 → cpu_fits c → 0 ≤ off < 8 →
  Q (cpu_cpu c + off) s → wp (gsaddr off) Q s.
Proof.
  intros Hg Hc Ho HQ. unfold gsaddr. wstep. apply wp_gets. rewrite Hg. cbn [h_limit h_base].
  rewrite (proj2 (Z.leb_le _ 4095)) by lia. apply wp_ret.
  by rewrite u32_small by (unfold is_u32; seg_lia).
Qed.

(** seginit makes the table ready and touches only its own [struct cpu]. *)
Theorem seginit_spec c s : cpu_fits c →
  wp (seginit c) (λ _ s', seg_ready c s' ∧ load32 (x_mem s') (cpu_cpu c + 4) = 0 ∧
    (∀ x, ¬ (c ≤ x < c + cpu_size) → x_mem s' x = x_mem s x) ∧
    x_idtr s' = x_idtr s ∧ x_cpu s' = x_cpu s ∧ x_cr3 s' = x_cr3 s) s.
Proof.
  intros Hc. unfold seginit, put_seg, lgdt. do 6 (wstep; wstep; cbv beta).
  cbn [x_cpu x_mem set_xmem set_gdtr x_gdtr x_idtr x_gs x_gsd x_tr x_trd x_cr3 x_tickslock].
  rewrite pseudo_desc_ok by (unfold is_u32; seg_lia).
  wstep. unfold loadgs. wstep. apply wp_gets. cbv beta. cbn [x_gdtr set_gdtr].
  wstep. eapply wp_deref; [exact (desc_addr_sel c 3 ltac:(lia))|].
  wstep. apply wp_gets. cbv beta. cbn [x_mem set_xmem set_gdtr].
  change (cpu_gdt c + 8 * 3) with (cpu_gdt c + 8 * SEG_KCPU).
  rewrite hw_put, hw_SEG by (unfold is_u32; seg_lia). cbn [h_p h_s h_type].
  change ((1 =? 1) && (1 =? 1) && ((bits (STA_W mod 16) 3 1 =? 0) || (bits (STA_W mod 16) 1 1 =? 1))) with true.
  cbv iota. wstep. change (u16 (Z.shiftl SEG_KCPU 3)) with 24.
  wstep. eapply wp_gsaddr; [cbn; done|done|lia|].
  wstep. unfold stx. wstep. cbv beta. wstep. eapply wp_gsaddr; [cbn; done|done|lia|]. wstep. cbv beta.
  cbn [x_cpu x_mem set_xmem set_gdtr set_gs x_gdtr x_idtr x_gs x_gsd x_tr x_trd x_cr3 x_tickslock].
  rewrite Z.add_0_r. split_and!; [split| | | | |]; try done;
    cbn [x_cpu x_mem set_xmem set_gdtr set_gs x_gdtr x_idtr x_gs x_gsd x_tr x_trd x_cr3 x_tickslock];
    try (seg_mem; rewrite ?hw_SEG by (unfold is_u32; lia); done).
  intros x Hx. rewrite !store32_out, !put_segdesc_out by seg_lia. done.
Qed.

(** ** tvinit and idtinit *)

Section tvinit.
Context (idt vectors : Z) (s : xstate).
Hypothesis Hok : mem_ok (x_mem s).
Hypothesis Hsep : apart vectors 1024 idt 2048.

Let vec (n : Z) : Z := load32 (x_mem s) (vectors + 4 * n).

(** The gates of the vectors that are not left are done. *)
Let gates_done (left : list Z) (s' : xstate) : Prop :=
  ∃ m, s' = set_xmem m s ∧ (∀ x, ¬ (idt ≤ x < idt + 2048) → m x = x_mem s x) ∧
    ∀ n, 0 ≤ n < 256 → n ∉ left → hwgate_at m (idt + 8 * n) = mkHwGate 8 (vec n) STS_IG32 0 0 1.

Lemma vec_kept m n : (∀ x, ¬ (idt ≤ x < idt + 2048) → m x = x_mem s x) → 0 ≤ n < 256 →
  load32 m (vectors + 4 * n) = vec n.
Proof using Hsep. intros H Hn. apply load32_ext. intros. apply H. seg_lia. Qed.

Lemma gate_step m i t d n : (0 ≤ i < 256) → 0 ≤ n < 256 → n ≠ i →
  hwgate_at (SETGATE m (idt + 8 * i) t 8 (vec i) d) (idt + 8 * n) = hwgate_at m (idt + 8 * n).
Proof using. intros. apply hwgate_ext. intros. apply SETGATE_out. lia. Qed.

Lemma tvinit_loop :
  wp (forM (Z.of_nat <$> seq 0 256) (λ i,
    off ← ldx (vectors + 4 * i);
    modify (λ s, set_xmem (SETGATE (x_mem s) (idt + 8 * i) false (Z.shiftl SEG_KCODE 3) off 0) s)))
    (λ _, gates_done []) s.
Proof using Hok Hsep.
  assert (∀ i, i ∈ Z.of_nat <$> seq 0 256 ↔ 0 ≤ i < 256) as Hi.
  { intros i. rewrite list_elem_of_fmap. setoid_rewrite elem_of_seq. split; [intros (k & -> & ?); lia|].
    intros. exists (Z.to_nat i). lia. }
  revert Hi. generalize (Z.of_nat <$> seq 0 256). intros l Hi. apply wp_forM.
  - exists (x_mem s). split_and!; [by destruct s|done|]. intros n Hn Hl. by apply Hi in Hn.
  - intros i l' s' [pre Hpre] (m & -> & Hout & Hg).
    assert (0 ≤ i < 256) as Hb by (apply Hi; rewrite Hpre; apply elem_of_app; right; left).
    unfold ldx. wstep. wstep. wstep. cbv beta. cbn [x_mem set_xmem]. rewrite vec_kept by done.
    change (Z.shiftl SEG_KCODE 3) with 8.
    eexists. split_and!; [done| |].
    + intros x Hx. rewrite SETGATE_out by lia. by apply Hout.
    + intros n Hn Hl. destruct (decide (n = i)) as [->|Hne].
      * apply (hw_SETGATE _ _ false); [by apply load32_range|lia..].
      * rewrite gate_step by done. apply Hg; [done|]. by apply not_elem_of_cons.
Qed.

Lemma tvinit_spec :
  wp (tvinit idt vectors) (λ _ s', ∃ m, s' = set_xticks (initlock "time" (x_tickslock s)) (set_xmem m s) ∧
    (∀ x, ¬ (idt ≤ x < idt + 2048) → m x = x_mem s x) ∧
    ∀ n, 0 ≤ n < 256 → hwgate_at m (idt + 8 * n) = gate_of vec n) s.
Proof using Hok Hsep.
  unfold tvinit. wstep. eapply wp_mono; [exact tvinit_loop|]. intros _ s' (m & -> & Hout & Hg).
  unfold ldx. wstep. wstep. cbn [x_mem set_xmem]. rewrite vec_kept by (done || seg_lia).
  change (Z.shiftl SEG_KCODE 3) with 8.
  wstep. wstep. wstep. cbv beta. cbn [x_mem set_xmem]. eexists. split_and!; [done| |].
  - intros x Hx. rewrite SETGATE_out by seg_lia. by apply Hout.
  - intros n Hn. unfold gate_of. destruct (Z.eqb_spec n T_SYSCALL) as [->|Hne].
    + apply (hw_SETGATE _ _ true); [by apply load32_range|lia|unfold DPL_USER; lia].
    + rewrite gate_step by (done || seg_lia). apply Hg; [done|apply not_elem_of_nil].
Qed.
End tvinit.

(** tvinit and then idtinit: the interrupt table is ready. *)
Theorem idt_init idt vectors s : mem_ok (x_mem s) → apart vectors 1024 idt 2048 → is_u32 idt →
  wp (tvinit idt vectors ;; idtinit idt) (λ _ s',
    idt_ready idt (λ n, load32 (x_mem s) (vectors + 4 * n)) s' ∧
    (∀ x, ¬ (idt ≤ x < idt + 2048) → x_mem s' x = x_mem s x) ∧
    x_gdtr s' = x_gdtr s ∧ x_gsd s' = x_gsd s ∧ x_cpu s' = x_cpu s ∧ x_cr3 s' = x_cr3 s) s.
Proof.
  intros Hok Hsep Hidt. wstep. eapply wp_mono; [by apply tvinit_spec|]. intros _ s' (m & -> & Hout & Hg).
  unfold idtinit, lidt. wstep. cbv beta. rewrite pseudo_desc_ok by (done || lia).
  split_and!; [split|..]; try done. intros n Hn. by apply load32_range.
Qed.

(** ** switchuvm *)

Lemma load_store16_eq m a v : 0 ≤ v < 65536 → load16 (store16 m a v) a = v.
Proof.
  intros. unfold load16, store16, store8. rewrite Z.eqb_refl.
  rewrite (proj2 (Z.eqb_neq a (a + 1))), Z.eqb_refl by lia. unfold u8. zdm.
Qed.

Lemma load16_ext m m' a : (∀ x, a ≤ x < a + 2 → m x = m' x) → load16 m a = load16 m' a.
Proof. intros H. unfold load16. by rewrite !H by lia. Qed.

Definition TSS_HW (c : Z) : hwdesc := mkHw (cpu_ts c) 103 9 0 0 1.

(** The task state leads to the stack at [esp]. *)
Record tss_ready (c esp : Z) (s : xstate) : Prop := {
  tr_tr : x_tr s = 48;
  tr_desc : x_trd s = TSS_HW c;
  tr_esp0 : load32 (x_mem s) (ts_esp0 (cpu_ts c)) = esp;
  tr_ss0 : load16 (x_mem s) (ts_ss0 (cpu_ts c)) = 16;
}.

Lemma wp_ltr c s (Q : unit → xstate → Prop) :
  x_gdtr s = (55, cpu_gdt c) → hwdesc_at (x_mem s) (cpu_gdt c + 8 * SEG_TSS) = TSS_HW c →
  (∀ v, Q tt (set_tr 48 (TSS_HW c) (set_xmem (store32 (x_mem s) (cpu_gdt c + 8 * SEG_TSS + 4) v) s))) →
  wp (ltr (Z.shiftl SEG_TSS 3)) Q s.
Proof.
  intros Hg Hd HQ. unfold ltr. change (u16 (Z.shiftl SEG_TSS 3)) with (8 * 6).
  wstep. apply wp_gets. rewrite Hg. wstep. eapply wp_deref; [apply (desc_addr_sel c 6); lia|].
  wstep. apply wp_gets. change (cpu_gdt c + 8 * 6) with (cpu_gdt c + 8 * SEG_TSS). rewrite Hd.
  change (((h_p (TSS_HW c)) =? 1) && (h_s (TSS_HW c) =? 0) && (h_type (TSS_HW c) =? STS_T32A)) with true.
  cbv iota. do 3 wstep. apply HQ.
Qed.

(** The descriptor of the task state after the two assignments. *)
Lemma tss_desc c m a : cpu_fits c →
  let m' := put_segdesc m a (SEG16 STS_T32A (cpu_ts c) (ts_size - 1) 0) in
  hw_of (set_s 0 (get_segdesc m' a)) = TSS_HW c.
Proof.
  intros Hc m'. unfold m'. rewrite get_put_segdesc, hw_of_trunc, hw_SEG16 by (unfold is_u32; seg_lia). done.
Qed.

#[export] Instance xcpu_ok : LensOk xcpu.
Proof. split; try done. by intros []. Qed.

Lemma wp_popcli c s (Q : unit → xstate → Prop) :
  cpu_ok c → x_cpu s = pushed c → Q tt (set_xcpu (unpushed c) s) → wp (popcli xcpu) Q s.
Proof.
  intros Hc Hs HQ. unfold wp. replace s with (lput xcpu (pushed c) s) by (rewrite <-Hs; by destruct s).
  rewrite popcli_run; [exact HQ|apply _|done].
Qed.

Lemma wp_switchuvm c p s (Q : unit → xstate → Prop) :
  let q := load32 (x_mem s) (cpu_cpu c + 4) in
  let pgdir := load32 (x_mem s) (proc_pgdir p) in
  cpu_fits c → seg_ready c s → cpu_ok (x_cpu s) →
  apart p 12 c cpu_size → apart q 12 c cpu_size → pgdir ≠ 0 →
  (∀ s', seg_ready c s' → tss_ready c (u32 (load32 (x_mem s) (proc_kstack q) + KSTACKSIZE)) s' →
     (∀ x, ¬ (c ≤ x < c + 168) → x_mem s' x = x_mem s x) →
     x_idtr s' = x_idtr s → x_cr3 s' = v2p pgdir → x_cpu s' = unpushed (x_cpu s) → Q tt s') →
  wp (switchuvm p) Q s.
Proof.
  intros q pgdir Hc Hr Hcpu Hp Hq Hd HQ. destruct Hr as [Hg Hgs Hcv H1 H2 H4 H5].
  unfold switchuvm, put_seg, stx, ldx. wstep. unfold wp at 1. rewrite pushcli_run by apply _.
  wstep. eapply wp_gsaddr; [exact Hgs|done|lia|]. rewrite Z.add_0_r.
  wstep. wstep. cbv beta. cbn [x_mem lput xcpu set_xcpu]. rewrite Hcv.
  wstep. wstep. cbv beta. wstep. wstep. cbv beta. wstep. wstep. cbv beta.
  wstep. wstep. cbv beta. cbn [x_mem lput xcpu set_xcpu set_xmem].
  wstep. eapply wp_gsaddr; [exact Hgs|done|lia|].
  wstep. wstep. cbv beta. cbn [x_mem lput xcpu set_xcpu set_xmem]. seg_mem. fold q.
  wstep. wstep. cbv beta. cbn [x_mem lput xcpu set_xcpu set_xmem]. seg_mem.
  wstep. wstep. cbv beta. cbn [x_mem lput xcpu set_xcpu set_xmem].
  wstep. eapply wp_ltr; [exact Hg| |]; cbn [x_mem lput xcpu set_xcpu set_xmem].
  { seg_mem. by apply (tss_desc c). }
  intros v. wstep. wstep. cbv beta. cbn [x_mem lput xcpu set_xcpu set_xmem set_tr]. seg_mem. fold pgdir.
  rewrite (proj2 (Z.eqb_neq pgdir 0)) by done. unfold lcr3. wstep. wstep. cbv beta.
  eapply wp_popcli; [done..|].
  apply HQ; cbn [x_cpu x_mem lput xcpu set_xcpu set_xmem set_tr set_xcr3 x_cr3 x_idtr]; try done.
  - split; try done; cbn [x_cpu x_mem lput xcpu set_xcpu set_xmem set_tr set_xcr3 x_cr3 x_idtr]; by seg_mem.
  - split; try done; cbn [x_cpu x_mem lput xcpu set_xcpu set_xmem set_tr set_xcr3 x_cr3 x_idtr].
    + seg_mem. apply load_store32_eq, u32_range.
    + erewrite load16_ext; [apply load_store16_eq; lia|].
      intros x Hx. rewrite !store32_out by seg_lia. reflexivity.
  - intros x Hx. rewrite !store32_out, store16_out, !put_segdesc_out by seg_lia. done.
Qed.

(** ** What the tables make of an interrupt *)

(** The flags with which the handler of vector [n] starts: interrupts are off
    but for a system call. *)
Definition entry_flags (f n : Z) : Z :=
  let f := Z.ldiff f FL_CLEARED in if n =? T_SYSCALL then f else Z.ldiff f FL_IF.

Lemma stack0_ready c esp s : seg_ready c s → tss_ready c esp s → stack0 s = Some (16, esp).
Proof.
  intros [Hg _ _ _ H2 _ _] [_ Ht He Hs]. unfold stack0. rewrite Ht. cbn [h_limit h_base TSS_HW].
  change (103 <? 11) with false. cbv iota. rewrite He, Hs, Hg.
  rewrite (desc_addr_sel c 2 ltac:(lia) : desc_addr _ 16 = _). cbn [mbind option_bind].
  change (8 * 2) with (8 * SEG_KDATA). rewrite H2. done.
Qed.

Lemma deliver_ready c idt vec esp s n cpl soft :
  seg_ready c s → idt_ready idt vec s → tss_ready c esp s → 0 ≤ n < 256 → cpl = 0 ∨ cpl = 3 →
  deliver s n cpl soft =
    if soft && negb (n =? T_SYSCALL) && (cpl =? 3) then None
    else Some (mkEntry 0 (vec n) (if cpl =? 3 then Some (16, esp) else None)
                 (entry_flags (eflags (x_cpu s)) n)).
Proof.
  intros Hs Hi Ht Hn Hcpl. pose proof (stack0_ready _ _ _ Hs Ht) as Hst.
  destruct Hi as [Hi Hu Hv]. unfold deliver. rewrite Hi. cbn [fst snd].
  rewrite (proj2 (Z.ltb_ge 2047 (8 * n + 7))) by lia. rewrite Hv by done. unfold gate_of.
  cbn [hg_p hg_s hg_type hg_dpl hg_sel hg_off].
  assert (negb ((1 =? 1) && (0 =? 0) && (((if n =? T_SYSCALL then STS_TG32 else STS_IG32) =? STS_IG32)
    || ((if n =? T_SYSCALL then STS_TG32 else STS_IG32) =? STS_TG32))) = false) as -> by (by destruct (n =? T_SYSCALL)).
  assert (soft && ((if n =? T_SYSCALL then DPL_USER else 0) <? cpl) = soft && negb (n =? T_SYSCALL) && (cpl =? 3)) as ->.
  { destruct Hcpl as [-> | ->], soft; by destruct (n =? T_SYSCALL). }
  destruct (_ && (cpl =? 3)); [done|].
  rewrite (sr_gdtr c s Hs). rewrite (desc_addr_sel c 1 ltac:(lia) : desc_addr _ 8 = _).
  cbn [mbind option_bind]. change (8 * 1) with (8 * SEG_KCODE). rewrite (sr_kcode c s Hs).
  cbn [h_p h_s h_type h_dpl h_limit h_base KCODE_HW].
  pose proof (Hu n Hn) as Hun. unfold is_u32 in Hun.
  rewrite (proj2 (Z.leb_le (vec n) 4294967295)) by lia.
  rewrite (proj2 (Z.leb_le 0 cpl)) by lia.
  change (bits 10 3 1) with 1. change (bits 10 2 1) with 0. cbn [Z.eqb Pos.eqb andb negb].
  rewrite Hst. cbn [mbind option_bind].
  destruct Hcpl as [-> | ->]; simpl (_ <? _); simpl (_ =? 3); cbv iota; do 2 f_equal; unfold entry_flags;
    by destruct (n =? T_SYSCALL).
Qed.

(** [C12] An interrupt of a user program.  After switchuvm of the current
    process p, an interrupt or exception n that arrives in user mode enters
    the kernel at vectors[n], at privilege 0, on the kernel stack of p, with
    interrupts off unless n is the system call; INT n in user mode does the
    same for the system call and is refused for every other n; in the kernel
    the stack stays the current one.  The address space is that of p, the
    tables and the nesting of pushcli are as before, so this holds after every
    later switchuvm too. *)
Theorem trap_entry c p idt vec s :
  let kstack := load32 (x_mem s) (proc_kstack p) in
  let pgdir := load32 (x_mem s) (proc_pgdir p) in
  cpu_fits c → seg_ready c s → idt_ready idt vec s → cpu_ok (x_cpu s) →
  load32 (x_mem s) (cpu_cpu c + 4) = p →
  apart p 12 c cpu_size → apart idt 2048 c cpu_size → pgdir ≠ 0 →
  wp (switchuvm p) (λ _ s',
    seg_ready c s' ∧ idt_ready idt vec s' ∧ x_cr3 s' = v2p pgdir ∧ x_cpu s' = unpushed (x_cpu s) ∧
    load32 (x_mem s') (cpu_cpu c + 4) = p ∧
    ∀ n, 0 ≤ n < 256 →
      let f := entry_flags (eflags (x_cpu s')) n in
      let user := Some (mkEntry 0 (vec n) (Some (8 * SEG_KDATA, u32 (kstack + KSTACKSIZE))) f) in
      deliver s' n DPL_USER false = user ∧
      deliver s' n DPL_USER true = (if n =? T_SYSCALL then user else None) ∧
      deliver s' n 0 false = Some (mkEntry 0 (vec n) None f)) s.
Proof.
  intros kstack pgdir Hc Hs Hi Hcpu Hp Hpa Hia Hd.
  apply (wp_switchuvm c p); rewrite ?Hp; try done.
  intros s' Hs' Ht' Hout Hidt Hcr3 Hcpu'.
  assert (idt_ready idt vec s') as Hi'.
  { destruct Hi as [H1 H2 H3]. split; [by rewrite Hidt|done|]. intros n Hn. rewrite <-H3 by done.
    apply hwgate_ext. intros x Hx. apply Hout. seg_lia. }
  split_and!; try done.
  - rewrite <-Hp. apply load32_ext. intros x Hx. apply Hout. seg_lia.
  - intros n Hn f user. unfold user, f, DPL_USER.
    rewrite !(deliver_ready c idt vec _ s' n) by (eauto; lia).
    split_and!; try done. destruct (n =? T_SYSCALL); done.
Qed.

(** ** A machine: the vectors at 4096, the interrupt table at 8192, the
    [struct cpu] at 16384 and a process at 32768 *)

Definition vectors0 (n : Z) : Z := load32 (λ x, x mod 251) (4096 + 4 * n).

Definition x0 : xstate :=
  mkX cpu0 (store32 (store32 (λ x, x mod 251) (proc_pgdir 32768) 2147487744) (proc_kstack 32768) 2147491840)
    (0, 0) (0, 0) 0 (mkHw 0 0 0 0 0 0) 0 (mkHw 0 0 0 0 0 0) 0 lock0.

Definition boot_tables : M xstate unit :=
  (tvinit 8192 4096 ;; idtinit 8192) ;; seginit 16384 ;; stx (cpu_cpu 16384 + 4) 32768.

Lemma boot_tables_ready :
  wp boot_tables (λ _ s, seg_ready 16384 s ∧ idt_ready 8192 vectors0 s ∧ x_cpu s = cpu0 ∧
    load32 (x_mem s) (cpu_cpu 16384 + 4) = 32768 ∧
    load32 (x_mem s) (proc_pgdir 32768) = 2147487744 ∧ load32 (x_mem s) (proc_kstack 32768) = 2147491840) x0.
Proof.
  unfold boot_tables. wstep. eapply wp_mono; [apply idt_init|].
  { intros x. unfold x0. cbn [x_mem]. apply store32_ok, store32_ok. intros y. unfold is_u8. zdm. }
  { seg_lia. } { unfold is_u32; lia. }
  intros _ s1 (Hi & Ho1 & _ & _ & Hc1 & _). wstep. eapply wp_mono; [apply seginit_spec; seg_lia|].
  intros _ s2 (Hs & _ & Ho2 & Hi2 & Hc2 & _). unfold stx. wstep. cbv beta.
  assert (∀ x, x < 16384 ∨ 16384 + 188 ≤ x →
    store32 (x_mem s2) (cpu_cpu 16384 + 4) 32768 x = x_mem s1 x) as Hx.
  { intros x Hx. rewrite store32_out by seg_lia. apply Ho2. seg_lia. }
  assert (∀ a v, a = 32768 + 4 ∨ a = 32768 + 8 → load32 (x_mem x0) a = v →
    load32 (store32 (x_mem s2) (cpu_cpu 16384 + 4) 32768) a = v) as Hp.
  { intros a v Ha <-. apply load32_ext. intros x ?. rewrite Hx by lia. apply Ho1. lia. }
  split_and!; cbn [x_cpu x_mem set_xmem].
  - destruct Hs as [H1 H2 H3 H4 H5 H6 H7]. split; cbn [x_mem x_gdtr x_gsd set_xmem]; try done; by seg_mem.
  - destruct Hi as [H1 H2 H3]. split; cbn [x_mem x_idtr set_xmem]; [congruence|..].
    + intros n Hn. apply load32_range. intros y. unfold is_u8. zdm.
    + intros n Hn. transitivity (hwgate_at (x_mem s1) (8192 + 8 * n)).
      { apply hwgate_ext. intros x ?. apply Hx. lia. }
      rewrite H3 by done. unfold gate_of, vectors0. f_equal. apply load32_ext. intros x ?. unfold x0. cbn [x_mem].
      by rewrite !store32_out by seg_lia.
  - by rewrite Hc2, Hc1.
  - seg_mem. done.
  - apply Hp; [seg_lia|]. done.
  - apply Hp; [seg_lia|]. done.
Qed.

Lemma trap_entry_witness :
  wp (boot_tables ;; switchuvm 32768) (λ _ s,
    deliver s T_SYSCALL DPL_USER true =
      Some (mkEntry 0 (vectors0 64) (Some (16, 2147495936)) (entry_flags (eflags (x_cpu s)) 64)) ∧
    deliver s 14 DPL_USER true = None) x0.
Proof.
  wstep. eapply wp_mono; [exact boot_tables_ready|].
  intros _ s (Hs & Hi & Hc & Hv & Hd & Hk).
  eapply wp_mono; [apply (trap_entry 16384 32768 8192 vectors0 s)|].
  - seg_lia.
  - exact Hs.
  - exact Hi.
  - rewrite Hc. split; simpl; lia.
  - exact Hv.
  - seg_lia.
  - seg_lia.
  - rewrite Hd. lia.
  - intros _ s' (_ & _ & _ & _ & _ & H). rewrite Hk in H.
    destruct (H 64 ltac:(lia)) as (_ & H1 & _). destruct (H 14 ltac:(lia)) as (_ & H2 & _).
    split; [exact H1|exact H2].
Defined.
