(* ===== verification/Mp.v ===== *)
(** * The multiprocessor tables (xv6/mp.c, mp.h)

    The BIOS leaves a floating pointer structure somewhere in low memory; it
    leads to a configuration table with one entry per processor, bus, I/O
    APIC and interrupt line.  mpinit finds both and counts the processors.
    The tables are read where they are, as bytes of the kernel's memory. *)

From S2P Require Import Prelude Kernel Spinlock CString Kalloc.
Local Open Scope Z_scope.

Definition NCPU : nat := 8.

(** ** State: the globals of mp.c, the ports written, the messages printed *)

Inductive mpmsg := MsgApic (ncpu apicid : Z) | MsgType (t : Z).

Record mpstate := mkMp {
  ms_mem : mem;
  ms_ids : list Z;            (* cpus[i].id *)
  bcpu : Z;                   (* the index of the boot processor in cpus *)
  ismp : Z;
  ncpu : Z;
  ioapicid : Z;
  lapic : Z;
  ms_out : list (Z * Z);      (* outb, in order *)
  ms_in : Z → Z;              (* inb *)
  ms_log : list mpmsg;
}.

Definition set_ids v s := mkMp (ms_mem s) v (bcpu s) (ismp s) (ncpu s) (ioapicid s) (lapic s) (ms_out s) (ms_in s) (ms_log s).
Definition set_bcpu v s := mkMp (ms_mem s) (ms_ids s) v (ismp s) (ncpu s) (ioapicid s) (lapic s) (ms_out s) (ms_in s) (ms_log s).
Definition set_ismp v s := mkMp (ms_mem s) (ms_ids s) (bcpu s) v (ncpu s) (ioapicid s) (lapic s) (ms_out s) (ms_in s) (ms_log s).
Definition set_ncpu v s := mkMp (ms_mem s) (ms_ids s) (bcpu s) (ismp s) v (ioapicid s) (lapic s) (ms_out s) (ms_in s) (ms_log s).
Definition set_ioapicid v s := mkMp (ms_mem s) (ms_ids s) (bcpu s) (ismp s) (ncpu s) v (lapic s) (ms_out s) (ms_in s) (ms_log s).
Definition set_lapic v s := mkMp (ms_mem s) (ms_ids s) (bcpu s) (ismp s) (ncpu s) (ioapicid s) v (ms_out s) (ms_in s) (ms_log s).
Definition set_out v s := mkMp (ms_mem s) (ms_ids s) (bcpu s) (ismp s) (ncpu s) (ioapicid s) (lapic s) v (ms_in s) (ms_log s).
Definition set_log v s := mkMp (ms_mem s) (ms_ids s) (bcpu s) (ismp s) (ncpu s) (ioapicid s) (lapic s) (ms_out s) (ms_in s) v.

Definition mp_outb (port v : Z) : M mpstate unit := modify (λ s, set_out (ms_out s ++ [(port, v)]) s).
Definition mp_print (x : mpmsg) : M mpstate unit := modify (λ s, set_log (ms_log s ++ [x]) s).

(** ** mp.h: the fields that are read, at their offsets *)

Definition mp_bytes : Z := 16.                             (* sizeof(struct mp) *)
Definition mp_physaddr (m : mem) (p : Z) : Z := load32 m (p + 4).
Definition mp_imcrp (m : mem) (p : Z) : Z := m (p + 12).

Definition mpconf_bytes : Z := 44.                         (* sizeof(struct mpconf) *)
Definition conf_length (m : mem) (p : Z) : Z := m (p + 4) + 256 * m (p + 5).
Definition conf_version (m : mem) (p : Z) : Z := m (p + 6).
Definition conf_lapicaddr (m : mem) (p : Z) : Z := load32 m (p + 36).

Definition mpproc_bytes : Z := 20.                         (* sizeof(struct mpproc) *)
Definition proc_apicid (m : mem) (p : Z) : Z := m (p + 1).
Definition proc_flags (m : mem) (p : Z) : Z := m (p + 3).
Definition MPBOOT : Z := 2.

Definition mpioapic_bytes : Z := 8.                        (* sizeof(struct mpioapic) *)
Definition ioapic_apicno (m : mem) (p : Z) : Z := m (p + 1).

Definition MPPROC : Z := 0.
Definition MPBUS : Z := 1.
Definition MPIOAPIC : Z := 2.
Definition MPIOINTR : Z := 3.
Definition MPLINTR : Z := 4.

(** ** mp.c *)

Definition mpbcpu (s : mpstate) : Z := bcpu s.

Fixpoint sum_loop (m : mem) (addr : Z) (len : nat) (sum : Z) : Z :=
  match len with
  | O => sum
  | S len => sum_loop m (addr + 1) len (sum + m addr)
  end.

Definition sum (m : mem) (addr len : Z) : Z := u8 (sum_loop m addr (Z.to_nat len) 0).

Definition sig_mp : list Z := [95; 77; 80; 95].            (* "_MP_" *)
Definition sig_pcmp : list Z := [80; 67; 77; 80].          (* "PCMP" *)

Definition sig_eq (m : mem) (p : Z) (sig : list Z) : bool :=
  memcmp (stream m p) (λ i, nth i sig 0) 0 4 =? 0.

(** Is there a floating pointer structure at p? *)
Definition mp_here (m : mem) (p : Z) : bool :=
  sig_eq m p sig_mp && (sum m p mp_bytes =? 0).

Fixpoint mpsearch1_loop (m : mem) (p e : Z) (n : nat) : Z :=
  match n with
  | O => 0
  | S n =>
      if p <? e then
        if mp_here m p then p else mpsearch1_loop m (p + mp_bytes) e n
      else 0
  end.

Definition mpsearch1 (m : mem) (a len : Z) : Z :=
  let addr := p2v a in
  mpsearch1_loop m addr (addr + len) (S (Z.to_nat (len / mp_bytes))).

Definition mpsearch (m : mem) : Z :=
  let bda := p2v 1024 in
  let p := Z.shiftl (Z.lor (Z.shiftl (m (bda + 15)) 8) (m (bda + 14))) 4 in
  let q := Z.lor (Z.shiftl (m (bda + 20)) 8) (m (bda + 19)) * 1024 in
  let mp := if negb (p =? 0) then mpsearch1 m p 1024 else mpsearch1 m (u32 (q - 1024)) 1024 in
  if negb (mp =? 0) then mp else mpsearch1 m 983040 65536.

(** The table and the structure that led to it. *)
Definition mpconfig (m : mem) : option (Z * Z) :=
  let mp := mpsearch m in
  if (mp =? 0) || (mp_physaddr m mp =? 0) then None else
  let conf := p2v (mp_physaddr m mp) in
  if negb (sig_eq m conf sig_pcmp) then None else
  if negb (conf_version m conf =? 1) && negb (conf_version m conf =? 4) then None else
  if negb (sum m conf (conf_length m conf) =? 0) then None else
  Some (conf, mp).

(** The pass over the entries from p to e.  An entry of another type is
    reported and met again: the switch leaves p where it is.  [fuel] bounds
    the number of rounds. *)
Fixpoint mp_entries (fuel : nat) (p e : Z) : M mpstate unit :=
  match fuel with
  | O => spins
  | S fuel =>
      if negb (p <? e) then mret tt else
      m ← gets ms_mem;
      let t := m p in
      if t =? MPPROC then
        n ← gets ncpu;
        (if negb (n =? proc_apicid m p)
         then mp_print (MsgApic n (proc_apicid m p)) ;; modify (set_ismp 0) else mret tt) ;;
        (if negb (Z.land (proc_flags m p) MPBOOT =? 0) then modify (set_bcpu n) else mret tt) ;;
        ids ← gets ms_ids;
        _ ← deref (ids !! Z.to_nat n);
        modify (set_ids (<[Z.to_nat n := u8 n]> ids)) ;;
        modify (set_ncpu (n + 1)) ;;
        mp_entries fuel (p + mpproc_bytes) e
      else if t =? MPIOAPIC then
        modify (set_ioapicid (ioapic_apicno m p)) ;;
        mp_entries fuel (p + mpioapic_bytes) e
      else if (t =? MPBUS) || (t =? MPIOINTR) || (t =? MPLINTR) then
        mp_entries fuel (p + 8) e
      else
        mp_print (MsgType t) ;;
        modify (set_ismp 0) ;;
        mp_entries fuel p e
  end.

Definition mpinit (fuel : nat) : M mpstate unit :=
  modify (set_bcpu 0) ;;
  m ← gets ms_mem;
  match mpconfig m with
  | None => mret tt
  | Some (conf, mp) =>
      modify (set_ismp 1) ;;
      modify (set_lapic (conf_lapicaddr m conf)) ;;
      mp_entries fuel (conf + mpconf_bytes) (conf + conf_length m conf) ;;
      b ← gets ismp;
      if b =? 0 then
        modify (set_ncpu 1) ;;
        modify (set_lapic 0) ;;
        modify (set_ioapicid 0)
      else if negb (mp_imcrp m mp =? 0) then
        mp_outb 34 112 ;;
        v ← gets (λ s, ms_in s 35);
        mp_outb 35 (Z.lor v 1)
      else mret tt
  end.

(** ** The search *)

Lemma sum_loop_acc m a n x : sum_loop m a n x = x + sum_loop m a n 0.
Proof.
  revert a x. induction n as [|n IH]; intros a x; simpl; [lia|]. rewrite IH, (IH _ (m a)). lia.
Qed.

(** The checksum is the sum of the bytes modulo 256. *)
Lemma sum_spec m a bs : (∀ i b, bs !! i = Some b → m (a + Z.of_nat i) = b) →
  sum m a (Z.of_nat (length bs)) = foldr Z.add 0 bs mod 256.
Proof.
  intros H. unfold sum, u8. rewrite Nat2Z.id. f_equal. revert a H.
  induction bs as [|b bs IH]; intros a H; [done|]. cbn [length sum_loop foldr].
  rewrite sum_loop_acc, (IH (a + 1)).
  - rewrite <-(H 0%nat b) by done. rewrite Z.add_0_r. lia.
  - intros i c Hi. rewrite <-(H (S i) c) by done. f_equal. lia.
Qed.

(** The n places from a where a structure can start. *)
Definition places (a : Z) (n : nat) : list Z := (λ i, a + mp_bytes * Z.of_nat i) <$> seq 0 n.

Lemma places_S a n : places a (S n) = a :: places (a + mp_bytes) n.
Proof.
  unfold places. cbn [seq fmap list_fmap]. f_equal; [lia|]. rewrite <-fmap_S_seq, <-list_fmap_compose.
  apply list_fmap_ext. intros ?? _. unfold compose. lia.
Qed.

Lemma mpsearch1_loop_spec m p n : 0 < p →
  mpsearch1_loop m p (p + mp_bytes * Z.of_nat n) (S n) =
  default 0 (List.find (mp_here m) (places p n)).
Proof.
  revert p. unfold mp_bytes at 1. induction n as [|n IH]; intros p Hp.
  - cbn [mpsearch1_loop]. by rewrite (proj2 (Z.ltb_ge p _)) by lia.
  - rewrite places_S. cbn [List.find].
    change (mpsearch1_loop m p ?e (S (S n))) with
      (if p <? e then if mp_here m p then p else mpsearch1_loop m (p + 16) e (S n) else 0).
    rewrite (proj2 (Z.ltb_lt p _)) by lia.
    destruct (mp_here m p); [done|]. rewrite <-IH by (unfold mp_bytes; lia).
    unfold mp_bytes. f_equal. lia.
Qed.

Lemma mpsearch1_spec m a n : 0 < p2v a →
  mpsearch1 m a (16 * Z.of_nat n) = default 0 (List.find (mp_here m) (places (p2v a) n)).
Proof.
  intros Ha. unfold mpsearch1. replace (Z.to_nat (16 * Z.of_nat n / mp_bytes)) with n.
  - by apply mpsearch1_loop_spec.
  - unfold mp_bytes. rewrite Z.mul_comm, Z.div_mul by lia. lia.
Qed.

(** The places of the search, in order: the first KB of the extended BIOS
    data area, or without one the last KB of base memory; then the BIOS. *)
Definition ebda (m : mem) : Z := 16 * (256 * m (p2v 1024 + 15) + m (p2v 1024 + 14)).
Definition base_end (m : mem) : Z := 1024 * (256 * m (p2v 1024 + 20) + m (p2v 1024 + 19)).

Definition mp_places (m : mem) : list Z :=
  places (if ebda m =? 0 then p2v (u32 (base_end m - 1024)) else p2v (ebda m)) 64 ++ places (p2v 983040) 4096.

Lemma lor_bytes h l : is_u8 h → is_u8 l → Z.lor (Z.shiftl h 8) l = 256 * h + l.
Proof.
  unfold is_u8. intros Hh Hl. rewrite Z.shiftl_mul_pow2 by lia. change (2 ^ 8) with 256.
  rewrite <-Z.lxor_lor, <-Z.add_nocarry_lxor; try lia.
  all: apply Z.bits_inj'; intros n Hn; rewrite Z.land_spec, Z.bits_0; change 256 with (2 ^ 8).
  all: destruct (Z.lt_ge_cases n 8); [by rewrite Z.mul_pow2_bits_low|].
  all: rewrite (Z.bits_above_log2 l n), andb_false_r; [done|lia|].
  all: destruct (Z.eq_dec l 0) as [-> |]; [simpl; lia|apply Z.log2_lt_pow2; [lia|]].
  all: apply Z.lt_le_trans with (2 ^ 8); [lia|apply Z.pow_le_mono_r; lia].
Qed.

Lemma find_app {A} (P : A → bool) l k :
  List.find P (l ++ k) = match List.find P l with Some x => Some x | None => List.find P k end.
Proof. induction l as [|x l IH]; simpl; [done|]. by destruct (P x). Qed.

Lemma find_pos (P : Z → bool) a n x : 0 < a → List.find P (places a n) = Some x → x ≠ 0.
Proof.
  intros Ha H. apply List.find_some in H as [H _]. apply list_elem_of_In, list_elem_of_fmap in H as (i & -> & _).
  unfold mp_bytes. lia.
Qed.

(** mpsearch finds the first structure of the places, 0 when there is none. *)
Theorem mpsearch_spec m : mem_ok m → mpsearch m = default 0 (List.find (mp_here m) (mp_places m)).
Proof.
  intros Hm. unfold mpsearch, mp_places. rewrite !lor_bytes by apply Hm. rewrite Z.shiftl_mul_pow2 by lia.
  replace ((256 * m (p2v 1024 + 15) + m (p2v 1024 + 14)) * 2 ^ 4) with (ebda m) by (unfold ebda; lia).
  replace ((256 * m (p2v 1024 + 20) + m (p2v 1024 + 19)) * 1024) with (base_end m) by (unfold base_end; lia).
  set (a := if ebda m =? 0 then p2v (u32 (base_end m - 1024)) else p2v (ebda m)).
  assert (0 < a) as Ha.
  { assert (0 ≤ ebda m < 1048576 ∧ 0 ≤ base_end m < 67108864) as [H1 H2].
    { pose proof (Hm (p2v 1024 + 15)). pose proof (Hm (p2v 1024 + 14)).
      pose proof (Hm (p2v 1024 + 20)). pose proof (Hm (p2v 1024 + 19)).
      unfold ebda, base_end, is_u8 in *. lia. }
    unfold a, p2v, u32, KERNBASE. case_if; zdm. }
  replace (if negb (ebda m =? 0) then mpsearch1 m (ebda m) 1024 else mpsearch1 m (u32 (base_end m - 1024)) 1024)
    with (default 0 (List.find (mp_here m) (places a 64))).
  - rewrite find_app. destruct (List.find (mp_here m) (places a 64)) as [x|] eqn:E; cbn [default from_option id].
    + apply find_pos in E; [|done]. change (default 0 (Some x)) with x. by rewrite (proj2 (Z.eqb_neq x 0)).
    + pose proof (mpsearch1_spec m 983040 4096 ltac:(by vm_compute)) as H.
      by change (16 * Z.of_nat 4096) with 65536 in H.
  - assert (∀ x, 0 < p2v x → mpsearch1 m x 1024 = default 0 (List.find (mp_here m) (places (p2v x) 64))) as H.
    { intros x Hx. pose proof (mpsearch1_spec m x 64 Hx) as H. by change (16 * Z.of_nat 64) with 1024 in H. }
    unfold a in *. destruct (ebda m =? 0); cbn [negb]; symmetry; by apply H.
Qed.

(** ** The entries of a configuration table *)

Inductive mpentry :=
  | Processor (apicid version flags : Z) (rest : list Z)
  | IoApic (apicno : Z) (rest : list Z)
  | OtherEntry (t : Z) (rest : list Z).

Definition encode (x : mpentry) : list Z :=
  match x with
  | Processor a v f r => MPPROC :: a :: v :: f :: r
  | IoApic a r => MPIOAPIC :: a :: r
  | OtherEntry t r => t :: r
  end.

Definition entry_ok (x : mpentry) : Prop :=
  match x with
  | Processor _ _ _ r => length r = 16%nat
  | IoApic _ r => length r = 6%nat
  | OtherEntry t r => (t = MPBUS ∨ t = MPIOINTR ∨ t = MPLINTR) ∧ length r = 7%nat
  end.

Definition table (es : list mpentry) : list Z := concat (encode <$> es).

Definition holds (m : mem) (p : Z) (bs : list Z) : Prop :=
  ∀ i b, bs !! i = Some b → m (p + Z.of_nat i) = b.

Lemma holds_app m p a b : holds m p (a ++ b) ↔ holds m p a ∧ holds m (p + Z.of_nat (length a)) b.
Proof.
  unfold holds. split.
  - intros H. split; intros i x Hi; [apply H; by apply lookup_app_l_Some|].
    rewrite <-Z.add_assoc, <-Nat2Z.inj_add. apply H. rewrite lookup_app_r by lia. rewrite <-Hi. f_equal. lia.
  - intros [Ha Hb] i x Hi. apply lookup_app_Some in Hi as [Hi|[Hl Hi]]; [by apply Ha|].
    rewrite <-(Hb _ _ Hi). f_equal. lia.
Qed.

(** What one entry does to the globals. *)
Definition step_entry (s : mpstate) (x : mpentry) : mpstate :=
  match x with
  | Processor a _ f _ =>
      let n := ncpu s in
      let s := if n =? a then s else set_ismp 0 (set_log (ms_log s ++ [MsgApic n a]) s) in
      let s := if Z.land f MPBOOT =? 0 then s else set_bcpu n s in
      set_ncpu (n + 1) (set_ids (<[Z.to_nat n := u8 n]> (ms_ids s)) s)
  | IoApic a _ => set_ioapicid a s
  | OtherEntry _ _ => s
  end.

Definition is_proc (x : mpentry) : bool := match x with Processor _ _ _ _ => true | _ => false end.
Definition procs_of (es : list mpentry) : list mpentry := List.filter is_proc es.

Lemma step_entry_mem s x : ms_mem (step_entry s x) = ms_mem s.
Proof. destruct x; simpl; repeat case_if; done. Qed.
Lemma step_entry_ids s x : length (ms_ids (step_entry s x)) = length (ms_ids s).
Proof. destruct x; simpl; repeat case_if; simpl; by rewrite ?length_insert. Qed.
Lemma step_entry_ncpu s x : ncpu (step_entry s x) = ncpu s + (if is_proc x then 1 else 0).
Proof. destruct x; simpl; repeat case_if; simpl; lia. Qed.

(** One round of the loop. *)
Lemma mp_entries_step f p e s x :
  holds (ms_mem s) p (encode x) → entry_ok x → p < e →
  (is_proc x = true → 0 ≤ ncpu s < Z.of_nat (length (ms_ids s))) →
  mp_entries (S f) p e s = mp_entries f (p + Z.of_nat (length (encode x))) e (step_entry s x).
Proof.
  intros Hh Hok Hp Hn. cbn [mp_entries]. rewrite (proj2 (Z.ltb_lt p e)) by done. cbn [negb].
  assert (∀ b, encode x !! 0%nat = Some b → ms_mem s p = b) as H0.
  { intros b Hb. apply Hh in Hb. by rewrite Z.add_0_r in Hb. }
  destruct x as [a v fl r|a r|t r]; simpl in Hok.
  - pose proof (Hh 1%nat a eq_refl : ms_mem s (p + 1) = a) as H1.
    pose proof (Hh 3%nat fl eq_refl : ms_mem s (p + 3) = fl) as H3.
    specialize (H0 _ eq_refl). specialize (Hn eq_refl).
    destruct (lookup_lt_is_Some_2 (ms_ids s) (Z.to_nat (ncpu s)) ltac:(lia)) as [y Hy].
    unfold mbind, M_bind, gets. rewrite H0. unfold proc_apicid, proc_flags. change (MPPROC =? MPPROC) with true.
    cbv iota beta. rewrite H1, H3. cbn [encode length]. rewrite Hok.
    clear Hh H0 H1 H3. unfold step_entry. destruct s as [m ids b i n io l o inp lg]. cbn [ncpu ms_ids] in *.
    destruct (n =? a), (Z.land fl MPBOOT =? 0); cbn; rewrite Hy; done.
  - pose proof (Hh 1%nat a eq_refl : ms_mem s (p + 1) = a) as H1. specialize (H0 _ eq_refl).
    unfold mbind, M_bind, gets. rewrite H0. unfold ioapic_apicno.
    change (MPIOAPIC =? MPPROC) with false. change (MPIOAPIC =? MPIOAPIC) with true.
    cbv iota beta. rewrite H1. cbn [encode length]. by rewrite Hok.
  - specialize (H0 _ eq_refl). destruct Hok as [Ht Hr]. cbn [encode length]. rewrite Hr.
    unfold mbind, M_bind, gets. rewrite H0. destruct Ht as [-> | [-> | ->]]; done.
Qed.

Lemma mp_entries_run es f p e s :
  holds (ms_mem s) p (table es) → Forall entry_ok es → p + Z.of_nat (length (table es)) ≤ e →
  0 ≤ ncpu s → ncpu s + Z.of_nat (length (procs_of es)) ≤ Z.of_nat (length (ms_ids s)) →
  mp_entries (length es + f) p e s =
  mp_entries f (p + Z.of_nat (length (table es))) e (foldl step_entry s es).
Proof.
  intros Hh Hok. revert p s Hh. induction Hok as [|x es Hx Hok IH]; intros p s Hh He Hn Hl.
  { cbn. by rewrite Z.add_0_r. }
  change (table (x :: es)) with (encode x ++ table es) in *.
  apply holds_app in Hh as [H1 H2]. rewrite length_app in *.
  assert (0 < length (encode x))%nat by (destruct x; simpl; lia).
  unfold procs_of in *. cbn [List.filter] in Hl.
  change (length (x :: es) + f)%nat with (S (length es + f)).
  rewrite (mp_entries_step _ _ _ s x); [|done..|lia|].
  - cbn [foldl]. rewrite IH.
    + f_equal. lia.
    + by rewrite step_entry_mem.
    + lia.
    + rewrite step_entry_ncpu. destruct (is_proc x); lia.
    + rewrite step_entry_ncpu, step_entry_ids. destruct (is_proc x); simpl in Hl; lia.
  - intros Hp. rewrite Hp in Hl. simpl in Hl. lia.
Qed.

Definition apicid_of (x : mpentry) : option Z :=
  match x with Processor a _ _ _ => Some a | _ => None end.
Definition flags_of (x : mpentry) : option Z :=
  match x with Processor _ _ f _ => Some f | _ => None end.
Definition apicno_of (x : mpentry) : option Z :=
  match x with IoApic a _ => Some a | _ => None end.

(** The APIC ids and the flags of the processors, and the ids of the I/O APICs. *)
Definition apicids (es : list mpentry) : list Z := omap apicid_of es.
Definition cpuflags (es : list mpentry) : list Z := omap flags_of es.
Definition ioapics (es : list mpentry) : list Z := omap apicno_of es.

Definition boots (f : Z) : Prop := Z.land f MPBOOT ≠ 0.

(** The processor b that started the machine: the last one marked, 0 if none is. *)
Definition boot_cpu (fl : list Z) (b : Z) : Prop :=
  (b = 0 ∧ ∀ i f, fl !! i = Some f → ¬ boots f) ∨
  (∃ f, 0 ≤ b ∧ fl !! Z.to_nat b = Some f ∧ boots f ∧
     ∀ j g, (Z.to_nat b < j)%nat → fl !! j = Some g → ¬ boots g).

(** What the pass leaves, from the entries seen so far. *)
Record pass_of (s : mpstate) (es : list mpentry) (s' : mpstate) : Prop := {
  po_mem : ms_mem s' = ms_mem s;
  po_len : length (ms_ids s') = length (ms_ids s);
  po_lapic : lapic s' = lapic s;
  po_out : ms_out s' = ms_out s;
  po_in : ms_in s' = ms_in s;
  po_ncpu : ncpu s' = Z.of_nat (length (apicids es));
  po_ismp : ismp s' = if bool_decide (apicids es = seqZ 0 (ncpu s')) then ismp s else 0;
  po_ioapic : ioapicid s' = default (ioapicid s) (last (ioapics es));
  po_boot : boot_cpu (cpuflags es) (bcpu s');
  po_ids i : ms_ids s' !! i = if (decide (i < length (apicids es))%nat) then Some (Z.of_nat i) else ms_ids s !! i;
}.

Lemma apicids_procs es : length (apicids es) = length (procs_of es).
Proof. induction es as [|[]]; simpl; auto. Qed.
Lemma apicids_flags es : length (apicids es) = length (cpuflags es).
Proof. induction es as [|[]]; simpl; auto. Qed.

Lemma boot_snoc fl f b : boot_cpu fl b →
  boot_cpu (fl ++ [f]) (if Z.land f MPBOOT =? 0 then b else Z.of_nat (length fl)).
Proof.
  intros H. destruct (Z.eqb_spec (Z.land f MPBOOT) 0) as [E|E].
  - destruct H as [[-> H]|(g & Hb & Hg & Hg' & H)].
    + left. split; [done|]. intros i g Hi. apply lookup_snoc_Some in Hi as [[_ Hi]|[_ <-]]; [by eapply H|].
      unfold boots. lia.
    + right. exists g. split_and!; try done; [by apply lookup_app_l_Some|].
      intros j h Hj Hh. apply lookup_snoc_Some in Hh as [[_ Hh]|[_ <-]]; [by eapply H|unfold boots; lia].
  - right. exists f. rewrite Nat2Z.id. split_and!; [lia|by apply list_lookup_middle|done|].
    intros j g Hj Hg. apply lookup_lt_Some in Hg. rewrite length_app in Hg. simpl in Hg. lia.
Qed.

Lemma order_snoc l a n : Z.of_nat (length l) = n →
  bool_decide (l ++ [a] = seqZ 0 (n + 1)) = bool_decide (l = seqZ 0 n) && (n =? a).
Proof.
  intros <-. rewrite seqZ_app by lia. rewrite Z.add_0_l. change (seqZ (Z.of_nat (length l)) 1) with [Z.of_nat (length l)].
  apply eq_true_iff_eq. rewrite andb_true_iff, !bool_decide_eq_true, Z.eqb_eq. split.
  - intros H. apply app_inj_2 in H as [H1 [= H2]]; done.
  - intros [H <-]. by rewrite <-H.
Qed.

Lemma pass_snoc s es s' x : pass_of s es s' → (length (procs_of (es ++ [x])) ≤ length (ms_ids s))%nat →
  (length (ms_ids s) ≤ 256)%nat → pass_of s (es ++ [x]) (step_entry s' x).
Proof.
  intros H Hl H256. destruct H as [Hm Hlen Hla Ho Hi Hn Hs Hio Hb Hids].
  unfold procs_of in Hl. rewrite List.filter_app, length_app in Hl. fold (procs_of es) in Hl.
  destruct x as [a v f r|a r|t r].
  - simpl in Hl. rewrite <-apicids_procs in Hl.
    assert (apicids (es ++ [Processor a v f r]) = apicids es ++ [a]) as Ea by (unfold apicids; by rewrite omap_app).
    assert (cpuflags (es ++ [Processor a v f r]) = cpuflags es ++ [f]) as Ef by (unfold cpuflags; by rewrite omap_app).
    assert (ioapics (es ++ [Processor a v f r]) = ioapics es) as Ei.
    { unfold ioapics. rewrite omap_app. apply app_nil_r. }
    assert (ncpu (step_entry s' (Processor a v f r)) = ncpu s' + 1) as En by apply step_entry_ncpu.
    split; rewrite ?En, ?Ea, ?Ef, ?Ei, ?length_app.
    1-5: simpl; repeat case_if; simpl; by rewrite ?length_insert.
    + simpl. lia.
    + rewrite order_snoc by done. rewrite Hn in *.
      simpl. rewrite Hn. destruct (Z.of_nat (length (apicids es)) =? a), (Z.land f MPBOOT =? 0); simpl; rewrite ?Hs.
      all: rewrite ?andb_true_r, ?andb_false_r; done.
    + simpl. repeat case_if; done.
    + replace (bcpu _) with (if Z.land f MPBOOT =? 0 then bcpu s' else Z.of_nat (length (cpuflags es)))
        by (simpl; rewrite Hn, apicids_flags; repeat case_if; done).
      by apply boot_snoc.
    + intros i.
      assert (ms_ids (step_entry s' (Processor a v f r)) =
        <[length (apicids es) := Z.of_nat (length (apicids es))]> (ms_ids s')) as ->.
      { simpl. rewrite Hn, Nat2Z.id. unfold u8. rewrite Z.mod_small by lia. repeat case_if; done. }
      rewrite list_lookup_insert. change (length [a]) with 1%nat.
      destruct (decide (length (apicids es) = i ∧ _)) as [D|D].
      * destruct D as [<- _]. by rewrite decide_True by lia.
      * rewrite Hids. destruct (decide (i < length (apicids es))%nat);
          [by rewrite decide_True by lia|]. rewrite decide_False by lia. done.
  - assert (ioapics (es ++ [IoApic a r]) = ioapics es ++ [a]) as Ei by (unfold ioapics; by rewrite omap_app).
    assert (apicids (es ++ [IoApic a r]) = apicids es) as Ea by (unfold apicids; rewrite omap_app; apply app_nil_r).
    assert (cpuflags (es ++ [IoApic a r]) = cpuflags es) as Ef by (unfold cpuflags; rewrite omap_app; apply app_nil_r).
    split; rewrite ?Ea, ?Ef, ?Ei; try done. by rewrite last_snoc.
  - assert (ioapics (es ++ [OtherEntry t r]) = ioapics es) as Ei by (unfold ioapics; rewrite omap_app; apply app_nil_r).
    assert (apicids (es ++ [OtherEntry t r]) = apicids es) as Ea by (unfold apicids; rewrite omap_app; apply app_nil_r).
    assert (cpuflags (es ++ [OtherEntry t r]) = cpuflags es) as Ef by (unfold cpuflags; rewrite omap_app; apply app_nil_r).
    split; rewrite ?Ea, ?Ef, ?Ei; done.
Qed.

Lemma pass_fold s es : ncpu s = 0 → bcpu s = 0 → (length (procs_of es) ≤ length (ms_ids s) ≤ 256)%nat →
  pass_of s es (foldl step_entry s es).
Proof.
  intros Hn Hb. induction es as [|x es IH] using rev_ind; intros [Hl H256].
  - split; cbn [foldl]; rewrite ?Hb, ?Hn; try done. left. split; [done|]. by intros i f.
  - rewrite foldl_app. cbn [foldl]. apply pass_snoc; [|done|done]. apply IH. split; [|done].
    unfold procs_of in *. rewrite List.filter_app, length_app in Hl. lia.
Qed.

(** ** mpinit *)

(** The table at [conf], found through [mp], holds the entries [es]. *)
Definition table_at (m : mem) (conf mp : Z) (es : list mpentry) : Prop :=
  mpconfig m = Some (conf, mp) ∧ Forall entry_ok es ∧ holds m (conf + mpconf_bytes) (table es) ∧
  conf_length m conf = mpconf_bytes + Z.of_nat (length (table es)).

(** [C13] Counting the processors.  On a configuration table with the entries
    es, at most NCPU of them processors, mpinit returns after one round per
    entry, with the boot processor the table marks.  If the APIC ids of the
    processors are 0, 1, 2, ... in order, the machine is a multiprocessor: ncpu
    is their number, cpus[i].id is i, lapic and ioapicid are those of the
    table, and the IMCR is set when there is one; else it is run as a single
    processor without APICs. *)
Theorem mpinit_spec es conf mp fuel s :
  table_at (ms_mem s) conf mp es → ncpu s = 0 → length (ms_ids s) = NCPU →
  (length (apicids es) ≤ NCPU)%nat → (length es < fuel)%nat →
  wp (mpinit fuel) (λ _ s',
    boot_cpu (cpuflags es) (bcpu s') ∧ ms_mem s' = ms_mem s ∧
    let n := Z.of_nat (length (apicids es)) in
    if bool_decide (apicids es = seqZ 0 n) then
      ismp s' = 1 ∧ ncpu s' = n ∧ (∀ i, (i < length (apicids es))%nat → ms_ids s' !! i = Some (Z.of_nat i)) ∧
      lapic s' = conf_lapicaddr (ms_mem s) conf ∧ ioapicid s' = default (ioapicid s) (last (ioapics es)) ∧
      ms_out s' = ms_out s ++ (if mp_imcrp (ms_mem s) mp =? 0 then []
                               else [(34, 112); (35, Z.lor (ms_in s 35) 1)])
    else ismp s' = 0 ∧ ncpu s' = 1 ∧ lapic s' = 0 ∧ ioapicid s' = 0 ∧ ms_out s' = ms_out s) s.
Proof.
  intros (Hc & Hok & Hh & Hlen) Hn Hids Hl Hf. unfold mpinit. wstep. wstep. wstep. wstep. cbn [ms_mem set_bcpu].
  rewrite Hc. do 4 wstep. rewrite Hlen.
  set (s0 := set_lapic _ _). assert (ms_mem s0 = ms_mem s ∧ ncpu s0 = 0 ∧ bcpu s0 = 0 ∧ ms_ids s0 = ms_ids s
    ∧ ismp s0 = 1 ∧ lapic s0 = conf_lapicaddr (ms_mem s) conf ∧ ms_out s0 = ms_out s ∧ ms_in s0 = ms_in s
    ∧ ioapicid s0 = ioapicid s) as (H1 & H2 & H3 & H4 & H5 & H6 & H7 & H8 & H9) by (by split_and!).
  clearbody s0. wstep. unfold wp at 1.
  replace fuel with (length es + S (fuel - length es - 1))%nat by lia.
  rewrite mp_entries_run; rewrite ?H1, ?H2, ?H4; [|done|done|lia|lia|rewrite <-apicids_procs, Hids; lia].
  cbn [mp_entries]. rewrite (proj2 (Z.ltb_ge _ _)) by lia. cbn [negb].
  destruct (pass_fold s0 es H2 H3) as [Q1 _ Q3 Q4 Q5 Q6 Q7 Q8 Q9 Q10].
  { rewrite <-apicids_procs, H4, Hids. unfold NCPU in *. lia. }
  set (t := foldl step_entry s0 es) in *. clearbody t.
  rewrite Q6, H5 in Q7. cbv beta iota delta [mret M_ret]. unfold mp_outb. wstep. apply wp_gets. rewrite Q7.
  destruct (bool_decide _) eqn:E; simpl.
  - destruct (mp_imcrp (ms_mem s) mp =? 0); cbn [negb]; [unfold wp|do 5 wstep];
      split_and!; simpl; try congruence; try done;
      try (intros i Hi; rewrite Q10, decide_True by done; done); rewrite ?Q4, ?Q5, ?H7, ?H8, ?app_nil_r; try done.
    by rewrite <-app_assoc.
  - do 5 wstep. split_and!; simpl; congruence || done.
Qed.

(** ** What the pass does not survive *)

Lemma fold_entry_mem es s : ms_mem (foldl step_entry s es) = ms_mem s.
Proof. revert s. induction es as [|x es IH]; intros s; simpl; [done|]. by rewrite IH, step_entry_mem. Qed.

Definition known_types : list Z := [MPPROC; MPBUS; MPIOAPIC; MPIOINTR; MPLINTR].

Lemma mp_entries_unknown fuel p e s :
  p < e → ms_mem s p ∉ known_types → mp_entries fuel p e s = Spins.
Proof.
  intros Hp Ht. revert s Ht. induction fuel as [|fuel IH]; intros s Ht; [done|].
  cbn [mp_entries]. rewrite (proj2 (Z.ltb_lt p e)) by done. cbn [negb].
  unfold mbind at 1, M_bind at 1, gets at 1.
  pose proof Ht as Ht'. unfold known_types in Ht'. rewrite !not_elem_of_cons in Ht'. destruct Ht' as (H0 & H1 & H2 & H3 & H4 & _).
  rewrite (proj2 (Z.eqb_neq _ MPPROC)), (proj2 (Z.eqb_neq _ MPIOAPIC)), (proj2 (Z.eqb_neq _ MPBUS)),
    (proj2 (Z.eqb_neq _ MPIOINTR)), (proj2 (Z.eqb_neq _ MPLINTR)) by done.
  apply IH. exact Ht.
Qed.

(** The start of mpinit on a table whose first entries are es. *)
Lemma mpinit_pass es conf mp fuel s :
  mpconfig (ms_mem s) = Some (conf, mp) → Forall entry_ok es →
  holds (ms_mem s) (conf + mpconf_bytes) (table es) →
  mpconf_bytes + Z.of_nat (length (table es)) ≤ conf_length (ms_mem s) conf →
  ncpu s = 0 → length (ms_ids s) = NCPU → (length (apicids es) ≤ NCPU)%nat →
  ∃ t k, mpinit (length es + fuel) s =
      (mp_entries fuel (conf + mpconf_bytes + Z.of_nat (length (table es))) (conf + conf_length (ms_mem s) conf) ≫= k) t ∧
    ms_mem t = ms_mem s ∧ ncpu t = Z.of_nat (length (apicids es)) ∧ length (ms_ids t) = NCPU.
Proof.
  intros Hc Hok Hh Hlen Hn Hids Hl.
  unfold mpinit. unfold mbind at 1 2, M_bind at 1 2, modify at 1, gets at 1. cbn [ms_mem set_bcpu]. rewrite Hc.
  unfold mbind at 1 2, M_bind at 1 2, modify at 1 2. cbv beta iota.
  set (s0 := set_lapic _ _). unfold mbind, M_bind. eexists (foldl step_entry s0 es), _. split.
  - rewrite mp_entries_run; [reflexivity|done..|cbn [ms_mem]; lia|simpl; lia|].
    simpl. rewrite <-apicids_procs, Hids. lia.
  - destruct (pass_fold s0 es) as [Q1 Q2 _ _ _ Q6 _ _ _ _]; [done|done| |].
    + simpl. rewrite <-apicids_procs, Hids. unfold NCPU in *. lia.
    + by rewrite Q1, Q2, Q6.
Qed.

(** An entry of a type that is not in mp.h is met again for ever: mpinit does
    not return, however long it runs. *)
Theorem mpinit_unknown es t conf mp fuel s :
  mpconfig (ms_mem s) = Some (conf, mp) → Forall entry_ok es →
  holds (ms_mem s) (conf + mpconf_bytes) (table es ++ [t]) →
  mpconf_bytes + Z.of_nat (length (table es)) < conf_length (ms_mem s) conf →
  t ∉ known_types →
  ncpu s = 0 → length (ms_ids s) = NCPU → (length (apicids es) ≤ NCPU)%nat →
  mpinit (length es + fuel) s = Spins.
Proof.
  intros Hc Hok Hh Hlen Ht Hn Hids Hl. apply holds_app in Hh as [Hh Hb].
  destruct (mpinit_pass es conf mp fuel s) as (t' & k & -> & Hm & _); [done..|lia|done|done|done|].
  unfold mbind, M_bind. rewrite mp_entries_unknown; [done|lia|].
  rewrite Hm. specialize (Hb 0%nat t eq_refl). rewrite Z.add_0_r in Hb. by rewrite Hb.
Qed.

(** One processor more than NCPU is written past the end of cpus[]. *)
Theorem mpinit_overflow es a v f r conf mp fuel s :
  mpconfig (ms_mem s) = Some (conf, mp) → Forall entry_ok es →
  holds (ms_mem s) (conf + mpconf_bytes) (table (es ++ [Processor a v f r])) →
  mpconf_bytes + Z.of_nat (length (table es)) < conf_length (ms_mem s) conf →
  ncpu s = 0 → length (ms_ids s) = NCPU → length (apicids es) = NCPU →
  mpinit (length es + S fuel) s = Fault.
Proof.
  intros Hc Hok Hh Hlen Hn Hids Hl. unfold table in Hh. rewrite fmap_app, concat_app in Hh.
  apply holds_app in Hh as [Hh Hb].
  destruct (mpinit_pass es conf mp (S fuel) s) as (t' & k & -> & Hm & Hn' & Hi'); [done..|unfold table in *; lia|done|done|lia|].
  set (p := conf + _ + _). unfold mbind at 1, M_bind at 1. cbn [mp_entries].
  rewrite (proj2 (Z.ltb_lt p _)) by (unfold p, table in *; lia). cbn [negb].
  assert (ms_mem t' p = MPPROC) as Hp.
  { rewrite Hm. specialize (Hb 0%nat MPPROC eq_refl). by rewrite Z.add_0_r in Hb. }
  assert (ms_ids t' !! length (apicids es) = None) as Hno by (apply lookup_ge_None; lia).
  clear - Hp Hn' Hno. destruct t' as [m ids b i n io l o inp lg]. cbn [ms_mem ncpu ms_ids] in *. subst n.
  unfold mbind, M_bind, gets. cbn [ms_mem]. rewrite Hp. change (MPPROC =? MPPROC) with true. cbv iota beta.
  cbn [ncpu]. destruct (_ =? proc_apicid m p), (Z.land (proc_flags m p) MPBOOT =? 0); cbn; rewrite Nat2Z.id, Hno; done.
Qed.

(** ** A machine with two processors: the structure at the start of the BIOS
    area, the table at physical address 0x1000 *)

Definition place_bytes (m : mem) (a : Z) (bs : list Z) : mem := λ x,
  if (a <=? x) && (x <? a + Z.of_nat (length bs)) then nth (Z.to_nat (x - a)) bs 0 else m x.

Definition two_cpus : list mpentry :=
  [Processor 0 17 3 (replicate 16 0); Processor 1 17 1 (replicate 16 0);
   OtherEntry MPBUS (replicate 7 0); IoApic 2 (replicate 6 0); OtherEntry MPIOINTR (replicate 7 0)].

(** A header for a table of [n] bytes of entries, whose checksum byte is [c]. *)
Definition conf_header (n c : Z) : list Z :=
  sig_pcmp ++ [(44 + n) mod 256; (44 + n) / 256; 4; c] ++ replicate 28 0 ++ [0; 0; 224; 254] ++ replicate 4 0.

Definition mp_struct : list Z := sig_mp ++ [0; 16; 0; 0; 1; 4; 144; 0; 0; 0; 0; 0].

Definition mp_machine (bs : list Z) (c : Z) : mpstate :=
  mkMp (place_bytes (place_bytes (λ _, 0) (p2v 983040) mp_struct) (p2v 4096)
          (conf_header (Z.of_nat (length bs)) c ++ bs))
    (replicate NCPU 0) 0 0 0 0 0 [] (λ _, 0) [].

Lemma holds_check m p bs : bs = (λ i, m (p + Z.of_nat i)) <$> seq 0 (length bs) → holds m p bs.
Proof.
  intros H i b Hi. rewrite H in Hi. apply list_lookup_fmap_Some in Hi as (j & -> & Hj).
  apply lookup_seq in Hj as [-> _]. done.
Qed.

Lemma mpinit_spec_witness :
  ∃ c, wp (mpinit 6) (λ _ s', ismp s' = 1 ∧ ncpu s' = 2 ∧ lapic s' = 4276092928 ∧ ioapicid s' = 2)
         (mp_machine (table two_cpus) c).
Proof.
  exists 83.
  eapply wp_mono; [apply (mpinit_spec two_cpus (p2v 4096) (p2v 983040) 6)|].
  - split_and!; [vm_compute; reflexivity|by repeat constructor; auto| |vm_compute; reflexivity].
    apply holds_check. vm_compute. reflexivity.
  - reflexivity.
  - reflexivity.
  - vm_compute. lia.
  - simpl. lia.
  - intros _ s' (_ & _ & H). destruct H as (H1 & H2 & _ & H3 & H4 & _). done.
Defined.

(** A table whose only entry has type 200. *)
Lemma mpinit_unknown_example fuel : mpinit fuel (mp_machine [200] 249) = Spins.
Proof.
  apply (mpinit_unknown [] 200 (p2v 4096) (p2v 983040) fuel).
  - vm_compute. reflexivity.
  - constructor.
  - apply holds_check. vm_compute. reflexivity.
  - vm_compute. reflexivity.
  - unfold known_types. rewrite !not_elem_of_cons. split_and!; try done. apply not_elem_of_nil.
  - reflexivity.
  - reflexivity.
  - simpl. lia.
Qed.
