(* ===== verification/Boot.v ===== *)
(** * The boot loader (xv6/bootmain.c)

    bootmain reads the kernel, an ELF file that starts at sector 1 of the
    disk, into physical memory, and jumps to its entry.  It talks to the same
    disk controller as ide.c, of which it relies on the same laws
    ([AtaController] of Ide.v). *)

From Stdlib Require Import Sorted.
From stdpp Require Import list.
From S2P Require Import Prelude Kernel CString Bio Ide.
Local Open Scope Z_scope.

Definition SECTSIZE : Z := 512.
Definition ELF_MAGIC : Z := 0x464C457F.
Definition elf : Z := 0x10000.

Definition load_half (m : mem) (a : Z) : Z := m a + 256 * m (a + 1).

(** The fields of struct elfhdr and struct proghdr in memory. *)
Definition hdr_magic (m : mem) (a : Z) : Z := load32 m a.
Definition hdr_entry (m : mem) (a : Z) : Z := load32 m (a + 24).
Definition hdr_phoff (m : mem) (a : Z) : Z := load32 m (a + 28).
Definition hdr_phnum (m : mem) (a : Z) : Z := load_half m (a + 44).
Definition PH : Z := 32.
Definition phdr_off (m : mem) (a : Z) : Z := load32 m (a + 4).
Definition phdr_paddr (m : mem) (a : Z) : Z := load32 m (a + 12).
Definition phdr_filesz (m : mem) (a : Z) : Z := load32 m (a + 16).
Definition phdr_memsz (m : mem) (a : Z) : Z := load32 m (a + 20).

(** The machine: physical memory and the disk controller. *)
Record boot (C : Type) := mkBoot { bt_mem : mem; bt_ctl : C }.
Arguments mkBoot {C}.
Arguments bt_mem {C}.
Arguments bt_ctl {C}.

(** The bytes [d] written at [a], as rep insl does. *)
Definition put_block (m : mem) (a : Z) (d : list Z) : mem :=
  λ x, if (a <=? x) && (x <? a + Z.of_nat (length d)) then nth (Z.to_nat (x - a)) d 0 else m x.

Section boot.
Context {C : Type} `{!AtaController C}.
Abbreviation st := (boot C).

Definition set_bmem (m : mem) (s : st) : st := mkBoot m (bt_ctl s).
Definition set_bctl (c : C) (s : st) : st := mkBoot (bt_mem s) c.

(** The ports take a byte. *)
Definition boot_outb (p x : Z) : M st unit := modify (λ s, set_bctl (ctl_outb p (u8 x) (bt_ctl s)) s).
Definition boot_inb : M st Z := λ s, Ret (ctl_status (bt_ctl s)).1 (set_bctl (ctl_status (bt_ctl s)).2 s).
Definition boot_insl (dst : Z) : M st unit := λ s,
  let '(d, c) := ctl_insl (bt_ctl s) in Ret tt (mkBoot (put_block (bt_mem s) dst d) c).

Fixpoint waitdisk_loop (fuel : nat) : M st unit :=
  match fuel with
  | O => spins
  | S fuel => r ← boot_inb; if negb (Z.land r 0xC0 =? 0x40) then waitdisk_loop fuel else mret tt
  end.
Definition waitdisk : M st unit := waitdisk_loop (S ctl_polls).

Definition readsect (dst offset : Z) : M st unit :=
  waitdisk ;;
  boot_outb 0x1F2 1 ;;
  boot_outb 0x1F3 offset ;;
  boot_outb 0x1F4 (Z.shiftr offset 8) ;;
  boot_outb 0x1F5 (Z.shiftr offset 16) ;;
  boot_outb 0x1F6 (Z.lor (Z.shiftr offset 24) 0xE0) ;;
  boot_outb 0x1F7 0x20 ;;
  waitdisk ;;
  boot_insl dst.

Fixpoint readseg_loop (fuel : nat) (pa epa offset : Z) : M st unit :=
  match fuel with
  | O => spins
  | S fuel =>
      if pa <? epa then readsect pa offset ;; readseg_loop fuel (u32 (pa + SECTSIZE)) epa (u32 (offset + 1))
      else mret tt
  end.

(** One round for each sector, and one more. *)
Definition readseg (pa count offset : Z) : M st unit :=
  let epa := u32 (pa + count) in
  let pa := u32 (pa - offset mod SECTSIZE) in
  let offset := offset / SECTSIZE + 1 in
  readseg_loop (Z.to_nat (count / SECTSIZE) + 3) pa epa offset.

Fixpoint load_ph (fuel : nat) (ph eph : Z) : M st unit :=
  match fuel with
  | O => spins
  | S fuel =>
      if ph <? eph then
        m ← gets bt_mem;
        let pa := phdr_paddr m ph in
        readseg pa (phdr_filesz m ph) (phdr_off m ph) ;;
        m ← gets bt_mem;
        (if phdr_filesz m ph <? phdr_memsz m ph then
           modify (λ s, set_bmem (stosb (bt_mem s) (u32 (pa + phdr_filesz m ph)) 0
             (Z.to_nat (phdr_memsz m ph - phdr_filesz m ph))) s)
         else mret tt) ;;
        load_ph fuel (u32 (ph + PH)) eph
      else mret tt
  end.

(** The address bootmain jumps to, or nothing when it returns. *)
Definition bootmain : M st (option Z) :=
  readseg elf 4096 0 ;;
  m ← gets bt_mem;
  if negb (hdr_magic m elf =? ELF_MAGIC) then mret None else
  let ph := u32 (elf + hdr_phoff m elf) in
  let eph := u32 (ph + PH * hdr_phnum m elf) in
  load_ph (S (Z.to_nat (hdr_phnum m elf))) ph eph ;;
  m ← gets bt_mem;
  mret (Some (hdr_entry m elf)).
End boot.

(** ** Reading sectors *)

(** Byte [i] of the kernel file. *)
Definition image (v : ata) (i : Z) : Z := nth (Z.to_nat (i mod SECTSIZE)) (at_sec v false (i / SECTSIZE + 1)) 0.

Definition disk_ok (v : ata) : Prop := ∀ x, length (at_sec v false x) = BSIZE.

(** Memory [m'] has bytes of the kernel file from [off] on in [a, b), and is [m] elsewhere. *)
Definition copied (v : ata) (a b off : Z) (m m' : mem) : Prop :=
  ∀ x, m' x = if (a <=? x) && (x <? b) then image v (off + (x - a)) else m x.

Lemma u8_byte x i : 0 ≤ x → 0 ≤ i → u8 (Z.shiftr x (8 * i)) = x / 256 ^ i mod 256.
Proof. intros Hx Hi. unfold u8. rewrite Z.shiftr_div_pow2 by lia. f_equal. f_equal. by rewrite Z.pow_mul_r by lia. Qed.

Section read.
Context {C : Type} `{!AtaController C}.
Abbreviation st := (boot C).
Implicit Types (s : st).

Lemma wp_waitdisk_loop v : ∀ fuel s (Q : unit → st → Prop),
  ctl_rel (bt_ctl s) v → (ctl_wait (bt_ctl s) < fuel)%nat →
  (∀ c, ctl_rel c v → Q tt (set_bctl c s)) → wp (waitdisk_loop fuel) Q s.
Proof.
  induction fuel as [|fuel IH]; intros s Q HR Hf HQ; [lia|]. cbn [waitdisk_loop]. wstep.
  eapply wp_run; [reflexivity|]. pose proof (ctl_status_law _ _ HR) as HR'.
  destruct (ctl_ready_law _ _ HR) as [Hr|Hw].
  - change (Z.lor IDE_BSY IDE_DRDY) with 0xC0 in Hr. rewrite Hr. change (negb (IDE_DRDY =? 0x40)) with false. cbv iota. wstep. by apply HQ.
  - case_if; [|wstep; by apply HQ]. apply IH; [exact HR'|cbn; lia|]. intros c Hc. by apply HQ.
Qed.

Lemma wp_waitdisk v s (Q : unit → st → Prop) :
  ctl_rel (bt_ctl s) v → (∀ c, ctl_rel c v → Q tt (set_bctl c s)) → wp waitdisk Q s.
Proof.
  intros HR HQ. eapply wp_waitdisk_loop; [exact HR| |done]. pose proof (ctl_wait_le _ _ HR). lia.
Qed.

Lemma wp_boot_outb p x v s (Q : unit → st → Prop) :
  ctl_rel (bt_ctl s) v → (∀ c, ctl_rel c (ata_outb p (u8 x) v) → Q tt (set_bctl c s)) → wp (boot_outb p x) Q s.
Proof. intros HR HQ. apply wp_modify, HQ. by apply ctl_outb_law. Qed.

(** The command readsect gives. *)
Definition read_cmd (offset : Z) (v : ata) : ata :=
  ata_outb 0x1F7 (u8 0x20) (ata_outb 0x1F6 (u8 (Z.lor (Z.shiftr offset 24) 0xE0)) (ata_outb 0x1F5 (u8 (Z.shiftr offset 16))
    (ata_outb 0x1F4 (u8 (Z.shiftr offset 8)) (ata_outb 0x1F3 (u8 offset) (ata_outb 0x1F2 (u8 1) v))))).

Lemma read_cmd_op offset v : 0 ≤ offset < 268435456 →
  at_op (read_cmd offset v) = AtaRead false offset ∧ at_sec (read_cmd offset v) = at_sec v.
Proof.
  intros Ho. split; [|done]. set (r := at_reg (read_cmd offset v)).
  assert (at_op (read_cmd offset v) = AtaRead (Z.testbit (r 0x1f6) 4)
    (r 0x1f3 + 256 * r 0x1f4 + 65536 * r 0x1f5 + 16777216 * Z.land (r 0x1f6) 15)) as -> by done.
  change (r 0x1f3) with (u8 offset). change (r 0x1f4) with (u8 (Z.shiftr offset 8)).
  change (r 0x1f5) with (u8 (Z.shiftr offset 16)). change (r 0x1f6) with (u8 (Z.lor (Z.shiftr offset 24) 0xE0)).
  change (u8 (Z.shiftr offset 8)) with (u8 (Z.shiftr offset (8 * 1))). change (u8 (Z.shiftr offset 16)) with (u8 (Z.shiftr offset (8 * 2))).
  rewrite !u8_byte by lia. change (256 ^ 1) with 256. change (256 ^ 2) with 65536.
  set (h := offset / 16777216). assert (0 ≤ h < 16) as Hh by (unfold h; zdm).
  assert (Z.shiftr offset 24 = h) as -> by (rewrite Z.shiftr_div_pow2 by lia; done).
  assert (∀ k : nat, (k < 16)%nat → Z.testbit (u8 (Z.lor (Z.of_nat k) 0xE0)) 4 = false ∧ Z.land (u8 (Z.lor (Z.of_nat k) 0xE0)) 15 = Z.of_nat k) as Hk.
  { intros k Hk. do 16 (destruct k as [|k]; [done|]). lia. }
  specialize (Hk (Z.to_nat h) ltac:(lia)). rewrite Z2Nat.id in Hk by lia. destruct Hk as [-> ->]. f_equal. unfold u8, h. zdm.
Qed.

Lemma wp_readsect dst offset v s (Q : unit → st → Prop) :
  ctl_rel (bt_ctl s) v → disk_ok v → 0 ≤ offset < 268435456 →
  (∀ c v', ctl_rel c v' → at_sec v' = at_sec v → Q tt (mkBoot (put_block (bt_mem s) dst (at_sec v false offset)) c)) →
  wp (readsect dst offset) Q s.
Proof.
  intros HR Hd Ho HQ. unfold readsect. wstep. eapply wp_waitdisk; [exact HR|]. intros c0 R0.
  do 6 (wstep; eapply wp_boot_outb; [eassumption|]; intros ? ?).
  wstep. eapply wp_waitdisk; [eassumption|]. intros c7 R7. fold (read_cmd offset v) in R7.
  destruct (read_cmd_op offset v Ho) as [Hop Hsec]. destruct (ctl_insl_law _ _ _ _ R7 Hop) as [E1 E2].
  unfold boot_insl, wp. cbn [bt_ctl set_bctl]. destruct (ctl_insl c7) as [d c9]. cbn [fst snd] in E1, E2. rewrite E1, Hsec.
  eapply HQ; [exact E2|exact Hsec].
Qed.
End read.

(** *** Copies *)

Lemma copied_refl v a off m : copied v a a off m m.
Proof. intros x. by rewrite (proj2 (andb_false_iff _ _)) by lia. Qed.

Lemma copied_trans v a b c off m m1 m2 : a ≤ b ≤ c → copied v a b off m m1 → copied v b c (off + (b - a)) m1 m2 → copied v a c off m m2.
Proof.
  intros Hab H1 H2 x. rewrite H2, H1. destruct (Z.leb_spec b x), (Z.ltb_spec x c), (Z.leb_spec a x), (Z.ltb_spec x b); cbn [andb]; try lia; try done.
  f_equal. lia.
Qed.

Lemma copied_sector v m pa o : disk_ok v → copied v pa (pa + SECTSIZE) ((o - 1) * SECTSIZE) m (put_block m pa (at_sec v false o)).
Proof.
  intros Hd x. unfold put_block. rewrite (Hd o). change (Z.of_nat BSIZE) with SECTSIZE.
  destruct (Z.leb_spec pa x); cbn [andb]; [|done]. destruct (Z.ltb_spec x (pa + SECTSIZE)); cbn [andb]; [|done].
  unfold image, SECTSIZE in *. rewrite Z.add_comm, Z.mod_add by lia. rewrite Z.mod_small, Z.div_add, Z.div_small by lia.
  by replace (0 + (o - 1) + 1) with o by lia.
Qed.

(** How many sectors a loop from [pa] to [epa] reads. *)
Definition nsect (pa epa : Z) : Z := Z.max 0 ((epa - pa + 511) / SECTSIZE).

Lemma nsect_next pa epa : pa < epa → nsect pa epa = 1 + nsect (pa + SECTSIZE) epa.
Proof. unfold nsect, SECTSIZE. intros H. zdm. Qed.
Lemma nsect_end pa epa : epa ≤ pa → nsect pa epa = 0.
Proof. unfold nsect, SECTSIZE. intros H. zdm. Qed.
Lemma nsect_bounds pa epa : 0 ≤ nsect pa epa ∧ epa ≤ pa + SECTSIZE * nsect pa epa ∧
  pa + SECTSIZE * nsect pa epa ≤ Z.max pa (epa + 511).
Proof. unfold nsect, SECTSIZE. zdm. Qed.

Section readseg.
Context {C : Type} `{!AtaController C}.
Abbreviation st := (boot C).
Implicit Types (s : st).

Lemma wp_readseg_loop : ∀ fuel pa epa o v s (Q : unit → st → Prop),
  ctl_rel (bt_ctl s) v → disk_ok v → 0 ≤ pa → Z.max pa (epa + 511) < 4294967296 → 1 ≤ o → o + nsect pa epa < 268435456 →
  nsect pa epa < Z.of_nat fuel →
  (∀ c v' m', ctl_rel c v' → at_sec v' = at_sec v →
     copied v pa (pa + SECTSIZE * nsect pa epa) ((o - 1) * SECTSIZE) (bt_mem s) m' → Q tt (mkBoot m' c)) →
  wp (readseg_loop fuel pa epa o) Q s.
Proof.
  induction fuel as [|fuel IH]; intros pa epa o v s Q HR Hd Hpa Hmax Ho1 Ho Hf HQ; [pose proof (nsect_bounds pa epa); lia|].
  cbn [readseg_loop]. destruct (Z.ltb_spec pa epa) as [Hlt|Hge].
  - pose proof (nsect_next _ _ Hlt) as Hn. pose proof (nsect_bounds (pa + SECTSIZE) epa) as Hb. unfold SECTSIZE in Hb, Hn.
    wstep. eapply wp_readsect; [exact HR|done|lia|]. intros c v1 R1 S1.
    rewrite !u32_small by (unfold is_u32, SECTSIZE; lia).
    eapply (IH _ _ _ v1); [exact R1|unfold disk_ok; by rewrite S1|unfold SECTSIZE; lia|unfold SECTSIZE; lia|lia|unfold SECTSIZE; lia|unfold SECTSIZE; lia|].
    intros c2 v2 m2 R2 S2 Hc. apply (HQ c2 v2); [done|congruence|].
    eapply (copied_trans v pa (pa + SECTSIZE)); [unfold SECTSIZE; lia|by apply copied_sector|].
    rewrite Hn. replace (pa + SECTSIZE * (1 + nsect (pa + 512) epa)) with (pa + SECTSIZE + SECTSIZE * nsect (pa + SECTSIZE) epa)
      by (unfold SECTSIZE; lia).
    replace ((o - 1) * SECTSIZE + (pa + SECTSIZE - pa)) with ((o + 1 - 1) * SECTSIZE) by lia.
    intros x. rewrite Hc. unfold image. by rewrite S1.
  - wstep. specialize (HQ (bt_ctl s) v (bt_mem s) HR eq_refl). rewrite nsect_end in HQ by done.
    replace (pa + SECTSIZE * 0) with pa in HQ by lia. specialize (HQ (copied_refl _ _ _ _)). by destruct s.
Qed.
End readseg.

(** ** Segments *)

Record segment := mkSegment { sg_pa : Z; sg_off : Z; sg_file : Z; sg_mem : Z }.

(** Where readseg starts and stops to write, and where the segment ends. *)
Definition sg_start (g : segment) : Z := sg_pa g - sg_off g mod SECTSIZE.
Definition sg_stop (g : segment) : Z := sg_start g + SECTSIZE * nsect (sg_start g) (sg_pa g + sg_file g).
Definition sg_end (g : segment) : Z := sg_pa g + Z.max (sg_file g) (sg_mem g).

Lemma start_le g : sg_start g ≤ sg_pa g.
Proof. unfold sg_start, SECTSIZE. pose proof (Z.mod_pos_bound (sg_off g) 512 eq_refl). lia. Qed.

(** What fits in memory and on the disk, and leaves the ELF header alone. *)
Record segment_ok (g : segment) : Prop := {
  so_off : 0 ≤ sg_off g;
  so_file : 0 ≤ sg_file g;
  so_start : 0 ≤ sg_start g;
  so_max : sg_end g + 511 < 4294967296;
  so_disk : sg_off g / SECTSIZE + 1 + nsect (sg_start g) (sg_pa g + sg_file g) < 268435456;
  so_elf : elf + 4096 ≤ sg_start g ∨ (sg_stop g ≤ elf ∧ sg_end g ≤ elf);
}.

(** The memory with the segment in place: zeroes after its bytes, and what
    else readseg has written. *)
Definition load_seg (v : ata) (g : segment) (m : mem) : mem := λ x,
  if (sg_pa g + sg_file g <=? x) && (x <? sg_pa g + sg_mem g) then 0
  else if (sg_start g <=? x) && (x <? sg_stop g) then image v (sg_off g + (x - sg_pa g)) else m x.

Section load.
Context {C : Type} `{!AtaController C}.
Abbreviation st := (boot C).
Implicit Types (s : st).

Lemma wp_readseg pa count off v s (Q : unit → st → Prop) :
  let g := mkSegment pa off count 0 in
  ctl_rel (bt_ctl s) v → disk_ok v → 0 ≤ off → 0 ≤ count → 0 ≤ sg_start g → pa + count + 511 < 4294967296 →
  off / SECTSIZE + 1 + nsect (sg_start g) (pa + count) < 268435456 →
  (∀ c v' m', ctl_rel c v' → at_sec v' = at_sec v →
     (∀ x, m' x = if (sg_start g <=? x) && (x <? sg_stop g) then image v (off + (x - pa)) else bt_mem s x) → Q tt (mkBoot m' c)) →
  wp (readseg pa count off) Q s.
Proof.
  intros g HR Hd Ho Hc Hst Hmax Hdisk HQ. unfold readseg.
  assert (0 ≤ off mod SECTSIZE < 512) as Hm by (unfold SECTSIZE; zdm).
  assert (sg_start g = pa - off mod SECTSIZE) as Eg by done. rewrite Eg in Hst, Hdisk.
  rewrite !u32_small by (unfold is_u32; lia).
  eapply (wp_readseg_loop _ _ _ _ v); [exact HR|done|lia|lia|unfold SECTSIZE; zdm|lia| |].
  - unfold nsect, SECTSIZE in *. zdm.
  - intros c v' m' R S Hcp. eapply HQ; [exact R|exact S|]. intros x. rewrite Hcp.
    change (sg_stop g) with (pa - off mod SECTSIZE + SECTSIZE * nsect (pa - off mod SECTSIZE) (pa + count)). rewrite Eg.
    destruct (_ && _); [|done]. f_equal. unfold SECTSIZE in *. zdm.
Qed.

(** The segment whose program header is at [a] of memory. *)
Definition seg_at (m : mem) (a : Z) : segment := mkSegment (phdr_paddr m a) (phdr_off m a) (phdr_filesz m a) (phdr_memsz m a).

Lemma seg_at_ext m m' a b : (∀ i, 0 ≤ i < PH → m (a + i) = m' (b + i)) → seg_at m a = seg_at m' b.
Proof.
  intros H. unfold seg_at, phdr_paddr, phdr_off, phdr_filesz, phdr_memsz, load32, PH in *.
  f_equal; rewrite <- ?Z.add_assoc; by rewrite !H by lia.
Qed.

(** One round of the loop of bootmain. *)
Definition load_all (v : ata) (gs : list segment) (m : mem) : mem := foldl (λ m g, load_seg v g m) m gs.

Lemma load_all_ext v gs m m' : (∀ x, m x = m' x) → ∀ x, load_all v gs m x = load_all v gs m' x.
Proof.
  revert m m'. induction gs as [|g gs IH]; intros m m' H x; [apply H|]. cbn [load_all foldl]. apply IH. intros y. unfold load_seg. by rewrite H.
Qed.

Definition segs (v : ata) (a : Z) (n : nat) : list segment := (λ k, seg_at (image v) (a + PH * Z.of_nat k)) <$> seq 0 n.

Lemma segs_S v a n : segs v a (S n) = seg_at (image v) a :: segs v (a + PH) n.
Proof.
  unfold segs. cbn [seq fmap list_fmap]. f_equal; [f_equal; lia|]. rewrite <- fmap_S_seq, <- list_fmap_compose.
  apply list_fmap_ext. intros i k _. cbn [compose]. f_equal. lia.
Qed.

Lemma image_same v v' x : at_sec v' = at_sec v → image v' x = image v x.
Proof. intros H. unfold image. by rewrite H. Qed.

Lemma load_all_same v v' gs m x : at_sec v' = at_sec v → load_all v' gs m x = load_all v gs m x.
Proof.
  intros H. revert m. induction gs as [|g gs IH]; intros m; [done|]. cbn [load_all foldl].
  change (load_all v' gs (load_seg v' g m) x = load_all v gs (load_seg v g m) x). rewrite IH. apply load_all_ext.
  intros y. unfold load_seg. by rewrite (image_same v v').
Qed.

Lemma wp_load_ph : ∀ n a v s (Q : unit → st → Prop),
  ctl_rel (bt_ctl s) v → disk_ok v → (∀ i, 0 ≤ i < 4096 → bt_mem s (elf + i) = image v i) →
  0 ≤ a → a + PH * Z.of_nat n ≤ 4096 → Forall segment_ok (segs v a n) →
  (∀ c v' m', ctl_rel c v' → at_sec v' = at_sec v → (∀ x, m' x = load_all v (segs v a n) (bt_mem s) x) →
     (∀ i, 0 ≤ i < 4096 → m' (elf + i) = image v i) → Q tt (mkBoot m' c)) →
  wp (load_ph (S n) (elf + a) (elf + a + PH * Z.of_nat n)) Q s.
Proof.
  induction n as [|n IH]; intros a v s Q HR Hd Hh Ha Hn Hok HQ.
  { cbn [load_ph]. replace (_ <? _) with false by (symmetry; apply Z.ltb_ge; unfold PH; lia). wstep. specialize (HQ (bt_ctl s) v (bt_mem s) HR eq_refl (λ x, eq_refl) Hh). by destruct s. }
  unfold PH in Hn. cbn [load_ph]. replace (_ <? _) with true by (symmetry; apply Z.ltb_lt; unfold PH; lia). fold (load_ph (C := C)).
  rewrite segs_S in Hok, HQ. apply Forall_cons in Hok as [Hg Hok].
  set (g := seg_at (image v) a) in *.
  assert (∀ m, (∀ i, 0 ≤ i < 4096 → m (elf + i) = image v i) → seg_at m (elf + a) = g) as Hseg.
  { intros m Hm. unfold g. apply seg_at_ext. intros i Hi. unfold PH in Hi. rewrite <- Hm by lia. f_equal. lia. }
  pose proof (Hseg _ Hh) as Hsg. unfold seg_at in Hsg. destruct Hg as [G1 G2 G3 G4 G5 G6]. unfold sg_end in *.
  pose proof (nsect_bounds (sg_start g) (sg_pa g + sg_file g)) as Hnb. pose proof (start_le g) as Hst.
  wstep. wstep. wstep.
  replace (phdr_paddr (bt_mem s) (elf + a)) with (sg_pa g) by (by rewrite <- Hsg).
  replace (phdr_filesz (bt_mem s) (elf + a)) with (sg_file g) by (by rewrite <- Hsg).
  replace (phdr_off (bt_mem s) (elf + a)) with (sg_off g) by (by rewrite <- Hsg).
  eapply (wp_readseg _ _ _ v); [exact HR|done|done|done|exact G3|lia|exact G5|].
  intros c v1 m1 R1 S1 Hm1.
  assert (∀ x, m1 x = if (sg_start g <=? x) && (x <? sg_stop g) then image v (sg_off g + (x - sg_pa g)) else bt_mem s x) as Hm1' by exact Hm1.
  clear Hm1. assert (∀ i, 0 ≤ i < 4096 → m1 (elf + i) = image v i) as Hh1.
  { intros i Hi. rewrite Hm1', (proj2 (andb_false_iff _ _)); [by apply Hh|]. rewrite Z.leb_gt, Z.ltb_ge. lia. }
  pose proof (Hseg _ Hh1) as Hsg1. unfold seg_at in Hsg1.
  wstep. wstep. cbn [bt_mem]. wstep.
  replace (phdr_filesz m1 (elf + a)) with (sg_file g) by (by rewrite <- Hsg1).
  replace (phdr_memsz m1 (elf + a)) with (sg_mem g) by (by rewrite <- Hsg1).
  assert (∀ c2 m2, ctl_rel c2 v1 → (∀ x, m2 x = load_seg v g (bt_mem s) x) →
    wp (load_ph (S n) (u32 (elf + a + PH)) (elf + a + PH * Z.of_nat (S n))) Q (mkBoot m2 c2)) as Hrest.
  { intros c2 m2 R2 Hm2. rewrite u32_small by (unfold is_u32, elf, PH; lia). replace (elf + a + PH) with (elf + (a + PH)) by lia.
    replace (elf + a + PH * Z.of_nat (S n)) with (elf + (a + PH) + PH * Z.of_nat n) by lia.
    assert (segs v1 (a + PH) n = segs v (a + PH) n) as Es.
    { unfold segs. apply list_fmap_ext. intros i k _. apply seg_at_ext. intros j _. by apply image_same. }
    assert (∀ i, 0 ≤ i < 4096 → m2 (elf + i) = image v i) as Hh2.
    { intros i Hi. rewrite Hm2. unfold load_seg. rewrite (proj2 (andb_false_iff (sg_pa g + sg_file g <=? _) _)) by (rewrite Z.leb_gt, Z.ltb_ge; lia).
      rewrite <- Hm1'. by apply Hh1. }
    assert (∀ gs m x, load_all v1 gs m x = load_all v gs m x) as Hall by (intros; by apply load_all_same).
    eapply (IH (a + PH) v1); [exact R2|unfold disk_ok; by rewrite S1| |unfold PH; lia|unfold PH; lia|by rewrite Es|].
    - intros i Hi. rewrite (image_same v) by done. by apply Hh2.
    - intros c3 v3 m3 R3 S3 H3 Hh3. apply (HQ c3 v3); [done|congruence| |].
      + intros x. rewrite H3, Es. cbn [bt_mem]. rewrite Hall.
        change (load_all v (g :: segs v (a + PH) n) (bt_mem s) x) with (load_all v (segs v (a + PH) n) (load_seg v g (bt_mem s)) x). apply load_all_ext. exact Hm2.
      + intros i Hi. rewrite <- (image_same v v1) by done. by apply Hh3. }
  case_if.
  - wstep. apply Hrest; [exact R1|]. intros x. cbn [bt_mem set_bmem]. rewrite stosb_spec, u32_small by (unfold is_u32; lia).
    replace (sg_pa g + sg_file g + Z.of_nat (Z.to_nat (sg_mem g - sg_file g))) with (sg_pa g + sg_mem g) by lia.
    unfold load_seg. destruct (_ && _); [done|]. apply Hm1'.
  - wstep. apply Hrest; [exact R1|]. intros x. unfold load_seg. rewrite (proj2 (andb_false_iff (sg_pa g + sg_file g <=? x) _)); [apply Hm1'|].
    rewrite Z.leb_gt, Z.ltb_ge. lia.
Qed.
End load.

(** ** What bootmain promises *)

(** Segment [h] is loaded after [g] and does not touch it. *)
Definition clear_of (g h : segment) : Prop := sg_end g ≤ sg_start h.

(** The bytes of the segment in memory: those of the file, then zeroes. *)
Definition in_place (v : ata) (m : mem) (g : segment) : Prop :=
  (∀ i, 0 ≤ i < sg_file g → m (sg_pa g + i) = image v (sg_off g + i)) ∧
  (∀ i, sg_file g ≤ i < sg_mem g → m (sg_pa g + i) = 0).

Lemma load_seg_below v g m x : x < sg_start g → 0 ≤ sg_file g → load_seg v g m x = m x.
Proof.
  intros Hx Hf. pose proof (start_le g). unfold load_seg.
  by rewrite (proj2 (andb_false_iff (sg_pa g + sg_file g <=? x) _)), (proj2 (andb_false_iff (sg_start g <=? x) _)) by lia.
Qed.

Lemma load_all_below v gs m x : Forall (λ g, x < sg_start g ∧ 0 ≤ sg_file g) gs → load_all v gs m x = m x.
Proof.
  intros H. revert m. induction H as [|g gs [Hx Hf] _ IH]; intros m; [done|]. cbn [load_all foldl].
  change (load_all v gs (load_seg v g m) x = m x). rewrite IH. by apply load_seg_below.
Qed.

Lemma load_seg_in_place v g m : 0 ≤ sg_file g → in_place v (load_seg v g m) g.
Proof.
  intros Hf. pose proof (start_le g) as Hs. pose proof (nsect_bounds (sg_start g) (sg_pa g + sg_file g)) as Hn.
  unfold load_seg, in_place, sg_stop. split; intros i Hi.
  - rewrite (proj2 (andb_false_iff (sg_pa g + sg_file g <=? _) _)), (proj2 (andb_true_iff (sg_start g <=? _) _)) by lia. f_equal. lia.
  - by rewrite (proj2 (andb_true_iff _ _)) by lia.
Qed.

Lemma load_all_in_place v gs m : StronglySorted clear_of gs → Forall segment_ok gs → Forall (in_place v (load_all v gs m)) gs.
Proof.
  intros Hs. revert m. induction Hs as [|g gs _ IH Hg]; intros m Hok; [done|]. apply Forall_cons in Hok as [Ho Hok].
  cbn [load_all foldl]. change (Forall (in_place v (load_all v gs (load_seg v g m))) (g :: gs)). constructor; [|by apply IH].
  pose proof (so_file _ Ho) as Hf.
  assert (∀ x, x < sg_end g → load_all v gs (load_seg v g m) x = load_seg v g m x) as Hb.
  { intros x Hx. apply load_all_below. rewrite Forall_forall in Hg, Hok |- *. intros h Hh. specialize (Hg h Hh). unfold clear_of in Hg.
    split; [lia|]. by apply so_file, Hok. }
  destruct (load_seg_in_place v g m Hf) as [H1 H2]. unfold sg_end in Hb. split; intros i Hi; rewrite Hb by lia; auto.
Qed.

(** The segments the program headers of the file describe. *)
Definition file_segs (v : ata) : list segment := segs v (hdr_phoff (image v) 0) (Z.to_nat (hdr_phnum (image v) 0)).

Record loadable (v : ata) : Prop := {
  lo_phoff : 0 ≤ hdr_phoff (image v) 0;
  lo_phnum : 0 ≤ hdr_phnum (image v) 0;
  lo_page : hdr_phoff (image v) 0 + PH * hdr_phnum (image v) 0 ≤ 4096;
  lo_segs : Forall segment_ok (file_segs v);
  lo_order : StronglySorted clear_of (file_segs v);
}.

Lemma hdr_same v m : (∀ i, 0 ≤ i < 4096 → m (elf + i) = image v i) →
  hdr_magic m elf = hdr_magic (image v) 0 ∧ hdr_entry m elf = hdr_entry (image v) 0 ∧
  hdr_phoff m elf = hdr_phoff (image v) 0 ∧ hdr_phnum m elf = hdr_phnum (image v) 0.
Proof.
  intros H. unfold hdr_magic, hdr_entry, hdr_phoff, hdr_phnum, load32, load_half. rewrite <- !Z.add_assoc.
  rewrite !H by lia. pose proof (H 0 ltac:(lia)) as H0. rewrite Z.add_0_r in H0. rewrite H0. repeat split.
Qed.

Section bootmain.
Context {C : Type} `{!AtaController C}.
Abbreviation st := (boot C).
Implicit Types (s : st).

(** [C14] The boot loader jumps to the kernel only when the file that starts
    at sector 1 has the ELF magic number, and returns otherwise.  When it
    jumps, it is to the file's entry point, and every segment the program
    headers describe is in physical memory: its bytes those of the file at
    the segment's offset (whatever that offset is within a sector), its bss
    zero.  It needs the program headers to lie in the first page, and the
    segments to be far enough apart for the rounding to sectors: each starts,
    once rounded down, after the ones loaded before it end. *)
Theorem bootmain_spec v s :
  ctl_rel (bt_ctl s) v → disk_ok v → (hdr_magic (image v) 0 = ELF_MAGIC → loadable v) →
  wp bootmain (λ r s',
    if hdr_magic (image v) 0 =? ELF_MAGIC
    then r = Some (hdr_entry (image v) 0) ∧ Forall (in_place v (bt_mem s')) (file_segs v)
    else r = None) s.
Proof.
  intros HR Hd Hl. unfold bootmain. wstep. eapply (wp_readseg _ _ _ v); [exact HR|done|lia|lia|done|done|done|].
  intros c v1 m1 R1 S1 Hm1. change (sg_start _) with elf in Hm1. change (sg_stop _) with (elf + 4096) in Hm1.
  assert (∀ i, 0 ≤ i < 4096 → m1 (elf + i) = image v i) as Hh.
  { intros i Hi. rewrite Hm1, (proj2 (andb_true_iff _ _)) by lia. f_equal. lia. }
  destruct (hdr_same _ _ Hh) as (E1 & E2 & E3 & E4). wstep. wstep. cbn [bt_mem]. rewrite E1.
  destruct (Z.eqb_spec (hdr_magic (image v) 0) ELF_MAGIC) as [Hmag|Hmag]; cbn [negb]; [|by wstep].
  destruct (Hl Hmag) as [L1 L2 L3 L4 L5]. rewrite E3, E4. unfold PH in L3. rewrite !u32_small by (unfold is_u32, elf, PH; lia).
  assert (∀ n a, segs v1 a n = segs v a n) as Es.
  { intros n a. unfold segs. apply list_fmap_ext. intros i k _. apply seg_at_ext. intros j _. by apply image_same. }
  wstep. replace (PH * hdr_phnum (image v) 0) with (PH * Z.of_nat (Z.to_nat (hdr_phnum (image v) 0))) by (by rewrite Z2Nat.id by done).
  eapply (wp_load_ph _ _ v1); [exact R1|unfold disk_ok; by rewrite S1| |exact L1|unfold PH; lia|by rewrite Es|].
  { intros i Hi. rewrite (image_same v v1) by done. by apply Hh. }
  intros c2 v2 m2 R2 S2 Hm2 Hh2. wstep. wstep. wstep. cbn [bt_mem].
  assert (∀ i, 0 ≤ i < 4096 → m2 (elf + i) = image v i) as Hh3 by (intros; rewrite <- (image_same v v1) by done; by apply Hh2).
  destruct (hdr_same _ _ Hh3) as (_ & -> & _). split; [done|].
  pose proof (load_all_in_place v _ m1 L5 L4) as HF. rewrite Es in Hm2. rewrite Forall_forall in HF |- *. intros g Hg.
  destruct (HF g Hg) as [P1 P2]. split; intros i Hi; rewrite Hm2, (load_all_same v v1) by done; auto.
Qed.
End bootmain.

(** ** Kernel files to try it on *)

Definition le32 (x : Z) : list Z := [x mod 256; x / 256 mod 256; x / 65536 mod 256; x / 16777216 mod 256].
Definition ph_w (g : segment) : list Z :=
  le32 1 ++ le32 (sg_off g) ++ le32 (sg_pa g) ++ le32 (sg_pa g) ++ le32 (sg_file g) ++ le32 (sg_mem g) ++ le32 7 ++ le32 4096.
Definition hdr_w (gs : list segment) : list Z :=
  le32 ELF_MAGIC ++ replicate 20 0 ++ le32 0x100000 ++ le32 52 ++ replicate 12 0 ++ [Z.of_nat (length gs); 0] ++ replicate 6 0 ++
  mjoin (ph_w <$> gs).

(** A disk with the header in sector 1; byte [x] fills every other sector [x]. *)
Definition disk_w (gs : list segment) : ata :=
  mkAta (λ _, 0) AtaIdle (λ _ x, if x =? 1 then take BSIZE (hdr_w gs ++ replicate BSIZE 0) else replicate BSIZE (u8 x)).
Definition boot_w (gs : list segment) : boot (simctl false) := mkBoot (λ _, 0xCC) (mkSim (disk_w gs) 0).

Lemma disk_w_ok gs : disk_ok (disk_w gs).
Proof.
  intros x. cbn [at_sec disk_w]. destruct (x =? 1); [|by rewrite length_replicate].
  rewrite length_take, length_app, length_replicate. lia.
Qed.

(** Text with its data (not at a sector's start) and bss. *)
Definition segs_w : list segment := [mkSegment 0x100000 0x1000 0x400 0x400; mkSegment 0x101030 0x1830 0x210 0x2000].

Lemma loadable_w : loadable (disk_w segs_w).
Proof.
  assert (file_segs (disk_w segs_w) = segs_w) as E by (vm_compute; reflexivity).
  assert (hdr_phoff (image (disk_w segs_w)) 0 = 52 ∧ hdr_phnum (image (disk_w segs_w)) 0 = 2) as [E1 E2] by (vm_compute; by split).
  split; rewrite ?E1, ?E2, ?E; [done..| |].
  - repeat constructor; try (vm_compute; congruence).
  - repeat constructor; vm_compute; congruence.
Qed.

Lemma bootmain_spec_witness :
  wp bootmain (λ r s', r = Some 0x100000 ∧ Forall (in_place (disk_w segs_w) (bt_mem s')) segs_w) (boot_w segs_w).
Proof.
  assert (file_segs (disk_w segs_w) = segs_w) as E by (vm_compute; reflexivity).
  assert (hdr_magic (image (disk_w segs_w)) 0 = ELF_MAGIC) as E1 by (vm_compute; reflexivity).
  assert (hdr_entry (image (disk_w segs_w)) 0 = 0x100000) as E2 by (vm_compute; reflexivity).
  pose proof (bootmain_spec (disk_w segs_w) (boot_w segs_w)) as H. rewrite E, E1, E2 in H.
  apply H; [split; [done|cbn; lia]|apply disk_w_ok|intros _; apply loadable_w].
Defined.

(** Two segments an ELF file may have (in increasing order, each at an
    address congruent to its offset modulo the page size) that readseg's
    comment says load correctly: rounding the second one's address down
    writes over the bytes of the first. *)
Definition segs_near : list segment := [mkSegment 0x100000 0x1000 0x1f0 0x1f0; mkSegment 0x1001f0 0x21f0 0x10 0x10].

Lemma boot_rounding_clobbers :
  sg_end (mkSegment 0x100000 0x1000 0x1f0 0x1f0) ≤ sg_pa (mkSegment 0x1001f0 0x21f0 0x10 0x10) ∧
  image (disk_w segs_near) 0x1000 = 9 ∧
  (match bootmain (boot_w segs_near) with Ret r s' => (r, bt_mem s' 0x100000) | _ => (None, 0) end) = (Some 0x100000, 17).
Proof. split; [done|]. by split; vm_compute. Qed.

(** A sector that is not an ELF header: bootmain returns. *)
Example boot_no_magic : wp bootmain (λ r _, r = None) (mkBoot (λ _, 0xCC) (mkSim (mkAta (λ _, 0) AtaIdle (λ _ x, replicate BSIZE 0)) 0) : boot (simctl false)).
Proof. vm_compute. reflexivity. Qed.
