(* ===== verification/Intr.v ===== *)
(** * Interrupt controllers, timer and serial port

    picirq.c, ioapic.c, timer.c, uart.c, consoleinit of console.c and the
    lines of ideinit (ide.c) that ask for interrupts, with the devices they
    program: the two 8259A controllers (the words picirq.c describes in its
    comments), the I/O APIC, the 8253 timer and an 8250 serial port.  The
    theorem is about what the devices do once main.c has called them in its
    order: which interrupt lines reach a processor, at which vector. *)

From stdpp Require Import list.
From S2P Require Import Prelude Traps Kernel Spinlock.
Local Open Scope Z_scope.

(** ** The devices *)

(** An 8259A: the command word it waits for (0 when it is set up), the four
    words of the initialisation sequence and the mask. *)
Record chip := mkChip { ch_step : Z; icw1 : Z; icw2 : Z; icw3 : Z; icw4 : Z; imr : Z }.

(** A write to the command port: ICW1 starts the sequence over and clears the
    mask; OCW2 and OCW3 change nothing that decides which line is served. *)
Definition chip_cmd (x : Z) (c : chip) : chip :=
  if Z.testbit x 4 then mkChip 2 x (icw2 c) (icw3 c) 0 0 else c.

Definition after_icw3 (c : chip) : Z := if Z.testbit (icw1 c) 0 then 4 else 0.

(** A write to the data port: the next word of the sequence, or the mask. *)
Definition chip_data (x : Z) (c : chip) : chip :=
  if ch_step c =? 2 then mkChip (if Z.testbit (icw1 c) 1 then after_icw3 c else 3) (icw1 c) x (icw3 c) (icw4 c) (imr c)
  else if ch_step c =? 3 then mkChip (after_icw3 c) (icw1 c) (icw2 c) x (icw4 c) (imr c)
  else if ch_step c =? 4 then mkChip 0 (icw1 c) (icw2 c) (icw3 c) x (imr c)
  else mkChip 0 (icw1 c) (icw2 c) (icw3 c) (icw4 c) x.

(** Counter 0 of the 8253: the control word, the low byte written so far and
    the count. *)
Record pit := mkPit { pt_mode : Z; pt_low : option Z; pt_count : Z }.
Definition pit_mode (x : Z) (p : pit) : pit := mkPit x None (pt_count p).
Definition pit_data (x : Z) (p : pit) : pit :=
  match pt_low p with
  | None => mkPit (pt_mode p) (Some x) (pt_count p)
  | Some l => mkPit (pt_mode p) None (l + 256 * x)
  end.

(** An 8250: is it there, the bytes received, the polls until the
    transmitter is free (and how many each byte takes), its registers and the
    bytes sent.  A byte written while the transmitter is not free replaces
    the one before it. *)
Record serial := mkSer {
  sr_here : bool; sr_rx : list Z; sr_busy : nat; sr_delay : nat;
  sr_fcr : Z; sr_lcr : Z; sr_mcr : Z; sr_ier : Z; sr_dll : Z; sr_dlm : Z; sr_sent : list Z }.

Definition dlab (u : serial) : bool := Z.testbit (sr_lcr u) 7.
Definition set_sent l n u := mkSer (sr_here u) (sr_rx u) n (sr_delay u) (sr_fcr u) (sr_lcr u) (sr_mcr u) (sr_ier u) (sr_dll u) (sr_dlm u) l.
Definition set_rx l u := mkSer (sr_here u) l (sr_busy u) (sr_delay u) (sr_fcr u) (sr_lcr u) (sr_mcr u) (sr_ier u) (sr_dll u) (sr_dlm u) (sr_sent u).

Definition ser_send (x : Z) (u : serial) : serial :=
  if sr_here u then
    match sr_busy u with
    | O => set_sent (sr_sent u ++ [x]) (sr_delay u) u
    | S _ => set_sent (removelast (sr_sent u) ++ [x]) (sr_delay u) u
    end
  else u.

Definition ser_out (r x : Z) (u : serial) : serial :=
  let '(mkSer h rx b dl f l m i lo hi s) := u in
  if r =? 0 then if dlab u then mkSer h rx b dl f l m i x hi s else ser_send x u
  else if r =? 1 then if dlab u then mkSer h rx b dl f l m i lo x s else mkSer h rx b dl f l m x lo hi s
  else if r =? 2 then mkSer h rx b dl x l m i lo hi s
  else if r =? 3 then mkSer h rx b dl f x m i lo hi s
  else if r =? 4 then mkSer h rx b dl f l x i lo hi s
  else u.

Definition ser_status (u : serial) : Z :=
  Z.lor (match sr_rx u with [] => 0 | _ => 1 end) (match sr_busy u with O => 0x20 | _ => 0 end).

Definition ser_in (r : Z) (u : serial) : Z * serial :=
  if negb (sr_here u) then (0xFF, u)
  else if r =? 0 then (match sr_rx u with [] => 0 | x :: _ => x end, set_rx (tail (sr_rx u)) u)
  else if r =? 5 then (ser_status u, set_sent (sr_sent u) (pred (sr_busy u)) u)
  else (1, u).

(** ** The state: the variables of the files, and the devices *)

Inductive devfn := Fconsolewrite | Fconsoleread.

Record dev := mkDev {
  irqmask : Z; master : chip; slave : chip;
  ismp : Z; ioapicid : Z; ncpu : Z; io_sel : Z; io_regs : Z → Z;
  d_pit : pit;
  uart : Z; d_ser : serial;
  cons_lock : spinlock; input_lock : spinlock; devsw_console : option (devfn * devfn); cons_locking : Z;
  d_out : list string }.

Definition set_irqmask v s := mkDev v (master s) (slave s) (ismp s) (ioapicid s) (ncpu s) (io_sel s) (io_regs s) (d_pit s) (uart s) (d_ser s) (cons_lock s) (input_lock s) (devsw_console s) (cons_locking s) (d_out s).
Definition set_master v s := mkDev (irqmask s) v (slave s) (ismp s) (ioapicid s) (ncpu s) (io_sel s) (io_regs s) (d_pit s) (uart s) (d_ser s) (cons_lock s) (input_lock s) (devsw_console s) (cons_locking s) (d_out s).
Definition set_slave v s := mkDev (irqmask s) (master s) v (ismp s) (ioapicid s) (ncpu s) (io_sel s) (io_regs s) (d_pit s) (uart s) (d_ser s) (cons_lock s) (input_lock s) (devsw_console s) (cons_locking s) (d_out s).
Definition set_io sel r s := mkDev (irqmask s) (master s) (slave s) (ismp s) (ioapicid s) (ncpu s) sel r (d_pit s) (uart s) (d_ser s) (cons_lock s) (input_lock s) (devsw_console s) (cons_locking s) (d_out s).
Definition set_pit v s := mkDev (irqmask s) (master s) (slave s) (ismp s) (ioapicid s) (ncpu s) (io_sel s) (io_regs s) v (uart s) (d_ser s) (cons_lock s) (input_lock s) (devsw_console s) (cons_locking s) (d_out s).
Definition set_uart v s := mkDev (irqmask s) (master s) (slave s) (ismp s) (ioapicid s) (ncpu s) (io_sel s) (io_regs s) (d_pit s) v (d_ser s) (cons_lock s) (input_lock s) (devsw_console s) (cons_locking s) (d_out s).
Definition set_ser v s := mkDev (irqmask s) (master s) (slave s) (ismp s) (ioapicid s) (ncpu s) (io_sel s) (io_regs s) (d_pit s) (uart s) v (cons_lock s) (input_lock s) (devsw_console s) (cons_locking s) (d_out s).
Definition set_cons lk il sw l s := mkDev (irqmask s) (master s) (slave s) (ismp s) (ioapicid s) (ncpu s) (io_sel s) (io_regs s) (d_pit s) (uart s) (d_ser s) lk il sw l (d_out s).
Definition dev_print (x : string) : M dev unit :=
  modify (λ s, mkDev (irqmask s) (master s) (slave s) (ismp s) (ioapicid s) (ncpu s) (io_sel s) (io_regs s) (d_pit s) (uart s) (d_ser s) (cons_lock s) (input_lock s) (devsw_console s) (cons_locking s) (d_out s ++ [x])).

Definition COM1 : Z := 0x3f8.

(** The ports; each takes a byte. *)
Definition port_out (p x : Z) (s : dev) : dev :=
  if p =? 0x20 then set_master (chip_cmd x (master s)) s
  else if p =? 0x21 then set_master (chip_data x (master s)) s
  else if p =? 0xA0 then set_slave (chip_cmd x (slave s)) s
  else if p =? 0xA1 then set_slave (chip_data x (slave s)) s
  else if p =? 0x43 then set_pit (pit_mode x (d_pit s)) s
  else if p =? 0x40 then set_pit (pit_data x (d_pit s)) s
  else if (COM1 <=? p) && (p <? COM1 + 8) then set_ser (ser_out (p - COM1) x (d_ser s)) s
  else s.
Definition dev_outb (p x : Z) : M dev unit := modify (port_out p (u8 x)).

Definition dev_inb (p : Z) : M dev Z := λ s,
  if (COM1 <=? p) && (p <? COM1 + 8) then Ret (ser_in (p - COM1) (d_ser s)).1 (set_ser (ser_in (p - COM1) (d_ser s)).2 s)
  else Ret 0xFF s.

(** ** picirq.c *)
Definition IO_PIC1 : Z := 0x20.
Definition IO_PIC2 : Z := 0xA0.
Definition IRQ_SLAVE : Z := 2.
Definition irqmask0 : Z := Z.land 0xFFFF (Z.lnot (Z.shiftl 1 IRQ_SLAVE)).

Definition picsetmask (mask : Z) : M dev unit :=
  modify (set_irqmask mask) ;;
  dev_outb (IO_PIC1 + 1) mask ;;
  dev_outb (IO_PIC2 + 1) (Z.shiftr mask 8).

Definition picenable (irq : Z) : M dev unit :=
  m ← gets irqmask;
  picsetmask (u16 (Z.land m (Z.lnot (Z.shiftl 1 irq)))).

Definition picinit : M dev unit :=
  dev_outb (IO_PIC1 + 1) 0xFF ;;
  dev_outb (IO_PIC2 + 1) 0xFF ;;
  dev_outb IO_PIC1 0x11 ;;
  dev_outb (IO_PIC1 + 1) T_IRQ0 ;;
  dev_outb (IO_PIC1 + 1) (Z.shiftl 1 IRQ_SLAVE) ;;
  dev_outb (IO_PIC1 + 1) 0x3 ;;
  dev_outb IO_PIC2 0x11 ;;
  dev_outb (IO_PIC2 + 1) (T_IRQ0 + 8) ;;
  dev_outb (IO_PIC2 + 1) IRQ_SLAVE ;;
  dev_outb (IO_PIC2 + 1) 0x3 ;;
  dev_outb IO_PIC1 0x68 ;;
  dev_outb IO_PIC1 0x0a ;;
  dev_outb IO_PIC2 0x68 ;;
  dev_outb IO_PIC2 0x0a ;;
  m ← gets irqmask;
  if negb (m =? 0xFFFF) then picsetmask m else mret tt.

(** ** ioapic.c *)
Definition REG_ID : Z := 0x00.
Definition REG_VER : Z := 0x01.
Definition REG_TABLE : Z := 0x10.
Definition INT_DISABLED : Z := 0x00010000.

Definition ioapicread (reg : Z) : M dev Z :=
  modify (λ s, set_io reg (io_regs s) s) ;;
  gets (λ s, io_regs s (io_sel s)).

Definition ioapicwrite (reg data : Z) : M dev unit :=
  modify (λ s, set_io reg (io_regs s) s) ;;
  modify (λ s, set_io (io_sel s) (λ r, if r =? io_sel s then u32 data else io_regs s r) s).

Definition ioapicinit : M dev unit :=
  mp ← gets ismp;
  if mp =? 0 then mret tt else
  v ← ioapicread REG_VER;
  let maxintr := Z.land (Z.shiftr v 16) 0xFF in
  r ← ioapicread REG_ID;
  let id := Z.shiftr r 24 in
  want ← gets ioapicid;
  (if negb (id =? want) then dev_print "ioapicinit: id isn't equal to ioapicid; not a MP" else mret tt) ;;
  forM (seqZ 0 (maxintr + 1)) (λ i,
    ioapicwrite (REG_TABLE + 2 * i) (Z.lor INT_DISABLED (T_IRQ0 + i)) ;;
    ioapicwrite (REG_TABLE + 2 * i + 1) 0).

Definition ioapicenable (irq cpunum : Z) : M dev unit :=
  mp ← gets ismp;
  if mp =? 0 then mret tt else
  ioapicwrite (REG_TABLE + 2 * irq) (T_IRQ0 + irq) ;;
  ioapicwrite (REG_TABLE + 2 * irq + 1) (Z.shiftl cpunum 24).

(** ** timer.c *)
Definition IO_TIMER1 : Z := 0x040.
Definition TIMER_FREQ : Z := 1193182.
Definition TIMER_DIV (x : Z) : Z := (TIMER_FREQ + x / 2) / x.
Definition TIMER_MODE : Z := IO_TIMER1 + 3.
Definition TIMER_SEL0 : Z := 0x00.
Definition TIMER_RATEGEN : Z := 0x04.
Definition TIMER_16BIT : Z := 0x30.

Definition timerinit : M dev unit :=
  dev_outb TIMER_MODE (Z.lor (Z.lor TIMER_SEL0 TIMER_RATEGEN) TIMER_16BIT) ;;
  dev_outb IO_TIMER1 (TIMER_DIV 100 mod 256) ;;
  dev_outb IO_TIMER1 (TIMER_DIV 100 / 256) ;;
  picenable IRQ_TIMER.

(** ** uart.c *)

(** The polls of the transmitter that are left; microdelay does nothing. *)
Fixpoint uart_poll (n : nat) : M dev unit :=
  match n with
  | O => mret tt
  | S n => st ← dev_inb (COM1 + 5); if Z.land st 0x20 =? 0 then uart_poll n else mret tt
  end.

Definition uartputc (c : Z) : M dev unit :=
  u ← gets uart;
  if u =? 0 then mret tt else
  uart_poll 128 ;;
  dev_outb (COM1 + 0) c.

Definition hello : list Z := [120; 118; 54; 46; 46; 46; 10].  (* "xv6...\n" *)

Definition uartinit : M dev unit :=
  dev_outb (COM1 + 2) 0 ;;
  dev_outb (COM1 + 3) 0x80 ;;
  dev_outb (COM1 + 0) (115200 / 9600) ;;
  dev_outb (COM1 + 1) 0 ;;
  dev_outb (COM1 + 3) 0x03 ;;
  dev_outb (COM1 + 4) 0 ;;
  dev_outb (COM1 + 1) 0x01 ;;
  st ← dev_inb (COM1 + 5);
  if st =? 0xFF then mret tt else
  modify (set_uart 1) ;;
  dev_inb (COM1 + 2) ;;
  dev_inb (COM1 + 0) ;;
  picenable IRQ_COM1 ;;
  ioapicenable IRQ_COM1 0 ;;
  forM hello uartputc.

Definition uartgetc : M dev Z :=
  u ← gets uart;
  if u =? 0 then mret (-1) else
  st ← dev_inb (COM1 + 5);
  if Z.land st 0x01 =? 0 then mret (-1) else
  dev_inb (COM1 + 0).

(** The bytes uartintr hands to consoleintr, whose loop calls uartgetc until
    there is none. *)
Fixpoint uartintr (fuel : nat) : M dev (list Z) :=
  match fuel with
  | O => spins
  | S fuel => c ← uartgetc; if 0 <=? c then l ← uartintr fuel; mret (c :: l) else mret []
  end.

(** ** consoleinit, and the interrupts of ideinit *)
Definition consoleinit : M dev unit :=
  modify (λ s, set_cons (initlock "console" (cons_lock s)) (input_lock s) (devsw_console s) (cons_locking s) s) ;;
  modify (λ s, set_cons (cons_lock s) (initlock "input" (input_lock s)) (devsw_console s) (cons_locking s) s) ;;
  modify (λ s, set_cons (cons_lock s) (input_lock s) (Some (Fconsolewrite, Fconsoleread)) (cons_locking s) s) ;;
  modify (λ s, set_cons (cons_lock s) (input_lock s) (devsw_console s) 1 s) ;;
  picenable IRQ_KBD ;;
  ioapicenable IRQ_KBD 0.

Definition ide_irq : M dev unit :=
  picenable IRQ_IDE ;;
  n ← gets ncpu;
  ioapicenable IRQ_IDE (n - 1).

(** main.c, what it does with these devices. *)
Definition main_devices : M dev unit :=
  picinit ;;
  ioapicinit ;;
  consoleinit ;;
  uartinit ;;
  ide_irq ;;
  mp ← gets ismp;
  if mp =? 0 then timerinit else mret tt.

(** ** Which interrupts the devices deliver *)

(** The vector at which line [irq] of the 8259A pair interrupts the
    processor, if it does: the slave's lines go through the line of the master
    that both have been told about. *)
Definition chip_serves (c : chip) (n : Z) : bool := (ch_step c =? 0) && Z.testbit (icw4 c) 0 && negb (Z.testbit (imr c) n).
Definition pic_line (s : dev) (irq : Z) : option Z :=
  if irq <? 8 then
    if chip_serves (master s) irq then Some (Z.land (icw2 (master s)) 0xF8 + irq) else None
  else
    let n := Z.land (icw3 (slave s)) 7 in
    if Z.testbit (icw3 (master s)) n && chip_serves (master s) n && chip_serves (slave s) (irq - 8)
    then Some (Z.land (icw2 (slave s)) 0xF8 + (irq - 8)) else None.

(** The vector, the mode (0 is fixed, physical, active high, edge-triggered)
    and the processor of input [irq] of the I/O APIC, if it is not masked. *)
Definition io_line (s : dev) (irq : Z) : option (Z * Z * Z) :=
  let lo := io_regs s (REG_TABLE + 2 * irq) in
  let hi := io_regs s (REG_TABLE + 2 * irq + 1) in
  if Z.testbit lo 16 then None else Some (Z.land lo 0xFF, Z.land (Z.shiftr lo 8) 0xFF, Z.shiftr hi 24).

(** *** The 8259A pair *)

Definition pic_ok (m : Z) (s : dev) : Prop :=
  irqmask s = m ∧ master s = mkChip 0 0x11 32 4 3 (u8 m) ∧ slave s = mkChip 0 0x11 40 2 3 (u8 (Z.shiftr m 8)).

Lemma pic_line_of m s irq : pic_ok m s → Z.testbit m 2 = false → 0 ≤ irq < 16 → irq ≠ 2 →
  pic_line s irq = if Z.testbit m irq then None else Some (T_IRQ0 + irq).
Proof.
  intros (_ & Em & Es) H2 Hi Hn. unfold pic_line. rewrite Em, Es. cbn [icw2 icw3 icw4 imr ch_step].
  change (Z.land 2 7) with 2. change (Z.testbit 4 2) with true. change (Z.land 32 0xF8) with 32. change (Z.land 40 0xF8) with 40.
  unfold chip_serves. cbn [ch_step icw4 imr]. change (0 =? 0) with true. change (Z.testbit 3 0) with true. cbn [andb].
  unfold u8. change 256 with (2 ^ 8). destruct (Z.ltb_spec irq 8).
  - rewrite Z.mod_pow2_bits_low by lia. by destruct (Z.testbit m irq).
  - rewrite !Z.mod_pow2_bits_low by lia. rewrite H2, Z.shiftr_spec by lia. replace (irq - 8 + 8) with irq by lia. cbn [negb andb].
    destruct (Z.testbit m irq); [done|]. cbn [negb]. f_equal. unfold T_IRQ0. lia.
Qed.

(** What the two files leave of the state when they only program the
    interrupt controllers. *)
Definition rest (s : dev) := (ismp s, ioapicid s, ncpu s, d_pit s, (uart s, d_ser s), (cons_lock s, input_lock s, devsw_console s, cons_locking s)).

Lemma wp_dev_outb p x (Q : unit → dev → Prop) s : Q tt (port_out p (u8 x) s) → wp (dev_outb p x) Q s.
Proof. done. Qed.
Ltac wout := first [apply wp_bind, wp_dev_outb | apply wp_dev_outb].

Lemma wp_picsetmask m0 m s : pic_ok m0 s →
  wp (picsetmask m) (λ _ s', pic_ok m s' ∧ rest s' = rest s ∧ io_regs s' = io_regs s) s.
Proof.
  intros (_ & Em & Es). unfold picsetmask. wstep. wstep. wout. wout.
  unfold pic_ok. generalize (u8 (Z.shiftr m 8)) as b, (u8 m) as a. intros b a. destruct s. cbn in Em, Es |- *. subst. by repeat split.
Qed.

Definition mask_off (m irq : Z) : Z := u16 (Z.land m (Z.lnot (Z.shiftl 1 irq))).

Lemma mask_off_bit m irq i : 0 ≤ irq → 0 ≤ i < 16 → Z.testbit (mask_off m irq) i = Z.testbit m i && negb (i =? irq).
Proof.
  intros Hi Hj. unfold mask_off, u16. change 65536 with (2 ^ 16). rewrite Z.mod_pow2_bits_low by lia.
  rewrite Z.land_spec, Z.lnot_spec, Z.shiftl_spec by lia. f_equal. f_equal. destruct (Z.eqb_spec i irq) as [->|Hne].
  - by rewrite Z.sub_diag.
  - destruct (Z.ltb_spec (i - irq) 0); [by rewrite Z.testbit_neg_r|]. apply (Z.bits_above_log2 1); [lia|]. change (Z.log2 1) with 0. lia.
Qed.

Lemma wp_picenable m irq s : pic_ok m s →
  wp (picenable irq) (λ _ s', pic_ok (mask_off m irq) s' ∧ rest s' = rest s ∧ io_regs s' = io_regs s) s.
Proof. intros H. unfold picenable. wstep. wstep. rewrite (proj1 H). by eapply wp_picsetmask. Qed.

Lemma wp_picinit s : irqmask s ≠ 0xFFFF →
  wp picinit (λ _ s', pic_ok (irqmask s) s' ∧ rest s' = rest s ∧ io_regs s' = io_regs s) s.
Proof.
  intros Hm. unfold picinit. do 14 wout. wstep. wstep.
  set (s1 := port_out IO_PIC2 (u8 0x0a) _).
  assert (irqmask s1 = irqmask s) as E1 by done.
  assert (master s1 = mkChip 0 0x11 32 4 3 0 ∧ slave s1 = mkChip 0 0x11 40 2 3 0) as [E2 E3] by done.
  assert (rest s1 = rest s ∧ io_regs s1 = io_regs s) as [<- <-] by done. rewrite E1, (proj2 (Z.eqb_neq _ _)) by done. cbn [negb].
  clearbody s1. unfold picsetmask. wstep. wstep. wout. wout.
  unfold pic_ok. generalize (u8 (Z.shiftr (irqmask s) 8)) as b, (u8 (irqmask s)) as a. intros a b. destruct s1. cbn in E2, E3 |- *. subst. by repeat split.
Qed.

(** *** The I/O APIC *)

Lemma wp_ioapicwrite reg data (Q : unit → dev → Prop) s :
  Q tt (set_io reg (λ r, if r =? reg then u32 data else io_regs s r) s) → wp (ioapicwrite reg data) Q s.
Proof. intros H. unfold ioapicwrite. wstep. wstep. by apply wp_modify. Qed.

(** What is not the I/O APIC's. *)
Definition but_io (s : dev) := (rest s, (irqmask s, master s, slave s)).

(** The inputs up to [n], as the redirection table says. *)
Definition io_has (n : Z) (f : Z → option (Z * Z * Z)) (s : dev) : Prop := ∀ i, 0 ≤ i ≤ n → io_line s i = f i.

Definition entry_ok (b i : Z) : bool :=
  let w := Z.lor b (T_IRQ0 + i) in
  (u32 w =? w) && (Z.land w 0xFF =? T_IRQ0 + i) && (Z.land (Z.shiftr w 8) 0xFF =? 0) && (Bool.eqb (Z.testbit w 16) (b =? INT_DISABLED)).

Lemma entry_bits b i : 0 ≤ i ≤ 223 → b = 0 ∨ b = INT_DISABLED →
  let w := Z.lor b (T_IRQ0 + i) in
  u32 w = w ∧ Z.land w 0xFF = T_IRQ0 + i ∧ Z.land (Z.shiftr w 8) 0xFF = 0 ∧ Z.testbit w 16 = (b =? INT_DISABLED).
Proof.
  intros Hi Hb w.
  assert (forallb (λ i, entry_ok 0 i && entry_ok INT_DISABLED i) (seqZ 0 224) = true) as H by (vm_compute; reflexivity).
  rewrite forallb_forall in H. specialize (H i). rewrite <- list_elem_of_In, elem_of_seqZ in H. specialize (H ltac:(lia)).
  apply andb_prop in H as [H1 H2]. assert (entry_ok b i = true) as H by (by destruct Hb; subst). unfold entry_ok in H. fold w in H.
  apply andb_prop in H as [H ?%Bool.eqb_prop]. bool_facts. done.
Qed.

(** Writing both words of input [i]. *)
Definition two_words (s : dev) (i lo hi : Z) : Z → Z := λ r,
  if r =? REG_TABLE + 2 * i + 1 then u32 hi else if r =? REG_TABLE + 2 * i then u32 lo else io_regs s r.

Lemma two_words_line s sel i lo hi j : io_line (set_io sel (two_words s i lo hi) s) j =
  if j =? i then if Z.testbit (u32 lo) 16 then None else Some (Z.land (u32 lo) 0xFF, Z.land (Z.shiftr (u32 lo) 8) 0xFF, Z.shiftr (u32 hi) 24)
  else io_line s j.
Proof.
  unfold io_line, two_words. cbn [io_regs set_io].
  destruct (Z.eqb_spec (REG_TABLE + 2 * j) (REG_TABLE + 2 * i + 1)); [lia|].
  destruct (Z.eqb_spec (REG_TABLE + 2 * j + 1) (REG_TABLE + 2 * i)); [lia|].
  destruct (Z.eqb_spec j i) as [->|Hne]; [by rewrite !Z.eqb_refl|].
  destruct (Z.eqb_spec (REG_TABLE + 2 * j) (REG_TABLE + 2 * i)); [lia|].
  destruct (Z.eqb_spec (REG_TABLE + 2 * j + 1) (REG_TABLE + 2 * i + 1)); [lia|]. done.
Qed.

Lemma wp_two_words i lo hi (Q : unit → dev → Prop) s :
  Q tt (set_io (REG_TABLE + 2 * i + 1) (two_words s i lo hi) s) →
  wp (ioapicwrite (REG_TABLE + 2 * i) lo ;; ioapicwrite (REG_TABLE + 2 * i + 1) hi) Q s.
Proof. intros H. wstep. apply wp_ioapicwrite. apply wp_ioapicwrite. done. Qed.

Lemma wp_ioapicenable irq cpunum n f s : 0 ≤ irq ≤ 223 → 0 ≤ cpunum < 256 → (ismp s ≠ 0 → io_has n f s) →
  wp (ioapicenable irq cpunum) (λ _ s', but_io s' = but_io s ∧
    (ismp s ≠ 0 → io_has n (λ i, if i =? irq then Some (T_IRQ0 + irq, 0, cpunum) else f i) s')) s.
Proof.
  intros Hi Hc Hf. unfold ioapicenable. wstep. wstep. case_if; [wstep; by split|]. apply wp_two_words. split; [done|]. intros Hmp j Hj.
  rewrite two_words_line. destruct (j =? irq); [|by apply Hf].
  destruct (entry_bits 0 irq Hi (or_introl eq_refl)) as (E1 & E2 & E3 & E4). rewrite Z.lor_0_l in *. rewrite E1, E2, E3, E4.
  change (0 =? INT_DISABLED) with false. cbv iota. do 2 f_equal. rewrite Z.shiftl_mul_pow2 by lia. change (2 ^ 24) with 16777216.
  rewrite u32_small by (unfold is_u32; lia). rewrite Z.shiftr_div_pow2 by lia. change (2 ^ 24) with 16777216. by rewrite Z.div_mul by lia.
Qed.

(** The number of the last input. *)
Definition maxintr (s : dev) : Z := Z.land (Z.shiftr (io_regs s REG_VER) 16) 0xFF.

Lemma wp_ioapicinit s : maxintr s ≤ 223 →
  wp ioapicinit (λ _ s', but_io s' = but_io s ∧ (ismp s ≠ 0 → io_has (maxintr s) (λ _, None) s')) s.
Proof.
  intros Hmax. unfold ioapicinit. wstep. wstep. case_if; [wstep; by split|]. unfold ioapicread. do 4 wstep. cbn [io_regs io_sel set_io].
  do 4 wstep. cbn [io_regs io_sel set_io]. wstep. wstep. cbn [ioapicid set_io]. fold (maxintr s). wstep.
  set (s1 := set_io REG_ID (io_regs s) _). 
  assert (∀ s2, but_io s2 = but_io s → wp (forM (seqZ 0 (maxintr s + 1)) (λ i,
    ioapicwrite (REG_TABLE + 2 * i) (Z.lor INT_DISABLED (T_IRQ0 + i)) ;; ioapicwrite (REG_TABLE + 2 * i + 1) 0))
    (λ _ s', but_io s' = but_io s ∧ (ismp s ≠ 0 → io_has (maxintr s) (λ _, None) s')) s2) as Hloop.
  { intros s2 Hs2. eapply wp_mono; [apply (wp_forM (λ l s', but_io s' = but_io s ∧
      ∀ i, 0 ≤ i ≤ maxintr s → i ∉ l → io_line s' i = None))|].
    - split; [done|]. intros i Hi Hn. destruct Hn. apply elem_of_seqZ. lia.
    - intros x l' s' [pre Hpre] [Hb Hl]. apply wp_two_words. split; [done|]. intros i Hi Hn. rewrite two_words_line.
      assert (x ∈ seqZ 0 (maxintr s + 1)) as Hx%elem_of_seqZ by (rewrite Hpre; set_solver).
      destruct (Z.eqb_spec i x) as [->|Hne]; [|apply Hl; [done|set_solver]].
      destruct (entry_bits INT_DISABLED x ltac:(lia) (or_intror eq_refl)) as (E1 & _ & _ & E4). by rewrite E1, E4.
    - intros _ s' [Hb Hl]. split; [done|]. intros _ i Hi. apply Hl; [done|set_solver]. }
  case_if; [apply wp_modify|wstep]; by apply Hloop.
Qed.

(** *** The serial port *)

Lemma ser_status_tx u : Z.land (ser_status u) 0x20 = match sr_busy u with O => 0x20 | S _ => 0 end.
Proof. unfold ser_status. by destruct (sr_rx u), (sr_busy u). Qed.

Lemma ser_status_rx u : Z.land (ser_status u) 0x01 = match sr_rx u with [] => 0 | _ :: _ => 1 end.
Proof. unfold ser_status. by destruct (sr_rx u), (sr_busy u). Qed.

Lemma ser_status_here u : ser_status u ≠ 0xFF.
Proof. unfold ser_status. by destruct (sr_rx u), (sr_busy u). Qed.

Lemma wp_status (Q : Z → dev → Prop) s : sr_here (d_ser s) = true →
  Q (ser_status (d_ser s)) (set_ser (set_sent (sr_sent (d_ser s)) (pred (sr_busy (d_ser s))) (d_ser s)) s) → wp (dev_inb (COM1 + 5)) Q s.
Proof. intros H. unfold dev_inb, wp, ser_in. rewrite H. done. Qed.

Lemma wp_iir (Q : Z → dev → Prop) s : sr_here (d_ser s) = true → Q 1 (set_ser (d_ser s) s) → wp (dev_inb (COM1 + 2)) Q s.
Proof. intros H. unfold dev_inb, wp, ser_in. rewrite H. done. Qed.

Lemma wp_data (Q : Z → dev → Prop) s : sr_here (d_ser s) = true →
  Q (match sr_rx (d_ser s) with [] => 0 | x :: _ => x end) (set_ser (set_rx (tail (sr_rx (d_ser s))) (d_ser s)) s) →
  wp (dev_inb (COM1 + 0)) Q s.
Proof. intros H. unfold dev_inb, wp, ser_in. rewrite H. done. Qed.

Lemma wp_absent p (Q : Z → dev → Prop) s : sr_here (d_ser s) = false → Q 0xFF (set_ser (d_ser s) s) → wp (dev_inb p) Q s.
Proof. intros H HQ. unfold dev_inb, wp, ser_in. rewrite H. destruct (_ && _); [done|]. by destruct s. Qed.

Lemma wp_uart_poll n s (Q : unit → dev → Prop) : sr_here (d_ser s) = true →
  Q tt (set_ser (set_sent (sr_sent (d_ser s)) (sr_busy (d_ser s) - n)%nat (d_ser s)) s) → wp (uart_poll n) Q s.
Proof.
  revert s. induction n as [|n IH]; intros s Hh HQ; cbn [uart_poll].
  - wstep. rewrite Nat.sub_0_r in HQ. by destruct s as [? ? ? ? ? ? ? ? ? ? [] ? ? ? ? ?].
  - wstep. apply wp_status; [done|]. rewrite ser_status_tx. destruct (sr_busy (d_ser s)) as [|b] eqn:Eb.
    + change (32 =? 0) with false. cbv iota. wstep. exact HQ.
    + change (0 =? 0) with true. cbv iota. apply IH; [done|]. exact HQ.
Qed.

(** uartputc sends the byte once the transmitter is free, if that takes it at
    most 128 polls. *)
Lemma wp_uartputc c s (Q : unit → dev → Prop) :
  uart s = 1 → sr_here (d_ser s) = true → dlab (d_ser s) = false → (sr_busy (d_ser s) ≤ 128)%nat →
  Q tt (set_ser (set_sent (sr_sent (d_ser s) ++ [u8 c]) (sr_delay (d_ser s)) (d_ser s)) s) → wp (uartputc c) Q s.
Proof.
  intros Hu Hh Hd Hb HQ. unfold uartputc. wstep. wstep. rewrite Hu. change (1 =? 0) with false. cbv iota. wstep.
  apply wp_uart_poll; [done|]. replace (sr_busy (d_ser s) - 128)%nat with O by lia. wout.
  generalize dependent (u8 c). intros x HQ. destruct s as [? ? ? ? ? ? ? ? ? ? [] ? ? ? ? ?]. cbn in *. subst.
  unfold port_out. cbn. unfold dlab in *. cbn in *. by rewrite Hd.
Qed.

(** Can the port be used to send: it is there, set up, and a byte takes at
    most 128 polls. *)
Definition can_send (s : dev) : Prop :=
  uart s = 1 ∧ sr_here (d_ser s) = true ∧ dlab (d_ser s) = false ∧ (sr_busy (d_ser s) ≤ 128)%nat ∧ (sr_delay (d_ser s) ≤ 128)%nat.

Definition with_sent (l : list Z) (s s' : dev) : Prop :=
  ∃ n, s' = set_ser (set_sent (sr_sent (d_ser s) ++ (u8 <$> l)) n (d_ser s)) s.

Lemma wp_uartputs l s : can_send s → wp (forM l uartputc) (λ _ s', with_sent l s s' ∧ can_send s') s.
Proof.
  revert s. induction l as [|c l IH]; intros s Hs; cbn [forM].
  - wstep. split; [|done]. exists (sr_busy (d_ser s)). rewrite fmap_nil, app_nil_r.
    by destruct s as [? ? ? ? ? ? ? ? ? ? [] ? ? ? ? ?].
  - destruct Hs as (H1 & H2 & H3 & H4 & H5). wstep. apply wp_uartputc; try done.
    eapply wp_mono; [apply IH; by repeat split|]. intros _ s' [[n ->] Hc]. split; [|exact Hc]. exists n.
    cbn [d_ser set_ser sr_sent set_sent]. by rewrite fmap_cons, <- app_assoc.
Qed.

(** uartintr passes on every byte received, in order, and returns. *)
Lemma uartintr_spec fuel s : uart s = 1 → sr_here (d_ser s) = true → Forall is_u8 (sr_rx (d_ser s)) → (length (sr_rx (d_ser s)) < fuel)%nat →
  wp (uartintr fuel) (λ l s', l = sr_rx (d_ser s) ∧ sr_rx (d_ser s') = [] ∧ sr_sent (d_ser s') = sr_sent (d_ser s)) s.
Proof.
  revert s. induction fuel as [|fuel IH]; intros s Hu Hh Hrx Hf; [lia|]. cbn [uartintr]. wstep. unfold uartgetc. wstep. wstep.
  rewrite Hu. change (1 =? 0) with false. cbv iota. wstep. apply wp_status; [done|]. rewrite ser_status_rx.
  destruct (sr_rx (d_ser s)) as [|c rx] eqn:Er.
  - change (0 =? 0) with true. cbv iota. wstep. change (0 <=? -1) with false. cbv iota. wstep. by rewrite <- Er.
  - change (1 =? 0) with false. cbv iota. apply wp_data; [done|]. cbn [d_ser set_ser sr_rx set_sent]. rewrite Er. cbn [tail].
    apply Forall_cons in Hrx as [Hc Hrx]. unfold is_u8 in Hc. rewrite (proj2 (Z.leb_le 0 c)) by lia. cbv iota. wstep.
    eapply wp_mono; [apply IH; cbn; [done|done|done|cbn in Hf; lia]|]. cbn. intros l s' (-> & H1 & H2). by rewrite H1, H2.
Qed.

(** A port as uartinit leaves it: 9600 baud, 8 data bits, receive interrupts. *)
Definition ser_set_up (u : serial) : Prop :=
  sr_dll u + 256 * sr_dlm u = 115200 / 9600 ∧ sr_lcr u = 3 ∧ sr_fcr u = 0 ∧ sr_mcr u = 0 ∧ sr_ier u = 1.

(** *** Putting it together *)

(** What decides which interrupts are delivered. *)
Record lines_at (mp n mx m : Z) (f : Z → option (Z * Z * Z)) (s : dev) : Prop := {
  la_mp : ismp s = mp;
  la_ncpu : ncpu s = n;
  la_pic : pic_ok m s;
  la_io : mp ≠ 0 → io_has mx f s;
}.

Definition others (s : dev) := (d_pit s, uart s, d_ser s, cons_locking s, devsw_console s).

Definition route (f : Z → option (Z * Z * Z)) (irq cpunum : Z) : Z → option (Z * Z * Z) :=
  λ i, if i =? irq then Some (T_IRQ0 + irq, 0, cpunum) else f i.

Lemma io_has_regs n f s s' : io_regs s' = io_regs s → io_has n f s → io_has n f s'.
Proof. intros E H i Hi. unfold io_line. rewrite E. by apply H. Qed.

Lemma wp_picenable_at irq mp n mx m f s : lines_at mp n mx m f s →
  wp (picenable irq) (λ _ s', lines_at mp n mx (mask_off m irq) f s' ∧ rest s' = rest s) s.
Proof.
  intros [H1 H2 H3 H4]. eapply wp_mono; [eapply wp_picenable, H3|]. intros _ s' (P & R & I). split; [|done].
  pose proof R as R'. unfold rest in R'. injection R' as ? ? ? ? ? ? ? ? ? ?. split; [congruence|congruence|done|]. intros Hmp. eapply io_has_regs; [exact I|auto].
Qed.

Lemma wp_ioapicenable_at irq cpunum mp n mx m f s : 0 ≤ irq ≤ 223 → 0 ≤ cpunum < 256 → lines_at mp n mx m f s →
  wp (ioapicenable irq cpunum) (λ _ s', lines_at mp n mx m (route f irq cpunum) s' ∧ rest s' = rest s) s.
Proof.
  intros Hi Hc [H1 H2 H3 H4]. rewrite <- H1 in H4. eapply wp_mono; [apply (wp_ioapicenable _ _ mx f); done|]. intros _ s' (B & I).
  pose proof B as B'. unfold but_io, rest in B'. injection B' as ? ? ? ? ? ? ? ? ? ? ? ? ?. split; [|unfold rest; congruence].
  split; try congruence; [|intros; apply I; congruence]. destruct H3 as (? & ? & ?). unfold pic_ok. split; [|split]; congruence.
Qed.

Lemma wp_consoleinit_at mp n mx m f s : lines_at mp n mx m f s →
  wp consoleinit (λ _ s', lines_at mp n mx (mask_off m IRQ_KBD) (route f IRQ_KBD 0) s' ∧
    others s' = (d_pit s, uart s, d_ser s, 1, Some (Fconsolewrite, Fconsoleread))) s.
Proof.
  intros H. unfold consoleinit. do 8 wstep. wstep. set (s1 := set_cons _ _ _ _ _).
  assert (lines_at mp n mx m f s1) as H1 by (destruct H; split; done).
  eapply wp_mono; [apply wp_picenable_at, H1|]. intros _ s2 [H2 R2]. eapply wp_mono; [apply wp_ioapicenable_at; [done|done|exact H2]|].
  intros _ s3 [H3 R3]. split; [done|]. rewrite R2 in R3. unfold rest in R3. injection R3 as ? ? ? E1 E2 E3 ? ? E4 E5. unfold others.
  by rewrite E1, E2, E3, E4, E5.
Qed.

Lemma wp_ide_irq_at mp n mx m f s : 1 ≤ n ≤ 256 → lines_at mp n mx m f s →
  wp ide_irq (λ _ s', lines_at mp n mx (mask_off m IRQ_IDE) (route f IRQ_IDE (n - 1)) s' ∧ rest s' = rest s) s.
Proof.
  intros Hn H. unfold ide_irq. wstep. eapply wp_mono; [apply wp_picenable_at, H|]. intros _ s2 [H2 R2]. wstep. wstep. rewrite (la_ncpu _ _ _ _ _ _ H2).
  eapply wp_mono; [apply wp_ioapicenable_at; [done|lia|exact H2]|]. intros _ s3 [H3 R3]. split; [done|congruence].
Qed.

Lemma lines_at_ser mp n mx m f u s : lines_at mp n mx m f s → lines_at mp n mx m f (set_ser u s).
Proof. intros []. by split. Qed.

Definition ser_init (u : serial) : serial :=
  mkSer (sr_here u) (sr_rx u) (sr_busy u) (sr_delay u) 0 3 0 1 12 0 (sr_sent u).

Definition unsent (s : dev) := (d_pit s, cons_locking s, devsw_console s).

Lemma wp_uartinit_at mp n mx m f s : lines_at mp n mx m f s → (sr_busy (d_ser s) ≤ 128)%nat → (sr_delay (d_ser s) ≤ 128)%nat →
  wp uartinit (λ _ s', unsent s' = unsent s ∧
    (let here := sr_here (d_ser s) in
     lines_at mp n mx (if here then mask_off m IRQ_COM1 else m) (if here then route f IRQ_COM1 0 else f) s') ∧
    if sr_here (d_ser s) then uart s' = 1 ∧ ser_set_up (d_ser s') ∧ sr_sent (d_ser s') = sr_sent (d_ser s) ++ hello
    else uart s' = uart s) s.
Proof.
  intros H Hb Hd. unfold uartinit. do 7 wout. set (s1 := port_out _ _ _).
  assert (s1 = set_ser (ser_init (d_ser s)) s) as -> by (unfold s1; destruct s as [? ? ? ? ? ? ? ? ? ? [] ? ? ? ? ?]; reflexivity).
  wstep. destruct (sr_here (d_ser s)) eqn:Eh.
  - apply wp_status; [exact Eh|]. rewrite (proj2 (Z.eqb_neq _ _) (ser_status_here _)). wstep. wstep. wstep.
    apply wp_iir; [exact Eh|]. wstep. apply wp_data; [exact Eh|]. match goal with |- wp _ _ ?x => set (s2 := x) end.
    assert (lines_at mp n mx m f s2) as H2 by (destruct H; by split).
    wstep. eapply wp_mono; [apply wp_picenable_at, H2|]. intros _ s3 [H3 R3].
    wstep. eapply wp_mono; [apply wp_ioapicenable_at; [done|done|exact H3]|]. intros _ s4 [H4 R4].
    rewrite R3 in R4. unfold rest in R4. injection R4 as ? ? ? Ep Eu Es ? ? Ew El.
    assert (can_send s4) as Hs by (unfold can_send; rewrite Eu, Es; repeat split; [done|cbn; lia|done]).
    eapply wp_mono; [apply wp_uartputs, Hs|]. intros _ s5 [[k ->] (Hu5 & _)]. split; [unfold unsent; cbn; by rewrite Ep, Ew, El|].
    split; [by apply lines_at_ser|]. split; [done|]. cbn [d_ser set_ser]. rewrite Es. by split.
  - apply wp_absent; [exact Eh|]. change (255 =? 0xFF) with true. cbv iota. wstep.
    split; [done|]. split; [by apply lines_at_ser, lines_at_ser|done].
Qed.

(** The lines main.c asks for. *)
Definition wanted (here : bool) (mp irq : Z) : bool :=
  (irq =? IRQ_KBD) || (irq =? IRQ_IDE) || (here && (irq =? IRQ_COM1)) || ((mp =? 0) && (irq =? IRQ_TIMER)).

Lemma irqmask0_bit i : 0 ≤ i < 16 → Z.testbit irqmask0 i = negb (i =? 2).
Proof. intros H. assert (i ∈ seqZ 0 16) as Hi by (apply elem_of_seqZ; lia). revert i H Hi. intros i _ Hi. vm_compute in Hi. set_solver. Qed.

(** [C16] Once main.c has set up its devices, the lines it asked for (the
    keyboard, the disk, the serial port if there is one, and the timer on a
    uniprocessor) interrupt a processor at vector T_IRQ0 plus the line, and
    no other line does: through the 8259A pair on any machine and, on a
    multiprocessor, also through the I/O APIC, which sends the disk's
    interrupts to the last processor and the others to the first.  The serial
    port runs at 9600 baud and has sent its greeting, and on a uniprocessor
    the timer counts down 11932, 100 times a second. *)
Theorem devices_deliver s :
  irqmask s = irqmask0 → maxintr s ≤ 223 → 1 ≤ ncpu s ≤ 256 →
  uart s = 0 → (sr_busy (d_ser s) ≤ 128)%nat → (sr_delay (d_ser s) ≤ 128)%nat →
  wp main_devices (λ _ s',
    let on := wanted (sr_here (d_ser s)) (ismp s) in
    (∀ irq, 0 ≤ irq < 16 → irq ≠ IRQ_SLAVE → pic_line s' irq = if on irq then Some (T_IRQ0 + irq) else None) ∧
    (ismp s ≠ 0 → ∀ irq, 0 ≤ irq ≤ maxintr s →
       io_line s' irq = if on irq then Some (T_IRQ0 + irq, 0, if irq =? IRQ_IDE then ncpu s - 1 else 0) else None) ∧
    (if sr_here (d_ser s) then uart s' = 1 ∧ ser_set_up (d_ser s') ∧ sr_sent (d_ser s') = sr_sent (d_ser s) ++ hello else uart s' = 0) ∧
    (ismp s = 0 → d_pit s' = mkPit (Z.lor TIMER_RATEGEN TIMER_16BIT) None 11932) ∧
    devsw_console s' = Some (Fconsolewrite, Fconsoleread) ∧ cons_locking s' = 1) s.
Proof.
  intros Hm Hmx Hn Hu Hb Hd. unfold main_devices. wstep. eapply wp_mono; [apply wp_picinit; rewrite Hm; done|]. intros _ s1 (P1 & R1 & I1).
  rewrite Hm in P1. pose proof R1 as R1'. unfold rest in R1'. injection R1' as M1 _ N1 Pt1 U1 S1 _ _ _ _.
  assert (maxintr s1 = maxintr s) as X1 by (unfold maxintr; by rewrite I1).
  wstep. eapply wp_mono; [apply wp_ioapicinit; by rewrite X1|]. intros _ s2 (B2 & I2). pose proof B2 as B2'. unfold but_io, rest in B2'.
  injection B2' as M2 _ N2 Pt2 U2 S2 _ _ _ _ K2 A2 L2.
  assert (lines_at (ismp s) (ncpu s) (maxintr s) irqmask0 (λ _, None) s2) as L.
  { split; [congruence|congruence|destruct P1 as (? & ? & ?); unfold pic_ok; split; [|split]; congruence|]. rewrite X1, M1 in I2. exact I2. }
  wstep. eapply wp_mono; [apply wp_consoleinit_at, L|]. intros _ s3 [L3 O3]. unfold others in O3. injection O3 as Pt3 U3 S3 C3 W3.
  assert (d_ser s3 = d_ser s) as Es by congruence. assert (uart s3 = 0) as Eu by congruence.
  wstep. eapply wp_mono; [apply (wp_uartinit_at _ _ _ _ _ _ L3); by rewrite Es|]. intros _ s4 (O4 & L4 & T4). rewrite Es in L4, T4. rewrite Eu in T4.
  unfold unsent in O4. injection O4 as Pt4 C4 W4. set (here := sr_here (d_ser s)) in *. cbv zeta in L4.
  wstep. eapply wp_mono; [apply wp_ide_irq_at; [done|exact L4]|]. intros _ s5 [L5 R5]. unfold rest in R5. injection R5 as _ _ _ Pt5 U5 S5 _ _ W5 C5.
  wstep. wstep. rewrite (la_mp _ _ _ _ _ _ L5). rewrite <- S5, <- U5 in T4.
  set (m5 := mask_off _ IRQ_IDE) in *. set (f5 := route _ IRQ_IDE _) in *.
  assert (∀ i, 0 ≤ i < 16 → Z.testbit m5 i = negb (i =? 2) && negb (wanted here 1 i)) as Hm5.
  { intros i Hi. unfold m5. rewrite mask_off_bit by done. unfold wanted. destruct here.
    - rewrite !mask_off_bit, irqmask0_bit by done. by destruct (i =? 2), (i =? IRQ_KBD), (i =? IRQ_COM1), (i =? IRQ_IDE).
    - rewrite mask_off_bit, irqmask0_bit by done. by destruct (i =? 2), (i =? IRQ_KBD), (i =? IRQ_COM1), (i =? IRQ_IDE). }
  assert (∀ i, f5 i = if wanted here 1 i then Some (T_IRQ0 + i, 0, if i =? IRQ_IDE then ncpu s - 1 else 0) else None) as Hf5.
  { intros i. unfold f5, wanted, route.
    destruct (Z.eqb_spec i IRQ_IDE) as [->|?]; [by destruct here|]. destruct here; [destruct (Z.eqb_spec i IRQ_COM1) as [->|?]; [done|]|];
      by destruct (Z.eqb_spec i IRQ_KBD) as [->|?]. }
  assert (∀ mp i, mp ≠ 0 → wanted here mp i = wanted here 1 i) as Hw by (intros mp i Hmp; unfold wanted; by rewrite (proj2 (Z.eqb_neq mp 0))).
  destruct (Z.eqb_spec (ismp s) 0) as [Hmp|Hmp].
  - unfold timerinit. do 3 wout. set (s6 := port_out _ _ _).
    assert (lines_at (ismp s) (ncpu s) (maxintr s) m5 f5 s6) as L6 by (destruct L5; by split).
    assert (d_pit s6 = mkPit (Z.lor TIMER_RATEGEN TIMER_16BIT) None 11932) as Pt6 by done.
    assert (d_ser s6 = d_ser s5 ∧ uart s6 = uart s5 ∧ devsw_console s6 = devsw_console s5 ∧ cons_locking s6 = cons_locking s5) as (S6 & U6 & W6 & C6) by done.
    clearbody s6. eapply wp_mono; [apply wp_picenable_at, L6|]. intros _ s7 [L7 R7]. unfold rest in R7. injection R7 as _ _ _ Pt7 U7 S7 _ _ W7 C7.
    rewrite <- S6, <- S7, <- U6, <- U7 in T4. split; [|split; [done|split; [exact T4|split; [congruence|split; congruence]]]].
    intros irq Hi Hn2. assert (∀ i, 0 ≤ i < 16 → Z.testbit (mask_off m5 IRQ_TIMER) i = negb (i =? 2) && negb (wanted here 0 i)) as Hm7.
    { intros i Hi7. rewrite mask_off_bit, Hm5 by done. unfold wanted. by destruct (i =? 2), (i =? IRQ_KBD), (i =? IRQ_COM1), (i =? IRQ_IDE), here, (i =? IRQ_TIMER). }
    rewrite (pic_line_of (mask_off m5 IRQ_TIMER)) by (try apply L7; try done; by rewrite Hm7). rewrite Hm7, Hmp by done.
    rewrite (proj2 (Z.eqb_neq irq 2)) by done. by destruct (wanted here 0 irq).
  - wstep. split; [|split; [|split; [exact T4|split; [done|split; congruence]]]].
    + intros irq Hi Hn2. rewrite (pic_line_of m5) by (try apply L5; try done; by rewrite Hm5). rewrite Hm5, (Hw (ismp s)) by done.
      rewrite (proj2 (Z.eqb_neq irq 2)) by done. by destruct (wanted here 1 irq).
    + intros _ irq Hi. rewrite (la_io _ _ _ _ _ _ L5) by done. by rewrite Hf5, (Hw (ismp s)).
Qed.

(** ** Witnesses *)

Definition ser_w : serial := mkSer true [13; 97] 3 100 0 0 0 0 0 0 [].
Definition dev_w (mp : Z) : dev :=
  mkDev irqmask0 (mkChip 3 0 0 0 0 7) (mkChip 0 1 2 3 4 5) mp 0 (if mp =? 0 then 1 else 2) 0 (λ r, if r =? REG_VER then 0x00170011 else 7)
    (mkPit 0 (Some 3) 9) 0 ser_w lock0 lock0 None 0 [].

Lemma devices_deliver_witness :
  wp main_devices (λ _ s',
    pic_line s' IRQ_TIMER = Some 32 ∧ pic_line s' IRQ_KBD = Some 33 ∧ pic_line s' 3 = None ∧ pic_line s' IRQ_COM1 = Some 36) (dev_w 0) ∧
  wp main_devices (λ _ s', io_line s' IRQ_IDE = Some (46, 0, 1) ∧ io_line s' IRQ_KBD = Some (33, 0, 0) ∧ io_line s' IRQ_TIMER = None) (dev_w 1).
Proof.
  split.
  - eapply wp_mono; [apply (devices_deliver (dev_w 0)); first [vm_compute; reflexivity|vm_compute; split; congruence|vm_compute; congruence|vm_compute; lia]|].
    intros _ s' (H & _). by rewrite !H.
  - eapply wp_mono; [apply (devices_deliver (dev_w 1)); first [vm_compute; reflexivity|vm_compute; split; congruence|vm_compute; congruence|vm_compute; lia]|].
    intros _ s' (_ & H & _). specialize (H ltac:(done)). change (maxintr (dev_w 1)) with 23 in H. by rewrite !H.
Defined.
