(* ===== verification/Lapic.v ===== *)
(** * The local APIC and the clock (xv6/lapic.c)

    The local APIC is a page of registers; what matters to xv6 is what the
    registers have been set to, the commands sent through the interrupt
    command register, and that this register says for a while that a command
    is being delivered.  The clock is read byte by byte through the CMOS
    ports while it goes on. *)

From stdpp Require Import list.
From S2P Require Import Prelude Traps Kernel Spinlock CString Intr.
Local Open Scope Z_scope.

(** ** The devices *)

(** The registers as last written (those never written have what the chip
    starts with), the commands sent, how many reads the last one is still
    being delivered for, and how many a command takes. *)
Record apic := mkApic { ap_regs : Z → Z; ap_cmds : list (Z * Z); ap_busy : nat; ap_delay : nat }.

(** The real-time clock: the register selected, the registers at each
    moment, and the moment; a read of the clock takes one. *)
Record rtc := mkRtc { rt_sel : Z; rt_clk : nat → Z → Z; rt_now : nat }.

(** The memory, the flags, the variable lapic, the counter of cpunum, the
    devices and what is printed. *)
Record lst := mkLst {
  l_mem : mem; l_eflags : Z; lapic : Z; l_n : Z; l_apic : apic; l_rtc : rtc; l_ports : list (Z * Z); l_out : list string }.

Definition set_apic v s := mkLst (l_mem s) (l_eflags s) (lapic s) (l_n s) v (l_rtc s) (l_ports s) (l_out s).
Definition set_rtc v s := mkLst (l_mem s) (l_eflags s) (lapic s) (l_n s) (l_apic s) v (l_ports s) (l_out s).
Definition set_lmem v s := mkLst v (l_eflags s) (lapic s) (l_n s) (l_apic s) (l_rtc s) (l_ports s) (l_out s).
Definition set_ports v s := mkLst (l_mem s) (l_eflags s) (lapic s) (l_n s) (l_apic s) (l_rtc s) v (l_out s).
Definition set_n n o s := mkLst (l_mem s) (l_eflags s) (lapic s) n (l_apic s) (l_rtc s) (l_ports s) o.

(** The registers, as indices of words. *)
Definition ID : Z := 0x0020 / 4.
Definition VER : Z := 0x0030 / 4.
Definition TPR : Z := 0x0080 / 4.
Definition EOI : Z := 0x00B0 / 4.
Definition SVR : Z := 0x00F0 / 4.
Definition ENABLE : Z := 0x00000100.
Definition ESR : Z := 0x0280 / 4.
Definition ICRLO : Z := 0x0300 / 4.
Definition INIT : Z := 0x00000500.
Definition STARTUP : Z := 0x00000600.
Definition DELIVS : Z := 0x00001000.
Definition ASSERT : Z := 0x00004000.
Definition LEVEL : Z := 0x00008000.
Definition BCAST : Z := 0x00080000.
Definition ICRHI : Z := 0x0310 / 4.
Definition TIMER : Z := 0x0320 / 4.
Definition X1 : Z := 0x0000000B.
Definition PERIODIC : Z := 0x00020000.
Definition PCINT : Z := 0x0340 / 4.
Definition LINT0 : Z := 0x0350 / 4.
Definition LINT1 : Z := 0x0360 / 4.
Definition ERROR : Z := 0x0370 / 4.
Definition MASKED : Z := 0x00010000.
Definition TICR : Z := 0x0380 / 4.
Definition TDCR : Z := 0x03E0 / 4.

Definition upd (i v : Z) (f : Z → Z) : Z → Z := λ j, if j =? i then v else f j.

(** A write to ICRLO sends a command to the processor ICRHI names. *)
Definition apic_write (i v : Z) (a : apic) : apic :=
  if i =? ICRLO
  then mkApic (upd i v (ap_regs a)) (ap_cmds a ++ [(Z.shiftr (ap_regs a ICRHI) 24, v)]) (ap_delay a) (ap_delay a)
  else mkApic (upd i v (ap_regs a)) (ap_cmds a) (ap_busy a) (ap_delay a).

Definition apic_read (i : Z) (a : apic) : Z * apic :=
  if i =? ICRLO then
    match ap_busy a with
    | O => (Z.ldiff (ap_regs a i) DELIVS, a)
    | S n => (Z.lor (ap_regs a i) DELIVS, mkApic (ap_regs a) (ap_cmds a) n (ap_delay a))
    end
  else (ap_regs a i, a).

(** ** lapic.c *)

Definition lapicr (i : Z) : M lst Z := λ s, Ret (apic_read i (l_apic s)).1 (set_apic (apic_read i (l_apic s)).2 s).

Definition lapicw (index value : Z) : M lst unit :=
  modify (λ s, set_apic (apic_write index (u32 value) (l_apic s)) s) ;;
  lapicr ID ;;
  mret tt.

Fixpoint wait_delivery (fuel : nat) : M lst unit :=
  match fuel with
  | O => spins
  | S fuel => v ← lapicr ICRLO; if negb (Z.land v DELIVS =? 0) then wait_delivery fuel else mret tt
  end.

Definition lapicinit : M lst unit :=
  p ← gets lapic;
  if p =? 0 then mret tt else
  lapicw SVR (Z.lor ENABLE (T_IRQ0 + IRQ_SPURIOUS)) ;;
  lapicw TDCR X1 ;;
  lapicw TIMER (Z.lor PERIODIC (T_IRQ0 + IRQ_TIMER)) ;;
  lapicw TICR 10000000 ;;
  lapicw LINT0 MASKED ;;
  lapicw LINT1 MASKED ;;
  v ← lapicr VER;
  (if 4 <=? Z.land (Z.shiftr v 16) 0xFF then lapicw PCINT MASKED else mret tt) ;;
  lapicw ERROR (T_IRQ0 + IRQ_ERROR) ;;
  lapicw ESR 0 ;;
  lapicw ESR 0 ;;
  lapicw EOI 0 ;;
  lapicw ICRHI 0 ;;
  lapicw ICRLO (Z.lor (Z.lor BCAST INIT) LEVEL) ;;
  n ← gets (λ s, ap_delay (l_apic s));
  wait_delivery (S n) ;;
  lapicw TPR 0.

Definition cpunum : M lst Z :=
  fl ← gets l_eflags;
  (if negb (Z.land fl FL_IF =? 0) then
     n ← gets l_n;
     modify (λ s, set_n (i32 (n + 1)) (if n =? 0 then l_out s ++ ["cpu called with interrupts enabled"%string] else l_out s) s)
   else mret tt) ;;
  p ← gets lapic;
  if negb (p =? 0) then v ← lapicr ID; mret (Z.shiftr v 24) else mret 0.

Definition lapiceoi : M lst unit :=
  p ← gets lapic;
  if negb (p =? 0) then lapicw EOI 0 else mret tt.

Definition CMOS_PORT : Z := 0x70.
Definition CMOS_RETURN : Z := 0x71.

(** The ports of the CMOS: the index selects a register, of which the clock's
    are kept apart; every write is recorded. *)
Definition cmos_write (p x : Z) (s : lst) : lst :=
  set_ports (l_ports s ++ [(p, x)]) (if p =? CMOS_PORT then set_rtc (mkRtc x (rt_clk (l_rtc s)) (rt_now (l_rtc s))) s else s).
Definition cmos_outb (p x : Z) : M lst unit := modify (cmos_write p (u8 x)).
Definition cmos_inb : M lst Z := λ s,
  let r := l_rtc s in
  Ret (u8 (rt_clk r (rt_now r) (rt_sel r))) (set_rtc (mkRtc (rt_sel r) (rt_clk r) (S (rt_now r))) s).

Definition warm_reset : Z := KERNBASE + Z.lor (Z.shiftl 0x40 4) 0x67.

Definition store16 (m : mem) (a v : Z) : mem := upd (a + 1) (u8 (v / 256)) (upd a (u8 v) m).

Definition lapicstartap (apicid addr : Z) : M lst unit :=
  cmos_outb CMOS_PORT 0xF ;;
  cmos_outb (CMOS_PORT + 1) 0x0A ;;
  modify (λ s, set_lmem (store16 (l_mem s) warm_reset 0) s) ;;
  modify (λ s, set_lmem (store16 (l_mem s) (warm_reset + 2) (Z.shiftr addr 4)) s) ;;
  lapicw ICRHI (Z.shiftl apicid 24) ;;
  lapicw ICRLO (Z.lor (Z.lor INIT LEVEL) ASSERT) ;;
  lapicw ICRLO (Z.lor INIT LEVEL) ;;
  forM [0; 1] (λ _,
    lapicw ICRHI (Z.shiftl apicid 24) ;;
    lapicw ICRLO (Z.lor STARTUP (Z.shiftr addr 12))).

(** *** The clock *)
Definition CMOS_STATA : Z := 0x0a.
Definition CMOS_STATB : Z := 0x0b.
Definition CMOS_UIP : Z := Z.shiftl 1 7.
Definition SECS : Z := 0x00.
Definition MINS : Z := 0x02.
Definition HOURS : Z := 0x04.
Definition DAY : Z := 0x07.
Definition MONTH : Z := 0x08.
Definition YEAR : Z := 0x09.

Record rtcdate := mkDate { second : Z; minute : Z; hour : Z; day : Z; month : Z; year : Z }.
#[export] Instance rtcdate_eq_dec : EqDecision rtcdate.
Proof. solve_decision. Defined.

Definition cmos_read (reg : Z) : M lst Z := cmos_outb CMOS_PORT reg ;; cmos_inb.

Definition fill_rtcdate : M lst rtcdate :=
  s ← cmos_read SECS;
  m ← cmos_read MINS;
  h ← cmos_read HOURS;
  d ← cmos_read DAY;
  mo ← cmos_read MONTH;
  y ← cmos_read YEAR;
  mret (mkDate s m h d mo y).

Fixpoint cmostime_loop (fuel : nat) : M lst rtcdate :=
  match fuel with
  | O => spins
  | S fuel =>
      t1 ← fill_rtcdate;
      a ← cmos_read CMOS_STATA;
      if negb (Z.land a CMOS_UIP =? 0) then cmostime_loop fuel else
      t2 ← fill_rtcdate;
      if bool_decide (t1 = t2) then mret t1 else cmostime_loop fuel
  end.

Definition CONV (x : Z) : Z := u32 (Z.shiftr x 4 * 10 + Z.land x 0xf).

Definition cmostime (fuel : nat) : M lst rtcdate :=
  sb ← cmos_read CMOS_STATB;
  let bcd := Z.land sb (Z.shiftl 1 2) =? 0 in
  t1 ← cmostime_loop fuel;
  let t := if bcd then mkDate (CONV (second t1)) (CONV (minute t1)) (CONV (hour t1)) (CONV (day t1)) (CONV (month t1)) (CONV (year t1)) else t1 in
  mret (mkDate (second t) (minute t) (hour t) (day t) (month t) (u32 (year t + 2000))).

(** ** Setting up the APIC *)

Lemma wp_lapicw i v (Q : unit → lst → Prop) s : Q tt (set_apic (apic_write i (u32 v) (l_apic s)) s) → wp (lapicw i v) Q s.
Proof. intros H. unfold lapicw. wstep. wstep. wstep. unfold lapicr. apply H. Qed.
Ltac wlapic := lazymatch goal with |- wp (lapicw _ _) _ _ => apply wp_lapicw | _ => apply wp_bind, wp_lapicw end.

Lemma wp_lapicr i (Q : Z → lst → Prop) s : i ≠ ICRLO → Q (ap_regs (l_apic s) i) s → wp (lapicr i) Q s.
Proof. intros Hi HQ. unfold lapicr, wp, apic_read. rewrite (proj2 (Z.eqb_neq i ICRLO)) by done. cbn. by destruct s. Qed.

Lemma wp_wait_delivery fuel s (Q : unit → lst → Prop) : (ap_busy (l_apic s) < fuel)%nat →
  Q tt (set_apic (mkApic (ap_regs (l_apic s)) (ap_cmds (l_apic s)) 0 (ap_delay (l_apic s))) s) → wp (wait_delivery fuel) Q s.
Proof.
  revert s. induction fuel as [|fuel IH]; intros s Hf HQ; [lia|]. cbn [wait_delivery]. wstep. unfold lapicr, wp at 1, apic_read.
  change (ICRLO =? ICRLO) with true. cbv iota. destruct (ap_busy (l_apic s)) as [|n] eqn:En; cbn [fst snd].
  - assert (∀ x, Z.land (Z.ldiff x DELIVS) DELIVS = 0) as ->.
    { intros x. apply Z.bits_inj'. intros i Hi. rewrite Z.land_spec, Z.ldiff_spec, Z.bits_0. by destruct (Z.testbit x i), (Z.testbit DELIVS i). }
    change (negb (0 =? 0)) with false. cbv iota. wstep. destruct s as [? ? ? ? [] ? ? ?]. cbn in *. by subst.
  - assert (∀ x, Z.land (Z.lor x DELIVS) DELIVS = DELIVS) as ->.
    { intros x. apply Z.bits_inj'. intros i Hi. rewrite Z.land_spec, Z.lor_spec. by destruct (Z.testbit x i), (Z.testbit DELIVS i). }
    change (negb (DELIVS =? 0)) with true. cbv iota. apply IH; [cbn; lia|]. exact HQ.
Qed.

Definition version (a : apic) : Z := Z.land (Z.shiftr (ap_regs a VER) 16) 0xFF.

(** lapicinit leaves the APIC enabled, its timer periodic at the vector of
    IRQ_TIMER, the lines of the motherboard and the performance counter
    masked, errors at the vector of IRQ_ERROR and every interrupt accepted; it
    sends one command, to all, and waits until it is delivered.  Without an
    APIC it does nothing. *)
Theorem lapicinit_spec s :
  wp lapicinit (λ _ s',
    if lapic s =? 0 then s' = s else
    let r := ap_regs (l_apic s') in
    r SVR = 0x13F ∧ r TIMER = Z.lor PERIODIC 32 ∧ r TDCR = X1 ∧ r TICR = 10000000 ∧ r LINT0 = MASKED ∧ r LINT1 = MASKED ∧
    (4 ≤ version (l_apic s) → r PCINT = MASKED) ∧ r ERROR = 51 ∧ r ESR = 0 ∧ r TPR = 0 ∧ r ID = ap_regs (l_apic s) ID ∧
    ap_cmds (l_apic s') = ap_cmds (l_apic s) ++ [(0, Z.lor (Z.lor BCAST INIT) LEVEL)] ∧ ap_busy (l_apic s') = O ∧
    s' = set_apic (l_apic s') s) s.
Proof.
  unfold lapicinit. wstep. wstep. destruct (Z.eqb_spec (lapic s) 0); [by wstep|]. do 6 wlapic. wstep. apply wp_lapicr; [done|]. set (s1 := set_apic _ _).
  assert (ap_regs (l_apic s1) VER = ap_regs (l_apic s) VER) as -> by done. fold (version (l_apic s)).
  assert (∀ s2, s2 = s1 ∨ s2 = set_apic (apic_write PCINT (u32 MASKED) (l_apic s1)) s1 → (4 ≤ version (l_apic s) → ap_regs (l_apic s2) PCINT = MASKED) →
    wp (lapicw ERROR (T_IRQ0 + IRQ_ERROR) ;; lapicw ESR 0 ;; lapicw ESR 0 ;; lapicw EOI 0 ;; lapicw ICRHI 0 ;;
      lapicw ICRLO (Z.lor (Z.lor BCAST INIT) LEVEL) ;; n ← gets (λ s, ap_delay (l_apic s)); wait_delivery (S n) ;; lapicw TPR 0)
    (λ _ s', let r := ap_regs (l_apic s') in
    r SVR = 0x13F ∧ r TIMER = Z.lor PERIODIC 32 ∧ r TDCR = X1 ∧ r TICR = 10000000 ∧ r LINT0 = MASKED ∧ r LINT1 = MASKED ∧
    (4 ≤ version (l_apic s) → r PCINT = MASKED) ∧ r ERROR = 51 ∧ r ESR = 0 ∧ r TPR = 0 ∧ r ID = ap_regs (l_apic s) ID ∧
    ap_cmds (l_apic s') = ap_cmds (l_apic s) ++ [(0, Z.lor (Z.lor BCAST INIT) LEVEL)] ∧ ap_busy (l_apic s') = O ∧
    s' = set_apic (l_apic s') s) s2) as Hrest.
  { intros s2 H2 Hp. do 6 wlapic. wstep. wstep. wstep. apply wp_wait_delivery; [exact (Nat.lt_succ_diag_r _)|]. apply wp_lapicw.
    cbv zeta. destruct H2 as [-> | ->]; (repeat split; try exact Hp; done). }
  wstep. case_if; [apply wp_lapicw, Hrest; [by right|done]|wstep; apply Hrest; [by left|lia]].
Qed.

(** lapiceoi acknowledges: one write of 0 to the EOI register. *)
Lemma lapiceoi_spec s : wp lapiceoi (λ _ s', s' = if lapic s =? 0 then s else set_apic (apic_write EOI 0 (l_apic s)) s) s.
Proof. unfold lapiceoi. wstep. wstep. destruct (lapic s =? 0); cbn [negb]; [by wstep|]. by apply wp_lapicw. Qed.

(** cpunum is the top byte of the ID register, 0 without an APIC, and
    complains only the first time it is called with interrupts enabled. *)
Lemma cpunum_spec s : 0 ≤ l_n s →
  wp cpunum (λ v s', v = (if lapic s =? 0 then 0 else Z.shiftr (ap_regs (l_apic s) ID) 24) ∧
    length (l_out s') = (length (l_out s) + if (negb (Z.land (l_eflags s) FL_IF =? 0) && (l_n s =? 0))%Z then 1 else 0)%nat ∧ l_apic s' = l_apic s) s.
Proof.
  intros Hn. unfold cpunum. wstep. wstep. wstep. destruct (negb (Z.land _ _ =? 0)); cbn [andb].
  - wstep. wstep. wstep. wstep. wstep. cbn [lapic set_n]. destruct (lapic s =? 0); cbn [negb].
    + wstep. destruct (l_n s =? 0); cbn; rewrite ?length_app; cbn; repeat split; lia.
    + wstep. apply wp_lapicr; [done|]. wstep. destruct (l_n s =? 0); cbn; rewrite ?length_app; cbn; repeat split; lia.
  - wstep. wstep. wstep. destruct (lapic s =? 0); cbn [negb]; wstep; [repeat split; lia|]. apply wp_lapicr; [done|]. wstep. cbn. repeat split. lia.
Qed.

Lemma cmds_lo v a : ap_cmds (apic_write ICRLO v a) = ap_cmds a ++ [(Z.shiftr (ap_regs a ICRHI) 24, v)].
Proof. done. Qed.
Lemma cmds_hi v a : ap_cmds (apic_write ICRHI v a) = ap_cmds a.
Proof. done. Qed.
Lemma hi_lo v a : ap_regs (apic_write ICRLO v a) ICRHI = ap_regs a ICRHI.
Proof. done. Qed.
Lemma hi_hi v a : ap_regs (apic_write ICRHI v a) ICRHI = v.
Proof. done. Qed.

(** lapicstartap asks the BIOS to jump to [addr] after a warm reset, and
    sends the processor an INIT, its de-assertion, and two STARTUPs with the
    page of [addr]. *)
Lemma lapicstartap_spec apicid addr s : 0 ≤ apicid < 256 → 0 ≤ addr < 1048576 → addr mod 4096 = 0 →
  wp (lapicstartap apicid addr) (λ _ s',
    ap_cmds (l_apic s') = ap_cmds (l_apic s) ++
      [(apicid, Z.lor (Z.lor INIT LEVEL) ASSERT); (apicid, Z.lor INIT LEVEL);
       (apicid, Z.lor STARTUP (addr / 4096)); (apicid, Z.lor STARTUP (addr / 4096))] ∧
    l_ports s' = l_ports s ++ [(0x70, 0x0F); (0x71, 0x0A)] ∧
    (let w i := l_mem s' (KERNBASE + 0x467 + i) in 16 * (w 2 + 256 * w 3) + (w 0 + 256 * w 1) = addr)) s.
Proof.
  intros Hid Ha Hal. unfold lapicstartap, cmos_outb. do 2 wstep. do 2 wstep. wstep. wstep. wstep. wstep. do 3 wlapic. cbn [forM].
  wstep. do 2 wlapic. wstep. do 2 wlapic. wstep.
  assert (u32 (Z.shiftl apicid 24) = apicid * 16777216) as E1.
  { rewrite Z.shiftl_mul_pow2 by lia. change (2 ^ 24) with 16777216. apply u32_small. unfold is_u32. lia. }
  assert (Z.shiftr (u32 (Z.shiftl apicid 24)) 24 = apicid) as E2.
  { rewrite E1, Z.shiftr_div_pow2 by lia. change (2 ^ 24) with 16777216. by rewrite Z.div_mul by lia. }
  assert (u32 (Z.lor STARTUP (Z.shiftr addr 12)) = Z.lor STARTUP (addr / 4096)) as E3.
  { rewrite Z.shiftr_div_pow2 by lia. change (2 ^ 12) with 4096. apply u32_small. unfold is_u32.
    assert (forallb (λ i, (0 <=? Z.lor STARTUP i) && (Z.lor STARTUP i <? 4294967296)) (seqZ 0 256) = true) as H by (vm_compute; reflexivity).
    rewrite forallb_forall in H. specialize (H (addr / 4096)). rewrite <- list_elem_of_In, elem_of_seqZ in H.
    specialize (H ltac:(zdm)). bool_facts. lia. }
  set (s1 := set_lmem _ (set_lmem _ _)).
  assert (l_apic s1 = l_apic s ∧ l_ports s1 = l_ports s ++ [(0x70, 0x0F); (0x71, 0x0A)]) as [A1 P1].
  { split; [done|]. change (l_ports s1) with ((l_ports s ++ [(0x70, 0x0F)]) ++ [(0x71, 0x0A)]). by rewrite <- app_assoc. }
  assert (∀ i, l_mem s1 (warm_reset + i) = store16 (store16 (l_mem s) warm_reset 0) (warm_reset + 2) (Z.shiftr addr 4) (warm_reset + i)) as M1 by done.
  clearbody s1. cbn [l_apic set_apic l_ports l_mem]. split; [|split].
  - repeat first [rewrite cmds_lo | rewrite cmds_hi | rewrite hi_lo | rewrite hi_hi]. rewrite E2, E3, A1. by rewrite <- !app_assoc.
  - exact P1.
  - change (KERNBASE + 0x467) with warm_reset. cbv zeta. rewrite !M1. unfold store16, upd.
    assert (0 ≤ Z.shiftr addr 4 < 65536 ∧ Z.shiftr addr 4 * 16 = addr) as [Hs1 Hs2].
    { rewrite Z.shiftr_div_pow2 by lia. change (2 ^ 4) with 16. zdm. }
    clear M1. revert Hs1 Hs2. generalize (Z.shiftr addr 4). intros w Hw Hadr.
    repeat match goal with |- context [?a =? ?b] => let v := eval vm_compute in (a =? b) in change (a =? b) with v end.
    cbv iota. unfold u8. zdm.
Qed.

(** ** Reading the clock *)

Section clock.
Variable clk : nat → Z → Z.

(** Is the clock about to change, or changing? *)
Definition uip (t : nat) : bool := negb (Z.land (u8 (clk t CMOS_STATA)) CMOS_UIP =? 0).

Definition shown (t : nat) : rtcdate :=
  mkDate (u8 (clk t SECS)) (u8 (clk t MINS)) (u8 (clk t HOURS)) (u8 (clk t DAY)) (u8 (clk t MONTH)) (u8 (clk t YEAR)).

(** What fill_rtcdate sees from moment [t] on. *)
Definition filled (t : nat) : rtcdate :=
  mkDate (u8 (clk t SECS)) (u8 (clk (t + 1)%nat MINS)) (u8 (clk (t + 2)%nat HOURS)) (u8 (clk (t + 3)%nat DAY)) (u8 (clk (t + 4)%nat MONTH))
    (u8 (clk (t + 5)%nat YEAR)).

Definition quiet (a b : nat) : Prop := ∀ c, (a ≤ c < b)%nat → uip c = false.

(** What the manual of the clock promises: it changes only while it says it
    may, and an update is followed by a time, here of thirteen reads, in which
    it does not start another. *)
Record clock_ok : Prop := {
  ck_steady : ∀ t r, uip t = false → r ≠ CMOS_STATA → clk (S t) r = clk t r;
  ck_apart : ∀ a b c, uip a = true → uip b = false → (a < b ≤ c)%nat → (c ≤ a + 13)%nat → uip c = false;
}.

Hypothesis Hok : clock_ok.

Lemma quiet_same a b r : (a ≤ b)%nat → quiet a b → r ≠ CMOS_STATA → clk b r = clk a r.
Proof.
  intros Hab Hq Hr. induction b as [|b IH]; [by replace a with O by lia|]. destruct (decide (a = S b)) as [->|]; [done|].
  rewrite (ck_steady Hok) by (try done; apply Hq; lia). apply IH; [lia|]. intros c Hc. apply Hq. lia.
Qed.

Lemma filled_quiet a t : (a ≤ t)%nat → quiet a (t + 5) → filled t = shown a.
Proof.
  intros Hat Hq. unfold filled, shown.
  assert (∀ k r, (k ≤ 5)%nat → r ≠ CMOS_STATA → clk (t + k)%nat r = clk a r) as H.
  { intros k r Hk Hr. apply quiet_same; [lia| |done]. intros c Hc. apply Hq. lia. }
  rewrite !H by (try done; lia). pose proof (H 0%nat SECS ltac:(lia) ltac:(done)) as H0. rewrite Nat.add_0_r in H0. by rewrite H0.
Qed.

Lemma quiet_or a b : quiet a b ∨ ∃ c, (a ≤ c < b)%nat ∧ uip c = true.
Proof.
  destruct (decide (Forall (λ c, uip c = false) (seq a (b - a)))) as [H|H].
  - left. intros c Hc. rewrite Forall_forall in H. apply H, elem_of_seq. lia.
  - right. apply not_Forall_Exists in H; [|intros c; apply _]. apply Exists_exists in H as (c & Hc & Hu). apply elem_of_seq in Hc.
    exists c. split; [lia|]. apply not_false_iff_true. exact Hu.
Qed.

(** Two equal readings with the flag down in between are a time the clock
    showed. *)
Lemma filled_twice t : uip (t + 6) = false → filled t = filled (t + 7) → ∃ k, (t ≤ k ≤ t + 12)%nat ∧ filled t = shown k.
Proof.
  intros H6 Heq. destruct (quiet_or t (t + 5)) as [Hq|(a & Ha & Hu)].
  - exists t. split; [lia|]. by apply filled_quiet.
  - exists (t + 7)%nat. split; [lia|]. rewrite Heq. apply filled_quiet; [done|]. intros c Hc. apply (ck_apart Hok a (t + 6)); [done|done|lia|lia].
Qed.
End clock.

(** [k] reads of the clock later. *)
Definition ticks (k : nat) (s s' : lst) : Prop :=
  rt_clk (l_rtc s') = rt_clk (l_rtc s) ∧ rt_now (l_rtc s') = (rt_now (l_rtc s) + k)%nat ∧ l_mem s' = l_mem s ∧ l_apic s' = l_apic s.

Lemma ticks_trans j k s1 s2 s3 : ticks j s1 s2 → ticks k s2 s3 → ticks (j + k) s1 s3.
Proof. intros (A & B & C & D) (A' & B' & C' & D'). unfold ticks. rewrite A', B', C', D', A, B, C, D. repeat split. lia. Qed.

Lemma wp_cmos_read reg (Q : Z → lst → Prop) s : u8 reg = reg →
  (∀ s', ticks 1 s s' → Q (u8 (rt_clk (l_rtc s) (rt_now (l_rtc s)) reg)) s') → wp (cmos_read reg) Q s.
Proof.
  intros Hr HQ. unfold cmos_read. wstep. unfold cmos_outb. wstep. rewrite Hr. unfold cmos_inb, wp. apply HQ. unfold ticks. cbn.
  repeat split. lia.
Qed.

Lemma wp_fill (Q : rtcdate → lst → Prop) s :
  (∀ s', ticks 6 s s' → Q (filled (rt_clk (l_rtc s)) (rt_now (l_rtc s))) s') → wp fill_rtcdate Q s.
Proof.
  intros HQ. unfold fill_rtcdate. do 6 (wstep; apply wp_cmos_read; [done|]; intros ? ?). wstep.
  repeat match goal with H : ticks ?j s ?a, H' : ticks _ ?a ?b |- _ => pose proof (ticks_trans _ _ _ _ _ H H'); clear H' end.
  repeat match goal with H : ticks _ s ?a |- context [rt_clk (l_rtc ?a)] => rewrite (proj1 H), (proj1 (proj2 H)) end.
  apply HQ. done.
Qed.

Section cmostime.
Variable clk : nat → Z → Z.
Hypothesis Hok : clock_ok clk.

Lemma wp_cmostime_loop q : quiet clk q (q + 25) → ∀ fuel s (Q : rtcdate → lst → Prop),
  rt_clk (l_rtc s) = clk → (rt_now (l_rtc s) ≤ q + 12)%nat → (q + 13 - rt_now (l_rtc s) ≤ fuel)%nat →
  (∀ k n s', ticks n s s' → (rt_now (l_rtc s) ≤ k < rt_now (l_rtc s'))%nat → Q (shown clk k) s') →
  wp (cmostime_loop fuel) Q s.
Proof.
  intros Hq. induction fuel as [|fuel IH]; intros s Q Hc Hn Hf HQ; [lia|]. cbn [cmostime_loop].
  set (n := rt_now (l_rtc s)) in *.
  wstep. apply wp_fill. intros s1 T1. rewrite Hc. fold n. wstep. apply wp_cmos_read; [done|]. intros s2 T2.
  rewrite (proj1 T1), (proj1 (proj2 T1)), Hc. fold n. fold (uip clk (n + 6)). pose proof (ticks_trans _ _ _ _ _ T1 T2) as T. clear T1 T2.
  assert (∀ k s', ticks k s s' → (0 < k)%nat → (n < q)%nat → (k ≤ 13)%nat → wp (cmostime_loop fuel) Q s') as Hagain.
  { intros k s' Tk Hk Hnq Hk13. destruct Tk as (A & B & C & D). fold n in B. apply IH; [congruence|lia|lia|].
    intros j i s3 T3 Hj. eapply (HQ j (k + i)%nat); [|fold n; lia]. eapply ticks_trans; [|exact T3]. by repeat split. }
  destruct (uip clk (n + 6)) eqn:Hu.
  - apply (Hagain 7%nat); [exact T|lia| |lia]. destruct (decide (n < q)%nat); [done|]. rewrite (Hq (n + 6)%nat) in Hu by lia. done.
  - wstep. apply wp_fill. intros s3 T3. rewrite (proj1 T), (proj1 (proj2 T)), Hc. fold n. change (6 + 1)%nat with 7%nat.
    pose proof (ticks_trans _ _ _ _ _ T T3) as T'. case_bool_decide as Heq.
    + wstep. destruct (filled_twice clk Hok n Hu Heq) as (k & Hk & ->). apply (HQ k 13%nat); [exact T'|]. rewrite (proj1 (proj2 T')). fold n. lia.
    + apply (Hagain 13%nat); [exact T'|lia| |lia]. destruct (decide (n < q)%nat); [done|]. destruct Heq.
      rewrite (filled_quiet clk Hok n n), (filled_quiet clk Hok n (n + 7)); [done|lia| |lia|]; intros c Hcc; apply Hq; lia.
Qed.
End cmostime.

(** The date a program is given for what the clock shows: in binary, with the
    century. *)
Definition date_of (bcd : bool) (t : rtcdate) : rtcdate :=
  let f x := if bcd then u32 (10 * (x / 16) + x mod 16) else x in
  mkDate (f (second t)) (f (minute t)) (f (hour t)) (f (day t)) (f (month t)) (u32 (f (year t) + 2000)).

Lemma CONV_spec x : CONV x = u32 (10 * (x / 16) + x mod 16).
Proof.
  unfold CONV. rewrite Z.shiftr_div_pow2 by lia. change (2 ^ 4) with 16. change 0xf with (Z.ones 4). rewrite Z.land_ones by lia.
  change (2 ^ 4) with 16. f_equal. lia.
Qed.

(** [C17] cmostime returns, and what it returns is a date the clock showed at
    one moment of the call, although its six parts are read one after the
    other while the clock goes on: never parts of two dates.  The clock may
    show garbage while it updates itself; all that is asked of it is that it
    announces updates, does not make them too often, and some time leaves
    twenty-five reads in a row alone. *)
Theorem cmostime_spec q fuel s :
  let clk := rt_clk (l_rtc s) in
  let now := rt_now (l_rtc s) in
  clock_ok clk → (now ≤ q)%nat → quiet clk q (q + 25) → (q + 13 - now ≤ fuel)%nat →
  wp (cmostime fuel) (λ t s', ∃ k, (now < k < rt_now (l_rtc s'))%nat ∧
    t = date_of (Z.land (u8 (clk now CMOS_STATB)) 4 =? 0) (shown clk k)) s.
Proof.
  intros clk now Hok Hnq Hq Hf. unfold cmostime. wstep. apply wp_cmos_read; [done|]. intros s1 T1. fold clk now. wstep.
  destruct T1 as (A & B & C & D). fold now in B.
  eapply (wp_cmostime_loop clk Hok q Hq); [done|lia|lia|]. intros k n s2 T2 Hk. wstep. exists k. split; [lia|].
  change (Z.shiftl 1 2) with 4. unfold date_of. destruct (_ =? 0); [|done]. by rewrite !CONV_spec.
Qed.

(** Two decimal digits, as the clock has them. *)
Definition bcd (x : Z) : Z := 16 * (x / 10) + x mod 10.

(** CONV reads them back. *)
Lemma conv_bcd x : 0 ≤ x < 100 → CONV (bcd x) = x ∧ u8 (bcd x) = bcd x.
Proof. intros Hx. rewrite CONV_spec. unfold bcd, u8. rewrite u32_small by (unfold is_u32; zdm). zdm. Qed.

(** ** Witnesses *)

(** A clock at 2018-12-31 23:59:59 that goes over to the next year; while it
    does so, from read 4 to read 9, it shows parts of both. *)
Definition clk_w (t : nat) (r : Z) : Z :=
  if r =? CMOS_STATA then (if (2 <=? t)%nat && (t <=? 9)%nat then 0x80 else 0)
  else if r =? CMOS_STATB then 2
  else if r =? SECS then (if (t <=? 4)%nat then 0x59 else 0)
  else if r =? MINS then (if (t <=? 5)%nat then 0x59 else 0)
  else if r =? HOURS then (if (t <=? 6)%nat then 0x23 else 0)
  else if r =? DAY then (if (t <=? 7)%nat then 0x31 else 1)
  else if r =? MONTH then (if (t <=? 8)%nat then 0x12 else 1)
  else if r =? YEAR then (if (t <=? 9)%nat then 0x18 else 0x19)
  else 0.
Definition lst_w : lst := mkLst (λ _, 0) 0 0xFEE00000 0 (mkApic (λ _, 0) [] 0 5) (mkRtc 0 clk_w 0) [] [].

Lemma uip_w t : uip clk_w t = (2 <=? t)%nat && (t <=? 9)%nat.
Proof. unfold uip, clk_w. change (CMOS_STATA =? CMOS_STATA) with true. cbv iota. by destruct (_ && _). Qed.

Lemma clk_w_ok : clock_ok clk_w.
Proof.
  split.
  - intros t r. rewrite uip_w. intros Hu Hr. unfold clk_w. destruct (Z.eqb_spec r CMOS_STATA); [done|].
    assert (t < 2 ∨ 9 < t)%nat as [?|?] by (apply andb_false_iff in Hu; rewrite !Nat.leb_gt in Hu; lia);
      repeat match goal with |- context [(?a <=? ?b)%nat] => destruct (Nat.leb_spec a b); try lia end; done.
  - intros a b c. rewrite !uip_w. rewrite andb_true_iff, !andb_false_iff, !Nat.leb_le, !Nat.leb_gt. lia.
Qed.

Lemma cmostime_spec_witness :
  wp (cmostime 26) (λ t s', ∃ k, (0 < k < rt_now (l_rtc s'))%nat ∧ t = date_of true (shown clk_w k)) lst_w.
Proof.
  apply (cmostime_spec 10 26 lst_w); [apply clk_w_ok|cbn; lia| |cbn; lia].
  intros c Hc. change (uip clk_w c = false). rewrite uip_w. apply andb_false_iff. rewrite !Nat.leb_gt. lia.
Defined.

Example cmostime_w : match cmostime 26 lst_w with Ret t _ => t | _ => mkDate 0 0 0 0 0 0 end = mkDate 0 0 0 1 1 2019.
Proof. vm_compute. reflexivity. Qed.
