(* ===== verification/Minix.v ===== *)
(** * First-fit memory with a table of holes (Gerência de Memória/minix.c)

    The hole table of the MINIX memory manager: an array of entries linked
    into two lists, the holes in ascending order of address and the unused
    entries.  A pointer to an entry is its index, NIL_HOLE is [None].
    phys_clicks is an unsigned int.  The headers of MINIX are not part of
    the repository: NO_MEM is an argument, and so are the pieces of memory
    the kernel answers SYS_MEM with. *)

From S2P Require Import Prelude Kernel.
Local Open Scope Z_scope.

Definition NR_HOLES : nat := 128.

Record hole := mkHole { h_base : Z; h_len : Z; h_next : option nat }.

Record mm := mkMm {
  holes : list hole;
  hole_head : option nat;
  free_slots : option nat;
}.

Definition set_head (x : option nat) (s : mm) : mm := mkMm (holes s) x (free_slots s).
Definition set_slots (x : option nat) (s : mm) : mm := mkMm (holes s) (hole_head s) x.
Definition set_hole (p : nat) (h : hole) (s : mm) : mm :=
  mkMm (<[p := h]> (holes s)) (hole_head s) (free_slots s).

Definition w_next (x : option nat) (h : hole) : hole := mkHole (h_base h) (h_len h) x.

Section minix.
Context (NO_MEM : Z).

Definition geth (p : nat) : M mm hole := o ← gets (λ s, holes s !! p); deref o.
Definition updh (p : nat) (f : hole → hole) : M mm unit := h ← geth p; modify (set_hole p (f h)).

Definition eq_ptr (p : nat) (q : option nat) : bool := bool_decide (q = Some p).

(** [prev] is an uninitialised variable when hp is the head. *)
Definition del_slot (prev : option nat) (hp : nat) : M mm unit :=
  h ← geth hp;
  head ← gets hole_head;
  (if eq_ptr hp head then modify (set_head (h_next h))
   else p ← deref prev; updh p (w_next (h_next h))) ;;
  fs ← gets free_slots;
  updh hp (w_next fs) ;;
  modify (set_slots (Some hp)).

(** The while loop of alloc_mem; a list has at most NR_HOLES entries. *)
Fixpoint alloc_loop (fuel : nat) (clicks : Z) (prev hp : option nat) : M mm Z :=
  match fuel with
  | O => fault
  | S fuel =>
      match hp with
      | None => mret NO_MEM
      | Some p =>
          h ← geth p;
          if clicks <=? h_len h then
            let old_base := h_base h in
            updh p (λ h, mkHole (u32 (h_base h + clicks)) (u32 (h_len h - clicks)) (h_next h)) ;;
            h ← geth p;
            if negb (h_len h =? 0) then mret old_base else
            del_slot prev p ;;
            mret old_base
          else alloc_loop fuel clicks (Some p) (h_next h)
      end
  end.
Definition alloc_mem (clicks : Z) : M mm Z :=
  hp ← gets hole_head;
  alloc_loop (S NR_HOLES) clicks None hp.

(** One half of merge: hp absorbs its successor if they touch; the entry to
    go on from, or [None] when hp is the last hole. *)
Definition absorb (hp : nat) : M mm (option nat) :=
  h ← geth hp;
  match h_next h with
  | None => mret None
  | Some next =>
      n ← geth next;
      if u32 (h_base h + h_len h) =? h_base n then
        updh hp (λ h, mkHole (h_base h) (u32 (h_len h + h_len n)) (h_next h)) ;;
        del_slot (Some hp) next ;;
        mret (Some hp)
      else mret (Some next)
  end.
Definition merge (hp : nat) : M mm unit :=
  o ← absorb hp;
  match o with
  | None => mret tt
  | Some hp => absorb hp ;; mret tt
  end.

(** The while loop of free_mem: the last hole below [base]. *)
Fixpoint find_prev (fuel : nat) (base : Z) (prev : nat) (hp : option nat) : M mm nat :=
  match fuel with
  | O => fault
  | S fuel =>
      match hp with
      | None => mret prev
      | Some p =>
          h ← geth p;
          if h_base h <? base then find_prev fuel base p (h_next h) else mret prev
      end
  end.

Definition free_mem (base clicks : Z) : M mm unit :=
  if clicks =? 0 then mret tt else
  fs ← gets free_slots;
  match fs with
  | None => panic "Hole table full"
  | Some new_ptr =>
      n ← geth new_ptr;
      updh new_ptr (λ h, mkHole base clicks (h_next h)) ;;
      modify (set_slots (h_next n)) ;;
      hp ← gets hole_head;
      match hp with
      | None =>
          updh new_ptr (w_next hp) ;; modify (set_head (Some new_ptr)) ;; merge new_ptr
      | Some p =>
          h ← geth p;
          if base <=? h_base h then
            updh new_ptr (w_next hp) ;; modify (set_head (Some new_ptr)) ;; merge new_ptr
          else
            prev ← find_prev (S NR_HOLES) base p (h_next h);
            q ← geth prev;
            updh new_ptr (w_next (h_next q)) ;;
            updh prev (w_next (Some new_ptr)) ;;
            merge prev
      end
  end.

Fixpoint max_loop (fuel : nat) (hp : option nat) (max : Z) : M mm Z :=
  match fuel with
  | O => fault
  | S fuel =>
      match hp with
      | None => mret max
      | Some p => h ← geth p; max_loop fuel (h_next h) (if max <? h_len h then h_len h else max)
      end
  end.
Definition max_hole : M mm Z := hp ← gets hole_head; max_loop (S NR_HOLES) hp 0.

(** mem_init on the (base, size, total) the kernel answers with: *total and
    *free. *)
Fixpoint mem_pieces (pieces : list (Z * Z * Z)) (total free : Z) : M mm (Z * Z) :=
  match pieces with
  | [] => mret (total, free)
  | (base, size, tot) :: pieces =>
      if size =? 0 then mret (total, free)
      else free_mem base size ;; mem_pieces pieces tot (u32 (free + size))
  end.

Definition mem_init (pieces : list (Z * Z * Z)) (total : Z) : M mm (Z * Z) :=
  modify (λ s, mkMm (imap (λ i h, w_next (if (S i =? NR_HOLES)%nat then None else Some (S i)) h) (holes s))
                 None (Some 0%nat)) ;;
  mem_pieces pieces total 0.
End minix.

(** ** Lists of holes *)

Abbreviation node := (nat * (Z * Z))%type.

(** The entries from [q] up to [r] are [l]. *)
Fixpoint seg (t : list hole) (q : option nat) (l : list node) (r : option nat) : Prop :=
  match l with
  | [] => q = r
  | (p, (b, n)) :: l => q = Some p ∧ ∃ nx, t !! p = Some (mkHole b n nx) ∧ seg t nx l r
  end.

Lemma seg_app t l1 l2 : ∀ q r,
  seg t q (l1 ++ l2) r ↔ ∃ m, seg t q l1 m ∧ seg t m l2 r.
Proof.
  induction l1 as [|[p [b n]] l1 IH]; intros q r; simpl; [naive_solver|].
  setoid_rewrite IH. naive_solver.
Qed.

Lemma seg_insert t l p h : ∀ q r, p ∉ l.*1 → seg t q l r → seg (<[p := h]> t) q l r.
Proof.
  induction l as [|[p' [b n]] l IH]; intros q r Hp; simpl; [done|].
  intros (-> & nx & Ht & Hl). simpl in Hp. apply not_elem_of_cons in Hp as [Hne Hp].
  split; [done|]. exists nx. rewrite list_lookup_insert_ne by done. auto.
Qed.

(** The state: the holes [hs], ascending and apart from each other, and the
    unused entries [fs]. *)
Definition top : Z := 4294967295.
Fixpoint apart (lo : Z) (hs : list node) : Prop :=
  match hs with
  | [] => True
  | (_, (b, n)) :: hs => lo ≤ b ∧ 0 < n ∧ b + n ≤ top ∧ apart (b + n + 1) hs
  end.

Record mm_ok (s : mm) (hs fs : list node) : Prop := {
  mo_len : length (holes s) = NR_HOLES;
  mo_holes : seg (holes s) (hole_head s) hs None;
  mo_slots : seg (holes s) (free_slots s) fs None;
  mo_nodup : NoDup ((hs ++ fs).*1);
  mo_apart : apart 0 hs;
}.

(** The two lists, without the order of the holes. *)
Record lst (s : mm) (hs fs : list node) : Prop := {
  ls_len : length (holes s) = NR_HOLES;
  ls_holes : seg (holes s) (hole_head s) hs None;
  ls_slots : seg (holes s) (free_slots s) fs None;
  ls_nodup : NoDup ((hs ++ fs).*1);
}.

Lemma mm_ok_lst s hs fs : mm_ok s hs fs ↔ lst s hs fs ∧ apart 0 hs.
Proof. split; [intros []; by repeat split|intros [[] ?]; by split]. Qed.

Lemma wp_geth p h (Q : hole → mm → Prop) s : holes s !! p = Some h → Q h s → wp (geth p) Q s.
Proof. intros H HQ. unfold geth. wsteps. by eapply wp_deref. Qed.

Lemma wp_updh p f h (Q : unit → mm → Prop) s :
  holes s !! p = Some h → Q tt (set_hole p (f h) s) → wp (updh p f) Q s.
Proof. intros H HQ. unfold updh. wstep. eapply wp_geth; [done|]. by wstep. Qed.

(** A list with a node in the middle. *)
Lemma seg_middle t q l1 p b n l2 r :
  seg t q (l1 ++ (p, (b, n)) :: l2) r ↔
  seg t q l1 (Some p) ∧ ∃ nx, t !! p = Some (mkHole b n nx) ∧ seg t nx l2 r.
Proof. rewrite seg_app. simpl. naive_solver. Qed.

(** The last pointer of a list leads to its end. *)
Lemma seg_relink t q l p b n r r' :
  seg t q (l ++ [(p, (b, n))]) r → p ∉ l.*1 → (p < length t)%nat →
  seg (<[p := mkHole b n r']> t) q (l ++ [(p, (b, n))]) r'.
Proof.
  rewrite !seg_middle. intros [Hl (nx & Hp & ->)] Hn Hlt. split; [by apply seg_insert|].
  exists r'. rewrite list_lookup_insert_eq by done. done.
Qed.

Lemma seg_lookup t q l p x r : seg t q l r → (p, x) ∈ l → ∃ nx, t !! p = Some (mkHole x.1 x.2 nx).
Proof.
  intros Hs (l1 & l2 & ->)%list_elem_of_split. destruct x as [b n].
  apply seg_middle in Hs as (_ & nx & Hp & _). eauto.
Qed.

(** The entry before a node of the list, if there is one. *)
Definition is_prev (prev : option nat) (pre : list node) : Prop :=
  match last pre with Some (q, _) => prev = Some q | None => True end.

Lemma head_ne t q pre p b n post r :
  seg t q (pre ++ (p, (b, n)) :: post) r → NoDup ((pre ++ (p, (b, n)) :: post).*1) → pre ≠ [] →
  eq_ptr p q = false.
Proof.
  destruct pre as [|[p0 [b0 n0]] pre]; [done|]. simpl. intros (-> & _) Hnd _.
  apply bool_decide_eq_false. intros [= ->]. apply NoDup_cons in Hnd as [Hni _]. apply Hni.
  rewrite fmap_app. apply elem_of_app. right. apply elem_of_cons. by left.
Qed.

Lemma nodup_perm (l l' : list node) : l ≡ₚ l' → NoDup l.*1 → NoDup l'.*1.
Proof. intros H. by rewrite H. Qed.

(** Unused entries are not in the list of holes. *)
Lemma lst_disjoint s hs fs p x q y :
  lst s hs fs → (p, x) ∈ hs → (q, y) ∈ fs → p ≠ q.
Proof.
  intros [_ _ _ Hnd] Hp Hq ->. rewrite fmap_app in Hnd. apply NoDup_app in Hnd as (_ & Hd & _).
  apply (Hd q); apply list_elem_of_fmap; by eexists (q, _).
Qed.

Lemma wp_del_slot s prev pre p b n post fs (Q : unit → mm → Prop) :
  lst s (pre ++ (p, (b, n)) :: post) fs → is_prev prev pre →
  (∀ s', lst s' (pre ++ post) ((p, (b, n)) :: fs) → Q tt s') → wp (del_slot prev p) Q s.
Proof.
  intros Hl Hprev HQ. pose proof Hl as [Hlen Hh Hf Hnd].
  pose proof (proj1 (seg_middle _ _ _ _ _ _ _ _) Hh) as (Hpre & nx & Hp & Hpost).
  pose proof (lookup_lt_Some _ _ _ Hp) as Hlt.
  pose proof (nodup_perm _ _ (move_perm pre post fs _) Hnd) as Hnd'.
  assert (Hnp : p ∉ pre.*1 ∧ p ∉ post.*1 ∧ p ∉ fs.*1).
  { rewrite <-Permutation_middle in Hnd'. simpl in Hnd'. apply NoDup_cons in Hnd' as [Hni _].
    rewrite !fmap_app, !elem_of_app in Hni. tauto. }
  destruct Hnp as (Hnp1 & Hnp2 & Hnp3).
  unfold del_slot. wstep. eapply wp_geth; [exact Hp|]. wstep. wstep. wstep.
  destruct pre as [|[q [b' n']] pre _] using rev_ind.
  - simpl in Hpre. rewrite Hpre. unfold eq_ptr. rewrite bool_decide_eq_true_2 by done.
    wstep. wstep. wstep. wstep. eapply wp_updh; [exact Hp|]. wstep. apply HQ.
    split; simpl; [by rewrite length_insert|by apply seg_insert| |done].
    split; [done|]. exists (free_slots s). rewrite list_lookup_insert_eq by done.
    split; [done|]. by apply seg_insert.
  - rewrite (head_ne _ _ _ _ _ _ _ _ Hh); [| |by destruct pre].
    2:{ rewrite fmap_app in Hnd. by apply NoDup_app in Hnd as [? _]. }
    unfold is_prev in Hprev. rewrite last_snoc in Hprev. subst prev. wstep.
    eapply wp_deref; [done|].
    destruct (proj1 (seg_middle _ _ _ _ _ _ _ _) Hpre) as (Hpre1 & nx' & Hq & ->).
    assert (Hnq : q ∉ pre.*1 ∧ q ∉ post.*1 ∧ q ∉ fs.*1 ∧ p ≠ q).
    { revert Hnd'. rewrite !fmap_app. simpl. rewrite !NoDup_app, NoDup_cons. set_solver. }
    destruct Hnq as (Hnq1 & Hnq2 & Hnq3 & Hne). pose proof (lookup_lt_Some _ _ _ Hq) as Hltq.
    eapply wp_updh; [exact Hq|]. wstep. wstep. wstep.
    eapply wp_updh; [simpl; rewrite list_lookup_insert_ne by done; exact Hp|]. wstep. apply HQ.
    split; simpl; [by rewrite !length_insert| | |done].
    + apply seg_app. exists nx. split; [|by apply seg_insert, seg_insert].
      apply seg_insert; [done|]. by apply seg_relink with (r := Some p).
    + split; [done|]. exists (free_slots s). rewrite list_lookup_insert_eq by by rewrite length_insert.
      split; [done|]. by apply seg_insert, seg_insert.
Qed.

(** Changing the base and length of a hole in place. *)
Lemma lst_resize s pre p b n b' n' post fs nx :
  lst s (pre ++ (p, (b, n)) :: post) fs → holes s !! p = Some (mkHole b n nx) →
  lst (set_hole p (mkHole b' n' nx) s) (pre ++ (p, (b', n')) :: post) fs.
Proof.
  intros [Hlen Hh Hf Hnd] Hp. pose proof (lookup_lt_Some _ _ _ Hp) as Hlt.
  apply seg_middle in Hh as (Hpre & nx' & Hp' & Hpost). assert (nx' = nx) as -> by congruence.
  assert (Hn : p ∉ pre.*1 ∧ p ∉ post.*1 ∧ p ∉ fs.*1).
  { pose proof (nodup_perm _ _ (move_perm pre post fs _) Hnd) as Hnd'.
    rewrite <-Permutation_middle in Hnd'. simpl in Hnd'. apply NoDup_cons in Hnd' as [Hni _].
    rewrite !fmap_app, !elem_of_app in Hni. tauto. }
  destruct Hn as (H1 & H2 & H3). split; simpl.
  - by rewrite length_insert.
  - apply seg_middle. split; [by apply seg_insert|]. exists nx.
    rewrite list_lookup_insert_eq by done. split; [done|]. by apply seg_insert.
  - by apply seg_insert.
  - revert Hnd. rewrite !fmap_app. done.
Qed.

(** What is left of a hole after [c] clicks of it are taken. *)
Definition cut (c : Z) (x : node) : list node :=
  if x.2.2 =? c then [] else [(x.1, (x.2.1 + c, x.2.2 - c))].

Definition fits (c : Z) (x : node) : Prop := c ≤ x.2.2.

Lemma wp_alloc_loop NO_MEM c (Q : Z → mm → Prop) fs : 0 ≤ c →
  ∀ rest pre fuel prev hp s,
  lst s (pre ++ rest) fs → seg (holes s) hp rest None → (length rest < fuel)%nat →
  is_prev prev pre → Forall (λ x, 0 ≤ x.2.1 ∧ 0 < x.2.2 ∧ x.2.1 + x.2.2 ≤ top) rest →
  (Forall (λ x, ¬ fits c x) rest → Q NO_MEM s) →
  (∀ l1 x l2 fs' s', rest = l1 ++ x :: l2 → Forall (λ x, ¬ fits c x) l1 → fits c x →
     lst s' (pre ++ l1 ++ cut c x ++ l2) fs' → Q x.2.1 s') →
  wp (alloc_loop NO_MEM fuel c prev hp) Q s.
Proof.
  intros Hc. induction rest as [|[p [b n]] rest IH]; intros pre fuel prev hp s Hl Hseg Hfuel Hprev Hb HN HS;
    (destruct fuel as [|fuel]; [simpl in Hfuel; lia|]); cbn [alloc_loop].
  { simpl in Hseg. subst hp. wstep. by apply HN. }
  destruct Hseg as (-> & nx & Hp & Hrest). inversion Hb as [|? ? (Hb1 & Hb2 & Hb3) Hb']; subst.
  simpl in *. wstep. eapply wp_geth; [exact Hp|]. simpl.
  assert (Hlt : (p < length (holes s))%nat) by by eapply lookup_lt_Some.
  unfold top in *. destruct (Z.leb_spec c n) as [Hle|Hgt].
  - wstep. eapply wp_updh; [exact Hp|]. simpl. wstep.
    eapply wp_geth; [simpl; by apply list_lookup_insert_eq|]. simpl.
    assert (E1 : u32 (b + c) = b + c) by (apply u32_small; unfold is_u32; lia).
    assert (E2 : u32 (n - c) = n - c) by (apply u32_small; unfold is_u32; lia).
    rewrite E1, E2. pose proof (lst_resize s pre p b n (b + c) (n - c) rest fs nx Hl Hp) as Hl'.
    destruct (Z.eqb_spec (n - c) 0) as [H0|H0]; simpl.
    + wstep. eapply wp_del_slot; [exact Hl'|done|]. intros s' Hs'. wstep.
      eapply (HS [] (p, (b, n)) rest); [done|constructor|done|].
      simpl. unfold cut. simpl. rewrite (proj2 (Z.eqb_eq n c)) by lia. exact Hs'.
    + wstep. eapply (HS [] (p, (b, n)) rest); [done|constructor|done|].
      simpl. unfold cut. simpl. rewrite (proj2 (Z.eqb_neq n c)) by lia. exact Hl'.
  - assert (Hnf : ¬ fits c (p, (b, n))) by (unfold fits; simpl; lia).
    eapply (IH (pre ++ [(p, (b, n))])); [by rewrite <-app_assoc|done|lia|..].
    + unfold is_prev. by rewrite last_snoc.
    + done.
    + intros Hall. apply HN. by constructor.
    + intros l1 x l2 fs' s' -> Hl1 Hx Hs'. eapply (HS ((p, (b, n)) :: l1) x l2); [done|by constructor|done|].
      by rewrite <-app_assoc in Hs'.
Qed.

(** ** Order and coverage *)

(** The free clicks. *)
Definition free_at (hs : list node) (x : Z) : Prop :=
  ∃ y, y ∈ hs ∧ y.2.1 ≤ x < y.2.1 + y.2.2.

Lemma free_at_app l1 l2 x : free_at (l1 ++ l2) x ↔ free_at l1 x ∨ free_at l2 x.
Proof. unfold free_at. set_solver. Qed.
Lemma free_at_cons y l x : free_at (y :: l) x ↔ y.2.1 ≤ x < y.2.1 + y.2.2 ∨ free_at l x.
Proof. unfold free_at. set_solver. Qed.
Lemma free_at_nil x : ¬ free_at [] x.
Proof. unfold free_at. set_solver. Qed.

Lemma apart_mono lo lo' hs : lo' ≤ lo → apart lo hs → apart lo' hs.
Proof. destruct hs as [|[p [b n]] hs]; simpl; [done|]. intros ? (?&?&?&?). split_and!; try done. lia. Qed.

Lemma apart_above lo hs x : apart lo hs → free_at hs x → lo ≤ x.
Proof.
  revert lo. induction hs as [|[p [b n]] hs IH]; intros lo Ha Hf; [by apply free_at_nil in Hf|].
  destruct Ha as (H1 & H2 & H3 & H4). apply free_at_cons in Hf as [Hf|Hf]; simpl in *; [lia|].
  specialize (IH _ H4 Hf). lia.
Qed.

Lemma apart_bounds lo hs : apart lo hs →
  Forall (λ x : node, lo ≤ x.2.1 ∧ 0 < x.2.2 ∧ x.2.1 + x.2.2 ≤ top) hs.
Proof.
  revert lo. induction hs as [|[p [b n]] hs IH]; intros lo Ha; constructor; simpl in *.
  - tauto.
  - destruct Ha as (H1 & H2 & H3 & H4). eapply Forall_impl; [by apply IH|].
    intros x ?. simpl in *. lia.
Qed.

(** Taking [c] clicks from the front of hole [x]. *)
Lemma apart_cut c l1 x l2 lo :
  0 ≤ c → apart lo (l1 ++ x :: l2) → fits c x →
  apart lo (l1 ++ cut c x ++ l2) ∧
  ∀ z, free_at (l1 ++ cut c x ++ l2) z ↔ free_at (l1 ++ x :: l2) z ∧ ¬ (x.2.1 ≤ z < x.2.1 + c).
Proof.
  intros Hc. destruct x as [p [b n]]. unfold fits, cut. simpl. revert lo.
  induction l1 as [|[q [b' n']] l1 IH]; intros lo Ha Hf; simpl in *.
  - destruct Ha as (H1 & H2 & H3 & H4). destruct (Z.eqb_spec n c) as [->|Hne]; simpl.
    + split; [eapply apart_mono; [|done]; lia|]. intros z. rewrite free_at_cons. simpl.
      split; [|tauto]. intros Hz. pose proof (apart_above _ _ _ H4 Hz). split; [by right|lia].
    + split; [split_and!; [lia|lia|lia|]; by replace (b + c + (n - c) + 1) with (b + n + 1) by lia|].
      intros z. rewrite !free_at_cons. simpl. split; [|intros [[?|?] ?]; [left; lia|by right]].
      intros [Hz|Hz]; [lia|]. pose proof (apart_above _ _ _ H4 Hz). split; [by right|lia].
  - destruct Ha as (H1 & H2 & H3 & H4). destruct (IH _ H4 Hf) as [IH1 IH2]. split; [done|].
    intros z. rewrite !free_at_cons. simpl. rewrite IH2.
    assert (b' + n' + 1 ≤ b).
    { pose proof (apart_bounds _ _ H4) as Hall. apply Forall_app in Hall as [_ Hall].
      inversion Hall; subst. simpl in *. tauto. }
    split; [|tauto]. intros [Hz|[Hz1 Hz2]]; [|tauto]. split; [by left|lia].
Qed.

(** *** Merging *)

Definition touch (x y : node) : bool := x.2.1 + x.2.2 =? y.2.1.
Definition join (x y : node) : node := (x.1, (x.2.1, x.2.2 + y.2.2)).
Definition absorb_l (x : node) (post : list node) : list node :=
  match post with
  | y :: post' => if touch x y then join x y :: post' else x :: post
  | [] => [x]
  end.
Definition merge_l (x : node) (post : list node) : list node :=
  match post with
  | [] => [x]
  | y :: post' => if touch x y then absorb_l (join x y) post' else x :: absorb_l y post'
  end.

Definition in_bounds (x : node) : Prop := 0 ≤ x.2.1 ∧ 0 < x.2.2 ∧ x.2.1 + x.2.2 ≤ top.

Lemma wp_absorb s pre x post fs (Q : option nat → mm → Prop) :
  lst s (pre ++ x :: post) fs → Forall in_bounds (x :: post) →
  (∀ fs' s', lst s' (pre ++ absorb_l x post) fs' →
     Q (match post with
        | [] => None
        | y :: _ => Some (if touch x y then x.1 else y.1)
        end) s') →
  wp (absorb x.1) Q s.
Proof.
  intros Hl Hb HQ. destruct x as [p [b n]]. pose proof Hl as [Hlen Hh Hf Hnd].
  destruct (proj1 (seg_middle _ _ _ _ _ _ _ _) Hh) as (Hpre & nx & Hp & Hpost).
  unfold absorb. wstep. eapply wp_geth; [exact Hp|]. simpl.
  destruct post as [|[p' [b' n']] post]; simpl in Hpost.
  { subst nx. wstep. by eapply HQ. }
  destruct Hpost as (-> & nx' & Hp' & Hpost). wstep. eapply wp_geth; [exact Hp'|]. simpl.
  unfold absorb_l, touch in HQ. simpl in HQ. unfold in_bounds, top in Hb.
  inversion Hb as [|? ? (B1 & B2 & B3) Hb']; subst. inversion Hb' as [|? ? (C1 & C2 & C3) _]; subst.
  simpl in *. rewrite (u32_small (b + n)) by (unfold is_u32; lia).
  revert HQ. destruct (Z.eqb_spec (b + n) b') as [<-|Hne]; intros HQ; [|by wstep; eapply HQ].
  wstep. eapply wp_updh; [exact Hp|]. simpl. rewrite u32_small by (unfold is_u32; lia).
  pose proof (lst_resize s pre p b n b (n + n') ((p', (b + n, n')) :: post) fs _ Hl Hp) as Hl2.
  wstep. eapply (wp_del_slot _ _ (pre ++ [(p, (b, n + n'))])); [rewrite <-app_assoc; exact Hl2| |].
  { unfold is_prev. by rewrite last_snoc. }
  intros s' Hs'. wstep. rewrite <-app_assoc in Hs'. by eapply HQ.
Qed.

Lemma wp_merge s pre x post fs (Q : unit → mm → Prop) :
  lst s (pre ++ x :: post) fs → Forall in_bounds (x :: post) →
  (∀ y post', post = y :: post' → touch x y = true → in_bounds (join x y)) →
  (∀ fs' s', lst s' (pre ++ merge_l x post) fs' → Q tt s') → wp (merge x.1) Q s.
Proof.
  intros Hl Hb Hj HQ. unfold merge. wstep. eapply wp_absorb; [exact Hl|done|].
  destruct post as [|y post]; [intros fs' s' Hs'; wstep; by eapply HQ|].
  simpl in HQ. intros fs' s' Hs'. unfold absorb_l in Hs'. destruct (touch x y) eqn:Et.
  - wstep. eapply (wp_absorb s' pre (join x y)); [exact Hs'| |].
    { inversion Hb as [|? ? _ Hb']; inversion Hb'; subst. constructor; [by eapply Hj|done]. }
    intros fs2 s2 Hs2. wstep. by eapply HQ.
  - wstep. eapply (wp_absorb s' (pre ++ [x]) y post); [by rewrite <-app_assoc|by inversion Hb|].
    intros fs2 s2 Hs2. wstep. rewrite <-app_assoc in Hs2. by eapply HQ.
Qed.

Lemma hole_absorb_spec lo x l :
  lo ≤ x.2.1 → 0 < x.2.2 → x.2.1 + x.2.2 ≤ top → apart (x.2.1 + x.2.2) l →
  apart lo (absorb_l x l) ∧ ∀ z, free_at (absorb_l x l) z ↔ free_at (x :: l) z.
Proof.
  intros H1 H2 H3 H4. destruct x as [p [b n]], l as [|[p' [b' n']] l]; simpl in *; [by repeat split|].
  destruct H4 as (A1 & A2 & A3 & A4). unfold touch, join. simpl.
  destruct (Z.eqb_spec (b + n) b') as [<-|Hne]; simpl.
  - split.
    + split_and!; [lia|lia|lia|]. by replace (b + (n + n') + 1) with (b + n + n' + 1) by lia.
    + intros z. rewrite !free_at_cons. simpl. assert (b ≤ z < b + (n + n') ↔ b ≤ z < b + n ∨ b + n ≤ z < b + n + n') by lia.
      tauto.
  - split; [split_and!; try done; lia|done].
Qed.

(** A hole that touches nothing absorbs nothing. *)
Lemma absorb_apart x l : apart (x.2.1 + x.2.2 + 1) l → absorb_l x l = x :: l.
Proof.
  destruct l as [|y l]; [done|]. destruct x as [p [b n]], y as [p' [b' n']]. simpl. unfold touch. simpl.
  intros (? & _). by rewrite (proj2 (Z.eqb_neq _ _)) by lia.
Qed.

Lemma merge_front lo x l :
  lo ≤ x.2.1 → 0 < x.2.2 → x.2.1 + x.2.2 ≤ top → apart (x.2.1 + x.2.2) l →
  merge_l x l = absorb_l x l.
Proof.
  intros H1 H2 H3 H4. destruct l as [|y l]; [done|].
  change (merge_l x (y :: l)) with (if touch x y then absorb_l (join x y) l else x :: absorb_l y l).
  change (absorb_l x (y :: l)) with (if touch x y then join x y :: l else x :: y :: l).
  destruct x as [p [b n]], y as [p' [b' n']]. simpl in H4. destruct H4 as (A1 & A2 & A3 & A4).
  unfold touch. simpl. destruct (Z.eqb_spec (b + n) b') as [<-|Hne].
  - apply absorb_apart. simpl. by replace (b + (n + n') + 1) with (b + n + n' + 1) by lia.
  - by rewrite absorb_apart.
Qed.

Lemma merge_mid lo y x l :
  lo ≤ y.2.1 → 0 < y.2.2 → y.2.1 + y.2.2 ≤ x.2.1 →
  0 < x.2.2 → x.2.1 + x.2.2 ≤ top → apart (x.2.1 + x.2.2) l →
  apart lo (merge_l y (x :: l)) ∧ ∀ z, free_at (merge_l y (x :: l)) z ↔ free_at (y :: x :: l) z.
Proof.
  intros H1 H2 H3 H4 H5 H6. simpl. unfold touch. destruct (Z.eqb_spec (y.2.1 + y.2.2) x.2.1) as [E|E].
  - destruct (hole_absorb_spec lo (join y x) l) as [A1 A2]; simpl; [lia|lia|lia| |].
    { by replace (y.2.1 + (y.2.2 + x.2.2)) with (x.2.1 + x.2.2) by lia. }
    split; [done|]. intros z. rewrite A2, !free_at_cons. simpl.
    assert (y.2.1 ≤ z < y.2.1 + (y.2.2 + x.2.2) ↔
            y.2.1 ≤ z < y.2.1 + y.2.2 ∨ x.2.1 ≤ z < x.2.1 + x.2.2) by lia. tauto.
  - destruct (hole_absorb_spec (y.2.1 + y.2.2 + 1) x l) as [A1 A2]; [lia|done|done|done|].
    split; [destruct y as [p [b n]]; simpl in *; split_and!; try done; lia|].
    intros z. by rewrite !(free_at_cons y), A2.
Qed.

Lemma apart_head lo lo' l :
  apart lo l → match l with [] => True | z :: _ => lo' ≤ z.2.1 end → apart lo' l.
Proof. destruct l as [|[p [b n]] l]; simpl; [done|]. intros (?&?&?&?) ?. by split_and!. Qed.

Lemma insert_after lo l1 y x l2 :
  apart lo (l1 ++ y :: l2) → y.2.1 + y.2.2 ≤ x.2.1 → 0 < x.2.2 → x.2.1 + x.2.2 ≤ top →
  match l2 with [] => True | z :: _ => x.2.1 + x.2.2 ≤ z.2.1 end →
  apart lo (l1 ++ merge_l y (x :: l2)) ∧
  ∀ z, free_at (l1 ++ merge_l y (x :: l2)) z ↔ free_at (l1 ++ y :: l2) z ∨ x.2.1 ≤ z < x.2.1 + x.2.2.
Proof.
  intros Ha H1 H2 H3 H4. revert lo Ha. induction l1 as [|[q [b' n']] l1 IH]; intros lo Ha.
  - destruct y as [p [b n]]. destruct Ha as (A1 & A2 & A3 & A4).
    destruct (merge_mid lo (p, (b, n)) x l2) as [M1 M2]; try done; [by eapply apart_head|].
    split; [done|]. intros z. rewrite !app_nil_l, M2, !free_at_cons. tauto.
  - destruct Ha as (A1 & A2 & A3 & A4). destruct (IH _ A4) as [I1 I2].
    split; [by split_and!|]. intros z. rewrite <-!app_comm_cons, !(free_at_cons (q, _)), I2. tauto.
Qed.

Lemma insert_front x l :
  0 ≤ x.2.1 → 0 < x.2.2 → x.2.1 + x.2.2 ≤ top → apart 0 l →
  match l with [] => True | z :: _ => x.2.1 + x.2.2 ≤ z.2.1 end →
  apart 0 (merge_l x l) ∧ ∀ z, free_at (merge_l x l) z ↔ free_at l z ∨ x.2.1 ≤ z < x.2.1 + x.2.2.
Proof.
  intros H1 H2 H3 H4 H5. assert (apart (x.2.1 + x.2.2) l) as H6 by by eapply apart_head.
  rewrite (merge_front 0) by done. destruct (hole_absorb_spec 0 x l) as [A1 A2]; try done.
  split; [done|]. intros z. rewrite A2, free_at_cons. tauto.
Qed.

(** *** free_mem *)

Lemma wp_find_prev base (Q : nat → mm → Prop) s : ∀ rest y fuel hp,
  seg (holes s) hp rest None → (length rest < fuel)%nat →
  y.2.1 < base →
  (∀ l1 z l2, y :: rest = l1 ++ z :: l2 → z.2.1 < base →
     match l2 with [] => True | w :: _ => base ≤ w.2.1 end → Q z.1 s) →
  wp (find_prev fuel base y.1 hp) Q s.
Proof.
  induction rest as [|[p [b n]] rest IH]; intros y fuel hp Hseg Hfuel Hy HQ;
    (destruct fuel as [|fuel]; [simpl in Hfuel; lia|]); cbn [find_prev].
  { simpl in Hseg. subst hp. wstep. by apply (HQ [] y []). }
  destruct Hseg as (-> & nx & Hp & Hrest). wstep. eapply wp_geth; [exact Hp|]. simpl.
  destruct (Z.ltb_spec b base) as [Hlt|Hge]; [|wstep; by apply (HQ [] y ((p, (b, n)) :: rest))].
  eapply (IH (p, (b, n))); [done|simpl in Hfuel; lia|done|].
  intros l1 z l2 E Hz Hl2. apply (HQ (y :: l1) z l2); [by rewrite E|done|done].
Qed.

(** A new entry [x] after the hole [y], or in front of all. *)
Lemma lst_link_after s l1 y l2 p x fs nx nq :
  lst s (l1 ++ y :: l2) ((p, x) :: fs) → holes s !! p = Some (mkHole x.1 x.2 nx) →
  holes s !! y.1 = Some (mkHole y.2.1 y.2.2 nq) →
  lst (set_hole y.1 (mkHole y.2.1 y.2.2 (Some p)) (set_hole p (mkHole x.1 x.2 nq) (set_slots nx s)))
    (l1 ++ y :: (p, x) :: l2) fs.
Proof.
  destruct x as [b n], y as [q [b' n']]. simpl. intros [Hlen Hh Hf Hnd] Hp Hq.
  apply seg_middle in Hh as (H1 & nq' & Hq' & H2). assert (nq' = nq) as -> by congruence.
  destruct Hf as (Hf1 & nx' & Hf2 & Hf3). assert (nx' = nx) as -> by congruence.
  assert (Hn : q ∉ l1.*1 ∧ q ∉ l2.*1 ∧ q ∉ fs.*1 ∧ p ∉ l1.*1 ∧ p ∉ l2.*1 ∧ p ∉ fs.*1 ∧ p ≠ q).
  { assert (NoDup (((q, (b', n')) :: (p, (b, n)) :: (l1 ++ l2 ++ fs)).*1)) as Hnd'.
    { eapply nodup_perm; [|exact Hnd]. rewrite <-!app_assoc. simpl.
      rewrite <-Permutation_middle. constructor.
      rewrite app_assoc, <-Permutation_middle, <-app_assoc. done. }
    simpl in Hnd'. apply NoDup_cons in Hnd' as [N1 Hnd']. apply NoDup_cons in Hnd' as [N2 _].
    rewrite not_elem_of_cons in N1. rewrite !fmap_app, !not_elem_of_app in *.
    destruct_and?. by split_and!. }
  destruct Hn as (N1 & N2 & N3 & N4 & N5 & N6 & N7).
  pose proof (lookup_lt_Some _ _ _ Hp). pose proof (lookup_lt_Some _ _ _ Hq). split; simpl.
  - by rewrite !length_insert.
  - apply seg_middle. split; [by apply seg_insert, seg_insert|]. exists (Some p).
    rewrite list_lookup_insert_eq by by rewrite length_insert. split; [done|].
    simpl. split; [done|]. exists nq. rewrite list_lookup_insert_ne, list_lookup_insert_eq by done.
    split; [done|]. by apply seg_insert, seg_insert.
  - by apply seg_insert, seg_insert.
  - eapply nodup_perm; [|exact Hnd]. rewrite <-!app_assoc. simpl. apply Permutation_app_head.
    constructor. by rewrite <-Permutation_middle.
Qed.

Lemma lst_link_front s hs p x fs nx :
  lst s hs ((p, x) :: fs) → holes s !! p = Some (mkHole x.1 x.2 nx) →
  lst (set_head (Some p) (set_hole p (mkHole x.1 x.2 (hole_head s)) (set_slots nx s)))
    ((p, x) :: hs) fs.
Proof.
  destruct x as [b n]. simpl. intros [Hlen Hh Hf Hnd] Hp.
  destruct Hf as (Hf1 & nx' & Hf2 & Hf3). assert (nx' = nx) as -> by congruence.
  assert (Hn : p ∉ hs.*1 ∧ p ∉ fs.*1).
  { pose proof Hnd as Hnd'. rewrite <-Permutation_middle in Hnd'. simpl in Hnd'.
    apply NoDup_cons in Hnd' as [N1 _]. by rewrite fmap_app, not_elem_of_app in N1. }
  destruct Hn as (N4 & N5). pose proof (lookup_lt_Some _ _ _ Hp). split; simpl.
  - by rewrite !length_insert.
  - split; [done|]. exists (hole_head s). rewrite list_lookup_insert_eq by done.
    split; [done|]. by apply seg_insert.
  - by apply seg_insert.
  - change (NoDup (((p, (b, n)) :: (hs ++ fs)).*1)).
    eapply nodup_perm; [|exact Hnd]. by rewrite <-Permutation_middle.
Qed.

Lemma lst_slot s hs p x b n fs nx :
  lst s hs ((p, x) :: fs) → holes s !! p = Some (mkHole x.1 x.2 nx) →
  lst (set_hole p (mkHole b n nx) s) hs ((p, (b, n)) :: fs).
Proof.
  destruct x as [b0 n0]. simpl. intros [Hlen Hh Hf Hnd] Hp.
  destruct Hf as (Hf1 & nx' & Hf2 & Hf3). assert (nx' = nx) as -> by congruence.
  assert (Hn : p ∉ hs.*1 ∧ p ∉ fs.*1).
  { pose proof Hnd as Hnd'. rewrite <-Permutation_middle in Hnd'. simpl in Hnd'.
    apply NoDup_cons in Hnd' as [N1 _]. by rewrite fmap_app, not_elem_of_app in N1. }
  destruct Hn as [N1 N2]. pose proof (lookup_lt_Some _ _ _ Hp). split; simpl.
  - by rewrite length_insert.
  - by apply seg_insert.
  - split; [done|]. exists nx. rewrite list_lookup_insert_eq by done.
    split; [done|]. by apply seg_insert.
  - by rewrite fmap_app in *.
Qed.

(** A block none of whose clicks is free lies beside every hole. *)
Lemma beside hs base c y :
  (∀ x, base ≤ x < base + c → ¬ free_at hs x) → 0 < c → y ∈ hs → 0 < y.2.2 →
  y.2.1 + y.2.2 ≤ base ∨ base + c ≤ y.2.1.
Proof.
  intros Hd Hc Hy Hn. destruct (decide (y.2.1 + y.2.2 ≤ base)); [by left|].
  destruct (decide (base + c ≤ y.2.1)); [by right|].
  destruct (Hd (Z.max base y.2.1)); [lia|]. exists y. split; [done|lia].
Qed.

Lemma lst_length s hs fs : lst s hs fs → (length hs ≤ NR_HOLES)%nat.
Proof.
  intros [Hlen Hh _ Hnd]. rewrite fmap_app in Hnd. apply NoDup_app in Hnd as [Hnd _].
  rewrite <-Hlen, <-(length_fmap fst hs). rewrite <-(length_seq (length (holes s)) 0).
  apply submseteq_length, NoDup_submseteq; [done|].
  intros p (x & -> & Hx)%list_elem_of_fmap. destruct x as [p x].
  destruct (seg_lookup _ _ _ _ _ _ Hh Hx) as [nx Hp]. apply elem_of_seq.
  apply lookup_lt_Some in Hp. simpl. lia.
Qed.

Section free.
Context (base c : Z) (hs : list node).
Context (Hbase : 0 ≤ base) (Hc : 0 < c) (Htop : base + c ≤ top).
Context (Hap : apart 0 hs) (Hdis : ∀ x, base ≤ x < base + c → ¬ free_at hs x).

Lemma hs_bounds : Forall in_bounds hs.
Proof using Hap. apply (apart_bounds 0 hs Hap). Qed.

(** The state after free_mem. *)
Definition freed (s' : mm) : Prop :=
  ∃ hs' fs', mm_ok s' hs' fs' ∧
    ∀ x, free_at hs' x ↔ free_at hs x ∨ base ≤ x < base + c.

Lemma wp_free_front s p fs :
  lst s ((p, (base, c)) :: hs) fs → match hs with [] => True | z :: _ => base ≤ z.2.1 end →
  wp (merge p) (λ _ s', freed s') s.
Proof using Hbase Hc Htop Hap Hdis.
  intros Hl Hhd. assert (Hhd' : match hs with [] => True | z :: _ => base + c ≤ z.2.1 end).
  { pose proof hs_bounds as Hb. destruct hs as [|z hs']; [done|].
    inversion Hb as [|? ? (B1 & B2 & B3) _]; subst.
    destruct (beside _ _ _ z Hdis Hc) as [H|H]; [by apply elem_of_cons; left|done|lia|done]. }
  destruct (insert_front (p, (base, c)) hs) as [A1 A2]; try done.
  eapply (wp_merge s [] (p, (base, c)) hs); [exact Hl| | |].
  - constructor; [done|apply hs_bounds].
  - pose proof hs_bounds as Hb. intros y post' E Ht. rewrite E in Hb. inversion Hb as [|? ? (B1 & B2 & B3) _]; subst.
    unfold touch, join, in_bounds in *. simpl in *. apply Z.eqb_eq in Ht. lia.
  - intros fs' s' Hs'. exists (merge_l (p, (base, c)) hs), fs'. split; [by apply mm_ok_lst|]. exact A2.
Qed.

Lemma wp_free_after s p fs l1 y l2 :
  hs = l1 ++ y :: l2 → lst s (l1 ++ y :: (p, (base, c)) :: l2) fs → y.2.1 < base →
  match l2 with [] => True | z :: _ => base ≤ z.2.1 end →
  wp (merge y.1) (λ _ s', freed s') s.
Proof using Hbase Hc Htop Hap Hdis.
  intros Ehs Hl Hy Hl2. pose proof hs_bounds as Hb. rewrite Ehs in Hb.
  apply Forall_app in Hb as [_ Hb]. apply Forall_cons in Hb as [(B1 & B2 & B3) Hb2].
  assert (Hye : y.2.1 + y.2.2 ≤ base).
  { destruct (beside _ _ _ y Hdis Hc) as [H|H]; [rewrite Ehs; set_solver|done|done|lia]. }
  assert (Hhd' : match l2 with [] => True | z :: _ => base + c ≤ z.2.1 end).
  { destruct l2 as [|z l2]; [done|]. apply Forall_cons in Hb2 as [(D1 & D2 & D3) _].
    destruct (beside _ _ _ z Hdis Hc) as [H|H]; [rewrite Ehs; set_solver|done|lia|done]. }
  destruct (insert_after 0 l1 y (p, (base, c)) l2) as [A1 A2]; try done; [by rewrite <-Ehs|].
  rewrite <-Ehs in A2.
  eapply (wp_merge s l1 y ((p, (base, c)) :: l2)); [exact Hl| | |].
  - constructor; [done|]. constructor; [done|done].
  - intros w post' [= <- <-] Ht. unfold touch, join, in_bounds in *. simpl in *.
    apply Z.eqb_eq in Ht. lia.
  - intros fs' s' Hs'. exists (l1 ++ merge_l y ((p, (base, c)) :: l2)), fs'.
    split; [by apply mm_ok_lst|]. exact A2.
Qed.
End free.

(** The part of free_mem behind the head of the list; the new entry [p] is
    filled in and off the list of unused entries. *)
Lemma free_behind base c s y hs fs p nx nq :
  lst s (y :: hs) ((p, (base, c)) :: fs) → apart 0 (y :: hs) →
  holes s !! p = Some (mkHole base c nx) → holes s !! y.1 = Some (mkHole y.2.1 y.2.2 nq) →
  0 ≤ base → 0 < c → base + c ≤ top → y.2.1 < base →
  (∀ x, base ≤ x < base + c → ¬ free_at (y :: hs) x) →
  wp (prev ← find_prev (S NR_HOLES) base y.1 nq;
      q ← geth prev;
      updh p (w_next (h_next q)) ;;
      updh prev (w_next (Some p)) ;;
      merge prev) (λ _ s', freed base c (y :: hs) s') (set_slots nx s).
Proof.
  intros Hl Hap Hp Hq Hbase Hc Htop Hlt Hdis. pose proof (ls_holes _ _ _ Hl) as Hh.
  destruct y as [q0 [b1 n1]]. destruct Hh as (_ & nq' & Hq' & Hh). simpl in Hq.
  assert (nq' = nq) as -> by congruence.
  wstep. eapply (wp_find_prev base _ _ hs (q0, (b1, n1))); [exact Hh| |exact Hlt|].
  { pose proof (lst_length _ _ _ Hl) as Hn. cbn [length] in Hn. lia. }
  intros l1 z l2 E Hz Hl2. rewrite E in Hl.
  destruct (seg_lookup _ _ _ z.1 z.2 _ (ls_holes _ _ _ Hl)) as [nz Hnz].
  { destruct z. set_solver. }
  assert (z.1 ≠ p) as Hne.
  { eapply (lst_disjoint s _ _ z.1 z.2 p (base, c)); [exact Hl|destruct z; set_solver|set_solver]. }
  wstep. eapply wp_geth; [exact Hnz|]. wstep. eapply wp_updh; [exact Hp|]. wstep.
  eapply wp_updh; [simpl; by rewrite list_lookup_insert_ne|].
  eapply wp_free_after; [done|done|done|done|done|exact E| |done|done].
  exact (lst_link_after s l1 z l2 p (base, c) fs nx nz Hl Hp Hnz).
Qed.

(** free_mem on a block that is not free. *)
Lemma free_mem_ok base c s hs fs :
  mm_ok s hs fs → fs ≠ [] → 0 ≤ base → 0 < c → base + c ≤ top →
  (∀ x, base ≤ x < base + c → ¬ free_at hs x) →
  wp (free_mem base c) (λ _ s', freed base c hs s') s.
Proof.
  intros [Hl Hap]%mm_ok_lst Hfs Hbase Hc Htop Hdis. unfold free_mem.
  rewrite (proj2 (Z.eqb_neq c 0)) by lia. wstep. wstep.
  destruct fs as [|[p [b0 n0]] fs]; [done|]. pose proof Hl as [Hlen Hh Hf Hnd].
  destruct Hf as (Hf1 & nx & Hp & Hf3). rewrite Hf1.
  pose proof (lookup_lt_Some _ _ _ Hp) as Hlt.
  wstep. eapply wp_geth; [exact Hp|]. wstep. eapply wp_updh; [exact Hp|]. wstep. wstep.
  pose proof (lst_slot s hs p (b0, n0) base c fs nx Hl Hp) as Hl1.
  set (s1 := set_hole p (mkHole base c nx) s) in *.
  assert (Hp1 : holes s1 !! p = Some (mkHole base c nx)) by by apply list_lookup_insert_eq.
  wstep. wstep. change (hole_head (set_slots _ _)) with (hole_head s1).
  assert (Hfront : match hs with [] => True | z :: _ => base ≤ z.2.1 end →
    wp (updh p (w_next (hole_head s1)) ;; modify (set_head (Some p)) ;; merge p)
      (λ _ s', freed base c hs s') (set_slots nx s1)).
  { intros Hhd. wstep. eapply wp_updh; [exact Hp1|]. wstep. wstep.
    eapply wp_free_front; try done. by apply (lst_link_front s1 hs p (base, c) fs nx). }
  pose proof (ls_holes _ _ _ Hl1) as Hh1. destruct hs as [|[q0 [b1 n1]] hs].
  { change (hole_head s1 = None) in Hh1. rewrite Hh1 in *. by apply Hfront. }
  destruct Hh1 as (E1 & nq & Hq1 & Hh1). rewrite E1 in *.
  wstep. eapply wp_geth; [exact Hq1|]. simpl.
  destruct (Z.leb_spec base b1) as [Hle|Hgt]; [by apply Hfront|].
  by eapply (free_behind base c s1 (q0, (b1, n1))).
Qed.

(** ** Properties *)

(** alloc_mem is first fit: it takes the block from the front of the
    lowest hole that is long enough, marks exactly those clicks as used, and
    answers NO_MEM when no hole is long enough; the table stays in order. *)
Theorem alloc_mem_spec NO_MEM c s hs fs :
  mm_ok s hs fs → 0 ≤ c →
  wp (alloc_mem NO_MEM c) (λ r s', ∃ hs' fs', mm_ok s' hs' fs' ∧
    ((r = NO_MEM ∧ hs' = hs ∧ ∀ y, y ∈ hs → y.2.2 < c) ∨
     (∃ x, x ∈ hs ∧ r = x.2.1 ∧ c ≤ x.2.2 ∧ (∀ y, y ∈ hs → y.2.1 < r → y.2.2 < c) ∧
        ∀ z, free_at hs' z ↔ free_at hs z ∧ ¬ (r ≤ z < r + c)))) s.
Proof.
  intros [Hl Hap]%mm_ok_lst Hc. unfold alloc_mem. wstep. wstep.
  eapply (wp_alloc_loop NO_MEM c _ fs Hc hs []); [exact Hl|apply Hl| |done|by apply (apart_bounds 0)|..].
  - pose proof (lst_length _ _ _ Hl). lia.
  - intros Hall. exists hs, fs. split; [by apply mm_ok_lst|]. left. split_and!; [done|done|].
    intros y Hy. rewrite Forall_forall in Hall. specialize (Hall y Hy). unfold fits in Hall. lia.
  - intros l1 x l2 fs' s' -> Hl1 Hx Hs'. destruct (apart_cut c l1 x l2 0 Hc Hap Hx) as [A1 A2].
    exists (l1 ++ cut c x ++ l2), fs'. split; [by apply mm_ok_lst|]. right. exists x.
    split_and!; [set_solver|done|done| |done].
    intros y Hy Hlt. rewrite Forall_forall in Hl1.
    assert (y ∈ l1) as Hin; [|specialize (Hl1 y Hin); unfold fits in Hl1; lia].
    apply elem_of_app in Hy as [Hy|[->|Hy]%elem_of_cons]; [done|lia|exfalso].
    clear -Hap Hy Hlt. revert Hap. generalize 0. induction l1 as [|[q [b n]] l1 IH]; intros lo Ha.
    + destruct x as [p [b n]]. destruct Ha as (_ & H2 & _ & H4). simpl in *.
      apply apart_bounds in H4. rewrite Forall_forall in H4. specialize (H4 y Hy). lia.
    + destruct Ha as (_ & _ & _ & H4). by eapply IH.
Qed.

(** [C31] free_mem returns a block to the free clicks and coalesces: given a
    block none of whose clicks is free, exactly its clicks become free, and
    the holes are again ascending with a gap between any two of them; it
    panics exactly when the table has no unused entry. *)
Theorem free_mem_spec base c s hs fs :
  mm_ok s hs fs → 0 ≤ base → 0 < c → base + c ≤ top →
  (∀ x, base ≤ x < base + c → ¬ free_at hs x) →
  match free_mem base c s with
  | Ret _ s' => ∃ hs' fs', mm_ok s' hs' fs' ∧
      ∀ x, free_at hs' x ↔ free_at hs x ∨ base ≤ x < base + c
  | Panic msg => fs = [] ∧ msg = "Hole table full"%string
  | _ => False
  end.
Proof.
  intros Hok Hb Hc Ht Hd. destruct (decide (fs = [])) as [->|Hfs].
  - unfold free_mem. rewrite (proj2 (Z.eqb_neq c 0)) by lia.
    pose proof (mo_slots _ _ _ Hok) as Hf. simpl in Hf.
    unfold mbind, M_bind, gets. by rewrite Hf.
  - destruct (wp_inv _ _ _ (free_mem_ok base c s hs fs Hok Hfs Hb Hc Ht Hd)) as ([] & s' & -> & H).
    exact H.
Qed.

(** ** Witnesses *)

(** A table with one hole and the other entries unused, in order. *)
Definition next_of (n j : nat) : option nat := if (S j =? n)%nat then None else Some (S j).
Definition slot_nodes (i n : nat) : list node := (λ j, (j, (0, 0))) <$> seq i n.

Lemma seg_seq t i n :
  (∀ j, (i ≤ j < i + n)%nat → t !! j = Some (mkHole 0 0 (next_of (i + n) j))) →
  seg t (if (n =? 0)%nat then None else Some i) (slot_nodes i n) None.
Proof.
  revert i. induction n as [|n IH]; intros i Ht; [done|]. simpl. split; [done|].
  exists (next_of (i + S n) i). split; [apply Ht; lia|].
  specialize (IH (S i)). unfold slot_nodes in IH.
  replace (next_of (i + S n) i) with (if (n =? 0)%nat then None else Some (S i)).
  - apply IH. intros j Hj. rewrite Ht by lia. by replace (i + S n)%nat with (S i + n)%nat by lia.
  - unfold next_of. destruct (Nat.eqb_spec n 0), (Nat.eqb_spec (S i) (i + S n)); (done || lia).
Qed.

Definition mm0 : mm :=
  mkMm (mkHole 100 50 None :: ((λ j, mkHole 0 0 (next_of 128 j)) <$> seq 1 127)) (Some 0%nat) (Some 1%nat).

Lemma mm0_ok : mm_ok mm0 [(0%nat, (100, 50))] (slot_nodes 1 127).
Proof.
  split.
  - done.
  - split; [done|]. by exists None.
  - apply (seg_seq _ 1 127). intros [|j] Hj; [lia|]. unfold mm0. cbn [holes].
    change (((λ j, mkHole 0 0 (next_of 128 j)) <$> seq 1 127) !! j = Some (mkHole 0 0 (next_of 128 (S j)))).
    rewrite list_lookup_fmap, lookup_seq_lt by lia. done.
  - unfold slot_nodes. rewrite fmap_app, <-list_fmap_compose. simpl fmap at 1.
    change (NoDup (0%nat :: ((λ j, j) <$> seq 1 127))). rewrite list_fmap_id.
    apply (NoDup_seq 0 128).
  - simpl. unfold top. lia.
Qed.

Lemma alloc_mem_spec_witness :
  wp (alloc_mem 0 20) (λ r s', ∃ hs' fs', mm_ok s' hs' fs' ∧
    ((r = 0 ∧ hs' = [(0%nat, (100, 50))] ∧ ∀ y, y ∈ [(0%nat, (100, 50))] → y.2.2 < 20) ∨
     (∃ x, x ∈ [(0%nat, (100, 50))] ∧ r = x.2.1 ∧ 20 ≤ x.2.2 ∧
        (∀ y, y ∈ [(0%nat, (100, 50))] → y.2.1 < r → y.2.2 < 20) ∧
        ∀ z, free_at hs' z ↔ free_at [(0%nat, (100, 50))] z ∧ ¬ (r ≤ z < r + 20)))) mm0.
Proof. exact (alloc_mem_spec 0 20 mm0 _ _ mm0_ok ltac:(lia)). Defined.

Lemma free_mem_spec_witness :
  match free_mem 150 10 mm0 with
  | Ret _ s' => ∃ hs' fs', mm_ok s' hs' fs' ∧
      ∀ x, free_at hs' x ↔ free_at [(0%nat, (100, 50))] x ∨ 150 ≤ x < 150 + 10
  | Panic msg => slot_nodes 1 127 = [] ∧ msg = "Hole table full"%string
  | _ => False
  end.
Proof.
  apply (free_mem_spec 150 10 mm0 _ _ mm0_ok); [lia|lia|unfold top; lia|].
  intros x Hx [y [Hy Hr]]. apply list_elem_of_singleton in Hy as ->. simpl in Hr. lia.
Defined.

(** The block is merged with the hole it touches: one hole of 60 clicks. *)
Example free_mem_merges : match free_mem 150 10 mm0 with
  | Ret _ s' => take 1 (holes s') = [mkHole 100 60 None] ∧ free_slots s' = Some 1%nat
  | _ => False end.
Proof. by vm_compute. Qed.
