(* ===== verification/Alocador.v ===== *)
(** * The exercises on memory allocation (Gerência de Memória/meu_alloc.c and
    memory_management_unity.c)

    Both programs cut blocks out of one malloc'ed region and keep a doubly
    linked list of headers inside it; a negative size marks a block in use.
    The region is a byte memory; an access outside it is undefined behaviour
    and is the outcome [Fault].  Pointers have 8 bytes, so a header has 24:
    the size, four bytes of padding and two pointers.  The printf calls are
    left out, and the address malloc returns is an argument. *)

From S2P Require Import Prelude Kernel CString.
Local Open Scope Z_scope.

(** ** The region *)

Record arena := mkArena {
  ar_mem : mem;
  ar_base : Z;        (* what malloc returned *)
  ar_len : Z;
  ar_list : Z;        (* hole_list, listaMemoria *)
  ar_next : Z;        (* ptrNextFit *)
}.

Definition set_armem (m : mem) (s : arena) : arena := mkArena m (ar_base s) (ar_len s) (ar_list s) (ar_next s).
Definition set_arlist (p : Z) (s : arena) : arena := mkArena (ar_mem s) (ar_base s) (ar_len s) p (ar_next s).
Definition set_arnext (p : Z) (s : arena) : arena := mkArena (ar_mem s) (ar_base s) (ar_len s) (ar_list s) p.

Definition HSZ : Z := 24.   (* sizeof(struct hole) *)

Definition load64 (m : mem) (a : Z) : Z := load32 m a + 4294967296 * load32 m (a + 4).
Definition store64 (m : mem) (a v : Z) : mem := store32 (store32 m a (u32 v)) (a + 4) (v / 4294967296).

(** Is the header at a inside the region? *)
Definition inside (a : Z) (s : arena) : bool :=
  (ar_base s <=? a) && (a + HSZ <=? ar_base s + ar_len s).

Definition access {A} (a : Z) (f : arena → outcome arena A) : M arena A :=
  λ s, if inside a s then f s else Fault.

Definition tam (a : Z) : M arena Z := access a (λ s, Ret (i32 (load32 (ar_mem s) a)) s).
Definition set_tam (a v : Z) : M arena unit :=
  access a (λ s, Ret tt (set_armem (store32 (ar_mem s) a (u32 v)) s)).

(** The two pointers of a header, in the order of each program. *)
Definition ptr1 (a : Z) : M arena Z := access a (λ s, Ret (load64 (ar_mem s) (a + 8)) s).
Definition ptr2 (a : Z) : M arena Z := access a (λ s, Ret (load64 (ar_mem s) (a + 16)) s).
Definition set_ptr1 (a v : Z) : M arena unit :=
  access a (λ s, Ret tt (set_armem (store64 (ar_mem s) (a + 8) v) s)).
Definition set_ptr2 (a v : Z) : M arena unit :=
  access a (λ s, Ret tt (set_armem (store64 (ar_mem s) (a + 16) v) s)).

(** ** memory_management_unity.c *)

Module Unity.

Definition next := ptr1.
Definition prev := ptr2.
Definition set_next := set_ptr1.
Definition set_prev := set_ptr2.

(** [p] is the region malloc returned, of the size asked for. *)
Definition tamanho (size : Z) : Z := if size <? HSZ then HSZ + size else size.

Definition inicializa_memoria (size p : Z) : M arena unit :=
  let size := tamanho size in
  modify (λ s, mkArena (ar_mem s) p size p (ar_next s)) ;;
  set_tam p (size - HSZ) ;;
  set_next p 0 ;;
  set_prev p 0.

(** The two halves of meu_desaloca that merge: with the block after, and into
    the block before. *)
Definition junta_next (current next_hole : Z) : M arena unit :=
  if next_hole =? 0 then mret tt else
  nt ← tam next_hole;
  if 0 <? nt then
    t ← tam current;
    set_tam current (t + HSZ + nt) ;;
    nn ← next next_hole;
    set_next current nn ;;
    cn ← next current;
    if cn =? 0 then mret tt else set_prev cn current
  else mret tt.

Definition junta_prev (current prev_hole : Z) : M arena unit :=
  if prev_hole =? 0 then mret tt else
  pt ← tam prev_hole;
  if 0 <? pt then
    t ← tam current;
    set_tam prev_hole (pt + t + HSZ) ;;
    cn ← next current;
    set_next prev_hole cn ;;
    cn ← next current;
    if cn =? 0 then mret tt else set_prev cn prev_hole
  else mret tt.

Definition meu_desaloca (p : Z) : M arena unit :=
  let current := p - HSZ in
  prev_hole ← prev current;
  next_hole ← next current;
  t ← tam current;
  set_tam current (- t) ;;
  junta_next current next_hole ;;
  junta_prev current prev_hole.

(** The cut of a larger hole: the new block is its last part. *)
Definition corta_hole (hole size : Z) : M arena Z :=
  next_hole ← next hole;
  t ← tam hole;
  let aux := hole + t - size - HSZ in
  set_tam aux (- size) ;;
  set_next aux next_hole ;;
  set_prev aux hole ;;
  set_next hole aux ;;
  t ← tam hole;
  set_tam hole (t - size - HSZ) ;;
  (if negb (next_hole =? 0) then set_prev next_hole aux else mret tt) ;;
  mret (aux + HSZ).

Fixpoint aloca_loop (fuel : nat) (current size : Z) : M arena Z :=
  match fuel with
  | O => spins
  | S fuel =>
      if current =? 0 then mret 0 else
      t ← tam current;
      if t =? size then set_tam current (- t) ;; mret (current + HSZ)
      else if size + HSZ <? t then corta_hole current size
      else n ← next current; aloca_loop fuel n size
  end.

Definition meu_aloca (fuel : nat) (size : Z) : M arena Z :=
  l ← gets ar_list; aloca_loop fuel l size.

End Unity.

(** ** meu_alloc.c *)

Module MeuAlloc.

Definition memoria_base : Z := 1024.

Definition ant := ptr1.
Definition prox := ptr2.
Definition set_ant := set_ptr1.
Definition set_prox := set_ptr2.

Definition mod_ (valor : Z) : Z := if valor <? 0 then valor * (-1) else valor.

Definition inicializa_mem (p : Z) : M arena unit :=
  modify (λ s, mkArena (ar_mem s) p memoria_base p (ar_next s)) ;;
  set_tam p memoria_base ;;
  set_ant p 0 ;;
  set_prox p 0 ;;
  modify (set_arnext p).

Fixpoint merge_loop (fuel : nat) (atual : Z) : M arena unit :=
  match fuel with
  | O => spins
  | S fuel =>
      if atual =? 0 then mret tt else
      t ← tam atual;
      if 0 <=? t then
        proximo ← prox atual;
        if negb (proximo =? 0) then
          pt ← tam proximo;
          if 0 <=? pt then
            pp ← prox proximo;
            set_prox atual pp ;;
            t ← tam atual;
            pt ← tam proximo;
            set_tam atual (t + HSZ + pt) ;;
            pp ← prox proximo;
            (if negb (pp =? 0) then set_ant pp atual else mret tt) ;;
            merge_loop fuel atual
          else n ← prox atual; merge_loop fuel n
        else mret tt
      else n ← prox atual; merge_loop fuel n
  end.

Definition merge (fuel : nat) : M arena unit := l ← gets ar_list; merge_loop fuel l.

(** The cut all strategies share.  [atual + atual->tam - tam] is pointer
    arithmetic on [struct hole *]: each unit is a header of 24 bytes.  The
    sizes left in the two parts differ: [firstfit] keeps the block in the
    first part, the others in the second. *)
Definition corta (first : bool) (atual t : Z) : M arena Z :=
  orig ← tam atual;
  let aux := atual + HSZ * (orig - t) in
  set_ant aux atual ;;
  n ← prox atual;
  set_prox aux n ;;
  set_prox atual aux ;;
  (if first : bool then set_tam atual (-1 * t) ;; set_tam aux (orig - t - HSZ)
   else set_tam atual (orig - t - HSZ) ;; set_tam aux (-1 * t)) ;;
  n ← prox aux;
  (if negb (n =? 0) then set_ant n aux else mret tt) ;;
  modify (set_arnext aux) ;;
  mret (aux + HSZ).

Fixpoint firstfit_loop (fuel : nat) (atual t : Z) : M arena Z :=
  match fuel with
  | O => spins
  | S fuel =>
      if atual =? 0 then mret 0 else
      x ← tam atual;
      if t + HSZ <=? x then corta true atual t
      else n ← prox atual; firstfit_loop fuel n t
  end.

Definition firstfit (fuel : nat) (t : Z) : M arena Z := l ← gets ar_list; firstfit_loop fuel l t.

Fixpoint bestfit_loop (fuel : nat) (atual t menor ptr : Z) : M arena (Z * Z) :=
  match fuel with
  | O => spins
  | S fuel =>
      if atual =? 0 then mret (menor, ptr) else
      x ← tam atual;
      n ← prox atual;
      if (t + HSZ <=? x) && (x <=? menor) then bestfit_loop fuel n t x atual
      else bestfit_loop fuel n t menor ptr
  end.

Definition bestfit (fuel : nat) (t : Z) : M arena Z :=
  l ← gets ar_list;
  r ← bestfit_loop fuel l t memoria_base 0;
  if r.2 =? 0 then mret 0 else
  corta false (if r.1 =? memoria_base then l else r.2) t.

Fixpoint worstfit_loop (fuel : nat) (atual t maior ptr : Z) : M arena (Z * Z) :=
  match fuel with
  | O => spins
  | S fuel =>
      if atual =? 0 then mret (maior, ptr) else
      x ← tam atual;
      n ← prox atual;
      if (t + HSZ <=? x) && (maior <? x) then worstfit_loop fuel n t x atual
      else worstfit_loop fuel n t maior ptr
  end.

(** [ptrMaior] is not initialised, and is read only when it was set. *)
Definition worstfit (fuel : nat) (t : Z) : M arena Z :=
  l ← gets ar_list;
  r ← worstfit_loop fuel l t 0 0;
  if r.1 =? 0 then mret 0 else corta false r.2 t.

Fixpoint nextfit_loop (fuel : nat) (atual t : Z) : M arena Z :=
  match fuel with
  | O => spins
  | S fuel =>
      x ← tam atual;
      if t + HSZ <=? x then corta false atual t else
      n ← prox atual;
      l ← gets ar_list;
      let atual := if n =? 0 then l else n in
      p ← gets ar_next;
      if atual =? p then mret 0 else nextfit_loop fuel atual t
  end.

Definition nextfit (fuel : nat) (t : Z) : M arena Z := p ← gets ar_next; nextfit_loop fuel p t.

(** Another method prints an error and returns nothing: [None]. *)
Definition meu_aloca_metodo (fuel : nat) (metodo t : Z) : M arena (option Z) :=
  if metodo =? 1 then r ← firstfit fuel t; mret (Some r)
  else if metodo =? 2 then r ← bestfit fuel t; mret (Some r)
  else if metodo =? 3 then r ← worstfit fuel t; mret (Some r)
  else if metodo =? 4 then r ← nextfit fuel t; mret (Some r)
  else mret None.

Definition meu_libera (fuel : nat) (ponteiro : Z) : M arena unit :=
  if ponteiro =? 0 then mret tt else
  let atual := ponteiro - HSZ in
  t ← tam atual;
  set_tam atual (mod_ t) ;;
  merge fuel.

(** The totals mostra_mem prints: the free and the used memory. *)
Fixpoint mostra_loop (fuel : nat) (atual livre ocupada i : Z) : M arena (Z * Z) :=
  match fuel with
  | O => spins
  | S fuel =>
      if atual =? 0 then mret (livre, ocupada + HSZ * (i - 1)) else
      t ← tam atual;
      n ← prox atual;
      if 0 <=? t then mostra_loop fuel n (livre + t) ocupada (i + 1)
      else mostra_loop fuel n livre (ocupada + mod_ t) (i + 1)
  end.

Definition mostra_mem (fuel : nat) : M arena (Z * Z) := l ← gets ar_list; mostra_loop fuel l 0 0 0.

End MeuAlloc.

(** ** Headers in memory *)

Definition gtam (m : mem) (a : Z) : Z := i32 (load32 m a).
Definition gp1 (m : mem) (a : Z) : Z := load64 m (a + 8).
Definition gp2 (m : mem) (a : Z) : Z := load64 m (a + 16).

Definition is_u64 (x : Z) : Prop := 0 ≤ x < 18446744073709551616.
Definition is_i32 (x : Z) : Prop := -2147483648 ≤ x < 2147483648.

(** Two headers that are one, or do not overlap. *)
Definition sep (a b : Z) : Prop := a = b ∨ a + HSZ ≤ b ∨ b + HSZ ≤ a.

Lemma load64_eq m a v : is_u64 v → load64 (store64 m a v) a = v.
Proof.
  unfold is_u64, load64, store64. intros H. rewrite load_store32_eq by (unfold is_u32; zdm).
  rewrite load_store32_ne, load_store32_eq by (lia || apply u32_range). unfold u32. zdm.
Qed.

Lemma load64_ext m m' a : (∀ x, a ≤ x < a + 8 → m x = m' x) → load64 m a = load64 m' a.
Proof. intros H. unfold load64. by rewrite (load32_ext m m' a), (load32_ext m m' (a + 4)) by (intros; apply H; lia). Qed.

Lemma store64_out m a v x : ¬ (a ≤ x < a + 8) → store64 m a v x = m x.
Proof. intros. unfold store64. by rewrite !store32_out by lia. Qed.

(** Reads of the fields of b after a write to a field of a. *)
Section fields.
Context (m : mem) (a b v : Z).
Hypothesis Hs : sep a b.

Lemma gtam_tam : is_i32 v → gtam (store32 m a (u32 v)) b = if b =? a then v else gtam m b.
Proof using Hs.
  intros Hv. unfold gtam. destruct (Z.eqb_spec b a) as [->|Hne].
  - rewrite load_store32_eq by apply u32_range. unfold is_i32, i32, u32 in *. repeat case_if; zdm.
  - f_equal. apply load_store32_ne. unfold sep, HSZ in *. lia.
Qed.
Lemma gtam_p1 : gtam (store64 m (a + 8) v) b = gtam m b.
Proof using Hs. unfold gtam. f_equal. apply load32_ext. intros. apply store64_out. unfold sep, HSZ in *. lia. Qed.
Lemma gtam_p2 : gtam (store64 m (a + 16) v) b = gtam m b.
Proof using Hs. unfold gtam. f_equal. apply load32_ext. intros. apply store64_out. unfold sep, HSZ in *. lia. Qed.
Lemma gp1_tam : gp1 (store32 m a (u32 v)) b = gp1 m b.
Proof using Hs. apply load64_ext. intros. apply store32_out. unfold sep, HSZ in *. lia. Qed.
Lemma gp1_p1 : is_u64 v → gp1 (store64 m (a + 8) v) b = if b =? a then v else gp1 m b.
Proof using Hs.
  intros Hv. unfold gp1. destruct (Z.eqb_spec b a) as [->|Hne]; [by apply load64_eq|].
  apply load64_ext. intros. apply store64_out. unfold sep, HSZ in *. lia.
Qed.
Lemma gp1_p2 : gp1 (store64 m (a + 16) v) b = gp1 m b.
Proof using Hs. apply load64_ext. intros. apply store64_out. unfold sep, HSZ in *. lia. Qed.
Lemma gp2_tam : gp2 (store32 m a (u32 v)) b = gp2 m b.
Proof using Hs. apply load64_ext. intros. apply store32_out. unfold sep, HSZ in *. lia. Qed.
Lemma gp2_p1 : gp2 (store64 m (a + 8) v) b = gp2 m b.
Proof using Hs. apply load64_ext. intros. apply store64_out. unfold sep, HSZ in *. lia. Qed.
Lemma gp2_p2 : is_u64 v → gp2 (store64 m (a + 16) v) b = if b =? a then v else gp2 m b.
Proof using Hs.
  intros Hv. unfold gp2. destruct (Z.eqb_spec b a) as [->|Hne]; [by apply load64_eq|].
  apply load64_ext. intros. apply store64_out. unfold sep, HSZ in *. lia.
Qed.
End fields.

(** [fields] solves the side conditions by arithmetic. *)
Ltac fields_lia := unfold sep, is_u64, is_i32, HSZ in *; lia.
Ltac fields :=
  repeat first
    [ rewrite gtam_tam by fields_lia | rewrite gtam_p1 by fields_lia | rewrite gtam_p2 by fields_lia
    | rewrite gp1_tam by fields_lia | rewrite gp1_p1 by fields_lia | rewrite gp1_p2 by fields_lia
    | rewrite gp2_tam by fields_lia | rewrite gp2_p1 by fields_lia | rewrite gp2_p2 by fields_lia ].

Section access.
Context (a v : Z) (s : arena).
Hypothesis Hin : inside a s = true.

Lemma wp_tam (Q : Z → arena → Prop) : Q (gtam (ar_mem s) a) s → wp (tam a) Q s.
Proof using Hin. intros H. unfold wp, tam, access. by rewrite Hin. Qed.
Lemma wp_ptr1 (Q : Z → arena → Prop) : Q (gp1 (ar_mem s) a) s → wp (ptr1 a) Q s.
Proof using Hin. intros H. unfold wp, ptr1, access. by rewrite Hin. Qed.
Lemma wp_ptr2 (Q : Z → arena → Prop) : Q (gp2 (ar_mem s) a) s → wp (ptr2 a) Q s.
Proof using Hin. intros H. unfold wp, ptr2, access. by rewrite Hin. Qed.
Lemma wp_set_tam (Q : unit → arena → Prop) :
  Q tt (set_armem (store32 (ar_mem s) a (u32 v)) s) → wp (set_tam a v) Q s.
Proof using Hin. intros H. unfold wp, set_tam, access. by rewrite Hin. Qed.
Lemma wp_set_ptr1 (Q : unit → arena → Prop) :
  Q tt (set_armem (store64 (ar_mem s) (a + 8) v) s) → wp (set_ptr1 a v) Q s.
Proof using Hin. intros H. unfold wp, set_ptr1, access. by rewrite Hin. Qed.
Lemma wp_set_ptr2 (Q : unit → arena → Prop) :
  Q tt (set_armem (store64 (ar_mem s) (a + 16) v) s) → wp (set_ptr2 a v) Q s.
Proof using Hin. intros H. unfold wp, set_ptr2, access. by rewrite Hin. Qed.
End access.

(** One access of a program; the headers accessed are inside by [done]. *)
Ltac astep :=
  lazymatch goal with
  | |- wp (mbind _ _) _ _ => apply wp_bind
  | |- wp (mret _) _ _ => apply wp_ret
  | |- wp (gets _) _ _ => apply wp_gets
  | |- wp (modify _) _ _ => apply wp_modify
  | |- wp (tam _) _ _ => apply wp_tam; [done|]
  | |- wp (ptr1 _) _ _ => apply wp_ptr1; [done|]
  | |- wp (ptr2 _) _ _ => apply wp_ptr2; [done|]
  | |- wp (set_tam _ _) _ _ => apply wp_set_tam; [done|]
  | |- wp (set_ptr1 _ _) _ _ => apply wp_set_ptr1; [done|]
  | |- wp (set_ptr2 _ _) _ _ => apply wp_set_ptr2; [done|]
  end; cbn [ar_mem ar_base ar_len ar_list ar_next set_armem].

(** ** Lists of headers: addresses and sizes, linked both ways *)

Section chain.
Context (nx pv : mem → Z → Z).

Fixpoint chain (m : mem) (before p : Z) (l : list (Z * Z)) : Prop :=
  match l with
  | [] => p = 0
  | (a, t) :: r => p = a ∧ a ≠ 0 ∧ gtam m a = t ∧ pv m a = before ∧ chain m a (nx m a) r
  end.

(** The same links with other sizes. *)
Lemma chain_retag m m' before p l l' :
  l'.*1 = l.*1 → (∀ a t, (a, t) ∈ l' → gtam m' a = t) →
  (∀ a, a ∈ l.*1 → nx m' a = nx m a ∧ pv m' a = pv m a) →
  chain m before p l → chain m' before p l'.
Proof.
  revert before p l'. induction l as [|[a t] l IH]; intros before p [|[a' t'] l'] He Ht H; try done.
  simpl in He. injection He as -> He. simpl. intros (-> & Ha & _ & Hp & Hc).
  destruct (H a) as (H2 & H3); [set_solver|]. rewrite H2, H3. split_and!; try done; [apply Ht; set_solver|].
  apply IH; try done; [intros; apply Ht; set_solver|intros; apply H; set_solver].
Qed.

Lemma chain_tam m before p l a t : chain m before p l → (a, t) ∈ l → gtam m a = t.
Proof.
  revert before p. induction l as [|[b u] l IH]; intros before p; [by intros _ ?%not_elem_of_nil|].
  intros (_ & _ & Hu & _ & Hc) [[= -> ->]|Hi]%elem_of_cons; [done|by eapply IH].
Qed.

Lemma chain_same m m' before p l :
  (∀ a, a ∈ l.*1 → gtam m' a = gtam m a ∧ nx m' a = nx m a ∧ pv m' a = pv m a) →
  chain m before p l → chain m' before p l.
Proof.
  intros H Hc. apply (chain_retag m m' before p l); try done; [|intros a Ha; by apply H].
  intros a t Hi. rewrite (proj1 (H a ltac:(apply list_elem_of_fmap; by exists (a, t)))). by eapply chain_tam.
Qed.

(** A common first part. *)
Lemma chain_prefix m m' pre r r' before p :
  (∀ a, a ∈ pre.*1 → gtam m' a = gtam m a ∧ nx m' a = nx m a ∧ pv m' a = pv m a) →
  (∀ before' p', chain m before' p' r → chain m' before' p' r') →
  chain m before p (pre ++ r) → chain m' before p (pre ++ r').
Proof.
  revert before p. induction pre as [|[a t] pre IH]; intros before p H Hr; simpl; [apply Hr|].
  intros (-> & Ha & Ht & Hp & Hc). destruct (H a) as (H1 & H2 & H3); [set_solver|].
  rewrite H1, H2, H3. split_and!; try done. apply IH; try done. intros b Hb. apply H. set_solver.
Qed.
End chain.

(** ** memory_management_unity.c: allocation and release *)

Module UnityFacts.
Import Unity.

Definition uchain := chain gp1 gp2.

(** The list l, all of it inside the region, headers apart. *)
Record heap (s : arena) (l : list (Z * Z)) : Prop := {
  hp_base : 0 < ar_base s;
  hp_end : ar_base s + ar_len s < 18446744073709551616;
  hp_in b : b ∈ l.*1 → inside b s = true;
  hp_nodup : NoDup l.*1;
  hp_sep b c : b ∈ l.*1 → c ∈ l.*1 → sep b c;
  hp_chain : uchain (ar_mem s) 0 (ar_list s) l;
}.

(** A block that meu_aloca passes over. *)
Definition skips (size : Z) (x : Z * Z) : Prop := x.2 ≠ size ∧ x.2 ≤ size + HSZ.

Lemma aloca_skips size pre rest f before p s (Q : Z → arena → Prop) :
  uchain (ar_mem s) before p (pre ++ rest) → (∀ b, b ∈ pre.*1 → inside b s = true) →
  Forall (skips size) pre →
  (∀ before' p', uchain (ar_mem s) before' p' rest → wp (aloca_loop f p' size) Q s) →
  wp (aloca_loop (length pre + f) p size) Q s.
Proof.
  intros Hc Hin Hsk HQ. revert before p Hc. induction pre as [|[a t] pre IH]; intros before p Hc; [by eapply HQ|].
  destruct Hc as (-> & Ha & Ht & _ & Hc). apply Forall_cons in Hsk as [[H1 H2] Hsk]. simpl in H1, H2.
  assert (inside a s = true) by (apply Hin; set_solver).
  cbn [length Nat.add aloca_loop]. rewrite (proj2 (Z.eqb_neq a 0)) by done.
  astep. astep. rewrite Ht. rewrite (proj2 (Z.eqb_neq t size)), (proj2 (Z.ltb_ge _ t)) by (done || lia).
  unfold next. astep. astep. eapply IH; [|done|exact Hc]. intros b Hb. apply Hin. set_solver.
Qed.

(** No block fits: NULL, and nothing changes. *)
Theorem aloca_null s l size fuel :
  heap s l → Forall (skips size) l → (length l < fuel)%nat →
  wp (meu_aloca fuel size) (λ r s', r = 0 ∧ s' = s) s.
Proof.
  intros H Hsk Hf. unfold meu_aloca. astep. astep.
  replace fuel with (length l + S (fuel - length l - 1))%nat by lia.
  eapply (aloca_skips size l [] _ 0); rewrite ?app_nil_r; [apply H|apply H|done|].
  intros before p ->. cbn [aloca_loop]. simpl. by apply wp_ret.
Qed.

(** A block of the same size: it is taken as it is. *)
Theorem aloca_exact s pre a post size fuel :
  heap s (pre ++ (a, size) :: post) → Forall (skips size) pre → 0 < size < 2147483648 → (length pre < fuel)%nat →
  wp (meu_aloca fuel size) (λ r s', r = a + HSZ ∧ heap s' (pre ++ (a, - size) :: post)) s.
Proof.
  intros H Hsk Hsz Hf. unfold meu_aloca. astep. astep.
  replace fuel with (length pre + S (fuel - length pre - 1))%nat by lia.
  eapply (aloca_skips size pre _ _ 0); [apply H|intros b Hb; apply (hp_in _ _ H); rewrite fmap_app; set_solver|done|].
  intros before p (-> & Ha & Ht & _ & _).
  assert (inside a s = true) as Hin by (apply (hp_in _ _ H); rewrite fmap_app; set_solver).
  cbn [aloca_loop]. rewrite (proj2 (Z.eqb_neq a 0)) by done. do 2 astep. rewrite Ht, Z.eqb_refl. do 3 astep.
  split; [done|]. destruct H as [H1 H2 H3 Hnd H4 H5].
  assert ((pre ++ (a, - size) :: post).*1 = (pre ++ (a, size) :: post).*1) as He by (rewrite !fmap_app; done).
  assert (∀ b, b ∈ (pre ++ (a, size) :: post).*1 → sep a b) as Hs by (intros b Hb; apply H4; [rewrite fmap_app; set_solver|done]).
  split; cbn [ar_mem ar_base ar_len ar_list ar_next set_armem]; rewrite ?He; try done.
  eapply chain_retag; [exact He| |intros b Hb; specialize (Hs b Hb); by fields|exact H5].
  intros b u Hb. assert (b ∈ (pre ++ (a, size) :: post).*1) as Hb' by (rewrite <-He; apply list_elem_of_fmap; by exists (b, u)).
  specialize (Hs b Hb'). rewrite gtam_tam by fields_lia. destruct (Z.eqb_spec b a) as [->|Hne].
  - rewrite fmap_app in Hnd. apply NoDup_app in Hnd as (_ & Hd & [Hnp _]%NoDup_cons).
    apply elem_of_app in Hb as [Hb|[[= ->]|Hb]%elem_of_cons]; [|done|].
    + exfalso. apply (Hd a); [apply list_elem_of_fmap; by exists (a, u)|set_solver].
    + exfalso. apply Hnp, list_elem_of_fmap. by exists (a, u).
  - eapply chain_tam; [exact H5|]. set_solver.
Qed.

(** Room in the hole (a, t) for a block of [size] bytes and its header after
    the header of the hole itself, and no other header there. *)
Definition room (s : arena) (l : list (Z * Z)) (a t size : Z) : Prop :=
  size + 2 * HSZ ≤ t < 2147483648 ∧ a + t ≤ ar_base s + ar_len s ∧
  ∀ b, b ∈ l.*1 → b = a ∨ b + HSZ ≤ a ∨ a + t ≤ b.

(** The state after [corta_hole]: [p] is the header after the hole, or 0. *)
Definition cortado (m : mem) (a t size p : Z) : mem :=
  let x := a + t - size - HSZ in
  let m := store32 m x (u32 (- size)) in
  let m := store64 m (x + 8) p in
  let m := store64 m (x + 16) a in
  let m := store64 m (a + 8) x in
  let m := store32 m a (u32 (t - size - HSZ)) in
  if p =? 0 then m else store64 m (p + 16) x.

Lemma inside_range a s : inside a s = true ↔ ar_base s ≤ a ∧ a + HSZ ≤ ar_base s + ar_len s.
Proof. unfold inside. rewrite andb_true_iff, !Z.leb_le. done. Qed.

Section cut.
Context (s : arena) (l : list (Z * Z)) (a t size : Z).
Hypothesis Hh : heap s l.
Hypothesis Ha : (a, t) ∈ l.
Hypothesis Hr : room s l a t size.
Hypothesis Hsz : 0 < size.

Let p := gp1 (ar_mem s) a.
Let x := a + t - size - HSZ.

Lemma a_in : a ∈ l.*1.
Proof using Ha. apply list_elem_of_fmap. by exists (a, t). Qed.

Lemma x_inside : inside x s = true.
Proof using All.
  pose proof (hp_in _ _ Hh a a_in) as H. apply inside_range in H. apply inside_range.
  destruct Hr as ((?&?)&?&_). unfold x, HSZ in *. lia.
Qed.

Lemma x_sep b : b ∈ l.*1 → b + HSZ ≤ x ∨ x + HSZ ≤ b.
Proof using All.
  intros Hb. destruct Hr as ((?&?)&?&H). destruct (H b Hb) as [-> | [?|?]]; unfold x, HSZ in *; lia.
Qed.

Lemma wp_corta_hole (Q : Z → arena → Prop) : (p = 0 ∨ p ∈ l.*1) →
  Q (x + HSZ) (set_armem (cortado (ar_mem s) a t size p) s) → wp (corta_hole a size) Q s.
Proof using All.
  intros Hp HQ. pose proof (hp_in _ _ Hh a a_in) as Hin. pose proof x_inside as Hx.
  pose proof (x_sep a a_in) as Hsa.
  pose proof (chain_tam _ _ _ _ _ _ _ _ (hp_chain _ _ Hh) Ha) as Ht.
  apply inside_range in Hin as Hin'. apply inside_range in Hx as Hx'. pose proof (hp_base _ _ Hh).
  pose proof (hp_end _ _ Hh). destruct Hr as ((?&?)&?&_).
  unfold corta_hole, next, set_next, set_prev. do 4 astep. rewrite Ht. fold p x.
  do 10 astep. match goal with |- context [gtam ?m a] => replace (gtam m a) with t end.
  2:{ fields. destruct (Z.eqb_spec a x); [unfold HSZ in *; lia|done]. }
  do 2 astep. apply wp_bind.
  unfold cortado in HQ. fold x in HQ. destruct (Z.eqb_spec p 0) as [E|E]; simpl.
  - astep. astep. exact HQ.
  - assert (inside p s = true) by (apply (hp_in _ _ Hh); naive_solver). do 2 astep. exact HQ.
Qed.

Lemma cut_facts :
  0 < a ∧ a + HSZ ≤ x ∧ x + HSZ < 18446744073709551616 ∧ is_i32 (- size) ∧ is_i32 (t - size - HSZ).
Proof using All.
  pose proof x_inside as H1. pose proof (hp_in _ _ Hh a a_in) as H2. apply inside_range in H1, H2.
  pose proof (hp_base _ _ Hh). pose proof (hp_end _ _ Hh). destruct Hr as ((?&?)&?&_).
  unfold x, is_i32, HSZ in *. lia.
Qed.

(** The fields after the cut, at the headers of the list and at the new one. *)
Lemma cortado_fields b : (p = 0 ∨ p ∈ l.*1) → b = x ∨ b ∈ l.*1 → is_u64 p →
  let m1 := cortado (ar_mem s) a t size p in
  gtam m1 b = (if b =? x then - size else if b =? a then t - size - HSZ else gtam (ar_mem s) b) ∧
  gp1 m1 b = (if b =? x then p else if b =? a then x else gp1 (ar_mem s) b) ∧
  gp2 m1 b = (if b =? x then a else if negb (p =? 0) && (b =? p) then x else gp2 (ar_mem s) b).
Proof using All.
  intros Hp Hb Hpu m1. pose proof cut_facts as (H1 & H2 & H3 & H4 & H5).
  assert (sep x b ∧ sep a b ∧ (p ≠ 0 → sep p b ∧ sep p x)) as (S1 & S2 & S3).
  { pose proof a_in as Ai. split_and!.
    - destruct Hb as [-> |Hb]; [by left|]. pose proof (x_sep b Hb). unfold sep. lia.
    - destruct Hb as [-> |Hb]; [unfold sep; lia|]. by apply (hp_sep _ _ Hh).
    - intros Hp0. destruct Hp as [Hp|Hp]; [done|]. pose proof (x_sep p Hp).
      split; [|unfold sep; lia]. destruct Hb as [-> |Hb]; [unfold sep; lia|]. by apply (hp_sep _ _ Hh). }
  assert (a ≠ x) as Hax by (unfold HSZ in *; lia).
  unfold m1, cortado. fold x. destruct (Z.eqb_spec p 0) as [E|E]; cbn [negb andb].
  - split_and!; fields; destruct (Z.eqb_spec b a), (Z.eqb_spec b x); congruence.
  - specialize (S3 E) as [S3 S4].
    split_and!; fields; destruct (Z.eqb_spec b a), (Z.eqb_spec b x), (Z.eqb_spec b p); try congruence.
    exfalso. destruct Hp as [Hp|Hp]; [done|]. pose proof (x_sep _ Hp). unfold HSZ in *. lia.
Qed.

(** Releasing the block again, next to a block in use or at the end. *)
Lemma wp_junta_next c q s1 (Q : unit → arena → Prop) :
  (q ≠ 0 → inside q s1 = true ∧ gtam (ar_mem s1) q ≤ 0) → Q tt s1 → wp (junta_next c q) Q s1.
Proof using.
  intros Hq HQ. unfold junta_next. destruct (Z.eqb_spec q 0) as [E|E]; [by astep|].
  destruct (Hq E) as [Hi Ht]. do 2 astep. rewrite (proj2 (Z.ltb_ge 0 _)) by done. by astep.
Qed.

Lemma wp_desaloca (Q : unit → arena → Prop) :
  (p = 0 ∨ p ∈ l.*1) → is_u64 p → (p ≠ 0 → p ≠ a ∧ gtam (ar_mem s) p ≤ 0 ∧ gp2 (ar_mem s) p = a) →
  (∀ m', (∀ b, b ∈ l.*1 → gtam m' b = gtam (ar_mem s) b ∧ gp1 m' b = gp1 (ar_mem s) b ∧ gp2 m' b = gp2 (ar_mem s) b) →
     Q tt (set_armem m' s)) →
  wp (meu_desaloca (x + HSZ)) Q (set_armem (cortado (ar_mem s) a t size p) s).
Proof using All.
  intros Hp Hpu Hpn HQ. pose proof cut_facts as (H1 & H2 & H3 & H4 & H5).
  pose proof (λ b Hb, cortado_fields b Hp Hb Hpu) as Hf. cbv zeta in Hf.
  set (m1 := cortado (ar_mem s) a t size p) in *. clearbody m1.
  pose proof (Hf x ltac:(by left)) as (F1 & F2 & F3). rewrite Z.eqb_refl in F1, F2, F3.
  pose proof (Hf a ltac:(right; exact a_in)) as (G1 & _ & _).
  assert (a ≠ x) as Hax by (unfold HSZ in *; lia).
  rewrite (proj2 (Z.eqb_neq a x)), Z.eqb_refl in G1 by done.
  pose proof x_inside as Hx. pose proof (hp_in _ _ Hh a a_in) as Hin.
  pose proof (chain_tam _ _ _ _ _ _ _ _ (hp_chain _ _ Hh) Ha) as Ht.
  destruct Hr as ((R1 & R2) & R3 & _). assert (sep x a) by (unfold sep; lia). assert (sep a x) by (unfold sep; lia).
  unfold meu_desaloca, next, prev, set_next, set_prev. replace (x + HSZ - HSZ) with x by lia.
  do 8 astep. rewrite F1, F2, F3, Z.opp_involutive.
  apply wp_bind, wp_junta_next; cbn [ar_mem set_armem].
  { intros E. assert (p ∈ l.*1) as Hpi by naive_solver. split; [by apply (hp_in _ _ Hh)|].
    destruct (Hpn E) as (Hpa & Hneg & _). pose proof (x_sep p Hpi) as Hsp.
    destruct (Hf p ltac:(by right)) as (K & _). rewrite gtam_tam by fields_lia.
    rewrite K, (proj2 (Z.eqb_neq p x)), (proj2 (Z.eqb_neq p a)) by (done || unfold HSZ in *; lia). done. }
  unfold junta_prev. rewrite (proj2 (Z.eqb_neq a 0)) by lia.
  do 2 astep. fields. rewrite (proj2 (Z.eqb_neq a x)), G1, (proj2 (Z.ltb_lt 0 _)) by (done || unfold HSZ in *; lia).
  do 2 astep. fields. rewrite Z.eqb_refl. replace (t - size - HSZ + size + HSZ) with t by lia.
  unfold next, set_next, set_prev. do 4 astep. fields. rewrite F2.
  do 4 astep. fields. rewrite (proj2 (Z.eqb_neq x a)), F2 by done.
  pose proof a_in as Ai.
  assert (∀ b, b ∈ l.*1 → sep a b ∧ sep x b ∧ (p ≠ 0 → sep p b)) as Hsep.
  { intros b Hb. pose proof (x_sep b Hb). split_and!; [by apply (hp_sep _ _ Hh)|unfold sep; lia|].
    intros E. apply (hp_sep _ _ Hh); naive_solver. }
  destruct (Z.eqb_spec p 0) as [E|E].
  - astep. apply HQ. intros b Hb. destruct (Hsep b Hb) as (S1 & S2 & _). pose proof (x_sep b Hb).
    destruct (Hf b ltac:(by right)) as (K1 & K2 & K3). rewrite (proj2 (Z.eqb_neq b x)) in K1, K2, K3 by (unfold HSZ in *; lia).
    split_and!; fields; rewrite ?K1, ?K2, ?K3, ?(proj2 (Z.eqb_neq b x)) by (unfold HSZ in *; lia);
      destruct (Z.eqb_spec b a) as [->|]; try done.
    all: rewrite E; done.
  - assert (p ∈ l.*1) as Hpi by naive_solver. assert (inside p s = true) by (by apply (hp_in _ _ Hh)).
    destruct (Hpn E) as (Hpa & _ & Hpp).
    astep. apply HQ. intros b Hb. destruct (Hsep b Hb) as (S1 & S2 & S3). specialize (S3 E). pose proof (x_sep b Hb).
    destruct (Hf b ltac:(by right)) as (K1 & K2 & K3). rewrite (proj2 (Z.eqb_neq b x)) in K1, K2, K3 by (unfold HSZ in *; lia).
    cbn [negb andb] in K3.
    split_and!; fields; rewrite ?K1, ?K2, ?K3, ?(proj2 (Z.eqb_neq b x)) by (unfold HSZ in *; lia).
    + destruct (Z.eqb_spec b a) as [->|]; done.
    + destruct (Z.eqb_spec b a) as [->|]; done.
    + destruct (Z.eqb_spec b p) as [->|]; done.
Qed.
End cut.

(** In a list, the header after (a, t). *)
Lemma chain_after m pre a t post before q :
  uchain m before q (pre ++ (a, t) :: post) → uchain m a (gp1 m a) post.
Proof.
  revert before q. induction pre as [|[b u] pre IH]; intros before q; simpl; [|by intros (_ & _ & _ & _ & ?%IH)].
  by intros (_ & _ & _ & _ & H).
Qed.

Lemma u64_load m a : mem_ok m → is_u64 (load64 m a).
Proof.
  intros H. unfold is_u64, load64. pose proof (load32_range m a H). pose proof (load32_range m (a + 4) H).
  unfold is_u32 in *. lia.
Qed.

Section hole.
Context (s : arena) (pre post : list (Z * Z)) (a t size : Z).
Let l := pre ++ (a, t) :: post.
Hypothesis Hok : mem_ok (ar_mem s).
Hypothesis Hh : heap s l.
Hypothesis Hr : room s l a t size.
Hypothesis Hsz : 0 < size.

Let p := gp1 (ar_mem s) a.
Let x := a + t - size - HSZ.

Lemma hole_in : (a, t) ∈ l.
Proof using. unfold l. apply elem_of_app. right. left. Qed.

Lemma p_cases : (p = 0 ∧ post = []) ∨ (p ≠ 0 ∧ p ≠ a ∧ p ∈ l.*1 ∧ gp2 (ar_mem s) p = a ∧
  ∃ u post', post = (p, u) :: post' ∧ gtam (ar_mem s) p = u).
Proof using All.
  pose proof (hp_nodup _ _ Hh) as Hnd. pose proof (chain_after _ _ _ _ _ _ _ (hp_chain _ _ Hh)) as Hc. fold p in Hc.
  destruct post as [|[b u] post']; [by left|]. right. destruct Hc as (Hb & Hb0 & Hu & Hp & _). rewrite Hb.
  unfold l in *. rewrite fmap_app in *. apply NoDup_app in Hnd as (_ & _ & [Hn _]%NoDup_cons). simpl in Hn.
  split_and!; try done; [set_solver|set_solver|eauto].
Qed.

Lemma p_list : p = 0 ∨ p ∈ l.*1.
Proof using All. destruct p_cases as [[? _]|(_ & _ & ? & _)]; auto. Qed.

(** The chain with the new block after the hole. *)
Lemma cut_chain : uchain (cortado (ar_mem s) a t size p) 0 (ar_list s)
  (pre ++ (a, t - size - HSZ) :: (x, - size) :: post).
Proof using All.
  pose proof (λ b Hb, cortado_fields s l a t size Hh hole_in Hr Hsz b p_list Hb (u64_load _ _ Hok)) as Hf. cbv zeta in Hf.
  fold p x in Hf. set (m1 := cortado (ar_mem s) a t size p) in *. clearbody m1.
  pose proof (cut_facts s l a t size Hh hole_in Hr Hsz) as (H1 & H2 & H3 & _ & _). fold x in H2, H3.
  pose proof (λ b, x_sep s l a t size Hh hole_in Hr Hsz b) as Hxs. fold x in Hxs.
  assert (∀ b, b ∈ l.*1 → (b =? x) = false) as Hbx.
  { intros b Hb. apply Z.eqb_neq. specialize (Hxs b Hb). unfold HSZ in *. lia. }
  pose proof (hp_nodup _ _ Hh) as Hnd. pose proof (hp_chain _ _ Hh) as Hc. pose proof p_cases as Hp.
  (* the headers of pre and of the tail keep their fields *)
  assert (∀ b, b ∈ l.*1 → b ≠ a → b ≠ p ∨ p = 0 →
    gtam m1 b = gtam (ar_mem s) b ∧ gp1 m1 b = gp1 (ar_mem s) b ∧ gp2 m1 b = gp2 (ar_mem s) b) as Hkeep.
  { intros b Hb Hba Hbp. destruct (Hf b ltac:(by right)) as (K1 & K2 & K3). rewrite Hbx in K1, K2, K3 by done.
    rewrite (proj2 (Z.eqb_neq b a)) in K1, K2 by done. split_and!; try done. rewrite K3.
    destruct Hbp as [Hbp| ->]; [|done]. by rewrite (proj2 (Z.eqb_neq b p)), andb_false_r by done. }
  unfold l in *. rewrite fmap_app in *. simpl in Hnd.
  apply NoDup_app in Hnd as (Hnd1 & Hnd2 & [Hna Hnd3]%NoDup_cons).
  assert (uchain m1 x p post) as Htail.
  { destruct Hp as [[-> ->]|(Hp0 & Hpa & Hpl & Hpp & u & post' & -> & Hu)]; [done|].
    destruct (Hf p ltac:(by right)) as (K1 & K2 & K3). rewrite Hbx in K1, K2, K3 by done.
    rewrite (proj2 (Z.eqb_neq p a)) in K1, K2 by done. rewrite (proj2 (Z.eqb_neq p 0)), Z.eqb_refl in K3 by done.
    apply chain_after in Hc. fold p in Hc. destruct Hc as (_ & _ & _ & _ & Hc).
    simpl in Hnd3. apply NoDup_cons in Hnd3 as [Hnp _].
    simpl. split_and!; try done; [congruence|]. rewrite K2. eapply chain_same; [|exact Hc].
    intros b Hb. apply Hkeep; [set_solver|set_solver|left; set_solver]. }
  eapply chain_prefix; [|clear Hc|exact Hc].
  - intros b Hb. apply Hkeep; [set_solver|set_solver|]. destruct Hp as [[? _]|(_ & _ & _ & _ & u & post' & -> & _)]; [by right|].
    left. intros ->. apply (Hnd2 p); set_solver.
  - intros before q (-> & Ha0 & _ & Hb & _).
    assert (a ∈ pre.*1 ++ a :: post.*1) as Ai by set_solver.
    destruct (Hf a ltac:(by right)) as (K1 & K2 & K3). rewrite Hbx in K1, K2, K3 by done. rewrite Z.eqb_refl in K1, K2.
    destruct (Hf x ltac:(by left)) as (L1 & L2 & L3). rewrite Z.eqb_refl in L1, L2, L3.
    assert (negb (p =? 0) && (a =? p) = false) as E.
    { destruct Hp as [[-> _]|(_ & Hpa & _)]; [done|]. by rewrite (proj2 (Z.eqb_neq a p)), andb_false_r by done. }
    rewrite E in K3. simpl. rewrite K2, L2. split_and!; try done; [congruence|unfold HSZ in *; lia].
Qed.

(** meu_aloca, up to the cut. *)
Lemma wp_aloca_corta fuel (Q : Z → arena → Prop) :
  Forall (skips size) pre → (length pre < fuel)%nat →
  Q (x + HSZ) (set_armem (cortado (ar_mem s) a t size p) s) → wp (meu_aloca fuel size) Q s.
Proof using All.
  intros Hsk Hf HQ. unfold meu_aloca. astep. astep.
  replace fuel with (length pre + S (fuel - length pre - 1))%nat by lia.
  eapply (aloca_skips size pre _ _ 0); [apply (hp_chain _ _ Hh)| |done|].
  { intros b Hb. apply (hp_in _ _ Hh). unfold l. rewrite fmap_app. set_solver. }
  intros before q (-> & Ha & Ht & _ & _).
  assert (inside a s = true) as Hin by (apply (hp_in _ _ Hh); apply (a_in l a t hole_in)).
  cbn [aloca_loop]. rewrite (proj2 (Z.eqb_neq a 0)) by done. do 2 astep. rewrite Ht.
  destruct Hr as ((R1 & R2) & _). rewrite (proj2 (Z.eqb_neq t size)), (proj2 (Z.ltb_lt _ t)) by (unfold HSZ in *; lia).
  apply (wp_corta_hole s l a t size Hh hole_in Hr Hsz); [exact p_list|exact HQ].
Qed.
End hole.

(** A larger hole: its last [size] bytes become a block of their own, whose
    payload lies inside the hole and meets no header. *)
Theorem aloca_corta s pre a t post size fuel :
  let l := pre ++ (a, t) :: post in
  let x := a + t - size - HSZ in
  mem_ok (ar_mem s) → heap s l → room s l a t size → 0 < size → Forall (skips size) pre → (length pre < fuel)%nat →
  wp (meu_aloca fuel size) (λ r s', r = x + HSZ ∧ heap s' (pre ++ (a, t - size - HSZ) :: (x, - size) :: post) ∧
    (∀ b, b ∈ x :: l.*1 → b + HSZ ≤ r ∨ r + size ≤ b)) s.
Proof.
  intros l x Hok Hh Hr Hsz Hsk Hf. apply (wp_aloca_corta s pre post a t size Hok Hh Hr Hsz fuel); [done..|].
  fold x. split; [done|].
  pose proof (λ b, x_sep s l a t size Hh (hole_in _ _ _ _) Hr Hsz b) as Hxs. fold x in Hxs.
  pose proof (x_inside s l a t size Hh (hole_in _ _ _ _) Hr Hsz) as Hxi. fold x in Hxi.
  set (l' := pre ++ (a, t - size - HSZ) :: (x, - size) :: post).
  assert (∀ b, b ∈ l'.*1 ↔ b = x ∨ b ∈ l.*1) as Hel.
  { intros b. unfold l, l'. rewrite !fmap_app. simpl. set_solver. }
  assert (x ∉ l.*1) as Hxn by (intros Hx; specialize (Hxs x Hx); unfold HSZ in *; lia).
  split.
  - pose proof (cut_chain s pre post a t size Hok Hh Hr Hsz) as Hc.
    destruct Hh as [H1 H2 H3 H4 H5 H6]. split; cbn [ar_mem ar_base ar_len ar_list set_armem]; try done.
    + intros b [-> |Hb]%Hel; [exact Hxi|by apply H3].
    + unfold l, l' in *. rewrite fmap_app in *. cbn [fmap list_fmap] in *. simpl in *.
      apply NoDup_app in H4 as (N1 & N2 & [N3 N4]%NoDup_cons). apply NoDup_app. split_and!; [done|set_solver|].
      apply NoDup_cons. split; [set_solver|]. apply NoDup_cons. split; [set_solver|done].
    + intros b c Hb%Hel Hc'%Hel. unfold sep.
      destruct Hb as [-> |Hb], Hc' as [-> |Hc']; [by left|specialize (Hxs c Hc'); lia|specialize (Hxs b Hb); lia|by apply H5].
  - intros b [-> |Hb]%elem_of_cons; [unfold HSZ in *; lia|].
    destruct Hr as (? & _ & Hr). unfold x, HSZ in *. destruct (Hr b Hb) as [-> |]; lia.
Qed.

(** [C34] Allocation and release are inverse.  On any list in which the first
    block that serves the request is a hole with room for the block, its header
    and the hole's own, and no hole follows it, allocating and then releasing
    the block gives the list of blocks back: the same headers, links and sizes. *)
Theorem aloca_desaloca s pre a t post size fuel :
  let l := pre ++ (a, t) :: post in
  mem_ok (ar_mem s) → heap s l → room s l a t size → 0 < size → Forall (skips size) pre → (length pre < fuel)%nat →
  (∀ q, head post = Some q → q.2 ≤ 0) →
  wp (r ← meu_aloca fuel size; meu_desaloca r) (λ _ s', heap s' l) s.
Proof.
  intros l Hok Hh Hr Hsz Hsk Hf Hq. apply wp_bind.
  apply (wp_aloca_corta s pre post a t size Hok Hh Hr Hsz fuel); [done..|].
  apply (wp_desaloca s l a t size Hh (hole_in _ _ _ _) Hr Hsz).
  - exact (p_list s pre post a t size Hok Hh Hr Hsz).
  - by apply u64_load.
  - intros Hp. destruct (p_cases s pre post a t size Hok Hh Hr Hsz) as [[? _]|(_ & ? & _ & ? & u & post' & -> & Hu)]; [done|].
    split_and!; try done. rewrite Hu. by apply (Hq _ eq_refl).
  - intros m' Hm. destruct Hh as [H1 H2 H3 H4 H5 H6]. split; try done. cbn [ar_mem ar_list set_armem].
    eapply chain_same; [|exact H6]. exact Hm.
Qed.

Lemma store64_ok m a v : mem_ok m → mem_ok (store64 m a v).
Proof. intros. unfold store64. by repeat apply store32_ok. Qed.

(** inicializa_memoria makes one hole of the whole region. *)
Theorem inicializa_heap size p s :
  mem_ok (ar_mem s) → 0 < p → p + tamanho size < 18446744073709551616 → 0 ≤ size < 2147483648 →
  wp (inicializa_memoria size p) (λ _ s', heap s' [(p, tamanho size - HSZ)] ∧ mem_ok (ar_mem s') ∧
    ar_base s' = p ∧ ar_len s' = tamanho size) s.
Proof.
  intros Hok Hp He Hs. unfold inicializa_memoria, set_next, set_prev.
  assert (HSZ ≤ tamanho size < 2147483648 + HSZ) as Ht by (unfold tamanho, HSZ; case_if; lia).
  astep. astep. set (s0 := mkArena _ _ _ _ _).
  assert (inside p s0 = true) as Hi by (apply inside_range; simpl; lia).
  do 5 astep. assert (sep p p) by (by left).
  split_and!; try done.
  - split; cbn [ar_mem ar_base ar_len ar_list set_armem]; try done.
    + by intros b ->%list_elem_of_singleton.
    + apply NoDup_singleton.
    + by intros b c ->%list_elem_of_singleton ->%list_elem_of_singleton.
    + unfold s0; cbn [ar_mem ar_list]. simpl. fields. rewrite Z.eqb_refl. split_and!; try done; lia.
  - unfold s0; cbn [ar_mem ar_list set_armem]. by apply store64_ok, store64_ok, store32_ok.
Qed.

(** A region of 200 bytes at 4096, and a block of 30 bytes. *)
Definition arena0 : arena := mkArena (λ _, 0) 0 0 0 0.

Lemma aloca_desaloca_witness :
  wp (inicializa_memoria 200 4096 ;; r ← meu_aloca 1 30; meu_desaloca r) (λ _ s', heap s' [(4096, 176)]) arena0.
Proof.
  apply wp_bind. eapply wp_mono; [apply inicializa_heap; [intros ?; unfold is_u8; simpl; lia|lia|by vm_compute|lia]|].
  intros _ s (Hh & Hok & Hb & Hl).
  apply (aloca_desaloca s [] 4096 176 [] 30 1).
  - exact Hok.
  - exact Hh.
  - split; [unfold HSZ; lia|]. split; [rewrite Hb, Hl; unfold tamanho, HSZ; simpl; lia|].
    intros b ->%list_elem_of_singleton. by left.
  - lia.
  - constructor.
  - simpl. lia.
  - intros q [=].
Defined.

(** What a cut leaves of the hole is counted 24 bytes too long: a request for
    just that size is served with a payload that ends where the payload of
    the first block starts, so it covers that block's header. *)
Theorem aloca_sobrepoe s pre a t post size fuel :
  let l := pre ++ (a, t) :: post in
  let rest := t - size - HSZ in
  mem_ok (ar_mem s) → heap s l → room s l a t size → 0 < size →
  Forall (skips size) pre → Forall (skips rest) pre → (length pre < fuel)%nat →
  wp (r ← meu_aloca fuel size; q ← meu_aloca fuel rest; mret (r, q))
    (λ x _, x.2 + HSZ ≤ x.1 ∧ x.2 + rest = x.1) s.
Proof.
  intros l rest Hok Hh Hr Hsz Hsk Hsk2 Hf. apply wp_bind.
  eapply wp_mono; [by apply (aloca_corta s pre a t post size fuel)|].
  intros r s1 (-> & Hh1 & _). apply wp_bind. destruct Hr as ((R1 & R2) & _).
  eapply wp_mono; [apply (aloca_exact s1 pre a _ rest fuel Hh1); [done|unfold rest, HSZ in *; lia|done]|].
  intros q s2 (-> & _). astep. simpl. unfold rest, HSZ in *. lia.
Qed.
End UnityFacts.

(** ** meu_alloc.c *)

Module MeuAllocFacts.
Import MeuAlloc.

(** The first allocation, by any of the four methods, writes its header at
    24 * (1024 - t) bytes from the start of the region: outside of it unless
    t is at least 983. *)
Lemma inicializa_run p s : 0 < p → p + memoria_base < 18446744073709551616 →
  wp (inicializa_mem p) (λ _ s', ar_base s' = p ∧ ar_len s' = memoria_base ∧ ar_list s' = p ∧ ar_next s' = p ∧
    inside p s' = true ∧ gtam (ar_mem s') p = memoria_base ∧ gp1 (ar_mem s') p = 0 ∧ gp2 (ar_mem s') p = 0) s.
Proof.
  intros Hp He. unfold inicializa_mem, set_ant, set_prox. astep. astep. set (s0 := mkArena _ _ _ _ _).
  assert (inside p s0 = true) as Hi by (apply UnityFacts.inside_range; unfold s0, memoria_base, HSZ; simpl; lia).
  do 6 astep. astep. assert (sep p p) by (by left). unfold memoria_base in *.
  split_and!; try done; cbn [ar_mem set_arnext set_armem]; fields; by rewrite ?Z.eqb_refl.
Qed.

Lemma corta_fault b p t s : inside p s = true → inside (p + HSZ * (gtam (ar_mem s) p - t)) s = false →
  corta b p t s = Fault.
Proof.
  intros Hi Ho. unfold corta, mbind, M_bind, tam, set_ant, set_ptr1, access. rewrite Hi. cbv beta iota zeta.
  fold (gtam (ar_mem s) p). by rewrite Ho.
Qed.

Theorem primeira_alocacao p metodo t fuel s :
  0 < p → p + memoria_base < 18446744073709551616 → 1 ≤ metodo ≤ 4 → 0 ≤ t < 983 → (1 < fuel)%nat →
  (inicializa_mem p ;; meu_aloca_metodo fuel metodo t) s = Fault.
Proof.
  intros Hp He Hm Ht Hf. pose proof (inicializa_run p s Hp He) as Hi. unfold wp in Hi.
  unfold mbind at 1, M_bind at 1. destruct (inicializa_mem p s) as [u s1| | | |]; try done.
  destruct Hi as (H1 & H2 & H3 & H4 & H5 & H6 & H7 & H8).
  assert (∀ b, corta b p t s1 = Fault) as Hc.
  { intros b. apply corta_fault; [done|]. rewrite H6. unfold inside. rewrite H1, H2. unfold memoria_base, HSZ.
    rewrite (proj2 (Z.leb_le p _)) by lia. apply Z.leb_gt. lia. }
  destruct fuel as [|[|fuel]]; [lia..|].
  assert (tam p s1 = Ret memoria_base s1) as Htam.
  { unfold tam, access. rewrite H5. fold (gtam (ar_mem s1) p). by rewrite H6. }
  assert (prox p s1 = Ret 0 s1) as Hprox.
  { unfold prox, ptr2, access. rewrite H5. fold (gp2 (ar_mem s1) p). by rewrite H8. }
  assert ((t + HSZ <=? memoria_base) = true) as Hle by (apply Z.leb_le; unfold memoria_base, HSZ; lia).
  assert ((p =? 0) = false) as Hp0 by (apply Z.eqb_neq; lia).
  assert (metodo = 1 ∨ metodo = 2 ∨ metodo = 3 ∨ metodo = 4) as [-> | [-> | [-> | ->]]] by lia;
    unfold meu_aloca_metodo; cbn [Z.eqb Pos.eqb].
  - unfold firstfit, mbind, M_bind, gets. rewrite H3. cbn [firstfit_loop]. rewrite Hp0.
    unfold mbind, M_bind. rewrite Htam, Hle, Hc. done.
  - unfold bestfit, mbind, M_bind, gets. rewrite H3. cbn [bestfit_loop]. rewrite Hp0.
    unfold mbind, M_bind. rewrite Htam, Hprox, Hle. simpl. rewrite Hp0. rewrite Hc. done.
  - unfold worstfit, mbind, M_bind, gets. rewrite H3. cbn [worstfit_loop]. rewrite Hp0.
    unfold mbind, M_bind. rewrite Htam, Hprox, Hle. simpl. rewrite Hc. done.
  - unfold nextfit, mbind, M_bind, gets. rewrite H4. cbn [nextfit_loop].
    unfold mbind, M_bind. rewrite Htam, Hle, Hc. done.
Qed.

(** ** merge *)

Definition mchain := chain gp2 gp1.

(** Neighbouring holes become one. *)
Fixpoint coalesce (l : list (Z * Z)) : list (Z * Z) :=
  match l with
  | [] => []
  | (a, t) :: r =>
      match coalesce r with
      | (b, u) :: r' => if (0 <=? t) && (0 <=? u) then (a, t + HSZ + u) :: r' else (a, t) :: (b, u) :: r'
      | [] => [(a, t)]
      end
  end.

(** The bytes a list describes, headers included. *)
Definition total (l : list (Z * Z)) : Z := foldr (λ x n, Z.abs x.2 + HSZ + n) 0 l.

Fixpoint no_neighbours (l : list (Z * Z)) : Prop :=
  match l with
  | (_, t) :: ((_, u) :: _) as r => (t < 0 ∨ u < 0) ∧ no_neighbours r
  | _ => True
  end.

Lemma coalesce_head a t r : ∃ u r', coalesce ((a, t) :: r) = (a, u) :: r' ∧ (t < 0 → u = t).
Proof.
  simpl. destruct (coalesce r) as [|[b v] r']; [by exists t, []|].
  destruct (Z.leb_spec 0 t); simpl; [|by exists t, ((b, v) :: r')].
  destruct (0 <=? v); eexists _, _; (split; [done|lia]).
Qed.

Lemma coalesce_merge a t b u r : 0 ≤ t → 0 ≤ u →
  coalesce ((a, t) :: (b, u) :: r) = coalesce ((a, t + HSZ + u) :: r).
Proof.
  intros Ht Hu. simpl. rewrite (proj2 (Z.leb_le 0 (t + HSZ + u))) by (unfold HSZ; lia).
  rewrite (proj2 (Z.leb_le 0 u)) by done.
  destruct (coalesce r) as [|[c v] r'].
  - rewrite !(proj2 (Z.leb_le 0 _)) by done. done.
  - destruct (Z.leb_spec 0 v); cbn [andb]; rewrite !(proj2 (Z.leb_le 0 _)) by (unfold HSZ in *; lia); [|done].
    cbn [andb]. f_equal. f_equal. lia.
Qed.

Lemma coalesce_total l : total (coalesce l) = total l.
Proof.
  induction l as [|[a t] l IH]; [done|]. simpl. rewrite <-IH.
  destruct (coalesce l) as [|[b u] r']; [done|].
  destruct (Z.leb_spec 0 t), (Z.leb_spec 0 u); simpl; unfold HSZ; lia.
Qed.

Lemma coalesce_no_neighbours l : no_neighbours (coalesce l).
Proof.
  induction l as [|[a t] l IH]; [done|]. simpl. destruct (coalesce l) as [|[b u] r']; [done|].
  destruct (Z.leb_spec 0 t), (Z.leb_spec 0 u); simpl; try (split; [lia|exact IH]).
  destruct r' as [|[c v] r'']; [done|]. destruct IH as [? ?]. split; [lia|done].
Qed.

(** What a pass over l needs of the memory. *)
Record mheap (s : arena) (l : list (Z * Z)) : Prop := {
  mh_base : 0 < ar_base s;
  mh_end : ar_base s + ar_len s < 18446744073709551616;
  mh_in b : b ∈ l.*1 → inside b s = true;
  mh_nodup : NoDup l.*1;
  mh_sep b c : b ∈ l.*1 → c ∈ l.*1 → sep b c;
  mh_total : total l < 2147483648;
}.

Lemma mheap_sub s l k : mheap s l → k.*1 ⊆ l.*1 → NoDup k.*1 → total k ≤ total l → mheap s k.
Proof. intros [H1 H2 H3 H4 H5 H6] Hk Hn Ht. split; auto; lia. Qed.

Lemma mheap_mem s l m : mheap s l → mheap (set_armem m s) l.
Proof. intros [H1 H2 H3 H4 H5 H6]. split; done. Qed.

Lemma total_pos l : 0 ≤ total l.
Proof. induction l as [|[a t] l IH]; simpl; unfold HSZ in *; lia. Qed.

(** The fields of the headers apart from those of l. *)
Definition frame (m m' : mem) (l : list Z) : Prop :=
  ∀ b, (∀ c, c ∈ l → b + HSZ ≤ c ∨ c + HSZ ≤ b) →
    gtam m' b = gtam m b ∧ gp1 m' b = gp1 m b ∧ gp2 m' b = gp2 m b.

(** The memory after one merge of a with b: [c] is the header after b, or 0. *)
Definition fundido (m : mem) (a v c : Z) : mem :=
  let m := store64 m (a + 16) c in
  let m := store32 m a (u32 v) in
  if c =? 0 then m else store64 m (c + 8) a.

Lemma header_range s l b : mheap s l → b ∈ l.*1 → 0 < b ∧ is_u64 b.
Proof.
  intros H Hb. pose proof (mh_in _ _ H b Hb) as Hi. apply UnityFacts.inside_range in Hi.
  pose proof (mh_base _ _ H). pose proof (mh_end _ _ H). unfold is_u64, HSZ in *. lia.
Qed.

Lemma fundido_chain s before a t b u r :
  let m := ar_mem s in
  let m1 := fundido m a (t + HSZ + u) (gp2 m b) in
  mheap s ((a, t) :: (b, u) :: r) → mchain m before a ((a, t) :: (b, u) :: r) → 0 ≤ t → 0 ≤ u →
  mchain m1 before a ((a, t + HSZ + u) :: r) ∧ frame m m1 (a :: r.*1).
Proof.
  intros m m1 Hm (_ & Ha & Ht0 & Hp & Hc) Ht Hu. destruct Hc as (_ & Hb & _ & _ & Hc). set (c := gp2 m b) in *.
  pose proof (header_range _ _ a Hm ltac:(set_solver)) as [Ha0 Hau]. destruct Hm as [H1 H2 H3 H4 H5 H6].
  pose proof (total_pos r). simpl in H6. assert (is_i32 (t + HSZ + u)) as Hi by (unfold is_i32, HSZ in *; lia).
  assert (sep a a) by (by left). unfold m1, fundido.
  destruct r as [|[d v] r].
  - simpl in Hc. rewrite Hc. change (0 =? 0) with true. cbv iota. split.
    + simpl. fields. rewrite !Z.eqb_refl. done.
    + intros x Hx. specialize (Hx a ltac:(set_solver)). assert (sep a x) by (unfold sep; lia).
      fields. rewrite !(proj2 (Z.eqb_neq x a)) by (unfold HSZ in *; lia). done.
  - destruct Hc as (Hcd & Hd & Hv & _ & Hc). rewrite Hcd in *. rewrite (proj2 (Z.eqb_neq d 0)) by done.
    apply NoDup_cons in H4 as [Na [Nb [Nd _]%NoDup_cons]%NoDup_cons].
    assert (sep a d ∧ sep d a ∧ sep d d) as (S1 & S2 & S3) by (split_and!; apply H5; set_solver).
    assert (a ≠ d) as Had by set_solver. assert (is_u64 d) as Hdu.
    { pose proof (H3 d ltac:(set_solver)) as Hi'. apply UnityFacts.inside_range in Hi'. unfold is_u64, HSZ in *. lia. }
    split.
    + simpl. fields. rewrite !Z.eqb_refl, ?(proj2 (Z.eqb_neq a d)), ?(proj2 (Z.eqb_neq d a)) by done.
      split_and!; try done. eapply chain_same; [|exact Hc]. intros x Hx.
      assert (sep a x ∧ sep d x) as [? ?] by (split; apply H5; set_solver).
      assert (x ≠ a ∧ x ≠ d) as [? ?] by (split; set_solver).
      fields. rewrite ?(proj2 (Z.eqb_neq x a)), ?(proj2 (Z.eqb_neq x d)) by done. done.
    + intros x Hx. pose proof (Hx a ltac:(set_solver)). pose proof (Hx d ltac:(set_solver)).
      assert (sep a x ∧ sep d x) as [? ?] by (unfold sep; lia).
      fields. rewrite !(proj2 (Z.eqb_neq x a)), !(proj2 (Z.eqb_neq x d)) by (unfold HSZ in *; lia). done.
Qed.

(** One round on two holes is [fundido]. *)
Lemma wp_merge_round f s before a t b u r (Q : unit → arena → Prop) :
  let m := ar_mem s in
  mheap s ((a, t) :: (b, u) :: r) → mchain m before a ((a, t) :: (b, u) :: r) → 0 ≤ t → 0 ≤ u →
  wp (merge_loop f a) Q (set_armem (fundido m a (t + HSZ + u) (gp2 m b)) s) →
  wp (merge_loop (S f) a) Q s.
Proof.
  intros m Hm (_ & Ha & Ht0 & Hp & Hc) Ht Hu HQ. destruct Hc as (Hab & Hb & Hub & _ & Hc). fold m in Ht0, Hub, Hab.
  set (c := gp2 m b) in *.
  assert (inside a s = true ∧ inside b s = true) as [Ia Ib] by (split; apply (mh_in _ _ Hm); set_solver).
  assert (sep a b) as Sab by (apply (mh_sep _ _ Hm); set_solver).
  assert (a ≠ b) as Hne.
  { pose proof (mh_nodup _ _ Hm) as Hnd. simpl in Hnd. apply NoDup_cons in Hnd as [Hnd _]. set_solver. }
  pose proof (total_pos r). pose proof (mh_total _ _ Hm) as Htot. simpl in Htot.
  assert (is_i32 (t + HSZ + u)) as Hi by (unfold is_i32, HSZ in *; lia).
  assert (c = 0 ∨ c ∈ ((a, t) :: (b, u) :: r).*1) as Hcl.
  { destruct r as [|[d v] r]; [by left|]. destruct Hc as (-> & _). right. set_solver. }
  assert (is_u64 c) as Hcu.
  { destruct Hcl as [-> |Hcl]; [unfold is_u64; lia|]. by apply (header_range _ _ _ Hm). }
  assert (sep a a) by (by left). pose proof (Z.eqb_neq b a) as [_ Eba]. specialize (Eba ltac:(done)).
  cbn [merge_loop]. rewrite (proj2 (Z.eqb_neq a 0)) by done. unfold prox, set_prox, set_ant.
  do 2 astep. fold m. rewrite Ht0, (proj2 (Z.leb_le 0 t)) by done.
  do 2 astep. fold m. rewrite Hab, (proj2 (Z.eqb_neq b 0)) by done. cbn [negb].
  do 2 astep. fold m. rewrite Hub, (proj2 (Z.leb_le 0 u)) by done.
  do 4 astep. fold m c. do 4 astep. fields. rewrite Ht0, Hub. do 4 astep. fields. rewrite Eba. fold c.
  apply wp_bind. unfold fundido in HQ. destruct (Z.eqb_spec c 0) as [E|E]; cbn [negb].
  - astep. exact HQ.
  - assert (inside c s = true) by (apply (mh_in _ _ Hm); naive_solver). astep. exact HQ.
Qed.

(** A block in use, or one before a block in use, is passed over. *)
Lemma wp_merge_skip f s before a t b u r (Q : unit → arena → Prop) :
  mheap s ((a, t) :: (b, u) :: r) → mchain (ar_mem s) before a ((a, t) :: (b, u) :: r) → t < 0 ∨ u < 0 →
  wp (merge_loop f b) Q s → wp (merge_loop (S f) a) Q s.
Proof.
  intros Hm (_ & Ha & Ht & _ & Hb & Hb0 & Hu & _) Htu HQ.
  assert (inside a s = true ∧ inside b s = true) as [Ia Ib] by (split; apply (mh_in _ _ Hm); set_solver).
  cbn [merge_loop]. rewrite (proj2 (Z.eqb_neq a 0)) by done. unfold prox.
  do 2 astep. rewrite Ht. destruct (Z.leb_spec 0 t).
  - do 2 astep. rewrite Hb, (proj2 (Z.eqb_neq b 0)) by done. cbn [negb]. do 2 astep.
    rewrite Hu, (proj2 (Z.leb_gt 0 u)) by lia. do 2 astep. by rewrite Hb.
  - do 2 astep. by rewrite Hb.
Qed.

Lemma merge_loop_spec n l f s before a t :
  length l = n → (n < f)%nat →
  mheap s ((a, t) :: l) → mchain (ar_mem s) before a ((a, t) :: l) →
  wp (merge_loop (S f) a) (λ _ s', ∃ m', s' = set_armem m' s ∧
    mchain m' before a (coalesce ((a, t) :: l)) ∧ frame (ar_mem s) m' (a :: l.*1)) s.
Proof.
  revert l f s before a t. induction n as [|n IH]; intros l f s before a t Hn Hf Hm Hc.
  all: assert (inside a s = true) as Ia by (apply (mh_in _ _ Hm); set_solver).
  - destruct l; [|done]. destruct Hc as (_ & Ha & Ht & Hp & H0).
    assert (wp (merge_loop (S f) a) (λ _ s', s' = s) s) as H.
    { cbn [merge_loop]. rewrite (proj2 (Z.eqb_neq a 0)) by done. unfold prox. do 2 astep. case_if.
      - do 2 astep. rewrite H0. simpl. by astep.
      - do 2 astep. rewrite H0. destruct f; [lia|]. simpl. by astep. }
    eapply wp_mono; [exact H|]. intros _ s' ->. exists (ar_mem s). split_and!; [by destruct s|done|by intros b _].
  - destruct l as [|[b u] r]; [done|]. injection Hn as Hn. pose proof (mh_nodup _ _ Hm) as Hnd.
    simpl in Hnd. apply NoDup_cons in Hnd as [Hna Hnd].
    destruct (decide (0 ≤ t ∧ 0 ≤ u)) as [[Ht Hu]|Hno].
    + eapply (wp_merge_round _ _ before); [done..|].
      destruct (fundido_chain s before a t b u r Hm Hc Ht Hu) as [Hc1 Hf1].
      set (m1 := fundido _ _ _ _) in *. destruct f as [|f]; [lia|].
      eapply wp_mono; [apply (IH r f (set_armem m1 s) before a (t + HSZ + u)); [done|lia| |exact Hc1]|].
      * apply mheap_mem. eapply mheap_sub; [exact Hm|set_solver| |simpl; unfold HSZ; lia].
        simpl. apply NoDup_cons. apply NoDup_cons in Hnd as [_ Hnd]. split; [set_solver|done].
      * intros _ s' (m' & -> & Hc' & Hf'). exists m'. split_and!; [done| |].
        -- rewrite coalesce_merge by done. exact Hc'.
        -- intros x Hx. destruct (Hf' x) as (E1 & E2 & E3); [set_solver|]. destruct (Hf1 x) as (G1 & G2 & G3); [set_solver|].
           simpl in E1, E2, E3. split_and!; congruence.
    + eapply (wp_merge_skip _ _ before); [done|done|lia|]. destruct Hc as (_ & Ha & Ht & Hp & Hc).
      assert (gp2 (ar_mem s) a = b) as Hb by (by destruct Hc as (-> & _)).
      rewrite Hb in Hc. destruct f as [|f]; [lia|].
      eapply wp_mono; [apply (IH r f s a b u); [done|lia| |exact Hc]|].
      * eapply mheap_sub; [exact Hm|set_solver|done|]. simpl. unfold HSZ. lia.
      * intros _ s' (m' & -> & Hc' & Hf'). exists m'. split; [done|].
        assert (∀ c, c ∈ b :: r.*1 → a + HSZ ≤ c ∨ c + HSZ ≤ a) as Hapart.
        { intros c Hcl. destruct (mh_sep _ _ Hm a c) as [-> |?]; [set_solver|set_solver|set_solver|done]. }
        destruct (Hf' a Hapart) as (E1 & E2 & E3). split.
        -- assert (coalesce ((a, t) :: (b, u) :: r) = (a, t) :: coalesce ((b, u) :: r)) as ->.
           { destruct (coalesce_head b u r) as (w & r' & Ec & Hw). remember ((b, u) :: r) as br.
             simpl. rewrite Ec. destruct (Z.leb_spec 0 t); [|done]. cbn [andb].
             rewrite (proj2 (Z.leb_gt 0 w)); [done|]. rewrite Hw; lia. }
           simpl. rewrite E1, E2, E3, Hb. done.
        -- intros x Hx. apply Hf'. set_solver.
Qed.

(** merge makes one hole of every run of neighbouring holes: no two are left
    side by side, no memory is lost, and it returns after one round per block. *)
Theorem merge_spec s l fuel :
  mheap s l → mchain (ar_mem s) 0 (ar_list s) l → (length l < fuel)%nat →
  wp (merge fuel) (λ _ s', mchain (ar_mem s') 0 (ar_list s') (coalesce l) ∧
    no_neighbours (coalesce l) ∧ total (coalesce l) = total l) s.
Proof.
  intros Hm Hc Hf. unfold merge. astep. astep.
  pose proof (conj (coalesce_no_neighbours l) (coalesce_total l)) as Hl.
  destruct l as [|[a t] l].
  - simpl in Hc. rewrite Hc. destruct fuel; [simpl in Hf; lia|]. simpl. astep. done.
  - pose proof Hc as [-> _]. destruct fuel as [|fuel]; [simpl in Hf; lia|]. simpl in Hf.
    eapply wp_mono; [apply (merge_loop_spec (length l) l fuel s 0 a t); [done|lia|done|by destruct Hc as (<- & ?)]|].
    intros _ s' (m' & -> & Hc' & _). split; [|done]. cbn [ar_mem ar_list set_armem]. by destruct Hc as (-> & _).
Qed.

(** When the first block lies inside the region, firstfit returns the payload
    of the part it left free, not of the part it marked as used. *)
Example firstfit_livre :
  ∃ s, (inicializa_mem 4096 ;; firstfit 2 990) UnityFacts.arena0 = Ret 4936 s ∧
    gtam (ar_mem s) (4936 - HSZ) = 10 ∧ gtam (ar_mem s) 4096 = -990.
Proof.
  destruct ((inicializa_mem 4096 ;; firstfit 2 990) UnityFacts.arena0) as [r s| | | |] eqn:E; vm_compute in E; try done.
  injection E as <- <-. eexists. split_and!; [reflexivity|vm_compute; reflexivity..].
Qed.
End MeuAllocFacts.
