(* ===== verification/Mkern.v ===== *)
(** * A multitasking kernel for DOS (mkern0/mkern0.c)

    The scheduler, sleeping and semaphores.  mkern0.h is not part of the
    repository: the number of tasks, the size of struct int_regs and the
    macros FP_SEG and FP_OFF of dos.h are arguments.  The clock handler of
    DOS, which int8_task_switch calls first, does not touch the tables.
    [cur_ss] and [cur_sp] are the registers _SS and _SP; the task that runs
    is the one whose stack they select.  A semaphore is named by its address.
    The video routines, which only write the screen, are not modelled. *)

From S2P Require Import Prelude Kernel.
From stdpp Require Import gmap.
Local Open Scope Z_scope.

(** int is 16 bits wide under DOS. *)
Definition i16 (x : Z) : Z := let y := x mod 65536 in if y <? 32768 then y else y - 65536.

Inductive task_state := READY | RUNNING | BLOCKED | SUSPENDED | SLEEPING | DEAD.

#[export] Instance task_state_eq_dec : EqDecision task_state.
Proof. solve_decision. Defined.

Record task := mkTask {
  t_sp : Z;
  t_ss : Z;
  t_status : task_state;
  t_pending : Z;
  t_sleep : Z;
  t_stck : Z;
}.

(** The registers a new task is started with. *)
Record int_regs := mkRegs { r_cs : Z; r_ip : Z; r_ds : Z; r_es : Z; r_flags : Z }.

Record kern := mkKern {
  tasks : list task;
  tswitch : nat;
  tasking : bool;
  single_task : bool;
  semval : gmap Z Z;
  cur_ss : Z;
  cur_sp : Z;
  oldss : Z;
  oldsp : Z;
  hooked : bool;        (* vector 8 is int8_task_switch *)
  frames : list (Z * int_regs);   (* the frames make_task has written *)
}.

Definition k_status (x : task_state) (t : task) : task :=
  mkTask (t_sp t) (t_ss t) x (t_pending t) (t_sleep t) (t_stck t).
Definition k_stack (ss sp : Z) (t : task) : task :=
  mkTask sp ss (t_status t) (t_pending t) (t_sleep t) (t_stck t).
Definition k_pending (x : Z) (t : task) : task :=
  mkTask (t_sp t) (t_ss t) (t_status t) x (t_sleep t) (t_stck t).
Definition k_sleep (x : Z) (t : task) : task :=
  mkTask (t_sp t) (t_ss t) (t_status t) (t_pending t) x (t_stck t).
Definition k_stck (x : Z) (t : task) : task :=
  mkTask (t_sp t) (t_ss t) (t_status t) (t_pending t) (t_sleep t) x.

Definition set_tasks (x : list task) (k : kern) : kern :=
  mkKern x (tswitch k) (tasking k) (single_task k) (semval k) (cur_ss k) (cur_sp k) (oldss k) (oldsp k) (hooked k) (frames k).
Definition set_tswitch (x : nat) (k : kern) : kern :=
  mkKern (tasks k) x (tasking k) (single_task k) (semval k) (cur_ss k) (cur_sp k) (oldss k) (oldsp k) (hooked k) (frames k).
Definition set_tasking (x : bool) (k : kern) : kern :=
  mkKern (tasks k) (tswitch k) x (single_task k) (semval k) (cur_ss k) (cur_sp k) (oldss k) (oldsp k) (hooked k) (frames k).
Definition set_single (x : bool) (k : kern) : kern :=
  mkKern (tasks k) (tswitch k) (tasking k) x (semval k) (cur_ss k) (cur_sp k) (oldss k) (oldsp k) (hooked k) (frames k).
Definition set_sem (s : Z) (x : Z) (k : kern) : kern :=
  mkKern (tasks k) (tswitch k) (tasking k) (single_task k) (<[s := x]> (semval k)) (cur_ss k) (cur_sp k) (oldss k) (oldsp k) (hooked k) (frames k).
Definition set_regs (ss sp : Z) (k : kern) : kern :=
  mkKern (tasks k) (tswitch k) (tasking k) (single_task k) (semval k) ss sp (oldss k) (oldsp k) (hooked k) (frames k).
Definition set_hooked (x : bool) (k : kern) : kern :=
  mkKern (tasks k) (tswitch k) (tasking k) (single_task k) (semval k) (cur_ss k) (cur_sp k) (oldss k) (oldsp k) x (frames k).
Definition set_old (ss sp : Z) (k : kern) : kern :=
  mkKern (tasks k) (tswitch k) (tasking k) (single_task k) (semval k) (cur_ss k) (cur_sp k) ss sp (hooked k) (frames k).

Definition add_frame (a : Z) (r : int_regs) (k : kern) : kern :=
  mkKern (tasks k) (tswitch k) (tasking k) (single_task k) (semval k) (cur_ss k) (cur_sp k) (oldss k) (oldsp k) (hooked k) ((a, r) :: frames k).

Definition gett (i : nat) : M kern task := o ← gets (λ k, tasks k !! i); deref o.
Definition updt (i : nat) (f : task → task) : M kern unit :=
  t ← gett i; modify (λ k, set_tasks (<[i := f t]> (tasks k)) k).

Section mkern.
Context (NUM_TASKS : nat) (SIZE_REGS : Z) (FP_SEG FP_OFF : Z → Z).

Definition is_ready (t : task) : bool := bool_decide (t_status t = READY).

(** 1 when no task is READY. *)
Definition all_dead (k : kern) : bool := negb (existsb is_ready (tasks k)).

Definition tick (t : task) : task :=
  if bool_decide (t_status t = SLEEPING) then
    let t := k_sleep (i16 (t_sleep t - 1)) t in
    if t_sleep t =? 0 then k_status READY t else t
  else t.
Definition check_sleepers : M kern unit := modify (λ k, set_tasks (tick <$> tasks k) k).

Definition free_all : M kern unit := modify (λ k, set_tasks (k_stck 0 <$> tasks k) k).

Definition next_task (i : nat) : nat := if (S i =? NUM_TASKS)%nat then 0%nat else S i.

(** The while loop: the first READY task from [i] on. *)
Fixpoint find_ready (fuel : nat) (i : nat) : M kern nat :=
  match fuel with
  | O => fault
  | S fuel => t ← gett i; if is_ready t then mret i else find_ready fuel (next_task i)
  end.

(** What both switches do after the clock has been looked at. *)
Definition stop : M kern unit :=
  modify (λ k, set_regs (oldss k) (oldsp k) k) ;;
  modify (set_hooked false) ;;
  free_all.
Definition save_current : M kern unit :=
  cur ← gets tswitch;
  ss ← gets cur_ss;
  sp ← gets cur_sp;
  updt cur (k_stack ss sp) ;;
  t ← gett cur;
  if bool_decide (t_status t = RUNNING) then updt cur (k_status READY) else mret tt.
Definition choose : M kern unit :=
  dead ← gets all_dead;
  (if (dead : bool) then modify (set_tasking false) else mret tt) ;;
  on ← gets tasking;
  if negb on then stop else
  cur ← gets tswitch;
  i ← find_ready NUM_TASKS (next_task cur);
  modify (set_tswitch i) ;;
  t ← gett i;
  modify (set_regs (t_ss t) (t_sp t)) ;;
  updt i (k_status RUNNING).

(** The clock interrupt. *)
Definition int8_task_switch : M kern unit :=
  single ← gets single_task;
  if (single : bool) then mret tt else
  save_current ;;
  check_sleepers ;;
  choose.

Definition task_switch : M kern unit :=
  single ← gets single_task;
  if (single : bool) then mret tt else
  save_current ;;
  choose.

Definition multitask : M kern unit :=
  modify (set_hooked true) ;;
  modify (λ k, set_old (cur_ss k) (cur_sp k) k) ;;
  cur ← gets tswitch;
  t ← gett cur;
  modify (set_regs (t_ss t) (t_sp t)).

(** [a] is what malloc returns, [ds] the register _DS.  The pointer to the
    registers counts in units of struct int_regs.  The id is unsigned. *)
Definition make_task (fn a ds stck : Z) (id : nat) : M kern Z :=
  if (NUM_TASKS <=? id)%nat then mret 0 else
  updt id (k_stck a) ;;
  let r := a + stck * SIZE_REGS - SIZE_REGS * SIZE_REGS in
  updt id (k_stack (FP_SEG r) (FP_OFF r)) ;;
  modify (add_frame r (mkRegs (FP_SEG fn) (FP_OFF fn) ds ds 512)) ;;
  updt id (k_status READY) ;;
  mret 1.

Definition kill_task (id : nat) : M kern unit :=
  updt id (k_status DEAD) ;;
  updt id (k_stck 0) ;;
  task_switch.

Definition init_tasks : M kern unit :=
  modify (λ k, set_tasks ((λ t, k_stck 0 (k_sleep 0 (k_pending 0 (k_status DEAD t)))) <$> tasks k) k).

Definition stop_tasking : M kern unit := modify (set_tasking false) ;; task_switch.
Definition mono_task : M kern unit := modify (set_single true).
Definition resume_tasking : M kern unit := modify (set_single false).

Definition msleep (ticks : Z) : M kern unit :=
  cur ← gets tswitch;
  updt cur (k_status SLEEPING) ;;
  updt cur (k_sleep ticks) ;;
  task_switch.

Definition suspend (id : Z) : M kern unit :=
  if (id <? 0) || (Z.of_nat NUM_TASKS <=? id) then mret tt else
  updt (Z.to_nat id) (k_status SUSPENDED) ;;
  task_switch.

Definition resume (id : Z) : M kern unit :=
  if (id <? 0) || (Z.of_nat NUM_TASKS <=? id) then mret tt else
  updt (Z.to_nat id) (k_status READY).

Definition semblock (id : nat) (sem : Z) : M kern unit :=
  updt id (k_status BLOCKED) ;;
  updt id (k_pending sem).

Definition semv (sem : Z) (k : kern) : Z := default 0 (semval k !! sem).

(** One round of set_semaphore with interrupts off: true when the semaphore
    was free and is taken now, false when the task was blocked and another
    one switched to; it tests again when it is switched back to. *)
Definition set_semaphore (sem : Z) : M kern bool :=
  v ← gets (semv sem);
  if negb (v =? 0) then
    cur ← gets tswitch;
    semblock cur sem ;;
    task_switch ;;
    mret false
  else modify (set_sem sem 1) ;; mret true.

(** The first task that waits for [sem]. *)
Fixpoint first_pending (sem : Z) (l : list task) (i : nat) : option nat :=
  match l with
  | [] => None
  | t :: l => if t_pending t =? sem then Some i else first_pending sem l (S i)
  end.
Definition restart (sem : Z) : M kern unit :=
  o ← gets (λ k, first_pending sem (tasks k) 0);
  match o with
  | None => mret tt
  | Some i =>
      updt i (k_pending 0) ;;
      t ← gett i;
      if bool_decide (t_status t = BLOCKED) then updt i (k_status READY) else mret tt
  end.

Definition clear_semaphore (sem : Z) : M kern unit :=
  cur ← gets tswitch;
  updt cur (k_pending 0) ;;
  modify (set_sem sem 0) ;;
  restart sem ;;
  task_switch.
End mkern.

(** ** The scheduler *)

Section sched.
Context (N : nat).

Lemma next_task_mod i : (i < N)%nat → next_task N i = ((i + 1) mod N)%nat.
Proof.
  intros Hi. unfold next_task. destruct (Nat.eqb_spec (S i) N) as [E|E].
  - replace (i + 1)%nat with N by lia. by rewrite Nat.Div0.mod_same.
  - rewrite Nat.mod_small; lia.
Qed.

Definition ready_at (k : kern) (i : nat) : Prop :=
  ∃ t, tasks k !! i = Some t ∧ t_status t = READY.

Lemma wp_gett i t (Q : task → kern → Prop) k : tasks k !! i = Some t → Q t k → wp (gett i) Q k.
Proof. intros H HQ. unfold gett. wsteps. by eapply wp_deref. Qed.

Lemma wp_updt i t f (Q : unit → kern → Prop) k :
  tasks k !! i = Some t → Q tt (set_tasks (<[i := f t]> (tasks k)) k) → wp (updt i f) Q k.
Proof. intros H HQ. unfold updt. wstep. eapply wp_gett; [done|]. by wstep. Qed.

Lemma wp_find_ready k fuel : length (tasks k) = N → ∀ i (Q : nat → kern → Prop),
  (i < N)%nat → (∃ d, (d < fuel)%nat ∧ ready_at k ((i + d) mod N)) →
  (∀ d, (d < fuel)%nat → ready_at k ((i + d) mod N) →
     (∀ e, (e < d)%nat → ¬ ready_at k ((i + e) mod N)) → Q ((i + d) mod N)%nat k) →
  wp (find_ready N fuel i) Q k.
Proof.
  intros Hlen. induction fuel as [|fuel IH]; intros i Q Hi (d & Hd & Hr) HQ; [lia|].
  cbn [find_ready]. destruct (lookup_lt_is_Some_2 (tasks k) i) as [t Ht]; [lia|].
  wstep. eapply wp_gett; [exact Ht|]. unfold is_ready. case_bool_decide as Es.
  - wstep. replace i with ((i + 0) mod N)%nat by (rewrite Nat.add_0_r, Nat.mod_small; lia).
    apply (HQ 0%nat); [lia| |intros; lia]. rewrite Nat.add_0_r, Nat.mod_small by lia. by exists t.
  - assert (Hn : ¬ ready_at k ((i + 0) mod N)).
    { rewrite Nat.add_0_r, Nat.mod_small by lia. intros (t' & Ht' & ?). congruence. }
    assert (E : ∀ e, ((next_task N i + e) mod N = (i + S e) mod N)%nat).
    { intros e. rewrite next_task_mod by done. rewrite Nat.Div0.add_mod_idemp_l. f_equal. lia. }
    apply IH.
    + rewrite next_task_mod by done. apply Nat.mod_upper_bound. lia.
    + destruct d as [|d]; [done|]. exists d. rewrite E. split; [lia|done].
    + intros e He Hre Hle. rewrite E in *. apply HQ; [lia|done|].
      intros [|e'] He'; [done|]. rewrite <-E. apply Hle. lia.
Qed.

(** A READY task is met within one turn. *)
Lemma ready_within k i j :
  length (tasks k) = N → (i < N)%nat → ready_at k j → ∃ d, (d < N)%nat ∧ ready_at k ((i + d) mod N).
Proof.
  intros Hlen Hi Hj. assert (j < N)%nat as Hlt.
  { destruct Hj as (t & Ht & _). apply lookup_lt_Some in Ht. lia. }
  exists ((j + (N - i)) mod N)%nat. split; [apply Nat.mod_upper_bound; lia|].
  rewrite Nat.Div0.add_mod_idemp_r. replace (i + (j + (N - i)))%nat with (j + 1 * N)%nat by lia.
  rewrite Nat.Div0.mod_add, Nat.mod_small by done. done.
Qed.

(** The current task with its stack saved, READY if it was running. *)
Definition saved (ss sp : Z) (t : task) : task :=
  let t := k_stack ss sp t in if bool_decide (t_status t = RUNNING) then k_status READY t else t.

Lemma wp_save_current k t (Q : unit → kern → Prop) :
  tasks k !! tswitch k = Some t →
  Q tt (set_tasks (<[tswitch k := saved (cur_ss k) (cur_sp k) t]> (tasks k)) k) → wp save_current Q k.
Proof.
  intros Ht HQ. pose proof (lookup_lt_Some _ _ _ Ht) as Hlt.
  unfold save_current. wsteps. eapply wp_updt; [exact Ht|]. wstep.
  eapply wp_gett; [simpl; by apply list_lookup_insert_eq|]. unfold saved in HQ. simpl in *.
  case_bool_decide; [|by wstep].
  eapply wp_updt; [simpl; by apply list_lookup_insert_eq|]. simpl.
  by rewrite list_insert_insert_eq.
Qed.

Lemma all_dead_spec k : all_dead k = true ↔ ∀ i, ¬ ready_at k i.
Proof.
  unfold all_dead. rewrite negb_true_iff, <-not_true_iff_false, existsb_exists. split.
  - intros H i (t & Ht & Hs). apply H. exists t.
    split; [by eapply list_elem_of_In, list_elem_of_lookup_2|by apply bool_decide_eq_true].
  - intros H (t & Hin & Hs). apply list_elem_of_In, list_elem_of_lookup in Hin as [i Hi].
    apply (H i). exists t. split; [done|]. by apply bool_decide_eq_true in Hs.
Qed.

(** The next task in the turn after [i]: [d] steps on. *)
Definition next_ready (k : kern) (i d : nat) : Prop :=
  (1 ≤ d ≤ N)%nat ∧ ready_at k ((i + d) mod N) ∧
  ∀ e, (1 ≤ e < d)%nat → ¬ ready_at k ((i + e) mod N).

Lemma wp_choose k (Q : unit → kern → Prop) :
  length (tasks k) = N → (tswitch k < N)%nat → tasking k = true →
  ((∀ i, ¬ ready_at k i) →
     Q tt (set_tasks (k_stck 0 <$> tasks k) (set_hooked false (set_regs (oldss k) (oldsp k) (set_tasking false k))))) →
  (∀ d t, next_ready k (tswitch k) d → tasks k !! ((tswitch k + d) mod N)%nat = Some t →
     Q tt (set_tasks (<[((tswitch k + d) mod N)%nat := k_status RUNNING t]> (tasks k))
             (set_regs (t_ss t) (t_sp t) (set_tswitch ((tswitch k + d) mod N) k)))) →
  wp (choose N) Q k.
Proof.
  intros Hlen Hcur Hon HN HS. unfold choose. wstep. wstep. wstep.
  destruct (all_dead k) eqn:Ed.
  { wstep. wstep. wstep. simpl. unfold stop, free_all. wsteps. by apply HN, all_dead_spec. }
  wstep. wstep. wstep. rewrite Hon. cbn [negb]. wstep. wstep.
  assert (∃ j, ready_at k j) as [j Hj].
  { unfold all_dead in Ed. apply negb_false_iff, existsb_exists in Ed as (t & Hin & Hs).
    apply list_elem_of_In, list_elem_of_lookup in Hin as [i Hi]. exists i, t.
    split; [done|]. by apply bool_decide_eq_true in Hs. }
  assert (E : ∀ e, ((next_task N (tswitch k) + e) mod N = (tswitch k + S e) mod N)%nat).
  { intros e. rewrite next_task_mod by done. rewrite Nat.Div0.add_mod_idemp_l. f_equal. lia. }
  assert (Hnx : (next_task N (tswitch k) < N)%nat).
  { rewrite next_task_mod by done. apply Nat.mod_upper_bound. lia. }
  wstep. eapply wp_find_ready; [done|done|by eapply ready_within|].
  intros d Hd Hr Hmin. rewrite E in *. pose proof Hr as (t & Ht & Hs). wstep. wstep.
  wstep. eapply wp_gett; [exact Ht|]. wstep. wstep. eapply wp_updt; [exact Ht|].
  apply (HS (S d)); [|done]. split_and!; [lia|lia|done|].
  intros [|e] He; [lia|]. rewrite <-E. apply Hmin. lia.
Qed.
End sched.

(** ** Semaphores *)

Definition awake (t : task) : Prop := t_status t = READY ∨ t_status t = RUNNING.

(** What scheduling may do to a task. *)
Definition mild (t t' : task) : Prop :=
  t_pending t' = t_pending t ∧
  (t_status t' = t_status t ∨ (awake t ∧ awake t') ∨ (t_status t = SLEEPING ∧ awake t')).

Lemma mild_refl t : mild t t.
Proof. split; [done|by left]. Qed.
Lemma mild_trans t1 t2 t3 : mild t1 t2 → mild t2 t3 → mild t1 t3.
Proof.
  unfold mild, awake. intros [E1 H1] [E2 H2]. split; [congruence|].
  destruct H1 as [H1|[[A1 A2]|[S1 A2]]], H2 as [H2|[[B1 B2]|[S2 B2]]];
    rewrite ?H1, ?H2 in *; try (by left); intuition congruence.
Qed.

(** Scheduling: tasks change mildly, semaphores not at all. *)
Definition quietly (k k' : kern) : Prop :=
  Forall2 mild (tasks k) (tasks k') ∧ semval k' = semval k.
Definition keeps {A} (m : M kern A) : Prop := ∀ k a k', m k = Ret a k' → quietly k k'.

Lemma mild_map f l : (∀ t, mild t (f t)) → Forall2 mild l (f <$> l).
Proof. intros Hf. induction l as [|t l IH]; constructor; auto. Qed.

Lemma quietly_refl k : quietly k k.
Proof. split; [|done]. rewrite <-(list_fmap_id (tasks k)) at 2. apply mild_map, mild_refl. Qed.

Lemma mild_list_trans l1 l2 l3 : Forall2 mild l1 l2 → Forall2 mild l2 l3 → Forall2 mild l1 l3.
Proof.
  intros H. revert l3. induction H as [|x y l1 l2 Hxy _ IH]; intros l3 H3; inversion H3; subst;
    constructor; [by eapply mild_trans|by apply IH].
Qed.

Lemma keeps_bind {A B} (m : M kern A) (f : A → M kern B) :
  keeps m → (∀ a, keeps (f a)) → keeps (m ≫= f).
Proof.
  intros Hm Hf k b k' H. unfold mbind, M_bind in H. destruct (m k) as [a k1| | | |] eqn:E; try done.
  destruct (Hm _ _ _ E) as [H1 H2], (Hf a _ _ _ H) as [H3 H4].
  split; [|congruence]. by eapply mild_list_trans.
Qed.
Lemma keeps_ret {A} (a : A) : keeps (mret a).
Proof. intros k b k' [= _ <-]. apply quietly_refl. Qed.
Lemma keeps_gets {A} (f : kern → A) : keeps (gets f).
Proof. intros k b k' [= _ <-]. apply quietly_refl. Qed.
Lemma keeps_modify f : (∀ k, quietly k (f k)) → keeps (modify f).
Proof. intros H k b k' [= _ <-]. apply H. Qed.
Lemma keeps_gett i : keeps (gett i).
Proof.
  intros k b k'. unfold gett, mbind, M_bind, gets, deref. destruct (tasks k !! i); [|done].
  intros [= _ <-]. apply quietly_refl.
Qed.
Lemma keeps_updt i f : (∀ t, mild t (f t)) → keeps (updt i f).
Proof.
  intros Hf k b k'. unfold updt, gett, mbind, M_bind, gets, deref, modify.
  destruct (tasks k !! i) as [t|] eqn:Et; [|done]. intros [= _ <-]. split; [|done]. simpl.
  rewrite <-(list_insert_id (tasks k) i t) at 1 by done.
  apply Forall2_insert; [|by apply Hf]. apply quietly_refl.
Qed.

Lemma mild_same_status t f :
  (∀ t, t_pending (f t) = t_pending t) → (∀ t, t_status (f t) = t_status t) → mild t (f t).
Proof. intros H1 H2. split; [done|by left]. Qed.

Lemma keeps_save : keeps save_current.
Proof.
  unfold save_current. do 3 (apply keeps_bind; [apply keeps_gets|intros]).
  apply keeps_bind; [apply keeps_updt; intros; by apply (mild_same_status _ (k_stack _ _))|intros _].
  intros k b k'. unfold mbind, M_bind at 1. destruct (gett a k) as [t k1| | | |] eqn:Eg; try done.
  intros H. unfold gett, mbind, M_bind, gets, deref in Eg.
  destruct (tasks k !! a) as [t'|] eqn:Et; [|done]. injection Eg as -> <-.
  revert H. case_bool_decide as Es; [|intros H; by apply keeps_ret in H].
  unfold updt, gett, mbind, M_bind, gets, deref, modify. rewrite Et. intros [= _ <-]. split; [|done].
  simpl. rewrite <-(list_insert_id (tasks k) a t) at 1 by done. apply Forall2_insert; [apply quietly_refl|].
  split; [done|]. right. left. split; [by right|by left].
Qed.

Lemma keeps_find N fuel : ∀ i, keeps (find_ready N fuel i).
Proof.
  induction fuel as [|fuel IH]; intros i; cbn [find_ready]; [by intros ? ? ?|].
  apply keeps_bind; [apply keeps_gett|]. intros t. destruct (is_ready t); [apply keeps_ret|apply IH].
Qed.

(** find_ready returns a READY task. *)
Lemma find_ready_ready N fuel k i k' : ∀ j,
  find_ready N fuel j k = Ret i k' → k' = k ∧ ready_at k i.
Proof.
  induction fuel as [|fuel IH]; intros j; cbn [find_ready]; [done|].
  unfold mbind, M_bind, gett, gets, deref. unfold mbind, M_bind.
  destruct (tasks k !! j) as [t|] eqn:Et; [|done]. simpl. unfold is_ready.
  case_bool_decide as Es; [|apply IH]. intros [= <- <-]. split; [done|]. by exists t.
Qed.

Lemma keeps_choose N : keeps (choose N).
Proof.
  unfold choose. apply keeps_bind; [apply keeps_gets|]. intros dead.
  apply keeps_bind; [destruct dead; [apply keeps_modify; intros x; exact (quietly_refl x)|apply keeps_ret]|].
  intros _. apply keeps_bind; [apply keeps_gets|]. intros on. destruct (negb on).
  { unfold stop. apply keeps_bind; [apply keeps_modify; intros x; exact (quietly_refl x)|]. intros _.
    apply keeps_bind; [apply keeps_modify; intros x; exact (quietly_refl x)|]. intros _.
    apply keeps_modify. intros k. split; [|done]. simpl. apply mild_map.
    intros t. by apply (mild_same_status t (k_stck 0)). }
  apply keeps_bind; [apply keeps_gets|]. intros cur k b k' H.
  unfold mbind, M_bind at 1 in H. destruct (find_ready N N (next_task N cur) k) as [i k1| | | |] eqn:Ef; try done.
  destruct (find_ready_ready _ _ _ _ _ _ Ef) as [-> (t & Ht & Hs)].
  unfold updt, gett, mbind, M_bind, gets, deref, modify in H. simpl in H. rewrite Ht in H. simpl in H.
  rewrite Ht in H. injection H as _ <-. split; [|done]. simpl.
  rewrite <-(list_insert_id (tasks k) i t) at 1 by done. apply Forall2_insert; [apply quietly_refl|].
  split; [done|]. right. left. split; [by left|by right].
Qed.

Lemma keeps_task_switch N : keeps (task_switch N).
Proof.
  unfold task_switch. apply keeps_bind; [apply keeps_gets|]. intros single.
  destruct single; [apply keeps_ret|]. apply keeps_bind; [apply keeps_save|]. intros _. apply keeps_choose.
Qed.

Lemma mild_tick t : mild t (tick t).
Proof.
  unfold tick. case_bool_decide as Es; [|apply mild_refl]. simpl.
  destruct (_ =? 0); [|split; [done|by left]]. split; [done|]. right. right. split; [done|by left].
Qed.

Lemma keeps_int8 N : keeps (int8_task_switch N).
Proof.
  unfold int8_task_switch. apply keeps_bind; [apply keeps_gets|]. intros single.
  destruct single; [apply keeps_ret|]. apply keeps_bind; [apply keeps_save|]. intros _.
  apply keeps_bind; [|intros _; apply keeps_choose]. apply keeps_modify. intros k.
  split; [|done]. simpl. apply mild_map, mild_tick.
Qed.

(** *** Tasks that share a semaphore *)

(** Where a task is with respect to the semaphore. *)
Inductive pos := Out | Waiting | In.

Record msys := mkMs { mk : kern; at_ : nat → pos }.

Definition upd_pos (i : nat) (p : pos) (f : nat → pos) : nat → pos :=
  λ j, if decide (j = i) then p else f j.

Definition running_task (k : kern) : Prop :=
  ∃ t, tasks k !! tswitch k = Some t ∧ awake t.

(** The running task calls set_semaphore, clear_semaphore or msleep, or the
    clock interrupts it. *)
Inductive mstep (N : nat) (sem : Z) : msys → msys → Prop :=
  | m_enter k f k' :
      running_task k → f (tswitch k) ≠ In → set_semaphore N sem k = Ret true k' →
      mstep N sem (mkMs k f) (mkMs k' (upd_pos (tswitch k) In f))
  | m_wait k f k' :
      running_task k → f (tswitch k) ≠ In → set_semaphore N sem k = Ret false k' →
      mstep N sem (mkMs k f) (mkMs k' (upd_pos (tswitch k) Waiting f))
  | m_leave k f k' :
      running_task k → f (tswitch k) = In → clear_semaphore N sem k = Ret tt k' →
      mstep N sem (mkMs k f) (mkMs k' (upd_pos (tswitch k) Out f))
  | m_sleep k f ticks k' :
      running_task k → f (tswitch k) ≠ Waiting → msleep N ticks k = Ret tt k' →
      mstep N sem (mkMs k f) (mkMs k' f)
  | m_clock k f k' :
      int8_task_switch N k = Ret tt k' → mstep N sem (mkMs k f) (mkMs k' f).

Record sem_inv (sem : Z) (s : msys) : Prop := {
  si_one i j : at_ s i = In → at_ s j = In → i = j;
  si_free i : semv sem (mk s) = 0 → at_ s i ≠ In;
  si_pend i t : tasks (mk s) !! i = Some t → t_pending t = sem →
    t_status t = BLOCKED ∧ at_ s i = Waiting;
  si_wait i t : tasks (mk s) !! i = Some t → at_ s i = Waiting → t_pending t = sem ∨ awake t;
  si_woken i t : semv sem (mk s) = 0 → tasks (mk s) !! i = Some t → t_pending t = sem →
    ∃ j u, tasks (mk s) !! j = Some u ∧ at_ s j = Waiting ∧ awake u;
}.

Lemma bind_run {S A B} (m : M S A) (f : A → M S B) s a s' : m s = Ret a s' → (m ≫= f) s = f a s'.
Proof. unfold mbind, M_bind. by intros ->. Qed.

Lemma gett_run i t k : tasks k !! i = Some t → gett i k = Ret t k.
Proof. intros H. unfold gett, mbind, M_bind, gets, deref. by rewrite H. Qed.

Lemma updt_run i t f k :
  tasks k !! i = Some t → updt i f k = Ret tt (set_tasks (<[i := f t]> (tasks k)) k).
Proof. intros H. unfold updt. by rewrite (bind_run _ _ _ _ _ (gett_run i t k H)). Qed.

Lemma quietly_lookup k k' i t :
  quietly k k' → tasks k !! i = Some t → ∃ t', tasks k' !! i = Some t' ∧ mild t t'.
Proof. intros [H _] Ht. by eapply Forall2_lookup_l. Qed.

Lemma quietly_lookup_r k k' i t' :
  quietly k k' → tasks k' !! i = Some t' → ∃ t, tasks k !! i = Some t ∧ mild t t'.
Proof. intros [H _] Ht. by eapply Forall2_lookup_r. Qed.

Lemma mild_awake t t' : mild t t' → awake t → awake t'.
Proof. unfold mild, awake. intros [_ H] Ha. intuition congruence. Qed.

Lemma mild_blocked t t' : mild t t' → t_status t = BLOCKED → t_status t' = BLOCKED.
Proof. unfold mild, awake. intros [_ H] Ha. intuition congruence. Qed.

Lemma inv_quietly sem k k' f : sem_inv sem (mkMs k f) → quietly k k' → sem_inv sem (mkMs k' f).
Proof.
  intros [H1 H2 H3 H4 H5] Hq. simpl in *.
  assert (Hs : semv sem k' = semv sem k) by (unfold semv; by destruct Hq as [_ ->]).
  split; simpl; rewrite ?Hs.
  - done.
  - done.
  - intros i t' Ht' Hp. destruct (quietly_lookup_r _ _ _ _ Hq Ht') as (t & Ht & Hm).
    destruct (H3 i t Ht) as [H6 H7]; [by destruct Hm; congruence|]. split; [by eapply mild_blocked|done].
  - intros i t' Ht' Hw. destruct (quietly_lookup_r _ _ _ _ Hq Ht') as (t & Ht & Hm).
    destruct (H4 i t Ht Hw) as [H6|H6]; [left; destruct Hm; congruence|right; by eapply mild_awake].
  - intros i t' H0 Ht' Hp. destruct (quietly_lookup_r _ _ _ _ Hq Ht') as (t & Ht & Hm).
    destruct (H5 i t H0 Ht) as (j & u & Hu & Hw & Ha); [by destruct Hm; congruence|].
    destruct (quietly_lookup _ _ _ _ Hq Hu) as (u' & Hu' & Hm'). exists j, u'.
    split_and!; [done|done|by eapply mild_awake].
Qed.

Lemma awake_not_blocked t : awake t → t_status t ≠ BLOCKED.
Proof. intros [H|H]; congruence. Qed.

Lemma inv_enter N sem k f k' :
  sem_inv sem (mkMs k f) → running_task k → set_semaphore N sem k = Ret true k' →
  sem_inv sem (mkMs k' (upd_pos (tswitch k) In f)).
Proof.
  intros [H1 H2 H3 H4 H5] (c & Hc & Ha) Hs. simpl in *. unfold set_semaphore in Hs.
  rewrite (bind_run _ _ _ (semv sem k) k) in Hs by done.
  destruct (Z.eqb_spec (semv sem k) 0) as [E|E]; cbn [negb] in Hs.
  2:{ exfalso. unfold mbind, M_bind, gets in Hs. repeat (case_match; try done). }
  injection Hs as <-. unfold upd_pos. split; simpl.
  - intros i j. repeat case_decide; intros; subst; try done; [by destruct (H2 j)|by destruct (H2 i)|by apply H1].
  - unfold semv. simpl. by rewrite lookup_insert_eq.
  - intros i t Ht Hp. destruct (H3 i t Ht Hp) as [H6 H7]. split; [done|]. case_decide as Ed; [|done].
    subst i. rewrite Hc in Ht. injection Ht as <-. by apply awake_not_blocked in Ha.
  - intros i t Ht. case_decide; [done|]. by apply H4.
  - intros i t. unfold semv. simpl. by rewrite lookup_insert_eq.
Qed.

(** Changing one task. *)
Definition with_task (i : nat) (t : task) (k : kern) : kern := set_tasks (<[i := t]> (tasks k)) k.

Lemma with_lookup i t k c j u :
  tasks k !! i = Some c → tasks (with_task i t k) !! j = Some u →
  (j = i ∧ u = t) ∨ (j ≠ i ∧ tasks k !! j = Some u).
Proof.
  intros Hc. simpl. rewrite lookup_insert_case by by eapply lookup_lt_Some.
  case_decide; [intros [= <-]; by left|by right].
Qed.

Lemma inv_wait N sem k f k' :
  sem_inv sem (mkMs k f) → running_task k → f (tswitch k) ≠ In → set_semaphore N sem k = Ret false k' →
  sem_inv sem (mkMs k' (upd_pos (tswitch k) Waiting f)).
Proof.
  intros [H1 H2 H3 H4 H5] (c & Hc & Ha) Hn Hs. simpl in *. unfold set_semaphore in Hs.
  rewrite (bind_run _ _ _ (semv sem k) k) in Hs by done.
  destruct (Z.eqb_spec (semv sem k) 0) as [E|E]; cbn [negb] in Hs; [done|].
  rewrite (bind_run _ _ _ (tswitch k) k) in Hs by done.
  set (i := tswitch k) in *. pose proof (lookup_lt_Some _ _ _ Hc) as Hlt.
  rewrite (bind_run _ _ _ tt (with_task i (k_pending sem (k_status BLOCKED c)) k)) in Hs.
  2:{ unfold semblock. rewrite (bind_run _ _ _ _ _ (updt_run i c (k_status BLOCKED) k Hc)).
      rewrite (updt_run i (k_status BLOCKED c)) by by apply list_lookup_insert_eq.
      unfold with_task, set_tasks. simpl. by rewrite list_insert_insert_eq. }
  unfold mbind, M_bind in Hs.
  destruct (task_switch N (with_task i (k_pending sem (k_status BLOCKED c)) k)) as [[] k2| | | |] eqn:Et; try done.
  injection Hs as <-. apply keeps_task_switch in Et. eapply inv_quietly; [|exact Et].
  unfold upd_pos. split; simpl.
  - intros j1 j2. repeat case_decide; intros; try done. by apply H1.
  - intros j H0. by destruct E.
  - intros j t Ht Hp. destruct (with_lookup _ _ _ _ _ _ Hc Ht) as [[-> ->]|[Hj Ht']].
    + by rewrite decide_True.
    + destruct (H3 j t Ht' Hp) as [H6 H7]. split; [done|]. by rewrite decide_False.
  - intros j t Ht Hw. destruct (with_lookup _ _ _ _ _ _ Hc Ht) as [[-> ->]|[Hj Ht']]; [by left|].
    rewrite decide_False in Hw by done. by apply (H4 j).
  - intros j t H0. by destruct E.
Qed.

Lemma first_pending_spec sem l i :
  match first_pending sem l i with
  | Some j => (i ≤ j)%nat ∧ ∃ t, l !! (j - i)%nat = Some t ∧ t_pending t = sem
  | None => ∀ j t, l !! j = Some t → t_pending t ≠ sem
  end.
Proof.
  revert i. induction l as [|t l IH]; intros i; simpl; [done|].
  destruct (Z.eqb_spec (t_pending t) sem) as [E|E]; [rewrite Nat.sub_diag; eauto|].
  specialize (IH (S i)). destruct (first_pending sem l (S i)) as [j|].
  - destruct IH as (H1 & u & H2 & H3). split; [lia|]. exists u.
    by replace (j - i)%nat with (S (j - S i)) by lia.
  - intros [|j] u; simpl; [by intros [= <-]|apply IH].
Qed.

(** clear_semaphore up to the switch: the first waiter is READY. *)
Lemma inv_restart sem k f k1 :
  sem ≠ 0 → sem_inv sem (mkMs k f) → (∀ j, f j ≠ In) → restart sem (set_sem sem 0 k) = Ret tt k1 →
  sem_inv sem (mkMs k1 f).
Proof.
  intros Hsem [H1 H2 H3 H4 H5] Hn Hr. simpl in *. unfold restart in Hr.
  rewrite (bind_run _ _ _ (first_pending sem (tasks k) 0) (set_sem sem 0 k)) in Hr by done.
  pose proof (first_pending_spec sem (tasks k) 0) as Hfp.
  destruct (first_pending sem (tasks k) 0) as [i|].
  2:{ injection Hr as <-. split; simpl; try done. intros i t _ Ht Hp. by destruct (Hfp i t Ht). }
  destruct Hfp as (_ & t & Ht & Hp). rewrite Nat.sub_0_r in Ht.
  destruct (H3 i t Ht Hp) as [Hb Hw]. pose proof (lookup_lt_Some _ _ _ Ht) as Hlt.
  rewrite (bind_run _ _ _ _ _ (updt_run i t (k_pending 0) (set_sem sem 0 k) Ht)) in Hr.
  rewrite (bind_run _ _ _ _ _ (gett_run i (k_pending 0 t) (with_task i (k_pending 0 t) (set_sem sem 0 k))
             (list_lookup_insert_eq _ _ _ Hlt))) in Hr.
  simpl in Hr. rewrite bool_decide_eq_true_2 in Hr by done.
  rewrite (updt_run i (k_pending 0 t)) in Hr by (simpl; by apply list_lookup_insert_eq).
  injection Hr as <-. simpl. rewrite list_insert_insert_eq.
  set (t' := k_status READY (k_pending 0 t)).
  assert (Hl : ∀ j u, <[i := t']> (tasks k) !! j = Some u →
            (j = i ∧ u = t') ∨ (j ≠ i ∧ tasks k !! j = Some u)).
  { intros j u. rewrite lookup_insert_case by done. case_decide; [intros [= <-]; by left|by right]. }
  split; simpl.
  - done.
  - done.
  - intros j u Hu Hpu. destruct (Hl j u Hu) as [[-> ->]|[Hj Hu']]; [done|by apply (H3 j)].
  - intros j u Hu Hwu. destruct (Hl j u Hu) as [[-> ->]|[Hj Hu']]; [right; by left|by apply (H4 j)].
  - intros j u _ Hu Hpu. exists i, t'. rewrite list_lookup_insert_eq by done. split_and!; [done|done|by left].
Qed.

Lemma inv_leave N sem k f k' :
  sem ≠ 0 → sem_inv sem (mkMs k f) → running_task k → f (tswitch k) = In →
  clear_semaphore N sem k = Ret tt k' → sem_inv sem (mkMs k' (upd_pos (tswitch k) Out f)).
Proof.
  intros Hsem [H1 H2 H3 H4 H5] (c & Hc & Ha) Hin Hs. simpl in *. set (i := tswitch k) in *.
  unfold clear_semaphore in Hs. rewrite (bind_run _ _ _ i k) in Hs by done.
  rewrite (bind_run _ _ _ _ _ (updt_run i c (k_pending 0) k Hc)) in Hs.
  set (k0 := with_task i (k_pending 0 c) k) in *.
  change (set_tasks _ _) with k0 in Hs.
  rewrite (bind_run _ _ _ tt (set_sem sem 0 k0)) in Hs by done.
  unfold mbind, M_bind in Hs. destruct (restart sem (set_sem sem 0 k0)) as [[] k1| | | |] eqn:Er; try done.
  apply keeps_task_switch in Hs. eapply inv_quietly; [|exact Hs]. eapply (inv_restart sem k0); [done| | |exact Er].
  - unfold upd_pos. split; simpl.
    + intros j1 j2. repeat case_decide; intros; try done. by apply H1.
    + intros j H0. case_decide; [done|]. by apply H2.
    + intros j t Ht Hp. destruct (with_lookup _ _ _ _ _ _ Hc Ht) as [[-> ->]|[Hj Ht']]; [done|].
      rewrite decide_False by done. by apply H3.
    + intros j t Ht Hw. case_decide as Ej; [done|].
      destruct (with_lookup _ _ _ _ _ _ Hc Ht) as [[-> ->]|[_ Ht']]; [done|]. by apply (H4 j).
    + intros j t H0 _ _. by destruct (H2 i H0).
  - intros j. unfold upd_pos. case_decide as Ej; [done|]. intros Hj. apply Ej. by apply H1.
Qed.

Lemma inv_sleep N sem k f ticks k' :
  sem_inv sem (mkMs k f) → running_task k → f (tswitch k) ≠ Waiting → msleep N ticks k = Ret tt k' →
  sem_inv sem (mkMs k' f).
Proof.
  intros [H1 H2 H3 H4 H5] (c & Hc & Ha) Hn Hs. simpl in *. set (i := tswitch k) in *.
  pose proof (lookup_lt_Some _ _ _ Hc) as Hlt.
  unfold msleep in Hs. rewrite (bind_run _ _ _ i k) in Hs by done.
  rewrite (bind_run _ _ _ _ _ (updt_run i c (k_status SLEEPING) k Hc)) in Hs.
  rewrite (bind_run _ _ _ _ _ (updt_run i (k_status SLEEPING c) _ (with_task i (k_status SLEEPING c) k)
             (list_lookup_insert_eq _ _ _ Hlt))) in Hs.
  simpl in Hs. rewrite list_insert_insert_eq in Hs. apply keeps_task_switch in Hs.
  eapply inv_quietly; [|exact Hs]. set (c' := k_sleep ticks (k_status SLEEPING c)).
  assert (Hl : ∀ j u, <[i := c']> (tasks k) !! j = Some u →
            (j = i ∧ u = c') ∨ (j ≠ i ∧ tasks k !! j = Some u)).
  { intros j u. rewrite lookup_insert_case by done. case_decide; [intros [= <-]; by left|by right]. }
  assert (Hnp : t_pending c ≠ sem).
  { intros Hp. destruct (H3 i c Hc Hp) as [Hb _]. by apply awake_not_blocked in Ha. }
  split; simpl; try done.
  - intros j u Hu Hpu. destruct (Hl j u Hu) as [[-> ->]|[Hj Hu']]; [done|by apply (H3 j)].
  - intros j u Hu Hwu. destruct (Hl j u Hu) as [[-> ->]|[Hj Hu']]; [done|by apply (H4 j)].
  - intros j u H0 Hu Hpu. destruct (Hl j u Hu) as [[-> ->]|[Hj Hu']]; [done|].
    destruct (H5 j u H0 Hu' Hpu) as (j' & u' & Hj' & Hw & Hau). exists j', u'.
    rewrite list_lookup_insert_ne; [done|]. intros ->. done.
Qed.

Lemma sem_inv_step N sem s s' : sem ≠ 0 → sem_inv sem s → mstep N sem s s' → sem_inv sem s'.
Proof.
  intros Hsem Hi Hs. destruct Hs as [k f k' Hr Hn He|k f k' Hr Hn He|k f k' Hr Hn He|k f ticks k' Hr Hn He|k f k' He].
  - by eapply inv_enter.
  - by eapply inv_wait.
  - by eapply inv_leave.
  - by eapply inv_sleep.
  - eapply inv_quietly; [exact Hi|]. by eapply keeps_int8.
Qed.

(** ** Properties *)

(** [C32] Semaphores exclude and do not lose wake-ups: in every interleaving of
    tasks that take and release a semaphore, sleep, and are interrupted by
    the clock, at most one task is inside, and when the semaphore is free
    while a task is blocked on it, another waiting task has been woken and
    will test it again. *)
Theorem semaphore_excludes N sem k s :
  sem ≠ 0 → semv sem k = 0 → Forall (λ t, t_pending t ≠ sem) (tasks k) →
  rtc (mstep N sem) (mkMs k (λ _, Out)) s →
  (∀ i j, at_ s i = In → at_ s j = In → i = j) ∧
  (∀ i t, semv sem (mk s) = 0 → tasks (mk s) !! i = Some t → t_status t = BLOCKED →
     t_pending t = sem →
     ∃ j u, tasks (mk s) !! j = Some u ∧ at_ s j = Waiting ∧ awake u).
Proof.
  intros Hsem H0 Hp Hr. assert (sem_inv sem s) as [H1 _ _ _ H5]; [|split; [done|]; intros; by eapply H5].
  refine (rtc_ind_l (λ x, sem_inv sem x → sem_inv sem s) s _ _ _ Hr _); [done| |].
  - intros x y Hxy _ IH Hx. apply IH. by eapply sem_inv_step.
  - rewrite Forall_lookup in Hp. split; simpl; try done.
    + intros i t Ht Hpt. by destruct (Hp i t Ht).
    + intros i t _ Ht Hpt. by destruct (Hp i t Ht).
Qed.

(** task_switch is round robin and terminates: it saves the running
    task, switches to the next READY task in the turn (the running task
    itself if it is the only one), and loads its stack; when no task is
    READY, also when some only sleep or wait, multitasking ends and every
    stack is freed. *)
Theorem task_switch_round_robin N k t :
  length (tasks k) = N → tasks k !! tswitch k = Some t → single_task k = false → tasking k = true →
  let k1 := with_task (tswitch k) (saved (cur_ss k) (cur_sp k) t) k in
  wp (task_switch N) (λ _ k',
    ((∀ i, ¬ ready_at k1 i) ∧ tasking k' = false ∧ tasks k' = k_stck 0 <$> tasks k1) ∨
    (∃ d u, next_ready N k1 (tswitch k) d ∧ tswitch k' = ((tswitch k + d) mod N)%nat ∧
       tasks k1 !! tswitch k' = Some u ∧ tasks k' = <[tswitch k' := k_status RUNNING u]> (tasks k1) ∧
       cur_ss k' = t_ss u ∧ cur_sp k' = t_sp u)) k.
Proof.
  intros Hlen Ht Hsi Hon k1. unfold task_switch. wstep. wstep. rewrite Hsi. wstep.
  eapply wp_save_current; [exact Ht|]. change (set_tasks _ k) with k1.
  eapply wp_choose; [simpl; by rewrite length_insert| |done|..].
  - simpl. rewrite <-Hlen. by eapply lookup_lt_Some.
  - intros Hn. left. done.
  - intros d u Hd Hu. right. exists d, u. done.
Qed.

(** ** Witnesses *)

Definition tk (st : task_state) (sl : Z) : task := mkTask 0 0 st 0 sl 1000.
Definition kern_of (l : list task) : kern := mkKern l 0 true false ∅ 7 7 0 0 true [].
Definition kern0 : kern := kern_of [tk RUNNING 0; tk SLEEPING 3; tk READY 0].

(** Task 0 takes the semaphore, the clock switches to task 2, and that task
    has to wait: task 0 runs again. *)
Definition after {A} (m : M kern A) (k : kern) : kern :=
  match m k with Ret _ k' => k' | _ => k end.
Definition entered : kern := after (set_semaphore 3 500) kern0.
Definition clocked : kern := after (int8_task_switch 3) entered.
Definition waiting : kern := after (set_semaphore 3 500) clocked.
Definition ms_waiting : msys :=
  mkMs waiting (upd_pos 2 Waiting (upd_pos 0 In (λ _, Out))).

Lemma run_waiting : rtc (mstep 3 500) (mkMs kern0 (λ _, Out)) ms_waiting.
Proof.
  apply (rtc_l _ _ (mkMs entered (upd_pos 0 In (λ _, Out)))).
  { apply (m_enter 3 500 kern0 (λ _, Out) entered); [|done|by vm_compute].
    exists (tk RUNNING 0). split; [done|]. vm_compute. auto. }
  apply (rtc_l _ _ (mkMs clocked (upd_pos 0 In (λ _, Out)))).
  { apply m_clock. by vm_compute. }
  apply rtc_once. apply (m_wait 3 500 clocked (upd_pos 0 In (λ _, Out)) waiting).
  - eexists. split; [by vm_compute|]. vm_compute. auto.
  - by vm_compute.
  - by vm_compute.
Qed.

Lemma semaphore_excludes_witness :
  (at_ ms_waiting 0 = In ∧ at_ ms_waiting 2 = Waiting ∧ tswitch waiting = 0%nat) ∧
  (∀ i j : nat, at_ ms_waiting i = In → at_ ms_waiting j = In → i = j) ∧
  (∀ i t, semv 500 waiting = 0 → tasks waiting !! i = Some t → t_status t = BLOCKED → t_pending t = 500 →
     ∃ j u, tasks waiting !! j = Some u ∧ at_ ms_waiting j = Waiting ∧ awake u).
Proof.
  split; [by vm_compute|].
  exact (semaphore_excludes 3 500 kern0 ms_waiting ltac:(done) eq_refl
           ltac:(repeat constructor; done) run_waiting).
Defined.

Lemma task_switch_round_robin_witness :
  wp (task_switch 3) (λ _ k',
    ((∀ i, ¬ ready_at (with_task 0 (saved 7 7 (tk RUNNING 0)) kern0) i) ∧ tasking k' = false ∧
       tasks k' = k_stck 0 <$> tasks (with_task 0 (saved 7 7 (tk RUNNING 0)) kern0)) ∨
    (∃ d u, next_ready 3 (with_task 0 (saved 7 7 (tk RUNNING 0)) kern0) 0 d ∧
       tswitch k' = ((0 + d) mod 3)%nat ∧
       tasks (with_task 0 (saved 7 7 (tk RUNNING 0)) kern0) !! tswitch k' = Some u ∧
       tasks k' = <[tswitch k' := k_status RUNNING u]> (tasks (with_task 0 (saved 7 7 (tk RUNNING 0)) kern0)) ∧
       cur_ss k' = t_ss u ∧ cur_sp k' = t_sp u)) kern0.
Proof. exact (task_switch_round_robin 3 kern0 (tk RUNNING 0) eq_refl eq_refl eq_refl eq_refl). Defined.

(** Task 0 runs and goes to sleep while task 1 sleeps: the kernel stops,
    although neither task is dead. *)
Example stops_with_sleepers : match msleep 2 5 (kern_of [tk RUNNING 0; tk SLEEPING 3]) with
  | Ret _ k' => tasking k' = false ∧ t_status <$> tasks k' = [SLEEPING; SLEEPING] ∧
                t_stck <$> tasks k' = [0; 0]
  | _ => False end.
Proof. by vm_compute. Qed.
