(* ===== verification/Simulador.v ===== *)
(** * A simulated operating system (simulador_so.c/simulador.c)

    Processes are functions that run one instruction of a simulated CPU per
    clock signal; the signal handler escalonador saves and restores the
    registers and takes turns.  The handler runs with SIGVTALRM blocked, so
    one signal is one call.  kernel_panic, which ends the program, is a
    panic; calling through the null pointer of a free entry is undefined.

    cria_processo stores processo_id in the same expression that increments
    it, and C does not say which value the field id gets: the value is an
    argument, and nothing depends on it.  What printf writes is [saida]. *)

From S2P Require Import Prelude Kernel.
Local Open Scope Z_scope.

Definition NUM_PROCESSOS : nat := 20.
Definition NUM_TICKS : Z := 2.

Inductive estado_Tarefa := RODANDO | PRONTA | BLOQUEADA | DORMINDO | SUSPENSA | MORTA.

(** The registers that _cpu and an entry of the table both have. *)
Record regs := mkRegs { ci : Z; bd : Z; r0 : Z; r1 : Z; r2 : Z; r3 : Z; r4 : Z }.
Definition regs0 : regs := mkRegs 0 0 0 0 0 0 0.
Definition set_ci (x : Z) (r : regs) : regs := mkRegs x (bd r) (r0 r) (r1 r) (r2 r) (r3 r) (r4 r).

(** The functions main creates processes from. *)
Inductive programa := Processo_1 | Processo_2 | Processo_3 | Processo_4.

Record entrada := mkEnt {
  e_id : Z;
  e_regs : regs;
  e_estado : estado_Tarefa;
  e_processo : option programa;
  e_proximo : Z;
}.

Record sim := mkSim {
  processo_id : Z;
  pid : Z;
  cpu_regs : regs;
  tabela : list entrada;
  contador : Z;
  reentrada : Z;
  saida : list string;
}.

Definition s_processo_id (x : Z) (s : sim) : sim :=
  mkSim x (pid s) (cpu_regs s) (tabela s) (contador s) (reentrada s) (saida s).
Definition s_pid (x : Z) (s : sim) : sim :=
  mkSim (processo_id s) x (cpu_regs s) (tabela s) (contador s) (reentrada s) (saida s).
Definition s_cpu (x : regs) (s : sim) : sim :=
  mkSim (processo_id s) (pid s) x (tabela s) (contador s) (reentrada s) (saida s).
Definition s_tabela (x : list entrada) (s : sim) : sim :=
  mkSim (processo_id s) (pid s) (cpu_regs s) x (contador s) (reentrada s) (saida s).
Definition s_contador (x : Z) (s : sim) : sim :=
  mkSim (processo_id s) (pid s) (cpu_regs s) (tabela s) x (reentrada s) (saida s).
Definition s_reentrada (x : Z) (s : sim) : sim :=
  mkSim (processo_id s) (pid s) (cpu_regs s) (tabela s) (contador s) x (saida s).
Definition s_saida (x : list string) (s : sim) : sim :=
  mkSim (processo_id s) (pid s) (cpu_regs s) (tabela s) (contador s) (reentrada s) x.

(** tabela_Processos[i], undefined outside the array. *)
Definition get_ent (i : Z) : M sim entrada :=
  if i <? 0 then fault else o ← gets (λ s, tabela s !! Z.to_nat i); deref o.
Definition upd_ent (i : Z) (f : entrada → entrada) : M sim unit :=
  e ← get_ent i; modify (λ s, s_tabela (<[Z.to_nat i := f e]> (tabela s)) s).

Definition salva_contexto : M sim unit :=
  i ← gets pid; r ← gets cpu_regs;
  upd_ent i (λ e, mkEnt (e_id e) r (e_estado e) (e_processo e) (e_proximo e)).

Definition restaura_contexto : M sim unit :=
  i ← gets pid; e ← get_ent i; modify (s_cpu (e_regs e)).

Definition escolhe_processo : M sim Z :=
  i ← gets pid; e ← get_ent i;
  if e_proximo e <? 0 then gets processo_id else mret (e_proximo e).

(** One instruction: the registers after it, and what it prints. *)
Definition instrucao (p : programa) (r : regs) : regs * list string :=
  match p with
  | Processo_1 =>
      if ci r =? 0 then (set_ci (i32 (ci r + 1)) r, ["1: Este é o processo 1"%string])
      else if ci r =? 1 then (set_ci 0 r, []) else (r, [])
  | Processo_2 =>
      if ci r =? 0 then (set_ci (i32 (ci r + 1)) r, ["2: Este é o processo 2"%string])
      else if ci r =? 1 then (set_ci (i32 (ci r + 1)) r, ["2: Fazendo alguma outra coisa"%string])
      else if ci r =? 2 then (set_ci (i32 (ci r + 1)) r, ["2: Ainda fazendo algo..."%string])
      else if ci r =? 3 then (set_ci 0 r, []) else (r, [])
  | Processo_3 =>
      if ci r =? 0 then (set_ci (i32 (ci r + 1)) r, ["3: Este é o processo 3"%string])
      else if ci r =? 1 then (set_ci 0 r, []) else (r, [])
  | Processo_4 =>
      if ci r =? 0 then (set_ci (i32 (ci r + 1)) r, ["4: Este é o processo 4"%string])
      else if ci r =? 1 then (set_ci 0 r, []) else (r, [])
  end.

Definition executa (p : programa) : M sim unit :=
  r ← gets cpu_regs;
  let '(r', out) := instrucao p r in
  modify (λ s, s_saida (saida s ++ out) (s_cpu r' s)).

Definition escalonador : M sim unit :=
  x ← gets reentrada;
  if 0 <? x then panic "Chamando escalonador 2x!!!" else
  modify (s_reentrada 1) ;;
  salva_contexto ;;
  c ← gets contador;
  modify (s_contador (i32 (c + 1))) ;;
  (if NUM_TICKS <? i32 (c + 1)
   then p ← escolhe_processo; modify (s_pid p) ;; modify (s_contador 0)
   else mret tt) ;;
  restaura_contexto ;;
  modify (s_reentrada 0) ;;
  i ← gets pid; e ← get_ent i;
  p ← deref (e_processo e);
  executa p.

Definition cria_processo (id : Z → Z) (proc : programa) : M sim unit :=
  n ← gets processo_id;
  if n <? Z.of_nat NUM_PROCESSOS - 1 then
    let n := n + 1 in
    modify (s_processo_id n) ;;
    upd_ent n (λ e, mkEnt (id n) regs0 (e_estado e) (Some proc) (if 0 <? n then n - 1 else -1))
  else panic "muitos processos".

(** The globals before main: processo_id is -1, the rest is zero. *)
Definition sim0 : sim :=
  mkSim (-1) 0 regs0 (replicate NUM_PROCESSOS (mkEnt 0 regs0 RODANDO None 0)) 0 0 [].

(** main creates its processes one by one. *)
Definition cria_todos (id : Z → Z) (ps : list programa) : M sim unit := forM ps (cria_processo id).
Definition sim_main (id : Z → Z) : M sim unit :=
  cria_todos id [Processo_1; Processo_2; Processo_3; Processo_4].

(** The clock ticks [k] times. *)
Fixpoint relogio (k : nat) : M sim unit :=
  match k with O => mret tt | S k => relogio k ;; escalonador end.

(** ** What the simulation should do *)

(** The process that runs at tick [k] (the first is tick 1): three ticks
    each, from process 0 down in a circle. *)
Definition turno (n : nat) (k : nat) : Z := - Z.of_nat (k / 3) mod Z.of_nat n.

(** How many of the first [k] ticks process [q] gets. *)
Fixpoint vezes (n q k : nat) : nat :=
  match k with
  | O => 0
  | S k => (vezes n q k + if (turno n (S k) =? Z.of_nat q)%Z then 1 else 0)%nat
  end.

Definition passo (p : programa) (r : regs) : regs := (instrucao p r).1.

(** The registers of process [q]: in the CPU if it runs, else in the table. *)
Definition contexto (s : sim) (q : nat) : option regs :=
  if pid s =? Z.of_nat q then Some (cpu_regs s) else e_regs <$> tabela s !! q.

Example main_saida :
  (end_state (sim_main (λ n, n) ;; relogio 9) sim0).(saida) =
  ["1: Este é o processo 1"; "4: Este é o processo 4"; "4: Este é o processo 4";
   "3: Este é o processo 3"; "3: Este é o processo 3"; "2: Este é o processo 2"]%string.
Proof. vm_compute. reflexivity. Qed.

(** ** Proofs *)

Lemma turno_next n k : (0 < n)%nat →
  turno n (S k) = if (S k mod 3 =? 0)%nat then (turno n k - 1) mod Z.of_nat n else turno n k.
Proof.
  intros Hn. unfold turno.
  pose proof (Nat.div_mod_eq (S k) 3). pose proof (Nat.div_mod_eq k 3).
  pose proof (Nat.mod_upper_bound (S k) 3). pose proof (Nat.mod_upper_bound k 3).
  destruct (Nat.eqb_spec (S k mod 3) 0) as [Hm|Hm].
  - replace (S k / 3)%nat with (S (k / 3))%nat by lia.
    rewrite Zminus_mod_idemp_l. f_equal. lia.
  - by replace (S k / 3)%nat with (k / 3)%nat by lia.
Qed.

Lemma turno_range n k : (0 < n)%nat → 0 ≤ turno n k < Z.of_nat n.
Proof. intros. apply Z.mod_pos_bound. lia. Qed.

Lemma wp_get_ent i e (Q : entrada → sim → Prop) s :
  0 ≤ i → tabela s !! Z.to_nat i = Some e → Q e s → wp (get_ent i) Q s.
Proof.
  intros Hi He HQ. unfold get_ent. rewrite (proj2 (Z.ltb_ge _ _)) by done. wstep. wstep.
  by eapply wp_deref.
Qed.

Lemma wp_upd_ent i e f (Q : unit → sim → Prop) s :
  0 ≤ i → tabela s !! Z.to_nat i = Some e → Q tt (s_tabela (<[Z.to_nat i := f e]> (tabela s)) s) →
  wp (upd_ent i f) Q s.
Proof. intros Hi He HQ. unfold upd_ent. wstep. by eapply wp_get_ent; [..|wstep]. Qed.

(** The state after [k] ticks. *)
Record sim_inv (ps : list programa) (k : nat) (s : sim) : Prop := {
  si_len : length (tabela s) = NUM_PROCESSOS;
  si_last : processo_id s = Z.of_nat (length ps) - 1;
  si_tab q p : ps !! q = Some p → ∃ e, tabela s !! q = Some e ∧ e_processo e = Some p ∧
    e_proximo e = Z.of_nat q - 1;
  si_pid : pid s = turno (length ps) k;
  si_cont : contador s = Z.of_nat (k mod 3);
  si_reent : reentrada s = 0;
  si_ctx q p : ps !! q = Some p →
    contexto s q = Some (Nat.iter (vezes (length ps) q k) (passo p) regs0);
}.

Record criado (ps : list programa) (s : sim) : Prop := {
  cr_len : length (tabela s) = NUM_PROCESSOS;
  cr_last : processo_id s = Z.of_nat (length ps) - 1;
  cr_tab q p : ps !! q = Some p → ∃ e, tabela s !! q = Some e ∧ e_processo e = Some p ∧
    e_proximo e = Z.of_nat q - 1 ∧ e_regs e = regs0;
  cr_rest : pid s = 0 ∧ contador s = 0 ∧ reentrada s = 0 ∧ cpu_regs s = regs0;
}.

Lemma wp_cria_processo id p ps s :
  criado ps s → (length ps < NUM_PROCESSOS)%nat →
  wp (cria_processo id p) (λ _, criado (ps ++ [p])) s.
Proof.
  intros [Hl Hn Ht (R1 & R2 & R3 & R4)] Hlt. unfold cria_processo. wstep. wstep. rewrite Hn.
  unfold NUM_PROCESSOS in *. rewrite (proj2 (Z.ltb_lt _ _)) by lia.
  replace (Z.of_nat (length ps) - 1 + 1) with (Z.of_nat (length ps)) by lia. cbv zeta.
  wstep. wstep. destruct (lookup_lt_is_Some_2 (tabela s) (length ps)) as [e He]; [lia|].
  eapply wp_upd_ent; [lia|by rewrite Nat2Z.id|]. rewrite Nat2Z.id. split; simpl.
  - by rewrite length_insert.
  - rewrite length_app. simpl. lia.
  - intros q p' Hq. apply lookup_app_Some in Hq as [Hq|[Hge Hq]].
    + rewrite list_lookup_insert_ne; [by apply Ht|]. pose proof (lookup_lt_Some _ _ _ Hq). lia.
    + apply list_lookup_singleton_Some in Hq as [Hq <-]. assert (q = length ps) as -> by lia.
      eexists. split; [apply list_lookup_insert_eq; lia|]. simpl. split; [done|]. split; [|done].
      zcmp.
  - done.
Qed.

Lemma wp_cria_todos id qs ps s :
  criado ps s → (length ps + length qs ≤ NUM_PROCESSOS)%nat →
  wp (cria_todos id qs) (λ _, criado (ps ++ qs)) s.
Proof.
  revert ps s. induction qs as [|q qs IH]; intros ps s Hc Hl; unfold cria_todos; simpl.
  { apply wp_ret. by rewrite app_nil_r. }
  simpl in Hl. wstep. eapply wp_mono; [apply wp_cria_processo; [done|lia]|]. intros [] s' Hc'.
  eapply wp_mono; [apply (IH _ _ Hc'); rewrite length_app; simpl; lia|]. intros [] s''. by rewrite <- app_assoc.
Qed.

Lemma criado_inv ps s : (0 < length ps)%nat → criado ps s → sim_inv ps 0 s.
Proof.
  intros Hn [Hl Hp Ht (R1 & R2 & R3 & R4)]. split; try done.
  - intros q p Hq. destruct (Ht q p Hq) as (e & ? & ? & ? & ?). by exists e.
  - intros q p Hq. destruct (Ht q p Hq) as (e & He & _ & _ & Hr). unfold contexto. rewrite R1, R4, He.
    simpl. rewrite Hr. by case_match.
Qed.

(** The table once the running process is saved in it: every process has its
    registers there. *)
Definition salvo (s : sim) (q : nat) (e : entrada) : list entrada :=
  <[q := mkEnt (e_id e) (cpu_regs s) (e_estado e) (e_processo e) (e_proximo e)]> (tabela s).

Lemma salvo_tab ps k s q0 e0 :
  sim_inv ps k s → pid s = Z.of_nat q0 → tabela s !! q0 = Some e0 → ∀ q p, ps !! q = Some p →
  ∃ e, salvo s q0 e0 !! q = Some e ∧ e_processo e = Some p ∧ e_proximo e = Z.of_nat q - 1 ∧
    e_regs e = Nat.iter (vezes (length ps) q k) (passo p) regs0.
Proof.
  intros Hi Hp He0 q p Hq. destruct (si_tab _ _ _ Hi q p Hq) as (e & He & E1 & E2).
  pose proof (si_ctx _ _ _ Hi q p Hq) as Hc. unfold contexto in Hc. rewrite Hp in Hc. unfold salvo.
  destruct (decide (q = q0)) as [->|Hne].
  - rewrite Z.eqb_refl in Hc. injection Hc as Hc. simplify_eq. eexists.
    split; [apply list_lookup_insert_eq; by eapply lookup_lt_Some|]. done.
  - rewrite (proj2 (Z.eqb_neq _ _)) in Hc by lia. rewrite list_lookup_insert_ne by done.
    rewrite He in Hc. injection Hc as Hc. by exists e.
Qed.

(** The choice of the next process agrees with the circle. *)
Lemma proximo_turno n k x : (0 < n)%nat → x = turno n k - 1 →
  (if x <? 0 then Z.of_nat n - 1 else x) = (turno n k - 1) mod Z.of_nat n.
Proof.
  intros Hn ->. pose proof (turno_range n k Hn). case_if.
  - replace (turno n k) with 0 by lia. change (0 - 1) with (-1).
    rewrite <- (Z.mod_unique_pos (-1) (Z.of_nat n) (-1) (Z.of_nat n - 1)); lia.
  - symmetry. apply Z.mod_small. lia.
Qed.

(** The part of escalonador that decides who runs, from a saved table. *)
Lemma wp_escolhe (ps : list programa) k s (tab : list entrada) (rest : M sim unit) (Q : unit → sim → Prop) :
  (0 < length ps)%nat → pid s = turno (length ps) k → processo_id s = Z.of_nat (length ps) - 1 →
  contador s = Z.of_nat (k mod 3) → tabela s = tab →
  (∀ q p, ps !! q = Some p → ∃ e, tab !! q = Some e ∧ e_proximo e = Z.of_nat q - 1) →
  wp rest Q (s_contador (Z.of_nat (S k mod 3)) (s_pid (turno (length ps) (S k)) s)) →
  wp (c ← gets contador;
      modify (s_contador (i32 (c + 1))) ;;
      (if NUM_TICKS <? i32 (c + 1)
       then p ← escolhe_processo; modify (s_pid p) ;; modify (s_contador 0)
       else mret tt) ;; rest) Q s.
Proof.
  intros Hn Hpid Hlast Hc <- Htab HQ. wstep. wstep. rewrite Hc.
  pose proof (Nat.mod_upper_bound k 3). pose proof (Nat.mod_upper_bound (S k) 3).
  pose proof (Nat.div_mod_eq (S k) 3). pose proof (Nat.div_mod_eq k 3).
  assert (i32 (Z.of_nat (k mod 3) + 1) = Z.of_nat (k mod 3) + 1) as ->.
  { unfold i32. rewrite Z.mod_small by lia. rewrite (proj2 (Z.ltb_lt _ _)) by lia. done. }
  wstep. wstep. wstep. rewrite turno_next in HQ by done. unfold NUM_TICKS.
  destruct (Nat.eqb_spec (S k mod 3) 0) as [Hz|Hz].
  - rewrite (proj2 (Z.ltb_lt _ _)) by lia. pose proof (turno_range (length ps) k Hn) as Hr.
    destruct (lookup_lt_is_Some_2 ps (Z.to_nat (pid s))) as [p Hp]; [rewrite Hpid; lia|].
    destruct (Htab _ _ Hp) as (e & He & Hx).
    wstep. unfold escolhe_processo. wstep. wstep. wstep. simpl pid.
    eapply wp_get_ent; [lia|exact He|].
    assert (e_proximo e = turno (length ps) k - 1) as Hx' by lia.
    rewrite <- (proximo_turno _ _ _ Hn Hx') in HQ. rewrite Hz in HQ.
    destruct (e_proximo e <? 0); wsteps; [rewrite Hlast|]; exact HQ.
  - rewrite (proj2 (Z.ltb_ge _ _)) by lia. wstep.
    replace (Z.of_nat (S k mod 3)) with (Z.of_nat (k mod 3) + 1) in HQ by lia.
    rewrite <- Hpid in HQ. by destruct s.
Qed.

Lemma iter_passo p n r : passo p (Nat.iter n (passo p) r) = Nat.iter (n + 1) (passo p) r.
Proof. by rewrite Nat.add_1_r. Qed.

Lemma wp_escalonador ps k s :
  (0 < length ps)%nat → sim_inv ps k s → wp escalonador (λ _, sim_inv ps (S k)) s.
Proof.
  intros Hn Hi. pose proof Hi as [Hl Hlast Ht Hp Hc Hr Hctx]. unfold escalonador.
  pose proof (turno_range (length ps) k Hn) as R1. pose proof (turno_range (length ps) (S k) Hn) as R2.
  set (q0 := Z.to_nat (turno (length ps) k)). set (q1 := Z.to_nat (turno (length ps) (S k))).
  destruct (lookup_lt_is_Some_2 ps q0) as [p0 Hp0]; [lia|].
  destruct (lookup_lt_is_Some_2 ps q1) as [p1 Hp1]; [lia|].
  destruct (Ht _ _ Hp0) as (e0 & He0 & _). assert (pid s = Z.of_nat q0) as Hpid by lia.
  pose proof (salvo_tab ps k s q0 e0 Hi Hpid He0) as Hs.
  wstep. wstep. rewrite Hr. change (0 <? 0) with false. cbv iota. wstep. wstep.
  wstep. unfold salva_contexto. wstep. wstep. wstep. wstep. simpl pid. simpl cpu_regs. rewrite Hpid.
  eapply wp_upd_ent; [lia|rewrite Nat2Z.id; exact He0|]. rewrite Nat2Z.id.
  change (<[q0 := _]> (tabela (s_reentrada 1 s))) with (salvo s q0 e0).
  eapply (wp_escolhe ps k _ (salvo s q0 e0)); [done|done|done|done|done| |].
  { intros q p Hq. destruct (Hs q p Hq) as (e & ? & ? & ? & ?). by exists e. }
  destruct (Hs q1 p1 Hp1) as (e1 & He1 & Hpr1 & _ & Hrg1).
  wstep. unfold restaura_contexto. wstep. wstep. wstep. simpl pid.
  eapply wp_get_ent; [lia|exact He1|]. wstep. wstep. wstep. wstep. wstep. wstep. simpl pid.
  eapply wp_get_ent; [lia|exact He1|]. wstep. eapply wp_deref; [exact Hpr1|].
  unfold executa. wstep. wstep. simpl cpu_regs. destruct (instrucao p1 (e_regs e1)) as [r' out] eqn:Ei. wstep.
  assert (r' = passo p1 (e_regs e1)) as Hr' by (unfold passo; by rewrite Ei).
  split; simpl; try done.
  - unfold salvo. by rewrite length_insert.
  - intros q p Hq. destruct (Hs q p Hq) as (e & ? & ? & ? & ?). by exists e.
  - intros q p Hq. unfold contexto. simpl.
    destruct (Z.eqb_spec (turno (length ps) (S k)) (Z.of_nat q)) as [Heq|Hne].
    + assert (q = q1) as -> by lia. simplify_eq. by rewrite Hrg1, iter_passo.
    + destruct (Hs q p Hq) as (e & He & _ & _ & Hg). rewrite He. simpl. rewrite Nat.add_0_r. by rewrite Hg.
Qed.

(** In a row of [3 n] ticks from the start of a turn, each process gets three. *)
Lemma vezes_turno n q j : (0 < n)%nat → (q < n)%nat →
  vezes n q (3 * S j + 2) =
  (vezes n q (3 * j + 2) + if (- Z.of_nat (S j) mod Z.of_nat n =? Z.of_nat q)%Z then 3 else 0)%nat.
Proof.
  intros Hn Hq. replace (3 * S j + 2)%nat with (S (S (S (3 * j + 2)))) by lia. simpl vezes.
  assert (∀ i, (i < 3)%nat → turno n (3 + 3 * j + i) = - Z.of_nat (S j) mod Z.of_nat n) as Ht.
  { intros i Hi. unfold turno. replace ((3 + 3 * j + i) / 3)%nat with (S j); [done|].
    apply (Nat.div_unique _ _ _ i); lia. }
  pose proof (Ht 0%nat ltac:(lia)) as H0. pose proof (Ht 1%nat ltac:(lia)) as H1. pose proof (Ht 2%nat ltac:(lia)) as H2.
  replace (3 + 3 * j + 0)%nat with (S (j + (j + (j + 0)) + 2)) in H0 by lia.
  replace (3 + 3 * j + 1)%nat with (S (S (j + (j + (j + 0)) + 2))) in H1 by lia.
  replace (3 + 3 * j + 2)%nat with (S (S (S (j + (j + (j + 0)) + 2)))) in H2 by lia.
  rewrite H0, H1, H2. destruct (_ =? _)%Z; lia.
Qed.

Lemma vezes_volta n q j : (q < n)%nat → vezes n q (3 * (j + n) + 2) = (vezes n q (3 * j + 2) + 3)%nat.
Proof.
  intros Hq. set (i0 := (1 + (- Z.of_nat q - Z.of_nat j - 1) mod Z.of_nat n)%Z).
  pose proof (Z.mod_pos_bound (- Z.of_nat q - Z.of_nat j - 1) (Z.of_nat n) ltac:(lia)) as Hi.
  assert (∀ m, (m ≤ n)%nat → vezes n q (3 * (j + m) + 2) =
    (vezes n q (3 * j + 2) + if (i0 <=? Z.of_nat m)%Z then 3 else 0)%nat) as H.
  { induction m as [|m IH]; intros Hm.
    - rewrite Nat.add_0_r. rewrite (proj2 (Z.leb_gt _ _)) by (unfold i0; lia). lia.
    - replace (j + S m)%nat with (S (j + m)) by lia. rewrite vezes_turno, IH by lia.
      assert ((- Z.of_nat (S (j + m)) mod Z.of_nat n =? Z.of_nat q) = (i0 =? Z.of_nat (S m)))%Z as ->.
      { apply eq_true_iff_eq. rewrite !Z.eqb_eq. unfold i0.
        pose proof (Z.div_mod (- Z.of_nat q - Z.of_nat j - 1) (Z.of_nat n) ltac:(lia)) as D1.
        pose proof (Z.div_mod (- Z.of_nat (S (j + m))) (Z.of_nat n) ltac:(lia)) as D2. split; intros E.
        - rewrite E in D2.
          rewrite <- (Z.mod_unique_pos _ _ (- Z.of_nat (S (j + m)) / Z.of_nat n) (Z.of_nat m)); lia.
        - symmetry. apply (Z.mod_unique_pos _ _ ((- Z.of_nat q - Z.of_nat j - 1) / Z.of_nat n)); lia. }
      zcmp; lia. }
  rewrite H by lia. rewrite (proj2 (Z.leb_le _ _)); [done|]. unfold i0. lia.
Qed.

(** [C40] Once 1 to 20 processes are created, after any number of ticks the
    process whose turn it is runs, no tick panics or reads an entry without
    a process, and every process has exactly the registers it would have
    after its own ticks alone; in 3 n ticks from the start of a turn every
    process gets three. *)
Theorem simulador_isolates id ps k :
  (0 < length ps ≤ NUM_PROCESSOS)%nat →
  wp (cria_todos id ps ;; relogio k)
    (λ _ s, pid s = turno (length ps) k ∧
       ∀ q p, ps !! q = Some p →
         contexto s q = Some (Nat.iter (vezes (length ps) q k) (passo p) regs0)) sim0 ∧
  ∀ q j, (q < length ps)%nat →
    vezes (length ps) q (3 * (j + length ps) + 2) = (vezes (length ps) q (3 * j + 2) + 3)%nat.
Proof.
  intros [H1 H2]. split; [|intros q j Hq; by apply vezes_volta].
  wstep. eapply wp_mono; [apply (wp_cria_todos id ps []); [by split|done]|]. intros [] s Hc.
  apply (wp_mono _ (λ _, sim_inv ps k)); [|intros _ s' []; done].
  apply criado_inv in Hc; [|done]. induction k as [|k IH]; simpl; [by apply wp_ret|].
  wstep. eapply wp_mono; [exact IH|]. intros [] s' Hi. by apply wp_escalonador.
Qed.

Lemma simulador_isolates_witness :
  wp (cria_todos (λ n, n) [Processo_1; Processo_2; Processo_3; Processo_4] ;; relogio 9)
    (λ _ s, pid s = 1 ∧ contexto s 3 = Some (passo Processo_4 (set_ci 0 regs0))) sim0.
Proof.
  destruct (simulador_isolates (λ n, n) [Processo_1; Processo_2; Processo_3; Processo_4] 9) as [H _];
    [unfold NUM_PROCESSOS; simpl; lia|].
  eapply wp_mono; [exact H|]. intros [] s [Hp Hc]. split; [by rewrite Hp|].
  rewrite (Hc 3%nat Processo_4) by done. vm_compute. reflexivity.
Defined.
