(* ===== verification/Threads.v ===== *)
(** * Programs of threads

    The synchronisation exercises of the repository are programs of a few
    POSIX threads over shared variables.  Each is modelled by one function
    [step t s]: the next statement of thread [t] in the state [s], or [None]
    when the thread waits (or has ended).  A run is a schedule, the list of
    the threads that get the processor; a thread that waits lets its turn
    pass.  An access to a shared variable, a semaphore or a mutex is one
    step.  A semaphore is its value, a mutex is a semaphore of value 0 or 1. *)

From S2P Require Import Prelude.

Definition fupd {A} (f : nat → A) (i : nat) (x : A) : nat → A :=
  λ j, if decide (j = i) then x else f j.

Lemma fupd_eq {A} (f : nat → A) i x : fupd f i x i = x.
Proof. unfold fupd. by rewrite decide_True. Qed.
Lemma fupd_ne {A} (f : nat → A) i j x : j ≠ i → fupd f i x j = f j.
Proof. intros. unfold fupd. by rewrite decide_False. Qed.

(** A value that the update does not take away. *)
Lemma fupd_keep {A} (f : nat → A) t q x p :
  f x = p → t ≠ x ∨ q = p ∨ f t ≠ p → fupd f t q x = p.
Proof. intros <- H. unfold fupd. case_decide; [subst; naive_solver|done]. Qed.

(** sem_wait, or pthread_mutex_lock: waits while the value is 0. *)
Definition sem_wait (v : nat) : option nat :=
  match v with O => None | S v => Some v end.

Lemma sem_wait_Some v w : sem_wait v = Some w → v = S w.
Proof. destruct v; simpl; [done|]. by intros [= ->]. Qed.

Section run.
Context {St : Type} (step : nat → St → option St).

Fixpoint run (sched : list nat) (s : St) : St :=
  match sched with
  | [] => s
  | t :: sched => run sched (default s (step t s))
  end.

Lemma run_inv (P : St → Prop) :
  (∀ t s s', P s → step t s = Some s' → P s') → ∀ sched s, P s → P (run sched s).
Proof.
  intros Hstep. induction sched as [|t sched IH]; intros s Hs; [done|]. simpl. apply IH.
  destruct (step t s) as [s'|] eqn:E; [by eapply Hstep|done].
Qed.

(** No thread can take a step. *)
Definition deadlocked (s : St) : Prop := ∀ t, step t s = None.

Lemma deadlocked_run s : deadlocked s → ∀ sched, run sched s = s.
Proof. intros H. induction sched as [|t sched IH]; [done|]. simpl. by rewrite (H t). Qed.
End run.

(** ** Mutual exclusion

    [crit p] says that a thread at the statement [p] holds the mutex. *)
Section exclusion.
Context {P : Type} (crit : P → bool).

Definition mutex_inv (m : nat) (f : nat → P) : Prop :=
  (m = 1%nat ∧ ∀ t, crit (f t) = false) ∨ (m = 0%nat ∧ ∃ h, ∀ t, crit (f t) = true ↔ t = h).

Lemma mutex_init f : (∀ t, crit (f t) = false) → mutex_inv 1 f.
Proof. by left. Qed.

(** A step that neither takes nor gives the mutex. *)
Lemma mutex_keep m f t p : mutex_inv m f → crit p = crit (f t) → mutex_inv m (fupd f t p).
Proof.
  intros H E. assert (∀ u, crit (fupd f t p u) = crit (f u)) as Eu.
  { intros u. unfold fupd. destruct (decide (u = t)) as [->|]; [done|done]. }
  destruct H as [[Hm H]|(Hm & h & H)].
  - left. split; [done|]. intros u. by rewrite Eu.
  - right. split; [done|]. exists h. intros u. rewrite Eu. apply H.
Qed.

Lemma mutex_take m f t p : mutex_inv (S m) f → crit p = true → mutex_inv m (fupd f t p).
Proof.
  intros [[Hm H]|[Hm _]] Hp; [|done]. right. split; [lia|]. exists t. intros u. unfold fupd.
  destruct (decide (u = t)) as [->|Hne]; [done|]. rewrite H. split; [done|by intros ->].
Qed.

Lemma mutex_give m f t p :
  mutex_inv m f → crit (f t) = true → crit p = false → mutex_inv (S m) (fupd f t p).
Proof.
  intros [[Hm H]|(Hm & h & H)] Ht Hp; [by rewrite H in Ht|]. left. split; [lia|]. intros u.
  unfold fupd. destruct (decide (u = t)) as [->|Hne]; [done|].
  apply not_true_iff_false. intros Hu%H. apply H in Ht. congruence.
Qed.

(** While a thread is inside, no other is. *)
Lemma mutex_other m f t u : mutex_inv m f → crit (f t) = true → u ≠ t → crit (f u) = false.
Proof.
  intros [[Hm H]|(Hm & h & H)] Ht Hu; [by rewrite H in Ht|]. apply not_true_iff_false.
  intros Hc%H. apply H in Ht. congruence.
Qed.

Lemma mutex_held f : mutex_inv 0 f → ∃ h, crit (f h) = true.
Proof. intros [[? _]|(_ & h & H)]; [done|]. exists h. by apply H. Qed.

Lemma mutex_free m f t : mutex_inv (S m) f → crit (f t) = false.
Proof. intros [[_ H]|[? _]]; [apply H|done]. Qed.
End exclusion.

(** ** Counting threads *)
Section counting.
Context {P : Type} (b : P → bool).

(** How many threads of [l] are at a statement of [b]. *)
Fixpoint cnt (f : nat → P) (l : list nat) : nat :=
  match l with
  | [] => 0
  | t :: l => Nat.b2n (b (f t)) + cnt f l
  end.

Lemma cnt_notin f l t q : t ∉ l → cnt (fupd f t q) l = cnt f l.
Proof.
  induction l as [|u l IH]; [done|]. rewrite not_elem_of_cons. intros [Hu Hl]. simpl.
  rewrite fupd_ne by done. by rewrite IH.
Qed.

Lemma cnt_fupd f l t q : NoDup l → t ∈ l →
  (cnt (fupd f t q) l + Nat.b2n (b (f t)) = cnt f l + Nat.b2n (b q))%nat.
Proof.
  intros Hn. induction Hn as [|u l Hu Hn IH]; [by intros ?%not_elem_of_nil|].
  intros [->|Ht]%elem_of_cons; simpl.
  - rewrite fupd_eq, cnt_notin by done. lia.
  - rewrite fupd_ne by (by intros ->). specialize (IH Ht). lia.
Qed.

Lemma cnt_pos f l t : t ∈ l → b (f t) = true → (0 < cnt f l)%nat.
Proof.
  induction l as [|u l IH]; [by intros ?%not_elem_of_nil|].
  intros [->|Ht]%elem_of_cons Hb; simpl; [rewrite Hb; simpl; lia|]. specialize (IH Ht Hb). lia.
Qed.

Lemma cnt_ex f l : (0 < cnt f l)%nat → ∃ t, t ∈ l ∧ b (f t) = true.
Proof.
  induction l as [|u l IH]; simpl; [lia|]. destruct (b (f u)) eqn:E.
  - intros _. exists u. split; [apply list_elem_of_here|done].
  - intros H. destruct IH as (t & Ht & Hb); [simpl in H; lia|]. exists t.
    split; [by apply list_elem_of_further|done].
Qed.
End counting.

(** The three ways a step may treat the mutex, when the stepping thread is
    where [E] says. *)
Ltac solve_mutex E :=
  first [by apply mutex_take
        |apply mutex_keep; [done|by rewrite E]
        |apply mutex_give; [done|by rewrite E|done]].

(** ** A mutex that knows its owner *)
Section owner.
Context {P : Type} (crit : P → bool).

Definition lock (t : nat) (m : option nat) : option (option nat) :=
  match m with None => Some (Some t) | Some _ => None end.

(** Exactly the owner is at a statement of [crit]. *)
Definition owned (m : option nat) (f : nat → P) : Prop := ∀ t, crit (f t) = true ↔ m = Some t.

Lemma owned_init f : (∀ t, crit (f t) = false) → owned None f.
Proof. intros H t. rewrite H. split; discriminate. Qed.

Lemma owned_keep m f t p : owned m f → crit p = crit (f t) → owned m (fupd f t p).
Proof. intros H E u. unfold fupd. case_decide; [subst; rewrite E|]; apply H. Qed.

Lemma owned_take f t p : owned None f → crit p = true → owned (Some t) (fupd f t p).
Proof.
  intros H E u. unfold fupd. case_decide as Eu; [by subst|]. split; [intros ?%H; done|congruence].
Qed.

Lemma owned_give f t p : owned (Some t) f → crit p = false → owned None (fupd f t p).
Proof.
  intros H E u. unfold fupd. case_decide as Eu; [by rewrite E|]. split; [intros ?%H; congruence|done].
Qed.
End owner.

Ltac solve_owned E :=
  first [apply owned_keep; [done|by rewrite E] | by apply owned_take | by apply owned_give].
