(* ===== verification/Startup.v ===== *)
(** * Starting the other processors (xv6/main.c)

    startothers on the boot processor and, on each other one, the part of
    entryother.S that reads what startothers has left for it, mpenter and
    mpmain.  The words below the entry code are shared by all processors, so
    the steps that touch them or a [started] flag are interleaved by any
    schedule; thread 0 is the boot processor, thread [S k] processor [k].  The
    boot page directory is at the end. *)

From stdpp Require Import list.
From S2P Require Import Prelude Threads Spinlock Kalloc Vm.
Local Open Scope Z_scope.

Definition KSTACKSIZE : Z := 4096.

(** The boot processor in startothers: at the test of the loop, and before
    each of its statements. *)
Inductive boot_pc := BTest | BAlloc | BStack (stack : Z) | BEntry | BPgdir | BStart | BWait | BDone.

#[export] Instance boot_pc_eq_dec : EqDecision boot_pc.
Proof. solve_decision. Defined.

(** Another processor: halted; at the start of the entry code; with its page
    directory loaded; with its stack; in mpenter, if that is where it has been
    sent; and in the scheduler. *)
Inductive appc :=
  | AOff | AStart | ACr3 (cr3 : Z) | AEsp (cr3 esp : Z) | AEnter (cr3 esp eip : Z) | AUp (cr3 esp : Z).

(** The words at code-4, code-8 and code-12, the pages kalloc has left, the
    boot processor with its variable c, and the others. *)
Record sys := mkSys {
  w_stack : Z; w_entry : Z; w_pgdir : Z; w_pages : list Z;
  w_boot : boot_pc; w_c : nat; w_ap : nat → appc; w_started : nat → bool }.

Section startup.
(** The processors found by mpinit, which of them is cpunum(), and the
    addresses of mpenter and (physical) of entrypgdir. *)
Variable ncpu bsp : nat.
Variable mpenter entrypg : Z.

Definition boot_to (p : boot_pc) (s : sys) : sys :=
  mkSys (w_stack s) (w_entry s) (w_pgdir s) (w_pages s) p (w_c s) (w_ap s) (w_started s).
Definition ap_to (k : nat) (p : appc) (s : sys) : sys :=
  mkSys (w_stack s) (w_entry s) (w_pgdir s) (w_pages s) (w_boot s) (w_c s) (fupd (w_ap s) k p) (w_started s).
Definition next_cpu (s : sys) : sys :=
  mkSys (w_stack s) (w_entry s) (w_pgdir s) (w_pages s) BTest (S (w_c s)) (w_ap s) (w_started s).

(** The STARTUP of lapicstartap reaches a processor that is halted. *)
Definition startap (k : nat) (s : sys) : sys :=
  match w_ap s k with AOff => ap_to k AStart s | _ => s end.

Definition startothers (s : sys) : option sys :=
  match w_boot s with
  | BTest => Some (if decide (w_c s < ncpu)%nat then if decide (w_c s = bsp) then next_cpu s else boot_to BAlloc s else boot_to BDone s)
  | BAlloc =>
      let stack := match w_pages s with [] => 0 | p :: _ => p end in
      Some (mkSys (w_stack s) (w_entry s) (w_pgdir s) (tail (w_pages s)) (BStack stack) (w_c s) (w_ap s) (w_started s))
  | BStack stack => Some (mkSys (u32 (stack + KSTACKSIZE)) (w_entry s) (w_pgdir s) (w_pages s) BEntry (w_c s) (w_ap s) (w_started s))
  | BEntry => Some (mkSys (w_stack s) mpenter (w_pgdir s) (w_pages s) BPgdir (w_c s) (w_ap s) (w_started s))
  | BPgdir => Some (mkSys (w_stack s) (w_entry s) entrypg (w_pages s) BStart (w_c s) (w_ap s) (w_started s))
  | BStart => Some (boot_to BWait (startap (w_c s) s))
  | BWait => if w_started s (w_c s) then Some (next_cpu s) else None
  | BDone => None
  end.

(** The entry code, and mpmain as far as the xchg that sets [started]. *)
Definition entryother (k : nat) (s : sys) : option sys :=
  match w_ap s k with
  | AOff => None
  | AStart => Some (ap_to k (ACr3 (w_pgdir s)) s)
  | ACr3 p => Some (ap_to k (AEsp p (w_stack s)) s)
  | AEsp p e => Some (ap_to k (AEnter p e (w_entry s)) s)
  | AEnter p e i =>
      if i =? mpenter then
        Some (mkSys (w_stack s) (w_entry s) (w_pgdir s) (w_pages s) (w_boot s) (w_c s) (fupd (w_ap s) k (AUp p e)) (fupd (w_started s) k true))
      else None
  | AUp _ _ => None
  end.

Definition sys_step (t : nat) (s : sys) : option sys :=
  match t with O => startothers s | S k => entryother k s end.

(** Before startothers: every processor but the boot one is halted. *)
Definition sys0 (pages : list Z) : sys := mkSys 0 0 0 pages BTest 0 (λ _, AOff) (λ _, false).

(** ** Every processor gets its own stack *)

(** How many processors are started before number [k], hence which page is
    its stack. *)
Definition turn (k : nat) : nat := if decide (k <= bsp)%nat then k else pred k.

Section run.
Variable pages : list Z.

Definition stack_of (k : nat) : Z := u32 (nth (turn k) pages 0 + KSTACKSIZE).

(** Where processor [k] can be once it has been started. *)
Definition coming (k : nat) (p : appc) : Prop :=
  p = AStart ∨ p = ACr3 entrypg ∨ p = AEsp entrypg (stack_of k) ∨ p = AEnter entrypg (stack_of k) mpenter.

Definition up (s : sys) (k : nat) : Prop := w_ap s k = AUp entrypg (stack_of k) ∧ w_started s k = true.
Definition off (s : sys) (k : nat) : Prop := w_ap s k = AOff ∧ w_started s k = false.

(** What holds at each place of startothers. *)
Definition at_c (s : sys) : Prop :=
  let c := w_c s in
  match w_boot s with
  | BTest => off s c ∧ w_pages s = drop (turn c) pages
  | BDone => c = ncpu ∧ off s c
  | BAlloc => (c < ncpu)%nat ∧ c ≠ bsp ∧ off s c ∧ w_pages s = drop (turn c) pages
  | BStack p => (c < ncpu)%nat ∧ c ≠ bsp ∧ off s c ∧ w_pages s = drop (S (turn c)) pages ∧ p = nth (turn c) pages 0
  | BEntry => (c < ncpu)%nat ∧ c ≠ bsp ∧ off s c ∧ w_pages s = drop (S (turn c)) pages ∧ w_stack s = stack_of c
  | BPgdir => (c < ncpu)%nat ∧ c ≠ bsp ∧ off s c ∧ w_pages s = drop (S (turn c)) pages ∧ w_stack s = stack_of c ∧ w_entry s = mpenter
  | BStart => (c < ncpu)%nat ∧ c ≠ bsp ∧ off s c ∧ w_pages s = drop (S (turn c)) pages ∧ w_stack s = stack_of c ∧ w_entry s = mpenter ∧ w_pgdir s = entrypg
  | BWait => (c < ncpu)%nat ∧ c ≠ bsp ∧ w_pages s = drop (S (turn c)) pages ∧ w_stack s = stack_of c ∧ w_entry s = mpenter ∧ w_pgdir s = entrypg ∧
      (up s c ∨ (coming c (w_ap s c) ∧ w_started s c = false))
  end.

Record sys_ok (s : sys) : Prop := {
  sy_bound : (w_c s <= ncpu)%nat;
  sy_before : ∀ k, (k < w_c s)%nat → (k < ncpu)%nat → k ≠ bsp → up s k;
  sy_after : ∀ k, (w_c s < k)%nat ∨ k = bsp → off s k;
  sy_at : at_c s;
}.

Lemma turn_S c : turn (S c) = if decide (c = bsp) then turn c else S (turn c).
Proof. unfold turn. repeat case_decide; lia. Qed.

Lemma head_drop n : match drop n pages with [] => 0 | p :: _ => p end = nth n pages 0.
Proof.
  revert n. induction pages as [|p ps IH]; intros [|n]; try done. cbn. apply IH.
Qed.

Lemma tail_drop n : tail (drop n pages) = drop (S n) pages.
Proof. revert n. induction pages as [|p ps IH]; intros [|n]; try done. exact (IH n). Qed.

Lemma sys_ok0 : sys_ok (sys0 pages).
Proof. split; [cbn; lia|cbn; lia|by intros|]. cbn. split; [done|]. unfold turn. by rewrite decide_True by lia. Qed.

Lemma sys_ok_boot s s' : sys_ok s → startothers s = Some s' → sys_ok s'.
Proof.
  intros [H0 H1 H2 H3] E. unfold startothers, at_c in *. destruct (w_boot s) as [| |p| | | | |] eqn:Eb.
  - destruct H3 as [Ho Hp]. case_decide as Hc; injection E as <-.
    + case_decide as Hb; cbn.
      * split; cbn; [lia|intros k Hk ??; apply H1; [lia|done..]|intros k Hk; apply H2; lia|]. rewrite turn_S, decide_True by done. split; [apply H2; left; lia|done].
      * split; cbn; [done|done|done|]. by repeat split; try apply Ho.
    + split; cbn; [done|done|done|]. split; [lia|]. by split; apply Ho.
  - injection E as <-. destruct H3 as (Hc & Hb & Ho & Hp). split; cbn; [done|done|done|]. rewrite Hp, head_drop, tail_drop. by repeat split; try apply Ho.
  - injection E as <-. destruct H3 as (Hc & Hb & Ho & Hp & ->). split; cbn; [done|done|done|]. by repeat split; try apply Ho.
  - injection E as <-. destruct H3 as (Hc & Hb & Ho & Hp & Hs). split; cbn; [done|done|done|]. by repeat split; try apply Ho.
  - injection E as <-. destruct H3 as (Hc & Hb & Ho & Hp & Hs & He). split; cbn; [done|done|done|]. by repeat split; try apply Ho.
  - injection E as <-. destruct H3 as (Hc & Hb & [Ho1 Ho2] & Hp & Hs & He & Hg). unfold startap. rewrite Ho1.
    split; cbn.
    + done.
    + intros k Hk Hn Hkb. unfold up. cbn. rewrite fupd_ne by lia. by apply H1.
    + intros k Hk. unfold off. cbn. rewrite fupd_ne by lia. by apply H2.
    + repeat split; try done. right. rewrite fupd_eq. split; [by left|done].
  - destruct H3 as (Hc & Hb & Hp & Hs & He & Hg & Hup). destruct (w_started s (w_c s)) eqn:Est; [|done]. injection E as <-.
    destruct Hup as [Hup|[_ ?]]; [|congruence]. split; cbn.
    + lia.
    + intros k Hk Hn Hkb. destruct (decide (k = w_c s)) as [->|]; [exact Hup|apply H1; lia].
    + intros k Hk. apply H2. lia.
    + rewrite turn_S, decide_False by done. split; [apply H2; by left; lia|done].
  - done.
Qed.

(** Only the processor that startothers waits for moves. *)
Lemma entryother_at k s s' : sys_ok s → entryother k s = Some s' → k = w_c s ∧ w_boot s = BWait ∧ coming k (w_ap s k) ∧ w_started s k = false.
Proof.
  intros [H0 H1 H2 H3] E. unfold entryother in E.
  assert (∀ j, off s j → k ≠ j) as Hoff by (intros j [Ho _] ->; by rewrite Ho in E).
  assert (∀ j, up s j → k ≠ j) as Hupn by (intros j [Ho _] ->; by rewrite Ho in E).
  unfold at_c in H3. destruct (decide (k = w_c s)) as [->|Hne].
  - destruct (w_boot s); cbn in H3; try (exfalso; apply (Hoff (w_c s)); [tauto|done]).
    destruct H3 as (_ & _ & _ & _ & _ & _ & [H|[H Hs]]); [by destruct (Hupn _ H)|done].
  - exfalso. destruct (decide (w_c s < k)%nat); [by apply (Hoff k); [apply H2; by left|]|].
    destruct (decide (k = bsp)); [by apply (Hoff k); [apply H2; by right|]|]. by apply (Hupn k); [apply H1; lia|].
Qed.

Lemma sys_ok_ap k s s' : sys_ok s → entryother k s = Some s' → sys_ok s'.
Proof.
  intros Hok E. destruct (entryother_at _ _ _ Hok E) as (-> & Hw & Hc & Hst). destruct Hok as [H0 H1 H2 H3]. unfold at_c in H3. rewrite Hw in H3.
  destruct H3 as (Hlt & Hb & Hp & Hs & He & Hg & Hcm).
  assert (∀ p, (p = ACr3 entrypg ∨ p = AEsp entrypg (stack_of (w_c s)) ∨ p = AEnter entrypg (stack_of (w_c s)) mpenter) → sys_ok (ap_to (w_c s) p s)) as Hmove.
  { intros p Hp'. split; cbn; [done|..].
    - intros k Hk Hn Hkb. unfold up. cbn. rewrite fupd_ne by lia. by apply H1.
    - intros k Hk. unfold off. cbn. rewrite fupd_ne by lia. by apply H2.
    - unfold at_c. cbn. rewrite Hw. repeat split; try done. right. rewrite fupd_eq. split; [by right|done]. }
  unfold entryother in E. destruct Hc as [Hc|[Hc|[Hc|Hc]]]; rewrite Hc in E.
  - injection E as <-. apply Hmove. rewrite Hg. by left.
  - injection E as <-. apply Hmove. rewrite Hs. by right; left.
  - injection E as <-. apply Hmove. rewrite He. by right; right.
  - rewrite Z.eqb_refl in E. injection E as <-. split; cbn; [done|..].
    + intros k Hk Hn Hkb. unfold up. cbn. rewrite !fupd_ne by lia. by apply H1.
    + intros k Hk. unfold off. cbn. rewrite !fupd_ne by lia. by apply H2.
    + unfold at_c. cbn. rewrite Hw. repeat split; try done. left. unfold up. cbn. by rewrite !fupd_eq.
Qed.

Lemma sys_ok_step t s s' : sys_ok s → sys_step t s = Some s' → sys_ok s'.
Proof. destruct t; [apply sys_ok_boot|apply sys_ok_ap]. Qed.

(** *** startothers ends *)

Definition boot_rank (p : boot_pc) : nat :=
  match p with BTest => 11 | BAlloc => 10 | BStack _ => 9 | BEntry => 8 | BPgdir => 7 | BStart => 6 | BWait => 1 | BDone => 0 end.
Definition ap_rank (p : appc) : nat :=
  match p with AOff => 0 | AStart => 4 | ACr3 _ => 3 | AEsp _ _ => 2 | AEnter _ _ _ => 1 | AUp _ _ => 0 end.
Definition todo (s : sys) : nat := (20 * (ncpu - w_c s) + boot_rank (w_boot s) + ap_rank (w_ap s (w_c s)))%nat.

Lemma todo_less t s s' : sys_ok s → sys_step t s = Some s' → (todo s' < todo s)%nat.
Proof.
  intros Hok E. destruct t as [|k].
  - cbn in E. unfold startothers in E. unfold todo. destruct Hok as [H0 H1 H2 H3]. unfold at_c in H3.
    destruct (w_boot s) eqn:Eb; try (injection E as <-; cbn; lia).
    + injection E as <-. case_decide; [case_decide|]; cbn; [|lia|lia].
      destruct (H2 (S (w_c s))) as [-> _]; [left; lia|]. cbn. lia.
    + injection E as <-. destruct H3 as (Hlt & Hb & [Ho1 Ho2] & _). unfold startap. rewrite Ho1. cbn. rewrite fupd_eq. cbn. lia.
    + destruct (w_started s (w_c s)) eqn:Est; [|done]. injection E as <-. cbn. destruct (H2 (S (w_c s))) as [-> _]; [left; lia|]. cbn. destruct H3. lia.
    + done.
  - cbn in E. destruct (entryother_at _ _ _ Hok E) as (-> & Hw & Hc & Hst). unfold entryother in E. unfold todo.
    destruct Hc as [Hc|[Hc|[Hc|Hc]]]; rewrite Hc in E |- *; try (injection E as <-; cbn; rewrite fupd_eq; cbn; lia).
    rewrite Z.eqb_refl in E. injection E as <-. cbn. rewrite fupd_eq. cbn. lia.
Qed.

(** Until startothers is done, some processor can go on. *)
Lemma no_standstill s : sys_ok s → w_boot s ≠ BDone → ∃ t, (t <= ncpu)%nat ∧ sys_step t s ≠ None.
Proof.
  intros [H0 H1 H2 H3] Hd. unfold at_c in H3. destruct (w_boot s) eqn:Eb; try (exists O; split; [lia|]; cbn; unfold startothers; by rewrite Eb).
  destruct H3 as (Hlt & Hb & Hp & Hs & He & Hg & [[Hu Hst]|[Hc Hst]]).
  - exists O. split; [lia|]. cbn. unfold startothers. by rewrite Eb, Hst.
  - exists (S (w_c s)). split; [lia|]. cbn. unfold entryother. destruct Hc as [Hc|[Hc|[Hc|Hc]]]; rewrite Hc; try done. by rewrite Z.eqb_refl.
Qed.

Lemma run_ok r s : sys_ok s → sys_ok (run sys_step r s).
Proof. intros H. apply (run_inv _ sys_ok); [apply sys_ok_step|done]. Qed.

Lemma todo_run r s : sys_ok s → (todo (run sys_step r s) <= todo s)%nat.
Proof.
  revert s. induction r as [|t r IH]; intros s Hok; [done|]. cbn [run]. destruct (sys_step t s) as [s'|] eqn:E; simpl; [|by apply IH].
  pose proof (todo_less _ _ _ Hok E). pose proof (IH s' (sys_ok_step _ _ _ Hok E)). lia.
Qed.

Lemma round_less r s : sys_ok s → (∃ t, t ∈ r ∧ sys_step t s ≠ None) → (todo (run sys_step r s) < todo s)%nat.
Proof.
  revert s. induction r as [|t r IH]; intros s Hok (u & Hu & Hen); [by apply elem_of_nil in Hu|]. cbn [run].
  destruct (sys_step t s) as [s'|] eqn:E; simpl.
  - pose proof (todo_less _ _ _ Hok E). pose proof (todo_run r s' (sys_ok_step _ _ _ Hok E)). lia.
  - apply IH; [done|]. apply elem_of_cons in Hu as [->|Hu]; [done|]. by exists u.
Qed.

(** Rounds in which every processor gets a turn. *)
Definition fair_round (r : list nat) : Prop := ∀ t, (t <= ncpu)%nat → t ∈ r.

Lemma rounds_end rs s : sys_ok s → Forall fair_round rs → (todo s <= length rs)%nat → w_boot (run sys_step (concat rs) s) = BDone.
Proof.
  revert s. induction rs as [|r rs IH]; intros s Hok Hf Hl.
  - cbn. destruct (w_boot s) eqn:E; try done; unfold todo in Hl; rewrite E in Hl; cbn in Hl; lia.
  - apply Forall_cons in Hf as [Hr Hf]. cbn [concat]. assert (∀ a b s, run sys_step (a ++ b) s = run sys_step b (run sys_step a s)) as ->.
    { clear. intros a. induction a as [|t a IHa]; intros b s; [done|]. cbn. apply IHa. }
    apply IH; [by apply run_ok|done|]. destruct (decide (w_boot s = BDone)) as [Hd|Hd].
    + pose proof (todo_run r s Hok) as Hle. pose proof (sy_at _ Hok) as Hat. unfold at_c in Hat. rewrite Hd in Hat.
      destruct Hat as [Hc [Ho _]]. assert (todo s = 0)%nat as Hz by (unfold todo; rewrite Hd, Ho, Hc; cbn [boot_rank ap_rank]; lia). lia.
    + pose proof (no_standstill s Hok Hd) as (t & Ht & Hen).
      pose proof (round_less r s Hok (ex_intro _ t (conj (Hr t Ht) Hen))). rewrite length_cons in Hl. lia.
Qed.

(** [C15] For any interleaving of startothers with the processors it starts,
    and any number of them: a processor that has read the words below the
    entry code runs mpenter on the boot page directory and on a stack of its
    own, a page kalloc gave for it alone, and is one of those mpinit found and
    not the one that is already running.  Nothing ever stands still before
    startothers is done, it is done after finitely many rounds in which every
    processor gets a turn, and then every processor is up. *)
Theorem startothers_safe : NoDup pages → Forall (λ p, 0 < p ∧ p + KSTACKSIZE < 4294967296) pages → (ncpu <= S (length pages))%nat →
  (bsp < ncpu)%nat →
  (∀ sched, let s := run sys_step sched (sys0 pages) in
    (∀ k p e, w_ap s k = AUp p e ∨ w_ap s k = AEnter p e mpenter →
       (k < ncpu)%nat ∧ k ≠ bsp ∧ p = entrypg ∧ (e - KSTACKSIZE) ∈ pages) ∧
    (∀ k p e i, w_ap s k = AEnter p e i → i = mpenter) ∧
    (∀ j k p q e, j ≠ k → w_ap s j = AUp p e → w_ap s k = AUp q e → False) ∧
    (w_boot s = BDone → ∀ k, (k < ncpu)%nat → k ≠ bsp → w_started s k = true)) ∧
  (∀ rounds, Forall fair_round rounds → (20 * ncpu + 11 <= length rounds)%nat → w_boot (run sys_step (concat rounds) (sys0 pages)) = BDone).
Proof.
  intros Hnd Hpg Hlen Hbsp. split; [intros sched s|].
  - assert (sys_ok s) as Hok by apply run_ok, sys_ok0. clearbody s. destruct Hok as [H0 H1 H2 H3].
    assert (∀ k p, w_ap s k = p → p = AOff ∨ ((k < ncpu)%nat ∧ k ≠ bsp ∧ (coming k p ∨ p = AUp entrypg (stack_of k)))) as Hall.
    { intros k p <-. destruct (decide (k = bsp)) as [->|Hkb]; [left; apply H2; by right|].
      destruct (decide (w_c s < k)%nat); [left; apply H2; by left|]. destruct (decide (k < w_c s)%nat); [right; split; [lia|]; split; [done|]; right; apply H1; lia|].
      replace k with (w_c s) in * by lia. unfold at_c in H3. destruct (w_boot s); try (left; apply H3).
      destruct H3 as (Hlt & _ & _ & _ & _ & _ & [[Hu _]|[Hc _]]); right; (split; [done|]); split; auto. }
    assert (∀ k, (k < ncpu)%nat → k ≠ bsp → (turn k < length pages)%nat) as Hturn by (intros k ??; unfold turn; case_decide; lia).
    assert (∀ k, (k < ncpu)%nat → k ≠ bsp → nth (turn k) pages 0 ∈ pages ∧ stack_of k = nth (turn k) pages 0 + KSTACKSIZE) as Hstk.
    { intros k Hk Hkb. assert (nth (turn k) pages 0 ∈ pages) as Hin by (apply list_elem_of_In, nth_In, Hturn; done). split; [done|].
      rewrite Forall_forall in Hpg. destruct (Hpg _ Hin). apply u32_small. unfold is_u32, KSTACKSIZE in *. lia. }
    assert (∀ k p e, w_ap s k = AUp p e → (k < ncpu)%nat ∧ k ≠ bsp ∧ p = entrypg ∧ e = stack_of k) as Hup.
    { intros k p e E. destruct (Hall _ _ E) as [?|(Hk & Hkb & [Hc|Hc])]; [done| |by injection Hc as -> ->]. by destruct Hc as [?|[?|[?|?]]]. }
    assert (∀ k p e i, w_ap s k = AEnter p e i → (k < ncpu)%nat ∧ k ≠ bsp ∧ p = entrypg ∧ e = stack_of k ∧ i = mpenter) as Hent.
    { intros k p e i E. destruct (Hall _ _ E) as [?|(Hk & Hkb & [Hc|Hc])]; [done| |done]. destruct Hc as [?|[?|[?|Hc]]]; try done. by injection Hc as -> -> ->. }
    split; [|split; [|split]].
    + intros k p e E. assert ((k < ncpu)%nat ∧ k ≠ bsp ∧ p = entrypg ∧ e = stack_of k) as (Hk & Hkb & -> & ->).
      { destruct E as [E|E]; [by apply Hup|]. destruct (Hent _ _ _ _ E) as (?&?&?&?&_). done. }
      destruct (Hstk k Hk Hkb) as [Hin ->]. split; [done|]. split; [done|]. split; [done|]. by replace (_ + _ - _) with (nth (turn k) pages 0) by lia.
    + intros k p e i E. by destruct (Hent _ _ _ _ E) as (?&?&?&?&?).
    + intros j k p q e Hne Ej Ek. destruct (Hup _ _ _ Ej) as (Hj & Hjb & _ & Hej). destruct (Hup _ _ _ Ek) as (Hk & Hkb & _ & Hek).
      destruct (Hstk j Hj Hjb) as [_ Sj]. destruct (Hstk k Hk Hkb) as [_ Sk].
      assert (turn j = turn k) as Ht. { apply (proj1 (NoDup_nth pages 0)); [by apply NoDup_ListNoDup|by apply Hturn..|lia]. }
      unfold turn in Ht. repeat case_decide; lia.
    + intros Hd k Hk Hkb. unfold at_c in H3. rewrite Hd in H3. by apply H1; [lia|..].
  - intros rounds Hf Hl. apply rounds_end; [apply sys_ok0|done|]. unfold todo. cbn. lia.
Qed.
End run.
End startup.

(** ** The boot page directory *)

Definition PTE_PS : Z := 0x080.

(** Entry [i] of entrypgdir. *)
Definition entrypgdir (i : Z) : Z :=
  if i =? 0 then Z.lor (Z.lor (Z.lor 0 PTE_P) PTE_W) PTE_PS
  else if i =? Z.shiftr KERNBASE 22 then Z.lor (Z.lor (Z.lor 0 PTE_P) PTE_W) PTE_PS
  else 0.

(** The translation of the processor while the directory has 4-MB pages only. *)
Definition big_translate (dir : Z → Z) (va : Z) : option (Z * bool) :=
  let e := dir (PDX va) in
  if hasbit e PTE_P && hasbit e PTE_PS then Some (Z.land e (Z.lnot 4194303) + va mod 4194304, hasbit e PTE_W) else None.

(** The directory maps the first 4 MB at 0 and at KERNBASE, writable, and
    nothing else, so that entry.S can go from one to the other. *)
Lemma entrypgdir_spec va : is_u32 va →
  big_translate entrypgdir va =
    if va <? 4194304 then Some (va, true)
    else if (KERNBASE <=? va) && (va <? KERNBASE + 4194304) then Some (va - KERNBASE, true) else None.
Proof.
  intros Hv. unfold big_translate. rewrite PDX_spec by done. unfold is_u32 in Hv. change (Z.shiftr KERNBASE 22) with 512. change KERNBASE with 2147483648.
  unfold entrypgdir. destruct (Z.eqb_spec (va / 4194304) 0) as [E|E].
  - rewrite (proj2 (Z.ltb_lt va _)) by zdm. change (_ && _) with true. cbv iota. do 2 f_equal. change (Z.land _ (Z.lnot 4194303)) with 0. zdm.
  - rewrite (proj2 (Z.ltb_ge va _)) by zdm. change (Z.shiftr _ 22) with 512. destruct (Z.eqb_spec (va / 4194304) 512) as [E2|E2].
    + rewrite (proj2 (Z.leb_le _ va)), (proj2 (Z.ltb_lt va _)) by zdm. change (_ && _) with true. cbv iota. do 2 f_equal. change (Z.land _ (Z.lnot 4194303)) with 0. zdm.
    + change (hasbit 0 PTE_P) with false. destruct (Z.leb_spec 2147483648 va), (Z.ltb_spec va (2147483648 + 4194304)); cbn [andb]; try done. zdm.
Qed.

(** ** Witness: three processors, of which the second one boots *)
Lemma startothers_safe_witness :
  w_boot (run (sys_step 3 1 0x80103000 0x10a000) (concat (replicate 71 [0; 1; 2; 3]%nat)) (sys0 [0x8dfff000; 0x8dffe000])) = BDone ∧
  (∀ sched j k p q e, j ≠ k → let s := run (sys_step 3 1 0x80103000 0x10a000) sched (sys0 [0x8dfff000; 0x8dffe000]) in
    w_ap s j = AUp p e → w_ap s k = AUp q e → False).
Proof.
  destruct (startothers_safe 3 1 0x80103000 0x10a000 [0x8dfff000; 0x8dffe000]) as [H1 H2].
  - apply (bool_decide_unpack _). vm_compute. exact I.
  - repeat constructor.
  - cbn. lia.
  - lia.
  - split.
    + apply H2; [|cbn; lia]. apply Forall_replicate. intros t Ht. do 4 (destruct t as [|t]; [set_solver|]). lia.
    + intros sched j k p q e Hjk. cbv zeta. eapply (H1 sched). done.
Defined.

(** startothers does not test what kalloc returns: without a page the
    processor is started on the first page of the address space. *)
Lemma startothers_unchecked : w_ap (run (sys_step 2 0 0x80103000 0x10a000) (concat (replicate 51 [0; 2]%nat)) (sys0 [])) 1%nat = AUp 0x10a000 4096.
Proof. vm_compute. reflexivity. Qed.
