(* ===== verification/Filosofos.v ===== *)
(** * The dining philosophers (Filosofos/filosofos.c)

    Thread [t] runs acao_filosofo with the number [ids t] it read through
    its argument: it reads it once, into a variable of its own, so every
    run of the program is a run here for some [ids].  main passes the address
    of the loop variable it goes on changing, and so does mostrar(): which
    numbers the threads read depends on the schedule.  [filosofos_safe] is
    about distinct numbers, [filosofos_shared_number] about a shared one.
    The printing of mostrar(), and the random pauses, are left
    out; both happen between two steps here. *)

From S2P Require Import Prelude Threads.

Definition N : nat := 5.
Definition LEFT (i : nat) : nat := (i + N - 1) mod N.
Definition RIGHT (i : nat) : nat := (i + 1) mod N.

Inductive fstate := THINKING | HUNGRY | EATING.

#[export] Instance fstate_eq_dec : EqDecision fstate.
Proof. solve_decision. Defined.

(** The statement a thread is at. *)
Inductive fpc :=
  | Pensar
  | PegaEspera | PegaFome | PegaTesta | PegaSolta | PegaGarfo
  | Comer
  | PoeEspera | PoePensa | PoeEsq | PoeDir | PoeSolta.

#[export] Instance fpc_eq_dec : EqDecision fpc.
Proof. solve_decision. Defined.

Record psys := mkP {
  state : nat → fstate;
  mutex : nat;
  sem_fil : nat → nat;
  pc : nat → fpc;
}.

Definition goto (t : nat) (p : fpc) (s : psys) : psys :=
  mkP (state s) (mutex s) (sem_fil s) (fupd (pc s) t p).
Definition set_mutex (m : nat) (s : psys) : psys := mkP (state s) m (sem_fil s) (pc s).
Definition set_state (i : nat) (x : fstate) (s : psys) : psys :=
  mkP (fupd (state s) i x) (mutex s) (sem_fil s) (pc s).
Definition set_sem (i : nat) (v : nat) (s : psys) : psys :=
  mkP (state s) (mutex s) (fupd (sem_fil s) i v) (pc s).

Definition test (i : nat) (s : psys) : psys :=
  if bool_decide (state s i = HUNGRY) && bool_decide (state s (LEFT i) ≠ EATING) &&
     bool_decide (state s (RIGHT i) ≠ EATING)
  then let s := set_state i EATING s in set_sem i (S (sem_fil s i)) s
  else s.

(** pegar_garfo(i) and por_garfo(i), a statement at a time. *)
Definition pegar_garfo (t i : nat) (p : fpc) (s : psys) : option psys :=
  match p with
  | PegaEspera => m ← sem_wait (mutex s); Some (goto t PegaFome (set_mutex m s))
  | PegaFome => Some (goto t PegaTesta (set_state i HUNGRY s))
  | PegaTesta => Some (goto t PegaSolta (test i s))
  | PegaSolta => Some (goto t PegaGarfo (set_mutex (S (mutex s)) s))
  | PegaGarfo => v ← sem_wait (sem_fil s i); Some (goto t Comer (set_sem i v s))
  | _ => None
  end.
Definition por_garfo (t i : nat) (p : fpc) (s : psys) : option psys :=
  match p with
  | PoeEspera => m ← sem_wait (mutex s); Some (goto t PoePensa (set_mutex m s))
  | PoePensa => Some (goto t PoeEsq (set_state i THINKING s))
  | PoeEsq => Some (goto t PoeDir (test (LEFT i) s))
  | PoeDir => Some (goto t PoeSolta (test (RIGHT i) s))
  | PoeSolta => Some (goto t Pensar (set_mutex (S (mutex s)) s))
  | _ => None
  end.

Definition acao_filosofo (ids : nat → nat) (t : nat) (s : psys) : option psys :=
  if (N <=? t)%nat then None else
  match pc s t with
  | Pensar => Some (goto t PegaEspera s)
  | Comer => Some (goto t PoeEspera s)
  | (PegaEspera | PegaFome | PegaTesta | PegaSolta | PegaGarfo) as p => pegar_garfo t (ids t) p s
  | p => por_garfo t (ids t) p s
  end.

(** What main sets up before it creates the threads. *)
Definition inicio : psys := mkP (λ _, THINKING) 1 (λ _, 0) (λ _, Pensar).

(** ** The invariant *)

Lemma left_right i : (i < N)%nat → LEFT (RIGHT i) = i ∧ RIGHT (LEFT i) = i ∧
  (LEFT i < N)%nat ∧ (RIGHT i < N)%nat ∧ LEFT i ≠ i ∧ RIGHT i ≠ i.
Proof.
  unfold N. intros Hi. do 5 (destruct i as [|i]; [by vm_compute; lia|]). lia.
Qed.

(** Inside the section the mutex protects. *)
Definition crit (p : fpc) : bool :=
  match p with
  | PegaFome | PegaTesta | PegaSolta | PoePensa | PoeEsq | PoeDir | PoeSolta => true
  | _ => false
  end.

(** The state and the semaphore of the philosopher whose thread is at [p]. *)
Definition ok_at (p : fpc) (x : fstate) (v : nat) : Prop :=
  match p with
  | Pensar | PegaEspera | PegaFome | PoeEsq | PoeDir | PoeSolta => x = THINKING ∧ v = 0%nat
  | PegaTesta => x = HUNGRY ∧ v = 0%nat
  | PegaSolta | PegaGarfo => (x = HUNGRY ∧ v = 0%nat) ∨ (x = EATING ∧ v = 1%nat)
  | Comer | PoeEspera | PoePensa => x = EATING ∧ v = 0%nat
  end.

(** Someone who is going to test hungry [i]. *)
Definition tested_soon (s : psys) (i : nat) : Prop :=
  pc s i = PegaTesta ∨ pc s (RIGHT i) = PoeEsq ∨ pc s (LEFT i) = PoeEsq ∨ pc s (LEFT i) = PoeDir.

Record finv (s : psys) : Prop := {
  fi_mutex : mutex_inv crit (mutex s) (pc s);
  fi_live t : (N ≤ t)%nat → pc s t = Pensar;
  fi_at i : (i < N)%nat → ok_at (pc s i) (state s i) (sem_fil s i);
  fi_apart i : (i < N)%nat → state s i = EATING → state s (RIGHT i) ≠ EATING;
  fi_hungry i : (i < N)%nat → state s i = HUNGRY →
    state s (LEFT i) = EATING ∨ state s (RIGHT i) = EATING ∨ tested_soon s i;
}.

Lemma inicio_inv : finv inicio.
Proof. split; try done. by apply mutex_init. Qed.

(** ** What test() does *)

Definition fires (i : nat) (s : psys) : Prop :=
  state s i = HUNGRY ∧ state s (LEFT i) ≠ EATING ∧ state s (RIGHT i) ≠ EATING.

Lemma test_cases i s :
  (fires i s ∧ test i s = set_sem i (S (sem_fil s i)) (set_state i EATING s)) ∨
  (¬ fires i s ∧ test i s = s).
Proof.
  unfold test, fires. repeat case_bool_decide; simpl; (left; split; [tauto|done]) || (right; split; [tauto|done]).
Qed.

(** Thread [h] holds the mutex and tests [j]; the others stay where they
    were, except that [j] may be allowed to eat. *)
Lemma test_at s h j i : finv s → crit (pc s h) = true → (j < N)%nat →
  (j = h → pc s h = PegaTesta) → (i < N)%nat → i ≠ h →
  ok_at (pc s i) (state (test j s) i) (sem_fil (test j s) i).
Proof.
  intros Hs Hh Hj Hjh Hi Hih. pose proof (fi_at _ Hs i Hi) as Hat.
  destruct (test_cases j s) as [[(Hx & _) ->]|[_ ->]]; [|done]. simpl. unfold fupd.
  destruct (decide (i = j)) as [->|Hij]; [|done].
  pose proof (mutex_other _ _ _ _ _ (fi_mutex _ Hs) Hh Hih) as Hc. rewrite Hx in Hat.
  destruct (pc s j); simpl in *; try done; destruct Hat; naive_solver.
Qed.

Lemma test_apart s j i : finv s → (j < N)%nat → (i < N)%nat →
  state (test j s) i = EATING → state (test j s) (RIGHT i) ≠ EATING.
Proof.
  intros Hs Hj Hi. pose proof (fi_apart _ Hs i Hi) as Ha.
  destruct (left_right i Hi) as (Elr & Erl & Hl & Hr & Hln & Hrn).
  destruct (test_cases j s) as [[(Hx & HL & HR) ->]|[_ ->]]; [|done]. simpl. unfold fupd.
  destruct (decide (i = j)) as [->|Hij]; [by rewrite decide_False|].
  destruct (decide (RIGHT i = j)) as [<-|]; [|done]. by rewrite Elr in HL.
Qed.

(** Nobody stops eating, nobody becomes hungry, and [j] is served if it can. *)
Lemma test_mono s j k : state s k = EATING → state (test j s) k = EATING.
Proof.
  intros Hk. destruct (test_cases j s) as [[_ ->]|[_ ->]]; [|done]. simpl. unfold fupd. by case_decide.
Qed.
Lemma test_hungry s j k : state (test j s) k = HUNGRY → state s k = HUNGRY.
Proof.
  destruct (test_cases j s) as [[_ ->]|[_ ->]]; [|done]. simpl. unfold fupd. by case_decide.
Qed.
Lemma test_served s j : state (test j s) j = HUNGRY →
  state (test j s) (LEFT j) = EATING ∨ state (test j s) (RIGHT j) = EATING.
Proof.
  destruct (test_cases j s) as [[_ ->]|[Hf ->]]; simpl; [by rewrite fupd_eq|].
  intros Hh. destruct (decide (state s (LEFT j) = EATING)); [by left|].
  destruct (decide (state s (RIGHT j) = EATING)); [by right|]. by destruct Hf.
Qed.
Lemma test_pc s j : pc (test j s) = pc s ∧ mutex (test j s) = mutex s.
Proof. destruct (test_cases j s) as [[_ ->]|[_ ->]]; done. Qed.

(** A hungry philosopher is watched by someone who eats or is about to test
    it, if this is so before the step and the step keeps it so. *)
Lemma hungry_step s s' : finv s →
  (∀ k, (k < N)%nat → state s k = EATING → state s' k = EATING ∨ pc s' k = PoeEsq) →
  (∀ i, (i < N)%nat → state s' i = HUNGRY → state s i = HUNGRY ∨ pc s' i = PegaTesta) →
  (∀ i, (i < N)%nat → tested_soon s i → state s' i = HUNGRY →
     state s' (LEFT i) = EATING ∨ state s' (RIGHT i) = EATING ∨ tested_soon s' i) →
  ∀ i, (i < N)%nat → state s' i = HUNGRY →
    state s' (LEFT i) = EATING ∨ state s' (RIGHT i) = EATING ∨ tested_soon s' i.
Proof.
  intros Hs He Hh Ht i Hi Hx. destruct (left_right i Hi) as (_ & _ & Hl & Hr & _ & _).
  destruct (Hh i Hi Hx) as [Hx0|Hp]; [|by right; right; left].
  destruct (fi_hungry _ Hs i Hi Hx0) as [E|[E|E]]; [| |by apply Ht].
  - destruct (He _ Hl E); [by left|]. right. right. unfold tested_soon. tauto.
  - destruct (He _ Hr E); [by right; left|]. right. right. unfold tested_soon. tauto.
Qed.

(** Thread [t] moves on to [q] and changes at most its own state. *)
Lemma finv_move s s' t q :
  finv s → (t < N)%nat → pc s' = fupd (pc s) t q → mutex_inv crit (mutex s') (pc s') →
  (∀ i, i ≠ t → state s' i = state s i ∧ sem_fil s' i = sem_fil s i) →
  ok_at q (state s' t) (sem_fil s' t) →
  (state s' t = EATING → state s t = EATING) →
  (state s t = EATING → state s' t = EATING ∨ q = PoeEsq) →
  (state s' t = HUNGRY → state s t = HUNGRY ∨ q = PegaTesta) →
  pc s t ≠ PegaTesta → pc s t ≠ PoeEsq → pc s t ≠ PoeDir →
  finv s'.
Proof.
  intros Hs Ht Hpc Hm Hne Hat He1 He2 Hh N1 N2 N3.
  assert (Hsame : ∀ i, state s' i = EATING → state s i = EATING).
  { intros i. destruct (decide (i = t)) as [->|]; [done|]. by rewrite (proj1 (Hne i n)). }
  assert (Hsoon : ∀ i, tested_soon s i → tested_soon s' i).
  { intros i. unfold tested_soon. rewrite Hpc.
    intros [H|[H|[H|H]]]; [left|right; left|right; right; left|right; right; right];
      apply fupd_keep; auto. }
  split; [done| | | |].
  - intros u Hu. rewrite Hpc, fupd_ne by lia. by apply (fi_live _ Hs).
  - intros i Hi. rewrite Hpc. destruct (decide (i = t)) as [->|Hi'].
    + by rewrite fupd_eq.
    + rewrite fupd_ne by done. destruct (Hne i Hi') as [-> ->]. by apply (fi_at _ Hs).
  - intros i Hi H1%Hsame H2%Hsame. by eapply (fi_apart _ Hs).
  - apply (hungry_step s s'); [done|..].
    + intros k _ Hk. rewrite Hpc. destruct (decide (k = t)) as [->|Hk'].
      * rewrite fupd_eq. by apply He2.
      * left. by rewrite (proj1 (Hne k Hk')).
    + intros k _ Hk. rewrite Hpc. destruct (decide (k = t)) as [->|Hk'].
      * rewrite fupd_eq. by apply Hh.
      * left. by rewrite <-(proj1 (Hne k Hk')).
    + intros i _ H _. right. right. by apply Hsoon.
Qed.

(** Thread [t], which holds the mutex, tests [j] and moves on to [q]. *)
Lemma finv_test s t j q :
  finv s → (t < N)%nat → (j < N)%nat → crit (pc s t) = true → crit q = true →
  (j = t → pc s t = PegaTesta) →
  ok_at q (state (test j s) t) (sem_fil (test j s) t) →
  (∀ i, (i < N)%nat → i ≠ j → tested_soon s i → tested_soon (goto t q (test j s)) i) →
  finv (goto t q (test j s)).
Proof.
  intros Hs Ht Hj Hc Hq Hjt Hat Hsoon. destruct (test_pc s j) as [Epc Em]. split; simpl.
  - rewrite Epc, Em. apply mutex_keep; [apply (fi_mutex _ Hs)|congruence].
  - intros u Hu. rewrite fupd_ne by lia. rewrite Epc. by apply (fi_live _ Hs).
  - intros i Hi. destruct (decide (i = t)) as [->|Hi']; [by rewrite fupd_eq|].
    rewrite fupd_ne by done. rewrite Epc. by apply (test_at s t).
  - intros i Hi. by apply test_apart.
  - apply (hungry_step s (goto t q (test j s))); [done|..]; simpl.
    + intros k _ Hk. left. by apply test_mono.
    + intros i _ Hi. left. by eapply test_hungry.
    + intros i Hi Hsn Hx. destruct (decide (i = j)) as [->|Hij].
      * destruct (test_served s j Hx); [by left|by right; left].
      * right. right. by apply Hsoon.
Qed.

(** Only the tests of [t] itself end with the step. *)
Lemma soon_goto s t q j i : t ≠ i ∨ q = PegaTesta ∨ pc s t ≠ PegaTesta →
  t ≠ RIGHT i ∨ q = PoeEsq ∨ pc s t ≠ PoeEsq →
  t ≠ LEFT i ∨ q = PoeDir ∨ (pc s t ≠ PoeEsq ∧ pc s t ≠ PoeDir) →
  tested_soon s i → tested_soon (goto t q (test j s)) i.
Proof.
  intros H1 H2 H3. unfold tested_soon. simpl. rewrite (proj1 (test_pc s j)).
  intros [H|[H|H]]; [left; by apply fupd_keep|right; left; by apply fupd_keep|].
  right. right. destruct (decide (q = PoeDir ∧ t = LEFT i)) as [[-> ->]|Hn].
  - right. apply fupd_eq.
  - destruct H as [H|H]; [left|right]; (apply fupd_keep; [done|tauto]).
Qed.

Ltac fmove Hs Ht E :=
  eapply finv_move; [exact Hs|exact Ht|reflexivity|simpl|..]; simpl;
  rewrite ?E, ?fupd_eq; try done; try (intros; unfold fupd; rewrite ?decide_False by done; done); try naive_solver congruence.

Lemma finv_step t s s' : finv s → acao_filosofo (λ t, t) t s = Some s' → finv s'.
Proof.
  intros Hs. unfold acao_filosofo. destruct (Nat.leb_spec N t) as [|Ht]; [done|].
  pose proof (fi_mutex _ Hs) as Hm. pose proof (fi_at _ Hs t Ht) as Hat.
  destruct (left_right t Ht) as (Elr & Erl & Hl & Hr & Hln & Hrn).
  destruct (pc s t) eqn:E; simpl in *; intros Hstep.
  - injection Hstep as <-. fmove Hs Ht E. apply mutex_keep; [done|by rewrite E].
  - destruct (mutex s) as [|m] eqn:Em; simplify_eq/=. fmove Hs Ht E. by apply mutex_take.
  - injection Hstep as <-. destruct Hat as [Hx Hv]. fmove Hs Ht E.
    apply mutex_keep; [done|by rewrite E].
  - injection Hstep as <-. apply finv_test; try done; [by rewrite E| |].
    + destruct (test_cases t s) as [[_ ->]|[_ ->]]; simpl; [rewrite !fupd_eq|]; naive_solver.
    + intros i Hi Hit. apply soon_goto; [left; congruence|rewrite E; right; by right..].
  - injection Hstep as <-. fmove Hs Ht E. apply mutex_give; [done|by rewrite E|done].
  - destruct (sem_fil s t) as [|v] eqn:Ev; simplify_eq/=. fmove Hs Ht E.
    apply mutex_keep; [done|by rewrite E].
  - injection Hstep as <-. fmove Hs Ht E. apply mutex_keep; [done|by rewrite E].
  - destruct (mutex s) as [|m] eqn:Em; simplify_eq/=. fmove Hs Ht E. by apply mutex_take.
  - injection Hstep as <-. destruct Hat as [Hx Hv]. fmove Hs Ht E.
    apply mutex_keep; [done|by rewrite E].
  - injection Hstep as <-. apply finv_test; try done; [by rewrite E| |].
    + destruct (test_cases (LEFT t) s) as [[_ ->]|[_ ->]]; simpl; rewrite ?fupd_ne by done; done.
    + intros i Hi Hil. apply soon_goto; rewrite E; [right; by right| |right; by left].
      left. intros ->. by destruct (left_right i Hi) as (? & _).
  - injection Hstep as <-. apply finv_test; try done; [by rewrite E| |].
    + destruct (test_cases (RIGHT t) s) as [[_ ->]|[_ ->]]; simpl; rewrite ?fupd_ne by done; done.
    + intros i Hi Hir. apply soon_goto; rewrite E; [right; by right|right; by right|].
      left. intros ->. by destruct (left_right i Hi) as (_ & ? & _).
  - injection Hstep as <-. fmove Hs Ht E. apply mutex_give; [done|by rewrite E|done].
Qed.

Lemma finv_run sched : finv (run (acao_filosofo (λ t, t)) sched inicio).
Proof. apply run_inv; [apply finv_step|apply inicio_inv]. Qed.

(** ** Properties *)

Definition comendo (p : fpc) : bool :=
  match p with Comer | PoeEspera => true | _ => false end.

(** A waiting thread, all others being outside the section. *)
Lemma waits_for_fork s t : finv s → (t < N)%nat → (∀ u, crit (pc s u) = false) → mutex s = 1%nat →
  acao_filosofo (λ t, t) t s = None → pc s t = PegaGarfo ∧ state s t = HUNGRY.
Proof.
  intros Hs Ht Hc Hm. pose proof (fi_at _ Hs t Ht) as Hat. specialize (Hc t).
  unfold acao_filosofo. rewrite (proj2 (Nat.leb_gt N t)) by done.
  destruct (pc s t); simpl in *; rewrite ?Hm; try done.
  destruct Hat as [[? ->]|[? ->]]; done.
Qed.

(** Inside the section no thread waits. *)
Lemma crit_runs s t : (t < N)%nat → crit (pc s t) = true → acao_filosofo (λ t, t) t s ≠ None.
Proof.
  intros Ht. unfold acao_filosofo. rewrite (proj2 (Nat.leb_gt N t)) by done. by destruct (pc s t).
Qed.

(** [C37] With a number of its own for every thread, however the threads are
    scheduled: two philosophers who hold their forks are never neighbours,
    and the program never comes to a standstill. *)
Theorem filosofos_safe sched :
  let s := run (acao_filosofo (λ t, t)) sched inicio in
  (∀ i, (i < N)%nat → comendo (pc s i) = true → comendo (pc s (RIGHT i)) = false) ∧
  ∃ t, acao_filosofo (λ t, t) t s ≠ None.
Proof.
  intros s. pose proof (finv_run sched) as Hs. fold s in Hs. split.
  - intros i Hi Hc. destruct (left_right i Hi) as (_ & _ & _ & Hr & _).
    assert (He : ∀ j, (j < N)%nat → comendo (pc s j) = true → state s j = EATING).
    { intros j Hj Hj'. pose proof (fi_at _ Hs j Hj) as Hat. by destruct (pc s j); try done; destruct Hat. }
    apply not_true_iff_false. intros Hc'. apply (fi_apart _ Hs i Hi); auto.
  - destruct (fi_mutex _ Hs) as [[Hm Hc]|[Hm [h Hh]]].
    + destruct (acao_filosofo (λ t, t) 0 s) eqn:E0; [by exists 0%nat; rewrite E0|].
      destruct (waits_for_fork s 0) as [_ Hx]; [done|unfold N; lia|done..|].
      assert (∃ j, (j < N)%nat ∧ state s j = EATING) as (j & Hj & Hjx).
      { destruct (fi_hungry _ Hs 0%nat) as [H|[H|H]]; [unfold N; lia|done|..].
        - exists (LEFT 0). split; [vm_compute; lia|done].
        - exists (RIGHT 0). split; [vm_compute; lia|done].
        - exfalso. pose proof (Hc 0%nat). pose proof (Hc (RIGHT 0)). pose proof (Hc (LEFT 0)).
          destruct H as [H|[H|[H|H]]]; rewrite H in *; done. }
      exists j. intros Hn. destruct (waits_for_fork s j) as [_ Hx']; try done. congruence.
    + assert (crit (pc s h) = true) as Hch by by apply Hh. exists h.
      apply crit_runs; [|done]. apply Nat.nle_gt. intros Hle. by rewrite (fi_live _ Hs h Hle) in Hch.
Qed.

(** main gives every thread the address of the same variable: two threads
    that read the same number from it eat with the same forks. *)
Theorem filosofos_shared_number :
  let s := run (acao_filosofo (λ _, 0%nat)) ([0; 0; 0; 0; 0; 0] ++ [1; 1; 1; 1; 1; 1])%nat inicio in
  pc s 0 = Comer ∧ pc s 1 = Comer.
Proof. by vm_compute. Qed.
