(* ===== verification/Barbeiro.v ===== *)
(** * The sleeping barber (Barbeiro/barbeiro.c)

    Thread 0 is the barber, the threads 1 to [n] are the clients main
    creates; when they arrive is up to the schedule. *)

From S2P Require Import Prelude Threads.
Local Open Scope Z_scope.

Definition CADEIRAS : Z := 5.

(** The statement a thread is at: first the barber's, then a client's. *)
Inductive bpc :=
  | BCliente | BMutex | BDesce | BPronto | BSolta | BCorta
  | CMutex | CTesta | CSobe | CAcorda | CSolta | CEspera | CCorte | CCheia | CFim.

Record bsys := mkB {
  sem_clientes : nat;
  sem_barbeiros : nat;
  mutex : nat;
  esperando : Z;
  pc : nat → bpc;
}.

Definition goto (t : nat) (p : bpc) (s : bsys) : bsys :=
  mkB (sem_clientes s) (sem_barbeiros s) (mutex s) (esperando s) (fupd (pc s) t p).
Definition set_clientes (v : nat) (s : bsys) : bsys :=
  mkB v (sem_barbeiros s) (mutex s) (esperando s) (pc s).
Definition set_barbeiros (v : nat) (s : bsys) : bsys :=
  mkB (sem_clientes s) v (mutex s) (esperando s) (pc s).
Definition set_mutex (v : nat) (s : bsys) : bsys :=
  mkB (sem_clientes s) (sem_barbeiros s) v (esperando s) (pc s).
Definition set_esperando (v : Z) (s : bsys) : bsys :=
  mkB (sem_clientes s) (sem_barbeiros s) (mutex s) v (pc s).

Definition barbeiro (t : nat) (s : bsys) : option bsys :=
  match pc s t with
  | BCliente => v ← sem_wait (sem_clientes s); Some (goto t BMutex (set_clientes v s))
  | BMutex => v ← sem_wait (mutex s); Some (goto t BDesce (set_mutex v s))
  | BDesce => Some (goto t BPronto (set_esperando (esperando s - 1) s))
  | BPronto => Some (goto t BSolta (set_barbeiros (S (sem_barbeiros s)) s))
  | BSolta => Some (goto t BCorta (set_mutex (S (mutex s)) s))
  | BCorta => Some (goto t BCliente s)
  | _ => None
  end.

Definition cliente (t : nat) (s : bsys) : option bsys :=
  match pc s t with
  | CMutex => v ← sem_wait (mutex s); Some (goto t CTesta (set_mutex v s))
  | CTesta => Some (goto t (if esperando s <? CADEIRAS then CSobe else CCheia) s)
  | CSobe => Some (goto t CAcorda (set_esperando (esperando s + 1) s))
  | CAcorda => Some (goto t CSolta (set_clientes (S (sem_clientes s)) s))
  | CSolta => Some (goto t CEspera (set_mutex (S (mutex s)) s))
  | CEspera => v ← sem_wait (sem_barbeiros s); Some (goto t CCorte (set_barbeiros v s))
  | CCorte => Some (goto t CFim s)
  | CCheia => Some (goto t CFim (set_mutex (S (mutex s)) s))
  | _ => None
  end.

Definition barbearia (n t : nat) (s : bsys) : option bsys :=
  if (t =? 0)%nat then barbeiro t s
  else if (t <=? n)%nat then cliente t s
  else None.

(** After the initialisation of main. *)
Definition abre : bsys := mkB 0 0 1 0 (λ t, if (t =? 0)%nat then BCliente else CMutex).

(** ** The invariant *)

Definition crit (p : bpc) : bool :=
  match p with
  | BDesce | BPronto | BSolta | CTesta | CSobe | CAcorda | CSolta | CCheia => true
  | _ => false
  end.
Definition is_client (p : bpc) : bool :=
  match p with BCliente | BMutex | BDesce | BPronto | BSolta | BCorta => false | _ => true end.

(** A client that is counted but has not yet woken the barber, a client
    without its haircut, and the barber who owes one. *)
Definition conta (p : bpc) : bool := match p with CAcorda => true | _ => false end.
Definition quer (p : bpc) : bool := match p with CAcorda | CSolta | CEspera => true | _ => false end.
Definition deve (p : bpc) : bool := match p with BMutex | BDesce => true | _ => false end.
Definition pronto (p : bpc) : bool := match p with BPronto => true | _ => false end.

Section inv.
Context (n : nat).
Abbreviation cs := (seq 1 n).

Record binv (s : bsys) : Prop := {
  bi_mutex : mutex_inv crit (mutex s) (pc s);
  bi_kind t : is_client (pc s t) = negb (t =? 0)%nat;
  bi_out t : (n < t)%nat → pc s t = CMutex;
  bi_woken : Z.of_nat (sem_clientes s + cnt conta (pc s) cs + Nat.b2n (deve (pc s 0)))%nat = esperando s;
  bi_owed : Z.of_nat (cnt quer (pc s) cs) =
            esperando s + Z.of_nat (sem_barbeiros s + Nat.b2n (pronto (pc s 0)))%nat;
  bi_bound : esperando s ≤ CADEIRAS;
  bi_room t : pc s t = CSobe → esperando s < CADEIRAS;
}.

Lemma abre_inv : binv abre.
Proof.
  assert (∀ b l, b CMutex = false → (0 ∉ l)%nat → cnt b (pc abre) l = 0%nat) as Hc.
  { intros b l Hb. induction l as [|t l IH]; [done|]. rewrite not_elem_of_cons. intros [Ht Hl]. simpl.
    destruct t; [done|]. simpl. rewrite Hb. simpl. by apply IH. }
  assert (0 ∉ cs)%nat as H0 by (rewrite elem_of_seq; lia).
  split; try done; simpl; rewrite ?Hc by done; try done.
  - apply mutex_init. by intros [].
  - by intros [].
  - intros t Ht. destruct (Nat.eqb_spec t 0); [lia|done].
Qed.

(** The barber moves on to [q]. *)
Lemma barber_moves s s' q :
  binv s → pc s' = fupd (pc s) 0 q → is_client q = false →
  mutex_inv crit (mutex s') (pc s') →
  Z.of_nat (sem_clientes s' + cnt conta (pc s) cs + Nat.b2n (deve q))%nat = esperando s' →
  Z.of_nat (cnt quer (pc s) cs) = esperando s' + Z.of_nat (sem_barbeiros s' + Nat.b2n (pronto q))%nat →
  esperando s' ≤ esperando s →
  binv s'.
Proof.
  intros [Hm Hk Ho Hw Hd Hb Hr] Hpc Hq Hm' Hw' Hd' Hle.
  assert (0 ∉ cs)%nat as H0 by (rewrite elem_of_seq; lia).
  split; [done|..]; rewrite ?Hpc, ?fupd_eq, ?cnt_notin by done; try done; [..|lia|].
  - intros t. destruct (decide (t = 0%nat)) as [->|]; [by rewrite fupd_eq|by rewrite fupd_ne].
  - intros t Ht. rewrite fupd_ne by lia. by apply Ho.
  - intros t. destruct (decide (t = 0%nat)) as [->|Ht]; [rewrite fupd_eq; by destruct q|].
    rewrite fupd_ne by done. intros Hp. specialize (Hr t Hp). lia.
Qed.

(** Client [t] moves on to [q]. *)
Lemma client_moves s s' t q :
  binv s → (1 ≤ t ≤ n)%nat → pc s' = fupd (pc s) t q → is_client q = true →
  mutex_inv crit (mutex s') (pc s') →
  Z.of_nat (sem_clientes s' + Nat.b2n (conta q)) - esperando s' =
    Z.of_nat (sem_clientes s + Nat.b2n (conta (pc s t))) - esperando s →
  Z.of_nat (Nat.b2n (quer q)) - esperando s' - Z.of_nat (sem_barbeiros s') =
    Z.of_nat (Nat.b2n (quer (pc s t))) - esperando s - Z.of_nat (sem_barbeiros s) →
  esperando s' ≤ CADEIRAS →
  (∀ u, pc s' u = CSobe → esperando s' < CADEIRAS) →
  binv s'.
Proof.
  intros [Hm Hk Ho Hw Hd Hb Hr] Ht Hpc Hq Hm' Hw' Hd' Hle Hroom.
  assert (t ∈ cs) as Hin by (apply elem_of_seq; lia).
  pose proof (cnt_fupd conta (pc s) cs t q (NoDup_seq 1 n) Hin) as C1.
  pose proof (cnt_fupd quer (pc s) cs t q (NoDup_seq 1 n) Hin) as C2.
  split; try done; rewrite ?Hpc, ?(fupd_ne (pc s) t 0) by lia; try done; [..|lia|lia].
  - intros u. destruct (decide (u = t)) as [->|]; [|by rewrite fupd_ne].
    rewrite fupd_eq, Hq. by destruct t; [lia|].
  - intros u Hu. rewrite fupd_ne by lia. by apply Ho.
Qed.

(** While one thread is inside, no client is about to take a chair. *)
Lemma nobody_rises s t q : binv s → crit (pc s t) = true → q ≠ CSobe →
  ∀ u, fupd (pc s) t q u ≠ CSobe.
Proof.
  intros Hs Hc Hq u. destruct (decide (u = t)) as [->|Hu]; [by rewrite fupd_eq|].
  rewrite fupd_ne by done. intros E. pose proof (mutex_other _ _ _ _ _ (bi_mutex _ Hs) Hc Hu) as H.
  by rewrite E in H.
Qed.

(** A step that leaves esperando alone. *)
Lemma rises_before s t q : binv s → q ≠ CSobe →
  ∀ u, fupd (pc s) t q u = CSobe → esperando s < CADEIRAS.
Proof.
  intros Hs Hq u. destruct (decide (u = t)) as [->|Hu]; [by rewrite fupd_eq|].
  rewrite fupd_ne by done. apply (bi_room _ Hs).
Qed.

Lemma barbeiro_step s s' : binv s → barbeiro 0 s = Some s' → binv s'.
Proof.
  intros Hs. pose proof (bi_mutex _ Hs) as Hm. pose proof (bi_woken _ Hs) as Hw.
  pose proof (bi_owed _ Hs) as Hd. pose proof (bi_kind _ Hs 0%nat) as Hk. unfold barbeiro.
  destruct (pc s 0) eqn:E; try done; intros Hstep; simpl in *;
    [destruct (sem_clientes s) eqn:Ev|destruct (mutex s) eqn:Ev|..]; simplify_eq/=;
    [apply (barber_moves s _ BMutex)|apply (barber_moves s _ BDesce)|apply (barber_moves s _ BPronto)
    |apply (barber_moves s _ BSolta)|apply (barber_moves s _ BCorta)|apply (barber_moves s _ BCliente)];
    try done; simpl; try lia; solve_mutex E.
Qed.

Ltac cmove s t q E :=
  apply (client_moves s _ t q); try done; simpl; rewrite ?E; simpl; try lia;
  first [solve_mutex E|by apply rises_before|idtac].

Lemma cliente_step t s s' : binv s → (1 ≤ t ≤ n)%nat → cliente t s = Some s' → binv s'.
Proof.
  intros Hs Ht. pose proof (bi_mutex _ Hs) as Hm. pose proof (bi_kind _ Hs t) as Hk.
  pose proof (bi_bound _ Hs) as Hb. unfold cliente.
  destruct (pc s t) eqn:E; try done; intros Hstep; simpl in *.
  - destruct (mutex s) eqn:Ev; simplify_eq/=. cmove s t CTesta E.
  - injection Hstep as <-. destruct (Z.ltb_spec (esperando s) CADEIRAS) as [Hlt|].
    + cmove s t CSobe E.
    + cmove s t CCheia E.
  - injection Hstep as <-. pose proof (bi_room _ Hs t E). cmove s t CAcorda E.
    intros u Hu. by apply (nobody_rises s t CAcorda Hs) in Hu; [|rewrite E|].
  - injection Hstep as <-. cmove s t CSolta E.
  - injection Hstep as <-. cmove s t CEspera E.
  - destruct (sem_barbeiros s) eqn:Ev; simplify_eq/=. cmove s t CCorte E.
  - injection Hstep as <-. cmove s t CFim E.
  - injection Hstep as <-. cmove s t CFim E.
Qed.

Lemma binv_step t s s' : binv s → barbearia n t s = Some s' → binv s'.
Proof.
  intros Hs. unfold barbearia. destruct (Nat.eqb_spec t 0) as [->|Ht0]; [by apply barbeiro_step|].
  destruct (Nat.leb_spec t n) as [Htn|]; [|done]. apply cliente_step; [done|lia].
Qed.

(** Where a thread waits while nobody is inside. *)
Lemma waits s t : binv s → mutex s = 1%nat → (∀ u, crit (pc s u) = false) → (t ≤ n)%nat →
  barbearia n t s = None →
  (pc s t = BCliente ∧ sem_clientes s = 0%nat) ∨ (pc s t = CEspera ∧ sem_barbeiros s = 0%nat) ∨ pc s t = CFim.
Proof.
  intros Hs Hm Hc Ht. pose proof (bi_kind _ Hs t) as Hk. specialize (Hc t).
  unfold barbearia, barbeiro, cliente. rewrite (proj2 (Nat.leb_le t n)) by done.
  destruct (t =? 0)%nat, (pc s t); simpl in *; rewrite ?Hm; try done; intros H; try tauto.
  - destruct (sem_clientes s); [tauto|done].
  - destruct (sem_barbeiros s); [tauto|done].
Qed.
End inv.

Lemma binv_run n sched : binv n (run (barbearia n) sched abre).
Proof. apply run_inv; [apply binv_step|apply abre_inv]. Qed.

(** ** Properties *)

(** However barber and clients are scheduled: the number of waiting
    clients stays between 0 and the number of chairs, the barber never
    offers more haircuts than there are clients without one, and as long as
    a client waits for its haircut some thread can go on. *)
Theorem barbeiro_safe n sched :
  let s := run (barbearia n) sched abre in
  0 ≤ esperando s ≤ CADEIRAS ∧
  (sem_barbeiros s ≤ cnt quer (pc s) (seq 1 n))%nat ∧
  ((∃ t, (1 ≤ t ≤ n)%nat ∧ pc s t = CEspera) → ∃ u, barbearia n u s ≠ None).
Proof.
  intros s. pose proof (binv_run n sched) as Hs. fold s in Hs.
  pose proof (bi_woken _ _ Hs) as Hw. pose proof (bi_owed _ _ Hs) as Hd. pose proof (bi_bound _ _ Hs) as Hb.
  split; [lia|]. split; [lia|]. intros (t & Ht & Hp).
  destruct (bi_mutex _ _ Hs) as [[Hm Hc]|[Hm [h Hh]]].
  - destruct (barbearia n t s) eqn:Et; [by exists t; rewrite Et|].
    destruct (barbearia n 0 s) eqn:E0; [by exists 0%nat; rewrite E0|]. exfalso.
    destruct (waits n s t) as [[? _]|[[_ Hz]|?]]; try done; [lia|congruence| |congruence].
    destruct (waits n s 0) as [[H0 Hz']|[[H0 _]|H0]]; try done; [lia| |..];
      pose proof (bi_kind _ _ Hs 0%nat) as Hk; rewrite H0 in *; try done. simpl in *.
    assert (cnt conta (pc s) (seq 1 n) = 0%nat) as Hz0.
    { destruct (cnt conta (pc s) (seq 1 n)) eqn:Ec; [done|].
      destruct (cnt_ex conta (pc s) (seq 1 n)) as (u & _ & Hu); [lia|].
      specialize (Hc u). by destruct (pc s u). }
    assert (0 < cnt quer (pc s) (seq 1 n))%nat by (apply (cnt_pos _ _ _ t); [apply elem_of_seq; lia|by rewrite Hp]).
    lia.
  - assert (crit (pc s h) = true) as Hch by by apply Hh. exists h.
    destruct (decide (n < h)%nat) as [Hgt|Hle]; [by rewrite (bi_out _ _ Hs h Hgt) in Hch|].
    pose proof (bi_kind _ _ Hs h) as Hk. unfold barbearia, barbeiro, cliente.
    rewrite (proj2 (Nat.leb_le h n)) by lia. by destruct (h =? 0)%nat, (pc s h).
Qed.

(** Seven clients come before the barber is scheduled: five sit down, two
    leave; then the barber takes the first. *)
Example barbeiro_full :
  let s := run (barbearia 7) (concat (repeat [1; 2; 3; 4; 5; 6; 7] 40) ++ repeat 0 5)%nat abre in
  esperando s = 4 ∧ sem_barbeiros s = 1%nat ∧ pc s 1 = CEspera ∧ pc s 6 = CFim ∧ pc s 7 = CFim.
Proof. by vm_compute. Qed.
