(* ===== verification/LeitorRedator.v ===== *)
(** * Readers and writers (Leitor Redator/LeitorRedator.c)

    Threads 0 to [nr]-1 are readers, the [nw] threads after them writers; main
    starts five of each.  A mutex is its owner.  POSIX leaves it undefined to
    unlock a mutex that another thread, or nobody, has locked: the thread
    that does so goes to [Indef], where the model says nothing more of it. *)

From S2P Require Import Prelude Threads.
Local Open Scope Z_scope.

(** The statement a thread is at: first a reader's, then a writer's. *)
Inductive rwpc :=
  | RTenta | REspera
  | RCont | RInc | RSoltaCont | RTesta | RAcesso | RSoltaEspera
  | RLe
  | RCont' | RDec | RSoltaCont' | RTesta' | RSoltaAcesso
  | WTenta | WEspera | WAcesso | WSoltaEspera | WEscreve | WSoltaAcesso
  | Indef.

Record rwsys := mkRW {
  no_wait : option nat;
  no_acc : option nat;
  counter : option nat;
  no_of_readers : Z;
  pc : nat → rwpc;
}.

Definition goto (t : nat) (p : rwpc) (s : rwsys) : rwsys :=
  mkRW (no_wait s) (no_acc s) (counter s) (no_of_readers s) (fupd (pc s) t p).
Definition set_wait (m : option nat) (s : rwsys) : rwsys :=
  mkRW m (no_acc s) (counter s) (no_of_readers s) (pc s).
Definition set_acc (m : option nat) (s : rwsys) : rwsys :=
  mkRW (no_wait s) m (counter s) (no_of_readers s) (pc s).
Definition set_counter (m : option nat) (s : rwsys) : rwsys :=
  mkRW (no_wait s) (no_acc s) m (no_of_readers s) (pc s).
Definition set_readers (n : Z) (s : rwsys) : rwsys :=
  mkRW (no_wait s) (no_acc s) (counter s) n (pc s).

(** pthread_mutex_unlock by [t] of the mutex [get], then on to [q]. *)
Definition unlock (t : nat) (get : rwsys → option nat) (set : option nat → rwsys → rwsys)
    (q : rwpc) (s : rwsys) : rwsys :=
  if bool_decide (get s = Some t) then goto t q (set None s) else goto t Indef s.

Definition check_and_wait (t : nat) (s : rwsys) : option rwsys :=
  match pc s t with
  | RTenta => Some (match lock t (no_wait s) with
                    | Some m => goto t RCont (set_wait m s)
                    | None => goto t REspera s
                    end)
  | REspera => m ← lock t (no_wait s); Some (goto t RCont (set_wait m s))
  | _ => None
  end.

Definition read (t : nat) (s : rwsys) : option rwsys :=
  match pc s t with
  | RCont => m ← lock t (counter s); Some (goto t RInc (set_counter m s))
  | RInc => Some (goto t RSoltaCont (set_readers (no_of_readers s + 1) s))
  | RSoltaCont => Some (unlock t counter set_counter RTesta s)
  | RTesta => Some (goto t (if no_of_readers s =? 1 then RAcesso else RSoltaEspera) s)
  | RAcesso => m ← lock t (no_acc s); Some (goto t RSoltaEspera (set_acc m s))
  | RSoltaEspera => Some (unlock t no_wait set_wait RLe s)
  | RLe => Some (goto t RCont' s)
  | RCont' => m ← lock t (counter s); Some (goto t RDec (set_counter m s))
  | RDec => Some (goto t RSoltaCont' (set_readers (no_of_readers s - 1) s))
  | RSoltaCont' => Some (unlock t counter set_counter RTesta' s)
  | RTesta' => Some (goto t (if no_of_readers s =? 0 then RSoltaAcesso else RTenta) s)
  | RSoltaAcesso => Some (unlock t no_acc set_acc RTenta s)
  | _ => None
  end.

Definition reader (t : nat) (s : rwsys) : option rwsys :=
  match pc s t with RTenta | REspera => check_and_wait t s | _ => read t s end.

Definition check_and_wait_if_busy (t : nat) (s : rwsys) : option rwsys :=
  match pc s t with
  | WTenta => Some (match lock t (no_wait s) with
                    | Some m => goto t WAcesso (set_wait m s)
                    | None => goto t WEspera s
                    end)
  | WEspera => m ← lock t (no_wait s); Some (goto t WAcesso (set_wait m s))
  | _ => None
  end.

Definition write (t : nat) (s : rwsys) : option rwsys :=
  match pc s t with
  | WAcesso => m ← lock t (no_acc s); Some (goto t WSoltaEspera (set_acc m s))
  | WSoltaEspera => Some (unlock t no_wait set_wait WEscreve s)
  | WEscreve => Some (goto t WSoltaAcesso s)
  | WSoltaAcesso => Some (unlock t no_acc set_acc WTenta s)
  | _ => None
  end.

Definition writer (t : nat) (s : rwsys) : option rwsys :=
  match pc s t with WTenta | WEspera => check_and_wait_if_busy t s | _ => write t s end.

Definition leitores (nr nw t : nat) (s : rwsys) : option rwsys :=
  if (t <? nr)%nat then reader t s
  else if (t <? nr + nw)%nat then writer t s
  else None.

Definition inicia (nr : nat) : rwsys :=
  mkRW None None None 0 (λ t, if (t <? nr)%nat then RTenta else WTenta).

(** ** One reader *)

Definition in_wait (p : rwpc) : bool :=
  match p with
  | RCont | RInc | RSoltaCont | RTesta | RAcesso | RSoltaEspera | WAcesso | WSoltaEspera => true
  | _ => false
  end.
Definition in_acc (p : rwpc) : bool :=
  match p with
  | RSoltaEspera | RLe | RCont' | RDec | RSoltaCont' | RTesta' | RSoltaAcesso
  | WSoltaEspera | WEscreve | WSoltaAcesso => true
  | _ => false
  end.
Definition in_counter (p : rwpc) : bool :=
  match p with RInc | RSoltaCont | RDec | RSoltaCont' => true | _ => false end.
Definition counted (p : rwpc) : bool :=
  match p with
  | RSoltaCont | RTesta | RAcesso | RSoltaEspera | RLe | RCont' | RDec => true
  | _ => false
  end.
Definition is_reader (p : rwpc) : bool :=
  match p with
  | WTenta | WEspera | WAcesso | WSoltaEspera | WEscreve | WSoltaAcesso | Indef => false
  | _ => true
  end.

Record rwinv (s : rwsys) : Prop := {
  rw_wait : owned in_wait (no_wait s) (pc s);
  rw_acc : owned in_acc (no_acc s) (pc s);
  rw_counter : owned in_counter (counter s) (pc s);
  rw_kind t : is_reader (pc s t) = (t =? 0)%nat ∧ pc s t ≠ Indef;
  rw_count : no_of_readers s = Z.b2z (counted (pc s 0));
}.

Lemma inicia_inv : rwinv (inicia 1).
Proof.
  split; simpl; try (apply owned_init; by intros [|]); try done. by intros [|].
Qed.

(** Thread [t] moves on to [q]. *)
Lemma rw_moves s s' t q : rwinv s → pc s' = fupd (pc s) t q → q ≠ Indef →
  is_reader q = is_reader (pc s t) →
  owned in_wait (no_wait s') (pc s') → owned in_acc (no_acc s') (pc s') →
  owned in_counter (counter s') (pc s') →
  no_of_readers s' - (if (t =? 0)%nat then Z.b2z (counted q) else 0) =
    no_of_readers s - (if (t =? 0)%nat then Z.b2z (counted (pc s t)) else 0) →
  rwinv s'.
Proof.
  intros [_ _ _ Hk Hn] Hpc Hi Hq H1 H2 H3 Hn'. split; [done..| |].
  - intros u. rewrite Hpc. destruct (decide (u = t)) as [->|]; [|by rewrite fupd_ne].
    rewrite fupd_eq, Hq. split; [apply Hk|done].
  - rewrite Hpc. destruct (Nat.eqb_spec t 0) as [->|Ht]; [rewrite fupd_eq; lia|].
    rewrite fupd_ne by done. lia.
Qed.

Ltac rwmove s t q E :=
  apply (rw_moves s _ t q); [done|reflexivity|done|by rewrite E|simpl..];
  rewrite ?E; simpl; repeat match goal with H : ?g s = _ |- context [?g s] => rewrite H end; [solve_owned E|solve_owned E|solve_owned E|try (case_match; lia); try lia].

(** The owner of a mutex unlocks it. *)
Lemma unlock_owner crit t get set q s :
  owned crit (get s) (pc s) → crit (pc s t) = true →
  unlock t get set q s = goto t q (set None s) ∧ get s = Some t.
Proof. intros H Hc%H. unfold unlock. by rewrite bool_decide_true. Qed.

Lemma reader_step s s' : rwinv s → reader 0 s = Some s' → rwinv s'.
Proof.
  intros Hs. pose proof (rw_wait _ Hs) as Hw. pose proof (rw_acc _ Hs) as Ha.
  pose proof (rw_counter _ Hs) as Hc. pose proof (rw_count _ Hs) as Hn.
  destruct (rw_kind _ Hs 0%nat) as [Hk _].
  unfold reader, check_and_wait, read. destruct (pc s 0) eqn:E; try done; intros Hstep; simpl in *.
  - injection Hstep as <-. destruct (no_wait s) eqn:Ew; simpl; [rwmove s 0%nat REspera E|rwmove s 0%nat RCont E].
  - destruct (no_wait s) eqn:Ew; simplify_eq/=. rwmove s 0%nat RCont E.
  - destruct (counter s) eqn:Ew; simplify_eq/=. rwmove s 0%nat RInc E.
  - injection Hstep as <-. rwmove s 0%nat RSoltaCont E.
  - injection Hstep as <-. destruct (unlock_owner in_counter 0 counter set_counter RTesta s Hc) as [-> Eo];
      [by rewrite E|]. rewrite Eo in Hc. rwmove s 0%nat RTesta E.
  - injection Hstep as <-. rewrite Hn. rwmove s 0%nat RAcesso E.
  - destruct (no_acc s) eqn:Ew; simplify_eq/=. rwmove s 0%nat RSoltaEspera E.
  - injection Hstep as <-. destruct (unlock_owner in_wait 0 no_wait set_wait RLe s Hw) as [-> Eo];
      [by rewrite E|]. rewrite Eo in Hw. rwmove s 0%nat RLe E.
  - injection Hstep as <-. rwmove s 0%nat RCont' E.
  - destruct (counter s) eqn:Ew; simplify_eq/=. rwmove s 0%nat RDec E.
  - injection Hstep as <-. rwmove s 0%nat RSoltaCont' E.
  - injection Hstep as <-. destruct (unlock_owner in_counter 0 counter set_counter RTesta' s Hc) as [-> Eo];
      [by rewrite E|]. rewrite Eo in Hc. rwmove s 0%nat RTesta' E.
  - injection Hstep as <-. rewrite Hn. rwmove s 0%nat RSoltaAcesso E.
  - injection Hstep as <-. destruct (unlock_owner in_acc 0 no_acc set_acc RTenta s Ha) as [-> Eo];
      [by rewrite E|]. rewrite Eo in Ha. rwmove s 0%nat RTenta E.
Qed.

Lemma writer_step t s s' : t ≠ 0%nat → rwinv s → writer t s = Some s' → rwinv s'.
Proof.
  intros Ht Hs. pose proof (rw_wait _ Hs) as Hw. pose proof (rw_acc _ Hs) as Ha.
  pose proof (rw_counter _ Hs) as Hc. pose proof (rw_count _ Hs) as Hn.
  pose proof (proj2 (Nat.eqb_neq t 0) Ht) as Et.
  unfold writer, check_and_wait_if_busy, write. destruct (pc s t) eqn:E; try done; intros Hstep; simpl in *.
  - injection Hstep as <-. destruct (no_wait s) eqn:Ew; simpl; [rwmove s t WEspera E|rwmove s t WAcesso E].
  - destruct (no_wait s) eqn:Ew; simplify_eq/=. rwmove s t WAcesso E.
  - destruct (no_acc s) eqn:Ew; simplify_eq/=. rwmove s t WSoltaEspera E.
  - injection Hstep as <-. destruct (unlock_owner in_wait t no_wait set_wait WEscreve s Hw) as [-> Eo];
      [by rewrite E|]. rewrite Eo in Hw. rwmove s t WEscreve E.
  - injection Hstep as <-. rwmove s t WSoltaAcesso E.
  - injection Hstep as <-. destruct (unlock_owner in_acc t no_acc set_acc WTenta s Ha) as [-> Eo];
      [by rewrite E|]. rewrite Eo in Ha. rwmove s t WTenta E.
Qed.

Lemma rwinv_run nw sched : rwinv (run (leitores 1 nw) sched (inicia 1)).
Proof.
  apply run_inv; [|apply inicia_inv]. intros t s s' Hs. unfold leitores.
  destruct (Nat.ltb_spec t 1) as [Ht|Ht].
  - replace t with 0%nat by lia. by apply reader_step.
  - destruct (t <? 1 + nw)%nat; [|done]. apply writer_step; [lia|done].
Qed.

(** ** Properties *)

Definition lendo (p : rwpc) : bool := match p with RLe => true | _ => false end.
Definition escrevendo (p : rwpc) : bool := match p with WEscreve => true | _ => false end.

(** With one reader and any number of writers, however they are
    scheduled, a writer that writes is alone: no other thread reads or
    writes, and no thread unlocks a mutex it does not own. *)
Theorem escritor_exclusive nw sched :
  let s := run (leitores 1 nw) sched (inicia 1) in
  (∀ t u, escrevendo (pc s t) = true → lendo (pc s u) || escrevendo (pc s u) = true → t = u) ∧
  ∀ t, pc s t ≠ Indef.
Proof.
  intros s. pose proof (rwinv_run nw sched) as Hs. fold s in Hs. split; [|apply (rw_kind _ Hs)].
  intros t u Ht Hu. pose proof (rw_acc _ Hs) as Ha.
  assert (no_acc s = Some t) by (apply Ha; by destruct (pc s t)).
  assert (no_acc s = Some u) by (apply Ha; by destruct (pc s u)). congruence.
Qed.

(** [C38] no_of_readers is tested after its mutex has been released.  With two
    readers, one that leaves and one that enters can block each other and
    every writer for good. *)
Theorem leitores_deadlock : ∃ sched,
  let s := run (leitores 2 5) sched (inicia 2) in
  pc s 0 = REspera ∧ pc s 1 = RAcesso ∧ ∀ t, leitores 2 5 t s = None.
Proof.
  exists ([0; 0; 0; 0; 0; 0; 0] ++ [0; 0; 0; 0] ++ [1; 1; 1; 1; 1] ++ [0; 0] ++ [2; 3; 4; 5; 6])%nat.
  split; [by vm_compute|]. split; [by vm_compute|].
  intros t. destruct (decide (t < 7)%nat) as [Ht|Ht].
  - do 7 (destruct t as [|t]; [by vm_compute|]). lia.
  - unfold leitores. rewrite (proj2 (Nat.ltb_ge t 2)), (proj2 (Nat.ltb_ge t (2 + 5))) by lia. done.
Qed.

(** Two readers that leave together both find the count at 0: the second
    one unlocks no_acc although a writer has locked it and writes. *)
Theorem leitores_unlock_writer : ∃ sched,
  let s := run (leitores 2 1) sched (inicia 2) in
  pc s 1 = RSoltaAcesso ∧ pc s 2 = WEscreve ∧ no_acc s = Some 2%nat.
Proof.
  exists ([0; 0; 0; 0; 0; 0; 0] ++ [1; 1; 1; 1; 1; 1] ++ [0; 0; 0; 0] ++ [1; 1; 1; 1] ++
          [1] ++ [0; 0] ++ [2; 2; 2])%nat. by vm_compute.
Qed.
