(* ===== verification/ProdCons.v ===== *)
(** * Producers and consumers (Produtor Consumidor/)

    [Ocupado] models ProdutorConsumidor.c: producers and consumers that share
    one slot under a mutex and poll it.  [Aula] models
    ProdutorConsumidorAula.c with mysem.c: one producer and one consumer that
    share a ring of ten slots and wake each other through semaphores.  The
    items that have gone in and out are recorded in the order in which the
    programs print them being produced and taken. *)

From S2P Require Import Prelude Threads.
Local Open Scope Z_scope.

(** ** The ring of ProdutorConsumidorAula.c *)

Module Aula.

Definition MAX_BUF : Z := 10.

(** The statement of producer() and of consumer() to be executed next. *)
Inductive ppc := P0 | P1 | P2 | P3 | P4 | P5 | P6 | P7 | P8 | P9 | P10 | P11 | P12.
Inductive cpc := C0 | C1 | C2 | C3 | C4 | C5 | C6 | C7 | C8 | C9 | C10 | C11 | C12.

Record asys := mkA {
  buffer : list Z;
  head : Z;
  tail : Z;
  item_id : Z;
  count : Z;
  sem0 : nat;
  sem1 : nat;
  sem2 : nat;
  eflag : Z;
  fflag : Z;
  pp : ppc;
  cc : cpc;
  consumed : list Z;
}.

(** sem_init_diff_val hands the int array to semctl as an array of unsigned
    shorts: the low and the high half of every int. *)
Definition halves (a : list Z) : list Z := concat ((λ x, [u16 x; u16 (x / 65536)]) <$> a).
Definition sem_init_diff_val (n : nat) (a : list Z) : list Z := take n (halves a).

(** sem_change by -1 and by 1. *)
Definition down (v : nat) : option nat := sem_wait v.
Definition up (v : nat) : nat := S v.

Definition set_sems (a b c : nat) (s : asys) : asys :=
  mkA (buffer s) (head s) (tail s) (item_id s) (count s) a b c (eflag s) (fflag s) (pp s) (cc s) (consumed s).
Definition set_count (x : Z) (s : asys) : asys :=
  mkA (buffer s) (head s) (tail s) (item_id s) x (sem0 s) (sem1 s) (sem2 s) (eflag s) (fflag s) (pp s) (cc s) (consumed s).
Definition set_flags (e f : Z) (s : asys) : asys :=
  mkA (buffer s) (head s) (tail s) (item_id s) (count s) (sem0 s) (sem1 s) (sem2 s) e f (pp s) (cc s) (consumed s).
Definition set_ring (b : list Z) (h t i : Z) (l : list Z) (s : asys) : asys :=
  mkA b h t i (count s) (sem0 s) (sem1 s) (sem2 s) (eflag s) (fflag s) (pp s) (cc s) l.
Definition pgo (p : ppc) (s : asys) : asys :=
  mkA (buffer s) (head s) (tail s) (item_id s) (count s) (sem0 s) (sem1 s) (sem2 s) (eflag s) (fflag s) p (cc s) (consumed s).
Definition cgo (c : cpc) (s : asys) : asys :=
  mkA (buffer s) (head s) (tail s) (item_id s) (count s) (sem0 s) (sem1 s) (sem2 s) (eflag s) (fflag s) (pp s) c (consumed s).

Definition producer (s : asys) : option asys :=
  match pp s with
  | P0 => v ← down (sem0 s); Some (pgo P1 (set_sems v (sem1 s) (sem2 s) s))
  | P1 => Some (pgo (if count s =? MAX_BUF then P2 else P6) s)
  | P2 => Some (pgo P3 (set_flags (eflag s) 1 s))
  | P3 => Some (pgo P4 (set_sems (up (sem0 s)) (sem1 s) (sem2 s) s))
  | P4 => v ← down (sem2 s); Some (pgo P5 (set_sems (sem0 s) (sem1 s) v s))
  | P5 => v ← down (sem0 s); Some (pgo P6 (set_sems v (sem1 s) (sem2 s) s))
  | P6 => Some (pgo P7 (set_count (count s + 1) s))
  | P7 => Some (pgo P8 (set_ring (<[Z.to_nat (head s) := item_id s]> (buffer s)) (head s) (tail s)
                          (i32 (item_id s + 1)) (consumed s) s))
  | P8 => Some (pgo (if (count s =? 1) && (eflag s =? 1) then P9 else P11) s)
  | P9 => Some (pgo P10 (set_flags 0 (fflag s) s))
  | P10 => Some (pgo P11 (set_sems (sem0 s) (up (sem1 s)) (sem2 s) s))
  | P11 => Some (pgo P12 (set_ring (buffer s) ((head s + 1) mod MAX_BUF) (tail s) (item_id s) (consumed s) s))
  | P12 => Some (pgo P0 (set_sems (up (sem0 s)) (sem1 s) (sem2 s) s))
  end.

Definition consumer (s : asys) : option asys :=
  match cc s with
  | C0 => v ← down (sem0 s); Some (cgo C1 (set_sems v (sem1 s) (sem2 s) s))
  | C1 => Some (cgo (if count s =? 0 then C2 else C6) s)
  | C2 => Some (cgo C3 (set_flags 1 (fflag s) s))
  | C3 => Some (cgo C4 (set_sems (up (sem0 s)) (sem1 s) (sem2 s) s))
  | C4 => v ← down (sem1 s); Some (cgo C5 (set_sems (sem0 s) v (sem2 s) s))
  | C5 => v ← down (sem0 s); Some (cgo C6 (set_sems v (sem1 s) (sem2 s) s))
  | C6 => Some (cgo C7 (set_count (count s - 1) s))
  | C7 => x ← buffer s !! Z.to_nat (tail s);
          Some (cgo C8 (set_ring (buffer s) (head s) (tail s) (item_id s) (consumed s ++ [x]) s))
  | C8 => Some (cgo C9 (set_ring (buffer s) (head s) ((tail s + 1) mod MAX_BUF) (item_id s) (consumed s) s))
  | C9 => Some (cgo (if (count s =? MAX_BUF - 1) && (fflag s =? 1) then C10 else C12) s)
  | C10 => Some (cgo C11 (set_flags (eflag s) 0 s))
  | C11 => Some (cgo C12 (set_sems (sem0 s) (sem1 s) (up (sem2 s)) s))
  | C12 => Some (cgo C0 (set_sems (up (sem0 s)) (sem1 s) (sem2 s) s))
  end.

Definition threads (t : nat) (s : asys) : option asys :=
  match t with 0%nat => producer s | 1%nat => consumer s | _ => None end.

(** main, with calloc and the values {1, 0, 0}. *)
Definition aula_main : asys :=
  let v i := Z.to_nat (default 0 (sem_init_diff_val 3 [1; 0; 0] !! i)) in
  mkA (replicate 10 0) 0 0 1 0 (v 0%nat) (v 1%nat) (v 2%nat) 0 0 P0 C0 [].

(** *** Control: semaphores, flags and the count *)

Definition pcrit (p : ppc) : bool := match p with P0 | P4 | P5 => false | _ => true end.
Definition ccrit (c : cpc) : bool := match c with C0 | C4 | C5 => false | _ => true end.

(** What the producer's statement says of the rest. *)
Definition p_ok (p : ppc) (c : cpc) (s1 s2 : nat) (n e f : Z) : Prop :=
  match p with
  | P2 => n = 10 ∧ f = 0 ∧ s2 = 0%nat
  | P3 => n = 10 ∧ f = 1 ∧ s2 = 0%nat
  | P4 => (f = 1 ∧ s2 = 0%nat ∧ (n = 10 ∨ n = 9 ∧ match c with C7 | C8 | C9 | C10 => True | _ => False end)) ∨
          (f = 0 ∧ s2 = 0%nat ∧ c = C11 ∧ n < 10) ∨ (f = 0 ∧ s2 = 1%nat ∧ n < 10)
  | P5 | P6 => f = 0 ∧ s2 = 0%nat ∧ n < 10
  | _ => f = 0 ∧ s2 = 0%nat
  end ∧
  match p with
  | P7 | P8 => 0 < n
  | P9 => n = 1 ∧ c = C4 ∧ e = 1
  | P10 => 0 < n ∧ c = C4 ∧ e = 0 ∧ s1 = 0%nat
  | _ => True
  end.

Definition c_ok (c : cpc) (p : ppc) (s1 s2 : nat) (n e f : Z) : Prop :=
  match c with
  | C2 => n = 0 ∧ e = 0 ∧ s1 = 0%nat
  | C3 => n = 0 ∧ e = 1 ∧ s1 = 0%nat
  | C4 => (e = 1 ∧ s1 = 0%nat ∧ (n = 0 ∨ n = 1 ∧ match p with P7 | P8 | P9 => True | _ => False end)) ∨
          (e = 0 ∧ s1 = 0%nat ∧ p = P10 ∧ 0 < n) ∨ (e = 0 ∧ s1 = 1%nat ∧ 0 < n)
  | C5 | C6 => e = 0 ∧ s1 = 0%nat ∧ 0 < n
  | _ => e = 0 ∧ s1 = 0%nat
  end ∧
  match c with
  | C7 | C8 | C9 => n < 10
  | C10 => n = 9 ∧ p = P4 ∧ f = 1
  | C11 => n < 10 ∧ p = P4 ∧ f = 0 ∧ s2 = 0%nat
  | _ => True
  end.

Record ctl (s : asys) : Prop := {
  ct_mutex : (sem0 s + Nat.b2n (pcrit (pp s)) + Nat.b2n (ccrit (cc s)) = 1)%nat;
  ct_count : 0 ≤ count s ≤ 10;
  ct_p : p_ok (pp s) (cc s) (sem1 s) (sem2 s) (count s) (eflag s) (fflag s);
  ct_c : c_ok (cc s) (pp s) (sem1 s) (sem2 s) (count s) (eflag s) (fflag s);
}.

Lemma main_ctl : ctl aula_main.
Proof. by split; vm_compute. Qed.

(** After the two statements are known, what is left is arithmetic. *)
Ltac ctl_cases :=
  unfold p_ok, c_ok in *; simpl in *;
  repeat match goal with
         | H : _ ∧ _ |- _ => destruct H
         | H : _ ∨ _ |- _ => destruct H
         | H : _ && _ = true |- _ => apply andb_prop in H
         end; simplify_eq; try done;
  split; simpl; unfold p_ok, c_ok; try lia; intuition lia.

Lemma producer_ctl s s' : ctl s → producer s = Some s' → ctl s'.
Proof.
  destruct s as [b h t i n s0 s1 s2 e f p c l]. intros [Hm Hn Hp Hc].
  unfold producer, down, sem_wait, up, MAX_BUF. simpl in *.
  destruct p, c; simpl in *; try lia; intros Hs; repeat case_match; simplify_eq/=; ctl_cases.
Qed.

Lemma consumer_ctl s s' : ctl s → consumer s = Some s' → ctl s'.
Proof.
  destruct s as [b h t i n s0 s1 s2 e f p c l]. intros [Hm Hn Hp Hc].
  unfold consumer, down, sem_wait, up, MAX_BUF. simpl in *. destruct (b !! Z.to_nat t).
  all: destruct p, c; simpl in *; try lia; intros Hs; repeat case_match; simplify_eq/=; ctl_cases.
Qed.

(** *** Data: the ring holds the items from the first not yet taken on *)

Definition taken (s : asys) : Z := Z.of_nat (length (consumed s)).

Definition at_p7 (p : ppc) : Z := match p with P7 => 1 | _ => 0 end.
Definition at_c7 (c : cpc) : Z := match c with C7 => 1 | _ => 0 end.
Definition behind_tail (c : cpc) : Z := match c with C8 => 1 | _ => 0 end.
Definition behind_head (p : ppc) : Z := match p with P8 | P9 | P10 | P11 => 1 | _ => 0 end.

(** [m] items have been made; an item is its number as an int. *)
Record dat (m : Z) (s : asys) : Prop := {
  da_id : item_id s = i32 (m + 1);
  da_len : length (buffer s) = 10%nat;
  da_consumed : consumed s = i32 <$> seqZ 1 (taken s);
  da_count : count s = m - taken s + at_p7 (pp s) - at_c7 (cc s);
  da_head : head s = (m - behind_head (pp s)) mod 10;
  da_tail : tail s = (taken s - behind_tail (cc s)) mod 10;
  da_ring j : taken s < j ≤ m → buffer s !! Z.to_nat ((j - 1) mod 10) = Some (i32 j);
}.

Lemma main_dat : dat 0 aula_main.
Proof. split; try done. unfold taken. simpl. lia. Qed.

Lemma i32_next x : i32 (i32 x + 1) = i32 (x + 1).
Proof. unfold i32. repeat case_if; zdm. Qed.

(** Steps that touch neither ring nor count. *)
Lemma dat_same m s s' : dat m s →
  buffer s' = buffer s → consumed s' = consumed s → item_id s' = item_id s →
  count s' - at_p7 (pp s') + at_c7 (cc s') = count s - at_p7 (pp s) + at_c7 (cc s) →
  head s' = head s → behind_head (pp s') = behind_head (pp s) →
  tail s' = tail s → behind_tail (cc s') = behind_tail (cc s) →
  dat m s'.
Proof.
  intros [H0 H1 H2 H3 H4 H5 H6] Eb El Ei Ec Eh Ep Et E8.
  assert (taken s' = taken s) as Ek by (unfold taken; by rewrite El).
  split; rewrite ?Ek, ?Eb, ?El, ?Ei, ?Ep, ?E8, ?Eh, ?Et; try done. lia.
Qed.

(** The producer's item goes to a slot that holds none that is still wanted. *)
Lemma producer_puts m s : ctl s → dat m s → pp s = P7 →
  ∀ j, taken s < j ≤ m + 1 →
    <[Z.to_nat (head s) := item_id s]> (buffer s) !! Z.to_nat ((j - 1) mod 10) = Some (i32 j).
Proof.
  intros [Hm Hn _ _] [H0 H1 _ H3 H4 _ H6] Ep j Hj. rewrite Ep in *. simpl in *.
  assert (at_c7 (cc s) = 0) as E7 by (destruct (cc s); simpl in *; try done; lia).
  unfold at_p7 in H3. destruct (decide (j = m + 1)) as [->|Hne].
  - rewrite H4, H0. simpl. replace (m + 1 - 1) with (m - 0) by lia.
    rewrite list_lookup_insert_eq; [done|]. rewrite H1. zdm.
  - rewrite list_lookup_insert_ne; [apply H6; lia|]. rewrite H4. simpl. zdm.
Qed.

Ltac same m s E := exists m; apply (dat_same m s); rewrite ?E; simpl; (done || lia).

Lemma producer_dat m s s' : ctl s → dat m s → producer s = Some s' → ∃ m', dat m' s'.
Proof.
  intros C D. pose proof D as [H0 H1 H2 H3 H4 H5 H6]. unfold producer, down, sem_wait, up.
  destruct (pp s) eqn:Ep; intros Hs.
  - destruct (sem0 s); simplify_eq/=. same m s Ep.
  - destruct (count s =? MAX_BUF); simplify_eq/=; same m s Ep.
  - simplify_eq. same m s Ep.
  - simplify_eq. same m s Ep.
  - destruct (sem2 s); simplify_eq/=. same m s Ep.
  - destruct (sem0 s); simplify_eq/=. same m s Ep.
  - simplify_eq. same m s Ep.
  - simplify_eq. pose proof (producer_puts m s C D Ep) as Hr. exists (m + 1).
    unfold taken in *. simpl in *. split; unfold taken; simpl in *; try done.
    + rewrite H0, i32_next. done.
    + by rewrite length_insert.
    + lia.
    + rewrite H4. f_equal. lia.
  - destruct ((count s =? 1) && (eflag s =? 1)); simplify_eq/=; same m s Ep.
  - simplify_eq. same m s Ep.
  - simplify_eq. same m s Ep.
  - simplify_eq. exists m. unfold taken in *. split; unfold taken; simpl in *; try done.
    rewrite H4. unfold MAX_BUF. zdm.
  - simplify_eq. same m s Ep.
Qed.

Lemma consumer_dat m s s' : ctl s → dat m s → consumer s = Some s' → ∃ m', dat m' s'.
Proof.
  intros C D. pose proof D as [H0 H1 H2 H3 H4 H5 H6]. unfold consumer, down, sem_wait, up.
  destruct (cc s) eqn:Ec; intros Hs.
  - destruct (sem0 s); simplify_eq/=. same m s Ec.
  - destruct (count s =? 0); simplify_eq/=; same m s Ec.
  - simplify_eq. same m s Ec.
  - simplify_eq. same m s Ec.
  - destruct (sem1 s); simplify_eq/=. same m s Ec.
  - destruct (sem0 s); simplify_eq/=. same m s Ec.
  - simplify_eq. same m s Ec.
  - assert (buffer s !! Z.to_nat (tail s) = Some (i32 (taken s + 1))) as Hx.
    { rewrite H5. replace (taken s - behind_tail C7) with (taken s + 1 - 1) by (simpl; lia).
      apply H6. destruct C as [Hm Hn _ _]. rewrite Ec in Hm. unfold at_p7, at_c7 in H3.
      destruct (pp s); simpl in *; lia. }
    rewrite Hx in Hs. simplify_eq/=. exists m.
    match goal with |- dat _ ?x => set (s1 := x) end.
    assert (taken s1 = taken s + 1) as Ek.
    { unfold taken, s1. simpl. rewrite length_app. simpl. unfold taken. lia. }
    split; rewrite ?Ek; try done; simpl.
    + rewrite (seqZ_app 1 (taken s) 1) by (unfold taken; lia). rewrite fmap_app, <-H2. f_equal.
      rewrite Z.add_comm. by rewrite (seqZ_cons (1 + taken s)) by lia.
    + lia.
    + rewrite H5. f_equal. lia.
    + intros j Hj. apply H6. lia.
  - simplify_eq. exists m. unfold taken in *. split; unfold taken; simpl in *; try done.
    rewrite H5. unfold MAX_BUF. zdm.
  - destruct ((count s =? MAX_BUF - 1) && (fflag s =? 1)); simplify_eq/=; same m s Ec.
  - simplify_eq. same m s Ec.
  - simplify_eq. same m s Ec.
  - simplify_eq. same m s Ec.
Qed.

Lemma aula_run sched : ctl (run threads sched aula_main) ∧ ∃ m, dat m (run threads sched aula_main).
Proof.
  apply (run_inv threads (λ s, ctl s ∧ ∃ m, dat m s)); [|split; [apply main_ctl|exists 0; apply main_dat]].
  intros [|[|t]] s s' [C [m D]] Hs; [| |done]; simpl in Hs.
  - split; [by eapply producer_ctl|by eapply producer_dat].
  - split; [by eapply consumer_ctl|by eapply consumer_dat].
Qed.

(** [C39] One producer and one consumer, however they are scheduled: the ring
    never holds fewer than 0 or more than MAX_BUF items; the consumer takes
    the items in the order they were produced, none lost and none twice (the
    k-th item taken is the k-th made, which is the number k as an int: item_id
    wraps after 2^31 - 1 items); and the two never both wait. *)
Theorem aula_fifo sched :
  let s := run threads sched aula_main in
  let n := Z.of_nat (length (consumed s)) in
  0 ≤ count s ≤ MAX_BUF ∧
  consumed s = i32 <$> seqZ 1 n ∧
  (∃ made, n ≤ made ≤ n + MAX_BUF ∧ item_id s = i32 (made + 1)) ∧
  ∃ t, threads t s ≠ None.
Proof.
  intros s n. destruct (aula_run sched) as [C [m D]]. fold s in C, D.
  pose proof C as [Hm Hn Hp Hc]. pose proof D as [H0 H1 H2 H3 H4 H5 H6].
  split; [done|]. split; [done|]. split.
  { exists m. split; [|done]. unfold taken, at_p7, at_c7, p_ok, c_ok, MAX_BUF in *. fold n in H3. destruct (pp s), (cc s); simpl in *; lia. }
  destruct (producer s) eqn:Eq; [exists 0%nat; simpl; by rewrite Eq|]. exists 1%nat. simpl.
  assert (buffer s !! Z.to_nat (tail s) ≠ None) as Hx.
  { rewrite H5. intros Hn0%lookup_ge_None. rewrite H1 in Hn0. zdm. }
  unfold producer, consumer, down, sem_wait in *.
  destruct (pp s), (cc s), (sem0 s), (sem1 s), (sem2 s); simpl in *; try done; try lia.
  all: unfold p_ok, c_ok in *; simpl in *; try lia; try tauto.
  all: try (destruct (buffer s !! Z.to_nat (tail s)); simpl; done).
  exfalso. intuition (discriminate || lia).
Qed.

(** The producer fills the ring and waits; the consumer takes two items and
    wakes it; it fills the ring again. *)
Example aula_fill :
  let s := run threads (repeat 0 120 ++ repeat 1 16 ++ repeat 0 20)%nat aula_main in
  consumed s = [1; 2] ∧ count s = 10 ∧ item_id s = 13 ∧ pp s = P4.
Proof. by vm_compute. Qed.

(** The halves of the array come out right only because the values main
    passes fit. *)
Example sem_init_halves : sem_init_diff_val 3 [1; 0; 0] = [1; 0; 0] ∧ sem_init_diff_val 3 [1; 2; 3] = [1; 0; 2].
Proof. by vm_compute. Qed.
End Aula.

(** ** The polled slot of ProdutorConsumidor.c *)

Module Ocupado.

Definition BUFFERVAZIO : Z := 0.
Definition BUFFERCHEIO : Z := 1.

(** The statement a thread is at: first a producer's, then a consumer's. *)
Inductive opc :=
  | PTrava | PTesta | PSolta | PInsere | PCheio | PDestrava | PFim
  | CTrava | CTesta | CSolta | CRetira | CVazio | CDestrava.

Record osys := mkO {
  mutex : nat;
  buffer : Z;
  estado : Z;
  vi : nat → Z;             (* the variable i of each producer *)
  pc : nat → opc;
  inserted : list Z;
  removed : list Z;
}.

Definition goto (t : nat) (p : opc) (s : osys) : osys :=
  mkO (mutex s) (buffer s) (estado s) (vi s) (fupd (pc s) t p) (inserted s) (removed s).
Definition set_mutex (m : nat) (s : osys) : osys :=
  mkO m (buffer s) (estado s) (vi s) (pc s) (inserted s) (removed s).
Definition set_estado (x : Z) (s : osys) : osys :=
  mkO (mutex s) (buffer s) x (vi s) (pc s) (inserted s) (removed s).
Definition insert_item (x : Z) (s : osys) : osys :=
  mkO (mutex s) x (estado s) (vi s) (pc s) (inserted s ++ [x]) (removed s).
Definition remove_item (s : osys) : osys :=
  mkO (mutex s) (buffer s) (estado s) (vi s) (pc s) (inserted s) (removed s ++ [buffer s]).
Definition set_i (t : nat) (x : Z) (s : osys) : osys :=
  mkO (mutex s) (buffer s) (estado s) (fupd (vi s) t x) (pc s) (inserted s) (removed s).

(** Thread [t] is the producer with the number [t] + 1. *)
Definition ident (t : nat) : Z := Z.of_nat t + 1.
Definition item (t : nat) (i : Z) : Z := i + ident t * 1000.

Definition produtor (t : nat) (s : osys) : option osys :=
  match pc s t with
  | PTrava => m ← sem_wait (mutex s); Some (goto t PTesta (set_mutex m s))
  | PTesta => Some (goto t (if estado s =? BUFFERCHEIO then PSolta else PInsere) s)
  | PSolta => Some (goto t PTrava (set_mutex (S (mutex s)) s))
  | PInsere => Some (goto t PCheio (insert_item (item t (vi s t)) s))
  | PCheio => Some (goto t PDestrava (set_estado BUFFERCHEIO s))
  | PDestrava =>
      let s := set_i t (vi s t + 1) (set_mutex (S (mutex s)) s) in
      Some (goto t (if vi s t <? 10 then PTrava else PFim) s)
  | _ => None
  end.

Definition consumidor (t : nat) (s : osys) : option osys :=
  match pc s t with
  | CTrava => m ← sem_wait (mutex s); Some (goto t CTesta (set_mutex m s))
  | CTesta => Some (goto t (if estado s =? BUFFERVAZIO then CSolta else CRetira) s)
  | CSolta => Some (goto t CTrava (set_mutex (S (mutex s)) s))
  | CRetira => Some (goto t CVazio (remove_item s))
  | CVazio => Some (goto t CDestrava (set_estado BUFFERVAZIO s))
  | CDestrava => Some (goto t CTrava (set_mutex (S (mutex s)) s))
  | _ => None
  end.

(** [np] producers, then consumers. *)
Definition threads (np t : nat) (s : osys) : option osys :=
  if (t <? np)%nat then produtor t s else consumidor t s.

Definition ocupado_main (np : nat) : osys :=
  mkO 1 0 BUFFERVAZIO (λ _, 0) (λ t, if (t <? np)%nat then PTrava else CTrava) [] [].

(** *** The invariant *)

Definition crit (p : opc) : bool :=
  match p with PTrava | PFim | CTrava => false | _ => true end.
Definition halfway (p : opc) : bool := match p with PCheio | CVazio => true | _ => false end.
Definition has_put (p : opc) : bool := match p with PCheio | PDestrava => true | _ => false end.

(** The items in the slot. *)
Definition slot (s : osys) : list Z := if estado s =? BUFFERCHEIO then [buffer s] else [].

(** What the statement of the thread inside says. *)
Definition ok_at (p : opc) (s : osys) : Prop :=
  match p with
  | PInsere => estado s = BUFFERVAZIO
  | PCheio => inserted s = removed s ++ [buffer s]
  | CRetira => estado s = BUFFERCHEIO
  | CVazio => inserted s = removed s
  | _ => True
  end.

(** How many items producer [t] has put so far. *)
Definition put_by (t : nat) (s : osys) : Z := vi s t + Z.b2z (has_put (pc s t)).

Record oinv (np : nat) (s : osys) : Prop := {
  oi_mutex : mutex_inv crit (mutex s) (pc s);
  oi_estado : estado s = BUFFERVAZIO ∨ estado s = BUFFERCHEIO;
  oi_at t : ok_at (pc s t) s;
  oi_slot : (∀ t, halfway (pc s t) = false) → inserted s = removed s ++ slot s;
  oi_i t : (pc s t = PFim ∧ vi s t = 10) ∨ (pc s t ≠ PFim ∧ 0 ≤ vi s t < 10);
  oi_items t : (t < np)%nat →
    filter (λ x, x / 1000 = ident t) (inserted s) = item t <$> seqZ 0 (put_by t s);
}.

Lemma main_inv np : oinv np (ocupado_main np).
Proof.
  split; simpl; try done.
  - apply mutex_init. intros t. by destruct (t <? np)%nat.
  - by left.
  - intros t. by destruct (t <? np)%nat.
  - intros t. right. split; [by destruct (t <? np)%nat|lia].
  - intros t Ht. unfold put_by. simpl. by rewrite (proj2 (Nat.ltb_lt t np) Ht).
Qed.

(** Steps that leave slot and records alone. *)
Lemma moves np s t q m : oinv np s → halfway (pc s t) = false → halfway q = false →
  has_put q = has_put (pc s t) → ok_at q s → pc s t ≠ PFim → q ≠ PFim →
  mutex_inv crit m (fupd (pc s) t q) →
  oinv np (goto t q (set_mutex m s)).
Proof.
  intros [Hm He Ha Hs Hi Ht] Hh Hq Hp Hok Hf Hf' Hm'. split; simpl; try done.
  - intros u. destruct (decide (u = t)) as [->|Hu]; [by rewrite fupd_eq|]. rewrite fupd_ne by done. apply Ha.
  - intros Hall. apply Hs. intros u. destruct (decide (u = t)) as [->|Hu]; [done|].
    specialize (Hall u). by rewrite fupd_ne in Hall.
  - intros u. destruct (decide (u = t)) as [->|Hu]; [|rewrite fupd_ne by done; apply Hi].
    rewrite fupd_eq. destruct (Hi t) as [[? _]|[_ ?]]; [done|by right].
  - intros u Hu. rewrite Ht by done. unfold put_by. simpl. do 2 f_equal.
    destruct (decide (u = t)) as [->|Hn]; [by rewrite fupd_eq, Hp|by rewrite fupd_ne].
Qed.

(** Only the thread inside can be halfway. *)
Lemma others_not_half m f t u : mutex_inv crit m f → crit (f t) = true → u ≠ t → halfway (f u) = false.
Proof. intros Hm Hc Hu. pose proof (mutex_other _ _ _ _ _ Hm Hc Hu). by destruct (f u). Qed.

Lemma none_half m f t : mutex_inv crit m f → crit (f t) = true → halfway (f t) = false →
  ∀ u, halfway (f u) = false.
Proof.
  intros Hm Hc Hh u. destruct (decide (u = t)) as [->|Hu]; [done|]. by eapply others_not_half.
Qed.

(** A thread outside the section makes no claim about the slot. *)
Lemma others_ok s s' m t u : mutex_inv crit m (pc s) → crit (pc s t) = true → u ≠ t →
  ok_at (pc s u) s'.
Proof. intros Hm Hc Hu. pose proof (mutex_other _ _ _ _ _ Hm Hc Hu). by destruct (pc s u). Qed.

Lemma item_of t i : 0 ≤ i < 10 → item t i / 1000 = ident t.
Proof. unfold item, ident. intros. zdm. Qed.

(** A change of the slot by the thread inside. *)
Lemma changes np s s' t q : oinv np s → crit (pc s t) = true → crit q = true →
  pc s' = fupd (pc s) t q → mutex s' = mutex s → vi s' = vi s → pc s t ≠ PFim → q ≠ PFim →
  (estado s' = BUFFERVAZIO ∨ estado s' = BUFFERCHEIO) → ok_at q s' →
  (halfway q = false → inserted s' = removed s' ++ slot s') →
  (∀ u, (u < np)%nat → filter (λ x, x / 1000 = ident u) (inserted s') = item u <$> seqZ 0 (put_by u s')) →
  oinv np s'.
Proof.
  intros [Hm He Ha Hs Hi Ht] Hc Hq Hpc Emu Evi Hpf Hqf He' Hok Hs' Ht'. split; try done.
  - rewrite Hpc, Emu. apply mutex_keep; [done|congruence].
  - intros u. rewrite Hpc. destruct (decide (u = t)) as [->|Hu]; [by rewrite fupd_eq|].
    rewrite fupd_ne by done. by eapply others_ok.
  - intros Hall. apply Hs'. specialize (Hall t). by rewrite Hpc, fupd_eq in Hall.
  - intros u. rewrite Evi, Hpc. destruct (decide (u = t)) as [->|Hu].
    + rewrite fupd_eq. destruct (Hi t) as [[? _]|[_ ?]]; [done|by right].
    + rewrite fupd_ne by done. apply Hi.
Qed.

(** The records and the items of the producers after an insertion. *)
Lemma insert_items np s t u : oinv np s → (u < np)%nat → pc s t = PInsere →
  filter (λ x, x / 1000 = ident u) (inserted s ++ [item t (vi s t)]) =
  item u <$> seqZ 0 (vi s u + Z.b2z (has_put (fupd (pc s) t PCheio u))).
Proof.
  intros Hs Hu Ep. destruct (oi_i _ _ Hs t) as [[? _]|[_ Hi]]; [congruence|].
  rewrite filter_app, (oi_items _ _ Hs u Hu). unfold put_by.
  assert (item t (vi s t) / 1000 = ident t) as Hx by (apply item_of; lia).
  destruct (decide (u = t)) as [->|Hne].
  - rewrite fupd_eq, Ep. simpl. rewrite filter_cons_True by done. rewrite filter_nil.
    rewrite Z.add_0_r. rewrite (seqZ_app 0 (vi s t) 1) by lia. by rewrite fmap_app.
  - rewrite fupd_ne by done. rewrite filter_cons_False, filter_nil; [by rewrite app_nil_r|].
    rewrite Hx. unfold ident. lia.
Qed.

(** Steps of the thread inside that insert nothing. *)
Lemma same_items np s s' t q u : oinv np s → (u < np)%nat → inserted s' = inserted s → vi s' = vi s →
  pc s' = fupd (pc s) t q → has_put q = has_put (pc s t) →
  filter (λ x, x / 1000 = ident u) (inserted s') = item u <$> seqZ 0 (put_by u s').
Proof.
  intros Hs Hu Ei Ev Hpc Hq. rewrite Ei, (oi_items _ _ Hs u Hu). unfold put_by. rewrite Ev, Hpc.
  destruct (decide (u = t)) as [->|Hn]; [by rewrite fupd_eq, Hq|by rewrite fupd_ne].
Qed.

Ltac omove s t q E :=
  apply (moves _ s t q); [done|by rewrite E|done|by rewrite E|try done|by rewrite E|done|try solve_mutex E].

Lemma produtor_step np t s s' : oinv np s → (t < np)%nat → produtor t s = Some s' → oinv np s'.
Proof.
  intros Hs Ht. pose proof (oi_mutex _ _ Hs) as Hm. pose proof (oi_estado _ _ Hs) as He.
  pose proof (oi_at _ _ Hs t) as Ha. pose proof (oi_slot _ _ Hs) as Hsl.
  unfold produtor. destruct (pc s t) eqn:E; try done; intros Hst.
  - destruct (mutex s) as [|m] eqn:Em; simplify_eq/=. omove s t PTesta E.
  - destruct (Z.eqb_spec (estado s) BUFFERCHEIO) as [He'|He']; simplify_eq.
    + destruct s. omove (mkO mutex0 buffer0 estado0 vi0 pc0 inserted0 removed0) t PSolta E.
    + destruct s. omove (mkO mutex0 buffer0 estado0 vi0 pc0 inserted0 removed0) t PInsere E.
      simpl in *. by destruct He.
  - simplify_eq. omove s t PTrava E.
  - simplify_eq. apply (changes np s _ t PCheio); try done; simpl; rewrite ?E; try done.
    + rewrite (Hsl (none_half _ _ t Hm ltac:(by rewrite E) ltac:(by rewrite E))).
      unfold slot. simpl in Ha. rewrite Ha. simpl. by rewrite app_nil_r.
    + intros u Hu. by apply (insert_items np).
  - simplify_eq. apply (changes np s _ t PDestrava); try done; simpl; rewrite ?E; try done; [by right|].
    intros u Hu. apply (same_items np s (goto t PDestrava (set_estado BUFFERCHEIO s)) t PDestrava); try done. by rewrite E.
  - simplify_eq. simpl. rewrite fupd_eq. destruct (oi_i _ _ Hs t) as [[? _]|[_ Hi]]; [congruence|].
    assert (∀ q, crit q = false → has_put q = false → ((q = PFim ∧ vi s t + 1 = 10) ∨ (q ≠ PFim ∧ vi s t + 1 < 10)) →
              oinv np (goto t q (set_i t (vi s t + 1) (set_mutex (S (mutex s)) s)))) as H.
    { intros q Hq Hq1 Hq2. destruct Hs as [_ _ Ha' _ Hi' Ht']. split; simpl; try done.
      - apply mutex_give; [done|by rewrite E|done].
      - intros u. destruct (decide (u = t)) as [->|Hu]; [rewrite fupd_eq; by destruct q|].
        rewrite fupd_ne by done. apply Ha'.
      - intros _. apply Hsl. apply (none_half _ _ t Hm); by rewrite E.
      - intros u. destruct (decide (u = t)) as [->|Hu]; [rewrite !fupd_eq; destruct Hq2; [by left|right; split; [tauto|lia]]|].
        rewrite !fupd_ne by done. apply Hi'.
      - intros u Hu. rewrite Ht' by done. unfold put_by. simpl. do 2 f_equal.
        destruct (decide (u = t)) as [->|Hn]; [rewrite !fupd_eq, E, Hq1; simpl; lia|by rewrite !fupd_ne]. }
    destruct (Z.ltb_spec (vi s t + 1) 10); apply H; try done; [by right|left; split; [done|lia]].
Qed.

Lemma consumidor_step np t s s' : oinv np s → consumidor t s = Some s' → oinv np s'.
Proof.
  intros Hs. pose proof (oi_mutex _ _ Hs) as Hm. pose proof (oi_estado _ _ Hs) as He.
  pose proof (oi_at _ _ Hs t) as Ha. pose proof (oi_slot _ _ Hs) as Hsl.
  unfold consumidor. destruct (pc s t) eqn:E; try done; intros Hst.
  - destruct (mutex s) as [|m] eqn:Em; simplify_eq/=. omove s t CTesta E.
  - destruct (Z.eqb_spec (estado s) BUFFERVAZIO) as [He'|He']; simplify_eq.
    + destruct s. omove (mkO mutex0 buffer0 estado0 vi0 pc0 inserted0 removed0) t CSolta E.
    + destruct s. omove (mkO mutex0 buffer0 estado0 vi0 pc0 inserted0 removed0) t CRetira E.
      simpl in *. by destruct He.
  - simplify_eq. omove s t CTrava E.
  - simplify_eq. apply (changes np s _ t CVazio); try done; simpl; rewrite ?E; try done.
    + rewrite (Hsl (none_half _ _ t Hm ltac:(by rewrite E) ltac:(by rewrite E))).
      unfold slot. simpl in Ha. by rewrite Ha.
    + intros u Hu. apply (same_items np s (goto t CVazio (remove_item s)) t CVazio); try done. by rewrite E.
  - simplify_eq. apply (changes np s _ t CDestrava); try done; simpl; rewrite ?E; try done.
    + by left.
    + intros _. unfold slot. simpl. by rewrite app_nil_r.
    + intros u Hu. apply (same_items np s (goto t CDestrava (set_estado BUFFERVAZIO s)) t CDestrava); try done. by rewrite E.
  - simplify_eq. omove s t CTrava E.
Qed.

Lemma oinv_run np sched : oinv np (run (threads np) sched (ocupado_main np)).
Proof.
  apply run_inv; [|apply main_inv]. intros t s s' Hs. unfold threads.
  destruct (Nat.ltb_spec t np); [by apply produtor_step|by apply consumidor_step].
Qed.

(** Any number of producers and consumers, however they are scheduled:
    the items taken are the items put, in the same order, except for the one
    that may still be in the slot; and every producer's items are put in
    order, none left out and none twice. *)
Theorem ocupado_fifo np sched :
  let s := run (threads np) sched (ocupado_main np) in
  (∃ l, inserted s = removed s ++ l ∧ (length l ≤ 1)%nat) ∧
  ∀ t, (t < np)%nat → ∃ k, 0 ≤ k ≤ 10 ∧
    filter (λ x, x / 1000 = ident t) (inserted s) = item t <$> seqZ 0 k ∧
    (pc s t = PFim → k = 10).
Proof.
  intros s. pose proof (oinv_run np sched) as Hs. fold s in Hs. split.
  - assert (∀ m f, mutex_inv crit m f → (∀ t, halfway (f t) = false) ∨ ∃ t, halfway (f t) = true) as Hd.
    { intros m f [[_ Hf]|[_ [h Hf]]]; [left; intros t; specialize (Hf t); by destruct (f t)|].
      destruct (halfway (f h)) eqn:Eh; [by right; exists h|]. left. intros t.
      destruct (halfway (f t)) eqn:Et; [|done]. replace t with h in Et; [congruence|].
      symmetry. apply Hf. by destruct (f t). }
    destruct (Hd _ _ (oi_mutex _ _ Hs)) as [Hn|[t Ht]].
    + exists (slot s). split; [by apply (oi_slot _ _ Hs)|]. unfold slot. by case_match; simpl; lia.
    + pose proof (oi_at _ _ Hs t) as Ha. destruct (pc s t); try done; simpl in Ha.
      * exists [buffer s]. split; [done|simpl; lia].
      * exists []. split; [by rewrite app_nil_r|simpl; lia].
  - intros t Ht. exists (put_by t s). rewrite (oi_items _ _ Hs t Ht). unfold put_by.
    destruct (oi_i _ _ Hs t) as [[-> ->]|[Hf Hi]]; [simpl; split_and!; lia || done|].
    destruct (has_put (pc s t)); simpl; split_and!; lia || done.
Qed.

(** Producers 1 and 2 and one consumer. *)
Example ocupado_run :
  let s := run (threads 2) ([0; 0; 0; 1; 0; 0] ++ repeat 2 5 ++ repeat 1 5 ++ repeat 2 5)%nat (ocupado_main 2) in
  inserted s = [1000; 2000] ∧ removed s = [1000; 2000].
Proof. by vm_compute. Qed.
End Ocupado.
