(* ===== verification/Batalha.v ===== *)
(** * Battleship: the board (Batalha Naval/game.c, bttlship.h)

    Placing ships, bombing, counting the places left and showing the board,
    over one table.  An access outside the arrays is the outcome [Fault], the
    values of rand() are an argument, and what is printed is a value:
    showBattle gives the lines of the board and the two numbers it prints.
    The processes that share the table are in JogoNaval.v. *)

From S2P Require Import Prelude Kernel.
Local Open Scope Z_scope.

(** ** bttlship.h *)

Definition N_X : Z := 10.
Definition N_Y : Z := 10.
Definition N_Z : Z := 5.
Definition N_SHIPS : Z := 6.

Definition FLG_P1 : Z := 1.
Definition FLG_P2 : Z := 2.
Definition FLG_SEEN0 : Z := 4.
Definition FLG_SEEN1 : Z := 8.
Definition FLG_BOMBD : Z := 16.
Definition FLG_SPLSH : Z := 32.

(** [sea] and [flg] are indexed by x and y. *)
Record table := mkTable {
  t_semid : Z;
  t_pid0 : Z;
  t_pid1 : Z;
  t_bs0 : Z;
  t_bs1 : Z;
  t_sea : Z → Z → Z;
  t_flg : Z → Z → Z;
}.

(** The table as one process sees it, with its own flag_game_over. *)
Record game := mkGame { g_tab : table; g_over : Z }.

Definition set_sea (v : Z → Z → Z) (t : table) : table :=
  mkTable (t_semid t) (t_pid0 t) (t_pid1 t) (t_bs0 t) (t_bs1 t) v (t_flg t).
Definition set_flg (v : Z → Z → Z) (t : table) : table :=
  mkTable (t_semid t) (t_pid0 t) (t_pid1 t) (t_bs0 t) (t_bs1 t) (t_sea t) v.
Definition set_bsites (a b : Z) (t : table) : table :=
  mkTable (t_semid t) (t_pid0 t) (t_pid1 t) a b (t_sea t) (t_flg t).
Definition set_tab (t : table) (g : game) : game := mkGame t (g_over g).
Definition set_over (v : Z) (g : game) : game := mkGame (g_tab g) v.

Definition in_board (x y : Z) : bool := (0 <=? x) && (x <? N_X) && (0 <=? y) && (y <? N_Y).

Definition upd2 (f : Z → Z → Z) (x y v : Z) : Z → Z → Z :=
  λ a b, if (a =? x) && (b =? y) then v else f a b.

(** table->sea[x][y] and table->flg[x][y] *)
Definition sea (x y : Z) : M game Z := λ g, if in_board x y then Ret (t_sea (g_tab g) x y) g else Fault.
Definition flg (x y : Z) : M game Z := λ g, if in_board x y then Ret (t_flg (g_tab g) x y) g else Fault.
Definition put_sea (x y v : Z) : M game unit := λ g,
  if in_board x y then Ret tt (set_tab (set_sea (upd2 (t_sea (g_tab g)) x y v) (g_tab g)) g) else Fault.
Definition put_flg (x y v : Z) : M game unit := λ g,
  if in_board x y then Ret tt (set_tab (set_flg (upd2 (t_flg (g_tab g)) x y v) (g_tab g)) g) else Fault.

(** ** game.c *)

Definition places : list (Z * Z) := y ← seqZ 0 N_Y; x ← seqZ 0 N_X; [(x, y)].

(** One round of the loops of recount, for the place p. *)
Definition recount1 (p : Z * Z) : M game unit :=
  f ← flg p.1 p.2;
  if Z.land f (Z.lor FLG_P1 FLG_P2) =? 0 then mret tt else
  let px := if negb (Z.land f FLG_P1 =? 0) then 0 else 1 in
  (if Z.land f FLG_BOMBD =? 0 then
     modify (λ g, let t := g_tab g in
       set_tab (if px =? 0 then set_bsites (t_bs0 t + 1) (t_bs1 t) t else set_bsites (t_bs0 t) (t_bs1 t + 1) t) g)
   else mret tt) ;;
  _ ← sea p.1 p.2; mret tt.

Definition recount : M game unit :=
  modify (λ g, set_tab (set_bsites 0 0 (g_tab g)) g) ;;
  forM places recount1 ;;
  modify (λ g, if (t_bs0 (g_tab g) =? 0) || (t_bs1 (g_tab g) =? 0) then set_over 1 g else g).

Definition bomb (x y : Z) : M game unit :=
  f ← flg x y;
  if negb (Z.land f (Z.lor FLG_P1 FLG_P2) =? 0)
  then f ← flg x y; put_flg x y (Z.lor f FLG_BOMBD)
  else f ← flg x y; put_flg x y (Z.lor f FLG_SPLSH).

Definition islower (c : Z) : bool := (97 <=? c) && (c <=? 122).
Definition toupper (c : Z) : Z := if islower c then c - 32 else c.

(** What getInput makes of a line: the place, when it is one of the board.
    The line is in a buffer, up to a 0; what follows is 0 here. *)
Definition getInput (line : list Z) : option (Z * Z) :=
  let buf := toupper <$> line in
  let cx := nth 1 buf 0 in
  let cy := nth 0 buf 0 in
  if (cx <? 65) || (65 + N_X - 1 <? cx) || (cy <? 65) || (65 + N_Y - 1 <? cy) then None
  else Some (cx - 65, cy - 65).

(** draw_hz and draw_vt are the same function of a line of the board: of [n]
    places, with [m] lines side by side; [at_ k o] is place k of line o. *)
Section draw.
Context (n m : Z) (at_ : Z → Z → Z * Z).

Definition taken (k o : Z) : M game bool :=
  let p := at_ k o in c ← sea p.1 p.2; mret (negb (c =? 46)).

(** The place, or a place beside it on the next or the previous line. *)
Definition blocked (o k : Z) : M game bool :=
  b ← taken k o;
  if b : bool then mret true else
  b ← (if o + 1 <? m then taken k (o + 1) else mret false);
  if b : bool then mret true else
  if 0 <=? o - 1 then taken k (o - 1) else mret false.

Fixpoint any_blocked (o : Z) (ks : list Z) : M game bool :=
  match ks with
  | [] => mret false
  | k :: ks => b ← blocked o k; if b : bool then mret true else any_blocked o ks
  end.

Definition paint (o ch f k : Z) : M game unit :=
  let p := at_ k o in put_sea p.1 p.2 ch ;; put_flg p.1 p.2 f.

Definition up (s k : Z) : list Z := seqZ s k.
Definition down (s k : Z) : list Z := (λ i, s - i) <$> seqZ 0 k.

(** [s] is the place along the line, [o] the line, [z] the length. *)
Definition draw (ch first last : Z) (f s o z : Z) : M game bool :=
  if n <? s + z then
    let e := s - z in
    if e <? 0 then mret false else
    b ← any_blocked o (down s (s - e));
    if b : bool then mret false else
    forM (down s (s - (e + 1))) (paint o ch f) ;;
    paint o first f (e + 1) ;;
    mret true
  else
    let e := s + z in
    b ← any_blocked o (up s (e - s));
    if b : bool then mret false else
    forM (up s (e - 1 - s)) (paint o ch f) ;;
    paint o last f (e - 1) ;;
    mret true.
End draw.

Definition hz (k o : Z) : Z * Z := (k, o).
Definition vt (k o : Z) : Z * Z := (o, k).
Definition flag_who (who : bool) : Z := if who then FLG_P1 else FLG_P2.

Definition draw_hz (sx sy z : Z) (who : bool) : M game bool :=
  draw N_X N_Y hz (if who then 61 else 45) 60 62 (flag_who who) sx sy z.
Definition draw_vt (sx sy z : Z) (who : bool) : M game bool :=
  draw N_Y N_X vt (if who then 33 else 124) 94 86 (flag_who who) sy sx z.

(** One round of genBattle, with the four values of rand(). *)
Definition place_ship (r0 r1 r2 r3 : Z) (drawn : Z) : M game bool :=
  let z := r0 mod N_Z + 2 in
  let dir := Z.land r1 1 in
  let x := r2 mod N_X in
  let y := r3 mod N_Y in
  let who := Z.odd drawn in
  if negb (dir =? 0) then
    b ← draw_hz x y z who; if b : bool then mret true else draw_vt x y z who
  else
    b ← draw_vt x y z who; if b : bool then mret true else draw_hz x y z who.

(** [rnd] gives the values of rand() in order, from the i-th on.  What srand
    does when the count is high is to change the values that follow. *)
Fixpoint genBattle_loop (fuel : nat) (rnd : nat → Z) (i : nat) (count drawn : Z) : M game unit :=
  match fuel with
  | O => spins
  | S fuel =>
      let count := if 10000 <? count then 0 else count + 1 in
      b ← place_ship (rnd i) (rnd (i + 1)%nat) (rnd (i + 2)%nat) (rnd (i + 3)%nat) drawn;
      let drawn := if b : bool then drawn + 1 else drawn in
      if drawn <? N_SHIPS then genBattle_loop fuel rnd (i + 4) count drawn else mret tt
  end.

Definition genBattle (fuel : nat) (rnd : nat → Z) : M game unit :=
  modify (λ g, set_tab (set_flg (λ _ _, 0) (set_sea (λ _ _, 46) (g_tab g))) g) ;;
  genBattle_loop fuel rnd 0 0 0.

(** The lines showBattle prints for the player [us]. *)
Definition showRow : list Z := [32; 32] ++ (x ← seqZ 0 N_X; [32; 65 + x]) ++ [10].

Definition showPlace (us x y : Z) : M game Z :=
  let f := if us =? 0 then Z.lor FLG_SEEN1 FLG_P1 else Z.lor FLG_SEEN0 FLG_P2 in
  v ← flg x y;
  if negb (Z.land v FLG_BOMBD =? 0) then
    mret (if negb (Z.land v FLG_P1 =? 0) then 64 else 35)
  else if negb (Z.land v f =? 0) then sea x y
  else if negb (Z.land v FLG_SPLSH =? 0) then mret 42
  else mret 46.

Fixpoint showLine (us y : Z) (xs : list Z) : M game (list Z) :=
  match xs with
  | [] => mret [32; 124; 10]
  | x :: xs => c ← showPlace us x y; r ← showLine us y xs; mret (32 :: c :: r)
  end.

Fixpoint showLines (us : Z) (ys : list Z) : M game (list (list Z)) :=
  match ys with
  | [] => mret []
  | y :: ys => l ← showLine us y (seqZ 0 N_X); r ← showLines us ys; mret ((65 + y :: 124 :: l) :: r)
  end.

(** The lines, then the sites left of the enemy and of the player. *)
Definition showBattle (us : Z) : M game (list (list Z) * Z * Z) :=
  ls ← showLines us (seqZ 0 N_Y);
  recount ;;
  t ← gets g_tab;
  let '(mine, theirs) := if us =? 0 then (t_bs0 t, t_bs1 t) else (t_bs1 t, t_bs0 t) in
  mret ([showRow] ++ ls ++ [showRow], theirs, mine).

(** ** Ships on the board *)

Definition cell : Type := Z * Z.
Definition on_board (c : cell) : Prop := in_board c.1 c.2 = true.
Definition free (t : table) (c : cell) : Prop := t_sea t c.1 c.2 = 46.

Lemma on_board_range c : on_board c ↔ 0 ≤ c.1 < 10 ∧ 0 ≤ c.2 < 10.
Proof. unfold on_board, in_board, N_X, N_Y. rewrite !andb_true_iff, !Z.leb_le, !Z.ltb_lt. lia. Qed.

(** [t'] is [t] with the places [l] painted for the flag [f]. *)
Record painted (f : Z) (l : list cell) (t t' : table) : Prop := {
  pa_sea c : c ∈ l → t_sea t' c.1 c.2 ≠ 46;
  pa_flg c : c ∈ l → t_flg t' c.1 c.2 = f;
  pa_keep c : c ∉ l → t_sea t' c.1 c.2 = t_sea t c.1 c.2 ∧ t_flg t' c.1 c.2 = t_flg t c.1 c.2;
  pa_pids : t_pid0 t' = t_pid0 t ∧ t_pid1 t' = t_pid1 t;
}.

Lemma painted_nil f t : painted f [] t t.
Proof. split; try done; by intros c ?%not_elem_of_nil. Qed.

Lemma painted_app f l k t t1 t2 : painted f l t t1 → painted f k t1 t2 → painted f (l ++ k) t t2.
Proof.
  intros [A1 A2 A3 [A4 A5]] [B1 B2 B3 [B4 B5]].
  split; [intros c Hc..|]; [| | |split; congruence].
  - destruct (decide (c ∈ k)); [auto|]. rewrite (proj1 (B3 c ltac:(done))). apply A1. set_solver.
  - destruct (decide (c ∈ k)); [auto|]. rewrite (proj2 (B3 c ltac:(done))). apply A2. set_solver.
  - destruct (B3 c) as [-> ->]; [set_solver|]. apply A3. set_solver.
Qed.

Lemma painted_ext f l k t t' : (∀ c, c ∈ l ↔ c ∈ k) → painted f l t t' → painted f k t t'.
Proof. intros H [A1 A2 A3 A4]. split; [intros c Hc; by apply A1, H|intros c Hc; by apply A2, H|..|done].
  intros c Hc. apply A3. by rewrite H. Qed.

Lemma upd2_eq f x y v : upd2 f x y v x y = v.
Proof. unfold upd2. by rewrite !Z.eqb_refl. Qed.
Lemma upd2_ne f x y v a b : (a, b) ≠ (x, y) → upd2 f x y v a b = f a b.
Proof.
  intros H. unfold upd2. destruct (Z.eqb_spec a x) as [->|]; [|done].
  destruct (Z.eqb_spec b y) as [->|]; [done|done].
Qed.

(** The places of a line. *)
Definition line (at_ : Z → Z → cell) (k o z : Z) : list cell := (λ i, at_ i o) <$> seqZ k z.

Lemma elem_of_line at_ k o z c : c ∈ line at_ k o z ↔ ∃ i, k ≤ i < k + z ∧ c = at_ i o.
Proof.
  unfold line. rewrite list_elem_of_fmap. setoid_rewrite elem_of_seqZ. naive_solver.
Qed.

Section draw_facts.
Context (n m : Z) (at_ : Z → Z → cell).
Hypothesis Hat : ∀ k o, 0 ≤ k < n → 0 ≤ o < m → on_board (at_ k o).

Lemma wp_taken k o g (Q : bool → game → Prop) : 0 ≤ k < n → 0 ≤ o < m →
  (∀ b, (b = false → free (g_tab g) (at_ k o)) → (b = true → ¬ free (g_tab g) (at_ k o)) → Q b g) →
  wp (taken at_ k o) Q g.
Proof using Hat.
  intros Hk Ho HQ. unfold taken, wp, mbind, M_bind, sea. rewrite (Hat k o) by done. apply HQ; unfold free; intros H; bool_facts; lia.
Qed.

(** The places that decide whether the line [o] can be used at [k]. *)
Definition near (o o' : Z) : Prop := 0 ≤ o' < m ∧ o - 1 ≤ o' ≤ o + 1.

Lemma wp_blocked o k g (Q : bool → game → Prop) : 0 ≤ k < n → 0 ≤ o < m →
  (∀ b, (b = false ↔ ∀ o', near o o' → free (g_tab g) (at_ k o')) → Q b g) →
  wp (blocked m at_ o k) Q g.
Proof using Hat.
  intros Hk Ho HQ. unfold blocked. wstep. apply wp_taken; [done..|]. intros b0 F0 T0.
  destruct b0; [wstep; apply HQ; split; [done|]; intros H; exfalso; apply T0; [done|]; apply H; unfold near; lia|].
  wstep. assert (∀ R : bool → game → Prop,
    (∀ b, (b = false ↔ ∀ o', near o o' → o' = o + 1 → free (g_tab g) (at_ k o')) → R b g) →
    wp (if o + 1 <? m then taken at_ k (o + 1) else mret false) R g) as H1.
  { intros R HR. destruct (Z.ltb_spec (o + 1) m).
    - apply wp_taken; [done|lia|]. intros b F T. apply HR. split; [intros Hb o' _ ->; auto|].
      intros Hb. destruct b; [|done]. exfalso. apply T; [done|]. apply Hb; [unfold near; lia|done].
    - wstep. apply HR. split; [|done]. intros _ o' Hn ->. unfold near in Hn. lia. }
  apply H1. clear H1. intros b1 H1. destruct b1; [wstep; apply HQ; split; [done|]; intros H; apply H1; auto|].
  destruct (Z.leb_spec 0 (o - 1)).
  - apply wp_taken; [done|lia|]. intros b F T. apply HQ. split.
    + intros Hb o' Hn. unfold near in Hn. destruct (decide (o' = o)) as [->|]; [auto|].
      destruct (decide (o' = o + 1)) as [->|]; [by apply H1|]. replace o' with (o - 1) by lia. auto.
    + intros Hb. destruct b; [|done]. exfalso. apply T; [done|]. apply Hb. unfold near; lia.
  - wstep. apply HQ. split; [|done]. intros _ o' Hn. unfold near in Hn. destruct (decide (o' = o)) as [->|]; [auto|].
    replace o' with (o + 1) in * by lia. by apply H1.
Qed.

Lemma wp_any_blocked o ks g (Q : bool → game → Prop) : (∀ k, k ∈ ks → 0 ≤ k < n) → 0 ≤ o < m →
  (∀ b, (b = false ↔ ∀ k o', k ∈ ks → near o o' → free (g_tab g) (at_ k o')) → Q b g) →
  wp (any_blocked m at_ o ks) Q g.
Proof using Hat.
  intros Hks Ho. revert Q. induction ks as [|k ks IH]; intros Q HQ; simpl.
  - wstep. apply HQ. split; [|done]. by intros _ k o' ?%not_elem_of_nil.
  - wstep. apply wp_blocked; [apply Hks; set_solver|done|]. intros b Hb. destruct b.
    + wstep. apply HQ. split; [done|]. intros H. apply Hb. intros o' Ho'. apply H; [set_solver|done].
    + apply IH; [intros; apply Hks; set_solver|]. intros b Hb'. apply HQ. rewrite Hb'. split.
      * intros H k' o' [->|Hk']%elem_of_cons Hn; [by apply Hb|by apply H].
      * intros H k' o' Hk' Hn. apply H; [set_solver|done].
Qed.

Lemma wp_paint o ch f k g (Q : unit → game → Prop) : 0 ≤ k < n → 0 ≤ o < m → ch ≠ 46 →
  (∀ g', painted f [at_ k o] (g_tab g) (g_tab g') → g_over g' = g_over g → Q tt g') →
  wp (paint at_ o ch f k) Q g.
Proof using Hat.
  intros Hk Ho Hch HQ. unfold paint, wp, mbind, M_bind, put_sea, put_flg.
  pose proof (Hat k o Hk Ho) as Hb. unfold on_board in Hb. rewrite Hb. apply HQ; [|done].
  destruct (at_ k o) as [x y]. split; simpl; try done.
  - intros c ->%list_elem_of_singleton. simpl. by rewrite upd2_eq.
  - intros c ->%list_elem_of_singleton. simpl. by rewrite upd2_eq.
  - intros [a b] Hc. simpl. rewrite !upd2_ne; [done|set_solver..].
Qed.

Lemma wp_paints o ch f ks g (Q : unit → game → Prop) : (∀ k, k ∈ ks → 0 ≤ k < n) → 0 ≤ o < m → ch ≠ 46 →
  (∀ g', painted f ((λ k, at_ k o) <$> ks) (g_tab g) (g_tab g') → g_over g' = g_over g → Q tt g') →
  wp (forM ks (paint at_ o ch f)) Q g.
Proof using Hat.
  intros Hks Ho Hch. revert g Q. induction ks as [|k ks IH]; intros g Q HQ; simpl.
  - wstep. apply HQ; [apply painted_nil|done].
  - wstep. apply wp_paint; [apply Hks; set_solver|done|done|]. intros g1 P1 O1.
    apply IH; [intros; apply Hks; set_solver|]. intros g2 P2 O2. apply HQ; [|congruence].
    by apply (painted_app f [at_ k o] _ _ (g_tab g1)).
Qed.

(** A line of z places from k on the board, that and the places beside it free. *)
Definition clear_line (t : table) (k o z : Z) : Prop :=
  0 ≤ k ∧ k + z ≤ n ∧ ∀ i o', k ≤ i < k + z → near o o' → free t (at_ i o').

Lemma elem_of_down s k i : i ∈ down s k ↔ s - k < i ≤ s.
Proof using.
  unfold down. rewrite list_elem_of_fmap. setoid_rewrite elem_of_seqZ. split; [intros (j & -> & ?); lia|].
  intros H. exists (s - i). lia.
Qed.

(** draw paints a clear line, and does when the line from s on is clear; or it
    changes nothing. *)
Lemma wp_draw ch first last f s o z g (Q : bool → game → Prop) :
  0 ≤ s < n → 0 ≤ o < m → 2 ≤ z → ch ≠ 46 → first ≠ 46 → last ≠ 46 →
  (¬ clear_line (g_tab g) s o z → Q false g) →
  (∀ k g', clear_line (g_tab g) k o z → painted f (line at_ k o z) (g_tab g) (g_tab g') →
     g_over g' = g_over g → Q true g') →
  wp (draw n m at_ ch first last f s o z) Q g.
Proof using Hat.
  intros Hs Ho Hz Hch Hfi Hla HF HT. unfold draw. destruct (Z.ltb_spec n (s + z)).
  - assert (¬ clear_line (g_tab g) s o z) as Hno by (unfold clear_line; lia).
    destruct (Z.ltb_spec (s - z) 0); [wstep; auto|].
    wstep. apply wp_any_blocked; [intros k; rewrite elem_of_down; lia|done|].
    intros b Hb. destruct b; [wstep; auto|].
    wstep. apply wp_paints; [intros k; rewrite elem_of_down; lia|done|done|]. intros g1 P1 O1.
    wstep. apply wp_paint; [lia|done|done|]. intros g2 P2 O2. wstep.
    apply (HT (s - z + 1)); [| |congruence].
    + split_and!; [lia|lia|]. intros i o' Hi Hn. apply Hb; [done| |done]. apply elem_of_down. lia.
    + eapply painted_ext; [|eapply painted_app; [exact P1|exact P2]].
      intros c. rewrite elem_of_line, elem_of_app, list_elem_of_singleton, list_elem_of_fmap.
      setoid_rewrite elem_of_down. split.
      * intros [(i & -> & ?)| ->]; eexists; (split; [|done]); lia.
      * intros (i & Hi & ->). destruct (decide (i = s - z + 1)) as [->|]; [by right|]. left. exists i. split; [done|lia].
  - wstep. apply wp_any_blocked; [intros k; unfold up; rewrite elem_of_seqZ; lia|done|].
    intros b Hb. destruct b.
    { wstep. apply HF. intros (_ & _ & Hc). enough (true = false) by done. apply Hb. intros k o' Hk Hn.
      apply Hc; [|done]. unfold up in Hk. rewrite elem_of_seqZ in Hk. lia. }
    wstep. apply wp_paints; [intros k; unfold up; rewrite elem_of_seqZ; lia|done|done|]. intros g1 P1 O1.
    wstep. apply wp_paint; [lia|done|done|]. intros g2 P2 O2. wstep.
    apply (HT s); [| |congruence].
    + split_and!; [lia|lia|]. intros i o' Hi Hn. apply Hb; [done| |done]. unfold up. apply elem_of_seqZ. lia.
    + eapply painted_ext; [|eapply painted_app; [exact P1|exact P2]].
      intros c. rewrite elem_of_line, elem_of_app, list_elem_of_singleton, list_elem_of_fmap.
      unfold up. setoid_rewrite elem_of_seqZ. split.
      * intros [(i & -> & ?)| ->]; eexists; (split; [|done]); lia.
      * intros (i & Hi & ->). destruct (decide (i = s + z - 1)) as [->|]; [by right|]. left. exists i. split; [done|lia].
Qed.
End draw_facts.

(** ** The fleet *)

Record ship := mkShip {
  sh_who : bool;      (* of player 1 *)
  sh_hz : bool;       (* along x *)
  sh_k : Z;           (* the first place along the line *)
  sh_o : Z;           (* the line *)
  sh_z : Z;           (* the length *)
}.

Definition axis (h : bool) : Z → Z → cell := if h then hz else vt.
Definition ship_cells (s : ship) : list cell := line (axis (sh_hz s)) (sh_k s) (sh_o s) (sh_z s).

(** The places beside the ship, along its length. *)
Definition beside (s : ship) (c : cell) : Prop :=
  ∃ o', (o' = sh_o s - 1 ∨ o' = sh_o s + 1) ∧ c ∈ line (axis (sh_hz s)) (sh_k s) o' (sh_z s).

Definition ship_ok (s : ship) : Prop :=
  0 ≤ sh_k s ∧ sh_k s + sh_z s ≤ 10 ∧ 0 ≤ sh_o s < 10 ∧ 2 ≤ sh_z s ≤ 6.

Definition all_cells (ss : list ship) : list cell := ss ≫= ship_cells.

(** The ships placed so far, the newest first: each within the board and of
    2 to 6 places, on places that were free, with no earlier ship beside it,
    owned in turn by player 2 and player 1. *)
Fixpoint ships_ok (ss : list ship) : Prop :=
  match ss with
  | [] => True
  | s :: r => ship_ok s ∧ sh_who s = Nat.odd (length r) ∧
      (∀ c, c ∈ ship_cells s → c ∉ all_cells r) ∧ (∀ c, beside s c → c ∉ all_cells r) ∧ ships_ok r
  end.

(** The table shows exactly these ships, and no bomb has fallen. *)
Record fleet (t : table) (ss : list ship) : Prop := {
  fl_ok : ships_ok ss;
  fl_free c : on_board c → free t c ↔ c ∉ all_cells ss;
  fl_flag s c : s ∈ ss → c ∈ ship_cells s → t_flg t c.1 c.2 = flag_who (sh_who s);
  fl_none c : on_board c → c ∉ all_cells ss → t_flg t c.1 c.2 = 0;
}.

Lemma axis_board h k o : 0 ≤ k < 10 → 0 ≤ o < 10 → on_board (axis h k o).
Proof. intros. apply on_board_range. destruct h; simpl; lia. Qed.

Lemma ship_board s c : ship_ok s → c ∈ ship_cells s → on_board c.
Proof. intros (?&?&?&?) (i & Hi & ->)%elem_of_line. apply axis_board; lia. Qed.

(** A clear line of the table takes a new ship. *)
Lemma fleet_cons t t' ss h k o z :
  let s := mkShip (Nat.odd (length ss)) h k o z in
  fleet t ss → clear_line 10 10 (axis h) t k o z → 0 ≤ o < 10 → 2 ≤ z ≤ 6 →
  painted (flag_who (sh_who s)) (ship_cells s) t t' → fleet t' (s :: ss).
Proof.
  intros s [F1 F2 F3 F4] (Hk & Hkz & Hc) Ho Hz [P1 P2 P3 _].
  assert (ship_ok s) as Hs by done.
  assert (∀ i o', k ≤ i < k + z → near 10 o o' → axis h i o' ∉ all_cells ss) as Hout.
  { intros i o' Hi Hn. apply F2; [apply axis_board; unfold near in Hn; lia|]. by apply Hc. }
  assert (∀ c, c ∈ ship_cells s → c ∉ all_cells ss) as Hnew.
  { intros c (i & Hi & ->)%elem_of_line. apply Hout; [done|]. unfold near, s; simpl. lia. }
  assert (∀ c, c ∈ all_cells (s :: ss) ↔ c ∈ ship_cells s ∨ c ∈ all_cells ss) as Hall.
  { intros c. unfold all_cells. rewrite bind_cons. apply elem_of_app. }
  split.
  - split_and!; try done. intros c (o' & Ho' & (i & Hi & ->)%elem_of_line). simpl in *.
    destruct (decide (0 ≤ o' < 10)); [apply Hout; [done|]; unfold near; lia|].
    intros Hin. apply list_elem_of_bind in Hin as (s' & Hin & Hs').
    assert (ship_ok s') as Hok'.
    { clear - F1 Hs'. induction ss as [|s0 ss IH]; [by apply not_elem_of_nil in Hs'|]. destruct F1 as (? & _ & _ & _ & ?).
      apply elem_of_cons in Hs' as [->|]; auto. }
    pose proof (ship_board s' _ Hok' Hin) as Hb. apply on_board_range in Hb. destruct h; simpl in Hb; lia.
  - intros c Hb. rewrite Hall. destruct (decide (c ∈ ship_cells s)) as [Hi|Hi].
    + split; [intros Hf; by apply P1 in Hi|naive_solver].
    + assert (free t' c ↔ free t c) as -> by (unfold free; by rewrite (proj1 (P3 c Hi))).
      rewrite F2 by done. naive_solver.
  - intros s' c [->|Hs']%elem_of_cons Hi; [by apply P2|].
    rewrite (proj2 (P3 c ltac:(intros Hi'; apply (Hnew c Hi'); apply list_elem_of_bind; eauto))). by eapply F3.
  - intros c Hb. rewrite Hall. intros Hn. rewrite (proj2 (P3 c ltac:(naive_solver))). apply F4; naive_solver.
Qed.

Lemma fleet_empty t : fleet (set_flg (λ _ _, 0) (set_sea (λ _ _, 46) t)) [].
Proof. split; try done; [|by intros s c ?%not_elem_of_nil]. intros c _. split; [intros _; apply not_elem_of_nil|done]. Qed.

(** One round of genBattle adds a ship or changes nothing; a clear line that
    the values of rand() name is used. *)
Lemma wp_place_ship r0 r1 r2 r3 g ss (Q : bool → game → Prop) :
  fleet (g_tab g) ss →
  (¬ clear_line 10 10 hz (g_tab g) (r2 mod 10) (r3 mod 10) (r0 mod 5 + 2) → Q false g) →
  (∀ s g', fleet (g_tab g') (s :: ss) → t_pid0 (g_tab g') = t_pid0 (g_tab g) → t_pid1 (g_tab g') = t_pid1 (g_tab g) →
     g_over g' = g_over g → Q true g') →
  wp (place_ship r0 r1 r2 r3 (Z.of_nat (length ss))) Q g.
Proof.
  intros Hf HF HT. unfold place_ship, N_X, N_Y, N_Z.
  set (z := r0 mod 5 + 2). set (x := r2 mod 10). set (y := r3 mod 10).
  assert (2 ≤ z ≤ 6) as Hz by (unfold z; zdm). assert (0 ≤ x < 10) as Hx by (unfold x; zdm).
  assert (0 ≤ y < 10) as Hy by (unfold y; zdm).
  assert (Z.odd (Z.of_nat (length ss)) = Nat.odd (length ss)) as Hodd.
  { clear. induction (length ss) as [|k IH]; [done|]. rewrite Nat2Z.inj_succ, Z.odd_succ, Nat.odd_succ.
    by rewrite <-Z.negb_odd, <-Nat.negb_odd, IH. }
  rewrite Hodd. set (w := Nat.odd (length ss)).
  assert (∀ R : bool → game → Prop, (¬ clear_line 10 10 hz (g_tab g) x y z → R false g) →
    (∀ g', Q true g' → R true g') → wp (draw_hz x y z w) R g) as Hhz.
  { intros R RF RT. apply (wp_draw 10 10 hz (λ k o, axis_board true k o)); try done; [lia|by destruct w|].
    intros k g' Hc Hp Ho. apply RT, (HT (mkShip w true k y z)); [|apply Hp|apply Hp|done].
    apply (fleet_cons (g_tab g) _ ss true k y z); done. }
  assert (∀ R : bool → game → Prop, R false g → (∀ g', Q true g' → R true g') → wp (draw_vt x y z w) R g) as Hvt.
  { intros R RF RT. apply (wp_draw 10 10 vt (λ k o, axis_board false k o)); try done; [lia|by destruct w|].
    intros k g' Hc Hp Ho. apply RT, (HT (mkShip w false k x z)); [|apply Hp|apply Hp|done].
    apply (fleet_cons (g_tab g) _ ss false k x z); done. }
  case_if.
  - wstep. apply Hhz; [|intros; by wstep]. intros Hno. apply Hvt; [auto|done].
  - wstep. apply Hvt; [|intros; by wstep]. apply Hhz; [auto|done].
Qed.

(** ** genBattle always has a way to go on

    The board is cut into 20 regions, four bands of rows by five pairs of
    columns, such that a free region has room for a ship of length 2 with
    free places beside it.  A ship meets at most three regions, or four of the
    same band, so five ships do not meet them all. *)

Definition in_region (b p : Z) (c : cell) : bool := ((c.2 + 1) / 3 =? b) && (c.1 / 2 =? p).

Definition bands : list Z := seqZ 0 4.
Definition pairs : list Z := seqZ 0 5.

Definition meets (s : ship) (b p : Z) : bool := existsb (in_region b p) (ship_cells s).
Definition met (s : ship) (b : Z) : nat := length (List.filter (meets s b) pairs).

Definition vec_ok (v : list nat) : bool :=
  (sum_list v <=? 3)%nat || bool_decide (v ∈ [[4;0;0;0]; [0;4;0;0]; [0;0;4;0]; [0;0;0;4]]%nat).

Lemma met_all : forallb (λ h, forallb (λ k, forallb (λ o, forallb (λ z,
    vec_ok (met (mkShip true h k o z) <$> bands)) (seqZ 2 5)) (seqZ 0 10)) (seqZ 0 9)) [true; false] = true.
Proof. vm_compute. reflexivity. Qed.

Lemma met_ok s : ship_ok s → vec_ok (met s <$> bands) = true.
Proof.
  intros (H1 & H2 & H3 & H4). pose proof met_all as H. rewrite forallb_forall in H.
  specialize (H (sh_hz s) ltac:(destruct (sh_hz s); simpl; auto)). rewrite forallb_forall in H.
  specialize (H (sh_k s) ltac:(apply list_elem_of_In, elem_of_seqZ; lia)). rewrite forallb_forall in H.
  specialize (H (sh_o s) ltac:(apply list_elem_of_In, elem_of_seqZ; lia)). rewrite forallb_forall in H.
  specialize (H (sh_z s) ltac:(apply list_elem_of_In, elem_of_seqZ; lia)). by destruct s.
Qed.

(** Sums of vectors of that kind: b vectors of sum at most 3, and m_i times 4 in place i. *)
Lemma vec_sums (ss : list ship) : Forall ship_ok ss →
  ∃ b m0 m1 m2 m3 : nat, (b + m0 + m1 + m2 + m3)%nat = length ss ∧
  ∃ r0 r1 r2 r3 : nat, (r0 + r1 + r2 + r3 ≤ 3 * b)%nat ∧
    sum_list_with (λ s, met s 0) ss = (4 * m0 + r0)%nat ∧ sum_list_with (λ s, met s 1) ss = (4 * m1 + r1)%nat ∧
    sum_list_with (λ s, met s 2) ss = (4 * m2 + r2)%nat ∧ sum_list_with (λ s, met s 3) ss = (4 * m3 + r3)%nat.
Proof.
  induction 1 as [|s ss Hs _ IH]; [exists 0%nat, 0%nat, 0%nat, 0%nat, 0%nat; split; [done|]; by exists 0%nat, 0%nat, 0%nat, 0%nat|].
  destruct IH as (b & m0 & m1 & m2 & m3 & Hb & r0 & r1 & r2 & r3 & Hr & S0 & S1 & S2 & S3).
  pose proof (met_ok s Hs) as Hv. unfold vec_ok, bands in Hv. apply orb_true_iff in Hv.
  change (met s <$> seqZ 0 4) with [met s 0; met s 1; met s 2; met s 3] in Hv.
  cbn [sum_list_with length]. rewrite S0, S1, S2, S3.
  destruct Hv as [Hv|Hv].
  - apply Nat.leb_le in Hv. simpl in Hv. exists (S b), m0, m1, m2, m3. split; [lia|].
    exists (met s 0 + r0)%nat, (met s 1 + r1)%nat, (met s 2 + r2)%nat, (met s 3 + r3)%nat. lia.
  - apply bool_decide_eq_true in Hv. rewrite !elem_of_cons in Hv.
    destruct Hv as [[= -> -> -> ->]|[[= -> -> -> ->]|[[= -> -> -> ->]|[[= -> -> -> ->]|Hv]]]]; [..|by apply not_elem_of_nil in Hv].
    + exists b, (S m0), m1, m2, m3. split; [lia|]. exists r0, r1, r2, r3. lia.
    + exists b, m0, (S m1), m2, m3. split; [lia|]. exists r0, r1, r2, r3. lia.
    + exists b, m0, m1, (S m2), m3. split; [lia|]. exists r0, r1, r2, r3. lia.
    + exists b, m0, m1, m2, (S m3). split; [lia|]. exists r0, r1, r2, r3. lia.
Qed.

(** If every place of l is met by some ship, the ships meet as many. *)
Lemma met_cover {A} (P : ship → A → bool) (ss : list ship) (l : list A) :
  (∀ p, p ∈ l → ∃ s, s ∈ ss ∧ P s p = true) →
  (length l ≤ sum_list_with (λ s, length (List.filter (P s) l)) ss)%nat.
Proof.
  induction l as [|p l IH]; intros H; [simpl; lia|].
  destruct (H p) as (s & Hs & Hp); [set_solver|]. specialize (IH ltac:(intros q Hq; apply H; set_solver)).
  apply list_elem_of_split in Hs as (s1 & s2 & ->).
  rewrite !sum_list_with_app in *. cbn [sum_list_with] in *. cbn [List.filter]. rewrite Hp. cbn [length].
  assert (∀ k, (sum_list_with (λ s, length (List.filter (P s) l)) k ≤
    sum_list_with (λ s, length (if P s p then p :: List.filter (P s) l else List.filter (P s) l)) k)%nat) as Hm.
  { induction k as [|x k IHk]; simpl; [lia|]. destruct (P x p); simpl; lia. }
  pose proof (Hm s1). pose proof (Hm s2). simpl in *. lia.
Qed.

(** Five ships leave a region free. *)
Lemma free_region ss : Forall ship_ok ss → (length ss ≤ 5)%nat →
  ∃ b p, b ∈ bands ∧ p ∈ pairs ∧ ∀ c, c ∈ all_cells ss → in_region b p c = false.
Proof.
  intros Hss Hlen. destruct (decide (Exists (λ b, Exists (λ p, Forall (λ c, in_region b p c = false) (all_cells ss)) pairs) bands)) as [H|H].
  { apply Exists_exists in H as (b & Hb & H). apply Exists_exists in H as (p & Hp & H). rewrite Forall_forall in H. eauto 6. }
  exfalso.
  assert (∀ b, b ∈ bands → (5 ≤ sum_list_with (λ s, met s b) ss)%nat) as Hb.
  { intros b Hb. apply (met_cover (λ s p, meets s b p) ss pairs). intros p Hp.
    destruct (decide (Forall (λ c, in_region b p c = false) (all_cells ss))) as [F|F].
    { exfalso. apply H, Exists_exists. exists b. split; [done|]. apply Exists_exists. eauto. }
    apply not_Forall_Exists in F; [|apply _]. apply Exists_exists in F as (c & Hc & Hin).
    apply list_elem_of_bind in Hc as (s & Hc & Hs). exists s. split; [done|].
    unfold meets. apply existsb_exists. exists c. split; [by apply list_elem_of_In|]. by apply not_false_iff_true. }
  destruct (vec_sums ss Hss) as (b & m0 & m1 & m2 & m3 & Hl & r0 & r1 & r2 & r3 & Hr & S0 & S1 & S2 & S3).
  pose proof (Hb 0 ltac:(apply elem_of_seqZ; lia)). pose proof (Hb 1 ltac:(apply elem_of_seqZ; lia)).
  pose proof (Hb 2 ltac:(apply elem_of_seqZ; lia)). pose proof (Hb 3 ltac:(apply elem_of_seqZ; lia)). lia.
Qed.

Lemma ships_all_ok ss : ships_ok ss → Forall ship_ok ss.
Proof. induction ss as [|s ss IH]; [done|]. intros (? & _ & _ & _ & ?). constructor; auto. Qed.

Lemma clear_line_exists t ss : fleet t ss → (length ss < 6)%nat →
  ∃ x y, 0 ≤ x < 10 ∧ 0 ≤ y < 10 ∧ clear_line 10 10 hz t x y 2.
Proof.
  intros [F1 F2 _ _] Hlen. destruct (free_region ss (ships_all_ok ss F1) ltac:(lia)) as (b & p & Hb & Hp & Hc).
  unfold bands, pairs in Hb, Hp. rewrite elem_of_seqZ in Hb, Hp.
  exists (2 * p), (3 * b). split_and!; [lia..|]. split_and!; [lia|lia|].
  intros i o' Hi Hn. unfold near in Hn. apply F2; [apply on_board_range; simpl; lia|].
  intros Hin. specialize (Hc _ Hin). unfold in_region in Hc. simpl in Hc.
  rewrite (proj2 (Z.eqb_eq _ _)), (proj2 (Z.eqb_eq _ _)) in Hc by zdm. done.
Qed.

(** A run that need not end: it does not fault, and ends in Q. *)
Definition wpl {S A} (m : M S A) (Q : A → S → Prop) (s : S) : Prop :=
  match m s with Ret a s' => Q a s' | Spins => True | _ => False end.

Lemma wpl_bind {S A B} (m : M S A) (f : A → M S B) (Q : B → S → Prop) s :
  wp m (λ a s', wpl (f a) Q s') s → wpl (m ≫= f) Q s.
Proof. unfold wp, wpl, mbind, M_bind. by destruct (m s). Qed.

(** A full fleet for the two players. *)
Definition full_fleet (g g' : game) : Prop :=
  ∃ ss, length ss = 6%nat ∧ fleet (g_tab g') ss ∧
    t_pid0 (g_tab g') = t_pid0 (g_tab g) ∧ t_pid1 (g_tab g') = t_pid1 (g_tab g) ∧ g_over g' = g_over g.

Lemma genBattle_loop_spec fuel rnd i count ss g0 g :
  fleet (g_tab g) ss → (length ss < 6)%nat →
  t_pid0 (g_tab g) = t_pid0 (g_tab g0) → t_pid1 (g_tab g) = t_pid1 (g_tab g0) → g_over g = g_over g0 →
  wpl (genBattle_loop fuel rnd i count (Z.of_nat (length ss))) (λ _, full_fleet g0) g.
Proof.
  revert i count ss g. induction fuel as [|fuel IH]; intros i count ss g Hf Hl H0 H1 H2; [done|].
  cbn [genBattle_loop]. apply wpl_bind, (wp_place_ship _ _ _ _ _ ss); [done| |].
  - intros _. rewrite (proj2 (Z.ltb_lt _ N_SHIPS)) by (unfold N_SHIPS; lia). by apply IH.
  - intros s g' Hf' E0 E1 E2. replace (Z.of_nat (length ss) + 1) with (Z.of_nat (length (s :: ss))) by (simpl; lia).
    destruct (Z.ltb_spec (Z.of_nat (length (s :: ss))) N_SHIPS) as [Hlt|Hge].
    + apply IH; [done|unfold N_SHIPS in *; lia|congruence..].
    + exists (s :: ss). unfold N_SHIPS in *. simpl in *. split_and!; [lia|done|congruence..].
Qed.

Lemma genBattle_wpl fuel rnd g : wpl (genBattle fuel rnd) (λ _, full_fleet g) g.
Proof.
  unfold genBattle. apply wpl_bind. wstep.
  apply (genBattle_loop_spec fuel rnd 0 0 [] g); simpl; [apply fleet_empty|lia|done..].
Qed.

(** [C35] Placing the ships.  Whatever the values of rand() and however many
    rounds it takes, genBattle never reads or writes outside the board; when
    it ends, the table shows exactly six ships of 2 to 6 places in a line,
    three for each player in turn, that do not overlap and of which none was
    placed with an earlier one along its side; and its flags say whose they
    are. *)
Theorem genBattle_spec fuel rnd g : wpl (genBattle fuel rnd) (λ _, full_fleet g) g.
Proof. apply genBattle_wpl. Qed.

Lemma genBattle_loop_ext fuel rnd rnd' i count drawn g :
  (∀ j, (i ≤ j)%nat → rnd j = rnd' j) →
  genBattle_loop fuel rnd i count drawn g = genBattle_loop fuel rnd' i count drawn g.
Proof.
  revert i count drawn g. induction fuel as [|fuel IH]; intros i count drawn g H; [done|].
  cbn [genBattle_loop]. rewrite !H by lia. unfold mbind, M_bind.
  destruct (place_ship _ _ _ _ _ g) as [b g'| | | |]; try done. case_if; [|done]. apply IH. intros. apply H. lia.
Qed.

(** genBattle has no dead end.  From every table with fewer than six
    ships on it, whatever was drawn before, there are values of rand() with
    which genBattle ends after one round for each ship that is missing. *)
Theorem genBattle_goes_on ss g i count :
  fleet (g_tab g) ss → (length ss < 6)%nat →
  ∃ rnd, wp (genBattle_loop (6 - length ss) rnd i count (Z.of_nat (length ss))) (λ _, full_fleet g) g.
Proof.
  remember (6 - length ss)%nat as n eqn:Hn. intros Hf Hl.
  enough (∀ g0, t_pid0 (g_tab g) = t_pid0 (g_tab g0) → t_pid1 (g_tab g) = t_pid1 (g_tab g0) → g_over g = g_over g0 →
    ∃ rnd, wp (genBattle_loop n rnd i count (Z.of_nat (length ss))) (λ _, full_fleet g0) g) as H by (by apply H).
  revert ss g i count Hn Hf Hl. induction n as [|n IH]; intros ss g i count Hn Hf Hl g0 H0 H1 H2; [lia|].
  destruct (clear_line_exists _ ss Hf Hl) as (x & y & Hx & Hy & Hc).
  assert (wp (place_ship 0 1 x y (Z.of_nat (length ss))) (λ b g', b = true ∧ ∃ s, fleet (g_tab g') (s :: ss) ∧
    t_pid0 (g_tab g') = t_pid0 (g_tab g) ∧ t_pid1 (g_tab g') = t_pid1 (g_tab g) ∧ g_over g' = g_over g) g) as Hp.
  { apply (wp_place_ship _ _ _ _ _ ss); [done| |eauto 10]. intros Hno. exfalso. apply Hno.
    rewrite !Z.mod_small by lia. exact Hc. }
  unfold wp in Hp. destruct (place_ship 0 1 x y _ g) as [b g'| | | |] eqn:E; try done.
  destruct Hp as (-> & s & Hf' & E0 & E1 & E2).
  assert (∃ rnd, (length (s :: ss) < 6)%nat →
    wp (genBattle_loop n rnd (i + 4) (if 10000 <? count then 0 else count + 1) (Z.of_nat (length (s :: ss))))
      (λ _, full_fleet g0) g') as (rnd & Hr).
  { destruct (decide (length (s :: ss) < 6)%nat) as [Hlt|Hge]; [|by exists (λ _, 0)].
    destruct (IH (s :: ss) g' (i + 4)%nat (if 10000 <? count then 0 else count + 1) ltac:(simpl; lia) Hf' Hlt g0)
      as (rnd & Hr); [congruence..|]. by exists rnd. }
  exists (λ j, if (j <? i + 4)%nat then nth (j - i) [0; 1; x; y] 0 else rnd j).
  cbn [genBattle_loop]. unfold wp, mbind, M_bind. rewrite !(proj2 (Nat.ltb_lt _ _)) by lia.
  replace (i - i)%nat with 0%nat by lia. replace (i + 1 - i)%nat with 1%nat by lia.
  replace (i + 2 - i)%nat with 2%nat by lia. replace (i + 3 - i)%nat with 3%nat by lia. cbn [nth]. rewrite E.
  replace (Z.of_nat (length ss) + 1) with (Z.of_nat (length (s :: ss))) by (simpl; lia).
  destruct (Z.ltb_spec (Z.of_nat (length (s :: ss))) N_SHIPS) as [Hlt|Hge]; unfold N_SHIPS in *.
  - rewrite (genBattle_loop_ext _ _ rnd); [apply Hr; lia|]. intros j Hj. by rewrite (proj2 (Nat.ltb_ge _ _)) by lia.
  - exists (s :: ss). simpl in *. split_and!; [lia|done|congruence..].
Qed.

Lemma genBattle_goes_on_witness :
  let t := set_flg (λ _ _, 0) (set_sea (λ _ _, 46) (mkTable 0 0 0 0 0 (λ _ _, 0) (λ _ _, 0))) in
  fleet t [] ∧
  ∃ rnd, wp (genBattle_loop 6 rnd 0 0 0) (λ _, full_fleet (mkGame t 0)) (mkGame t 0).
Proof.
  split; [apply fleet_empty|].
  apply (genBattle_goes_on [] (mkGame (set_flg (λ _ _, 0) (set_sea (λ _ _, 46) (mkTable 0 0 0 0 0 (λ _ _, 0) (λ _ _, 0)))) 0) 0 0);
    [apply fleet_empty|cbn; lia].
Defined.

(** ** The battle *)

Definition holds_cell (c : cell) (s : ship) : bool := bool_decide (c ∈ ship_cells s).
Definition owner (ss : list ship) (c : cell) : option bool := sh_who <$> List.find (holds_cell c) ss.

(** The flags of the place c after the bombs [bm]. *)
Definition flag_at (o : option bool) (hit : bool) : Z :=
  match o with
  | Some w => if hit then flag_who w + 16 else flag_who w
  | None => if hit then 32 else 0
  end.

Definition hit (bm : list cell) (c : cell) : bool := bool_decide (c ∈ bm).

Definition battle (t : table) (ss : list ship) (bm : list cell) : Prop :=
  ∀ c, on_board c → t_flg t c.1 c.2 = flag_at (owner ss c) (hit bm c).

Lemma owner_Some ss c w : ships_ok ss →
  owner ss c = Some w ↔ ∃ s, s ∈ ss ∧ c ∈ ship_cells s ∧ sh_who s = w.
Proof.
  unfold owner. induction ss as [|s ss IH]; intros Hok.
  - split; [done|]. by intros (s & ?%not_elem_of_nil & _).
  - destruct Hok as (_ & _ & Hd & _ & Hok). simpl. unfold holds_cell at 1. destruct (bool_decide_reflect (c ∈ ship_cells s)) as [Hc|Hc]; simpl.
    + split; [intros [= <-]; exists s; split_and!; [left|done|done]|]. intros (s' & [->|Hs']%elem_of_cons & Hc' & <-); [done|].
      exfalso. apply (Hd c Hc), list_elem_of_bind. eauto.
    + rewrite IH by done. split; [intros (s' & ? & ?); exists s'; split; [by right|done]|].
      intros (s' & [->|Hs']%elem_of_cons & Hc' & Hw); [done|]. eauto.
Qed.

Lemma owner_None ss c : owner ss c = None ↔ c ∉ all_cells ss.
Proof.
  unfold owner, all_cells. rewrite fmap_None. induction ss as [|s ss IH]; simpl; [split; [intros _; apply not_elem_of_nil|done]|].
  unfold holds_cell at 1. rewrite elem_of_app. destruct (bool_decide_reflect (c ∈ ship_cells s)); [naive_solver|]. rewrite IH. naive_solver.
Qed.

Lemma fleet_battle t ss : fleet t ss → battle t ss [].
Proof.
  intros [F1 _ F3 F4] c Hc. unfold hit. rewrite bool_decide_eq_false_2 by apply not_elem_of_nil.
  destruct (owner ss c) as [w|] eqn:E; simpl.
  - apply owner_Some in E as (s & Hs & Hc' & <-); [by apply F3|done].
  - apply owner_None in E. by apply F4.
Qed.

Lemma wp_flg x y g (Q : Z → game → Prop) : on_board (x, y) → Q (t_flg (g_tab g) x y) g → wp (flg x y) Q g.
Proof. intros Hb HQ. unfold wp, flg. unfold on_board in Hb. simpl in Hb. by rewrite Hb. Qed.
Lemma wp_sea x y g (Q : Z → game → Prop) : on_board (x, y) → Q (t_sea (g_tab g) x y) g → wp (sea x y) Q g.
Proof. intros Hb HQ. unfold wp, sea. unfold on_board in Hb. simpl in Hb. by rewrite Hb. Qed.

(** A bomb: it is remembered, and nothing else changes. *)
Lemma wp_bomb x y g ss bm (Q : unit → game → Prop) : battle (g_tab g) ss bm → on_board (x, y) →
  (∀ g', battle (g_tab g') ss ((x, y) :: bm) → t_sea (g_tab g') = t_sea (g_tab g) →
     t_pid0 (g_tab g') = t_pid0 (g_tab g) → t_pid1 (g_tab g') = t_pid1 (g_tab g) → g_over g' = g_over g → Q tt g') →
  wp (bomb x y) Q g.
Proof.
  intros Hb Hxy HQ. pose proof (Hb _ Hxy) as Hf. simpl in Hf.
  assert (∀ v, v = flag_at (owner ss (x, y)) true →
    wp (put_flg x y v) Q g) as Hput.
  { intros v ->. unfold wp, put_flg. pose proof Hxy as Hi. unfold on_board in Hi. simpl in Hi. rewrite Hi.
    apply HQ; try done. intros [a b] Hc. simpl. unfold hit. destruct (decide ((a, b) = (x, y))) as [[= -> ->]|Hne].
    - rewrite upd2_eq, bool_decide_eq_true_2 by left. done.
    - rewrite upd2_ne by done. specialize (Hb _ Hc). simpl in Hb. rewrite Hb. unfold hit. f_equal.
      apply bool_decide_ext. set_solver. }
  unfold bomb. wstep. apply wp_flg; [done|]. rewrite Hf.
  destruct (owner ss (x, y)) as [[|]|], (hit bm (x, y)); simpl;
    wstep; (apply wp_flg; [done|]); rewrite Hf; apply Hput; reflexivity.
Qed.

(** The places of player w that are not bombed, among l. *)
Definition alive (ss : list ship) (bm : list cell) (w : bool) (c : cell) : bool :=
  bool_decide (owner ss c = Some w) && negb (hit bm c).
Definition sites (ss : list ship) (bm : list cell) (w : bool) (l : list cell) : Z :=
  Z.of_nat (length (List.filter (alive ss bm w) l)).

Definition over_after (ss : list ship) (bm : list cell) (v : Z) : Z :=
  if (sites ss bm true places =? 0) || (sites ss bm false places =? 0) then 1 else v.

Lemma elem_of_places c : c ∈ places ↔ on_board c.
Proof.
  unfold places. rewrite on_board_range. rewrite list_elem_of_bind. split.
  - intros (y & Hy & Hys). apply list_elem_of_bind in Hy as (x & ->%list_elem_of_singleton & Hx).
    unfold N_X, N_Y in *. rewrite elem_of_seqZ in Hx, Hys. simpl. lia.
  - destruct c as [x y]. cbn [fst snd]. intros H. exists y. unfold N_X, N_Y. split; [|rewrite elem_of_seqZ; lia].
    apply list_elem_of_bind. exists x. rewrite elem_of_seqZ. split; [by apply list_elem_of_singleton|lia].
Qed.

Lemma places_nodup : NoDup places.
Proof. apply (bool_decide_unpack _). vm_compute. exact I. Qed.

(** One round of recount counts the place for its owner. *)
Lemma wp_recount1 c g ss bm (Q : unit → game → Prop) : battle (g_tab g) ss bm → on_board c →
  Q tt (set_tab (set_bsites (t_bs0 (g_tab g) + Z.b2z (alive ss bm true c))
                   (t_bs1 (g_tab g) + Z.b2z (alive ss bm false c)) (g_tab g)) g) →
  wp (recount1 c) Q g.
Proof.
  intros Hb Hc HQ. destruct c as [x y]. unfold recount1. cbn [fst snd].
  wstep. apply wp_flg; [done|]. pose proof (Hb _ Hc) as Hf. cbn [fst snd] in Hf. rewrite Hf. clear Hf.
  destruct g as [[i p0 p1 a b s f] v]. unfold alive in HQ. cbn [g_tab t_bs0 t_bs1 set_bsites set_tab] in *.
  destruct (owner ss (x, y)) as [[|]|], (hit bm (x, y)); cbn in HQ; rewrite ?Z.add_0_r in HQ;
    repeat (lazymatch goal with
            | |- wp (sea _ _) _ _ => apply wp_sea; [done|]
            | |- _ => wstep
            end; try (exfalso; vm_compute in E; congruence); try clear E); exact HQ.
Qed.

Lemma sites_cons ss bm w c l : sites ss bm w (c :: l) = Z.b2z (alive ss bm w c) + sites ss bm w l.
Proof. unfold sites. cbn [List.filter]. destruct (alive ss bm w c); cbn [length Z.b2z]; lia. Qed.

Lemma wp_recounts l g ss bm (Q : unit → game → Prop) : battle (g_tab g) ss bm → (∀ c, c ∈ l → on_board c) →
  Q tt (set_tab (set_bsites (t_bs0 (g_tab g) + sites ss bm true l) (t_bs1 (g_tab g) + sites ss bm false l) (g_tab g)) g) →
  wp (forM l recount1) Q g.
Proof.
  revert g. induction l as [|c l IH]; intros g Hb Hl HQ; cbn [forM].
  - wstep. unfold sites in HQ. cbn in HQ. rewrite !Z.add_0_r in HQ. by destruct g as [[] ?].
  - wstep. apply (wp_recount1 c g ss bm); [done|apply Hl; set_solver|].
    apply IH; [done|intros; apply Hl; set_solver|]. rewrite !sites_cons, !Z.add_assoc in HQ. exact HQ.
Qed.

(** recount sets the numbers of sites left, and the flag when one is 0. *)
Lemma wp_recount g ss bm (Q : unit → game → Prop) : battle (g_tab g) ss bm →
  Q tt (mkGame (set_bsites (sites ss bm true places) (sites ss bm false places) (g_tab g)) (over_after ss bm (g_over g))) →
  wp recount Q g.
Proof.
  intros Hb HQ. unfold recount. wstep. wstep. cbv beta. wstep.
  apply (wp_recounts places _ ss bm); [done|by intros c ?%elem_of_places|]. wstep. cbv beta.
  cbn [g_tab g_over set_tab set_bsites t_bs0 t_bs1]. rewrite !Z.add_0_l. unfold over_after in HQ.
  destruct (_ || _); exact HQ.
Qed.

(** ** What the numbers mean *)

(** A player has no site left exactly when every place of his ships is bombed. *)
Lemma sites_zero ss bm w : ships_ok ss →
  sites ss bm w places = 0 ↔ ∀ s c, s ∈ ss → sh_who s = w → c ∈ ship_cells s → c ∈ bm.
Proof.
  intros Hok. unfold sites. split.
  - intros H s c Hs Hw Hc. destruct (decide (c ∈ bm)) as [|Hn]; [done|]. exfalso.
    assert (c ∈ List.filter (alive ss bm w) places) as Hin.
    { apply list_elem_of_In, List.filter_In. split.
      - apply list_elem_of_In, elem_of_places. apply (ship_board s); [|done].
        pose proof (ships_all_ok ss Hok) as Hall. rewrite Forall_forall in Hall. by apply Hall.
      - unfold alive, hit. rewrite bool_decide_eq_true_2 by (apply owner_Some; eauto). by rewrite bool_decide_eq_false_2. }
    destruct (List.filter _ _); [by apply not_elem_of_nil in Hin|]. cbn [length] in H. lia.
  - intros H. enough (List.filter (alive ss bm w) places = []) as -> by done.
    destruct (List.filter (alive ss bm w) places) as [|c l] eqn:E; [done|]. exfalso.
    assert (c ∈ List.filter (alive ss bm w) places) as Hin by (rewrite E; left).
    apply list_elem_of_In, List.filter_In in Hin as [_ Ha]. unfold alive, hit in Ha.
    apply andb_true_iff in Ha as [Ho Hh]. apply bool_decide_eq_true in Ho. apply owner_Some in Ho as (s & Hs & Hc & Hw); [|done].
    rewrite bool_decide_eq_true_2 in Hh by eauto. done.
Qed.

Lemma ship_nodup s : NoDup (ship_cells s).
Proof.
  unfold ship_cells, line. apply NoDup_fmap_2; [|apply NoDup_seqZ].
  intros i j. destruct (sh_hz s); simpl; unfold hz, vt; by intros [= ->].
Qed.

Lemma filter_count {A} (P Q : A → bool) (l : list A) : (∀ x, P x = true → Q x = false) →
  length (List.filter (λ x, P x || Q x) l) = (length (List.filter P l) + length (List.filter Q l))%nat.
Proof.
  intros H. induction l as [|x l IH]; [done|]. cbn [List.filter]. specialize (H x).
  destruct (P x); [rewrite H by done|]; destruct (Q x) || idtac; cbn [orb length]; try (destruct (Q x)); cbn [length]; lia.
Qed.

Lemma filter_mem (k l : list cell) : NoDup k → NoDup l → (∀ c, c ∈ k → c ∈ l) →
  length (List.filter (λ c, bool_decide (c ∈ k)) l) = length k.
Proof.
  intros Hk Hl Hs. apply Permutation_length, NoDup_Permutation; [|done|].
  - apply NoDup_ListNoDup, List.NoDup_filter. by apply NoDup_ListNoDup.
  - intros c. rewrite list_elem_of_In, List.filter_In, <-list_elem_of_In, bool_decide_eq_true. naive_solver.
Qed.

(** At the start a player has as many sites as his ships have places. *)
Lemma sites_start ss w : ships_ok ss →
  sites ss [] w places = foldr (λ s n, (if Bool.eqb (sh_who s) w then sh_z s else 0) + n) 0 ss.
Proof.
  induction ss as [|s ss IH]; intros Hok.
  - unfold sites. enough (List.filter (alive [] [] w) places = []) as -> by done.
    generalize places as l. induction l as [|c l IHl]; [done|]. cbn [List.filter]. exact IHl.
  - cbn [foldr]. rewrite <-IH by apply Hok. unfold sites. destruct Hok as (Hs & Hw & Hd & _ & Hok).
    assert (Z.of_nat (length (ship_cells s)) = sh_z s) as Hlen.
    { unfold ship_cells, line. rewrite length_fmap, length_seqZ. destruct Hs as (_ & _ & _ & ?). lia. }
    assert (∀ c, c ∈ ship_cells s → c ∈ places) as Hsub by (intros c Hc; apply elem_of_places; by apply (ship_board s)).
    pose proof (filter_mem (ship_cells s) places (ship_nodup s) places_nodup Hsub) as Hcnt.
    assert (∀ c, owner (s :: ss) c = if bool_decide (c ∈ ship_cells s) then Some (sh_who s) else owner ss c) as Ho.
    { intros c. unfold owner, holds_cell. cbn [List.find]. by destruct (bool_decide _). }
    assert (∀ c, bool_decide (c ∈ ship_cells s) = true → owner ss c = None) as Hno.
    { intros c Hc. apply bool_decide_eq_true in Hc. by apply owner_None, Hd. }
    destruct (Bool.eqb_spec (sh_who s) w) as [<-|Hne].
    + rewrite (List.filter_ext (alive (s :: ss) [] (sh_who s))
        (λ c, bool_decide (c ∈ ship_cells s) || alive ss [] (sh_who s) c)).
      * rewrite filter_count; [lia|]. intros c Hc. unfold alive. rewrite Hno by done. done.
      * intros c. unfold alive. rewrite Ho. change (hit [] c) with false.
        destruct (bool_decide (c ∈ ship_cells s)); [by rewrite bool_decide_eq_true_2|done].
    + rewrite (List.filter_ext (alive (s :: ss) [] w) (alive ss [] w)); [lia|].
      intros c. unfold alive. rewrite Ho. destruct (bool_decide (c ∈ ship_cells s)) eqn:E; [|done].
      rewrite Hno by done. rewrite !bool_decide_eq_false_2; [done|done|congruence].
Qed.

(** ** What a player sees *)

(** The player [us] owns the ships of the flag FLG_P1 when us is 0. *)
Definition mine (us : Z) (o : option bool) : bool :=
  match o with Some w => Bool.eqb w (us =? 0) | None => false end.

Definition seen (us : Z) (o : option bool) (h : bool) (ch : Z) : Z :=
  match o with
  | Some w => if h then (if w then 64 else 35) else if mine us o then ch else 46
  | None => if h then 42 else 46
  end.

Lemma wp_showPlace us x y g ss bm (Q : Z → game → Prop) : battle (g_tab g) ss bm → on_board (x, y) →
  Q (seen us (owner ss (x, y)) (hit bm (x, y)) (t_sea (g_tab g) x y)) g → wp (showPlace us x y) Q g.
Proof.
  intros Hb Hc HQ. unfold showPlace. wstep. apply wp_flg; [done|].
  pose proof (Hb _ Hc) as Hf. cbn [fst snd] in Hf. rewrite Hf. clear Hf. unfold seen, mine in HQ.
  destruct (us =? 0), (owner ss (x, y)) as [[|]|], (hit bm (x, y));
    repeat (lazymatch goal with
            | |- wp (sea _ _) _ _ => apply wp_sea; [done|]
            | |- _ => wstep
            end; try (exfalso; vm_compute in E; congruence); try clear E); exact HQ.
Qed.

Definition line_seen (us : Z) (ss : list ship) (bm : list cell) (t : table) (y : Z) (xs : list Z) : list Z :=
  (xs ≫= λ x, [32; seen us (owner ss (x, y)) (hit bm (x, y)) (t_sea t x y)]) ++ [32; 124; 10].

Lemma wp_showLine us y xs g ss bm (Q : list Z → game → Prop) :
  battle (g_tab g) ss bm → 0 ≤ y < 10 → (∀ x, x ∈ xs → 0 ≤ x < 10) →
  Q (line_seen us ss bm (g_tab g) y xs) g → wp (showLine us y xs) Q g.
Proof.
  intros Hb Hy. revert Q. induction xs as [|x xs IH]; intros Q Hxs HQ; cbn [showLine]; [by wstep|].
  wstep. apply (wp_showPlace us x y g ss bm); [done|apply on_board_range; cbn [fst snd]; split; [apply Hxs; set_solver|done]|].
  wstep. apply IH; [intros; apply Hxs; set_solver|]. wstep. exact HQ.
Qed.

Definition lines_seen (us : Z) (ss : list ship) (bm : list cell) (t : table) (ys : list Z) : list (list Z) :=
  (λ y, 65 + y :: 124 :: line_seen us ss bm t y (seqZ 0 N_X)) <$> ys.

Lemma wp_showLines us ys g ss bm (Q : list (list Z) → game → Prop) :
  battle (g_tab g) ss bm → (∀ y, y ∈ ys → 0 ≤ y < 10) →
  Q (lines_seen us ss bm (g_tab g) ys) g → wp (showLines us ys) Q g.
Proof.
  intros Hb. revert Q. induction ys as [|y ys IH]; intros Q Hys HQ; cbn [showLines]; [by wstep|].
  wstep. apply (wp_showLine us y _ g ss bm); [done|apply Hys; set_solver|intros x; unfold N_X; rewrite elem_of_seqZ; lia|].
  wstep. apply IH; [intros; apply Hys; set_solver|]. wstep. exact HQ.
Qed.

(** The scene of a player: his ships, the bombs, and nothing else. *)
Definition scene (us : Z) (ss : list ship) (bm : list cell) (t : table) : list (list Z) * Z * Z :=
  (showRow :: lines_seen us ss bm t (seqZ 0 N_Y) ++ [showRow],
   sites ss bm (negb (us =? 0)) places, sites ss bm (us =? 0) places).

Lemma wp_showBattle us g ss bm (Q : (list (list Z) * Z * Z) → game → Prop) :
  battle (g_tab g) ss bm →
  Q (scene us ss bm (g_tab g))
    (mkGame (set_bsites (sites ss bm true places) (sites ss bm false places) (g_tab g)) (over_after ss bm (g_over g))) →
  wp (showBattle us) Q g.
Proof.
  intros Hb HQ. unfold showBattle. wstep.
  apply (wp_showLines us _ g ss bm); [done|intros y; unfold N_Y; rewrite elem_of_seqZ; lia|].
  wstep. apply (wp_recount g ss bm); [done|]. wstep. wstep. cbn [g_tab t_bs0 t_bs1 set_bsites].
  unfold scene in HQ. destruct (us =? 0); wstep; exact HQ.
Qed.

(** Places of the enemy's ships that no bomb has hit do not show: two tables
    that agree on the bombed places and on the player's own ships look the same. *)
Theorem scene_hides us ss ss' bm t t' :
  (∀ c, on_board c → hit bm c = true → owner ss c = owner ss' c) →
  (∀ c, on_board c → mine us (owner ss c) = mine us (owner ss' c)) →
  (∀ c, on_board c → mine us (owner ss c) = true → t_sea t c.1 c.2 = t_sea t' c.1 c.2) →
  (scene us ss bm t).1.1 = (scene us ss' bm t').1.1.
Proof.
  intros Hbm Hmine Hsea. unfold scene. cbn [fst]. f_equal. f_equal. unfold lines_seen.
  apply list_fmap_ext. intros i y Hy. f_equal. f_equal. unfold line_seen. f_equal.
  apply list_elem_of_lookup_2, elem_of_seqZ in Hy.
  assert (∀ x, x ∈ seqZ 0 N_X → seen us (owner ss (x, y)) (hit bm (x, y)) (t_sea t x y) =
    seen us (owner ss' (x, y)) (hit bm (x, y)) (t_sea t' x y)) as Hs.
  { intros x Hx. apply elem_of_seqZ in Hx. assert (on_board (x, y)) as Hc by (apply on_board_range; unfold N_X, N_Y in *; simpl; lia).
    specialize (Hbm _ Hc). specialize (Hmine _ Hc). specialize (Hsea _ Hc). cbn [fst snd] in Hsea.
    unfold seen. destruct (hit bm (x, y)); [by rewrite Hbm|].
    destruct (owner ss (x, y)) as [w|], (owner ss' (x, y)) as [w'|]; cbn [mine] in *; try done.
    - rewrite <-Hmine. destruct (Bool.eqb w (us =? 0)); [by apply Hsea|done].
    - by rewrite Hmine.
    - by rewrite <-Hmine. }
  induction (seqZ 0 N_X) as [|x xs IH]; [done|]. rewrite !bind_cons. rewrite Hs by left. f_equal.
  apply IH. intros x' Hx'. apply Hs. by right.
Qed.
