(* ===== verification/JogoNaval.v ===== *)
(** * The game of battleship between processes (Batalha Naval/main.c, semop.c)

    Process 0 starts the game; the others join it with the number it prints.
    A step is one operation on a semaphore, one access to the table under its
    lock, or one line of input; the processes take their steps in any order.
    The table and the two semaphores are shared, flg_game_over is each
    process's own.  The starter's cleanup removes the semaphores when it ends:
    a later semop of any process fails and lockTable ends that process.
    shmget, semget and shmat are taken to succeed; the process identifiers
    are t + 1. *)

From S2P Require Import Prelude Kernel Threads Batalha.
Local Open Scope Z_scope.

(** ** main.c *)

Inductive jpc :=
  | SLock | SGen | SShow | SUnlock | SPrint | SWait                      (* argc == 1 *)
  | CStart | CLock1 | CRead | CUnlock1 (p2 : Z) | CTest (p2 : Z)         (* argc != 1 *)
  | CLock2 | CShow | CUnlock2 | CReturn | CNotify | Rejected
  | PTop | PLock (mv : option (Z * Z)) | PBomb (x y : Z) | PShow | PUnlock   (* the battle rages *)
  | ELock | EShow | EUnlock | EEnd | EExit | Done                        (* battle is over *)
  | Failed.                                                              (* exit(13) of lockTable *)

#[export] Instance jpc_eq_dec : EqDecision jpc.
Proof. solve_decision. Defined.

Record jogo := mkJogo {
  j_tab : table;
  j_lock : nat;                 (* semaphore 0 *)
  j_note : nat;                 (* semaphore 1 *)
  j_printed : bool;             (* the number of the game is on the terminal *)
  j_pc : nat → jpc;
  j_over : nat → Z;             (* flg_game_over of each process *)
  j_in : nat → list (list Z);   (* the lines each player types *)
}.

Definition pid (t : nat) : Z := Z.of_nat t + 1.
Definition us_of (t : nat) : Z := if (t =? 0)%nat then 0 else 1.

Definition goto (t : nat) (q : jpc) (s : jogo) : jogo :=
  mkJogo (j_tab s) (j_lock s) (j_note s) (j_printed s) (fupd (j_pc s) t q) (j_over s) (j_in s).
Definition w_lock (n : nat) (s : jogo) : jogo :=
  mkJogo (j_tab s) n (j_note s) (j_printed s) (j_pc s) (j_over s) (j_in s).
Definition w_note (n : nat) (s : jogo) : jogo :=
  mkJogo (j_tab s) (j_lock s) n (j_printed s) (j_pc s) (j_over s) (j_in s).
Definition w_in (t : nat) (l : list (list Z)) (s : jogo) : jogo :=
  mkJogo (j_tab s) (j_lock s) (j_note s) (j_printed s) (j_pc s) (j_over s) (fupd (j_in s) t l).
Definition w_printed (s : jogo) : jogo :=
  mkJogo (j_tab s) (j_lock s) (j_note s) true (j_pc s) (j_over s) (j_in s).
Definition w_tab (v : table) (s : jogo) : jogo :=
  mkJogo v (j_lock s) (j_note s) (j_printed s) (j_pc s) (j_over s) (j_in s).

(** A call of game.c by process t, on the table and its own flag. *)
Definition call {A} (t : nat) (m : M game A) (s : jogo) : option jogo :=
  match m (mkGame (j_tab s) (j_over s t)) with
  | Ret _ g => Some (mkJogo (g_tab g) (j_lock s) (j_note s) (j_printed s) (j_pc s)
                       (fupd (j_over s) t (g_over g)) (j_in s))
  | _ => None
  end.

(** cleanup has removed the semaphores. *)
Definition gone (s : jogo) : bool := match j_pc s 0 with Done => true | _ => false end.

(** semop.c: lockTable(semx, bLock), and then on to q; -1 or 1 is added to the
    semaphore, and the process waits while the sum would be negative. *)
Definition lockTable (semx : Z) (bLock : bool) (t : nat) (q : jpc) (s : jogo) : option jogo :=
  if gone s then Some (goto t Failed s) else
  let v := if semx =? 0 then j_lock s else j_note s in
  let put n := if semx =? 0 then w_lock n s else w_note n s in
  n ← (if bLock then sem_wait v else Some (S v)); Some (goto t q (put n)).
Definition LOCK := lockTable 0 true.
Definition UNLOCK := lockTable 0 false.
Definition WAIT2 := lockTable 1 true.
Definition NOTIFY2 := lockTable 1 false.

Section main.
Context (semid : Z) (fuel : nat) (rnd : nat → Z).

(** The first writes of the starter, and genBattle. *)
Definition open_table (t : table) : table :=
  mkTable semid (pid 0) 0 (t_bs0 t) (t_bs1 t) (t_sea t) (t_flg t).

(** p2 = table->player[1].pid, which is set when there is no opponent yet. *)
Definition claim (t : nat) (v : table) : Z * table :=
  if t_pid1 v =? 0
  then (pid t, mkTable (t_semid v) (t_pid0 v) (pid t) (t_bs0 v) (t_bs1 v) (t_sea v) (t_flg v))
  else (t_pid1 v, v).

Definition show (t : nat) (q : jpc) (s : jogo) : option jogo :=
  s' ← call t (showBattle (us_of t)) s; Some (goto t q s').

Definition jstep (t : nat) (s : jogo) : option jogo :=
  match j_pc s t with
  | SLock => LOCK t SGen s
  | SGen => s' ← call t (genBattle fuel rnd) (w_tab (open_table (j_tab s)) s); Some (goto t SShow s')
  | SShow => show t SUnlock s
  | SUnlock => UNLOCK t SPrint s
  | SPrint => Some (goto t SWait (w_printed s))
  | SWait => WAIT2 t PTop s
  | CStart => if j_printed s then Some (goto t CLock1 s) else None
  | CLock1 => LOCK t CRead s
  | CRead => let '(p2, v) := claim t (j_tab s) in Some (goto t (CUnlock1 p2) (w_tab v s))
  | CUnlock1 p2 => UNLOCK t (CTest p2) s
  | CTest p2 => Some (goto t (if p2 =? pid t then CLock2 else Rejected) s)
  | CLock2 => LOCK t CShow s
  | CShow => show t CUnlock2 s
  | CUnlock2 => UNLOCK t CReturn s
  | CReturn => match j_in s t with [] => None | _ :: ls => Some (goto t CNotify (w_in t ls s)) end
  | CNotify => NOTIFY2 t PTop s
  | PTop =>
      if negb (j_over s t =? 0) then Some (goto t ELock s) else
      match j_in s t with [] => None | l :: ls => Some (goto t (PLock (getInput l)) (w_in t ls s)) end
  | PLock None => LOCK t PShow s
  | PLock (Some (x, y)) => LOCK t (PBomb x y) s
  | PBomb x y => s' ← call t (bomb x y) s; Some (goto t PShow s')
  | PShow => show t PUnlock s
  | PUnlock => UNLOCK t PTop s
  | ELock => LOCK t EShow s
  | EShow => show t EUnlock s
  | EUnlock => UNLOCK t EEnd s
  | EEnd => if us_of t =? 0 then WAIT2 t EExit s else NOTIFY2 t Done s
  | EExit => Some (goto t Done s)                                        (* cleanup *)
  | Rejected | Done | Failed => None
  end.
End main.

(** Both semaphores as seminit[] sets them, and any table. *)
Definition jogo0 (v : table) (inp : nat → list (list Z)) : jogo :=
  mkJogo v 1 0 false (λ t, if (t =? 0)%nat then SLock else CStart) (λ _, 0) inp.

(** ** The invariant *)

Definition crit (p : jpc) : bool :=
  match p with
  | SGen | SShow | SUnlock | CRead | CUnlock1 _ | CShow | CUnlock2 | PBomb _ _ | PShow | PUnlock | EShow | EUnlock => true
  | _ => false
  end.

(** The statements of the starter alone, and of the challengers alone. *)
Definition starter (p : jpc) : bool := match p with SLock | SGen | SShow | SUnlock | SPrint | SWait | EExit => true | _ => false end.
Definition joiner (p : jpc) : bool :=
  match p with
  | CStart | CLock1 | CRead | CUnlock1 _ | CTest _ | CLock2 | CShow | CUnlock2 | CReturn | CNotify | Rejected | Failed => true
  | _ => false
  end.

(** The ships are placed, and the number printed. *)
Definition built (p : jpc) : bool := match p with SLock | SGen => false | _ => true end.
Definition late (p : jpc) : bool := match p with SLock | SGen | SShow | SUnlock | SPrint => false | _ => true end.

(** How often a process has used semaphore 1: the starter waited, the
    challenger notified. *)
Definition notes (p : jpc) : nat :=
  match p with
  | PTop | PLock _ | PBomb _ _ | PShow | PUnlock | ELock | EShow | EUnlock | EEnd => 1
  | EExit | Done => 2
  | _ => 0
  end.

(** Process t is the opponent that was accepted. *)
Definition accepted (t : nat) (p : jpc) : bool :=
  match p with
  | CStart | CLock1 | CRead | Rejected | Failed => false
  | CUnlock1 p2 | CTest p2 => p2 =? pid t
  | _ => true
  end.

(** Every place of the ships of one of the players is bombed. *)
Definition sunk (ss : list ship) (bm : list cell) : Prop :=
  ∃ w, ∀ s c, s ∈ ss → sh_who s = w → c ∈ ship_cells s → c ∈ bm.

(** The ships ss are in their places, the places bm bombed. *)
Definition in_play (ss : list ship) (bm : list cell) (s : jogo) : Prop :=
  length ss = 6%nat ∧ ships_ok ss ∧ battle (j_tab s) ss bm ∧ ∀ t, j_over s t ≠ 0 → sunk ss bm.

Definition bomb_ok (p : jpc) : Prop :=
  match p with PLock (Some (x, y)) | PBomb x y => on_board (x, y) | _ => True end.

Section inv.
Context (semid : Z) (fuel : nat) (rnd : nat → Z).
Abbreviation step := (jstep semid fuel rnd).

(** The bombs thrown in a run, the last one first: the calls of bomb() that
    were carried out, with the line that the player typed. *)
Definition threw (t : nat) (s : jogo) : list cell :=
  match j_pc s t, step t s with
  | PBomb x y, Some _ => [(x, y)]
  | _, _ => []
  end.
Fixpoint thrown (sched : list nat) (s : jogo) : list cell :=
  match sched with
  | [] => []
  | t :: sched => thrown sched (default s (step t s)) ++ threw t s
  end.

Lemma call_keeps {A} t (m : M game A) s s' : call t m s = Some s' →
  j_lock s' = j_lock s ∧ j_note s' = j_note s ∧ j_printed s' = j_printed s ∧ j_pc s' = j_pc s ∧ j_in s' = j_in s.
Proof. unfold call. destruct (m _) as [a g| | | |]; [|done..]. by intros [= <-]. Qed.

Lemma us_of_0 t : (us_of t =? 0) = bool_decide (t = 0%nat).
Proof. unfold us_of. by destruct (Nat.eqb_spec t 0), (bool_decide_reflect (t = 0%nat)). Qed.

(** One step, statement by statement; [E] is the statement. *)
Ltac jcase H E :=
  unfold jstep, LOCK, UNLOCK, WAIT2, NOTIFY2, lockTable, show in H;
  change (0 =? 0) with true in H; change (1 =? 0) with false in H; cbv zeta in H;
  rewrite ?us_of_0 in H;
  destruct (j_pc _ _) as [| | | | | | | | |p2|p2| | | | | | | |[[x y]|]|x y| | | | | | | | |] eqn:E;
  repeat match type of H with
  | (sem_wait ?v ≫= _) = Some _ => let W := fresh "W" in
      destruct (sem_wait v) eqn:W; cbn [mbind option_bind] in H; [apply sem_wait_Some in W|done]
  | (call ?t ?m ?s ≫= _) = Some _ => let C := fresh "C" in
      destruct (call t m s) eqn:C; cbn [mbind option_bind] in H; [pose proof (call_keeps _ _ _ _ C) as (? & ? & ? & ? & ?)|done]
  | (match j_in ?s ?t with _ => _ end) = Some _ => let I := fresh "I" in destruct (j_in s t) eqn:I; [done|]
  | (let '(_, _) := claim ?t ?v in _) = Some _ => let K := fresh "K" in
      let p2 := fresh "p2" in let w := fresh "v" in destruct (claim t v) as [p2 w] eqn:K
  | (if ?b then _ else _) = Some _ => let B := fresh "B" in destruct b eqn:B; rewrite ?bool_decide_eq_true, ?bool_decide_eq_false in B
  | None = Some _ => done
  | (Some ?x ≫= _) = Some _ => cbn [mbind option_bind] in H
  end;
  try (injection H as <-);
  cbn [j_tab j_lock j_note j_printed j_pc j_over j_in goto w_lock w_note w_in w_printed w_tab] in *.

(** After one [jcase], what the processes other than t and the calls keep. *)
Ltac kept := repeat match goal with
  | H : j_pc ?j = j_pc _ |- context [j_pc ?j] => rewrite H
  | H : j_lock ?j = j_lock _ |- context [j_lock ?j] => rewrite H
  | H : j_note ?j = j_note _ |- context [j_note ?j] => rewrite H
  | H : j_printed ?j = j_printed _ |- context [j_printed ?j] => rewrite H
  end.

(** At most one process has the table; the semaphore counts while it is there. *)
Definition exclusive (s : jogo) : Prop :=
  (∀ t u, crit (j_pc s t) = true → crit (j_pc s u) = true → t = u) ∧
  (gone s = false → mutex_inv crit (j_lock s) (j_pc s)).

Lemma mutex_one m f : mutex_inv crit m f → ∀ t u, crit (f t) = true → crit (f u) = true → t = u.
Proof.
  intros H t u Ht Hu. destruct (decide (u = t)) as [->|Hne]; [done|].
  by rewrite (mutex_other crit m f t u H Ht Hne) in Hu.
Qed.

(** The starter has ended when the semaphores are gone. *)
Lemma gone_other t s s' : step t s = Some s' → gone s = true → t ≠ 0%nat.
Proof. intros H Hg ->. unfold gone in Hg. unfold jstep in H. by destruct (j_pc s 0). Qed.

(** Once the semaphores are gone, no process enters. *)
Lemma step_leaves t s s' : step t s = Some s' → gone s = true → gone s' = true ∧
  ∀ u, crit (j_pc s' u) = true → crit (j_pc s u) = true.
Proof.
  intros H Hg. pose proof (gone_other t s s' H Hg) as Ht.
  jcase H E; try congruence; unfold gone in *; cbn; kept;
    (split; [by rewrite fupd_ne by lia|]); intros u; unfold fupd; (case_decide; [subst u; rewrite E|done]); try done.
  all: by repeat case_match.
Qed.

Lemma step_mutex t s s' : step t s = Some s' →
  mutex_inv crit (j_lock s) (j_pc s) → gone s = false → mutex_inv crit (j_lock s') (j_pc s').
Proof.
  intros H Hm Hg. jcase H E; try congruence; kept;
    first [ by apply mutex_give; rewrite ?E | apply mutex_take; [congruence|done]
          | apply mutex_keep; [done|rewrite E; by repeat case_match] ].
Qed.

Lemma step_exclusive t s s' : step t s = Some s' → exclusive s → exclusive s'.
Proof.
  intros H [H1 H2]. destruct (gone s) eqn:Hg.
  - destruct (step_leaves t s s' H Hg) as [Hg' Hc]. split; [|by rewrite Hg']. intros u v Hu Hv. by apply H1; apply Hc.
  - pose proof (step_mutex t s s' H (H2 eq_refl) Hg) as Hm. split; [by eapply mutex_one|done].
Qed.

(** Statements stay on their side. *)
Definition sided (t : nat) (p : jpc) : Prop := (starter p = true → t = 0%nat) ∧ (joiner p = true → t ≠ 0%nat) ∧ bomb_ok p.

Lemma getInput_board l c : getInput l = Some c → on_board c.
Proof.
  unfold getInput, N_X, N_Y. case_match eqn:E; [done|]. intros [= <-]. apply on_board_range.
  rewrite !orb_false_iff, !Z.ltb_ge in E. cbn [fst snd]. lia.
Qed.

Lemma step_sided t s s' : step t s = Some s' → (∀ u, sided u (j_pc s u)) → ∀ u, sided u (j_pc s' u).
Proof.
  intros H Hs u. pose proof (gone_other t s s' H) as Hgo. pose proof (Hs t) as Ht. specialize (Hs u). unfold sided in *.
  destruct Ht as (H1 & H2 & H3).
  jcase H E; kept; unfold fupd; (case_decide; [subst u; cbn in H1, H2, H3|done]);
    try (split_and!; cbn; by auto).
  - destruct (p2 =? pid t); split_and!; cbn; by auto.
  - destruct (getInput l) as [[x y]|] eqn:G; split_and!; cbn; try done. by apply getInput_board in G.
Qed.

(** The challengers wait for the number of the game. *)
Definition waiting (s : jogo) : Prop :=
  (j_printed s = true → late (j_pc s 0) = true) ∧
  (j_printed s = false → ∀ t, t ≠ 0%nat → j_pc s t = CStart).

Lemma step_waiting t s s' : step t s = Some s' → (∀ u, sided u (j_pc s u)) → waiting s → waiting s'.
Proof.
  intros H Hs [W1 W2]. pose proof (Hs t) as (S1 & S2 & _). unfold waiting.
  assert (j_printed s = false → t ≠ 0%nat → j_pc s t = CStart) as Ht by auto.
  jcase H E; kept; cbn in S1, S2; split.
  all: try (intros Hp u Hu; unfold fupd; case_decide; [subst u|by auto]; specialize (Ht Hp Hu); congruence).
  all: try (intros Hp; try specialize (W1 Hp); unfold fupd; case_decide; [subst t; rewrite ?E in W1|done]; done).
  - intros _. rewrite (S1 eq_refl). by rewrite fupd_eq.
  - done.
  - intros Hp. rewrite fupd_ne; [by auto|]. specialize (S2 eq_refl). lia.
  - intros Hp. congruence.
  - intros Hp. rewrite fupd_ne; [by auto|]. specialize (S2 eq_refl). lia.
Qed.

(** ** The table in play *)

Lemma sunk_mono ss bm c : sunk ss bm → sunk ss (c :: bm).
Proof. intros [w H]. exists w. intros s d Hs Hw Hd. right. by eapply H. Qed.

Lemma over_sunk ss bm v : ships_ok ss → over_after ss bm v ≠ 0 → (v ≠ 0 → sunk ss bm) → sunk ss bm.
Proof.
  intros Hok Ho Hv. unfold over_after in Ho. destruct (_ || _) eqn:E; [|by apply Hv].
  apply orb_true_iff in E as [E|E]; apply Z.eqb_eq in E.
  - exists true. exact (proj1 (sites_zero ss bm true Hok) E).
  - exists false. exact (proj1 (sites_zero ss bm false Hok) E).
Qed.

(** showBattle and bomb, called by a process. *)
Lemma call_show t us s ss bm : in_play ss bm s → ∃ s', call t (showBattle us) s = Some s' ∧ in_play ss bm s' ∧
  t_pid1 (j_tab s') = t_pid1 (j_tab s).
Proof.
  intros (Hl & Hok & Hb & Ho).
  pose proof (wp_showBattle us (mkGame (j_tab s) (j_over s t)) ss bm
    (λ _ g, g = mkGame (set_bsites (sites ss bm true places) (sites ss bm false places) (j_tab s)) (over_after ss bm (j_over s t)))
    Hb eq_refl) as Hw.
  apply wp_inv in Hw as (r & g & Hr & ->). unfold call. rewrite Hr. eexists. split; [reflexivity|]. split; [|done].
  split_and!; try done. cbn [j_over g_over]. intros u Hu. unfold fupd in Hu. case_decide; [|by eapply Ho].
  subst u. eapply over_sunk; [done|exact Hu|apply Ho].
Qed.

Lemma call_bomb t x y s ss bm : in_play ss bm s → on_board (x, y) →
  ∃ s', call t (bomb x y) s = Some s' ∧ in_play ss ((x, y) :: bm) s' ∧
  t_pid1 (j_tab s') = t_pid1 (j_tab s).
Proof.
  intros (Hl & Hok & Hb & Ho) Hxy.
  assert (wp (bomb x y) (λ _ g, battle (g_tab g) ss ((x, y) :: bm) ∧ t_pid1 (g_tab g) = t_pid1 (j_tab s) ∧ g_over g = j_over s t)
    (mkGame (j_tab s) (j_over s t))) as Hw by (apply (wp_bomb x y _ ss bm); done).
  apply wp_inv in Hw as (r & g & Hr & Hb' & Hp & Hg). unfold call. rewrite Hr. eexists. split; [reflexivity|]. split; [|done].
  split_and!; try done. cbn [j_over]. intros u Hu. apply sunk_mono.
  unfold fupd in Hu. case_decide; [subst u; apply (Ho t); congruence|by apply (Ho u)].
Qed.

Lemma call_gen s s' : (∀ t, j_over s t = 0) →
  call 0 (genBattle fuel rnd) (w_tab (open_table semid (j_tab s)) s) = Some s' →
  ∃ ss, in_play ss [] s' ∧ t_pid1 (j_tab s') = 0.
Proof.
  intros Ho Hc. unfold call in Hc. cbn [j_tab j_over w_tab] in Hc.
  set (g := mkGame (open_table semid (j_tab s)) (j_over s 0)) in Hc. pose proof (genBattle_wpl fuel rnd g) as Hg. unfold wpl in Hg.
  destruct (genBattle fuel rnd g) as [u g'| | | |]; try done. injection Hc as <-.
  destruct Hg as (ss & Hl & Hf & _ & H1 & H2). exists ss. split; [|exact H1].
  split_and!; [done|apply Hf|by apply fleet_battle|]. cbn [j_over]. intros u' Hu. exfalso. apply Hu.
  unfold fupd. case_decide; [|apply Ho]. rewrite H2. apply Ho.
Qed.

(** ** The players *)

Definition new (s : jogo) : Prop := j_note s = 0%nat ∧ ∀ t, j_over s t = 0.

(** No opponent yet; or the opponent c, whose notes the starter waits for. *)
Definition paired (s : jogo) : Prop :=
  (t_pid1 (j_tab s) = 0 ∧ j_note s = 0%nat ∧ notes (j_pc s 0) = 0%nat ∧
     ∀ t, t ≠ 0%nat → accepted t (j_pc s t) = false) ∨
  (∃ c, c ≠ 0%nat ∧ t_pid1 (j_tab s) = pid c ∧
     (∀ t, t ≠ 0%nat → t ≠ c → accepted t (j_pc s t) = false) ∧
     (j_note s + notes (j_pc s 0) = notes (j_pc s c))%nat).

Record jinv (ss : list ship) (bm : list cell) (s : jogo) : Prop := {
  ji_mutex : exclusive s;
  ji_sided t : sided t (j_pc s t);
  ji_waiting : waiting s;
  ji_new : built (j_pc s 0) = false → new s ∧ bm = [];
  ji_play : built (j_pc s 0) = true → in_play ss bm s ∧ paired s;
}.

Lemma jogo0_inv v inp : jinv [] [] (jogo0 v inp).
Proof.
  split; try done.
  - split; [|intros _; apply mutex_init]; intros t; simpl; by repeat case_match.
  - intros t. simpl. destruct (Nat.eqb_spec t 0) as [->|]; split_and!; simpl; done.
  - split; [done|]. intros _ t Ht. simpl. by destruct (Nat.eqb_spec t 0).
Qed.

(** A process that has begun finds the ships placed. *)
Lemma began s t : (∀ u, sided u (j_pc s u)) → waiting s →
  j_pc s t ≠ SLock → j_pc s t ≠ SGen → j_pc s t ≠ CStart → built (j_pc s 0) = true.
Proof.
  intros Hs [W1 W2] H1 H2 H3. destruct (decide (t = 0%nat)) as [->|Ht]; [by destruct (j_pc s 0)|].
  destruct (j_printed s) eqn:E; [|by specialize (W2 eq_refl t Ht)]. specialize (W1 eq_refl). by destruct (j_pc s 0).
Qed.

(** The part of a step that paired sees: process t goes to q. *)
Lemma paired_move s s' t q : paired s → sided t (j_pc s t) →
  j_pc s' = fupd (j_pc s) t q → t_pid1 (j_tab s') = t_pid1 (j_tab s) →
  (t ≠ 0%nat → accepted t q = accepted t (j_pc s t)) →
  (if decide (t = 0%nat) then (j_note s' + notes q = j_note s + notes (j_pc s t))%nat
   else (j_note s' + notes (j_pc s t) = j_note s + notes q)%nat) →
  paired s'.
Proof.
  intros Hp Hs Hpc Hpid Hacc Hn. unfold paired. rewrite Hpc, Hpid.
  assert (∀ u p, accepted u p = false → notes p = 0%nat) as Hna by (by intros u []).
  destruct Hp as [(P1 & P2 & P3 & P4)|(c & Hc & P1 & P2 & P3)].
  - left. split_and!; [done|..].
    + destruct (decide (t = 0%nat)) as [->|Ht]; [lia|].
      rewrite (Hna t (j_pc s t)), (Hna t q) in Hn; [lia|rewrite Hacc by done; auto|auto].
    + destruct (decide (t = 0%nat)) as [->|Ht]; [rewrite fupd_eq; lia|by rewrite fupd_ne by lia].
    + intros u Hu. destruct (decide (u = t)) as [->|]; [rewrite fupd_eq, Hacc by done; auto|rewrite fupd_ne by done; auto].
  - right. exists c. split_and!; [done|done|..].
    + intros u Hu Huc. destruct (decide (u = t)) as [->|]; [rewrite fupd_eq, Hacc by done; auto|rewrite fupd_ne by done; auto].
    + destruct (decide (t = 0%nat)) as [->|Ht]; [rewrite fupd_eq, fupd_ne by done; lia|].
      rewrite (fupd_ne _ _ 0) by lia. destruct (decide (c = t)) as [->|Hct]; [rewrite fupd_eq; lia|].
      rewrite fupd_ne by done. rewrite (Hna t (j_pc s t)), (Hna t q) in Hn; [lia|rewrite Hacc by done; auto|auto].
Qed.

Lemma built_move s t q : built (j_pc s 0) = true → built q = true → built (fupd (j_pc s) t q 0%nat) = true.
Proof. intros H Hq. unfold fupd. by case_decide. Qed.

Definition placed (ss : list ship) (bm : list cell) (s : jogo) : Prop :=
  (built (j_pc s 0) = false → new s ∧ bm = []) ∧ (built (j_pc s 0) = true → in_play ss bm s ∧ paired s).

(** A step after the ships are placed: what remains to show of it. *)
Lemma rest_move ss bm bm' s s' t q : jinv ss bm s → built (j_pc s 0) = true → j_pc s' = fupd (j_pc s) t q → built q = true →
  (in_play ss bm s → in_play ss bm' s' ∧ t_pid1 (j_tab s') = t_pid1 (j_tab s)) →
  (t ≠ 0%nat → accepted t q = accepted t (j_pc s t)) →
  (if decide (t = 0%nat) then (j_note s' + notes q = j_note s + notes (j_pc s t))%nat
   else (j_note s' + notes (j_pc s t) = j_note s + notes q)%nat) →
  placed ss bm' s'.
Proof.
  unfold placed. intros Hi Hb Hpc Hq Hpl Ha Hn. rewrite Hpc, built_move by done. split; [done|]. intros _.
  destruct (ji_play _ _ s Hi Hb) as [H1 H2]. destruct (Hpl H1) as [H3 H4]. split; [done|].
  eapply paired_move; try done. apply Hi.
Qed.

(** The starter ends after the opponent: no process that was accepted finds the
    semaphores gone. *)
Lemma gone_done ss bm s : jinv ss bm s → gone s = true →
  ∀ t, t ≠ 0%nat → accepted t (j_pc s t) = true → j_pc s t = Done ∧ t_pid1 (j_tab s) = pid t.
Proof.
  intros Hi Hg t Ht Ha. unfold gone in Hg. destruct (j_pc s 0) eqn:E0; try done.
  destruct (ji_play _ _ s Hi) as [_ [(_ & _ & P3 & _)|(c & Hc & P1 & P2 & P3)]]; [by rewrite E0|by rewrite E0 in P3|].
  destruct (decide (t = c)) as [->|Hne]; [|by rewrite P2 in Ha by done]. split; [|done].
  rewrite E0 in P3. cbn in P3. destruct (ji_sided _ _ s Hi c) as (S1 & _). destruct (j_pc s c); cbn in P3; try lia; [|done].
  by specialize (S1 eq_refl).
Qed.

Lemma gone_rejected ss bm t s s' : jinv ss bm s → step t s = Some s' → gone s = true →
  t ≠ 0%nat ∧ accepted t (j_pc s t) = false.
Proof.
  intros Hi H Hg. pose proof (gone_other t s s' H Hg) as Ht. split; [done|].
  apply not_true_iff_false. intros Ha. destruct (gone_done ss bm s Hi Hg t Ht Ha) as [Hd _]. unfold jstep in H. by rewrite Hd in H.
Qed.

Lemma rejected_notes t p : accepted t p = false → notes p = 0%nat.
Proof. by destruct p. Qed.

Lemma in_play_pid ss bm s v : in_play ss bm s → t_flg v = t_flg (j_tab s) → in_play ss bm (w_tab v s).
Proof.
  intros (Hl & Hok & Hb & Ho) H2. split_and!; [done|done| |done].
  intros c Hc. cbn [j_tab w_tab]. rewrite H2. by apply Hb.
Qed.

(** A challenger reads the table: the first is accepted, the others are not. *)
Lemma paired_first s t : t ≠ 0%nat → paired s → t_pid1 (j_tab s) = 0 → notes (j_pc s t) = 0%nat →
  paired (goto t (CUnlock1 (pid t))
    (w_tab (mkTable (t_semid (j_tab s)) (t_pid0 (j_tab s)) (pid t) (t_bs0 (j_tab s)) (t_bs1 (j_tab s)) (t_sea (j_tab s)) (t_flg (j_tab s))) s)).
Proof.
  intros Ht Hp Hz Hn. destruct Hp as [(_ & P2 & P3 & P4)|(c & _ & P1 & _)]; [|unfold pid in P1; lia].
  right. exists t. cbn. split_and!; [done|done|..].
  - intros u Hu Hne. rewrite fupd_ne by done. by apply P4.
  - rewrite fupd_eq, fupd_ne by lia. cbn. lia.
Qed.

Lemma paired_other s t : t ≠ 0%nat → paired s → t_pid1 (j_tab s) ≠ 0 → accepted t (j_pc s t) = false →
  paired (goto t (CUnlock1 (t_pid1 (j_tab s))) (w_tab (j_tab s) s)).
Proof.
  intros Ht Hp Hz Ha. destruct Hp as [(P1 & _)|(c & Hc & P1 & P2 & P3)]; [done|].
  right. exists c. cbn. split_and!; [done|done|..].
  - intros u Hu Hne. unfold fupd. case_decide; [subst u|by apply P2]. cbn. rewrite P1. unfold pid. lia.
  - rewrite fupd_ne by lia. unfold fupd. case_decide; [subst c|done]. rewrite P3. by rewrite (rejected_notes _ _ Ha).
Qed.

Lemma threw_pc t s s' : step t s = Some s' → threw t s = match j_pc s t with PBomb x y => [(x, y)] | _ => [] end.
Proof. intros H. unfold threw. rewrite H. by destruct (j_pc s t). Qed.

(** The starter places the ships. *)
Lemma step_gen ss bm t s s' : step t s = Some s' → j_pc s t = SGen → jinv ss bm s →
  ∃ ss', placed ss' (threw t s ++ bm) s' ∧ built (j_pc s 0) = false.
Proof.
  intros H E Hi. rewrite (threw_pc t s s' H), E. destruct (ji_sided _ _ s Hi t) as (S1 & _ & _).
  rewrite E in S1. rewrite (S1 eq_refl) in *. clear S1. unfold jstep in H. rewrite E in H.
  destruct (call 0 _ _) as [j|] eqn:C; [|done]. injection H as <-.
  pose proof (call_keeps _ _ _ _ C) as (H1 & H2 & H3 & H4 & H5).
  destruct (ji_new _ _ s Hi) as [[H1' H2'] Hbm]; [by rewrite E|]. subst bm.
  destruct (call_gen s j H2' C) as (ss' & Hp & Hp1). exists ss'. split; [|by rewrite E].
  split; cbn; rewrite fupd_eq; [done|]. intros _. split; [exact Hp|].
  left. cbn. rewrite H4, H2, fupd_eq. cbn. split_and!; [done|done|done|]. intros u Hu. rewrite fupd_ne by done.
  destruct (ji_waiting _ _ s Hi) as [W1 W2].
  destruct (j_printed s) eqn:Ep; [specialize (W1 eq_refl); by rewrite E in W1|]. by rewrite (W2 eq_refl u Hu).
Qed.

Lemma step_placed ss bm t s s' : step t s = Some s' → j_pc s t ≠ SGen → jinv ss bm s →
  placed ss (threw t s ++ bm) s'.
Proof.
  intros H Hng Hi. pose proof (ji_sided _ _ s Hi t) as (S1 & S2 & S3). pose proof (ji_waiting _ _ s Hi) as [W1 W2].
  assert (j_pc s t ≠ SLock → j_pc s t ≠ SGen → j_pc s t ≠ CStart → built (j_pc s 0) = true) as Hbg
    by (apply began; [apply Hi|done]).
  assert (∀ q j, call t (showBattle (us_of t)) s = Some j → in_play ss bm s →
    in_play ss bm (goto t q j) ∧ t_pid1 (j_tab (goto t q j)) = t_pid1 (j_tab s)) as Hshow.
  { intros q j C Hp. destruct (call_show t (us_of t) s _ _ Hp) as (j' & C' & H1 & H2). rewrite C in C'. by injection C' as <-. }
  pose proof (gone_rejected _ _ t s s' Hi H) as Hgr.
  remember (threw t s ++ bm) as bm' eqn:Hbm. rewrite (threw_pc t s s' H) in Hbm.
  jcase H E; cbn [app] in Hbm; subst bm'.
  all: try (eapply (rest_move ss bm _ s _ t Failed); destruct (Hgr eq_refl) as [Hgt Hga]; pose proof (rejected_notes _ _ Hga);
    [exact Hi|unfold gone in B; by destruct (j_pc s 0)|by cbn; kept|done|by auto|rewrite E, Hga; by auto|rewrite E; cbn in *; case_decide; lia]).
  all: try (eapply (rest_move ss bm _ s _ t _);
    [exact Hi|by apply Hbg|by cbn; kept|by try case_match| |rewrite E; cbn; intros; by try case_match
    |rewrite E; cbn; kept; try specialize (S1 eq_refl); try specialize (S2 eq_refl);
     case_decide; try case_match; lia]; first [by auto | exact (Hshow _ _ eq_refl)]).
  - (* SLock *) rewrite (S1 eq_refl) in *. split; cbn; rewrite fupd_eq; [|done]. intros _.
    destruct (ji_new _ _ s Hi) as [[H1 H2] H3]; [by rewrite E|]. by split.
  - (* CStart *) eapply (rest_move ss bm _ s _ t _); [exact Hi| |done|done|by auto|by rewrite E|rewrite E; cbn; case_decide; lia].
    specialize (W1 eq_refl). by destruct (j_pc s 0).
  - (* CRead *) specialize (S2 eq_refl).
    assert (built (j_pc s 0) = true) as Hb by (by apply Hbg). destruct (ji_play _ _ s Hi Hb) as [Hp Hq].
    split; [cbn; by rewrite built_move|]. intros _. unfold claim in K.
    destruct (t_pid1 (j_tab s) =? 0) eqn:Ez; injection K as <- <-.
    + apply Z.eqb_eq in Ez. split; [by apply in_play_pid|]. apply paired_first; [done..|by rewrite E].
    + apply Z.eqb_neq in Ez. split; [done|]. eapply paired_other; try done. by rewrite E.
  - (* CTest *) eapply (rest_move ss bm _ s _ t _); [exact Hi|by apply Hbg|done|by case_match|by auto|rewrite E|rewrite E].
    + intros _. cbn. by destruct (p2 =? pid t).
    + destruct (p2 =? pid t); cbn; case_decide; lia.
  - (* PBomb *) eapply (rest_move ss bm _ s _ t _); [exact Hi|by apply Hbg|by cbn; kept|done| |by rewrite E|rewrite E; cbn; kept; case_decide; lia].
    intros Hp. destruct (call_bomb t x y s _ _ Hp S3) as (j' & C' & H1' & H2'). rewrite C in C'. by injection C' as <-.
Qed.

Lemma placed_inv ss bm ss' bm' t s s' : step t s = Some s' → jinv ss bm s → placed ss' bm' s' → jinv ss' bm' s'.
Proof.
  intros H Hi [H1 H2]. split; [| | |done|done].
  - eapply step_exclusive; [done|apply Hi].
  - eapply step_sided; [done|apply Hi].
  - eapply step_waiting; [done|apply Hi|apply Hi].
Qed.

(** Once the ships are placed they stay. *)
Lemma step_inv ss bm t s s' : step t s = Some s' → jinv ss bm s →
  ∃ ss', jinv ss' (threw t s ++ bm) s' ∧ (built (j_pc s 0) = true → ss' = ss).
Proof.
  intros H Hi. destruct (decide (j_pc s t = SGen)) as [E|E].
  - destruct (step_gen ss bm t s s' H E Hi) as (ss' & Hp & Hb). exists ss'. split; [by eapply placed_inv|congruence].
  - exists ss. split; [|done]. eapply placed_inv; [done..|by apply step_placed].
Qed.

Lemma thrown_none t s : step t s = None → threw t s = [].
Proof. intros H. unfold threw. rewrite H. by destruct (j_pc s t). Qed.

Lemma built_step t s s' : step t s = Some s' → (∀ u, sided u (j_pc s u)) → waiting s →
  built (j_pc s 0) = true → built (j_pc s' 0) = true.
Proof.
  intros H Hs [W1 W2] Hb. pose proof (Hs t) as (S1 & S2 & _).
  jcase H E; kept; try (rewrite built_move; [done|done|by repeat case_match]); exfalso.
  - rewrite (S1 eq_refl) in *. by rewrite E in Hb.
Qed.

(** Before the ships are placed, which ones they will be is open. *)
Lemma jinv_open ss ss' bm s : jinv ss bm s → built (j_pc s 0) = false → jinv ss' bm s.
Proof. intros Hi Hb. split; try apply Hi. intros Hb'. congruence. Qed.

Lemma run_jinv sched : ∀ ss bm s, jinv ss bm s →
  ∃ ss', (built (j_pc s 0) = true → ss' = ss) ∧
    ∀ n, jinv ss' (thrown (take n sched) s ++ bm) (run step (take n sched) s).
Proof.
  induction sched as [|t sched IH]; intros ss bm s Hi; [exists ss; split; [done|]; intros n; by rewrite take_nil|].
  destruct (step t s) as [s'|] eqn:E.
  - destruct (step_inv ss bm t s s' E Hi) as (ss1 & Hi1 & He1). destruct (IH ss1 _ s' Hi1) as (ss' & He & Hn).
    exists ss'. split.
    { intros Hb. rewrite <- (He1 Hb). apply He. eapply built_step; [done|apply Hi|apply Hi|done]. }
    intros [|n]; cbn [take thrown run].
    + destruct (built (j_pc s 0)) eqn:Hb; [|by eapply jinv_open]. rewrite He by (eapply built_step; [done|apply Hi|apply Hi|done]). by rewrite He1.
    + rewrite E. cbn [default]. rewrite <- app_assoc. apply Hn.
  - destruct (IH ss bm s Hi) as (ss' & He & Hn). exists ss'. split; [done|].
    intros [|n]; cbn [take thrown run].
    + destruct (built (j_pc s 0)) eqn:Hb; [|by eapply jinv_open]. by rewrite He.
    + rewrite E, (thrown_none t s E), app_nil_r. cbn [default]. apply Hn.
Qed.
End inv.

(** ** The theorems *)

(** What two processes playing, and any number of others, can rely on; ss are
    the ships and bm the places of the bombs thrown so far. *)
Record fair_play (ss : list ship) (bm : list cell) (s : jogo) : Prop := {
  (* the table is one process's at a time *)
  fp_alone t u : crit (j_pc s t) = true → crit (j_pc s u) = true → t = u;
  (* no bomb before the ships are placed *)
  fp_early : built (j_pc s 0) = false → bm = [];
  (* the flags of the table are six ships in place and the bombs thrown, and
     a process that has seen the end of the game has seen a fleet sunk *)
  fp_table : built (j_pc s 0) = true → in_play ss bm s;
  (* there is one opponent, whom the table names *)
  fp_one t u : t ≠ 0%nat → u ≠ 0%nat → accepted t (j_pc s t) = true → accepted u (j_pc s u) = true → t = u;
  fp_named t : t ≠ 0%nat → accepted t (j_pc s t) = true → t_pid1 (j_tab s) = pid t;
  (* the starter plays only after the opponent has pressed RETURN, and
     removes the semaphores only when the opponent has finished *)
  fp_begun : (0 < notes (j_pc s 0))%nat → ∃ c, c ≠ 0%nat ∧ (0 < notes (j_pc s c))%nat;
  fp_last t : gone s = true → t ≠ 0%nat → accepted t (j_pc s t) = true → j_pc s t = Done;
}.

Lemma paired_named s t : paired s → t ≠ 0%nat → accepted t (j_pc s t) = true → t_pid1 (j_tab s) = pid t.
Proof.
  intros [(_ & _ & _ & H)|(c & Hc & P1 & P2 & _)] Ht Ha; [by rewrite H in Ha|].
  destruct (decide (t = c)) as [->|Hne]; [done|by rewrite P2 in Ha].
Qed.

Lemma accepted_built ss bm s t : jinv ss bm s → t ≠ 0%nat → accepted t (j_pc s t) = true → built (j_pc s 0) = true.
Proof.
  intros Hi Ht Ha. destruct (ji_sided _ _ s Hi t) as (S1 & _).
  apply (began s t (ji_sided _ _ s Hi) (ji_waiting _ _ s Hi)); intros Hp; rewrite Hp in S1, Ha; try done; by specialize (S1 eq_refl).
Qed.

Lemma jinv_fair ss bm s : jinv ss bm s → fair_play ss bm s.
Proof.
  intros Hi. assert (∀ t, t ≠ 0%nat → accepted t (j_pc s t) = true → t_pid1 (j_tab s) = pid t) as Hn.
  { intros t Ht Ha. apply paired_named; [|done|done]. apply (ji_play _ _ s Hi). by eapply accepted_built. }
  split; [apply Hi|by intros Hb; apply (ji_new _ _ s Hi)|by intros Hb; apply (ji_play _ _ s Hi)| |exact Hn| |].
  - intros t u Ht Hu Hat Hau. apply Hn in Hat, Hau; [|done..]. unfold pid in *. lia.
  - intros Hb. destruct (ji_play _ _ s Hi) as [_ [(_ & _ & P & _)|(c & Hc & _ & _ & P)]]; [destruct (j_pc s 0); cbn in *; first [done|lia]|lia|].
    exists c. split; [done|lia].
  - intros t Hg Ht Ha. by apply (gone_done _ _ s Hi Hg t Ht).
Qed.

(** [C36] The game between processes.  From the semaphores as main() sets them,
    whatever lines the players type, whatever number of processes join and
    however their steps interleave, there are six ships, placed within the
    rules, such that after every number of steps: the table is used by one
    process at a time; no bomb falls before the ships are placed, and from then
    on the flags show exactly these ships and exactly the places of the bombs
    that the run has thrown (the calls of bomb() carried out); game over is
    only ever seen after every place of one fleet is bombed; one challenger at
    most is accepted, the one that the table names; the starter's battle begins
    after that challenger has pressed RETURN, and the starter's cleanup comes
    only when that challenger is done. *)
Theorem jogo_safe semid fuel rnd v inp sched :
  ∃ ss, ∀ n, let sc := take n sched in
    fair_play ss (thrown semid fuel rnd sc (jogo0 v inp)) (run (jstep semid fuel rnd) sc (jogo0 v inp)).
Proof.
  destruct (run_jinv semid fuel rnd sched [] [] _ (jogo0_inv v inp)) as (ss & _ & H).
  exists ss. intros n sc. apply jinv_fair. specialize (H n). by rewrite app_nil_r in H.
Qed.

(** How many steps a process is away from giving the table back. *)
Definition left (p : jpc) : nat :=
  match p with
  | PBomb _ _ => 3
  | SShow | CRead | CShow | PShow | EShow => 2
  | SUnlock | CUnlock1 _ | CUnlock2 | PUnlock | EUnlock => 1
  | _ => 0
  end.

(** A process that has the table, and has drawn the ships if that is its part,
    neither waits nor fails. *)
Lemma held_steps semid fuel rnd ss bm s t : jinv ss bm s → gone s = false → left (j_pc s t) ≠ 0%nat →
  ∃ s', jstep semid fuel rnd t s = Some s' ∧ gone s' = false ∧
    left (j_pc s' t) = pred (left (j_pc s t)) ∧
    j_lock s' = if decide (left (j_pc s t) = 1%nat) then S (j_lock s) else j_lock s.
Proof.
  intros Hi Hg Hc.
  assert (in_play ss bm s) as Hp.
  { apply (ji_play _ _ s Hi). apply (began s t (ji_sided _ _ s Hi) (ji_waiting _ _ s Hi)); intros Hp; by rewrite Hp in Hc. }
  destruct (ji_sided _ _ s Hi t) as (_ & _ & S3).
  assert (∀ q s', j_pc s' = fupd (j_pc s) t q → q ≠ Done → gone s' = false) as Hgo.
  { intros q s' Hpc Hq. unfold gone in *. rewrite Hpc. unfold fupd. case_decide; [by destruct q|done]. }
  assert (∀ q, q ≠ Done → left (j_pc s t) = S (left q) → left q ≠ 0%nat → ∃ s', show t q s = Some s' ∧ gone s' = false ∧
    left (j_pc s' t) = pred (left (j_pc s t)) ∧ j_lock s' = if decide (left (j_pc s t) = 1%nat) then S (j_lock s) else j_lock s) as Hs.
  { intros q Hq Hl Hl'. unfold show. destruct (call_show t (us_of t) s _ _ Hp) as (s' & Cs & _). rewrite Cs.
    apply call_keeps in Cs as (H1 & _ & _ & H2 & _). eexists. split; [reflexivity|].
    split; [by apply (Hgo q); cbn; rewrite ?H2|]. cbn. rewrite fupd_eq, H1, Hl. split; [done|by case_decide; [lia|]]. }
  assert (∀ q, q ≠ Done → left q = 0%nat → left (j_pc s t) = 1%nat → ∃ s', UNLOCK t q s = Some s' ∧ gone s' = false ∧
    left (j_pc s' t) = pred (left (j_pc s t)) ∧ j_lock s' = if decide (left (j_pc s t) = 1%nat) then S (j_lock s) else j_lock s) as Hu.
  { intros q Hq Hl Hl'. unfold UNLOCK, lockTable. rewrite Hg. eexists. split; [reflexivity|].
    split; [by apply (Hgo q)|]. cbn. by rewrite fupd_eq, Hl, Hl'. }
  unfold jstep. destruct (j_pc s t) eqn:E; try done; try (by apply Hs); try (by apply Hu).
  - destruct (claim t (j_tab s)) as [p2 v]. eexists. split; [reflexivity|]. split; [by eapply Hgo|]. cbn. by rewrite fupd_eq.
  - destruct (call_bomb t x y s _ _ Hp S3) as (s' & Cs & _). rewrite Cs. apply call_keeps in Cs as (H1 & _ & _ & H2 & _).
    eexists. split; [reflexivity|]. split; [by apply (Hgo PShow); cbn; rewrite ?H2|]. cbn. by rewrite fupd_eq, H1.
Qed.

Lemma gives_back semid fuel rnd n ss bm s t : jinv ss bm s → gone s = false → left (j_pc s t) = S n →
  j_lock (run (jstep semid fuel rnd) (replicate (S n) t) s) = S (j_lock s).
Proof.
  revert ss bm s. induction n as [|n IH]; intros ss bm s Hi Hg Hl;
    (destruct (held_steps semid fuel rnd ss bm s t Hi Hg) as (s' & H & Hg' & Hl' & Hk); [lia|]);
    cbn [replicate run]; rewrite H; cbn [default]; rewrite Hl in *.
  - change (j_lock s' = S (j_lock s)). by rewrite Hk, decide_True.
  - rewrite decide_False in Hk by lia. rewrite <- Hk. destruct (step_inv _ _ _ _ _ _ _ _ H Hi) as (ss' & Hi' & _).
    eapply IH; [exact Hi'|done|by rewrite Hl'].
Qed.

(** Nobody waits for the table because its user is stuck.  In every
    reachable state with the semaphore of the table taken, one process has the
    table; unless it is drawing the ships, it can go on at once, without
    waiting and without leaving the board, and three steps of its own at most
    give the table back. *)
Theorem jogo_gives_back semid fuel rnd v inp sched s :
  run (jstep semid fuel rnd) sched (jogo0 v inp) = s → gone s = false → j_lock s = 0%nat →
  ∃ h, crit (j_pc s h) = true ∧ (j_pc s h ≠ SGen →
    ∃ k, (k ≤ 3)%nat ∧ j_lock (run (jstep semid fuel rnd) (replicate k h) s) = 1%nat).
Proof.
  intros Hs Hg H0. assert (∃ ss bm, jinv ss bm s) as (ss & bm & Hi).
  { destruct (run_jinv semid fuel rnd sched [] [] _ (jogo0_inv v inp)) as (ss & _ & Hn). specialize (Hn (length sched)).
    rewrite take_ge in Hn by lia. rewrite Hs in Hn. by eexists _, _. }
  destruct (ji_mutex _ _ s Hi) as [_ Hm]. specialize (Hm Hg). rewrite H0 in Hm.
  destruct (mutex_held _ _ Hm) as [h Hh]. exists h. split; [done|]. intros Hne.
  destruct (left (j_pc s h)) as [|n] eqn:El; [by destruct (j_pc s h)|]. exists (S n).
  split; [destruct (j_pc s h); cbn in El; lia|]. by rewrite (gives_back semid fuel rnd n ss bm s h Hi Hg El), H0.
Qed.

(** The starter has placed the ships, and shows the table. *)
Definition rnd1 (i : nat) : Z := (Z.of_nat i * 1103515245 + 12345) mod 2147483648 / 65536.
Definition table1 : table := mkTable 0 0 0 0 0 (λ _ _, 0) (λ _ _, 0).

Lemma jogo_gives_back_witness : ∃ h,
  let s := run (jstep 9 40 rnd1) [0; 0]%nat (jogo0 table1 (λ _, [])) in
  crit (j_pc s h) = true ∧ (j_pc s h ≠ SGen →
    ∃ k, (k ≤ 3)%nat ∧ j_lock (run (jstep 9 40 rnd1) (replicate k h) s) = 1%nat).
Proof. apply (jogo_gives_back 9 40 rnd1 table1 (λ _, []) [0; 0]%nat); [reflexivity|vm_compute; reflexivity|vm_compute; reflexivity]. Defined.
